(* ===== verification/_CoqProject ===== *)
-Q . S2P
Prelude.v
PyFloat.v
PyTime.v
Numeric.v
Jalali.v
PyText.v
EconCatalog.v
EconomicStore.v
PyUrl.v
SafeFetch.v
PyJson.v
MarketHours.v
Validation.v
EquityAdjust.v
BourseParse.v
TrendAlignment.v
TrendReplay.v
Breaker.v
ProviderRegistry.v
NewsRegistry.v
NewsText.v
NewsConsolidate.v
IndexScale.v
BourseDB.v
BourseIngest.v
MarketShares.v
EquityIngest.v
Intervals.v
PriceDB.v
Features.v
Microstructure.v
TgjuFeed.v
TgjuBackfill.v
TgjuDaily.v
Funds.v
Collect.v
Retention.v
BackupManifest.v
Costs.v
TrendJob.v
SignalUniverse.v
SignalEngine.v
SignalAssembly.v
Backtest.v
TrendSignal.v
MetaGate.v
Evaluate.v
SelfLearning.v
Predicting.v
