(* ===== verification/Prelude.v ===== *)
(** * The prediction service of tala-pala: a verification library

    The service under [src/prediction-python/app] collects gold, currency and
    equity prices from outside sources, checks them, repairs and adjusts their
    histories, evaluates trends, and publishes a buy/hold/sell reading with its
    evidence; around that it mirrors the Tehran market and the published economic
    statistics into tables that keep every print, fetches documents through a
    hardened client, rations its polling of the sources and prunes its own tables.
    This library translates the decision-making parts of that program into Rocq and
    proves what makes them correct.

    ** Files

    Foundations (Python's values, no program logic of their own):
    - [Prelude]: the [result] monad for code that raises, [traverse], stable
      sorting ([py_sorted]), minimum and maximum with Python's tie rule, weak
      orders, list lemmas, the tactics, and the hint database [pylib];
    - [PyFloat]: binary64 arithmetic executed bit for bit, Python's rounding,
      [int] and [float] conversions, and the order lemmas;
    - [PyTime]: dates, instants, time zones, [timedelta];
    - [Numeric]: the signs of the numbers a numeric column holds;
    - [PyText], [PyJson]: ASCII string methods, decimal texts of integers, and
      parsed JSON;
    - [PyUrl]: [urlsplit] and [ipaddress] of the standard library.

    Components, each with its state, operations and theorems:
    - [Jalali] (economic/jalali.py, features/engineering.py,
      providers/tse_funds.py): the calendar conversions are inverse to each other
      on every real date, and the copies agree;
    - [MarketHours] (core/market_hours.py, core/freshness.py): the reported start
      of a closure is right (closed from there to now, open just before), and
      freshness is monotone in the observation time;
    - [Validation] (core/validation.py, core/normalize.py, core/formula.py): exactly
      which observations are accepted, and what the suspect streak counts;
    - [EquityAdjust] (equities/adjust.py): parsing, detection of corporate actions,
      chained factors, adjusted closes and the gate in front of publication;
    - [IndexScale] (bourse/scale.py): power-of-ten repair of index histories;
    - [BourseParse] (bourse/parse.py): the market payloads, accepted only whole: an
      accepted history is one instrument's, ascending, positive and in range;
    - [BourseDB] (the bourse tables of db.py): the tables as maps by primary key, their
      CHECKs and foreign keys, and the insert that ignores conflicts;
    - [BourseIngest] (bourse/ingest.py): the four ingests and the run over a request;
      stored values are written once, a run preserves every constraint and keeps
      exactly the items it reports;
    - [MarketShares] (bourse/shares.py, scripts/tsetmc_fetch.py): the mirror of the
      listed shares and its guards against a truncated payload, day files, the
      manifest, and the walk that covers it call by call;
    - [EquityIngest] (equities/ingest.py): the equity bars and what is derived of them:
      bars are written once, the stored actions and the verdict are always those of the
      stored bars, and a file that fails leaves no trace;
    - [EconCatalog] (economic/catalog.py): the catalog of series and its lint;
    - [EconomicStore] (economic/store.py): the bitemporal store of observations, whose
      history is append-only under concurrent writers, refines an abstract list of
      prints, and answers questions about the past the same for ever;
    - [TrendAlignment] (models/trend_alignment.py): resampling, moving averages,
      the three-timeframe alignment, and its independence of candles that have
      not closed;
    - [TrendReplay] (models/trend_backtest.py): the measured track record of the
      alignment: no state of a replayed bar depends on later data, forward returns
      are never filled in, a basis is chosen only where it exists, and the
      published counts add up;
    - [Breaker]: the interface of a circuit breaker (a class of operations and a
      class of laws) and the bound on the attempts an outage can cost, proved
      once against it;
    - [ProviderRegistry] (providers/registry.py) and [NewsRegistry]
      (news/registry.py): the two implementations of [Breaker], selection,
      recording and cached rows;
    - [NewsText] (news/dedupe.py) and [NewsConsolidate] (news/consolidate.py): text
      identity of articles and their grouping into events: nothing is lost, each
      membership is backed by the strongest match, copies are not corroboration;
    - [SafeFetch] (news/safefetch.py, and the constants of providers/base.py): every
      request of a fetch is vetted, redirects and retries are bounded, credentials stay
      with the host they were given for; the XML and JSON gates;
    - [Intervals] (models/intervals.py): the conformal prediction band, the finite-sample
      guarantee of its nominal level with the rounding of its ranks, and the
      walk-forward measurement of coverage, which never looks ahead;
    - [PriceDB] (providers/base.py, core/validation.py, and the observation and price
      tables of db.py): quotes, dedupe keys, rows and inserts;
    - [Features] (features/engineering.py, jobs/features.py): the whole frame of a symbol's
      features, of which no row reads a later one, the snapshot a model is given, and the
      job that stores it;
    - [Microstructure] (features/microstructure.py): the frame of the dealers' spreads and the
      cadence of the quotes, known at its own time, the as-of join that reads it, and the
      decomposition of a move of the premium;
    - [Collect] (jobs/collect.py): the whole collection pass, as a state monad over the
      tables and the pass's own bookkeeping: why a price is in the table, that nothing
      is rewritten, asked twice or silently missing;
    - [TgjuFeed] (providers/tgju.py), [TgjuBackfill] (jobs/tgju_backfill.py) and
      [TgjuDaily] (jobs/tgju_daily.py): what the feed's texts say; the deep history
      spliced below the live observations, guarded, exact and idempotent; the daily
      closes, which never touch a day another source observed;
    - [Funds] (bourse/funds.py): one toman close per settled session of a commodity
      fund, the rial number it came from beside it, refused whole when a step of the
      series is not explained;
    - [Retention] (core/retention.py): the pruning run and the windows it protects;
    - [BackupManifest] (core/backup_manifest.py): what a manifest that verifies says of
      the files of a backup;
    - [Costs] (core/costs.py): the provenance of the trading-cost hurdle;
    - [TrendJob] (jobs/trend_alignment.py): the candles built from the prices, the state of
      a symbol, the events that record its entries into a full alignment, the alerts, the
      stored track record and the pass: being aligned is not an event, becoming aligned is,
      once per triple of closed candles, and no weaker obligation costs a stronger one;
    - [SignalUniverse] (signals/universe.py): which factors an asset may be scored on, and
      what each needs;
    - [SignalEngine] (signals/engine.py, the first half): the scoring of a reading, factor
      by factor, and the rules of publication;
    - [SignalAssembly] (signals/engine.py, the second half; jobs/signals.py; detect_regime of
      models/training.py): the reads a reading is made of, and the pass over the universe;
    - [TrendSignal]: what the signal engine reads is what the trend job wrote;
    - [Backtest] (backtest/engine.py): the replay of a forecast over a history is a ledger of
      trades that never reads a bar ahead, and the metrics and the stored run are those the
      ledger gives;
    - [MetaGate] (models/metagate.py): the secondary model fitted on the service's own matured
      predictions: it answers only within the support of its fit, on outcomes of the very
      symbol and number of days it is asked about;
    - [Evaluate] (jobs/evaluate.py; the live accuracies of models/ensemble.py): the grading of
      due predictions, which writes outcomes and nothing else, and the live calibration;
    - [SelfLearning]: what [MetaGate] and [Evaluate] compute is the same before and after
      [Retention] has pruned;
    - [Predicting] (models/predicting.py): the prediction pass, from the active model to the
      stored row: what the row says was done, what may move its confidence, and that every
      requested pair is accounted for.

    ** How the parts meet

    [Collect.run_collect] is the front of the pipeline: it asks the providers that
    [ProviderRegistry.load_provider_rows] selects, passes each value through
    [Validation.classify_observation], settles a symbol while
    [MarketHours.is_acceptably_fresh] holds of its quote, and stores through [PriceDB]; providers and news
    sources are chosen by the registries, whose breakers are driven by the
    recorded outcomes; histories are repaired by [IndexScale.verdict] and
    [EquityAdjust.adjust] before anything reads them.  [TrendJob] builds candles from the
    accepted prices, gives them to [TrendAlignment.evaluate] and [TrendReplay.backtest], and
    stores the conclusions; [Features] turns the same prices into columns.
    [SignalAssembly] reads the prices, the features, the state and the entries that
    [TrendJob] stored, the costs of [Costs] and the opening hours of [MarketHours], leaves out
    what [SignalUniverse] does not allow or the data does not support, and gives the rest to
    [SignalEngine.compute_signal].  [Predicting] serves the active model on bars of the accepted
    prices by [Features], puts its interval around the forecast with [Intervals], reads the live
    calibration and the gate that [Evaluate] and [MetaGate] have stored, and stores the row that
    [Evaluate] grades, [MetaGate] learns from, [Retention] keeps and [SignalAssembly] reads; [Backtest]
    replays forecasts over the same prices.  [EquityIngest] stores what
    [EquityAdjust] parses and judges, by the restatement rules of [BourseIngest];
    [Funds] writes the closes of the commodity funds through [PriceDB] by the same
    rules, against the sessions [BourseDB] records.  [TgjuFeed] reads the live and daily
    texts of one source; [TgjuBackfill] and [TgjuDaily] store its daily closes through
    [PriceDB], below and between the observations [Collect] stores.  [SafeFetch.fetch] serves the news
    and the economic documents; what [EconCatalog] lists, [EconomicStore] registers and records.  The
    payloads of the exchange go through [BourseParse] into [BourseIngest] and
    [MarketShares], which share the tables of [BourseDB]; [BourseIngest] repairs the
    index histories it merges with [IndexScale].  The program passes plain values between these
    parts through database rows, so each file's definitions take those values as
    arguments, and the tables they read and write are explicit lists or maps.

    ** Conventions

    Definitions keep the names of the source.  A function that can raise returns
    [result error A]; refusal texts are the data they are made of (an inductive
    type with one constructor per text).  A database table is a list of rows in
    storage order (or a map by its unique key), a statement that may fail takes
    its failure as an argument, and the clock is an argument.  Floats are never
    idealised: every theorem about prices holds of the rounded binary64
    results, NaN and infinities included where the statement says so.  Code
    outside the repository (the time zone database, NumPy, the database's
    collation and its numeric columns, [repr] of a float, the Unicode tables, name
    resolution, [urljoin] and the transport under the HTTP client) is a parameter; the
    windows of pandas and the statistics of NumPy are the classes [Features.Pandas],
    [Microstructure.PandasTime], [Intervals.NumPy] and [SignalAssembly.Statistics], and the
    linear algebra and the optimiser behind the gate the class [MetaGate.GateMath];
    where a theorem needs documented behaviour of it, that is a named hypothesis
    or a class of laws, with an instance or a witness that satisfies it.

    ** Bounds and fuel

    - [MarketHours.last_close] walks back at most eight days, as the code's loop
      does; the theorems show that a trading day is always found.
    - [Jalali.month_walk] has one step per month of the year.
    - [NewsText.sub_tags] has one step per character of the text
      ([sub_tags_fuel]).
    - [Retention.delete_loop] has [MAX_BATCHES] steps, the code's own bound;
      [retention_exact] states the backlog for which that bound is enough.
    - [SafeFetch.hops] has [max_redirects + 1] steps per attempt and
      [SafeFetch.attempts] [max_attempts], the ranges of the code's loops;
      [fetch_bounded] proves that their product bounds the requests of a fetch.
    - [MarketShares.walk] has one step per entry of the manifest, and [walk_covers]
      proves that it always ends within them.
    - [TrendAlignment.bucket_start_floor] holds for candles up to the year 2255,
      beyond which a float of seconds no longer holds a microsecond count.

    ** What is not modelled

    Network and file I/O, HTML scraping, SQL text and table declarations, the
    FastAPI shell, the metrics, and the numerical model fitting done by NumPy, pandas,
    scikit-learn and statsmodels.  Of the decision-making code these parts are left:
    - the parsers of the economic documents (economic/cbi.py, cbi_history.py, sci.py) and
      the HTTP adapters of the price providers other than TGJU, which read what
      third-party libraries make of a page;
    - the training and the selection of the models (models/training.py), the models
      themselves, among them the ensemble (models/ensemble.py), and the forecasts of a
      horizon of one's own (models/custom.py); a trained model is the interface
      [Predicting.ForecastModel];
    - the keyword rules of the news (news/classify.py, intelligence.py) and the jobs that
      only wrap a component (jobs/cleanup.py, economic.py, news.py, news_collect.py). *)
From stdpp Require Export base tactics option list numbers strings gmap sorting.
From Stdlib Require Export ZArith Lia.

#[export] Set Default Goal Selector "!".
Local Open Scope Z_scope.

(** ** Fallible computations

    Python code that raises is a value of [result E A]; the bind notation
    [x ← e; k] is stdpp's, through the two instances below. *)
Inductive result (E A : Type) : Type :=
| Ok (a : A)
| Err (e : E).
Arguments Ok {E A} a.
Arguments Err {E A} e.

#[export] Instance result_ret E : MRet (result E) := λ A, Ok.
#[export] Instance result_bind E : MBind (result E) := λ A B f m,
  match m with Ok a => f a | Err e => Err e end.
#[export] Instance result_fmap E : FMap (result E) := λ A B f m,
  match m with Ok a => Ok (f a) | Err e => Err e end.

(** [raise_if b e]: [if b: raise e]. *)
Definition raise_if {E} (b : bool) (e : E) : result E () :=
  if b then Err e else Ok ().

Definition is_ok {E A} (m : result E A) : bool :=
  match m with Ok _ => true | Err _ => false end.

Lemma bind_Ok {E A B} (m : result E A) (f : A → result E B) b :
  (m ≫= f) = Ok b ↔ ∃ a, m = Ok a ∧ f a = Ok b.
Proof.
  destruct m as [a|e]; simpl; split.
  - eauto.
  - intros (a' & [= <-] & H). exact H.
  - discriminate.
  - intros (a' & [=] & _).
Qed.

Lemma Ok_inj {E A} (x y : A) : @Ok E A x = Ok y → x = y.
Proof. by intros [= ->]. Qed.

Lemma raise_if_Ok {E} b (e : E) u : raise_if b e = Ok u ↔ b = false.
Proof. destruct b, u; simpl; naive_solver. Qed.

Lemma bind_Err {E A B} (m : result E A) (f : A → result E B) e :
  (m ≫= f) = Err e ↔ m = Err e ∨ ∃ a, m = Ok a ∧ f a = Err e.
Proof.
  destruct m as [a|e']; simpl; split.
  - eauto.
  - intros [[=]|(a' & [= <-] & H)]. exact H.
  - intros [= <-]. by left.
  - intros [[= <-]|(a' & [=] & _)]. done.
Qed.

Lemma raise_if_Err {E} b (e e' : E) : raise_if b e = Err e' ↔ b = true ∧ e' = e.
Proof. destruct b; simpl; naive_solver. Qed.

(** [for x in l: out.append(f x)], stopping at the first exception. *)
Fixpoint traverse {E A B} (f : A → result E B) (l : list A) : result E (list B) :=
  match l with
  | [] => Ok []
  | x :: l' => y ← f x; ys ← traverse f l'; Ok (y :: ys)
  end.

Lemma traverse_Ok {E A B} (f : A → result E B) l ys :
  traverse f l = Ok ys ↔ Forall2 (λ x y, f x = Ok y) l ys.
Proof.
  revert ys; induction l as [|x l IH]; intros ys; simpl.
  - split; [intros [= <-]; constructor | by inversion 1].
  - rewrite bind_Ok. setoid_rewrite bind_Ok. setoid_rewrite IH. split.
    + intros (y & Hy & ys' & Hys & [= <-]). by constructor.
    + inversion 1; subst; eauto 10.
Qed.

Lemma traverse_length {E A B} (f : A → result E B) l ys :
  traverse f l = Ok ys → length ys = length l.
Proof. intros H%traverse_Ok. symmetry. by eapply Forall2_length. Qed.

(** ** Case analysis tactics *)

(** Split every [bind] and [raise_if] that is known to return normally. *)
Ltac inv_ok :=
  repeat match goal with
  | H : Ok _ = Ok _ |- _ => injection H as H
  | H : Err _ = Ok _ |- _ => discriminate H
  | H : Ok _ = Err _ |- _ => discriminate H
  | H : (_ ≫= _) = Ok _ |- _ =>
      apply bind_Ok in H; let a := fresh "a" in let Ha := fresh "Hok" in
      destruct H as (a & Ha & H)
  | H : raise_if _ _ = Ok _ |- _ => apply raise_if_Ok in H
  | H : context [raise_if ?b _ ≫= _] |- _ =>
      first [ is_var b; fail 1 | let E := fresh "Hb" in destruct b eqn:E ]; simpl in H
  end; subst.

Ltac destruct_if :=
  match goal with
  | |- context [if ?b then _ else _] => let E := fresh "Hb" in destruct b eqn:E
  | H : context [if ?b then _ else _] |- _ => let E := fresh "Hb" in destruct b eqn:E
  end.

(** Boolean conditions of the code, turned into propositions. *)
Ltac bool_to_prop :=
  repeat match goal with
  | H : _ && _ = true |- _ => apply andb_true_iff in H; destruct H
  | H : _ || _ = false |- _ => apply orb_false_iff in H; destruct H
  | H : _ && _ = false |- _ => apply andb_false_iff in H
  | H : _ || _ = true |- _ => apply orb_true_iff in H
  | H : negb _ = true |- _ => apply negb_true_iff in H
  | H : negb _ = false |- _ => apply negb_false_iff in H
  | H : (_ <? _) = true |- _ => apply Z.ltb_lt in H
  | H : (_ <? _) = false |- _ => apply Z.ltb_ge in H
  | H : (_ <=? _) = true |- _ => apply Z.leb_le in H
  | H : (_ <=? _) = false |- _ => apply Z.leb_gt in H
  | H : (_ =? _) = true |- _ => apply Z.eqb_eq in H
  | H : (_ =? _) = false |- _ => apply Z.eqb_neq in H
  | H : bool_decide _ = true |- _ => apply bool_decide_eq_true in H
  | H : bool_decide _ = false |- _ => apply bool_decide_eq_false in H
  end.

(** A closed decidable proposition, by evaluation. *)
Ltac by_decide := apply (bool_decide_unpack _); vm_compute; exact I.

(** Linear arithmetic with [/] and [mod] by constants (Python's [//] and [%]). *)
Ltac divlia := Z.div_mod_to_equations; lia.

(** Name the quotient and the remainder of [n] by the positive constant [k]. *)
Ltac quot_rem n k q r :=
  pose proof (Z.mod_pos_bound n k ltac:(lia));
  pose proof (Z.div_mod n k ltac:(lia));
  set (q := n / k) in *; set (r := n mod k) in *; clearbody q r.

(** Decide every integer equality test of the goal by linear arithmetic. *)
Ltac eqb_lia :=
  repeat match goal with
  | |- context [?a =? ?b] => destruct (Z.eqb_spec a b)
  end; simpl; try done; lia.

(** ** Stable sorting: [sorted(l, key=...)] and [l.sort(key=...)]

    Python's sort is stable and uses only [<] on the keys; insertion from the
    right that stops at the first element not below the new one is the same
    function. *)
Section StableSort.
Context {A : Type} (lt : A → A → bool).

Fixpoint insert_sorted (x : A) (l : list A) : list A :=
  match l with
  | [] => [x]
  | y :: l' => if lt y x then y :: insert_sorted x l' else x :: y :: l'
  end.

Definition py_sorted (l : list A) : list A := foldr insert_sorted [] l.

(** [not_below x y]: [y] is not strictly below [x], so [x] may precede it. *)
Definition not_below (x y : A) : Prop := lt y x = false.

Lemma insert_sorted_perm x l : insert_sorted x l ≡ₚ x :: l.
Proof.
  induction l as [|y l IH]; simpl; [done|].
  destruct (lt y x); [|done]. rewrite IH. constructor.
Qed.

Lemma py_sorted_perm l : py_sorted l ≡ₚ l.
Proof.
  induction l as [|x l IH]; simpl; [done|]. by rewrite insert_sorted_perm, IH.
Qed.

Lemma py_sorted_length l : length (py_sorted l) = length l.
Proof. by rewrite py_sorted_perm. Qed.

(** Already in order: nothing moves (stability on equal keys included). *)
Lemma py_sorted_id l : StronglySorted not_below l → py_sorted l = l.
Proof.
  induction 1 as [|x l _ IH Hx]; simpl; [done|]. rewrite IH.
  destruct Hx as [|y l Hy]; simpl; [done|]. unfold not_below in Hy. by rewrite Hy.
Qed.

Class WeakOrder : Prop := {
  wo_asym x y : lt x y = true → lt y x = false;
  wo_negtrans x y z : lt x y = false → lt y z = false → lt x z = false;
}.

Lemma insert_sorted_sorted `{!WeakOrder} x l :
  StronglySorted not_below l → StronglySorted not_below (insert_sorted x l).
Proof.
  induction 1 as [|y l Hl IH Hy]; simpl; [repeat constructor|].
  destruct (lt y x) eqn:Hyx; constructor; [done| | |].
  - rewrite insert_sorted_perm. constructor; [by apply wo_asym|done].
  - by constructor.
  - constructor; [done|]. eapply Forall_impl; [exact Hy|]. intros z Hz.
    exact (wo_negtrans z y x Hz Hyx).
Qed.

Lemma py_sorted_sorted `{!WeakOrder} l : StronglySorted not_below (py_sorted l).
Proof. induction l; simpl; [constructor|by apply insert_sorted_sorted]. Qed.

Lemma py_sorted_idem `{!WeakOrder} l : py_sorted (py_sorted l) = py_sorted l.
Proof. apply py_sorted_id, py_sorted_sorted. Qed.
End StableSort.
Arguments WeakOrder {A} lt.

(** Where incomparable elements are equal the sorted list is unique. *)
Lemma py_sorted_perm_eq {A} (lt : A → A → bool) `{!WeakOrder lt} l k :
  (∀ x y, x ∈ l → y ∈ l → lt x y = false → lt y x = false → x = y) →
  l ≡ₚ k → py_sorted lt l = py_sorted lt k.
Proof.
  intros Htot Hp. apply (StronglySorted_unique_strong (not_below lt)).
  - intros x y Hx Hy Hxy Hyx. rewrite py_sorted_perm in Hx, Hy. rewrite <- Hp in Hy.
    by apply Htot.
  - by apply py_sorted_sorted.
  - by apply py_sorted_sorted.
  - by rewrite !py_sorted_perm.
Qed.

Lemma key_weak_order {A B} (key : A → B) (lt : B → B → bool) :
  WeakOrder lt → WeakOrder (λ x y, lt (key x) (key y)).
Proof. intros Hlt. split; intros *; [apply (wo_asym lt)|apply (wo_negtrans lt)]. Qed.

(** Lexicographic combination: [eq1] is incomparability for the first order. *)
Lemma lex_weak_order {A} (lt1 eq1 lt2 : A → A → bool) `{!WeakOrder lt1} `{!WeakOrder lt2} :
  (∀ x y, eq1 x y = negb (lt1 x y) && negb (lt1 y x)) →
  WeakOrder (λ x y, if eq1 x y then lt2 x y else lt1 x y).
Proof.
  intros Heq. split.
  - intros x y. rewrite !Heq, (andb_comm (negb (lt1 y x))).
    destruct (negb (lt1 x y) && negb (lt1 y x)); [apply (wo_asym lt2)|apply (wo_asym lt1)].
  - intros x y z. rewrite !Heq.
    pose proof (wo_negtrans lt1 x y z). pose proof (wo_negtrans lt1 z y x).
    pose proof (wo_negtrans lt1 y z x). pose proof (wo_negtrans lt1 z x y).
    pose proof (wo_negtrans lt1 y x z). pose proof (wo_negtrans lt1 x z y).
    pose proof (wo_negtrans lt2 x y z).
    destruct (lt1 x y), (lt1 y x), (lt1 y z), (lt1 z y), (lt1 x z), (lt1 z x); simpl;
      naive_solver.
Qed.

(** The order of an integer key. *)
#[export] Instance Z_key_weak_order {A} (key : A → Z) :
  WeakOrder (λ x y, key x <? key y).
Proof. split; intros *; rewrite ?Z.ltb_lt, ?Z.ltb_ge; lia. Qed.

#[export] Instance Z_key_desc_weak_order {A} (key : A → Z) :
  WeakOrder (λ x y, key y <? key x).
Proof. split; intros *; rewrite ?Z.ltb_lt, ?Z.ltb_ge; lia. Qed.

Definition ascending {A} (key : A → Z) : list A → Prop :=
  StronglySorted (λ x y, key x ≤ key y).
Definition strictly_ascending {A} (key : A → Z) : list A → Prop :=
  StronglySorted (λ x y, key x < key y).

Definition sort_by {A} (key : A → Z) : list A → list A :=
  py_sorted (λ x y, key x <? key y).

Lemma StronglySorted_impl {A} (R S : A → A → Prop) l :
  (∀ x y, R x y → S x y) → StronglySorted R l → StronglySorted S l.
Proof.
  intros HRS. induction 1 as [|x l _ IH Hx]; constructor; [done|].
  eapply Forall_impl; [exact Hx|]. auto.
Qed.

Lemma sort_by_ascending {A} (key : A → Z) l : ascending key (sort_by key l).
Proof.
  eapply StronglySorted_impl; [|apply py_sorted_sorted, _].
  intros x y. unfold not_below. rewrite Z.ltb_ge. done.
Qed.

Lemma ascending_strict {A} (key : A → Z) l :
  ascending key l → NoDup (key <$> l) → strictly_ascending key l.
Proof.
  induction 1 as [|x l _ IH Hx]; simpl; [constructor|].
  rewrite NoDup_cons. intros [Hnin Hnd]. constructor; [by apply IH|].
  rewrite Forall_forall in Hx |- *. intros y Hy. specialize (Hx y Hy).
  assert (key x ≠ key y); [|lia]. intros Heq. apply Hnin. rewrite Heq.
  by apply list_elem_of_fmap_2.
Qed.

Lemma sort_by_strict {A} (key : A → Z) l :
  NoDup (key <$> l) → strictly_ascending key (sort_by key l).
Proof.
  intros Hnd. apply ascending_strict; [apply sort_by_ascending|].
  unfold sort_by. by rewrite py_sorted_perm.
Qed.

Lemma sort_by_id {A} (key : A → Z) l : ascending key l → sort_by key l = l.
Proof.
  intros H. apply py_sorted_id. eapply StronglySorted_impl; [|exact H].
  intros x y. unfold not_below. by rewrite Z.ltb_ge.
Qed.

(** With distinct keys the sorted list depends on the set of elements only. *)
Lemma strictly_ascending_unique {A} (key : A → Z) l1 l2 :
  strictly_ascending key l1 → strictly_ascending key l2 → l1 ≡ₚ l2 → l1 = l2.
Proof.
  intros H1. revert l2.
  induction H1 as [|x l1 _ IH Hx]; intros l2 H2 Hp.
  - by apply Permutation_nil_l in Hp as ->.
  - destruct H2 as [|y l2 H2 Hy]; [by apply Permutation_nil_r in Hp|].
    rewrite Forall_forall in Hx, Hy.
    assert (x = y) as ->.
    { assert (x ∈ y :: l2) as Hin1 by (rewrite <- Hp; left).
      assert (y ∈ x :: l1) as Hin2 by (rewrite Hp; left).
      apply elem_of_cons in Hin1 as [->|Hin1]; [done|].
      apply elem_of_cons in Hin2 as [->|Hin2]; [done|].
      specialize (Hx _ Hin2). specialize (Hy _ Hin1). lia. }
    f_equal. apply IH; [done|]. by eapply Permutation_cons_inv.
Qed.

Lemma sort_by_perm_eq {A} (key : A → Z) l1 l2 :
  NoDup (key <$> l1) → l1 ≡ₚ l2 → sort_by key l1 = sort_by key l2.
Proof.
  intros Hnd Hp. apply (strictly_ascending_unique key).
  - by apply sort_by_strict.
  - apply sort_by_strict. by rewrite <- Hp.
  - unfold sort_by. by rewrite !py_sorted_perm.
Qed.

(** ** [max(l, key=...)]: the FIRST of the largest elements *)
Fixpoint first_max_from {A} (gt : A → A → bool) (best : A) (l : list A) : A :=
  match l with
  | [] => best
  | x :: l' => first_max_from gt (if gt x best then x else best) l'
  end.

Definition first_max {A} (gt : A → A → bool) (l : list A) : option A :=
  match l with [] => None | x :: l' => Some (first_max_from gt x l') end.

Lemma first_max_from_elem {A} (gt : A → A → bool) b l :
  first_max_from gt b l ∈ b :: l.
Proof.
  revert b; induction l as [|x l IH]; intros b; simpl; [left|].
  specialize (IH (if gt x b then x else b)). destruct (gt x b); set_solver.
Qed.

Lemma first_max_elem {A} (gt : A → A → bool) l x : first_max gt l = Some x → x ∈ l.
Proof. destruct l; intros [= <-]. apply first_max_from_elem. Qed.

(** Nothing in the list beats the maximum, where "not above" is transitive. *)
Lemma first_max_from_ge {A} (gt : A → A → bool) (P : A → Prop) b l :
  (∀ x y z, P y → gt x y = false → gt y z = false → gt x z = false) →
  (∀ x y, gt x y = true → gt y x = false) →
  (∀ x, gt x x = false) →
  Forall P (b :: l) →
  ∀ x, x ∈ b :: l → gt x (first_max_from gt b l) = false.
Proof.
  intros Htrans Hasym Hirr. revert b. induction l as [|y l IH]; intros b HP x; simpl.
  - rewrite list_elem_of_singleton. intros ->. apply Hirr.
  - apply Forall_cons in HP as [Hb [Hy HP]%Forall_cons]. rewrite !elem_of_cons. intros Hx.
    pose proof (IH (if gt y b then y else b)) as IHb.
    destruct (gt y b) eqn:Hyb.
    + specialize (IHb ltac:(by constructor)). destruct Hx as [->|[->|Hx]].
      * apply (Htrans b y _ Hy); [by apply Hasym|apply IHb; left].
      * apply IHb; left.
      * apply IHb. by right.
    + specialize (IHb ltac:(by constructor)). destruct Hx as [->|[->|Hx]].
      * apply IHb; left.
      * apply (Htrans y b _ Hb); [done|apply IHb; left].
      * apply IHb. by right.
Qed.

(** ** Shared list facts *)
Lemma Forall_filter_weaken {A} (p : A → bool) (P : A → Prop) l :
  Forall P l → Forall P (List.filter p l).
Proof.
  induction 1 as [|x l Hx _ IH]; simpl; [constructor|].
  destruct (p x); [by constructor|done].
Qed.

Lemma elem_of_bool_filter {A} (p : A → bool) l x :
  x ∈ List.filter p l ↔ x ∈ l ∧ p x = true.
Proof. rewrite !list_elem_of_In. apply filter_In. Qed.

Lemma filter_partition_length {A} (p : A → bool) l :
  (length (List.filter p l) + length (List.filter (λ x, negb (p x)) l))%nat = length l.
Proof. induction l as [|x l IH]; simpl; [done|]. destruct (p x); simpl; lia. Qed.

Lemma filter_nil_iff {A} (p : A → bool) l :
  List.filter p l = [] ↔ Forall (λ x, p x = false) l.
Proof.
  induction l as [|x l IH]; simpl; [split; [constructor|done]|].
  rewrite Forall_cons, <- IH. destruct (p x); naive_solver.
Qed.

Lemma last_cons_default {A} (x d : A) l : List.last (x :: l) d = List.last l x.
Proof.
  revert x d. induction l as [|y l IH]; intros x d; [done|].
  change (List.last (y :: l) d = List.last (y :: l) x). by rewrite (IH y d), (IH y x).
Qed.

Lemma StronglySorted_bool_filter {A} (R : A → A → Prop) (p : A → bool) l :
  StronglySorted R l → StronglySorted R (List.filter p l).
Proof.
  induction 1 as [|x l _ IH Hx]; simpl; [constructor|].
  destruct (p x); [|done]. constructor; [done|by apply Forall_filter_weaken].
Qed.

Lemma strictly_ascending_NoDup {A} (key : A → Z) l : strictly_ascending key l → NoDup l.
Proof.
  induction 1 as [|x l _ IH Hx]; constructor; [|done].
  rewrite Forall_forall in Hx. intros Hin. specialize (Hx x Hin). lia.
Qed.

(** Strictly sorted lists with the same elements are equal. *)
Lemma strictly_ascending_ext {A} (key : A → Z) l1 l2 :
  strictly_ascending key l1 → strictly_ascending key l2 →
  (∀ x, x ∈ l1 ↔ x ∈ l2) → l1 = l2.
Proof.
  intros H1 H2 Hx. apply (strictly_ascending_unique key); [done|done|].
  apply NoDup_Permutation; eauto using strictly_ascending_NoDup.
Qed.

Lemma Forall2_bool_filter {A B} (R : A → B → Prop) (p : A → bool) (q : B → bool) l k :
  (∀ x y, R x y → p x = q y) → Forall2 R l k →
  Forall2 R (List.filter p l) (List.filter q k).
Proof.
  intros Hpq. induction 1 as [|x y l k Hxy _ IH]; simpl; [constructor|].
  rewrite (Hpq x y Hxy). destruct (q y); [by constructor|done].
Qed.

(** Functional relations that agree on the left list give the same right list. *)
Lemma Forall2_det {A B} (R S : A → B → Prop) l k1 k2 :
  (∀ x y z, x ∈ l → R x y → S x z → y = z) →
  Forall2 R l k1 → Forall2 S l k2 → k1 = k2.
Proof.
  intros Hdet H1. revert k2. induction H1 as [|x y l k1 Hxy _ IH]; intros k2 H2.
  - by inversion H2.
  - inversion H2 as [|? z ? k2' Hxz H2']; subst. f_equal.
    + apply (Hdet x); [left|done|done].
    + apply IH; [|done]. intros ? ? ? Hin. apply Hdet. by right.
Qed.

Lemma bool_filter_ext {A} (p q : A → bool) l :
  (∀ x, x ∈ l → p x = q x) → List.filter p l = List.filter q l.
Proof.
  intros H. induction l as [|x l IH]; simpl; [done|].
  rewrite (H x) by left. rewrite IH; [done|]. intros y Hy. apply H. by right.
Qed.

Lemma bool_filter_filter {A} (p q : A → bool) l :
  List.filter p (List.filter q l) = List.filter (λ x, q x && p x) l.
Proof.
  induction l as [|x l IH]; simpl; [done|]. destruct (q x); simpl; [|done].
  by rewrite IH.
Qed.

Lemma last_elem {A} (x : A) l : List.last l x ∈ x :: l.
Proof.
  revert x. induction l as [|y l IH]; intros x; [left|].
  rewrite last_cons_default. right. apply IH.
Qed.

Lemma traverse_total {E A B} (f : A → result E B) (P : A → B → Prop) l :
  (∀ x, x ∈ l → ∃ y, f x = Ok y ∧ P x y) →
  ∃ ys, traverse f l = Ok ys ∧ Forall2 (λ x y, f x = Ok y ∧ P x y) l ys.
Proof.
  induction l as [|x l IH]; intros H; [exists []; by split|].
  destruct (H x ltac:(left)) as (y&Hy&HP). destruct IH as (ys&Hys&H2).
  { intros x' Hx'. apply H. by right. }
  exists (y :: ys). simpl. rewrite Hy. simpl. rewrite Hys. simpl. split; [done|by constructor].
Qed.

Lemma sort_by_hd_le {A} (key : A → Z) l x rest :
  sort_by key l = x :: rest → x ∈ l ∧ ∀ y, y ∈ l → key x ≤ key y.
Proof.
  intros Hs. pose proof (py_sorted_perm (λ x y, key x <? key y) l) as Hp.
  unfold sort_by in Hs. rewrite Hs in Hp. pose proof (sort_by_ascending key l) as Ha.
  unfold sort_by in Ha. rewrite Hs in Ha. apply StronglySorted_inv in Ha as [_ Ha].
  rewrite Forall_forall in Ha. split; [rewrite <- Hp; left|].
  intros y. rewrite <- Hp, elem_of_cons. intros [->|Hy]; [lia|by apply Ha].
Qed.

Lemma ascending_last_ge {A} (key : A → Z) x rest :
  ascending key (x :: rest) → ∀ y, y ∈ x :: rest → key y ≤ key (List.last rest x).
Proof.
  revert x. induction rest as [|z rest IH]; intros x H y.
  - rewrite list_elem_of_singleton. intros ->. simpl. lia.
  - apply StronglySorted_inv in H as [H Hx]. rewrite Forall_forall in Hx.
    rewrite last_cons_default, elem_of_cons.
    intros [->|Hy]; [|by apply IH]. apply (Hx _). apply last_elem.
Qed.

Lemma Forall2_elem_r {A B} (R : A → B → Prop) l k y :
  Forall2 R l k → y ∈ k → ∃ x, x ∈ l ∧ R x y.
Proof.
  induction 1 as [|x z l k Hxz _ IH]; [by rewrite elem_of_nil|].
  rewrite elem_of_cons. intros [->|Hy]; [exists x; by split; [left|]|].
  destruct (IH Hy) as (x'&Hx'&HR). exists x'. by split; [right|].
Qed.

Lemma Forall2_elem_l {A B} (R : A → B → Prop) l k x :
  Forall2 R l k → x ∈ l → ∃ y, y ∈ k ∧ R x y.
Proof.
  intros H%Forall2_flip Hx. destruct (Forall2_elem_r _ _ _ _ H Hx) as (y&Hy&HR). by exists y.
Qed.

Lemma Forall2_strictly_ascending {A B} (kx : A → Z) (ky : B → Z) l k :
  Forall2 (λ x y, ky y = kx x) l k → strictly_ascending kx l → strictly_ascending ky k.
Proof.
  induction 1 as [|x y l k Hxy H2 IH]; [constructor|].
  intros [Hl Hx]%StronglySorted_inv. constructor; [by apply IH|].
  rewrite Forall_forall in Hx. apply Forall_forall. intros z Hz.
  destruct (Forall2_elem_r _ _ _ _ H2 Hz) as (x'&Hx'&->). rewrite Hxy. by apply Hx.
Qed.

Lemma Permutation_bool_filter {A} (p : A → bool) l k :
  l ≡ₚ k → List.filter p l ≡ₚ List.filter p k.
Proof.
  induction 1 as [|x l k _ IH|x y l|l k m _ IH1 _ IH2]; simpl; [done| | |by etransitivity].
  - destruct (p x); [by constructor|done].
  - destruct (p x), (p y); try done. constructor.
Qed.

Lemma StronglySorted_sublist {A} (R : A → A → Prop) l k :
  sublist l k → StronglySorted R k → StronglySorted R l.
Proof.
  induction 1 as [|x l k Hs IH|x l k Hs IH]; intros Hk; [constructor| |].
  - apply StronglySorted_inv in Hk as [Hk Hx]. constructor; [by apply IH|].
    rewrite Forall_forall in Hx. apply Forall_forall. intros y Hy. apply Hx.
    by eapply elem_of_sublist.
  - apply StronglySorted_inv in Hk as [Hk _]. by apply IH.
Qed.

(** Stable sorting commutes with filtering. *)
Lemma insert_sorted_filter {A} (lt : A → A → bool) `{!WeakOrder lt} (p : A → bool) x l :
  StronglySorted (not_below lt) l →
  List.filter p (insert_sorted lt x l)
  = if p x then insert_sorted lt x (List.filter p l) else List.filter p l.
Proof.
  induction 1 as [|y l Hl IH Hy]; simpl; [done|].
  destruct (lt y x) eqn:Hyx; simpl.
  - rewrite IH. destruct (p y), (p x); simpl; rewrite ?Hyx; try done.
  - destruct (p x); [|done]. destruct (p y); simpl; [by rewrite Hyx|].
    destruct (List.filter p l) as [|z k] eqn:Hf; [done|]. simpl.
    assert (z ∈ l) as Hz.
    { apply (elem_of_bool_filter p). rewrite Hf. left. }
    rewrite Forall_forall in Hy. specialize (Hy z Hz). unfold not_below in Hy.
    by rewrite (wo_negtrans lt z y x Hy Hyx).
Qed.

Lemma py_sorted_filter {A} (lt : A → A → bool) `{!WeakOrder lt} (p : A → bool) l :
  py_sorted lt (List.filter p l) = List.filter p (py_sorted lt l).
Proof.
  induction l as [|x l IH]; simpl; [done|].
  rewrite (insert_sorted_filter lt p x) by by apply py_sorted_sorted.
  destruct (p x); simpl; by rewrite IH.
Qed.

Lemma sort_by_filter {A} (key : A → Z) (p : A → bool) l :
  sort_by key (List.filter p l) = List.filter p (sort_by key l).
Proof. apply py_sorted_filter, _. Qed.

Lemma bool_filter_all {A} (p : A → bool) l : (∀ x, x ∈ l → p x = true) → List.filter p l = l.
Proof.
  induction l as [|x l IH]; intros H; simpl; [done|].
  rewrite (H x) by left. rewrite IH; [done|]. intros y Hy. apply H. by right.
Qed.

(** Filtering away elements beyond the first [n] does not change the first [n]. *)
Lemma take_bool_filter {A} (p : A → bool) n l :
  (∀ x, x ∈ take n l → p x = true) → take n (List.filter p l) = take n l.
Proof.
  revert n. induction l as [|x l IH]; intros [|n] H; simpl; try done.
  rewrite (H x) by left. simpl. f_equal. apply IH. intros y Hy. apply H. by right.
Qed.

(** With distinct keys an element is determined by its key. *)
Lemma NoDup_key_inj {A B} (g : A → B) l x y :
  NoDup (g <$> l) → x ∈ l → y ∈ l → g x = g y → x = y.
Proof.
  induction l as [|z l IH]; [by rewrite elem_of_nil|].
  rewrite fmap_cons, NoDup_cons, !elem_of_cons. intros [Hn Hnd] Hx Hy Heq.
  destruct Hx as [->|Hx], Hy as [->|Hy]; try done.
  - destruct Hn. rewrite Heq. by apply list_elem_of_fmap_2.
  - destruct Hn. rewrite <- Heq. by apply list_elem_of_fmap_2.
  - by apply IH.
Qed.

Lemma filter_partition {A} (p : A → bool) l :
  List.filter p l ++ List.filter (λ x, negb (p x)) l ≡ₚ l.
Proof.
  induction l as [|x l IH]; simpl; [done|]. destruct (p x); simpl.
  - by constructor.
  - rewrite <- Permutation_middle. by constructor.
Qed.

Lemma elem_of_alter {A} (f : A → A) (i : nat) (l : list A) y :
  y ∈ alter f i l → y ∈ l ∨ ∃ x, l !! i = Some x ∧ y = f x.
Proof.
  intros (j&Hj)%list_elem_of_lookup. destruct (decide (i = j)) as [->|Hne].
  - rewrite list_lookup_alter_eq in Hj. destruct (l !! j) as [x|] eqn:Hx; [|done].
    right. exists x. by injection Hj as <-.
  - rewrite list_lookup_alter_ne in Hj by done. left. by eapply list_elem_of_lookup_2.
Qed.

Lemma StronglySorted_snoc {A} (R : A → A → Prop) l x :
  StronglySorted R l → Forall (λ y, R y x) l → StronglySorted R (l ++ [x]).
Proof.
  induction 1 as [|y l _ IH Hy]; simpl; intros Hx; [repeat constructor|].
  apply Forall_cons in Hx as [Hyx Hx]. constructor; [by apply IH|].
  apply Forall_app. split; [done|]. by apply Forall_singleton.
Qed.

Lemma StronglySorted_app_inv {A} (R : A → A → Prop) l k :
  StronglySorted R (l ++ k) → ∀ x y, x ∈ l → y ∈ k → R x y.
Proof.
  induction l as [|z l IH]; simpl; intros H x y Hx Hy; [by apply elem_of_nil in Hx|].
  apply StronglySorted_inv in H as [H Hz]. apply elem_of_cons in Hx as [->|Hx].
  - rewrite Forall_forall in Hz. apply Hz. apply elem_of_app. by right.
  - by apply IH.
Qed.

(** The part of a filtered list that a prefix of the list keeps is a prefix. *)
Lemma bool_filter_take {A} (p : A → bool) n l :
  ∃ k, List.filter p (take n l) = take k (List.filter p l).
Proof.
  revert n. induction l as [|x l IH]; intros [|n]; simpl.
  - by exists 0%nat.
  - by exists 0%nat.
  - by exists 0%nat.
  - destruct (IH n) as (k&Hk). destruct (p x); [exists (S k)|exists k]; simpl; by rewrite Hk.
Qed.

Lemma bool_filter_app {A} (p : A → bool) l k :
  List.filter p (l ++ k) = List.filter p l ++ List.filter p k.
Proof. induction l as [|x l IH]; simpl; [done|]. destruct (p x); simpl; by rewrite IH. Qed.

(** [ORDER BY a DESC, b DESC] of rows already in ascending order of both. *)
Lemma py_sorted_reverse {A} (lt : A → A → bool) l :
  StronglySorted (λ x y, lt x y = false) l → py_sorted lt (reverse l) = reverse l.
Proof.
  intros H. apply py_sorted_id. induction H as [|x l _ IH Hx]; [constructor|].
  rewrite reverse_cons. apply StronglySorted_snoc; [done|].
  rewrite Forall_forall in Hx |- *. intros y Hy. rewrite elem_of_reverse in Hy. exact (Hx y Hy).
Qed.

(** ** The least and the greatest of a list of integers *)
Lemma foldl_pick (f : Z → Z → Z) l d :
  (∀ x y, f x y = x ∨ f x y = y) → foldl f d l ∈ d :: l.
Proof.
  intros Hf. revert d. induction l as [|x l IH]; intros d; simpl; [left|].
  destruct (proj1 (elem_of_cons _ _ _) (IH (f d x))) as [->|H]; [|by do 2 right].
  destruct (Hf d x) as [->| ->]; [left|right; left].
Qed.

Lemma foldl_min_le l d x : x ∈ d :: l → foldl Z.min d l ≤ x.
Proof.
  revert d x. induction l as [|y l IH]; intros d x Hx; simpl.
  { apply list_elem_of_singleton in Hx. lia. }
  assert (foldl Z.min (d `min` y) l ≤ d `min` y) by (apply IH; left).
  apply elem_of_cons in Hx as [->|[->|Hx]%elem_of_cons]; [lia..|]. apply IH. by right.
Qed.

Lemma foldl_max_ge l d x : x ∈ d :: l → x ≤ foldl Z.max d l.
Proof.
  revert d x. induction l as [|y l IH]; intros d x Hx; simpl.
  { apply list_elem_of_singleton in Hx. lia. }
  assert (d `max` y ≤ foldl Z.max (d `max` y) l) by (apply IH; left).
  apply elem_of_cons in Hx as [->|[->|Hx]%elem_of_cons]; [lia..|]. apply IH. by right.
Qed.

Create HintDb pylib.
#[export] Hint Resolve py_sorted_perm sort_by_ascending sort_by_strict : pylib.
#[export] Hint Resolve Forall_filter_weaken traverse_length : pylib.
#[export] Hint Resolve StronglySorted_bool_filter strictly_ascending_NoDup last_elem : pylib.

(** A reordering of the input reorders the output. *)
Lemma traverse_perm {E A B} (f : A → result E B) l l' ys :
  l ≡ₚ l' → traverse f l = Ok ys → ∃ ys', traverse f l' = Ok ys' ∧ ys ≡ₚ ys'.
Proof.
  intros Hp. revert ys. setoid_rewrite traverse_Ok.
  induction Hp as [|x l l' _ IH|x y l|l l' l'' _ IH1 _ IH2]; intros ys H.
  - by exists ys.
  - inversion H as [|? y ? ys0 Hy H0]; subst. destruct (IH ys0 H0) as (ys'&?&Hp').
    exists (y :: ys'). split; [by constructor|by rewrite Hp'].
  - inversion H as [|? b1 ? ys0 Hb1 H0]; subst. inversion H0 as [|? b2 ? ys1 Hb2 H1]; subst.
    exists (b2 :: b1 :: ys1). split; [by repeat constructor|apply Permutation_swap].
  - destruct (IH1 ys H) as (ys'&H'&Hp'). destruct (IH2 ys' H') as (ys''&H''&Hp'').
    exists ys''. split; [done|by rewrite Hp'].
Qed.

#[export] Instance omap_perm {A B} (f : A → option B) : Proper ((≡ₚ) ==> (≡ₚ)) (omap f).
Proof.
  intros l l' Hp. induction Hp as [|x l l' _ IH|x y l|l l' l'' _ IH1 _ IH2]; simpl.
  - done.
  - destruct (f x); [by rewrite IH|done].
  - destruct (f x), (f y); try done. apply Permutation_swap.
  - by rewrite IH1.
Qed.
