(* ===== verification/PyFloat.v ===== *)
(** * Python floats: IEEE 754 binary64, rounded to nearest even

    A Python [float] is modelled bit for bit by the Standard Library's
    [spec_float] with a 53-bit mantissa and exponents up to 1024: every
    arithmetic operation of the programs is executed with its rounding, NaN and
    infinities included.  Where Python raises instead of producing an infinity
    ([x / 0.0], [float(10**400)]) the operation returns a [result].

    The theorems about floats in this library use only the order of floats
    (comparison is proved to be a strict weak order away from NaN), never the
    exactness of an arithmetic operation, except for the two sign symmetries
    proved at the end. *)
From S2P Require Import Prelude.
From Stdlib Require Import SpecFloat.
Local Open Scope Z_scope.

Abbreviation float := spec_float.

(** Exceptions of the interpreter itself. *)
Inductive pyerr : Set :=
| ZeroDivisionError
| OverflowError
| ValueError
| TypeError
| IndexError
| KeyError.

(** ** Arithmetic *)
Definition fadd : float → float → float := SFadd 53 1024.
Definition fsub : float → float → float := SFsub 53 1024.
Definition fmul : float → float → float := SFmul 53 1024.
Definition fdiv_ieee : float → float → float := SFdiv 53 1024.
Definition fabs : float → float := SFabs.
Definition fopp : float → float := SFopp.

Definition feq : float → float → bool := SFeqb.
Definition flt : float → float → bool := SFltb.
Definition fle : float → float → bool := SFleb.
Definition fgt (x y : float) : bool := flt y x.
Definition fge (x y : float) : bool := fle y x.
Definition fne (x y : float) : bool := negb (feq x y).

Definition fzero : float := S754_zero false.
Definition finf : float := S754_infinity false.
Definition fnan : float := S754_nan.

Definition is_nan (x : float) : bool := match x with S754_nan => true | _ => false end.
Definition is_inf (x : float) : bool :=
  match x with S754_infinity _ => true | _ => false end.
Definition is_finite (x : float) : bool := negb (is_nan x || is_inf x).

(** [x / y] *)
Definition fdiv (x y : float) : result pyerr float :=
  if feq y fzero then Err ZeroDivisionError else Ok (fdiv_ieee x y).

(** The nearest float to an integer; an infinity past the largest float. *)
Definition float_of_Z (n : Z) : float := binary_normalize 53 1024 n 0 false.

(** [float(n)] of a Python int: raises where rounding gives an infinity. *)
Definition py_float_of_int (n : Z) : result pyerr float :=
  let x := float_of_Z n in
  if is_inf x then Err OverflowError else Ok x.

(** The float literal [n / 10^k].  Both integers are exact floats for the
    literals used ([n < 2^53], [k <= 22]), so the rounded quotient is the
    correctly rounded decimal. *)
Definition flit (n k : Z) : float := fdiv_ieee (float_of_Z n) (float_of_Z (10 ^ k)).

Definition fone : float := float_of_Z 1.
Definition fhundred : float := float_of_Z 100.

(** [int(x)]: truncation towards zero; NaN and infinities raise. *)
Definition int_of_float (x : float) : result pyerr Z :=
  match x with
  | S754_zero _ => Ok 0
  | S754_infinity _ => Err OverflowError
  | S754_nan => Err ValueError
  | S754_finite s m e =>
      let t := if 0 <=? e then Z.shiftl (Zpos m) e else Z.shiftr (Zpos m) (- e) in
      Ok (if s then - t else t)
  end.

(** [max(a, b)] and [min(a, b)] of two floats: the first unless beaten. *)
Definition fmax (a b : float) : float := if fgt b a then b else a.
Definition fmin (a b : float) : float := if flt b a then b else a.

(** [n / d] of two Python ints with a positive divisor, correctly rounded:
    [SFdiv_core_binary] divides the two integers and keeps the remainder's
    location, so there is one rounding. *)
Definition int_true_div (n d : Z) : float :=
  match n, d with
  | Z0, _ => fzero
  | Zpos p, Zpos q =>
      let '(m, e, l) := SFdiv_core_binary 53 1024 (Zpos p) 0 (Zpos q) 0 in
      binary_round_aux 53 1024 false m e l
  | Zneg p, Zpos q =>
      let '(m, e, l) := SFdiv_core_binary 53 1024 (Zpos p) 0 (Zpos q) 0 in
      binary_round_aux 53 1024 true m e l
  | _, _ => fnan
  end.

(** [round(x, k)]: the exact value rounded half-even to [k] decimals, then the
    nearest float to that decimal. *)
Definition div_half_even (n d : Z) : Z :=
  let q := n / d in
  let r := n mod d in
  if 2 * r <? d then q else if d <? 2 * r then q + 1 else if Z.even q then q else q + 1.

Definition py_round (x : float) (k : Z) : float :=
  match x with
  | S754_finite s m e =>
      let num := Zpos m * 10 ^ k * (if 0 <=? e then 2 ^ e else 1) in
      let den := if 0 <=? e then 1 else 2 ^ (- e) in
      let y := int_true_div (div_half_even num den) (10 ^ k) in
      if s then fopp y else y
  | _ => x
  end.

(** [sum(xs)] of floats in Python 3.12 (the runtime the Dockerfile pins): the
    running sum [f] carries the Neumaier compensation [c], added at the end
    when it is non-zero and finite. *)
Fixpoint fsum_from (f c : float) (xs : list float) : float :=
  match xs with
  | [] => if negb (feq c fzero) && is_finite c then fadd f c else f
  | x :: xs =>
      let t := fadd f x in
      let c :=
        if fge (fabs f) (fabs x) then fadd c (fadd (fsub f t) x)
        else fadd c (fadd (fsub x t) f) in
      fsum_from t c xs
  end.

Definition fsum (xs : list float) : float :=
  match xs with [] => fzero | x :: xs => fsum_from (fadd fzero x) fzero xs end.

(** [statistics.median] of a non-empty list. *)
Definition median (xs : list float) : option float :=
  let data := py_sorted flt xs in
  let n := length data in
  if Nat.odd n then data !! (n / 2)%nat
  else
    match data !! (n / 2 - 1)%nat, data !! (n / 2)%nat with
    | Some a, Some b => Some (fdiv_ieee (fadd a b) (float_of_Z 2))
    | _, _ => None
    end.

(** ** The order of floats

    [SFcompare] is the lexicographic order of a triple of integers, which gives
    its algebra without looking at mantissas again. *)
Definition fkey (x : float) : option (Z * Z * Z) :=
  match x with
  | S754_nan => None
  | S754_infinity true => Some (-2, 0, 0)
  | S754_infinity false => Some (2, 0, 0)
  | S754_zero _ => Some (0, 0, 0)
  | S754_finite true m e => Some (-1, - e, - Zpos m)
  | S754_finite false m e => Some (1, e, Zpos m)
  end.

Definition lex_lt (a b : Z * Z * Z) : Prop :=
  let '(a1, a2, a3) := a in
  let '(b1, b2, b3) := b in
  a1 < b1 ∨ a1 = b1 ∧ (a2 < b2 ∨ a2 = b2 ∧ a3 < b3).

Lemma flt_spec x y :
  flt x y = true ↔ ∃ a b, fkey x = Some a ∧ fkey y = Some b ∧ lex_lt a b.
Proof.
  unfold flt, SFltb, SFcompare. change (Pos.compare_cont Eq) with Pos.compare.
  destruct x as [[]|[]| |[] m e], y as [[]|[]| |[] m' e']; simpl;
    try (split; [discriminate || (intros _; do 2 eexists; split; [done|]; split; [done|]; simpl; lia)
                |done || (intros (?&?&[= <-]&[= <-]&?); simpl in *; lia)]);
    try (split; [done|intros (?&?&?&?&?); naive_solver]).
  - split.
    + destruct (Z.compare_spec e e'); [|done|].
      * destruct (Pos.compare_spec m m'); try done. intros _.
        do 2 eexists; split_and!; [done..|]. simpl. lia.
      * intros _. do 2 eexists; split_and!; [done..|]. simpl. lia.
    + intros (?&?&[= <-]&[= <-]&?). simpl in *.
      destruct (Z.compare_spec e e'); [|lia|done].
      destruct (Pos.compare_spec m m'); simpl; try done; lia.
  - split.
    + destruct (Z.compare_spec e e'); [| |done].
      * destruct (Pos.compare_spec m m'); try done. intros _.
        do 2 eexists; split_and!; [done..|]. simpl. lia.
      * intros _. do 2 eexists; split_and!; [done..|]. simpl. lia.
    + intros (?&?&[= <-]&[= <-]&?). simpl in *.
      destruct (Z.compare_spec e e'); [|done|lia].
      destruct (Pos.compare_spec m m'); simpl; try done; lia.
Qed.

Lemma feq_spec x y :
  feq x y = true ↔ ∃ a, fkey x = Some a ∧ fkey y = Some a.
Proof.
  unfold feq, SFeqb, SFcompare. change (Pos.compare_cont Eq) with Pos.compare.
  destruct x as [[]|[]| |[] m e], y as [[]|[]| |[] m' e']; simpl;
    try (split; [discriminate || (intros _; eexists; done)
                |done || (intros (?&[= <-]&[=]); simpl in *; lia)]);
    try (split; [done|intros (?&?&?); naive_solver]).
  - split.
    + destruct (Z.compare_spec e e') as [->| |]; [|done..].
      destruct (Pos.compare_spec m m') as [->| |]; simpl; try done. eauto.
    + intros (?&[= <-]&[= He Hm]). replace e' with e by lia. replace m' with m by lia.
      by rewrite Z.compare_refl, Pos.compare_refl.
  - split.
    + destruct (Z.compare_spec e e') as [->| |]; [|done..].
      destruct (Pos.compare_spec m m') as [->| |]; simpl; try done. eauto.
    + intros (?&[= <-]&[= <- <-]).
      by rewrite Z.compare_refl, Pos.compare_refl.
Qed.

Lemma fkey_None x : fkey x = None ↔ is_nan x = true.
Proof. destruct x as [[]|[]| |[]]; naive_solver. Qed.

Lemma fkey_Some x : is_nan x = false → ∃ a, fkey x = Some a.
Proof. destruct x as [[]|[]| |[]]; naive_solver. Qed.

Lemma feq_flt x y :
  is_nan x = false → is_nan y = false → feq x y = negb (flt x y) && negb (flt y x).
Proof.
  intros Hx Hy. destruct (fkey_Some x Hx) as [[[a1 a2] a3] Ha], (fkey_Some y Hy) as [[[b1 b2] b3] Hb].
  apply eq_bool_prop_intro. rewrite andb_True, !negb_True, !Is_true_true, !flt_spec, feq_spec.
  split.
  - intros (k&Hk&Hk'). split; intros (k1&k2&?&?&Hlt); simplify_eq; simpl in Hlt; lia.
  - intros [H1 H2]. exists (a1, a2, a3). split; [done|]. rewrite Hb.
    assert (¬ lex_lt (a1, a2, a3) (b1, b2, b3)) by naive_solver.
    assert (¬ lex_lt (b1, b2, b3) (a1, a2, a3)) by naive_solver.
    simpl in *. repeat f_equal; lia.
Qed.

Lemma fle_spec x y : fle x y = flt x y || feq x y.
Proof. unfold fle, flt, feq, SFleb, SFltb, SFeqb. by destruct (SFcompare x y) as [[]|]. Qed.

Lemma flt_not_nan x y : flt x y = true → is_nan x = false ∧ is_nan y = false.
Proof. destruct x, y; naive_solver. Qed.

Lemma feq_not_nan x y : feq x y = true → is_nan x = false ∧ is_nan y = false.
Proof. destruct x, y; naive_solver. Qed.

Lemma fle_not_nan x y : fle x y = true → is_nan x = false ∧ is_nan y = false.
Proof. rewrite fle_spec. intros [?|?]%orb_true_iff; eauto using flt_not_nan, feq_not_nan. Qed.

Lemma flt_irrefl x : flt x x = false.
Proof.
  apply not_true_iff_false. rewrite flt_spec. intros ([[] ?]&[[] ?]&?&?&?).
  simplify_eq. simpl in *. lia.
Qed.

Lemma flt_asym x y : flt x y = true → flt y x = false.
Proof.
  intros Hxy. apply not_true_iff_false. rewrite flt_spec in Hxy |- *.
  destruct Hxy as ([[]]&[[]]&?&?&?). intros ([[]]&[[]]&?&?&?). simplify_eq.
  simpl in *. lia.
Qed.

Lemma flt_trans x y z : flt x y = true → flt y z = true → flt x z = true.
Proof.
  rewrite !flt_spec. intros ([[]]&[[]]&?&?&?) ([[]]&[[]]&?&?&?). simplify_eq.
  do 2 eexists; split_and!; [done..|]. simpl in *. lia.
Qed.

(** Away from NaN "not below" is transitive: floats are a strict weak order. *)
Lemma flt_negtrans x y z :
  is_nan y = false → flt x y = false → flt y z = false → flt x z = false.
Proof.
  intros Hy Hxy Hyz. apply not_true_iff_false. intros Hxz.
  destruct (flt_not_nan _ _ Hxz) as [Hx Hz].
  apply not_true_iff_false in Hxy, Hyz. rewrite flt_spec in *.
  destruct Hxz as ([[a1 a2] a3]&[[c1 c2] c3]&Ha&Hc&Hac).
  destruct (fkey_Some y Hy) as [[[b1 b2] b3] Hb].
  assert (¬ lex_lt (a1, a2, a3) (b1, b2, b3)) by naive_solver.
  assert (¬ lex_lt (b1, b2, b3) (c1, c2, c3)) by naive_solver.
  simpl in *. lia.
Qed.

Lemma fle_flt x y : is_nan x = false → is_nan y = false → fle x y = negb (flt y x).
Proof.
  intros Hx Hy. rewrite fle_spec. apply eq_true_iff_eq.
  rewrite orb_true_iff, negb_true_iff, <- not_true_iff_false, !flt_spec, feq_spec.
  destruct (fkey_Some x Hx) as [[[a1 a2] a3] Ha], (fkey_Some y Hy) as [[[b1 b2] b3] Hb].
  split.
  - intros [(?&?&?&?&?)|(?&?&?)] (?&?&?&?&?); simplify_eq; simpl in *; lia.
  - intros Hn. assert (¬ lex_lt (b1, b2, b3) (a1, a2, a3)) as Hn' by naive_solver.
    simpl in Hn'.
    destruct (decide (a1 = b1 ∧ a2 = b2 ∧ a3 = b3)) as [(->&->&->)|]; [naive_solver|].
    left. do 2 eexists; split_and!; [done..|]. simpl. lia.
Qed.

Lemma feq_refl x : is_nan x = false → feq x x = true.
Proof. intros H. apply feq_spec. destruct (fkey_Some x H) as [a Ha]. eauto. Qed.

Lemma feq_sym x y : feq x y = feq y x.
Proof. apply eq_true_iff_eq. rewrite !feq_spec. naive_solver. Qed.

Lemma flt_not_feq x y : flt x y = true → feq x y = false.
Proof.
  rewrite flt_spec. intros ([[]]&[[]]&?&?&?). apply not_true_iff_false.
  rewrite feq_spec. intros (?&?&?). simplify_eq. simpl in *. lia.
Qed.

Lemma fle_flt_trans x y z : fle x y = true → flt y z = true → flt x z = true.
Proof.
  rewrite fle_spec. intros [Hxy|Hxy]%orb_true_iff Hyz; [by eapply flt_trans|].
  apply feq_spec in Hxy as (k&Hx&Hy). apply flt_spec in Hyz as (k1&k2&?&?&?).
  apply flt_spec. simplify_eq. eauto.
Qed.

Lemma flt_fle_trans x y z : flt x y = true → fle y z = true → flt x z = true.
Proof.
  rewrite fle_spec. intros Hxy [Hyz|Hyz]%orb_true_iff; [by eapply flt_trans|].
  apply feq_spec in Hyz as (k&Hx&Hy). apply flt_spec in Hxy as (k1&k2&?&?&?).
  apply flt_spec. simplify_eq. eauto.
Qed.

(** ** Sign symmetries

    Rounding to nearest even does not look at the sign, so negating an exact
    result negates the rounded one. *)
Lemma binary_round_sign s m e :
  fabs (binary_round 53 1024 s m e) = fabs (binary_round 53 1024 false m e).
Proof.
  unfold binary_round, binary_round_aux. destruct (shl_align _ _ _) as [mz ez].
  destruct (shr_fexp _ _ _ _ _) as [mrs e']. destruct (shr_fexp _ _ _ _ _) as [mrs' e''].
  destruct (shr_m mrs'); [done| |done]. by destruct (e'' <=? 1024 - 53).
Qed.

Lemma binary_normalize_opp n e b :
  fabs (binary_normalize 53 1024 (- n) e b) = fabs (binary_normalize 53 1024 n e b).
Proof.
  destruct n as [|m|m]; simpl; [done| |];
    by rewrite (binary_round_sign true).
Qed.

(** [abs(a - b) == abs(b - a)], bit for bit. *)
Lemma fabs_fsub_sym a b : fabs (fsub a b) = fabs (fsub b a).
Proof.
  destruct a as [[]|[]| |s m e], b as [[]|[]| |s' m' e']; try done; try (by destruct s);
    try (by destruct s').
  unfold fsub, SFsub. rewrite (Z.min_comm e' e).
  rewrite <- binary_normalize_opp. do 2 f_equal. lia.
Qed.

Lemma fabs_not_nan x : is_nan (fabs x) = is_nan x.
Proof. by destruct x. Qed.

Lemma flt_fabs_total a b :
  is_nan a = false → is_nan b = false →
  flt (fabs a) (fabs b) = false → flt (fabs b) (fabs a) = false → fabs a = fabs b.
Proof.
  intros Ha Hb H1 H2. rewrite <- fabs_not_nan in Ha, Hb.
  assert (feq (fabs a) (fabs b) = true) as Heq.
  { pose proof (fle_flt (fabs a) (fabs b) Ha Hb) as Hle. rewrite H2, fle_spec, H1 in Hle. done. }
  apply feq_spec in Heq as (k&Hka&Hkb).
  destruct a as [|[]| |? m e], b as [|[]| |? m' e']; simpl in *; try done; simplify_eq; done.
Qed.

(** [max(abs(a), abs(b))] does not depend on the order. *)
Lemma fmax_fabs_sym a b :
  is_nan a = false → is_nan b = false → fmax (fabs a) (fabs b) = fmax (fabs b) (fabs a).
Proof.
  intros Ha Hb. unfold fmax, fgt.
  destruct (flt (fabs a) (fabs b)) eqn:H1, (flt (fabs b) (fabs a)) eqn:H2; try done.
  - apply flt_asym in H1. congruence.
  - by apply flt_fabs_total.
Qed.

Lemma fsub_diag x : is_finite x = true → fsub x x = fzero.
Proof.
  destruct x as [[]|[]| |s m e]; try done. intros _.
  unfold fsub, SFsub. by rewrite Z.sub_diag.
Qed.

(** ** Multiplying by one

    The only rounding fact the library needs: [x * 1.0] is [x] itself, for every
    binary64 value (normal, subnormal, zero, infinite or NaN). *)
Definition valid_float (x : float) : bool := valid_binary 53 1024 x.

Lemma digits2_pos_iter_xO m n :
  Zpos (digits2_pos (Pos.iter xO m n)) = Zpos (digits2_pos m) + Zpos n.
Proof.
  induction n as [|n IH] using Pos.peano_ind; [simpl; lia|].
  rewrite Pos.iter_succ. simpl. lia.
Qed.

Lemma shr_exact_52 m :
  iter_pos shr_1 52 (Build_shr_record (Zpos (Pos.iter xO m 52)) false false)
  = Build_shr_record (Zpos m) false false.
Proof. reflexivity. Qed.

Lemma fmul_one_r x : valid_float x = true → fmul x fone = x.
Proof.
  destruct x as [s|s| |s m e]; [by destruct s|by destruct s|done|].
  unfold valid_float, valid_binary, bounded. intros [Hc He]%andb_true_iff.
  unfold canonical_mantissa in Hc. apply Z.eqb_eq in Hc. apply Z.leb_le in He.
  change fone with (S754_finite false 4503599627370496 (-52)).
  unfold fmul, SFmul. rewrite xorb_false_r, Pos.mul_comm.
  change (4503599627370496 * m)%positive with (Pos.iter xO m 52).
  unfold binary_round_aux, shr_fexp, Zdigits2. rewrite digits2_pos_iter_xO.
  replace (Zpos (digits2_pos m) + 52 + (e + -52)) with (Zpos (digits2_pos m) + e) by lia.
  rewrite Hc. replace (e - (e + -52)) with 52 by lia.
  change (shr_record_of_loc (Zpos (Pos.iter xO m 52)) loc_Exact)
    with (Build_shr_record (Zpos (Pos.iter xO m 52)) false false).
  unfold shr at 1. rewrite shr_exact_52.
  cbn [shr_m loc_of_shr_record round_nearest_even Zdigits2].
  replace (e + -52 + 52) with e by lia. rewrite Hc, Z.sub_diag.
  cbn [shr shr_record_of_loc shr_m].
  change (1024 - 53) with 971 in *. apply Z.leb_le in He. by rewrite He.
Qed.

(** An exact canonical mantissa rounds to itself, and so does its double one
    exponent below. *)
Lemma round_canonical s m e :
  valid_float (S754_finite s m e) = true →
  binary_round_aux 53 1024 s (Zpos m) e loc_Exact = S754_finite s m e
  ∧ binary_round_aux 53 1024 s (Zpos m~0) (e - 1) loc_Exact = S754_finite s m e.
Proof.
  unfold valid_float, valid_binary, bounded, canonical_mantissa.
  intros [Hc He]%andb_true_iff. apply Z.eqb_eq in Hc. apply Z.leb_le in He.
  unfold binary_round_aux, shr_fexp, Zdigits2.
  assert (fexp 53 1024 (Zpos (digits2_pos m~0) + (e - 1)) - (e - 1) = 1) as Hc'.
  { replace (Zpos (digits2_pos m~0) + (e - 1)) with (Zpos (digits2_pos m) + e)
      by (simpl; lia). lia. }
  rewrite Hc, Hc', Z.sub_diag. simpl (shr _ _ _).
  cbn [shr_m loc_of_shr_record round_nearest_even Zdigits2 shr shr_record_of_loc iter_pos shr_1 orb].
  replace (e - 1 + 1) with e by lia. rewrite Hc, Z.sub_diag.
  cbn [shr shr_record_of_loc shr_m]. apply Z.leb_le in He. by rewrite He.
Qed.

Lemma div_eucl_mul n k : 0 < k → Z.div_eucl (n * k) k = (n, 0).
Proof.
  intros Hk. pose proof (Z.div_mul n k ltac:(lia)) as Hq.
  pose proof (Z.mod_mul n k ltac:(lia)) as Hm.
  unfold Z.div, Z.modulo in Hq, Hm. destruct (Z.div_eucl _ _). congruence.
Qed.

Lemma fdiv_one_r x : valid_float x = true → fdiv_ieee x fone = x.
Proof.
  destruct x as [s|s| |s m e]; [by destruct s|by destruct s|done|]. intros Hv.
  destruct (round_canonical s m e Hv) as [Hr1 Hr2].
  unfold valid_float, valid_binary, bounded, canonical_mantissa in Hv.
  apply andb_true_iff in Hv as [Hc _]. apply Z.eqb_eq in Hc.
  change fone with (S754_finite false 4503599627370496 (-52)).
  unfold fdiv_ieee, SFdiv, SFdiv_core_binary. rewrite xorb_false_r.
  change (Zdigits2 4503599627370496) with 53. unfold Zdigits2.
  unfold fexp, emin in Hc |- *.
  set (e' := Z.min _ _).
  assert (e' = e ∨ e' = e - 1) as [He'|He'] by lia; rewrite He'.
  - replace (e - -52 - e) with 52 by lia. rewrite Z.shiftl_mul_pow2 by done.
    change (2 ^ 52) with 4503599627370496. by rewrite div_eucl_mul.
  - replace (e - -52 - (e - 1)) with 53 by lia. rewrite Z.shiftl_mul_pow2 by done.
    replace (Zpos m * 2 ^ 53) with (Zpos m~0 * 4503599627370496) by lia.
    by rewrite div_eucl_mul.
Qed.

(** ** [int(a / b)] of two integers *)
Lemma digits2_pos_bounds p :
  2 ^ (Zpos (digits2_pos p) - 1) ≤ Zpos p < 2 ^ Zpos (digits2_pos p).
Proof.
  induction p as [p IH|p IH|]; simpl digits2_pos; [| |done];
    rewrite Pos2Z.inj_succ;
    replace (Z.succ (Zpos (digits2_pos p)) - 1) with (Z.succ (Zpos (digits2_pos p) - 1)) by lia;
    rewrite !Z.pow_succ_r by lia; lia.
Qed.

Lemma digits2_pos_unique p d : 0 < d → 2 ^ (d - 1) ≤ Zpos p < 2 ^ d → Zpos (digits2_pos p) = d.
Proof.
  intros Hd [Hlo Hhi]. destruct (digits2_pos_bounds p) as [Hlo' Hhi'].
  assert (Zpos (digits2_pos p) - 1 < d) by (apply (Z.pow_lt_mono_r_iff 2); lia).
  assert (d - 1 < Zpos (digits2_pos p)) by (apply (Z.pow_lt_mono_r_iff 2); lia). lia.
Qed.

Lemma round_nearest_even_step p l :
  ∃ m, round_nearest_even (Zpos p) l = Zpos m ∧ Zpos p ≤ Zpos m ≤ Zpos p + 1.
Proof.
  assert (Zpos p + 1 = Zpos (p + 1)) as Hp by lia.
  destruct l as [|[]]; unfold round_nearest_even; try destruct (Z.even _); rewrite ?Hp;
    eexists; (split; [reflexivity|lia]).
Qed.

(** Second rounding pass: an integer of at most 53 bits, or [2^53] itself. *)
Lemma round_second_pass p e :
  2 ^ 52 ≤ Zpos p ≤ 2 ^ 53 → -100 ≤ e ≤ 100 →
  ∃ m e', shr_fexp 53 1024 (Zpos p) e loc_Exact
            = (Build_shr_record (Zpos m) false false, e')
          ∧ e ≤ e' ≤ e + 1 ∧ Zpos m * 2 ^ (e' - e) = Zpos p ∧ 2 ^ 52 ≤ Zpos m < 2 ^ 53.
Proof.
  intros Hp He. unfold shr_fexp, Zdigits2, fexp, emin.
  destruct (decide (Zpos p = 2 ^ 53)) as [Heq|Hne].
  - rewrite (digits2_pos_unique p 54) by lia.
    replace (Z.max _ _ - e) with 1 by lia.
    exists 4503599627370496%positive, (e + 1).
    split_and!; [|lia|lia| |lia|lia].
    + assert (p = 9007199254740992%positive) as -> by lia. reflexivity.
    + replace (e + 1 - e) with 1 by lia. lia.
  - rewrite (digits2_pos_unique p 53) by lia.
    replace (Z.max _ _ - e) with 0 by lia.
    exists p, e. split_and!; [done|lia|lia| |lia|lia]. rewrite Z.sub_diag. lia.
Qed.

(** Rounding a quotient known to 53 or 54 bits stays within one unit of it, on
    the even side when it goes down. *)
Lemma round_quotient q e l :
  2 ^ 52 ≤ q < 2 ^ 54 → -80 ≤ e ≤ 0 →
  ∃ m e', binary_round_aux 53 1024 false q e l = S754_finite false m e'
          ∧ e ≤ e' ≤ e + 2 ∧ q - q mod 2 ≤ Zpos m * 2 ^ (e' - e) ≤ q + 1
          ∧ 2 ^ 52 ≤ Zpos m < 2 ^ 53.
Proof.
  intros Hq He. destruct q as [|p|p]; [lia| |lia]. unfold binary_round_aux.
  assert (∃ m1 e1 mrs, shr_fexp 53 1024 (Zpos p) e l = (mrs, e1)
    ∧ round_nearest_even (shr_m mrs) (loc_of_shr_record mrs) = Zpos m1
    ∧ e ≤ e1 ≤ e + 1 ∧ 2 ^ 52 ≤ Zpos m1 ≤ 2 ^ 53
    ∧ Zpos p - Zpos p mod 2 ≤ Zpos m1 * 2 ^ (e1 - e) ≤ Zpos p + 1)
    as (m1&e1&mrs&->&->&He1&Hm1&Hv).
  { unfold shr_fexp, Zdigits2, fexp, emin.
    destruct (decide (Zpos p < 2 ^ 53)) as [Hlt|Hge].
    - rewrite (digits2_pos_unique p 53) by lia. replace (Z.max _ _ - e) with 0 by lia.
      destruct (round_nearest_even_step p l) as (m1&Hr&Hm1).
      exists m1, e. eexists. split; [done|].
      split; [rewrite <- Hr; by destruct l as [|[]]|].
      rewrite Z.sub_diag. pose proof (Z.mod_pos_bound (Zpos p) 2). lia.
    - rewrite (digits2_pos_unique p 54) by lia. replace (Z.max _ _ - e) with 1 by lia.
      simpl shr. replace (e + 1 - e) with 1 by lia.
      destruct p as [h|h|]; [| |lia].
      + destruct (round_nearest_even_step h
                    (loc_of_shr_record (shr_1 (shr_record_of_loc (Zpos h~1) l))))
          as (m1&Hr&Hm1).
        exists m1, (e + 1). eexists. split; [done|].
        split; [rewrite <- Hr; by destruct l as [|[]]|].
        replace (e + 1 - e) with 1 by lia.
        assert (Zpos h~1 mod 2 = 1) as -> by (rewrite Pos2Z.inj_xI; divlia). lia.
      + exists h, (e + 1). eexists. split; [done|]. split; [by destruct l as [|[]]|].
        replace (e + 1 - e) with 1 by lia.
        assert (Zpos h~0 mod 2 = 0) as -> by (rewrite Pos2Z.inj_xO; divlia). lia. }
  destruct (round_second_pass m1 e1) as (m&e'&->&He'&Hv'&Hm); [lia|lia|].
  cbn [shr_m]. rewrite (proj2 (Z.leb_le e' (1024 - 53))) by lia.
  exists m, e'. split_and!; [done|lia|lia| | |lia|lia];
    replace (e' - e) with ((e' - e1) + (e1 - e)) by lia;
    rewrite Z.pow_add_r by lia; rewrite Z.mul_assoc, Hv'; lia.
Qed.

(** The rounded quotient by a million of an integer below [2^53]: a 53-bit
    mantissa, whose value never reaches the next integer. *)
Lemma true_div_million_shape p :
  Zpos p < 2 ^ 53 →
  ∃ m e, int_true_div (Zpos p) 1000000 = S754_finite false m e
    ∧ 2 ^ 52 ≤ Zpos m < 2 ^ 53 ∧ -72 ≤ e < 0
    ∧ Zpos p / 1000000 * 2 ^ (- e) ≤ Zpos m < (Zpos p / 1000000 + 1) * 2 ^ (- e).
Proof.
  intros Hn. unfold int_true_div, SFdiv_core_binary.
  change (Zdigits2 1000000) with 20. set (d := Zdigits2 (Zpos p)).
  assert (2 ^ (d - 1) ≤ Zpos p < 2 ^ d) as Hd by apply digits2_pos_bounds.
  assert (1 ≤ d ≤ 53).
  { split; [unfold d; simpl; lia|].
    assert (d - 1 < 53); [|lia]. apply (Z.pow_lt_mono_r_iff 2); lia. }
  unfold fexp, emin. replace (Z.min _ _) with (d - 73) by lia.
  replace (0 - 0 - (d - 73)) with (73 - d) by lia.
  destruct (73 - d) as [|sp|sp] eqn:Hs; [lia| |lia]. rewrite <- Hs.
  rewrite Z.shiftl_mul_pow2 by lia.
  destruct (Z.div_eucl _ _) as [q r] eqn:Hdiv.
  pose proof (Z_div_mod (Zpos p * 2 ^ (73 - d)) 1000000 ltac:(lia)) as Hqr.
  rewrite Hdiv in Hqr. destruct Hqr as [Hq Hr].
  assert (2 ^ 72 ≤ Zpos p * 2 ^ (73 - d) < 2 ^ 73) as Hm.
  { replace 72 with ((d - 1) + (73 - d)) by lia.
    replace (2 ^ 73) with (2 ^ (d + (73 - d))) by (f_equal; lia).
    rewrite !Z.pow_add_r by lia.
    assert (0 < 2 ^ (73 - d)) by (apply Z.pow_pos_nonneg; lia). nia. }
  destruct (round_quotient q (d - 73) (new_location 1000000 r))
    as (m&e'&->&He'&Hv&Hmant); [lia|lia|].
  exists m, e'. split_and!; [done|lia|lia|lia|lia| |].
  all: set (k := Zpos p / 1000000); set (r0 := Zpos p mod 1000000);
    pose proof (Z.div_mod (Zpos p) 1000000 ltac:(lia)) as Hk;
    pose proof (Z.mod_pos_bound (Zpos p) 1000000 ltac:(lia)) as Hr0; fold k in Hk;
    fold r0 in Hk, Hr0;
    set (D := 2 ^ (73 - d)) in *; set (W := 2 ^ (- e')) in *;
    assert (0 < 2 ^ (e' - (d - 73))) as HS by (apply Z.pow_pos_nonneg; lia);
    assert (W * 2 ^ (e' - (d - 73)) = D) as HDe
      by (unfold D, W; rewrite <- Z.pow_add_r by lia; f_equal; lia);
    set (S := 2 ^ (e' - (d - 73))) in *;
    assert (1000000 * q + r = 1000000 * (k * D) + r0 * D) as Hqk
      by (rewrite <- Hq, Hk; ring);
    assert (2 ^ 20 ≤ D) as HD by (apply Z.pow_le_mono_r; lia).
  - apply (Z.mul_le_mono_pos_r _ _ S HS). rewrite <- Z.mul_assoc, HDe.
    assert (D = 2 * 2 ^ (72 - d)) as HD2
      by (unfold D; rewrite <- Z.pow_succ_r by lia; f_equal; lia).
    assert (0 ≤ r0 * D) by (apply Z.mul_nonneg_nonneg; lia).
    assert (k * D ≤ q) as Hlo by lia.
    assert (k * D = 2 * (k * 2 ^ (72 - d))) by (rewrite HD2; ring).
    pose proof (Z.div_mod q 2 ltac:(lia)). pose proof (Z.mod_pos_bound q 2 ltac:(lia)). lia.
  - apply (Z.mul_lt_mono_pos_r S _ _ HS). rewrite <- Z.mul_assoc, HDe.
    assert (r0 * D ≤ 999999 * D) by (apply Z.mul_le_mono_nonneg_r; lia). lia.
Qed.

(** Truncating it is the integer division. *)
Lemma int_of_true_div_million n :
  0 ≤ n < 2 ^ 53 → int_of_float (int_true_div n 1000000) = Ok (n / 1000000).
Proof.
  intros Hn. destruct n as [|p|p]; [done| |lia].
  destruct (true_div_million_shape p) as (m&e&->&_&He&Hlo&Hhi); [lia|].
  unfold int_of_float. rewrite (proj2 (Z.leb_gt 0 e)) by lia. f_equal.
  rewrite Z.shiftr_div_pow2 by lia.
  symmetry. apply (Z.div_unique_pos _ _ _ (Zpos m - Zpos p / 1000000 * 2 ^ (- e))); lia.
Qed.

(** Positive floats with 53-bit mantissas compare as the numbers they are. *)
Lemma flt_canonical m1 e1 m2 e2 :
  2 ^ 52 ≤ Zpos m1 < 2 ^ 53 → 2 ^ 52 ≤ Zpos m2 < 2 ^ 53 → e1 ≤ 0 → e2 ≤ 0 →
  flt (S754_finite false m1 e1) (S754_finite false m2 e2) = true ↔
  Zpos m1 * 2 ^ (- e2) < Zpos m2 * 2 ^ (- e1).
Proof.
  intros Hm1 Hm2 He1 He2. unfold flt, SFltb, SFcompare.
  assert (∀ a b, a < b → b ≤ 0 → 2 * 2 ^ (- b) ≤ 2 ^ (- a)) as Hpow.
  { intros a b Hab Hb. rewrite <- Z.pow_succ_r by lia. apply Z.pow_le_mono_r; lia. }
  assert (0 < 2 ^ (- e1)) by (apply Z.pow_pos_nonneg; lia).
  assert (0 < 2 ^ (- e2)) by (apply Z.pow_pos_nonneg; lia).
  destruct (Z.compare_spec e1 e2) as [->|Hlt|Hgt].
  - rewrite <- Z.mul_lt_mono_pos_r by done.
    change (Pos.compare_cont Eq m1 m2) with (m1 ?= m2)%positive.
    destruct (Pos.compare_spec m1 m2); split; (done || lia).
  - specialize (Hpow e1 e2 Hlt He2). split; [intros _; nia|done].
  - specialize (Hpow e2 e1 Hgt He1). split; [done|nia].
Qed.

(** [(a - b).total_seconds() < k] for a whole number [k] of seconds is the
    comparison of microseconds. *)
Lemma true_div_million_lt n k m e :
  0 ≤ n < 2 ^ 53 →
  float_of_Z k = S754_finite false m e → 2 ^ 52 ≤ Zpos m < 2 ^ 53 → e ≤ 0 →
  Zpos m = k * 2 ^ (- e) →
  flt (int_true_div n 1000000) (float_of_Z k) = (n <? k * 1000000).
Proof.
  intros Hn Hf Hm He Hk. rewrite Hf. clear Hf.
  assert (0 < 2 ^ (- e)) by (apply Z.pow_pos_nonneg; lia). assert (0 < k) by nia.
  destruct n as [|p|p]; [symmetry; apply Z.ltb_lt; lia| |lia].
  destruct (true_div_million_shape p) as (m1&e1&->&Hm1&He1&Hlo&Hhi); [lia|].
  apply eq_bool_prop_intro. rewrite !Is_true_true, flt_canonical, Z.ltb_lt by lia.
  rewrite Hk. assert (0 < 2 ^ (- e1)) by (apply Z.pow_pos_nonneg; lia).
  replace (k * 2 ^ (- e) * 2 ^ (- e1)) with (k * 2 ^ (- e1) * 2 ^ (- e)) by lia.
  rewrite <- Z.mul_lt_mono_pos_r by done.
  pose proof (Z.div_mod (Zpos p) 1000000 ltac:(lia)).
  pose proof (Z.mod_pos_bound (Zpos p) 1000000 ltac:(lia)).
  split; intros Hlt.
  - assert (Zpos p / 1000000 < k) by nia. nia.
  - assert (Zpos p / 1000000 + 1 ≤ k) by lia. nia.
Qed.

#[export] Hint Resolve flt_irrefl flt_asym feq_refl : pylib.

(** ** [max] and [min] of several floats *)
Definition no_nan (xs : list float) : Prop := Forall (λ x, is_nan x = false) xs.

Lemma foldl_fmax_first_max b l : foldl fmax b l = first_max_from fgt b l.
Proof. revert b. induction l as [|x l IH]; intros b; simpl; [done|]. apply IH. Qed.

Lemma foldl_fmin_first_max b l : foldl fmin b l = first_max_from flt b l.
Proof. revert b. induction l as [|x l IH]; intros b; simpl; [done|]. apply IH. Qed.

Lemma foldl_fmax_spec b l :
  no_nan (b :: l) →
  foldl fmax b l ∈ b :: l ∧ ∀ x, x ∈ b :: l → fgt x (foldl fmax b l) = false.
Proof.
  intros H. rewrite foldl_fmax_first_max. split; [apply first_max_from_elem|].
  apply (first_max_from_ge fgt (λ x, is_nan x = false)); unfold fgt; try done.
  - intros x y z Hy Hxy Hyz. by apply (flt_negtrans z y x).
  - intros x y. apply flt_asym.
  - apply flt_irrefl.
Qed.

Lemma foldl_fmin_spec b l :
  no_nan (b :: l) →
  foldl fmin b l ∈ b :: l ∧ ∀ x, x ∈ b :: l → flt x (foldl fmin b l) = false.
Proof.
  intros H. rewrite foldl_fmin_first_max. split; [apply first_max_from_elem|].
  apply (first_max_from_ge flt (λ x, is_nan x = false)); try done.
  - intros x y z Hy Hxy Hyz. by apply (flt_negtrans x y z).
  - intros x y. apply flt_asym.
  - apply flt_irrefl.
Qed.

(** ** [round(x)] to an integer *)
Definition py_round_int (x : float) : result pyerr Z :=
  match x with
  | S754_zero _ => Ok 0
  | S754_infinity _ => Err OverflowError
  | S754_nan => Err ValueError
  | S754_finite s m e =>
      let r := if 0 <=? e then Zpos m * 2 ^ e else div_half_even (Zpos m) (2 ^ (- e)) in
      Ok (if s then - r else r)
  end.

(** ** The value of a float, and rounding it, are monotone *)

(** The value of a finite float in units of [2^-1074]. *)
Definition fnum (x : float) : Z :=
  match x with
  | S754_finite s m e => (if s then -1 else 1) * (Zpos m * 2 ^ (e + 1074))
  | _ => 0
  end.

Lemma valid_finite_facts s m e :
  valid_float (S754_finite s m e) = true →
  -1074 ≤ e ∧ Zpos m < 2 ^ 53 ∧ (-1074 < e → 2 ^ 52 ≤ Zpos m).
Proof.
  unfold valid_float, valid_binary, bounded, canonical_mantissa.
  intros [Hc _]%andb_true_iff. apply Z.eqb_eq in Hc. unfold fexp, emin in Hc.
  destruct (digits2_pos_bounds m) as [Hlo Hhi]. set (d := Zpos (digits2_pos m)) in *.
  assert (0 < d) by (unfold d; lia).
  assert (d ≤ 53) by lia. split_and!; [lia| |].
  - eapply Z.lt_le_trans; [exact Hhi|]. apply Z.pow_le_mono_r; lia.
  - intros He. assert (d = 53) as Hd by lia. rewrite Hd in Hlo. exact Hlo.
Qed.

Lemma fnum_compare_pos m1 e1 m2 e2 :
  valid_float (S754_finite false m1 e1) = true → valid_float (S754_finite false m2 e2) = true →
  (match Z.compare e1 e2 with
   | Lt => Lt | Gt => Gt | Eq => (m1 ?= m2)%positive
   end) = (Zpos m1 * 2 ^ (e1 + 1074) ?= Zpos m2 * 2 ^ (e2 + 1074)).
Proof.
  intros (Hb1&Hu1&Hl1)%valid_finite_facts (Hb2&Hu2&Hl2)%valid_finite_facts.
  assert (∀ a b, a < b → -1074 ≤ a → 2 * 2 ^ (a + 1074) ≤ 2 ^ (b + 1074)) as Hpow.
  { intros a b Hab Ha. rewrite <- Z.pow_succ_r by lia. apply Z.pow_le_mono_r; lia. }
  assert (0 < 2 ^ (e1 + 1074)) by (apply Z.pow_pos_nonneg; lia).
  assert (0 < 2 ^ (e2 + 1074)) by (apply Z.pow_pos_nonneg; lia).
  destruct (Z.compare_spec e1 e2) as [<-|Hlt|Hgt].
  - rewrite <- Zmult_compare_compat_r by lia. done.
  - specialize (Hpow e1 e2 Hlt Hb1). specialize (Hl2 ltac:(lia)).
    symmetry. apply Z.compare_lt_iff. nia.
  - specialize (Hpow e2 e1 Hgt Hb2). specialize (Hl1 ltac:(lia)).
    symmetry. apply Z.compare_gt_iff. nia.
Qed.

Lemma valid_opp_sign s m e :
  valid_float (S754_finite s m e) = valid_float (S754_finite false m e).
Proof. done. Qed.

(** Comparing two valid finite floats compares their values. *)
Lemma fle_fnum x y :
  valid_float x = true → valid_float y = true → is_finite x = true → is_finite y = true →
  fle x y = (fnum x <=? fnum y).
Proof.
  intros Hx Hy Hfx Hfy. unfold fle, SFleb.
  destruct x as [sx| | |sx mx ex], y as [sy| | |sy my ey]; try done;
    unfold SFcompare; cbn [fnum].
  - assert (0 < 2 ^ (ey + 1074)).
    { apply Z.pow_pos_nonneg; [done|]. apply valid_finite_facts in Hy. lia. }
    destruct sy; symmetry; [apply Z.leb_gt|apply Z.leb_le]; lia.
  - assert (0 < 2 ^ (ex + 1074)).
    { apply Z.pow_pos_nonneg; [done|]. apply valid_finite_facts in Hx. lia. }
    destruct sx; symmetry; [apply Z.leb_le|apply Z.leb_gt]; lia.
  - rewrite valid_opp_sign in Hx, Hy. pose proof (fnum_compare_pos _ _ _ _ Hx Hy) as Hc.
    assert (0 < 2 ^ (ex + 1074)).
    { apply Z.pow_pos_nonneg; [done|]. apply valid_finite_facts in Hx. lia. }
    assert (0 < 2 ^ (ey + 1074)).
    { apply Z.pow_pos_nonneg; [done|]. apply valid_finite_facts in Hy. lia. }
    set (a := Zpos mx * 2 ^ (ex + 1074)) in *. set (b := Zpos my * 2 ^ (ey + 1074)) in *.
    assert (0 < a) by (unfold a; lia). assert (0 < b) by (unfold b; lia). clearbody a b.
    change ((mx ?= my)%positive) with (Pos.compare_cont Eq mx my) in Hc.
    apply eq_bool_prop_intro. rewrite !Is_true_true, Z.leb_le.
    destruct sx, sy.
    + assert ((match (ex ?= ey) with
               | Eq => CompOpp (Pos.compare_cont Eq mx my) | Lt => Gt | Gt => Lt
               end) = CompOpp (a ?= b)) as -> by (rewrite <- Hc; by destruct (ex ?= ey)).
      destruct (Z.compare_spec a b); simpl; split; (done || lia).
    + split; [lia|done].
    + split; [done|lia].
    + rewrite Hc. destruct (Z.compare_spec a b); simpl; split; (done || lia).
Qed.

Lemma div_half_even_scale n d k : 0 < d → 0 < k → div_half_even (n * k) (d * k) = div_half_even n d.
Proof.
  intros Hd Hk. unfold div_half_even.
  rewrite Z.div_mul_cancel_r, Z.mul_mod_distr_r by lia.
  assert ((2 * (n mod d * k) <? d * k) = (2 * (n mod d) <? d)) as ->.
  { apply eq_bool_prop_intro. rewrite !Is_true_true, !Z.ltb_lt. nia. }
  assert ((d * k <? 2 * (n mod d * k)) = (d <? 2 * (n mod d))) as ->; [|done].
  apply eq_bool_prop_intro. rewrite !Is_true_true, !Z.ltb_lt. nia.
Qed.

Lemma div_half_even_mono n n' d : 0 < d → n ≤ n' → div_half_even n d ≤ div_half_even n' d.
Proof.
  intros Hd Hn. unfold div_half_even.
  pose proof (Z.div_mod n d ltac:(lia)). pose proof (Z.mod_pos_bound n d Hd).
  pose proof (Z.div_mod n' d ltac:(lia)). pose proof (Z.mod_pos_bound n' d Hd).
  pose proof (Z.div_le_mono n n' d Hd Hn) as Hq.
  destruct (Z.eq_dec (n / d) (n' / d)) as [Heq|Hne].
  - rewrite Heq in *. assert (n mod d ≤ n' mod d) by lia.
    destruct (Z.ltb_spec (2 * (n mod d)) d), (Z.ltb_spec (2 * (n' mod d)) d),
      (Z.ltb_spec d (2 * (n mod d))), (Z.ltb_spec d (2 * (n' mod d))), (Z.even (n' / d)); lia.
  - destruct (Z.ltb_spec (2 * (n mod d)) d), (Z.ltb_spec (2 * (n' mod d)) d),
      (Z.ltb_spec d (2 * (n mod d))), (Z.ltb_spec d (2 * (n' mod d))),
      (Z.even (n / d)), (Z.even (n' / d)); lia.
Qed.

Lemma div_half_even_nonneg n d : 0 < d → 0 ≤ n → 0 ≤ div_half_even n d.
Proof.
  intros Hd Hn. pose proof (Z.div_pos n d Hn Hd). unfold div_half_even. cbv zeta.
  destruct (2 * (n mod d) <? d), (d <? 2 * (n mod d)), (Z.even (n / d)); lia.
Qed.

(** Rounding a finite float, from its value. *)
Lemma py_round_int_fnum x :
  valid_float x = true → is_finite x = true →
  py_round_int x = Ok (if 0 <=? fnum x then div_half_even (fnum x) (2 ^ 1074)
                       else - div_half_even (- fnum x) (2 ^ 1074)).
Proof.
  intros Hx Hf. destruct x as [s| | |s m e]; try done.
  destruct (valid_finite_facts _ _ _ Hx) as (He&_&_). unfold py_round_int. f_equal.
  assert ((if 0 <=? e then Zpos m * 2 ^ e else div_half_even (Zpos m) (2 ^ (- e)))
          = div_half_even (Zpos m * 2 ^ (e + 1074)) (2 ^ 1074)) as ->.
  { destruct (Z.leb_spec 0 e).
    - rewrite Z.pow_add_r, Z.mul_assoc by lia. unfold div_half_even.
      assert (0 < 2 ^ 1074) by (apply Z.pow_pos_nonneg; lia).
      rewrite Z.div_mul, Z.mod_mul by lia. by rewrite (proj2 (Z.ltb_lt _ _)).
    - replace (2 ^ 1074) with (2 ^ (- e) * 2 ^ (e + 1074)).
      + rewrite div_half_even_scale; [done| |]; apply Z.pow_pos_nonneg; lia.
      + rewrite <- Z.pow_add_r by lia. f_equal. lia. }
  assert (0 < 2 ^ (e + 1074)) by (apply Z.pow_pos_nonneg; lia). cbn [fnum].
  set (v := Zpos m * 2 ^ (e + 1074)). assert (0 < v) by (unfold v; lia). clearbody v.
  destruct s.
  - rewrite (proj2 (Z.leb_gt 0 (-1 * v))) by lia. do 2 f_equal. lia.
  - rewrite (proj2 (Z.leb_le 0 (1 * v))) by lia. f_equal. lia.
Qed.

Lemma py_round_int_mono x y a b :
  valid_float x = true → valid_float y = true → is_finite x = true → is_finite y = true →
  fle x y = true → py_round_int x = Ok a → py_round_int y = Ok b → a ≤ b.
Proof.
  intros Hx Hy Hfx Hfy Hle. rewrite fle_fnum in Hle by done. apply Z.leb_le in Hle.
  rewrite !py_round_int_fnum by done. intros [= <-] [= <-].
  assert (0 < 2 ^ 1074) as HW by (apply Z.pow_pos_nonneg; lia). set (W := 2 ^ 1074) in *.
  clearbody W.
  destruct (Z.leb_spec 0 (fnum x)), (Z.leb_spec 0 (fnum y)).
  - by apply div_half_even_mono.
  - lia.
  - pose proof (div_half_even_nonneg (- fnum x) W HW ltac:(lia)).
    pose proof (div_half_even_nonneg (fnum y) W HW ltac:(lia)). lia.
  - assert (div_half_even (- fnum y) W ≤ div_half_even (- fnum x) W); [|lia].
    apply div_half_even_mono; lia.
Qed.

(** ** [int / int] is never NaN *)
Lemma iter_pos_nonneg p r : 0 <= shr_m r -> 0 <= shr_m (SpecFloat.iter_pos shr_1 p r).
Proof.
  assert (∀ r, 0 <= shr_m r → 0 <= shr_m (shr_1 r)) as H1.
  { intros [[|[q|q|]|q] b1 b2]; simpl; lia. }
  revert r. induction p as [p IH|p IH|]; intros r Hr; simpl; auto.
Qed.

Lemma shr_fexp_nonneg m e l : 0 <= m -> 0 <= shr_m (fst (shr_fexp 53 1024 m e l)).
Proof.
  intros Hm. unfold shr_fexp, shr. destruct (fexp 53 1024 _ - e); simpl.
  - by destruct l as [|[]].
  - apply iter_pos_nonneg. by destruct l as [|[]].
  - by destruct l as [|[]].
Qed.

Lemma binary_round_aux_not_nan s m e l :
  0 <= m -> is_nan (binary_round_aux 53 1024 s m e l) = false.
Proof.
  intros Hm. unfold binary_round_aux.
  pose proof (shr_fexp_nonneg m e l Hm) as H1.
  destruct (shr_fexp 53 1024 m e l) as [r1 e1]. simpl in H1.
  assert (0 <= round_nearest_even (shr_m r1) (loc_of_shr_record r1)) as H2.
  { unfold round_nearest_even. repeat case_match; lia. }
  pose proof (shr_fexp_nonneg _ e1 loc_Exact H2) as H3.
  destruct (shr_fexp 53 1024 _ e1 loc_Exact) as [r2 e2]. simpl in H3.
  destruct (shr_m r2) as [|p|p]; [done| |lia]. by destruct (_ <=? _).
Qed.

Lemma div_core_nonneg p q : 0 <= fst (fst (SFdiv_core_binary 53 1024 (Zpos p) 0 (Zpos q) 0)).
Proof.
  unfold SFdiv_core_binary.
  match goal with |- context [Z.div_eucl ?m (Zpos q)] => assert (0 <= m) as Hm;
    [|pose proof (Z.div_pos m (Zpos q) Hm ltac:(lia)) as Hdiv; unfold Z.div in Hdiv;
      destruct (Z.div_eucl m (Zpos q)); exact Hdiv] end.
  case_match; [lia| |lia]. apply Z.shiftl_nonneg. lia.
Qed.

Lemma int_true_div_not_nan n d : 0 < d -> is_nan (int_true_div n d) = false.
Proof.
  intros Hd. destruct d as [|q|q]; [lia| |lia]. unfold int_true_div.
  destruct n as [|p|p]; [done| |]; pose proof (div_core_nonneg p q) as Hpos;
    destruct (SFdiv_core_binary _ _ _ _ _ _) as [[m e] l]; by apply binary_round_aux_not_nan.
Qed.

(** ** Products of numbers that are not negative *)
Lemma binary_round_aux_nonneg m e l : 0 ≤ m → fle fzero (binary_round_aux 53 1024 false m e l) = true.
Proof.
  intros Hm%(binary_round_aux_not_nan false m e l). unfold binary_round_aux in *.
  destruct (shr_fexp _ _ m _ _) as [r1 e1]. destruct (shr_fexp _ _ (round_nearest_even _ _) _ _) as [r2 e2].
  destruct (shr_m r2); [done|by destruct (_ <=? _)|done].
Qed.

Lemma int_true_div_nonneg n d : 0 <= n -> 0 < d -> flt (int_true_div n d) fzero = false.
Proof.
  intros Hn Hd. destruct d as [|q|q]; [lia| |lia]. unfold int_true_div. destruct n as [|p|p]; [done| |lia].
  pose proof (div_core_nonneg p q) as Hpos. destruct (SFdiv_core_binary _ _ _ _ _ _) as [[m e] l].
  apply (binary_round_aux_nonneg m e l) in Hpos. pose proof (fle_not_nan _ _ Hpos) as [H1 H2].
  rewrite fle_flt in Hpos by done. by apply negb_true_iff.
Qed.

Lemma fmul_nonneg x y :
  fle fzero x = true → fle fzero y = true → is_finite x = true → is_finite y = true → fle fzero (fmul x y) = true.
Proof.
  destruct x as [[]|[]| |[] m e], y as [[]|[]| |[] m' e']; try done. intros _ _ _ _.
  by apply binary_round_aux_nonneg.
Qed.
