(* ===== verification/PyTime.v ===== *)
(** * Dates, instants and time zones

    [date]: Python's proleptic Gregorian date, kept as its [toordinal()] (1 is
    0001-01-01), so comparison, difference and [weekday()] are integer
    arithmetic; [mk_date] is the constructor with its range checks.

    [datetime]: microseconds since 0001-01-01T00:00 of the wall clock, plus a
    UTC offset when aware.  An [instant] is the same count on the UTC clock.

    [tzinfo]: a time zone is a table this repository does not contain, so it is
    a record of the two directions of the conversion; the theorems that need
    Iran's fixed offset state it as [tz_fixed_since]. *)
From S2P Require Import Prelude PyFloat.
Local Open Scope Z_scope.

(** ** Dates *)
Abbreviation date := Z.

Definition is_leap (y : Z) : bool :=
  (y mod 4 =? 0) && (negb (y mod 100 =? 0) || (y mod 400 =? 0)).

Definition days_before_year (y : Z) : Z :=
  let y := y - 1 in y * 365 + y / 4 - y / 100 + y / 400.

Definition days_before_month (leap : bool) (m : Z) : Z :=
  let l := if leap then 1 else 0 in
  match m with
  | 1 => 0 | 2 => 31 | 3 => 59 + l | 4 => 90 + l | 5 => 120 + l | 6 => 151 + l
  | 7 => 181 + l | 8 => 212 + l | 9 => 243 + l | 10 => 273 + l | 11 => 304 + l
  | 12 => 334 + l | _ => 365 + l
  end.

Definition days_in_month (leap : bool) (m : Z) : Z :=
  days_before_month leap (m + 1) - days_before_month leap m.

(** [date(y, m, d).toordinal()] *)
Definition ordinal (y m d : Z) : Z :=
  days_before_year y + days_before_month (is_leap y) m + d.

Definition valid_ymd (y m d : Z) : bool :=
  (1 <=? y) && (y <=? 9999) && (1 <=? m) && (m <=? 12) &&
  (1 <=? d) && (d <=? days_in_month (is_leap y) m).

(** [date(y, m, d)]: ValueError out of range. *)
Definition mk_date (y m d : Z) : result pyerr date :=
  if valid_ymd y m d then Ok (ordinal y m d) else Err ValueError.

(** [date.weekday()]: Monday is 0. *)
Definition weekday (d : date) : Z := (d + 6) mod 7.

(** ** Instants *)
Definition us_second : Z := 1000000.
Definition us_minute : Z := 60 * us_second.
Definition us_hour : Z := 60 * us_minute.
Definition us_day : Z := 24 * us_hour.

Abbreviation instant := Z.

Inductive datetime : Set :=
| naive (wall : Z)
| aware (wall offset : Z).

(** [dt.replace(tzinfo=utc)] when naive, [dt.astimezone(utc)] when aware. *)
Definition to_utc (dt : datetime) : instant :=
  match dt with naive w => w | aware w off => w - off end.

Definition date_of (w : Z) : date := w / us_day + 1.
Definition time_of (w : Z) : Z := w mod us_day.

(** [datetime.combine(d, t)] *)
Definition combine (d : date) (t : Z) : Z := (d - 1) * us_day + t.

(** [(a - b).total_seconds()] of a difference in microseconds. *)
Definition total_seconds (td : Z) : float := int_true_div td us_second.

(** [timedelta(seconds=x)] of a float that is a whole number of seconds. *)
Definition timedelta_seconds (x : float) : Z :=
  match int_of_float x with Ok k => k * us_second | Err _ => 0 end.

(** ** Time zones *)
Record tzinfo : Type := {
  (** offset in force at a UTC instant ([astimezone]) *)
  utc_offset : instant → Z;
  (** offset of a wall-clock reading, [fold=0] ([utcoffset] of a local time) *)
  wall_offset : Z → Z;
}.

Definition to_wall (tz : tzinfo) (t : instant) : Z := t + utc_offset tz t.
Definition of_wall (tz : tzinfo) (w : Z) : instant := w - wall_offset tz w.

(** The zone has had the constant offset [off] since the instant [t0]. *)
Definition tz_fixed_since (tz : tzinfo) (off : Z) (t0 : instant) : Prop :=
  (∀ t, t0 ≤ t → utc_offset tz t = off) ∧
  (∀ w, t0 + off ≤ w → wall_offset tz w = off).

(** A zone that never changes, for concrete inputs. *)
Definition fixed_zone (off : Z) : tzinfo :=
  {| utc_offset := λ _, off; wall_offset := λ _, off |}.

Lemma fixed_zone_fixed off t0 : tz_fixed_since (fixed_zone off) off t0.
Proof. by split. Qed.

(** ** Calendar lemmas *)
Ltac unfold_time := unfold us_day, us_hour, us_minute, us_second in *.

Lemma days_before_year_succ y :
  days_before_year (y + 1) = days_before_year y + 365 + (if is_leap y then 1 else 0).
Proof.
  unfold days_before_year, is_leap.
  destruct (Z.eqb_spec (y mod 4) 0), (Z.eqb_spec (y mod 100) 0), (Z.eqb_spec (y mod 400) 0);
    simpl; divlia.
Qed.

Lemma days_before_year_mono y y' :
  y < y' → days_before_year y + 365 + (if is_leap y then 1 else 0) ≤ days_before_year y'.
Proof.
  intros Hy. rewrite <- days_before_year_succ. unfold days_before_year. divlia.
Qed.

Ltac month_cases m :=
  let H := fresh in
  assert (m = 1 ∨ m = 2 ∨ m = 3 ∨ m = 4 ∨ m = 5 ∨ m = 6 ∨ m = 7 ∨ m = 8 ∨ m = 9
          ∨ m = 10 ∨ m = 11 ∨ m = 12) as H by lia;
  destruct H as [->|[->|[->|[->|[->|[->|[->|[->|[->|[->|[->| ->]]]]]]]]]]].

Lemma days_before_month_next leap m :
  1 ≤ m ≤ 12 → 28 ≤ days_in_month leap m ≤ 31.
Proof.
  intros Hm. unfold days_in_month. month_cases m; destruct leap; simpl; lia.
Qed.

Lemma days_before_month_mono leap m m' :
  1 ≤ m → m < m' → m' ≤ 13 →
  days_before_month leap m + days_in_month leap m ≤ days_before_month leap m'.
Proof.
  intros Hm Hlt Hm'. unfold days_in_month.
  replace (days_before_month leap m + (days_before_month leap (m + 1) - days_before_month leap m))
    with (days_before_month leap (m + 1)) by lia.
  destruct (decide (m' = 13)) as [->|].
  - assert (1 ≤ m ≤ 12) by lia. month_cases m; destruct leap; simpl; lia.
  - assert (1 ≤ m ≤ 12) by lia. assert (1 ≤ m' ≤ 12) by lia.
    month_cases m; month_cases m'; try lia; destruct leap; simpl; lia.
Qed.

Lemma valid_ymd_spec y m d :
  valid_ymd y m d = true ↔
  1 ≤ y ≤ 9999 ∧ 1 ≤ m ≤ 12 ∧ 1 ≤ d ≤ days_in_month (is_leap y) m.
Proof. unfold valid_ymd. rewrite !andb_true_iff, !Z.leb_le. lia. Qed.

(** A real calendar day, in any year. *)
Definition civil (y m d : Z) : Prop :=
  1 ≤ m ≤ 12 ∧ 1 ≤ d ≤ days_in_month (is_leap y) m.

Lemma valid_ymd_civil y m d :
  valid_ymd y m d = true ↔ 1 ≤ y ≤ 9999 ∧ civil y m d.
Proof. rewrite valid_ymd_spec. unfold civil. tauto. Qed.

(** The calendar order of real days is the order of their ordinals. *)
Lemma ordinal_lt y m d y' m' d' :
  civil y m d → civil y' m' d' →
  y < y' ∨ y = y' ∧ (m < m' ∨ m = m' ∧ d < d') →
  ordinal y m d < ordinal y' m' d'.
Proof.
  intros (Hm&Hd) (Hm'&Hd') Hlt. unfold ordinal.
  destruct Hlt as [Hlt|[<- [Hlt|[<- Hlt]]]]; [| |lia].
  - pose proof (days_before_year_mono y y' Hlt).
    pose proof (days_before_month_mono (is_leap y) m 13 ltac:(lia) ltac:(lia) ltac:(lia)).
    assert (0 ≤ days_before_month (is_leap y') m')
      by (month_cases m'; destruct (is_leap y'); simpl; lia).
    change (days_before_month (is_leap y) 13) with (365 + (if is_leap y then 1 else 0)) in *.
    lia.
  - pose proof (days_before_month_mono (is_leap y) m m' ltac:(lia) Hlt ltac:(lia)). lia.
Qed.

Lemma ordinal_inj y m d y' m' d' :
  civil y m d → civil y' m' d' →
  ordinal y m d = ordinal y' m' d' → (y, m, d) = (y', m', d').
Proof.
  intros Hv Hv' Heq.
  pose proof (λ H, ordinal_lt y m d y' m' d' Hv Hv' H).
  pose proof (λ H, ordinal_lt y' m' d' y m d Hv' Hv H).
  assert (y = y' ∧ m = m' ∧ d = d') as (->&->&->) by lia. done.
Qed.

Lemma mk_date_Ok y m d x :
  mk_date y m d = Ok x ↔ valid_ymd y m d = true ∧ x = ordinal y m d.
Proof. unfold mk_date. destruct (valid_ymd y m d); naive_solver. Qed.

(** A year's ordinals: after the earlier years, up to the end of this one. *)
Lemma ordinal_year y m d :
  civil y m d → days_before_year y < ordinal y m d ≤ days_before_year (y + 1).
Proof.
  intros [Hm Hd]. rewrite days_before_year_succ. unfold ordinal.
  pose proof (days_before_month_mono (is_leap y) m 13 ltac:(lia) ltac:(lia) ltac:(lia)).
  assert (0 ≤ days_before_month (is_leap y) m) by (month_cases m; destruct (is_leap y); simpl; lia).
  change (days_before_month (is_leap y) 13) with (365 + (if is_leap y then 1 else 0)) in *.
  lia.
Qed.

(** A real day is a [date] exactly when its ordinal is in Python's range. *)
Lemma mk_date_ordinal y m d :
  civil y m d →
  mk_date y m d = if (1 <=? ordinal y m d) && (ordinal y m d <=? 3652059)
                  then Ok (ordinal y m d) else Err ValueError.
Proof.
  intros Hc. pose proof (ordinal_year y m d Hc) as Ho. unfold mk_date.
  assert (valid_ymd y m d = (1 <=? ordinal y m d) && (ordinal y m d <=? 3652059)) as ->;
    [|done].
  apply eq_true_iff_eq. rewrite valid_ymd_civil, andb_true_iff, !Z.leb_le.
  unfold days_before_year in Ho. split; [intros [Hy _]|intros; split; [|done]]; divlia.
Qed.

Lemma date_of_combine d t : 0 ≤ t < us_day → date_of (combine d t) = d.
Proof. unfold date_of, combine. unfold_time. divlia. Qed.

Lemma time_of_combine d t : 0 ≤ t < us_day → time_of (combine d t) = t.
Proof. unfold time_of, combine. unfold_time. divlia. Qed.

Lemma combine_date_time w : combine (date_of w) (time_of w) = w.
Proof. unfold date_of, time_of, combine. unfold_time. divlia. Qed.

Lemma time_of_bounds w : 0 ≤ time_of w < us_day.
Proof. unfold time_of. apply Z.mod_pos_bound. unfold_time. lia. Qed.

Lemma weekday_bounds d : 0 ≤ weekday d ≤ 6.
Proof. unfold weekday. divlia. Qed.

#[export] Hint Resolve time_of_bounds weekday_bounds : pylib.

Lemma date_of_mono t t' : t ≤ t' → date_of t ≤ date_of t'.
Proof. intros H. unfold date_of. pose proof (Z.div_le_mono t t' us_day ltac:(done) H). lia. Qed.
