(* ===== verification/Numeric.v ===== *)
(** * NUMERIC columns that hold floats

    What a float becomes in a [NUMERIC] column and reads back as is the
    database's: [numeric], with its documented behaviour in [NumericSigns].
    SQLite, the database of the tests, keeps the float. *)
From S2P Require Import Prelude PyFloat.
Local Open Scope Z_scope.

(** A number the parsers pass on is finite; a CHECK is on its sign. *)
Definition positive (x : float) : bool := is_finite x && flt fzero x.
Definition nonnegative (x : float) : bool := is_finite x && negb (flt x fzero).

Class NumericFloat : Type := { numeric : float → float }.

(** What can be stored where a value must be, and the column's order, for numbers that are
    not finite too: PostgreSQL stores NaN and orders it above every number, SQLite turns it
    into NULL. *)
Class NumericOrder `{!NumericFloat} : Type := {
  storable : float → bool;
  num_le : float → float → bool;
}.

(** The column keeps signs and finite values. *)
Class NumericSigns `{!NumericFloat} : Prop := {
  numeric_positive x : positive x = true → positive (numeric x) = true;
  numeric_nonnegative x : nonnegative x = true → nonnegative (numeric x) = true;
  numeric_finite x : is_finite x = true → is_finite (numeric x) = true;
}.

(** SQLite: the column is a float. *)
#[export] Instance float_numeric : NumericFloat := {| numeric := λ x, x |}.
#[export] Instance float_numeric_signs : @NumericSigns float_numeric.
Proof. by split. Qed.
