(* ===== verification/Jalali.v ===== *)
(** * The Jalali (Solar Hijri) calendar

    [app/economic/jalali.py] (Jalali to Gregorian, month spans, month labels),
    [app/features/engineering.py] ([gregorian_to_jalali]) and the third copy in
    [app/providers/tse_funds.py].  The two directions are integer algorithms
    written independently in three files; the theorems show that each computes
    the same day count, that they are inverse to each other on every real date
    (not only on the months the tests enumerate), and that a month span is a
    partition of the calendar. *)
From S2P Require Import Prelude PyFloat PyTime.
Local Open Scope Z_scope.

(** ** Jalali to Gregorian *)

(** The 33-year arithmetic leap cycle: days before the Jalali year [979 + jy2]. *)
Definition jalali_year_days (jy2 : Z) : Z :=
  365 * jy2 + (jy2 / 33) * 8 + (jy2 mod 33 + 3) / 4.

Definition month_lengths (leap : bool) : list Z :=
  [31; if leap then 29 else 28; 31; 30; 31; 30; 31; 31; 30; 31; 30; 31].

(** [while gm < 12 and n >= months[gm]: n -= months[gm]; gm += 1] *)
Fixpoint month_walk (months : list Z) (gm n : Z) : Z * Z :=
  match months with
  | [] => (gm, n)
  | len :: months' => if len <=? n then month_walk months' (gm + 1) (n - len) else (gm, n)
  end.

(** The Gregorian 400/100/4-year decomposition of a day count from 1600-01-01:
    the year, whether it is a leap year, and the day of the year. *)
Definition gregorian_year (n : Z) : Z * bool * Z :=
  let gy := 1600 + 400 * (n / 146097) in
  let n := n mod 146097 in
  let '(gy, n, leap) :=
    if 36525 <=? n then
      let n := n - 1 in
      let gy := gy + 100 * (n / 36524) in
      let n := n mod 36524 in
      if 365 <=? n then (gy, n + 1, true) else (gy, n, false)
    else (gy, n, true) in
  let gy := gy + 4 * (n / 1461) in
  let n := n mod 1461 in
  if 366 <=? n then
    let n := n - 1 in (gy + n / 365, false, n mod 365)
  else (gy, leap, n).

Definition gregorian_of_days (n : Z) : Z * Z * Z :=
  let '(gy, leap, n) := gregorian_year n in
  let '(gm, n) := month_walk (month_lengths leap) 0 n in
  (gy, gm + 1, n + 1).

(** economic/jalali.py *)
Definition jalali_to_gregorian (jy jm jd : Z) : result pyerr date :=
  let jy2 := jy - 979 in
  let n := 365 * jy2 + (jy2 / 33) * 8 + (jy2 mod 33 + 3) / 4 in
  let n := n + (if jm <=? 6 then (jm - 1) * 31 else 186 + (jm - 7) * 30) in
  let n := n + (jd - 1 + 79) in
  let '(gy, gm, gd) := gregorian_of_days n in
  mk_date gy gm gd.

(** providers/tse_funds.py: the same algorithm, as a triple. *)
Definition tse_jalali_to_gregorian (jy jm jd : Z) : Z * Z * Z :=
  let jy2 := jy - 979 in
  let j_day_no := 365 * jy2 + (jy2 / 33) * 8 + (jy2 mod 33 + 3) / 4 in
  let j_day_no :=
    j_day_no + ((jd - 1) + (if jm <=? 7 then 31 * (jm - 1) else 186 + 30 * (jm - 7))) in
  let g_day_no := j_day_no + 79 in
  gregorian_of_days g_day_no.

(** ** Gregorian to Jalali (features/engineering.py) *)
Definition g_d_m : list Z := [0; 31; 59; 90; 120; 151; 181; 212; 243; 273; 304; 334].

Definition gregorian_to_jalali (gy gm gd : Z) : Z * Z * Z :=
  let gy2 := gy - 1600 in
  let g_day_no := 365 * gy2 + (gy2 + 3) / 4 - (gy2 + 99) / 100 + (gy2 + 399) / 400 in
  let g_day_no := g_day_no + nth (Z.to_nat (gm - 1)) g_d_m 0 in
  let g_day_no :=
    if (2 <? gm)
       && (((gy mod 4 =? 0) && negb (gy mod 100 =? 0)) || (gy mod 400 =? 0))
    then g_day_no + 1 else g_day_no in
  let g_day_no := g_day_no + (gd - 1) in
  let j_day_no := g_day_no - 79 in
  let j_np := j_day_no / 12053 in
  let j_day_no := j_day_no mod 12053 in
  let jy := 979 + 33 * j_np + 4 * (j_day_no / 1461) in
  let j_day_no := j_day_no mod 1461 in
  let '(jy, j_day_no) :=
    if 366 <=? j_day_no
    then (jy + (j_day_no - 1) / 365, (j_day_no - 1) mod 365)
    else (jy, j_day_no) in
  if j_day_no <? 186
  then (jy, 1 + j_day_no / 31, 1 + j_day_no mod 31)
  else (jy, 7 + (j_day_no - 186) / 30, 1 + (j_day_no - 186) mod 30).

Definition jalali_month (gy gm gd : Z) : Z := (gregorian_to_jalali gy gm gd).1.2.

(** ** Month arithmetic (economic/jalali.py) *)

(** Both ends inclusive; the end is one day before the next month's first day. *)
Definition jalali_month_span (jy jm : Z) : result pyerr (date * date) :=
  start ← jalali_to_gregorian jy jm 1;
  let '(next_year, next_month) := if jm =? 12 then (jy + 1, 1) else (jy, jm + 1) in
  next ← jalali_to_gregorian next_year next_month 1;
  if next - 1 <? 1 then Err OverflowError else Ok (start, next - 1).

Definition shift_month (jy jm months : Z) : Z * Z :=
  let index := jy * 12 + (jm - 1) + months in
  (index / 12, index mod 12 + 1).

(** ** Specification: one day count for the whole calendar *)

(** Leap years of the 33-year cycle counted from 979. *)
Definition jalali_leap (jy : Z) : bool :=
  let k := (jy - 979) mod 33 in (k mod 4 =? 0) && (k <? 32).

Definition jalali_month_days (jy jm : Z) : Z :=
  if jm <=? 6 then 31 else if jm <=? 11 then 30 else if jalali_leap jy then 30 else 29.

(** A real Jalali day. *)
Definition jalali_day (jy jm jd : Z) : Prop :=
  1 ≤ jm ≤ 12 ∧ 1 ≤ jd ≤ jalali_month_days jy jm.

(** The proleptic Gregorian ordinal of a Jalali day: 979-01-01 is ordinal 584102. *)
Definition jalali_ordinal (jy jm jd : Z) : Z :=
  584102 + jalali_year_days (jy - 979)
  + (if jm <=? 6 then (jm - 1) * 31 else 186 + (jm - 7) * 30) + (jd - 1).

(** ** The Gregorian decomposition *)

Lemma century_quotients a b c e :
  0 ≤ b ≤ 3 → 0 ≤ c ≤ 24 → 0 ≤ e ≤ 3 →
  let gy := 1600 + 400 * a + 100 * b + 4 * c + e in
  days_before_year gy =
    584022 + 146097 * a + 36524 * b + 1461 * c + 365 * e
    + (if (e =? 0) then 0 else 1)
    - (if (4 * c + e =? 0) then 0 else 1)
    + (if (100 * b + 4 * c + e =? 0) then 0 else 1)
  ∧ is_leap gy = (e =? 0) && (negb (4 * c + e =? 0) || (100 * b + 4 * c + e =? 0)).
Proof.
  intros Hb Hc He gy. subst gy. split.
  - unfold days_before_year.
    destruct (Z.eqb_spec e 0), (Z.eqb_spec (4 * c + e) 0), (Z.eqb_spec (100 * b + 4 * c + e) 0);
      divlia.
  - unfold is_leap.
    replace ((1600 + 400 * a + 100 * b + 4 * c + e) mod 4) with e by divlia.
    replace ((1600 + 400 * a + 100 * b + 4 * c + e) mod 100) with (4 * c + e) by divlia.
    by replace ((1600 + 400 * a + 100 * b + 4 * c + e) mod 400)
      with (100 * b + 4 * c + e) by divlia.
Qed.

(** What a correct decomposition of a day count is, by quotients. *)
Definition gregorian_parts (n gy : Z) (leap : bool) (r : Z) : Prop :=
  ∃ a b c e, 0 ≤ b ≤ 3 ∧ 0 ≤ c ≤ 24 ∧ 0 ≤ e ≤ 3 ∧
    gy = 1600 + 400 * a + 100 * b + 4 * c + e ∧
    leap = (e =? 0) && (negb (4 * c + e =? 0) || (100 * b + 4 * c + e =? 0)) ∧
    0 ≤ r < 365 + (if leap then 1 else 0) ∧
    n = 146097 * a + 36524 * b + 1461 * c + 365 * e + r
        + (if (e =? 0) then 0 else 1) - (if (4 * c + e =? 0) then 0 else 1)
        + (if (100 * b + 4 * c + e =? 0) then 0 else 1).

Ltac give_parts a b c e :=
  exists a, b, c, e; split_and!; try lia; eqb_lia.

Lemma gregorian_year_parts n gy leap r :
  gregorian_year n = (gy, leap, r) → gregorian_parts n gy leap r.
Proof.
  unfold gregorian_year. quot_rem n 146097 a n1. destruct (Z.leb_spec 36525 n1).
  - quot_rem (n1 - 1) 36524 b n2. destruct (Z.leb_spec 365 n2).
    + quot_rem (n2 + 1) 1461 c n3. destruct (Z.leb_spec 366 n3).
      * quot_rem (n3 - 1) 365 e n4. intros [= <- <- <-]. give_parts a b c e.
      * intros [= <- <- <-]. give_parts a b c 0.
    + quot_rem n2 1461 c n3. destruct (Z.leb_spec 366 n3); [lia|].
      intros [= <- <- <-]. give_parts a b 0 0.
  - quot_rem n1 1461 c n3. destruct (Z.leb_spec 366 n3).
    + quot_rem (n3 - 1) 365 e n4. intros [= <- <- <-]. give_parts a 0 c e.
    + intros [= <- <- <-]. give_parts a 0 c 0.
Qed.

(** The day count is the days of the earlier years plus the day of the year. *)
Lemma gregorian_year_spec n gy leap r :
  gregorian_year n = (gy, leap, r) →
  days_before_year gy + r = n + 584022 ∧ is_leap gy = leap
  ∧ 0 ≤ r < 365 + (if leap then 1 else 0).
Proof.
  intros (a&b&c&e&Hb&Hc&He&->&->&Hr&Hn)%gregorian_year_parts.
  destruct (century_quotients a b c e Hb Hc He) as [Hd Hl].
  split_and!; [|done|lia..]. rewrite Hd. lia.
Qed.

(** The month loop splits a day of the year into a real month and day. *)
Lemma month_walk_spec (leap : bool) r m d :
  0 ≤ r < 365 + (if leap then 1 else 0) →
  month_walk (month_lengths leap) 0 r = (m, d) →
  1 ≤ m + 1 ≤ 12 ∧ 1 ≤ d + 1 ≤ days_in_month leap (m + 1)
  ∧ days_before_month leap (m + 1) + d = r.
Proof.
  intros Hr. unfold days_in_month, month_lengths.
  destruct leap; cbn -[Z.leb];
    repeat match goal with
    | |- context [Z.leb ?a ?b] => destruct (Z.leb_spec a b)
    end; intros [= <- <-]; simpl; lia.
Qed.

(** Every day count has a real Gregorian day, with the right ordinal. *)
Lemma gregorian_of_days_spec n y m d :
  gregorian_of_days n = (y, m, d) → civil y m d ∧ ordinal y m d = n + 584023.
Proof.
  unfold gregorian_of_days. destruct (gregorian_year n) as [[gy leap] r] eqn:Hy.
  apply gregorian_year_spec in Hy as (Hd&<-&Hr).
  destruct (month_walk _ _ _) as [gm gd] eqn:Hm. intros [= <- <- <-].
  apply month_walk_spec in Hm as (Hm1&Hd1&Hsum); [|lia].
  split; [by split|]. unfold ordinal. lia.
Qed.

Lemma tse_jalali_to_gregorian_spec jy jm jd y m d :
  1 ≤ jm ≤ 12 → tse_jalali_to_gregorian jy jm jd = (y, m, d) →
  civil y m d ∧ ordinal y m d = jalali_ordinal jy jm jd.
Proof.
  unfold tse_jalali_to_gregorian, jalali_ordinal, jalali_year_days. intros Hm H.
  apply gregorian_of_days_spec in H as [Hc Ho]. split; [done|].
  rewrite Ho. destruct (Z.leb_spec jm 7), (Z.leb_spec jm 6); lia.
Qed.

(** Both readers of a Jalali date agree: the SCI/CBI one is the TSE one with
    [date()]'s range check on top. *)
Lemma jalali_to_gregorian_tse jy jm jd :
  jalali_to_gregorian jy jm jd =
  let '(y, m, d) := tse_jalali_to_gregorian jy jm jd in mk_date y m d.
Proof.
  unfold jalali_to_gregorian, tse_jalali_to_gregorian. simpl.
  replace (365 * (jy - 979) + (jy - 979) / 33 * 8 + ((jy - 979) mod 33 + 3) / 4
     + (if jm <=? 6 then (jm - 1) * 31 else 186 + (jm - 7) * 30) + (jd - 1 + 79))
    with (365 * (jy - 979) + (jy - 979) / 33 * 8 + ((jy - 979) mod 33 + 3) / 4
     + (jd - 1 + (if jm <=? 7 then 31 * (jm - 1) else 186 + 30 * (jm - 7))) + 79); [done|].
  destruct (Z.leb_spec jm 7), (Z.leb_spec jm 6); lia.
Qed.

Lemma jalali_to_gregorian_eq jy jm jd :
  1 ≤ jm ≤ 12 →
  jalali_to_gregorian jy jm jd =
    let o := jalali_ordinal jy jm jd in
    if (1 <=? o) && (o <=? 3652059) then Ok o else Err ValueError.
Proof.
  intros Hm. rewrite jalali_to_gregorian_tse.
  destruct (tse_jalali_to_gregorian jy jm jd) as [[y m] d] eqn:Ht.
  apply tse_jalali_to_gregorian_spec in Ht as [Hc Ho]; [|done].
  simpl. rewrite <- Ho. by apply mk_date_ordinal.
Qed.

(** ** Gregorian to Jalali *)
Lemma gregorian_to_jalali_spec y m d jy jm jd :
  civil y m d → gregorian_to_jalali y m d = (jy, jm, jd) →
  jalali_day jy jm jd ∧ jalali_ordinal jy jm jd = ordinal y m d.
Proof.
  intros [Hm Hd] H. unfold gregorian_to_jalali in H.
  assert (365 * (y - 1600) + (y - 1600 + 3) / 4 - (y - 1600 + 99) / 100 + (y - 1600 + 399) / 400
          = days_before_year y - 584022) as Hy by (unfold days_before_year; divlia).
  rewrite Hy in H. clear Hy.
  set (G := (if (2 <? m) && _ then _ else _)) in H.
  assert (G = days_before_year y - 584022 + days_before_month (is_leap y) m) as HG.
  { subst G. unfold is_leap. clear H Hd.
    destruct (Z.eqb_spec (y mod 4) 0), (Z.eqb_spec (y mod 100) 0), (Z.eqb_spec (y mod 400) 0);
      try divlia; month_cases m; simpl; lia. }
  unfold ordinal.
  assert (G + (d - 1) - 79 = days_before_year y + days_before_month (is_leap y) m + d - 584102)
    as Hn by lia.
  set (n := G + (d - 1) - 79) in *. clearbody n. clear HG. clearbody G.
  quot_rem n 12053 a n1. quot_rem n1 1461 b n2.
  assert (0 ≤ b ≤ 8) by lia.
  (* the year and the day of the year *)
  assert (∃ k r, 0 ≤ k ≤ 32 ∧ jy = 979 + 33 * a + k ∧
    0 ≤ r < 365 + (if (k mod 4 =? 0) && (k <? 32) then 1 else 0) ∧
    n = jalali_year_days (33 * a + k) + r ∧
    (if r <? 186 then (jy, 1 + r / 31, 1 + r mod 31)
     else (jy, 7 + (r - 186) / 30, 1 + (r - 186) mod 30)) = (jy, jm, jd))
    as (k&r&Hk&->&Hr&Hnr&Hmd).
  { unfold jalali_year_days. destruct (Z.leb_spec 366 n2).
    - quot_rem (n2 - 1) 365 c r. exists (4 * b + c), r.
      assert (jy = 979 + 33 * a + 4 * b + c) as -> by (destruct (r <? 186); simplify_eq; lia).
      replace ((4 * b + c) mod 4) with c by divlia.
      split_and!; try lia; [eqb_lia|divlia|].
      destruct (r <? 186); simplify_eq; f_equal; lia.
    - exists (4 * b), n2.
      assert (jy = 979 + 33 * a + 4 * b) as -> by (destruct (n2 <? 186); simplify_eq; lia).
      replace ((4 * b) mod 4) with 0 by divlia. rewrite Z.eqb_refl. simpl.
      split_and!; try lia; [destruct (Z.ltb_spec (4 * b) 32); lia|divlia|].
      destruct (n2 <? 186); simplify_eq; f_equal; lia. }
  unfold jalali_day, jalali_month_days, jalali_leap, jalali_ordinal.
  replace (979 + 33 * a + k - 979) with (33 * a + k) by lia.
  replace ((33 * a + k) mod 33) with k by divlia.
  destruct (Z.ltb_spec r 186); injection Hmd as <- <-.
  - quot_rem r 31 q s. destruct (Z.leb_spec (1 + q) 6); [|lia]. lia.
  - quot_rem (r - 186) 30 q s. destruct (Z.leb_spec (7 + q) 6); [lia|].
    destruct (Z.leb_spec (7 + q) 11); [lia|].
    destruct ((k mod 4 =? 0) && (k <? 32)); lia.
Qed.

(** ** The day count is injective on real Jalali days *)
Lemma jalali_year_days_succ jy :
  jalali_year_days (jy + 1 - 979) =
  jalali_year_days (jy - 979) + 365 + (if jalali_leap jy then 1 else 0).
Proof.
  unfold jalali_year_days, jalali_leap. replace (jy + 1 - 979) with (jy - 979 + 1) by lia.
  quot_rem (jy - 979) 33 q k.
  destruct (decide (k = 32)) as [->|Hk].
  - replace ((jy - 979 + 1) / 33) with (q + 1) by divlia.
    replace ((jy - 979 + 1) mod 33) with 0 by divlia. simpl. divlia.
  - replace ((jy - 979 + 1) / 33) with q by divlia.
    replace ((jy - 979 + 1) mod 33) with (k + 1) by divlia.
    destruct (Z.eqb_spec (k mod 4) 0), (Z.ltb_spec k 32); simpl; divlia.
Qed.

Lemma jalali_year_days_mono jy jy' :
  jy < jy' →
  jalali_year_days (jy - 979) + 365 + (if jalali_leap jy then 1 else 0)
  ≤ jalali_year_days (jy' - 979).
Proof.
  intros Hlt. rewrite <- jalali_year_days_succ. unfold jalali_year_days. divlia.
Qed.

Lemma jalali_ordinal_lt jy jm jd jy' jm' jd' :
  jalali_day jy jm jd → jalali_day jy' jm' jd' →
  jy < jy' ∨ jy = jy' ∧ (jm < jm' ∨ jm = jm' ∧ jd < jd') →
  jalali_ordinal jy jm jd < jalali_ordinal jy' jm' jd'.
Proof.
  unfold jalali_day, jalali_month_days, jalali_ordinal. intros (Hm&Hd) (Hm'&Hd') Hlt.
  assert ((if jm <=? 6 then (jm - 1) * 31 else 186 + (jm - 7) * 30) + jd
          ≤ 365 + (if jalali_leap jy then 1 else 0)).
  { destruct (Z.leb_spec jm 6), (Z.leb_spec jm 11), (jalali_leap jy); lia. }
  assert (0 ≤ (if jm' <=? 6 then (jm' - 1) * 31 else 186 + (jm' - 7) * 30)).
  { destruct (Z.leb_spec jm' 6); lia. }
  destruct Hlt as [Hlt|[<- Hlt]].
  - pose proof (jalali_year_days_mono jy jy' Hlt). lia.
  - destruct (Z.leb_spec jm 6), (Z.leb_spec jm' 6), (Z.leb_spec jm 11); lia.
Qed.

Lemma jalali_ordinal_inj jy jm jd jy' jm' jd' :
  jalali_day jy jm jd → jalali_day jy' jm' jd' →
  jalali_ordinal jy jm jd = jalali_ordinal jy' jm' jd' → (jy, jm, jd) = (jy', jm', jd').
Proof.
  intros Hv Hv' Heq.
  pose proof (λ H, jalali_ordinal_lt jy jm jd jy' jm' jd' Hv Hv' H).
  pose proof (λ H, jalali_ordinal_lt jy' jm' jd' jy jm jd Hv' Hv H).
  assert (jy = jy' ∧ jm = jm' ∧ jd = jd') as (->&->&->) by lia. done.
Qed.

(** ** Properties *)

(** C40. The conversions of the three files are inverse to each other, in both directions
    and in every year, and the two readers agree: a real Jalali day is read by the TSE reader
    as a real Gregorian day, whose Jalali day is the one it came from, and by the CBI/SCI
    reader as the date of that very day (refused exactly where no [date] holds it); a real
    Gregorian day has a real Jalali day, which both readers read back.  The calendars are
    anchored: 20 March 2024 is the first day of 1403. *)
Theorem jalali_roundtrip jy jm jd y m d :
  jalali_day jy jm jd → civil y m d →
  (let '(y1, m1, d1) := tse_jalali_to_gregorian jy jm jd in
   civil y1 m1 d1 ∧ gregorian_to_jalali y1 m1 d1 = (jy, jm, jd)
   ∧ jalali_to_gregorian jy jm jd
     = (if (1 <=? ordinal y1 m1 d1) && (ordinal y1 m1 d1 <=? 3652059) then Ok (ordinal y1 m1 d1) else Err ValueError))
  ∧ (let '(jy1, jm1, jd1) := gregorian_to_jalali y m d in
     jalali_day jy1 jm1 jd1 ∧ tse_jalali_to_gregorian jy1 jm1 jd1 = (y, m, d)
     ∧ (1 ≤ ordinal y m d ≤ 3652059 → jalali_to_gregorian jy1 jm1 jd1 = Ok (ordinal y m d)))
  ∧ gregorian_to_jalali 2024 3 20 = (1403, 1, 1).
Proof.
  intros Hv Hc. pose proof Hv as [Hm _]. split_and!; [| |done].
  - destruct (tse_jalali_to_gregorian jy jm jd) as [[y1 m1] d1] eqn:Ht.
    apply tse_jalali_to_gregorian_spec in Ht as [Hc1 Ho]; [|done]. split_and!; [done| |].
    + destruct (gregorian_to_jalali y1 m1 d1) as [[jy' jm'] jd'] eqn:Hg.
      apply gregorian_to_jalali_spec in Hg as [Hv' Ho']; [|done].
      apply jalali_ordinal_inj; [done..|]. by rewrite Ho', Ho.
    + rewrite jalali_to_gregorian_eq by done. by rewrite Ho.
  - destruct (gregorian_to_jalali y m d) as [[jy1 jm1] jd1] eqn:Hg.
    apply gregorian_to_jalali_spec in Hg as [Hv1 Ho1]; [|done]. pose proof Hv1 as [Hm1 _]. split_and!; [done| |].
    + destruct (tse_jalali_to_gregorian jy1 jm1 jd1) as [[y' m'] d'] eqn:Ht.
      apply tse_jalali_to_gregorian_spec in Ht as [Hc' Ho']; [|done].
      apply ordinal_inj; [done..|]. by rewrite Ho', Ho1.
    + intros Hr. rewrite jalali_to_gregorian_eq by done. cbv zeta. rewrite Ho1.
      destruct (Z.leb_spec 1 (ordinal y m d)), (Z.leb_spec (ordinal y m d) 3652059); (done || lia).
Qed.

Lemma jalali_roundtrip_witness :
  (let '(y, m, d) := tse_jalali_to_gregorian 1403 12 30 in gregorian_to_jalali y m d = (1403, 12, 30))
  ∧ (let '(jy, jm, jd) := gregorian_to_jalali 2024 2 29 in jalali_to_gregorian jy jm jd = Ok (ordinal 2024 2 29)).
Proof.
  destruct (jalali_roundtrip 1403 12 30 2024 2 29) as (H1&H2&_).
  - vm_compute. repeat split; discriminate.
  - vm_compute. repeat split; discriminate.
  - split; [exact (proj1 (proj2 H1))|exact (proj2 (proj2 H2) ltac:(vm_compute; split; discriminate))].
Defined.

(** The first day of the month after [(jy, jm)] is one month later on the day
    count, leap years included. *)
Lemma jalali_ordinal_next_month jy jm :
  1 ≤ jm ≤ 12 →
  let '(ny, nm) := if jm =? 12 then (jy + 1, 1) else (jy, jm + 1) in
  1 ≤ nm ≤ 12 ∧ jalali_ordinal ny nm 1 = jalali_ordinal jy jm 1 + jalali_month_days jy jm.
Proof.
  intros Hm. unfold jalali_ordinal, jalali_month_days. destruct (Z.eqb_spec jm 12) as [->|].
  - split; [lia|]. simpl. rewrite jalali_year_days_succ. destruct (jalali_leap jy); lia.
  - split; [lia|].
    destruct (Z.leb_spec (jm + 1) 6), (Z.leb_spec jm 6), (Z.leb_spec jm 11); lia.
Qed.

(** A month span has exactly the days of its month (31, 30, or 29/30 for
    Esfand by the leap cycle), starts on the month's first day, and the span
    [shift_month] one month later starts the day after it ends: consecutive
    spans tile the calendar with no gap and no overlap. *)
Theorem jalali_month_span_tiles jy jm s e s' e' :
  1 ≤ jm ≤ 12 →
  jalali_month_span jy jm = Ok (s, e) →
  jalali_month_span (shift_month jy jm 1).1 (shift_month jy jm 1).2 = Ok (s', e') →
  s = jalali_ordinal jy jm 1 ∧ e - s + 1 = jalali_month_days jy jm ∧ s' = e + 1.
Proof.
  intros Hm H H'. pose proof (jalali_ordinal_next_month jy jm Hm) as Hn.
  assert (shift_month jy jm 1 = if jm =? 12 then (jy + 1, 1) else (jy, jm + 1)) as Hs.
  { unfold shift_month. destruct (Z.eqb_spec jm 12) as [->|]; f_equal; divlia. }
  rewrite Hs in H'. unfold jalali_month_span in H, H'.
  destruct (if jm =? 12 then _ else _) as [ny nm]. destruct Hn as [Hnm Hn]. simpl in H'.
  rewrite (jalali_to_gregorian_eq ny nm 1) in H, H' by done.
  rewrite jalali_to_gregorian_eq in H by done. cbv zeta in H, H'.
  destruct ((1 <=? jalali_ordinal jy jm 1) && _); [|discriminate H].
  destruct ((1 <=? jalali_ordinal ny nm 1) && _); [|discriminate H]. simpl in H, H'.
  destruct (_ <? 1); [discriminate H|]. injection H as <- <-.
  destruct (if nm =? 12 then _ else _) as [? ?]. inv_ok.
  destruct (_ <? 1); [discriminate|]. simplify_eq. lia.
Qed.

Lemma jalali_month_span_tiles_witness :
  738235 = jalali_ordinal 1401 1 1 ∧ 738265 - 738235 + 1 = jalali_month_days 1401 1
  ∧ 738266 = 738265 + 1.
Proof.
  apply (jalali_month_span_tiles 1401 1 738235 738265 738266 738296);
    [lia|reflexivity|reflexivity].
Defined.

(** Shifting a month label is a group action of the integers: shifts add
    up, a zero shift changes nothing, and the month stays in 1..12. *)
Theorem shift_month_action jy jm a b :
  1 ≤ jm ≤ 12 →
  let '(y1, m1) := shift_month jy jm a in
  1 ≤ m1 ≤ 12 ∧ shift_month y1 m1 b = shift_month jy jm (a + b)
  ∧ shift_month jy jm 0 = (jy, jm).
Proof.
  intros Hm. unfold shift_month. split_and!; [divlia..| |].
  - f_equal; divlia.
  - f_equal; divlia.
Qed.

Lemma shift_month_action_witness :
  let '(y1, m1) := shift_month 1404 1 (-1) in
  1 ≤ m1 ≤ 12 ∧ shift_month y1 m1 14 = shift_month 1404 1 (-1 + 14)
  ∧ shift_month 1404 1 0 = (1404, 1).
Proof. apply (shift_month_action 1404 1 (-1) 14). lia. Defined.
