(* ===== verification/PyText.v ===== *)
(** * ASCII text: the string methods the programs use

    [str.strip], [str.split], [str.isdigit], [int(str)], [str(int)] on
    ASCII strings.  A Python string is Unicode; a byte above 127 is carried
    through unchanged and is never white space or a digit here, so the
    definitions are Python's on text whose non-ASCII characters are letters.
    (Non-ASCII white space and digits, which [str.strip] and [int] also accept,
    are outside the model.) *)
From S2P Require Import Prelude PyFloat.
From Stdlib Require Import Ascii String.
Local Open Scope string_scope.
Local Open Scope Z_scope.

Definition code (c : ascii) : Z := Z.of_N (N_of_ascii c).

(** [str.isspace] of one character: HT..CR, FS..US and space. *)
Definition is_space (c : ascii) : bool :=
  let n := code c in
  (9 <=? n) && (n <=? 13) || (28 <=? n) && (n <=? 32).

Definition is_digit (c : ascii) : bool :=
  let n := code c in (48 <=? n) && (n <=? 57).

Definition digit_val (c : ascii) : Z := code c - 48.

Fixpoint lstrip (s : string) : string :=
  match s with
  | EmptyString => EmptyString
  | String c s' => if is_space c then lstrip s' else s
  end.

Fixpoint rstrip (s : string) : string :=
  match s with
  | EmptyString => EmptyString
  | String c s' =>
      match rstrip s' with
      | EmptyString => if is_space c then EmptyString else String c EmptyString
      | r => String c r
      end
  end.

Definition strip (s : string) : string := rstrip (lstrip s).

(** [s.split(sep)] for a one-character separator: never empty. *)
Fixpoint split (sep : ascii) (s : string) : list string :=
  match s with
  | EmptyString => [EmptyString]
  | String c s' =>
      match split sep s' with
      | [] => []
      | p :: ps => if Ascii.eqb c sep then EmptyString :: p :: ps else String c p :: ps
      end
  end.

Fixpoint all_chars (p : ascii → bool) (s : string) : bool :=
  match s with EmptyString => true | String c s' => p c && all_chars p s' end.

(** [s.isdigit()] *)
Definition isdigit (s : string) : bool :=
  match s with EmptyString => false | _ => all_chars is_digit s end.

(** Digits with single underscores between them, as [int()] accepts.
    [prev]: the previous character was a digit. *)
Fixpoint digits_value (prev : bool) (acc : Z) (s : string) : option Z :=
  match s with
  | EmptyString => if prev then Some acc else None
  | String c s' =>
      if is_digit c then digits_value true (10 * acc + digit_val c) s'
      else if Ascii.eqb c "_" && prev then
        match s' with
        | String d _ => if is_digit d then digits_value false acc s' else None
        | EmptyString => None
        end
      else None
  end.

(** [int(s)] *)
Definition py_int (s : string) : result pyerr Z :=
  let parse t := match digits_value false 0 t with Some n => Ok n | None => Err ValueError end in
  match strip s with
  | String c s' =>
      if Ascii.eqb c "-" then n ← parse s'; Ok (- n)
      else if Ascii.eqb c "+" then parse s'
      else parse (String c s')
  | EmptyString => Err ValueError
  end.

(** [str(n)] *)
Fixpoint digits_of (fuel : nat) (n : Z) (acc : string) : string :=
  let acc := String (ascii_of_N (Z.to_N (48 + n mod 10))) acc in
  match fuel with
  | O => acc
  | S fuel => if n <? 10 then acc else digits_of fuel (n / 10) acc
  end.

Definition str_of_Z (n : Z) : string :=
  let digits m := digits_of (Z.to_nat (Z.log2 (Z.max 1 m)) + 1) m "" in
  if n <? 0 then "-" ++ digits (- n) else digits n.

(** [s[:n]] *)
Fixpoint take_chars (n : nat) (s : string) : string :=
  match n, s with
  | O, _ | _, EmptyString => EmptyString
  | S n, String c s' => String c (take_chars n s')
  end.

Fixpoint starts_with (prefix s : string) : bool :=
  match prefix, s with
  | EmptyString, _ => true
  | String a p, String b s' => Ascii.eqb a b && starts_with p s'
  | String _ _, EmptyString => false
  end.

(** [d.get(k)] of a dict kept in insertion order, keys distinct *)
Fixpoint assoc {A} (k : string) (d : list (string * A)) : option A :=
  match d with
  | [] => None
  | (k', v) :: d' => if String.eqb k k' then Some v else assoc k d'
  end.

Lemma assoc_elem {A} k (d : list (string * A)) x : assoc k d = Some x → (k, x) ∈ d.
Proof.
  induction d as [|[k' y] d IH]; simpl; [done|].
  destruct (String.eqb_spec k k') as [->|]; [intros [= ->]; left|].
  intros H. right. by apply IH.
Qed.

Example py_int_1 : py_int " +1_000 " = Ok 1000. Proof. reflexivity. Qed.
Example py_int_2 : py_int "1__0" = Err ValueError. Proof. reflexivity. Qed.
Example py_int_3 : py_int "-07" = Ok (-7). Proof. reflexivity. Qed.
Example split_1 : split ":" "12:30" = ["12"; "30"]. Proof. reflexivity. Qed.
Example str_1 : str_of_Z 1404 = "1404". Proof. reflexivity. Qed.

Lemma split_not_nil sep s : split sep s ≠ [].
Proof.
  induction s as [|c s IH]; simpl; [done|].
  destruct (split sep s); [done|]. by destruct (Ascii.eqb c sep).
Qed.

(** ** [str(int)] and [int(str)] are inverse *)
Lemma digit_char d : 0 ≤ d ≤ 9 →
  let c := ascii_of_N (Z.to_N (48 + d)) in is_digit c = true ∧ digit_val c = d.
Proof.
  intros Hd c. unfold is_digit, digit_val, code, c.
  rewrite N_ascii_embedding by lia. rewrite Z2N.id by lia. lia.
Qed.

Lemma digit_char_mod n :
  let c := ascii_of_N (Z.to_N (48 + n mod 10)) in is_digit c = true ∧ digit_val c = n mod 10.
Proof. apply digit_char. pose proof (Z.mod_pos_bound n 10 ltac:(lia)). lia. Qed.

Lemma digits_value_of fuel n p a acc :
  0 ≤ n < 10 ^ (Z.of_nat fuel + 1) →
  ∃ w, digits_value p a (digits_of fuel n acc) = digits_value true (a * w + n) acc.
Proof.
  revert n p a acc. induction fuel as [|fuel IH]; intros n p a acc Hn.
  - change (10 ^ (Z.of_nat 0 + 1)) with 10 in Hn. exists 10. cbn [digits_of digits_value].
    destruct (digit_char_mod n) as [-> ->]. f_equal. rewrite Z.mod_small; lia.
  - cbn [digits_of]. destruct (Z.ltb_spec n 10).
    + exists 10. cbn [digits_value]. destruct (digit_char_mod n) as [-> ->].
      f_equal. rewrite Z.mod_small; lia.
    + destruct (IH (n / 10) p a (String (ascii_of_N (Z.to_N (48 + n mod 10))) acc)) as [w ->].
      { split; [by apply Z.div_pos; lia|]. apply Z.div_lt_upper_bound; [lia|].
        rewrite <-Z.pow_succ_r by lia. replace (Z.succ _) with (Z.of_nat (S fuel) + 1) by lia. lia. }
      exists (w * 10). cbn [digits_value]. destruct (digit_char_mod n) as [-> ->].
      f_equal. pose proof (Z.div_mod n 10 ltac:(lia)). lia.
Qed.

Lemma digits_of_all fuel n acc : all_chars is_digit acc = true → 0 ≤ n →
  isdigit (digits_of fuel n acc) = true.
Proof.
  revert n acc. induction fuel as [|fuel IH]; intros n acc Hacc Hn; cbn [digits_of].
  - simpl. destruct (digit_char_mod n) as [-> _]. done.
  - destruct (n <? 10).
    + simpl. destruct (digit_char_mod n) as [-> _]. done.
    + apply IH; [|by apply Z.div_pos; lia]. simpl.
      destruct (digit_char_mod n) as [-> _]. done.
Qed.

(** A nonnegative number has at most [k] digits exactly when it is below [10^k]. *)
Lemma digits_of_length fuel n acc k : 0 ≤ n < 10 ^ (Z.of_nat fuel + 1) →
  (String.length (digits_of fuel n acc) ≤ S k + String.length acc)%nat ↔ n < 10 ^ (Z.of_nat k + 1).
Proof.
  revert n acc k. induction fuel as [|fuel IH]; intros n acc k Hn; cbn [digits_of].
  - change (10 ^ (Z.of_nat 0 + 1)) with 10 in Hn. simpl.
    assert (10 ^ 1 ≤ 10 ^ (Z.of_nat k + 1)) by (apply Z.pow_le_mono_r; lia). lia.
  - destruct (Z.ltb_spec n 10).
    + simpl. assert (10 ^ 1 ≤ 10 ^ (Z.of_nat k + 1)) by (apply Z.pow_le_mono_r; lia). lia.
    + assert (Hdiv : 0 ≤ n / 10 < 10 ^ (Z.of_nat fuel + 1)).
      { split; [by apply Z.div_pos; lia|]. apply Z.div_lt_upper_bound; [lia|].
        rewrite <-Z.pow_succ_r by lia. replace (Z.succ _) with (Z.of_nat (S fuel) + 1) by lia. lia. }
      destruct k as [|k].
      * split; [|lia]. intros Hlen. exfalso.
        pose proof (IH (n / 10) (String (ascii_of_N (Z.to_N (48 + n mod 10))) acc) 0%nat Hdiv) as IH0.
        assert (∀ f m a, (1 + String.length a ≤ String.length (digits_of f m a))%nat) as Hlb.
        { intros f. induction f as [|f IHf]; intros m a; cbn [digits_of]; [simpl; lia|].
          destruct (m <? 10); [simpl; lia|]. etrans; [|apply IHf]. simpl. lia. }
        specialize (Hlb fuel (n / 10) (String (ascii_of_N (Z.to_N (48 + n mod 10))) acc)).
        simpl in Hlb. lia.
      * specialize (IH (n / 10) (String (ascii_of_N (Z.to_N (48 + n mod 10))) acc) k Hdiv).
        simpl String.length in IH. replace (S (S k) + String.length acc)%nat
          with (S k + S (String.length acc))%nat by lia. rewrite IH.
        replace (Z.of_nat (S k) + 1) with (Z.succ (Z.of_nat k + 1)) by lia.
        rewrite Z.pow_succ_r by lia. split; intros Hlt.
        -- pose proof (Z.div_mod n 10 ltac:(lia)). pose proof (Z.mod_pos_bound n 10 ltac:(lia)). lia.
        -- apply Z.div_lt_upper_bound; lia.
Qed.

Lemma str_fuel n : 0 ≤ n → n < 10 ^ (Z.of_nat (Z.to_nat (Z.log2 (Z.max 1 n)) + 1) + 1).
Proof.
  intros Hn. pose proof (Z.log2_nonneg (Z.max 1 n)).
  destruct (Z.log2_spec (Z.max 1 n)) as [_ Hlt]; [lia|].
  assert (2 ^ Z.succ (Z.log2 (Z.max 1 n)) ≤ 10 ^ Z.succ (Z.log2 (Z.max 1 n)))
    by (apply Z.pow_le_mono_l; lia).
  assert (10 ^ Z.succ (Z.log2 (Z.max 1 n))
    ≤ 10 ^ (Z.of_nat (Z.to_nat (Z.log2 (Z.max 1 n)) + 1) + 1))
    by (apply Z.pow_le_mono_r; lia).
  lia.
Qed.

Lemma str_of_Z_digits n : 0 ≤ n → isdigit (str_of_Z n) = true.
Proof.
  intros Hn. unfold str_of_Z. destruct (Z.ltb_spec n 0); [lia|]. by apply digits_of_all.
Qed.

Lemma str_of_Z_length n k : 0 ≤ n →
  (String.length (str_of_Z n) ≤ S k)%nat ↔ n < 10 ^ (Z.of_nat k + 1).
Proof.
  intros Hn. unfold str_of_Z. destruct (Z.ltb_spec n 0); [lia|].
  rewrite <-digits_of_length with (acc := EmptyString)
    (fuel := (Z.to_nat (Z.log2 (Z.max 1 n)) + 1)%nat)
    by (split; [done|by apply str_fuel]).
  simpl. by rewrite Nat.add_0_r.
Qed.

Lemma str_of_Z_value n : 0 ≤ n → digits_value false 0 (str_of_Z n) = Some n.
Proof.
  intros Hn. unfold str_of_Z. destruct (Z.ltb_spec n 0); [lia|].
  destruct (digits_value_of (Z.to_nat (Z.log2 (Z.max 1 n)) + 1) n false 0 EmptyString) as [w ->].
  { split; [done|by apply str_fuel]. }
  done.
Qed.

Lemma digit_not_space c : is_digit c = true → is_space c = false.
Proof. unfold is_digit, is_space. lia. Qed.

Lemma rstrip_digits s : all_chars is_digit s = true → rstrip s = s.
Proof.
  induction s as [|c s IH]; [done|]. intros [Hc Hs]%andb_true_iff. simpl. rewrite IH by done.
  destruct s; [|done]. by rewrite digit_not_space.
Qed.

Lemma strip_digits s : isdigit s = true → strip s = s.
Proof.
  destruct s as [|c s]; [done|]. intros Hall. pose proof Hall as [Hc Hs]%andb_true_iff.
  unfold strip. simpl lstrip. rewrite digit_not_space by done. by apply rstrip_digits.
Qed.

(** [int(str(n)) = n] for a nonnegative [n]. *)
Lemma py_int_str n : 0 ≤ n → py_int (str_of_Z n) = Ok n.
Proof.
  intros Hn. pose proof (str_of_Z_digits n Hn) as Hd. pose proof (str_of_Z_value n Hn) as Hv.
  unfold py_int. rewrite strip_digits by done.
  destruct (str_of_Z n) as [|c s]; [done|]. apply andb_true_iff in Hd as [Hc _].
  assert (Ascii.eqb c "-" = false ∧ Ascii.eqb c "+" = false) as [-> ->].
  { split; apply Ascii.eqb_neq; intros ->; by vm_compute in Hc. }
  by rewrite Hv.
Qed.

Lemma str_of_Z_inj n m : 0 ≤ n → 0 ≤ m → str_of_Z n = str_of_Z m → n = m.
Proof.
  intros Hn Hm Heq. pose proof (str_of_Z_value n Hn). pose proof (str_of_Z_value m Hm).
  rewrite Heq in *. congruence.
Qed.
