(* ===== verification/EconCatalog.v ===== *)
(** * The catalog of economic series

    [app/economic/catalog.py]: the declared series, family by family, the lookup
    by code and the selection of the entries to ingest.  The rows
    [EconomicStore.ensure_series] writes are a projection of this table. *)
From S2P Require Import Prelude PyFloat PyTime PyText.
Local Open Scope string_scope.
Local Open Scope list_scope.
Local Open Scope Z_scope.

Record SeriesSpec : Set := {
  code : string;
  name_en : string;
  name_fa : string;
  domain : string;
  provider_code : string;
  provider_series_id : string;
  country : string;
  indicator : string;
  frequency : string;
  calendar : string;
  measure : string;
  seasonal_adjustment : string;
  base_period : string;
  quality_tier : string;
  quote_currency : string;
  unit_ : string;
  decimals : Z;
  revisable : bool;
  splice_policy : string;
  notes : string;
  publication_lag_days : option Z;
  enabled : bool;
  calendar_class : string;
  kind : string;
}.

Definition _COUNTRIES : list (string * string * string) :=
  [("IRN", "Iran", "ایران");
  ("TUR", "Türkiye", "ترکیه");
  ("SAU", "Saudi Arabia", "عربستان سعودی");
  ("ARE", "United Arab Emirates", "امارات متحده عربی");
  ("PAK", "Pakistan", "پاکستان");
  ("EGY", "Egypt", "مصر");
  ("RUS", "Russia", "روسیه")].

Definition WORLDBANK_INDICATOR : string := "FP.CPI.TOTL".

Definition WORLDBANK_BASE_PERIOD : string := "2010=100".

Definition _WB_NOTE : string :=
  "World Bank Indicators API mirror of the national statistics office's CPI, " +:+
  "rebased by the World Bank to 2010=100 (verified 2026-09-08: the 2010 " +:+
  "observation is exactly 100). Annual only. The API states a dataset-wide " +:+
  "'lastupdated' (2026-07-13 when this entry was written) but no " +:+
  "per-observation publication date, so published_at is NULL and available_at " +:+
  "carries the whole point-in-time claim. Coverage is genuinely incomplete for " +:+
  "some countries — the UAE series has 47 missing years and Russia 32 — and a " +:+
  "missing year is skipped, never zero-filled. The base is verified on every " +:+
  "ingest against the base the payload's own indicator name states; if the " +:+
  "World Bank rebases, the series is refused rather than restated levels being " +:+
  "stored under this label.".

Definition _WB_IRAN_NOTE : string :=
  " For Iran this is NOT the Statistical Centre of Iran's own 1400=100 index: " +:+
  "the two are different levels on different bases and cannot be compared " +:+
  "level-for-level or spliced.".

Definition IMF_INDICATOR : string := "PCPIPCH".

Definition _IMF_NOTE : string :=
  "IMF World Economic Outlook annual average inflation (PCPIPCH) via the " +:+
  "DataMapper API, verified 2026-09-08. Three limits travel with every number " +:+
  "here. (1) The IMF has had no Article IV consultation with Iran since 2018, " +:+
  "so the Iranian figures in this family stand on staff estimation with no " +:+
  "current mission behind them. (2) The DataMapper API does not expose the WEO " +:+
  "'estimates start after' flag, so the API cannot say which year reported data " +:+
  "ends and staff estimates begin — recent values are estimates and this system " +:+
  "cannot tell you exactly where that starts. Read is_projection=false " +:+
  "accordingly: it means only that the period was already over when the value " +:+
  "was collected, NEVER that the number is a measurement. (3) The series runs " +:+
  "to 2031: any period not yet finished when its value was stored is flagged " +:+
  "is_projection and must never be scored or displayed as an observation. That " +:+
  "flag is frozen with the row — a stored projection stays one until the IMF " +:+
  "actually restates the number, so no figure here turns into an observation " +:+
  "just because a year ended. quality_tier is 'estimate' rather than " +:+
  "'official_mirror' for reasons (1) and (2).".

Definition _worldbank_spec (iso3 name_en name_fa : string) : SeriesSpec :=
  {| code := "WB_CPI_" +:+ iso3;
     name_en := name_en +:+ " consumer price index (World Bank, 2010=100)";
     name_fa := "شاخص قیمت مصرف‌کننده " +:+ name_fa +:+ " (بانک جهانی)";
     domain := "macro";
     provider_code := "worldbank";
     provider_series_id := WORLDBANK_INDICATOR +:+ "/" +:+ iso3;
     country := iso3; indicator := WORLDBANK_INDICATOR;
     frequency := "A"; calendar := "gregorian"; measure := "index";
     seasonal_adjustment := "nsa"; base_period := WORLDBANK_BASE_PERIOD;
     quality_tier := "official_mirror"; quote_currency := "INDEX"; unit_ := "index";
     decimals := 2; revisable := true; splice_policy := "none";
     notes := _WB_NOTE +:+ (if String.eqb iso3 "IRN" then _WB_IRAN_NOTE else EmptyString);
     publication_lag_days := None; enabled := true;
     calendar_class := "none"; kind := "economic_series" |}.

Definition _imf_spec (iso3 name_en name_fa : string) : SeriesSpec :=
  {| code := "IMF_" +:+ IMF_INDICATOR +:+ "_" +:+ iso3;
     name_en := name_en +:+ " annual inflation, average consumer prices (IMF WEO)";
     name_fa := "نرخ تورم سالانه " +:+ name_fa +:+ " (صندوق بین‌المللی پول)";
     domain := "macro";
     provider_code := "imf_weo";
     provider_series_id := IMF_INDICATOR +:+ "/" +:+ iso3;
     country := iso3; indicator := IMF_INDICATOR;
     frequency := "A"; calendar := "gregorian"; measure := "yoy_pct";
     seasonal_adjustment := "nsa"; base_period := EmptyString;
     quality_tier := "estimate"; quote_currency := "PCT"; unit_ := "pct";
     decimals := 1; revisable := true; splice_policy := "none";
     notes := _IMF_NOTE;
     publication_lag_days := None; enabled := true;
     calendar_class := "none"; kind := "economic_series" |}.

Definition SCI_PROVIDER : string := "sci".

Definition SCI_WORKBOOK : string := "ts_urban".

Definition SCI_SHEET : string := "جدول 1".

Definition SCI_BASE_PERIOD : string := "1400=100".

Definition _SCI_NOTE : string :=
  "Statistical Centre of Iran, urban-household CPI, base 1400=100 (verified on " +:+
  "every ingest: the twelve months of 1400 must average exactly 100). Monthly, " +:+
  "on JALALI reference periods — each observation covers one Jalali month, and " +:+
  "ref_period_start/end are that month's Gregorian span. Published around day " +:+
  "10 of the following Jalali month; the publication timestamp is taken from " +:+
  "SCI's own filename, so published_at is a real date here rather than NULL. " +:+
  "NOT seasonally adjusted: SCI publishes no SA variant, and Nowruz and Ramadan " +:+
  "shift against the Gregorian calendar, so standard seasonal factors do not " +:+
  "apply. splice_policy is chain_growth because SCI restated the whole level " +:+
  "history at the 1400 rebase and publishes no concordance — growth rates chain " +:+
  "across a rebase, levels do not.".

Definition _SCI_HOUSING_CAVEAT : string :=
  " IMPORTANT: this is the housing component of a CONSUMPTION price index, and " +:+
  "it is dominated by rent — over the full series it moves almost identically " +:+
  "to the standalone rent index (95.6x vs 94.5x since 1381). It is NOT a house " +:+
  "price index and must never be read as one. No public source publishes a " +:+
  "Tehran or national house price series today: the Central Bank's monthly " +:+
  "Tehran housing report ran Farvardin 1396 to Mordad 1403 and then stopped " +:+
  "when the CBI lost access to the transaction registry.".

Definition _SCI_VEHICLES_CAVEAT : string :=
  " This is the CPI basket for vehicle purchase, which is quality-adjusted by " +:+
  "construction and therefore smooths away exactly the factory-versus-market " +:+
  "divergence an Iranian car buyer cares about. It is the only long-run " +:+
  "official vehicle price index that exists; it is not a market quote. No " +:+
  "source carries more than about five weeks of retrievable Iranian market car " +:+
  "prices.".

Definition _SCI_SERIES : list (string * string * string * string * string * string) :=
  [("SCI_CPI_URBAN", "شاخص كل", "macro", "Iran urban CPI, all items (SCI, 1400=100)", "شاخص قیمت مصرف‌کننده شهری، کل", EmptyString);
  ("SCI_CPI_HOUSING", "مسكن", "housing", "Iran urban CPI, housing (SCI, 1400=100)", "شاخص قیمت مصرف‌کننده شهری، مسکن", _SCI_HOUSING_CAVEAT);
  ("SCI_CPI_RENT", "اجاره", "housing", "Iran urban CPI, rent (SCI, 1400=100)", "شاخص قیمت مصرف‌کننده شهری، اجاره", EmptyString);
  ("SCI_CPI_VEHICLES", "071 - خريد وسايل نقليه", "auto", "Iran urban CPI, vehicle purchase (SCI, 1400=100)", "شاخص قیمت مصرف‌کننده شهری، خرید وسایل نقلیه", _SCI_VEHICLES_CAVEAT)].

Definition _sci_spec (code_ row_label domain_ name_en_ name_fa_ extra : string) : SeriesSpec :=
  {| code := code_;
     name_en := name_en_;
     name_fa := name_fa_;
     domain := domain_;
     provider_code := SCI_PROVIDER;
     provider_series_id := SCI_WORKBOOK +:+ ":" +:+ SCI_SHEET +:+ ":" +:+ row_label;
     country := "IRN"; indicator := row_label;
     frequency := "M"; calendar := "jalali"; measure := "index";
     seasonal_adjustment := "nsa"; base_period := SCI_BASE_PERIOD;
     quality_tier := "official"; quote_currency := "INDEX"; unit_ := "index";
     decimals := 2; revisable := true; splice_policy := "chain_growth";
     notes := _SCI_NOTE +:+ extra;
     publication_lag_days := None; enabled := true;
     calendar_class := "none"; kind := "economic_series" |}.

Definition sci_specs : list SeriesSpec :=
  (λ '(c, row_label, dom, en, fa, extra), _sci_spec c row_label dom en fa extra) <$> _SCI_SERIES.

Definition CBI_PROVIDER : string := "cbi".

Definition CBI_PUBLICATION : string := "sei_monetary".

Definition CBI_UNIT : string := "thousand_billion_rial".

Definition BASE_MONEY_CODE : string := "CBI_BASE_MONEY".

Definition _CBI_NOTE : string :=
  "Central Bank of Iran, Selected Economic Indicators (گزیده آمارهای اقتصادی), " +:+
  "monetary part. An END-OF-MONTH STOCK, not a monthly average: each value is " +:+
  "the balance at the end of the Jalali month in ref_period_label, and " +:+
  "ref_period_start/end are that month's Gregorian span. Stored EXACTLY as " +:+
  "printed, in thousand billion rials (هزار میلیارد ریال = 1e12 rial); divide by " +:+
  "10 for همت (1e12 toman) — the conversion is for display only. Sources: " +:+
  "the monthly Excel editions (Tir 1399 onwards; each prints the same month " +:+
  "last year, last Esfand and the current month, so months from Tir 1398 plus " +:+
  "Esfand 1397 are covered) and, for the quarter-ends no Excel edition carries " +:+
  "(1352 to Khordad 1398, Esfand 1397 excepted), the CBI time-series viewer's " +:+
  "values (four decimals rather than one; published_at NULL, available_at the " +:+
  "day they were ingested). CBI states no publication " +:+
  "date: published_at is the workbook's own last-saved timestamp, a lower " +:+
  "bound. Editions arrive three weeks to five and a half months after the " +:+
  "month ends (21 to 164 days measured), often in batches. A value restated " +:+
  "in a later edition is a new vintage beside the print it revises. NOT " +:+
  "seasonally adjusted.".

Definition _CBI_M2_CAVEAT : string :=
  " CBI states that 2.7 points of 1400's M2 growth come only from Mehr Eqtesad " +:+
  "bank's balance sheet being added to Sepah's (a coverage change with no " +:+
  "monetary effect); the level is continuous as printed and no adjustment is " +:+
  "made here.".

Definition _CBI_BASE_MONEY_CAVEAT : string :=
  " BREAK: CBI redefined base money — its foreign assets revalued in 1402 and " +:+
  "the components reclassified to the IMF's MFSMCG 2016 — for months from " +:+
  "Esfand 1399 / 1400 on, and restated those months in later editions (Esfand " +:+
  "1400: 6,039.7 -> 5,981.1; Esfand 1401: 8,599.9 -> 8,548.0). Every row " +:+
  "carries method 'old' or 'revised' and growth is never computed across the " +:+
  "two; levels on different methods are not comparable, hence chain_growth. " +:+
  "Read as the SOURCES side (پایه پولی از سمت منابع), checked against the uses " +:+
  "side on every ingest. The newest editions label it «کاملا مقدماتی» (fully " +:+
  "preliminary).".

Definition _CBI_SERIES : list (string * string * string * string * string * string) :=
  [("CBI_LIQUIDITY", "نقدينگي برحسب عوامل موثر بر عرضه", "Liquidity (M2)", "نقدینگی", "none", _CBI_M2_CAVEAT);
  (BASE_MONEY_CODE, "پايه پولي از سمت منابع", "Base money", "پایه پولی", "chain_growth", _CBI_BASE_MONEY_CAVEAT);
  ("CBI_MONEY_M1", "پول", "Money (M1)", "پول", "none", " M1 = currency with the public + demand deposits.");
  ("CBI_QUASI_MONEY", "شبه پول", "Quasi-money", "شبه پول", "none", " Quasi-money = M2 - M1: savings, term and other non-demand deposits.")].

Definition _cbi_spec (code_ row_label name_en_ name_fa_ splice extra : string) : SeriesSpec :=
  {| code := code_;
     name_en := name_en_;
     name_fa := name_fa_;
     domain := "macro";
     provider_code := CBI_PROVIDER;
     provider_series_id := CBI_PUBLICATION +:+ ":" +:+ row_label;
     country := "IRN"; indicator := row_label;
     frequency := "M"; calendar := "jalali"; measure := "level";
     seasonal_adjustment := "nsa"; base_period := EmptyString;
     quality_tier := "official"; quote_currency := "IRR"; unit_ := CBI_UNIT;
     decimals := 1; revisable := true; splice_policy := splice;
     notes := _CBI_NOTE +:+ extra;
     publication_lag_days := None; enabled := true;
     calendar_class := "none"; kind := "economic_series" |}.

Definition cbi_specs : list SeriesSpec :=
  (λ '(c, row_label, en, fa, splice, extra), _cbi_spec c row_label en fa splice extra)
    <$> _CBI_SERIES.

Definition DOCUMENT_INGEST_ROUTES : list (string * string) :=
  [(SCI_PROVIDER,
   "POST /internal/economic/sci-cpi with a workbook fetched by " +:+
   "scripts/sci_fetch.py");
  (CBI_PROVIDER,
   "POST /internal/economic/cbi-monetary (the Go job cbi-monetary, " +:+
   "SCHEDULE_CBI_MONETARY_CRON) for the monthly workbooks, and " +:+
   "POST /internal/economic/cbi-history fed by scripts/cbi_history_fetch.py " +:+
   "for the quarterly history")].

Definition DOCUMENT_INGEST_PROVIDERS : list string := DOCUMENT_INGEST_ROUTES.*1.

Definition CATALOG : list SeriesSpec :=
  ((λ '(iso3, en, fa), _worldbank_spec iso3 en fa) <$> _COUNTRIES) ++
  ((λ '(iso3, en, fa), _imf_spec iso3 en fa) <$> _COUNTRIES) ++
  sci_specs ++ cbi_specs.

(** [_BY_CODE]: the dict is built from the whole catalog, last entry winning. *)
Definition _BY_CODE : list (string * SeriesSpec) := (λ s, (code s, s)) <$> rev CATALOG.

(** [_BY_CODE[code]]: KeyError for an unknown code. *)
Definition spec_for_code (c : string) : result pyerr SeriesSpec :=
  match assoc c _BY_CODE with Some s => Ok s | None => Err KeyError end.

(** "This series is not in the economic catalog: " and the sorted codes, or the
    KeyError of an unguarded lookup. *)
Inductive catalog_error : Set :=
| NotInCatalog (codes : list string)
| CatalogError (e : pyerr).

Definition known_code (c : string) : bool :=
  match assoc c _BY_CODE with Some _ => true | None => false end.

(** The [seen] loop of [enabled_specs]: [_BY_CODE[code]] at the first occurrence
    of each code. *)
Fixpoint pick_specs (seen : list string) (codes : list string)
    : result catalog_error (list SeriesSpec) :=
  match codes with
  | [] => Ok []
  | c :: codes =>
      if existsb (String.eqb c) seen then pick_specs seen codes
      else match spec_for_code c with
           | Err e => Err (CatalogError e)
           | Ok s => out ← pick_specs (c :: seen) codes; Ok (s :: out)
           end
  end.

(** [enabled_specs(codes)]; [None] and the empty sequence are [[]]. *)
Definition enabled_specs (codes : list string) : result catalog_error (list SeriesSpec) :=
  match codes with
  | [] => Ok (List.filter enabled CATALOG)
  | _ =>
      match List.filter (λ c, negb (known_code c)) codes with
      | [] => pick_specs [] codes
      | unknown => Err (NotInCatalog (py_sorted String.ltb unknown))
      end
  end.

Definition codes_for_provider (p : string) (specs : option (list SeriesSpec)) : list string :=
  code <$> List.filter (λ s, String.eqb (provider_code s) p) (default CATALOG specs).

(** ** Lookup by code *)
Lemma catalog_codes_distinct : NoDup (code <$> CATALOG).
Proof. by_decide. Qed.

Lemma spec_for_code_sound c s : spec_for_code c = Ok s → s ∈ CATALOG ∧ code s = c.
Proof.
  unfold spec_for_code. destruct (assoc c _BY_CODE) as [s'|] eqn:H; [|done].
  intros [= ->]. apply assoc_elem in H. unfold _BY_CODE in H.
  apply list_elem_of_fmap in H as (s'&[= -> ->]&Hs). rewrite list_elem_of_In, <- in_rev, <- list_elem_of_In in Hs. done.
Qed.

Lemma spec_for_code_complete s : s ∈ CATALOG → spec_for_code (code s) = Ok s.
Proof.
  intros Hs. unfold spec_for_code.
  assert (known_code (code s) = true) as Hk.
  { assert (Forall (λ s, known_code (code s) = true) CATALOG) as Hall by by_decide.
    rewrite Forall_forall in Hall. by apply Hall. }
  unfold known_code in Hk. destruct (assoc (code s) _BY_CODE) as [s'|] eqn:H; [|done].
  destruct (spec_for_code_sound (code s) s') as [Hs' Hc]; [unfold spec_for_code; by rewrite H|].
  f_equal. by apply (NoDup_key_inj code CATALOG); [apply catalog_codes_distinct| | |].
Qed.

Lemma known_code_iff c : known_code c = true ↔ ∃ s, spec_for_code c = Ok s.
Proof. unfold known_code, spec_for_code. destruct (assoc c _BY_CODE); naive_solver. Qed.

(** ** The selection *)
Lemma existsb_mem c l : existsb (String.eqb c) l = true ↔ c ∈ l.
Proof.
  rewrite existsb_exists. setoid_rewrite String.eqb_eq. setoid_rewrite <- list_elem_of_In.
  naive_solver.
Qed.

Lemma pick_specs_total seen codes :
  (∀ c, c ∈ codes → known_code c = true) →
  ∃ specs, pick_specs seen codes = Ok specs ∧
    NoDup (code <$> specs) ∧
    (∀ c, c ∈ code <$> specs ↔ c ∈ codes ∧ c ∉ seen) ∧
    Forall (λ s, s ∈ CATALOG) specs ∧
    (code <$> specs) `sublist_of` codes.
Proof.
  revert seen. induction codes as [|c codes IH]; intros seen Hk; simpl.
  { exists []. split_and!; [done|constructor| |constructor|constructor]. set_solver. }
  destruct (existsb (String.eqb c) seen) eqn:Hseen.
  - apply existsb_mem in Hseen. destruct (IH seen) as (specs&Hp&Hnd&Hin&Hcat&Hsub); [set_solver|].
    exists specs. split_and!; [done|done| |done|by constructor]. intros c'. rewrite Hin. set_solver.
  - assert (c ∉ seen) as Hns by (rewrite <- existsb_mem, Hseen; done).
    destruct (proj1 (known_code_iff c) (Hk c ltac:(left))) as (s&Hs). rewrite Hs.
    destruct (spec_for_code_sound c s Hs) as [Hin_cat Hcs].
    destruct (IH (c :: seen)) as (specs&Hp&Hnd&Hin&Hcat&Hsub).
    { intros c' Hc'. apply Hk. by right. }
    rewrite Hp.
    exists (s :: specs). rewrite fmap_cons, Hcs. split_and!; [done| | |by constructor|by constructor].
    + constructor; [|done]. rewrite Hin. intros [_ Hn]. apply Hn. left.
    + intros c'. rewrite !elem_of_cons, Hin, elem_of_cons. clear -Hns.
      destruct (decide (c' = c)); naive_solver.
Qed.

(** [enabled_specs] of a non-empty request either returns exactly the entries
    asked for, one per distinct code and in the order of first mention, or refuses
    with the sorted unknown codes; it never stops at a missing key. *)
Theorem enabled_specs_spec (codes : list string) :
  codes ≠ [] →
  match enabled_specs codes with
  | Ok specs =>
      NoDup (code <$> specs) ∧ (∀ c, c ∈ code <$> specs ↔ c ∈ codes) ∧
      Forall (λ s, spec_for_code (code s) = Ok s) specs ∧ (code <$> specs) `sublist_of` codes
  | Err (NotInCatalog unknown) =>
      unknown ≠ [] ∧ ∀ c, c ∈ unknown ↔ c ∈ codes ∧ known_code c = false
  | Err (CatalogError _) => False
  end.
Proof.
  intros Hne. unfold enabled_specs. destruct codes as [|c0 codes0]; [done|].
  set (codes := c0 :: codes0). clearbody codes.
  destruct (List.filter (λ c, negb (known_code c)) codes) as [|u us] eqn:Hu.
  - apply filter_nil_iff in Hu. rewrite Forall_forall in Hu.
    destruct (pick_specs_total [] codes) as (specs&->&Hnd&Hin&Hcat&Hsub).
    { intros c Hc. by apply negb_false_iff, Hu. }
    split_and!; [done|intros c; rewrite Hin; set_solver| |done].
    eapply Forall_impl; [exact Hcat|]. intros s Hs. by apply spec_for_code_complete.
  - split.
    + intros H. pose proof (py_sorted_length String.ltb (u :: us)) as Hl. by rewrite H in Hl.
    + intros c. rewrite py_sorted_perm, <- Hu, elem_of_bool_filter, negb_true_iff. done.
Qed.

Lemma enabled_specs_spec_witness :
  ["WB_CPI_IRN"] ≠ [] ∧ ∃ specs, enabled_specs ["WB_CPI_IRN"] = Ok specs ∧ NoDup (code <$> specs).
Proof.
  split; [done|]. pose proof (enabled_specs_spec ["WB_CPI_IRN"] ltac:(done)) as H.
  destruct (enabled_specs ["WB_CPI_IRN"]) as [specs|e] eqn:He; [|by vm_compute in He].
  exists specs. split; [done|apply H].
Defined.

Example enabled_repeats :
  match enabled_specs ["CBI_LIQUIDITY"; "SCI_CPI_RENT"; "CBI_LIQUIDITY"] with
  | Ok specs => code <$> specs
  | Err _ => []
  end = ["CBI_LIQUIDITY"; "SCI_CPI_RENT"].
Proof. reflexivity. Qed.

Example enabled_unknown : enabled_specs ["ZZ"; "CBI_LIQUIDITY"; "AA"] = Err (NotInCatalog ["AA"; "ZZ"]).
Proof. reflexivity. Qed.
