(* ===== verification/EconomicStore.v ===== *)
(** * The bitemporal store of economic observations

    [app/economic/store.py] over the tables of [app/db.py].  A table is the list
    of its rows in storage order; the constraints the tables declare are part of
    the insert.  [NUMERIC] and the driver are outside the repository:
    [NumericColumn] is what a value becomes in the column and how it reads back,
    and [conflict_rowcount] is what the driver reports for an insert that
    ON CONFLICT DO NOTHING skipped.

    The sequential [record_observation] runs on one snapshot; [wstep] interleaves
    any number of writers, each of whose three statements sees the table of its
    own moment (READ COMMITTED, the default of the engine).

    [spec_record] and [spec_known] are the abstract contract: the history of one
    period is the list of its prints, appended to and read as of an instant. *)
From S2P Require Import Prelude PyFloat PyTime PyText EconCatalog.
Local Open Scope string_scope.
Local Open Scope list_scope.
Local Open Scope Z_scope.

Definition KIND_ECONOMIC_SERIES : string := "economic_series".

Inductive status : Set := STATUS_INSERTED | STATUS_UNCHANGED | STATUS_REVISED | STATUS_RACED.

(** ** Values *)
Definition VALUE_REL_TOLERANCE : float := flit 1 15.
Definition VALUE_ABS_TOLERANCE : float := flit 1 15.

(** [math.isclose] *)
Definition isclose (a b rel_tol abs_tol : float) : bool :=
  if feq a b then true
  else if is_inf a || is_inf b then false
  else
    let diff := fabs (fsub b a) in
    fle diff (fabs (fmul rel_tol b)) || fle diff (fabs (fmul rel_tol a)) || fle diff abs_tol.

Definition values_equal (left_ right_ : float) : bool :=
  isclose left_ right_ VALUE_REL_TOLERANCE VALUE_ABS_TOLERANCE.

(** [Decimal]: a coefficient and a power of ten, or NaN or an infinity. *)
Inductive decimal : Set :=
| DFinite (coeff exp : Z)
| DNonFinite.

(** [Number = Union[float, int, Decimal]] *)
Inductive Number : Set :=
| NFloat (x : float)
| NInt (n : Z)
| NDecimal (d : decimal).

(** [Union[float, Decimal]]: what is handed to the driver. *)
Inductive exact : Set :=
| EFloat (x : float)
| EDecimal (coeff exp : Z).

Inductive store_error : Set :=
| ValueIsNone
| PeriodReversed (start end_ : date)
| AvailableRequired
| NonFinite
| Python (e : pyerr)
| EarlierThanNewest (series_id : Z) (start : date) (stamped newest : instant)
| Integrity
| NotRegistered (code : string)
| EmptyRange (start end_ : date)
| KindClash (code kind : string).

(** [float(value)]: nearest float; a finite Decimal beyond the range is infinite. *)
Definition float_of_decimal (c e : Z) : float :=
  if 0 <=? e then float_of_Z (c * 10 ^ e) else int_true_div c (10 ^ (- e)).

Definition lift_py {A} (m : result pyerr A) : result store_error A :=
  match m with Ok a => Ok a | Err e => Err (Python e) end.

Definition stored_value (value : Number) : result store_error exact :=
  match value with
  | NDecimal (DFinite c e) => Ok (EDecimal c e)
  | NDecimal DNonFinite => Err NonFinite
  | NInt n => x ← lift_py (py_float_of_int n); Ok (EFloat x)
  | NFloat x => Ok (EFloat x)
  end.

Definition float_of_exact (v : exact) : float :=
  match v with EFloat x => x | EDecimal c e => float_of_decimal c e end.

(** The value column: what the database holds and what a read returns. *)
Class NumericColumn : Type := {
  numeric : Type;
  to_numeric : exact → numeric;
  numeric_float : numeric → float;
}.

(** The round trip may drift, by less than the tolerance. *)
Class NumericLaws `{!NumericColumn} : Prop := {
  numeric_roundtrip v :
    is_finite (float_of_exact v) = true →
    values_equal (numeric_float (to_numeric v)) (float_of_exact v) = true;
}.

(** SQLite: a float column. *)
#[export] Instance float_column : NumericColumn :=
  {| numeric := float; to_numeric := float_of_exact; numeric_float := λ x, x |}.

(** ** The tables *)
Record InstManaged : Set := {
  im_kind : string; im_name_en : string; im_name_fa : string; im_domain : string;
  im_quote_currency : string; im_unit : string; im_decimals : Z;
  im_calendar_class : string; im_quality_tier : string; im_notes : string;
}.

Record Instrument : Set := {
  in_code : string;
  in_managed : InstManaged;
  in_is_proxy : bool;
  in_is_derived : bool;
  in_enabled : bool;
  in_created_at : instant;
  in_updated_at : instant;
}.

Record SeriesManaged : Set := {
  sm_frequency : string; sm_calendar : string; sm_measure : string;
  sm_seasonal_adjustment : string; sm_base_period : string; sm_provider_code : string;
  sm_provider_series_id : string; sm_publication_lag_days : option Z; sm_revisable : bool;
  sm_splice_policy : string;
}.

Record SeriesRow : Set := {
  sr_id : Z;
  sr_code : string;
  sr_managed : SeriesManaged;
  sr_enabled : bool;
  sr_created_at : instant;
  sr_updated_at : instant;
}.

Record Document : Set := {
  dc_id : Z;
  dc_provider_code : string;
  dc_url : string;
  dc_title : string;
  dc_media_type : string;
  dc_byte_size : Z;
  dc_content_sha256 : string;
  dc_storage_path : string;
  dc_fetched_at : instant;
  dc_edition_label : string;
  dc_document_saved_at : option instant;
}.

#[export] Instance InstManaged_eq_dec : EqDecision InstManaged.
Proof. solve_decision. Defined.
#[export] Instance SeriesManaged_eq_dec : EqDecision SeriesManaged.
Proof. solve_decision. Defined.

Section Store.
Context `{NC : !NumericColumn}.

Record Obs : Type := {
  ob_series_id : Z;
  ob_start : date;
  ob_end : date;
  ob_label : string;
  ob_value : numeric;
  ob_published_at : option instant;
  ob_available_at : instant;
  ob_vintage : Z;
  ob_is_nowcast : bool;
  ob_is_projection : bool;
  ob_source_document_id : option Z;
  ob_collected_at : instant;
  ob_method : option string;
  ob_available_at_approx : bool;
}.

(** [ObservationWrite] *)
Record ObservationWrite : Type := {
  ow_status : status;
  ow_vintage : Z;
  previous_value : option float;
  previous_vintage : option Z;
  previous_method : option string;
}.

(** The keyword arguments of [record_observation]. *)
Record Request : Set := {
  rq_series_id : Z;
  rq_start : date;
  rq_end : date;
  rq_value : option Number;
  rq_available_at : option datetime;
  rq_label : string;
  rq_published_at : option datetime;
  rq_is_nowcast : bool;
  rq_is_projection : bool;
  rq_source_document_id : option Z;
  rq_collected_at : option datetime;
  rq_method : option string;
  rq_available_at_approx : bool;
}.

(** What the checks before the first statement compute. *)
Record Prepared : Set := {
  pr_request : Request;
  pr_exact : exact;
  pr_stamped : instant;
}.

Definition prepare (rq : Request) : result store_error Prepared :=
  match rq_value rq with
  | None => Err ValueIsNone
  | Some value =>
      _ ← raise_if (rq_end rq <? rq_start rq) (PeriodReversed (rq_start rq) (rq_end rq));
      match rq_available_at rq with
      | None => Err AvailableRequired
      | Some available_at =>
          exact_value ← stored_value value;
          Ok {| pr_request := rq; pr_exact := exact_value; pr_stamped := to_utc available_at |}
      end
  end.

(** [period_rows] *)
Definition in_period (series_id : Z) (start : date) (r : Obs) : bool :=
  (ob_series_id r =? series_id) && (ob_start r =? start).

Definition period_rows (tbl : list Obs) (series_id : Z) (start : date) : list Obs :=
  List.filter (in_period series_id start) tbl.

(** [ORDER BY available_at DESC, vintage DESC]: [a] comes before [b]. *)
Definition newer (a b : Obs) : bool :=
  if ob_available_at a =? ob_available_at b then ob_vintage b <? ob_vintage a
  else ob_available_at b <? ob_available_at a.

(** The first SELECT: the current row of the period. *)
Definition read_current (tbl : list Obs) (series_id : Z) (start : date) : option Obs :=
  head (py_sorted newer (period_rows tbl series_id start)).

Definition opt_max (l : list Z) : option Z :=
  match l with [] => None | x :: l => Some (fold_left Z.max l x) end.

(** The second SELECT: [max(vintage)], [max(available_at)]. *)
Definition read_bounds (tbl : list Obs) (series_id : Z) (start : date) : option Z * option instant :=
  let rows := period_rows tbl series_id start in
  (opt_max (ob_vintage <$> rows), opt_max (ob_available_at <$> rows)).

(** Between the second SELECT and the insert: an answer without a write, or the
    row to insert and the answer to give if it lands. *)
Inductive decision : Type :=
| Answer (w : ObservationWrite)
| Insert (row : Obs) (w : ObservationWrite).

Definition new_row (now : instant) (p : Prepared) (vintage : Z) : Obs :=
  let rq := pr_request p in
  {| ob_series_id := rq_series_id rq; ob_start := rq_start rq; ob_end := rq_end rq;
     ob_label := rq_label rq; ob_value := to_numeric (pr_exact p);
     ob_published_at := to_utc <$> rq_published_at rq; ob_available_at := pr_stamped p;
     ob_vintage := vintage; ob_is_nowcast := rq_is_nowcast rq;
     ob_is_projection := rq_is_projection rq;
     ob_source_document_id := rq_source_document_id rq;
     ob_collected_at := default now (to_utc <$> rq_collected_at rq);
     ob_method := rq_method rq; ob_available_at_approx := rq_available_at_approx rq |}.

Definition decide_write (now : instant) (p : Prepared) (current : option Obs)
    (bounds : option Z * option instant) : result store_error decision :=
  let rq := pr_request p in
  let numeric_value := float_of_exact (pr_exact p) in
  let max_vintage := default 0 (fst bounds) in
  let insert st vintage previous :=
    _ ← match snd bounds with
        | Some newest =>
            raise_if (pr_stamped p <? newest)
              (EarlierThanNewest (rq_series_id rq) (rq_start rq) (pr_stamped p) newest)
        | None => Ok ()
        end;
    Ok (Insert (new_row now p vintage)
          {| ow_status := st; ow_vintage := vintage;
             previous_value := (λ r, numeric_float (ob_value r)) <$> previous;
             previous_vintage := ob_vintage <$> previous;
             previous_method := previous ≫= ob_method |}) in
  match current with
  | None => insert STATUS_INSERTED 1 None
  | Some r =>
      if values_equal (numeric_float (ob_value r)) numeric_value
         && bool_decide (ob_method r = rq_method rq)
      then
        Ok (Answer {| ow_status := STATUS_UNCHANGED; ow_vintage := ob_vintage r;
                      previous_value := Some (numeric_float (ob_value r));
                      previous_vintage := Some (ob_vintage r); previous_method := ob_method r |})
      else insert STATUS_REVISED (max_vintage + 1) (Some r)
  end.

(** The database: the rows in storage order, and the ids a sequence hands out. *)
Record DB : Type := {
  instruments : list Instrument;
  economic_series : list SeriesRow;
  source_documents : list Document;
  observations : list Obs;
}.

Definition with_observations (db : DB) (tbl : list Obs) : DB :=
  {| instruments := instruments db; economic_series := economic_series db;
     source_documents := source_documents db; observations := tbl |}.

(** [economic_obs_method], [economic_obs_period] and the two foreign keys. *)
Definition obs_checks (r : Obs) : bool :=
  match ob_method r with
  | None => true
  | Some m => existsb (String.eqb m) ["old"; "revised"]
  end && (ob_start r <=? ob_end r).

Definition obs_foreign_keys (db : DB) (r : Obs) : bool :=
  existsb (λ s, sr_id s =? ob_series_id r) (economic_series db) &&
  match ob_source_document_id r with
  | None => true
  | Some d => existsb (λ x, dc_id x =? d) (source_documents db)
  end.

(** [economic_obs_unique] *)
Definition same_key (a b : Obs) : bool :=
  (ob_series_id a =? ob_series_id b) && (ob_start a =? ob_start b) &&
  (ob_vintage a =? ob_vintage b).

(** INSERT ... ON CONFLICT DO NOTHING: the table and the reported [rowcount]. *)
Definition insert_observation (conflict_rowcount : Z) (db : DB) (r : Obs)
    : result store_error (DB * Z) :=
  _ ← raise_if (negb (obs_checks r)) Integrity;
  if existsb (same_key r) (observations db) then Ok (db, conflict_rowcount)
  else
    _ ← raise_if (negb (obs_foreign_keys db r)) Integrity;
    Ok (with_observations db (observations db ++ [r]), 1).

Definition raced (w : ObservationWrite) : ObservationWrite :=
  {| ow_status := STATUS_RACED; ow_vintage := ow_vintage w;
     previous_value := previous_value w; previous_vintage := previous_vintage w;
     previous_method := previous_method w |}.

(** The insert and the reading of its [rowcount]. *)
Definition finish (conflict_rowcount : Z) (db : DB) (d : decision)
    : result store_error (DB * ObservationWrite) :=
  match d with
  | Answer w => Ok (db, w)
  | Insert row w =>
      res ← insert_observation conflict_rowcount db row;
      let '(db, rowcount) := res in
      Ok (db, if rowcount =? 0 then raced w else w)
  end.

Definition record_observation (conflict_rowcount : Z) (now : instant) (db : DB) (rq : Request)
    : result store_error (DB * ObservationWrite) :=
  p ← prepare rq;
  let tbl := observations db in
  d ← decide_write now p (read_current tbl (rq_series_id rq) (rq_start rq))
        (read_bounds tbl (rq_series_id rq) (rq_start rq));
  finish conflict_rowcount db d.

(** ** Interleaved writers

    A writer is between two of its statements; [wstep] runs the next statement of
    one of them.  The insert meets the table as it is; a SELECT sees the first
    [visible] rows of it, whatever that number is: rows not yet committed, or
    committed after the snapshot was taken, are missing from the end. *)
Inductive phase : Type :=
| Begun (p : Prepared)
| SawCurrent (p : Prepared) (current : option Obs)
| Deciding (d : decision)
| Done (w : result store_error ObservationWrite).

Definition wstate : Type := DB * list phase.

(** The next statement of one writer. *)
Definition advance (conflict_rowcount : Z) (now : instant) (visible : nat) (db : DB)
    (ph : phase) : DB * phase :=
  let seen := take visible (observations db) in
  match ph with
  | Begun p =>
      let rq := pr_request p in
      (db, SawCurrent p (read_current seen (rq_series_id rq) (rq_start rq)))
  | SawCurrent p current =>
      let rq := pr_request p in
      (db, match decide_write now p current
                   (read_bounds seen (rq_series_id rq) (rq_start rq)) with
           | Ok d => Deciding d
           | Err e => Done (Err e)
           end)
  | Deciding d =>
      match finish conflict_rowcount db d with
      | Ok (db, w) => (db, Done (Ok w))
      | Err e => (db, Done (Err e))
      end
  | Done w => (db, Done w)
  end.

(** [arrives] is what the writers of the run are known to satisfy. *)
Inductive wstep (conflict_rowcount : Z) (arrives : Prepared → Prop) : wstate → wstate → Prop :=
| writer_starts db phs rq p :
    prepare rq = Ok p → arrives p →
    wstep conflict_rowcount arrives (db, phs) (db, phs ++ [Begun p])
| writer_runs db phs i ph now visible :
    phs !! i = Some ph →
    wstep conflict_rowcount arrives (db, phs)
      (fst (advance conflict_rowcount now visible db ph),
       <[i := snd (advance conflict_rowcount now visible db ph)]> phs).

(** ** Reads *)

(** [EconomicObservation] *)
Record EconomicObservation : Set := {
  eo_start : date;
  eo_end : date;
  eo_label : string;
  eo_value : float;
  eo_vintage : Z;
  eo_available_at : instant;
  eo_published_at : option instant;
  eo_is_projection : bool;
  eo_is_nowcast : bool;
  eo_source_document_id : option Z;
  eo_collected_at : instant;
  eo_method : option string;
  eo_available_at_approx : bool;
}.

Definition _to_observation (r : Obs) : EconomicObservation :=
  {| eo_start := ob_start r; eo_end := ob_end r; eo_label := ob_label r;
     eo_value := numeric_float (ob_value r); eo_vintage := ob_vintage r;
     eo_available_at := ob_available_at r; eo_published_at := ob_published_at r;
     eo_is_projection := ob_is_projection r; eo_is_nowcast := ob_is_nowcast r;
     eo_source_document_id := ob_source_document_id r; eo_collected_at := ob_collected_at r;
     eo_method := ob_method r; eo_available_at_approx := ob_available_at_approx r |}.

Definition series_id_for_code (db : DB) (code : string) : result store_error Z :=
  match List.find (λ s, String.eqb (sr_code s) code) (economic_series db) with
  | Some s => Ok (sr_id s)
  | None => Err (NotRegistered code)
  end.

(** The arguments of a point-in-time read, with [as_of] resolved to an instant. *)
Record Cutoff : Set := {
  as_of : instant;
  from_start : option date;
  to_end : option date;
  include_projections : bool;
}.

(** [obs.available_at <= cutoff] and the projection filter: what may answer. *)
Definition visible_at (c : Cutoff) (r : Obs) : bool :=
  (ob_available_at r <=? as_of c) && (include_projections c || negb (ob_is_projection r)).

Definition in_range (c : Cutoff) (start : date) : bool :=
  match from_start c with None => true | Some a => a <=? start end &&
  match to_end c with None => true | Some b => start <=? b end.

Definition conditions (series_id : Z) (c : Cutoff) (r : Obs) : bool :=
  (ob_series_id r =? series_id) && visible_at c r && in_range c (ob_start r).

Inductive dialect : Set := Postgresql | Sqlite.

(** [DISTINCT ON (ref_period_start)]: the first row of each run. *)
Fixpoint distinct_on (previous : option date) (rows : list Obs) : list Obs :=
  match rows with
  | [] => []
  | r :: rows =>
      if bool_decide (previous = Some (ob_start r)) then distinct_on previous rows
      else r :: distinct_on (Some (ob_start r)) rows
  end.

(** [ORDER BY ref_period_start DESC, available_at DESC, vintage DESC] *)
Definition pg_order (a b : Obs) : bool :=
  if ob_start a =? ob_start b then newer a b else ob_start b <? ob_start a.

(** [ROW_NUMBER() OVER (PARTITION BY ref_period_start ORDER BY ...)]; rows that
    tie on both columns cannot share a period under [economic_obs_unique]. *)
Definition row_number (rows : list Obs) (r : Obs) : Z :=
  1 + Z.of_nat (length (List.filter (λ q, (ob_start q =? ob_start r) && newer q r) rows)).

Definition point_in_time_statement (d : dialect) (series_id : Z) (c : Cutoff) (tbl : list Obs)
    : list Obs :=
  let rows := List.filter (conditions series_id c) tbl in
  let newest :=
    match d with
    | Postgresql => distinct_on None (py_sorted pg_order rows)
    | Sqlite => List.filter (λ r, row_number rows r =? 1) rows
    end in
  sort_by ob_start newest.

Record PointInTimeSeries : Set := {
  pt_code : string;
  pt_series_id : Z;
  pt_as_of : instant;
  pt_observations : list EconomicObservation;
  pt_vintages : gset Z;
  pt_include_projections : bool;
}.

Definition is_revised (s : PointInTimeSeries) : bool :=
  existsb (λ v, 1 <? v) (elements (pt_vintages s)).

(** [as_of=None] is the clock. *)
Definition point_in_time (d : dialect) (now : instant) (db : DB) (code : string)
    (as_of_ : option datetime) (start end_ : option date) (projections : bool)
    : result store_error PointInTimeSeries :=
  _ ← match start, end_ with
      | Some a, Some b => raise_if (b <? a) (EmptyRange a b)
      | _, _ => Ok ()
      end;
  let cutoff := default now (to_utc <$> as_of_) in
  series_id ← series_id_for_code db code;
  let rows := point_in_time_statement d series_id
                {| as_of := cutoff; from_start := start; to_end := end_;
                   include_projections := projections |} (observations db) in
  let observations := _to_observation <$> rows in
  Ok {| pt_code := code; pt_series_id := series_id; pt_as_of := cutoff;
        pt_observations := observations;
        pt_vintages := list_to_set (eo_vintage <$> observations);
        pt_include_projections := projections |}.

(** The dict of one row of [vintages_for_period]. *)
Record VintageDict : Set := {
  vd_vintage : Z;
  vd_value : float;
  vd_available_at : instant;
  vd_is_projection : bool;
  vd_is_nowcast : bool;
  vd_method : option string;
  vd_available_at_approx : bool;
  vd_source_document_id : option Z;
}.

Definition vintage_dict (r : Obs) : VintageDict :=
  {| vd_vintage := ob_vintage r; vd_value := numeric_float (ob_value r);
     vd_available_at := ob_available_at r; vd_is_projection := ob_is_projection r;
     vd_is_nowcast := ob_is_nowcast r; vd_method := ob_method r;
     vd_available_at_approx := ob_available_at_approx r;
     vd_source_document_id := ob_source_document_id r |}.

Definition vintages_for_period (db : DB) (code : string) (start : date)
    : result store_error (list VintageDict) :=
  series_id ← series_id_for_code db code;
  Ok (vintage_dict <$> sort_by ob_vintage (period_rows (observations db) series_id start)).

(** ** The catalog's rows and the document archive *)
Definition instrument_managed (e : SeriesSpec) : InstManaged :=
  {| im_kind := kind e; im_name_en := name_en e; im_name_fa := name_fa e; im_domain := domain e;
     im_quote_currency := quote_currency e; im_unit := unit_ e; im_decimals := decimals e;
     im_calendar_class := calendar_class e; im_quality_tier := quality_tier e;
     im_notes := notes e |}.

Definition series_managed (e : SeriesSpec) : SeriesManaged :=
  {| sm_frequency := frequency e; sm_calendar := calendar e; sm_measure := measure e;
     sm_seasonal_adjustment := seasonal_adjustment e; sm_base_period := base_period e;
     sm_provider_code := provider_code e; sm_provider_series_id := provider_series_id e;
     sm_publication_lag_days := publication_lag_days e; sm_revisable := revisable e;
     sm_splice_policy := splice_policy e |}.

Definition one_of (s : string) (l : list string) : bool := existsb (String.eqb s) l.

(** The CHECK constraints of the two tables. *)
Definition instrument_checks (m : InstManaged) : bool :=
  one_of (im_kind m) ["market_price"; "economic_series"; "equity"; "index"; "basket"; "fx"] &&
  one_of (im_calendar_class m) ["always_open"; "tehran_bazaar"; "tse_session"; "global"; "none"] &&
  one_of (im_quality_tier m)
    ["official"; "official_mirror"; "commercial"; "proxy"; "estimate"; "experimental"].

Definition series_checks (m : SeriesManaged) : bool :=
  one_of (sm_frequency m) ["D"; "W"; "M"; "Q"; "A"] &&
  one_of (sm_calendar m) ["gregorian"; "jalali"] &&
  one_of (sm_measure m) ["index"; "level"; "yoy_pct"; "mom_pct"; "ratio"; "rate"] &&
  one_of (sm_seasonal_adjustment m) ["nsa"; "sa"; "unknown"] &&
  one_of (sm_splice_policy m) ["none"; "chain_growth"].

(** ON CONFLICT DO UPDATE ... WHERE [_differs]: one row. *)
Definition update_instrument (now : instant) (e : SeriesSpec) (r : Instrument) : Instrument :=
  if String.eqb (in_code r) (code e) && negb (bool_decide (in_managed r = instrument_managed e))
  then {| in_code := in_code r; in_managed := instrument_managed e; in_is_proxy := in_is_proxy r;
          in_is_derived := in_is_derived r; in_enabled := in_enabled r;
          in_created_at := in_created_at r; in_updated_at := now |}
  else r.

Definition update_series (now : instant) (e : SeriesSpec) (r : SeriesRow) : SeriesRow :=
  if String.eqb (sr_code r) (code e) && negb (bool_decide (sr_managed r = series_managed e))
  then {| sr_id := sr_id r; sr_code := sr_code r; sr_managed := series_managed e;
          sr_enabled := sr_enabled r; sr_created_at := sr_created_at r; sr_updated_at := now |}
  else r.

Definition upsert_instrument (now : instant) (e : SeriesSpec) (rows : list Instrument)
    : list Instrument :=
  if existsb (λ r, String.eqb (in_code r) (code e)) rows then update_instrument now e <$> rows
  else rows ++ [{| in_code := code e; in_managed := instrument_managed e; in_is_proxy := false;
                   in_is_derived := false; in_enabled := enabled e; in_created_at := now;
                   in_updated_at := now |}].

Definition upsert_series (new_id now : Z) (e : SeriesSpec) (rows : list SeriesRow)
    : list SeriesRow :=
  if existsb (λ r, String.eqb (sr_code r) (code e)) rows then update_series now e <$> rows
  else rows ++ [{| sr_id := new_id; sr_code := code e; sr_managed := series_managed e;
                   sr_enabled := enabled e; sr_created_at := now; sr_updated_at := now |}].

(** [new_id] is what the sequence of the table would hand out. *)
Definition ensure_series (new_id now : Z) (db : DB) (e : SeriesSpec)
    : result store_error (DB * Z) :=
  _ ← match List.find (λ r, String.eqb (in_code r) (code e)) (instruments db) with
      | Some r => raise_if (negb (String.eqb (im_kind (in_managed r)) KIND_ECONOMIC_SERIES))
                    (KindClash (code e) (im_kind (in_managed r)))
      | None => Ok ()
      end;
  _ ← raise_if (negb (instrument_checks (instrument_managed e) && series_checks (series_managed e)))
        Integrity;
  let db := {| instruments := upsert_instrument now e (instruments db);
               economic_series := upsert_series new_id now e (economic_series db);
               source_documents := source_documents db; observations := observations db |} in
  series_id ← series_id_for_code db (code e);
  Ok (db, series_id).

Definition same_document (provider sha : string) (x : Document) : bool :=
  String.eqb (dc_provider_code x) provider && String.eqb (dc_content_sha256 x) sha.

(** [insert_ignore] and the [scalar_one()] that reads the id back; the arguments
    are the columns of [x], whose id is what the sequence would hand out and whose
    [storage_path] the function leaves empty. *)
Definition record_source_document (x : Document) (docs : list Document)
    : list Document * Z * bool :=
  let provider := dc_provider_code x in
  let sha := dc_content_sha256 x in
  match List.find (same_document provider sha) docs with
  | Some y => (docs, dc_id y, false)
  | None =>
      (docs ++ [{| dc_id := dc_id x; dc_provider_code := provider; dc_url := dc_url x;
                   dc_title := dc_title x; dc_media_type := dc_media_type x;
                   dc_byte_size := dc_byte_size x; dc_content_sha256 := sha;
                   dc_storage_path := EmptyString; dc_fetched_at := dc_fetched_at x;
                   dc_edition_label := dc_edition_label x;
                   dc_document_saved_at := dc_document_saved_at x |}], dc_id x, true)
  end.

(** ** The abstract contract

    The history of one (series, period): its prints, in the order they became
    known.  The current print is the last one. *)
Definition same_print (p : Prepared) (r : Obs) : bool :=
  values_equal (numeric_float (ob_value r)) (float_of_exact (pr_exact p)) &&
  bool_decide (ob_method r = rq_method (pr_request p)).

Definition written (st : status) (vintage : Z) (previous : option Obs) : ObservationWrite :=
  {| ow_status := st; ow_vintage := vintage;
     previous_value := (λ r, numeric_float (ob_value r)) <$> previous;
     previous_vintage := ob_vintage <$> previous; previous_method := previous ≫= ob_method |}.

Definition spec_record (now : instant) (p : Prepared) (h : list Obs)
    : result store_error (list Obs * ObservationWrite) :=
  let rq := pr_request p in
  match last h with
  | None => Ok ([new_row now p 1], written STATUS_INSERTED 1 None)
  | Some r =>
      if same_print p r then Ok (h, written STATUS_UNCHANGED (ob_vintage r) (Some r))
      else if pr_stamped p <? ob_available_at r then
        Err (EarlierThanNewest (rq_series_id rq) (rq_start rq) (pr_stamped p) (ob_available_at r))
      else
        let v := Z.of_nat (length h) + 1 in
        Ok (h ++ [new_row now p v], written STATUS_REVISED v (Some r))
  end.

(** What was knowable of one period: the last visible print. *)
Definition spec_known (c : Cutoff) (h : list Obs) : option Obs :=
  last (List.filter (visible_at c) h).

(** Vintages 1, 2, ... n, and never knowable earlier than the print before. *)
Definition history_ok (h : list Obs) : Prop :=
  ob_vintage <$> h = seqZ 1 (Z.of_nat (length h)) ∧ ascending ob_available_at h.

Definition store_ok (tbl : list Obs) : Prop :=
  ∀ series_id start, history_ok (period_rows tbl series_id start).

(** ** Lemmas *)
Definition chronological : list Obs → Prop :=
  StronglySorted (λ x y, ob_available_at x ≤ ob_available_at y ∧ ob_vintage x < ob_vintage y).

#[local] Instance newer_weak_order : WeakOrder newer.
Proof.
  apply (lex_weak_order (λ a b, ob_available_at b <? ob_available_at a)
           (λ a b, ob_available_at a =? ob_available_at b)
           (λ a b, ob_vintage b <? ob_vintage a)).
  intros x y. destruct (Z.eqb_spec (ob_available_at x) (ob_available_at y)),
    (Z.ltb_spec (ob_available_at y) (ob_available_at x)),
    (Z.ltb_spec (ob_available_at x) (ob_available_at y)); simpl; done || lia.
Qed.

Lemma newer_earlier x y :
  ob_available_at x ≤ ob_available_at y → ob_vintage x < ob_vintage y → newer x y = false ∧ newer y x = true.
Proof.
  intros Ha Hv. unfold newer.
  destruct (Z.eqb_spec (ob_available_at x) (ob_available_at y)),
    (Z.eqb_spec (ob_available_at y) (ob_available_at x)); try lia;
    rewrite ?Z.ltb_ge, ?Z.ltb_lt; lia.
Qed.

Lemma history_snoc h r :
  history_ok (h ++ [r]) ↔
  history_ok h ∧ ob_vintage r = Z.of_nat (length h) + 1 ∧
  Forall (λ x, ob_available_at x ≤ ob_available_at r) h.
Proof.
  unfold history_ok, ascending. rewrite length_app, fmap_app. simpl.
  replace (Z.of_nat (length h + 1)) with (Z.of_nat (S (length h))) by lia.
  rewrite seqZ_S, StronglySorted_app, Forall_forall. split.
  - intros [Hv (Hle&Hs&_)]. apply app_inj_tail in Hv as [Hv Hr].
    split_and!; [done|done|lia|]. intros x Hx. apply Hle; [done|by apply list_elem_of_singleton].
  - intros ((Hv&Hs)&Hr&Hle). rewrite Hv, Hr. split; [do 2 f_equal; lia|].
    split_and!; [|done|repeat constructor].
    intros x y Hx ->%list_elem_of_singleton. by apply Hle.
Qed.

Lemma history_vintage_le h x : history_ok h → x ∈ h → 1 ≤ ob_vintage x ≤ Z.of_nat (length h).
Proof.
  intros [Hv _] Hx. apply (list_elem_of_fmap_2 ob_vintage) in Hx. rewrite Hv in Hx.
  apply elem_of_seqZ in Hx. lia.
Qed.

Lemma history_chronological h : history_ok h → chronological h.
Proof.
  induction h as [|r h IH] using rev_ind; [constructor|].
  intros (Hh&Hr&Hle)%history_snoc. apply StronglySorted_snoc; [by apply IH|].
  rewrite Forall_forall in Hle |- *. intros x Hx. split; [by apply Hle|].
  apply (history_vintage_le h) in Hx; [lia|done].
Qed.

Lemma chronological_filter p h : chronological h → chronological (List.filter p h).
Proof. apply StronglySorted_bool_filter. Qed.

Lemma chronological_total h x y :
  chronological h → x ∈ h → y ∈ h → newer x y = false → newer y x = false → x = y.
Proof.
  induction 1 as [|z h _ IH Hz]; [by rewrite elem_of_nil|].
  rewrite Forall_forall in Hz. rewrite !elem_of_cons. intros [->|Hx] [->|Hy] H1 H2; [done| | |by apply IH].
  - destruct (Hz _ Hy) as [Ha Hv]. destruct (newer_earlier z y Ha Hv). congruence.
  - destruct (Hz _ Hx) as [Ha Hv]. destruct (newer_earlier z x Ha Hv). congruence.
Qed.

(** The order of every SELECT, on a chronological list, is its reverse. *)
Lemma newer_reverse h : chronological h → py_sorted newer h = reverse h.
Proof.
  intros Hh. rewrite (py_sorted_perm_eq newer h (reverse h)).
  - apply py_sorted_reverse. eapply StronglySorted_impl; [|exact Hh].
    intros x y [Ha Hv]. by apply newer_earlier.
  - intros x y Hx Hy. by apply (chronological_total h).
  - by rewrite reverse_Permutation.
Qed.

Lemma newest_is_last h : chronological h → head (py_sorted newer h) = last h.
Proof. intros Hh. by rewrite newer_reverse, head_reverse. Qed.

Lemma read_current_last tbl sid start :
  history_ok (period_rows tbl sid start) →
  read_current tbl sid start = last (period_rows tbl sid start).
Proof. intros H. by apply newest_is_last, history_chronological. Qed.

Lemma fold_max_snoc l x : opt_max (l ++ [x]) = Some (match opt_max l with None => x | Some m => Z.max m x end).
Proof. destruct l as [|y l]; simpl; [done|]. by rewrite fold_left_app. Qed.

Lemma opt_max_last {A} (key : A → Z) h :
  ascending key h → opt_max (key <$> h) = key <$> last h.
Proof.
  induction h as [|r h IH] using rev_ind; [done|].
  intros (Hle&Hs&_)%StronglySorted_app. rewrite fmap_app, last_snoc. simpl.
  rewrite fold_max_snoc, IH by done. f_equal. destruct (last h) as [x|] eqn:Hx; [|done]. simpl.
  apply Z.max_r, Hle; [|by apply list_elem_of_singleton].
  apply last_Some in Hx as [h' ->]. apply elem_of_app. right. by apply list_elem_of_singleton.
Qed.

Lemma read_bounds_last tbl sid start :
  history_ok (period_rows tbl sid start) →
  read_bounds tbl sid start =
    (ob_vintage <$> last (period_rows tbl sid start),
     ob_available_at <$> last (period_rows tbl sid start)).
Proof.
  intros H. unfold read_bounds. f_equal; apply opt_max_last; [|apply H].
  eapply StronglySorted_impl; [|by apply history_chronological]. simpl. lia.
Qed.

(** ** Appending a row *)
Lemma period_rows_snoc tbl row sid start :
  period_rows (tbl ++ [row]) sid start =
  period_rows tbl sid start ++ (if in_period sid start row then [row] else []).
Proof. unfold period_rows. rewrite bool_filter_app. simpl. by destruct (in_period _ _ _). Qed.

Lemma in_period_iff sid start r : in_period sid start r = true ↔ ob_series_id r = sid ∧ ob_start r = start.
Proof. unfold in_period. rewrite andb_true_iff, !Z.eqb_eq. done. Qed.

Abbreviation own_period tbl row := (period_rows tbl (ob_series_id row) (ob_start row)).

Lemma same_key_taken tbl row :
  existsb (same_key row) tbl = true ↔ ∃ x, x ∈ own_period tbl row ∧ ob_vintage x = ob_vintage row.
Proof.
  rewrite existsb_exists. unfold period_rows. split.
  - intros (x&Hx%list_elem_of_In&Hk). exists x. unfold same_key in Hk. bool_to_prop.
    rewrite elem_of_bool_filter, in_period_iff. repeat split; congruence.
  - intros (x&Hx&Hv). apply elem_of_bool_filter in Hx as [Hx [Hs Ht]%in_period_iff].
    exists x. split; [by apply list_elem_of_In|]. unfold same_key. by rewrite Hs, Ht, Hv, !Z.eqb_refl.
Qed.

(** A row whose vintage is at most one past the period's and which, in that last
    case, is not knowable before its predecessors. *)
Definition pending_ok (tbl : list Obs) (row : Obs) : Prop :=
  let h := own_period tbl row in
  1 ≤ ob_vintage row ≤ Z.of_nat (length h) + 1 ∧
  (ob_vintage row = Z.of_nat (length h) + 1 →
   Forall (λ x, ob_available_at x ≤ ob_available_at row) h).

Lemma vintage_taken_iff tbl row :
  history_ok (own_period tbl row) → pending_ok tbl row →
  existsb (same_key row) tbl = true ↔ ob_vintage row ≤ Z.of_nat (length (own_period tbl row)).
Proof.
  intros Hh [Hv _]. rewrite same_key_taken. split.
  - intros (x&Hx&<-). by apply (history_vintage_le _ x Hh).
  - intros Hle. destruct Hh as [Hs _].
    assert (ob_vintage row ∈ ob_vintage <$> own_period tbl row) as Hin.
    { rewrite Hs. apply elem_of_seqZ. lia. }
    apply list_elem_of_fmap in Hin as (x&Hx&Hin). by exists x.
Qed.

Lemma store_append tbl row :
  store_ok tbl → pending_ok tbl row → existsb (same_key row) tbl = false →
  store_ok (tbl ++ [row]).
Proof.
  intros Hok Hp Hfree sid start. rewrite period_rows_snoc.
  destruct (in_period sid start row) eqn:Hin; [|rewrite app_nil_r; apply Hok].
  apply in_period_iff in Hin as [<- <-]. pose proof (Hok (ob_series_id row) (ob_start row)) as Hh.
  assert (ob_vintage row = Z.of_nat (length (own_period tbl row)) + 1) as Hv.
  { destruct (vintage_taken_iff tbl row Hh Hp) as [_ Ht]. rewrite Hfree in Ht.
    destruct Hp as [Hv _]. assert (¬ ob_vintage row ≤ Z.of_nat (length (own_period tbl row))); [|lia].
    intros Hle. specialize (Ht Hle). done. }
  apply history_snoc. split_and!; [done|done|]. by apply Hp.
Qed.

Lemma pending_grows tbl row row' :
  pending_ok tbl row → pending_ok (tbl ++ [row']) row.
Proof.
  unfold pending_ok. cbv zeta. rewrite period_rows_snoc.
  destruct (in_period _ _ row'); [|by rewrite app_nil_r].
  rewrite length_app. simpl. intros [Hv _]. split; lia.
Qed.

(** ** The decision *)
Lemma decide_write_cases now p current bounds d :
  decide_write now p current bounds = Ok d →
  (∃ w, d = Answer w) ∨
  ∃ v w, d = Insert (new_row now p v) w ∧
    v = (match current with None => 1 | Some _ => default 0 (fst bounds) + 1 end) ∧
    (∀ newest, snd bounds = Some newest → newest ≤ pr_stamped p).
Proof.
  unfold decide_write. destruct current as [r|].
  - destruct (_ && _); [intros [= <-]; left; eauto|]. intros H. right.
    destruct (snd bounds) as [t|]; simpl in H; inv_ok; bool_to_prop; do 2 eexists; split_and!; naive_solver.
  - intros H. right. destruct (snd bounds) as [t|]; simpl in H; inv_ok; bool_to_prop;
      do 2 eexists; split_and!; naive_solver.
Qed.

Lemma history_prefix h k : history_ok (h ++ k) → history_ok h.
Proof.
  induction k as [|r k IH] using rev_ind; [by rewrite app_nil_r|].
  rewrite app_assoc. intros [H _]%history_snoc. by apply IH.
Qed.

Lemma length_last_vintage h : history_ok h → default 0 (ob_vintage <$> last h) = Z.of_nat (length h).
Proof.
  destruct h as [|r h _] using rev_ind; [done|]. intros (_&Hr&_)%history_snoc.
  rewrite last_snoc, length_app. simpl. rewrite Hr. lia.
Qed.

Lemma last_available_ge h r x :
  ascending ob_available_at h → last h = Some r → x ∈ h → ob_available_at x ≤ ob_available_at r.
Proof.
  intros Hs [h' ->]%last_Some. apply StronglySorted_app in Hs as (Hle&_).
  rewrite elem_of_app, list_elem_of_singleton. intros [Hx| ->]; [|done].
  apply Hle; [done|by apply list_elem_of_singleton].
Qed.

(** A SELECT over an earlier part of the table reads an earlier part of the history. *)
Lemma period_rows_take tbl k sid start :
  ∃ j, period_rows (take k tbl) sid start = take j (period_rows tbl sid start).
Proof. apply bool_filter_take. Qed.

(** A decision taken on any earlier part of the table is a pending row of it. *)
Lemma decide_pending now p tbl k current row w :
  store_ok tbl →
  decide_write now p current
    (read_bounds (take k tbl) (rq_series_id (pr_request p)) (rq_start (pr_request p)))
    = Ok (Insert row w) →
  pending_ok tbl row.
Proof.
  intros Hok Hd.
  pose proof (Hok (rq_series_id (pr_request p)) (rq_start (pr_request p))) as Hh.
  destruct (period_rows_take tbl k (rq_series_id (pr_request p)) (rq_start (pr_request p))) as (j&Hj).
  set (h := period_rows tbl _ _) in *.
  assert (history_ok (take j h)) as Hhj.
  { apply (history_prefix _ (drop j h)). by rewrite take_drop. }
  rewrite read_bounds_last in Hd by (rewrite Hj; done). rewrite Hj in Hd.
  apply decide_write_cases in Hd as [(w'&[=])|(v&w'&[= -> ->]&Hv&Hnew)].
  unfold pending_ok. cbv zeta. change (own_period tbl (new_row now p v)) with h. simpl.
  destruct current as [r|]; subst v.
  - cbn [fst snd] in *. rewrite length_last_vintage by done.
    pose proof (length_take_le h j) as Hlen. rewrite length_take in *. split; [lia|]. intros Heq.
    assert (take j h = h) as Htake by (apply take_ge; lia). rewrite Htake in Hnew.
    apply Forall_forall. intros x Hx. destruct (last h) as [r'|] eqn:Hl.
    + specialize (Hnew _ eq_refl). pose proof (last_available_ge h r' x (proj2 Hh) Hl Hx). lia.
    + apply last_None in Hl. rewrite Hl in Hx. by apply elem_of_nil in Hx.
  - split; [lia|]. intros Heq. destruct h; [constructor|]. simpl in Heq. lia.
Qed.

(** ** One period, in isolation: the decision is the abstract one *)
Lemma decide_spec now p h :
  history_ok h →
  decide_write now p (last h) (ob_vintage <$> last h, ob_available_at <$> last h) =
  match spec_record now p h with
  | Err e => Err e
  | Ok (h', w) =>
      if decide (length h' = length h) then Ok (Answer w)
      else Ok (Insert (new_row now p (Z.of_nat (length h) + 1)) w)
  end.
Proof.
  intros Hh. unfold decide_write, spec_record, same_print. cbn [fst snd].
  rewrite length_last_vintage by done. destruct (last h) as [r|] eqn:Hl; simpl.
  - destruct (_ && _); [by rewrite decide_True|].
    destruct (pr_stamped p <? ob_available_at r); [done|]. simpl.
    rewrite decide_False; [done|]. rewrite length_app. simpl. lia.
  - apply last_None in Hl. subst h. done.
Qed.

Lemma spec_record_shape now p h h' w :
  spec_record now p h = Ok (h', w) →
  (h' = h ∧ ow_status w = STATUS_UNCHANGED) ∨
  (h' = h ++ [new_row now p (Z.of_nat (length h) + 1)] ∧ ow_vintage w = Z.of_nat (length h) + 1 ∧
   ow_status w ≠ STATUS_UNCHANGED ∧ ow_status w ≠ STATUS_RACED ∧
   ∀ r, last h = Some r → ob_available_at r ≤ pr_stamped p).
Proof.
  unfold spec_record. destruct (last h) as [r|] eqn:Hl.
  - destruct (same_print p r); [intros [= <- <-]; left; done|].
    destruct (Z.ltb_spec (pr_stamped p) (ob_available_at r)); [done|].
    intros [= <- <-]. right. naive_solver.
  - apply last_None in Hl. subst h. intros [= <- <-]. right. done.
Qed.

Lemma prepare_request rq p : prepare rq = Ok p → pr_request p = rq.
Proof.
  unfold prepare. destruct (rq_value rq) as [v|]; [|done]. destruct (rq_end rq <? rq_start rq); [done|].
  simpl. destruct (rq_available_at rq); [|done]. intros H. by inv_ok.
Qed.

(** The outcome of an insert that the unique key does not stop. *)
Lemma insert_free crc db row :
  existsb (same_key row) (observations db) = false →
  insert_observation crc db row =
  if obs_checks row && obs_foreign_keys db row
  then Ok (with_observations db (observations db ++ [row]), 1) else Err Integrity.
Proof.
  intros Hf. unfold insert_observation. rewrite Hf.
  destruct (obs_checks row), (obs_foreign_keys db row); done.
Qed.

Lemma pending_next tbl row :
  ob_vintage row = Z.of_nat (length (own_period tbl row)) + 1 →
  (∀ r, last (own_period tbl row) = Some r → ob_available_at r ≤ ob_available_at row) →
  store_ok tbl → pending_ok tbl row ∧ existsb (same_key row) tbl = false.
Proof.
  intros Hv Hle Hok. pose proof (Hok (ob_series_id row) (ob_start row)) as Hh.
  assert (pending_ok tbl row) as Hp.
  { split; [lia|]. intros _. apply Forall_forall. intros x Hx.
    destruct (last (own_period tbl row)) as [r|] eqn:Hl.
    - pose proof (last_available_ge _ r x (proj2 Hh) Hl Hx). specialize (Hle r eq_refl). lia.
    - apply last_None in Hl. rewrite Hl in Hx. by apply elem_of_nil in Hx. }
  split; [done|]. apply not_true_iff_false. rewrite vintage_taken_iff by done. lia.
Qed.

(** C1. The store implements the abstract history: one [record_observation] is one
    [spec_record] on the history of its period, with the same answer and the same
    refusal; every other period is untouched, and the table constraints are the
    only other way to fail. *)
Theorem record_refines (crc : Z) (now : instant) (db : DB) (rq : Request) (p : Prepared) :
  store_ok (observations db) → prepare rq = Ok p →
  let h := period_rows (observations db) (rq_series_id rq) (rq_start rq) in
  match spec_record now p h, record_observation crc now db rq with
  | Ok (h', w), Ok (db', w') =>
      w' = w ∧ store_ok (observations db') ∧
      db' = with_observations db (observations db') ∧
      ∀ sid start, period_rows (observations db') sid start =
        if (sid =? rq_series_id rq) && (start =? rq_start rq) then h'
        else period_rows (observations db) sid start
  | Err e, Err e' => e' = e
  | Ok (h', _), Err e =>
      e = Integrity ∧ ∃ row, h' = h ++ [row] ∧ obs_checks row && obs_foreign_keys db row = false
  | Err _, Ok _ => False
  end.
Proof.
  intros Hok Hprep h. pose proof (Hok (rq_series_id rq) (rq_start rq)) as Hh.
  change (period_rows _ _ _) with h in Hh. pose proof (prepare_request rq p Hprep) as Hrq.
  unfold record_observation. rewrite Hprep. cbn [mbind result_bind].
  rewrite read_current_last, read_bounds_last by done. fold h.
  rewrite decide_spec by done. destruct (spec_record now p h) as [[h' w]|e] eqn:Hspec; [|done].
  apply spec_record_shape in Hspec as [[-> _]|(->&Hwv&_&Hnr&Hle)].
  - rewrite decide_True by done. simpl. split_and!; [done|done|by destruct db|].
    intros sid start. destruct (Z.eqb_spec sid (rq_series_id rq)), (Z.eqb_spec start (rq_start rq));
      simpl; subst; done.
  - rewrite decide_False by (rewrite length_app; simpl; lia). simpl.
    set (row := new_row now p _).
    assert (own_period (observations db) row = h) as Hown by (simpl; by rewrite Hrq).
    destruct (pending_next (observations db) row) as [Hp Hfree]; [by rewrite Hown|by rewrite Hown|done|].
    rewrite insert_free by done.
    destruct (obs_checks row && obs_foreign_keys db row) eqn:Hc; simpl; [|eauto].
    split_and!; [done|by apply store_append|done|]. intros sid start. rewrite period_rows_snoc.
    unfold in_period. simpl. rewrite Hrq, (Z.eqb_sym _ sid), (Z.eqb_sym _ start).
    destruct (Z.eqb_spec sid (rq_series_id rq)), (Z.eqb_spec start (rq_start rq));
      simpl; subst; rewrite ?app_nil_r; done.
Qed.

(** ** Interleavings *)
Section Run.
Context (crc : Z) (arrives : Prepared → Prop) (P : Obs → Prop)
  (arrives_rows : ∀ p now v, arrives p → P (new_row now p v)).

Definition phase_ok (tbl : list Obs) (ph : phase) : Prop :=
  match ph with
  | Begun p | SawCurrent p _ => arrives p
  | Deciding (Insert row _) => pending_ok tbl row ∧ P row
  | Deciding (Answer _) | Done _ => True
  end.

Definition run_ok (db0 : DB) (st : wstate) : Prop :=
  store_ok (observations (fst st)) ∧
  (∃ new, fst st = with_observations db0 (observations db0 ++ new) ∧ Forall P new) ∧
  Forall (phase_ok (observations (fst st))) (snd st).

Lemma phase_ok_grows tbl row ph : phase_ok tbl ph → phase_ok (tbl ++ [row]) ph.
Proof. destruct ph as [?|? ?|[?|r w]|?]; try done. intros [? ?]. split; [by apply pending_grows|done]. Qed.

(** One statement of one writer: the table stays or gains a row [P] holds of. *)
Lemma advance_ok now visible db ph :
  store_ok (observations db) → phase_ok (observations db) ph →
  let '(db', ph') := advance crc now visible db ph in
  (db' = db ∨ ∃ row, P row ∧ db' = with_observations db (observations db ++ [row]) ∧
                     store_ok (observations db')) ∧
  phase_ok (observations db') ph'.
Proof.
  intros Hok Hph. destruct ph as [p|p current|[w|row w]|w]; simpl; try by (split; [left|]).
  - destruct (decide_write now p current _) as [d|e] eqn:Hd; [|by split; [left|]].
    split; [by left|]. destruct d as [w|row w]; [done|]. simpl. split; [by eapply decide_pending|].
    apply decide_write_cases in Hd as [(w'&[=])|(v&w'&[= -> _]&_)]. by apply arrives_rows.
  - destruct Hph as [Hp HP]. unfold insert_observation.
    destruct (obs_checks row); [|by split; [left|]]. simpl.
    destruct (existsb (same_key row) (observations db)) eqn:Hf; simpl.
    { split; [by left|done]. }
    destruct (obs_foreign_keys db row); [|by split; [left|]]. simpl.
    split; [|done]. right. exists row. split_and!; [done|done|]. by apply store_append.
Qed.

Lemma wstep_ok db0 st st' : run_ok db0 st → wstep crc arrives st st' → run_ok db0 st'.
Proof.
  intros (Hok&Hnew&Hphs) Hstep. destruct Hstep as [db phs rq p Hp Hadm|db phs i ph now vis Hi];
    unfold run_ok in *; cbn [fst snd] in *.
  - split_and!; [done|done|]. apply Forall_app. split; [done|]. by apply Forall_singleton.
  - pose proof (Forall_lookup_1 _ _ _ _ Hphs Hi) as Hph.
    pose proof (advance_ok now vis db ph Hok Hph) as Ha.
    destruct (advance crc now vis db ph) as [db' ph']. cbn [fst snd].
    destruct Ha as [[->|(row&HP&->&Hok')] Hph'].
    + split_and!; [done|done|]. by apply Forall_insert.
    + split_and!; [done| |].
      * destruct Hnew as (new&->&HPs). exists (new ++ [row]). simpl. rewrite app_assoc.
        split; [done|]. apply Forall_app. split; [done|]. by apply Forall_singleton.
      * apply Forall_insert; [|done]. eapply Forall_impl; [exact Hphs|].
        intros ph''. apply phase_ok_grows.
Qed.

Lemma run_preserves db db' phs :
  store_ok (observations db) → rtc (wstep crc arrives) (db, []) (db', phs) →
  store_ok (observations db') ∧
  ∃ new, db' = with_observations db (observations db ++ new) ∧ Forall P new.
Proof.
  intros Hok Hrun.
  assert (run_ok db (db, [])) as Hinit.
  { split_and!; [done| |constructor]. exists []. rewrite app_nil_r. by destruct db. }
  assert (run_ok db (db', phs)) as (H1&H2&_); [|done].
  revert Hrun Hinit. generalize (db, @nil phase). generalize (db', phs).
  intros st' st Hrun. induction Hrun as [st|st st2 st3 Hs _ IH]; [done|].
  intros Hst. by eapply IH, wstep_ok.
Qed.
End Run.

(** C13. Whatever the interleaving of any number of writers, and however stale the
    snapshots their SELECTs saw, every period keeps a well-formed history: its
    vintages are 1, 2, ... n, availability never decreases from one to the next,
    and rows are only ever appended. *)
Theorem races_preserve (crc : Z) (arrives : Prepared → Prop) (db db' : DB) (phs : list phase) :
  store_ok (observations db) → rtc (wstep crc arrives) (db, []) (db', phs) →
  store_ok (observations db') ∧ observations db `prefix_of` observations db'.
Proof.
  intros Hok Hrun. destruct (run_preserves crc arrives (λ _, True) ltac:(done) db db' phs Hok Hrun)
    as (Hok'&new&->&_). split; [done|]. by exists new.
Qed.

(** ** Reads *)
Lemma conditions_split sid c r :
  conditions sid c r = true ↔
  ob_series_id r = sid ∧ visible_at c r = true ∧ in_range c (ob_start r) = true.
Proof. unfold conditions. rewrite !andb_true_iff, Z.eqb_eq. naive_solver. Qed.

(** The rows of one period among those the WHERE keeps. *)
Lemma period_of_conditions sid c tbl start :
  in_range c start = true →
  List.filter (λ q, ob_start q =? start) (List.filter (conditions sid c) tbl) =
  List.filter (visible_at c) (period_rows tbl sid start).
Proof.
  intros Hr. unfold period_rows. rewrite !bool_filter_filter. apply bool_filter_ext.
  intros x _. unfold conditions, in_period.
  destruct (Z.eqb_spec (ob_series_id x) sid), (Z.eqb_spec (ob_start x) start) as [->|],
    (visible_at c x); simpl; rewrite ?Hr, ?andb_false_r; done.
Qed.

(** [r] is a row the WHERE keeps and no kept row of its period is newer. *)
Definition winner (sid : Z) (c : Cutoff) (tbl : list Obs) (r : Obs) : Prop :=
  let rows := List.filter (conditions sid c) tbl in
  r ∈ rows ∧ ∀ q, q ∈ rows → ob_start q = ob_start r → newer q r = false.

Lemma chronological_last_newest h r :
  chronological h → last h = Some r ↔ r ∈ h ∧ ∀ q, q ∈ h → newer q r = false.
Proof.
  intros Hs. split.
  - intros [h' ->]%last_Some. apply StronglySorted_app in Hs as (Hle&_).
    split; [apply elem_of_app; right; by apply list_elem_of_singleton|].
    intros q. rewrite elem_of_app, list_elem_of_singleton. intros [Hq| ->].
    + destruct (Hle q r Hq) as [Ha Hv]; [by apply list_elem_of_singleton|]. by apply newer_earlier.
    + unfold newer. rewrite Z.eqb_refl, Z.ltb_irrefl. done.
  - intros [Hr Hbest]. destruct h as [|x h _] using rev_ind; [by apply elem_of_nil in Hr|].
    rewrite last_snoc. f_equal. apply StronglySorted_app in Hs as (Hle&_).
    rewrite elem_of_app, list_elem_of_singleton in Hr. destruct Hr as [Hr| ->]; [|done].
    destruct (Hle r x Hr) as [Ha Hv]; [by apply list_elem_of_singleton|].
    destruct (newer_earlier r x Ha Hv) as [_ Hn]. rewrite Hbest in Hn; [done|].
    apply elem_of_app. right. by apply list_elem_of_singleton.
Qed.

Lemma winner_iff sid c tbl r :
  store_ok tbl →
  winner sid c tbl r ↔
  ob_series_id r = sid ∧ in_range c (ob_start r) = true ∧
  spec_known c (period_rows tbl sid (ob_start r)) = Some r.
Proof.
  intros Hok. unfold winner, spec_known. cbv zeta.
  rewrite chronological_last_newest by apply chronological_filter, history_chronological, Hok.
  split.
  - intros [Hr Hbest]. pose proof Hr as Hr'. apply elem_of_bool_filter in Hr' as [Hin Hc].
    apply conditions_split in Hc as (Hs&Hv&Hrange).
    rewrite <- (period_of_conditions sid c tbl (ob_start r) Hrange).
    split_and!; [done|done| |].
    + apply elem_of_bool_filter. by rewrite Z.eqb_refl.
    + intros q [Hq Heq]%elem_of_bool_filter. apply Hbest; [done|by apply Z.eqb_eq].
  - intros (Hs&Hrange&Hr&Hbest). rewrite <- (period_of_conditions sid c tbl (ob_start r) Hrange) in Hr, Hbest.
    apply elem_of_bool_filter in Hr as [Hr _]. split; [done|]. intros q Hq Heq. apply Hbest.
    apply elem_of_bool_filter. by rewrite Heq, Z.eqb_refl.
Qed.

Lemma winner_unique sid c tbl r1 r2 :
  store_ok tbl → winner sid c tbl r1 → winner sid c tbl r2 → ob_start r1 = ob_start r2 → r1 = r2.
Proof.
  intros Hok (_&_&H1)%winner_iff (_&_&H2)%winner_iff Heq; [|done..].
  rewrite Heq in H1. congruence.
Qed.

(** *** The SQLite spelling *)
Lemma row_number_one rows r :
  (row_number rows r =? 1) = true ↔ ∀ q, q ∈ rows → ob_start q = ob_start r → newer q r = false.
Proof.
  unfold row_number. rewrite Z.eqb_eq. split.
  - intros H q Hq Heq. assert (List.filter (λ q, (ob_start q =? ob_start r) && newer q r) rows = []) as Hnil.
    { apply nil_length_inv. lia. }
    apply filter_nil_iff in Hnil. rewrite Forall_forall in Hnil. specialize (Hnil q Hq).
    by rewrite Heq, Z.eqb_refl in Hnil.
  - intros H. assert (List.filter (λ q, (ob_start q =? ob_start r) && newer q r) rows = []) as ->; [|done].
    apply filter_nil_iff, Forall_forall. intros q Hq.
    destruct (Z.eqb_spec (ob_start q) (ob_start r)); [|done]. by apply H.
Qed.

(** *** The PostgreSQL spelling *)
#[local] Instance pg_order_weak_order : WeakOrder pg_order.
Proof.
  apply (lex_weak_order (λ a b, ob_start b <? ob_start a) (λ a b, ob_start a =? ob_start b) newer).
  intros x y. destruct (Z.eqb_spec (ob_start x) (ob_start y)),
    (Z.ltb_spec (ob_start y) (ob_start x)), (Z.ltb_spec (ob_start x) (ob_start y)); simpl; done || lia.
Qed.

(** On rows in that order, the first of each run is the newest of its period. *)
Lemma distinct_on_elem rows prev r :
  StronglySorted (not_below pg_order) rows →
  (∀ s, prev = Some s → Forall (λ q, ob_start q ≤ s) rows) →
  (∀ x y, x ∈ rows → y ∈ rows → ob_start x = ob_start y → newer x y = false → newer y x = false → x = y) →
  r ∈ distinct_on prev rows ↔
  r ∈ rows ∧ prev ≠ Some (ob_start r) ∧ ∀ q, q ∈ rows → ob_start q = ob_start r → newer q r = false.
Proof.
  intros Hs. revert prev. induction Hs as [|x rows Hs IH Hx]; intros prev Hprev Htot; simpl.
  { set_solver. }
  rewrite Forall_forall in Hx.
  assert (∀ y, y ∈ rows → ob_start y ≤ ob_start x ∧ (ob_start y = ob_start x → newer y x = false)) as Hxy.
  { intros y Hy. specialize (Hx y Hy). unfold not_below, pg_order in Hx.
    destruct (Z.eqb_spec (ob_start y) (ob_start x)); [naive_solver lia|].
    apply Z.ltb_ge in Hx. lia. }
  assert (∀ q, newer q q = false) as Hirr.
  { intros q. unfold newer. by rewrite Z.eqb_refl, Z.ltb_irrefl. }
  assert (∀ x y, x ∈ rows → y ∈ rows → ob_start x = ob_start y →
    newer x y = false → newer y x = false → x = y) as Htot'.
  { intros y z Hy Hz. apply Htot; by right. }
  case_bool_decide as Hp.
  - rewrite IH; [|intros s Hs'; specialize (Hprev s Hs'); by apply Forall_cons in Hprev as [_ ?]|done].
    subst prev. split.
    + intros (Hr&Hne&Hbest). split_and!; [by right|done|]. intros q.
      rewrite elem_of_cons. intros [->|Hq] Heq; [congruence|by apply Hbest].
    + intros (Hr&Hne&Hbest). apply elem_of_cons in Hr as [->|Hr]; [done|].
      split_and!; [done|done|]. intros q Hq. apply Hbest. by right.
  - rewrite elem_of_cons, IH.
    + split.
      * intros [->|(Hr&Hne&Hbest)].
        { split_and!; [left|done|]. intros q. rewrite elem_of_cons. intros [->|Hq]; [done|by apply Hxy]. }
        split_and!; [by right| |].
        { intros ->. specialize (Hprev _ eq_refl). apply Forall_cons in Hprev as [Hle _].
          destruct (Hxy r Hr) as [Hle' _]. assert (ob_start x = ob_start r) by lia. congruence. }
        intros q. rewrite elem_of_cons. intros [->|Hq] Heq; [congruence|by apply Hbest].
      * intros (Hr&Hne&Hbest). apply elem_of_cons in Hr as [->|Hr]; [by left|].
        destruct (decide (ob_start r = ob_start x)) as [Heq|Hneq].
        { left. apply Htot; [by right|left|done|by apply Hxy|by apply Hbest; [left|]]. }
        right. split_and!; [done|congruence|]. intros q Hq. apply Hbest. by right.
    + intros s [= <-]. apply Forall_forall. intros q Hq. by apply Hxy.
    + done.
Qed.

Lemma newer_total_filter tbl sid c x y :
  store_ok tbl → x ∈ List.filter (conditions sid c) tbl → y ∈ List.filter (conditions sid c) tbl →
  ob_start x = ob_start y → newer x y = false → newer y x = false → x = y.
Proof.
  intros Hok [Hx (Hsx&_&_)%conditions_split]%elem_of_bool_filter
    [Hy (Hsy&_&_)%conditions_split]%elem_of_bool_filter Heq.
  apply (chronological_total (period_rows tbl sid (ob_start x))).
  - by apply history_chronological, Hok.
  - apply elem_of_bool_filter. by rewrite in_period_iff.
  - apply elem_of_bool_filter. by rewrite in_period_iff.
Qed.

(** Both spellings select exactly the winners. *)
Lemma statement_elem d sid c tbl r :
  store_ok tbl → r ∈ point_in_time_statement d sid c tbl ↔ winner sid c tbl r.
Proof.
  intros Hok. unfold point_in_time_statement, sort_by. rewrite py_sorted_perm. destruct d.
  - rewrite distinct_on_elem.
    + unfold winner. rewrite !py_sorted_perm. setoid_rewrite py_sorted_perm. naive_solver.
    + by apply py_sorted_sorted, _.
    + done.
    + intros x y. rewrite !py_sorted_perm. by apply newer_total_filter.
  - rewrite elem_of_bool_filter, row_number_one. done.
Qed.

Lemma distinct_on_sublist prev rows : distinct_on prev rows `sublist_of` rows.
Proof.
  revert prev. induction rows as [|x rows IH]; intros prev; simpl; [constructor|].
  case_bool_decide; by constructor.
Qed.

Lemma NoDup_key {A B} (key : A → B) l :
  NoDup l → (∀ x y, x ∈ l → y ∈ l → key x = key y → x = y) → NoDup (key <$> l).
Proof.
  induction 1 as [|x l Hx _ IH]; intros Hinj; [constructor|]. rewrite fmap_cons. constructor.
  - intros (y&Heq&Hy)%list_elem_of_fmap. apply Hx.
    rewrite (Hinj x y); [done|left|by right|done].
  - apply IH. intros y z Hy Hz. apply Hinj; by right.
Qed.

Lemma store_NoDup tbl : (∀ sid start, NoDup (period_rows tbl sid start)) → NoDup tbl.
Proof.
  induction tbl as [|x tbl IH]; intros H; constructor.
  - intros Hx. specialize (H (ob_series_id x) (ob_start x)). unfold period_rows in H. simpl in H.
    unfold in_period in H at 1. rewrite !Z.eqb_refl in H. apply NoDup_cons in H as [H _].
    apply H, elem_of_bool_filter. by rewrite in_period_iff.
  - apply IH. intros sid start. specialize (H sid start). unfold period_rows in *. simpl in H.
    destruct (in_period sid start x); [by apply NoDup_cons in H as [_ H]|done].
Qed.

Lemma history_NoDup h : history_ok h → NoDup h.
Proof.
  intros Hh. apply (strictly_ascending_NoDup ob_vintage).
  eapply StronglySorted_impl; [|by apply history_chronological]. by intros x y [_ ?].
Qed.

Lemma bool_filter_sublist {A} (p : A → bool) l : List.filter p l `sublist_of` l.
Proof. induction l as [|x l IH]; simpl; [constructor|]. destruct (p x); by constructor. Qed.

Lemma statement_sorted d sid c tbl :
  store_ok tbl → strictly_ascending ob_start (point_in_time_statement d sid c tbl).
Proof.
  intros Hok. pose proof (statement_elem d sid c tbl) as Helem. unfold point_in_time_statement in *.
  assert (NoDup (List.filter (conditions sid c) tbl)) as Hnd.
  { eapply sublist_NoDup; [|apply bool_filter_sublist]. apply store_NoDup. intros. by apply history_NoDup. }
  apply sort_by_strict, NoDup_key.
  - destruct d; (eapply sublist_NoDup; [|apply distinct_on_sublist || apply bool_filter_sublist]);
      [by rewrite py_sorted_perm|done].
  - intros x y Hx Hy. apply (winner_unique sid c tbl); [done| |]; apply Helem; try done;
      unfold sort_by; by rewrite py_sorted_perm.
Qed.

(** A point-in-time read answers, period by period and in order of period, with
    the last print that was visible at the cutoff, and leaves out the periods that
    had none; in both SQL spellings. *)
Theorem point_in_time_refines (d : dialect) (series_id : Z) (c : Cutoff) (tbl : list Obs) :
  store_ok tbl →
  let rows := point_in_time_statement d series_id c tbl in
  strictly_ascending ob_start rows ∧
  ∀ r, r ∈ rows ↔
    ob_series_id r = series_id ∧ in_range c (ob_start r) = true ∧
    spec_known c (period_rows tbl series_id (ob_start r)) = Some r.
Proof.
  intros Hok. split; [by apply statement_sorted|]. intros r.
  by rewrite statement_elem, winner_iff.
Qed.

(** The two spellings of the read, [DISTINCT ON] for PostgreSQL and
    [ROW_NUMBER()] for SQLite, return the same rows in the same order. *)
Theorem dialects_agree (series_id : Z) (c : Cutoff) (tbl : list Obs) :
  store_ok tbl →
  point_in_time_statement Postgresql series_id c tbl = point_in_time_statement Sqlite series_id c tbl.
Proof.
  intros Hok. apply (strictly_ascending_ext ob_start); [by apply statement_sorted..|].
  intros r. by rewrite !statement_elem.
Qed.

(** Rows that became available after the cutoff take no part in the read. *)
Lemma statement_app d sid c tbl new :
  Forall (λ r, as_of c < ob_available_at r) new →
  point_in_time_statement d sid c (tbl ++ new) = point_in_time_statement d sid c tbl.
Proof.
  intros Hnew. unfold point_in_time_statement.
  assert (List.filter (conditions sid c) (tbl ++ new) = List.filter (conditions sid c) tbl) as ->; [|done].
  rewrite bool_filter_app. assert (List.filter (conditions sid c) new = []) as ->; [|apply app_nil_r].
  apply filter_nil_iff. eapply Forall_impl; [exact Hnew|]. intros r Hr. cbv beta in Hr. unfold conditions, visible_at.
  destruct (Z.leb_spec (ob_available_at r) (as_of c)); [lia|]. simpl. by rewrite andb_false_r.
Qed.

(** No look-ahead: whatever is written by writers whose values became available
    after [t], in any interleaving, every read as of [t] or before still answers
    what it answered, revised periods included. *)
Theorem past_reads_stable (crc t : Z) (arrives : Prepared → Prop) (db db' : DB) (phs : list phase)
    (d : dialect) (now now' : instant) (code : string) (cutoff : datetime)
    (start end_ : option date) (projections : bool) :
  store_ok (observations db) →
  (∀ p, arrives p → t < pr_stamped p) →
  rtc (wstep crc arrives) (db, []) (db', phs) →
  to_utc cutoff ≤ t →
  point_in_time d now' db' code (Some cutoff) start end_ projections =
  point_in_time d now db code (Some cutoff) start end_ projections.
Proof.
  intros Hok Hadm Hrun Ht.
  destruct (run_preserves crc arrives (λ r, t < ob_available_at r) ltac:(by intros p ? ? ?%Hadm)
              db db' phs Hok Hrun) as (_&new&->&Hnew).
  unfold point_in_time, series_id_for_code. simpl.
  destruct (match start with Some _ => _ | None => _ end); [simpl|done].
  destruct (List.find _ _); [simpl|done]. rewrite statement_app; [done|].
  eapply Forall_impl; [exact Hnew|]. simpl. lia.
Qed.

(** The audit view lists every print of a period from vintage 1 up, the first
    one included, and the newest of the available ones is the current answer. *)
Theorem vintages_complete (db : DB) (code : string) (sid : Z) (start : date) :
  store_ok (observations db) → series_id_for_code db code = Ok sid →
  let h := period_rows (observations db) sid start in
  vintages_for_period db code start = Ok (vintage_dict <$> h) ∧
  vd_vintage <$> (vintage_dict <$> h) = seqZ 1 (Z.of_nat (length h)) ∧
  read_current (observations db) sid start = last h.
Proof.
  intros Hok Hs h. pose proof (Hok sid start : history_ok h) as Hh. split_and!.
  - unfold vintages_for_period. rewrite Hs. cbn [mbind result_bind]. rewrite sort_by_id; [done|].
    eapply StronglySorted_impl; [|by apply history_chronological]. simpl. lia.
  - rewrite <- list_fmap_compose. apply Hh.
  - by apply read_current_last.
Qed.

(** ** Sending the same value again *)
Section Resend.
Context `{!NumericLaws}.

Lemma after_write crc now db rq p db' w :
  store_ok (observations db) → prepare rq = Ok p → is_finite (float_of_exact (pr_exact p)) = true →
  record_observation crc now db rq = Ok (db', w) →
  store_ok (observations db') ∧
  ∃ r, last (period_rows (observations db') (rq_series_id rq) (rq_start rq)) = Some r ∧
       same_print p r = true.
Proof.
  intros Hok Hprep Hfin Hrec. pose proof (record_refines crc now db rq p Hok Hprep) as Href.
  cbv zeta in Href. rewrite Hrec in Href.
  destruct (spec_record now p _) as [[h' w0]|e] eqn:Hspec; [|done].
  destruct Href as (_&Hok'&_&Hrows). split; [done|].
  rewrite Hrows, !Z.eqb_refl. simpl. pose proof (prepare_request rq p Hprep) as Hrq.
  assert (∀ v, same_print p (new_row now p v) = true) as Hnew.
  { intros v. unfold same_print. simpl. rewrite numeric_roundtrip by done. simpl.
    by apply bool_decide_eq_true. }
  unfold spec_record in Hspec. destruct (last (period_rows _ _ _)) as [r|] eqn:Hl.
  - destruct (same_print p r) eqn:Hs; [injection Hspec as <- _; eauto|].
    destruct (_ <? _); [done|]. injection Hspec as <- _. rewrite last_snoc. eauto.
  - injection Hspec as <- _. eauto.
Qed.
End Resend.
End Store.

(** Re-sending an observation that was just accepted writes nothing: it is
    answered [unchanged], at any later clock and however the driver counts rows,
    as long as the column gives the value back to within the tolerance. *)
Theorem resend_unchanged `{NC : !NumericColumn} `{!NumericLaws} (crc crc' : Z) (now now' : instant)
    (db db' : DB) (rq : Request) (p : Prepared) (w : ObservationWrite) :
  store_ok (observations db) → prepare rq = Ok p →
  is_finite (float_of_exact (pr_exact p)) = true →
  record_observation crc now db rq = Ok (db', w) →
  ∃ w', record_observation crc' now' db' rq = Ok (db', w') ∧ ow_status w' = STATUS_UNCHANGED.
Proof.
  intros Hok Hprep Hfin Hrec.
  destruct (after_write crc now db rq p db' w Hok Hprep Hfin Hrec) as (Hok'&r&Hl&Hs).
  unfold record_observation. rewrite Hprep. cbn [mbind result_bind].
  rewrite read_current_last, read_bounds_last, Hl by done.
  unfold decide_write. unfold same_print in Hs. rewrite (prepare_request rq p Hprep) in *.
  rewrite Hs. eexists. split; done.
Qed.

#[export] Instance float_column_laws : NumericLaws.
Proof.
  split. intros v Hv. unfold values_equal, isclose.
  change (numeric_float (to_numeric v)) with (float_of_exact v). rewrite feq_refl; [reflexivity|].
  unfold is_finite in Hv. by destruct (is_nan (float_of_exact v)).
Qed.

(** ** The catalog's rows *)
Lemma find_update {A} (p : A → bool) (f : A → A) (l : list A) :
  (∀ x, p (f x) = p x) → List.find p (f <$> l) = f <$> List.find p l.
Proof.
  intros Hf. induction l as [|x l IH]; simpl; [done|]. rewrite Hf. by destruct (p x).
Qed.

Lemma find_app_none {A} (p : A → bool) l k :
  existsb p l = false → List.find p (l ++ k) = List.find p k.
Proof.
  induction l as [|x l IH]; simpl; [done|]. destruct (p x); [done|]. apply IH.
Qed.

Lemma find_existsb {A} (p : A → bool) l :
  existsb p l = match List.find p l with Some _ => true | None => false end.
Proof. induction l as [|x l IH]; simpl; [done|]. by destruct (p x). Qed.

Lemma find_true {A} (p : A → bool) l x : List.find p l = Some x → p x = true.
Proof. induction l as [|y l IH]; simpl; [done|]. destruct (p y) eqn:H; [by intros [= <-]|apply IH]. Qed.

Lemma map_id_ext {A} (f : A → A) (l : list A) : (∀ x, x ∈ l → f x = x) → f <$> l = l.
Proof.
  induction l as [|x l IH]; intros H; [done|]. rewrite fmap_cons, (H x) by left. f_equal.
  apply IH. intros y Hy. apply H. by right.
Qed.

Section Catalog.
Context {NC : NumericColumn}.

Lemma update_instrument_code now e r : in_code (update_instrument now e r) = in_code r.
Proof. unfold update_instrument. by destruct (_ && _). Qed.

Lemma update_series_code now e r : sr_code (update_series now e r) = sr_code r.
Proof. unfold update_series. by destruct (_ && _). Qed.

Lemma update_series_id now e r : sr_id (update_series now e r) = sr_id r.
Proof. unfold update_series. by destruct (_ && _). Qed.

Lemma update_instrument_twice now now' e r :
  update_instrument now' e (update_instrument now e r) = update_instrument now e r.
Proof.
  unfold update_instrument at 2 3. destruct (_ && _) eqn:H; unfold update_instrument; simpl.
  - rewrite bool_decide_eq_true_2 by done. by rewrite andb_false_r.
  - by rewrite H.
Qed.

Lemma update_series_twice now now' e r :
  update_series now' e (update_series now e r) = update_series now e r.
Proof.
  unfold update_series at 2 3. destruct (_ && _) eqn:H; unfold update_series; simpl.
  - rewrite bool_decide_eq_true_2 by done. by rewrite andb_false_r.
  - by rewrite H.
Qed.

Lemma update_other {A} (c : A → string) (f : A → A) e (l : list A) :
  (∀ r, f r = if String.eqb (c r) e then f r else r) →
  existsb (λ r, String.eqb (c r) e) l = false → f <$> l = l.
Proof.
  intros Hf Hno. apply map_id_ext. intros x Hx. rewrite Hf.
  destruct (String.eqb (c x) e) eqn:H; [|done]. apply not_true_iff_false in Hno. destruct Hno.
  apply existsb_exists. exists x. split; [by apply list_elem_of_In|done].
Qed.

Lemma upsert_instrument_twice now now' e rows :
  upsert_instrument now' e (upsert_instrument now e rows) = upsert_instrument now e rows.
Proof.
  unfold upsert_instrument. destruct (existsb _ rows) eqn:Hex.
  - rewrite find_existsb, (find_update _ (update_instrument now e)) by (intros; by rewrite update_instrument_code).
    rewrite find_existsb in Hex. destruct (List.find _ rows); [simpl|done].
    rewrite <- list_fmap_compose. apply list_fmap_ext. intros ? x _. apply update_instrument_twice.
  - rewrite find_existsb, find_app_none by done. simpl. rewrite String.eqb_refl, fmap_app.
    rewrite (update_other in_code (update_instrument now' e) (code e) rows); [|intros r|done].
    + f_equal. simpl. unfold update_instrument. simpl. by rewrite bool_decide_eq_true_2, andb_false_r.
    + unfold update_instrument. by destruct (String.eqb (in_code r) (code e)).
Qed.

Lemma upsert_series_twice i i' now now' e rows :
  upsert_series i' now' e (upsert_series i now e rows) = upsert_series i now e rows.
Proof.
  unfold upsert_series. destruct (existsb _ rows) eqn:Hex.
  - rewrite find_existsb, (find_update _ (update_series now e)) by (intros; by rewrite update_series_code).
    rewrite find_existsb in Hex. destruct (List.find _ rows); [simpl|done].
    rewrite <- list_fmap_compose. apply list_fmap_ext. intros ? x _. apply update_series_twice.
  - rewrite find_existsb, find_app_none by done. simpl. rewrite String.eqb_refl, fmap_app.
    rewrite (update_other sr_code (update_series now' e) (code e) rows); [|intros r|done].
    + f_equal. simpl. unfold update_series. simpl. by rewrite bool_decide_eq_true_2, andb_false_r.
    + unfold update_series. by destruct (String.eqb (sr_code r) (code e)).
Qed.

(** The kind of the instrument row an upsert leaves. *)
Lemma upsert_instrument_kind now e rows r :
  List.find (λ r, String.eqb (in_code r) (code e)) (upsert_instrument now e rows) = Some r →
  in_managed r = instrument_managed e.
Proof.
  unfold upsert_instrument. destruct (existsb _ rows) eqn:Hex.
  - rewrite (find_update _ (update_instrument now e)) by (intros; by rewrite update_instrument_code).
    destruct (List.find _ rows) as [r0|] eqn:Hf; [|done]. simpl. intros [= <-].
    apply find_true in Hf. unfold update_instrument. rewrite Hf. simpl.
    destruct (decide (in_managed r0 = instrument_managed e)) as [Heq|Hne].
    + by rewrite bool_decide_eq_true_2.
    + by rewrite bool_decide_eq_false_2.
  - rewrite find_app_none by done. simpl. rewrite String.eqb_refl. by intros [= <-].
Qed.

(** Re-asserting a catalog entry is idempotent: after it has been written once,
    writing it again at any later time changes no row, [updated_at] included, and
    returns the same series id. *)
Theorem ensure_series_idempotent (new_id new_id' now now' id : Z) (db db' : DB) (e : SeriesSpec) :
  kind e = KIND_ECONOMIC_SERIES →
  ensure_series new_id now db e = Ok (db', id) →
  ensure_series new_id' now' db' e = Ok (db', id).
Proof.
  intros Hkind H. unfold ensure_series in H.
  apply bind_Ok in H as (u&_&H). apply bind_Ok in H as (u'&Hchk&H). cbv zeta in H.
  apply bind_Ok in H as (id'&Hid&H). injection H as <- <-.
  unfold ensure_series. simpl.
  destruct (List.find _ (upsert_instrument now e (instruments db))) as [r|] eqn:Hf.
  - apply upsert_instrument_kind in Hf. rewrite Hf. simpl. rewrite Hkind, String.eqb_refl. simpl.
    rewrite Hchk. cbn [mbind result_bind]. rewrite upsert_instrument_twice, upsert_series_twice.
    by rewrite Hid.
  - simpl. rewrite Hchk. cbn [mbind result_bind]. rewrite upsert_instrument_twice, upsert_series_twice.
    by rewrite Hid.
Qed.

(** An ingest never re-enables what an operator turned off and touches no other
    code: every stored instrument and series keeps its code, id, creation time and
    [enabled] flag, rows of other codes are untouched, and nothing is removed. *)
Theorem ensure_series_keeps (new_id now id : Z) (db db' : DB) (e : SeriesSpec) :
  ensure_series new_id now db e = Ok (db', id) →
  (∃ f new, instruments db' = (f <$> instruments db) ++ new ∧
     ∀ r, in_code (f r) = in_code r ∧ in_enabled (f r) = in_enabled r ∧
          in_created_at (f r) = in_created_at r ∧ (in_code r ≠ code e → f r = r)) ∧
  (∃ f new, economic_series db' = (f <$> economic_series db) ++ new ∧
     ∀ r, sr_id (f r) = sr_id r ∧ sr_code (f r) = sr_code r ∧ sr_enabled (f r) = sr_enabled r ∧
          sr_created_at (f r) = sr_created_at r ∧ (sr_code r ≠ code e → f r = r)) ∧
  observations db' = observations db ∧ source_documents db' = source_documents db.
Proof.
  intros H. unfold ensure_series in H.
  apply bind_Ok in H as (u&_&H). apply bind_Ok in H as (u'&_&H). cbv zeta in H.
  apply bind_Ok in H as (id'&_&H). injection H as <- _. simpl. split_and!; [| |done|done].
  - unfold upsert_instrument. destruct (existsb _ _).
    + exists (update_instrument now e), []. rewrite app_nil_r. split; [done|]. intros r.
      unfold update_instrument. destruct (String.eqb_spec (in_code r) (code e)); simpl; [|done].
      by destruct (negb _).
    + exists Datatypes.id. eexists. rewrite list_fmap_id. split; [done|]. done.
  - unfold upsert_series. destruct (existsb _ _).
    + exists (update_series now e), []. rewrite app_nil_r. split; [done|]. intros r.
      unfold update_series. destruct (String.eqb_spec (sr_code r) (code e)); simpl; [|done].
      by destruct (negb _).
    + exists Datatypes.id. eexists. rewrite list_fmap_id. split; [done|]. done.
Qed.
End Catalog.

(** Every entry of the catalog satisfies the CHECK constraints of both tables. *)
Lemma catalog_checks e :
  e ∈ CATALOG →
  kind e = KIND_ECONOMIC_SERIES ∧
  instrument_checks (instrument_managed e) = true ∧ series_checks (series_managed e) = true.
Proof.
  intros He.
  assert (Forall (λ e, String.eqb (kind e) KIND_ECONOMIC_SERIES &&
    (instrument_checks (instrument_managed e) && series_checks (series_managed e)) = true) CATALOG)
    as Hall by by_decide.
  rewrite Forall_forall in Hall. specialize (Hall e He). rewrite !andb_true_iff, String.eqb_eq in Hall.
  naive_solver.
Qed.

(** Every catalog entry can be written: the only refusal is an instrument of the
    same code that is not an economic series, and then the table's rows are as they
    were. *)
Theorem catalog_entry_accepted `{NC : !NumericColumn} (new_id now : Z) (db : DB) (e : SeriesSpec) :
  e ∈ CATALOG →
  match ensure_series new_id now db e with
  | Ok (db', id) => series_id_for_code db' (code e) = Ok id
  | Err err =>
      ∃ r, r ∈ instruments db ∧ in_code r = code e ∧
           im_kind (in_managed r) ≠ KIND_ECONOMIC_SERIES ∧
           err = KindClash (code e) (im_kind (in_managed r))
  end.
Proof.
  intros He. destruct (catalog_checks e He) as (_&H1&H2). unfold ensure_series. rewrite H1, H2.
  assert (∃ id, series_id_for_code
    {| instruments := upsert_instrument now e (instruments db);
       economic_series := upsert_series new_id now e (economic_series db);
       source_documents := source_documents db; observations := observations db |} (code e) = Ok id)
    as (id&Hid).
  { unfold series_id_for_code, upsert_series. simpl.
    destruct (existsb _ (economic_series db)) eqn:Hex.
    - rewrite (find_update _ (update_series now e)) by (intros; by rewrite update_series_code).
      rewrite find_existsb in Hex. destruct (List.find _ (economic_series db)); [simpl; eauto|done].
    - rewrite find_app_none by done. simpl. rewrite String.eqb_refl. eauto. }
  destruct (List.find _ (instruments db)) as [r|] eqn:Hf.
  - destruct (String.eqb_spec (im_kind (in_managed r)) KIND_ECONOMIC_SERIES) as [Hk|Hk]; simpl.
    + cbn [mbind result_bind]. rewrite Hid. simpl. done.
    + exists r. split_and!; [|by apply find_true, String.eqb_eq in Hf|done|done].
      apply List.find_some in Hf as [Hf _]. by apply list_elem_of_In.
  - simpl. rewrite Hid. simpl. done.
Qed.

(** The document archive keeps one row per (provider, content): a re-post
    returns the first row's id and leaves the archive, that row's fetch time
    included, as it was. *)
Theorem source_documents_unique (x y : Document) (docs docs' : list Document) (id : Z) (b : bool) :
  record_source_document x docs = (docs', id, b) →
  same_document (dc_provider_code x) (dc_content_sha256 x) y = true →
  (b = true → docs' = docs ++ [List.last docs' x]) ∧ (b = false → docs' = docs) ∧
  record_source_document y docs' = (docs', id, false).
Proof.
  unfold record_source_document. intros Hx Hy. unfold same_document in Hy. bool_to_prop.
  destruct (String.eqb_spec (dc_provider_code y) (dc_provider_code x)) as [Hp|]; [|done].
  destruct (String.eqb_spec (dc_content_sha256 y) (dc_content_sha256 x)) as [Hs|]; [|done].
  rewrite Hp, Hs. destruct (List.find _ docs) as [z|] eqn:Hf.
  - injection Hx as <- <- <-. split_and!; [done|done|]. by rewrite Hf.
  - injection Hx as <- <- <-. split_and!; [|done|].
    + intros _. by rewrite last_last.
    + rewrite find_app_none by by rewrite find_existsb, Hf.
      simpl. unfold same_document. simpl. by rewrite !String.eqb_refl.
Qed.

(** ** Concrete runs: a SQLite database with one series *)
Definition demo_db : DB :=
  {| instruments := [];
     economic_series :=
       [{| sr_id := 7; sr_code := "WB_CPI_IRN";
           sr_managed := series_managed (_worldbank_spec "IRN" "Iran" EmptyString);
           sr_enabled := true; sr_created_at := 0; sr_updated_at := 0 |}];
     source_documents := []; observations := [] |}.

Definition demo_request (value available : Z) : Request :=
  {| rq_series_id := 7; rq_start := 738886; rq_end := 739251;
     rq_value := Some (NDecimal (DFinite value (-1))); rq_available_at := Some (naive available);
     rq_label := "2024"; rq_published_at := None; rq_is_nowcast := false;
     rq_is_projection := false; rq_source_document_id := None; rq_collected_at := None;
     rq_method := None; rq_available_at_approx := false |}.

Definition demo_prepared (value available : Z) : Prepared :=
  {| pr_request := demo_request value available; pr_exact := EDecimal value (-1);
     pr_stamped := available |}.

(** The result of a list of writes, with the statuses. *)
Fixpoint demo_writes (db : DB) (rqs : list Request) : DB * list (option (status * Z)) :=
  match rqs with
  | [] => (db, [])
  | rq :: rqs =>
      match record_observation 0 0 db rq with
      | Ok (db, w) =>
          let '(db, ws) := demo_writes db rqs in (db, Some (ow_status w, ow_vintage w) :: ws)
      | Err _ => let '(db, ws) := demo_writes db rqs in (db, None :: ws)
      end
  end.

Example writes_1 :
  snd (demo_writes demo_db
    [demo_request 445 100; demo_request 445 50; demo_request 449 200; demo_request 450 150;
     demo_request 449 10; demo_request 445 200])
  = [Some (STATUS_INSERTED, 1); Some (STATUS_UNCHANGED, 1); Some (STATUS_REVISED, 2); None;
     Some (STATUS_UNCHANGED, 2); Some (STATUS_REVISED, 3)].
Proof. vm_compute. reflexivity. Qed.

Definition demo_row (vintage value available : Z) : Obs :=
  new_row 0 (demo_prepared value available) vintage.

Definition demo_two : DB :=
  with_observations demo_db [demo_row 1 445 100; demo_row 2 449 200].

Definition demo_three : DB :=
  with_observations demo_db [demo_row 1 445 100; demo_row 2 449 200; demo_row 3 452 300].

(** Before the revision a reader sees the first print, after it the second. *)
Definition demo_read (d : dialect) (cutoff : Z) : list (float * Z) :=
  match point_in_time d 0 demo_two "WB_CPI_IRN" (Some (naive cutoff)) None None false with
  | Ok s => (λ o, (eo_value o, eo_vintage o)) <$> pt_observations s
  | Err _ => []
  end.

Example reads_1 :
  (λ t, (demo_read Sqlite t, demo_read Postgresql t)) <$> [99; 100; 199; 200] =
  [([], []); ([(flit 445 1, 1)], [(flit 445 1, 1)]); ([(flit 445 1, 1)], [(flit 445 1, 1)]);
   ([(flit 449 1, 2)], [(flit 449 1, 2)])].
Proof. vm_compute. reflexivity. Qed.

(** Two passes that both decided on vintage 2: the second insert is skipped.  With
    the [rowcount] of -1 that [app/db.py] reports of psycopg, the pass that wrote
    nothing still answers [revised]. *)
Definition demo_race (crc : Z) : option (status * nat) :=
  let one := fst (demo_writes demo_db [demo_request 445 100]) in
  match decide_write 0 (demo_prepared 449 200) (read_current (observations one) 7 738886)
          (read_bounds (observations one) 7 738886) with
  | Ok d =>
      let two := fst (demo_writes one [demo_request 449 200]) in
      match finish crc two d with
      | Ok (db, w) => Some (ow_status w, length (observations db))
      | Err _ => None
      end
  | Err _ => None
  end.

Example race_reported : demo_race 0 = Some (STATUS_RACED, 2%nat).
Proof. vm_compute. reflexivity. Qed.
Example race_unreported : demo_race (-1) = Some (STATUS_REVISED, 2%nat).
Proof. vm_compute. reflexivity. Qed.

(** A pass whose first SELECT ran before another pass's insert and whose second ran
    after it stores the same value again, as a revision. *)
Example spurious_revision :
  let one := fst (demo_writes demo_db [demo_request 445 100]) in
  let two := fst (demo_writes one [demo_request 449 200]) in
  match decide_write 0 (demo_prepared 449 200) (read_current (observations one) 7 738886)
          (read_bounds (observations two) 7 738886) with
  | Ok d =>
      match finish 0 two d with
      | Ok (db, w) => (ow_status w, ob_vintage <$> observations db, ob_value <$> observations db)
      | Err _ => (STATUS_RACED, [], [])
      end
  | Err _ => (STATUS_RACED, [], [])
  end = (STATUS_REVISED, [1; 2; 3], [flit 445 1; flit 449 1; flit 449 1]).
Proof. vm_compute. reflexivity. Qed.

(** *** The theorems at these inputs *)
Lemma one_period_ok `{NC : !NumericColumn} sid start tbl :
  Forall (λ r, in_period sid start r = true) tbl → history_ok tbl → store_ok tbl.
Proof.
  intros Hall Hh s t. destruct (decide (s = sid ∧ t = start)) as [[-> ->]|Hne].
  - assert (period_rows tbl sid start = tbl) as ->; [|done].
    apply bool_filter_all. intros x Hx. rewrite Forall_forall in Hall. by apply Hall.
  - assert (period_rows tbl s t = []) as ->; [|by split; [|constructor]].
    apply filter_nil_iff. eapply Forall_impl; [exact Hall|]. intros x Hx.
    apply not_true_iff_false. rewrite in_period_iff in *. naive_solver.
Qed.

Lemma demo_two_ok : store_ok (observations demo_two).
Proof.
  apply (one_period_ok 7 738886); [repeat constructor|]. split; [reflexivity|].
  repeat constructor; simpl; lia.
Qed.

Lemma demo_current : read_current (observations demo_two) 7 738886 = Some (demo_row 2 449 200).
Proof. reflexivity. Qed.

Definition demo_write : ObservationWrite :=
  {| ow_status := STATUS_REVISED; ow_vintage := 3; previous_value := Some (flit 449 1);
     previous_vintage := Some 2; previous_method := None |}.

Lemma demo_decides :
  decide_write 0 (demo_prepared 452 300) (Some (demo_row 2 449 200)) (Some 2, Some 200)
  = Ok (Insert (demo_row 3 452 300) demo_write).
Proof.
  unfold decide_write.
  assert (values_equal (numeric_float (ob_value (demo_row 2 449 200)))
            (float_of_exact (pr_exact (demo_prepared 452 300))) = false) as -> by by_decide.
  assert (numeric_float (ob_value (demo_row 2 449 200)) = flit 449 1) as Hv
    by (vm_compute; reflexivity).
  unfold demo_write. rewrite <- Hv. reflexivity.
Qed.

(** One writer, from its first statement to its last. *)
Lemma demo_run :
  rtc (wstep 0 (λ p, 250 < pr_stamped p)) (demo_two, []) (demo_three, [Done (Ok demo_write)]).
Proof.
  eapply rtc_l.
  { apply (writer_starts 0 _ demo_two [] (demo_request 452 300) (demo_prepared 452 300));
      [reflexivity|simpl; lia]. }
  eapply rtc_l; [eapply (writer_runs 0 _ _ _ 0%nat _ 0 2%nat); reflexivity|].
  eapply rtc_l; [eapply (writer_runs 0 _ _ _ 0%nat _ 0 2%nat); reflexivity|].
  cbn [advance fst snd app list_insert insert]. change (read_current _ _ _) with (Some (demo_row 2 449 200)).
  change (read_bounds _ _ _) with (Some 2, Some 200). rewrite demo_decides.
  eapply rtc_l; [eapply (writer_runs 0 _ _ _ 0%nat _ 0 0%nat); reflexivity|]. apply rtc_refl.
Qed.

Lemma demo_prepares v t : prepare (demo_request v t) = Ok (demo_prepared v t).
Proof. reflexivity. Qed.

Lemma demo_third :
  record_observation 0 0 demo_two (demo_request 452 300) = Ok (demo_three, demo_write).
Proof.
  unfold record_observation. rewrite demo_prepares. cbn [mbind result_bind].
  change (read_current _ _ _) with (Some (demo_row 2 449 200)).
  change (read_bounds _ _ _) with (Some 2, Some 200). rewrite demo_decides. reflexivity.
Qed.

Lemma record_refines_witness :
  store_ok (observations demo_two) ∧ store_ok (observations demo_three).
Proof.
  split; [exact demo_two_ok|].
  pose proof (record_refines 0 0 demo_two (demo_request 452 300) (demo_prepared 452 300)
                demo_two_ok (demo_prepares 452 300)) as H.
  cbv zeta in H. rewrite demo_third in H.
  destruct (spec_record _ _ _) as [[h' w']|]; [exact (proj1 (proj2 H))|done].
Defined.

Lemma races_preserve_witness :
  store_ok (observations demo_two) ∧ store_ok (observations demo_three) ∧
  length (observations demo_three) = 3%nat.
Proof.
  split; [exact demo_two_ok|]. split; [|reflexivity].
  exact (proj1 (races_preserve 0 _ demo_two demo_three _ demo_two_ok demo_run)).
Defined.

Definition demo_cutoff (t : Z) : Cutoff :=
  {| as_of := t; from_start := None; to_end := None; include_projections := false |}.

Lemma point_in_time_refines_witness :
  store_ok (observations demo_two) ∧
  strictly_ascending ob_start (point_in_time_statement Sqlite 7 (demo_cutoff 150) (observations demo_two)) ∧
  length (point_in_time_statement Sqlite 7 (demo_cutoff 150) (observations demo_two)) = 1%nat.
Proof.
  split; [exact demo_two_ok|]. split; [|vm_compute; reflexivity].
  exact (proj1 (point_in_time_refines Sqlite 7 (demo_cutoff 150) (observations demo_two) demo_two_ok)).
Defined.

Lemma dialects_agree_witness :
  store_ok (observations demo_two) ∧
  point_in_time_statement Postgresql 7 (demo_cutoff 150) (observations demo_two) =
  point_in_time_statement Sqlite 7 (demo_cutoff 150) (observations demo_two).
Proof. split; [exact demo_two_ok|]. exact (dialects_agree 7 (demo_cutoff 150) _ demo_two_ok). Defined.

Lemma past_reads_stable_witness :
  demo_three ≠ demo_two ∧
  point_in_time Postgresql 0 demo_three "WB_CPI_IRN" (Some (naive 210)) None None false =
  point_in_time Postgresql 0 demo_two "WB_CPI_IRN" (Some (naive 210)) None None false.
Proof.
  split; [intros H; apply (f_equal (λ db, length (observations db))) in H; done|].
  apply (past_reads_stable 0 250 (λ p, 250 < pr_stamped p) demo_two demo_three _ _ _ _ _ _ _ _ _
           demo_two_ok (λ p H, H) demo_run).
  simpl. lia.
Defined.

Lemma vintages_complete_witness :
  store_ok (observations demo_two) ∧
  vd_vintage <$> (vintage_dict <$> period_rows (observations demo_two) 7 738886) = [1; 2].
Proof.
  split; [exact demo_two_ok|].
  exact (proj1 (proj2 (vintages_complete demo_two "WB_CPI_IRN" 7 738886 demo_two_ok eq_refl))).
Defined.

Lemma resend_unchanged_witness :
  store_ok (observations demo_db) ∧
  ∃ w', record_observation (-1) 5 demo_three (demo_request 452 300) = Ok (demo_three, w') ∧
    ow_status w' = STATUS_UNCHANGED.
Proof.
  split; [intros s t; split; [reflexivity|constructor]|].
  exact (resend_unchanged 0 (-1) 0 5 demo_two demo_three (demo_request 452 300) (demo_prepared 452 300)
           _ demo_two_ok (demo_prepares 452 300) eq_refl demo_third).
Defined.

Definition demo_spec : SeriesSpec := _imf_spec "IRN" "Iran" EmptyString.

Lemma ensure_series_idempotent_witness :
  ∃ db' id, ensure_series 8 100 demo_db demo_spec = Ok (db', id) ∧
            ensure_series 9 200 db' demo_spec = Ok (db', id).
Proof.
  assert (is_ok (ensure_series 8 100 demo_db demo_spec) = true) as Hok by (vm_compute; reflexivity).
  destruct (ensure_series 8 100 demo_db demo_spec) as [[db' id]|e] eqn:He; [|discriminate Hok].
  exists db', id. split; [done|].
  exact (ensure_series_idempotent 8 9 100 200 id demo_db db' demo_spec eq_refl He).
Defined.

Lemma ensure_series_keeps_witness :
  ∃ db' id, ensure_series 8 100 demo_db demo_spec = Ok (db', id) ∧
            observations db' = observations demo_db.
Proof.
  assert (is_ok (ensure_series 8 100 demo_db demo_spec) = true) as Hok by (vm_compute; reflexivity).
  destruct (ensure_series 8 100 demo_db demo_spec) as [[db' id]|e] eqn:He; [|discriminate Hok].
  exists db', id. split; [done|].
  exact (proj1 (proj2 (proj2 (ensure_series_keeps 8 100 id demo_db db' demo_spec He)))).
Defined.

Lemma catalog_entry_accepted_witness :
  demo_spec ∈ CATALOG ∨ (∃ e, e ∈ CATALOG ∧ is_ok (ensure_series 8 100 demo_db e) = true).
Proof.
  right. destruct CATALOG as [|e l] eqn:HC; [discriminate|]. exists e. split; [left|].
  assert (e ∈ CATALOG) as He by (rewrite HC; left).
  pose proof (catalog_entry_accepted 8 100 demo_db e He) as H.
  destruct (ensure_series 8 100 demo_db e) as [[db' id]|err]; [done|].
  destruct H as (r&Hr&_). by apply elem_of_nil in Hr.
Defined.

Definition demo_document (id fetched : Z) : Document :=
  {| dc_id := id; dc_provider_code := "sci"; dc_url := "u"; dc_title := "t"; dc_media_type := "m";
     dc_byte_size := 10; dc_content_sha256 := "abc"; dc_storage_path := "/tmp/x";
     dc_fetched_at := fetched; dc_edition_label := EmptyString; dc_document_saved_at := None |}.

Lemma source_documents_unique_witness :
  ∃ docs, record_source_document (demo_document 1 100) [] = (docs, 1, true) ∧
          record_source_document (demo_document 2 200) docs = (docs, 1, false).
Proof.
  destruct (record_source_document (demo_document 1 100) []) as [[docs id] b] eqn:Hd.
  pose proof (source_documents_unique (demo_document 1 100) (demo_document 2 200) [] docs id b Hd
                eq_refl) as (_&_&H).
  vm_compute in Hd. injection Hd as <- <- <-. eexists. split; [reflexivity|exact H].
Defined.
