(* ===== verification/PyUrl.v ===== *)
(** * URLs and IP addresses: [urllib.parse.urlsplit] and [ipaddress]

    The two standard-library modules the network code relies on, for ASCII text
    as in [PyText].  [urlsplit] with its attributes ([hostname], [port],
    [username], [password]) and the errors it raises; [ip_address] for dotted
    quads and for IPv6 literals, and the address classes ([is_private],
    [is_global] and the others) as the network tables of Python 3.12 give them. *)
From S2P Require Import Prelude PyFloat PyText.
From Stdlib Require Import Ascii String.
Local Open Scope string_scope.
Local Open Scope list_scope.
Local Open Scope Z_scope.

(** ** More string methods *)
Definition to_lower (c : ascii) : ascii :=
  let n := code c in if (65 <=? n) && (n <=? 90) then ascii_of_N (Z.to_N (n + 32)) else c.

(** [s.lower()] *)
Fixpoint lower (s : string) : string :=
  match s with EmptyString => EmptyString | String c s' => String (to_lower c) (lower s') end.

Definition is_alpha (c : ascii) : bool :=
  let n := code (to_lower c) in (97 <=? n) && (n <=? 122).

(** [s.isascii()] *)
Definition isascii (s : string) : bool := all_chars (λ c, code c <? 128) s.

(** [s.partition(sep)]: before, found, after; [after] is [""] when not found. *)
Fixpoint partition (sep : ascii) (s : string) : string * bool * string :=
  match s with
  | EmptyString => (EmptyString, false, EmptyString)
  | String c s' =>
      if Ascii.eqb c sep then (EmptyString, true, s')
      else let '(a, f, b) := partition sep s' in (String c a, f, b)
  end.

(** [s.rpartition(sep)]: the whole string is the LAST part when not found. *)
Fixpoint rpartition (sep : ascii) (s : string) : string * bool * string :=
  match s with
  | EmptyString => (EmptyString, false, EmptyString)
  | String c s' =>
      let '(a, f, b) := rpartition sep s' in
      if f then (String c a, true, b)
      else if Ascii.eqb c sep then (EmptyString, true, s')
      else (EmptyString, false, s)
  end.

Definition contains (c : ascii) (s : string) : bool := negb (all_chars (λ d, negb (Ascii.eqb d c)) s).

(** [s.endswith(suffix)] *)
Fixpoint ends_with (suffix s : string) : bool :=
  String.eqb suffix s || match s with EmptyString => false | String _ s' => ends_with suffix s' end.

Fixpoint drop_chars (n : nat) (s : string) : string :=
  match n, s with
  | O, _ => s
  | S n, String _ s' => drop_chars n s'
  | S _, EmptyString => EmptyString
  end.

Fixpoint filter_chars (p : ascii → bool) (s : string) : string :=
  match s with
  | EmptyString => EmptyString
  | String c s' => if p c then String c (filter_chars p s') else filter_chars p s'
  end.

(** [s.lstrip()] and [s.rstrip()] of the characters that satisfy [p]. *)
Fixpoint lstrip_chars (p : ascii → bool) (s : string) : string :=
  match s with
  | EmptyString => EmptyString
  | String c s' => if p c then lstrip_chars p s' else s
  end.

Fixpoint rstrip_chars (p : ascii → bool) (s : string) : string :=
  match s with
  | EmptyString => EmptyString
  | String c s' =>
      match rstrip_chars p s' with
      | EmptyString => if p c then EmptyString else String c EmptyString
      | r => String c r
      end
  end.

(** The longest prefix whose characters satisfy [p], and the rest. *)
Fixpoint span_chars (p : ascii → bool) (s : string) : string * string :=
  match s with
  | EmptyString => (EmptyString, EmptyString)
  | String c s' =>
      if p c then let '(a, b) := span_chars p s' in (String c a, b) else (EmptyString, s)
  end.

(** ** IP addresses *)
Inductive address : Set :=
| V4 (n : Z)
| V6 (n : Z) (scope : option string).

(** [IPv4Address._parse_octet] *)
Definition parse_octet (s : string) : option Z :=
  if negb (isdigit s) then None
  else if (3 <? String.length s)%nat then None
  else if starts_with "0" s && negb (String.eqb s "0") then None
  else match digits_value false 0 s with
       | Some n => if 255 <? n then None else Some n
       | None => None
       end.

Definition parse_v4 (s : string) : option Z :=
  match split "." s with
  | [a; b; c; d] =>
      a ← parse_octet a; b ← parse_octet b; c ← parse_octet c; d ← parse_octet d;
      Some (((a * 256 + b) * 256 + c) * 256 + d)
  | _ => None
  end.

Definition hex_digit (c : ascii) : option Z :=
  let n := code (to_lower c) in
  if is_digit c then Some (digit_val c)
  else if (97 <=? n) && (n <=? 102) then Some (n - 87) else None.

Fixpoint hex_value (acc : Z) (s : string) : option Z :=
  match s with
  | EmptyString => Some acc
  | String c s' => d ← hex_digit c; hex_value (16 * acc + d) s'
  end.

(** [_parse_hextet]: one to four hexadecimal digits. *)
Definition parse_hextet (s : string) : option Z :=
  match s with
  | EmptyString => None
  | _ => if (4 <? String.length s)%nat then None else hex_value 0 s
  end.

Definition shift_hextets (acc : Z) (hs : list Z) : Z := fold_left (λ a h, a * 65536 + h) hs acc.

Fixpoint all_some {A} (l : list (option A)) : option (list A) :=
  match l with
  | [] => Some []
  | x :: l => x ← x; l ← all_some l; Some (x :: l)
  end.

(** The groups of a literal with a dotted-quad tail: its two hextets replace it. *)
Definition groups_v6 (s : string) : option (list (string + Z)) :=
  let parts := split ":" s in
  if (List.length parts <? 3)%nat then None
  else
    let last := List.last parts EmptyString in
    if contains "." last then
      n ← parse_v4 last;
      Some ((inl <$> removelast parts) ++ [inr (n / 65536); inr (n mod 65536)])
    else Some (inl <$> parts).

Definition is_empty_group (g : string + Z) : bool :=
  match g with inl EmptyString => true | _ => false end.

Definition group_value (g : string + Z) : option Z :=
  match g with inl s => parse_hextet s | inr n => Some n end.

(** The positions 1..len-2 of empty groups: where [::] is. *)
Definition skip_positions (groups : list (string + Z)) : list nat :=
  List.filter (λ i, match groups !! i with Some g => is_empty_group g | None => false end)
    (seq 1 (List.length groups - 2)).

Definition parse_v6 (s : string) : option Z :=
  groups ← groups_v6 s;
  if (9 <? List.length groups)%nat then None
  else
    let first_empty := is_empty_group (hd (inl EmptyString) groups) in
    let last_empty := is_empty_group (List.last groups (inl EmptyString)) in
    match skip_positions groups with
    | [] =>
        if negb (List.length groups =? 8)%nat || first_empty || last_empty then None
        else hs ← all_some (group_value <$> groups); Some (shift_hextets 0 hs)
    | [i] =>
        let hi := take i groups in
        let lo := drop (S i) groups in
        let hi := if first_empty then tail hi else hi in
        let lo := if last_empty then removelast lo else lo in
        if first_empty && negb (List.length hi =? 0)%nat then None
        else if last_empty && negb (List.length lo =? 0)%nat then None
        else if (8 <? List.length hi + List.length lo + 1)%nat then None
        else
          his ← all_some (group_value <$> hi);
          los ← all_some (group_value <$> lo);
          Some (shift_hextets
                  (shift_hextets 0 his * 65536 ^ Z.of_nat (8 - (List.length hi + List.length lo))) los)
    | _ => None
    end.

(** [_split_scope_id] *)
Definition split_scope (s : string) : option (string * option string) :=
  let '(addr, found, scope) := partition "%" s in
  if negb found then Some (addr, None)
  else if String.eqb scope EmptyString || contains "%" scope then None
  else Some (addr, Some scope).

(** [ipaddress.ip_address(s)]: ValueError is [None]. *)
Definition ip_address (s : string) : option address :=
  if contains "/" s then None
  else match parse_v4 s with
       | Some n => Some (V4 n)
       | None =>
           '(addr, scope) ← split_scope s;
           n ← parse_v6 addr;
           Some (V6 n scope)
       end.

(** A network: its first address and the number of free low bits. *)
Definition in_net (n : Z) (net : Z * Z) : bool :=
  (fst net <=? n) && (n <? fst net + 2 ^ snd net).

Definition in_nets (n : Z) (nets : list (Z * Z)) : bool := existsb (in_net n) nets.

Definition quad (a b c d : Z) : Z := ((a * 256 + b) * 256 + c) * 256 + d.
Definition net4 (a b c d prefix : Z) : Z * Z := (quad a b c d, 32 - prefix).
(** The first hextets of a v6 prefix, the rest zero. *)
Definition net6 (hs : list Z) (prefix : Z) : Z * Z :=
  (shift_hextets 0 hs * 65536 ^ (8 - Z.of_nat (List.length hs)), 128 - prefix).

Definition LOOPBACK4 := net4 127 0 0 0 8.
Definition LINK_LOCAL4 := net4 169 254 0 0 16.
Definition MULTICAST4 := net4 224 0 0 0 4.
Definition RESERVED4 := net4 240 0 0 0 4.
Definition SHARED4 := net4 100 64 0 0 10.
Definition PRIVATE4 : list (Z * Z) :=
  [net4 0 0 0 0 8; net4 10 0 0 0 8; net4 127 0 0 0 8; net4 169 254 0 0 16; net4 172 16 0 0 12;
   net4 192 0 0 0 24; net4 192 0 0 170 31; net4 192 0 2 0 24; net4 192 168 0 0 16;
   net4 198 18 0 0 15; net4 198 51 100 0 24; net4 203 0 113 0 24; net4 240 0 0 0 4;
   net4 255 255 255 255 32].
Definition PRIVATE4_EXCEPTIONS : list (Z * Z) := [net4 192 0 0 9 32; net4 192 0 0 10 32].

Definition LINK_LOCAL6 := net6 [0xfe80] 10.
Definition MULTICAST6 := net6 [0xff00] 8.
Definition PRIVATE6 : list (Z * Z) :=
  [net6 [0; 0; 0; 0; 0; 0; 0; 1] 128; net6 [] 128; net6 [0; 0; 0; 0; 0; 0xffff] 96;
   net6 [0x64; 0xff9b; 1] 48; net6 [0x100] 64; net6 [0x2001] 23; net6 [0x2001; 0xdb8] 32;
   net6 [0x2002] 16; net6 [0xfc00] 7; net6 [0xfe80] 10].
Definition PRIVATE6_EXCEPTIONS : list (Z * Z) :=
  [net6 [0x2001; 1; 0; 0; 0; 0; 0; 1] 128; net6 [0x2001; 1; 0; 0; 0; 0; 0; 2] 128;
   net6 [0x2001; 3] 32; net6 [0x2001; 4; 0x112] 48; net6 [0x2001; 0x20] 28;
   net6 [0x2001; 0x30] 28].
Definition RESERVED6 : list (Z * Z) :=
  [net6 [] 8; net6 [0x100] 8; net6 [0x200] 7; net6 [0x400] 6; net6 [0x800] 5; net6 [0x1000] 4;
   net6 [0x4000] 3; net6 [0x6000] 3; net6 [0x8000] 3; net6 [0xA000] 3; net6 [0xC000] 3;
   net6 [0xE000] 4; net6 [0xF000] 5; net6 [0xF800] 6; net6 [0xFE00] 9].

Definition is_unspecified (a : address) : bool :=
  match a with V4 n => n =? 0 | V6 n scope => (n =? 0) && bool_decide (scope = None) end.
Definition is_loopback (a : address) : bool :=
  match a with V4 n => in_net n LOOPBACK4 | V6 n scope => (n =? 1) && bool_decide (scope = None) end.
Definition is_link_local (a : address) : bool :=
  match a with V4 n => in_net n LINK_LOCAL4 | V6 n _ => in_net n LINK_LOCAL6 end.
Definition is_multicast (a : address) : bool :=
  match a with V4 n => in_net n MULTICAST4 | V6 n _ => in_net n MULTICAST6 end.
Definition is_private (a : address) : bool :=
  match a with
  | V4 n => in_nets n PRIVATE4 && negb (in_nets n PRIVATE4_EXCEPTIONS)
  | V6 n _ => in_nets n PRIVATE6 && negb (in_nets n PRIVATE6_EXCEPTIONS)
  end.
Definition is_reserved (a : address) : bool :=
  match a with V4 n => in_net n RESERVED4 | V6 n _ => in_nets n RESERVED6 end.
Definition is_global (a : address) : bool :=
  match a with V4 n => negb (in_net n SHARED4) && negb (is_private a) | V6 _ _ => negb (is_private a) end.

(** [getattr(address, "ipv4_mapped", None)] *)
Definition ipv4_mapped (a : address) : option address :=
  match a with
  | V4 _ => None
  | V6 n _ => if n / 2 ^ 32 =? 65535 then Some (V4 (n mod 2 ^ 32)) else None
  end.

Example ip_1 : ip_address "169.254.169.254" = Some (V4 2852039166). Proof. reflexivity. Qed.
Example ip_2 : ip_address "::ffff:127.0.0.1" = Some (V6 (65535 * 2 ^ 32 + 2130706433) None).
Proof. reflexivity. Qed.
Example ip_3 : ip_address "fe80::1%eth0" = Some (V6 (0xfe80 * 2 ^ 112 + 1) (Some "eth0")).
Proof. reflexivity. Qed.
Example ip_4 : ip_address <$> ["010.0.0.1"; "1.2.3"; ":::"; "1::2::3"; "2001:db8::g"; "::1%"]
  = [None; None; None; None; None; None].
Proof. reflexivity. Qed.
Example ip_5 : ip_address <$> ["::"; "::1"; "1::"; "1:2:3:4:5:6:7:8"; "1:2:3:4:5:6:7::"]
  = [Some (V6 0 None); Some (V6 1 None); Some (V6 (2 ^ 112) None);
     Some (V6 0x00010002000300040005000600070008 None);
     Some (V6 0x00010002000300040005000600070000 None)].
Proof. reflexivity. Qed.

(** ** [urlsplit] *)
Record SplitResult : Set := { scheme : string; netloc : string; path : string }.

(** C0 controls and space, stripped from the left. *)
Definition is_c0_or_space (c : ascii) : bool := code c <=? 32.
(** Tab, CR and LF, removed everywhere. *)
Definition is_unsafe (c : ascii) : bool := existsb (Z.eqb (code c)) [9; 10; 13].

Definition scheme_char (c : ascii) : bool :=
  is_alpha c || is_digit c || existsb (Ascii.eqb c) ["+"; "-"; "."]%char.

Definition split_scheme (url : string) : string * string :=
  let '(s, found, rest) := partition ":" url in
  match s with
  | String c _ => if found && is_alpha c && all_chars scheme_char s then (lower s, rest) else (EmptyString, url)
  | EmptyString => (EmptyString, url)
  end.

Definition not_netloc_end (c : ascii) : bool := negb (existsb (Ascii.eqb c) ["/"; "?"; "#"]%char).

(** [_check_bracketed_host]: an IPv6 literal, or [v] + hex + [.] + anything. *)
Definition bracketed_host_ok (h : string) : bool :=
  match h with
  | String "v" rest =>
      let '(hex, found, tail) := partition "." rest in
      found && negb (String.eqb hex EmptyString) && negb (String.eqb tail EmptyString) &&
      all_chars (λ c, match hex_digit c with Some _ => true | None => false end) hex
  | _ => match ip_address h with Some (V6 _ _) => true | _ => false end
  end.

(** [_checknetloc] on text beyond ASCII is a table of the Unicode database. *)
Class UrlLib : Type := {
  nfkc_netloc_ok : string → bool;
  idna : string → option string;
}.

Section Split.
Context `{!UrlLib}.

Definition urlsplit (url : string) : result pyerr SplitResult :=
  let url := filter_chars (λ c, negb (is_unsafe c)) (lstrip_chars is_c0_or_space url) in
  let '(s, rest) := split_scheme url in
  let '(n, rest) := if starts_with "//" rest then span_chars not_netloc_end (drop_chars 2 rest)
                    else (EmptyString, rest) in
  let open_ := contains "[" n in
  let close_ := contains "]" n in
  if xorb open_ close_ then Err ValueError
  else if open_ && negb (bracketed_host_ok (fst (fst (partition "]" (snd (partition "[" n))))))
  then Err ValueError
  else if negb (isascii n) && negb (nfkc_netloc_ok n) then Err ValueError
  else Ok {| scheme := s; netloc := n; path := fst (fst (partition "?" (fst (fst (partition "#" rest))))) |}.
End Split.

(** [username] and [password]: [None], or the text. *)
Definition userinfo (r : SplitResult) : option string * option string :=
  let '(info, have, _) := rpartition "@" (netloc r) in
  if have then
    let '(u, havep, p) := partition ":" info in (Some u, if havep then Some p else None)
  else (None, None).

Definition hostinfo (r : SplitResult) : string * option string :=
  let '(_, _, info) := rpartition "@" (netloc r) in
  let '(_, have_br, bracketed) := partition "[" info in
  let '(h, p) :=
    if have_br then
      let '(h, _, rest) := partition "]" bracketed in (h, snd (partition ":" rest))
    else let '(h, _, p) := partition ":" info in (h, p) in
  (h, if String.eqb p EmptyString then None else Some p).

Definition hostname (r : SplitResult) : option string :=
  let h := fst (hostinfo r) in
  if String.eqb h EmptyString then None
  else let '(a, found, zone) := partition "%" h in
       Some (lower a +:+ (if found then "%" else EmptyString) +:+ zone).

(** [parts.port]: ValueError when it is not a number up to 65535. *)
Definition port (r : SplitResult) : result pyerr (option Z) :=
  match snd (hostinfo r) with
  | None => Ok None
  | Some p =>
      if negb (isdigit p) then Err ValueError
      else match digits_value false 0 p with
           | Some n => if n <=? 65535 then Ok (Some n) else Err ValueError
           | None => Err ValueError
           end
  end.

(** A library for ASCII text only. *)
#[export] Instance ascii_urllib : UrlLib :=
  {| nfkc_netloc_ok := λ _, true; idna := λ _, None |}.

Definition url_fields (url : string) : option (string * option string * result pyerr (option Z)) :=
  match urlsplit url with
  | Ok r => Some (scheme r, hostname r, port r)
  | Err _ => None
  end.

Example url_1 : url_fields "HTTPS://User:pw@News.IR:443/a?b#c" = Some ("https", Some "news.ir", Ok (Some 443)).
Proof. reflexivity. Qed.
Example url_2 : url_fields " https://[::1]:8443/x" = Some ("https", Some "::1", Ok (Some 8443)).
Proof. reflexivity. Qed.
Example url_3 : url_fields "https://[::1" = None. Proof. reflexivity. Qed.
Example url_4 : url_fields "https://h:99999/" = Some ("https", Some "h", Err ValueError).
Proof. reflexivity. Qed.
Example url_5 : url_fields "//evil@h" = Some (EmptyString, Some "h", Ok None). Proof. reflexivity. Qed.
