(* ===== verification/SafeFetch.v ===== *)
(** * Hardened fetching of news sources

    [app/news/safefetch.py].  A fetch is a computation that extends a trace of
    events (lookups, requests, ends of attempts) and returns or raises.  The
    network, the resolver and the clocks are outside the program: they are
    functions of the number of events so far, so they may answer differently
    every time they are asked.  [urljoin] is any function: its result is checked
    again before it is used.  Messages and their redaction are left out; an error
    is the exception's class and the fields the callers read.

    [EEnd] is a ghost event: it records how an attempt ended. *)
From S2P Require Import Prelude PyFloat PyTime PyText PyUrl.
From Stdlib Require Import Ascii String.
Local Open Scope string_scope.
Local Open Scope list_scope.
Local Open Scope Z_scope.

Definition DEFAULT_CONTENT_TYPES : list string :=
  ["application/atom+xml"; "application/json"; "application/rss+xml"; "application/xhtml+xml";
   "application/xml"; "text/html"; "text/json"; "text/plain"; "text/xml"].

Definition REDIRECT_STATUSES : list Z := [301; 302; 303; 307; 308].
Definition NEVER_RETRY_STATUSES : list Z := [401; 403; 407; 451].

Definition in_zs (n : Z) (l : list Z) : bool := existsb (Z.eqb n) l.
Definition in_strs (s : string) (l : list string) : bool := existsb (String.eqb s) l.

Arguments in_zs : simpl never.
Arguments in_strs : simpl never.

Inductive blocked : Set :=
| NotHttps | Credentials | NoHost | NotAllowlisted | BadPort | PortNotAllowed | IpLiteral
| CannotResolve | NoAddresses | NotPublic (address why : string)
| NoContentType | BadContentType | UnknownCharset | Undecodable | TooManyRedirects | NoHosts
| Doctype | JsonDepth | JsonConstant.

Inductive too_large : Set := DeclaredLength | WireBytes | DecodedBytes | Ratio | Payload.

(** The [FetchError] subclasses; the two families of httpx exceptions before
    [fetch] has translated them; and an exception that is no [FetchError]. *)
Inductive fetch_error : Set :=
| FetchBlocked (why : blocked)
| FetchTooLarge (why : too_large)
| FetchTimeout
| FetchHTTPError (status_code : option Z) (retryable : bool)
| FetchError
| HttpxTimeout
| HttpxError
| Raised (e : pyerr).

Record FetchPolicy : Set := {
  connect_timeout : float;
  read_timeout : float;
  max_bytes : Z;
  max_decompressed_bytes : Z;
  max_compression_ratio : float;
  compression_ratio_floor_bytes : Z;
  max_redirects : Z;
  max_attempts : Z;
  courtesy_delay : float;
  backoff_base : float;
  allowed_ports : list Z;
  allowed_content_types : list string;
  user_agent : string;
  accept : string;
  allow_ip_literals : bool;
  chunk_size : Z;
}.

Definition USER_AGENT : string := "IranGoldPredictor/1.0 (+self-hosted analytics)".

Definition DEFAULT_POLICY : FetchPolicy :=
  {| connect_timeout := float_of_Z 5; read_timeout := float_of_Z 15;
     max_bytes := 4 * 1024 * 1024; max_decompressed_bytes := 16 * 1024 * 1024;
     max_compression_ratio := fhundred; compression_ratio_floor_bytes := 1024 * 1024;
     max_redirects := 3; max_attempts := 3; courtesy_delay := fone;
     backoff_base := flit 75 2; allowed_ports := [443];
     allowed_content_types := DEFAULT_CONTENT_TYPES; user_agent := USER_AGENT;
     accept := "application/rss+xml, application/atom+xml, application/xml;q=0.9, " +:+
               "application/json;q=0.9, text/xml;q=0.8, */*;q=0.1";
     allow_ip_literals := false; chunk_size := 64 * 1024 |}.

Definition headers : Type := list (string * string).

(** [d[k] = v] *)
Fixpoint set_header (k v : string) (h : headers) : headers :=
  match h with
  | [] => [(k, v)]
  | (k', v') :: h => if String.eqb k' k then (k', v) :: h else (k', v') :: set_header k v h
  end.

Record FetchResult : Type := {
  fr_url : string;
  requested_url : string;
  status_code : Z;
  content : string;
  text : string;
  content_type : string;
  charset : string;
  bytes_received : Z;
  elapsed_s : float;
  redirect_chain : list string;
  resolved_ips : list string;
  fetched_at : instant;
}.

(** ** Targets *)
Definition _classify_address (raw : string) : option string :=
  match ip_address raw with
  | None => Some "not an IP address"
  | Some a =>
      let a := default a (ipv4_mapped a) in
      if is_unspecified a then Some "unspecified address"
      else if is_loopback a then Some "loopback address"
      else if is_link_local a then Some "link-local address (cloud metadata range)"
      else if is_multicast a then Some "multicast address"
      else if is_private a then Some "private address"
      else if is_reserved a then Some "reserved address"
      else if negb (is_global a) then Some "non-global address"
      else None
  end.

Definition strip_dots (s : string) : string := rstrip_chars (Ascii.eqb ".") s.

Definition _normalize_host `{!UrlLib} (host : string) : string :=
  let host := lower (strip_dots (strip host)) in
  if isascii host then host else default host (idna host).

Definition host_matches (host candidate : string) : bool :=
  if String.eqb candidate EmptyString then false
  else if starts_with "." candidate
  then String.eqb host (drop_chars 1 candidate) || ends_with candidate host
  else String.eqb host candidate.

Definition _host_allowed `{!UrlLib} (host : string) (allowed_hosts : list string) : bool :=
  existsb (λ entry, host_matches host (_normalize_host entry)) allowed_hosts.

(** The checks of [validate_target] before the lookup: the normalised host and
    whether it is an IP literal. *)
Definition check_url `{!UrlLib} (url : string) (allowed_hosts : list string) (policy : FetchPolicy)
    : result fetch_error (string * bool) :=
  match urlsplit (strip url) with
  | Err e => Err (Raised e)
  | Ok parts =>
      let truthy o := match o with Some s => negb (String.eqb s EmptyString) | None => false end in
      let '(username, password) := userinfo parts in
      _ ← raise_if (negb (String.eqb (lower (scheme parts)) "https")) (FetchBlocked NotHttps);
      _ ← raise_if (truthy username || truthy password) (FetchBlocked Credentials);
      let host := _normalize_host (default EmptyString (hostname parts)) in
      _ ← raise_if (String.eqb host EmptyString) (FetchBlocked NoHost);
      _ ← raise_if (negb (_host_allowed host allowed_hosts)) (FetchBlocked NotAllowlisted);
      port_ ← match port parts with
              | Ok p => Ok p
              | Err _ => Err (FetchBlocked BadPort)
              end;
      _ ← raise_if (match port_ with Some p => negb (in_zs p (allowed_ports policy)) | None => false end)
            (FetchBlocked PortNotAllowed);
      let is_ip_literal := 
        match _classify_address host with
        | Some why => negb (String.eqb why "not an IP address")
        | None => true
        end in
      _ ← raise_if (is_ip_literal && negb (allow_ip_literals policy)) (FetchBlocked IpLiteral);
      Ok (host, is_ip_literal)
  end.

(** The loop over the addresses: the first that is not public is the refusal. *)
Fixpoint check_addresses (addresses : list string) : result fetch_error () :=
  match addresses with
  | [] => Ok ()
  | a :: addresses =>
      match _classify_address a with
      | Some why => Err (FetchBlocked (NotPublic a why))
      | None => check_addresses addresses
      end
  end.

(** ** The outside world, and computations that talk to it *)
Inductive transport_failure : Set := TransportTimeout | TransportError | TransportOther.

(** A response: its body arrives as chunks of at most the size asked for, each
    with the wire bytes downloaded after it, and may break off. *)
Record Response : Type := {
  status : Z;
  header : string → option string;
  chunks : Z → list (string * Z);
  breaks_off : option transport_failure;
  num_bytes_downloaded : Z;
}.

Inductive decoded : Set := Decoded (text : string) | LookupFailed | DecodeFailed | DecodeRaised.

Inductive event : Type :=
| ELookup (host : string) (answer : option (list string))
| ERequest (url : string) (h : headers)
| EEnd (error : option fetch_error).

Definition trace : Type := list event.

Class World : Type := {
  resolver : nat → string → option (list string);
  network : nat → string → headers → Response + transport_failure;
  monotonic : nat → float;
  clock : nat → instant;
  urljoin : string → string → result pyerr string;
  decode : string → string → decoded;
}.

(** A computation extends the trace and returns or raises. *)
Definition M (A : Type) : Type := trace → trace * result fetch_error A.

#[export] Instance M_ret : MRet M := λ A a tr, (tr, Ok a).
#[export] Instance M_bind : MBind M := λ A B f m tr,
  match m tr with
  | (tr, Ok a) => f a tr
  | (tr, Err e) => (tr, Err e)
  end.

Definition lift {A} (m : result fetch_error A) : M A := λ tr, (tr, m).
Definition fail {A} (e : fetch_error) : M A := λ tr, (tr, Err e).
Definition emit (e : event) : M () := λ tr, (tr ++ [e], Ok ()).
Lemma bind_run {A B} (m : M A) (f : A → M B) tr :
  (m ≫= f) tr = match m tr with (tr, Ok a) => f a tr | (tr, Err e) => (tr, Err e) end.
Proof. reflexivity. Qed.

(** How many events have happened. *)
Definition tick : M nat := λ tr, (tr, Ok (List.length tr)).

(** Run the next step of a computation. *)
Ltac run :=
  repeat first
    [ rewrite bind_run
    | progress cbn [lift fail emit tick mret M_ret fst snd] ].

Definition httpx (f : transport_failure) : fetch_error :=
  match f with
  | TransportTimeout => HttpxTimeout
  | TransportError => HttpxError
  | TransportOther => Raised TypeError
  end.

Section Fetch.
Context {UL : UrlLib} {W : World}.

Definition resolve (host : string) : M (option (list string)) :=
  n ← tick; let answer := resolver n host in _ ← emit (ELookup host answer); mret answer.

Definition validate_target (url : string) (allowed_hosts : list string) (policy : FetchPolicy)
    : M (string * list string) :=
  checked ← lift (check_url url allowed_hosts policy);
  let '(host, is_ip_literal) := checked : string * bool in
  answer ← (if is_ip_literal then mret (Some [host]) else resolve host);
  match answer with
  | None => fail (FetchBlocked CannotResolve)
  | Some [] => fail (FetchBlocked NoAddresses)
  | Some addresses => _ ← lift (check_addresses addresses); mret (host, addresses)
  end.

(** ** Responses *)
Definition is_quote (c : ascii) : bool := code c =? 34.

(** The [charset=] parameters, the last one winning. *)
Definition _split_content_type (raw : string) : string * string :=
  let '(main, _, params) := partition ";" raw in
  let step (charset param : string) :=
    let '(name, _, value) := partition "=" param in
    if String.eqb (lower (strip name)) "charset"
    then lower (rstrip_chars is_quote (lstrip_chars is_quote (strip value)))
    else charset in
  (lower (strip main), fold_left step (split ";" params) EmptyString).

Definition _check_content_type (media_type : string) (policy : FetchPolicy)
    : result fetch_error () :=
  if String.eqb media_type EmptyString then Err (FetchBlocked NoContentType)
  else if in_strs media_type (allowed_content_types policy) then Ok ()
  else if (starts_with "application/" media_type || starts_with "text/" media_type) &&
          (ends_with "+json" media_type || ends_with "+xml" media_type) then Ok ()
  else Err (FetchBlocked BadContentType).

(** [_XML_DECL_ENCODING_RE]: an encoding after an XML declaration opens. *)
Definition encoding_char (c : ascii) : bool :=
  is_alpha c || is_digit c || existsb (Ascii.eqb c) ["."; "_"; "-"]%char.

Definition is_quote_mark (c : ascii) : bool := (code c =? 34) || (code c =? 39).

(** [encoding\s*=\s*"..."] at the start of the text. *)
Definition encoding_here (s : string) : option string :=
  if negb (starts_with "encoding" s) then None
  else
    match lstrip_chars is_space (drop_chars 8 s) with
    | String "=" s =>
        match lstrip_chars is_space s with
        | String q s =>
            let '(name, rest) := span_chars encoding_char s in
            match rest with
            | String q' _ =>
                if is_quote_mark q && is_quote_mark q' && negb (String.eqb name EmptyString)
                then Some name else None
            | EmptyString => None
            end
        | EmptyString => None
        end
    | _ => None
    end.

(** [[^>]*?] and then the encoding. *)
Fixpoint encoding_later (s : string) : option string :=
  match encoding_here s with
  | Some e => Some e
  | None =>
      match s with
      | String ">" _ | EmptyString => None
      | String _ s => encoding_later s
      end
  end.

Fixpoint xml_encoding (s : string) : option string :=
  match (if starts_with "<?xml" s then encoding_later (drop_chars 5 s) else None) with
  | Some e => Some e
  | None => match s with EmptyString => None | String _ s => xml_encoding s end
  end.

Definition _declared_charset (content header_charset : string) : string :=
  if negb (String.eqb header_charset EmptyString) then header_charset
  else match xml_encoding (take_chars 200 content) with
       | Some e => lower e
       | None => "utf-8"
       end.

Fixpoint dashes (s : string) : string :=
  match s with
  | EmptyString => EmptyString
  | String c s => String (if Ascii.eqb c "_" then "-" else c)%char (dashes s)
  end.

Definition _decode_strictly (content charset : string) : result fetch_error string :=
  if String.eqb content EmptyString then Ok EmptyString
  else
    match decode content charset with
    | Decoded t => Ok t
    | LookupFailed => Err (FetchBlocked UnknownCharset)
    | DecodeRaised => Err (Raised ValueError)
    | DecodeFailed =>
        if String.eqb (dashes charset) "utf-8" then Err (FetchBlocked Undecodable)
        else match decode content "utf-8" with
             | Decoded t => Ok t
             | LookupFailed => Err (Raised TypeError)
             | DecodeRaised => Err (Raised ValueError)
             | DecodeFailed => Err (FetchBlocked Undecodable)
             end
    end.

Definition len (s : string) : Z := Z.of_nat (String.length s).

(** The loop of [_read_capped]; [decoded] counts what has been read. *)
Fixpoint read_chunks (policy : FetchPolicy) (decoded : Z) (cs : list (string * Z))
    (breaks : option transport_failure) : result fetch_error string :=
  match cs with
  | [] => match breaks with Some f => Err (httpx f) | None => Ok EmptyString end
  | (chunk, wire) :: cs =>
      let decoded := decoded + len chunk in
      _ ← raise_if (max_bytes policy <? wire) (FetchTooLarge WireBytes);
      _ ← raise_if (max_decompressed_bytes policy <? decoded) (FetchTooLarge DecodedBytes);
      _ ← raise_if ((compression_ratio_floor_bytes policy <? decoded) && (0 <? wire) &&
                    fgt (int_true_div decoded wire) (max_compression_ratio policy))
            (FetchTooLarge Ratio);
      rest ← read_chunks policy decoded cs breaks;
      Ok (chunk +:+ rest)
  end.

(** [int(declared_length)] refuses more than 4300 digits. *)
Definition declared_length_ok (policy : FetchPolicy) (h : option string) : result fetch_error () :=
  match h with
  | Some d =>
      if isdigit d then
        if 4300 <? len d then Err (Raised ValueError)
        else raise_if (max_bytes policy <? default 0 (digits_value false 0 d))
               (FetchTooLarge DeclaredLength)
      else Ok ()
  | None => Ok ()
  end.

Definition _read_capped (r : Response) (policy : FetchPolicy) : result fetch_error string :=
  _ ← declared_length_ok policy (header r "content-length");
  read_chunks policy 0 (chunks r (Z.max 1 (Z.min (chunk_size policy) (max_bytes policy))))
    (breaks_off r).

Definition CREDENTIAL_HEADERS : list string := ["authorization"; "cookie"; "proxy-authorization"].

Definition is_credential (kv : string * string) : bool := in_strs (lower (fst kv)) CREDENTIAL_HEADERS.

Definition _strip_credential_headers (h : headers) : headers :=
  List.filter (λ kv, negb (is_credential kv)) h.

(** ** One attempt *)

(** [client.stream("GET", current, headers=...)] *)
Definition request (url : string) (h : headers) : M Response :=
  n ← tick; _ ← emit (ERequest url h);
  match network n url h with
  | inl r => mret r
  | inr f => fail (httpx f)
  end.

(** The statuses that end the attempt with an error. *)
Definition status_error (status : Z) : result fetch_error () :=
  if in_zs status NEVER_RETRY_STATUSES then Err (FetchHTTPError (Some status) false)
  else if (status =? 429) || (500 <=? status) then Err (FetchHTTPError (Some status) true)
  else if 400 <=? status then Err (FetchHTTPError (Some status) false)
  else Ok ().

(** Content type, body and wire bytes of an answer that is not a redirect. *)
Definition read_answer (policy : FetchPolicy) (r : Response)
    : result fetch_error (string * string * string * Z) :=
  _ ← status_error (status r);
  if status r =? 304 then Ok (EmptyString, EmptyString, EmptyString, num_bytes_downloaded r)
  else
    let '(media_type, header_charset) :=
      _split_content_type (default EmptyString (header r "content-type")) in
    _ ← _check_content_type media_type policy;
    content ← _read_capped r policy;
    Ok (media_type, header_charset, content,
        if num_bytes_downloaded r =? 0 then len content else num_bytes_downloaded r).

Definition answer_result (url current : string) (policy : FetchPolicy) (started : float)
    (resolved chain : list string) (r : Response) : M FetchResult :=
  answer ← lift (read_answer policy r);
  let '(media_type, header_charset, content, wire_bytes) := answer in
  let charset := _declared_charset content header_charset in
  text ← lift (_decode_strictly content charset);
  n ← tick;
  mret {| fr_url := current; requested_url := url; status_code := status r; content := content;
          text := text; content_type := media_type; charset := charset;
          bytes_received := wire_bytes; elapsed_s := fsub (monotonic n) started;
          redirect_chain := chain; resolved_ips := resolved; fetched_at := clock n |}.

(** [for _hop in range(policy.max_redirects + 1)]; the fuel is the hops left. *)
Fixpoint hops (fuel : nat) (url : string) (allowed_hosts : list string) (policy : FetchPolicy)
    (started : float) (current : string) (request_headers : headers) (origin_host : string)
    (resolved chain : list string) : M FetchResult :=
  match fuel with
  | O => fail (FetchBlocked TooManyRedirects)
  | S fuel =>
      r ← request current request_headers;
      if in_zs (status r) REDIRECT_STATUSES then
        let location := default EmptyString (header r "location") in
        if String.eqb location EmptyString then fail (FetchHTTPError (Some (status r)) false)
        else
          target ← lift (match urljoin current location with
                         | Ok t => Ok t
                         | Err e => Err (Raised e)
                         end);
          if max_redirects policy <? Z.of_nat (List.length chain)
          then fail (FetchBlocked TooManyRedirects)
          else
            vetted ← validate_target target allowed_hosts policy;
            let '(host, resolved) := vetted in
            let '(request_headers, origin_host) :=
              if String.eqb host origin_host then (request_headers, origin_host)
              else (_strip_credential_headers request_headers, host) in
            hops fuel url allowed_hosts policy started target request_headers origin_host resolved
              (chain ++ [target])
      else answer_result url current policy started resolved chain r
  end.

Definition _attempt (url : string) (allowed_hosts : list string) (policy : FetchPolicy)
    (h : headers) : M FetchResult :=
  n ← tick;
  let started := monotonic n in
  vetted ← validate_target url allowed_hosts policy;
  let '(origin_host, resolved) := vetted in
  hops (Z.to_nat (max_redirects policy + 1)) url allowed_hosts policy started url h origin_host
    resolved [url].

(** ** The retry loop *)

(** What the [except] clauses make of an attempt's error: raise it, or remember it. *)
Definition caught (e : fetch_error) : fetch_error + fetch_error :=
  match e with
  | HttpxTimeout => inr FetchTimeout
  | HttpxError => inr (FetchHTTPError None true)
  | FetchHTTPError s true => inr (FetchHTTPError s true)
  | e => inl e
  end.

Definition attempt_once (url : string) (allowed : list string) (policy : FetchPolicy) (h : headers)
    : M (FetchResult + fetch_error) := λ tr,
  match _attempt url allowed policy h tr with
  | (tr, Ok r) => (tr ++ [EEnd None], Ok (inl r))
  | (tr, Err e) =>
      (tr ++ [EEnd (Some e)],
       match caught e with inl e => Err e | inr e => Ok (inr e) end)
  end.

Fixpoint attempts (fuel : nat) (url : string) (allowed : list string) (policy : FetchPolicy)
    (h : headers) (last_error : option fetch_error) : M FetchResult :=
  match fuel with
  | O => match last_error with Some e => fail e | None => fail FetchError end
  | S fuel =>
      res ← attempt_once url allowed policy h;
      match res with
      | inl r => mret r
      | inr e => attempts fuel url allowed policy h (Some e)
      end
  end.

Definition request_headers (policy : FetchPolicy) (extra : headers) : headers :=
  fold_left (λ h kv, set_header (fst kv) (snd kv) h) extra
    [("User-Agent", user_agent policy); ("Accept", accept policy);
     ("Accept-Encoding", "gzip, deflate")].

Definition fetch (url : string) (allowed_hosts : list string) (policy : FetchPolicy)
    (extra : headers) : M FetchResult :=
  match allowed_hosts with
  | [] => fail (FetchBlocked NoHosts)
  | _ =>
      attempts (Z.to_nat (Z.max 1 (max_attempts policy))) url allowed_hosts policy
        (request_headers policy extra) None
  end.

(** ** What a trace of requests must satisfy *)
Section Guard.
Context (allowed : list string) (policy : FetchPolicy).

(** The URL passed every static check, with this host, and the addresses it was
    vetted with (its own literal, or an answer already in the trace) are all public. *)
Definition vetted (tr : trace) (url host : string) : Prop :=
  ∃ literal ips, check_url url allowed policy = Ok (host, literal) ∧ ips ≠ [] ∧
    Forall (λ a, _classify_address a = None) ips ∧
    (if literal then ips = [host] else ELookup host (Some ips) ∈ tr).

Definition has_credentials (h : headers) : bool := existsb is_credential h.

(** A request of a fetch of [url]: vetted, and carrying the caller's credentials
    only to the host of [url] itself. *)
Definition request_ok (url : string) (before : trace) (target : string) (h : headers) : Prop :=
  ∃ host, vetted before target host ∧
    (has_credentials h = true → ∃ l, check_url url allowed policy = Ok (host, l)).

Definition guarded (url : string) (tr : trace) : Prop :=
  ∀ before target h after, tr = before ++ ERequest target h :: after →
    request_ok url before target h.

Lemma vetted_grows tr more url host : vetted tr url host → vetted (tr ++ more) url host.
Proof.
  intros (l&ips&H1&H2&H3&H4). exists l, ips. split_and!; [done..|].
  destruct l; [done|]. apply elem_of_app. by left.
Qed.

Lemma guarded_snoc url tr e :
  guarded url tr → (∀ u h, e = ERequest u h → request_ok url tr u h) → guarded url (tr ++ [e]).
Proof.
  intros Htr He before target h after Heq. destruct after as [|e' after _] using rev_ind.
  - apply app_inj_tail in Heq as [-> Heq]. by apply He.
  - rewrite app_comm_cons, app_assoc in Heq. apply app_inj_tail in Heq as [Heq _].
    by apply (Htr before target h after).
Qed.

Lemma stripped_has_none h : has_credentials (_strip_credential_headers h) = false.
Proof.
  unfold has_credentials, _strip_credential_headers. induction h as [|kv h IH]; simpl; [done|].
  destruct (is_credential kv) eqn:Hc; simpl; [done|]. by rewrite Hc.
Qed.

(** *** Bookkeeping of a trace *)
Definition requests (tr : trace) : nat :=
  List.length (List.filter (λ e, match e with ERequest _ _ => true | _ => false end) tr).

Definition ends (tr : trace) : list (option fetch_error) :=
  omap (λ e, match e with EEnd o => Some o | _ => None end) tr.

Lemma requests_snoc tr e :
  requests (tr ++ [e]) = (requests tr + match e with ERequest _ _ => 1 | _ => 0 end)%nat.
Proof.
  unfold requests. rewrite bool_filter_app, length_app. simpl. by destruct e.
Qed.

Lemma ends_snoc tr e :
  ends (tr ++ [e]) = ends tr ++ match e with EEnd o => [o] | _ => [] end.
Proof. unfold ends. rewrite omap_app. by destruct e. Qed.

(** ** [validate_target] *)
Lemma check_addresses_Ok l u : check_addresses l = Ok u ↔ Forall (λ a, _classify_address a = None) l.
Proof.
  destruct u. induction l as [|a l IH]; simpl; [by split|]. rewrite Forall_cons.
  destruct (_classify_address a); naive_solver.
Qed.

Lemma check_url_error u e :
  check_url u allowed policy = Err e → (∃ why, e = FetchBlocked why) ∨ (∃ e', e = Raised e').
Proof.
  unfold check_url. destruct (urlsplit (strip u)) as [parts|e']; [|intros [= <-]; by right; eexists].
  destruct (userinfo parts) as [user pass]. intros Hc. left. cbv zeta in Hc.
  repeat (apply bind_Err in Hc as [Hc|(?&_&Hc)];
          [first [apply raise_if_Err in Hc as [_ ->]; by eexists
                 |destruct (port parts); [done|]; injection Hc as <-; by eexists]|]).
  done.
Qed.

(** Whatever it answers, a validation adds at most a lookup to the trace; a target
    it lets through is vetted by that trace. *)
Lemma validate_target_spec url u tr :
  guarded url tr →
  let '(tr', res) := validate_target u allowed policy tr in
  guarded url tr' ∧ requests tr' = requests tr ∧ ends tr' = ends tr ∧ tr `prefix_of` tr' ∧
  match res with
  | Ok (host, ips) => vetted tr' u host
  | Err e => (∃ why, e = FetchBlocked why) ∨ (∃ e', e = Raised e')
  end.
Proof.
  intros Hg. unfold validate_target. run.
  destruct (check_url u allowed policy) as [[host lit]|e] eqn:Hc; run.
  - destruct lit; run.
    + destruct (check_addresses [host]) as [[]|e] eqn:Ha.
      * split_and!; [done|done|done|done|]. apply check_addresses_Ok in Ha. by exists true, [host].
      * split_and!; [done|done|done|done|]. simpl in Ha. destruct (_classify_address host); naive_solver.
    + unfold resolve. run. set (answer := resolver (List.length tr) host).
      assert (guarded url (tr ++ [ELookup host answer])) as Hg' by (apply guarded_snoc; [done|done]).
      assert (tr `prefix_of` tr ++ [ELookup host answer]) as Hpre by by eexists.
      pose proof (requests_snoc tr (ELookup host answer)) as Hr. rewrite Nat.add_0_r in Hr.
      pose proof (ends_snoc tr (ELookup host answer)) as He. rewrite app_nil_r in He.
      destruct answer as [[|a l]|]; run.
      * split_and!; eauto.
      * destruct (check_addresses (a :: l)) as [[]|e] eqn:Ha.
        -- split_and!; [done..|]. apply check_addresses_Ok in Ha. exists false, (a :: l).
           split_and!; [done|done|done|]. apply elem_of_app. right. by apply list_elem_of_singleton.
        -- split_and!; [done..|]. clear -Ha. revert Ha. generalize (a :: l). clear.
           intros l. induction l as [|a l IH]; simpl; [done|].
           destruct (_classify_address a); naive_solver.
      * split_and!; eauto.
  - split_and!; [done..|]. by eapply check_url_error.
Qed.

(** ** The answer *)
Lemma len_app a b : len (a +:+ b) = len a + len b.
Proof.
  unfold len. assert (String.length (a +:+ b) = (String.length a + String.length b)%nat) as ->; [|lia].
  induction a as [|c a IH]; simpl; [done|]. by rewrite IH.
Qed.

Lemma len_nonneg a : 0 ≤ len a.
Proof. unfold len. lia. Qed.

Lemma read_chunks_bound d cs breaks body :
  read_chunks policy d cs breaks = Ok body →
  len body = 0 ∨ d + len body ≤ max_decompressed_bytes policy.
Proof.
  revert d body. induction cs as [|[chunk wire] cs IH]; intros d body; simpl.
  - destruct breaks; [done|]. intros [= <-]. by left.
  - intros H. inv_ok. bool_to_prop. rewrite len_app.
    pose proof (len_nonneg chunk). destruct (IH _ _ Hok2) as [->|Hle]; right; lia.
Qed.

(** What an accepted answer satisfies. *)
Definition answer_ok (r : FetchResult) : Prop :=
  in_zs (status_code r) REDIRECT_STATUSES = false ∧ status_error (status_code r) = Ok () ∧
  (len (content r) = 0 ∨ len (content r) ≤ max_decompressed_bytes policy) ∧
  (if status_code r =? 304 then content r = EmptyString
   else _check_content_type (content_type r) policy = Ok ()).

Lemma read_answer_ok r mt cs body wire :
  read_answer policy r = Ok (mt, cs, body, wire) →
  status_error (status r) = Ok () ∧
  (len body = 0 ∨ len body ≤ max_decompressed_bytes policy) ∧
  (if status r =? 304 then body = EmptyString else _check_content_type mt policy = Ok ()).
Proof.
  unfold read_answer. intros H. apply bind_Ok in H as ([]&Hs&H).
  destruct (status r =? 304).
  { injection H as <- <- <- <-. split_and!; [done|by left|done]. }
  destruct (_split_content_type _) as [mt' cs']. apply bind_Ok in H as ([]&Hct&H).
  apply bind_Ok in H as (body'&Hbody&H). injection H as <- <- <- <-.
  split_and!; [done| |done]. unfold _read_capped in Hbody.
  apply bind_Ok in Hbody as (u&_&Hbody). apply read_chunks_bound in Hbody. lia.
Qed.

(** Errors an attempt can end in: an HTTP error carries the status it is for, and
    the flag that it is worth another attempt exactly for a 429 and the 5xx. *)
Definition ended_with (e : fetch_error) : Prop :=
  match e with
  | FetchError | FetchHTTPError None _ => False
  | FetchHTTPError (Some n) retryable => retryable = true ↔ n = 429 ∨ 500 ≤ n
  | _ => True
  end.

Lemma in_zs_elem n l : in_zs n l = true ↔ n ∈ l.
Proof.
  unfold in_zs. rewrite existsb_exists. setoid_rewrite <-list_elem_of_In. setoid_rewrite Z.eqb_eq.
  naive_solver.
Qed.

Lemma status_error_ok s e : status_error s = Err e → ended_with e.
Proof.
  unfold status_error. destruct (in_zs s NEVER_RETRY_STATUSES) eqn:Hn.
  - intros [= <-]. apply in_zs_elem in Hn. unfold NEVER_RETRY_STATUSES in Hn.
    rewrite !elem_of_cons, elem_of_nil in Hn. simpl. split; [done|lia].
  - destruct (_ || _) eqn:Hr; [intros [= <-]; simpl; lia|].
    destruct (400 <=? s); [|done]. intros [= <-]. simpl. split; [done|lia].
Qed.

Lemma no_location_ok s : in_zs s REDIRECT_STATUSES = true → ended_with (FetchHTTPError (Some s) false).
Proof.
  intros Hs%in_zs_elem. unfold REDIRECT_STATUSES in Hs. rewrite !elem_of_cons, elem_of_nil in Hs.
  simpl. split; [done|lia].
Qed.

Lemma read_chunks_error d cs breaks e : read_chunks policy d cs breaks = Err e → ended_with e.
Proof.
  revert d. induction cs as [|[chunk wire] cs IH]; intros d; simpl.
  - destruct breaks as [[]|]; naive_solver.
  - intros H. repeat (apply bind_Err in H as [H|(?&_&H)];
      [first [apply raise_if_Err in H as [_ ->]; done | by eapply IH]|]). done.
Qed.

Lemma read_answer_error r e : read_answer policy r = Err e → ended_with e.
Proof.
  unfold read_answer. intros H. apply bind_Err in H as [H|(u&_&H)].
  { by eapply status_error_ok. }
  destruct (status r =? 304); [done|]. destruct (_split_content_type _) as [mt cs].
  apply bind_Err in H as [H|(u'&_&H)].
  { unfold _check_content_type in H. repeat destruct_if; naive_solver. }
  apply bind_Err in H as [H|(body&_&H)]; [|done].
  unfold _read_capped in H. apply bind_Err in H as [H|(u''&_&H)]; [|by eapply read_chunks_error].
  unfold declared_length_ok in H. destruct (header r _); [|done].
  destruct (isdigit _); [|done]. destruct (4300 <? _); [naive_solver|].
  apply raise_if_Err in H. naive_solver.
Qed.

Lemma decode_error body cs e : _decode_strictly body cs = Err e → ended_with e.
Proof. unfold _decode_strictly. repeat case_match; naive_solver. Qed.

(** The chain of an accepted result: from the URL asked for to the final one. *)
Definition chain_ok (url : string) (r : FetchResult) : Prop :=
  requested_url r = url ∧ head (redirect_chain r) = Some url ∧
  last (redirect_chain r) = Some (fr_url r) ∧
  Z.of_nat (List.length (redirect_chain r)) ≤ Z.max 1 (max_redirects policy + 1).

Lemma answer_result_spec url current started resolved chain r tr :
  in_zs (status r) REDIRECT_STATUSES = false →
  let '(tr', res) := answer_result url current policy started resolved chain r tr in
  tr' = tr ∧
  match res with
  | Ok fr => answer_ok fr ∧ requested_url fr = url ∧ fr_url fr = current ∧
             redirect_chain fr = chain ∧ resolved_ips fr = resolved
  | Err e => ended_with e
  end.
Proof.
  intros Hr. unfold answer_result. run.
  destruct (read_answer policy r) as [[[[mt cs] body] wire]|e] eqn:Ha;
    [|split; [done|by eapply read_answer_error]]. run.
  destruct (_decode_strictly _ _) as [t|e] eqn:Hd; [|split; [done|by eapply decode_error]].
  run. split; [done|].
  split_and!; [|done..]. apply read_answer_ok in Ha as (Hs&Hl&Hct). by split_and!.
Qed.

(** ** The redirect loop *)
Lemma hops_spec fuel url started current h origin resolved chain tr :
  guarded url tr → vetted tr current origin →
  (has_credentials h = true → ∃ l, check_url url allowed policy = Ok (origin, l)) →
  head chain = Some url → last chain = Some current →
  Z.of_nat (List.length chain) ≤ Z.max 1 (max_redirects policy + 1) →
  let '(tr', res) := hops fuel url allowed policy started current h origin resolved chain tr in
  guarded url tr' ∧ (requests tr' ≤ requests tr + fuel)%nat ∧ ends tr' = ends tr ∧
  match res with
  | Ok r => answer_ok r ∧ chain_ok url r ∧ ∃ host, vetted tr' (fr_url r) host
  | Err e => ended_with e
  end.
Proof.
  revert current h origin resolved chain tr. induction fuel as [|fuel IH];
    intros current h origin resolved chain tr Hg Hv Hcred Hhd Hlast Hlen; simpl hops.
  { run. split_and!; [done|lia|done|done]. }
  run. unfold request. run.
  set (tr1 := tr ++ [ERequest current h]).
  assert (guarded url tr1) as Hg1.
  { apply guarded_snoc; [done|]. intros u h' [= <- <-]. by exists origin. }
  assert (vetted tr1 current origin) as Hv1 by by apply vetted_grows.
  assert (requests tr1 = requests tr + 1)%nat as Hr1 by apply requests_snoc.
  pose proof (ends_snoc tr (ERequest current h)) as He1. fold tr1 in He1. rewrite app_nil_r in He1.
  destruct (network (List.length tr) current h) as [r|f]; run; [|split_and!; [done|lia|done|by destruct f]].
  destruct (in_zs (status r) REDIRECT_STATUSES) eqn:Hst.
  - destruct (String.eqb _ EmptyString); run; [split_and!; [done|lia|done|by apply no_location_ok]|].
    destruct (urljoin current _) as [target|e]; run; [|split_and!; [done|lia|done|done]].
    destruct (max_redirects policy <? Z.of_nat (List.length chain)) eqn:Hmax; run;
      [split_and!; [done|lia|done|done]|].
    apply Z.ltb_ge in Hmax. pose proof (validate_target_spec url target tr1 Hg1) as Hval.
    destruct (validate_target target allowed policy tr1) as [tr2 [[host ips]|e]];
      destruct Hval as (Hg2&Hr2&He2&_&Hv2); [|split_and!; [done|lia|congruence|naive_solver]].
    destruct (if String.eqb host origin then _ else _) as [h2 origin2] eqn:Hh2.
    assert (host = origin2 ∧ (has_credentials h2 = true →
              ∃ l, check_url url allowed policy = Ok (origin2, l))) as [<- Hcred2].
    { destruct (String.eqb_spec host origin) as [->|]; injection Hh2 as <- <-; [done|].
      split; [done|]. by rewrite stripped_has_none. }
    pose proof (IH target h2 host ips (chain ++ [target]) tr2 Hg2 Hv2 Hcred2) as IH2.
    destruct (hops fuel url allowed policy started target h2 host ips (chain ++ [target]) tr2)
      as [tr3 res]. destruct IH2 as (H1&H2&H3&H4).
    { destruct chain; [done|]. by injection Hhd as ->. }
    { by rewrite last_snoc. }
    { rewrite length_app. simpl. lia. }
    split_and!; [done|lia|congruence|done].
  - pose proof (answer_result_spec url current started resolved chain r tr1 Hst) as Ha.
    destruct (answer_result _ _ _ _ _ _ _ tr1) as [tr2 [fr|e]]; destruct Ha as [-> Ha];
      [|split_and!; [done|lia|done|done]].
    destruct Ha as (Hok&Hreq&Hurl&Hchain&_). split_and!; [done|lia|done|done| |].
    + unfold chain_ok. by rewrite Hreq, Hurl, Hchain.
    + rewrite Hurl. eauto.
Qed.

Lemma attempt_spec url h tr :
  guarded url tr →
  let '(tr', res) := _attempt url allowed policy h tr in
  guarded url tr' ∧
  (requests tr' ≤ requests tr + Z.to_nat (max_redirects policy + 1))%nat ∧
  ends tr' = ends tr ∧
  match res with
  | Ok r => answer_ok r ∧ chain_ok url r ∧ ∃ host, vetted tr' (fr_url r) host
  | Err e => ended_with e
  end.
Proof.
  intros Hg. unfold _attempt. run. pose proof (validate_target_spec url url tr Hg) as Hval.
  destruct (validate_target url allowed policy tr) as [tr1 [[host ips]|e]];
    destruct Hval as (Hg1&Hr1&He1&_&Hv1); [|split_and!; [done|lia|done|naive_solver]].
  pose proof (hops_spec (Z.to_nat (max_redirects policy + 1)) url (monotonic (List.length tr)) url h
                host ips [url] tr1 Hg1 Hv1) as Hh.
  destruct (hops _ _ _ _ _ _ _ _ _ _ tr1) as [tr2 res]. destruct Hh as (H1&H2&H3&H4).
  { intros _. destruct Hv1 as (l&_&H&_). by exists l. }
  { done. } { done. } { simpl. lia. }
  split_and!; [done|lia|congruence|done].
Qed.

(** ** The retry loop *)

(** How an attempt may end that is worth another: a timeout, a transport failure, a
    429 or a 5xx.  An access denial, a policy refusal, an oversized body is none. *)
Definition transient (o : option fetch_error) : Prop :=
  match o with
  | Some HttpxTimeout | Some HttpxError => True
  | Some (FetchHTTPError (Some n) _) => n = 429 ∨ 500 ≤ n
  | _ => False
  end.

(** How the run ended, from how its last attempt ended: an error is raised as it
    is, the two of the transport as the module's own classes. *)
Definition final (o : option fetch_error) (res : result fetch_error FetchResult) : Prop :=
  match o, res with
  | None, Ok _ => True
  | Some HttpxTimeout, Err e => e = FetchTimeout
  | Some HttpxError, Err e => e = FetchHTTPError None true
  | Some e, Err e' => e' = e
  | _, _ => False
  end.

(** The [except] clauses remember exactly the transient ends. *)
Lemma caught_transient e :
  ended_with e →
  match caught e with inl _ => ¬ transient (Some e) | inr _ => transient (Some e) end
  ∧ final (Some e) (Err (match caught e with inl x => x | inr x => x end)).
Proof. destruct e as [| | |[n|] []| | | |]; simpl; intuition congruence. Qed.

Lemma guarded_end url tr o : guarded url tr → guarded url (tr ++ [EEnd o]).
Proof. intros Hg. by apply guarded_snoc. Qed.

Lemma attempts_spec fuel url h le tr :
  guarded url tr →
  let '(tr', res) := attempts fuel url allowed policy h le tr in
  guarded url tr' ∧
  (requests tr' ≤ requests tr + fuel * Z.to_nat (max_redirects policy + 1))%nat ∧
  match res with Ok r => answer_ok r ∧ chain_ok url r | Err _ => True end ∧
  ∃ outs, ends tr' = ends tr ++ outs ∧ (List.length outs ≤ fuel)%nat ∧
    match last outs with
    | None => res = match le with Some e => Err e | None => Err FetchError end ∧ fuel = 0%nat
    | Some o => Forall transient (removelast outs) ∧ final o res ∧
                (transient o → List.length outs = fuel) ∧ from_option ended_with True o
    end.
Proof.
  revert le tr. induction fuel as [|fuel IH]; intros le tr Hg; simpl attempts.
  - assert (∃ outs, ends tr = ends tr ++ outs ∧ outs = []) as (outs&Heq&->)
      by (exists []; by rewrite app_nil_r).
    destruct le; run; (split_and!; [done|lia|done|]); exists []; rewrite app_nil_r; done.
  - run. unfold attempt_once. pose proof (attempt_spec url h tr Hg) as Ha.
    destruct (_attempt url allowed policy h tr) as [tr1 [r|e]]; destruct Ha as (Hg1&Hr1&He1&Hres).
    + run. pose proof (requests_snoc tr1 (EEnd None)) as Hr2. simpl in Hr2.
      split_and!; [by apply guarded_end|lia|apply Hres|apply Hres|].
      exists [None]. rewrite ends_snoc, He1. simpl. split_and!; [done|lia|constructor|done|done|done].
    + pose proof (requests_snoc tr1 (EEnd (Some e))) as Hr2. simpl in Hr2.
      assert (ends (tr1 ++ [EEnd (Some e)]) = ends tr ++ [Some e]) as He2 by by rewrite ends_snoc, He1.
      destruct (caught_transient e Hres) as [Ht Hfin]. destruct (caught e) as [x|x].
      * run. split_and!; [by apply guarded_end|lia|done|]. exists [Some e].
        by split_and!; [done|simpl; lia|constructor|..].
      * run. pose proof (IH (Some x) (tr1 ++ [EEnd (Some e)]) (guarded_end _ _ _ Hg1)) as H2.
        destruct (attempts fuel url allowed policy h (Some x) (tr1 ++ [EEnd (Some e)])) as [tr3 res].
        destruct H2 as (H3&H4&H5&outs&H6&H7&H8). split_and!; [done|lia|done|].
        exists (Some e :: outs). rewrite H6, He2, <- app_assoc. split_and!; [done|simpl; lia|].
        destruct outs as [|o outs].
        -- destruct H8 as [-> ->]. by split_and!; [constructor|..].
        -- change (last (Some e :: o :: outs)) with (last (o :: outs)).
           change (removelast (Some e :: o :: outs)) with (Some e :: removelast (o :: outs)).
           destruct (last (o :: outs)) as [o'|] eqn:Hlast; [|by apply last_None in Hlast].
           destruct H8 as (H9&H10&H11&H12). split_and!; [by constructor|done| |done].
           intros Ht'. simpl. f_equal. by apply H11.
Qed.

Lemma guarded_nil url : guarded url [].
Proof. intros b t h' a Heq. by destruct b. Qed.

Lemma fetch_spec url extra :
  let '(tr, res) := fetch url allowed policy extra [] in
  guarded url tr ∧
  (requests tr ≤ Z.to_nat (Z.max 1 (max_attempts policy)) * Z.to_nat (max_redirects policy + 1))%nat ∧
  match res with Ok r => answer_ok r ∧ chain_ok url r | Err _ => True end ∧
  match last (ends tr) with
  | None => tr = [] ∧ allowed = [] ∧ res = Err (FetchBlocked NoHosts)
  | Some o => Forall transient (removelast (ends tr)) ∧ final o res ∧
              (List.length (ends tr) ≤ Z.to_nat (Z.max 1 (max_attempts policy)))%nat ∧
              (transient o → List.length (ends tr) = Z.to_nat (Z.max 1 (max_attempts policy))) ∧
              from_option ended_with True o
  end.
Proof.
  assert (allowed = [] ∨ fetch url allowed policy extra = attempts (Z.to_nat (Z.max 1 (max_attempts policy)))
            url allowed policy (request_headers policy extra) None) as [Hal| ->].
  { unfold fetch. destruct allowed; [by left|by right]. }
  - assert (fetch url allowed policy extra = fail (FetchBlocked NoHosts)) as ->
      by by rewrite Hal.
    run. split_and!; [apply guarded_nil|apply Nat.le_0_l|done|]. done.
  - pose proof (attempts_spec (Z.to_nat (Z.max 1 (max_attempts policy))) url
                  (request_headers policy extra) None [] (guarded_nil url)) as Hs.
    destruct (attempts _ _ _ _ _ _ _) as [tr res]. destruct Hs as (H1&H2&H3&outs&H4&H5&H6).
    simpl in H4. rewrite H4. split_and!; [done|simpl in H2; lia|done|].
    destruct (last outs); [naive_solver|]. lia.
Qed.

(** A fetch always comes back, after at most [max_attempts] attempts of at most
    [max_redirects + 1] requests each, and an accepted answer is inside its limits:
    a final status that is neither a redirect nor an error, a body no larger than
    the decompressed cap, an allowed content type, and a chain that leads from the
    URL asked for to the final one. *)
Theorem fetch_bounded (url : string) (extra : headers) :
  let '(tr, res) := fetch url allowed policy extra [] in
  (requests tr ≤ Z.to_nat (Z.max 1 (max_attempts policy)) * Z.to_nat (max_redirects policy + 1))%nat ∧
  match res with Ok r => answer_ok r ∧ chain_ok url r | Err _ => True end.
Proof.
  pose proof (fetch_spec url extra) as Hs.
  destruct (fetch url allowed policy extra []) as [tr res]. naive_solver.
Qed.


(** What a caller has to catch: a fetch fails with one of the [FetchError]
    classes, never with an httpx exception and never with the "neither a result nor
    an error" fallback, or with an exception of the interpreter that escapes. *)
Theorem fetch_error_classes (url : string) (extra : headers) (e : fetch_error) :
  snd (fetch url allowed policy extra []) = Err e →
  (∃ why, e = FetchBlocked why) ∨ (∃ why, e = FetchTooLarge why) ∨ e = FetchTimeout ∨
  (∃ s r, e = FetchHTTPError s r) ∨ (∃ x, e = Raised x).
Proof.
  pose proof (fetch_spec url extra) as Hs.
  destruct (fetch url allowed policy extra []) as [tr res]. simpl. intros ->.
  destruct Hs as (_&_&_&Hs). destruct (last (ends tr)) as [o|]; [|naive_solver].
  destruct Hs as (_&Hf&_&_&Hne). destruct o as [e0|]; [|done]. simpl in Hf.
  destruct e0 as [w|w| |s [|]| | | |x]; simpl in Hf; subst e; naive_solver.
Qed.
End Guard.
End Fetch.

(** ** Parsers *)

Definition is_open (c : ascii) : bool := existsb (Ascii.eqb c) ["["; "{"]%char.
Definition is_close (c : ascii) : bool := existsb (Ascii.eqb c) ["]"; "}"]%char.
Arguments is_open : simpl never.
Arguments is_close : simpl never.

(** The scan of [_json_depth_ok]. *)
Fixpoint json_scan (max_depth depth : Z) (in_string escaped : bool) (s : string) : bool :=
  match s with
  | EmptyString => true
  | String c s =>
      if in_string then
        if escaped then json_scan max_depth depth true false s
        else if code c =? 92 then json_scan max_depth depth true true s
        else if is_quote c then json_scan max_depth depth false false s
        else json_scan max_depth depth true false s
      else if is_quote c then json_scan max_depth depth true false s
      else if is_open c then
        if max_depth <? depth + 1 then false else json_scan max_depth (depth + 1) false false s
      else if is_close c then json_scan max_depth (depth - 1) false false s
      else json_scan max_depth depth false false s
  end.

Definition _json_depth_ok (text : string) (max_depth : Z) : bool := json_scan max_depth 0 false false text.

(** The first position at which [p] holds of the rest of the text, as the text
    before it. *)
Fixpoint before_first (p : string → bool) (s : string) : string :=
  if p s then EmptyString
  else match s with EmptyString => EmptyString | String c s => String c (before_first p s) end.

(** [_PROLOG_END_RE]: [<[A-Za-z_]] here. *)
Definition element_start (s : string) : bool :=
  match s with
  | String "<" (String c _) => is_alpha c || Ascii.eqb c "_"
  | _ => false
  end.

(** [<!\s*NAME], case-insensitively, here. *)
Definition declares (name : string) (s : string) : bool :=
  match s with
  | String "<" (String "!" s) => starts_with name (lower (lstrip_chars is_space s))
  | _ => false
  end.

(** [re.search]: somewhere in the text. *)
Fixpoint somewhere (p : string → bool) (s : string) : bool :=
  p s || match s with EmptyString => false | String _ s => somewhere p s end.

Definition _reject_doctype (text : string) : result fetch_error () :=
  let prolog := before_first element_start text in
  raise_if (somewhere (declares "doctype") prolog || somewhere (declares "entity") prolog)
    (FetchBlocked Doctype).

(** The payload of a parser: bytes, or text already decoded. *)
Inductive payload : Set := PBytes (b : string) | PStr (s : string).

Definition payload_len (d : payload) : Z := match d with PBytes b | PStr b => len b end.

(** [json.loads]: a value, a constant refused by [_reject_constant], or ValueError. *)
Inductive loaded (V : Type) : Type := Loaded (v : V) | ConstantRefused | LoadFailed.
Arguments Loaded {V} v.
Arguments ConstantRefused {V}.
Arguments LoadFailed {V}.

Inductive parse_error : Set := ParseFetch (e : fetch_error) | FetchParseError.

Definition parse_json_safely `{!World} {V} (loads : string → loaded V) (data : payload)
    (max_bytes_ max_depth : Z) : result parse_error V :=
  _ ← raise_if (max_bytes_ <? payload_len data) (ParseFetch (FetchTooLarge Payload));
  text ← match data with
         | PStr s => Ok s
         | PBytes b =>
             match decode b "utf-8" with
             | Decoded t => Ok t
             | _ => Err (ParseFetch (Raised ValueError))
             end
         end;
  _ ← raise_if (negb (_json_depth_ok text max_depth)) (ParseFetch (FetchBlocked JsonDepth));
  match loads text with
  | Loaded v => Ok v
  | ConstantRefused => Err (ParseFetch (FetchBlocked JsonConstant))
  | LoadFailed => Err FetchParseError
  end.

(** *** Reference: nesting is opens minus closes outside string literals *)
Fixpoint outside (in_string escaped : bool) (s : string) : list ascii :=
  match s with
  | EmptyString => []
  | String c s =>
      if in_string then
        outside (negb (negb escaped && is_quote c)) (negb escaped && (code c =? 92)) s
      else if is_quote c then outside true false s
      else c :: outside false false s
  end.

Definition weight (c : ascii) : Z :=
  if is_open c then 1 else if is_close c then -1 else 0.

Definition nesting (cs : list ascii) : Z := fold_right (λ c n, weight c + n) 0 cs.

Lemma json_scan_spec m d ins esc s :
  (esc = true → ins = true) → d ≤ m →
  json_scan m d ins esc s = true ↔ ∀ p, p `prefix_of` outside ins esc s → d + nesting p ≤ m.
Proof.
  revert d ins esc. induction s as [|c s IH]; intros d ins esc Hesc Hd; simpl.
  - split; [|done]. intros _ p Hp. apply prefix_nil_inv in Hp as ->. simpl. lia.
  - destruct ins.
    + destruct esc; simpl; [by apply IH|].
      destruct (code c =? 92) eqn:Hb; simpl.
      * assert (is_quote c = false) as -> by (unfold is_quote; apply Z.eqb_eq in Hb; apply Z.eqb_neq; lia).
        by apply IH.
      * destruct (is_quote c); simpl; by apply IH.
    + destruct esc; [by specialize (Hesc eq_refl)|].
      destruct (is_quote c); [by apply IH|].
      assert (∀ P : list ascii → Prop, (∀ p, p `prefix_of` c :: outside false false s → P p) ↔
        P [] ∧ ∀ p, p `prefix_of` outside false false s → P (c :: p)) as Hsplit.
      { intros P. split.
        - intros H. split; [apply H, prefix_nil|]. intros p Hp. apply H. by apply prefix_cons.
        - intros [H0 H] p Hp. destruct p as [|c' p]; [done|].
          apply prefix_cons_inv_1 in Hp as Heq. subst c'. apply H. by eapply prefix_cons_inv_2. }
      rewrite (Hsplit (λ p, d + nesting p ≤ m)). simpl. unfold weight.
      destruct (is_open c).
      * destruct (Z.ltb_spec m (d + 1)).
        -- split; [done|]. intros [_ Hp]. specialize (Hp [] ltac:(apply prefix_nil)). simpl in Hp. lia.
        -- rewrite IH by done || lia. split; [intros Hp; split; [lia|]|intros [_ Hp]];
             intros p Hpre; specialize (Hp p Hpre); lia.
      * destruct (is_close c);
          (rewrite IH by done || lia); (split; [intros Hp; split; [lia|]|intros [_ Hp]]);
          intros p Hpre; specialize (Hp p Hpre); lia.
Qed.

(** The one-pass depth guard is the reference condition: no prefix of the text,
    string literals left out, opens more than [max_depth] brackets it has not
    closed. *)
Theorem json_depth_reference (text : string) (max_depth : Z) :
  0 ≤ max_depth →
  _json_depth_ok text max_depth = true ↔
  ∀ p, p `prefix_of` outside false false text → nesting p ≤ max_depth.
Proof. intros Hm. unfold _json_depth_ok. by rewrite json_scan_spec. Qed.

(** *** The prolog guard *)
#[local] Arguments String.append : simpl nomatch.

Lemma split_dec (p : string → bool) a b :
  (∃ a1 a2, a = a1 +:+ a2 ∧ a2 ≠ EmptyString ∧ p (a2 +:+ b) = true) ∨
  (∀ a1 a2, a = a1 +:+ a2 → a2 ≠ EmptyString → p (a2 +:+ b) = false).
Proof.
  induction a as [|c a [(a1&a2&->&Hne&Hp)|IH]].
  - right. intros [|? ?] [|? ?]; done.
  - left. by exists (String c a1), a2.
  - destruct (p (String c a +:+ b)) eqn:Hp.
    + left. by exists EmptyString, (String c a).
    + right. intros [|x a1] a2 Heq Hne.
      * simpl in Heq. by subst a2.
      * simpl in Heq. injection Heq as -> Heq.
        by apply (IH a1 a2).
Qed.

Lemma before_first_keep p a b :
  (∀ a1 a2, a = a1 +:+ a2 → a2 ≠ EmptyString → p (a2 +:+ b) = false) →
  before_first p (a +:+ b) = a +:+ before_first p b.
Proof.
  induction a as [|c a IH]; simpl; intros H; [done|].
  pose proof (H EmptyString (String c a) eq_refl ltac:(done)) as Hc. simpl in Hc. rewrite Hc.
  f_equal. apply IH. intros a1 a2 -> Hne. by apply (H (String c a1) a2).
Qed.

Lemma somewhere_intro p a b : p b = true → somewhere p (a +:+ b) = true.
Proof.
  intros Hb. induction a as [|c a IH]; simpl.
  - destruct b; simpl; by rewrite Hb.
  - rewrite IH. apply orb_true_r.
Qed.

(** A name without [<], found after white space, is found in the cut text too. *)
Lemma cut_keeps_name name s :
  all_chars (λ c, negb (Ascii.eqb c "<")) name = true →
  starts_with name (lower s) = true →
  starts_with name (lower (before_first element_start s)) = true.
Proof.
  revert s. induction name as [|n name IH]; simpl; intros s Hn Hs; [done|].
  destruct s as [|c s]; simpl in Hs; [done|]. apply andb_true_iff in Hn as [Hn Hname].
  apply andb_true_iff in Hs as [Hc Hs].
  assert (element_start (String c s) = false) as Hel.
  { destruct (Ascii.eqb_spec c "<") as [->|Hne].
    - simpl in Hc. apply Ascii.eqb_eq in Hc as ->. done.
    - destruct c as [[] [] [] [] [] [] [] []]; done. }
  cbn [before_first]. rewrite Hel. simpl. rewrite Hc. by apply IH.
Qed.

Lemma cut_keeps_declaration name s :
  all_chars (λ c, negb (Ascii.eqb c "<")) name = true →
  starts_with name (lower (lstrip_chars is_space s)) = true →
  starts_with name (lower (lstrip_chars is_space (before_first element_start s))) = true.
Proof.
  intros Hn. induction s as [|c s IH]; intros Hs; [done|]. simpl in Hs.
  destruct (is_space c) eqn:Hsp.
  - assert (element_start (String c s) = false) as Hel.
    { destruct (Ascii.eqb_spec c "<") as [->|]; [done|]. destruct c as [[] [] [] [] [] [] [] []]; done. }
    cbn [before_first]. rewrite Hel. simpl. rewrite Hsp. by apply IH.
  - assert (starts_with name (lower (before_first element_start (String c s))) = true) as Hk
      by by apply cut_keeps_name.
    cbn [before_first] in *. destruct (element_start (String c s)); [done|].
    simpl. by rewrite Hsp.
Qed.

Lemma declares_cut name s :
  all_chars (λ c, negb (Ascii.eqb c "<")) name = true →
  declares name s = true → declares name (before_first element_start s) = true.
Proof.
  intros Hn Hs. destruct s as [|a [|b s]]; try done.
  - destruct a as [[] [] [] [] [] [] [] []]; done.
  - assert (a = "<"%char ∧ b = "!"%char) as [-> ->].
    { destruct a as [[] [] [] [] [] [] [] []]; try done.
      destruct b as [[] [] [] [] [] [] [] []]; done. }
    change (before_first element_start (String "<" (String "!" s)))
      with (String "<" (String "!" (before_first element_start s))). simpl in Hs |- *.
    by apply cut_keeps_declaration.
Qed.

(** A document that passes the guard declares no DTD and no entity before its
    first element: wherever [<!DOCTYPE] or [<!ENTITY] occurs in it, in any case and
    with any spacing, an element has already started. *)
Theorem reject_doctype_sound (text before rest : string) (name : string) :
  _reject_doctype text = Ok () →
  name = "doctype" ∨ name = "entity" →
  text = before +:+ rest → declares name rest = true →
  ∃ b1 b2, before = b1 +:+ b2 ∧ b2 ≠ EmptyString ∧ element_start (b2 +:+ rest) = true.
Proof.
  intros Hok Hname -> Hd.
  destruct (split_dec element_start before rest) as [H|H]; [done|exfalso].
  unfold _reject_doctype in Hok. apply raise_if_Ok in Hok. apply orb_false_iff in Hok as [H1 H2].
  rewrite before_first_keep in H1, H2 by done.
  assert (somewhere (declares name) (before +:+ before_first element_start rest) = true) as Hs.
  { apply somewhere_intro, declares_cut; [|done]. by destruct Hname as [->| ->]. }
  destruct Hname as [->| ->]; congruence.
Qed.

(** ** The address classes *)

(** Outside the private, loopback, link-local, shared, multicast and reserved ranges. *)
Definition v4_public (n : Z) : Prop :=
  ¬ (quad 10 0 0 0 ≤ n ≤ quad 10 255 255 255) ∧
  ¬ (quad 127 0 0 0 ≤ n ≤ quad 127 255 255 255) ∧
  ¬ (quad 169 254 0 0 ≤ n ≤ quad 169 254 255 255) ∧
  ¬ (quad 172 16 0 0 ≤ n ≤ quad 172 31 255 255) ∧
  ¬ (quad 192 168 0 0 ≤ n ≤ quad 192 168 255 255) ∧
  ¬ (quad 100 64 0 0 ≤ n ≤ quad 100 127 255 255) ∧
  ¬ (quad 224 0 0 0 ≤ n ≤ quad 255 255 255 255).

Lemma in_nets_false n net nets : in_nets n nets = false → net ∈ nets → in_net n net = false.
Proof.
  intros H Hin. apply not_true_iff_false. intros Hn. apply not_true_iff_false in H. apply H.
  apply existsb_exists. exists net. split; [by apply list_elem_of_In|done].
Qed.

Lemma v4_ranges n :
  is_multicast (V4 n) = false → is_private (V4 n) = false → is_reserved (V4 n) = false →
  is_global (V4 n) = true → v4_public n.
Proof.
  intros Hm Hp Hr Hg. unfold is_global in Hg. rewrite Hp, andb_true_r in Hg.
  apply negb_true_iff in Hg. unfold is_private in Hp. apply andb_false_iff in Hp as [Hp|Hp].
  - pose proof (in_nets_false n (net4 10 0 0 0 8) _ Hp ltac:(by_decide)) as H1.
    pose proof (in_nets_false n (net4 127 0 0 0 8) _ Hp ltac:(by_decide)) as H2.
    pose proof (in_nets_false n (net4 169 254 0 0 16) _ Hp ltac:(by_decide)) as H3.
    pose proof (in_nets_false n (net4 172 16 0 0 12) _ Hp ltac:(by_decide)) as H4.
    pose proof (in_nets_false n (net4 192 168 0 0 16) _ Hp ltac:(by_decide)) as H5.
    clear Hp. unfold is_multicast, is_reserved, MULTICAST4, RESERVED4, SHARED4, in_net, net4, quad in *.
    cbn in *. rewrite ?andb_false_iff, ?Z.leb_gt, ?Z.ltb_ge in *. unfold v4_public, quad. lia.
  - apply negb_false_iff in Hp. unfold in_nets, PRIVATE4_EXCEPTIONS, in_net, net4, quad in Hp.
    cbn in Hp. rewrite !orb_true_iff, !andb_true_iff, !Z.leb_le, !Z.ltb_lt in Hp.
    unfold v4_public, quad. lia.
Qed.

(** An address that is let through is a global unicast address: it parses, and
    (an IPv4-mapped IPv6 address being judged as the IPv4 address it hides) it is not
    unspecified, loopback, link-local, multicast, private or reserved; for IPv4, it
    lies outside every range of the two tables and of the shared address space. *)
Theorem classify_public (raw : string) :
  _classify_address raw = None →
  ∃ a, ip_address raw = Some a ∧
    let a := default a (ipv4_mapped a) in
    is_global a = true ∧ is_unspecified a = false ∧ is_loopback a = false ∧
    is_link_local a = false ∧ is_multicast a = false ∧ is_private a = false ∧ is_reserved a = false ∧
    ∀ n, a = V4 n → v4_public n.
Proof.
  unfold _classify_address. destruct (ip_address raw) as [a0|]; [|done]. intros H.
  exists a0. split; [done|]. cbv zeta in *. set (a := default a0 (ipv4_mapped a0)) in *. clearbody a.
  destruct (is_unspecified a) eqn:H1; [done|]. destruct (is_loopback a) eqn:H2; [done|].
  destruct (is_link_local a) eqn:H3; [done|]. destruct (is_multicast a) eqn:H4; [done|].
  destruct (is_private a) eqn:H5; [done|]. destruct (is_reserved a) eqn:H6; [done|].
  destruct (is_global a) eqn:H7; [|done].
  assert (∀ n, a = V4 n → v4_public n) as Hv4.
  { intros n ->. by apply v4_ranges. }
  by split_and!.
Qed.

(** ** What a requested URL is, in its own terms *)

(** [host] is the form names are compared in: trailing dots and surrounding blanks
    cut, in lower case, and encoded when it is not ASCII and can be. *)
Definition names_host `{!UrlLib} (written host : string) : Prop :=
  ∃ core dots, strip written = core +:+ dots ∧ all_chars (Ascii.eqb ".") dots = true
  ∧ (∀ body, core ≠ body +:+ ".")
  ∧ host = if isascii (lower core) then lower core else default (lower core) (idna (lower core)).

(** An entry of the allowlist admits its own host, and, written with a leading dot,
    the domain after the dot and everything below it. *)
Definition admits `{!UrlLib} (entry host : string) : Prop :=
  ∃ candidate, names_host entry candidate ∧ candidate ≠ EmptyString
  ∧ (candidate = host
     ∨ ∃ domain, candidate = String "." domain ∧ (host = domain ∨ ∃ below, host = below +:+ candidate)).

(** A global unicast address, an IPv4 address hidden in IPv6 being judged as itself. *)
Definition public_address (raw : string) : Prop :=
  ∃ a, ip_address raw = Some a ∧
    let a := default a (ipv4_mapped a) in
    is_global a = true ∧ is_unspecified a = false ∧ is_loopback a = false ∧
    is_link_local a = false ∧ is_multicast a = false ∧ is_private a = false ∧ is_reserved a = false ∧
    ∀ n, a = V4 n → v4_public n.

Definition unset (o : option string) : Prop := o = None ∨ o = Some EmptyString.

(** What the parts of a URL must be for a request to go to [host]. *)
Record acceptable `{!UrlLib} (allowed : list string) (policy : FetchPolicy) (parts : SplitResult)
    (host : string) : Prop := {
  ac_https : lower (scheme parts) = "https";
  ac_no_credentials : unset (userinfo parts).1 ∧ unset (userinfo parts).2;
  ac_host : names_host (default EmptyString (hostname parts)) host ∧ host ≠ EmptyString;
  ac_allowed : ∃ entry, entry ∈ allowed ∧ admits entry host;
  ac_port : port parts = Ok None ∨ ∃ p, port parts = Ok (Some p) ∧ p ∈ allowed_ports policy;
  ac_literal : is_Some (ip_address host) → allow_ip_literals policy = true;
}.

Definition acceptable_url `{!UrlLib} (allowed : list string) (policy : FetchPolicy) (url host : string)
    : Prop :=
  ∃ parts, urlsplit (strip url) = Ok parts ∧ acceptable allowed policy parts host.

(** The addresses a request to [host] was vetted with: its own literal, or an
    answer of the resolver that is already in the trace. *)
Definition addresses_of (before : trace) (host : string) (ips : list string) : Prop :=
  ips ≠ [] ∧ (if ip_address host then ips = [host] else ELookup host (Some ips) ∈ before).

Definition carries_credentials (h : headers) : Prop :=
  ∃ kv, kv ∈ h ∧ lower kv.1 ∈ ["authorization"; "cookie"; "proxy-authorization"].

Lemma rstrip_chars_split p s :
  ∃ d, s = rstrip_chars p s +:+ d ∧ all_chars p d = true.
Proof.
  induction s as [|c s (d&Hs&Hd)]; [by exists EmptyString|]. simpl.
  destruct (rstrip_chars p s) as [|c' r] eqn:Hr.
  - simpl in Hs. subst d. destruct (p c) eqn:Hc; [|by exists s].
    exists (String c s). simpl. by rewrite Hc.
  - exists d. split; [|done]. simpl. by rewrite Hs.
Qed.

Lemma rstrip_chars_end p s body c :
  rstrip_chars p s = body +:+ String c EmptyString → p c = false.
Proof.
  revert body. induction s as [|c' s IH]; intros body; simpl; [by destruct body|].
  destruct (rstrip_chars p s) as [|c2 r].
  - destruct (p c') eqn:Hc; [by destruct body|]. destruct body as [|b body]; simpl; [by intros [= <-]|].
    by destruct body.
  - destruct body as [|b body]; simpl; [by intros [=]|]. intros [= _ Hb]. by apply (IH body).
Qed.

Lemma normalize_names `{!UrlLib} w : names_host w (_normalize_host w).
Proof.
  unfold names_host, _normalize_host, strip_dots.
  destruct (rstrip_chars_split (Ascii.eqb ".") (strip w)) as (d&Hs&Hd).
  eexists _, d. split_and!; [exact Hs|done| |done].
  intros body Hb. by apply rstrip_chars_end in Hb.
Qed.

Lemma ends_with_split suffix s : ends_with suffix s = true → ∃ a, s = a +:+ suffix.
Proof.
  induction s as [|c s IH]; simpl; rewrite orb_true_iff, String.eqb_eq.
  - intros [->|?]; [by exists EmptyString|done].
  - intros [->|H]; [by exists EmptyString|]. destruct (IH H) as [a ->]. by exists (String c a).
Qed.

Lemma host_matches_admits `{!UrlLib} entry host :
  host_matches host (_normalize_host entry) = true → admits entry host.
Proof.
  unfold host_matches, admits. intros Hm. exists (_normalize_host entry).
  split; [apply normalize_names|]. destruct (String.eqb_spec (_normalize_host entry) EmptyString) as [|Hne]; [done|].
  split; [done|]. destruct (_normalize_host entry) as [|c domain]; [done|].
  destruct (starts_with "." (String c domain)) eqn:Hdot; [|left; by apply String.eqb_eq in Hm].
  cbn [starts_with] in Hdot. rewrite andb_true_r in Hdot. apply Ascii.eqb_eq in Hdot as <-. right.
  exists domain. split; [done|]. simpl drop_chars in Hm.
  apply orb_true_iff in Hm as [Hm%String.eqb_eq|Hm]; [by left|right]. by apply ends_with_split.
Qed.

Lemma blank_of o : match o with Some s => negb (String.eqb s EmptyString) | None => false end = false → unset o.
Proof. destruct o as [s|]; [|by left]. intros H%negb_false_iff%String.eqb_eq. subst. by right. Qed.

Lemma literal_iff host :
  match _classify_address host with
  | Some why => negb (String.eqb why "not an IP address")
  | None => true
  end = bool_decide (is_Some (ip_address host)).
Proof.
  unfold _classify_address. destruct (ip_address host) as [a|]; [|done].
  rewrite bool_decide_eq_true_2 by done. by repeat case_match; simplify_eq.
Qed.

Lemma check_url_acceptable `{!UrlLib} allowed policy url host lit :
  check_url url allowed policy = Ok (host, lit) →
  acceptable_url allowed policy url host ∧ lit = bool_decide (is_Some (ip_address host)).
Proof.
  unfold check_url, acceptable_url. destruct (urlsplit (strip url)) as [parts|]; [|done].
  destruct (userinfo parts) as [user pass] eqn:Hu. intros Hc. cbv zeta in Hc. rewrite literal_iff in Hc.
  apply bind_Ok in Hc as ([]&Hs%raise_if_Ok%negb_false_iff&Hc).
  apply bind_Ok in Hc as ([]&[Hn Hp]%raise_if_Ok%orb_false_iff&Hc).
  apply bind_Ok in Hc as ([]&He%raise_if_Ok&Hc). apply bind_Ok in Hc as ([]&Ha%raise_if_Ok%negb_false_iff&Hc).
  apply bind_Ok in Hc as (port_&Hport&Hc). apply bind_Ok in Hc as ([]&Hin%raise_if_Ok&Hc).
  apply bind_Ok in Hc as ([]&Hl%raise_if_Ok&Hc). injection Hc as <- <-.
  split; [|done]. exists parts. split; [done|]. constructor.
  - by apply String.eqb_eq.
  - rewrite Hu. split; by apply blank_of.
  - split; [apply normalize_names|]. by apply String.eqb_neq.
  - unfold _host_allowed in Ha. apply existsb_exists in Ha as (e&Hine%list_elem_of_In&Hm).
    exists e. split; [done|]. by apply host_matches_admits.
  - destruct (port parts) as [[p|]|]; [right|by left|done]; injection Hport as <-.
    exists p. split; [done|]. apply negb_false_iff in Hin. by apply in_zs_elem.
  - intros Hi. rewrite bool_decide_eq_true_2 in Hl by done. simpl in Hl. by apply negb_false_iff in Hl.
Qed.

Lemma vetted_addresses `{!UrlLib} allowed policy before url host :
  vetted allowed policy before url host →
  acceptable_url allowed policy url host
  ∧ ∃ ips, addresses_of before host ips ∧ Forall public_address ips.
Proof.
  intros (lit&ips&[Hu ->]%check_url_acceptable&Hne&Hp&Hl). split; [done|]. exists ips. split.
  - split; [done|]. by destruct (ip_address host).
  - eapply Forall_impl; [exact Hp|]. exact classify_public.
Qed.

Lemma has_credentials_iff h : carries_credentials h → has_credentials h = true.
Proof.
  intros (kv&Hin&Hk). unfold has_credentials. apply existsb_exists. exists kv.
  split; [by apply list_elem_of_In|]. unfold is_credential, in_strs. apply existsb_exists.
  exists (lower kv.1). split; [by apply list_elem_of_In|]. apply String.eqb_refl.
Qed.

(** C4. Every request of a fetch, on every redirect hop of every attempt and
    whatever the network and the resolver answer: the scheme is https, there is no
    user name or password, the host is one an entry of the allowlist admits, the
    port is the default or an allowed one; the addresses the host was vetted with,
    its own literal where the policy allows one or else an answer the resolver
    gave before the request, are there and all public; and a header that carries
    credentials goes only to the host of the URL that was asked for. *)
Theorem fetch_vets_every_request {UL : UrlLib} {W : World} (allowed : list string)
    (policy : FetchPolicy) (url : string) (extra : headers)
    (before : trace) (target : string) (h : headers) (after : trace) :
  fst (fetch url allowed policy extra []) = before ++ ERequest target h :: after →
  ∃ host ips, acceptable_url allowed policy target host
  ∧ addresses_of before host ips ∧ Forall public_address ips
  ∧ (carries_credentials h → acceptable_url allowed policy url host).
Proof.
  pose proof (fetch_spec allowed policy url extra) as Hs.
  destruct (fetch url allowed policy extra []) as [tr res]. intros Htr.
  destruct Hs as (Hg&_). destruct (Hg before target h after Htr) as (host&Hv&Hc).
  apply vetted_addresses in Hv as (Hu&ips&Hips&Hp). exists host, ips. split_and!; [done..|].
  intros [l Hl]%has_credentials_iff%Hc. by apply check_url_acceptable in Hl as [? _].
Qed.

(** ** Concrete runs *)
Definition demo_response (st : Z) (h : list (string * string)) (body : list (string * Z)) : Response :=
  {| status := st; header := λ k, assoc k h; chunks := λ _, body; breaks_off := None;
     num_bytes_downloaded := List.last (snd <$> body) 0 |}.

Definition demo_ok : Response :=
  demo_response 200 [("content-type", "text/xml; charset=UTF-8")] [("<rss/>", 6)].

(** The first request is redirected to another host, the second is answered. *)
#[local] Instance demo_world : World :=
  {| resolver := λ _ _, Some ["93.184.216.34"];
     network := λ _ url _,
       if String.eqb url "https://a.example/f"
       then inl (demo_response 302 [("location", "https://b.example/g")] [])
       else if String.eqb url "https://down.example/" then inr TransportTimeout
       else inl demo_ok;
     monotonic := λ _, fzero;
     clock := λ _, 0;
     urljoin := λ _ l, Ok l;
     decode := λ b _, Decoded b |}.

Definition demo_headers : headers := [("Authorization", "Bearer x"); ("If-None-Match", "e")].

Definition demo_fetch (url : string) : trace * result fetch_error FetchResult :=
  fetch url ["a.example"; ".example"] DEFAULT_POLICY demo_headers [].

Example fetch_1 :
  omap (λ e, match e with ERequest u h => Some (u, has_credentials h) | _ => None end)
    (fst (demo_fetch "https://a.example/f"))
  = [("https://a.example/f", true); ("https://b.example/g", false)].
Proof. vm_compute. reflexivity. Qed.

Example fetch_2 :
  match snd (demo_fetch "https://a.example/f") with
  | Ok r => (fr_url r, status_code r, text r, charset r, redirect_chain r)
  | Err _ => (EmptyString, 0, EmptyString, EmptyString, [])
  end = ("https://b.example/g", 200, "<rss/>", "utf-8", ["https://a.example/f"; "https://b.example/g"]).
Proof. vm_compute. reflexivity. Qed.

Example fetch_3 : demo_fetch "https://other.org/f" =
  ([EEnd (Some (FetchBlocked NotAllowlisted))], Err (FetchBlocked NotAllowlisted)).
Proof. vm_compute. reflexivity. Qed.

Example fetch_4 :
  (requests (fst (demo_fetch "https://down.example/")), ends (fst (demo_fetch "https://down.example/")),
   is_ok (snd (demo_fetch "https://down.example/")))
  = (3%nat, [Some HttpxTimeout; Some HttpxTimeout; Some HttpxTimeout], false).
Proof. vm_compute. reflexivity. Qed.

(** An unbalanced bracket in the URL (or in a Location header, which [urljoin]
    rejects the same way) raises the ValueError of [urlsplit]: it is not one of the
    [FetchError] classes. *)
Example fetch_escapes : snd (demo_fetch "https://[::1") = Err (Raised ValueError).
Proof. vm_compute. reflexivity. Qed.

Fixpoint nines (n : nat) : string := match n with O => EmptyString | S n => String "9" (nines n) end.

(** So does a Content-Length of more digits than [int] accepts. *)
Example length_escapes :
  _read_capped (demo_response 200 [("content-length", nines 4301)] []) DEFAULT_POLICY
  = Err (Raised ValueError).
Proof. vm_compute. reflexivity. Qed.

Definition dquote : string := String (ascii_of_nat 34) EmptyString.

Example json_1 :
  (λ s, _json_depth_ok s 2) <$>
    ["[[1]]"; "[[[1]]]"; "{" +:+ dquote +:+ "a" +:+ dquote +:+ ": " +:+ dquote +:+ "[[[" +:+ dquote +:+ "}"]
  = [true; false; true].
Proof. vm_compute. reflexivity. Qed.

Lemma fetch_vets_every_request_witness :
  ∃ before h after host ips,
    fst (demo_fetch "https://a.example/f") = before ++ ERequest "https://b.example/g" h :: after
    ∧ acceptable_url ["a.example"; ".example"] DEFAULT_POLICY "https://b.example/g" host
    ∧ addresses_of before host ips ∧ Forall public_address ips.
Proof.
  assert (∃ before h after, fst (demo_fetch "https://a.example/f") =
            before ++ ERequest "https://b.example/g" h :: after) as (b&h&a&Heq).
  { eexists (take 3 (fst (demo_fetch "https://a.example/f"))), _, (drop 4 (fst (demo_fetch "https://a.example/f"))).
    vm_compute. reflexivity. }
  destruct (fetch_vets_every_request ["a.example"; ".example"] DEFAULT_POLICY "https://a.example/f"
           demo_headers b _ h a Heq) as (host&ips&Hu&Hi&Hp&_).
  by exists b, h, a, host, ips.
Defined.

Lemma fetch_error_classes_witness :
  ∃ e, snd (demo_fetch "https://[::1") = Err e ∧ ∃ x, e = Raised x.
Proof.
  exists (Raised ValueError). split; [vm_compute; reflexivity|].
  destruct (fetch_error_classes ["a.example"; ".example"] DEFAULT_POLICY "https://[::1" demo_headers
              (Raised ValueError) ltac:(vm_compute; reflexivity))
    as [(w&[=])|[(w&[=])|[[=]|[(s&r&[=])|H]]]]. exact H.
Defined.

Lemma json_depth_reference_witness :
  0 ≤ 2 ∧ (_json_depth_ok "[[1]]" 2 = true ↔
           ∀ p, p `prefix_of` outside false false "[[1]]" → nesting p ≤ 2).
Proof. split; [lia|]. apply (json_depth_reference "[[1]]" 2). lia. Defined.

Definition demo_xml : string := "<rss><![CDATA[<!DOCTYPE x>]]></rss>".

Lemma reject_doctype_sound_witness :
  _reject_doctype demo_xml = Ok () ∧
  ∃ b1 b2, b2 ≠ EmptyString ∧ "<rss><![CDATA[" = b1 +:+ b2 ∧
           element_start (b2 +:+ "<!DOCTYPE x>]]></rss>") = true.
Proof.
  split; [reflexivity|].
  destruct (reject_doctype_sound demo_xml "<rss><![CDATA[" "<!DOCTYPE x>]]></rss>" "doctype"
              eq_refl (or_introl eq_refl) eq_refl eq_refl) as (b1&b2&H1&H2&H3).
  by exists b1, b2.
Defined.

Example doctype_refused :
  _reject_doctype "<?xml version='1.0'?> <! doctype x [<!ENTITY a 'b'>]><x/>" = Err (FetchBlocked Doctype).
Proof. reflexivity. Qed.

Lemma classify_public_witness :
  _classify_address "::ffff:93.184.216.34" = None ∧ ∃ a, ip_address "::ffff:93.184.216.34" = Some a.
Proof.
  split; [vm_compute; reflexivity|].
  destruct (classify_public "::ffff:93.184.216.34" ltac:(vm_compute; reflexivity)) as (a&Ha&_).
  by exists a.
Defined.

Example classify_1 :
  (λ a, bool_decide (_classify_address a = None)) <$>
    ["93.184.216.34"; "169.254.169.254"; "::ffff:10.0.0.1"; "100.64.0.1"; "fe80::1"; "2606:4700::1"; "0.0.0.0"]
  = [true; false; false; false; false; true; false].
Proof. vm_compute. reflexivity. Qed.
