(* ===== verification/PyJson.v ===== *)
(** * Parsed JSON, as [json.load] returns it

    A document is a tree; an object is its list of items in order, with distinct
    keys.  [json.load] accepts the non-standard constants NaN and Infinity, so
    a [JFloat] may be either. *)
From S2P Require Import Prelude PyFloat PyText.
Local Open Scope string_scope.
Local Open Scope Z_scope.

Inductive json : Set :=
| JNull
| JBool (b : bool)
| JInt (n : Z)
| JFloat (f : float)
| JStr (s : string)
| JArr (l : list json)
| JObj (items : list (string * json)).

(** [row.get(key)]: [None] for a missing key and for a JSON null. *)
Definition jget (key : string) (items : list (string * json)) : json :=
  default JNull (assoc key items).

Definition has_key (key : string) (items : list (string * json)) : bool :=
  match assoc key items with Some _ => true | None => false end.

(** [int(v)] *)
Definition py_int_of (v : json) : result pyerr Z :=
  match v with
  | JBool b => Ok (if b then 1 else 0)
  | JInt n => Ok n
  | JFloat f => int_of_float f
  | JStr s => py_int s
  | JNull | JArr _ | JObj _ => Err TypeError
  end.

(** [isinstance(v, bool) or not isinstance(v, (int, float))] is the refusal;
    otherwise [float(v)]. *)
Definition json_number (v : json) : option (result pyerr float) :=
  match v with
  | JInt n => Some (py_float_of_int n)
  | JFloat f => Some (Ok f)
  | _ => None
  end.

(** [str(v)].  The text of a float or a container is the interpreter's [repr],
    a parameter; nothing here depends on what it is. *)
Definition py_str (repr : json → string) (v : json) : string :=
  match v with
  | JNull => "None"
  | JBool true => "True"
  | JBool false => "False"
  | JInt n => str_of_Z n
  | JStr s => s
  | JFloat _ | JArr _ | JObj _ => repr v
  end.

(** [bool(v)] *)
Definition truthy (v : json) : bool :=
  match v with
  | JNull => false
  | JBool b => b
  | JInt n => negb (n =? 0)
  | JFloat f => negb (feq f fzero)
  | JStr s => negb (String.eqb s EmptyString)
  | JArr l => match l with [] => false | _ => true end
  | JObj o => match o with [] => false | _ => true end
  end.
