(* ===== verification/MarketHours.v ===== *)
(** * Market calendars and freshness

    [app/core/market_hours.py] (the three trading calendars, the start of the
    current closure, the market-hours-aware freshness rule) and
    [app/core/freshness.py] (the plain age rule).

    Instants are microseconds on the UTC clock; the Asia/Tehran zone is the
    parameter [TEHRAN].  The theorems show that the loop that looks for the
    start of a closure always finds it, that the market is closed at every
    moment from there to now and was open just before, and that the freshness
    rule is monotone and only ever extends the plain age rule. *)
From S2P Require Import Prelude PyFloat PyTime PyText.
From Stdlib Require Import Ascii.
Local Open Scope string_scope.
Local Open Scope Z_scope.

Definition THURSDAY : Z := 3.
Definition FRIDAY : Z := 4.

Definition ALWAYS_OPEN_SYMBOLS : list string := ["IR_GOLD_18K"; "USD_IRT"].

Definition IRANIAN_SYMBOLS : list string :=
  ["IR_COIN_EMAMI"; "IR_SILVER_999"; "IR_COIN_BAHAR"; "IR_COIN_HALF";
   "IR_COIN_QUARTER"; "IR_COIN_GERAMI"; "IR_GOLD_24K"; "IR_GOLD_MESGHAL"].

Definition GLOBAL_SYMBOLS : list string :=
  ["XAUUSD"; "XAGUSD"; "BRENT_OIL"; "DXY"; "US10Y"].

Definition SOURCE_TGJU_HISTORY : string := "tgju_history".
Definition SOURCE_TSETMC_CLOSES : string := "tsetmc_cdn".

Definition TGJU_DAILY_CLOSES : list string :=
  ["IR_SILVER_999"; "IR_COIN_BAHAR"; "IR_COIN_HALF"; "IR_COIN_QUARTER";
   "IR_COIN_GERAMI"; "IR_GOLD_24K"; "IR_GOLD_MESGHAL"].

Definition WEEKLY_FETCH_CLOSES : list string :=
  ["IR_SILVER_FUND_SILVER"; "IR_SILVER_FUND_SIMIN"; "IR_GOLD_FUND_KAHRABA"].

Definition DAILY_CLOSE_ONLY : list string := (TGJU_DAILY_CLOSES ++ WEEKLY_FETCH_CLOSES)%list.

Definition DAILY_CLOSE_STALE_DAYS : Z := 4.
Definition WEEKLY_FETCH_STALE_DAYS : Z := 10.

(** [time(h, m)] as microseconds after midnight. *)
Definition clock (h m : Z) : Z := h * us_hour + m * us_minute.

Definition GLOBAL_CLOSE_UTC : Z := clock 21 0.
Definition GLOBAL_OPEN_UTC : Z := clock 22 0.

(** [symbol in {...}] *)
Definition mem (s : string) (l : list string) : bool := existsb (String.eqb s) l.
#[global] Arguments mem : simpl never.

(** The [Settings] fields these modules read. *)
Record Settings : Set := {
  stale_minutes : Z;
  market_tehran_open : string;
  market_tehran_close : string;
  market_tse_open : string;
  market_tse_close : string;
}.

(** [IR_<something>_FUND...] *)
Definition is_tse_fund (symbol : string) : bool :=
  match split "_"%char symbol with
  | p0 :: _ :: p2 :: _ => String.eqb p0 "IR" && String.eqb p2 "FUND"
  | _ => false
  end.

Definition mk_time (hh mm : Z) : result pyerr Z :=
  if (0 <=? hh) && (hh <=? 23) && (0 <=? mm) && (mm <=? 59)
  then Ok (clock hh mm) else Err ValueError.

(** Any parse failure falls back to the default. *)
Definition _parse_hhmm (raw : string) (default : Z) : Z :=
  match split ":"%char (strip raw) with
  | [hh; mm] =>
      match (h ← py_int hh; m ← py_int mm; mk_time h m) with
      | Ok t => t
      | Err _ => default
      end
  | _ => default
  end.

(** A daily window on the Tehran clock, Saturday to Wednesday. *)
Definition off_day (d : date) : bool := (weekday d =? THURSDAY) || (weekday d =? FRIDAY).

Section Tehran.
Context (TEHRAN : tzinfo).

Definition is_market_open (symbol : string) (at_utc : instant) (s : Settings) : bool :=
  if mem symbol ALWAYS_OPEN_SYMBOLS then true
  else if is_tse_fund symbol then
    let local := to_wall TEHRAN at_utc in
    if off_day (date_of local) then false
    else
      let open_t := _parse_hhmm (market_tse_open s) (clock 12 0) in
      let close_t := _parse_hhmm (market_tse_close s) (clock 18 0) in
      (open_t <=? time_of local) && (time_of local <? close_t)
  else if mem symbol IRANIAN_SYMBOLS then
    let local := to_wall TEHRAN at_utc in
    if off_day (date_of local) then false
    else
      let open_t := _parse_hhmm (market_tehran_open s) (clock 12 0) in
      let close_t := _parse_hhmm (market_tehran_close s) (clock 20 0) in
      (open_t <=? time_of local) && (time_of local <? close_t)
  else if mem symbol GLOBAL_SYMBOLS then
    let wd := weekday (date_of at_utc) in
    if (wd =? FRIDAY) && (GLOBAL_CLOSE_UTC <=? time_of at_utc) then false
    else if wd =? 5 then false
    else if (wd =? 6) && (time_of at_utc <? GLOBAL_OPEN_UTC) then false
    else true
  else true.

(** [for days_back in range(...)]: the most recent close on the wall clock
    that is not in the future, skipping Thursdays and Fridays.  [local] and
    the candidate carry the same zone, so Python compares wall clocks. *)
Fixpoint last_close (fuel : nat) (days_back local close_t : Z) : option instant :=
  match fuel with
  | O => None
  | S fuel =>
      let day := date_of (local - days_back * us_day) in
      if off_day day then last_close fuel (days_back + 1) local close_t
      else
        let candidate := combine day close_t in
        if candidate <=? local then Some (of_wall TEHRAN candidate)
        else last_close fuel (days_back + 1) local close_t
  end.

Definition closure_started_at (symbol : string) (at_utc : instant) (s : Settings)
    : option instant :=
  if is_market_open symbol at_utc s then None
  else if is_tse_fund symbol then
    let close_t := _parse_hhmm (market_tse_close s) (clock 18 0) in
    match last_close 9 0 (to_wall TEHRAN at_utc) close_t with
    | Some t => Some t
    | None => Some at_utc
    end
  else if mem symbol IRANIAN_SYMBOLS then
    let close_t := _parse_hhmm (market_tehran_close s) (clock 20 0) in
    match last_close 9 0 (to_wall TEHRAN at_utc) close_t with
    | Some t => Some t
    | None => Some at_utc
    end
  else if mem symbol GLOBAL_SYMBOLS then
    let days_back := (weekday (date_of at_utc) - FRIDAY) mod 7 in
    let candidate := combine (date_of (at_utc - days_back * us_day)) GLOBAL_CLOSE_UTC in
    Some (if at_utc <? candidate then candidate - 7 * us_day else candidate)
  else None.

Definition daily_close_max_age (symbol : string) (source : option string) : option Z :=
  if negb (mem symbol DAILY_CLOSE_ONLY) then None
  else
    let fallback :=
      if mem symbol WEEKLY_FETCH_CLOSES
      then WEEKLY_FETCH_STALE_DAYS else DAILY_CLOSE_STALE_DAYS in
    match source with
    | None => Some fallback
    | Some src =>
        if String.eqb src SOURCE_TGJU_HISTORY then Some DAILY_CLOSE_STALE_DAYS
        else if String.eqb src SOURCE_TSETMC_CLOSES then Some WEEKLY_FETCH_STALE_DAYS
        else if String.eqb src "" then Some fallback
        else None
    end.

Definition is_acceptably_fresh (symbol : string) (observed_at : option datetime)
    (at_utc : datetime) (s : Settings) (source : option string) : bool :=
  match observed_at with
  | None => false
  | Some observed_at =>
      let observed_at := to_utc observed_at in
      let at_utc := to_utc at_utc in
      match daily_close_max_age symbol source with
      | Some max_age =>
          let age_days := date_of (to_wall TEHRAN at_utc) - date_of observed_at in
          age_days <=? max_age
      | None =>
          let tolerance := stale_minutes s * us_minute in
          match closure_started_at symbol at_utc s with
          | None => at_utc - observed_at <=? tolerance
          | Some closure_start => closure_start - tolerance <=? observed_at
          end
      end
  end.
End Tehran.
#[global] Arguments last_close : simpl never.

(** core/freshness.py *)
Definition is_fresh (observed_at : option datetime) (stale : Z) (now : instant) : bool :=
  match observed_at with
  | None => false
  | Some observed_at => now - to_utc observed_at <=? stale * us_minute
  end.

Definition staleness_minutes (observed_at : option datetime) (now : instant)
    : option float :=
  match observed_at with
  | None => None
  | Some observed_at =>
      Some (fdiv_ieee (total_seconds (now - to_utc observed_at)) (float_of_Z 60))
  end.

(** ** Windows: what [is_market_open] is on each calendar *)
Definition window_open (open_t close_t w : Z) : bool :=
  negb (off_day (date_of w)) && (open_t <=? time_of w) && (time_of w <? close_t).

(** The daily window of a symbol traded on the Tehran clock. *)
Definition tehran_window (symbol : string) (s : Settings) : option (Z * Z) :=
  if mem symbol ALWAYS_OPEN_SYMBOLS then None
  else if is_tse_fund symbol then
    Some (_parse_hhmm (market_tse_open s) (clock 12 0),
          _parse_hhmm (market_tse_close s) (clock 18 0))
  else if mem symbol IRANIAN_SYMBOLS then
    Some (_parse_hhmm (market_tehran_open s) (clock 12 0),
          _parse_hhmm (market_tehran_close s) (clock 20 0))
  else None.

Definition on_global_calendar (symbol : string) : bool :=
  negb (mem symbol ALWAYS_OPEN_SYMBOLS) && negb (is_tse_fund symbol)
  && negb (mem symbol IRANIAN_SYMBOLS) && mem symbol GLOBAL_SYMBOLS.

(** Friday 21:00 UTC to Sunday 22:00 UTC. *)
Definition global_open (t : instant) : bool :=
  let wd := weekday (date_of t) in
  negb ((wd =? 4) && (GLOBAL_CLOSE_UTC <=? time_of t) || (wd =? 5)
        || (wd =? 6) && (time_of t <? GLOBAL_OPEN_UTC)).

Lemma parse_hhmm_range raw default :
  0 ≤ default < us_day → 0 ≤ _parse_hhmm raw default < us_day.
Proof.
  intros Hd. unfold _parse_hhmm. destruct (split _ _) as [|hh [|mm [|]]]; try done.
  destruct (h ← py_int hh; m ← py_int mm; mk_time h m) as [t|] eqn:Ht; [|done].
  inv_ok. unfold mk_time in Ht. destruct (_ && _) eqn:Hb in Ht; [|done]. inv_ok. bool_to_prop.
  unfold clock. unfold_time. lia.
Qed.

Lemma tehran_window_range symbol s o c :
  tehran_window symbol s = Some (o, c) → 0 ≤ o < us_day ∧ 0 ≤ c < us_day.
Proof.
  unfold tehran_window. repeat destruct_if; intros [= <- <-];
    split; apply parse_hhmm_range; unfold clock; unfold_time; lia.
Qed.

Section Theorems.
Context (TEHRAN : tzinfo).
Abbreviation open_at := (is_market_open TEHRAN).
Abbreviation closed_since := (closure_started_at TEHRAN).

Lemma is_market_open_window symbol s t :
  open_at symbol t s =
  match tehran_window symbol s with
  | Some (o, c) => window_open o c (to_wall TEHRAN t)
  | None => if on_global_calendar symbol then global_open t else true
  end.
Proof.
  unfold is_market_open, tehran_window, on_global_calendar, window_open, global_open.
  destruct (mem symbol ALWAYS_OPEN_SYMBOLS); [done|]. simpl.
  destruct (is_tse_fund symbol); simpl.
  { by destruct (off_day _). }
  destruct (mem symbol IRANIAN_SYMBOLS); simpl.
  { by destruct (off_day _). }
  destruct (mem symbol GLOBAL_SYMBOLS); simpl; [|done]. change FRIDAY with 4.
  by repeat (destruct_if; simpl; try done).
Qed.

Lemma closure_started_at_window symbol s t :
  closed_since symbol t s =
  if open_at symbol t s then None
  else match tehran_window symbol s with
  | Some (_, c) =>
      Some (default t (last_close TEHRAN 9 0 (to_wall TEHRAN t) c))
  | None =>
      let days_back := (weekday (date_of t) - FRIDAY) mod 7 in
      let candidate := combine (date_of (t - days_back * us_day)) GLOBAL_CLOSE_UTC in
      Some (if t <? candidate then candidate - 7 * us_day else candidate)
  end.
Proof.
  rewrite is_market_open_window.
  unfold closure_started_at. rewrite is_market_open_window.
  unfold tehran_window, on_global_calendar.
  destruct (mem symbol ALWAYS_OPEN_SYMBOLS); [done|]. simpl.
  destruct (is_tse_fund symbol); simpl.
  { destruct (window_open _ _ _); [done|]. by destruct (last_close TEHRAN _ _ _ _). }
  destruct (mem symbol IRANIAN_SYMBOLS); simpl.
  { destruct (window_open _ _ _); [done|]. by destruct (last_close TEHRAN _ _ _ _). }
  by destruct (mem symbol GLOBAL_SYMBOLS); simpl; destruct (global_open t).
Qed.

Lemma last_close_S n k local c :
  last_close TEHRAN (S n) k local c =
  if off_day (date_of (local - k * us_day)) then last_close TEHRAN n (k + 1) local c
  else if combine (date_of (local - k * us_day)) c <=? local
       then Some (of_wall TEHRAN (combine (date_of (local - k * us_day)) c))
       else last_close TEHRAN n (k + 1) local c.
Proof. done. Qed.

Lemma date_of_sub_days w k : date_of (w - k * us_day) = date_of w - k.
Proof. unfold date_of. unfold_time. divlia. Qed.

Lemma three_days_not_off d :
  off_day d = true → off_day (d - 1) = true → off_day (d - 2) = false.
Proof.
  unfold off_day, weekday, THURSDAY, FRIDAY. intros.
  repeat match goal with
  | |- context [?a =? ?b] => destruct (Z.eqb_spec a b)
  | H : context [?a =? ?b] |- _ => destruct (Z.eqb_spec a b)
  end; simpl in *; try done; divlia.
Qed.

(** The loop over nine days always stops, at most three days back: the
    fallback [return at_utc] of the code is dead. *)
Lemma last_close_spec local c :
  0 ≤ c < us_day →
  let D := date_of local in
  ∃ k, 0 ≤ k ≤ 3
    ∧ last_close TEHRAN 9 0 local c = Some (of_wall TEHRAN (combine (D - k) c))
    ∧ off_day (D - k) = false
    ∧ (∀ j, 0 < j < k → off_day (D - j) = true)
    ∧ (if k =? 0 then c <= time_of local else off_day D = true ∨ time_of local < c).
Proof.
  intros Hc D.
  assert (∀ k, 1 ≤ k → combine (D - k) c <=? local = true) as Hback.
  { intros k Hk. apply Z.leb_le. subst D. unfold combine, date_of. unfold_time. divlia. }
  assert (combine D c <=? local = (c <=? time_of local)) as H0.
  { subst D. unfold combine, date_of, time_of. unfold_time.
    apply eq_true_iff_eq. rewrite !Z.leb_le. divlia. }
  assert (off_day D = true ∨ off_day D = false ∧ (time_of local < c)
          ∨ off_day D = false ∧ c ≤ time_of local) as HD
    by (destruct (off_day D); lia).
  pose proof (three_days_not_off D) as Hthree.
  pose proof (three_days_not_off (D - 1)) as Hthree1.
  replace (D - 1 - 1) with (D - 2) in Hthree1 by lia.
  replace (D - 1 - 2) with (D - 3) in Hthree1 by lia.
  do 4 rewrite last_close_S. change (0 + 1) with 1. change (1 + 1) with 2. change (2 + 1) with 3.
  rewrite !date_of_sub_days. fold D. rewrite !Z.sub_0_r, H0.
  rewrite (Hback 1), (Hback 2), (Hback 3) by lia.
  destruct HD as [HD|[[HD Hlt]|[HD Hle]]].
  - rewrite HD in *. destruct (off_day (D - 1)) eqn:H1.
    + rewrite (Hthree eq_refl eq_refl). exists 2. split_and!; try done; try lia; simpl; auto.
      intros j Hj. by replace j with 1 by lia.
    + exists 1. split_and!; try done; try lia; simpl; auto.
  - rewrite HD. rewrite (proj2 (Z.leb_gt _ _) Hlt). destruct (off_day (D - 1)) eqn:H1.
    + destruct (off_day (D - 2)) eqn:H2.
      * rewrite (Hthree1 eq_refl eq_refl). exists 3. split_and!; try done; try lia; simpl; auto.
        intros j Hj. by destruct (decide (j = 1)) as [->|]; [|replace j with 2 by lia].
      * exists 2. split_and!; try done; try lia; simpl; auto. intros j Hj. by replace j with 1 by lia.
    + exists 1. split_and!; try done; try lia; simpl; auto.
  - rewrite HD. rewrite (proj2 (Z.leb_le _ _) Hle). exists 0. rewrite Z.sub_0_r.
    split_and!; try done; try lia; simpl; auto.
Qed.

(** Between the last close and now the window never opened. *)
Lemma window_closed_since o c local k w :
  0 ≤ c < us_day → 0 ≤ k →
  window_open o c local = false →
  (∀ j, 0 < j < k → off_day (date_of local - j) = true) →
  (if k =? 0 then c <= time_of local else off_day (date_of local) = true ∨ time_of local < c) →
  combine (date_of local - k) c ≤ w ≤ local →
  window_open o c w = false.
Proof.
  intros Hc Hk Hclosed Hoff Hfirst [Hlo Hhi].
  assert (∃ j, 0 ≤ j ≤ k ∧ date_of w = date_of local - j) as (j&Hj&Hd).
  { exists (date_of local - date_of w). unfold combine, date_of in *. unfold_time.
    split; divlia. }
  pose proof (combine_date_time w) as Hw. pose proof (combine_date_time local) as Hl.
  unfold window_open in *. rewrite Hd. unfold combine in Hlo, Hw, Hl.
  pose proof (time_of_bounds w). pose proof (time_of_bounds local).
  destruct (decide (j = k)) as [->|Hne].
  { assert (c ≤ time_of w) as Hle by lia.
    apply andb_false_iff. right. by apply Z.ltb_ge. }
  destruct (decide (j = 0)) as [->|Hj0].
  - rewrite (proj2 (Z.eqb_neq k 0)) in Hfirst by lia. rewrite Z.sub_0_r.
    apply andb_false_iff in Hclosed as [[Hd0|Ho]%andb_false_iff|Hcl].
    + by rewrite Hd0.
    + apply Z.leb_gt in Ho. assert (time_of w < o) by lia.
      rewrite (proj2 (Z.leb_gt o (time_of w))) by done. by rewrite andb_false_r.
    + apply Z.ltb_ge in Hcl. destruct Hfirst as [Hf|]; [by rewrite Hf|lia].
  - by rewrite (Hoff j) by lia.
Qed.

(** The moment before a close the window was open. *)
Lemma window_open_before_close o c d :
  0 ≤ o → o < c → c < us_day → off_day d = false →
  window_open o c (combine d c - 1) = true.
Proof.
  intros Ho Hoc Hc Hd. replace (combine d c - 1) with (combine d (c - 1)) by (unfold combine; lia).
  unfold window_open. rewrite date_of_combine, time_of_combine by lia. rewrite Hd. simpl.
  apply andb_true_iff. rewrite Z.leb_le, Z.ltb_lt. lia.
Qed.

Lemma global_closure_spec t :
  global_open t = false →
  let days_back := (weekday (date_of t) - FRIDAY) mod 7 in
  let candidate := combine (date_of (t - days_back * us_day)) GLOBAL_CLOSE_UTC in
  let cs := if t <? candidate then candidate - 7 * us_day else candidate in
  cs ≤ t < cs + 49 * us_hour ∧ global_open (cs - 1) = true
  ∧ weekday (date_of cs) = FRIDAY ∧ time_of cs = GLOBAL_CLOSE_UTC.
Proof.
  intros Hclosed days_back candidate.
  assert (0 ≤ GLOBAL_CLOSE_UTC - 1 < us_day) as Hr1 by (split; [done|reflexivity]).
  assert (0 ≤ GLOBAL_CLOSE_UTC < us_day) as Hr by (split; [done|reflexivity]).
  pose proof (combine_date_time t) as Ht. pose proof (time_of_bounds t).
  unfold global_open in *. apply negb_false_iff in Hclosed.
  set (D := date_of t) in *. set (T := time_of t) in *.
  assert (candidate = combine (D - days_back) GLOBAL_CLOSE_UTC) as Hcand
    by (unfold candidate; by rewrite date_of_sub_days).
  assert (weekday (D - days_back) = 4) as Hwd
    by (unfold days_back, weekday, FRIDAY; divlia).
  pose proof (weekday_bounds D).
  assert (candidate ≤ t < candidate + 49 * us_hour) as Hbounds.
  { rewrite Hcand. rewrite <- Ht. unfold combine, days_back, FRIDAY.
    change GLOBAL_CLOSE_UTC with (21 * us_hour) in *.
    change GLOBAL_OPEN_UTC with (22 * us_hour) in *. unfold_time.
    apply orb_true_iff in Hclosed as [[H1|H1]%orb_true_iff|H1]; bool_to_prop.
    - replace (weekday D) with 4 by lia. change ((4 - 4) mod 7) with 0. lia.
    - replace (weekday D) with 5 by lia. change ((5 - 4) mod 7) with 1. lia.
    - replace (weekday D) with 6 by lia. change ((6 - 4) mod 7) with 2. lia. }
  rewrite (proj2 (Z.ltb_ge t candidate)) by lia. cbv zeta.
  split; [done|]. rewrite Hcand.
  replace (combine (D - days_back) GLOBAL_CLOSE_UTC - 1)
    with (combine (D - days_back) (GLOBAL_CLOSE_UTC - 1)) by (unfold combine; lia).
  rewrite !date_of_combine, !time_of_combine, Hwd by done. by split_and!.
Qed.

Lemma global_closed_within t t' :
  global_open t = false →
  combine (date_of t') (time_of t') = t' →
  (∃ cs, weekday (date_of cs) = FRIDAY ∧ time_of cs = GLOBAL_CLOSE_UTC ∧
         cs ≤ t' ≤ t ∧ t < cs + 49 * us_hour) →
  global_open t' = false.
Proof.
  intros Hclosed Ht' (cs&Hwd&Htod&Hle&Hlt).
  pose proof (combine_date_time cs) as Hcs. pose proof (time_of_bounds t').
  unfold global_open. apply negb_false_iff.
  assert (∃ j, 0 ≤ j ≤ 2 ∧ date_of t' = date_of cs + j) as (j&Hj&Hd).
  { exists (date_of t' - date_of cs). unfold combine in *. rewrite Htod in Hcs.
    change GLOBAL_CLOSE_UTC with (21 * us_hour) in *. unfold_time. lia. }
  assert (weekday (date_of t') = 4 + j) as ->.
  { rewrite Hd. unfold weekday, FRIDAY in *. divlia. }
  rewrite Htod in Hcs. unfold combine in *. rewrite Hd in Ht'.
  change GLOBAL_CLOSE_UTC with (21 * us_hour) in *.
  change GLOBAL_OPEN_UTC with (22 * us_hour) in *. unfold_time.
  assert (j = 0 ∨ j = 1 ∨ j = 2) as [->|[->| ->]] by lia; simpl; [|done|].
  - rewrite orb_false_r. apply orb_true_iff. left. apply Z.leb_le. lia.
  - apply Z.ltb_lt. lia.
Qed.

(** Where the closure of a Tehran-clock market starts. *)
Lemma tehran_closure symbol s off t0 t o c :
  tz_fixed_since TEHRAN off t0 → t0 + 9 * us_day ≤ t →
  tehran_window symbol s = Some (o, c) → open_at symbol t s = false →
  ∃ k, 0 ≤ k ≤ 3
    ∧ closed_since symbol t s = Some (combine (date_of (t + off) - k) c - off)
    ∧ t0 < combine (date_of (t + off) - k) c - off ≤ t
    ∧ off_day (date_of (t + off) - k) = false
    ∧ (∀ w, combine (date_of (t + off) - k) c ≤ w ≤ t + off → window_open o c w = false).
Proof.
  intros [Hutc Hwall] Ht Hw Hclosed. pose proof Hclosed as Hwin.
  rewrite is_market_open_window, Hw in Hwin. unfold to_wall in Hwin.
  rewrite closure_started_at_window, Hclosed, Hw. unfold to_wall.
  rewrite Hutc in * by (unfold_time; lia).
  apply tehran_window_range in Hw as [Ho Hc].
  destruct (last_close_spec (t + off) c Hc) as (k&Hk&Hlc&Hoffd&Hbetween&Hfirst).
  rewrite Hlc. simpl. unfold of_wall.
  assert (combine (date_of (t + off) - k) c ≤ t + off < combine (date_of (t + off) - k) c + 5 * us_day)
    as Hcand.
  { pose proof (combine_date_time (t + off)) as Hl. pose proof (time_of_bounds (t + off)).
    unfold combine in *. destruct (Z.eqb_spec k 0); unfold_time; lia. }
  rewrite Hwall by (unfold_time; lia).
  exists k. split_and!; try done; try lia; try (unfold_time; lia).
  intros w Hwb. apply (window_closed_since o c (t + off) k w); done || lia.
Qed.

Lemma closure_on_some_calendar symbol s t cs :
  closed_since symbol t s = Some cs →
  (∃ o c, tehran_window symbol s = Some (o, c)) ∨
  tehran_window symbol s = None ∧ on_global_calendar symbol = true.
Proof.
  rewrite closure_started_at_window, is_market_open_window.
  destruct (tehran_window symbol s) as [[o c]|]; [eauto|].
  destruct (on_global_calendar symbol); [by right|done].
Qed.

(** [closure_started_at] is [None] exactly while the market is open. *)
Lemma closure_none_iff_open symbol t s :
  closed_since symbol t s = None ↔ open_at symbol t s = true.
Proof.
  rewrite closure_started_at_window. destruct (open_at symbol t s) eqn:Ho; [done|].
  destruct (tehran_window symbol s) as [[o c]|]; split; done.
Qed.

Lemma closure_some_closed symbol t s cs :
  closed_since symbol t s = Some cs → open_at symbol t s = false.
Proof.
  intros Hcs. destruct (open_at symbol t s) eqn:Ho; [|done].
  apply closure_none_iff_open in Ho. congruence.
Qed.

(** A closure starts in the past. *)
Lemma closure_start_past off t0 symbol s t cs :
  tz_fixed_since TEHRAN off t0 → t0 + 9 * us_day ≤ t →
  closed_since symbol t s = Some cs → cs ≤ t.
Proof.
  intros Htz Ht Hcs. pose proof (closure_some_closed _ _ _ _ Hcs) as Hclosed.
  destruct (closure_on_some_calendar symbol s t cs Hcs) as [(o&c&Hw)|[Hw Hg]].
  - destruct (tehran_closure symbol s off t0 t o c Htz Ht Hw Hclosed) as (k&Hk&Hc&Hle&_).
    rewrite Hc in Hcs. injection Hcs as <-. lia.
  - rewrite is_market_open_window, Hw, Hg in Hclosed.
    rewrite closure_started_at_window, is_market_open_window, Hw, Hg, Hclosed in Hcs.
    destruct (global_closure_spec t Hclosed) as (Hb&_). injection Hcs as <-. lia.
Qed.

(** The start of a closure is never in the future and the market is closed
    at EVERY moment from it to now, on all three calendars and for every
    configured trading window (malformed ones fall back to a default), given
    only that Tehran's UTC offset has not changed in the last nine days. *)
Theorem closed_throughout_closure off t0 symbol s t cs t' :
  tz_fixed_since TEHRAN off t0 → t0 + 9 * us_day ≤ t →
  closure_started_at TEHRAN symbol t s = Some cs →
  cs ≤ t ∧ (cs ≤ t' ≤ t → is_market_open TEHRAN symbol t' s = false).
Proof.
  intros Htz Ht Hcs. split; [by eapply closure_start_past|]. intros Ht'.
  pose proof (closure_some_closed _ _ _ _ Hcs) as Hclosed.
  destruct (closure_on_some_calendar symbol s t cs Hcs) as [(o&c&Hw)|[Hw Hg]].
  - destruct (tehran_closure symbol s off t0 t o c Htz Ht Hw Hclosed)
      as (k&Hk&Hc&Hle&_&Hall).
    rewrite Hc in Hcs. injection Hcs as <-.
    rewrite is_market_open_window, Hw. unfold to_wall.
    rewrite (proj1 Htz) by lia. apply Hall. lia.
  - rewrite is_market_open_window, Hw, Hg in Hclosed.
    rewrite closure_started_at_window, is_market_open_window, Hw, Hg, Hclosed in Hcs.
    destruct (global_closure_spec t Hclosed) as (Hb&_&Hwd&Htod).
    injection Hcs as <-. rewrite is_market_open_window, Hw, Hg.
    apply (global_closed_within t); [done|apply combine_date_time|].
    eexists. split_and!; [exact Hwd|exact Htod|lia..].
Qed.

(** A closure start is the last moment the market was open: one
    microsecond earlier it was trading, whenever the configured window is
    not empty.  So the freshness rule's tolerance is counted from the end of
    the last session and from nothing else. *)
Theorem open_just_before_closure off t0 symbol s t cs :
  tz_fixed_since TEHRAN off t0 → t0 + 9 * us_day ≤ t →
  (∀ o c, tehran_window symbol s = Some (o, c) → o < c) →
  closure_started_at TEHRAN symbol t s = Some cs →
  is_market_open TEHRAN symbol (cs - 1) s = true.
Proof.
  intros Htz Ht Hne Hcs. pose proof (closure_some_closed _ _ _ _ Hcs) as Hclosed.
  destruct (closure_on_some_calendar symbol s t cs Hcs) as [(o&c&Hw)|[Hw Hg]].
  - destruct (tehran_closure symbol s off t0 t o c Htz Ht Hw Hclosed)
      as (k&Hk&Hc&Hle&Hoffd&_).
    rewrite Hc in Hcs. injection Hcs as <-.
    rewrite is_market_open_window, Hw. unfold to_wall. rewrite (proj1 Htz) by lia.
    pose proof (tehran_window_range _ _ _ _ Hw) as [Ho Hcr]. specialize (Hne _ _ Hw).
    replace (combine (date_of (t + off) - k) c - off - 1 + off)
      with (combine (date_of (t + off) - k) c - 1) by lia.
    apply window_open_before_close; [lia..|done].
  - rewrite is_market_open_window, Hw, Hg in Hclosed |- *.
    rewrite closure_started_at_window, is_market_open_window, Hw, Hg, Hclosed in Hcs.
    destruct (global_closure_spec t Hclosed) as (_&Hopen&_).
    by injection Hcs as <-.
Qed.

(** Freshness is monotone: an observation at least as recent as a fresh
    one is fresh, for every symbol, source and market state. *)
Theorem freshness_monotone symbol o1 o2 at_utc s source :
  to_utc o1 ≤ to_utc o2 →
  is_acceptably_fresh TEHRAN symbol (Some o1) at_utc s source = true →
  is_acceptably_fresh TEHRAN symbol (Some o2) at_utc s source = true.
Proof.
  intros Hle. unfold is_acceptably_fresh.
  destruct (daily_close_max_age symbol source) as [age|].
  - rewrite !Z.leb_le. assert (date_of (to_utc o1) ≤ date_of (to_utc o2)); [|lia].
    unfold date_of. unfold_time. divlia.
  - destruct (closed_since symbol (to_utc at_utc) s) as [cs|]; rewrite !Z.leb_le; lia.
Qed.

(** For a series without a daily-close rule the market-hours rule only
    extends the plain age rule: whatever [is_fresh] accepts stays accepted,
    open or closed; and while the market is open the two rules coincide. *)
Theorem plain_fresh_is_acceptable off t0 symbol obs at_utc s source :
  tz_fixed_since TEHRAN off t0 → t0 + 9 * us_day ≤ to_utc at_utc →
  daily_close_max_age symbol source = None →
  (is_fresh obs (stale_minutes s) (to_utc at_utc) = true →
   is_acceptably_fresh TEHRAN symbol obs at_utc s source = true)
  ∧ (open_at symbol (to_utc at_utc) s = true →
     is_acceptably_fresh TEHRAN symbol obs at_utc s source
     = is_fresh obs (stale_minutes s) (to_utc at_utc)).
Proof.
  intros Htz Ht Hnone. unfold is_acceptably_fresh, is_fresh. rewrite Hnone.
  destruct obs as [obs|]; [|done]. split.
  - destruct (closed_since symbol (to_utc at_utc) s) as [cs|] eqn:Hcs; [|done].
    pose proof (closure_start_past off t0 symbol s (to_utc at_utc) cs Htz Ht Hcs). rewrite !Z.leb_le. lia.
  - intros Ho. apply closure_none_iff_open in Ho. by rewrite Ho.
Qed.
End Theorems.

(** ** Concrete inputs: Iran's offset is a fixed +03:30 *)
Definition tehran_0330 : tzinfo := fixed_zone (3 * us_hour + 30 * us_minute).

Definition default_settings : Settings := {|
  stale_minutes := 30;
  market_tehran_open := "12:00"; market_tehran_close := "20:00";
  market_tse_open := "12:00"; market_tse_close := "18:00" |}.

(** Friday 2026-09-11, 10:00 UTC. *)
Definition a_friday : instant := combine (ordinal 2026 9 11) (clock 10 0).

Lemma closed_throughout_closure_witness :
  combine (ordinal 2026 9 9) (clock 16 30) ≤ a_friday ∧
  (combine (ordinal 2026 9 9) (clock 16 30) ≤ a_friday - us_day ≤ a_friday →
   is_market_open tehran_0330 "IR_COIN_EMAMI" (a_friday - us_day) default_settings = false).
Proof.
  apply (closed_throughout_closure tehran_0330 (3 * us_hour + 30 * us_minute) 0);
    [apply fixed_zone_fixed|by vm_compute|by vm_compute].
Defined.

Lemma open_just_before_closure_witness :
  is_market_open tehran_0330 "IR_GOLD_FUND_AYAR"
    (combine (ordinal 2026 9 9) (clock 14 30) - 1) default_settings = true.
Proof.
  apply (open_just_before_closure tehran_0330 (3 * us_hour + 30 * us_minute) 0
           "IR_GOLD_FUND_AYAR" default_settings a_friday);
    [apply fixed_zone_fixed|by vm_compute| |by vm_compute].
  intros o c [= <- <-]. by vm_compute.
Defined.

Lemma freshness_monotone_witness :
  is_acceptably_fresh tehran_0330 "XAUUSD" (Some (naive (a_friday - us_minute)))
    (naive a_friday) default_settings None = true.
Proof.
  apply (freshness_monotone tehran_0330 "XAUUSD" (naive (a_friday - 30 * us_minute)));
    [by vm_compute|by vm_compute].
Defined.

Lemma plain_fresh_is_acceptable_witness :
  (is_fresh (Some (naive a_friday)) 30 (to_utc (naive a_friday)) = true →
   is_acceptably_fresh tehran_0330 "IR_COIN_EMAMI" (Some (naive a_friday))
     (naive a_friday) default_settings None = true)
  ∧ (is_market_open tehran_0330 "IR_COIN_EMAMI" (to_utc (naive a_friday)) default_settings = true →
     is_acceptably_fresh tehran_0330 "IR_COIN_EMAMI" (Some (naive a_friday))
       (naive a_friday) default_settings None
     = is_fresh (Some (naive a_friday)) 30 (to_utc (naive a_friday))).
Proof.
  apply (plain_fresh_is_acceptable tehran_0330 (3 * us_hour + 30 * us_minute) 0
           "IR_COIN_EMAMI" _ (naive a_friday) default_settings);
    [apply fixed_zone_fixed|by vm_compute|by vm_compute].
Defined.
