(* ===== verification/Validation.v ===== *)
(** * Validation of collected quotes

    [app/core/validation.py] (plausibility, MAD and jump tests, cross-source
    agreement, the suspect streak that lets a frozen single-source series move
    again), [app/core/normalize.py] (rial/toman, the two [^TNX] conventions)
    and [app/core/formula.py] (the theoretical 18k price and the premium).

    Quotes are binary64 floats.  The theorems show which values can be accepted
    at all, that agreement between sources is symmetric, and exactly what a
    suspect streak counts. *)
From S2P Require Import Prelude PyFloat PyTime PyText.
Local Open Scope string_scope.
Local Open Scope Z_scope.

Definition MAX_JUMP_PCT : float := float_of_Z 15.
Definition CONFIRM_TOLERANCE_PCT : float := float_of_Z 3.
Definition MAD_THRESHOLD : float := float_of_Z 8.
Definition MAX_ABS_PREMIUM_PCT : float := float_of_Z 25.
Definition SUSTAIN_MIN_OBSERVATIONS : Z := 5.
Definition SUSTAIN_MIN_SPAN_MINUTES : float := float_of_Z 90.
Definition SUSPECT_ALERT_AFTER : Z := 3.

Definition SANITY_RANGES : list (string * (float * float)) :=
  let r lo hi := (float_of_Z lo, float_of_Z hi) in
  [("IR_GOLD_18K", r 100000 1000000000);
   ("IR_COIN_EMAMI", r 1000000 1000000000000);
   ("USD_IRT", r 1000 10000000);
   ("XAUUSD", r 500 20000);
   ("XAGUSD", r 5 500);
   ("BRENT_OIL", r 10 500);
   ("DXY", r 50 200);
   ("US10Y", r 0 25);
   ("IR_GOLD_FUND_AYAR", r 100 100000000);
   ("IR_GOLD_FUND_TALA", r 100 100000000);
   ("IR_GOLD_FUND_KAHRABA", r 100 100000000);
   ("IR_GOLD_FUND_FLOW", r (-100) 100)].

Definition OSCILLATING_SYMBOLS : list string := ["IR_GOLD_FUND_FLOW"].

Definition sanity_ok (symbol : string) (value : float) : bool :=
  let '(lo, hi) := default (fzero, finf) (assoc symbol SANITY_RANGES) in
  fle lo value && fle value hi.

Definition is_mad_outlier (value : float) (window : list float) (threshold : float)
    : result pyerr bool :=
  if (length window <? 5)%nat then Ok false
  else
    match median window with
    | None => Err ValueError
    | Some med =>
        match median ((λ v, fabs (fsub v med)) <$> window) with
        | None => Err ValueError
        | Some mad =>
            let scale :=
              if fgt mad fzero then fmul (flit 14826 4) mad
              else fmax (fmul (fabs med) (flit 1 4)) (flit 1 12) in
            q ← fdiv (fabs (fsub value med)) scale;
            Ok (fgt q threshold)
        end
    end.

Definition jump_pct (value last_good : float) : result pyerr float :=
  if feq last_good fzero then Ok fzero
  else
    q ← fdiv (fabs (fsub value last_good)) (fabs last_good);
    Ok (fmul q fhundred).

Definition values_agree (a b tolerance_pct : float) : result pyerr bool :=
  if feq a fzero && feq b fzero then Ok true
  else
    let ref := fmax (fabs a) (fabs b) in
    q ← fdiv (fabs (fsub a b)) ref;
    Ok (fle (fmul q fhundred) tolerance_pct).

(** ** Cross-source dispersion *)
Record dispersion : Set := {
  n_sources : nat;
  n_agreeing : nat;
  values : list (string * float);
  disp_median : float;
  spread_abs : float;
  spread_pct : option float;
  disp_mad : float;
  mad_pct : option float;
  disp_tolerance_pct : float;
}.

(** [sum(1 for v in values if values_agree(v, med, tol))] *)
Fixpoint count_agreeing (med tol : float) (vs : list float) : result pyerr nat :=
  match vs with
  | [] => Ok 0%nat
  | v :: vs =>
      a ← values_agree v med tol;
      n ← count_agreeing med tol vs;
      Ok (if (a : bool) then S n else n)
  end.

Definition str_lt (a b : string * float) : bool :=
  match String.compare a.1 b.1 with Lt => true | _ => false end.

(** [None]: fewer than two finite quotes. *)
Definition dispersion_summary (values_by_source : list (string * float)) (tolerance_pct : float)
    : result pyerr (option dispersion) :=
  let usable := List.filter (λ sv, is_finite sv.2) values_by_source in
  if (length usable <? 2)%nat then Ok None
  else
    let vals := py_sorted flt (snd <$> usable) in
    match median vals, List.head vals, last vals with
    | Some med, Some lo, Some hi =>
        let spread := fsub hi lo in
        match median ((λ v, fabs (fsub v med)) <$> vals) with
        | None => Err ValueError
        | Some mad =>
            let ref := fabs med in
            n ← count_agreeing med tolerance_pct vals;
            let pct (x : float) :=
              if fgt ref fzero then Some (py_round (fmul (fdiv_ieee x ref) fhundred) 4)
              else None in
            Ok (Some {|
              n_sources := length vals;
              n_agreeing := n;
              values := (λ sv, (sv.1, py_round sv.2 6)) <$> py_sorted str_lt usable;
              disp_median := py_round med 6;
              spread_abs := py_round spread 6;
              spread_pct := pct spread;
              disp_mad := py_round mad 6;
              mad_pct := pct mad;
              disp_tolerance_pct := tolerance_pct |})
        end
    | _, _, _ => Err ValueError
    end.

(** ** The suspect streak *)
Record SuspectStreak : Set := {
  streak_length : Z;
  span_minutes : float;
  since : instant;
}.

(** One row of the history: observed at, value, quality. *)
Abbreviation history_row := (datetime * float * string)%type.

(** The walk over the history, newest first. *)
Fixpoint streak_walk (value tol : float) (history : list history_row) (len : Z) (since : instant)
    : result pyerr (Z * instant) :=
  match history with
  | [] => Ok (len, since)
  | (observed_at, past_value, quality) :: history' =>
      if negb (String.eqb quality "suspect") then Ok (len, since)
      else
        agree ← values_agree value past_value tol;
        if negb agree then Ok (len, since)
        else
          let observed_at := to_utc observed_at in
          if since <=? observed_at then streak_walk value tol history' len since
          else streak_walk value tol history' (len + 1) observed_at
  end.

Definition suspect_streak (value : float) (at_time : datetime) (history : list history_row)
    (tolerance_pct : float) : result pyerr SuspectStreak :=
  let at_time := to_utc at_time in
  w ← streak_walk value tolerance_pct history 1 at_time;
  let span := fdiv_ieee (total_seconds (at_time - w.2)) (float_of_Z 60) in
  Ok {| streak_length := w.1; span_minutes := fmax span fzero; since := w.2 |}.

Definition sustained_by_repetition (streak : SuspectStreak) (min_observations : Z)
    (min_span_minutes : float) : bool :=
  (min_observations <=? streak_length streak) && fge (span_minutes streak) min_span_minutes.

(** ** core/formula.py *)
Definition TROY_OUNCE_GRAMS : float := flit 311034768 7.
Definition KARAT_18_PURITY : float := flit 75 2.

Definition pure_gram_usd (xau_usd : float) : float := fdiv_ieee xau_usd TROY_OUNCE_GRAMS.
Definition pure_gram_irt (xau_usd usd_irt : float) : float :=
  fmul (pure_gram_usd xau_usd) usd_irt.
Definition k18_theoretical_irt (xau_usd usd_irt : float) : float :=
  fmul (pure_gram_irt xau_usd usd_irt) KARAT_18_PURITY.

Definition premium_pct (observed theoretical : float) : result pyerr float :=
  if feq theoretical fzero then Err ValueError
  else Ok (fmul (fdiv_ieee (fsub observed theoretical) theoretical) fhundred).

(** The premium that makes an 18k quote suspect, when it does. *)
Definition premium_suspect (observed xau_usd usd_irt : float) : result pyerr (option float) :=
  let theo := k18_theoretical_irt xau_usd usd_irt in
  if fle theo fzero then Ok None
  else
    prem ← premium_pct observed theo;
    Ok (if fgt (fabs prem) MAX_ABS_PREMIUM_PCT then Some prem else None).

(** ** Classification of one observation *)
Inductive quality : Set := q_ok | q_suspect | q_outlier.

Inductive reason : Set :=
| OutsideRange (value : float)
| Jump (pct last_good : float)
| MadDeviation.

Definition classify_observation (symbol : string) (value : float)
    (recent_window : list float) (last_good : option float)
    : result pyerr (quality * option reason) :=
  if negb (sanity_ok symbol value) then Ok (q_outlier, Some (OutsideRange value))
  else if existsb (String.eqb symbol) OSCILLATING_SYMBOLS then Ok (q_ok, None)
  else
    jumped ← match last_good with
             | None => Ok None
             | Some last =>
                 j ← jump_pct value last;
                 Ok (if fgt j MAX_JUMP_PCT then Some (Jump j last) else None)
             end;
    match jumped with
    | Some r => Ok (q_suspect, Some r)
    | None =>
        out ← is_mad_outlier value recent_window MAD_THRESHOLD;
        Ok (if (out : bool) then (q_suspect, Some MadDeviation) else (q_ok, None))
    end.

(** ** core/normalize.py *)
Definition rial_to_toman (value_irr : float) : float := fdiv_ieee value_irr (float_of_Z 10).
Definition toman_to_rial (value_irt : float) : float := fmul value_irt (float_of_Z 10).

(** The upper bound of [SANITY_RANGES["US10Y"]]. *)
Definition TNX_MAX_YIELD_PCT : float :=
  match assoc "US10Y" SANITY_RANGES with Some (_, hi) => hi | None => fzero end.

Definition tnx_to_pct (quote : float) : float :=
  if fgt quote TNX_MAX_YIELD_PCT then fdiv_ieee quote (float_of_Z 10) else quote.

(** [max(quotes)]: the first maximum. *)
Definition tnx_series_to_pct (quotes : list float) : list float :=
  match first_max fgt quotes with
  | None => []
  | Some top =>
      let divisor := if fgt top TNX_MAX_YIELD_PCT then float_of_Z 10 else fone in
      (λ q, fdiv_ieee q divisor) <$> quotes
  end.

Definition tnx_quote_meta (quote : float) : string * string :=
  if fgt quote TNX_MAX_YIELD_PCT then ("TNX_index", "INDEX") else ("pct", "PCT").

Definition SYMBOL_META : list (string * (string * string)) :=
  [("IR_GOLD_18K", ("IRT", "gram")); ("IR_COIN_EMAMI", ("IRT", "coin"));
   ("USD_IRT", ("IRT", "usd")); ("XAUUSD", ("USD", "ozt")); ("XAGUSD", ("USD", "ozt"));
   ("BRENT_OIL", ("USD", "bbl")); ("DXY", ("INDEX", "index")); ("US10Y", ("PCT", "pct"));
   ("IR_SILVER_999", ("IRT", "gram")); ("IR_COIN_BAHAR", ("IRT", "coin"));
   ("IR_COIN_HALF", ("IRT", "coin")); ("IR_COIN_QUARTER", ("IRT", "coin"));
   ("IR_COIN_GERAMI", ("IRT", "coin")); ("IR_GOLD_24K", ("IRT", "gram"));
   ("IR_GOLD_MESGHAL", ("IRT", "mesghal"))].

Example agree_ex : values_agree (float_of_Z 100) (float_of_Z 103) CONFIRM_TOLERANCE_PCT = Ok true.
Proof. vm_compute. reflexivity. Qed.
Example classify_ex : classify_observation "US10Y" (float_of_Z 46) [] None
  = Ok (q_outlier, Some (OutsideRange (float_of_Z 46))).
Proof. vm_compute. reflexivity. Qed.
Example dispersion_ex :
  n_agreeing <$> default None (match dispersion_summary
    [("a", float_of_Z 100); ("b", float_of_Z 101); ("c", float_of_Z 150)] CONFIRM_TOLERANCE_PCT
    with Ok r => Some r | Err _ => None end) = Some 2%nat.
Proof. vm_compute. reflexivity. Qed.

(** ** Agreement between sources *)
Lemma fmax_abs_zero a b :
  is_nan a = false → is_nan b = false →
  feq (fmax (fabs a) (fabs b)) fzero = feq a fzero && feq b fzero.
Proof.
  intros Ha Hb. unfold fmax, fgt.
  destruct a as [[]|[]| |[] ma ea], b as [[]|[]| |[] mb eb]; try done; simpl;
    by destruct (flt _ _).
Qed.

Lemma values_agree_total a b tol :
  is_nan a = false → is_nan b = false → ∃ r, values_agree a b tol = Ok r.
Proof.
  intros Ha Hb. unfold values_agree, fdiv. rewrite fmax_abs_zero by done.
  destruct (feq a fzero && feq b fzero); simpl; eauto.
Qed.

(** Agreement of two sources does not depend on which is asked first: the
    tolerance is taken of the larger magnitude and rounding is symmetric, so
    the verdicts are the same bit for bit. *)
Theorem values_agree_sym a b tol :
  is_nan a = false → is_nan b = false →
  values_agree a b tol = values_agree b a tol.
Proof.
  intros Ha Hb. unfold values_agree.
  by rewrite andb_comm, fabs_fsub_sym, fmax_fabs_sym.
Qed.

Lemma values_agree_sym_witness :
  values_agree (float_of_Z 100) (flit 1031 1) CONFIRM_TOLERANCE_PCT
  = values_agree (flit 1031 1) (float_of_Z 100) CONFIRM_TOLERANCE_PCT.
Proof. apply values_agree_sym; by vm_compute. Defined.

(** ** What a streak counts *)

(** The instants of the leading rows that are suspect and agree with the
    candidate: the run the walk goes through. *)
Fixpoint consistent_run (value tol : float) (history : list history_row)
    : result pyerr (list instant) :=
  match history with
  | [] => Ok []
  | (observed_at, past_value, quality) :: history' =>
      if negb (String.eqb quality "suspect") then Ok []
      else
        agree ← values_agree value past_value tol;
        if negb agree then Ok []
        else ts ← consistent_run value tol history'; Ok (to_utc observed_at :: ts)
  end.

(** The instants of a run that are strictly older than everything before them. *)
Fixpoint new_instants (since : instant) (run : list instant) : list instant :=
  match run with
  | [] => []
  | t :: run' => if since <=? t then new_instants since run' else t :: new_instants t run'
  end.

Lemma streak_walk_spec value tol history len since w :
  streak_walk value tol history len since = Ok w ↔
  ∃ run, consistent_run value tol history = Ok run
    ∧ w = (len + Z.of_nat (length (new_instants since run)),
           List.last (new_instants since run) since).
Proof.
  revert len since w. induction history as [|[[o v] q] history IH]; intros len since w; simpl.
  - split.
    + intros [= <-]. exists []. split; [done|]. simpl. f_equal. lia.
    + intros (run&[= <-]&->). simpl. do 2 f_equal. lia.
  - destruct (negb (String.eqb q "suspect")).
    { split.
      - intros [= <-]. exists []. split; [done|]. simpl. f_equal. lia.
      - intros (run&[= <-]&->). simpl. do 2 f_equal. lia. }
    destruct (values_agree value v tol) as [agree|e]; simpl; [|naive_solver].
    destruct agree; simpl.
    2: { split.
      - intros [= <-]. exists []. split; [done|]. simpl. f_equal. lia.
      - intros (run&[= <-]&->). simpl. do 2 f_equal. lia. }
    setoid_rewrite bind_Ok.
    destruct (Z.leb_spec since (to_utc o)) as [Hle|Hlt]; rewrite IH; split.
    + intros (run&Hrun&->). exists (to_utc o :: run). split; [by eauto|]. simpl.
      by rewrite (proj2 (Z.leb_le _ _) Hle).
    + intros (run&(run'&Hrun&[= <-])&->). exists run'. split; [done|]. simpl.
      by rewrite (proj2 (Z.leb_le _ _) Hle).
    + intros (run&Hrun&->). exists (to_utc o :: run). split; [by eauto|]. simpl.
      rewrite (proj2 (Z.leb_gt _ _) Hlt). f_equal; [simpl; lia|].
      by rewrite last_cons_default.
    + intros (run&(run'&Hrun&[= <-])&->). exists run'. split; [done|]. simpl.
      rewrite (proj2 (Z.leb_gt _ _) Hlt). f_equal; [simpl; lia|].
      by rewrite last_cons_default.
Qed.

Lemma new_instants_descend since run :
  StronglySorted (λ x y, y < x) (since :: new_instants since run).
Proof.
  revert since. induction run as [|t run IH]; intros since; simpl; [repeat constructor|].
  destruct (Z.leb_spec since t) as [Hle|Hlt]; [done|].
  specialize (IH t). constructor; [done|].
  apply StronglySorted_inv in IH as [_ IH]. constructor; [done|].
  eapply Forall_impl; [exact IH|]. simpl. lia.
Qed.

Lemma new_instants_subset since run t : t ∈ new_instants since run → t ∈ run.
Proof.
  revert since. induction run as [|t' run IH]; intros since; simpl; [done|].
  destruct (since <=? t'); rewrite ?elem_of_cons; naive_solver.
Qed.

Lemma consistent_run_elem value tol history run t :
  consistent_run value tol history = Ok run → t ∈ run →
  ∃ o v, (o, v, "suspect") ∈ history ∧ to_utc o = t ∧ values_agree value v tol = Ok true.
Proof.
  revert run. induction history as [|[[o v] q] history IH]; intros run; simpl.
  { intros [= <-]. by intros ?%elem_of_nil. }
  destruct (String.eqb_spec q "suspect") as [->|]; simpl.
  2: { intros [= <-]. by intros ?%elem_of_nil. }
  destruct (values_agree value v tol) as [[]|] eqn:Hv; simpl; [| |done].
  2: { intros [= <-]. by intros ?%elem_of_nil. }
  intros H Ht. inv_ok. apply elem_of_cons in Ht as [->|Ht].
  - exists o, v. split_and!; [left|done|done].
  - destruct (IH _ Hok Ht) as (o'&v'&Hin&?&?). exists o', v'. split_and!; [by right|done|done].
Qed.

(** The evidence a streak stands for. *)
Lemma suspect_streak_evidence value at_time history tol st :
  suspect_streak value at_time history tol = Ok st →
  ∃ ts, streak_length st = 1 + Z.of_nat (length ts)
    ∧ since st = List.last ts (to_utc at_time)
    ∧ StronglySorted (λ x y, y < x) (to_utc at_time :: ts)
    ∧ ∀ t, t ∈ ts → ∃ o v, (o, v, "suspect") ∈ history ∧ to_utc o = t
                         ∧ values_agree value v tol = Ok true.
Proof.
  unfold suspect_streak. intros H. inv_ok.
  apply streak_walk_spec in Hok as (run&Hrun&->). simpl.
  exists (new_instants (to_utc at_time) run). split_and!; [done|done|apply new_instants_descend|].
  intros t Ht%new_instants_subset. by eapply consistent_run_elem.
Qed.

(** A suspect streak counts evidence, not rows: its length is one more than
    a strictly decreasing list of instants, all older than the candidate, each
    the time of a stored row that is still [suspect] and agrees with the
    candidate within the tolerance; its [since] is the oldest of them.  An
    instant seen twice adds nothing. *)
Theorem suspect_streak_counts_instants value at_time history tol st :
  suspect_streak value at_time history tol = Ok st →
  ∃ ts, streak_length st = 1 + Z.of_nat (length ts)
    ∧ since st = List.last ts (to_utc at_time)
    ∧ StronglySorted (λ x y, y < x) (to_utc at_time :: ts)
    ∧ ∀ t, t ∈ ts → ∃ o v, (o, v, "suspect") ∈ history ∧ to_utc o = t
                         ∧ values_agree value v tol = Ok true.
Proof. apply suspect_streak_evidence. Qed.

Definition ten_minutes (k : Z) : datetime := naive (k * 10 * us_minute).

(** Five quotes of one level, one of them observed twice. *)
Definition a_history : list history_row :=
  [(ten_minutes 18, float_of_Z 100, "suspect"); (ten_minutes 18, float_of_Z 101, "suspect");
   (ten_minutes 16, float_of_Z 100, "suspect"); (ten_minutes 13, float_of_Z 101, "suspect");
   (ten_minutes 10, float_of_Z 100, "suspect"); (ten_minutes 8, float_of_Z 40, "ok")].

Definition a_streak : SuspectStreak :=
  {| streak_length := 5; span_minutes := float_of_Z 100;
     since := to_utc (ten_minutes 10) |}.

Lemma suspect_streak_counts_instants_witness :
  ∃ ts, streak_length a_streak = 1 + Z.of_nat (length ts)
    ∧ since a_streak = List.last ts (to_utc (ten_minutes 20))
    ∧ StronglySorted (λ x y, y < x) (to_utc (ten_minutes 20) :: ts)
    ∧ ∀ t, t ∈ ts → ∃ o v, (o, v, "suspect") ∈ a_history ∧ to_utc o = t
                         ∧ values_agree (float_of_Z 100) v CONFIRM_TOLERANCE_PCT = Ok true.
Proof.
  apply (suspect_streak_counts_instants (float_of_Z 100) (ten_minutes 20) a_history
           CONFIRM_TOLERANCE_PCT a_streak). vm_compute. reflexivity.
Defined.

(** Rows behind an accepted one cannot vouch for a level: whatever the
    history holds after a row that is not [suspect], the streak is the one of
    the rows before it. *)
Theorem accepted_row_ends_streak value at_time h1 o v q h2 tol :
  q ≠ "suspect" →
  suspect_streak value at_time (h1 ++ (o, v, q) :: h2) tol
  = suspect_streak value at_time h1 tol.
Proof.
  intros Hq%String.eqb_neq. unfold suspect_streak.
  assert (∀ len since, streak_walk value tol (h1 ++ (o, v, q) :: h2) len since
                       = streak_walk value tol h1 len since) as ->; [|done].
  induction h1 as [|[[o1 v1] q1] h1 IH]; intros len since; simpl.
  - by rewrite Hq.
  - destruct (negb (String.eqb q1 "suspect")); [done|].
    destruct (values_agree value v1 tol) as [[]|]; simpl; [|done..].
    destruct (since <=? to_utc o1); apply IH.
Qed.

Lemma accepted_row_ends_streak_witness :
  suspect_streak (float_of_Z 40) (ten_minutes 9)
    ([] ++ (ten_minutes 8, float_of_Z 40, "ok") :: a_history) CONFIRM_TOLERANCE_PCT
  = suspect_streak (float_of_Z 40) (ten_minutes 9) [] CONFIRM_TOLERANCE_PCT.
Proof. apply accepted_row_ends_streak. discriminate. Defined.

(** The single-source escape hatch needs real repetition: a level accepted
    with the default thresholds was observed, as suspect and within tolerance,
    at four or more earlier distinct instants, and NaN apart the streak itself
    always returns. *)
Theorem sustained_needs_five_instants value at_time history st :
  suspect_streak value at_time history CONFIRM_TOLERANCE_PCT = Ok st →
  sustained_by_repetition st SUSTAIN_MIN_OBSERVATIONS SUSTAIN_MIN_SPAN_MINUTES = true →
  ∃ ts, (4 ≤ length ts)%nat ∧ NoDup ts
    ∧ ∀ t, t ∈ ts → t < to_utc at_time ∧
        ∃ o v, (o, v, "suspect") ∈ history ∧ to_utc o = t
             ∧ values_agree value v CONFIRM_TOLERANCE_PCT = Ok true.
Proof.
  intros (ts&Hlen&_&Hdesc&Hts)%suspect_streak_evidence Hsus.
  unfold sustained_by_repetition, SUSTAIN_MIN_OBSERVATIONS in Hsus. bool_to_prop.
  apply StronglySorted_inv in Hdesc as [Hss Hall]. rewrite Forall_forall in Hall.
  exists ts. split_and!; [lia| |].
  - clear -Hss. induction Hss as [|t ts _ IH Ht]; constructor; [|done].
    rewrite Forall_forall in Ht. intros Hin%Ht. lia.
  - intros t Ht. split; [by apply Hall|by apply Hts].
Qed.

Lemma sustained_needs_five_instants_witness :
  ∃ ts, (4 ≤ length ts)%nat ∧ NoDup ts
    ∧ ∀ t, t ∈ ts → t < to_utc (ten_minutes 20) ∧
        ∃ o v, (o, v, "suspect") ∈ a_history ∧ to_utc o = t
             ∧ values_agree (float_of_Z 100) v CONFIRM_TOLERANCE_PCT = Ok true.
Proof.
  apply (sustained_needs_five_instants (float_of_Z 100) (ten_minutes 20) a_history a_streak);
    vm_compute; reflexivity.
Defined.

(** ** Classification *)

(** What [ok] means: an observation is accepted exactly when it is inside
    its symbol's plausible range and, unless the symbol oscillates by nature,
    its jump from the last good value is at most 15% and it passes the MAD
    test.  No reason is ever attached to an accepted value. *)
Theorem classify_ok_iff symbol value window last_good r :
  classify_observation symbol value window last_good = Ok (q_ok, r) ↔
  r = None ∧ sanity_ok symbol value = true ∧
  (existsb (String.eqb symbol) OSCILLATING_SYMBOLS = true ∨
   (∀ last, last_good = Some last →
      ∃ j, jump_pct value last = Ok j ∧ fgt j MAX_JUMP_PCT = false)
   ∧ is_mad_outlier value window MAD_THRESHOLD = Ok false).
Proof.
  unfold classify_observation.
  destruct (sanity_ok symbol value); cbn [negb]; [|naive_solver].
  destruct (existsb _ _); [naive_solver|].
  destruct last_good as [last|]; simpl.
  - destruct (jump_pct value last) as [j|e] eqn:Hjp; simpl.
    2: { split; [done|]. intros (_&_&[?|[Hj _]]); [done|].
         destruct (Hj last eq_refl) as (?&?&?). congruence. }
    destruct (fgt j MAX_JUMP_PCT) eqn:Hj; simpl.
    + split; [done|]. intros (_&_&[?|[Hj' _]]); [done|].
      destruct (Hj' last eq_refl) as (?&?&?). congruence.
    + destruct (is_mad_outlier value window MAD_THRESHOLD) as [[]|]; naive_solver.
  - destruct (is_mad_outlier value window MAD_THRESHOLD) as [[]|]; naive_solver.
Qed.

(** The [^TNX] series rule, for the whole download: if any bar is above the
    25% ceiling every bar is read as an index value and divided by ten,
    otherwise every bar is kept exactly; so a one-bar series is read as
    [tnx_to_pct] reads a lone quote. *)
Theorem tnx_series_one_convention quotes :
  Forall (λ q, is_nan q = false ∧ valid_float q = true) quotes →
  tnx_series_to_pct quotes =
  if existsb (λ q, fgt q TNX_MAX_YIELD_PCT) quotes
  then (λ q, fdiv_ieee q (float_of_Z 10)) <$> quotes else quotes.
Proof.
  intros Hq. unfold tnx_series_to_pct.
  destruct quotes as [|q0 qs]; [done|]. cbn [first_max].
  set (top := first_max_from fgt q0 qs).
  assert (fgt top TNX_MAX_YIELD_PCT = existsb (λ q, fgt q TNX_MAX_YIELD_PCT) (q0 :: qs)) as <-.
  { apply eq_true_iff_eq. rewrite existsb_exists. split.
    - intros Ht. exists top. split; [|done]. apply list_elem_of_In, first_max_from_elem.
    - intros (q&Hin%list_elem_of_In&Hgt).
      assert (fgt q top = false) as Hmax.
      { apply (first_max_from_ge fgt (λ q, is_nan q = false)); [| | | |done].
        - intros x y z Hy Hxy Hyz. unfold fgt in *. by apply (flt_negtrans z y x).
        - intros x y. unfold fgt. apply flt_asym.
        - intros x. apply flt_irrefl.
        - eapply Forall_impl; [exact Hq|]. naive_solver. }
      unfold fgt in *. destruct (flt TNX_MAX_YIELD_PCT top) eqn:Hn; [done|].
      assert (is_nan top = false) as Htop.
      { rewrite Forall_forall in Hq. apply Hq, first_max_from_elem. }
      by rewrite (flt_negtrans TNX_MAX_YIELD_PCT top q Htop Hn Hmax) in Hgt. }
  destruct (fgt top TNX_MAX_YIELD_PCT); [done|].
  clear -Hq. induction Hq as [|x xs [_ Hv] _ IH]; [done|].
  rewrite fmap_cons. simpl. f_equal; [by apply fdiv_one_r|exact IH].
Qed.

Lemma tnx_series_one_convention_witness :
  tnx_series_to_pct [flit 128 1; flit 468 1] =
  if existsb (λ q, fgt q TNX_MAX_YIELD_PCT) [flit 128 1; flit 468 1]
  then (λ q, fdiv_ieee q (float_of_Z 10)) <$> [flit 128 1; flit 468 1]
  else [flit 128 1; flit 468 1].
Proof.
  apply tnx_series_one_convention. repeat constructor; by vm_compute.
Defined.
