(* ===== verification/EquityAdjust.v ===== *)
(** * Corporate actions and back-adjustment of equity bars

    [app/equities/adjust.py]: parsing of a daily-bar payload, detection of the
    exchange's corporate actions from the reference price each session opened
    on, the chain of factors, the adjusted closes and the validation gate.

    An exception's message is the data it is built from ([bar_error]); a
    refusal reason likewise.  Prices and ratios are binary64 floats and every
    product, quotient and comparison is executed on them. *)
From S2P Require Import Prelude PyFloat PyTime PyText PyJson.
Local Open Scope string_scope.
Local Open Scope list_scope.
Local Open Scope Z_scope.

Definition MAX_SESSION_RETURN : float := flit 25 2.
Definition MAX_REOPENING_RETURN : float := float_of_Z 3.
Definition SESSION_GAP_DAYS : Z := 4.

Inductive status : Set := validated | refused.

Definition FIELD_LIST : string := "closingPriceDaily".
Definition REQUIRED_FIELDS : list string :=
  ["dEven"; "insCode"; "priceYesterday"; "priceFirst"; "priceMin"; "priceMax";
   "pClosing"; "pDrCotVal"; "qTotTran5J"; "zTotTran"; "qTotCap"].

(** [BarParseError], by the refusal it states; [Uncaught] is an exception of
    the interpreter the code does not turn into one. *)
Inductive bar_error : Set :=
| PayloadNotObject
| NoRowList
| NoRows
| RowNotObject (index : nat)
| MissingFields (index : nat) (fields : list string)
| NotAnIntegerDate (value : json)
| DateOutOfBand (n : Z)
| NotACalendarDate (n : Z)
| TwoBarsForDate (d : date) (first index : nat)
| NotANumber (key : string) (value : json)
| NonPositiveClose (d : date) (final_close : float)
| MixedInstruments (codes : list string)
| WrongInstrument (payload_code offered : string)
| UndividableReference (d : date) (price_yesterday prev_close : float)
| UndividableRestatement (d : date) (final_close price_yesterday : float)
| NoBars
| NeverTraded (n : nat)
| Uncaught (e : pyerr).

Definition uncaught {A} (m : result pyerr A) : result bar_error A :=
  match m with Ok a => Ok a | Err e => Err (Uncaught e) end.

(** ** Records *)
Record Bar : Set := {
  ins_code : string;
  trade_date : date;
  b_open : float;
  b_high : float;
  b_low : float;
  b_close : float;
  final_close : float;
  price_yesterday : float;
  volume : Z;
  trade_count : Z;
  b_value : float;
}.

Definition traded (b : Bar) : bool := (0 <? volume b) || (0 <? trade_count b).

Inductive kind : Set := reference_restated | close_restated.

Record CorporateAction : Set := {
  effective_date : date;
  prev_trade_date : date;
  prev_close : float;
  act_price_yesterday : float;
  ratio : float;
  cumulative_factor : float;
  act_kind : kind;
  restated_close : option float;
}.

Record ContestedBreak : Set := {
  cb_effective_date : date;
  cb_prev_trade_date : date;
  cb_prev_close : float;
  cb_price_yesterday : float;
  chained_by : float;
}.

(** Per trade date, the (close, reference) pairs other copies served. *)
Abbreviation Alternatives := (gmap Z (list (float * float))).

Record SessionMove : Set := {
  mv_trade_date : date;
  mv_prev_trade_date : date;
  gap_days : Z;
  ret : float;
  is_session : bool;
}.

Inductive refusal : Set :=
| SessionsBeyond (bound : float) (moves : list SessionMove)
| ReopeningsBeyond (bound : float) (moves : list SessionMove).

Record Validation : Set := {
  v_status : status;
  sessions_checked : nat;
  reopenings : nat;
  worst_return : option float;
  worst_return_date : option date;
  violations : list SessionMove;
  v_max_session_return : float;
  v_max_reopening_return : float;
  v_session_gap_days : Z;
  refusal_reason : list refusal;
}.

Record AdjustedSeries : Set := {
  s_ins_code : string;
  bars : list Bar;
  actions : list CorporateAction;
  pre_listing_bars : nat;
  adjusted_closes : list float;
  validation : Validation;
  contested : list ContestedBreak;
}.

Definition ok (v : Validation) : bool :=
  match v_status v with validated => true | refused => false end.

Definition traded_bars (s : AdjustedSeries) : list Bar := drop (pre_listing_bars s) (bars s).

(** Last over first of a series, 0.0 when it is empty. *)
Definition last_over_first (xs : list float) : result pyerr float :=
  match xs with
  | [] => Ok fzero
  | x :: _ => fdiv (List.last xs x) x
  end.

Definition raw_ratio (s : AdjustedSeries) : result pyerr float :=
  last_over_first (final_close <$> traded_bars s).

Definition adjusted_ratio (s : AdjustedSeries) : result pyerr float :=
  last_over_first (adjusted_closes s).

(** ** Parsing *)

(** [int(value)] with TypeError and ValueError refused, a band, then
    [date(n // 10000, (n // 100) % 100, n % 100)]. *)
Definition parse_deven (value : json) : result bar_error date :=
  n ← match py_int_of value with
      | Ok n => Ok n
      | Err TypeError | Err ValueError => Err (NotAnIntegerDate value)
      | Err e => Err (Uncaught e)
      end;
  if negb ((19000101 <=? n) && (n <=? 21001231)) then Err (DateOutOfBand n)
  else
    match mk_date (n / 10000) ((n / 100) mod 100) (n mod 100) with
    | Ok d => Ok d
    | Err _ => Err (NotACalendarDate n)
    end.

Definition _number (row : list (string * json)) (key : string) : result bar_error float :=
  match json_number (jget key row) with
  | None => Err (NotANumber key (jget key row))
  | Some x => uncaught x
  end.

Definition _int_number (row : list (string * json)) (key : string) : result bar_error Z :=
  x ← _number row key; uncaught (int_of_float x).

Section Parse.
Context (repr : json → string).

(** The loop's state: bars so far, the row each date was seen at, the codes. *)
Record parse_state : Set := {
  p_bars : list Bar;
  p_seen : gmap Z nat;
  p_codes : gset string;
}.

Definition parse_row (st : parse_state) (index : nat) (row : json)
    : result bar_error parse_state :=
  match row with
  | JObj row =>
      let missing := List.filter (λ f, negb (has_key f row)) REQUIRED_FIELDS in
      if negb (bool_decide (missing = [])) then Err (MissingFields index missing)
      else
        let code := strip (py_str repr (jget "insCode" row)) in
        trade_date ← parse_deven (jget "dEven" row);
        match p_seen st !! trade_date with
        | Some first => Err (TwoBarsForDate trade_date first index)
        | None =>
            final_close ← _number row "pClosing";
            if fle final_close fzero then Err (NonPositiveClose trade_date final_close)
            else
              o ← _number row "priceFirst";
              h ← _number row "priceMax";
              l ← _number row "priceMin";
              c ← _number row "pDrCotVal";
              py ← _number row "priceYesterday";
              vol ← _int_number row "qTotTran5J";
              cnt ← _int_number row "zTotTran";
              v ← _number row "qTotCap";
              Ok {|
                p_bars := p_bars st ++ [{|
                  ins_code := code; trade_date := trade_date;
                  b_open := o; b_high := h; b_low := l; b_close := c;
                  final_close := final_close; price_yesterday := py;
                  volume := vol; trade_count := cnt; b_value := v |}];
                p_seen := <[trade_date := index]> (p_seen st);
                p_codes := {[code]} ∪ p_codes st |}
        end
  | _ => Err (RowNotObject index)
  end.

Fixpoint parse_rows (st : parse_state) (index : nat) (rows : list json)
    : result bar_error parse_state :=
  match rows with
  | [] => Ok st
  | row :: rows => st ← parse_row st index row; parse_rows st (S index) rows
  end.

Definition parse_daily_list (payload : json) (ins_code : string)
    : result bar_error (list Bar) :=
  match payload with
  | JObj items =>
      match jget FIELD_LIST items with
      | JArr [] => Err NoRows
      | JArr rows =>
          st ← parse_rows {| p_bars := []; p_seen := ∅; p_codes := ∅ |} 0 rows;
          match elements (p_codes st) with
          | [payload_code] =>
              if negb (String.eqb ins_code "")
                 && negb (String.eqb payload_code (strip ins_code))
              then Err (WrongInstrument payload_code ins_code)
              else Ok (sort_by trade_date (p_bars st))
          | codes => Err (MixedInstruments codes)
          end
      | _ => Err NoRowList
      end
  | _ => Err PayloadNotObject
  end.
End Parse.

(** ** Detection *)
Fixpoint first_traded_index (bars : list Bar) : nat :=
  match bars with
  | [] => 0
  | b :: bars => if traded b then 0 else S (first_traded_index bars)
  end.

(** Any close a copy served for the first bar that equals any reference a copy
    served for the second; the least of them. *)
Definition chained_by_a_copy (previous current : Bar) (alternatives : option Alternatives)
    : option float :=
  match alternatives with
  | None => None
  | Some alts =>
      if bool_decide (alts = ∅) then None
      else
        let closes :=
          final_close previous :: (fst <$> default [] (alts !! trade_date previous)) in
        let refs :=
          price_yesterday current :: (snd <$> default [] (alts !! trade_date current)) in
        let common := List.filter (λ c, existsb (feq c) refs) closes in
        match common with
        | [] => None
        | c :: cs => Some (foldl fmin c cs)
        end
  end.

(** What one boundary between two bars contributes. *)
Definition detect_pair (alternatives : option Alternatives) (previous current : Bar)
    : result bar_error (list CorporateAction * list ContestedBreak) :=
  if fne (price_yesterday current) (final_close previous) then
    let chained :=
      if traded previous && traded current
      then chained_by_a_copy previous current alternatives else None in
    match chained with
    | Some c =>
        Ok ([], [{| cb_effective_date := trade_date current;
                    cb_prev_trade_date := trade_date previous;
                    cb_prev_close := final_close previous;
                    cb_price_yesterday := price_yesterday current;
                    chained_by := c |}])
    | None =>
        if fle (price_yesterday current) fzero || fle (final_close previous) fzero
        then Err (UndividableReference (trade_date current)
                    (price_yesterday current) (final_close previous))
        else
          r ← uncaught (fdiv (price_yesterday current) (final_close previous));
          Ok ([{| effective_date := trade_date current;
                  prev_trade_date := trade_date previous;
                  prev_close := final_close previous;
                  act_price_yesterday := price_yesterday current;
                  ratio := r;
                  cumulative_factor := fone;
                  act_kind := reference_restated;
                  restated_close := None |}], [])
    end
  else if negb (traded current) && fne (final_close current) (price_yesterday current) then
    if fle (price_yesterday current) fzero
    then Err (UndividableRestatement (trade_date current)
                (final_close current) (price_yesterday current))
    else
      r ← uncaught (fdiv (final_close current) (price_yesterday current));
      Ok ([{| effective_date := trade_date current;
              prev_trade_date := trade_date previous;
              prev_close := final_close previous;
              act_price_yesterday := price_yesterday current;
              ratio := r;
              cumulative_factor := fone;
              act_kind := close_restated;
              restated_close := Some (final_close current) |}], [])
  else Ok ([], []).

Fixpoint detect_from (alternatives : option Alternatives) (previous : Bar) (bars : list Bar)
    : result bar_error (list CorporateAction * list ContestedBreak) :=
  match bars with
  | [] => Ok ([], [])
  | current :: bars =>
      p ← detect_pair alternatives previous current;
      rest ← detect_from alternatives current bars;
      Ok ((p.1 ++ rest.1)%list, (p.2 ++ rest.2)%list)
  end.

Definition detect_actions (bars : list Bar) (alternatives : option Alternatives)
    : result bar_error (list CorporateAction * list ContestedBreak) :=
  match bars with
  | [] => Ok ([], [])
  | b :: bars => detect_from alternatives b bars
  end.

(** ** Factors *)
Definition with_factor (a : CorporateAction) (f : float) : CorporateAction := {|
  effective_date := effective_date a; prev_trade_date := prev_trade_date a;
  prev_close := prev_close a; act_price_yesterday := act_price_yesterday a;
  ratio := ratio a; cumulative_factor := f; act_kind := act_kind a;
  restated_close := restated_close a |}.

(** [for action in reversed(actions): running *= action.ratio] *)
Fixpoint chain_reversed (running : float) (rev_actions : list CorporateAction)
    : list CorporateAction :=
  match rev_actions with
  | [] => []
  | a :: rest =>
      let running := fmul running (ratio a) in
      with_factor a running :: chain_reversed running rest
  end.

Definition chain_factors (actions : list CorporateAction) : list CorporateAction :=
  rev (chain_reversed fone (rev actions)).

(** [while cursor < len(dates) and dates[cursor] <= d: cursor += 1]; the cursor
    is the list of actions not yet passed. *)
Fixpoint advance (d : date) (cursor : list CorporateAction) : list CorporateAction :=
  match cursor with
  | [] => []
  | a :: rest => if effective_date a <=? d then advance d rest else cursor
  end.

Definition factor_at (cursor : list CorporateAction) : float :=
  match cursor with [] => fone | a :: _ => cumulative_factor a end.

Fixpoint apply_factors (bars : list Bar) (cursor : list CorporateAction) : list float :=
  match bars with
  | [] => []
  | b :: bars =>
      let cursor := advance (trade_date b) cursor in
      fmul (final_close b) (factor_at cursor) :: apply_factors bars cursor
  end.

(** ** The gate *)

(** Over the bars paired with their adjusted closes (the two lists are aligned). *)
Fixpoint moves_from (session_gap_days : Z) (previous : Bar * float) (rest : list (Bar * float))
    : result pyerr (list SessionMove) :=
  match rest with
  | [] => Ok []
  | current :: rest =>
      let gap := trade_date current.1 - trade_date previous.1 in
      q ← fdiv current.2 previous.2;
      moves ← moves_from session_gap_days current rest;
      Ok ({| mv_trade_date := trade_date current.1;
             mv_prev_trade_date := trade_date previous.1;
             gap_days := gap;
             ret := fsub q fone;
             is_session :=
               traded current.1 && traded previous.1 && (gap <=? session_gap_days) |}
          :: moves)
  end.

Definition session_moves (bars : list Bar) (adjusted : list float) (session_gap_days : Z)
    : result pyerr (list SessionMove) :=
  match List.combine bars adjusted with
  | [] => Ok []
  | b :: rest => moves_from session_gap_days b rest
  end.

Definition beyond (bound : float) (m : SessionMove) : bool := fgt (fabs (ret m)) bound.

Definition validate (moves : list SessionMove) (max_session_return max_reopening_return : float)
    (session_gap_days : Z) : Validation :=
  let sessions := List.filter is_session moves in
  let reopened := List.filter (λ m, negb (is_session m)) moves in
  let over_session := List.filter (beyond max_session_return) sessions in
  let over_reopening := List.filter (beyond max_reopening_return) reopened in
  let viol := (over_session ++ over_reopening)%list in
  let worst := first_max (λ m m', fgt (fabs (ret m)) (fabs (ret m'))) sessions in
  let reasons :=
    ((if bool_decide (over_session = []) then []
      else [SessionsBeyond max_session_return over_session])
     ++ (if bool_decide (over_reopening = []) then []
         else [ReopeningsBeyond max_reopening_return over_reopening]))%list in
  {| v_status := if bool_decide (viol = []) then validated else refused;
     sessions_checked := length sessions;
     reopenings := length (List.filter (beyond max_session_return) reopened);
     worst_return := ret <$> worst;
     worst_return_date := mv_trade_date <$> worst;
     violations := viol;
     v_max_session_return := max_session_return;
     v_max_reopening_return := max_reopening_return;
     v_session_gap_days := session_gap_days;
     refusal_reason := reasons |}.

(** ** The whole adjustment *)
Definition adjust (bars : list Bar) (max_session_return max_reopening_return : float)
    (session_gap_days : Z) (alternatives : option Alternatives)
    : result bar_error AdjustedSeries :=
  match sort_by trade_date bars with
  | [] => Err NoBars
  | (b0 :: _) as ordered =>
      det ← detect_actions ordered alternatives;
      let acts := chain_factors det.1 in
      let lead := first_traded_index ordered in
      if (length ordered <=? lead)%nat then Err (NeverTraded (length ordered))
      else
        let span := drop lead ordered in
        let adjusted := apply_factors span acts in
        moves ← uncaught (session_moves span adjusted session_gap_days);
        Ok {| s_ins_code := ins_code b0;
              bars := ordered;
              actions := acts;
              pre_listing_bars := lead;
              adjusted_closes := adjusted;
              validation := validate moves max_session_return max_reopening_return
                              session_gap_days;
              contested := det.2 |}
  end.

Definition adjust_payload (repr : json → string) (payload : json) (ins_code : string)
    (max_session_return max_reopening_return : float) (session_gap_days : Z)
    : result bar_error AdjustedSeries :=
  parsed ← parse_daily_list repr payload ins_code;
  adjust parsed max_session_return max_reopening_return session_gap_days None.

Definition adjusted_pairs (s : AdjustedSeries) : list (Bar * float) :=
  List.combine (traded_bars s) (adjusted_closes s).

(** ** Parsing: what a payload that is accepted must have been *)
Section ParseSound.
Context (repr : json → string).

(** The loop invariant of [parse_daily_list]. *)
Record parse_inv (st : parse_state) (index : nat) : Prop := {
  pi_length : length (p_bars st) = index;
  pi_nodup : NoDup (trade_date <$> p_bars st);
  pi_seen : ∀ d, is_Some (p_seen st !! d) ↔ d ∈ trade_date <$> p_bars st;
  pi_codes : ∀ c, c ∈ p_codes st ↔ c ∈ ins_code <$> p_bars st;
  pi_close : Forall (λ b, fle (final_close b) fzero = false) (p_bars st);
}.

Lemma parse_inv_init : parse_inv {| p_bars := []; p_seen := ∅; p_codes := ∅ |} 0.
Proof.
  split; simpl; [done|constructor| |set_solver|constructor].
  intros d. rewrite lookup_empty, elem_of_nil. split; [by intros [? [=]]|done].
Qed.

Lemma parse_row_inv st index row st' :
  parse_inv st index → parse_row repr st index row = Ok st' → parse_inv st' (S index).
Proof.
  intros [Hlen Hnd Hseen Hcodes Hclose]. unfold parse_row. destruct row; try done.
  destruct (negb _); [done|]. intros H. apply bind_Ok in H as (d&Hd&H).
  destruct (p_seen st !! d) eqn:Hfresh; [done|]. apply bind_Ok in H as (fc&Hfc&H).
  destruct (fle fc fzero) eqn:Hpos; [done|]. inv_ok.
  assert (d ∉ trade_date <$> p_bars st) as Hnew.
  { rewrite <- Hseen, Hfresh. by intros [? [=]]. }
  split; simpl.
  - rewrite length_app. simpl. lia.
  - rewrite fmap_app. simpl. apply NoDup_app. split_and!; [done| |apply NoDup_singleton].
    intros x Hx ->%list_elem_of_singleton. done.
  - intros x. rewrite fmap_app, elem_of_app. simpl. rewrite list_elem_of_singleton.
    rewrite <- Hseen. destruct (decide (x = d)) as [->|Hne].
    + rewrite lookup_insert_eq. split; [by right|by eexists].
    + rewrite lookup_insert_ne by done. naive_solver.
  - intros c. rewrite fmap_app, elem_of_app, elem_of_union, elem_of_singleton, Hcodes.
    simpl. rewrite list_elem_of_singleton. tauto.
  - apply Forall_app. split; [done|]. by constructor.
Qed.

Lemma parse_rows_inv st index rows st' :
  parse_inv st index → parse_rows repr st index rows = Ok st' →
  parse_inv st' (index + length rows).
Proof.
  revert st index. induction rows as [|row rows IH]; intros st index Hinv; simpl.
  - intros [= <-]. by rewrite Nat.add_0_r.
  - intros H. apply bind_Ok in H as (st1&H1&H).
    rewrite Nat.add_succ_r. apply (IH st1 (S index)); [|done]. by eapply parse_row_inv.
Qed.

(** An accepted payload is one instrument's history: its bars are in
    strictly ascending date order (so no session is counted twice), one per
    row, all carrying the same code, which is the offered one when a code was
    offered; and no closing price is zero or negative. *)
Theorem parse_daily_list_sound items rows offered bs :
  jget FIELD_LIST items = JArr rows →
  parse_daily_list repr (JObj items) offered = Ok bs →
  length bs = length rows ∧ bs ≠ []
  ∧ strictly_ascending trade_date bs
  ∧ Forall (λ b, fle (final_close b) fzero = false) bs
  ∧ ∃ c, Forall (λ b, ins_code b = c) bs ∧ (offered = "" ∨ c = strip offered).
Proof.
  intros Hrows. unfold parse_daily_list. rewrite Hrows.
  destruct rows as [|row rows']; [done|]. set (rows := row :: rows') in *. intros H.
  apply bind_Ok in H as (st&Hst&H).
  pose proof (parse_rows_inv _ _ _ _ parse_inv_init Hst) as [Hlen Hnd Hseen Hcodes Hclose].
  destruct (elements (p_codes st)) as [|code [|]] eqn:Hel; [done| |done].
  destruct (_ && _) eqn:Hoff in H; [done|]. injection H as <-.
  assert (p_codes st = {[code]}) as Hset.
  { apply set_eq. intros x. rewrite <- elem_of_elements, Hel. set_solver. }
  assert (sort_by trade_date (p_bars st) ≡ₚ p_bars st) as Hperm by apply py_sorted_perm.
  split_and!.
  - by rewrite Hperm, Hlen.
  - intros Hnil. rewrite Hnil in Hperm. apply Permutation_nil_l in Hperm.
    by rewrite <- Hperm in Hlen.
  - by apply sort_by_strict.
  - by rewrite Hperm.
  - exists code. split.
    + rewrite Hperm. apply Forall_forall. intros b Hb.
      assert (ins_code b ∈ p_codes st) as Hin
        by (apply Hcodes; by apply list_elem_of_fmap_2).
      rewrite Hset in Hin. by apply elem_of_singleton in Hin.
    + apply andb_false_iff in Hoff as [Ho|Ho]; apply negb_false_iff, String.eqb_eq in Ho;
        [by left|by right].
Qed.
End ParseSound.

(** A two-row payload, newest first, the second session opened on a new basis. *)
Definition a_row (deven close yesterday vol : Z) : json := JObj
  [("insCode", JStr "123 "); ("dEven", JInt deven); ("priceYesterday", JInt yesterday);
   ("priceFirst", JInt close); ("priceMin", JInt close); ("priceMax", JInt close);
   ("pClosing", JInt close); ("pDrCotVal", JFloat (float_of_Z close));
   ("qTotTran5J", JInt vol); ("zTotTran", JInt vol); ("qTotCap", JInt 0)].

Definition a_payload : list (string * json) :=
  [(FIELD_LIST, JArr [a_row 20260909 520 500 10; a_row 20260908 1000 990 7])].

Definition no_repr (v : json) : string := "".

Definition ok_or {A} (d : A) {E} (m : result E A) : A := match m with Ok a => a | Err _ => d end.

Definition a_series : list Bar := ok_or [] (parse_daily_list no_repr (JObj a_payload) "123").

Lemma parse_daily_list_sound_witness :
  length a_series = 2%nat ∧ a_series ≠ []
  ∧ strictly_ascending trade_date a_series
  ∧ Forall (λ b, fle (final_close b) fzero = false) a_series
  ∧ ∃ c, Forall (λ b, ins_code b = c) a_series ∧ ("123" = "" ∨ c = strip "123").
Proof.
  apply (parse_daily_list_sound no_repr a_payload
           [a_row 20260909 520 500 10; a_row 20260908 1000 990 7] "123");
    vm_compute; reflexivity.
Defined.

(** ** Detection: the audit trail of every action *)

(** Two consecutive bars of the series. *)
Definition adjacent (bs : list Bar) (p c : Bar) : Prop :=
  ∃ i, bs !! i = Some p ∧ bs !! S i = Some c.

Lemma adjacent_cons b bs p c :
  adjacent (b :: bs) p c ↔ (p = b ∧ List.head bs = Some c) ∨ adjacent bs p c.
Proof.
  split.
  - intros ([|i]&Hp&Hc); simpl in *; [left|right; by exists i].
    injection Hp as ->. by destruct bs.
  - intros [[-> Hc]|(i&Hp&Hc)]; [exists 0%nat|by exists (S i)].
    split; [done|]. by destruct bs.
Qed.

Lemma detect_from_elem alts b bs acts cont a :
  detect_from alts b bs = Ok (acts, cont) → a ∈ acts →
  ∃ p c pa pc, adjacent (b :: bs) p c ∧ detect_pair alts p c = Ok (pa, pc) ∧ a ∈ pa.
Proof.
  revert b acts cont. induction bs as [|c bs IH]; intros b acts cont; simpl.
  { intros [= <- <-]. by intros ?%elem_of_nil. }
  intros H Ha. apply bind_Ok in H as ([pa pc]&Hp&H). apply bind_Ok in H as ([ra rc]&Hr&H).
  simpl in H. injection H as <- <-. apply elem_of_app in Ha as [Ha|Ha].
  - exists b, c, pa, pc. split_and!; [|done|done]. apply adjacent_cons. by left.
  - destruct (IH c ra rc Hr Ha) as (p&c'&pa'&pc'&Hadj&?&?).
    exists p, c', pa', pc'. split_and!; [|done|done]. apply adjacent_cons. by right.
Qed.

Lemma uncaught_Ok {A} (m : result pyerr A) a : uncaught m = Ok a ↔ m = Ok a.
Proof. destruct m; simpl; naive_solver. Qed.

(** Every detected action can be audited from the stored bars: it sits on
    two consecutive bars and either the later session opened on a reference
    that differs from the earlier close, with the ratio exactly
    [priceYesterday / previous close] of two numbers neither of which is [<= 0],
    or the reference agrees and a bar on which nothing traded restates its own
    close, with the ratio exactly [close / priceYesterday].  A break between
    two traded bars that another served copy chains is never an action. *)
Theorem detect_actions_audit bs alts acts cont a :
  detect_actions bs alts = Ok (acts, cont) → a ∈ acts →
  ∃ p c, adjacent bs p c
    ∧ effective_date a = trade_date c ∧ prev_trade_date a = trade_date p
    ∧ prev_close a = final_close p ∧ act_price_yesterday a = price_yesterday c
    ∧ match act_kind a with
      | reference_restated =>
          fne (price_yesterday c) (final_close p) = true
          ∧ fle (price_yesterday c) fzero = false ∧ fle (final_close p) fzero = false
          ∧ fdiv (price_yesterday c) (final_close p) = Ok (ratio a)
          ∧ restated_close a = None
          ∧ (traded p && traded c = true → chained_by_a_copy p c alts = None)
      | close_restated =>
          fne (price_yesterday c) (final_close p) = false ∧ traded c = false
          ∧ fne (final_close c) (price_yesterday c) = true
          ∧ fdiv (final_close c) (price_yesterday c) = Ok (ratio a)
          ∧ restated_close a = Some (final_close c)
      end.
Proof.
  destruct bs as [|b bs]; [intros [= <- <-]; by intros ?%elem_of_nil|]. simpl.
  intros Hd Ha. destruct (detect_from_elem _ _ _ _ _ _ Hd Ha) as (p&c&pa&pc&Hadj&Hp&Hin).
  exists p, c. unfold detect_pair in Hp.
  destruct (fne (price_yesterday c) (final_close p)) eqn:Hne.
  - destruct (if traded p && traded c then _ else _) as [ch|] eqn:Hch.
    { injection Hp as <- <-. by apply elem_of_nil in Hin. }
    destruct (_ || _) eqn:Hpos in Hp; [done|]. apply orb_false_iff in Hpos as [Hp1 Hp2].
    apply bind_Ok in Hp as (r&Hr%uncaught_Ok&Hp). injection Hp as <- <-.
    apply list_elem_of_singleton in Hin as ->. simpl. split_and!; try done.
    intros Ht. by rewrite Ht in Hch.
  - destruct (_ && _) eqn:Hhalt in Hp.
    2: { injection Hp as <- <-. by apply elem_of_nil in Hin. }
    apply andb_true_iff in Hhalt as [Ht%negb_true_iff Hfc].
    destruct (fle _ _) in Hp; [done|].
    apply bind_Ok in Hp as (r&Hr%uncaught_Ok&Hp). injection Hp as <- <-.
    apply list_elem_of_singleton in Hin as ->. simpl. by split_and!.
Qed.

Definition a_detection : list CorporateAction * list ContestedBreak :=
  ok_or ([], []) (detect_actions a_series None).

Definition the_action : CorporateAction := {|
  effective_date := ordinal 2026 9 9; prev_trade_date := ordinal 2026 9 8;
  prev_close := float_of_Z 1000; act_price_yesterday := float_of_Z 500;
  ratio := flit 5 1; cumulative_factor := fone; act_kind := reference_restated;
  restated_close := None |}.

Lemma detect_actions_audit_witness :
  ∃ p c, adjacent a_series p c
    ∧ effective_date the_action = trade_date c ∧ prev_trade_date the_action = trade_date p
    ∧ prev_close the_action = final_close p ∧ act_price_yesterday the_action = price_yesterday c
    ∧ fne (price_yesterday c) (final_close p) = true
    ∧ fle (price_yesterday c) fzero = false ∧ fle (final_close p) fzero = false
    ∧ fdiv (price_yesterday c) (final_close p) = Ok (ratio the_action)
    ∧ restated_close the_action = None
    ∧ (traded p && traded c = true → chained_by_a_copy p c None = None).
Proof.
  apply (detect_actions_audit a_series None [the_action] [] the_action);
    [vm_compute; reflexivity|left].
Defined.

Lemma detect_from_dates alts b bs acts cont :
  strictly_ascending trade_date (b :: bs) →
  detect_from alts b bs = Ok (acts, cont) →
  strictly_ascending effective_date acts ∧ Forall (λ a, trade_date b < effective_date a) acts.
Proof.
  revert b acts cont. induction bs as [|c bs IH]; intros b acts cont Hasc; simpl.
  { intros [= <- <-]. by repeat constructor. }
  intros H. apply bind_Ok in H as ([pa pc]&Hp&H). apply bind_Ok in H as ([ra rc]&Hr&H).
  simpl in H. injection H as <- <-.
  apply StronglySorted_inv in Hasc as [Hasc Hb]. apply Forall_cons in Hb as [Hbc _].
  destruct (IH c ra rc Hasc Hr) as [Hss Hall].
  assert (pa = [] ∨ ∃ a, pa = [a] ∧ effective_date a = trade_date c) as Hpa.
  { unfold detect_pair in Hp. repeat destruct_if; try done; simplify_eq; auto; inv_ok;
      simplify_eq; eauto.
    all: try (destruct (chained_by_a_copy _ _ _); simplify_eq; auto; inv_ok; simplify_eq; eauto). }
  destruct Hpa as [->|(a&->&Ha)]; simpl.
  - split; [done|]. eapply Forall_impl; [exact Hall|]. simpl. lia.
  - split.
    + constructor; [done|]. eapply Forall_impl; [exact Hall|]. simpl. lia.
    + constructor; [lia|]. eapply Forall_impl; [exact Hall|]. simpl. lia.
Qed.

Lemma detect_actions_dates bs alts acts cont :
  strictly_ascending trade_date bs → detect_actions bs alts = Ok (acts, cont) →
  strictly_ascending effective_date acts.
Proof.
  destruct bs as [|b bs]; simpl; [intros _ [= <- <-]; constructor|].
  intros Hasc Hd. by eapply detect_from_dates.
Qed.

(** ** The factor chain *)

(** The product of a list of ratios, latest first: [1.0 * r_n * ... * r_i]. *)
Definition ratio_product (acts : list CorporateAction) : float :=
  foldl fmul fone (ratio <$> rev acts).

Lemma chain_reversed_app run l1 l2 :
  chain_reversed run (l1 ++ l2) =
  chain_reversed run l1 ++ chain_reversed (foldl fmul run (ratio <$> l1)) l2.
Proof. revert run. induction l1 as [|a l1 IH]; intros run; simpl; [done|]. by rewrite IH. Qed.

Lemma chain_factors_cons a acts :
  chain_factors (a :: acts) =
  with_factor a (ratio_product (a :: acts)) :: chain_factors acts.
Proof.
  unfold chain_factors, ratio_product. simpl. rewrite chain_reversed_app. simpl.
  rewrite rev_app_distr. simpl. by rewrite fmap_app, foldl_app.
Qed.

(** [cumulative_factor] is the product of an action's ratio and every LATER
    one, accumulated from the newest backwards as the code does (so the same
    floats, not only the same number); nothing else of an action changes. *)
Theorem chain_factors_products acts :
  chain_factors acts =
  imap (λ i a, with_factor a (ratio_product (drop i acts))) acts.
Proof.
  induction acts as [|a acts IH]; [done|]. rewrite chain_factors_cons, IH. done.
Qed.

Lemma chain_factors_dates acts : effective_date <$> chain_factors acts = effective_date <$> acts.
Proof. induction acts as [|a acts IH]; [done|]. by rewrite chain_factors_cons, !fmap_cons, IH. Qed.

Lemma chain_factors_ascending acts :
  strictly_ascending effective_date acts → strictly_ascending effective_date (chain_factors acts).
Proof.
  induction 1 as [|a acts _ IH Ha]; [constructor|]. rewrite chain_factors_cons.
  constructor; [done|]. apply Forall_forall. intros a' Ha'. simpl.
  assert (effective_date a' ∈ effective_date <$> acts) as (a2&->&Hin)%list_elem_of_fmap.
  { rewrite <- chain_factors_dates. by apply list_elem_of_fmap_2. }
  rewrite Forall_forall in Ha. by apply Ha.
Qed.

(** The factor in force on a date: that of the first action strictly after it. *)
Fixpoint factor_for (acts : list CorporateAction) (d : date) : float :=
  match acts with
  | [] => fone
  | a :: acts => if d <? effective_date a then cumulative_factor a else factor_for acts d
  end.

Lemma factor_at_advance acts d : factor_at (advance d acts) = factor_for acts d.
Proof.
  induction acts as [|a acts IH]; simpl; [done|]. rewrite Z.ltb_antisym.
  by destruct (effective_date a <=? d).
Qed.

Lemma factor_for_advance acts d d' : d ≤ d' → factor_for (advance d acts) d' = factor_for acts d'.
Proof.
  intros Hle. induction acts as [|a acts IH]; simpl; [done|].
  destruct (Z.leb_spec (effective_date a) d); [|done]. rewrite IH.
  by destruct (Z.ltb_spec d' (effective_date a)); [lia|].
Qed.

(** The merge-style cursor computes the per-date lookup. *)
Lemma apply_factors_lookup bs acts :
  ascending trade_date bs →
  apply_factors bs acts = (λ b, fmul (final_close b) (factor_for acts (trade_date b))) <$> bs.
Proof.
  intros Hasc. revert acts. induction Hasc as [|b bs _ IH Hb]; intros acts; simpl; [done|].
  rewrite factor_at_advance, IH. f_equal. apply list_fmap_ext. intros i b' Hi%list_elem_of_lookup_2.
  rewrite Forall_forall in Hb. f_equal. apply factor_for_advance, Hb, Hi.
Qed.

Lemma strictly_ascending_ascending {A} (key : A → Z) l :
  strictly_ascending key l → ascending key l.
Proof. apply StronglySorted_impl. lia. Qed.

(** The single cursor pass over bars and actions is the per-bar lookup it
    optimises: each adjusted close is the raw close times the cumulative factor
    of the first action dated strictly after that session, or 1.0 after the
    last one.  (An action's own session is already on the new basis.) *)
Theorem apply_factors_is_lookup bs acts :
  ascending trade_date bs →
  apply_factors bs acts = (λ b, fmul (final_close b) (factor_for acts (trade_date b))) <$> bs.
Proof. apply apply_factors_lookup. Qed.

Lemma apply_factors_is_lookup_witness :
  apply_factors a_series (chain_factors [the_action])
  = (λ b, fmul (final_close b)
            (factor_for (chain_factors [the_action]) (trade_date b))) <$> a_series.
Proof.
  apply apply_factors_is_lookup, strictly_ascending_ascending.
  repeat constructor.
Defined.

Lemma apply_factors_length bs acts : length (apply_factors bs acts) = length bs.
Proof. revert acts. induction bs as [|b bs IH]; intros acts; simpl; [done|]. by rewrite IH. Qed.

(** ** The gate *)
Lemma first_traded_index_spec bs :
  (first_traded_index bs ≤ length bs)%nat
  ∧ Forall (λ b, traded b = false) (take (first_traded_index bs) bs)
  ∧ (∀ b, List.head (drop (first_traded_index bs) bs) = Some b → traded b = true).
Proof.
  induction bs as [|b bs (Hle&Hall&Hhd)]; simpl; [split_and!; [lia|constructor|done]|].
  destruct (traded b) eqn:Ht; simpl.
  - split_and!; [lia|constructor|]. by intros ? [= <-].
  - split_and!; [lia|by constructor|done].
Qed.

Lemma filter_empty_forall {A} (p : A → bool) l :
  List.filter p l = [] ↔ ∀ x, x ∈ l → p x = false.
Proof. rewrite filter_nil_iff. apply Forall_forall. Qed.

(** The two populations obey different bounds. *)
Definition within_bounds (ms mr : float) (m : SessionMove) : Prop :=
  fgt (fabs (ret m)) (if is_session m then ms else mr) = false.

Lemma validate_violations_nil ms mr g moves :
  violations (validate moves ms mr g) = [] ↔ ∀ m, m ∈ moves → within_bounds ms mr m.
Proof.
  simpl. rewrite app_nil, !filter_empty_forall. setoid_rewrite elem_of_bool_filter.
  unfold within_bounds, beyond. split.
  - intros [H1 H2] m Hm. destruct (is_session m) eqn:Hs; [by apply H1|].
    apply H2. by rewrite Hs.
  - intros H. split; intros m [Hm Hs]; specialize (H m Hm).
    + by rewrite Hs in H.
    + apply negb_true_iff in Hs. by rewrite Hs in H.
Qed.

(** The verdict is exactly the two measured bounds: a series is validated
    if and only if no session move exceeds the session bound and no reopening
    move exceeds the reopening bound; it carries a refusal reason exactly when
    it is refused; and every move is counted in one population or the other. *)
Theorem validate_verdict ms mr g moves :
  (v_status (validate moves ms mr g) = validated ↔ ∀ m, m ∈ moves → within_bounds ms mr m)
  ∧ (v_status (validate moves ms mr g) = refused ↔ refusal_reason (validate moves ms mr g) ≠ [])
  ∧ (∀ m, m ∈ violations (validate moves ms mr g) ↔ m ∈ moves ∧ ¬ within_bounds ms mr m)
  ∧ (sessions_checked (validate moves ms mr g)
     + length (List.filter (λ m, negb (is_session m)) moves))%nat = length moves.
Proof.
  split_and!.
  - rewrite <- (validate_violations_nil ms mr g). simpl. by case_bool_decide.
  - unfold validate. cbn [v_status refusal_reason].
    destruct (List.filter (beyond ms) _) as [|m1 l1], (List.filter (beyond mr) _) as [|m2 l2];
      cbn; split; done.
  - intros m. simpl. rewrite elem_of_app, !elem_of_bool_filter. unfold within_bounds, beyond.
    destruct (is_session m) eqn:Hs; simpl; rewrite not_false_iff_true; naive_solver.
  - apply (filter_partition_length is_session).
Qed.

(** ** The whole adjustment *)

(** What a successful [adjust] went through. *)
Lemma adjust_inv bs ms mr g alts s :
  adjust bs ms mr g alts = Ok s →
  ∃ det moves,
    bars s = sort_by trade_date bs
    ∧ detect_actions (bars s) alts = Ok det
    ∧ actions s = chain_factors det.1 ∧ contested s = det.2
    ∧ pre_listing_bars s = first_traded_index (bars s)
    ∧ (pre_listing_bars s < length (bars s))%nat
    ∧ adjusted_closes s = apply_factors (traded_bars s) (actions s)
    ∧ session_moves (traded_bars s) (adjusted_closes s) g = Ok moves
    ∧ validation s = validate moves ms mr g.
Proof.
  unfold adjust. destruct (sort_by trade_date bs) as [|b0 ord] eqn:Hord; [done|].
  intros H. apply bind_Ok in H as (det&Hdet&H). cbv beta zeta in H.
  destruct (length (b0 :: ord) <=? first_traded_index (b0 :: ord))%nat eqn:Hlead; [done|].
  apply Nat.leb_gt in Hlead.
  apply bind_Ok in H as (moves&Hmoves%uncaught_Ok&H). injection H as <-.
  exists det, moves. unfold traded_bars. by split_and!.
Qed.

(** The boundary between two bars, without the code's moves: both sessions traded
    and no further apart than [g] days is an ordinary one, anything else a
    reopening; each has its own bound on the return between the two closes. *)
Definition deals (b : Bar) : Prop := 0 < volume b ∨ 0 < trade_count b.

#[local] Instance deals_dec b : Decision (deals b).
Proof. unfold deals. apply _. Defined.

Definition bound_between (ms mr : float) (g : Z) (p c : Bar) : float :=
  if decide (deals p ∧ deals c ∧ trade_date c - trade_date p ≤ g) then ms else mr.

Definition step_within (ms mr : float) (g : Z) (p c : Bar * float) : Prop :=
  ∃ q, fdiv c.2 p.2 = Ok q ∧ fgt (fabs (fsub q fone)) (bound_between ms mr g p.1 c.1) = false.

Definition neighbours {A} (l : list A) (p c : A) : Prop := ∃ i, l !! i = Some p ∧ l !! S i = Some c.

Lemma traded_deals b : traded b = true ↔ deals b.
Proof. unfold traded, deals. rewrite orb_true_iff, !Z.ltb_lt. done. Qed.

Lemma is_session_bound ms mr g (p c : Bar) :
  (if traded c && traded p && (trade_date c - trade_date p <=? g) then ms else mr)
  = bound_between ms mr g p c.
Proof.
  unfold bound_between. destruct (_ && _) eqn:Hb; case_decide as Hd; try done.
  - destruct Hd. rewrite !andb_true_iff, Z.leb_le, !traded_deals in Hb. naive_solver.
  - apply not_true_iff_false in Hb. destruct Hb. rewrite !andb_true_iff, Z.leb_le, !traded_deals. naive_solver.
Qed.

Lemma neighbours_cons {A} (x : A) l p c :
  neighbours (x :: l) p c ↔ (x = p ∧ head l = Some c) ∨ neighbours l p c.
Proof.
  split.
  - intros ([|i]&Hp&Hc); simpl in *; [left|right; by exists i]. injection Hp as ->. by destruct l.
  - intros [[-> Hc]|(i&Hp&Hc)]; [exists 0%nat|by exists (S i)]. by destruct l.
Qed.

Lemma moves_within ms mr g p l moves :
  moves_from g p l = Ok moves →
  (∀ m, m ∈ moves → within_bounds ms mr m) ↔
  ∀ x y, neighbours (p :: l) x y → step_within ms mr g x y.
Proof.
  revert p moves. induction l as [|c l IH]; intros p moves; simpl.
  { intros [= <-]. split; [|by intros _ m ?%elem_of_nil]. intros _ x y Hn.
    apply neighbours_cons in Hn as [[_ [=]]|(i&[=]&_)]. }
  intros H. apply bind_Ok in H as (q&Hq&H). apply bind_Ok in H as (ms'&Hms&[= <-]).
  specialize (IH c ms' Hms). setoid_rewrite elem_of_cons.
  assert (∀ P : SessionMove → Prop, (∀ m, m = {| mv_trade_date := trade_date c.1;
      mv_prev_trade_date := trade_date p.1; gap_days := trade_date c.1 - trade_date p.1;
      ret := fsub q fone; is_session := traded c.1 && traded p.1 && (trade_date c.1 - trade_date p.1 <=? g) |}
      ∨ m ∈ ms' → P m) ↔ P {| mv_trade_date := trade_date c.1;
      mv_prev_trade_date := trade_date p.1; gap_days := trade_date c.1 - trade_date p.1;
      ret := fsub q fone; is_session := traded c.1 && traded p.1 && (trade_date c.1 - trade_date p.1 <=? g) |}
      ∧ ∀ m, m ∈ ms' → P m) as Hsplit by naive_solver.
  rewrite Hsplit, IH. clear Hsplit. unfold within_bounds. simpl. rewrite is_session_bound. split.
  - intros [Hb Hl] x y [[<- [= <-]]|Hn]%neighbours_cons; [by exists q|by apply Hl].
  - intros Hl. split; [|intros x y Hn; apply Hl, neighbours_cons; by right].
    destruct (Hl p c) as (q'&Hq'&Hb); [apply neighbours_cons; by left|].
    rewrite Hq in Hq'. by injection Hq' as <-.
Qed.

(** C5. The gate decides the whole series: the bars are those offered, by date; the
    adjusted closes are one per bar from the first traded bar on (every earlier
    bar is an untraded placeholder); and the series is [ok] exactly when, for
    every two bars in a row, the return between their adjusted closes is within
    the session bound when both traded at most [g] days apart, and within the
    reopening bound otherwise. *)
Theorem adjust_gate bs ms mr g alts s :
  adjust bs ms mr g alts = Ok s →
  bars s ≡ₚ bs ∧ ascending trade_date (bars s)
  ∧ length (adjusted_closes s) = length (traded_bars s)
  ∧ Forall (λ b, ¬ deals b) (take (pre_listing_bars s) (bars s))
  ∧ (∃ b, List.head (traded_bars s) = Some b ∧ deals b)
  ∧ (ok (validation s) = true ↔
     ∀ p c, neighbours (List.combine (traded_bars s) (adjusted_closes s)) p c → step_within ms mr g p c).
Proof.
  intros (det&moves&Hb&Hd&Ha&Hc&Hp&Hlt&Hadj&Hm&Hv)%adjust_inv.
  destruct (first_traded_index_spec (bars s)) as (Hle&Hall&Hhd). rewrite <- Hp in Hall, Hhd.
  split_and!; [rewrite Hb; apply py_sorted_perm|rewrite Hb; apply sort_by_ascending
              |by rewrite Hadj, apply_factors_length| | |].
  - eapply Forall_impl; [exact Hall|]. intros b Ht Hdl%traded_deals. congruence.
  - unfold traded_bars. destruct (drop (pre_listing_bars s) (bars s)) as [|b l] eqn:Hdrop.
    + apply (f_equal length) in Hdrop. rewrite length_drop in Hdrop. simpl in Hdrop. lia.
    + exists b. split; [done|]. by apply traded_deals, Hhd.
  - assert (ok (validation s) = true ↔ ∀ m, m ∈ moves → within_bounds ms mr m) as ->.
    { rewrite <-(validate_violations_nil ms mr g), Hv. unfold ok. simpl. by case_bool_decide. }
    unfold session_moves in Hm. destruct (List.combine _ _) as [|p0 l]; [|by apply moves_within].
    injection Hm as <-. split; [intros _ p c (i&Hi&_); by rewrite lookup_nil in Hi|by intros _ m ?%elem_of_nil].
Qed.

Definition a_result : AdjustedSeries :=
  ok_or {| s_ins_code := ""; bars := []; actions := []; pre_listing_bars := 0;
           adjusted_closes := []; validation := validate [] fone fone 0; contested := [] |}
    (adjust a_series MAX_SESSION_RETURN MAX_REOPENING_RETURN SESSION_GAP_DAYS None).

Lemma adjust_gate_witness :
  length (adjusted_closes a_result) = length (traded_bars a_result)
  ∧ (ok (validation a_result) = true ↔
     ∀ p c, neighbours (List.combine (traded_bars a_result) (adjusted_closes a_result)) p c →
       step_within MAX_SESSION_RETURN MAX_REOPENING_RETURN SESSION_GAP_DAYS p c).
Proof.
  destruct (adjust_gate a_series MAX_SESSION_RETURN MAX_REOPENING_RETURN SESSION_GAP_DAYS None
           a_result) as (_&_&Hl&_&_&Hok); [vm_compute; reflexivity|].
  by split.
Defined.

Lemma drop_ascending {A} (key : A → Z) n l : ascending key l → ascending key (drop n l).
Proof.
  revert n. induction l as [|x l IH]; intros [|n] H; simpl; try done.
  apply StronglySorted_inv in H as [H _]. by apply IH.
Qed.

Lemma factor_for_past acts d :
  Forall (λ a, effective_date a ≤ d) acts → factor_for acts d = fone.
Proof.
  induction 1 as [|a acts Ha _ IH]; simpl; [done|].
  by rewrite (proj2 (Z.ltb_ge _ _) Ha).
Qed.

(** The newest prices are the exchange's own: from the last corporate
    action on, every adjusted close IS the raw official close, bit for bit (the
    multiplication by 1.0 is exact on every binary64 value). *)
Theorem adjusted_close_after_last_action bs ms mr g alts s i b :
  adjust bs ms mr g alts = Ok s →
  traded_bars s !! i = Some b →
  valid_float (final_close b) = true →
  Forall (λ a, effective_date a ≤ trade_date b) (actions s) →
  adjusted_closes s !! i = Some (final_close b).
Proof.
  intros (det&moves&Hb&_&_&_&_&_&Hadj&_)%adjust_inv Hi Hv Hpast.
  assert (ascending trade_date (traded_bars s)) as Hasc.
  { unfold traded_bars. apply drop_ascending. rewrite Hb. apply sort_by_ascending. }
  rewrite Hadj, apply_factors_lookup by done.
  rewrite list_lookup_fmap, Hi. simpl. by rewrite factor_for_past, fmul_one_r.
Qed.

Lemma adjusted_close_after_last_action_witness :
  adjusted_closes a_result !! 1%nat = Some (float_of_Z 520).
Proof.
  apply (adjusted_close_after_last_action a_series MAX_SESSION_RETURN MAX_REOPENING_RETURN
           SESSION_GAP_DAYS None a_result 1%nat
           (List.nth 1 a_series (List.hd (List.nth 0 a_series (List.last a_series
              {| ins_code := ""; trade_date := 0; b_open := fone; b_high := fone;
                 b_low := fone; b_close := fone; final_close := fone;
                 price_yesterday := fone; volume := 0; trade_count := 0; b_value := fone |})) [])));
    [vm_compute; reflexivity|vm_compute; reflexivity|vm_compute; reflexivity|].
  vm_compute. repeat constructor. discriminate.
Defined.

(** The order bars arrive in does not matter: a shuffled series with one
    bar per date adjusts to the same result, verdict and errors included. *)
Theorem adjust_order_insensitive bs bs' ms mr g alts :
  NoDup (trade_date <$> bs) → bs ≡ₚ bs' →
  adjust bs ms mr g alts = adjust bs' ms mr g alts.
Proof. intros Hnd Hp. unfold adjust. by rewrite (sort_by_perm_eq trade_date bs bs'). Qed.

Lemma adjust_order_insensitive_witness :
  adjust a_series MAX_SESSION_RETURN MAX_REOPENING_RETURN SESSION_GAP_DAYS None
  = adjust (rev a_series) MAX_SESSION_RETURN MAX_REOPENING_RETURN SESSION_GAP_DAYS None.
Proof.
  apply adjust_order_insensitive.
  - repeat constructor; vm_compute; set_solver.
  - symmetry. apply Permutation_rev.
Defined.

(** A chain with no break: each reference is the previous close, and a halted
    bar holds it. *)
Definition unbroken (p c : Bar) : Prop :=
  feq (price_yesterday c) (final_close p) = true
  ∧ (traded c = true ∨ feq (final_close c) (price_yesterday c) = true).

Lemma detect_from_unbroken alts b bs :
  (∀ p c, adjacent (b :: bs) p c → unbroken p c) →
  detect_from alts b bs = Ok ([], []).
Proof.
  revert b. induction bs as [|c bs IH]; intros b Hall; simpl; [done|].
  destruct (Hall b c) as [Hr Hh]; [apply adjacent_cons; by left|].
  unfold detect_pair, fne. rewrite Hr. simpl.
  assert (negb (traded c) && negb (feq (final_close c) (price_yesterday c)) = false) as ->.
  { by destruct Hh as [-> | ->]; rewrite ?andb_false_r. }
  simpl. rewrite IH; [done|]. intros p c' Hadj. apply Hall, adjacent_cons. by right.
Qed.

(** Where the exchange restated nothing the engine invents nothing: if
    every bar's reference is the previous session's official close and halted
    bars hold it, there is no action, nothing contested, and every adjusted
    close is the raw close. *)
Theorem unbroken_chain_unadjusted bs ms mr g alts s :
  adjust bs ms mr g alts = Ok s →
  Forall (λ b, valid_float (final_close b) = true) bs →
  (∀ p c, adjacent (sort_by trade_date bs) p c → unbroken p c) →
  actions s = [] ∧ contested s = [] ∧ adjusted_closes s = final_close <$> traded_bars s.
Proof.
  intros (det&moves&Hb&Hd&Ha&Hc&_&_&Hadj&_)%adjust_inv Hv Hun. rewrite <- Hb in Hun.
  assert (det = ([], [])) as ->.
  { destruct (bars s) as [|b0 ord] eqn:Hbs; simpl in Hd.
    - congruence.
    - rewrite detect_from_unbroken in Hd by done. congruence. }
  split_and!; [done|done|].
  rewrite Hadj, Ha. simpl.
  assert (Forall (λ b, valid_float (final_close b) = true) (traded_bars s)) as Hvs.
  { unfold traded_bars. apply Forall_drop. rewrite Hb. unfold sort_by.
    by rewrite py_sorted_perm. }
  clear -Hvs. unfold chain_factors. simpl.
  induction Hvs as [|b l Hb _ IH]; [done|]. rewrite fmap_cons, <- IH. simpl.
  by rewrite fmul_one_r.
Qed.

Definition quiet_payload : list (string * json) :=
  [(FIELD_LIST, JArr [a_row 20260909 520 500 10; a_row 20260908 500 500 0;
                      a_row 20260907 500 490 7])].
Definition quiet_series : list Bar := ok_or [] (parse_daily_list no_repr (JObj quiet_payload) "").
Definition quiet_result : AdjustedSeries :=
  ok_or a_result
    (adjust quiet_series MAX_SESSION_RETURN MAX_REOPENING_RETURN SESSION_GAP_DAYS None).

Lemma unbroken_chain_unadjusted_witness :
  actions quiet_result = [] ∧ contested quiet_result = []
  ∧ adjusted_closes quiet_result = final_close <$> traded_bars quiet_result.
Proof.
  apply (unbroken_chain_unadjusted quiet_series MAX_SESSION_RETURN MAX_REOPENING_RETURN
           SESSION_GAP_DAYS None); [vm_compute; reflexivity|repeat constructor|].
  intros p c ([|[|[|i]]]&Hp&Hc); vm_compute in Hp, Hc; simplify_eq.
  - split; [reflexivity|right; reflexivity].
  - split; [reflexivity|left; reflexivity].
Defined.

(** ** NaN passes the gate

    [json.load] accepts NaN; [pClosing <= 0] is false for it, the comparison
    with the next reference makes it an action with a NaN ratio, every return
    across it is NaN, and no NaN exceeds a bound. *)
Definition nan_row (deven vol : Z) : json := JObj
  [("insCode", JStr "1"); ("dEven", JInt deven); ("priceYesterday", JInt 500);
   ("priceFirst", JInt 0); ("priceMin", JInt 0); ("priceMax", JInt 0);
   ("pClosing", JFloat fnan); ("pDrCotVal", JInt 0);
   ("qTotTran5J", JInt vol); ("zTotTran", JInt vol); ("qTotCap", JInt 0)].

Example nan_close_is_validated :
  (λ s, v_status (validation s)) <$>
    adjust_payload no_repr
      (JObj [(FIELD_LIST, JArr [nan_row 20260908 3; nan_row 20260909 3])]) "1"
      MAX_SESSION_RETURN MAX_REOPENING_RETURN SESSION_GAP_DAYS
  = Ok validated.
Proof. vm_compute. reflexivity. Qed.
