(* ===== verification/BourseParse.v ===== *)
(** * The market-level payload parsers

    [app/bourse/parse.py], every parser of it.  A payload is a parsed JSON
    document; a refusal is the data its message is built from; [Python] is an
    exception of the interpreter no clause turns into a refusal.

    [repr] is the interpreter's text of a float or a container; [fold_name] and
    [fold_symbol] (equities/adjust.py) fold Persian text with the Unicode
    database: all three are arguments, and no theorem depends on what they are.
    The Tehran zone is an argument too. *)
From S2P Require Import Prelude PyFloat PyTime PyText PyJson Numeric EquityAdjust.
Local Open Scope string_scope.
Local Open Scope list_scope.
Local Open Scope Z_scope.

Abbreviation object := (list (string * json)).

Inductive parse_error : Set :=
| BarParse (e : bar_error)
| NotObject (field : string)
| NoListField (field : string)
| EmptyField (field : string)
| NotNumber (key : string) (value : json)
| NotFinite (key : string) (value : json)
| NotCount (key : string) (value : float)
| NotPlainCode (what : string) (value : json)
| FloatCode (what : string) (value : json)
| ServedTwice (what : string) (key : string)
| TwoCodes (codes : list string)
| OtherCode (asked served : string)
| RowShape (what : string)
| NoPositive (what : string)
| UnknownMarket (market : string)
| Negative (key : string) (value : float)
| NotATime (h : Z)
| NotATimeValue (value : json)
| SectorCode (value : json)
| BadInsId (ins_id : string)
| NoSymbol (ins_id code : string)
| NoShares (rows : nat)
| GroupCode (value : json)
| NoGroups
| NotAPrice (key : string) (value : float)
| Python (e : pyerr).

Definition FLOW_MARKETS : list (Z * string) := [(1, "bourse"); (2, "farabourse")].

Definition is_market (m : string) : bool := existsb (String.eqb m) (FLOW_MARKETS.*2).

Definition lift_bar {A} (m : result bar_error A) : result parse_error A :=
  match m with
  | Ok a => Ok a
  | Err (Uncaught e) => Err (Python e)
  | Err e => Err (BarParse e)
  end.

Definition deven (v : json) : result parse_error date := lift_bar (parse_deven v).

(** ** The shared readers *)
Definition _list_field (payload : json) (field : string) : result parse_error (list json) :=
  match payload with
  | JObj items =>
      match jget field items with
      | JArr [] => Err (EmptyField field)
      | JArr rows => Ok rows
      | _ => Err (NoListField field)
      end
  | _ => Err (NotObject field)
  end.

Definition _num (row : object) (key : string) : result parse_error float :=
  match json_number (jget key row) with
  | None => Err (NotNumber key (jget key row))
  | Some (Err e) => Err (Python e)
  | Some (Ok out) =>
      if is_nan out || is_inf out then Err (NotFinite key (jget key row)) else Ok out
  end.

Definition _count (row : object) (key : string) : result parse_error Z :=
  value ← _num row key;
  match int_of_float value with
  | Err e => Err (Python e)
  | Ok n =>
      if flt value fzero || negb (feq value (float_of_Z n)) then Err (NotCount key value)
      else Ok n
  end.

Section Parse.
Context (repr : json → string) (fold_name fold_symbol : json → string) (TEHRAN : tzinfo).

(** [str(value if value is not None else "").strip()] *)
Definition text_of (v : json) : string :=
  match v with JNull => EmptyString | _ => strip (py_str repr v) end.

Definition _code (value : json) (what : string) : result parse_error string :=
  let text := text_of value in
  if isdigit text then Ok text else Err (NotPlainCode what value).

(** [[0-9]{1,20}] *)
Definition ins_code_re (s : string) : bool := isdigit s && (String.length s <=? 20)%nat.

Definition exact_code (value : json) (what : string) : result parse_error string :=
  text ← match value with
         | JBool _ | JFloat _ => Err (FloatCode what value)
         | JInt n => Ok (str_of_Z n)
         | JStr s => Ok (strip s)
         | _ => Err (NotPlainCode what value)
         end;
  if ins_code_re text then Ok text else Err (NotPlainCode what value).

(** The [seen] loop over the sorted items. *)
Fixpoint first_repeat {A K} `{!EqDecision K} (key : A → K) (seen : list K) (items : list A) : option K :=
  match items with
  | [] => None
  | x :: items =>
      if bool_decide (key x ∈ seen) then Some (key x) else first_repeat key (key x :: seen) items
  end.

Definition _ascending_unique {A K} `{!EqDecision K} (lt : K → K → bool) (show : K → string)
    (key : A → K) (items : list A) (what : string) : result parse_error (list A) :=
  let items := py_sorted (λ x y, lt (key x) (key y)) items in
  match first_repeat key [] items with
  | Some k => Err (ServedTwice what (show k))
  | None => Ok items
  end.

Definition dict_rows (rows : list json) : list object :=
  omap (λ r, match r with JObj o => Some o | _ => None end) rows.

(** The set of codes of an object, and the single one it must hold. *)
Definition single_code (rows : list json) (what ins_code : string) : result parse_error string :=
  codes ← traverse (λ r, _code (jget "insCode" r) what) (dict_rows rows);
  match elements (list_to_set codes : gset string) with
  | [code] =>
      if negb (length rows =? length (dict_rows rows))%nat then Err (TwoCodes [code])
      else if negb (String.eqb ins_code EmptyString) && negb (String.eqb code ins_code)
      then Err (OtherCode ins_code code)
      else Ok code
  | codes => Err (TwoCodes codes)
  end.

(** ** Index history *)
Record IndexValue : Set := {
  iv_date : date;
  iv_close : float;
  iv_low : option float;
  iv_high : option float;
}.

Record IndexHistory : Set := {
  ih_code : string;
  ih_values : list IndexValue;
  dropped_nonpositive : Z;
  dropped_dates : list date;
}.

(** A field that may be absent or null. *)
Definition opt_num (row : object) (key : string) : result parse_error (option float) :=
  match jget key row with
  | JNull => Ok None
  | _ => x ← _num row key; Ok (Some x)
  end.

(** One row of the loop: the dropped date, or the value. *)
Definition index_row (r : object) : result parse_error (date + IndexValue) :=
  d ← deven (jget "dEven" r);
  close ← _num r "xNivInuClMresIbs";
  if fle close fzero then Ok (inl d)
  else
    low ← opt_num r "xNivInuPbMresIbs";
    high ← opt_num r "xNivInuPhMresIbs";
    Ok (inr {| iv_date := d; iv_close := close; iv_low := low; iv_high := high |}).

Definition lefts {A B} (l : list (A + B)) : list A :=
  omap (λ x, match x with inl a => Some a | inr _ => None end) l.
Definition rights {A B} (l : list (A + B)) : list B :=
  omap (λ x, match x with inl _ => None | inr b => Some b end) l.

Definition parse_index_history (payload : json) (ins_code : string)
    : result parse_error IndexHistory :=
  rows ← _list_field payload "indexB2";
  code ← single_code rows "index" ins_code;
  parsed ← traverse index_row (dict_rows rows);
  match rights parsed with
  | [] => Err (NoPositive code)
  | values =>
      values ← _ascending_unique Z.ltb str_of_Z iv_date values code;
      Ok {| ih_code := code; ih_values := values;
            dropped_nonpositive := Z.of_nat (length (lefts parsed));
            dropped_dates := sort_by (λ d, d) (lefts parsed) |}
  end.

(** ** Live index values: the last row of a code wins *)
Record LiveIndex : Set := {
  li_code : string;
  li_value : float;
  change_pct : float;
  li_name_fa : string;
}.

(** [d[k] = v] of a dict in insertion order. *)
Fixpoint dict_set {V} (k : string) (v : V) (d : list (string * V)) : list (string * V) :=
  match d with
  | [] => [(k, v)]
  | (k', v') :: d => if String.eqb k' k then (k', v) :: d else (k', v') :: dict_set k v d
  end.

Definition live_row (r : json) : result parse_error (option LiveIndex) :=
  match r with
  | JObj r =>
      code ← _code (jget "insCode" r) "live index";
      value ← _num r "xDrNivJIdx004";
      if fle value fzero then Ok None
      else
        change ← _num r "xVarIdxJRfV";
        Ok (Some {| li_code := code; li_value := value; change_pct := change;
                    li_name_fa := fold_name (jget "lVal30" r) |})
  | _ => Err (RowShape "indexB1")
  end.

Definition parse_index_live (payload : json) : result parse_error (list (string * LiveIndex)) :=
  rows ← _list_field payload "indexB1";
  parsed ← traverse live_row rows;
  Ok (fold_left (λ d x, match x with Some v => dict_set (li_code v) v d | None => d end) parsed []).

(** ** Market value *)
Record MarketValues : Set := {
  mv_market : string;
  mv_values : list (date * float);
  mv_dropped : Z;
}.

Definition market_value_row (r : json) : result parse_error (() + (date * float)) :=
  match r with
  | JObj r =>
      cap ← _num r "marketCap";
      if fle cap fzero then Ok (inl ()) else d ← deven (jget "deven" r); Ok (inr (d, cap))
  | _ => Err (RowShape "marketValue")
  end.

Definition parse_market_values (payload : json) (market : string)
    : result parse_error MarketValues :=
  _ ← raise_if (negb (is_market market)) (UnknownMarket market);
  rows ← _list_field payload "marketValue";
  parsed ← traverse market_value_row rows;
  match rights parsed with
  | [] => Err (NoPositive market)
  | values =>
      values ← _ascending_unique Z.ltb str_of_Z fst values market;
      Ok {| mv_market := market; mv_values := values;
            mv_dropped := Z.of_nat (length (lefts parsed)) |}
  end.

(** ** Client types *)
Definition CLIENT_FIELDS : list (string * string * bool) :=
  [("buy_i_count", "buy_I_Count", true); ("buy_n_count", "buy_N_Count", true);
   ("sell_i_count", "sell_I_Count", true); ("sell_n_count", "sell_N_Count", true);
   ("buy_i_volume", "buy_I_Volume", false); ("buy_n_volume", "buy_N_Volume", false);
   ("sell_i_volume", "sell_I_Volume", false); ("sell_n_volume", "sell_N_Volume", false);
   ("buy_i_value", "buy_I_Value", false); ("buy_n_value", "buy_N_Value", false);
   ("sell_i_value", "sell_I_Value", false); ("sell_n_value", "sell_N_Value", false)].

(** A column is a count or an amount. *)
Inductive cell : Set := Count (n : Z) | Amount (x : float).

Record ClientRow : Set := { cr_date : date; cr_cells : list (string * cell) }.

Record ClientFlows : Set := { cf_code : string; cf_rows : list ClientRow }.

Definition client_cell (r : object) (f : string * string * bool) : result parse_error (string * cell) :=
  let '(column, key, is_count) := f in
  if is_count then n ← _count r key; Ok (column, Count n)
  else
    v ← _num r key;
    if flt v fzero then Err (Negative key v) else Ok (column, Amount v).

Definition client_row (r : object) : result parse_error ClientRow :=
  d ← deven (jget "recDate" r);
  cells ← traverse (client_cell r) CLIENT_FIELDS;
  Ok {| cr_date := d; cr_cells := cells |}.

Definition parse_client_types (payload : json) (ins_code : string)
    : result parse_error ClientFlows :=
  rows ← _list_field payload "clientType";
  code ← single_code rows "client type" ins_code;
  out ← traverse client_row (dict_rows rows);
  out ← _ascending_unique Z.ltb str_of_Z cr_date out code;
  Ok {| cf_code := code; cf_rows := out |}.

(** ** Overview and sector summary *)
(** [int(heven)]: TypeError and ValueError are refused. *)
Definition _tehran_instant (deven_ heven : json) : result parse_error instant :=
  d ← deven deven_;
  h ← match py_int_of heven with
      | Ok h => Ok h
      | Err TypeError | Err ValueError => Err (NotATimeValue heven)
      | Err e => Err (Python e)
      end;
  let hh := h / 10000 in
  let mm := (h / 100) mod 100 in
  let ss := h mod 100 in
  if (0 <=? hh) && (hh <=? 23) && (0 <=? mm) && (mm <=? 59) && (0 <=? ss) && (ss <=? 59)
  then Ok (of_wall TEHRAN (combine d (hh * us_hour + mm * us_minute + ss * us_second)))
  else Err (NotATime h).

Definition _positive_or_none (row : object) (key : string) : result parse_error (option float) :=
  v ← _num row key; Ok (if fne v fzero then Some v else None).

(** [str(v or "").strip()] *)
Definition text_or_empty (v : json) : string := if truthy v then strip (py_str repr v) else EmptyString.

Record Overview : Set := {
  ov_market : string;
  activity_at : instant;
  index_value : option float;
  index_change : option float;
  ew_index_value : option float;
  ew_index_change : option float;
  trade_count : Z;
  trade_volume : float;
  trade_value : float;
  market_value : option float;
  market_state : string;
  market_state_title : string;
}.

Definition change_of (o : object) (level : option float) (key : string)
    : result parse_error (option float) :=
  match level with None => Ok None | Some _ => x ← _num o key; Ok (Some x) end.

Definition parse_market_overview (payload : json) (market : string) : result parse_error Overview :=
  _ ← raise_if (negb (is_market market)) (UnknownMarket market);
  match payload with
  | JObj items =>
      match jget "marketOverview" items with
      | JObj mo =>
          index_value ← _positive_or_none mo "indexLastValue";
          ew_value ← _positive_or_none mo "indexEqualWeightedLastValue";
          activity ← _tehran_instant (jget "marketActivityDEven" mo) (jget "marketActivityHEven" mo);
          change ← change_of mo index_value "indexChange";
          ew_change ← change_of mo ew_value "indexEqualWeightedChange";
          trades ← _count mo "marketActivityZTotTran";
          volume ← _num mo "marketActivityQTotTran";
          value ← _num mo "marketActivityQTotCap";
          cap ← _positive_or_none mo "marketValue";
          Ok {| ov_market := market; activity_at := activity; index_value := index_value;
                index_change := change; ew_index_value := ew_value; ew_index_change := ew_change;
                trade_count := trades; trade_volume := volume; trade_value := value;
                market_value := cap; market_state := text_or_empty (jget "marketState" mo);
                market_state_title := fold_name (jget "marketStateTitle" mo) |}
      | _ => Err (NotObject "marketOverview")
      end
  | _ => Err (NotObject "marketOverview")
  end.

Record SectorRow : Set := {
  sector_code : string;
  sector_fa : string;
  down_over_2 : Z;
  down_under_2 : Z;
  up_under_2 : Z;
  up_over_2 : Z;
}.

Definition sector_row (r : json) : result parse_error SectorRow :=
  match r with
  | JObj r =>
      let code := text_or_empty (jget "cSecVal" r) in
      _ ← raise_if (negb (isdigit code)) (SectorCode (jget "cSecVal" r));
      c1 ← _count r "c1"; c2 ← _count r "c2"; c3 ← _count r "c3"; c4 ← _count r "c4";
      Ok {| sector_code := code; sector_fa := fold_name (jget "lSecVal" r);
            down_over_2 := c1; down_under_2 := c2; up_under_2 := c3; up_over_2 := c4 |}
  | _ => Err (RowShape "sector summary")
  end.

Definition parse_sector_summary (payload : json) : result parse_error (list SectorRow) :=
  rows ← _list_field payload "sectorSummeries";
  out ← traverse sector_row rows;
  _ascending_unique String.ltb (λ k, k) sector_code out "sector summary".

(** ** The share universe *)
Definition SHARE_MARKETS : list (string * string) :=
  [("IRO1", "bourse"); ("IRO3", "farabourse"); ("IRO7", "paye"); ("IRO5", "sme")].
Definition SHARE_BOARDS : list (string * string) :=
  [("0001", "main"); ("0002", "block"); ("0003", "secondary")].

(** [s[8:]] *)
Fixpoint drop_chars (n : nat) (s : string) : string :=
  match n, s with
  | O, _ => s
  | S n, String _ s' => drop_chars n s'
  | S _, EmptyString => EmptyString
  end.

Definition upper_or_digit (c : Ascii.ascii) : bool :=
  let n := PyText.code c in (65 <=? n) && (n <=? 90) || is_digit c.

(** [IR[A-Z0-9]{10}] and [[0-9]{2}], anchored. *)
Definition ins_id_re (s : string) : bool :=
  starts_with "IR" s && (String.length s =? 12)%nat && all_chars upper_or_digit s.
Definition sector_re (s : string) : bool := isdigit s && (String.length s =? 2)%nat.

Record ListedShare : Set := {
  ls_code : string;
  ins_id : string;
  symbol_fa : string;
  ls_name_fa : string;
  ls_market : string;
  board : string;
  company_code : string;
  ls_sector : string;
}.

Record MarketWatch : Set := { shares : list ListedShare; rows_total : Z }.

(** One row of the loop: skipped, or the share; [seen] are the codes so far. *)
Definition watch_row (seen : list string) (r : json) : result parse_error (option ListedShare) :=
  match r with
  | JObj r =>
      let id := text_or_empty (jget "insID" r) in
      match assoc (take_chars 4 id) SHARE_MARKETS with
      | None => Ok None
      | Some market =>
          _ ← raise_if (negb (ins_id_re id)) (BadInsId id);
          code ← exact_code (jget "insCode" r) id;
          _ ← raise_if (existsb (String.eqb code) seen) (ServedTwice "market watch" code);
          let symbol := fold_symbol (jget "lva" r) in
          _ ← raise_if (String.eqb symbol EmptyString) (NoSymbol id code);
          let csv := text_or_empty (jget "csv" r) in
          Ok (Some {| ls_code := code; ins_id := id; symbol_fa := symbol;
                      ls_name_fa := fold_name (jget "lvc" r); ls_market := market;
                      board := default "other" (assoc (drop_chars 8 id) SHARE_BOARDS);
                      company_code := take_chars 8 id;
                      ls_sector := if sector_re csv then csv else EmptyString |})
      end
  | _ => Err (RowShape "marketwatch")
  end.

Fixpoint watch_rows (seen : list string) (rows : list json) : result parse_error (list ListedShare) :=
  match rows with
  | [] => Ok []
  | r :: rows =>
      x ← watch_row seen r;
      match x with
      | None => watch_rows seen rows
      | Some share => rest ← watch_rows (ls_code share :: seen) rows; Ok (share :: rest)
      end
  end.

Definition parse_market_watch (payload : json) : result parse_error MarketWatch :=
  rows ← _list_field payload "marketwatch";
  shares ← watch_rows [] rows;
  match shares with
  | [] => Err (NoShares (length rows))
  | _ => Ok {| shares := shares; rows_total := Z.of_nat (length rows) |}
  end.

(** [f"{raw:02d}"] of 0..99 *)
Definition two_digits (n : Z) : string := if n <? 10 then "0" +:+ str_of_Z n else str_of_Z n.

Fixpoint static_rows (out : list (string * string)) (rows : list json)
    : result parse_error (list (string * string)) :=
  match rows with
  | [] => Ok out
  | JObj r :: rows =>
      match jget "type" r with
      | JStr "IndustrialGroup" =>
          match jget "code" r with
          | JInt raw =>
              _ ← raise_if (negb ((0 <=? raw) && (raw <=? 99))) (GroupCode (JInt raw));
              let code := two_digits raw in
              _ ← raise_if (match assoc code out with Some _ => true | None => false end)
                    (ServedTwice "industrial group" code);
              static_rows (out ++ [(code, fold_name (jget "name" r))]) rows
          | v => Err (GroupCode v)
          end
      | _ => static_rows out rows
      end
  | _ :: _ => Err (RowShape "staticData")
  end.

Definition parse_static_sectors (payload : json) : result parse_error (list (string * string)) :=
  rows ← _list_field payload "staticData";
  out ← static_rows [] rows;
  match out with [] => Err NoGroups | _ => Ok out end.

(** ** One market session *)
Definition DAY_FILE_FIELD : string := "closingPriceDailyHistoryWithInstDetails".

Fixpoint day_rows (out : list (string * object)) (rows : list json)
    : result parse_error (list (string * object)) :=
  match rows with
  | [] => Ok out
  | JObj r :: rows =>
      code ← exact_code (jget "insCode" r) "day-file";
      _ ← raise_if (match assoc code out with Some _ => true | None => false end)
            (ServedTwice "day file" code);
      day_rows (out ++ [(code, r)]) rows
  | _ :: _ => Err (RowShape "day-file")
  end.

Definition parse_day_file (payload : json) : result parse_error (list (string * object)) :=
  rows ← _list_field payload DAY_FILE_FIELD; day_rows [] rows.

Record SessionRow : Set := {
  ss_close : float;
  last_trade : option float;
  ss_price_yesterday : float;
  ss_value : float;
  ss_volume : float;
  trades : Z;
}.

Definition parse_session_row (row : object) : result parse_error SessionRow :=
  close ← _num row "pClosing";
  _ ← raise_if (fle close fzero) (NotAPrice "pClosing" close);
  reference ← _num row "priceYesterday";
  _ ← raise_if (fle reference fzero) (NotAPrice "priceYesterday" reference);
  last ← match jget "pDrCotVal" row with
         | JNull => Ok None
         | _ =>
             x ← _num row "pDrCotVal";
             _ ← raise_if (flt x fzero) (Negative "pDrCotVal" x);
             Ok (if feq x fzero then None else Some x)
         end;
  value ← _num row "qTotCap";
  volume ← _num row "qTotTran5J";
  _ ← raise_if (flt value fzero || flt volume fzero)
        (Negative "value or volume" (if flt value fzero then value else volume));
  count ← _count row "zTotTran";
  Ok {| ss_close := close; last_trade := last; ss_price_yesterday := reference;
        ss_value := value; ss_volume := volume; trades := count |}.
End Parse.

(** ** What the rows satisfy *)

(** The CHECKs of [market_share_sessions] (app/db.py), of finite values; a null
    column passes its CHECK. *)
Definition session_checks (s : SessionRow) : bool :=
  positive (ss_close s)
  && match last_trade s with None => true | Some x => positive x end
  && positive (ss_price_yesterday s)
  && nonnegative (ss_value s) && nonnegative (ss_volume s) && (0 <=? trades s).

(** The CHECKs of [market_shares]. *)
Definition share_checks (s : ListedShare) : bool :=
  existsb (String.eqb (ls_market s)) ["bourse"; "farabourse"; "paye"; "sme"]
  && existsb (String.eqb (board s)) ["main"; "block"; "secondary"; "other"].

Lemma num_Ok row key x :
  _num row key = Ok x ↔ json_number (jget key row) = Some (Ok x) ∧ is_finite x = true.
Proof.
  unfold _num, is_finite. destruct (json_number (jget key row)) as [[y|e]|]; [|naive_solver..].
  destruct (is_nan y || is_inf y) eqn:Hy; simpl; split; try naive_solver.
  - intros [[= ->] Hn]. by rewrite Hy in Hn.
  - intros [= ->]. by rewrite Hy.
Qed.

Lemma not_fle_zero x : is_finite x = true → fle x fzero = false → positive x = true.
Proof.
  unfold positive. intros Hf Hle. rewrite Hf. simpl.
  unfold is_finite in Hf. apply negb_true_iff, orb_false_iff in Hf as [Hn _].
  rewrite fle_flt in Hle by done. by apply negb_false_iff in Hle.
Qed.

Lemma int_of_nonnegative x n : flt x fzero = false → int_of_float x = Ok n → 0 ≤ n.
Proof.
  destruct x as [s|s| |s m e]; simpl; try discriminate.
  - by intros _ [= <-].
  - destruct s; [discriminate|]. intros _ [= <-].
    case_match; [apply Z.shiftl_nonneg|apply Z.shiftr_nonneg]; lia.
Qed.

Lemma count_Ok row key n :
  _count row key = Ok n →
  0 ≤ n ∧ ∃ x, _num row key = Ok x ∧ flt x fzero = false ∧ feq x (float_of_Z n) = true.
Proof.
  unfold _count. rewrite bind_Ok. intros (x&Hx&H).
  destruct (int_of_float x) as [m|] eqn:Hm; [|done].
  destruct (flt x fzero) eqn:Hlt; [done|]. destruct (feq x (float_of_Z m)) eqn:Heq; [|done].
  injection H as ->. split; [by eapply int_of_nonnegative|]. by exists x.
Qed.

Lemma first_repeat_None {A K} `{!EqDecision K} (key : A → K) seen items :
  first_repeat key seen items = None ↔ NoDup (key <$> items) ∧ Forall (λ x, key x ∉ seen) items.
Proof.
  revert seen. induction items as [|x items IH]; intros seen; simpl.
  - split; [|done]. intros _. split; constructor.
  - rewrite NoDup_cons, Forall_cons. case_bool_decide as Hin; [naive_solver|].
    rewrite IH. rewrite !Forall_forall. setoid_rewrite not_elem_of_cons. split.
    + intros [Hnd Hall]. split_and!; [|done..|by intros y Hy; apply Hall].
      rewrite list_elem_of_fmap. intros (y&Heq&Hy). by destruct (Hall y Hy).
    + intros [[Hk Hnd] [_ Hall]]. split; [done|]. intros y Hy. split; [|by apply Hall].
      intros Heq. apply Hk. rewrite <-Heq. by apply list_elem_of_fmap_2.
Qed.

Lemma ascending_unique_Ok {A K} `{!EqDecision K} (lt : K → K → bool) show (key : A → K) items what out :
  _ascending_unique lt show key items what = Ok out ↔
  NoDup (key <$> items) ∧ out = py_sorted (λ x y, lt (key x) (key y)) items.
Proof.
  unfold _ascending_unique. set (sorted := py_sorted _ items).
  assert (NoDup (key <$> sorted) ↔ NoDup (key <$> items)) as Hnd
    by (unfold sorted; by rewrite py_sorted_perm).
  assert (Forall (λ x, key x ∉ []) sorted) as Hnil
    by (apply Forall_forall; intros; apply not_elem_of_nil).
  pose proof (first_repeat_None key [] sorted). destruct (first_repeat key [] sorted); naive_solver.
Qed.

(** The common case: rows keyed by their date. *)
Lemma dates_unique_Ok {A} (key : A → Z) show items what out :
  _ascending_unique Z.ltb show key items what = Ok out ↔
  NoDup (key <$> items) ∧ out = sort_by key items.
Proof. apply ascending_unique_Ok. Qed.

Lemma dates_unique_perm {A} (key : A → Z) show items items' what out :
  items ≡ₚ items' → _ascending_unique Z.ltb show key items what = Ok out →
  _ascending_unique Z.ltb show key items' what = Ok out.
Proof.
  intros Hp. rewrite !dates_unique_Ok. intros [Hnd ->].
  split; [by rewrite <-Hp|by apply sort_by_perm_eq].
Qed.

Lemma list_field_Ok payload field rows :
  _list_field payload field = Ok rows ↔
  rows ≠ [] ∧ ∃ items, payload = JObj items ∧ jget field items = JArr rows.
Proof.
  unfold _list_field. split.
  - destruct payload; try done. destruct (jget field items) as [| | | | |l|] eqn:Hj; try done.
    destruct l; [done|]. intros [= <-]. split; [done|]. eauto.
  - intros (Hne&items&->&->). by destruct rows.
Qed.

(** All rows are objects: [dict_rows] loses none. *)
Lemma dict_rows_all rows : length rows = length (dict_rows rows) → rows = JObj <$> dict_rows rows.
Proof.
  assert (∀ rows, (length (dict_rows rows) ≤ length rows)%nat) as Hle.
  { unfold dict_rows. clear rows. intros rows. induction rows as [|[] rows IH]; csimpl; lia. }
  unfold dict_rows in *. induction rows as [|r rows IH]; [done|]. specialize (Hle rows).
  destruct r; csimpl in *; try lia. intros [= Hlen]. f_equal. by apply IH.
Qed.

Lemma sum_rows {A B} (l : list (A + B)) :
  length l = (length (lefts l) + length (rights l))%nat.
Proof. unfold lefts, rights. induction l as [|[a|b] l IH]; csimpl; lia. Qed.

Lemma positive_iff x : is_finite x = true → fle x fzero = false ↔ positive x = true.
Proof.
  intros Hf. split; [by apply not_fle_zero|]. unfold positive. rewrite Hf. simpl. intros Hlt.
  pose proof (flt_not_nan _ _ Hlt) as [_ Hn]. rewrite fle_flt by done. by rewrite Hlt.
Qed.

(** The field [key] of [row] is the finite number [x]. *)
Definition number (row : object) (key : string) (x : float) : Prop :=
  json_number (jget key row) = Some (Ok x) ∧ is_finite x = true.

(** What a session row says, field by field; a zero last trade is no trade. *)
Record session_of (row : object) (s : SessionRow) : Prop := {
  so_close : number row "pClosing" (ss_close s);
  so_reference : number row "priceYesterday" (ss_price_yesterday s);
  so_last : match last_trade s with
            | Some x => number row "pDrCotVal" x
            | None => jget "pDrCotVal" row = JNull
                      ∨ ∃ x, number row "pDrCotVal" x ∧ feq x fzero = true
            end;
  so_value : number row "qTotCap" (ss_value s);
  so_volume : number row "qTotTran5J" (ss_volume s);
  so_trades : ∃ x, number row "zTotTran" x ∧ int_of_float x = Ok (trades s)
              ∧ feq x (float_of_Z (trades s)) = true;
}.

Lemma count_iff row key n :
  _count row key = Ok n ↔
  0 ≤ n ∧ ∃ x, number row key x ∧ int_of_float x = Ok n ∧ feq x (float_of_Z n) = true
               ∧ flt x fzero = false.
Proof.
  unfold _count. rewrite bind_Ok. unfold number. setoid_rewrite num_Ok. split.
  - intros (x&Hx&H). destruct (int_of_float x) as [m|] eqn:Hm; [|done].
    destruct (flt x fzero) eqn:Hlt; [done|]. destruct (feq x (float_of_Z m)) eqn:Heq; [|done].
    injection H as ->. split; [by eapply int_of_nonnegative|]. by exists x.
  - intros (_&x&Hx&Hi&Heq&Hlt). exists x. by rewrite Hi, Hlt, Heq.
Qed.

Lemma int_of_negative x n :
  flt x fzero = true → int_of_float x = Ok n → feq x (float_of_Z n) = true → n < 0.
Proof.
  intros Hlt Hi Heq. destruct (Z.ltb_spec n 0) as [|Hn]; [done|exfalso].
  assert (flt (float_of_Z n) fzero = true) as Hneg.
  { pose proof (feq_not_nan _ _ Heq) as [_ Hnn]. apply (fle_flt_trans _ x); [|done].
    rewrite fle_spec. rewrite feq_sym, Heq. apply orb_true_r. }
  destruct x as [s|[]| |s m e]; simpl in Hi; try discriminate. destruct s; [|discriminate].
  injection Hi as Hi. assert (0 ≤ if 0 <=? e then Z.shiftl (Zpos m) e else Z.shiftr (Zpos m) (- e)).
  { case_match; [apply Z.shiftl_nonneg|apply Z.shiftr_nonneg]; lia. }
  assert (n = 0) as -> by lia. discriminate.
Qed.

#[local] Opaque _num _count.

Lemma num_number row key x : _num row key = Ok x ↔ number row key x.
Proof. apply num_Ok. Qed.

(** The last trade of a session row: absent, null or zero is none. *)
Lemma last_trade_accepted row l :
  match jget "pDrCotVal" row with
  | JNull => Ok None
  | _ =>
      x ← _num row "pDrCotVal";
      _ ← raise_if (flt x fzero) (Negative "pDrCotVal" x);
      Ok (if feq x fzero then None else Some x)
  end = Ok l ↔
  match l with
  | Some x => number row "pDrCotVal" x ∧ positive x = true
  | None => jget "pDrCotVal" row = JNull ∨ ∃ x, number row "pDrCotVal" x ∧ feq x fzero = true
  end.
Proof.
  split.
  - intros Hl. destruct (jget "pDrCotVal" row) eqn:Hj; [injection Hl as <-; by left|..].
    all: apply bind_Ok in Hl as (x&Hx%num_Ok&Hl); apply bind_Ok in Hl as (u&H0&Hl).
    all: apply raise_if_Ok in H0; destruct (feq x fzero) eqn:Hxz; injection Hl as <-.
    all: first [right; by exists x | split; [done|]; apply positive_iff; [apply Hx|]].
    all: by rewrite fle_spec, H0, Hxz.
  - intros Hl.
    assert (∃ x, number row "pDrCotVal" x ∧ flt x fzero = false
                 ∧ l = (if feq x fzero then None else Some x)
            ∨ l = None ∧ jget "pDrCotVal" row = JNull) as [x [(Hx&Hlt&->)|[-> ->]]]; [|..|done].
    { destruct l as [x|].
      - exists x. left. destruct Hl as [Hx Hpos]. apply positive_iff in Hpos; [|apply Hx].
        rewrite fle_spec in Hpos. apply orb_false_iff in Hpos as [-> ->]. done.
      - destruct Hl as [Hj|(x&Hx&Hx0)]; [exists fzero; by right|]. exists x. left.
        rewrite Hx0. split_and!; [done| |done].
        destruct (flt x fzero) eqn:Hlt; [|done]. by rewrite (flt_not_feq _ _ Hlt) in Hx0. }
    apply num_number in Hx. destruct (jget "pDrCotVal" row) eqn:Hj.
    { apply num_Ok in Hx as [Hx _]. by rewrite Hj in Hx. }
    all: by rewrite Hx; simpl; rewrite Hlt.
Qed.

(** A session row of a day file is accepted exactly when it says the values
    that are stored and those satisfy every CHECK of [market_share_sessions]:
    nothing the table would refuse reaches it, and no row the table would take
    is refused. *)
Theorem session_row_accepted row s :
  parse_session_row row = Ok s ↔ session_of row s ∧ session_checks s = true.
Proof.
  unfold parse_session_row. repeat setoid_rewrite bind_Ok. repeat setoid_rewrite raise_if_Ok.
  repeat setoid_rewrite num_number. setoid_rewrite last_trade_accepted.
  repeat setoid_rewrite count_iff. split.
  - intros (c&Hc&_&Hc0&p&Hp&_&Hp0&l&Hl&v&Hv&w&Hw&_&Hvw&n&(Hn&t&Ht&Hi&Heq&_)&[= <-]).
    apply orb_false_iff in Hvw as [Hv0 Hw0].
    apply positive_iff in Hc0; [|by apply Hc]. apply positive_iff in Hp0; [|by apply Hp].
    split.
    + constructor; simpl; try done; [|by exists t]. by destruct l as [x|]; [destruct Hl|].
    + unfold session_checks, nonnegative. simpl.
      rewrite Hc0, Hp0, Hv0, Hw0, (proj2 Hv), (proj2 Hw), (proj2 (Z.leb_le 0 n) Hn).
      by destruct l as [x|]; [rewrite (proj2 Hl)|].
  - intros [[Hc Hp Hl Hv Hw (t&Ht&Hi&Heq)] Hk]. destruct s as [c l p v w n]; simpl in *.
    unfold session_checks in Hk. rewrite !andb_true_iff in Hk; simpl in Hk.
    destruct Hk as [[[[[Hc0 Hl0] Hp0] [_ Hv0]%andb_true_iff] [_ Hw0]%andb_true_iff] Hn].
    apply positive_iff in Hc0; [|apply Hc]. apply positive_iff in Hp0; [|apply Hp].
    exists c. split; [done|]. exists tt. split; [done|]. exists p. split; [done|].
    exists tt. split; [done|]. exists l. split; [by destruct l|].
    exists v. split; [done|]. exists w. split; [done|]. exists tt. split.
    { apply orb_false_iff. split; by apply negb_true_iff. }
    exists n. split; [|done]. split; [by apply Z.leb_le|]. exists t. split_and!; try done.
    destruct (flt t fzero) eqn:Hlt; [|done]. pose proof (int_of_negative _ _ Hlt Hi Heq).
    apply Z.leb_le in Hn. lia.
Qed.

#[local] Transparent _num _count.

(** ** Exact instrument codes *)

(** An instrument code survives only if it arrived exactly: an integer below
    [10^20] is kept as its decimal text, which reads back as the same integer; a
    string is kept stripped when it is 1 to 20 digits; and a boolean, a float (an
    18-digit code does not survive one), a null, an array or an object is refused. *)
Theorem exact_code_lossless v what text :
  exact_code v what = Ok text ↔
  match v with
  | JInt n => 0 ≤ n < 10 ^ 20 ∧ text = str_of_Z n ∧ py_int text = Ok n
  | JStr s => text = strip s ∧ ins_code_re text = true
  | _ => False
  end.
Proof.
  unfold exact_code. destruct v; simpl; try (split; [discriminate|done]).
  - destruct (Z.ltb_spec n 0) as [Hn|Hn].
    + assert (ins_code_re (str_of_Z n) = false) as ->; [|split; [done|lia]].
      unfold str_of_Z. by rewrite (proj2 (Z.ltb_lt n 0) Hn).
    + unfold ins_code_re. rewrite str_of_Z_digits by done. simpl.
      pose proof (str_of_Z_length n 19 Hn) as Hlen. change (Z.of_nat 19 + 1) with 20 in Hlen.
      destruct (String.length (str_of_Z n) <=? 20)%nat eqn:Hl.
      * apply Nat.leb_le in Hl. split.
        -- intros [= <-]. split_and!; [done|tauto|done|by apply py_int_str].
        -- by intros (_&->&_).
      * apply Nat.leb_gt in Hl. split; [done|]. intros ([_ Hlt]&_).
        apply Hlen in Hlt. lia.
  - split.
    + destruct (ins_code_re (strip s)) eqn:Hre; [|done]. by intros [= <-].
    + by intros [-> ->].
Qed.

(** ** The shared shape of a history payload *)
Lemma single_code_Ok repr rows what asked code :
  single_code repr rows what asked = Ok code →
  rows = JObj <$> dict_rows rows
  ∧ Forall (λ r, _code repr (jget "insCode" r) what = Ok code) (dict_rows rows)
  ∧ (asked = EmptyString ∨ code = asked).
Proof.
  unfold single_code. rewrite bind_Ok. intros (codes&Hcodes%traverse_Ok&H).
  destruct (elements (list_to_set codes : gset string)) as [|c [|]] eqn:Hel; [done| |done].
  destruct (length rows =? length (dict_rows rows))%nat eqn:Hlen; [|done].
  destruct (negb _ && negb _) eqn:Hasked; [done|]. injection H as ->.
  assert (∀ x, x ∈ codes → x = code) as Hall.
  { intros x Hx. assert (x ∈ elements (list_to_set codes : gset string)) as Hin
      by (by apply elem_of_elements, elem_of_list_to_set).
    rewrite Hel in Hin. by apply list_elem_of_singleton in Hin. }
  split_and!.
  - apply dict_rows_all. by apply Nat.eqb_eq.
  - apply Forall_forall. intros r Hr. destruct (Forall2_elem_l _ _ _ _ Hcodes Hr) as (c&Hc&Hrc).
    by rewrite <-(Hall c).
  - apply andb_false_iff in Hasked as [Ha|Ha]; apply negb_false_iff, String.eqb_eq in Ha; auto.
Qed.

Lemma single_code_perm repr rows rows' what asked code :
  rows ≡ₚ rows' → single_code repr rows what asked = Ok code →
  single_code repr rows' what asked = Ok code.
Proof.
  intros Hp. unfold single_code. rewrite !bind_Ok. intros (codes&Hcodes&H).
  assert (dict_rows rows ≡ₚ dict_rows rows') as Hdp by (unfold dict_rows; by rewrite Hp).
  destruct (traverse_perm _ _ _ _ Hdp Hcodes) as (codes'&Hcodes'&Hcp).
  exists codes'. split; [done|].
  assert ((list_to_set codes : gset string) = list_to_set codes') as <-
    by (apply set_eq; intros x; by rewrite !elem_of_list_to_set, Hcp).
  by rewrite <-(Permutation_length Hp), <-(Permutation_length Hdp).
Qed.

(** ** Index history *)
Record index_value_ok (v : IndexValue) : Prop := {
  io_close : positive (iv_close v) = true;
  io_low : from_option is_finite true (iv_low v) = true;
  io_high : from_option is_finite true (iv_high v) = true;
}.

Lemma opt_num_Ok row key o : opt_num row key = Ok o → from_option is_finite true o = true.
Proof.
  unfold opt_num. destruct (jget key row); [by intros [= <-]|..];
    intros (x&Hx%num_Ok&[= <-])%bind_Ok; apply Hx.
Qed.

(** What one row of the loop gives. *)
Definition index_row_spec (r : object) (x : date + IndexValue) : Prop :=
  match x with
  | inl d => deven (jget "dEven" r) = Ok d
             ∧ ∃ c, number r "xNivInuClMresIbs" c ∧ fle c fzero = true
  | inr v => deven (jget "dEven" r) = Ok (iv_date v)
             ∧ number r "xNivInuClMresIbs" (iv_close v) ∧ index_value_ok v
  end.

Lemma index_row_Ok r x : index_row r = Ok x → index_row_spec r x.
Proof.
  unfold index_row. rewrite bind_Ok. intros (d&Hd&H). apply bind_Ok in H as (c&Hc%num_Ok&H).
  destruct (fle c fzero) eqn:Hle.
  - injection H as <-. split; [done|]. by exists c.
  - apply bind_Ok in H as (l&Hl%opt_num_Ok&H). apply bind_Ok in H as (h&Hh%opt_num_Ok&[= <-]).
    split; [done|]. split; [done|].
    constructor; simpl; [apply not_fle_zero; [apply Hc|done]|done..].
Qed.

Lemma rights_elem {A B} (l : list (A + B)) b : b ∈ rights l ↔ inr b ∈ l.
Proof. unfold rights. rewrite list_elem_of_omap. split; [by intros ([]&?&[= <-])|]. intros H. by exists (inr b). Qed.
Lemma lefts_elem {A B} (l : list (A + B)) a : a ∈ lefts l ↔ inl a ∈ l.
Proof. unfold lefts. rewrite list_elem_of_omap. split; [by intros ([]&?&[= <-])|]. intros H. by exists (inl a). Qed.

(** An accepted index history is one index's, and accounts for every row: its
    code is digits and is the asked one when one was asked; its values are one
    per session in ascending order, each a positive finite close with finite or
    absent bounds; every row of the payload is either a value or a dropped date,
    never both and never neither; and a payload without one positive close is
    refused. *)
Theorem index_history_sound repr payload asked h :
  parse_index_history repr payload asked = Ok h →
  ∃ items rows, payload = JObj items ∧ jget "indexB2" items = JArr (JObj <$> rows)
  ∧ Forall (λ r, _code repr (jget "insCode" r) "index" = Ok (ih_code h)) rows
  ∧ isdigit (ih_code h) = true ∧ (asked = EmptyString ∨ ih_code h = asked)
  ∧ ih_values h ≠ [] ∧ strictly_ascending iv_date (ih_values h)
  ∧ Forall index_value_ok (ih_values h)
  ∧ (∃ parsed, Forall2 index_row_spec rows parsed
     ∧ rights parsed ≡ₚ ih_values h ∧ lefts parsed ≡ₚ dropped_dates h)
  ∧ Z.of_nat (length rows) = Z.of_nat (length (ih_values h)) + dropped_nonpositive h
  ∧ dropped_nonpositive h = Z.of_nat (length (dropped_dates h)).
Proof.
  unfold parse_index_history. rewrite bind_Ok. intros (all&Hall&H).
  apply list_field_Ok in Hall as (Hne&items&->&Hitems).
  apply bind_Ok in H as (code&Hcode&H). apply bind_Ok in H as (parsed&Hparsed&H).
  apply single_code_Ok in Hcode as (Hobj&Hcodes&Hasked). set (rows := dict_rows all) in *.
  exists items, rows. rewrite <-Hobj.
  apply traverse_Ok in Hparsed.
  assert (Forall2 index_row_spec rows parsed) as Hspec
    by (eapply Forall2_impl; [exact Hparsed|exact index_row_Ok]).
  assert (∃ vs, _ascending_unique Z.ltb str_of_Z iv_date (rights parsed) code = Ok vs
    ∧ rights parsed ≠ []
    ∧ h = {| ih_code := code; ih_values := vs;
             dropped_nonpositive := Z.of_nat (length (lefts parsed));
             dropped_dates := sort_by (λ d, d) (lefts parsed) |}) as (vs&Hvs&Hrne&->).
  { destruct (rights parsed) eqn:Hr; [done|]. apply bind_Ok in H as (vs&Hvs&[= <-]).
    by exists vs. }
  apply dates_unique_Ok in Hvs as [Hnd ->]. simpl.
  assert (sort_by iv_date (rights parsed) ≡ₚ rights parsed) as Hperm by apply py_sorted_perm.
  assert (sort_by (λ d, d) (lefts parsed) ≡ₚ lefts parsed) as Hlperm by apply py_sorted_perm.
  split_and!; try done.
  - destruct rows as [|r rows'] eqn:Hrows.
    + by rewrite (Forall2_nil_inv_l _ _ Hparsed) in Hrne.
    + apply Forall_inv in Hcodes. unfold _code in Hcodes.
      destruct (isdigit (text_of _ _)) eqn:Hd in Hcodes; [by injection Hcodes as <-|done].
  - intros Hnil. rewrite Hnil in Hperm. by apply Permutation_nil_l in Hperm.
  - by apply sort_by_strict.
  - rewrite Hperm. apply Forall_forall. intros v Hv%rights_elem.
    destruct (Forall2_elem_r _ _ _ _ Hspec Hv) as (r&_&Hr). apply Hr.
  - by exists parsed.
  - rewrite Hperm, (Forall2_length _ _ _ Hspec), sum_rows. lia.
  - by rewrite Hlperm.
Qed.

(** ** Client types *)
Definition cell_ok (c : string * cell) : bool :=
  match c.2 with Count n => 0 <=? n | Amount x => nonnegative x end.

Lemma client_cell_Ok r f c :
  client_cell r f = Ok c →
  c.1 = f.1.1 ∧ cell_ok c = true ∧ (f.2 = true ↔ ∃ n, c.2 = Count n).
Proof.
  destruct f as [[column key] is_count]. unfold client_cell. destruct is_count.
  - rewrite bind_Ok. intros (n&Hn%count_Ok&[= <-]). unfold cell_ok. simpl.
    split_and!; [done|by apply Z.leb_le, Hn|]. split; [by exists n|done].
  - rewrite bind_Ok. intros (x&Hx%num_Ok&H). destruct (flt x fzero) eqn:Hlt; [done|].
    injection H as <-. unfold cell_ok, nonnegative. simpl. rewrite Hlt, (proj2 Hx).
    split_and!; [done..|]. split; [done|by intros [? ?]].
Qed.

Lemma client_cells_Ok r fields cells :
  Forall2 (λ f c, client_cell r f = Ok c) fields cells →
  cells.*1 = fields.*1.*1 ∧ Forall (λ c, cell_ok c = true) cells.
Proof.
  induction 1 as [|f c fs cs Hc _ [IH1 IH2]]; [by split|].
  apply client_cell_Ok in Hc as (Hc1&Hc2&_). csimpl. split; [by rewrite Hc1, IH1|by constructor].
Qed.

(** An accepted client-type history is one instrument's, one row per session
    in ascending order, each with exactly the twelve columns of the table in
    their order, counts whole and nothing negative; and it is the same history
    whatever order the rows of the payload came in. *)
Theorem client_types_sound repr items rows rows' asked f :
  jget "clientType" items = JArr rows → rows ≡ₚ rows' →
  parse_client_types repr (JObj items) asked = Ok f →
  strictly_ascending cr_date (cf_rows f)
  ∧ length (cf_rows f) = length rows
  ∧ Forall (λ r, (cr_cells r).*1 = CLIENT_FIELDS.*1.*1
                 ∧ Forall (λ c, cell_ok c = true) (cr_cells r)) (cf_rows f)
  ∧ (asked = EmptyString ∨ cf_code f = asked)
  ∧ ∀ items', jget "clientType" items' = JArr rows' →
      parse_client_types repr (JObj items') asked = Ok f.
Proof.
  intros Hitems Hp. unfold parse_client_types at 1. rewrite bind_Ok. intros (rows0&Hrows&H).
  apply list_field_Ok in Hrows as (Hne&?&[= <-]&Heq). rewrite Hitems in Heq. injection Heq as <-.
  apply bind_Ok in H as (code&Hcode&H). apply bind_Ok in H as (out&Hout&H).
  apply bind_Ok in H as (vs&Hvs&[= <-]). simpl.
  pose proof (single_code_Ok _ _ _ _ _ Hcode) as (Hobj&_&Hasked).
  pose proof Hvs as [Hnd ->]%dates_unique_Ok.
  assert (sort_by cr_date out ≡ₚ out) as Hperm by apply py_sorted_perm.
  split_and!; [by apply sort_by_strict| | |done|].
  - rewrite Hperm, (traverse_length _ _ _ Hout). symmetry. rewrite Hobj at 1. by rewrite length_fmap.
  - rewrite Hperm. apply traverse_Ok in Hout. apply Forall_forall. intros r Hr.
    destruct (Forall2_elem_r _ _ _ _ Hout Hr) as (o&_&Ho). unfold client_row in Ho.
    apply bind_Ok in Ho as (d&_&Ho). apply bind_Ok in Ho as (cells&Hcells%traverse_Ok&[= <-]). simpl.
    by apply (client_cells_Ok o CLIENT_FIELDS).
  - intros items' Hitems'. unfold parse_client_types.
    assert (_list_field (JObj items') "clientType" = Ok rows') as ->.
    { apply list_field_Ok. split; [|by exists items']. intros ->.
      by apply Permutation_nil_r in Hp. }
    simpl. rewrite (single_code_perm _ _ _ _ _ _ Hp Hcode). simpl.
    assert (dict_rows rows ≡ₚ dict_rows rows') as Hdp by (unfold dict_rows; by rewrite Hp).
    destruct (traverse_perm _ _ _ _ Hdp Hout) as (out'&->&Hop). simpl.
    by rewrite (dates_unique_perm _ _ _ _ _ _ Hop Hvs).
Qed.

(** ** The market watch *)
Definition row_id (repr : json → string) (r : json) : string :=
  match r with JObj r => text_or_empty repr (jget "insID" r) | _ => EmptyString end.

(** The row is a share: its id starts with one of the four market codes. *)
Definition share_row (repr : json → string) (r : json) : bool :=
  match assoc (take_chars 4 (row_id repr r)) SHARE_MARKETS with Some _ => true | None => false end.

Definition row_code (r : json) : json :=
  match r with JObj r => jget "insCode" r | _ => JNull end.

Record share_ok (s : ListedShare) : Prop := {
  sh_code : ins_code_re (ls_code s) = true;
  sh_ins_id : ins_id_re (ins_id s) = true;
  sh_symbol : symbol_fa s ≠ EmptyString;
  sh_company : company_code s = take_chars 8 (ins_id s);
  sh_market : assoc (take_chars 4 (ins_id s)) SHARE_MARKETS = Some (ls_market s);
  sh_checks : share_checks s = true;
  sh_sector : ls_sector s = EmptyString ∨ sector_re (ls_sector s) = true;
}.

Lemma existsb_eqb s l : existsb (String.eqb s) l = true ↔ s ∈ l.
Proof.
  rewrite existsb_exists. setoid_rewrite <-list_elem_of_In. split.
  - intros (x&Hx&Heq). by apply String.eqb_eq in Heq as ->.
  - intros Hs. exists s. by rewrite String.eqb_refl.
Qed.

Lemma market_known k m :
  assoc k SHARE_MARKETS = Some m →
  existsb (String.eqb m) ["bourse"; "farabourse"; "paye"; "sme"] = true.
Proof.
  intros Hm%assoc_elem. unfold SHARE_MARKETS in Hm. rewrite !elem_of_cons, elem_of_nil in Hm.
  by destruct Hm as [[= _ ->]|[[= _ ->]|[[= _ ->]|[[= _ ->]|[]]]]].
Qed.

Lemma board_known k :
  existsb (String.eqb (default "other" (assoc k SHARE_BOARDS)))
    ["main"; "block"; "secondary"; "other"] = true.
Proof.
  destruct (assoc k SHARE_BOARDS) as [b|] eqn:Hb; [|done].
  apply assoc_elem in Hb. unfold SHARE_BOARDS in Hb. rewrite !elem_of_cons, elem_of_nil in Hb.
  by destruct Hb as [[= _ ->]|[[= _ ->]|[[= _ ->]|[]]]].
Qed.

Lemma exact_code_re v what text : exact_code v what = Ok text → ins_code_re text = true.
Proof.
  unfold exact_code. rewrite bind_Ok. intros (t&_&H). by destruct (ins_code_re t) eqn:Ht in H; [injection H as <-|].
Qed.

Lemma watch_row_Ok repr fold_name fold_symbol seen r o :
  watch_row repr fold_name fold_symbol seen r = Ok o →
  match o with
  | None => share_row repr r = false
  | Some s => share_row repr r = true ∧ share_ok s ∧ ls_code s ∉ seen
              ∧ ins_id s = row_id repr r
              ∧ exact_code (row_code r) (ins_id s) = Ok (ls_code s)
  end.
Proof.
  unfold watch_row, share_row, row_id, row_code. destruct r as [| | | | | |r]; try done.
  destruct (assoc (take_chars 4 _) SHARE_MARKETS) as [market|] eqn:Hm; [|by intros [= <-]].
  intros H. apply bind_Ok in H as (u&Hid&H). apply raise_if_Ok, negb_false_iff in Hid.
  apply bind_Ok in H as (code&Hcode&H). pose proof Hcode as Hre%exact_code_re.
  apply bind_Ok in H as (u'&Hseen&H). apply raise_if_Ok in Hseen.
  apply bind_Ok in H as (u''&Hsym&H). apply raise_if_Ok, String.eqb_neq in Hsym.
  injection H as <-. split_and!; [done|constructor| |done|done];
    cbn [ls_code ins_id symbol_fa company_code ls_market ls_sector]; try done.
  - unfold share_checks. cbn [ls_market board]. rewrite (market_known _ _ Hm). apply board_known.
  - destruct (sector_re (text_or_empty repr (jget "csv" r))) eqn:Hcsv; [by right|by left].
  - intros Hin. by rewrite (proj2 (existsb_eqb _ _) Hin) in Hseen.
Qed.

Lemma watch_rows_Ok repr fold_name fold_symbol seen rows ss :
  watch_rows repr fold_name fold_symbol seen rows = Ok ss →
  Forall share_ok ss ∧ NoDup (ls_code <$> ss) ∧ Forall (λ s, ls_code s ∉ seen) ss
  ∧ Forall2 (λ r s, ins_id s = row_id repr r ∧ exact_code (row_code r) (ins_id s) = Ok (ls_code s))
      (List.filter (share_row repr) rows) ss.
Proof.
  revert seen ss. induction rows as [|r rows IH]; intros seen ss; simpl.
  - intros [= <-]. split_and!; constructor.
  - rewrite bind_Ok. intros (o&Ho%watch_row_Ok&H). destruct o as [s|].
    + destruct Ho as (->&Hok&Hnin&Hid&Hcode).
      apply bind_Ok in H as (rest&(Hall&Hnd&Hfresh&H2)%IH&[= <-]). csimpl.
      split_and!; [by constructor| | |by constructor].
      * apply NoDup_cons. split; [|done]. intros (t&Heq&Ht)%list_elem_of_fmap.
        rewrite Forall_forall in Hfresh. apply (Hfresh t Ht). rewrite Heq. by left.
      * constructor; [done|]. eapply Forall_impl; [exact Hfresh|]. intros t Ht Hin.
        apply Ht. by right.
    + rewrite Ho. by apply IH.
Qed.

(** The share universe is read exactly: every row whose id starts with a share
    market's code, and no other, is one listed share, in the order served, under
    its exact code; no code is listed twice; every share satisfies the table's
    CHECKs, has a 12-character id, a 1 to 20 digit code, a symbol, the company of
    its id and a two-digit sector or none; and the payload's rows are counted. *)
Theorem market_watch_sound repr fold_name fold_symbol payload w :
  parse_market_watch repr fold_name fold_symbol payload = Ok w →
  ∃ items rows, payload = JObj items ∧ jget "marketwatch" items = JArr rows
  ∧ rows_total w = Z.of_nat (length rows) ∧ shares w ≠ []
  ∧ Forall share_ok (shares w) ∧ NoDup (ls_code <$> shares w)
  ∧ Forall2 (λ r s, ins_id s = row_id repr r ∧ exact_code (row_code r) (ins_id s) = Ok (ls_code s))
      (List.filter (share_row repr) rows) (shares w).
Proof.
  unfold parse_market_watch. rewrite bind_Ok. intros (rows&Hrows&H).
  apply list_field_Ok in Hrows as (_&items&->&Hitems). exists items, rows.
  apply bind_Ok in H as (ss&(Hok&Hnd&_&H2)%watch_rows_Ok&H).
  destruct ss as [|s ss]; [done|]. by injection H as <-.
Qed.

(** ** The day file *)
Lemma day_rows_Ok out rows out' :
  day_rows out rows = Ok out' → NoDup out.*1 →
  NoDup out'.*1 ∧ ∃ added, out' = out ++ added
  ∧ Forall2 (λ r c, r = JObj c.2 ∧ exact_code (jget "insCode" c.2) "day-file" = Ok c.1) rows added.
Proof.
  revert out. induction rows as [|r rows IH]; intros out; simpl.
  - intros [= <-] Hnd. split; [done|]. exists []. by rewrite app_nil_r.
  - destruct r as [| | | | | |r]; try done. rewrite bind_Ok. intros (code&Hcode&H) Hnd.
    apply bind_Ok in H as (u&Hnew&H). apply raise_if_Ok in Hnew.
    apply IH in H as (Hnd'&added&->&H2).
    + split; [done|]. exists ((code, r) :: added). rewrite <-app_assoc. split; [done|].
      by constructor.
    + rewrite fmap_app. apply NoDup_app. split_and!; [done| |apply NoDup_singleton].
      intros c Hc Hin%list_elem_of_singleton. simpl in Hin. subst c.
      apply list_elem_of_fmap in Hc as ([c v]&->&Hcv). simpl in *.
      destruct (assoc c out) eqn:Ha; [done|]. clear -Ha Hcv.
      induction out as [|[k w] out IH]; [by apply elem_of_nil in Hcv|]. simpl in Ha.
      destruct (String.eqb_spec c k) as [|Hne]; [done|].
      apply elem_of_cons in Hcv as [[= -> ->]|Hcv]; [done|]. by apply IH.
Qed.

(** A day file is keyed exactly: every row is an object, its key is its exact
    instrument code, the rows keep their order and content, and no code is served
    twice. *)
Theorem day_file_sound payload out :
  parse_day_file payload = Ok out →
  NoDup out.*1 ∧ out ≠ []
  ∧ ∃ items rows, payload = JObj items ∧ jget DAY_FILE_FIELD items = JArr rows
    ∧ Forall2 (λ r c, r = JObj c.2 ∧ exact_code (jget "insCode" c.2) "day-file" = Ok c.1) rows out.
Proof.
  unfold parse_day_file. rewrite bind_Ok. intros (rows&Hrows&H).
  apply list_field_Ok in Hrows as (Hne&items&->&Hitems).
  apply day_rows_Ok in H as (Hnd&added&->&H2); [|constructor]. simpl in *.
  split_and!; [done| |by exists items, rows]. intros ->. by apply Forall2_nil_inv_r in H2.
Qed.

(** ** Concrete payloads *)
Definition demo_fold (v : json) : string := match v with JStr s => strip s | _ => EmptyString end.

Definition demo_index_row (code : json) (day : Z) (close : json) : json := JObj
  [("insCode", code); ("dEven", JInt day); ("xNivInuClMresIbs", close);
   ("xNivInuPbMresIbs", JNull); ("xNivInuPhMresIbs", JInt 12)].

Definition demo_index : json := JObj
  [("indexB2", JArr [demo_index_row (JInt 32097828799138957) 20240103 (JInt 12);
                     demo_index_row (JStr " 32097828799138957") 20240101 (JFloat (flit 105 1));
                     demo_index_row (JInt 32097828799138957) 20240102 (JInt 0)])].

Definition demo_history : IndexHistory :=
  ok_or {| ih_code := EmptyString; ih_values := []; dropped_nonpositive := 0; dropped_dates := [] |}
    (parse_index_history no_repr demo_index "32097828799138957").

Example demo_history_is :
  (ih_code demo_history, iv_date <$> ih_values demo_history, dropped_dates demo_history)
  = ("32097828799138957", [ordinal 2024 1 1; ordinal 2024 1 3], [ordinal 2024 1 2]).
Proof. reflexivity. Qed.

Lemma index_history_sound_witness :
  ∃ items rows, demo_index = JObj items ∧ jget "indexB2" items = JArr (JObj <$> rows)
  ∧ Forall (λ r, _code no_repr (jget "insCode" r) "index" = Ok (ih_code demo_history)) rows
  ∧ isdigit (ih_code demo_history) = true
  ∧ ("32097828799138957" = EmptyString ∨ ih_code demo_history = "32097828799138957")
  ∧ ih_values demo_history ≠ [] ∧ strictly_ascending iv_date (ih_values demo_history)
  ∧ Forall index_value_ok (ih_values demo_history)
  ∧ (∃ parsed, Forall2 index_row_spec rows parsed
     ∧ rights parsed ≡ₚ ih_values demo_history ∧ lefts parsed ≡ₚ dropped_dates demo_history)
  ∧ Z.of_nat (length rows)
    = Z.of_nat (length (ih_values demo_history)) + dropped_nonpositive demo_history
  ∧ dropped_nonpositive demo_history = Z.of_nat (length (dropped_dates demo_history)).
Proof. apply (index_history_sound no_repr). reflexivity. Defined.

(** The same code once as a float: the history is refused. *)
Example float_code_refused :
  exact_code (JFloat (float_of_Z 32097828799138957)) "day-file"
  = Err (FloatCode "day-file" (JFloat (float_of_Z 32097828799138957))).
Proof. reflexivity. Qed.

(** And what the float would have kept. *)
Example float_code_lossy : int_of_float (float_of_Z 32097828799138957) = Ok 32097828799138956.
Proof. reflexivity. Qed.

Definition demo_client_row (day buyers : Z) : json := JObj
  ([("insCode", JInt 7745894403636165); ("recDate", JInt day); ("buy_I_Count", JInt buyers)]
   ++ ((λ f, (f.1.2, JInt 5)) <$> tail CLIENT_FIELDS)).

Definition demo_client_rows : list json := [demo_client_row 20240103 4; demo_client_row 20240101 9].

Definition demo_flows : ClientFlows :=
  ok_or {| cf_code := EmptyString; cf_rows := [] |}
    (parse_client_types no_repr (JObj [("clientType", JArr demo_client_rows)]) EmptyString).

Lemma client_types_sound_witness :
  strictly_ascending cr_date (cf_rows demo_flows)
  ∧ length (cf_rows demo_flows) = length demo_client_rows
  ∧ Forall (λ r, (cr_cells r).*1 = CLIENT_FIELDS.*1.*1
                 ∧ Forall (λ c, cell_ok c = true) (cr_cells r)) (cf_rows demo_flows)
  ∧ (EmptyString = EmptyString ∨ cf_code demo_flows = EmptyString)
  ∧ ∀ items', jget "clientType" items' = JArr (reverse demo_client_rows) →
      parse_client_types no_repr (JObj items') EmptyString = Ok demo_flows.
Proof.
  apply (client_types_sound no_repr [("clientType", JArr demo_client_rows)] demo_client_rows
           (reverse demo_client_rows)).
  - reflexivity.
  - symmetry. apply reverse_Permutation.
  - reflexivity.
Defined.

Definition demo_watch_row (id : string) (code : Z) (symbol csv : string) : json := JObj
  [("insID", JStr id); ("insCode", JInt code); ("lva", JStr symbol); ("lvc", JStr "name");
   ("csv", JStr csv)].

Definition demo_watch_payload : json := JObj
  [("marketwatch", JArr [demo_watch_row "IRO1FOLD0001" 46348559193224090 "foolad" "27 ";
                         demo_watch_row "IRO6AAAA0001" 11 "bond" "69";
                         demo_watch_row "IRO3ZZZZ0009" 22 "zob" "x"])].

Definition demo_watch : MarketWatch :=
  ok_or {| shares := []; rows_total := 0 |}
    (parse_market_watch no_repr demo_fold demo_fold demo_watch_payload).

Example demo_watch_is :
  (λ s, (ls_code s, ls_market s, board s, company_code s, ls_sector s)) <$> shares demo_watch
  = [("46348559193224090", "bourse", "main", "IRO1FOLD", "27");
     ("22", "farabourse", "other", "IRO3ZZZZ", EmptyString)].
Proof. reflexivity. Qed.

Lemma market_watch_sound_witness :
  ∃ items rows, demo_watch_payload = JObj items ∧ jget "marketwatch" items = JArr rows
  ∧ rows_total demo_watch = Z.of_nat (length rows) ∧ shares demo_watch ≠ []
  ∧ Forall share_ok (shares demo_watch) ∧ NoDup (ls_code <$> shares demo_watch)
  ∧ Forall2 (λ r s, ins_id s = row_id no_repr r
                    ∧ exact_code (row_code r) (ins_id s) = Ok (ls_code s))
      (List.filter (share_row no_repr) rows) (shares demo_watch).
Proof. apply (market_watch_sound no_repr demo_fold demo_fold). reflexivity. Defined.

Definition demo_session (code : json) (close last : json) : json := JObj
  [("insCode", code); ("pClosing", close); ("priceYesterday", JInt 4100); ("pDrCotVal", last);
   ("qTotCap", JFloat (flit 125 1)); ("qTotTran5J", JInt 3); ("zTotTran", JFloat (float_of_Z 2))].

Definition demo_day : list (string * object) :=
  ok_or [] (parse_day_file (JObj
    [(DAY_FILE_FIELD, JArr [demo_session (JInt 46348559193224090) (JInt 4200) (JInt 0);
                            demo_session (JStr "22") (JInt 0) (JInt 4)])])).

Lemma day_file_sound_witness :
  NoDup demo_day.*1 ∧ demo_day ≠ []
  ∧ ∃ items rows, JObj
      [(DAY_FILE_FIELD, JArr [demo_session (JInt 46348559193224090) (JInt 4200) (JInt 0);
                              demo_session (JStr "22") (JInt 0) (JInt 4)])] = JObj items
    ∧ jget DAY_FILE_FIELD items = JArr rows
    ∧ Forall2 (λ r c, r = JObj c.2 ∧ exact_code (jget "insCode" c.2) "day-file" = Ok c.1)
        rows demo_day.
Proof. apply day_file_sound. reflexivity. Defined.

(** The first row is stored, without a last trade; the second is refused. *)
Example demo_sessions :
  (λ c, match parse_session_row c.2 with
        | Ok s => Some (last_trade s, trades s)
        | Err _ => None
        end) <$> demo_day = [Some (None, 2); None].
Proof. reflexivity. Qed.
