(* ===== verification/TrendAlignment.v ===== *)
(** * Multi-timeframe trend alignment

    [app/models/trend_alignment.py]: moving averages, the strict stack test,
    resampling of hourly candles into four-hour buckets, the completed-candle
    filter and the evaluation of a symbol on three timeframes.

    Instants are microseconds on the UTC clock.  [bucket_start] goes through a
    float of seconds exactly as the code does; [bucket_start_floor] shows that
    the detour is the integer floor until the year 2255. *)
From S2P Require Import Prelude PyFloat PyTime.
Local Open Scope string_scope.
Local Open Scope list_scope.
Local Open Scope Z_scope.

Inductive TrendState : Set := bullish | bearish | neutral | unavailable.
Inductive Alignment : Set := full_bullish | full_bearish | not_aligned.

#[export] Instance TrendState_eq_dec : EqDecision TrendState.
Proof. solve_decision. Defined.

(** The three keys of [TIMEFRAME_SECONDS]. *)
Inductive timeframe : Set := tf_1h | tf_4h | tf_1d.

Definition TIMEFRAME_SECONDS (tf : timeframe) : Z :=
  match tf with tf_1h => 3600 | tf_4h => 4 * 3600 | tf_1d => 86400 end.
Definition TIMEFRAMES : list timeframe := [tf_1d; tf_4h; tf_1h].

Definition WARMUP_FACTOR : float := flit 13 1.

Record Candle : Set := {
  c_start : instant;
  c_open : float;
  c_high : float;
  c_low : float;
  c_close : float;
}.

(** The [reason] texts, by the numbers they print. *)
Inductive tf_reason : Set :=
| no_reason
| no_completed_candles
| candle_too_old (buckets : float)
| too_few_candles (have slow : Z)
| warming_up (have needed : Z).

Record TimeframeResult : Set := {
  r_timeframe : timeframe;
  r_trend : TrendState;
  price : option float;
  ma26 : option float;
  ma48 : option float;
  ma220 : option float;
  candle_open_time : option instant;
  candle_close_time : option instant;
  confirmed : bool;
  tf_data_fresh : bool;
  r_ma_type : string;
  history_points : Z;
  tf_why : tf_reason;
}.

(** ** Moving averages *)
Definition len {A} (l : list A) : Z := Z.of_nat (length l).

Definition sma (values : list float) (period : Z) : option float :=
  if (period <=? 0) || (len values <? period) then None
  else
    let window := drop (length values - Z.to_nat period) values in
    Some (fdiv_ieee (fsum window) (float_of_Z period)).

Definition ema_k (period : Z) : float :=
  fdiv_ieee (float_of_Z 2) (fadd (float_of_Z period) fone).

Definition ema_step (k current value : float) : float :=
  fadd (fmul (fsub value current) k) current.

Definition ema (values : list float) (period : Z) : option float :=
  if (period <=? 0) || (len values <? period) then None
  else
    let k := ema_k period in
    let current :=
      fdiv_ieee (fsum (take (Z.to_nat period) values)) (float_of_Z period) in
    Some (foldl (ema_step k) current (drop (Z.to_nat period) values)).

Definition moving_average (values : list float) (period : Z) (ma_type : string) : option float :=
  if String.eqb ma_type "sma" then sma values period else ema values period.

(** ** States *)
Definition trend_state (price ma26 ma48 ma220 : option float) : TrendState :=
  match price, ma26, ma48, ma220 with
  | Some p, Some a, Some b, Some c =>
      if fgt p a && fgt a b && fgt b c then bullish
      else if flt p a && flt a b && flt b c then bearish
      else neutral
  | _, _, _, _ => unavailable
  end.

Definition alignment (one_day four_hour one_hour : TrendState) : Alignment :=
  let states := [one_day; four_hour; one_hour] in
  if existsb (λ s, bool_decide (s = unavailable)) states then not_aligned
  else if forallb (λ s, bool_decide (s = bullish)) states then full_bullish
  else if forallb (λ s, bool_decide (s = bearish)) states then full_bearish
  else not_aligned.

(** ** Candles *)

(** 1970-01-01T00:00Z *)
Definition EPOCH : instant := 719162 * us_day.

Definition bucket_start (at_ : instant) (seconds : Z) : result pyerr instant :=
  epoch ← int_of_float (total_seconds (at_ - EPOCH));
  if seconds =? 0 then Err ZeroDivisionError
  else Ok (EPOCH + (epoch - epoch mod seconds) * us_second).

(** [buckets.setdefault(bucket_start(...), []).append(candle)] over the candles *)
Fixpoint bucketize (seconds : Z) (buckets : gmap Z (list Candle)) (candles : list Candle)
    : result pyerr (gmap Z (list Candle)) :=
  match candles with
  | [] => Ok buckets
  | c :: candles =>
      b ← bucket_start (c_start c) seconds;
      bucketize seconds (<[b := default [] (buckets !! b) ++ [c]]> buckets) candles
  end.

(** One output candle: [group[0]] raises on an empty group. *)
Definition aggregate (start : instant) (candles : list Candle) : result pyerr Candle :=
  match sort_by c_start candles with
  | [] => Err IndexError
  | g0 :: rest =>
      Ok {| c_start := start;
            c_open := c_open g0;
            c_high := foldl fmax (c_high g0) (c_high <$> rest);
            c_low := foldl fmin (c_low g0) (c_low <$> rest);
            c_close := c_close (List.last rest g0) |}
  end.

Definition resample (candles : list Candle) (seconds : Z) : result pyerr (list Candle) :=
  buckets ← bucketize seconds ∅ candles;
  traverse (λ start, aggregate start (default [] (buckets !! start)))
    (sort_by id (map_to_list buckets).*1).

Definition is_completed (seconds : Z) (now : instant) (c : Candle) : bool :=
  c_start c + seconds * us_second <=? now.

Definition completed (candles : list Candle) (seconds : Z) (now : instant) : list Candle :=
  List.filter (is_completed seconds now) candles.

(** ** Configuration *)
Record TrendConfig : Set := {
  cfg_enabled : bool;
  ma_type : string;
  fast : Z;
  mid : Z;
  slow : Z;
  stale_buckets : float;
}.

Definition default_config : TrendConfig :=
  {| cfg_enabled := true; ma_type := "ema"; fast := 26; mid := 48; slow := 220;
     stale_buckets := float_of_Z 3 |}.

Definition validate_config (cfg : TrendConfig) : result pyerr () :=
  raise_if (negb ((0 <? fast cfg) && (fast cfg <? mid cfg) && (mid cfg <? slow cfg))) ValueError;;
  raise_if (negb (String.eqb (ma_type cfg) "ema" || String.eqb (ma_type cfg) "sma")) ValueError.

(** ** One timeframe *)
Definition evaluate_timeframe (tf : timeframe) (candles : list Candle) (now : instant)
    (config : TrendConfig) : result pyerr TimeframeResult :=
  let seconds := TIMEFRAME_SECONDS tf in
  let done := completed candles seconds now in
  match last done with
  | None =>
      Ok {| r_timeframe := tf; r_trend := unavailable; price := None; ma26 := None;
            ma48 := None; ma220 := None; candle_open_time := None;
            candle_close_time := None; confirmed := false; tf_data_fresh := false;
            r_ma_type := ma_type config; history_points := len done;
            tf_why := no_completed_candles |}
  | Some last_c =>
      let close_time := c_start last_c + seconds * us_second in
      let age := total_seconds (now - close_time) in
      let fresh := fle age (fmul (stale_buckets config) (float_of_Z seconds)) in
      let found trend a b c why :=
        {| r_timeframe := tf; r_trend := trend; price := Some (c_close last_c);
           ma26 := a; ma48 := b; ma220 := c;
           candle_open_time := Some (c_start last_c);
           candle_close_time := Some close_time; confirmed := true;
           tf_data_fresh := fresh; r_ma_type := ma_type config;
           history_points := len done; tf_why := why |} in
      if negb fresh then
        Ok (found unavailable None None None
              (candle_too_old (fdiv_ieee age (float_of_Z seconds))))
      else
        slow_f ← py_float_of_int (slow config);
        needed ← int_of_float (fmul slow_f WARMUP_FACTOR);
        if len done <? slow config then
          Ok (found unavailable None None None (too_few_candles (len done) (slow config)))
        else
          let closes := c_close <$> done in
          let a := moving_average closes (fast config) (ma_type config) in
          let b := moving_average closes (mid config) (ma_type config) in
          let c := moving_average closes (slow config) (ma_type config) in
          Ok (found (trend_state (Some (c_close last_c)) a b c) a b c
                (if len done <? needed then warming_up (len done) needed else no_reason))
  end.

(** ** A symbol *)
Record AlignmentResult : Set := {
  al_symbol : string;
  al_alignment : Alignment;
  r_1d : TimeframeResult;
  r_4h : TimeframeResult;
  r_1h : TimeframeResult;
  calculated_at : instant;
  al_data_fresh : bool;
}.

(** [timeframes[tf]] *)
Definition timeframes (r : AlignmentResult) (tf : timeframe) : TimeframeResult :=
  match tf with tf_1d => r_1d r | tf_4h => r_4h r | tf_1h => r_1h r end.

Definition candle_identity (r : AlignmentResult) : list (timeframe * option instant) :=
  (λ tf, (tf, candle_close_time (timeframes r tf))) <$> TIMEFRAMES.

Definition evaluate (symbol : string) (hourly daily : list Candle) (now : instant)
    (config : option TrendConfig) : result pyerr AlignmentResult :=
  let config := default default_config config in
  validate_config config;;
  four ← resample hourly (TIMEFRAME_SECONDS tf_4h);
  d ← evaluate_timeframe tf_1d daily now config;
  f ← evaluate_timeframe tf_4h four now config;
  h ← evaluate_timeframe tf_1h hourly now config;
  Ok {| al_symbol := symbol;
        al_alignment := alignment (r_trend d) (r_trend f) (r_trend h);
        r_1d := d; r_4h := f; r_1h := h;
        calculated_at := now;
        al_data_fresh := tf_data_fresh d && tf_data_fresh f && tf_data_fresh h |}.

(** ** Buckets are integer floors *)
Definition in_range (c : Candle) : Prop := 0 ≤ c_start c - EPOCH < 2 ^ 53.

#[export] Instance in_range_dec c : Decision (in_range c).
Proof. unfold in_range. apply _. Defined.

Definition floor_bucket (seconds : Z) (at_ : instant) : instant :=
  EPOCH + (at_ - EPOCH) / (seconds * us_second) * (seconds * us_second).

Lemma bucket_start_eq at_ s :
  0 ≤ at_ - EPOCH < 2 ^ 53 → 0 < s → bucket_start at_ s = Ok (floor_bucket s at_).
Proof.
  intros Hat Hs. unfold bucket_start, total_seconds, us_second, floor_bucket.
  rewrite int_of_true_div_million by done. simpl.
  rewrite (proj2 (Z.eqb_neq s 0)) by lia. f_equal. f_equal.
  rewrite (Z.mul_comm s us_second), <- Z.div_div, Z.mod_eq by (unfold us_second; lia).
  unfold us_second. ring.
Qed.

Lemma floor_bucket_spec s at_ :
  0 < s →
  floor_bucket s at_ ≤ at_ < floor_bucket s at_ + s * us_second
  ∧ (floor_bucket s at_ - EPOCH) mod (s * us_second) = 0.
Proof.
  intros Hs. unfold floor_bucket, us_second.
  pose proof (Z.div_mod (at_ - EPOCH) (s * 1000000) ltac:(lia)).
  pose proof (Z.mod_pos_bound (at_ - EPOCH) (s * 1000000) ltac:(lia)).
  split; [nia|].
  replace (EPOCH + _ - EPOCH) with ((at_ - EPOCH) / (s * 1000000) * (s * 1000000)) by lia.
  apply Z.mod_mul. lia.
Qed.

Lemma floor_bucket_unique s at_ b :
  0 < s → b ≤ at_ < b + s * us_second → (b - EPOCH) mod (s * us_second) = 0 →
  floor_bucket s at_ = b.
Proof.
  intros Hs Hb Hm. unfold floor_bucket, us_second in *.
  pose proof (Z.div_mod (b - EPOCH) (s * 1000000) ltac:(lia)) as Hd.
  rewrite Hm in Hd. set (q := (b - EPOCH) / (s * 1000000)) in *.
  assert ((at_ - EPOCH) / (s * 1000000) = q) as ->; [|nia].
  symmetry. apply (Z.div_unique_pos _ _ _ (at_ - b)); nia.
Qed.

(** The detour through a float of seconds is harmless: from 1970 to 2255,
    microseconds included, [bucket_start] returns the unique boundary of the
    epoch-aligned grid at or below the instant. *)
Theorem bucket_start_floor at_ s :
  0 ≤ at_ - EPOCH < 2 ^ 53 → 0 < s →
  ∃ b, bucket_start at_ s = Ok b
       ∧ b ≤ at_ < b + s * us_second
       ∧ (b - EPOCH) mod (s * us_second) = 0
       ∧ bucket_start b s = Ok b.
Proof.
  intros Hat Hs. exists (floor_bucket s at_).
  destruct (floor_bucket_spec s at_ Hs) as [Hb Hm].
  split_and!; [by apply bucket_start_eq|lia|lia|done|].
  rewrite bucket_start_eq; [|unfold floor_bucket|done].
  - f_equal. apply floor_bucket_unique; unfold us_second in *; [done|lia|done].
  - split; [|unfold floor_bucket in Hb; lia].
    assert (0 ≤ (at_ - EPOCH) / (s * us_second)) by (apply Z.div_pos; unfold us_second; lia).
    unfold us_second in *. nia.
Qed.

(** 2026-07-12T10:47:31.999999Z *)
Definition an_instant : instant := 63949546051999999.

Lemma bucket_start_floor_witness :
  ∃ b, bucket_start an_instant 14400 = Ok b
       ∧ b ≤ an_instant < b + 14400 * us_second
       ∧ (b - EPOCH) mod (14400 * us_second) = 0
       ∧ bucket_start b 14400 = Ok b.
Proof. apply (bucket_start_floor an_instant 14400); vm_compute; [split; congruence|done]. Defined.

(** ** Grouping *)
Definition in_bucket (s : Z) (k : instant) (c : Candle) : bool := floor_bucket s (c_start c) =? k.
Definition bucket (s : Z) (k : instant) (cs : list Candle) : list Candle :=
  List.filter (in_bucket s k) cs.

Lemma bucketize_spec s m cs :
  0 < s → Forall in_range cs →
  ∃ m', bucketize s m cs = Ok m'
    ∧ (∀ k, default [] (m' !! k) = default [] (m !! k) ++ bucket s k cs)
    ∧ (∀ k, is_Some (m' !! k) ↔ is_Some (m !! k) ∨ ∃ c, c ∈ cs ∧ floor_bucket s (c_start c) = k).
Proof.
  intros Hs Hr. revert m. induction Hr as [|c cs Hc _ IH]; intros m; simpl.
  - exists m. split_and!; [done|intros k; by rewrite app_nil_r|]. set_solver.
  - rewrite bucket_start_eq by done. simpl. set (b := floor_bucket s (c_start c)).
    destruct (IH (<[b := default [] (m !! b) ++ [c]]> m)) as (m'&->&Hd&Hs').
    exists m'. split_and!; [done| |].
    + intros k. rewrite Hd. unfold in_bucket at 1. fold b.
      destruct (Z.eqb_spec b k) as [<-|Hne].
      * rewrite lookup_insert_eq. simpl. by rewrite <- app_assoc.
      * by rewrite lookup_insert_ne.
    + intros k. rewrite Hs'. destruct (decide (b = k)) as [<-|Hne].
      * rewrite lookup_insert_eq. split; [|by left].
        intros _. right. exists c. split; [left|done].
      * rewrite lookup_insert_ne by done. unfold b in Hne. set_solver.
Qed.

Lemma aggregate_Ok k g :
  g ≠ [] → ∃ o, aggregate k g = Ok o ∧ c_start o = k.
Proof.
  intros Hg. unfold aggregate. destruct (sort_by c_start g) as [|g0 rest] eqn:Hsort.
  - pose proof (py_sorted_perm (λ x y, c_start x <? c_start y) g) as Hp.
    unfold sort_by in Hsort. rewrite Hsort in Hp. by apply Permutation_nil_l in Hp.
  - by eexists.
Qed.

(** What [resample] returns: one candle per occupied bucket, in order. *)
Lemma resample_spec s cs :
  0 < s → Forall in_range cs →
  ∃ ks out, resample cs s = Ok out
    ∧ strictly_ascending id ks
    ∧ (∀ k, k ∈ ks ↔ ∃ c, c ∈ cs ∧ floor_bucket s (c_start c) = k)
    ∧ Forall2 (λ k o, aggregate k (bucket s k cs) = Ok o ∧ c_start o = k) ks out.
Proof.
  intros Hs Hr. destruct (bucketize_spec s ∅ cs Hs Hr) as (m&Hm&Hd&HS).
  unfold resample. rewrite Hm. simpl.
  set (ks := sort_by id (map_to_list m).*1).
  assert (∀ k, k ∈ ks ↔ ∃ c, c ∈ cs ∧ floor_bucket s (c_start c) = k) as Hks.
  { intros k. unfold ks, sort_by. rewrite py_sorted_perm, list_elem_of_fmap.
    transitivity (is_Some (m !! k)).
    - split.
      + intros ([k' v]&->&Hin%elem_of_map_to_list). by eexists.
      + intros [v Hv]. exists (k, v). by rewrite elem_of_map_to_list.
    - rewrite HS, lookup_empty. split; [intros [[? [=]]|?]; done|by right]. }
  assert (∀ k, default [] (m !! k) = bucket s k cs) as Hg by (intros k; by rewrite Hd, lookup_empty).
  destruct (traverse_total (λ start, aggregate start (default [] (m !! start)))
              (λ k o, c_start o = k) ks) as (out&Hout&H2).
  { intros k (c&Hc&Hk)%Hks. apply aggregate_Ok. rewrite Hg. intros Hnil.
    unfold bucket in Hnil. rewrite filter_nil_iff, Forall_forall in Hnil.
    specialize (Hnil c Hc). unfold in_bucket in Hnil. rewrite Hk, Z.eqb_refl in Hnil. done. }
  exists ks, out. split_and!; [done| |done|].
  - apply sort_by_strict. rewrite list_fmap_id. apply NoDup_fst_map_to_list.
  - eapply Forall2_impl; [exact H2|]. cbv beta. intros k o. by rewrite Hg.
Qed.

Lemma aggregate_ohlc k g o :
  aggregate k g = Ok o → no_nan (c_high <$> g) → no_nan (c_low <$> g) →
  (∃ c, c ∈ g ∧ c_open o = c_open c ∧ ∀ c', c' ∈ g → c_start c ≤ c_start c')
  ∧ (∃ c, c ∈ g ∧ c_close o = c_close c ∧ ∀ c', c' ∈ g → c_start c' ≤ c_start c)
  ∧ (∃ c, c ∈ g ∧ c_high o = c_high c) ∧ (∃ c, c ∈ g ∧ c_low o = c_low c)
  ∧ (∀ c, c ∈ g → fgt (c_high c) (c_high o) = false ∧ flt (c_low c) (c_low o) = false).
Proof.
  unfold aggregate. intros Hagg Hh Hl.
  destruct (sort_by c_start g) as [|g0 rest] eqn:Hs; [done|]. injection Hagg as <-. simpl.
  pose proof (py_sorted_perm (λ x y, c_start x <? c_start y) g) as Hp.
  unfold sort_by in Hs. rewrite Hs in Hp.
  pose proof (sort_by_ascending c_start g) as Ha. unfold sort_by in Ha. rewrite Hs in Ha.
  unfold no_nan in Hh, Hl. rewrite <- Hp in Hh, Hl. simpl in Hh, Hl.
  destruct (foldl_fmax_spec _ _ Hh) as [Hhe Hhg]. destruct (foldl_fmin_spec _ _ Hl) as [Hle Hlg].
  split_and!.
  - exists g0. destruct (sort_by_hd_le c_start g g0 rest Hs). by split_and!.
  - exists (List.last rest g0). split_and!; [rewrite <- Hp; apply last_elem|done|].
    intros c'. rewrite <- Hp. by apply ascending_last_ge.
  - change (c_high g0 :: _) with (c_high <$> (g0 :: rest)) in Hhe.
    apply list_elem_of_fmap in Hhe as (c&Hc&Hin). exists c. by rewrite <- Hp.
  - change (c_low g0 :: _) with (c_low <$> (g0 :: rest)) in Hle.
    apply list_elem_of_fmap in Hle as (c&Hc&Hin). exists c. by rewrite <- Hp.
  - intros c. rewrite <- Hp. intros Hc. split.
    + apply Hhg. change (c_high g0 :: _) with (c_high <$> (g0 :: rest)).
      by apply list_elem_of_fmap_2.
    + apply Hlg. change (c_low g0 :: _) with (c_low <$> (g0 :: rest)).
      by apply list_elem_of_fmap_2.
Qed.

(** Resampling is total from 1970 to 2255 and gives true OHLC: exactly one
    candle per occupied bucket, in strictly increasing order of their starts;
    every source candle falls in one of them; and each takes its open from the
    earliest of its sources, its close from the latest, and a high and a low
    that one source quoted and none exceeds.  No candle is invented for an
    empty bucket. *)
Theorem resample_ohlc s cs :
  0 < s → Forall in_range cs → no_nan (c_high <$> cs) → no_nan (c_low <$> cs) →
  ∃ out, resample cs s = Ok out
    ∧ strictly_ascending c_start out
    ∧ (∀ c, c ∈ cs → ∃ o, o ∈ out ∧ c_start o ≤ c_start c < c_start o + s * us_second)
    ∧ (∀ o, o ∈ out →
        let sources := List.filter (λ c, (c_start o <=? c_start c)
                                         && (c_start c <? c_start o + s * us_second)) cs in
        (∃ c, c ∈ sources ∧ c_open o = c_open c ∧ ∀ c', c' ∈ sources → c_start c ≤ c_start c')
        ∧ (∃ c, c ∈ sources ∧ c_close o = c_close c ∧ ∀ c', c' ∈ sources → c_start c' ≤ c_start c)
        ∧ (∃ c, c ∈ sources ∧ c_high o = c_high c) ∧ (∃ c, c ∈ sources ∧ c_low o = c_low c)
        ∧ (∀ c, c ∈ sources →
             fgt (c_high c) (c_high o) = false ∧ flt (c_low c) (c_low o) = false)).
Proof.
  intros Hs Hr Hh Hl. destruct (resample_spec s cs Hs Hr) as (ks&out&Hout&Hasc&Hks&H2).
  exists out. split_and!; [done| | |].
  - apply (Forall2_strictly_ascending id c_start ks); [|done].
    eapply Forall2_impl; [exact H2|]. by intros k o [_ ->].
  - intros c Hc. destruct (Forall2_elem_l _ _ _ (floor_bucket s (c_start c)) H2) as (o&Ho&_&Hk).
    { apply Hks. by exists c. }
    exists o. split; [done|]. rewrite Hk. by apply floor_bucket_spec.
  - intros o Ho. destruct (Forall2_elem_r _ _ _ _ H2 Ho) as (k&Hk&Hagg&Hst). cbv zeta.
    rewrite (bool_filter_ext _ (in_bucket s k)).
    + apply (aggregate_ohlc k); [done| |]; unfold no_nan; apply Forall_fmap, Forall_filter_weaken;
        by apply Forall_fmap in Hh, Hl.
    + intros c _. rewrite Hst. unfold in_bucket.
      apply Hks in Hk as (c0&_&<-).
      destruct (floor_bucket_spec s (c_start c0) Hs) as [_ Hm].
      destruct (floor_bucket_spec s (c_start c) Hs) as [Hb _].
      apply eq_bool_prop_intro. rewrite andb_True, !Is_true_true, Z.leb_le, Z.ltb_lt, Z.eqb_eq.
      split; [intros H; by apply floor_bucket_unique|intros <-; lia].
Qed.

Definition a_candle (start : Z) (o h l c : Z) : Candle :=
  {| c_start := EPOCH + start * us_second; c_open := float_of_Z o; c_high := float_of_Z h;
     c_low := float_of_Z l; c_close := float_of_Z c |}.

(** Four hours and the first hour of the next bucket, out of order. *)
Definition some_hours : list Candle :=
  [a_candle 1783857600 110 115 101 104; a_candle 1783854000 104 112 103 110;
   a_candle 1783868400 98 99 97 98; a_candle 1783864800 101 103 96 98;
   a_candle 1783861200 104 105 100 101].

Lemma resample_ohlc_witness :
  ∃ out, resample some_hours 14400 = Ok out
    ∧ strictly_ascending c_start out
    ∧ (∀ c, c ∈ some_hours → ∃ o, o ∈ out ∧ c_start o ≤ c_start c < c_start o + 14400 * us_second)
    ∧ (∀ o, o ∈ out →
        let sources := List.filter (λ c, (c_start o <=? c_start c)
                         && (c_start c <? c_start o + 14400 * us_second)) some_hours in
        (∃ c, c ∈ sources ∧ c_open o = c_open c ∧ ∀ c', c' ∈ sources → c_start c ≤ c_start c')
        ∧ (∃ c, c ∈ sources ∧ c_close o = c_close c ∧ ∀ c', c' ∈ sources → c_start c' ≤ c_start c)
        ∧ (∃ c, c ∈ sources ∧ c_high o = c_high c) ∧ (∃ c, c ∈ sources ∧ c_low o = c_low c)
        ∧ (∀ c, c ∈ sources →
             fgt (c_high c) (c_high o) = false ∧ flt (c_low c) (c_low o) = false)).
Proof.
  apply (resample_ohlc 14400 some_hours);
    [done|by_decide|repeat constructor|repeat constructor].
Defined.

(** ** No look-ahead *)
Definition on_the_hour (c : Candle) : Prop := (c_start c - EPOCH) mod (3600 * us_second) = 0.

#[export] Instance on_the_hour_dec c : Decision (on_the_hour c).
Proof. unfold on_the_hour. apply _. Defined.

Lemma bucket_end_covers c now :
  on_the_hour c →
  floor_bucket 14400 (c_start c) + 14400 * us_second ≤ now →
  c_start c + 3600 * us_second ≤ now.
Proof.
  unfold on_the_hour. destruct (floor_bucket_spec 14400 (c_start c)) as [Hb Hm]; [done|].
  unfold us_second in *. set (k := floor_bucket 14400 (c_start c)) in *.
  set (x := c_start c) in *. set (e0 := EPOCH) in *. clearbody k x e0.
  simpl Z.mul in *. intros Hh Hk. divlia.
Qed.

Lemma completed_idem cs s now : completed (completed cs s now) s now = completed cs s now.
Proof.
  unfold completed. rewrite bool_filter_filter. apply bool_filter_ext.
  intros c _. apply andb_diag.
Qed.

(** Completed four-hour buckets are built from completed hours only. *)
Lemma resample_completed cs now :
  Forall in_range cs → Forall on_the_hour cs →
  ∃ o1 o2, resample cs 14400 = Ok o1 ∧ resample (completed cs 3600 now) 14400 = Ok o2
           ∧ completed o1 14400 now = completed o2 14400 now.
Proof.
  intros Hr Hh. rewrite Forall_forall in Hh.
  destruct (resample_spec 14400 cs) as (ks1&o1&Ho1&Ha1&Hk1&H1); [done|done|].
  destruct (resample_spec 14400 (completed cs 3600 now)) as (ks2&o2&Ho2&Ha2&Hk2&H2);
    [done|by apply Forall_filter_weaken|].
  exists o1, o2. split_and!; [done|done|]. unfold completed.
  set (p := λ k : Z, k + 14400 * us_second <=? now).
  assert (List.filter p ks1 = List.filter p ks2) as Hks.
  { apply (strictly_ascending_ext id); [by apply StronglySorted_bool_filter..|].
    intros k. rewrite !elem_of_bool_filter, Hk1, Hk2. split.
    - intros [(c&Hc&<-) Hp]. split; [|done]. exists c. split; [|done].
      apply elem_of_bool_filter. split; [done|]. apply Z.leb_le.
      apply bucket_end_covers; [by apply Hh|by apply Z.leb_le in Hp].
    - intros [(c&[Hc _]%elem_of_bool_filter&<-) Hp]. split; [by exists c|done]. }
  apply (Forall2_det (λ k o, aggregate k (bucket 14400 k cs) = Ok o ∧ c_start o = k)
           (λ k o, aggregate k (bucket 14400 k (completed cs 3600 now)) = Ok o ∧ c_start o = k)
           (List.filter p ks1)).
  - intros k x y [_ Hp]%elem_of_bool_filter [Hx _] [Hy _].
    assert (bucket 14400 k (completed cs 3600 now) = bucket 14400 k cs) as Hbk; [|congruence].
    unfold bucket, completed. rewrite bool_filter_filter. apply bool_filter_ext.
    intros c Hc. unfold is_completed, in_bucket. destruct (Z.eqb_spec (floor_bucket 14400 (c_start c)) k) as [<-|];
      [|by rewrite andb_false_r].
    rewrite andb_true_r. apply Z.leb_le, bucket_end_covers; [by apply Hh|by apply Z.leb_le in Hp].
  - apply Forall2_bool_filter; [|done]. unfold p, is_completed. by intros k o [_ ->].
  - rewrite Hks. apply Forall2_bool_filter; [|done]. unfold p, is_completed. by intros k o [_ ->].
Qed.

Lemma evaluate_timeframe_completed tf cs cs' now cfg :
  completed cs (TIMEFRAME_SECONDS tf) now = completed cs' (TIMEFRAME_SECONDS tf) now →
  evaluate_timeframe tf cs now cfg = evaluate_timeframe tf cs' now cfg.
Proof. intros H. unfold evaluate_timeframe. by rewrite H. Qed.

Lemma resample_four_completed h h' now :
  Forall in_range h → Forall on_the_hour h → Forall in_range h' → Forall on_the_hour h' →
  completed h 3600 now = completed h' 3600 now →
  ∃ o o', resample h 14400 = Ok o ∧ resample h' 14400 = Ok o'
          ∧ completed o 14400 now = completed o' 14400 now.
Proof.
  intros Hr Hh Hr' Hh' Heq.
  destruct (resample_completed h now) as (o&o2&Ho&Ho2&He); [done|done|].
  destruct (resample_completed h' now) as (o'&o2'&Ho'&Ho2'&He'); [done|done|].
  exists o, o'. rewrite Heq in Ho2. split_and!; [done|done|]. congruence.
Qed.

Lemma evaluate_ext sym h h' o o' d d' now cfg :
  resample h 14400 = Ok o → resample h' 14400 = Ok o' →
  completed o 14400 now = completed o' 14400 now →
  completed h 3600 now = completed h' 3600 now →
  completed d 86400 now = completed d' 86400 now →
  evaluate sym h d now cfg = evaluate sym h' d' now cfg.
Proof.
  intros Ho Ho' He Hh Hd.
  unfold evaluate. change (TIMEFRAME_SECONDS tf_4h) with 14400. rewrite Ho, Ho'.
  cbn [mbind result_bind].
  by rewrite (evaluate_timeframe_completed tf_1d d d'), (evaluate_timeframe_completed tf_4h o o'),
    (evaluate_timeframe_completed tf_1h h h').
Qed.

(** No look-ahead: the evaluation of a symbol is a function of the candles
    that are complete at [now].  Two hourly series and two daily series with
    the same completed candles give the same result, however many forming
    candles they also hold and wherever those sit: a tick inside a forming
    hour, or inside a forming four-hour bucket, can change nothing. *)
Theorem evaluate_closed_only sym h h' d d' now cfg :
  Forall in_range h → Forall on_the_hour h → Forall in_range h' → Forall on_the_hour h' →
  completed h 3600 now = completed h' 3600 now →
  completed d 86400 now = completed d' 86400 now →
  evaluate sym h d now cfg = evaluate sym h' d' now cfg.
Proof.
  intros Hr Hh Hr' Hh' Heq Hd.
  destruct (resample_four_completed h h' now) as (o&o'&Ho&Ho'&He); try done.
  by apply (evaluate_ext sym h h' o o').
Qed.

Definition forming_hour : Candle := a_candle 1783868400 98 250 1 249.
Definition noon : instant := EPOCH + 1783870000 * us_second.

Lemma evaluate_closed_only_witness :
  evaluate "XAUUSD" some_hours [] noon None
  = evaluate "XAUUSD" (forming_hour :: List.filter (λ c, negb (c_start c =? c_start forming_hour)) some_hours)
      [a_candle 1783857600 1 2 1 2] noon None.
Proof.
  apply evaluate_closed_only; [by_decide..|vm_compute; reflexivity|vm_compute; reflexivity].
Defined.

(** ** Moving averages *)
Lemma ma_guard {A} (vs : list A) p :
  (p <=? 0) || (len vs <? p) = false ↔ 0 < p ∧ p ≤ len vs.
Proof. rewrite orb_false_iff, Z.leb_gt, Z.ltb_ge. done. Qed.

Lemma ma_defined vs p t :
  0 < p → p ≤ len vs → is_Some (moving_average vs p t).
Proof.
  intros Hp Hl. unfold moving_average, sma, ema.
  rewrite (proj2 (Z.leb_gt p 0)), (proj2 (Z.ltb_ge (len vs) p)) by lia. simpl.
  by destruct (String.eqb t "sma").
Qed.

(** Both averages can be maintained candle by candle: appending one value
    to a series long enough moves the EMA by one smoothing step from its
    previous value, and the SMA depends on the last [period] values only.  On
    exactly [period] values both are the plain mean. *)
Theorem moving_average_incremental vs v w p :
  0 < p → p ≤ len vs → len w = p →
  (∃ e, ema vs p = Some e ∧ ema (vs ++ [v]) p = Some (ema_step (ema_k p) e v))
  ∧ sma (vs ++ w) p = sma w p
  ∧ ema w p = sma w p ∧ sma w p = Some (fdiv_ieee (fsum w) (float_of_Z p)).
Proof.
  intros Hp Hl Hw. unfold ema, sma.
  assert (len (vs ++ [v]) = len vs + 1) as Hl1 by (unfold len; rewrite length_app; simpl; lia).
  assert (len (vs ++ w) = len vs + p) as Hl2 by (unfold len in *; rewrite length_app; lia).
  rewrite (proj2 (ma_guard vs p)), (proj2 (ma_guard (vs ++ [v]) p)),
    (proj2 (ma_guard (vs ++ w) p)), (proj2 (ma_guard w p)) by lia.
  unfold len in *.
  assert (length w = Z.to_nat p) as Hlw by lia.
  rewrite length_app, !Hlw, Nat.sub_diag, Nat.add_sub, drop_app_length, drop_0.
  rewrite (take_ge w), (drop_ge w) by lia. split_and!; [|done..].
  eexists. split; [done|].
  rewrite take_app_le, drop_app_le, foldl_app by lia. done.
Qed.

Lemma moving_average_incremental_witness :
  let vs := float_of_Z <$> [10; 12; 11; 13] in let w := float_of_Z <$> [7; 8; 9] in
  (∃ e, ema vs 3 = Some e ∧ ema (vs ++ [fone]) 3 = Some (ema_step (ema_k 3) e fone))
  ∧ sma (vs ++ w) 3 = sma w 3
  ∧ ema w 3 = sma w 3 ∧ sma w 3 = Some (fdiv_ieee (fsum w) (float_of_Z 3)).
Proof. apply moving_average_incremental; by vm_compute. Defined.

(** ** When a trend is published *)
Lemma validate_config_Ok cfg :
  validate_config cfg = Ok () ↔
  0 < fast cfg ∧ fast cfg < mid cfg ∧ mid cfg < slow cfg
  ∧ (ma_type cfg = "ema" ∨ ma_type cfg = "sma").
Proof.
  rewrite <- !String.eqb_eq, <- !Z.ltb_lt. unfold validate_config.
  destruct (0 <? fast cfg), (fast cfg <? mid cfg), (mid cfg <? slow cfg),
    (String.eqb (ma_type cfg) "ema"), (String.eqb (ma_type cfg) "sma"); simpl;
    naive_solver.
Qed.

Lemma trend_state_available p a b c :
  is_Some a → is_Some b → is_Some c → trend_state (Some p) a b c ≠ unavailable.
Proof. intros [? ->] [? ->] [? ->]. simpl. by repeat destruct_if. Qed.

Definition fresh_at (tf : timeframe) (cfg : TrendConfig) (now : instant) (c : Candle) : bool :=
  fle (total_seconds (now - (c_start c + TIMEFRAME_SECONDS tf * us_second)))
      (fmul (stale_buckets cfg) (float_of_Z (TIMEFRAME_SECONDS tf))).

Lemma evaluate_timeframe_inv tf cs now cfg r :
  evaluate_timeframe tf cs now cfg = Ok r →
  let done := completed cs (TIMEFRAME_SECONDS tf) now in
  let closes := c_close <$> done in
  history_points r = len done
  ∧ ((r_trend r = unavailable
      ∧ ∀ c, last done = Some c → fresh_at tf cfg now c = true → len done < slow cfg)
     ∨ ∃ c, last done = Some c ∧ fresh_at tf cfg now c = true ∧ slow cfg ≤ len done
        ∧ tf_data_fresh r = true ∧ confirmed r = true
        ∧ candle_close_time r = Some (c_start c + TIMEFRAME_SECONDS tf * us_second)
        ∧ price r = Some (c_close c)
        ∧ ma26 r = moving_average closes (fast cfg) (ma_type cfg)
        ∧ ma48 r = moving_average closes (mid cfg) (ma_type cfg)
        ∧ ma220 r = moving_average closes (slow cfg) (ma_type cfg)
        ∧ r_trend r = trend_state (price r) (ma26 r) (ma48 r) (ma220 r)).
Proof.
  intros H done closes. unfold evaluate_timeframe in H. fold done in H. fold closes in H.
  destruct (last done) as [c|] eqn:Hlast.
  2: { injection H as <-. split; [reflexivity|]. left. split; [reflexivity|]. intros ? [=]. }
  change (fle _ _) with (fresh_at tf cfg now c) in H.
  destruct (fresh_at tf cfg now c) eqn:Hfresh; simpl in H.
  2: { injection H as <-. split; [reflexivity|]. left. split; [reflexivity|]. congruence. }
  apply bind_Ok in H as (sf&_&H). apply bind_Ok in H as (needed&_&H).
  destruct (Z.ltb_spec (len done) (slow cfg)) as [Hlt|Hge]; injection H as <-;
    (split; [reflexivity|]).
  - left. by split.
  - right. exists c. by split_and!.
Qed.

(** A trend is published exactly when it is supported: under a valid
    configuration a timeframe is something else than [unavailable] if and only
    if its newest completed candle is fresh and at least [slow] candles are
    complete; it then carries that candle's close and the three averages of
    the completed closes, all of them defined. *)
Theorem trend_available_iff tf cs now cfg r :
  validate_config cfg = Ok () → evaluate_timeframe tf cs now cfg = Ok r →
  let done := completed cs (TIMEFRAME_SECONDS tf) now in
  (r_trend r ≠ unavailable ↔
     ∃ c, last done = Some c ∧ fresh_at tf cfg now c = true ∧ slow cfg ≤ len done)
  ∧ (r_trend r ≠ unavailable →
       is_Some (price r) ∧ is_Some (ma26 r) ∧ is_Some (ma48 r) ∧ is_Some (ma220 r)
       ∧ ma26 r = moving_average (c_close <$> done) (fast cfg) (ma_type cfg)
       ∧ ma48 r = moving_average (c_close <$> done) (mid cfg) (ma_type cfg)
       ∧ ma220 r = moving_average (c_close <$> done) (slow cfg) (ma_type cfg)
       ∧ r_trend r = trend_state (price r) (ma26 r) (ma48 r) (ma220 r)).
Proof.
  intros (Hf&Hm&Hs&_)%validate_config_Ok Hr done.
  destruct (evaluate_timeframe_inv _ _ _ _ _ Hr) as [_ [[Hu Hno]|Hyes]].
  - split; [|by rewrite Hu]. split; [by rewrite Hu|].
    intros (c&Hc&Hfr&Hlen). specialize (Hno c Hc Hfr). fold done in Hno. lia.
  - destruct Hyes as (c&Hc&Hfr&Hlen&_&_&_&Hp&Ha&Hb&Hcc&Ht). fold done in Hc, Hlen.
    assert (∀ q, 0 < q ≤ slow cfg → is_Some (moving_average (c_close <$> done) q (ma_type cfg)))
      as Hdef.
    { intros q Hq. apply ma_defined; [lia|]. unfold len in *. rewrite length_fmap. lia. }
    split.
    + split; [intros _; by exists c|]. intros _. rewrite Ht, Hp, Ha, Hb, Hcc.
      apply trend_state_available; apply Hdef; lia.
    + intros _. split_and!; [by rewrite Hp|rewrite Ha|rewrite Hb|rewrite Hcc|done..];
        apply Hdef; lia.
Qed.

Definition small_config : TrendConfig :=
  {| cfg_enabled := true; ma_type := "sma"; fast := 2; mid := 3; slow := 4;
     stale_buckets := float_of_Z 3 |}.
Definition rising_hours : list Candle :=
  [a_candle 1783854000 1 1 1 100; a_candle 1783857600 1 1 1 102;
   a_candle 1783861200 1 1 1 105; a_candle 1783864800 1 1 1 111].
Definition rising_result : TimeframeResult :=
  match evaluate_timeframe tf_1h rising_hours noon small_config with
  | Ok r => r
  | Err _ =>
      {| r_timeframe := tf_1h; r_trend := neutral; price := None; ma26 := None;
         ma48 := None; ma220 := None; candle_open_time := None; candle_close_time := None;
         confirmed := false; tf_data_fresh := false; r_ma_type := ""; history_points := 0;
         tf_why := no_reason |}
  end.

Lemma trend_available_iff_witness :
  r_trend rising_result ≠ unavailable ↔
  ∃ c, last (completed rising_hours 3600 noon) = Some c
       ∧ fresh_at tf_1h small_config noon c = true
       ∧ slow small_config ≤ len (completed rising_hours 3600 noon).
Proof.
  apply (trend_available_iff tf_1h rising_hours noon small_config rising_result);
    vm_compute; reflexivity.
Defined.

(** ** Full alignment *)
Lemma alignment_full d f h :
  (alignment d f h = full_bullish ↔ d = bullish ∧ f = bullish ∧ h = bullish)
  ∧ (alignment d f h = full_bearish ↔ d = bearish ∧ f = bearish ∧ h = bearish).
Proof. destruct d, f, h; vm_compute; naive_solver. Qed.

Lemma evaluate_inv sym h d now cfg r :
  evaluate sym h d now (Some cfg) = Ok r →
  validate_config cfg = Ok ()
  ∧ al_alignment r = alignment (r_trend (r_1d r)) (r_trend (r_4h r)) (r_trend (r_1h r))
  ∧ al_data_fresh r = tf_data_fresh (r_1d r) && tf_data_fresh (r_4h r) && tf_data_fresh (r_1h r)
  ∧ ∃ four, resample h 14400 = Ok four
    ∧ ∀ tf, evaluate_timeframe tf (match tf with tf_1h => h | tf_4h => four | tf_1d => d end)
              now cfg = Ok (timeframes r tf).
Proof.
  unfold evaluate. simpl default. intros H.
  apply bind_Ok in H as ([]&Hv&H). apply bind_Ok in H as (four&Hfour&H).
  apply bind_Ok in H as (rd&Hd&H). apply bind_Ok in H as (rf&Hf&H).
  apply bind_Ok in H as (rh&Hh&H). injection H as <-. simpl.
  split_and!; [done..|]. exists four. split; [done|]. by intros [].
Qed.

Definition stack (gt : float → float → bool) (t : TimeframeResult) : Prop :=
  ∃ p a b c, price t = Some p ∧ ma26 t = Some a ∧ ma48 t = Some b ∧ ma220 t = Some c
    ∧ gt p a = true ∧ gt a b = true ∧ gt b c = true ∧ gt p b = true ∧ gt p c = true
    ∧ gt a c = true.

Lemma fgt_trans x y z : fgt x y = true → fgt y z = true → fgt x z = true.
Proof. unfold fgt. intros Hxy Hyz. by apply (flt_trans z y x). Qed.

Lemma trend_state_stack t :
  r_trend t = trend_state (price t) (ma26 t) (ma48 t) (ma220 t) →
  (r_trend t = bullish → stack fgt t) ∧ (r_trend t = bearish → stack flt t).
Proof.
  intros ->. unfold stack.
  destruct (price t) as [p|], (ma26 t) as [a|], (ma48 t) as [b|], (ma220 t) as [c|]; try done.
  simpl. destruct (fgt p a && fgt a b && fgt b c) eqn:Hup.
  - split; [intros _|done]. exists p, a, b, c. bool_to_prop. split_and!; eauto using fgt_trans.
  - destruct (flt p a && flt a b && flt b c) eqn:Hdn; [|done].
    split; [done|intros _]. exists p, a, b, c. bool_to_prop. split_and!; eauto using flt_trans.
Qed.

(** A full alignment is never published on weak evidence.  If a symbol is
    fully bullish (bearish), then the whole result is fresh, and each of the
    three timeframes is confirmed, rests on at least [slow] completed candles
    the newest of which closed no later than [now], and shows the strict stack
    price > fast > mid > slow (price < fast < mid < slow), every pair of it
    included. *)
Theorem full_alignment_sound sym h d now cfg r :
  evaluate sym h d now (Some cfg) = Ok r → al_alignment r ≠ not_aligned →
  al_data_fresh r = true
  ∧ ∀ tf, let t := timeframes r tf in
      confirmed t = true ∧ slow cfg ≤ history_points t
      ∧ (∃ close, candle_close_time t = Some close ∧ close ≤ now)
      ∧ (al_alignment r = full_bullish → stack fgt t)
      ∧ (al_alignment r = full_bearish → stack flt t).
Proof.
  intros (_&Hal&Hfresh&four&_&Htf)%evaluate_inv Hne.
  destruct (alignment_full (r_trend (r_1d r)) (r_trend (r_4h r)) (r_trend (r_1h r))) as [Hbu Hbe].
  rewrite <- Hal in Hbu, Hbe.
  assert (∀ tf, r_trend (timeframes r tf) ≠ unavailable) as Hav.
  { destruct (al_alignment r); [destruct Hbu as [Hbu _]; destruct (Hbu eq_refl) as (?&?&?)
      |destruct Hbe as [Hbe _]; destruct (Hbe eq_refl) as (?&?&?)|done];
      intros []; simpl; congruence. }
  assert (∀ tf, let t := timeframes r tf in
    tf_data_fresh t = true ∧ confirmed t = true ∧ slow cfg ≤ history_points t
    ∧ (∃ close, candle_close_time t = Some close ∧ close ≤ now)
    ∧ r_trend t = trend_state (price t) (ma26 t) (ma48 t) (ma220 t)) as Hall.
  { intros tf. destruct (evaluate_timeframe_inv _ _ _ _ _ (Htf tf)) as [Hn [[Hu _]|Hc]];
      [by destruct (Hav tf)|].
    destruct Hc as (c&Hc&_&Hlen&Hfr&Hco&Hcl&_&_&_&_&Ht). cbv zeta. rewrite Hn.
    split_and!; [done..| |done]. eexists. split; [exact Hcl|].
    apply last_Some_elem_of in Hc. apply elem_of_bool_filter in Hc as [_ Hc].
    by apply Z.leb_le in Hc. }
  split.
  - rewrite Hfresh. pose proof (proj1 (Hall tf_1d)) as H1. pose proof (proj1 (Hall tf_4h)) as H2.
    pose proof (proj1 (Hall tf_1h)) as H3. simpl in H1, H2, H3. by rewrite H1, H2, H3.
  - intros tf t. destruct (Hall tf) as (_&Hco&Hlen&Hcl&Ht). fold t in Hco, Hlen, Hcl, Ht.
    destruct (trend_state_stack t Ht) as [Hup Hdn].
    split_and!; [done..| |]; intros Heq.
    + apply Hup. destruct (proj1 Hbu Heq) as (?&?&?). by destruct tf.
    + apply Hdn. destruct (proj1 Hbe Heq) as (?&?&?). by destruct tf.
Qed.

(** Twenty rising hours and five rising days. *)
Definition rising_series : list Candle :=
  (λ i, a_candle (1783800000 + 3600 * i) (100 + i * i) (101 + i * i) (99 + i * i) (100 + i * i))
    <$> [0; 1; 2; 3; 4; 5; 6; 7; 8; 9; 10; 11; 12; 13; 14; 15; 16; 17; 18; 19].
Definition rising_days : list Candle :=
  (λ i, a_candle (1783468800 + 86400 * i) 1 1 1 (100 + i * i)) <$> [0; 1; 2; 3; 4].
Definition rising_alignment : AlignmentResult :=
  match evaluate "XAUUSD" rising_series rising_days noon (Some small_config) with
  | Ok r => r
  | Err _ => {| al_symbol := ""; al_alignment := not_aligned; r_1d := rising_result;
                r_4h := rising_result; r_1h := rising_result; calculated_at := 0;
                al_data_fresh := false |}
  end.
Lemma rising_is_bullish : al_alignment rising_alignment = full_bullish.
Proof. vm_compute. reflexivity. Qed.

Lemma full_alignment_sound_witness :
  al_data_fresh rising_alignment = true
  ∧ ∀ tf, confirmed (timeframes rising_alignment tf) = true
          ∧ stack fgt (timeframes rising_alignment tf).
Proof.
  destruct (full_alignment_sound "XAUUSD" rising_series rising_days noon small_config
              rising_alignment) as [Hf Htf].
  - vm_compute. reflexivity.
  - rewrite rising_is_bullish. discriminate.
  - split; [exact Hf|]. intros tf. destruct (Htf tf) as (Hc&_&_&Hs&_).
    split; [exact Hc|exact (Hs rising_is_bullish)].
Defined.

(** Resampling does not depend on the order candles arrive in, as long as
    no two of them start at the same instant. *)
Theorem resample_order_insensitive s cs cs' :
  0 < s → Forall in_range cs → NoDup (c_start <$> cs) → cs ≡ₚ cs' →
  resample cs s = resample cs' s.
Proof.
  intros Hs Hr Hnd Hp.
  destruct (resample_spec s cs) as (ks&o&Ho&Ha&Hk&H2); [done|done|].
  destruct (resample_spec s cs') as (ks'&o'&Ho'&Ha'&Hk'&H2'); [done|by rewrite <- Hp|].
  rewrite Ho, Ho'. f_equal.
  assert (ks = ks') as <-.
  { apply (strictly_ascending_ext id); [done|done|]. intros k. rewrite Hk, Hk'.
    by setoid_rewrite Hp. }
  apply (Forall2_det _ _ ks _ _) with (2 := H2) (3 := H2').
  intros k x y _ [Hx _] [Hy _]. unfold aggregate in Hx, Hy.
  assert (sort_by c_start (bucket s k cs) = sort_by c_start (bucket s k cs')) as Heq.
  { apply sort_by_perm_eq.
    - unfold bucket. clear -Hnd. induction cs as [|c cs IH]; simpl; [constructor|].
      apply NoDup_cons in Hnd as [Hn Hnd]. destruct (in_bucket s k c); [|by apply IH].
      simpl. constructor; [|by apply IH]. intros (c'&Hc'&Hin)%list_elem_of_fmap.
      apply elem_of_bool_filter in Hin as [Hin _]. apply Hn. rewrite Hc'.
      by apply list_elem_of_fmap_2.
    - unfold bucket. by apply Permutation_bool_filter. }
  rewrite Heq in Hx. congruence.
Qed.

Lemma resample_order_insensitive_witness :
  resample some_hours 14400 = resample (rev some_hours) 14400.
Proof.
  apply resample_order_insensitive; [done|by_decide|by_decide|apply Permutation_rev].
Defined.
