(* ===== verification/TrendReplay.v ===== *)
(** * The measured track record of the trend alignment

    [app/models/trend_backtest.py]: how far back the hourly data is genuinely
    intraday, the basis a window can be measured on, the bar-by-bar replay of
    the alignment, and the statistics of a window.

    The engine replayed is [TrendAlignment.evaluate].  The sentences of a note
    are a list of [note_part]s with the numbers they print. *)
From S2P Require Import Prelude PyFloat PyTime TrendAlignment.
Local Open Scope string_scope.
Local Open Scope list_scope.
Local Open Scope Z_scope.

Inductive Basis : Set := full_mtf | daily_only.
Inductive BarState : Set := rising | falling | unaligned.

#[export] Instance Basis_eq_dec : EqDecision Basis.
Proof. solve_decision. Defined.
#[export] Instance BarState_eq_dec : EqDecision BarState.
Proof. solve_decision. Defined.

Definition WINDOW_DAYS : list Z := [90; 60; 30; 14].
Definition FORWARD_HORIZON_SECONDS : Z := 86400.
Definition INTRADAY_MIN_BUCKETS_PER_DAY : Z := 4.

(** The states the code calls "bullish" and "bearish" are [rising] and
    [falling] here. *)
Definition _ALIGNMENT_STATE (a : Alignment) : BarState :=
  match a with
  | full_bullish => rising
  | full_bearish => falling
  | not_aligned => unaligned
  end.

Definition _TREND_STATE (t : TrendState) : BarState :=
  match t with
  | bullish => rising
  | bearish => falling
  | neutral | unavailable => unaligned
  end.

Definition warmup_candles (config : TrendConfig) : result pyerr Z :=
  slow_f ← py_float_of_int (slow config); int_of_float (fmul slow_f WARMUP_FACTOR).

(** ** What the data supports *)

(** Hourly buckets per complete UTC day, today left out. *)
Fixpoint count_days (today : instant) (per_day : gmap Z Z) (candles : list Candle)
    : result pyerr (gmap Z Z) :=
  match candles with
  | [] => Ok per_day
  | c :: candles =>
      day ← bucket_start (c_start c) (TIMEFRAME_SECONDS tf_1d);
      if today <=? day then count_days today per_day candles
      else count_days today (<[day := default 0 (per_day !! day) + 1]> per_day) candles
  end.

Fixpoint newest_run (per_day : gmap Z Z) (start : option instant) (days : list instant)
    : option instant :=
  match days with
  | [] => start
  | day :: days =>
      if default 0 (per_day !! day) <? INTRADAY_MIN_BUCKETS_PER_DAY then start
      else newest_run per_day (Some day) days
  end.

Definition intraday_since (hourly : list Candle) (now : instant)
    : result pyerr (option instant) :=
  today ← bucket_start now (TIMEFRAME_SECONDS tf_1d);
  per_day ← count_days today ∅ (completed hourly (TIMEFRAME_SECONDS tf_1h) now);
  Ok (newest_run per_day None (reverse (sort_by id (map_to_list per_day).*1))).

Inductive basis_reason : Set :=
| no_intraday_history
| intraday_begins_inside (from : instant) (window_days : Z)
| legs_too_short (short : list (timeframe * Z * Z)) (ma : string) (slow_period : Z)
| window_covered (from : instant) (window_days : Z).

Record BasisChoice : Set := {
  basis : Basis;
  why : basis_reason;
  intraday_from : option instant;
}.

Definition choose_basis (window_days : Z) (window_start : instant) (from : option instant)
    (hourly daily : list Candle) (config : TrendConfig) : result pyerr BasisChoice :=
  warm ← warmup_candles config;
  match from with
  | None => Ok {| basis := daily_only; why := no_intraday_history; intraday_from := None |}
  | Some start =>
      if window_start <? start then
        Ok {| basis := daily_only; why := intraday_begins_inside start window_days;
              intraday_from := from |}
      else
        let usable_hourly := List.filter (λ c, start <=? c_start c) hourly in
        let hourly_ready := len (completed usable_hourly (TIMEFRAME_SECONDS tf_1h) window_start) in
        four ← resample usable_hourly (TIMEFRAME_SECONDS tf_4h);
        let four_hour_ready := len (completed four (TIMEFRAME_SECONDS tf_4h) window_start) in
        let daily_ready := len (completed daily (TIMEFRAME_SECONDS tf_1d) window_start) in
        let short :=
          List.filter (λ l : timeframe * Z * Z, l.1.2 <? l.2)
            [(tf_4h, four_hour_ready, warm); (tf_1h, hourly_ready, warm);
             (tf_1d, daily_ready, warm)] in
        Ok (match short with
            | _ :: _ =>
                {| basis := daily_only;
                   why := legs_too_short short (ma_type config) (slow config);
                   intraday_from := from |}
            | [] =>
                {| basis := full_mtf; why := window_covered start window_days;
                   intraday_from := from |}
            end)
  end.

(** ** Replay *)
Record ReplayBar : Set := {
  close_time : instant;
  rb_price : float;
  state : BarState;
  forward_return_pct : option float;
}.

(** A dict: a later candle with the same close time replaces the earlier one. *)
Definition _close_by_close_time (candles : list Candle) (seconds : Z) : gmap Z float :=
  foldl (λ m c, <[c_start c + seconds * us_second := c_close c]> m) ∅ candles.

Definition basis_timeframe (b : Basis) : timeframe :=
  match b with full_mtf => tf_1h | daily_only => tf_1d end.

Definition state_at (symbol : string) (b : Basis) (hourly daily : list Candle)
    (config : TrendConfig) (at_ : instant) : result pyerr BarState :=
  match b with
  | full_mtf =>
      r ← evaluate symbol hourly daily at_ (Some config);
      Ok (_ALIGNMENT_STATE (al_alignment r))
  | daily_only =>
      r ← evaluate_timeframe tf_1d daily at_ config; Ok (_TREND_STATE (r_trend r))
  end.

Definition forward_change (future : option float) (close : float) : result pyerr (option float) :=
  match future with
  | Some f =>
      if fgt close fzero then
        q ← fdiv f close; Ok (Some (fmul (fsub q fone) fhundred))
      else Ok None
  | None => Ok None
  end.

Fixpoint replay_loop (state_of : instant → result pyerr BarState) (forward : gmap Z float)
    (window_start : instant) (step : Z) (series : list Candle) : result pyerr (list ReplayBar) :=
  match series with
  | [] => Ok []
  | c :: series =>
      let close_time := c_start c + step in
      if close_time <=? window_start then replay_loop state_of forward window_start step series
      else
        st ← state_of close_time;
        change ← forward_change
                   (forward !! (close_time + FORWARD_HORIZON_SECONDS * us_second)) (c_close c);
        bars ← replay_loop state_of forward window_start step series;
        Ok ({| close_time := close_time; rb_price := c_close c; state := st;
               forward_return_pct := change |} :: bars)
  end.

Definition replay (symbol : string) (b : Basis) (hourly daily : list Candle)
    (window_start now : instant) (config : TrendConfig) : result pyerr (list ReplayBar) :=
  let seconds := TIMEFRAME_SECONDS (basis_timeframe b) in
  let series := completed (match b with full_mtf => hourly | daily_only => daily end) seconds now in
  replay_loop (state_at symbol b hourly daily config) (_close_by_close_time series seconds)
    window_start (seconds * us_second) series.

(** ** Statistics *)
Definition _mean (values : list float) : option float :=
  match values with
  | [] => None
  | _ => Some (fdiv_ieee (fsum values) (float_of_Z (len values)))
  end.

Definition _hit_rate (values : list float) (bullish : bool) : option float :=
  match values with
  | [] => None
  | _ =>
      let hits := len (List.filter (λ v, if bullish then fgt v fzero else flt v fzero) values) in
      Some (int_true_div hits (len values))
  end.

Fixpoint episodes_from (target : BarState) (previous : option BarState) (states : list BarState)
    : Z :=
  match states with
  | [] => 0
  | s :: states =>
      (if bool_decide (s = target) && negb (bool_decide (previous = Some target)) then 1 else 0)
      + episodes_from target (Some s) states
  end.

Definition _episodes (states : list BarState) (target : BarState) : Z :=
  episodes_from target None states.

Inductive note_part : Set :=
| basis_label (b : Basis) (ma : string) (periods : Z * Z * Z) (because : basis_reason)
| daily_leg_short (have warm : Z)
| nothing_replayed
| forward_measured (samples bars : Z)
| too_new_to_score (n : Z)
| holes_in_series (n : Z)
| overlapping_windows
| counts_are_not_trades.

Definition unmeasured (b : ReplayBar) : bool :=
  match forward_return_pct b with None => true | Some _ => false end.

Definition _note (choice : BasisChoice) (config : TrendConfig) (bars : list ReplayBar)
    (samples daily_warmup : Z) : result pyerr (list note_part) :=
  let parts :=
    [basis_label (basis choice) (ma_type config) (fast config, mid config, slow config)
       (why choice)] in
  warm ← warmup_candles config;
  let parts := parts ++ if daily_warmup <? warm then [daily_leg_short daily_warmup warm] else [] in
  match last bars with
  | None => Ok (parts ++ [nothing_replayed])
  | Some final =>
      let data_end := close_time final in
      let missing := List.filter unmeasured bars in
      let past_end :=
        len (List.filter
               (λ b, data_end <? close_time b + FORWARD_HORIZON_SECONDS * us_second) missing) in
      let gaps := len missing - past_end in
      Ok (parts ++ [forward_measured samples (len bars)]
          ++ (if past_end =? 0 then [] else [too_new_to_score past_end])
          ++ (if gaps =? 0 then [] else [holes_in_series gaps])
          ++ (match basis choice with full_mtf => [overlapping_windows] | daily_only => [] end)
          ++ [counts_are_not_trades])
  end.

Record WindowPerformance : Set := {
  wp_symbol : string;
  wp_window_days : Z;
  wp_basis : Basis;
  evaluated_from : option instant;
  evaluated_to : option instant;
  samples : Z;
  bullish_episodes : Z;
  bearish_episodes : Z;
  bullish_bars : Z;
  bearish_bars : Z;
  unaligned_bars : Z;
  fwd_return_bullish_pct : option float;
  fwd_return_bearish_pct : option float;
  fwd_return_baseline_pct : option float;
  hit_rate_bullish : option float;
  hit_rate_bearish : option float;
  wp_note : list note_part;
  replayed_bars : Z;
}.

(** The entry [as_dict] adds to the columns. *)
Definition bars_without_forward_return (p : WindowPerformance) : Z :=
  replayed_bars p - samples p.

(** [by_state[s]] *)
Definition by_state (bars : list ReplayBar) (s : BarState) : list float :=
  omap forward_return_pct (List.filter (λ b, bool_decide (state b = s)) bars).

Definition measure_window (symbol : string) (window_days : Z) (hourly daily : list Candle)
    (now : instant) (config : TrendConfig) : result pyerr WindowPerformance :=
  let window_start := now - window_days * us_day in
  from ← intraday_since hourly now;
  choice ← choose_basis window_days window_start from hourly daily config;
  let replay_hourly :=
    match basis choice with
    | full_mtf =>
        List.filter (λ c, match intraday_from choice with
                          | None => true
                          | Some start => start <=? c_start c
                          end) hourly
    | daily_only => hourly
    end in
  bars ← replay symbol (basis choice) replay_hourly daily window_start now config;
  let states := state <$> bars in
  let measured := omap forward_return_pct bars in
  notes ← _note choice config bars (len measured)
            (len (completed daily (TIMEFRAME_SECONDS tf_1d) window_start));
  Ok {| wp_symbol := symbol;
        wp_window_days := window_days;
        wp_basis := basis choice;
        evaluated_from := close_time <$> List.head bars;
        evaluated_to := close_time <$> last bars;
        samples := len measured;
        bullish_episodes := _episodes states rising;
        bearish_episodes := _episodes states falling;
        bullish_bars := len (by_state bars rising);
        bearish_bars := len (by_state bars falling);
        unaligned_bars := len (by_state bars unaligned);
        fwd_return_bullish_pct := _mean (by_state bars rising);
        fwd_return_bearish_pct := _mean (by_state bars falling);
        fwd_return_baseline_pct := _mean measured;
        hit_rate_bullish := _hit_rate (by_state bars rising) true;
        hit_rate_bearish := _hit_rate (by_state bars falling) false;
        wp_note := notes;
        replayed_bars := len bars |}.

(** The windows of one symbol, longest first, repetitions removed. *)
Definition backtest (symbol : string) (hourly daily : list Candle) (now : instant)
    (config : option TrendConfig) (windows : list Z)
    : result pyerr (list WindowPerformance) :=
  let config := default default_config config in
  validate_config config;;
  traverse (λ days, measure_window symbol days hourly daily now config)
    (reverse (sort_by id (remove_dups windows))).

(** ** The loop is a map over the candles that close inside the window *)
Definition bar_at (state_of : instant → result pyerr BarState) (forward : gmap Z float)
    (step : Z) (c : Candle) : result pyerr ReplayBar :=
  st ← state_of (c_start c + step);
  change ← forward_change
             (forward !! (c_start c + step + FORWARD_HORIZON_SECONDS * us_second)) (c_close c);
  Ok {| close_time := c_start c + step; rb_price := c_close c; state := st;
        forward_return_pct := change |}.

Lemma replay_loop_traverse state_of forward ws step series :
  replay_loop state_of forward ws step series
  = traverse (bar_at state_of forward step)
      (List.filter (λ c, ws <? c_start c + step) series).
Proof.
  induction series as [|c series IH]; simpl; [done|]. rewrite Z.leb_antisym.
  destruct (ws <? c_start c + step); simpl; [|done]. rewrite IH.
  generalize (traverse (bar_at state_of forward step)
                (List.filter (λ c, ws <? c_start c + step) series)) as rest.
  intros rest. unfold bar_at.
  destruct (state_of _); simpl; [|done]. by destruct (forward_change _ _).
Qed.

Lemma bar_at_inv state_of forward step c b :
  bar_at state_of forward step c = Ok b →
  close_time b = c_start c + step ∧ rb_price b = c_close c
  ∧ state_of (c_start c + step) = Ok (state b)
  ∧ forward_change (forward !! (c_start c + step + us_day)) (c_close c)
    = Ok (forward_return_pct b).
Proof.
  unfold bar_at. intros H. apply bind_Ok in H as (st&Hst&H).
  apply bind_Ok in H as (ch&Hch&H). by injection H as <-.
Qed.

(** ** Candles complete at an earlier time *)
Lemma completed_earlier cs s t u :
  t ≤ u → completed (completed cs s u) s t = completed cs s t.
Proof.
  intros Htu. unfold completed, is_completed. rewrite bool_filter_filter.
  apply bool_filter_ext. intros c _.
  destruct (Z.leb_spec (c_start c + s * us_second) u),
    (Z.leb_spec (c_start c + s * us_second) t); done || lia.
Qed.

Lemma completed_agree h h' s t u :
  t ≤ u → completed h s u = completed h' s u → completed h s t = completed h' s t.
Proof. intros Htu H. by rewrite <- (completed_earlier h s t u), H, completed_earlier. Qed.

Lemma completed_grows cs s t u :
  t ≤ u → len (completed cs s t) ≤ len (completed cs s u).
Proof.
  intros Htu. rewrite <- (completed_earlier cs s t u Htu). unfold len, completed.
  pose proof (List.filter_length_le (is_completed s t) (completed cs s u)).
  unfold completed in *. lia.
Qed.

Lemma state_at_agree sym b h h' d d' cfg t u :
  Forall in_range h → Forall on_the_hour h → Forall in_range h' → Forall on_the_hour h' →
  completed h 3600 u = completed h' 3600 u → completed d 86400 u = completed d' 86400 u →
  t ≤ u → state_at sym b h d cfg t = state_at sym b h' d' cfg t.
Proof.
  intros Hr Hh Hr' Hh' Heq Hd Htu.
  apply (completed_agree _ _ _ t u Htu) in Heq, Hd.
  destruct b; simpl.
  - destruct (resample_four_completed h h' t) as (o&o'&Ho&Ho'&He); try done.
    by rewrite (evaluate_ext sym h h' o o' d d' t).
  - by rewrite (evaluate_timeframe_completed tf_1d d d').
Qed.

(** What was known at [t]: time, price and state of the bars closed by then. *)
Definition seen_by (t : instant) (bars : list ReplayBar) : list (instant * float * BarState) :=
  (λ b, (close_time b, rb_price b, state b)) <$> List.filter (λ b, close_time b <=? t) bars.

Definition basis_series (b : Basis) (hourly daily : list Candle) : list Candle :=
  match b with full_mtf => hourly | daily_only => daily end.

Lemma replay_inv sym b h d ws now cfg bars :
  replay sym b h d ws now cfg = Ok bars →
  let s := TIMEFRAME_SECONDS (basis_timeframe b) in
  let series := completed (basis_series b h d) s now in
  Forall2 (λ c r, close_time r = c_start c + s * us_second ∧ rb_price r = c_close c
     ∧ state_at sym b h d cfg (close_time r) = Ok (state r)
     ∧ forward_change (_close_by_close_time series s !! (close_time r + us_day)) (c_close c)
       = Ok (forward_return_pct r))
    (List.filter (λ c, ws <? c_start c + s * us_second) series) bars.
Proof.
  unfold replay. cbv zeta. rewrite replay_loop_traverse, traverse_Ok. intros H.
  eapply Forall2_impl; [exact H|]. cbv beta. intros c r (Ht&Hp&Hs&Hf)%bar_at_inv.
  by rewrite Ht.
Qed.

(** The bars seen at [t] are those of the candles complete at [t]. *)
Lemma replay_seen sym b h d ws now cfg bars t :
  replay sym b h d ws now cfg = Ok bars → t ≤ now →
  let s := TIMEFRAME_SECONDS (basis_timeframe b) in
  Forall2 (λ c k, k.1 = (c_start c + s * us_second, c_close c)
                  ∧ state_at sym b h d cfg (c_start c + s * us_second) = Ok k.2)
    (List.filter (λ c, ws <? c_start c + s * us_second)
       (completed (basis_series b h d) s t))
    (seen_by t bars).
Proof.
  intros H%replay_inv Htn s. cbv zeta in H. fold s in H. unfold seen_by.
  apply Forall2_fmap_r.
  apply (Forall2_bool_filter _ (is_completed s t) (λ b, close_time b <=? t)) in H.
  - replace (List.filter (λ c, ws <? c_start c + s * us_second)
               (completed (basis_series b h d) s t))
      with (List.filter (is_completed s t)
              (List.filter (λ c, ws <? c_start c + s * us_second)
                 (completed (basis_series b h d) s now))).
    + eapply Forall2_impl; [exact H|]. cbv beta. intros c r (Ht&Hp&Hs&_).
      simpl. by rewrite <- Ht, <- Hp.
    + rewrite <- (completed_earlier (basis_series b h d) s t now Htn). unfold completed.
      rewrite !bool_filter_filter. apply bool_filter_ext. intros c _.
      by destruct (ws <? _), (is_completed s now c), (is_completed s t c).
  - intros c r (Ht&_). unfold is_completed. by rewrite Ht.
Qed.

(** C36. The replay cannot look ahead: what it says about the bars closed by
    [t] (their times, prices and states) is a function of the candles complete
    at [t].  Data that arrives later, a replay run later, a forming candle or
    a revision of a later bar change nothing in it. *)
Theorem replay_no_lookahead sym b h h' d d' ws now now' t cfg bars bars' :
  Forall in_range h → Forall on_the_hour h → Forall in_range h' → Forall on_the_hour h' →
  completed h 3600 t = completed h' 3600 t → completed d 86400 t = completed d' 86400 t →
  t ≤ now → t ≤ now' →
  replay sym b h d ws now cfg = Ok bars → replay sym b h' d' ws now' cfg = Ok bars' →
  seen_by t bars = seen_by t bars'.
Proof.
  intros Hr Hh Hr' Hh' Heq Hd Ht Ht' Hb Hb'.
  pose proof (replay_seen _ _ _ _ _ _ _ _ t Hb Ht) as H1.
  pose proof (replay_seen _ _ _ _ _ _ _ _ t Hb' Ht') as H2. cbv zeta in H1, H2.
  replace (completed (basis_series b h' d') (TIMEFRAME_SECONDS (basis_timeframe b)) t)
    with (completed (basis_series b h d) (TIMEFRAME_SECONDS (basis_timeframe b)) t) in H2
    by by destruct b.
  eapply Forall2_det; [|exact H1|exact H2]. cbv beta.
  intros c [k1 s1] [k2 s2] Hc [Hk Hs] [Hk' Hs']. simpl in *. subst k1 k2. f_equal.
  apply elem_of_bool_filter in Hc as [[_ Hle%Z.leb_le]%elem_of_bool_filter _].
  rewrite (state_at_agree sym b h h' d d' cfg _ t) in Hs by done. congruence.
Qed.

(** ** The replay is total, and what each bar carries *)
Lemma evaluate_timeframe_total tf cs t cfg w :
  warmup_candles cfg = Ok w →
  ∃ r, evaluate_timeframe tf cs t cfg = Ok r
       ∧ history_points r = len (completed cs (TIMEFRAME_SECONDS tf) t).
Proof.
  intros Hw. assert (∃ r, evaluate_timeframe tf cs t cfg = Ok r) as [r Hr].
  { unfold warmup_candles in Hw. apply bind_Ok in Hw as (sf&Hsf&Hw).
    unfold evaluate_timeframe. destruct (last _); [|by eexists].
    destruct (negb _); [by eexists|]. rewrite Hsf. cbn [mbind result_bind]. rewrite Hw.
    cbn [mbind result_bind]. destruct (_ <? slow cfg); by eexists. }
  exists r. split; [done|]. by apply evaluate_timeframe_inv in Hr as [-> _].
Qed.

Lemma evaluate_total sym h d t cfg w :
  validate_config cfg = Ok () → warmup_candles cfg = Ok w → Forall in_range h →
  ∃ r four, evaluate sym h d t (Some cfg) = Ok r ∧ resample h 14400 = Ok four
    ∧ history_points (r_1d r) = len (completed d 86400 t)
    ∧ history_points (r_4h r) = len (completed four 14400 t)
    ∧ history_points (r_1h r) = len (completed h 3600 t).
Proof.
  intros Hv Hw Hr. destruct (resample_spec 14400 h) as (_&four&Hfour&_); [done|done|].
  destruct (evaluate_timeframe_total tf_1d d t cfg w Hw) as (rd&Hd&Hpd).
  destruct (evaluate_timeframe_total tf_4h four t cfg w Hw) as (rf&Hf&Hpf).
  destruct (evaluate_timeframe_total tf_1h h t cfg w Hw) as (rh&Hh&Hph).
  eexists _, four. split.
  - unfold evaluate. change (default default_config (Some cfg)) with cfg. rewrite Hv. cbn [mbind result_bind].
    change (TIMEFRAME_SECONDS tf_4h) with 14400. rewrite Hfour. cbn [mbind result_bind].
    rewrite Hd. cbn [mbind result_bind]. rewrite Hf. cbn [mbind result_bind].
    rewrite Hh. reflexivity.
  - by split_and!.
Qed.

Lemma state_at_total sym b h d cfg t w :
  validate_config cfg = Ok () → warmup_candles cfg = Ok w → Forall in_range h →
  ∃ s, state_at sym b h d cfg t = Ok s.
Proof.
  intros Hv Hw Hr. destruct b; simpl.
  - destruct (evaluate_total sym h d t cfg w Hv Hw Hr) as (r&_&Hr'&_). rewrite Hr'. by eexists.
  - destruct (evaluate_timeframe_total tf_1d d t cfg w Hw) as (r&Hr'&_). rewrite Hr'. by eexists.
Qed.

Lemma forward_change_total future close :
  ∃ ch, forward_change future close = Ok ch
    ∧ match ch with
      | Some r => ∃ f, future = Some f ∧ fgt close fzero = true
                       ∧ r = fmul (fsub (fdiv_ieee f close) fone) fhundred
      | None => future = None ∨ fgt close fzero = false
      end.
Proof.
  unfold forward_change. destruct future as [f|]; [|eexists; split; [done|by left]].
  destruct (fgt close fzero) eqn:Hc; [|eexists; split; [done|by right]].
  unfold fdiv. destruct (feq close fzero) eqn:He.
  - unfold fgt in Hc. apply flt_not_feq in Hc. rewrite feq_sym in Hc. congruence.
  - eexists. split; [done|]. by exists f.
Qed.

Lemma close_by_close_time_spec cs s t :
  match _close_by_close_time cs s !! t with
  | Some v => ∃ c, c ∈ cs ∧ c_start c + s * us_second = t ∧ c_close c = v
  | None => ∀ c, c ∈ cs → c_start c + s * us_second ≠ t
  end.
Proof.
  unfold _close_by_close_time. induction cs as [|c cs IH] using rev_ind.
  - cbn [foldl]. rewrite lookup_empty. intros c Hc. by apply elem_of_nil in Hc.
  - rewrite foldl_snoc. destruct (decide (c_start c + s * us_second = t)) as [<-|Hne].
    + rewrite lookup_insert_eq. exists c. rewrite elem_of_app, list_elem_of_singleton. auto.
    + rewrite lookup_insert_ne by done. destruct (foldl _ _ _ !! t).
      * destruct IH as (c'&Hc'&?). exists c'. rewrite elem_of_app. auto.
      * intros c' [Hc'|Hc'%list_elem_of_singleton]%elem_of_app; [by apply IH|by subst].
Qed.

(** The replay returns, with one bar per completed candle that closes inside
    the window, in order.  A bar carries the engine's own state as of its
    close.  Its forward return compares its close with the close of a candle
    that ends exactly one day later and is itself complete; where there is no
    such candle, or the close is not positive, it is missing, never filled. *)
Theorem replay_spec sym b h d ws now cfg w :
  validate_config cfg = Ok () → warmup_candles cfg = Ok w → Forall in_range h →
  let s := TIMEFRAME_SECONDS (basis_timeframe b) in
  let series := completed (basis_series b h d) s now in
  ∃ bars, replay sym b h d ws now cfg = Ok bars
  ∧ Forall2 (λ c r,
      close_time r = c_start c + s * us_second ∧ rb_price r = c_close c
      ∧ state_at sym b h d cfg (close_time r) = Ok (state r)
      ∧ match forward_return_pct r with
        | Some change => ∃ c', c' ∈ series ∧ c_start c' = c_start c + us_day
            ∧ fgt (c_close c) fzero = true
            ∧ change = fmul (fsub (fdiv_ieee (c_close c') (c_close c)) fone) fhundred
        | None => fgt (c_close c) fzero = false
                  ∨ ∀ c', c' ∈ series → c_start c' ≠ c_start c + us_day
        end)
      (List.filter (λ c, ws <? c_start c + s * us_second) series) bars.
Proof.
  intros Hv Hw Hr s series.
  destruct (traverse_total (bar_at (state_at sym b h d cfg) (_close_by_close_time series s)
              (s * us_second)) (λ _ _, True)
              (List.filter (λ c, ws <? c_start c + s * us_second) series)) as (bars&Hb&_).
  { intros c _. unfold bar_at.
    destruct (state_at_total sym b h d cfg (c_start c + s * us_second) w) as [st ->]; [done..|].
    destruct (forward_change_total
      (_close_by_close_time series s !! (c_start c + s * us_second
         + FORWARD_HORIZON_SECONDS * us_second)) (c_close c)) as (ch&Hch&_).
    cbn [mbind result_bind]. rewrite Hch. by eexists. }
  assert (replay sym b h d ws now cfg = Ok bars) as Hrep.
  { unfold replay. fold s. change (match b with full_mtf => h | daily_only => d end)
      with (basis_series b h d). fold series. by rewrite replay_loop_traverse. }
  exists bars. split; [done|]. apply replay_inv in Hrep. cbv zeta in Hrep.
  fold s in Hrep. fold series in Hrep.
  eapply Forall2_impl; [exact Hrep|]. cbv beta. intros c r (Ht&Hp&Hs&Hf).
  split_and!; [done..|].
  destruct (forward_change_total (_close_by_close_time series s !! (close_time r + us_day))
              (c_close c)) as (ch&Hch&Hspec).
  rewrite Hf in Hch. injection Hch as <-.
  pose proof (close_by_close_time_spec series s (close_time r + us_day)) as Hfut.
  destruct (forward_return_pct r) as [x|].
  - destruct Hspec as (f&Hlook&Hpos&->). rewrite Hlook in Hfut.
    destruct Hfut as (c'&Hc'&Htime&<-). exists c'. split_and!; [done|lia|done|done].
  - destruct Hspec as [Hnone|?]; [|by left]. rewrite Hnone in Hfut. right.
    intros c' Hc' Heq. apply (Hfut c' Hc'). lia.
Qed.

(** ** Genuinely intraday days *)
Definition day_of (t : instant) : instant := floor_bucket 86400 t.

(** Complete hourly candles of a UTC day. *)
Definition hours_of (candles : list Candle) (day : instant) : Z :=
  len (List.filter (λ c, day_of (c_start c) =? day) candles).

Lemma hours_of_cons c cs day :
  hours_of (c :: cs) day = (if day_of (c_start c) =? day then 1 else 0) + hours_of cs day.
Proof. unfold hours_of, len. simpl. destruct (_ =? _); simpl; lia. Qed.

Lemma hours_of_nonneg cs day : 0 ≤ hours_of cs day.
Proof. unfold hours_of, len. lia. Qed.

Lemma count_days_spec today m cs :
  Forall in_range cs → (∀ k n, m !! k = Some n → 0 < n ∧ k < today) →
  ∃ m', count_days today m cs = Ok m'
    ∧ ∀ k, (k < today → default 0 (m' !! k) = default 0 (m !! k) + hours_of cs k)
           ∧ (∀ n, m' !! k = Some n → 0 < n ∧ k < today).
Proof.
  intros Hr. revert m. induction Hr as [|c cs Hc _ IH]; intros m Hm; simpl.
  - exists m. split; [done|]. intros k. split; [|by apply Hm].
    intros _. unfold hours_of, len. simpl. lia.
  - rewrite bucket_start_eq by done. cbn [mbind result_bind]. fold (day_of (c_start c)).
    destruct (Z.leb_spec today (day_of (c_start c))) as [Hge|Hlt].
    + destruct (IH m Hm) as (m'&->&Hm'). exists m'. split; [done|]. intros k.
      destruct (Hm' k) as [H1 H2]. split; [|done]. intros Hk. rewrite (H1 Hk), hours_of_cons.
      rewrite (proj2 (Z.eqb_neq _ _)) by lia. lia.
    + destruct (IH (<[day_of (c_start c) := default 0 (m !! day_of (c_start c)) + 1]> m))
        as (m'&->&Hm').
      { intros k n. destruct (decide (day_of (c_start c) = k)) as [<-|Hne].
        - rewrite lookup_insert_eq. intros [= <-]. split; [|done].
          destruct (m !! _) as [n'|] eqn:Hn; simpl; [|lia]. destruct (Hm _ _ Hn). lia.
        - rewrite lookup_insert_ne by done. apply Hm. }
      exists m'. split; [done|]. intros k. destruct (Hm' k) as [H1 H2]. split; [|done].
      intros Hk. rewrite (H1 Hk), hours_of_cons.
      destruct (Z.eqb_spec (day_of (c_start c)) k) as [<-|Hne].
      * rewrite lookup_insert_eq. simpl. lia.
      * rewrite lookup_insert_ne by done. lia.
Qed.

(** The walk takes the longest prefix of days that clear the threshold. *)
Lemma newest_run_spec m start days :
  ∃ pre post, days = pre ++ post
    ∧ Forall (λ d, 4 ≤ default 0 (m !! d)) pre
    ∧ (∀ d post', post = d :: post' → default 0 (m !! d) < 4)
    ∧ newest_run m start days = match last pre with Some d => Some d | None => start end.
Proof.
  revert start. induction days as [|d days IH]; intros start; simpl.
  - exists [], []. by split_and!.
  - unfold INTRADAY_MIN_BUCKETS_PER_DAY.
    destruct (Z.ltb_spec (default 0 (m !! d)) 4) as [Hlt|Hge].
    + exists [], (d :: days). split_and!; [done|done| |done]. by intros ? ? [= <- <-].
    + destruct (IH (Some d)) as (pre&post&->&Hpre&Hpost&Hrun).
      exists (d :: pre), post. split_and!; [done|by constructor|done|].
      rewrite Hrun. destruct pre as [|d' pre]; [done|].
      rewrite last_cons_cons. by destruct (last (d' :: pre)) eqn:Hl; [|apply last_None in Hl].
Qed.

Lemma reverse_descending l :
  strictly_ascending id l → StronglySorted (λ x y, y < x) (reverse l).
Proof.
  induction 1 as [|x l _ IH Hx]; [constructor|]. rewrite reverse_cons.
  apply StronglySorted_snoc; [done|]. by apply Forall_reverse.
Qed.

(** The days the walk visits: newest first, those with a complete hour. *)
Lemma days_visited hourly now :
  Forall in_range hourly →
  let hours := hours_of (completed hourly 3600 now) in
  ∃ m, count_days (day_of now) ∅ (completed hourly 3600 now) = Ok m
  ∧ let days := reverse (sort_by id (map_to_list m).*1) in
    StronglySorted (λ x y, y < x) days
    ∧ (∀ k, k ∈ days ↔ k < day_of now ∧ 0 < hours k)
    ∧ (∀ k, k < day_of now → default 0 (m !! k) = hours k).
Proof.
  intros Hr hours.
  destruct (count_days_spec (day_of now) ∅ (completed hourly 3600 now)) as (m&Hmm&Hm);
    [by apply Forall_filter_weaken|by intros k n; rewrite lookup_empty|].
  assert (∀ k, k < day_of now → default 0 (m !! k) = hours k) as Hcount.
  { intros k Hk. destruct (Hm k) as [H1 _]. rewrite (H1 Hk), lookup_empty. done. }
  exists m. cbv zeta. split_and!; [done| | |done].
  - apply reverse_descending, sort_by_strict. rewrite list_fmap_id. apply NoDup_fst_map_to_list.
  - intros k. rewrite elem_of_reverse. unfold sort_by.
    rewrite py_sorted_perm, list_elem_of_fmap. split.
    + intros ([k' n]&->&Hin%elem_of_map_to_list). simpl. destruct (Hm k') as [H1 H2].
      destruct (H2 n Hin) as [Hn Hk]. split; [done|]. rewrite <- Hcount, Hin by done. done.
    + intros [Hk Hpos]. rewrite <- Hcount in Hpos by done.
      destruct (m !! k) as [n|] eqn:Hn; [|simpl in Hpos; lia].
      exists (k, n). by rewrite elem_of_map_to_list.
Qed.

(** [intraday_since] always answers.  The day it returns lies before today,
    clears the threshold of four complete hours, and so does every later
    complete day THAT HAS ANY candle; it is the earliest such day, because any
    earlier day with a candle is cut off by one below the threshold.  It
    returns none exactly when every day with a candle is cut off this way. *)
Theorem intraday_since_spec hourly now :
  Forall in_range hourly → 0 ≤ now - EPOCH < 2 ^ 53 →
  let hours := hours_of (completed hourly 3600 now) in
  ∃ r, intraday_since hourly now = Ok r
  ∧ (∀ start, r = Some start →
       start < day_of now ∧ 4 ≤ hours start
       ∧ ∀ day, start ≤ day < day_of now → 0 < hours day → 4 ≤ hours day)
  ∧ ∀ day, day < day_of now → 0 < hours day → (∀ start, r = Some start → day < start) →
      ∃ day', day ≤ day' < day_of now ∧ 0 < hours day' < 4.
Proof.
  intros Hr Hnow hours. unfold intraday_since.
  change (TIMEFRAME_SECONDS tf_1d) with 86400.
  rewrite bucket_start_eq by done. cbn [mbind result_bind]. fold (day_of now).
  change (TIMEFRAME_SECONDS tf_1h) with 3600.
  destruct (days_visited hourly now Hr) as (m&->&Hdesc&Hks&Hcount).
  cbn [mbind result_bind]. eexists. split; [done|]. fold hours in Hks, Hcount.
  set (ks := sort_by id (map_to_list m).*1) in *.
  destruct (newest_run_spec m None (reverse ks)) as (pre&post&Hsplit&Hpre&Hpost&Hrun).
  rewrite Hrun. rewrite Hsplit in Hks, Hdesc. rewrite Forall_forall in Hpre.
  assert (∀ d, d ∈ pre → d < day_of now ∧ 4 ≤ hours d) as Hclear.
  { intros d Hd. destruct (proj1 (Hks d)) as [Hlt _]; [by apply elem_of_app; left|].
    split; [done|]. rewrite <- Hcount by done. by apply Hpre. }
  split.
  - intros start Hstart. destruct (last pre) as [d|] eqn:Hl; [|done]. injection Hstart as ->.
    destruct (Hclear start) as [Hlt H4]; [by apply last_Some_elem_of|].
    split_and!; [done|done|]. intros day Hday Hpos.
    assert (day ∈ pre ++ post) as [Hin|Hin]%elem_of_app by (apply Hks; lia); [by apply Hclear|].
    exfalso. assert (day < start); [|lia].
    apply (StronglySorted_app_inv _ _ _ Hdesc); [by apply last_Some_elem_of|done].
  - intros day Hday Hpos Hbefore.
    assert (day ∈ pre ++ post) as [Hin|Hin]%elem_of_app by by apply Hks.
    + exfalso. destruct (last pre) as [d|] eqn:Hl.
      * specialize (Hbefore d eq_refl). apply last_Some in Hl as [pre' ->].
        rewrite <- app_assoc in Hdesc. apply elem_of_app in Hin as [Hin|Hin].
        -- assert (d < day); [|lia]. apply (StronglySorted_app_inv _ _ _ Hdesc); [done|left].
        -- apply list_elem_of_singleton in Hin. lia.
      * apply last_None in Hl as ->. by apply elem_of_nil in Hin.
    + destruct post as [|d post]; [by apply elem_of_nil in Hin|].
      specialize (Hpost d post eq_refl).
      destruct (proj1 (Hks d)) as [Hlt Hd]; [apply elem_of_app; right; left|].
      rewrite Hcount in Hpost by done. exists d. split; [|lia]. split; [|done].
      apply elem_of_cons in Hin as [->|Hin]; [lia|].
      assert (day < d); [|lia].
      apply (StronglySorted_app_inv (λ x y, y < x) (pre ++ [d]) post);
        [rewrite <- app_assoc; exact Hdesc| |done].
      apply elem_of_app. right. left.
Qed.

(** ** The basis of a window *)
Lemma choose_basis_full days ws from h d cfg ch :
  choose_basis days ws from h d cfg = Ok ch → basis ch = full_mtf →
  ∃ w start four,
    let usable := List.filter (λ c, start <=? c_start c) h in
    warmup_candles cfg = Ok w ∧ from = Some start ∧ intraday_from ch = Some start
    ∧ start ≤ ws ∧ resample usable 14400 = Ok four
    ∧ w ≤ len (completed usable 3600 ws) ∧ w ≤ len (completed four 14400 ws)
    ∧ w ≤ len (completed d 86400 ws).
Proof.
  unfold choose_basis. intros H Hb. apply bind_Ok in H as (w&Hw&H).
  destruct from as [start|]; [|by injection H as <-].
  destruct (Z.ltb_spec ws start) as [|Hle]; [by injection H as <-|].
  change (TIMEFRAME_SECONDS tf_4h) with 14400 in H.
  change (TIMEFRAME_SECONDS tf_1h) with 3600 in H.
  change (TIMEFRAME_SECONDS tf_1d) with 86400 in H.
  apply bind_Ok in H as (four&Hfour&H). exists w, start, four. cbv zeta in *.
  cbn [List.filter fst snd] in H.
  destruct (Z.ltb_spec (len (completed four 14400 ws)) w); [by injection H as <-|].
  destruct (Z.ltb_spec (len (completed (List.filter (λ c, start <=? c_start c) h) 3600 ws)) w);
    [by injection H as <-|].
  destruct (Z.ltb_spec (len (completed d 86400 ws)) w); [by injection H as <-|].
  injection H as <-. by split_and!.
Qed.

Lemma measure_window_inv sym days h d now cfg p :
  measure_window sym days h d now cfg = Ok p →
  ∃ from ch bars, intraday_since h now = Ok from
    ∧ choose_basis days (now - days * us_day) from h d cfg = Ok ch
    ∧ wp_basis p = basis ch
    ∧ (∃ h', replay sym (basis ch) h' d (now - days * us_day) now cfg = Ok bars)
    ∧ samples p = len (omap forward_return_pct bars) ∧ replayed_bars p = len bars
    ∧ evaluated_from p = close_time <$> List.head bars
    ∧ evaluated_to p = close_time <$> last bars
    ∧ (bullish_bars p, bearish_bars p, unaligned_bars p)
      = (len (by_state bars rising), len (by_state bars falling), len (by_state bars unaligned))
    ∧ (fwd_return_bullish_pct p, hit_rate_bullish p)
      = (_mean (by_state bars rising), _hit_rate (by_state bars rising) true)
    ∧ (fwd_return_bearish_pct p, hit_rate_bearish p)
      = (_mean (by_state bars falling), _hit_rate (by_state bars falling) false)
    ∧ fwd_return_baseline_pct p = _mean (omap forward_return_pct bars)
    ∧ (bullish_episodes p, bearish_episodes p)
      = (_episodes (state <$> bars) rising, _episodes (state <$> bars) falling).
Proof.
  unfold measure_window. cbv zeta. intros H.
  apply bind_Ok in H as (from&Hfrom&H). apply bind_Ok in H as (ch&Hch&H).
  apply bind_Ok in H as (bars&Hbars&H). apply bind_Ok in H as (notes&_&H).
  injection H as <-. exists from, ch, bars. split_and!; try done. by eexists.
Qed.

(** A window is measured on the three-timeframe basis only where that basis
    exists: the intraday history starts at or before the window, and at every
    instant of the window each of the three legs has at least the warm-up
    number of completed candles from that history, so no bar of it is
    "unavailable" for want of data. *)
Theorem full_mtf_warm sym days h d now cfg p :
  validate_config cfg = Ok () → Forall in_range h →
  measure_window sym days h d now cfg = Ok p → wp_basis p = full_mtf →
  ∃ w start, warmup_candles cfg = Ok w ∧ intraday_since h now = Ok (Some start)
    ∧ start ≤ now - days * us_day
    ∧ ∀ t, now - days * us_day ≤ t →
        ∃ r, evaluate sym (List.filter (λ c, start <=? c_start c) h) d t (Some cfg) = Ok r
             ∧ ∀ tf, w ≤ history_points (timeframes r tf).
Proof.
  intros Hv Hr Hp Hb. apply measure_window_inv in Hp as (from&ch&bars&Hfrom&Hch&Hbasis&_).
  rewrite Hbasis in Hb.
  destruct (choose_basis_full _ _ _ _ _ _ _ Hch Hb)
    as (w&start&four&Hw&->&_&Hle&Hfour&H1&H4&Hd).
  exists w, start. split_and!; [done..|]. intros t Ht.
  destruct (evaluate_total sym (List.filter (λ c, start <=? c_start c) h) d t cfg w)
    as (r&four'&Hev&Hfour'&Hpd&Hpf&Hph); [done|done|by apply Forall_filter_weaken|].
  assert (four' = four) as -> by congruence.
  exists r. split; [done|].
  intros []; simpl; rewrite ?Hpd, ?Hpf, ?Hph; (etransitivity; [|by apply completed_grows]); done.
Qed.

(** ** Accounting *)
Lemma omap_by_state bars :
  len (omap forward_return_pct bars)
  = len (by_state bars rising) + len (by_state bars falling) + len (by_state bars unaligned).
Proof.
  unfold by_state, len in *. induction bars as [|b bars IH]; [done|]. cbn [List.filter omap list_omap].
  destruct (state b), (forward_return_pct b) as [x|] eqn:Hx;
    repeat (case_bool_decide; try congruence);
    cbn [omap list_omap length]; rewrite ?Hx; cbn [length]; lia.
Qed.

Lemma omap_length_le {A B} (f : A → option B) l : (length (omap f l) ≤ length l)%nat.
Proof. induction l as [|x l IH]; csimpl; [lia|]. destruct (f x); csimpl; lia. Qed.

Lemma mean_None values : (_mean values = None ↔ len values = 0).
Proof. unfold len. by destruct values. Qed.

Lemma hit_rate_None values b : (_hit_rate values b = None ↔ len values = 0).
Proof. unfold len. by destruct values. Qed.

Lemma episodes_from_nonneg target previous states : 0 ≤ episodes_from target previous states.
Proof.
  revert previous. induction states as [|s states IH]; intros previous; simpl; [done|].
  specialize (IH (Some s)). destruct (_ && _); lia.
Qed.

Lemma episodes_two_targets previous states :
  episodes_from rising previous states + episodes_from falling previous states ≤ len states.
Proof.
  revert previous. induction states as [|s states IH]; intros previous; [done|].
  specialize (IH (Some s)). simpl. unfold len in *. simpl.
  destruct s; simpl; repeat destruct_if; lia.
Qed.

Lemma episodes_pos target previous states :
  target ∈ states → previous ≠ Some target → 0 < episodes_from target previous states.
Proof.
  revert previous. induction states as [|s states IH]; intros previous Hin Hprev;
    [by apply elem_of_nil in Hin|]. simpl.
  pose proof (episodes_from_nonneg target (Some s) states).
  destruct (decide (s = target)) as [->|Hne].
  - rewrite bool_decide_true, (bool_decide_false (previous = Some target)) by done. simpl. lia.
  - rewrite (bool_decide_false (s = target)) by done. simpl.
    apply elem_of_cons in Hin as [->|Hin]; [done|]. apply IH; [done|congruence].
Qed.

Lemma by_state_pos bars s : 0 < len (by_state bars s) → s ∈ state <$> bars.
Proof.
  unfold by_state, len. induction bars as [|b bars IH]; simpl; [lia|].
  destruct (decide (state b = s)) as [<-|Hne]; [intros _; left|].
  rewrite bool_decide_false by done. intros H. right. by apply IH.
Qed.

(** The published counts add up.  Every measured bar is in exactly one of the
    three states; a mean or a hit rate is missing exactly when its own count is
    zero, never a made-up number; the two directions cannot have more episodes
    than bars, and a direction that was measured has an episode; and the window
    reported is inside the one asked for. *)
Theorem window_accounting sym days h d now cfg p :
  measure_window sym days h d now cfg = Ok p →
  samples p = bullish_bars p + bearish_bars p + unaligned_bars p
  ∧ 0 ≤ samples p ∧ 0 ≤ bars_without_forward_return p
  ∧ (fwd_return_baseline_pct p = None ↔ samples p = 0)
  ∧ (fwd_return_bullish_pct p = None ↔ bullish_bars p = 0)
  ∧ (hit_rate_bullish p = None ↔ bullish_bars p = 0)
  ∧ (fwd_return_bearish_pct p = None ↔ bearish_bars p = 0)
  ∧ (hit_rate_bearish p = None ↔ bearish_bars p = 0)
  ∧ bullish_episodes p + bearish_episodes p ≤ replayed_bars p
  ∧ (0 < bullish_bars p → 0 < bullish_episodes p)
  ∧ (0 < bearish_bars p → 0 < bearish_episodes p)
  ∧ (∀ t, evaluated_from p = Some t ∨ evaluated_to p = Some t → now - days * us_day < t ≤ now).
Proof.
  intros (from&ch&bars&_&_&_&[h' Hrep]&Hs&Hn&Hf&Ht&[= Hbu Hbe Hun]&[= Hmb Hhb]&[= Hme Hhe]
          &Hbase&[= Heb Hee])%measure_window_inv.
  rewrite Hs, Hbu, Hbe, Hun, Hmb, Hhb, Hme, Hhe, Hbase, Heb, Hee, Hn, Hf, Ht.
  unfold bars_without_forward_return. rewrite Hn, Hs.
  pose proof (omap_length_le forward_return_pct bars).
  split_and!; [apply omap_by_state|unfold len; lia|unfold len; lia
    |apply mean_None|apply mean_None|apply hit_rate_None|apply mean_None|apply hit_rate_None| | | |].
  - etransitivity; [apply episodes_two_targets|]. unfold len. by rewrite length_fmap.
  - intros Hpos%by_state_pos. by apply episodes_pos.
  - intros Hpos%by_state_pos. by apply episodes_pos.
  - apply replay_inv in Hrep. cbv zeta in Hrep.
    assert (∀ b, b ∈ bars → now - days * us_day < close_time b ≤ now) as Hin.
    { intros b Hb. destruct (Forall2_elem_r _ _ _ _ Hrep Hb) as (c&Hc&->&_).
      apply elem_of_bool_filter in Hc as [[_ Hle%Z.leb_le]%elem_of_bool_filter Hlt%Z.ltb_lt]. lia. }
    intros t [(b&Hb&->)%fmap_Some|(b&Hb&->)%fmap_Some]; apply Hin.
    + destruct bars; [done|]. injection Hb as ->. left.
    + by apply last_Some_elem_of.
Qed.

(** ** Concrete series: three days of hours, twelve days *)
Definition base : Z := 1783814400.
Definition an_hour (i : nat) : Candle :=
  let v := 100 + Z.of_nat i in a_candle (base + 3600 * Z.of_nat i) v (v + 1) (v - 1) v.
Definition a_day (i : nat) : Candle :=
  let v := 90 + Z.of_nat i in a_candle (base + 86400 * (Z.of_nat i - 9)) v (v + 1) (v - 1) v.
Definition three_days : list Candle := an_hour <$> seq 0 72.
Definition twelve_days : list Candle := a_day <$> seq 0 12.
Definition at_base (seconds : Z) : instant := EPOCH + (base + seconds) * us_second.
Definition a_now : instant := at_base (3 * 86400).

Definition bars_of (b : Basis) (h : list Candle) (now : instant) : list ReplayBar :=
  match replay "XAUUSD" b h twelve_days (at_base 172800) now small_config with
  | Ok bars => bars | Err _ => [] end.

Lemma replay_no_lookahead_witness :
  seen_by (at_base 216000) (bars_of full_mtf three_days a_now)
  = seen_by (at_base 216000)
      (bars_of full_mtf (a_candle (base + 216000) 1 1 1 1 :: take 60 three_days)
         (at_base 220000)).
Proof.
  apply (replay_no_lookahead "XAUUSD" full_mtf three_days
           (a_candle (base + 216000) 1 1 1 1 :: take 60 three_days)
           twelve_days twelve_days (at_base 172800) a_now (at_base 220000) (at_base 216000)
           small_config);
    [by_decide..|vm_compute; reflexivity|vm_compute; reflexivity|done|done
    |vm_compute; reflexivity|vm_compute; reflexivity].
Defined.

Lemma replay_spec_witness :
  let series := completed twelve_days 86400 a_now in
  ∃ bars, replay "XAUUSD" daily_only three_days twelve_days (at_base (-432000)) a_now small_config
          = Ok bars
  ∧ Forall2 (λ c r,
      close_time r = c_start c + 86400 * us_second ∧ rb_price r = c_close c
      ∧ state_at "XAUUSD" daily_only three_days twelve_days small_config (close_time r)
        = Ok (state r)
      ∧ match forward_return_pct r with
        | Some change => ∃ c', c' ∈ series ∧ c_start c' = c_start c + us_day
            ∧ fgt (c_close c) fzero = true
            ∧ change = fmul (fsub (fdiv_ieee (c_close c') (c_close c)) fone) fhundred
        | None => fgt (c_close c) fzero = false
                  ∨ ∀ c', c' ∈ series → c_start c' ≠ c_start c + us_day
        end)
      (List.filter (λ c, at_base (-432000) <? c_start c + 86400 * us_second) series) bars.
Proof.
  apply (replay_spec "XAUUSD" daily_only three_days twelve_days (at_base (-432000)) a_now
           small_config 5); [vm_compute; reflexivity|vm_compute; reflexivity|by_decide].
Defined.

Lemma intraday_since_spec_witness :
  ∃ r, intraday_since three_days a_now = Ok r
  ∧ ∀ start, r = Some start → 4 ≤ hours_of (completed three_days 3600 a_now) start.
Proof.
  destruct (intraday_since_spec three_days a_now) as (r&Hr&Hs&_); [by_decide|by_decide|].
  exists r. split; [exact Hr|]. intros start Hstart. exact (proj1 (proj2 (Hs start Hstart))).
Defined.

(** A day without a single candle is not visited: the walk goes from the third
    of these days straight to the first, and calls the run unbroken. *)
Example missing_days_are_not_a_break :
  intraday_since (take 24 three_days ++ drop 48 three_days) a_now
  = Ok (Some (at_base 0)).
Proof. vm_compute. reflexivity. Qed.

Definition a_window : WindowPerformance :=
  match measure_window "XAUUSD" 2 three_days twelve_days a_now small_config with
  | Ok p => p
  | Err _ =>
      {| wp_symbol := ""; wp_window_days := 0; wp_basis := daily_only; evaluated_from := None;
         evaluated_to := None; samples := 0; bullish_episodes := 0; bearish_episodes := 0;
         bullish_bars := 0; bearish_bars := 0; unaligned_bars := 0;
         fwd_return_bullish_pct := None; fwd_return_bearish_pct := None;
         fwd_return_baseline_pct := None; hit_rate_bullish := None; hit_rate_bearish := None;
         wp_note := []; replayed_bars := 0 |}
  end.

Lemma full_mtf_warm_witness :
  ∃ w start, warmup_candles small_config = Ok w
    ∧ intraday_since three_days a_now = Ok (Some start) ∧ start ≤ a_now - 2 * us_day
    ∧ ∀ t, a_now - 2 * us_day ≤ t →
        ∃ r, evaluate "XAUUSD" (List.filter (λ c, start <=? c_start c) three_days) twelve_days t
               (Some small_config) = Ok r
             ∧ ∀ tf, w ≤ history_points (timeframes r tf).
Proof.
  apply (full_mtf_warm "XAUUSD" 2 three_days twelve_days a_now small_config a_window);
    [vm_compute; reflexivity|by_decide|vm_compute; reflexivity|vm_compute; reflexivity].
Defined.

Lemma window_accounting_witness :
  samples a_window = bullish_bars a_window + bearish_bars a_window + unaligned_bars a_window.
Proof.
  refine (proj1 (window_accounting "XAUUSD" 2 three_days twelve_days a_now small_config
                   a_window _)).
  vm_compute. reflexivity.
Defined.
