(* ===== verification/Breaker.v ===== *)
(** * Circuit breakers: the interface

    What [app/providers/registry.py] and [app/news/registry.py] both promise to
    the loops that poll: a counter of consecutive failures, a threshold at
    which the breaker trips, and a cooldown after the last failure during which
    no attempt is allowed.  The two modules implement [Breaker] and discharge
    [BreakerLaws]; the bound on the number of attempts an outage can cost is
    proved here once, against the interface. *)
From S2P Require Import Prelude PyFloat PyTime.
Local Open Scope Z_scope.

Class Breaker (S : Type) := {
  (** may this source be attempted now? *)
  may_try : instant → S → bool;
  (** the recorded state after a failed attempt *)
  after_failure : instant → S → S;
  after_success : instant → S → S;
  failures : S → Z;
}.

(** [trip] failures in a row trip the breaker; [cooldown n] microseconds after
    the [n]-th of them pass before the next attempt. *)
Class BreakerLaws (S : Type) `{!Breaker S} (trip : Z) (cooldown : Z → Z) : Prop := {
  failure_counts t s : failures (after_failure t s) = failures s + 1;
  success_resets t s : failures (after_success t s) = 0;
  cooldown_pos : 0 < cooldown trip;
  cooldown_mono n : trip ≤ n → cooldown trip ≤ cooldown n;
  failure_blocks t t' s :
    trip ≤ failures s + 1 → t ≤ t' → may_try t' (after_failure t s) = true →
    t + cooldown (failures s + 1) ≤ t';
}.

(** The attempts of a loop that asks before each of them, all failing. *)
Inductive failing_run {S} `{!Breaker S} : S → list instant → S → Prop :=
| run_nil s : failing_run s [] s
| run_cons t ts s s' :
    may_try t s = true → failing_run (after_failure t s) ts s' →
    failing_run s (t :: ts) s'.

Section Bounded.
Context {S : Type} `{!Breaker S} (trip : Z) (cooldown : Z → Z) `{!BreakerLaws S trip cooldown}.

Lemma failing_run_failures s ts s' :
  failing_run s ts s' → failures s' = failures s + Z.of_nat (length ts).
Proof.
  induction 1 as [s|t ts s s' _ _ IH]; simpl; [lia|]. rewrite IH, failure_counts. lia.
Qed.

(** Once tripped, attempts are a cooldown apart. *)
Lemma tripped_spacing t ts s s' :
  failing_run (after_failure t s) ts s' → ascending id (t :: ts) → trip ≤ failures s + 1 →
  t + Z.of_nat (length ts) * cooldown trip ≤ List.last ts t.
Proof.
  revert t s. induction ts as [|t' ts IH]; intros t s Hrun Hasc Htrip; [simpl; lia|].
  inversion Hrun as [|? ? ? ? Hmay Hrun']; subst.
  apply StronglySorted_inv in Hasc as [Hasc Hle].
  apply Forall_cons in Hle as [Hle _]. unfold id in Hle.
  pose proof (failure_blocks t t' s Htrip Hle Hmay) as Hgap.
  pose proof (cooldown_mono (failures s + 1) Htrip).
  specialize (IH t' _ Hrun' Hasc). rewrite failure_counts in IH.
  rewrite last_cons_default. simpl length. rewrite Nat2Z.inj_succ.
  pose proof cooldown_pos. lia.
Qed.

Lemma ascending_cons_le t ts : ascending id (t :: ts) → t ≤ List.last ts t.
Proof. intros H. by apply (ascending_last_ge id t ts H t); left. Qed.

(** In any window the attempts on a source that keeps failing are at most
    [trip] and one more per cooldown that fits in the window. *)
Lemma failing_run_bound s ts s' t0 t1 :
  failing_run s ts s' → ascending id ts → Forall (λ t, t0 ≤ t ≤ t1) ts → t0 ≤ t1 →
  0 ≤ failures s → 0 < trip →
  Z.of_nat (length ts) ≤ trip + (t1 - t0) / cooldown trip.
Proof.
  intros Hrun Hasc Hwin Ht Hfs Htrip. pose proof cooldown_pos as Hc.
  assert (0 ≤ (t1 - t0) / cooldown trip) by (apply Z.div_pos; lia).
  destruct (Z.le_gt_cases (Z.of_nat (length ts)) trip) as [|Hlong]; [lia|].
  (* drop the free attempts *)
  assert (∀ n r, (n < length ts)%nat → trip ≤ failures r + Z.of_nat n + 1 → failing_run r ts s' →
    Z.of_nat (length ts) ≤ Z.of_nat n + 1 + (t1 - t0) / cooldown trip) as Hgen.
  { clear Hrun Hlong Hfs. induction Hasc as [|t ts Hasc IH Hle]; intros n r Hn Hf Hrun; [simpl in Hn; lia|].
    apply Forall_cons in Hwin as [Hwt Hwin].
    inversion Hrun as [|? ? ? ? Hmay Hrun']; subst.
    destruct n as [|n].
    - pose proof (tripped_spacing t ts r s' Hrun' ltac:(by constructor) ltac:(lia)) as Hsp.
      assert (List.last ts t ≤ t1) as Hlast.
      { pose proof (last_elem t ts) as Hin. apply elem_of_cons in Hin as [->|Hin]; [lia|].
        rewrite Forall_forall in Hwin. by apply Hwin. }
      assert (Z.of_nat (length ts) ≤ (t1 - t0) / cooldown trip); [|simpl length; lia].
      apply Z.div_le_lower_bound; [done|]. lia.
    - simpl length in Hn |- *. specialize (IH Hwin n (after_failure t r)).
      rewrite failure_counts in IH. specialize (IH ltac:(lia) ltac:(lia) Hrun'). lia. }
  specialize (Hgen (Z.to_nat (trip - 1)) s ltac:(lia) ltac:(lia) Hrun). lia.
Qed.
End Bounded.
