(* ===== verification/ProviderRegistry.v ===== *)
(** * The provider registry and its circuit breaker

    [app/providers/registry.py]: the breaker's cooldown, the selection of the
    providers to call, the recording of outcomes in [data_providers] and the
    health report.

    The table is a map from the unique [code] to the row.  The database's
    collation of [code] is the parameter [collate_lt]; the clock is read once
    per row, so a selection takes the sequence [utcnow] of readings. *)
From S2P Require Import Prelude PyFloat PyTime PyText Breaker.
Local Open Scope string_scope.
Local Open Scope list_scope.
Local Open Scope Z_scope.

Definition UNHEALTHY_AFTER_FAILURES : Z := 3.
Definition BREAKER_THRESHOLD : Z := 5.
Definition BREAKER_BASE_MINUTES : Z := 5.
Definition BREAKER_MAX_MINUTES : Z := 60.

Record ProviderRow : Set := {
  p_code : string;
  p_name : string;
  p_category : string;
  p_enabled : bool;
  p_priority : Z;
  p_last_success_at : option datetime;
  p_last_error_at : option datetime;
  p_last_error : option string;
  p_consecutive_failures : Z;
  p_updated_at : option datetime;
}.

Definition breaker_cooldown_minutes (consecutive_failures : Z) : float :=
  if consecutive_failures <? BREAKER_THRESHOLD then fzero
  else
    let over := consecutive_failures - BREAKER_THRESHOLD in
    float_of_Z (Z.min (BREAKER_BASE_MINUTES * 2 ^ Z.min over 10) BREAKER_MAX_MINUTES).

(** [a or b] of two optional datetimes: a datetime is never falsy. *)
Definition or_else {A} (a b : option A) : option A :=
  match a with Some x => Some x | None => b end.

Definition breaker_open (row : ProviderRow) (now : instant) : bool :=
  let cooldown := breaker_cooldown_minutes (p_consecutive_failures row) in
  if fle cooldown fzero then false
  else
    match or_else (p_last_error_at row) (p_updated_at row) with
    | None => false
    | Some last_error =>
        flt (total_seconds (now - to_utc last_error)) (fmul cooldown (float_of_Z 60))
    end.

Section Table.
Context (collate_lt : string → string → bool).

(** [ORDER BY priority, code] *)
Definition row_lt (a b : ProviderRow) : bool :=
  (p_priority a <? p_priority b)
  || ((p_priority a =? p_priority b) && collate_lt (p_code a) (p_code b)).

Definition table_rows (table : gmap string ProviderRow) : list ProviderRow :=
  (map_to_list table).*2.

(** The loop over the selected rows; the [i]-th row is judged at [utcnow i]. *)
Fixpoint keep_closed (utcnow : nat → instant) (i : nat) (rows : list ProviderRow)
    : list ProviderRow :=
  match rows with
  | [] => []
  | row :: rows =>
      if breaker_open row (utcnow i) then keep_closed utcnow (S i) rows
      else row :: keep_closed utcnow (S i) rows
  end.

Definition selected (categories : list string) (row : ProviderRow) : bool :=
  p_enabled row
  && (match categories with [] => true | _ => existsb (String.eqb (p_category row)) categories end).

(** [categories] is [None] or empty: no restriction. *)
Definition load_provider_rows (table : gmap string ProviderRow) (categories : list string)
    (utcnow : nat → instant) : list ProviderRow :=
  keep_closed utcnow 0 (py_sorted row_lt (List.filter (selected categories) (table_rows table))).

Record Health : Set := {
  h_code : string;
  h_name : string;
  h_category : string;
  h_enabled : bool;
  h_priority : Z;
  healthy : bool;
  h_last_success_at : option instant;
  h_consecutive_failures : Z;
  h_last_error : option string;
}.

Definition health_of (m : ProviderRow) : Health :=
  {| h_code := p_code m;
     h_name := p_name m;
     h_category := p_category m;
     h_enabled := p_enabled m;
     h_priority := p_priority m;
     healthy := p_enabled m && (p_consecutive_failures m <? UNHEALTHY_AFTER_FAILURES);
     h_last_success_at := to_utc <$> p_last_success_at m;
     h_consecutive_failures := p_consecutive_failures m;
     h_last_error := p_last_error m |}.

Definition providers_health (table : gmap string ProviderRow) : list Health :=
  health_of <$> py_sorted row_lt (table_rows table).
End Table.

(** [UPDATE data_providers SET ... WHERE code = :code] *)
Definition mark_success (now : instant) (row : ProviderRow) : ProviderRow :=
  {| p_code := p_code row; p_name := p_name row; p_category := p_category row;
     p_enabled := p_enabled row; p_priority := p_priority row;
     p_last_success_at := Some (aware now 0);
     p_last_error_at := p_last_error_at row;
     p_last_error := None;
     p_consecutive_failures := 0;
     p_updated_at := Some (aware now 0) |}.

Definition mark_failure (now : instant) (error : string) (row : ProviderRow) : ProviderRow :=
  {| p_code := p_code row; p_name := p_name row; p_category := p_category row;
     p_enabled := p_enabled row; p_priority := p_priority row;
     p_last_success_at := p_last_success_at row;
     p_last_error_at := Some (aware now 0);
     p_last_error := Some (take_chars 2000 error);
     p_consecutive_failures := p_consecutive_failures row + 1;
     p_updated_at := Some (aware now 0) |}.

Definition record_success (now : instant) (code : string) (table : gmap string ProviderRow)
    : gmap string ProviderRow := alter (mark_success now) code table.

Definition record_failure (now : instant) (code error : string)
    (table : gmap string ProviderRow) : gmap string ProviderRow :=
  alter (mark_failure now error) code table.

(** ** The cooldown in microseconds *)
Definition cooldown_us (n : Z) : Z :=
  Z.min (BREAKER_BASE_MINUTES * 2 ^ Z.min (n - BREAKER_THRESHOLD) 10) BREAKER_MAX_MINUTES
  * us_minute.

Lemma cooldown_values n :
  5 ≤ n →
  let k := Z.min (BREAKER_BASE_MINUTES * 2 ^ Z.min (n - BREAKER_THRESHOLD) 10)
             BREAKER_MAX_MINUTES in
  k = 5 ∨ k = 10 ∨ k = 20 ∨ k = 40 ∨ k = 60.
Proof.
  intros Hn. unfold BREAKER_THRESHOLD, BREAKER_BASE_MINUTES, BREAKER_MAX_MINUTES.
  destruct (Z.le_gt_cases n 8) as [Hle|Hgt].
  - assert (n = 5 ∨ n = 6 ∨ n = 7 ∨ n = 8) as [->|[->|[->| ->]]] by lia; vm_compute; tauto.
  - assert (2 ^ 4 ≤ 2 ^ Z.min (n - 5) 10) by (apply Z.pow_le_mono_r; lia).
    cbv zeta. lia.
Qed.

(** The float arithmetic of the breaker is exact on the cooldowns it can have. *)
Lemma cooldown_float n td :
  5 ≤ n → 0 ≤ td < 2 ^ 53 →
  fle (breaker_cooldown_minutes n) fzero = false
  ∧ flt (total_seconds td) (fmul (breaker_cooldown_minutes n) (float_of_Z 60))
    = (td <? cooldown_us n).
Proof.
  intros Hn Htd. unfold breaker_cooldown_minutes, cooldown_us, total_seconds, us_minute, us_second.
  rewrite (proj2 (Z.ltb_ge n BREAKER_THRESHOLD)) by done.
  pose proof (cooldown_values n Hn) as Hk. cbv zeta in Hk |- *.
  destruct Hk as [->|[->|[->|[->| ->]]]]; (split; [vm_compute; reflexivity|]).
  - change (fmul _ _) with (float_of_Z 300).
    apply (true_div_million_lt _ 300 5277655813324800 (-44)); [done|reflexivity|done|done|done].
  - change (fmul _ _) with (float_of_Z 600).
    apply (true_div_million_lt _ 600 5277655813324800 (-43)); [done|reflexivity|done|done|done].
  - change (fmul _ _) with (float_of_Z 1200).
    apply (true_div_million_lt _ 1200 5277655813324800 (-42)); [done|reflexivity|done|done|done].
  - change (fmul _ _) with (float_of_Z 2400).
    apply (true_div_million_lt _ 2400 5277655813324800 (-41)); [done|reflexivity|done|done|done].
  - change (fmul _ _) with (float_of_Z 3600).
    apply (true_div_million_lt _ 3600 7916483719987200 (-41)); [done|reflexivity|done|done|done].
Qed.

Lemma cooldown_us_bounds n :
  5 ≤ n → 5 * us_minute ≤ cooldown_us n ≤ 60 * us_minute.
Proof.
  intros Hn. unfold cooldown_us, us_minute, us_second.
  pose proof (cooldown_values n Hn) as Hk. cbv zeta in Hk. lia.
Qed.

Lemma breaker_closed_below row now :
  p_consecutive_failures row < 5 → breaker_open row now = false.
Proof.
  intros H. unfold breaker_open, breaker_cooldown_minutes.
  by rewrite (proj2 (Z.ltb_lt _ BREAKER_THRESHOLD)).
Qed.

Lemma breaker_open_us row now le :
  5 ≤ p_consecutive_failures row → or_else (p_last_error_at row) (p_updated_at row) = Some le →
  to_utc le ≤ now < to_utc le + 2 ^ 53 →
  breaker_open row now = (now <? to_utc le + cooldown_us (p_consecutive_failures row)).
Proof.
  intros Hf Hle Hnow. unfold breaker_open.
  destruct (cooldown_float (p_consecutive_failures row) (now - to_utc le)) as [-> Hlt];
    [lia|lia|]. rewrite Hle, Hlt.
  apply eq_bool_prop_intro. rewrite !Is_true_true, !Z.ltb_lt. lia.
Qed.

(** The breaker delays and never disables.  A provider is skipped exactly
    while it has failed five times or more in a row and the cooldown since its
    last recorded error is running; the cooldown is at least five minutes and at
    most one hour, whatever the number of failures, so an hour after its last
    error every enabled provider is tried again. *)
Theorem breaker_open_iff row now le :
  or_else (p_last_error_at row) (p_updated_at row) = Some le →
  to_utc le ≤ now < to_utc le + 2 ^ 53 →
  (breaker_open row now = true ↔
     5 ≤ p_consecutive_failures row
     ∧ now < to_utc le + cooldown_us (p_consecutive_failures row))
  ∧ (5 ≤ p_consecutive_failures row →
       5 * us_minute ≤ cooldown_us (p_consecutive_failures row) ≤ 60 * us_minute)
  ∧ (to_utc le + 60 * us_minute ≤ now → breaker_open row now = false).
Proof.
  intros Hle Hnow. destruct (Z.le_gt_cases 5 (p_consecutive_failures row)) as [Hf|Hf].
  - rewrite (breaker_open_us row now le), Z.ltb_lt by done.
    pose proof (cooldown_us_bounds _ Hf). split_and!; [by split; [|intros []]|done|].
    intros. apply Z.ltb_ge. lia.
  - rewrite breaker_closed_below by done. split_and!; [|lia|done]. split; [done|lia].
Qed.

Definition a_row (code : string) (fails : Z) (err : option Z) : ProviderRow :=
  {| p_code := code; p_name := code; p_category := "gold"; p_enabled := true; p_priority := 1;
     p_last_success_at := None; p_last_error_at := naive <$> err; p_last_error := None;
     p_consecutive_failures := fails; p_updated_at := None |}.

(** tgju after 1945 consecutive failures, 59 minutes after the last one. *)
Lemma breaker_open_iff_witness :
  breaker_open (a_row "tgju" 1945 (Some 1000000)) (1000000 + 59 * us_minute) = true ↔
  5 ≤ 1945 ∧ 1000000 + 59 * us_minute < 1000000 + cooldown_us 1945.
Proof.
  apply (breaker_open_iff (a_row "tgju" 1945 (Some 1000000)) _ (naive 1000000));
    [reflexivity|vm_compute; split; congruence].
Defined.

(** ** The interface *)
#[export] Instance provider_breaker (error : string) : Breaker ProviderRow := {
  may_try now row := negb (breaker_open row now);
  after_failure now row := mark_failure now error row;
  after_success now row := mark_success now row;
  failures := p_consecutive_failures;
}.

#[export] Instance provider_breaker_laws error :
  @BreakerLaws ProviderRow (provider_breaker error) BREAKER_THRESHOLD cooldown_us.
Proof.
  split.
  - done.
  - done.
  - done.
  - intros n Hn. unfold BREAKER_THRESHOLD in Hn. apply cooldown_us_bounds in Hn.
    change (cooldown_us BREAKER_THRESHOLD) with (5 * us_minute). lia.
  - intros t t' s. unfold BREAKER_THRESHOLD. simpl. intros Hf Ht Hmay.
    pose proof (cooldown_us_bounds _ Hf).
    destruct (Z.lt_ge_cases t' (t + 2 ^ 53)) as [Hlt|Hge]; [|unfold_time; lia].
    rewrite (breaker_open_us (mark_failure t error s) t' (aware t 0)) in Hmay;
      [|done|done|simpl; lia].
    simpl in Hmay. bool_to_prop. lia.
Qed.

(** What an outage can cost: a provider that fails every time it is tried,
    by a loop that asks the breaker first, is tried at most five times plus
    once per five minutes of the window, however often the loop runs. *)
Theorem provider_outage_bounded error row ts row' t0 t1 :
  @failing_run _ (provider_breaker error) row ts row' →
  ascending id ts → Forall (λ t, t0 ≤ t ≤ t1) ts → t0 ≤ t1 →
  0 ≤ p_consecutive_failures row →
  Z.of_nat (length ts) ≤ 5 + (t1 - t0) / (5 * us_minute)
  ∧ p_consecutive_failures row' = p_consecutive_failures row + Z.of_nat (length ts).
Proof.
  intros Hrun Hasc Hwin Ht Hf. split.
  - change (5 * us_minute) with (cooldown_us BREAKER_THRESHOLD).
    by apply (failing_run_bound (Breaker0 := provider_breaker error) BREAKER_THRESHOLD cooldown_us row ts row').
  - by apply (failing_run_failures (Breaker0 := provider_breaker error) BREAKER_THRESHOLD cooldown_us row ts row').
Qed.

(** A loop that ticks every minute for half an hour, and the minutes at which
    it reaches a dead provider. *)
Definition dead_minutes : list Z :=
  (λ k, k * us_minute) <$> [0; 1; 2; 3; 4; 9; 19; 39].

Lemma provider_outage_bounded_witness :
  let row := a_row "tgju" 0 None in
  let row' := foldl (λ r t, mark_failure t "access denied" r) row dead_minutes in
  Z.of_nat (length dead_minutes) ≤ 5 + (39 * us_minute - 0) / (5 * us_minute)
  ∧ p_consecutive_failures row' = p_consecutive_failures row + Z.of_nat (length dead_minutes).
Proof.
  apply (provider_outage_bounded "access denied"); [| |by_decide|done|done].
  - repeat (apply run_cons; [vm_compute; reflexivity|]). apply run_nil.
  - repeat constructor; vm_compute; congruence.
Defined.

(** ** Selection *)
Lemma keep_closed_elem utcnow i rows row :
  (row ∈ keep_closed utcnow i rows →
     row ∈ rows ∧ ∃ j, (i ≤ j < i + length rows)%nat ∧ breaker_open row (utcnow j) = false)
  ∧ (row ∈ rows → (∀ j, (i ≤ j < i + length rows)%nat → breaker_open row (utcnow j) = false) →
     row ∈ keep_closed utcnow i rows).
Proof.
  revert i. induction rows as [|r rows IH]; intros i; simpl; [by rewrite !elem_of_nil|].
  destruct (IH (S i)) as [IH1 IH2]. split.
  - intros Hin.
    assert (row ∈ keep_closed utcnow (S i) rows → row ∈ r :: rows ∧
      ∃ j, (i ≤ j < i + S (length rows))%nat ∧ breaker_open row (utcnow j) = false) as Htail.
    { intros [Hr (j&Hj&Hcl)]%IH1. split; [by right|]. exists j. split; [lia|done]. }
    destruct (breaker_open r (utcnow i)) eqn:Hop; [by apply Htail|].
    apply elem_of_cons in Hin as [->|Hin]; [|by apply Htail].
    split; [left|]. exists i. split; [lia|done].
  - intros Hin Hall.
    assert (row ∈ rows → row ∈ keep_closed utcnow (S i) rows) as Htail.
    { intros Hr. apply IH2; [done|]. intros j Hj. apply Hall. lia. }
    apply elem_of_cons in Hin as [->|Hin].
    + rewrite (Hall i) by lia. left.
    + destruct (breaker_open r (utcnow i)); [by apply Htail|]. right. by apply Htail.
Qed.

Lemma keep_closed_sublist utcnow i rows : sublist (keep_closed utcnow i rows) rows.
Proof.
  revert i. induction rows as [|r rows IH]; intros i; simpl; [done|].
  destruct (breaker_open r (utcnow i)); by constructor.
Qed.

#[export] Instance row_lt_weak_order collate_lt :
  WeakOrder collate_lt → WeakOrder (row_lt collate_lt).
Proof.
  intros [Hasym Hneg]. split.
  - intros [] []. unfold row_lt. simpl. rewrite orb_true_iff, orb_false_iff.
    rewrite andb_true_iff, andb_false_iff, !Z.ltb_lt, !Z.ltb_ge, !Z.eqb_eq, !Z.eqb_neq.
    intros [Hlt|[-> Hc%Hasym]]; split; (lia || auto).
  - intros [] [] []. unfold row_lt. simpl. rewrite !orb_false_iff, !andb_false_iff,
      !Z.ltb_ge, !Z.eqb_neq. intros [H1 H1'] [H2 H2']. split; [lia|].
    destruct H1' as [?|H1']; [left; lia|]. destruct H2' as [?|H2']; [left; lia|].
    right. by eapply Hneg.
Qed.

Lemma elem_of_table_rows table row : row ∈ table_rows table ↔ ∃ code, table !! code = Some row.
Proof.
  unfold table_rows. rewrite list_elem_of_fmap. split.
  - intros ([code r]&->&Hin%elem_of_map_to_list). by exists code.
  - intros [code Hc]. exists (code, row). by rewrite elem_of_map_to_list.
Qed.

(** Selection is sound and complete, and in fallback order: every returned
    provider is an enabled row of a requested category whose breaker was closed
    at a moment of the call; an enabled row of a requested category whose
    breaker is closed throughout the call is returned; and the result is sorted
    by priority, then code. *)
Theorem load_provider_rows_spec collate_lt table categories utcnow :
  WeakOrder collate_lt →
  let out := load_provider_rows collate_lt table categories utcnow in
  StronglySorted (not_below (row_lt collate_lt)) out
  ∧ (∀ row, row ∈ out →
       (∃ code, table !! code = Some row) ∧ p_enabled row = true
       ∧ (categories = [] ∨ p_category row ∈ categories)
       ∧ ∃ i, breaker_open row (utcnow i) = false)
  ∧ (∀ code row, table !! code = Some row → p_enabled row = true →
       (categories = [] ∨ p_category row ∈ categories) →
       (∀ i, breaker_open row (utcnow i) = false) → row ∈ out).
Proof.
  intros Hw out.
  assert (∀ row, selected categories row = true ↔
            p_enabled row = true ∧ (categories = [] ∨ p_category row ∈ categories)) as Hsel.
  { intros row. unfold selected. rewrite andb_true_iff. f_equiv.
    destruct categories as [|c cs]; [naive_solver|].
    rewrite existsb_exists. setoid_rewrite String.eqb_eq. setoid_rewrite <- list_elem_of_In.
    naive_solver. }
  assert (∀ row, row ∈ py_sorted (row_lt collate_lt)
                    (List.filter (selected categories) (table_rows table))
                 ↔ (∃ code, table !! code = Some row) ∧ selected categories row = true) as Hin.
  { intros row. rewrite py_sorted_perm, elem_of_bool_filter, elem_of_table_rows. done. }
  unfold out, load_provider_rows. split_and!.
  - eapply StronglySorted_sublist; [apply keep_closed_sublist|].
    apply py_sorted_sorted, _.
  - intros row [Hr (i&_&Hi)]%keep_closed_elem. apply Hin in Hr as [Hc [He Hcat]%Hsel].
    split_and!; [done..|by exists i].
  - intros code row Hc He Hcat Hcl. apply keep_closed_elem; [|by intros].
    apply Hin. split; [by exists code|by apply Hsel].
Qed.

(** Two healthy gold providers, a tripped one and a disabled one. *)
Definition a_table : gmap string ProviderRow :=
  list_to_map ((λ r, (p_code r, r)) <$>
    [a_row "tgju" 7 (Some 0); a_row "yahoo" 0 None; a_row "alanchand" 4 (Some 0)]).

(** The table's order by the length of the code, a weak order of strings. *)
Definition by_length (a b : string) : bool := (String.length a <? String.length b)%nat.
Lemma by_length_weak_order : WeakOrder by_length.
Proof. split; intros *; unfold by_length; rewrite ?Nat.ltb_lt, ?Nat.ltb_ge; lia. Qed.

Lemma load_provider_rows_spec_witness :
  let out := load_provider_rows by_length a_table ["gold"] (λ _, us_minute) in
  StronglySorted (not_below (row_lt by_length)) out
  ∧ (∀ row, row ∈ out →
       (∃ code, a_table !! code = Some row) ∧ p_enabled row = true
       ∧ (["gold"] = [] ∨ p_category row ∈ ["gold"])
       ∧ ∃ i : nat, breaker_open row us_minute = false)
  ∧ (∀ code row, a_table !! code = Some row → p_enabled row = true →
       (["gold"] = [] ∨ p_category row ∈ ["gold"]) →
       (∀ i : nat, breaker_open row us_minute = false) → row ∈ out).
Proof. exact (load_provider_rows_spec by_length a_table ["gold"] (λ _, us_minute) by_length_weak_order). Defined.

Example tripped_is_skipped :
  p_code <$> load_provider_rows by_length a_table [] (λ _, us_minute) = ["yahoo"; "alanchand"].
Proof. vm_compute. reflexivity. Qed.

(** Recording an outcome touches one provider: the other rows are
    unchanged and an unknown code changes nothing.  A recorded success closes
    the breaker at every later moment and makes an enabled provider healthy; a
    recorded failure counts one more.  And a provider the breaker skips is
    never reported healthy. *)
Theorem recording_and_health table code now error :
  (∀ other, other ≠ code →
     record_success now code table !! other = table !! other
     ∧ record_failure now code error table !! other = table !! other)
  ∧ (table !! code = None →
     record_success now code table = table ∧ record_failure now code error table = table)
  ∧ (∀ row, table !! code = Some row →
     record_success now code table !! code = Some (mark_success now row)
     ∧ record_failure now code error table !! code = Some (mark_failure now error row)
     ∧ (∀ t, breaker_open (mark_success now row) t = false)
     ∧ healthy (health_of (mark_success now row)) = p_enabled row
     ∧ p_consecutive_failures (mark_failure now error row) = p_consecutive_failures row + 1
     ∧ (∀ t, breaker_open row t = true → healthy (health_of row) = false)).
Proof.
  unfold record_success, record_failure. split_and!.
  - intros other Hne. by rewrite !lookup_alter_ne by done.
  - intros Hn. by rewrite !alter_id by (intros ?; congruence).
  - intros row Hrow. rewrite !lookup_alter_eq, Hrow. split_and!; [done..| | | |].
    + intros t. by apply breaker_closed_below.
    + simpl. apply andb_true_r.
    + done.
    + intros t Hop. unfold health_of, UNHEALTHY_AFTER_FAILURES. simpl.
      rewrite (proj2 (Z.ltb_ge _ 3)); [apply andb_false_r|].
      destruct (Z.lt_ge_cases (p_consecutive_failures row) 5) as [Hlt|]; [|lia].
      by rewrite breaker_closed_below in Hop.
Qed.
