(* ===== verification/NewsRegistry.v ===== *)
(** * The news source registry

    [app/news/registry.py]: the source and policy rows, the circuit breaker
    and courtesy cadence that decide whether a source may be polled, the
    recording of attempts, and the process-local cache of the rows.

    The columns follow the migrations 0016 and 0017: those declared NOT NULL
    are plain values, so the code's [or 0] and [or ""] on them are no-ops.
    [redact] (regular expressions that strip credentials) and the database's
    collation of [code] are parameters. *)
From S2P Require Import Prelude PyFloat PyTime PyText Breaker.
Local Open Scope string_scope.
Local Open Scope list_scope.
Local Open Scope Z_scope.

Definition ATTEMPT_OUTCOMES : list string := ["ok"; "error"; "throttled"; "skipped"; "empty"].
Definition SUCCESS_OUTCOMES : list string := ["ok"; "empty"].
Definition APPROVED : string := "approved".
Definition CIRCUIT_TRIP_FAILURES : Z := 5.
Definition CIRCUIT_BASE_COOLDOWN_S : Z := 300.
Definition CIRCUIT_MAX_COOLDOWN_S : Z := 6 * 3600.
Definition DEFAULT_CACHE_TTL_S : float := float_of_Z 300.
Definition MAX_ERROR_DETAIL : nat := 2000.

(** ** Rows and records *)
Record SourceRow : Set := {
  sr_code : string;
  sr_name : string;
  sr_feed_url : string;
  sr_homepage_url : string;
  sr_kind : string;
  sr_jurisdiction : string;
  sr_language : string;
  sr_enabled : bool;
  sr_policy_status : string;
  sr_quota_per_day : option Z;
  sr_min_interval_seconds : Z;
  sr_last_polled_at : option datetime;
  sr_last_success_at : option datetime;
  sr_last_error_at : option datetime;
  sr_last_error : option string;
  sr_consecutive_failures : Z;
  sr_updated_at : datetime;
}.

Record PolicyRow : Set := {
  pr_access_method : string;
  pr_auth_type : string;
  pr_approval_state : string;
  pr_user_agent_policy : string;
  pr_backfill_allowed : bool;
  pr_store_full_body : bool;
  pr_attribution_required : bool;
  pr_rate_limit_per_day : option Z;
  pr_min_interval_seconds : Z;
  pr_policy_note : string;
  pr_reviewed_at : option datetime;
  pr_reviewed_by : string;
}.

Record SourcePolicy : Set := {
  access_method : string;
  auth_type : string;
  approval_state : string;
  user_agent_policy : string;
  backfill_allowed : bool;
  store_full_body : bool;
  attribution_required : bool;
  rate_limit_per_day : option Z;
  pol_min_interval_seconds : Z;
  policy_note : string;
  reviewed_at : option instant;
  reviewed_by : string;
}.

Definition is_approved (p : SourcePolicy) : bool := String.eqb (approval_state p) APPROVED.

Record NewsSource : Set := {
  ns_code : string;
  ns_name : string;
  feed_url : string;
  homepage_url : string;
  ns_kind : string;
  jurisdiction : string;
  language : string;
  enabled : bool;
  policy_status : string;
  quota_per_day : option Z;
  min_interval_seconds : Z;
  last_polled_at : option instant;
  last_success_at : option instant;
  last_error_at : option instant;
  last_error : option string;
  consecutive_failures : Z;
  policy : SourcePolicy;
}.

Definition is_fetchable (s : NewsSource) : bool := enabled s && is_approved (policy s).

Definition effective_min_interval_seconds (s : NewsSource) : Z :=
  Z.max (min_interval_seconds s) (pol_min_interval_seconds (policy s)).

Definition _row_to_source (r : SourceRow) (p : PolicyRow) : NewsSource :=
  {| ns_code := sr_code r;
     ns_name := sr_name r;
     feed_url := sr_feed_url r;
     homepage_url := sr_homepage_url r;
     ns_kind := sr_kind r;
     jurisdiction := sr_jurisdiction r;
     language := sr_language r;
     enabled := sr_enabled r;
     policy_status := sr_policy_status r;
     quota_per_day := sr_quota_per_day r;
     min_interval_seconds := sr_min_interval_seconds r;
     last_polled_at := to_utc <$> sr_last_polled_at r;
     last_success_at := to_utc <$> sr_last_success_at r;
     last_error_at := to_utc <$> sr_last_error_at r;
     last_error := sr_last_error r;
     consecutive_failures := sr_consecutive_failures r;
     policy :=
       {| access_method := pr_access_method p;
          auth_type := pr_auth_type p;
          approval_state := pr_approval_state p;
          user_agent_policy := pr_user_agent_policy p;
          backfill_allowed := pr_backfill_allowed p;
          store_full_body := pr_store_full_body p;
          attribution_required := pr_attribution_required p;
          rate_limit_per_day := pr_rate_limit_per_day p;
          pol_min_interval_seconds := pr_min_interval_seconds p;
          policy_note := pr_policy_note p;
          reviewed_at := to_utc <$> pr_reviewed_at p;
          reviewed_by := pr_reviewed_by p |} |}.

(** ** The database *)
Record Attempt : Set := {
  at_source_code : string;
  at_started_at : instant;
  at_finished_at : instant;
  at_outcome : string;
  at_http_status : option Z;
  at_bytes_received : option Z;
  at_items_seen : Z;
  at_items_new : Z;
  at_items_updated : Z;
  at_items_duplicate : Z;
  at_error_class : option string;
  at_error_detail : option string;
  at_query_id : option Z;
  at_parser_version : string;
}.

Record NewsDB : Type := {
  news_sources : gmap string SourceRow;
  news_source_policies : gmap string PolicyRow;
  news_collection_attempts : list Attempt;
}.

Section Load.
Context (collate_lt : string → string → bool).

(** [_SELECT_SOURCES]: the join on the code, ordered by the code. *)
Definition joined (db : NewsDB) : list (SourceRow * PolicyRow) :=
  py_sorted (λ a b, collate_lt (sr_code a.1) (sr_code b.1))
    (omap (λ kr, (λ p, (kr.2, p)) <$> (news_source_policies db !! kr.1))
       (map_to_list (news_sources db))).

Definition load_sources (db : NewsDB) : list NewsSource :=
  (λ rp, _row_to_source rp.1 rp.2) <$> joined db.

(** [_SELECT_APPROVED]: the same with a WHERE clause. *)
Definition approved_sources (db : NewsDB) : list NewsSource :=
  (λ rp, _row_to_source rp.1 rp.2) <$>
    List.filter (λ rp, String.eqb (pr_approval_state rp.2) APPROVED && sr_enabled rp.1)
      (joined db).
End Load.

(** ** The circuit breaker *)
Inductive circuit_reason : Set :=
| closed_no_reason
| not_approved (state : string)
| source_disabled
| failures_without_time (n : Z)
| cooling_down (n : Z) (cooldown : float).

Record CircuitState : Set := {
  circuit_open : bool;
  circuit_why : circuit_reason;
  retry_at : option instant;
}.

Definition cooldown_seconds (consecutive_failures : Z) : float :=
  let over := Z.max 0 (consecutive_failures - CIRCUIT_TRIP_FAILURES) in
  float_of_Z (Z.min (CIRCUIT_BASE_COOLDOWN_S * 2 ^ over) CIRCUIT_MAX_COOLDOWN_S).

(** [source.last_error_at or source.last_polled_at] *)
Definition last_failure (source : NewsSource) : option instant :=
  match last_error_at source with Some t => Some t | None => last_polled_at source end.

Definition circuit_state (source : NewsSource) (now : instant) : CircuitState :=
  let state o why r := {| circuit_open := o; circuit_why := why; retry_at := r |} in
  if negb (is_approved (policy source)) then
    state true (not_approved (approval_state (policy source))) None
  else if negb (enabled source) then state true source_disabled None
  else if consecutive_failures source <? CIRCUIT_TRIP_FAILURES then
    state false closed_no_reason None
  else
    let cooldown := cooldown_seconds (consecutive_failures source) in
    match last_failure source with
    | None => state true (failures_without_time (consecutive_failures source)) None
    | Some last_error =>
        let retry := last_error + timedelta_seconds cooldown in
        if now <? retry then
          state true (cooling_down (consecutive_failures source) cooldown) (Some retry)
        else state false closed_no_reason (Some retry)
    end.

Inductive skip_reason : Set :=
| may_poll
| circuit (why : circuit_reason)
| polled_recently (age : Z) (interval : Z).

Definition should_attempt (source : NewsSource) (now : instant) : bool * skip_reason :=
  let state := circuit_state source now in
  if circuit_open state then (false, circuit (circuit_why state))
  else
    let interval := effective_min_interval_seconds source in
    match last_polled_at source with
    | Some polled =>
        if (0 <? interval) && (now <? polled + interval * us_second) then
          (false, polled_recently
                    (match int_of_float (total_seconds (now - polled)) with
                     | Ok age => age | Err _ => 0 end) interval)
        else (true, may_poll)
    | None => (true, may_poll)
    end.

(** ** Recording an attempt *)

(** The three UPDATE statements. *)
Definition set_health (r : SourceRow) (now : instant) (success error : option datetime)
    (message : option string) (fails : Z) : SourceRow :=
  {| sr_code := sr_code r; sr_name := sr_name r; sr_feed_url := sr_feed_url r;
     sr_homepage_url := sr_homepage_url r; sr_kind := sr_kind r;
     sr_jurisdiction := sr_jurisdiction r; sr_language := sr_language r;
     sr_enabled := sr_enabled r; sr_policy_status := sr_policy_status r;
     sr_quota_per_day := sr_quota_per_day r;
     sr_min_interval_seconds := sr_min_interval_seconds r;
     sr_last_polled_at := Some (aware now 0);
     sr_last_success_at := success;
     sr_last_error_at := error;
     sr_last_error := message;
     sr_consecutive_failures := fails;
     sr_updated_at := aware now 0 |}.

Definition _MARK_SUCCESS (now : instant) (r : SourceRow) : SourceRow :=
  set_health r now (Some (aware now 0)) (sr_last_error_at r) None 0.

Definition _MARK_FAILURE (now : instant) (error : string) (r : SourceRow) : SourceRow :=
  set_health r now (sr_last_success_at r) (Some (aware now 0)) (Some error)
    (sr_consecutive_failures r + 1).

Definition _MARK_POLLED (now : instant) (r : SourceRow) : SourceRow :=
  set_health r now (sr_last_success_at r) (sr_last_error_at r) (sr_last_error r)
    (sr_consecutive_failures r).

Inductive attempt_error : Set :=
| UnknownOutcome (outcome : string)
| ForeignKeyViolation (source_code : string).

(** [a or b] of an optional string *)
Definition or_str (a : option string) (b : string) : string :=
  match a with Some s => if String.eqb s "" then b else s | None => b end.

Definition mem_str (s : string) (l : list string) : bool := existsb (String.eqb s) l.

(** The keyword arguments besides the outcome. *)
Record AttemptArgs : Set := {
  arg_started_at : instant;
  arg_finished_at : option instant;
  arg_http_status : option Z;
  arg_bytes_received : option Z;
  arg_items_seen : Z;
  arg_items_new : Z;
  arg_items_updated : Z;
  arg_items_duplicate : Z;
  arg_error_class : option string;
  arg_error_detail : option string;
  arg_query_id : option Z;
  arg_parser_version : string;
}.

Section Record_attempt.
Context (redact : string → string).

Definition attempt_detail (args : AttemptArgs) : option string :=
  match arg_error_detail args with
  | None => None
  | Some s => if String.eqb s "" then None else Some (take_chars MAX_ERROR_DETAIL (redact s))
  end.

Definition attempt_row (source_code outcome : string) (args : AttemptArgs) (now : instant)
    : Attempt :=
  {| at_source_code := source_code;
     at_started_at := arg_started_at args;
     at_finished_at := default now (arg_finished_at args);
     at_outcome := outcome;
     at_http_status := arg_http_status args;
     at_bytes_received := arg_bytes_received args;
     at_items_seen := arg_items_seen args;
     at_items_new := arg_items_new args;
     at_items_updated := arg_items_updated args;
     at_items_duplicate := arg_items_duplicate args;
     at_error_class := arg_error_class args;
     at_error_detail := attempt_detail args;
     at_query_id := arg_query_id args;
     at_parser_version := arg_parser_version args |}.

(** The UPDATE an outcome selects. *)
Definition health_update (outcome : string) (args : AttemptArgs) (now : instant)
    : SourceRow → SourceRow :=
  if mem_str outcome SUCCESS_OUTCOMES then _MARK_SUCCESS now
  else if String.eqb outcome "error" then
    _MARK_FAILURE now
      (take_chars 2000 (or_str (attempt_detail args) (or_str (arg_error_class args) "")))
  else _MARK_POLLED now.

(** One transaction: the insert, which the foreign key guards, then the update. *)
Definition record_attempt (db : NewsDB) (source_code outcome : string) (args : AttemptArgs)
    (now : instant) : result attempt_error NewsDB :=
  raise_if (negb (mem_str outcome ATTEMPT_OUTCOMES)) (UnknownOutcome outcome);;
  match news_sources db !! source_code with
  | None => Err (ForeignKeyViolation source_code)
  | Some r =>
      Ok {| news_sources :=
              <[source_code := health_update outcome args now r]> (news_sources db);
            news_source_policies := news_source_policies db;
            news_collection_attempts :=
              news_collection_attempts db ++ [attempt_row source_code outcome args now] |}
  end.
End Record_attempt.

(** ** The cache *)
Record SourceRegistry : Set := {
  _ttl : float;
  _sources : list NewsSource;
  _loaded_at : option float;
}.

Definition new_registry (ttl_seconds : float) : SourceRegistry :=
  {| _ttl := ttl_seconds; _sources := []; _loaded_at := None |}.

(** [loaded] is what the database returns during this call, [t1] the monotonic
    clock when the age is tested, [t2] when the load is stamped. *)
Definition refresh (reg : SourceRegistry) (loaded : list NewsSource) (t2 : float)
    : SourceRegistry :=
  {| _ttl := _ttl reg; _sources := loaded; _loaded_at := Some t2 |}.

Definition sources (reg : SourceRegistry) (force : bool) (loaded : list NewsSource)
    (t1 t2 : float) : SourceRegistry :=
  if force || match _loaded_at reg with
              | None => true
              | Some l => fgt (fsub t1 l) (_ttl reg)
              end
  then refresh reg loaded t2 else reg.

Definition get (reg : SourceRegistry) (code : string) (force : bool)
    (loaded : list NewsSource) (t1 t2 : float) : option NewsSource * SourceRegistry :=
  let reg := sources reg force loaded t1 t2 in
  (find (λ s, String.eqb (ns_code s) code) (_sources reg), reg).

Definition approved (reg : SourceRegistry) (force : bool) (loaded : list NewsSource)
    (t1 t2 : float) : list NewsSource * SourceRegistry :=
  let reg := sources reg force loaded t1 t2 in
  (List.filter is_fetchable (_sources reg), reg).

Definition due (reg : SourceRegistry) (now : instant) (force : bool)
    (loaded : list NewsSource) (t1 t2 : float) : list NewsSource * SourceRegistry :=
  let '(candidates, reg) := approved reg force loaded t1 t2 in
  (List.filter (λ s, fst (should_attempt s now)) candidates, reg).

(** ** The cooldown in microseconds *)
Definition cooldown_us (n : Z) : Z :=
  Z.min (CIRCUIT_BASE_COOLDOWN_S * 2 ^ Z.max 0 (n - CIRCUIT_TRIP_FAILURES))
    CIRCUIT_MAX_COOLDOWN_S * us_second.

Lemma cooldown_exact n :
  timedelta_seconds (cooldown_seconds n) = cooldown_us n
  ∧ 300 * us_second ≤ cooldown_us n ≤ 21600 * us_second.
Proof.
  unfold cooldown_us, cooldown_seconds, CIRCUIT_BASE_COOLDOWN_S, CIRCUIT_MAX_COOLDOWN_S,
    CIRCUIT_TRIP_FAILURES.
  set (over := Z.max 0 (n - 5)). assert (0 ≤ over) as H0 by lia. clearbody over.
  destruct (Z.le_gt_cases over 6) as [Hle|Hgt].
  - assert (over = 0 ∨ over = 1 ∨ over = 2 ∨ over = 3 ∨ over = 4 ∨ over = 5 ∨ over = 6)
      as [->|[->|[->|[->|[->|[->| ->]]]]]] by lia;
      (split; [vm_compute; reflexivity|vm_compute; split; congruence]).
  - assert (2 ^ 7 ≤ 2 ^ over) by (apply Z.pow_le_mono_r; lia).
    rewrite Z.min_r by lia.
    split; [vm_compute; reflexivity|vm_compute; split; congruence].
Qed.

Lemma should_attempt_true source now :
  fst (should_attempt source now) = true ↔
     approval_state (policy source) = "approved" ∧ enabled source = true
     ∧ (consecutive_failures source < 5
        ∨ ∃ le, last_failure source = Some le
                ∧ le + cooldown_us (consecutive_failures source) ≤ now)
     ∧ (∀ polled, last_polled_at source = Some polled →
          polled + effective_min_interval_seconds source * us_second ≤ now
          ∨ effective_min_interval_seconds source ≤ 0).
Proof.
  destruct (cooldown_exact (consecutive_failures source)) as [Hex _].
  assert (circuit_open (circuit_state source now) = false ↔
    approval_state (policy source) = "approved" ∧ enabled source = true
     ∧ (consecutive_failures source < 5
        ∨ ∃ le, last_failure source = Some le
                ∧ le + cooldown_us (consecutive_failures source) ≤ now)) as Hcs.
  { unfold circuit_state. rewrite Hex. unfold is_approved.
    destruct (String.eqb_spec (approval_state (policy source)) APPROVED) as [Ha|Ha]; simpl;
      [|naive_solver].
    destruct (enabled source); simpl; [|naive_solver].
    destruct (Z.ltb_spec (consecutive_failures source) CIRCUIT_TRIP_FAILURES) as [Hlt|Hge];
      unfold CIRCUIT_TRIP_FAILURES in *; simpl; [naive_solver|].
    destruct (last_failure source) as [le|]; simpl.
    - destruct (Z.ltb_spec now (le + cooldown_us (consecutive_failures source))); simpl;
        (split; [try done|]); intros; [|split_and!; [done..|]; right; by exists le|done].
      destruct_and!. destruct_or!; [lia|]. naive_solver lia.
    - split; [done|]. intros (_&_&[?|(?&?&_)]); [lia|done]. }
  unfold should_attempt.
  destruct (circuit_open (circuit_state source now)).
  - split; [done|]. intros (Ha&He&Hc&_). by destruct Hcs as [_ Hcs]; discriminate Hcs.
  - destruct Hcs as [Hcs _]. specialize (Hcs eq_refl) as (Ha&He&Hc).
    destruct (last_polled_at source) as [polled|]; simpl; [|naive_solver].
    destruct (Z.ltb_spec 0 (effective_min_interval_seconds source)); simpl;
      [|split; [intros _; split_and!; [done..|]; intros; by right|done]].
    destruct (Z.ltb_spec now (polled + effective_min_interval_seconds source * us_second)); simpl;
      (split; [try done|]).
    + intros (_&_&_&Hp). specialize (Hp _ eq_refl). lia.
    + intros _. split_and!; [done..|]. intros ? [= <-]. by left.
    + done.
Qed.

(** The polling decision: a source is polled exactly when its policy is
    approved, it is enabled, its breaker is closed - fewer than five failures in
    a row, or the cooldown since the last error is over - and its courtesy
    interval since the last poll has passed.  The cooldown is between five
    minutes and six hours whatever the number of failures. *)
Theorem should_attempt_iff source now :
  (fst (should_attempt source now) = true ↔
     approval_state (policy source) = "approved" ∧ enabled source = true
     ∧ (consecutive_failures source < 5
        ∨ ∃ le, last_failure source = Some le
                ∧ le + cooldown_us (consecutive_failures source) ≤ now)
     ∧ (∀ polled, last_polled_at source = Some polled →
          polled + effective_min_interval_seconds source * us_second ≤ now
          ∨ effective_min_interval_seconds source ≤ 0))
  ∧ 5 * us_minute ≤ cooldown_us (consecutive_failures source) ≤ 6 * us_hour.
Proof.
  split; [apply should_attempt_true|].
  destruct (cooldown_exact (consecutive_failures source)) as [_ Hb].
  unfold us_hour, us_minute. lia.
Qed.

(** Recording is all or nothing and touches one source.  An unknown outcome
    or an unknown source is refused and nothing is written; otherwise exactly
    one attempt row is appended, no other source and no policy changes, and
    the source's health moves by the outcome: 'ok' and 'empty' reset the
    counter and clear the error, 'error' counts one more and dates it,
    'throttled' and 'skipped' leave the counter alone - and every outcome
    stamps the poll. *)
Theorem record_attempt_spec redact db code outcome args now :
  match record_attempt redact db code outcome args now with
  | Err (UnknownOutcome o) => o = outcome ∧ outcome ∉ ATTEMPT_OUTCOMES
  | Err (ForeignKeyViolation c) => c = code ∧ news_sources db !! code = None
  | Ok db' =>
      outcome ∈ ATTEMPT_OUTCOMES
      ∧ (∃ a, news_collection_attempts db' = news_collection_attempts db ++ [a]
              ∧ at_source_code a = code ∧ at_outcome a = outcome)
      ∧ news_source_policies db' = news_source_policies db
      ∧ (∀ other, other ≠ code → news_sources db' !! other = news_sources db !! other)
      ∧ ∃ r r', news_sources db !! code = Some r ∧ news_sources db' !! code = Some r'
        ∧ sr_last_polled_at r' = Some (aware now 0)
        ∧ sr_enabled r' = sr_enabled r
        ∧ sr_consecutive_failures r' =
            (if decide (outcome ∈ ["ok"; "empty"]) then 0
             else if decide (outcome = "error") then sr_consecutive_failures r + 1
             else sr_consecutive_failures r)
        ∧ (outcome = "error" → sr_last_error_at r' = Some (aware now 0))
        ∧ (outcome ∈ ["ok"; "empty"] →
             sr_last_success_at r' = Some (aware now 0) ∧ sr_last_error r' = None)
  end.
Proof.
  assert (∀ l, mem_str outcome l = true ↔ outcome ∈ l) as Hmem.
  { intros l. unfold mem_str. rewrite existsb_exists. setoid_rewrite String.eqb_eq.
    setoid_rewrite <- list_elem_of_In. naive_solver. }
  unfold record_attempt. destruct (mem_str outcome ATTEMPT_OUTCOMES) eqn:Hout; simpl.
  2: { split; [done|]. rewrite <- Hmem. by rewrite Hout. }
  destruct (news_sources db !! code) as [r|] eqn:Hr; simpl; [|done].
  split_and!; [by apply Hmem|by eexists|done|intros other Hne; by apply lookup_insert_ne|].
  exists r, (health_update redact outcome args now r).
  rewrite lookup_insert_eq. unfold health_update.
  destruct (mem_str outcome SUCCESS_OUTCOMES) eqn:Hs.
  - pose proof (proj1 (Hmem _) Hs) as Hin. unfold SUCCESS_OUTCOMES in Hin.
    rewrite decide_True by done. split_and!; try done. intros ->. by vm_compute in Hs.
  - assert (outcome ∉ ["ok"; "empty"]) as Hnin.
    { rewrite <- (Hmem ["ok"; "empty"]). unfold SUCCESS_OUTCOMES in Hs. by rewrite Hs. }
    rewrite decide_False by done.
    destruct (String.eqb_spec outcome "error") as [->|Hne].
    + rewrite decide_True by done. by split_and!.
    + rewrite decide_False by done. by split_and!.
Qed.

(** ** The interface *)
#[export] Instance news_breaker (error : string) : Breaker (SourceRow * PolicyRow) := {
  may_try now rp := fst (should_attempt (_row_to_source rp.1 rp.2) now);
  after_failure now rp := (_MARK_FAILURE now error rp.1, rp.2);
  after_success now rp := (_MARK_SUCCESS now rp.1, rp.2);
  failures rp := sr_consecutive_failures rp.1;
}.

#[export] Instance news_breaker_laws error :
  @BreakerLaws (SourceRow * PolicyRow) (news_breaker error) CIRCUIT_TRIP_FAILURES cooldown_us.
Proof.
  split; [done|done|done| |].
  - intros n _. destruct (cooldown_exact n) as [_ Hb].
    change (cooldown_us CIRCUIT_TRIP_FAILURES) with (300 * us_second). lia.
  - intros t t' [r p]. simpl. intros Hf Ht (_&_&Hc&_)%should_attempt_true.
    unfold CIRCUIT_TRIP_FAILURES in Hf. simpl in Hc.
    destruct Hc as [Hc|(le&[= <-]&Hc)]; lia.
Qed.

(** What an outage can cost: a source that fails every time it is polled,
    by a loop that asks [should_attempt] first, is polled at most five times
    plus once per five minutes of the window, however often the loop runs. *)
Theorem news_outage_bounded error rp ts rp' t0 t1 :
  @failing_run _ (news_breaker error) rp ts rp' →
  ascending id ts → Forall (λ t, t0 ≤ t ≤ t1) ts → t0 ≤ t1 →
  0 ≤ sr_consecutive_failures rp.1 →
  Z.of_nat (length ts) ≤ 5 + (t1 - t0) / (300 * us_second)
  ∧ sr_consecutive_failures rp'.1 = sr_consecutive_failures rp.1 + Z.of_nat (length ts).
Proof.
  intros Hrun Hasc Hwin Ht Hf. split.
  - change (300 * us_second) with (cooldown_us CIRCUIT_TRIP_FAILURES).
    by apply (failing_run_bound (Breaker0 := news_breaker error) CIRCUIT_TRIP_FAILURES
                cooldown_us rp ts rp').
  - by apply (failing_run_failures (Breaker0 := news_breaker error) CIRCUIT_TRIP_FAILURES
                cooldown_us rp ts rp').
Qed.

Definition a_source_row (code : string) (is_enabled : bool) : SourceRow :=
  {| sr_code := code; sr_name := code; sr_feed_url := "https://example.org/rss";
     sr_homepage_url := ""; sr_kind := "rss"; sr_jurisdiction := "us"; sr_language := "en";
     sr_enabled := is_enabled; sr_policy_status := "approved"; sr_quota_per_day := None;
     sr_min_interval_seconds := 60; sr_last_polled_at := None; sr_last_success_at := None;
     sr_last_error_at := None; sr_last_error := None; sr_consecutive_failures := 0;
     sr_updated_at := naive 0 |}.

Definition a_policy_row (state : string) : PolicyRow :=
  {| pr_access_method := "rss"; pr_auth_type := "none"; pr_approval_state := state;
     pr_user_agent_policy := "honest"; pr_backfill_allowed := false;
     pr_store_full_body := false; pr_attribution_required := true;
     pr_rate_limit_per_day := None; pr_min_interval_seconds := 120; pr_policy_note := "";
     pr_reviewed_at := None; pr_reviewed_by := "" |}.

(** A loop that asks every two minutes about a source that is down. *)
Definition down_minutes : list Z :=
  (λ k, k * us_minute) <$> [0; 2; 4; 6; 8; 14; 24; 44].

Lemma news_outage_bounded_witness :
  let rp := (a_source_row "fed_press" true, a_policy_row "approved") in
  let rp' := (foldl (λ r t, _MARK_FAILURE t "HTTP 503" r) rp.1 down_minutes, rp.2) in
  Z.of_nat (length down_minutes) ≤ 5 + (44 * us_minute - 0) / (300 * us_second)
  ∧ sr_consecutive_failures rp'.1 = sr_consecutive_failures rp.1 + Z.of_nat (length down_minutes).
Proof.
  apply (news_outage_bounded "HTTP 503"); [| |by_decide|done|done].
  - repeat (apply run_cons; [vm_compute; reflexivity|]). apply run_nil.
  - repeat constructor; vm_compute; congruence.
Defined.

Lemma health_update_polled redact outcome args now r :
  sr_last_polled_at (health_update redact outcome args now r) = Some (aware now 0)
  ∧ (outcome = "error" →
     sr_last_error_at (health_update redact outcome args now r) = Some (aware now 0)).
Proof.
  unfold health_update. destruct (mem_str outcome SUCCESS_OUTCOMES) eqn:Hs.
  - split; [done|]. intros ->. discriminate Hs.
  - destruct (String.eqb_spec outcome "error"); by split.
Qed.

(** No re-poll on the next tick.  After an attempt is recorded, whatever its
    outcome, the source is not polled again before the longer of its own and
    its policy's minimum interval; and after a recorded error that makes five
    failures in a row or more, not before the cooldown for that many. *)
Theorem recorded_attempt_delays_next redact db code outcome args now db' r' p t :
  record_attempt redact db code outcome args now = Ok db' →
  news_sources db' !! code = Some r' →
  fst (should_attempt (_row_to_source r' p) t) = true →
  (let interval := Z.max (sr_min_interval_seconds r') (pr_min_interval_seconds p) in
   0 < interval → now + interval * us_second ≤ t)
  ∧ (outcome = "error" → 5 ≤ sr_consecutive_failures r' →
     now + cooldown_us (sr_consecutive_failures r') ≤ t).
Proof.
  unfold record_attempt. intros Hrec Hr' (_&_&Hc&Hp)%should_attempt_true.
  apply bind_Ok in Hrec as (u&_&Hrec).
  destruct (news_sources db !! code) as [r|] eqn:Hr; [|done].
  injection Hrec as <-. simpl in Hr'. rewrite lookup_insert_eq in Hr'.
  injection Hr' as <-.
  destruct (health_update_polled redact outcome args now r) as [Hpoll Herr].
  split.
  - cbv zeta. intros Hi. specialize (Hp now). simpl in Hp. rewrite Hpoll in Hp. simpl in Hp.
    rewrite Z.sub_0_r in Hp. destruct (Hp eq_refl) as [H|H]; [exact H|].
    unfold effective_min_interval_seconds in H. simpl in H. lia.
  - intros Ho Hf. specialize (Herr Ho). simpl in Hc.
    destruct Hc as [Hc|(le&Hle&Hc)]; [lia|].
    unfold last_failure in Hle. simpl in Hle. rewrite Herr in Hle. simpl in Hle.
    injection Hle as <-. lia.
Qed.

Definition no_args : AttemptArgs :=
  {| arg_started_at := 0; arg_finished_at := None; arg_http_status := Some 503;
     arg_bytes_received := None; arg_items_seen := 0; arg_items_new := 0;
     arg_items_updated := 0; arg_items_duplicate := 0; arg_error_class := Some "FetchError";
     arg_error_detail := None; arg_query_id := None; arg_parser_version := "" |}.

Definition tripping_row : SourceRow :=
  Nat.iter 4 (_MARK_FAILURE 0 "HTTP 503") (a_source_row "fed_press" true).
Definition a_db : NewsDB :=
  {| news_sources := {["fed_press" := tripping_row]};
     news_source_policies := {["fed_press" := a_policy_row "approved"]};
     news_collection_attempts := [] |}.

Lemma recorded_attempt_delays_next_witness :
  let r' := _MARK_FAILURE us_minute "FetchError" tripping_row in
  let p := a_policy_row "approved" in
  (let interval := Z.max (sr_min_interval_seconds r') (pr_min_interval_seconds p) in
   0 < interval → us_minute + interval * us_second ≤ 6 * us_minute)
  ∧ ("error" = "error" → 5 ≤ sr_consecutive_failures r' →
     us_minute + cooldown_us (sr_consecutive_failures r') ≤ 6 * us_minute).
Proof.
  apply (recorded_attempt_delays_next (λ s, s) a_db "fed_press" "error" no_args us_minute
           {| news_sources := <["fed_press" := _MARK_FAILURE us_minute "FetchError" tripping_row]>
                                (news_sources a_db);
              news_source_policies := news_source_policies a_db;
              news_collection_attempts :=
                [attempt_row (λ s, s) "fed_press" "error" no_args us_minute] |});
    vm_compute; reflexivity.
Defined.

(** ** The cache *)

(** Registries reachable by calls; [current t] is what the database returns when
    read at the monotonic time [t], and a load is stamped after it. *)
Inductive reachable (current : float → list NewsSource) : SourceRegistry → Prop :=
| reach_new ttl : reachable current (new_registry ttl)
| reach_sources reg force t1 tl t2 :
    reachable current reg → flt t2 tl = false →
    reachable current (sources reg force (current tl) t1 t2).

Lemma reachable_snapshot current reg l :
  reachable current reg → _loaded_at reg = Some l →
  ∃ t, _sources reg = current t ∧ flt l t = false.
Proof.
  intros Hreach. revert l. induction Hreach as [ttl|reg force t1 tl t2 _ IH Ht]; intros l; [done|].
  unfold sources. destruct (force || _); [|apply IH].
  simpl. intros [= <-]. by exists tl.
Qed.

(** [due] polls nobody it may not.  Every source it returns was enabled,
    policy-approved and due by breaker and cadence in a reading of the database
    that is either made during the call or no older than the cache's
    time-to-live; and every such source of that reading is returned.  So a
    source disabled in the database leaves the rota within one time-to-live. *)
Theorem due_within_ttl current reg now force t1 tl t2 :
  reachable current reg →
  let polled := fst (due reg now force (current tl) t1 t2) in
  ∃ t, (t = tl ∨ force = false ∧ ∃ l, _loaded_at reg = Some l
                  ∧ flt l t = false ∧ fgt (fsub t1 l) (_ttl reg) = false)
    ∧ ∀ s, s ∈ polled ↔
        s ∈ current t ∧ enabled s = true ∧ approval_state (policy s) = "approved"
        ∧ fst (should_attempt s now) = true.
Proof.
  intros Hreach polled.
  assert (∀ l s, s ∈ List.filter (λ s, fst (should_attempt s now)) (List.filter is_fetchable l)
    ↔ s ∈ l ∧ enabled s = true ∧ approval_state (policy s) = "approved"
      ∧ fst (should_attempt s now) = true) as Hin.
  { intros l s. rewrite !elem_of_bool_filter. unfold is_fetchable, is_approved.
    rewrite andb_true_iff, String.eqb_eq. unfold APPROVED. tauto. }
  unfold polled, due, approved, sources.
  destruct force; simpl; [exists tl; split; [by left|]; intros s; apply Hin|].
  destruct (_loaded_at reg) as [l|] eqn:Hl; simpl;
    [|exists tl; split; [by left|]; intros s; apply Hin].
  destruct (fgt (fsub t1 l) (_ttl reg)) eqn:Hage; simpl;
    [exists tl; split; [by left|]; intros s; apply Hin|].
  destruct (reachable_snapshot _ _ _ Hreach Hl) as (t&->&Ht).
  exists t. split; [|intros s; apply Hin].
  right. split; [done|]. by exists l.
Qed.

Definition a_current (t : float) : list NewsSource :=
  [_row_to_source (a_source_row "fed_press" (flt t fhundred)) (a_policy_row "approved");
   _row_to_source (a_source_row "cnn" true) (a_policy_row "rejected")].

Lemma due_within_ttl_witness :
  let reg := sources (new_registry DEFAULT_CACHE_TTL_S) false (a_current fone) fone fone in
  let polled := fst (due reg 0 false (a_current (float_of_Z 400)) (float_of_Z 200)
                       (float_of_Z 400)) in
  ∃ t, (t = float_of_Z 400 ∨ false = false ∧ ∃ l, _loaded_at reg = Some l
                  ∧ flt l t = false ∧ fgt (fsub (float_of_Z 200) l) (_ttl reg) = false)
    ∧ ∀ s, s ∈ polled ↔
        s ∈ a_current t ∧ enabled s = true ∧ approval_state (policy s) = "approved"
        ∧ fst (should_attempt s 0) = true.
Proof.
  apply (due_within_ttl a_current).
  apply reach_sources; [apply reach_new|reflexivity].
Defined.

(** The two ways to select the sources that may be fetched agree: the WHERE
    clause of [approved_sources] and the property [is_fetchable] applied to
    every loaded source give the same list, in the same order. *)
Theorem approved_sources_filter collate_lt db :
  approved_sources collate_lt db = List.filter is_fetchable (load_sources collate_lt db).
Proof.
  unfold approved_sources, load_sources.
  induction (joined collate_lt db) as [|[r p] l IH]; [done|]. simpl.
  assert (is_fetchable (_row_to_source r p)
          = String.eqb (pr_approval_state p) APPROVED && sr_enabled r) as -> by apply andb_comm.
  destruct (_ && _); simpl; unfold fmap in IH; by rewrite <- IH.
Qed.
