(* ===== verification/NewsText.v ===== *)
(** * Text identity of news articles

    [app/news/dedupe.py]: normalised text, canonical URLs, content hashes,
    title similarity and the search for a near duplicate; with
    [entities.overlap] of [app/news/entities.py].

    A Python string is a list of code points.  What the code takes from the
    standard library's tables and algorithms (the Unicode database behind [\w],
    [\s], [casefold] and [lower], [html.unescape], [urllib.parse], SHA-256 and
    [difflib]'s matcher) is the class [PyLib]; the regular expressions, the token
    sets and the parameter filter are definitions. *)
From S2P Require Import Prelude PyFloat PyText.
From Stdlib Require Import Ascii String.
Local Open Scope string_scope.
Local Open Scope list_scope.
Local Open Scope Z_scope.

Abbreviation text := (list Z).

(** A literal of the source. *)
Definition txt (s : string) : text := PyText.code <$> list_ascii_of_string s.

(** [urlsplit(url)]; reading [port] can raise. *)
Record SplitResult : Type := {
  scheme : text;
  hostname : option text;
  port : result pyerr (option Z);
  url_path : text;
  url_query : text;
}.

Class PyLib := {
  py_space : Z → bool;
  word_char : Z → bool;
  casefold : text → text;
  lower : text → text;
  html_unescape : text → text;
  urlsplit : text → result pyerr SplitResult;
  parse_qsl : text → list (text * text);
  urlencode : list (text * text) → text;
  (** scheme, netloc, path, query, fragment *)
  urlunsplit : text → text → text → text → text → text;
  sha256_hex : text → text;
  (** [SequenceMatcher(None, a, b).ratio()] *)
  sequence_ratio : text → text → float;
}.

(** ** Strings as lists of code points *)
Fixpoint text_lt (a b : text) : bool :=
  match a, b with
  | _, [] => false
  | [], _ :: _ => true
  | x :: a, y :: b => if x =? y then text_lt a b else x <? y
  end.

Definition pair_lt (p q : text * text) : bool :=
  if bool_decide (p.1 = q.1) then text_lt p.2 q.2 else text_lt p.1 q.1.

Fixpoint text_starts (prefix s : text) : bool :=
  match prefix, s with
  | [], _ => true
  | x :: prefix, y :: s => (x =? y) && text_starts prefix s
  | _ :: _, [] => false
  end.

Fixpoint drop_while (p : Z → bool) (s : text) : text :=
  match s with
  | [] => []
  | c :: s' => if p c then drop_while p s' else s
  end.

Definition strip_of (p : Z → bool) (s : text) : text :=
  reverse (drop_while p (reverse (drop_while p s))).

Fixpoint take_until (c : Z) (s : text) : text * text :=
  match s with
  | [] => ([], [])
  | x :: s' => if x =? c then ([], s) else let '(a, b) := take_until c s' in (x :: a, b)
  end.

(** [" ".join(tokens)] *)
Fixpoint join (sep : text) (tokens : list text) : text :=
  match tokens with
  | [] => []
  | [t] => t
  | t :: tokens => t ++ sep ++ join sep tokens
  end.

Definition SPACE : Z := 32.

(** [re.sub(r"<[^>]+>", " ", s)]: from a ["<"], at least one character other
    than [">"] and then a [">"]. *)
Fixpoint sub_tags (fuel : nat) (s : text) : text :=
  match fuel with
  | O => s
  | S fuel =>
      match s with
      | [] => []
      | c :: s' =>
          if c =? 60 then
            match take_until 62 s' with
            | (_ :: _, _ :: tail) => SPACE :: sub_tags fuel tail
            | _ => c :: sub_tags fuel s'
            end
          else c :: sub_tags fuel s'
      end
  end.

Definition TRACKING_PREFIXES : list text := [txt "utm_"].
Definition TRACKING_PARAMS : list text :=
  txt <$> ["fbclid"; "gclid"; "dclid"; "msclkid"; "igshid"; "mc_cid"; "mc_eid"; "ref";
           "ref_src"; "referrer"; "src"; "source"; "cmpid"; "ncid"; "s_cid"; "spm";
           "at_medium"; "at_campaign"].
Definition DEFAULT_PORTS : list (text * text) :=
  [(txt "http", txt "80"); (txt "https", txt "443")].
Definition STOPWORDS : list text :=
  txt <$> ["a"; "an"; "and"; "as"; "at"; "by"; "for"; "from"; "in"; "of"; "on"; "or";
           "the"; "to"; "with"].
Definition NEAR_DUPLICATE_THRESHOLD : float := flit 85 2.

Fixpoint lookup_text (k : text) (d : list (text * text)) : option text :=
  match d with
  | [] => None
  | (k', v) :: d => if bool_decide (k = k') then Some v else lookup_text k d
  end.

Definition in_list (t : text) (l : list text) : bool := bool_decide (t ∈ l).

Section Dedupe.
Context `{PyLib}.

(** [re.sub(r"\s+", " ", s)]; [in_run] is set inside a run of white space. *)
Fixpoint sub_spaces (in_run : bool) (s : text) : text :=
  match s with
  | [] => []
  | c :: s =>
      if py_space c then (if in_run then [] else [SPACE]) ++ sub_spaces true s
      else c :: sub_spaces false s
  end.

(** [re.sub(r"[^\w\s]", " ", s)] *)
Definition sub_non_word (s : text) : text :=
  (λ c, if word_char c || py_space c then c else SPACE) <$> s.

Definition normalize_text (value : text) : text :=
  match value with
  | [] => []
  | _ =>
      let t := html_unescape value in
      casefold (strip_of py_space (sub_spaces false (sub_non_word (sub_tags (S (List.length t)) t))))
  end.

(** [s.split()]: maximal runs of non-space characters; [cur] is the current one,
    reversed. *)
Fixpoint split_words (cur : text) (s : text) : list text :=
  match s with
  | [] => match cur with [] => [] | _ => [reverse cur] end
  | c :: s =>
      if py_space c then
        match cur with [] => split_words [] s | _ => reverse cur :: split_words [] s end
      else split_words (c :: cur) s
  end.

Definition tokens (title : text) : list text :=
  List.filter (λ t, negb (in_list t STOPWORDS)) (split_words [] (normalize_text title)).

Definition title_tokens (title : text) : gset text := list_to_set (tokens title).
Definition normalize_title (title : text) : text := join [SPACE] (tokens title).

Definition is_tracking (key : text) : bool :=
  in_list (lower key) TRACKING_PARAMS || existsb (λ p, text_starts p (lower key)) TRACKING_PREFIXES.

Definition is_slash (c : Z) : bool := c =? 47.

(** The host, and the port unless it is the scheme's own. *)
Definition netloc_of (scheme host : text) (port : option Z) : text :=
  match port with
  | Some p =>
      let digits := txt (str_of_Z p) in
      if bool_decide (lookup_text scheme DEFAULT_PORTS = Some digits) then host
      else host ++ txt ":" ++ digits
  | None => host
  end.

Definition host_of (parts : SplitResult) : text :=
  let host := lower (default [] (hostname parts)) in
  if text_starts (txt "www.") host then drop 4 host else host.

Definition path_of (path : text) : text :=
  let path :=
    if (1 <? List.length path)%nat && bool_decide (last path = Some 47)
    then reverse (drop_while is_slash (reverse path)) else path in
  if bool_decide (path = [47]) then [] else path.

Definition kept_params (query : text) : list (text * text) :=
  List.filter (λ kv, negb (is_tracking kv.1)) (parse_qsl query).

Definition canonical_parts (parts : SplitResult) : result pyerr text :=
  let scheme := lower (scheme parts) in
  p ← port parts;
  Ok (urlunsplit scheme (netloc_of scheme (host_of parts) p) (path_of (url_path parts))
        (urlencode (py_sorted pair_lt (kept_params (url_query parts)))) []).

Definition canonical_url (url : text) : result pyerr text :=
  let raw := strip_of py_space url in
  match raw with
  | [] => Ok []
  | _ =>
      parts ← urlsplit raw;
      parts ← match scheme parts with
              | [] => urlsplit (txt "https://" ++ drop_while is_slash raw)
              | _ => Ok parts
              end;
      canonical_parts parts
  end.

Definition content_hash (title summary body : text) : text :=
  sha256_hex (join [10] (normalize_text <$> [title; summary; body])).

Definition jaccard (a b : gset text) : float :=
  if (size (a ∪ b) =? 0)%nat then fzero
  else int_true_div (Z.of_nat (size (a ∩ b))) (Z.of_nat (size (a ∪ b))).

Definition title_similarity (left right : text) : float :=
  let a := normalize_title left in
  let b := normalize_title right in
  if bool_decide (a = []) || bool_decide (b = []) then fzero
  else if bool_decide (a = b) then fone
  else fmax (sequence_ratio a b) (jaccard (title_tokens left) (title_tokens right)).

Definition is_near_duplicate (left right : text) (threshold : float) : bool :=
  fge (title_similarity left right) threshold.

(** One step of the loop of [find_near_duplicate]. *)
Definition nearer {K} (title : text) (threshold : float) (best : option K * float)
    (candidate : K * text) : option K * float :=
  let score := title_similarity title candidate.2 in
  if fge score threshold && fgt score best.2 then (Some candidate.1, score) else best.

Definition find_near_duplicate {K} (title : text) (candidates : list (K * text))
    (threshold : float) : option K :=
  fst (foldl (nearer title threshold) (None, fzero) candidates).
End Dedupe.

(** [entities.overlap] *)
Definition overlap (a b : gset text) : float :=
  if bool_decide (a = ∅) || bool_decide (b = ∅) then fzero
  else int_true_div (Z.of_nat (size (a ∩ b))) (Z.of_nat (size (a ∪ b))).

(** ** The fuel of [sub_tags] is enough *)
Lemma take_until_length c s :
  (List.length (take_until c s).1 + List.length (take_until c s).2)%nat = List.length s.
Proof.
  induction s as [|x s IH]; simpl; [done|]. destruct (x =? c); [done|].
  destruct (take_until c s) as [a b]. simpl in *. lia.
Qed.

Lemma sub_tags_fuel n m s :
  (List.length s < n)%nat → (List.length s < m)%nat → sub_tags n s = sub_tags m s.
Proof.
  revert m s. induction n as [|n IH]; intros [|m] s Hn Hm; [lia..|].
  destruct s as [|c s]; [done|]. simpl in *.
  pose proof (take_until_length 62 s) as Hl.
  destruct (c =? 60); [|by rewrite (IH m) by lia].
  destruct (take_until 62 s) as [[|a body] [|t tail]]; simpl in Hl; by rewrite (IH m) by lia.
Qed.

(** ** Orders *)
Lemma text_lt_irrefl a : text_lt a a = false.
Proof. induction a as [|x a IH]; simpl; [done|]. by rewrite Z.eqb_refl. Qed.

Lemma text_lt_total a b : text_lt a b = false → text_lt b a = false → a = b.
Proof.
  revert b. induction a as [|x a IH]; intros [|y b]; simpl; try done.
  rewrite (Z.eqb_sym y x). destruct (Z.eqb_spec x y) as [->|Hne].
  - intros H1 H2. f_equal. by apply IH.
  - rewrite !Z.ltb_ge. lia.
Qed.

#[export] Instance text_lt_weak_order : WeakOrder text_lt.
Proof.
  split.
  - intros a. induction a as [|x a IH]; intros [|y b]; simpl; try done.
    rewrite (Z.eqb_sym y x). destruct (Z.eqb_spec x y) as [->|Hne]; [apply IH|].
    rewrite Z.ltb_lt, Z.ltb_ge. lia.
  - intros a. induction a as [|x a IH]; intros [|y b] [|z c]; simpl; try done.
    destruct (Z.eqb_spec x y) as [->|Hxy], (Z.eqb_spec y z) as [->|Hyz]; try done.
    + apply IH.
    + rewrite !Z.ltb_ge. intros. destruct (Z.eqb_spec x z); [lia|]. by apply Z.ltb_ge.
    + rewrite !Z.ltb_ge. intros. destruct (Z.eqb_spec x z) as [->|]; [lia|]. apply Z.ltb_ge. lia.
Qed.

#[export] Instance pair_lt_weak_order : WeakOrder pair_lt.
Proof.
  pose proof (key_weak_order (@fst text text) text_lt _).
  pose proof (key_weak_order (@snd text text) text_lt _).
  apply (lex_weak_order (λ p q, text_lt p.1 q.1) (λ p q, bool_decide (p.1 = q.1))
           (λ p q, text_lt p.2 q.2)).
  intros x y. destruct (decide (x.1 = y.1)) as [->|Hne].
  - by rewrite bool_decide_true, text_lt_irrefl.
  - rewrite bool_decide_false by done. destruct (text_lt x.1 y.1) eqn:H1; [done|].
    destruct (text_lt y.1 x.1) eqn:H2; [done|]. destruct Hne. by apply text_lt_total.
Qed.

Lemma pair_lt_total p q : pair_lt p q = false → pair_lt q p = false → p = q.
Proof.
  destruct p as [a1 a2], q as [b1 b2]. unfold pair_lt. simpl.
  destruct (decide (a1 = b1)) as [->|Hne].
  - rewrite !bool_decide_true by done. intros H1 H2. f_equal. by apply text_lt_total.
  - rewrite !bool_decide_false by done. intros H1 H2. destruct Hne. by apply text_lt_total.
Qed.

(** ** Canonical URLs *)
Lemma drop_while_app p s k :
  Forall (λ c, p c = true) s → drop_while p (s ++ k) = drop_while p k.
Proof. induction 1 as [|c s Hc _ IH]; simpl; [done|]. by rewrite Hc. Qed.

Lemma path_of_trailing_slash path : path_of (path ++ [47]) = path_of path.
Proof.
  unfold path_of. rewrite last_snoc, length_app, reverse_app. simpl.
  destruct path as [|c [|d path]]; [done| |].
  - simpl. destruct (decide (c = 47)) as [->|Hne]; [done|].
    cbn. unfold is_slash. rewrite (proj2 (Z.eqb_neq c 47)) by done. change (reverse [c]) with [c].
    rewrite !bool_decide_false by congruence. done.
  - replace (1 <? List.length (c :: d :: path) + 1)%nat with true by (symmetry; apply Nat.ltb_lt; simpl; lia).
    replace (1 <? List.length (c :: d :: path))%nat with true by (symmetry; apply Nat.ltb_lt; simpl; lia).
    cbn [andb]. set (p := c :: d :: path).
    destruct (bool_decide (last p = Some 47)) eqn:Hl; [done|].
    apply bool_decide_eq_false in Hl.
    assert (drop_while is_slash (reverse p) = reverse p) as ->; [|by rewrite reverse_involutive].
    destruct (reverse p) as [|x r] eqn:Hr; [done|]. simpl. unfold is_slash.
    destruct (Z.eqb_spec x 47) as [->|]; [|done]. destruct Hl.
    rewrite <- (reverse_involutive p), Hr, reverse_cons. apply last_snoc.
Qed.

Section DedupeLaws.
Context `{PyLib}.

Lemma kept_params_filter l1 kv l2 q q' :
  is_tracking kv.1 = true → parse_qsl q = l1 ++ kv :: l2 → parse_qsl q' ≡ₚ l1 ++ l2 →
  kept_params q' ≡ₚ kept_params q.
Proof.
  intros Ht Hq Hq'. unfold kept_params. rewrite Hq.
  rewrite (Permutation_bool_filter _ _ _ Hq'), !List.filter_app. simpl. by rewrite Ht.
Qed.

(** What identifies an address: a tracking parameter, the order of the
    others, a trailing slash, a leading "www." of the (lower-cased) host and the
    scheme's own port spelled out make no difference to the canonical URL. *)
Theorem canonical_url_identity parts parts' l1 kv l2 :
  is_tracking kv.1 = true →
  parse_qsl (url_query parts) = l1 ++ kv :: l2 → parse_qsl (url_query parts') ≡ₚ l1 ++ l2 →
  lower (scheme parts') = lower (scheme parts) →
  (∀ host, hostname parts' = Some host → text_starts (txt "www.") (lower host) = false) →
  lower (default [] (hostname parts)) = txt "www." ++ lower (default [] (hostname parts')) →
  url_path parts = url_path parts' ++ txt "/" →
  port parts' = Ok None →
  (∃ p, port parts = Ok (Some p)
        ∧ lookup_text (lower (scheme parts)) DEFAULT_PORTS = Some (txt (str_of_Z p))) →
  lower [] = [] →
  canonical_parts parts = canonical_parts parts'.
Proof.
  intros Ht Hq Hq' Hsch Hno Hhost Hpath Hport' (p&Hport&Hdef) Hnil.
  unfold canonical_parts. rewrite Hport, Hport', Hsch. cbn [mbind result_bind].
  rewrite Hpath. change (txt "/") with [47]. rewrite path_of_trailing_slash.
  rewrite (py_sorted_perm_eq pair_lt (kept_params (url_query parts'))
             (kept_params (url_query parts)));
    [|intros ? ? _ _; apply pair_lt_total|by eapply kept_params_filter].
  assert (host_of parts = lower (default [] (hostname parts'))) as Hhosts.
  { unfold host_of. by rewrite Hhost. }
  assert (host_of parts' = lower (default [] (hostname parts'))) as Hhosts'.
  { unfold host_of. destruct (hostname parts') as [h|].
    - change (default [] (Some h)) with h. by rewrite (Hno h).
    - change (default [] (@None text)) with (@nil Z). by rewrite Hnil. }
  unfold netloc_of. rewrite Hdef, bool_decide_true by done. by rewrite Hhosts, Hhosts'.
Qed.

(** The best of the candidates seen so far. *)
Definition best_of {K} (title : text) (threshold : float) (seen : list (K * text))
    (best : option K * float) : Prop :=
  match best.1 with
  | Some k =>
      ∃ l1 t l2, seen = l1 ++ (k, t) :: l2
      ∧ best.2 = title_similarity title t
      ∧ fge best.2 threshold = true ∧ fgt best.2 fzero = true
      ∧ (∀ c, c ∈ l1 → fge (title_similarity title c.2) threshold = true →
           fgt best.2 (title_similarity title c.2) = true)
      ∧ (∀ c, c ∈ l2 → fge (title_similarity title c.2) threshold = true →
           fgt (title_similarity title c.2) best.2 = false)
  | None =>
      best.2 = fzero
      ∧ ∀ c, c ∈ seen → fge (title_similarity title c.2) threshold = true →
          fgt (title_similarity title c.2) fzero = false
  end.

Lemma not_above_trans x y z :
  is_nan x = false → is_nan y = false → fgt x y = false → fgt z y = true → fgt z x = true.
Proof.
  unfold fgt. intros Hx Hy Hle Hlt. apply (fle_flt_trans x y z); [|done].
  by rewrite fle_flt, Hle.
Qed.

Lemma fge_score x t : fge x t = true → is_nan x = false.
Proof. unfold fge. intros Hge. by apply fle_not_nan in Hge as [_ Hx]. Qed.

Lemma best_of_keep {K} title thr (seen : list (K * text)) best c :
  best_of title thr seen best →
  (fge (title_similarity title c.2) thr = true → fgt (title_similarity title c.2) best.2 = false) →
  best_of title thr (seen ++ [c]) best.
Proof.
  unfold best_of. destruct best as [[k0|] s0]; cbn [fst snd]; intros Hbest Hc.
  - destruct Hbest as (l1&t0&l2&->&->&?&?&?&H2). exists l1, t0, (l2 ++ [c]).
    split_and!; [by rewrite <- app_assoc|done..|].
    intros c' [Hc'|Hc'%list_elem_of_singleton]%elem_of_app; [by apply H2|subst; by apply Hc].
  - destruct Hbest as [-> Hnone]. split; [done|].
    intros c' [Hc'|Hc'%list_elem_of_singleton]%elem_of_app; [by apply Hnone|subst; by apply Hc].
Qed.

Lemma best_of_step {K} title thr (seen : list (K * text)) best c :
  best_of title thr seen best → best_of title thr (seen ++ [c]) (nearer title thr best c).
Proof.
  intros Hbest. unfold nearer.
  destruct (fge (title_similarity title c.2) thr) eqn:Hq;
    destruct (fgt (title_similarity title c.2) best.2) eqn:Hgt; cbn [andb].
  - destruct c as [k t]. exists seen, t, []. cbn [fst snd] in *.
    unfold best_of in Hbest. destruct best as [[k0|] s0]; cbn [fst snd] in *.
    + destruct Hbest as (l1&t0&l2&->&->&Hge0&Hpos&H1&H2).
      assert (is_nan (title_similarity title t0) = false) as Hn0 by by eapply fge_score.
      split_and!; [done|done|done| | |by intros ? ?%elem_of_nil].
      * unfold fgt in *. by eapply flt_trans.
      * intros c Hc Hqc. apply elem_of_app in Hc as [Hc|[->|Hc]%elem_of_cons].
        -- unfold fgt in *. eapply flt_trans; [by apply H1|done].
        -- done.
        -- apply (not_above_trans _ (title_similarity title t0)); [by eapply fge_score|done| |done].
           by apply H2.
    + destruct Hbest as [-> Hnone]. split_and!; [done|done|done|done| |by intros ? ?%elem_of_nil].
      intros c Hc Hqc. apply (not_above_trans _ fzero); [by eapply fge_score|done| |done].
      by apply Hnone.
  - apply best_of_keep; [done|congruence].
  - apply best_of_keep; [done|congruence].
  - apply best_of_keep; [done|congruence].
Qed.

(** The near duplicate found is the best one: at or above the threshold,
    more similar than every earlier candidate that qualifies and at least as
    similar as every later one; none is returned only if no candidate
    qualifies with a positive similarity. *)
Theorem find_near_duplicate_best {K} title (candidates : list (K * text)) threshold :
  match find_near_duplicate title candidates threshold with
  | Some k =>
      ∃ before t after, candidates = before ++ (k, t) :: after
      ∧ fge (title_similarity title t) threshold = true
      ∧ (∀ c, c ∈ before → fge (title_similarity title c.2) threshold = true →
           fgt (title_similarity title t) (title_similarity title c.2) = true)
      ∧ (∀ c, c ∈ after → fge (title_similarity title c.2) threshold = true →
           fgt (title_similarity title c.2) (title_similarity title t) = false)
  | None =>
      ∀ c, c ∈ candidates → fge (title_similarity title c.2) threshold = true →
        fgt (title_similarity title c.2) fzero = false
  end.
Proof.
  assert (best_of title threshold candidates
            (foldl (nearer title threshold) (None, fzero) candidates)) as Hbest.
  { induction candidates as [|c seen IH] using rev_ind.
    - split; [done|]. by intros ? ?%elem_of_nil.
    - rewrite foldl_snoc. by apply best_of_step. }
  unfold find_near_duplicate, best_of in *.
  destruct (foldl _ _ _) as [[k|] s]; cbn [fst snd] in *.
  - destruct Hbest as (l1&t&l2&->&->&Hge&_&H1&H2). by exists l1, t, l2.
  - by destruct Hbest.
Qed.
End DedupeLaws.

(** ** An ASCII instance, for concrete evaluation *)
Definition ascii_lower (c : Z) : Z := if (65 <=? c) && (c <=? 90) then c + 32 else c.

Fixpoint split_on (c : Z) (s : text) : list text :=
  match s with
  | [] => [[]]
  | x :: s =>
      match split_on c s with
      | [] => []
      | p :: ps => if x =? c then [] :: p :: ps else (x :: p) :: ps
      end
  end.

#[export] Instance ascii_lib : PyLib := {
  py_space c := (9 <=? c) && (c <=? 13) || (28 <=? c) && (c <=? 32);
  word_char c := (48 <=? c) && (c <=? 57) || (65 <=? c) && (c <=? 90) || (97 <=? c) && (c <=? 122)
                 || (c =? 95) || (128 <=? c);
  casefold := fmap ascii_lower;
  lower := fmap ascii_lower;
  html_unescape := id;
  urlsplit s :=
    Ok {| scheme := (take_until 58 s).1; hostname := Some (drop 3 (take_until 58 s).2);
          port := Ok None; url_path := []; url_query := [] |};
  parse_qsl q := (λ kv, let '(k, v) := take_until 61 kv in (k, drop 1 v)) <$> split_on 38 q;
  urlencode l := join [38] ((λ kv, kv.1 ++ [61] ++ kv.2) <$> l);
  urlunsplit s n p q f := s ++ txt "://" ++ n ++ p ++ [63] ++ q;
  sha256_hex := id;
  sequence_ratio a b := if bool_decide (a = b) then fone else fzero;
}.

Definition shared_link : SplitResult :=
  {| scheme := txt "HTTPS"; hostname := Some (txt "WWW.Example.com"); port := Ok (Some 443);
     url_path := txt "/gold/"; url_query := txt "p=2&utm_source=x&a=1" |}.
Definition plain_link : SplitResult :=
  {| scheme := txt "https"; hostname := Some (txt "example.com"); port := Ok None;
     url_path := txt "/gold"; url_query := txt "a=1&p=2" |}.

Lemma canonical_url_identity_witness :
  canonical_parts shared_link = canonical_parts plain_link
  ∧ canonical_parts plain_link = Ok (txt "https://example.com/gold?a=1&p=2").
Proof.
  split; [|vm_compute; reflexivity].
  apply (canonical_url_identity shared_link plain_link [(txt "p", txt "2")]
           (txt "utm_source", txt "x") [(txt "a", txt "1")]).
  - vm_compute; reflexivity.
  - vm_compute; reflexivity.
  - replace (parse_qsl (url_query plain_link)) with [(txt "a", txt "1"); (txt "p", txt "2")]
      by (vm_compute; reflexivity). constructor.
  - vm_compute; reflexivity.
  - intros host [= <-]. vm_compute. reflexivity.
  - vm_compute; reflexivity.
  - vm_compute; reflexivity.
  - reflexivity.
  - exists 443. vm_compute. done.
  - reflexivity.
Defined.

Example headline_key :
  normalize_title (txt " The <b>Price</b> of  GOLD: up 3%!") = txt "price gold up 3".
Proof. vm_compute. reflexivity. Qed.
