(* ===== verification/NewsConsolidate.v ===== *)
(** * Consolidation of articles into events

    [app/news/consolidate.py]: the edge between two articles, the grouping of a
    batch oldest first, the independence of the members of a group, and the
    event built from a group.

    Entity extraction and classification are keyword tables of other modules
    ([app/news/entities.py], [app/news/classify.py]); what this module asks of
    them is the interface [NewsTables].  The entity cache is a map from the
    article id, threaded through every comparison as the code's dict is. *)
From S2P Require Import Prelude PyFloat PyTime PyText NewsText.
Local Open Scope string_scope.
Local Open Scope list_scope.
Local Open Scope Z_scope.

Class NewsTables := {
  (** [entities.codes(entities.extract(title, summary))] *)
  extract_codes : text → text → gset text;
  (** [classify.classify(title, summary)] when it is classified: the primary
      rule's id and the category *)
  classify : text → text → option (text * text);
  (** [classify.OPPOSED_RULES.get(rule_id, frozenset())] *)
  opposed_rules : text → gset text;
}.

Inductive match_reason : Set :=
| MATCH_SEED
| MATCH_SOURCE_ITEM
| MATCH_CANONICAL_URL
| MATCH_CONTENT_HASH
| MATCH_TITLE_KEY
| MATCH_NEAR_TITLE
| MATCH_ENTITY_TIME.

#[export] Instance match_reason_eq_dec : EqDecision match_reason.
Proof. solve_decision. Defined.

Definition MATCH_CONFIDENCE (r : match_reason) : float :=
  match r with
  | MATCH_SEED | MATCH_SOURCE_ITEM => fone
  | MATCH_CANONICAL_URL => flit 98 2
  | MATCH_CONTENT_HASH => flit 95 2
  | MATCH_TITLE_KEY => flit 90 2
  | MATCH_NEAR_TITLE => flit 80 2
  | MATCH_ENTITY_TIME => flit 60 2
  end.

(** [_MATCH_ORDER.index(r)]; the seed is not in the tuple. *)
Definition match_order (r : match_reason) : result pyerr Z :=
  match r with
  | MATCH_SEED => Err ValueError
  | MATCH_SOURCE_ITEM => Ok 0
  | MATCH_CANONICAL_URL => Ok 1
  | MATCH_CONTENT_HASH => Ok 2
  | MATCH_TITLE_KEY => Ok 3
  | MATCH_NEAR_TITLE => Ok 4
  | MATCH_ENTITY_TIME => Ok 5
  end.

Definition NEAR_TITLE_WINDOW_S : Z := 6 * 3600.
Definition ENTITY_WINDOW_S : Z := 3 * 3600.
Definition TITLE_KEY_WINDOW_S : Z := 24 * 3600.
Definition NEAR_TITLE_THRESHOLD : float := NEAR_DUPLICATE_THRESHOLD.
Definition ENTITY_TITLE_FLOOR : float := flit 55 2.
Definition ENTITY_OVERLAP_THRESHOLD : float := flit 60 2.
Definition SYNDICATION_TITLE_THRESHOLD : float := flit 95 2.
Definition WIDE_SPAN_S : Z := 24 * 3600.
Definition WIDE_SPAN_PENALTY : float := flit 10 2.

Record ArticleInput : Type := {
  article_id : Z;
  source_code : text;
  available_at : datetime;
  published_at : option datetime;
  external_id : text;
  ai_url : text;
  ai_canonical_url : text;
  title : text;
  summary : text;
  ai_content_hash : text;
  entity_codes : option (gset text);
}.

Record GroupMember : Type := {
  m_article_id : Z;
  similarity : float;
  m_reason : match_reason;
  is_primary : bool;
  is_independent : bool;
}.

Record ConsolidatedEvent : Type := {
  primary_article_id : Z;
  members : list GroupMember;
  method : match_reason;
  article_count : Z;
  independent_source_count : Z;
  syndication_count : Z;
  source_diversity : float;
  e_confidence : float;
  conflicting : bool;
  first_published_at : option instant;
  first_seen_at : instant;
  last_updated_at : instant;
  e_available_at : instant;
  source_codes : list text;
  e_entity_codes : list text;
  categories : list text;
}.

Definition article_ids (e : ConsolidatedEvent) : list Z := m_article_id <$> members e.

(** One of the parallel lists [groups] and [edges]. *)
Record Group : Type := {
  g_members : list ArticleInput;
  g_edges : gmap Z (match_reason * float);
}.

Abbreviation edge := (match_reason * float)%type.
Abbreviation cache := (gmap Z (gset text)).

Definition stronger (r s : match_reason) : bool :=
  match match_order r, match_order s with Ok a, Ok b => a <? b | _, _ => false end.

(** [t.timestamp()] *)
Definition timestamp (t : instant) : float := total_seconds (t - 719162 * us_day).

(** The tuple [_sort_key] and the order of such tuples. *)
Definition _sort_key (item : ArticleInput) : float * float * Z :=
  let available := to_utc (available_at item) in
  let published := to_utc <$> published_at item in
  (timestamp (default available published), timestamp available, article_id item).

Definition key_lt (a b : float * float * Z) : bool :=
  if feq a.1.1 b.1.1 then
    if feq a.1.2 b.1.2 then a.2 <? b.2 else flt a.1.2 b.1.2
  else flt a.1.1 b.1.1.

Definition older (x y : ArticleInput) : bool := key_lt (_sort_key x) (_sort_key y).

Definition _proximity_seconds (left right : ArticleInput) : float :=
  match published_at left, published_at right with
  | Some p, Some q => fabs (total_seconds (to_utc p - to_utc q))
  | _, _ => fabs (total_seconds (to_utc (available_at left) - to_utc (available_at right)))
  end.

Section Consolidate.
Context `{PyLib} `{NewsTables}.

Definition _canonical (item : ArticleInput) : result pyerr text :=
  match ai_canonical_url item with [] => canonical_url (ai_url item) | u => Ok u end.

Definition _hash (item : ArticleInput) : text :=
  match ai_content_hash item with [] => content_hash (title item) (summary item) [] | h => h end.

Definition _entities (item : ArticleInput) (c : cache) : gset text * cache :=
  match entity_codes item with
  | Some codes => (codes, c)
  | None =>
      match c !! article_id item with
      | Some codes => (codes, c)
      | None =>
          let codes := extract_codes (title item) (summary item) in
          (codes, <[article_id item := codes]> c)
      end
  end.

Definition within (gap : float) (window : Z) : bool := fle gap (float_of_Z window).

Definition _edge (candidate existing : ArticleInput) (c : cache)
    : result pyerr (option edge * cache) :=
  if negb (bool_decide (external_id candidate = []))
     && bool_decide (source_code candidate = source_code existing)
     && bool_decide (external_id candidate = external_id existing)
  then Ok (Some (MATCH_SOURCE_ITEM, fone), c)
  else
    candidate_url ← _canonical candidate;
    existing_url ← _canonical existing;
    if negb (bool_decide (candidate_url = [])) && bool_decide (candidate_url = existing_url)
    then Ok (Some (MATCH_CANONICAL_URL, fone), c)
    else if bool_decide (_hash candidate = _hash existing)
    then Ok (Some (MATCH_CONTENT_HASH, fone), c)
    else
      let gap := _proximity_seconds candidate existing in
      let candidate_key := normalize_title (title candidate) in
      if negb (bool_decide (candidate_key = []))
         && bool_decide (candidate_key = normalize_title (title existing))
         && within gap TITLE_KEY_WINDOW_S
      then Ok (Some (MATCH_TITLE_KEY, fone), c)
      else
        let sim := title_similarity (title candidate) (title existing) in
        if fge sim NEAR_TITLE_THRESHOLD && within gap NEAR_TITLE_WINDOW_S
        then Ok (Some (MATCH_NEAR_TITLE, sim), c)
        else if fge sim ENTITY_TITLE_FLOOR && within gap ENTITY_WINDOW_S then
          let '(a, c) := _entities candidate c in
          let '(b, c) := _entities existing c in
          Ok (if fge (overlap a b) ENTITY_OVERLAP_THRESHOLD
              then Some (MATCH_ENTITY_TIME, sim) else None, c)
        else Ok (None, c).

(** The inner loop over the members of group [index]. *)
Fixpoint scan_members (item : ArticleInput) (index : nat) (ms : list ArticleInput)
    (best : option (nat * edge)) (c : cache) : result pyerr (option (nat * edge) * cache) :=
  match ms with
  | [] => Ok (best, c)
  | existing :: ms =>
      ec ← _edge item existing c;
      let '(e, c) := ec in
      let best :=
        match e, best with
        | None, _ => best
        | Some e, None => Some (index, e)
        | Some e, Some (_, b) => if stronger e.1 b.1 then Some (index, e) else best
        end in
      scan_members item index ms best c
  end.

(** The loop over the groups, left once an item id has matched. *)
Fixpoint scan_groups (item : ArticleInput) (index : nat) (gs : list Group)
    (best : option (nat * edge)) (c : cache) : result pyerr (option (nat * edge) * cache) :=
  match gs with
  | [] => Ok (best, c)
  | g :: gs =>
      bc ← scan_members item index (g_members g) best c;
      match fst bc with
      | Some (_, (MATCH_SOURCE_ITEM, _)) => Ok bc
      | _ => scan_groups item (S index) gs (fst bc) (snd bc)
      end
  end.

Definition add_member (item : ArticleInput) (e : edge) (g : Group) : Group :=
  {| g_members := g_members g ++ [item]; g_edges := <[article_id item := e]> (g_edges g) |}.

Definition seed_group (item : ArticleInput) : Group :=
  {| g_members := [item]; g_edges := {[article_id item := (MATCH_SEED, fone)]} |}.

Definition place (item : ArticleInput) (gs : list Group) (best : option (nat * edge))
    : list Group :=
  match best with
  | None => gs ++ [seed_group item]
  | Some (index, e) => alter (add_member item e) index gs
  end.

Fixpoint group_all (items : list ArticleInput) (gs : list Group) (c : cache)
    : result pyerr (list Group) :=
  match items with
  | [] => Ok gs
  | item :: items =>
      bc ← scan_groups item 0 gs None c;
      group_all items (place item gs (fst bc)) (snd bc)
  end.

(** ** Independence *)
Record Independence : Type := {
  flags : gmap Z bool;
  seen_hashes : list text;
  originals : list ArticleInput;
  independent_sources : gset text;
}.

Definition verbatim (st : Independence) (item : ArticleInput) : bool :=
  in_list (_hash item) (seen_hashes st)
  || existsb (λ earlier, fge (title_similarity (title item) (title earlier))
                             SYNDICATION_TITLE_THRESHOLD) (originals st).

Definition independence_step (st : Independence) (item : ArticleInput) : Independence :=
  let copy := verbatim st item in
  {| flags := <[article_id item := negb copy]> (flags st);
     seen_hashes := seen_hashes st ++ [_hash item];
     originals := if copy then originals st else originals st ++ [item];
     independent_sources :=
       if copy then independent_sources st else {[source_code item]} ∪ independent_sources st |}.

Definition no_articles_seen : Independence :=
  {| flags := ∅; seen_hashes := []; originals := []; independent_sources := ∅ |}.

(** [independent_flags], [len(independent_sources)], [syndication_count] *)
Definition _independence (ordered : list ArticleInput) : gmap Z bool * Z * Z :=
  let st := foldl independence_step no_articles_seen ordered in
  (flags st, Z.of_nat (size (independent_sources st)),
   Z.of_nat (List.length (List.filter negb (map_to_list (flags st)).*2))).

Fixpoint any_opposed (rule_ids : list text) : bool :=
  match rule_ids with
  | [] => false
  | r :: rest => existsb (λ o, bool_decide (o ∈ opposed_rules r)) rest || any_opposed rest
  end.

Definition sorted_set (s : gset text) : list text := py_sorted text_lt (elements s).

Definition _conflicting (os : list ArticleInput) : bool * list text :=
  let results := omap (λ item, classify (title item) (summary item)) os in
  (any_opposed results.*1, sorted_set (list_to_set results.*2)).

(** ** Events *)
Definition key_error {A} (o : option A) : result pyerr A :=
  match o with Some a => Ok a | None => Err KeyError end.

Fixpoint weakest_from (r : match_reason) (reasons : list match_reason) : match_reason :=
  match reasons with
  | [] => r
  | s :: reasons => weakest_from (if stronger r s then s else r) reasons
  end.

Definition min_of (x : Z) (l : list Z) : Z := foldl Z.min x l.
Definition max_of (x : Z) (l : list Z) : Z := foldl Z.max x l.

Definition codes_of (item : ArticleInput) : gset text :=
  match entity_codes item with
  | Some codes => codes
  | None => extract_codes (title item) (summary item)
  end.

Definition _build_event (ms : list ArticleInput) (edges : gmap Z edge) (detect_conflicts : bool)
    : result pyerr ConsolidatedEvent :=
  let ordered := py_sorted older ms in
  match ordered with
  | [] => Err IndexError
  | primary :: rest =>
      let '(fl, n_sources, n_syndicated) := _independence ordered in
      found ← traverse (λ item, key_error (edges !! article_id item)) ordered;
      let reasons := List.filter (λ r, negb (bool_decide (r = MATCH_SEED))) found.*1 in
      let weakest :=
        match reasons with [] => MATCH_SEED | r :: reasons => weakest_from r reasons end in
      let published := omap (λ item, to_utc <$> published_at item) ordered in
      let seen item := to_utc (available_at item) in
      let first_seen := min_of (seen primary) (seen <$> rest) in
      let last_seen := max_of (seen primary) (seen <$> rest) in
      let confidence :=
        if fgt (total_seconds (last_seen - first_seen)) (float_of_Z WIDE_SPAN_S)
        then fsub (MATCH_CONFIDENCE weakest) WIDE_SPAN_PENALTY else MATCH_CONFIDENCE weakest in
      independent ← traverse (λ item, key_error (fl !! article_id item)) ordered;
      let '(conflict, cats) :=
        if detect_conflicts
        then _conflicting (fst <$> List.filter snd (List.combine ordered independent))
        else (false, []) in
      let count := Z.of_nat (List.length ordered) in
      Ok {| primary_article_id := article_id primary;
            members :=
              (λ p : ArticleInput * (edge * bool),
                 {| m_article_id := article_id p.1;
                    similarity := py_round p.2.1.2 4;
                    m_reason := p.2.1.1;
                    is_primary := article_id p.1 =? article_id primary;
                    is_independent := p.2.2 |})
              <$> List.combine ordered (List.combine found independent);
            method := weakest;
            article_count := count;
            independent_source_count := n_sources;
            syndication_count := n_syndicated;
            source_diversity := py_round (int_true_div n_sources count) 4;
            e_confidence := py_round (fmax fzero (fmin fone confidence)) 4;
            conflicting := conflict;
            first_published_at :=
              match published with [] => None | t :: ts => Some (min_of t ts) end;
            first_seen_at := first_seen;
            last_updated_at := last_seen;
            e_available_at := first_seen;
            source_codes := sorted_set (list_to_set (source_code <$> ordered));
            e_entity_codes := sorted_set (foldr (λ item s, codes_of item ∪ s) ∅ ordered);
            categories := cats |}
  end.

Definition consolidate (articles : list ArticleInput) (detect_conflicts : bool)
    : result pyerr (list ConsolidatedEvent) :=
  gs ← group_all (py_sorted older articles) [] ∅;
  traverse (λ g, _build_event (g_members g) (g_edges g) detect_conflicts) gs.
End Consolidate.

(** ** The order of a batch *)
Lemma timestamp_not_nan t : is_nan (timestamp t) = false.
Proof. by apply int_true_div_not_nan. Qed.

Lemma timestamp_weak_order {A} (g : A → instant) :
  WeakOrder (λ x y, flt (timestamp (g x)) (timestamp (g y))).
Proof.
  split; intros *; [apply flt_asym|apply flt_negtrans, timestamp_not_nan].
Qed.

Definition sort_time (item : ArticleInput) : instant :=
  default (to_utc (available_at item)) (to_utc <$> published_at item).
Definition seen_time (item : ArticleInput) : instant := to_utc (available_at item).

#[export] Instance older_weak_order : WeakOrder older.
Proof.
  pose proof (timestamp_weak_order sort_time). pose proof (timestamp_weak_order seen_time).
  assert (WeakOrder (λ x y, if feq (timestamp (seen_time x)) (timestamp (seen_time y))
                            then article_id x <? article_id y
                            else flt (timestamp (seen_time x)) (timestamp (seen_time y)))).
  { apply (lex_weak_order (λ x y, flt (timestamp (seen_time x)) (timestamp (seen_time y)))
             (λ x y, feq (timestamp (seen_time x)) (timestamp (seen_time y))));
      [done|apply (Z_key_weak_order article_id)|].
    intros x y. apply feq_flt; apply timestamp_not_nan. }
  apply (lex_weak_order (λ x y, flt (timestamp (sort_time x)) (timestamp (sort_time y)))
           (λ x y, feq (timestamp (sort_time x)) (timestamp (sort_time y)))); [done|done|].
  intros x y. apply feq_flt; apply timestamp_not_nan.
Qed.

Lemma older_total x y : older x y = false → older y x = false → article_id x = article_id y.
Proof.
  unfold older, key_lt, _sort_key. cbn [fst snd].
  change (default (to_utc (available_at ?i)) (to_utc <$> published_at ?i)) with (sort_time i).
  change (to_utc (available_at ?i)) with (seen_time i).
  rewrite !feq_flt by apply timestamp_not_nan.
  set (t := timestamp (sort_time x)). set (u := timestamp (sort_time y)).
  set (t' := timestamp (seen_time x)). set (u' := timestamp (seen_time y)).
  destruct (flt t u), (flt u t), (flt t' u'), (flt u' t'); simpl; intros Hxy Hyx;
    try done.
  apply Z.ltb_ge in Hxy, Hyx. lia.
Qed.

(** The ids of a batch tell its articles apart. *)
Definition distinct_ids (arts : list ArticleInput) : Prop := NoDup (article_id <$> arts).

#[export] Instance distinct_ids_dec arts : Decision (distinct_ids arts).
Proof. unfold distinct_ids. apply _. Defined.

Lemma same_id arts x y :
  distinct_ids arts → x ∈ arts → y ∈ arts → article_id x = article_id y → x = y.
Proof. intros Hd Hx Hy. by apply (NoDup_key_inj article_id arts). Qed.

Lemma sorted_batch_unique arts arts' :
  distinct_ids arts → arts ≡ₚ arts' → py_sorted older arts = py_sorted older arts'.
Proof.
  intros Hd Hp. apply (py_sorted_perm_eq older); [|done].
  intros x y Hx Hy Hxy Hyx. apply (same_id arts); [done..|]. by apply older_total.
Qed.

(** Oldest first, strictly. *)
Lemma sorted_batch_strict arts :
  distinct_ids arts → StronglySorted (λ x y, older x y = true) (py_sorted older arts).
Proof.
  intros Hd. pose proof (py_sorted_sorted older arts) as Hs.
  assert (distinct_ids (py_sorted older arts)) as Hd'.
  { unfold distinct_ids. by rewrite (py_sorted_perm older arts). }
  clear Hd. induction Hs as [|x l Hs IH Hx]; [constructor|].
  unfold distinct_ids in Hd'. rewrite fmap_cons in Hd'.
  apply NoDup_cons in Hd' as [Hnin Hd']. constructor; [by apply IH|].
  rewrite Forall_forall in Hx |- *. intros y Hy. specialize (Hx y Hy). unfold not_below in Hx.
  destruct (older x y) eqn:Hxy; [done|]. destruct Hnin.
  rewrite (older_total x y) by done. by apply list_elem_of_fmap_2.
Qed.

Lemma stronger_irrefl r : stronger r r = false.
Proof. by destruct r. Qed.

Lemma stronger_negtrans r s t :
  s ≠ MATCH_SEED → stronger r s = false → stronger s t = false → stronger r t = false.
Proof. destruct r, s, t; naive_solver. Qed.

Section ConsolidateLaws.
Context `{PyLib} `{NewsTables}.

(** ** The cache is transparent *)

(** [_edge] with the entities read directly. *)
Definition edge_of (candidate existing : ArticleInput) : result pyerr (option edge) :=
  ec ← _edge candidate existing {[article_id candidate := codes_of candidate;
                                  article_id existing := codes_of existing]};
  Ok ec.1.

(** What the cache holds for the articles of a batch is what would be extracted. *)
Definition cache_ok (arts : list ArticleInput) (c : cache) : Prop :=
  ∀ a codes, a ∈ arts → c !! article_id a = Some codes → codes = codes_of a.

Lemma entities_spec arts a c :
  distinct_ids arts → a ∈ arts → cache_ok arts c →
  ∃ c', _entities a c = (codes_of a, c') ∧ cache_ok arts c'.
Proof.
  intros Hd Ha Hc. unfold _entities, codes_of. destruct (entity_codes a) as [codes|] eqn:He.
  - by exists c.
  - destruct (c !! article_id a) as [codes|] eqn:Hl.
    + exists c. pose proof (Hc a codes Ha Hl) as Hcodes. unfold codes_of in Hcodes.
      rewrite He in Hcodes. by subst.
    + eexists. split; [done|]. intros b codes Hb.
      destruct (decide (article_id a = article_id b)) as [Heq|Hne].
      * rewrite Heq, lookup_insert_eq. intros [= <-].
        rewrite <- (same_id arts a b) by done. unfold codes_of. by rewrite He.
      * rewrite lookup_insert_ne by done. by apply Hc.
Qed.

(** Within a batch the comparison does not depend on what was cached. *)
Lemma edge_cached arts x y c :
  distinct_ids arts → x ∈ arts → y ∈ arts → cache_ok arts c →
  match edge_of x y with
  | Ok e => ∃ c', _edge x y c = Ok (e, c') ∧ cache_ok arts c'
  | Err e => _edge x y c = Err e
  end.
Proof.
  intros Hd Hx Hy Hc.
  set (c0 := {[article_id x := codes_of x; article_id y := codes_of y]} : cache).
  assert (cache_ok arts c0) as Hc0.
  { intros a codes Ha. unfold c0. destruct (decide (article_id x = article_id a)) as [Heq|Hne].
    - rewrite Heq, lookup_insert_eq. intros [= <-]. by rewrite (same_id arts x a).
    - rewrite lookup_insert_ne by done. intros [Heq <-]%lookup_singleton_Some.
      by rewrite (same_id arts y a). }
  unfold edge_of. fold c0. unfold _edge.
  destruct (_ && _); cbn [mbind result_bind fst]; [by exists c|].
  destruct (_canonical x); cbn [mbind result_bind]; [|done].
  destruct (_canonical y); cbn [mbind result_bind]; [|done].
  destruct (_ && _); cbn [mbind result_bind fst]; [by exists c|].
  destruct (bool_decide _); cbn [mbind result_bind fst]; [by exists c|].
  destruct (_ && _); cbn [mbind result_bind fst]; [by exists c|].
  destruct (_ && _); cbn [mbind result_bind fst]; [by exists c|].
  destruct (_ && _); cbn [mbind result_bind fst]; [|by exists c].
  destruct (entities_spec arts x c0) as (c1&->&H1); [done..|].
  destruct (entities_spec arts y c1) as (c2&->&_); [done..|].
  destruct (entities_spec arts x c) as (c3&->&H3); [done..|].
  destruct (entities_spec arts y c3) as (c4&->&H4); [done..|].
  cbn [mbind result_bind fst]. by exists c4.
Qed.

(** A similarity edge carries the similarity, every other edge is certain; no
    edge has the seed's reason. *)
Lemma edge_of_reason x y r s : edge_of x y = Ok (Some (r, s)) → r ≠ MATCH_SEED.
Proof.
  unfold edge_of, _edge. intros He.
  destruct (_ && _); cbn [mbind result_bind fst] in He; [by injection He as <- <-|].
  destruct (_canonical x); cbn [mbind result_bind] in He; [|done].
  destruct (_canonical y); cbn [mbind result_bind] in He; [|done].
  destruct (_ && _); cbn [mbind result_bind fst] in He; [by injection He as <- <-|].
  destruct (bool_decide _); cbn [mbind result_bind fst] in He; [by injection He as <- <-|].
  destruct (_ && _); cbn [mbind result_bind fst] in He; [by injection He as <- <-|].
  destruct (_ && _); cbn [mbind result_bind fst] in He; [by injection He as <- <-|].
  destruct (_ && _); cbn [mbind result_bind fst] in He; [|done].
  destruct (_entities x _) as [ex c1], (_entities y _) as [ey c2].
  cbn [mbind result_bind fst] in He. destruct (fge _ _); [|done].
  by injection He as <- <-.
Qed.

Lemma edge_of_total x y u v :
  _canonical x = Ok u → _canonical y = Ok v → ∃ e, edge_of x y = Ok e.
Proof.
  unfold edge_of, _edge. intros Hu Hv. rewrite Hu, Hv.
  destruct (_ && _); cbn [mbind result_bind fst]; [by eexists|].
  destruct (_ && _); cbn [mbind result_bind fst]; [by eexists|].
  destruct (bool_decide _); cbn [mbind result_bind fst]; [by eexists|].
  destruct (_ && _); cbn [mbind result_bind fst]; [by eexists|].
  destruct (_ && _); cbn [mbind result_bind fst]; [by eexists|].
  destruct (_ && _); cbn [mbind result_bind fst]; [|by eexists].
  destruct (_entities x _) as [ex c1], (_entities y _) as [ey c2]. by eexists.
Qed.

(** ** The best match over the articles placed so far *)
Definition best_over (item : ArticleInput) (seen : list (nat * ArticleInput))
    (best : option (nat * edge)) : Prop :=
  match best with
  | None => ∀ p, p ∈ seen → edge_of item p.2 = Ok None
  | Some (i, e) =>
      e.1 ≠ MATCH_SEED
      ∧ (∃ x, (i, x) ∈ seen ∧ edge_of item x = Ok (Some e))
      ∧ ∀ p e', p ∈ seen → edge_of item p.2 = Ok (Some e') → stronger e'.1 e.1 = false
  end.

Definition better (index : nat) (e : option edge) (best : option (nat * edge))
    : option (nat * edge) :=
  match e, best with
  | None, _ => best
  | Some e, None => Some (index, e)
  | Some e, Some (_, b) => if stronger e.1 b.1 then Some (index, e) else best
  end.

Lemma best_over_step item seen best i x e :
  best_over item seen best → edge_of item x = Ok e →
  best_over item (seen ++ [(i, x)]) (better i e best).
Proof.
  intros Hb He. unfold better.
  destruct e as [[r s]|].
  2: { unfold best_over in *. destruct best as [[j b]|].
    - destruct Hb as (Hns&(y&Hy&Hey)&Hall). split_and!; [done| |].
      + exists y. rewrite elem_of_app. auto.
      + intros p e' [Hp|Hp%list_elem_of_singleton]%elem_of_app; [by apply Hall|].
        subst p. simpl. congruence.
    - intros p [Hp|Hp%list_elem_of_singleton]%elem_of_app; [by apply Hb|by subst p]. }
  pose proof (edge_of_reason _ _ _ _ He) as Hr.
  assert ((i, x) ∈ seen ++ [(i, x)]) as Hin by (apply elem_of_app; right; left).
  destruct best as [[j [rb sb]]|]; cbn [fst].
  - destruct Hb as (Hns&(y&Hy&Hey)&Hall). destruct (stronger r rb) eqn:Hst; cbn [best_over fst].
    + split_and!; [done|by exists x|].
      intros p e' [Hp|Hp%list_elem_of_singleton]%elem_of_app Hp'.
      * apply (stronger_negtrans _ rb); [done|by eapply Hall|]. by destruct r, rb.
      * subst p. simpl in Hp'. rewrite He in Hp'. injection Hp' as <-. apply stronger_irrefl.
    + split_and!; [done| |].
      * exists y. rewrite elem_of_app. auto.
      * intros p e' [Hp|Hp%list_elem_of_singleton]%elem_of_app Hp'; [by eapply Hall|].
        subst p. simpl in Hp'. rewrite He in Hp'. by injection Hp' as <-.
  - cbn [best_over fst]. split_and!; [done|by exists x|].
    intros p e' [Hp|Hp%list_elem_of_singleton]%elem_of_app Hp'.
    + unfold best_over in Hb. rewrite (Hb p Hp) in Hp'. done.
    + subst p. simpl in Hp'. rewrite He in Hp'. injection Hp' as <-. apply stronger_irrefl.
Qed.

Lemma scan_members_spec arts item i ms seen best c :
  distinct_ids arts → item ∈ arts → ms ⊆ arts → cache_ok arts c →
  (∀ x y, x ∈ arts → y ∈ arts → ∃ e, edge_of x y = Ok e) →
  best_over item seen best →
  ∃ best' c', scan_members item i ms best c = Ok (best', c') ∧ cache_ok arts c'
    ∧ best_over item (seen ++ ((λ x, (i, x)) <$> ms)) best'.
Proof.
  intros Hd Hitem. revert seen best c. induction ms as [|x ms IH]; intros seen best c Hms Hc Htot Hb.
  - exists best, c. simpl. by rewrite app_nil_r.
  - assert (x ∈ arts) as Hx by (apply Hms; left).
    destruct (Htot item x Hitem Hx) as [e He].
    pose proof (edge_cached arts item x c Hd Hitem Hx Hc) as Hcached. rewrite He in Hcached.
    destruct Hcached as (c1&He1&Hc1). cbn [scan_members]. rewrite He1. cbn [mbind result_bind].
    destruct (IH (seen ++ [(i, x)]) (better i e best) c1) as (best'&c'&Hs&Hc'&Hb');
      [intros y Hy; apply Hms; by right|done|done|by apply best_over_step|].
    exists best', c'. split_and!; [exact Hs|done|]. by rewrite <- app_assoc in Hb'.
Qed.

(** The articles of groups [k], [k+1], ... with their group's index. *)
Fixpoint placed (k : nat) (gs : list Group) : list (nat * ArticleInput) :=
  match gs with
  | [] => []
  | g :: gs => ((λ x, (k, x)) <$> g_members g) ++ placed (S k) gs
  end.

Lemma elem_of_placed k gs i x :
  (i, x) ∈ placed k gs ↔ ∃ j g, i = (k + j)%nat ∧ gs !! j = Some g ∧ x ∈ g_members g.
Proof.
  revert k. induction gs as [|g gs IH]; intros k; simpl.
  - rewrite elem_of_nil. split; [done|]. intros (j&g&_&Hg&_). by rewrite lookup_nil in Hg.
  - rewrite elem_of_app, list_elem_of_fmap, IH. split.
    + intros [(y&[= -> ->]&Hy)|(j&g'&->&Hg&Hx)].
      * exists 0%nat, g. split_and!; [lia|done|done].
      * exists (S j), g'. split_and!; [lia|done|done].
    + intros ([|j]&g'&->&Hg&Hx); simpl in Hg.
      * left. injection Hg as ->. exists x. split; [f_equal; lia|done].
      * right. exists j, g'. split_and!; [lia|done|done].
Qed.

(** An item-id match cannot be beaten, so leaving the loop early is harmless. *)
Lemma best_over_top item seen more i s :
  best_over item seen (Some (i, (MATCH_SOURCE_ITEM, s))) →
  best_over item (seen ++ more) (Some (i, (MATCH_SOURCE_ITEM, s))).
Proof.
  intros (Hns&(x&Hx&He)&Hall). split_and!; [done| |].
  - exists x. rewrite elem_of_app. auto.
  - intros p [r' s'] _ _. by destruct r'.
Qed.

Lemma scan_groups_spec arts item k gs seen best c :
  distinct_ids arts → item ∈ arts → (∀ p, p ∈ placed k gs → p.2 ∈ arts) → cache_ok arts c →
  (∀ x y, x ∈ arts → y ∈ arts → ∃ e, edge_of x y = Ok e) →
  best_over item seen best →
  ∃ best' c', scan_groups item k gs best c = Ok (best', c') ∧ cache_ok arts c'
    ∧ best_over item (seen ++ placed k gs) best'.
Proof.
  intros Hd Hitem. revert k seen best c.
  induction gs as [|g gs IH]; intros k seen best c Hgs Hc Htot Hb; simpl in *.
  - exists best, c. by rewrite app_nil_r.
  - destruct (scan_members_spec arts item k (g_members g) seen best c)
      as (b1&c1&Hs&Hc1&Hb1); [done|done| |done|done|done|].
    { intros x Hx. apply (Hgs (k, x)), elem_of_app. left. by apply list_elem_of_fmap_2. }
    rewrite Hs. cbn [mbind result_bind fst snd].
    assert (∃ best' c', scan_groups item (S k) gs b1 c1 = Ok (best', c') ∧ cache_ok arts c'
      ∧ best_over item (seen ++ ((λ x, (k, x)) <$> g_members g) ++ placed (S k) gs) best')
      as Hrest.
    { destruct (IH (S k) (seen ++ ((λ x, (k, x)) <$> g_members g)) b1 c1)
        as (b2&c2&Hs2&Hc2&Hb2); [|done|done|done|].
      - intros q Hq. apply Hgs, elem_of_app. by right.
      - exists b2, c2. by rewrite <- app_assoc in Hb2. }
    destruct b1 as [[i [r s]]|]; [|done]. destruct r; try done.
    exists (Some (i, (MATCH_SOURCE_ITEM, s))), c1. split_and!; [done|done|].
    rewrite app_assoc. by apply best_over_top.
Qed.

(** ** The groups of a batch *)

(** Why [a] is where it is: nothing placed before it matched, or its recorded
    edge leads to an earlier member and no earlier article has a stronger one. *)
Definition earlier_evidence (placed_before : list ArticleInput) (ms : list ArticleInput)
    (a : ArticleInput) (e : edge) : Prop :=
  (e = (MATCH_SEED, fone)
   ∧ ∀ y, y ∈ placed_before → older y a = true → edge_of a y = Ok None)
  ∨ (e.1 ≠ MATCH_SEED
     ∧ (∃ x, x ∈ ms ∧ older x a = true ∧ edge_of a x = Ok (Some e))
     ∧ ∀ y e', y ∈ placed_before → older y a = true → edge_of a y = Ok (Some e') →
         stronger e'.1 e.1 = false).

Definition grouped (arts : list ArticleInput) (gs : list Group) : Prop :=
  concat (g_members <$> gs) ≡ₚ arts
  ∧ Forall (λ g, g_members g ≠ []) gs
  ∧ Forall (λ g, StronglySorted (λ x y, older x y = true) (g_members g)) gs
  ∧ ∀ g a, g ∈ gs → a ∈ g_members g →
      ∃ e, g_edges g !! article_id a = Some e ∧ earlier_evidence arts (g_members g) a e.

Lemma concat_add_member item e i gs g :
  gs !! i = Some g →
  concat (g_members <$> alter (add_member item e) i gs)
  ≡ₚ concat (g_members <$> gs) ++ [item].
Proof.
  revert i. induction gs as [|g' gs IH]; intros [|i] Hg; [done|done| |]; simpl in *.
  - rewrite <- app_assoc, <- app_assoc. f_equiv. apply Permutation_app_comm.
  - rewrite <- app_assoc. f_equiv. by apply IH.
Qed.

Lemma evidence_grows arts ms item a e :
  older item a = false → earlier_evidence arts ms a e →
  earlier_evidence (arts ++ [item]) ms a e.
Proof.
  intros Hold [[-> Hnone]|(Hns&Hx&Hall)]; [left|right].
  - split; [done|]. intros y [Hy|Hy%list_elem_of_singleton]%elem_of_app Ho; [by apply Hnone|].
    subst y. congruence.
  - split_and!; [done|done|].
    intros y e' [Hy|Hy%list_elem_of_singleton]%elem_of_app Ho; [by eapply Hall|].
    subst y. congruence.
Qed.

Lemma evidence_member arts ms item a e :
  earlier_evidence arts ms a e → earlier_evidence arts (ms ++ [item]) a e.
Proof.
  intros [?|(Hns&(x&Hx&?&?)&Hall)]; [by left|right]. split_and!; [done| |done].
  exists x. rewrite elem_of_app. auto.
Qed.

Lemma elem_of_concat {A} (y : A) ls : y ∈ concat ls ↔ ∃ l, y ∈ l ∧ l ∈ ls.
Proof.
  induction ls as [|l ls IH]; simpl.
  - rewrite elem_of_nil. split; [done|]. by intros (?&_&?%elem_of_nil).
  - rewrite elem_of_app, IH. setoid_rewrite elem_of_cons. naive_solver.
Qed.

Lemma grouped_elem arts gs y :
  grouped arts gs → y ∈ arts ↔ ∃ j g, gs !! j = Some g ∧ y ∈ g_members g.
Proof.
  intros (Hperm&_). rewrite <- Hperm, elem_of_concat. setoid_rewrite list_elem_of_fmap. split.
  - intros (l&Hy&g&->&[j Hg]%list_elem_of_lookup). by exists j, g.
  - intros (j&g&Hg&Hy). exists (g_members g). split; [done|]. exists g. split; [done|].
    by eapply list_elem_of_lookup_2.
Qed.

Lemma newest_item arts item :
  distinct_ids (arts ++ [item]) → (∀ y, y ∈ arts → older y item = true) →
  older item item = false
  ∧ ∀ a, a ∈ arts → older item a = false ∧ article_id a ≠ article_id item.
Proof.
  intros Hd Hold. split.
  - destruct (older item item) eqn:Ho; [|done]. pose proof (wo_asym older _ _ Ho). congruence.
  - intros a Ha. split; [apply (wo_asym older); by apply Hold|].
    unfold distinct_ids in Hd. rewrite fmap_app in Hd. apply NoDup_app in Hd as (_&Hd&_).
    intros Heq. apply (Hd (article_id a)); [by apply list_elem_of_fmap_2|].
    simpl. rewrite Heq. left.
Qed.

Lemma grouped_place arts gs item best :
  distinct_ids (arts ++ [item]) →
  (∀ y, y ∈ arts → older y item = true) →
  grouped arts gs → best_over item (placed 0 gs) best →
  grouped (arts ++ [item]) (place item gs best).
Proof.
  intros Hd Hold Hgr Hbest. pose proof (λ y, grouped_elem arts gs y Hgr) as Hin.
  destruct Hgr as (Hperm&Hne&Hsort&Hev).
  destruct (newest_item arts item Hd Hold) as [Hirr Hnew].
  destruct best as [[i e]|]; simpl.
  - destruct Hbest as (Hns&(x&Hx&Hex)&Hall).
    apply elem_of_placed in Hx as (j&g&->&Hg&Hxg). simpl.
    assert (g ∈ gs) as Hgin by by eapply list_elem_of_lookup_2.
    assert (∀ a, a ∈ g_members g → a ∈ arts) as Hsub by (intros a Ha; apply Hin; by exists j, g).
    split_and!.
    + rewrite (concat_add_member item e j gs g Hg). by rewrite Hperm.
    + apply Forall_alter; [done|]. intros g' _ _. simpl. by destruct (g_members g').
    + apply Forall_alter; [done|]. intros g' Hg' Hs. simpl.
      apply StronglySorted_snoc; [done|]. apply Forall_forall. intros y Hy.
      apply Hold, Hin. by exists j, g'.
    + intros g' a Hg' Ha. apply elem_of_alter in Hg' as [Hg'|(g''&Hg''&->)].
      * destruct (Hev g' a Hg' Ha) as (e0&He0&Hevid). exists e0. split; [done|].
        apply evidence_grows; [|done]. apply Hnew, Hin.
        apply list_elem_of_lookup in Hg' as [j' Hg']. by exists j', g'.
      * rewrite Hg in Hg''. injection Hg'' as <-. simpl in Ha |- *.
        apply elem_of_app in Ha as [Ha| ->%list_elem_of_singleton].
        -- destruct (Hev g a Hgin Ha) as (e0&He0&Hevid). exists e0.
           rewrite lookup_insert_ne by (symmetry; by apply Hnew, Hsub). split; [done|].
           apply evidence_member, evidence_grows; [by apply Hnew, Hsub|done].
        -- exists e. rewrite lookup_insert_eq. split; [done|]. right. split_and!; [done| |].
           ++ exists x. split_and!; [apply elem_of_app; by left|by apply Hold, Hsub|done].
           ++ intros y e' [Hy|Hy%list_elem_of_singleton]%elem_of_app Ho He'; [|subst; congruence].
              apply Hin in Hy as (j'&g'&Hg'&Hy). apply (Hall (j', y)); [|done].
              apply elem_of_placed. by exists j', g'.
  - split_and!.
    + rewrite fmap_app, concat_app. simpl. by rewrite Hperm.
    + apply Forall_app. split; [done|]. by repeat constructor.
    + apply Forall_app. split; [done|]. by repeat constructor.
    + intros g' a [Hg'|Hg'%list_elem_of_singleton]%elem_of_app Ha.
      * destruct (Hev g' a Hg' Ha) as (e0&He0&Hevid). exists e0. split; [done|].
        apply evidence_grows; [|done]. apply Hnew, Hin.
        apply list_elem_of_lookup in Hg' as [j' Hg']. by exists j', g'.
      * subst g'. simpl in *. apply list_elem_of_singleton in Ha as ->.
        exists (MATCH_SEED, fone). rewrite lookup_singleton_eq. split; [done|]. left. split; [done|].
        intros y [Hy|Hy%list_elem_of_singleton]%elem_of_app Ho; [|subst; congruence].
        apply Hin in Hy as (j'&g'&Hg'&Hy). apply (Hbest (j', y)).
        apply elem_of_placed. by exists j', g'.
Qed.

Lemma group_all_spec all items done gs c :
  all = done ++ items → distinct_ids all →
  StronglySorted (λ x y, older x y = true) all →
  (∀ x y, x ∈ all → y ∈ all → ∃ e, edge_of x y = Ok e) →
  cache_ok all c → grouped done gs →
  ∃ gs', group_all items gs c = Ok gs' ∧ grouped all gs'.
Proof.
  intros Hall Hd Hsorted Htot. revert done gs c Hall.
  induction items as [|item items IH]; intros done gs c Hall Hc Hgr; simpl.
  - exists gs. rewrite app_nil_r in Hall. by subst.
  - assert (all = (done ++ [item]) ++ items) as Hall' by by rewrite <- app_assoc.
    destruct (scan_groups_spec all item 0 gs [] None c) as (best&c'&Hs&Hc'&Hb); try done.
    { rewrite Hall, elem_of_app. right. left. }
    { intros [i y] (j&g&_&Hg&Hy)%elem_of_placed. simpl. rewrite Hall. apply elem_of_app. left.
      apply (grouped_elem done gs y Hgr). by exists j, g. }
    { intros p Hp. by apply elem_of_nil in Hp. }
    rewrite Hs. cbn [mbind result_bind fst snd]. apply (IH (done ++ [item])); [done|done|].
    apply grouped_place; [|intros y Hy|done|done].
    + unfold distinct_ids in *. rewrite Hall', fmap_app in Hd. by apply NoDup_app in Hd as [Hd _].
    + rewrite Hall in Hsorted.
      apply (StronglySorted_app_inv _ done (item :: items) Hsorted); [done|left].
Qed.

Lemma grouped_nil : grouped [] [].
Proof. split_and!; [done|constructor|constructor|]. by intros g a Hg%elem_of_nil. Qed.

(** Every address of the batch can be put in canonical form. *)
Definition readable (arts : list ArticleInput) : Prop :=
  ∀ a, a ∈ arts → ∃ u, _canonical a = Ok u.

Lemma groups_of_batch arts :
  distinct_ids arts → readable arts →
  ∃ gs, group_all (py_sorted older arts) [] ∅ = Ok gs ∧ grouped (py_sorted older arts) gs.
Proof.
  intros Hd Hr. apply (group_all_spec _ _ []); [done| | | |by intros a codes _|apply grouped_nil].
  - unfold distinct_ids. by rewrite (py_sorted_perm older arts).
  - by apply sorted_batch_strict.
  - intros x y Hx Hy. rewrite (py_sorted_perm older arts) in Hx, Hy.
    destruct (Hr x Hx) as [u Hu], (Hr y Hy) as [v Hv]. by apply (edge_of_total x y u v).
Qed.

(** ** Independence *)
Lemma size_list_to_set_le (l : list text) : (size (list_to_set l : gset text) <= List.length l)%nat.
Proof.
  induction l as [|x l IH]; [done|].
  replace (list_to_set (x :: l) : gset text) with ({[x]} ∪ (list_to_set l : gset text)) by done.
  rewrite size_union_alt, size_singleton.
  assert (size ((list_to_set l : gset text) ∖ {[x]}) <= size (list_to_set l : gset text))%nat
    by (apply subseteq_size; set_solver). simpl. lia.
Qed.

Lemma independence_spec l :
  distinct_ids l →
  let st := foldl independence_step no_articles_seen l in
  ∃ bs, List.length bs = List.length l
    ∧ map_to_list (flags st) ≡ₚ zip (article_id <$> l) bs
    ∧ List.length (originals st) = List.length (List.filter id bs)
    ∧ independent_sources st = list_to_set (source_code <$> originals st)
    ∧ (l ≠ [] → List.head bs = Some true).
Proof.
  induction l as [|a l IH] using rev_ind; intros Hd st.
  - exists []. subst st. cbn [foldl]. unfold no_articles_seen. cbn [flags originals independent_sources].
    rewrite map_to_list_empty. by split_and!.
  - assert (distinct_ids l ∧ article_id a ∉ article_id <$> l) as [Hdl Hnew].
    { unfold distinct_ids in *. rewrite fmap_app in Hd. apply NoDup_app in Hd as (Hdl&Hnin&_).
      split; [done|]. intros Hin. apply (Hnin _ Hin). simpl. left. }
    destruct (IH Hdl) as (bs&Hlen&Hp&Horig&Hsrc&Hhd). subst st. rewrite foldl_snoc.
    set (st := foldl independence_step no_articles_seen l) in *.
    assert (flags st !! article_id a = None) as Hfresh.
    { destruct (flags st !! article_id a) as [b|] eqn:Hb; [|done]. exfalso. apply Hnew.
      apply elem_of_map_to_list in Hb. rewrite Hp in Hb. by apply elem_of_zip_l in Hb. }
    exists (bs ++ [negb (verbatim st a)]).
    unfold independence_step. cbn [flags originals independent_sources].
    rewrite !length_app, List.filter_app, length_app, map_to_list_insert, Hp by done.
    split_and!.
    + simpl. lia.
    + rewrite fmap_app, zip_with_app by (by rewrite length_fmap). simpl. apply Permutation_cons_append.
    + destruct (verbatim st a); simpl; [lia|]. rewrite length_app. simpl. lia.
    + destruct (verbatim st a); [done|]. rewrite Hsrc, fmap_app, list_to_set_app_L. set_solver.
    + intros _. destruct l as [|a' l'].
      * by destruct bs.
      * specialize (Hhd ltac:(done)). by destruct bs.
Qed.

(** ** The event of a group *)
Lemma min_of_spec x l y : y ∈ x :: l → min_of x l ≤ y.
Proof.
  unfold min_of. intros Hy. revert y Hy. induction l as [|z l IH] using rev_ind; intros y Hy.
  - apply list_elem_of_singleton in Hy as ->. done.
  - rewrite foldl_snoc. rewrite app_comm_cons in Hy.
    apply elem_of_app in Hy as [Hy|Hy%list_elem_of_singleton]; [|lia].
    specialize (IH y Hy). lia.
Qed.

Lemma max_of_spec x l y : y ∈ x :: l → y ≤ max_of x l.
Proof.
  unfold max_of. intros Hy. revert y Hy. induction l as [|z l IH] using rev_ind; intros y Hy.
  - apply list_elem_of_singleton in Hy as ->. done.
  - rewrite foldl_snoc. rewrite app_comm_cons in Hy.
    apply elem_of_app in Hy as [Hy|Hy%list_elem_of_singleton]; [|lia].
    specialize (IH y Hy). lia.
Qed.

Definition confidence_of (r : match_reason) (wide : bool) : float :=
  py_round (fmax fzero (fmin fone
    (if wide then fsub (MATCH_CONFIDENCE r) WIDE_SPAN_PENALTY else MATCH_CONFIDENCE r))) 4.

Lemma confidence_bounds r wide :
  fle (flit 5 1) (confidence_of r wide) = true ∧ fle (confidence_of r wide) fone = true.
Proof. destruct r, wide; vm_compute; done. Qed.

Lemma independence_flags ms :
  distinct_ids ms → ms ≠ [] →
  ∃ fl n_sources n_syndicated bs, _independence ms = (fl, n_sources, n_syndicated)
    ∧ Forall2 (λ a b, fl !! article_id a = Some b) ms bs
    ∧ List.head bs = Some true
    ∧ n_syndicated = Z.of_nat (List.length (List.filter negb bs))
    ∧ 1 ≤ n_sources ≤ Z.of_nat (List.length (List.filter id bs)).
Proof.
  intros Hd Hne. destruct (independence_spec ms Hd) as (bs&Hlen&Hp&Horig&Hsrc&Hhd).
  unfold _independence. set (st := foldl _ _ ms) in *.
  assert (size (independent_sources st) <= List.length (originals st))%nat.
  { rewrite Hsrc. etransitivity; [apply size_list_to_set_le|]. by rewrite length_fmap. }
  eexists _, _, _, bs. split; [done|]. split_and!.
  - apply Forall2_same_length_lookup_2; [done|]. intros i a b Ha Hb.
    apply elem_of_map_to_list. rewrite Hp. apply (list_elem_of_lookup_2 _ i).
    by rewrite lookup_zip_with, list_lookup_fmap, Ha, Hb.
  - by apply Hhd.
  - f_equal. apply Permutation_length, Permutation_bool_filter. rewrite Hp.
    rewrite snd_zip; [done|]. rewrite length_fmap. lia.
  - assert (size (independent_sources st) ≠ 0%nat) as Hpos.
    { rewrite Hsrc. intros Hz%size_empty_inv. specialize (Hhd Hne).
      destruct bs as [|b bs]; [done|]. injection Hhd as ->. simpl in Horig.
      destruct (originals st) as [|o os]; [done|]. simpl in Hz. set_solver. }
    lia.
  - lia.
Qed.

Definition member_of (edges : gmap Z edge) (primary : Z) (p : ArticleInput * bool)
    (m : GroupMember) : Prop :=
  m_article_id m = article_id p.1 ∧ is_primary m = (article_id p.1 =? primary)
  ∧ is_independent m = p.2
  ∧ ∃ e, edges !! article_id p.1 = Some e ∧ m_reason m = e.1 ∧ similarity m = py_round e.2 4.

Lemma zip_members edges primary ms found bs :
  Forall2 (λ a e, edges !! article_id a = Some e) ms found → List.length bs = List.length ms →
  Forall2 (member_of edges primary) (zip ms bs)
    ((λ p : ArticleInput * (edge * bool),
        {| m_article_id := article_id p.1; similarity := py_round p.2.1.2 4;
           m_reason := p.2.1.1; is_primary := article_id p.1 =? primary;
           is_independent := p.2.2 |}) <$> List.combine ms (List.combine found bs)).
Proof.
  intros H2. revert bs. induction H2 as [|a e ms found Ha _ IH]; intros bs Hlen; simpl.
  - destruct bs; simpl; constructor.
  - destruct bs as [|b bs]; [done|]. simpl in *.
    constructor; [|apply IH; lia]. split_and!; try done. by exists e.
Qed.

Lemma build_event_spec ms edges dc :
  ms ≠ [] → distinct_ids ms → StronglySorted (λ x y, older x y = true) ms →
  (∀ a, a ∈ ms → ∃ e, edges !! article_id a = Some e) →
  ∃ ev bs, _build_event ms edges dc = Ok ev
    ∧ Forall2 (member_of edges (primary_article_id ev)) (zip ms bs) (members ev)
    ∧ List.length bs = List.length ms ∧ List.head bs = Some true
    ∧ article_id <$> List.head ms = Some (primary_article_id ev)
    ∧ article_count ev = Z.of_nat (List.length ms)
    ∧ syndication_count ev = Z.of_nat (List.length (List.filter negb bs))
    ∧ 1 ≤ independent_source_count ev ≤ Z.of_nat (List.length (List.filter id bs))
    ∧ (∀ a, a ∈ ms → e_available_at ev ≤ seen_time a ≤ last_updated_at ev)
    ∧ (∃ r wide, e_confidence ev = confidence_of r wide).
Proof.
  intros Hne Hd Hs Hedges.
  destruct (independence_flags ms Hd Hne) as (fl&ns&nsyn&bs&Hind&Hfl&Hhd&Hsyn&Hns).
  destruct (traverse_total (λ item, key_error (edges !! article_id item))
              (λ a e, edges !! article_id a = Some e) ms) as (found&Hfound&Hf2).
  { intros a Ha. destruct (Hedges a Ha) as [e He]. exists e. by rewrite He. }
  assert (traverse (λ item, key_error (fl !! article_id item)) ms = Ok bs) as Hflags.
  { apply traverse_Ok. eapply Forall2_impl; [exact Hfl|]. cbv beta. intros a b Hab. by rewrite Hab. }
  assert (py_sorted older ms = ms) as Hsort.
  { apply py_sorted_id. eapply StronglySorted_impl; [|exact Hs]. intros x y Hxy.
    by apply (wo_asym older). }
  assert (List.length bs = List.length ms) as Hlen by (symmetry; by eapply Forall2_length).
  destruct ms as [|p rest]; [done|].
  unfold _build_event. rewrite Hsort, Hind. cbv zeta. rewrite Hfound. cbn [mbind result_bind].
  rewrite Hflags. cbn [mbind result_bind].
  match goal with |- context [if dc then ?x else ?y] => destruct (if dc then x else y) as [conf cats] end.
  eexists _, bs. split; [done|].
  cbn [members primary_article_id article_count syndication_count independent_source_count
       e_available_at last_updated_at e_confidence].
  split_and!; try done.
  - apply zip_members; [|done]. eapply Forall2_impl; [exact Hf2|]. by intros a e [_ ?].
  - lia.
  - lia.
  - intros a Ha. unfold seen_time.
    assert (to_utc (available_at a) ∈ to_utc (available_at p)
              :: ((λ item, to_utc (available_at item)) <$> rest)) as Hin.
    { change (to_utc (available_at p) :: _)
        with ((λ item, to_utc (available_at item)) <$> (p :: rest)).
      by apply (list_elem_of_fmap_2 (λ item, to_utc (available_at item))). }
    split; [by apply min_of_spec|by apply max_of_spec].
  - unfold confidence_of. match goal with |- context [fgt ?x ?y] => destruct (fgt x y) end.
    + eexists _, true. reflexivity.
    + eexists _, false. reflexivity.
Qed.

(** What an event says of the group it was built from. *)
Definition event_of (g : Group) (ev : ConsolidatedEvent) : Prop :=
  ∃ bs, Forall2 (member_of (g_edges g) (primary_article_id ev)) (zip (g_members g) bs) (members ev)
    ∧ List.length bs = List.length (g_members g) ∧ List.head bs = Some true
    ∧ article_id <$> List.head (g_members g) = Some (primary_article_id ev)
    ∧ article_count ev = Z.of_nat (List.length (g_members g))
    ∧ syndication_count ev = Z.of_nat (List.length (List.filter negb bs))
    ∧ 1 ≤ independent_source_count ev ≤ Z.of_nat (List.length (List.filter id bs))
    ∧ (∀ a, a ∈ g_members g → e_available_at ev ≤ seen_time a ≤ last_updated_at ev)
    ∧ (∃ r wide, e_confidence ev = confidence_of r wide).

Lemma distinct_concat ls l : distinct_ids (concat ls) → l ∈ ls → distinct_ids l.
Proof.
  unfold distinct_ids. induction ls as [|k ls IH]; simpl; [by intros _ ?%elem_of_nil|].
  rewrite fmap_app. intros (Hk&_&Hls)%NoDup_app [->|Hl]%elem_of_cons; [done|by apply IH].
Qed.

Lemma consolidate_inv arts dc :
  distinct_ids arts → readable arts →
  ∃ gs evs, consolidate arts dc = Ok evs ∧ grouped (py_sorted older arts) gs
    ∧ Forall2 event_of gs evs.
Proof.
  intros Hd Hr. destruct (groups_of_batch arts Hd Hr) as (gs&Hgs&Hgr).
  unfold consolidate. rewrite Hgs. cbn [mbind result_bind].
  destruct (traverse_total (λ g, _build_event (g_members g) (g_edges g) dc) event_of gs)
    as (evs&Hevs&H2).
  - intros g Hg. destruct Hgr as (Hperm&Hne&Hsort&Hev). rewrite Forall_forall in Hne, Hsort.
    destruct (build_event_spec (g_members g) (g_edges g) dc) as (ev&bs&Hev'&Hfacts).
    + by apply Hne.
    + apply (distinct_concat (g_members <$> gs)); [|by apply list_elem_of_fmap_2].
      unfold distinct_ids. by rewrite Hperm, (py_sorted_perm older arts).
    + by apply Hsort.
    + intros a Ha. destruct (Hev g a Hg Ha) as (e&He&_). by exists e.
    + exists ev. split; [done|]. by exists bs.
  - exists gs, evs. split_and!; [done|done|]. eapply Forall2_impl; [exact H2|]. by intros g ev [_ ?].
Qed.

Lemma event_ids g ev : event_of g ev → article_ids ev = article_id <$> g_members g.
Proof.
  intros (bs&H2&Hlen&_). unfold article_ids. revert bs H2 Hlen.
  generalize (members ev) as ms. induction (g_members g) as [|a l IH]; intros ms bs H2 Hlen.
  - simpl in H2. by inversion H2.
  - destruct bs as [|b bs]; [done|]. inversion H2 as [|? m ? ms' Hm H2']; subst. simpl.
    destruct Hm as [-> _]. f_equal. apply (IH _ bs); [done|]. simpl in Hlen. lia.
Qed.

(** Consolidation loses nothing and counts nothing twice: given readable
    addresses it always returns, no event is empty, and the articles of all
    events together are exactly the articles of the batch. *)
Theorem consolidate_partition arts dc :
  distinct_ids arts → readable arts →
  ∃ evs, consolidate arts dc = Ok evs
    ∧ concat (article_ids <$> evs) ≡ₚ article_id <$> arts
    ∧ Forall (λ ev, article_ids ev ≠ []) evs.
Proof.
  intros Hd Hr. destruct (consolidate_inv arts dc Hd Hr) as (gs&evs&Hc&(Hperm&Hne&_)&H2).
  exists evs. split; [done|].
  assert (article_ids <$> evs = (λ g, article_id <$> g_members g) <$> gs) as Hids.
  { clear -H2. induction H2 as [|g ev gs evs Hg _ IH]; [done|]. simpl. f_equal; [|done].
    by apply event_ids. }
  split.
  - rewrite Hids, <- (py_sorted_perm older arts), <- Hperm. clear. induction gs as [|g gs IH]; [done|].
    simpl. by rewrite fmap_app, IH.
  - assert (Forall (λ l : list Z, l ≠ []) (article_ids <$> evs)) as Hids'.
    { rewrite Hids. apply Forall_fmap. eapply Forall_impl; [exact Hne|]. intros g Hg Heq.
      by apply fmap_nil_inv in Heq. }
    rewrite Forall_fmap in Hids'. exact Hids'.
Qed.

(** The order a batch arrives in does not matter. *)
Theorem consolidate_order_insensitive arts arts' dc :
  distinct_ids arts → arts ≡ₚ arts' → consolidate arts dc = consolidate arts' dc.
Proof. intros Hd Hp. unfold consolidate. by rewrite (sorted_batch_unique arts arts'). Qed.

(** C34. Every membership is explained.  The first article of an event matched
    nothing older in the whole batch; every other member carries the reason and
    similarity of an actual match with an older member of the SAME event, and
    no older article of the batch, in any event, matched it more strongly. *)
Theorem consolidate_evidence arts dc evs ev m :
  distinct_ids arts → readable arts → consolidate arts dc = Ok evs → ev ∈ evs → m ∈ members ev →
  ∃ a, a ∈ arts ∧ article_id a = m_article_id m
  ∧ ((m_reason m = MATCH_SEED ∧ ∀ y, y ∈ arts → older y a = true → edge_of a y = Ok None)
     ∨ (m_reason m ≠ MATCH_SEED
        ∧ (∃ x s, x ∈ arts ∧ article_id x ∈ article_ids ev ∧ older x a = true
                  ∧ edge_of a x = Ok (Some (m_reason m, s)) ∧ similarity m = py_round s 4)
        ∧ ∀ y r s, y ∈ arts → older y a = true → edge_of a y = Ok (Some (r, s)) →
            stronger r (m_reason m) = false)).
Proof.
  intros Hd Hr Hc Hev Hm.
  destruct (consolidate_inv arts dc Hd Hr) as (gs&evs'&Hc'&Hgr&H2).
  rewrite Hc in Hc'. injection Hc' as <-.
  destruct (Forall2_elem_r _ _ _ _ H2 Hev) as (g&Hg&Hfacts).
  pose proof (event_ids g ev Hfacts) as Hids. destruct Hfacts as (bs&Hms&_).
  destruct (Forall2_elem_r _ _ _ _ Hms Hm) as ([a b]&Hab&Hid&_&_&e&He&Hreason&Hsim).
  apply elem_of_zip_l in Hab. simpl in *.
  assert (∀ x, x ∈ py_sorted older arts ↔ x ∈ arts) as Hin by (intros x; by rewrite py_sorted_perm).
  pose proof (λ y, grouped_elem _ gs y Hgr) as Hgel.
  assert (∀ x, x ∈ g_members g → x ∈ arts) as Hsub.
  { intros x Hx. apply Hin, Hgel. apply list_elem_of_lookup in Hg as [j Hg]. by exists j, g. }
  destruct Hgr as (_&_&_&Hevid). destruct (Hevid g a Hg Hab) as (e'&He'&Hwhy).
  rewrite He in He'. injection He' as <-.
  exists a. split_and!; [by apply Hsub|done|].
  destruct Hwhy as [[-> Hnone]|(Hns&(x&Hx&Hold&Hex)&Hall)]; [left|right].
  - split; [done|]. intros y Hy. by apply Hnone, Hin.
  - rewrite Hreason. split_and!; [done| |].
    + exists x, e.2. split_and!; [by apply Hsub| |done|by destruct e|done].
      rewrite Hids. by apply list_elem_of_fmap_2.
    + intros y r s Hy Ho Hy'. by apply (Hall y (r, s) (proj2 (Hin y) Hy)).
Qed.

Lemma members_independent edges primary ms bs l :
  Forall2 (member_of edges primary) (zip ms bs) l → List.length bs = List.length ms →
  is_independent <$> l = bs ∧ List.length l = List.length ms.
Proof.
  revert bs l. induction ms as [|a ms IH]; intros [|b bs] l H2 Hlen; try done.
  - inversion H2. done.
  - simpl in *. inversion H2 as [|? m ? l' Hm H2']; subst. simpl.
    destruct (IH bs l' H2') as [<- <-]; [lia|]. destruct Hm as (_&_&->&_). done.
Qed.

Lemma length_filter_fmap {A B} (f : A → B) (p : B → bool) l :
  List.length (List.filter p (f <$> l)) = List.length (List.filter (λ x, p (f x)) l).
Proof. induction l as [|x l IH]; [done|]. csimpl. destruct (p (f x)); csimpl; by rewrite IH. Qed.

(** The numbers of an event are those of its members: the members split into
    independent ones and syndicated copies; there is at least one independent
    source and never more than independent members, so copies alone cannot
    raise the count; the primary is the oldest member, and independent; the
    event is available from the first moment one of its articles was; and its
    confidence lies between 0.5 and 1. *)
Theorem event_numbers arts dc evs ev :
  distinct_ids arts → readable arts → consolidate arts dc = Ok evs → ev ∈ evs →
  article_count ev = Z.of_nat (List.length (members ev))
  ∧ article_count ev
    = Z.of_nat (List.length (List.filter is_independent (members ev))) + syndication_count ev
  ∧ 1 ≤ independent_source_count ev
      ≤ Z.of_nat (List.length (List.filter is_independent (members ev)))
  ∧ (∃ m, List.head (members ev) = Some m ∧ m_article_id m = primary_article_id ev
          ∧ is_primary m = true ∧ is_independent m = true)
  ∧ (∀ a, a ∈ arts → article_id a ∈ article_ids ev →
       e_available_at ev ≤ to_utc (available_at a) ≤ last_updated_at ev)
  ∧ fle (flit 5 1) (e_confidence ev) = true ∧ fle (e_confidence ev) fone = true.
Proof.
  intros Hd Hr Hc Hev. destruct (consolidate_inv arts dc Hd Hr) as (gs&evs'&Hc'&Hgr&H2).
  rewrite Hc in Hc'. injection Hc' as <-.
  destruct (Forall2_elem_r _ _ _ _ H2 Hev) as (g&Hg&Hfacts).
  pose proof (event_ids g ev Hfacts) as Hids.
  destruct Hfacts as (bs&Hms&Hlen&Hhd&Hprim&Hcount&Hsyn&Hsrc&Htime&(r&wide&Hconf)).
  destruct (members_independent _ _ _ _ _ Hms Hlen) as [Hbs Hml].
  assert (List.length (List.filter id bs) = List.length (List.filter is_independent (members ev)))
    as Hind by (rewrite <- Hbs, length_filter_fmap; reflexivity).
  pose proof (filter_partition_length id bs) as Hpart.
  assert (List.filter (λ x, negb (id x)) bs = List.filter negb bs) as Hneg by done.
  rewrite Hneg in Hpart.
  split_and!; [by rewrite Hcount, Hml|lia|lia|lia| | | |].
  - destruct (members ev) as [|m l] eqn:Hm, bs as [|b bs]; try done.
    destruct (g_members g) as [|a ms]; [done|]. simpl in *.
    inversion Hms as [|? ? ? ? (Hma&Hmp&Hmi&_) _]; subst. simpl in *.
    injection Hprim as Hprim. injection Hhd as Hhd.
    exists m. split_and!; [done|congruence|rewrite Hmp, Hprim; apply Z.eqb_refl|congruence].
  - intros a Ha Hin. apply Htime. rewrite Hids in Hin.
    apply list_elem_of_fmap in Hin as (a'&Heq&Ha').
    rewrite (same_id arts a a'); [done|done|done| |done].
    rewrite <- (py_sorted_perm older arts). apply (grouped_elem _ gs a' Hgr).
    apply list_elem_of_lookup in Hg as [j Hg]. by exists j, g.
  - rewrite Hconf. apply confidence_bounds.
  - rewrite Hconf. apply confidence_bounds.
Qed.

(** Copies are not corroboration: appending any number of later articles
    whose text is identical to one already counted changes neither the number
    of independent sources nor the originals they are counted from. *)
Theorem copies_add_no_source originals_seen copies :
  (∀ c, c ∈ copies → ∃ o, o ∈ originals_seen ∧ _hash c = _hash o) →
  let before := foldl independence_step no_articles_seen originals_seen in
  let after := foldl independence_step no_articles_seen (originals_seen ++ copies) in
  independent_sources after = independent_sources before ∧ originals after = originals before
  ∧ (_independence (originals_seen ++ copies)).1.2 = (_independence originals_seen).1.2.
Proof.
  intros Hcopies before after.
  assert (seen_hashes before = _hash <$> originals_seen) as Hhashes.
  { subst before. clear. induction originals_seen as [|o l IH] using rev_ind; [done|].
    rewrite foldl_snoc, fmap_app, <- IH. done. }
  assert (independent_sources after = independent_sources before
          ∧ originals after = originals before
          ∧ ∀ h, h ∈ seen_hashes before → h ∈ seen_hashes after) as (Hs&Ho&_).
  { subst after. rewrite foldl_app. fold before.
    induction copies as [|c copies IH] using rev_ind; [done|].
    destruct IH as (Hs&Ho&Hh); [intros c' Hc'; apply Hcopies, elem_of_app; by left|].
    rewrite foldl_snoc. set (st := foldl independence_step before copies) in *.
    assert (verbatim st c = true) as Hv.
    { destruct (Hcopies c) as (o&Hin&Heq); [apply elem_of_app; right; left|].
      unfold verbatim, in_list. apply orb_true_iff. left. apply bool_decide_eq_true_2, Hh.
      rewrite Hhashes, Heq. by apply list_elem_of_fmap_2. }
    unfold independence_step. rewrite Hv. simpl. split_and!; [done|done|].
    intros h Hin. apply elem_of_app. left. by apply Hh. }
  split_and!; [done|done|]. unfold _independence. fold before after. cbn [fst snd]. by rewrite Hs.
Qed.
End ConsolidateLaws.

(** ** A concrete batch: an article, its wire copy, an update of the same item,
    and an unrelated story *)
#[export] Instance no_tables : NewsTables := {
  extract_codes _ _ := ∅;
  classify _ _ := None;
  opposed_rules _ := ∅;
}.

Definition an_article (i : Z) (source url heading : string) (minute : Z) : ArticleInput :=
  {| article_id := i; source_code := txt source;
     available_at := aware (739874 * us_day + minute * us_minute) 0; published_at := None;
     external_id := []; ai_url := []; ai_canonical_url := txt url; title := txt heading;
     summary := []; ai_content_hash := []; entity_codes := None |}.

Definition some_articles : list ArticleInput :=
  [an_article 4 "fed" "https://d" "Federal Reserve minutes" 50;
   an_article 2 "copycat" "https://b" "Gold prices rise after rate cut" 20;
   an_article 1 "reuters" "https://a" "Gold prices rise after rate cut" 10;
   an_article 3 "irna" "https://c" "The gold prices rise: after rate cut" 30].

Definition some_events : list ConsolidatedEvent :=
  match consolidate some_articles true with Ok evs => evs | Err _ => [] end.

Example some_events_summary :
  (λ e, (article_ids e, method e, independent_source_count e, syndication_count e)) <$> some_events
  = [([1; 2; 3], MATCH_TITLE_KEY, 1, 2); ([4], MATCH_SEED, 1, 0)].
Proof. vm_compute. reflexivity. Qed.

Lemma some_articles_readable : readable some_articles.
Proof.
  intros a. unfold some_articles. rewrite !elem_of_cons, elem_of_nil.
  intros [->|[->|[->|[->|[]]]]]; by eexists.
Qed.

Lemma consolidate_partition_witness :
  ∃ evs, consolidate some_articles true = Ok evs
    ∧ concat (article_ids <$> evs) ≡ₚ article_id <$> some_articles
    ∧ Forall (λ ev, article_ids ev ≠ []) evs.
Proof.
  apply (consolidate_partition some_articles true); [by_decide|exact some_articles_readable].
Defined.

Lemma consolidate_order_insensitive_witness :
  consolidate some_articles true = consolidate (reverse some_articles) true.
Proof.
  apply (consolidate_order_insensitive some_articles (reverse some_articles) true);
    [by_decide|symmetry; apply reverse_Permutation].
Defined.

Definition an_event : ConsolidatedEvent :=
  match some_events with
  | e :: _ => e
  | [] => {| primary_article_id := 0; members := []; method := MATCH_SEED; article_count := 0;
             independent_source_count := 0; syndication_count := 0; source_diversity := fzero;
             e_confidence := fzero; conflicting := false; first_published_at := None;
             first_seen_at := 0; last_updated_at := 0; e_available_at := 0; source_codes := [];
             e_entity_codes := []; categories := [] |}
  end.

Lemma an_event_in : an_event ∈ some_events.
Proof. assert (some_events = an_event :: drop 1 some_events) as -> by reflexivity. left. Qed.

Lemma event_numbers_witness :
  article_count an_event
  = Z.of_nat (List.length (List.filter is_independent (members an_event)))
    + syndication_count an_event.
Proof.
  refine (proj1 (proj2 (event_numbers some_articles true some_events an_event _ _ _ _))).
  - by_decide.
  - exact some_articles_readable.
  - vm_compute. reflexivity.
  - exact an_event_in.
Defined.

Definition a_member : GroupMember :=
  default {| m_article_id := 0; similarity := fzero; m_reason := MATCH_SEED; is_primary := false;
             is_independent := false |} (members an_event !! 2%nat).

Lemma consolidate_evidence_witness :
  ∃ a, a ∈ some_articles ∧ article_id a = m_article_id a_member.
Proof.
  destruct (consolidate_evidence some_articles true some_events an_event a_member)
    as (a&Ha&Hid&_).
  - by_decide.
  - exact some_articles_readable.
  - vm_compute. reflexivity.
  - exact an_event_in.
  - apply (list_elem_of_lookup_2 _ 2%nat). vm_compute. reflexivity.
  - exists a. split; [exact Ha|exact Hid].
Defined.

Lemma copies_add_no_source_witness :
  let one := an_article 1 "reuters" "https://a" "Gold prices rise after rate cut" 10 in
  let two := an_article 2 "copycat" "https://b" "Gold prices rise after rate cut" 20 in
  (_independence ([one] ++ [two])).1.2 = (_independence [one]).1.2.
Proof.
  cbv zeta. refine (proj2 (proj2 (copies_add_no_source _ _ _))).
  intros c Hc. apply list_elem_of_singleton in Hc as ->.
  exists (an_article 1 "reuters" "https://a" "Gold prices rise after rate cut" 10).
  split; [left|vm_compute; reflexivity].
Defined.
