(* ===== verification/IndexScale.v ===== *)
(** * The power-of-ten correction of index histories

    [app/bourse/scale.py]: the running exponent that undoes factor-of-ten steps,
    anchored on the scale most rows share, and the verdict that checks the
    corrected history against the exchange's live value.

    [10 ** 0.9] and [10 ** 1.1] are the doubles CPython computes for them; a
    negative power of ten is the correctly rounded quotient. *)
From S2P Require Import Prelude PyFloat PyTime.
Local Open Scope string_scope.
Local Open Scope list_scope.
Local Open Scope Z_scope.

Inductive status : Set := STATUS_VALIDATED | STATUS_REFUSED.

Definition SCALE_BAND_LO : float := int_true_div 7943282347242816 (10 ^ 15).
Definition SCALE_BAND_HI : float := int_true_div 12589254117941675 (10 ^ 15).
Definition MAX_ABS_EXP : Z := 3.
Definition LIVE_RATIO_LO : float := flit 75 2.
Definition LIVE_RATIO_HI : float := fdiv_ieee fone (flit 75 2).

Definition in_band (ratio : float) : bool :=
  fle SCALE_BAND_LO ratio && fle ratio SCALE_BAND_HI.
#[global] Arguments in_band : simpl never.

(** How the running exponent changes from one close to the next. *)
Definition scale_step (previous current : float) : result pyerr Z :=
  ratio ← fdiv current previous;
  if in_band ratio then Ok (-1)
  else
    inverse ← fdiv fone ratio;
    Ok (if in_band inverse then 1 else 0).

(** [rel] from the second close on, and [breaks], the loop index being [i]. *)
Fixpoint rel_from (i : nat) (k : Z) (previous : float) (closes : list float)
    : result pyerr (list Z * list nat) :=
  match closes with
  | [] => Ok ([], [])
  | c :: closes =>
      s ← scale_step previous c;
      rest ← rel_from (S i) (k + s) c closes;
      Ok ((k + s) :: rest.1, if s =? 0 then rest.2 else i :: rest.2)
  end.

(** [Counter(rel)]: in order of first occurrence *)
Fixpoint count_one (k : Z) (counts : list (Z * Z)) : list (Z * Z) :=
  match counts with
  | [] => [(k, 1)]
  | (k', n) :: counts => if k =? k' then (k', n + 1) :: counts else (k', n) :: count_one k counts
  end.

Definition counter (rel : list Z) : list (Z * Z) :=
  foldl (λ counts k, count_one k counts) [] rel.

(** [kv > kv'] under the key [(kv[1], -abs(kv[0]), kv[0])] *)
Definition majority_gt (a b : Z * Z) : bool :=
  (b.2 <? a.2)
  || (a.2 =? b.2)
     && ((Z.abs a.1 <? Z.abs b.1) || (Z.abs a.1 =? Z.abs b.1) && (b.1 <? a.1)).

Definition bad_close (c : float) : bool := negb (fgt c fzero) || is_inf c.

Definition scale_exponents (closes : list float) : result pyerr (list Z * list nat) :=
  match closes with
  | [] => Ok ([], [])
  | c0 :: rest =>
      raise_if (existsb bad_close closes) ValueError;;
      r ← rel_from 1 0 c0 rest;
      let rel := 0 :: r.1 in
      match first_max majority_gt (counter rel) with
      | None => Err ValueError
      | Some (reference, _) => Ok ((λ k, k - reference) <$> rel, r.2)
      end
  end.

(** ** The verdict *)
Inductive refusal : Set :=
| needs_power (worst_exp : Z)
| disagrees_with_live (newest : float) (on : date) (ratio live_value : float).

Record IndexVerdict : Set := {
  v_status : status;
  values_total : nat;
  v_dropped_nonpositive : Z;
  scale_breaks : nat;
  rows_rescaled : nat;
  first_break : option date;
  last_break : option date;
  largest_move : option float;
  largest_move_date : option date;
  v_live_value : option float;
  live_ratio : option float;
  refusal_reason : list refusal;
}.

(** [10 ** e]: an int for [e >= 0], a float below. *)
Definition pow10 (e : Z) : result pyerr float :=
  if 0 <=? e then py_float_of_int (10 ^ e) else Ok (int_true_div 1 (10 ^ (- e))).

Definition correct (ce : float * Z) : result pyerr float := p ← pow10 ce.2; Ok (fmul ce.1 p).

(** [dates[i]] *)
Definition date_at (dates : list date) (i : nat) : result pyerr date :=
  match dates !! i with Some d => Ok d | None => Err IndexError end.

Fixpoint moves_from (dates : list date) (i : nat) (previous : float) (corrected : list float)
    (largest : option (float * date)) : result pyerr (option (float * date)) :=
  match corrected with
  | [] => Ok largest
  | c :: corrected =>
      q ← fdiv c previous;
      let move := fsub q fone in
      let replace := match largest with
                     | None => true
                     | Some (l, _) => fgt (fabs move) (fabs l)
                     end in
      largest ← (if (replace : bool) then d ← date_at dates i; Ok (Some (move, d))
                 else Ok largest);
      moves_from dates (S i) c corrected largest
  end.

Definition opt_date_at (dates : list date) (i : option nat) : result pyerr (option date) :=
  match i with None => Ok None | Some i => d ← date_at dates i; Ok (Some d) end.

Definition verdict (dates : list date) (closes : list float) (exps : list Z)
    (breaks : list nat) (dropped_nonpositive : Z) (live_value : option float)
    : result pyerr IndexVerdict :=
  corrected ← traverse correct (List.combine closes exps);
  largest ← match corrected with
            | [] => Ok None
            | c0 :: rest => moves_from dates 1 c0 rest None
            end;
  let worst_exp := foldl Z.max 0 (Z.abs <$> exps) in
  let reasons := if MAX_ABS_EXP <? worst_exp then [needs_power worst_exp] else [] in
  live ← match live_value, last corrected with
         | Some lv, Some newest =>
             if fgt lv fzero then
               ratio ← fdiv newest lv;
               if negb (fle LIVE_RATIO_LO ratio && fle ratio LIVE_RATIO_HI) then
                 d ← date_at dates (length dates - 1);
                 Ok (Some ratio, [disagrees_with_live newest d ratio lv])
               else Ok (Some ratio, [])
             else Ok (None, [])
         | _, _ => Ok (None, [])
         end;
  first ← opt_date_at dates (List.head breaks);
  final ← opt_date_at dates (last breaks);
  let reasons := reasons ++ live.2 in
  Ok {| v_status := match reasons with [] => STATUS_VALIDATED | _ => STATUS_REFUSED end;
        values_total := length closes;
        v_dropped_nonpositive := dropped_nonpositive;
        scale_breaks := length breaks;
        rows_rescaled := length (List.filter (λ e, negb (e =? 0)) exps);
        first_break := first;
        last_break := final;
        largest_move := fst <$> largest;
        largest_move_date := snd <$> largest;
        v_live_value := live_value;
        live_ratio := live.1;
        refusal_reason := reasons |}.

Example second_market :
  scale_exponents (float_of_Z <$> [9878360; 1006020; 9900000; 9910000])
  = Ok ([0; 1; 0; 0], [1%nat; 2%nat]).
Proof. vm_compute. reflexivity. Qed.

(** ** The walk *)
Lemma rel_from_spec i k p cs rel brk :
  rel_from i k p cs = Ok (rel, brk) →
  length rel = length cs
  ∧ (∀ j a b e, (p :: cs) !! j = Some a → cs !! j = Some b → (k :: rel) !! j = Some e →
       ∃ s, scale_step a b = Ok s ∧ rel !! j = Some (e + s)
            ∧ ((i + j)%nat ∈ brk ↔ s ≠ 0))
  ∧ (∀ x, x ∈ brk → (i ≤ x < i + length cs)%nat).
Proof.
  revert i k p rel brk. induction cs as [|c cs IH]; intros i k p rel brk; simpl.
  - intros [= <- <-]. split_and!; [done|done|]. intros x. by rewrite elem_of_nil.
  - intros H. apply bind_Ok in H as (s&Hs&H). apply bind_Ok in H as ([rel' brk']&Hr&H).
    injection H as <- <-. destruct (IH _ _ _ _ _ Hr) as (Hlen&Hstep&Hbrk). simpl.
    assert (∀ x, x ∈ (if s =? 0 then brk' else i :: brk') ↔ (x = i ∧ s ≠ 0) ∨ x ∈ brk') as Hin.
    { intros x. destruct (Z.eqb_spec s 0); [naive_solver|]. rewrite elem_of_cons. naive_solver. }
    split_and!; [by rewrite Hlen| |].
    + intros [|j] a b e Ha Hb He; simpl in *.
      * simplify_eq. exists s. split_and!; [done|done|]. rewrite Hin, Nat.add_0_r.
        split; [|by left]. intros [[_ ?]|Hx%Hbrk]; [done|lia].
      * destruct (Hstep j a b e Ha Hb He) as (s'&Hs'&Hrel&Hb').
        exists s'. split_and!; [done|done|]. rewrite Hin, Nat.add_succ_r. rewrite <- Hb'.
        simpl. split; [intros [[? _]|?]; [lia|done]|by right].
    + intros x. rewrite Hin. intros [[-> _]|Hx%Hbrk]; lia.
Qed.

Lemma scale_exponents_inv c0 rest exps brk :
  scale_exponents (c0 :: rest) = Ok (exps, brk) →
  existsb bad_close (c0 :: rest) = false
  ∧ ∃ rel ref n, rel_from 1 0 c0 rest = Ok (rel, brk)
      ∧ first_max majority_gt (counter (0 :: rel)) = Some (ref, n)
      ∧ exps = (λ k, k - ref) <$> (0 :: rel).
Proof.
  unfold scale_exponents. intros H. apply bind_Ok in H as (u&Hb%raise_if_Ok&H).
  apply bind_Ok in H as ([rel brk']&Hr&H). cbv zeta in H.
  destruct (first_max _ _) as [[ref n]|] eqn:Hm; [|done]. injection H as <- <-.
  split; [done|]. by exists rel, ref, n.
Qed.

Lemma scale_exponents_length cs exps brk :
  scale_exponents cs = Ok (exps, brk) → length exps = length cs.
Proof.
  destruct cs as [|c0 rest]; [by intros [= <- <-]|].
  intros (_&rel&ref&n&Hr&_&->)%scale_exponents_inv.
  destruct (rel_from_spec _ _ _ _ _ _ Hr) as (Hlen&_). simpl. by rewrite length_fmap, Hlen.
Qed.

Lemma scale_step_values a b s : scale_step a b = Ok s → s = -1 ∨ s = 0 ∨ s = 1.
Proof.
  unfold scale_step. generalize in_band as f. intros f H.
  apply bind_Ok in H as (r&_&H). destruct (f r); [injection H as <-; by left|].
  apply bind_Ok in H as (v&_&H). destruct (f v); injection H as <-; auto.
Qed.

(** The exponents undo exactly the decimal steps: there is one per close;
    between two consecutive closes the exponent moves by the step of those two
    closes - down by one where the ratio lies in the band around ten, up by one
    where its inverse does, not at all otherwise - and the reported breaks are
    exactly the indices where it moves. *)
Theorem scale_exponents_steps cs exps brk :
  scale_exponents cs = Ok (exps, brk) →
  length exps = length cs
  ∧ (∀ i a b, cs !! i = Some a → cs !! S i = Some b →
       ∃ e s, exps !! i = Some e ∧ exps !! S i = Some (e + s)
         ∧ scale_step a b = Ok s ∧ (s = -1 ∨ s = 0 ∨ s = 1)
         ∧ (S i ∈ brk ↔ s ≠ 0))
  ∧ (∀ i, i ∈ brk → (0 < i < length cs)%nat).
Proof.
  destruct cs as [|c0 rest].
  { intros [= <- <-]. split_and!; [done|done|]. intros i. by rewrite elem_of_nil. }
  intros (_&rel&ref&n&Hr&_&->)%scale_exponents_inv.
  destruct (rel_from_spec _ _ _ _ _ _ Hr) as (Hlen&Hstep&Hbrk). split_and!.
  - simpl. by rewrite length_fmap, Hlen.
  - intros i a b Ha Hb.
    destruct (lookup_lt_is_Some_2 (0 :: rel) i) as [e He].
    { apply lookup_lt_Some in Hb. simpl in *. lia. }
    destruct (Hstep i a b e Ha Hb He) as (s&Hs&Hrel&Hin).
    exists (e - ref), s. rewrite !list_lookup_fmap, He. simpl. rewrite Hrel. simpl.
    split_and!; [done|f_equal; lia|done| |done].
    by apply (scale_step_values a b).
  - intros i Hi. specialize (Hbrk i Hi). simpl. lia.
Qed.

Lemma scale_exponents_steps_witness :
  length [0; 1; 0; 0] = length (float_of_Z <$> [9878360; 1006020; 9900000; 9910000]).
Proof.
  apply (scale_exponents_steps (float_of_Z <$> [9878360; 1006020; 9900000; 9910000])
           [0; 1; 0; 0] [1%nat; 2%nat]).
  vm_compute. reflexivity.
Defined.

(** ** The majority scale *)
Definition occurrences (k : Z) (l : list Z) : Z := Z.of_nat (length (List.filter (Z.eqb k) l)).

Lemma occurrences_app k l l' : occurrences k (l ++ l') = occurrences k l + occurrences k l'.
Proof. unfold occurrences. rewrite List.filter_app, length_app. lia. Qed.

Lemma occurrences_pos k l : k ∈ l → 0 < occurrences k l.
Proof.
  intros Hin. unfold occurrences.
  assert (k ∈ List.filter (Z.eqb k) l) as H by (apply elem_of_bool_filter; by rewrite Z.eqb_refl).
  destruct (List.filter (Z.eqb k) l); [by apply elem_of_nil in H|]. simpl. lia.
Qed.

Lemma occurrences_shift k r l : occurrences k ((λ x, x - r) <$> l) = occurrences (k + r) l.
Proof.
  unfold occurrences. f_equal. induction l as [|x l IH]; [done|]. csimpl.
  assert ((k =? x - r) = (k + r =? x)) as -> by (destruct (Z.eqb_spec k (x - r)), (Z.eqb_spec (k + r) x); lia).
  destruct (k + r =? x); csimpl; by rewrite IH.
Qed.

Definition counts_ok (counts : list (Z * Z)) (l : list Z) : Prop :=
  ∀ k n, (k, n) ∈ counts ↔ 0 < n ∧ n = occurrences k l.

(** The keys and entries after counting one more [k]. *)
Lemma count_one_entries k counts :
  NoDup counts.*1 →
  (∀ k', k' ∈ (count_one k counts).*1 ↔ k' = k ∨ k' ∈ counts.*1)
  ∧ NoDup (count_one k counts).*1
  ∧ (∀ k' n, (k', n) ∈ count_one k counts ↔
       (k' = k ∧ ((k, n - 1) ∈ counts ∨ n = 1 ∧ k ∉ counts.*1))
       ∨ (k' ≠ k ∧ (k', n) ∈ counts)).
Proof.
  intros Hnd. induction counts as [|[k1 n1] counts IH]; csimpl.
  - split_and!; [set_solver|repeat constructor; set_solver|].
    intros k' n. rewrite list_elem_of_singleton, !elem_of_nil. naive_solver.
  - csimpl in Hnd. apply NoDup_cons in Hnd as [Hni Hnd]. destruct (IH Hnd) as (IH1&IH2&IH3).
    destruct (Z.eqb_spec k k1) as [<-|Hne]; csimpl.
    + split_and!; [intros k'; rewrite elem_of_cons; naive_solver|by constructor|].
      intros k' n. rewrite !elem_of_cons.
      assert (∀ m, (k, m) ∈ counts → False) as Hno.
      { intros m Hm. apply Hni. by apply (list_elem_of_fmap_2 fst) in Hm. }
      split.
      * intros [[= -> ->]|Hk]; [left; split; [done|]; left; left; f_equal; lia|].
        right. split; [intros ->; by eapply Hno|by right].
      * intros [[-> [[[= Hn]|Hm]|[_ Hm]]]|[Hk [[= -> ->]|Hm]]]; try done.
        -- left. by replace n with (n1 + 1) by lia.
        -- exfalso. by apply (Hno (n - 1)).
        -- exfalso. exact (Hm (or_introl eq_refl)).
        -- right. exact Hm.
    + split_and!.
      * intros k'. rewrite !elem_of_cons, IH1. tauto.
      * constructor; [|done]. rewrite IH1. intros [->|?]; done.
      * intros k' n. rewrite !elem_of_cons, IH3. split.
        -- intros [[= -> ->]|[[-> [H|[-> H]]]|[Hk H]]].
           ++ right. split; [done|by left].
           ++ left. split; [done|]. left. by right.
           ++ left. split; [done|]. right. split; [done|]. set_solver.
           ++ right. split; [done|by right].
        -- intros [[-> [[[= ? ?]|H]|[-> H]]]|[Hk [[= -> ->]|H]]]; try done.
           ++ right. left. split; [done|by left].
           ++ right. left. split; [done|]. right. split; [done|]. set_solver.
           ++ by left.
           ++ right. right. by split.
Qed.

Lemma count_one_spec k counts l :
  NoDup counts.*1 → counts_ok counts l →
  NoDup (count_one k counts).*1 ∧ counts_ok (count_one k counts) (l ++ [k]).
Proof.
  intros Hnd Hok.
  assert (∀ k', occurrences k' (l ++ [k]) = occurrences k' l + if k' =? k then 1 else 0) as Hocc.
  { intros k'. rewrite occurrences_app. unfold occurrences at 2. simpl.
    by destruct (k' =? k). }
  destruct (count_one_entries k counts Hnd) as (_&Hnd'&Hin). unfold counts_ok in Hok.
  split; [done|]. intros k' n. rewrite Hin, Hocc.
  assert (k ∉ counts.*1 ↔ occurrences k l = 0) as Hzero.
  { split.
    - intros Hn. destruct (Z.lt_ge_cases 0 (occurrences k l)) as [Hpos|]; [|unfold occurrences in *; lia].
      destruct Hn. apply (list_elem_of_fmap_2 fst _ (k, occurrences k l)). by apply Hok.
    - intros H0 ([k1 m]&->&Hm)%list_elem_of_fmap. apply Hok in Hm. simpl in *. lia. }
  rewrite Hzero, !Hok. assert (0 ≤ occurrences k l) by (unfold occurrences; lia).
  destruct (Z.eqb_spec k' k) as [->|]; [|naive_solver lia]. split.
  - intros [[_ [?|[-> ?]]]|[? _]]; [lia|lia|done].
  - intros [Hn ->]. left. split; [done|].
    destruct (Z.eq_dec (occurrences k l) 0); [right|left]; lia.
Qed.

Lemma counter_spec l : counts_ok (counter l) l.
Proof.
  assert (∀ l1 l2 counts, NoDup counts.*1 → counts_ok counts l1 →
    NoDup (foldl (λ counts k, count_one k counts) counts l2).*1
    ∧ counts_ok (foldl (λ counts k, count_one k counts) counts l2) (l1 ++ l2)) as H.
  { intros l1 l2. revert l1. induction l2 as [|k l2 IH]; intros l1 counts Hnd Hok; simpl.
    - by rewrite app_nil_r.
    - replace (l1 ++ k :: l2) with ((l1 ++ [k]) ++ l2) by (by rewrite <- app_assoc).
      destruct (count_one_spec k counts l1 Hnd Hok). by apply IH. }
  apply (H [] l []); [constructor|]. intros k n. rewrite elem_of_nil. unfold occurrences. simpl. lia.
Qed.

Lemma majority_first_max counts a x :
  first_max majority_gt counts = Some a → x ∈ counts → majority_gt x a = false.
Proof.
  destruct counts as [|b counts]; [done|]. intros [= <-] Hx.
  apply (first_max_from_ge majority_gt (λ _, True)); [| | |by apply Forall_true|done];
    unfold majority_gt; intros; lia.
Qed.

(** The correction is anchored on the scale most rows share: no exponent is
    borne by more rows than zero is.  Between scales borne by equally many
    rows the one nearest the first row's scale is the anchor, and of two
    equally near the larger. *)
Theorem scale_exponents_majority cs exps brk :
  scale_exponents cs = Ok (exps, brk) → cs ≠ [] →
  ∃ e0, List.head exps = Some e0
    ∧ 0 < occurrences 0 exps
    ∧ ∀ k, occurrences k exps ≤ occurrences 0 exps
      ∧ (occurrences k exps = occurrences 0 exps →
           Z.abs e0 ≤ Z.abs (k - e0) ∧ (Z.abs e0 = Z.abs (k - e0) → k ≤ 0)).
Proof.
  destruct cs as [|c0 rest]; [done|]. intros Hs _.
  apply scale_exponents_inv in Hs as (_&rel&ref&n&_&Hmax&->).
  pose proof (counter_spec (0 :: rel)) as Hc.
  pose proof (first_max_elem _ _ _ Hmax) as Href. apply Hc in Href as [Hn ->].
  exists (0 - ref). split; [done|].
  rewrite occurrences_shift, Z.add_0_l. split; [done|]. intros k.
  rewrite occurrences_shift.
  destruct (Z.le_gt_cases (occurrences (k + ref) (0 :: rel)) 0) as [Hz|Hz]; [lia|].
  pose proof (majority_first_max _ _ (k + ref, occurrences (k + ref) (0 :: rel)) Hmax) as Hgt.
  specialize (Hgt (proj2 (Hc _ _) (conj Hz eq_refl))). unfold majority_gt in Hgt. simpl in Hgt.
  lia.
Qed.

Lemma scale_exponents_majority_witness :
  ∃ e0, List.head [0; 1; 0; 0] = Some e0
    ∧ 0 < occurrences 0 [0; 1; 0; 0]
    ∧ ∀ k, occurrences k [0; 1; 0; 0] ≤ occurrences 0 [0; 1; 0; 0]
      ∧ (occurrences k [0; 1; 0; 0] = occurrences 0 [0; 1; 0; 0] →
           Z.abs e0 ≤ Z.abs (k - e0) ∧ (Z.abs e0 = Z.abs (k - e0) → k ≤ 0)).
Proof.
  apply (scale_exponents_majority (float_of_Z <$> [9878360; 1006020; 9900000; 9910000]) _
           [1%nat; 2%nat]); [vm_compute; reflexivity|done].
Defined.

(** ** The verdict *)
Lemma moves_from_spec dates i p cs lg out :
  moves_from dates i p cs lg = Ok out →
  (∀ l d, lg = Some (l, d) →
     ∃ m d', out = Some (m, d') ∧ ∀ x, fgt x (fabs m) = true → fgt x (fabs l) = true)
  ∧ (∀ j a b q, (p :: cs) !! j = Some a → cs !! j = Some b → fdiv b a = Ok q →
       ∃ m d, out = Some (m, d) ∧ fgt (fabs (fsub q fone)) (fabs m) = false).
Proof.
  revert i p lg. induction cs as [|c cs IH]; intros i p lg H.
  { injection H as <-. split; [|by intros [|j]].
    intros l d ->. by exists l, d. }
  simpl in H. apply bind_Ok in H as (q&Hq&H). cbv zeta in H.
  apply bind_Ok in H as (lg'&Hlg'&H). destruct (IH _ _ _ H) as [IH1 IH2].
  set (move := fsub q fone) in *.
  assert (∃ l' d', lg' = Some (l', d') ∧ fgt (fabs move) (fabs l') = false
    ∧ ∀ l d, lg = Some (l, d) → ∀ x, fgt x (fabs l') = true → fgt x (fabs l) = true)
    as (l'&d'&->&Hmove&Hold).
  { destruct lg as [[l d]|]; simpl in Hlg'.
    - destruct (fgt (fabs move) (fabs l)) eqn:Hgt; simpl in Hlg'.
      + apply bind_Ok in Hlg' as (d1&_&Hlg'). injection Hlg' as <-.
        exists move, d1. split_and!; [done|apply flt_irrefl|].
        intros ? ? [= -> ->] x Hx. unfold fgt in *. by apply (flt_trans _ (fabs move)).
      + injection Hlg' as <-. exists l, d. split_and!; [done|done|]. by intros ? ? [= -> ->].
    - apply bind_Ok in Hlg' as (d1&_&Hlg'). injection Hlg' as <-.
      exists move, d1. split_and!; [done|apply flt_irrefl|done]. }
  destruct (IH1 _ _ eq_refl) as (m&d&->&Hm). split.
  - intros l d0 Hl. exists m, d. split; [done|]. intros x Hx. by eapply Hold, Hm.
  - intros [|j] a b q' Ha Hb Hq'; simpl in *.
    + simplify_eq. exists m, d. split; [done|]. apply not_true_iff_false.
      intros Hx%Hm. unfold move in Hmove. congruence.
    + destruct (IH2 j a b q' Ha Hb Hq') as (m'&d''&[= <- <-]&Hx). by exists m, d.
Qed.

Lemma foldl_max_le l b bound : foldl Z.max b l ≤ bound ↔ b ≤ bound ∧ ∀ x, x ∈ l → x ≤ bound.
Proof.
  revert b. induction l as [|x l IH]; intros b; simpl.
  - split; [|by intros []]. intros ?. split; [done|]. intros x. by rewrite elem_of_nil.
  - rewrite IH. setoid_rewrite elem_of_cons. rewrite Z.max_lub_iff. naive_solver.
Qed.

(** The verdict: a correction is validated exactly when no exponent is beyond
    three decades and, where the exchange's live value is known and positive,
    the corrected newest value is within [0.75, 1/0.75] of it.  The report
    counts the rescaled rows and the breaks, and no corrected session-to-session
    move is larger than the largest move it names. *)
Theorem verdict_spec dates cs es brk dropped live v :
  verdict dates cs es brk dropped live = Ok v →
  ∃ corrected, traverse correct (List.combine cs es) = Ok corrected
  ∧ (v_status v = STATUS_VALIDATED ↔
       (∀ e, e ∈ es → Z.abs e ≤ 3)
       ∧ ∀ lv newest ratio, live = Some lv → fgt lv fzero = true →
           last corrected = Some newest → fdiv newest lv = Ok ratio →
           fle LIVE_RATIO_LO ratio = true ∧ fle ratio LIVE_RATIO_HI = true)
  ∧ rows_rescaled v = length (List.filter (λ e, negb (e =? 0)) es)
  ∧ scale_breaks v = length brk
  ∧ ∀ i a b q, corrected !! i = Some a → corrected !! S i = Some b → fdiv b a = Ok q →
      ∃ m, largest_move v = Some m ∧ fgt (fabs (fsub q fone)) (fabs m) = false.
Proof.
  unfold verdict. intros H. apply bind_Ok in H as (corrected&Hc&H).
  apply bind_Ok in H as (largest&Hl&H). cbv zeta in H.
  apply bind_Ok in H as ([ratio why]&Hlive&H).
  apply bind_Ok in H as (first&_&H). apply bind_Ok in H as (final&_&H).
  injection H as <-. exists corrected. split; [done|]. cbn -[MAX_ABS_EXP].
  split_and!; [|done|done|].
  2: { intros i a b q Ha Hb Hq. destruct corrected as [|c0 rest]; [done|].
       destruct (moves_from_spec _ _ _ _ _ _ Hl) as [_ Hall].
       destruct (Hall i a b q Ha Hb Hq) as (m&d&->&Hm). by exists m. }
  assert ((if MAX_ABS_EXP <? foldl Z.max 0 (Z.abs <$> es)
           then [needs_power (foldl Z.max 0 (Z.abs <$> es))] else []) = []
          ↔ ∀ e, e ∈ es → Z.abs e ≤ 3) as Hexp.
  { destruct (Z.ltb_spec MAX_ABS_EXP (foldl Z.max 0 (Z.abs <$> es))) as [Hlt|Hle];
      unfold MAX_ABS_EXP in *.
    - split; [done|]. intros Hall. exfalso.
      assert (foldl Z.max 0 (Z.abs <$> es) ≤ 3); [|lia]. apply foldl_max_le. split; [done|].
      intros x (e&->&He)%list_elem_of_fmap. by apply Hall.
    - split; [|done]. intros _ e He. apply foldl_max_le in Hle as [_ Hle].
      by apply Hle, list_elem_of_fmap_2. }
  assert (why = [] ↔ ∀ lv newest ratio, live = Some lv → fgt lv fzero = true →
           last corrected = Some newest → fdiv newest lv = Ok ratio →
           fle LIVE_RATIO_LO ratio = true ∧ fle ratio LIVE_RATIO_HI = true) as Hwhy.
  { clear -Hlive. destruct live as [lv|], (last corrected) as [newest|] eqn:Hlast; inv_ok;
      try (split; [intros _ *; congruence|done]).
    destruct (fgt lv fzero) eqn:Hlv; inv_ok; [|split; [intros _ *; congruence|done]].
    destruct (fle LIVE_RATIO_LO a && fle a LIVE_RATIO_HI) eqn:Hb; simpl in Hlive.
    - injection Hlive as <- <-. apply andb_true_iff in Hb. split; [|done].
      intros _ lv' n' r [= <-] _ [= <-]. rewrite Hok. by intros [= <-].
    - apply bind_Ok in Hlive as (d&_&Hlive). injection Hlive as <- <-.
      split; [done|]. intros Hall. destruct (Hall lv newest a) as [H1 H2]; try done.
      by rewrite H1, H2 in Hb. }
  rewrite <- Hexp, <- Hwhy, <- app_nil.
  by destruct (_ ++ why).
Qed.

Definition day0 : date := 739874.
Definition some_dates : list date := [day0; day0 + 1; day0 + 2; day0 + 3].
Definition some_closes : list float := float_of_Z <$> [9878360; 1006020; 9900000; 9910000].
Definition some_verdict : option IndexVerdict :=
  match verdict some_dates some_closes [0; 1; 0; 0] [1%nat; 2%nat] 0 (Some (float_of_Z 9920000)) with
  | Ok v => Some v | Err _ => None
  end.
Example some_verdict_validated :
  (v_status <$> some_verdict, rows_rescaled <$> some_verdict, some_verdict ≫= last_break)
  = (Some STATUS_VALIDATED, Some 1%nat, Some (day0 + 2)).
Proof. vm_compute. reflexivity. Qed.

Lemma verdict_spec_witness :
  match verdict some_dates some_closes [0; 1; 0; 0] [1%nat; 2%nat] 0
          (Some (float_of_Z 9920000)) with
  | Ok v => rows_rescaled v = 1%nat ∧ scale_breaks v = 2%nat
  | Err _ => False
  end.
Proof.
  destruct (verdict some_dates some_closes [0; 1; 0; 0] [1%nat; 2%nat] 0
              (Some (float_of_Z 9920000))) as [v|e] eqn:Hv.
  - destruct (verdict_spec _ _ _ _ _ _ _ Hv) as (_&_&_&Hr&Hb&_). split; [exact Hr|exact Hb].
  - vm_compute in Hv. discriminate Hv.
Defined.

(** ** Clean histories and refused input *)
Lemma rel_from_error i k p cs e : rel_from i k p cs = Err e → e = ZeroDivisionError.
Proof.
  assert (∀ x y e', fdiv x y = Err e' → e' = ZeroDivisionError) as Hdiv.
  { intros x y e'. unfold fdiv. destruct (feq y fzero); congruence. }
  assert (∀ a b e', scale_step a b = Err e' → e' = ZeroDivisionError) as Hstep.
  { intros a b e'. unfold scale_step. generalize in_band as f. intros f.
    destruct (fdiv b a) as [r|] eqn:Hr; simpl; [|intros [= <-]; by eapply Hdiv].
    destruct (f r); [done|]. destruct (fdiv fone r) as [v|] eqn:Hv; simpl; [done|].
    intros [= <-]. by eapply Hdiv. }
  revert i k p. induction cs as [|c cs IH]; intros i k p; simpl; [done|].
  destruct (scale_step p c) as [s|] eqn:Hs; simpl; [|intros [= <-]; by eapply Hstep].
  destruct (rel_from (S i) (k + s) c cs) as [r|] eqn:Hr; simpl; [done|].
  intros [= <-]. by eapply IH.
Qed.

Lemma counter_max_Some x l : ∃ ref n, first_max majority_gt (counter (x :: l)) = Some (ref, n)
                                      ∧ ref ∈ x :: l.
Proof.
  pose proof (counter_spec (x :: l)) as Hc.
  destruct (first_max majority_gt (counter (x :: l))) as [[ref n]|] eqn:Hm.
  - exists ref, n. split; [done|]. apply first_max_elem, Hc in Hm as [Hn ->].
    unfold occurrences in Hn. destruct (List.filter (Z.eqb ref) (x :: l)) as [|y k] eqn:Hf; [done|].
    assert (y ∈ List.filter (Z.eqb ref) (x :: l)) as Hy by (rewrite Hf; left).
    apply elem_of_bool_filter in Hy as [Hy Heq]. by apply Z.eqb_eq in Heq as ->.
  - destruct (counter (x :: l)) as [|p k] eqn:Hk; [|done].
    assert ((x, occurrences x (x :: l)) ∈ ([] : list (Z * Z))) as Hin; [|by apply elem_of_nil in Hin].
    apply Hc. split; [|done]. apply occurrences_pos. left.
Qed.

Lemma rel_from_clean i p cs :
  (∀ j a b, (p :: cs) !! j = Some a → cs !! j = Some b → scale_step a b = Ok 0) →
  rel_from i 0 p cs = Ok (replicate (length cs) 0, []).
Proof.
  revert i p. induction cs as [|c cs IH]; intros i p H; simpl; [done|].
  rewrite (H 0%nat p c) by done. simpl. rewrite IH; [done|].
  intros j a b Ha Hb. by apply (H (S j) a b).
Qed.

(** A history without a decimal step is left alone: no break, every exponent
    zero.  And the only input refused as a bad value is a close that is not a
    positive finite number (NaN included). *)
Theorem scale_exponents_clean cs :
  (scale_exponents cs = Err ValueError ↔ ∃ c, c ∈ cs ∧ (fgt c fzero = false ∨ is_inf c = true))
  ∧ ((∀ c, c ∈ cs → fgt c fzero = true ∧ is_inf c = false) →
     (∀ i a b, cs !! i = Some a → cs !! S i = Some b → scale_step a b = Ok 0) →
     scale_exponents cs = Ok (replicate (length cs) 0, [])).
Proof.
  assert (existsb bad_close cs = true ↔ ∃ c, c ∈ cs ∧ (fgt c fzero = false ∨ is_inf c = true)) as Hbad.
  { rewrite existsb_exists. setoid_rewrite <- list_elem_of_In. unfold bad_close.
    setoid_rewrite orb_true_iff. setoid_rewrite negb_true_iff. done. }
  destruct cs as [|c0 rest].
  { split; [|done]. split; [done|]. intros (c&Hc&_). by apply elem_of_nil in Hc. }
  unfold scale_exponents. split.
  - rewrite <- Hbad. destruct (existsb bad_close (c0 :: rest)); simpl; [done|].
    split; [|done]. destruct (rel_from 1 0 c0 rest) as [[rel brk]|e] eqn:Hr; simpl.
    + destruct (counter_max_Some 0 rel) as (ref&n&->&_). done.
    + apply rel_from_error in Hr as ->. done.
  - intros Hgood Hstep.
    assert (existsb bad_close (c0 :: rest) = false) as ->.
    { apply not_true_iff_false. rewrite Hbad. intros (c&Hc&H).
      destruct (Hgood c Hc) as [H1 H2]. rewrite H1, H2 in H. by destruct H. }
    simpl. rewrite rel_from_clean by (intros j a b Ha Hb; by apply (Hstep j a b)). simpl.
    destruct (counter_max_Some 0 (replicate (length rest) 0)) as (ref&n&->&Hin).
    assert (ref = 0) as ->.
    { apply elem_of_cons in Hin as [->|Hin]; [done|]. by apply elem_of_replicate in Hin as [-> _]. }
    simpl. do 2 f_equal. f_equal. rewrite fmap_replicate. done.
Qed.
