(* ===== verification/BourseDB.v ===== *)
(** * The market tables

    The tables of [app/db.py] that the bourse ingests write
    (migrations 0029 and 0030), with the constraints they declare.  A table is a
    finite map on its primary key; the rows of one instrument or one session are
    a map of their own, since every statement of the ingests names one.

    What a float becomes in a [NUMERIC] column and reads back as is the
    database's: [numeric].  A CHECK or a foreign key that fails is [Integrity];
    an integer its column cannot hold is [OutOfRange]. *)
From S2P Require Import Prelude PyFloat PyTime PyText PyJson Numeric EquityAdjust BourseParse IndexScale.
Local Open Scope string_scope.
Local Open Scope list_scope.
Local Open Scope Z_scope.

Inductive ingest_error : Set :=
| Parse (e : parse_error)
| NoSettledSession (what : string)
| NotInRegistry (code : string)
| Contradicts (code : string) (restated compared : Z)
| JoinsRestated (code : string) (day before : date)
| MovesTenfold (market : string) (d0 d1 : date)
| NoBourseOverview
| NotSettled (day : date)
| WrongSession (day : date) (agreed compared : Z)
| WouldDelist (market : option string) (gone held : Z)
| Integrity
| OutOfRange
| Missing (path : string)
| TooSmall (path : string) (size : Z)
| NotJson (path : string)
| NothingNamed
| BadManifest (what : string)
| Raised (e : pyerr).

Definition lift_parse {A} (m : result parse_error A) : result ingest_error A :=
  match m with Ok a => Ok a | Err e => Err (Parse e) end.

Definition lift_raised {A} (m : result pyerr A) : result ingest_error A :=
  match m with Ok a => Ok a | Err e => Err (Raised e) end.

(** ** Rows *)

(** [market_index_values] *)
Record IndexRow : Set := {
  ix_close : float;
  ix_low : option float;
  ix_high : option float;
  scale_exp : Z;
  ix_collected_at : instant;
}.

(** [market_indices]: the curated columns an ingest never writes, and the coverage. *)
Record IndexInfo : Set := {
  ii_name_fa : string;
  ii_name_en : string;
  ii_market : string;
  ii_kind : string;
  ii_sector_code : string;
  ii_weighting : string;
  ii_return_basis : string;
  ii_enabled : bool;
  ii_display_order : Z;
  first_date : option date;
  last_date : option date;
  value_count : Z;
  ii_updated_at : instant;
}.

(** [market_index_checks], but for its key *)
Record IndexCheck : Set := {
  ic_verdict : IndexVerdict;
  live_checked_at : option instant;
  computed_at : instant;
}.

Record FlowRow : Set := { fl_cells : list (string * cell); fl_collected_at : instant }.

(** [market_shares], but for its key *)
Record Share : Set := {
  sa_ins_id : string;
  sa_symbol_fa : string;
  sa_name_fa : string;
  sa_market : string;
  sa_board : string;
  sa_company_code : string;
  sa_sector_code : string;
  listed : bool;
  first_seen_at : instant;
  last_seen_at : instant;
  flow_first_date : option date;
  flow_last_date : option date;
  flow_count : Z;
  session_last_date : option date;
  session_count : Z;
  sa_updated_at : instant;
}.

Record Sector : Set := { se_name_fa : string; se_name_en : string; se_updated_at : instant }.

Record SessionFile : Set := { sf_rows_total : Z; sf_rows_shares : Z; sf_ingested_at : instant }.

Record MarketDB : Set := {
  market_indices : gmap string IndexInfo;
  market_index_values : gmap string (gmap date IndexRow);
  market_index_checks : gmap (string * string) IndexCheck;
  market_values : gmap string (gmap date (float * instant));
  market_shares : gmap string Share;
  market_sectors : gmap string Sector;
  equity_client_flows : gmap string (gmap date FlowRow);
  market_share_sessions : gmap date (gmap string (SessionRow * instant));
  market_session_files : gmap date SessionFile;
  market_snapshots : gmap (string * instant) (Overview * instant);
  sector_breadth_snapshots : gmap (instant * string) (SectorRow * instant);
}.

(** ** Constraints *)
Definition INT8_MAX : Z := 2 ^ 63 - 1.
Definition INT4_MAX : Z := 2 ^ 31 - 1.

Definition is_one_of (s : string) (l : list string) : bool := existsb (String.eqb s) l.

Definition index_info_checks (i : IndexInfo) : result ingest_error () :=
  raise_if (negb (is_one_of (ii_market i) ["bourse"; "farabourse"]
                  && is_one_of (ii_kind i) ["headline"; "market"; "segment"; "sector"]
                  && is_one_of (ii_weighting i) ["cap"; "equal"; "free_float"; "unstated"]
                  && is_one_of (ii_return_basis i) ["total"; "price"; "unstated"])) Integrity.

Definition session_file_checks (f : SessionFile) : result ingest_error () :=
  raise_if ((sf_rows_total f <? 0) || (sf_rows_shares f <? 0)) Integrity.

Definition index_row_checks (r : IndexRow) : result ingest_error () :=
  raise_if (negb (positive (ix_close r) && (-3 <=? scale_exp r) && (scale_exp r <=? 3))) Integrity.

Definition market_value_checks (market : string) (v : float) : result ingest_error () :=
  raise_if (negb (is_market market && positive v)) Integrity.

(** [status <> 'refused' OR length(refusal_reason) > 0] *)
Definition index_check_checks (c : IndexCheck) : result ingest_error () :=
  raise_if
    match v_status (ic_verdict c), refusal_reason (ic_verdict c) with
    | STATUS_REFUSED, [] => true
    | _, _ => false
    end Integrity.

Definition cell_range (c : string * cell) : bool :=
  match c.2 with Count n => n <=? INT8_MAX | Amount _ => true end.

Definition flow_row_checks (r : FlowRow) : result ingest_error () :=
  _ ← raise_if (negb (forallb cell_range (fl_cells r))) OutOfRange;
  raise_if (negb (forallb cell_ok (fl_cells r))) Integrity.

Definition session_row_checks (s : SessionRow) : result ingest_error () :=
  _ ← raise_if (INT8_MAX <? trades s) OutOfRange;
  raise_if (negb (session_checks s)) Integrity.

Definition snapshot_checks (o : Overview) : result ingest_error () :=
  _ ← raise_if (INT8_MAX <? trade_count o) OutOfRange;
  raise_if (negb (is_market (ov_market o))) Integrity.

Definition breadth_counts (s : SectorRow) : list Z :=
  [down_over_2 s; down_under_2 s; up_under_2 s; up_over_2 s].

Definition breadth_checks (s : SectorRow) : result ingest_error () :=
  _ ← raise_if (existsb (λ n, INT4_MAX <? n) (breadth_counts s)) OutOfRange;
  raise_if (existsb (λ n, n <? 0) (breadth_counts s)) Integrity.

Definition share_row_checks (s : Share) : result ingest_error () :=
  raise_if (negb (existsb (String.eqb (sa_market s)) ["bourse"; "farabourse"; "paye"; "sme"]
                  && existsb (String.eqb (sa_board s)) ["main"; "block"; "secondary"; "other"]))
    Integrity.

(** ** [INSERT ... ON CONFLICT DO NOTHING], row after row *)
Definition insert_one {K V} `{Countable K} (checks : V → result ingest_error ())
    (t : gmap K V) (row : K * V) : result ingest_error (gmap K V) :=
  _ ← checks row.2;
  Ok (match t !! row.1 with Some _ => t | None => <[row.1 := row.2]> t end).

Fixpoint _bulk_insert_ignore {K V} `{Countable K} (checks : V → result ingest_error ())
    (t : gmap K V) (rows : list (K * V)) : result ingest_error (gmap K V) :=
  match rows with
  | [] => Ok t
  | row :: rows => t ← insert_one checks t row; _bulk_insert_ignore checks t rows
  end.

(** The rows of one instrument, of one session. *)
Definition rows_of {V} `{Countable K} (k : K) (t : gmap K V) (empty : V) : V := default empty (t !! k).

(** ** Writing one table *)
Definition set_indices (db : MarketDB) t : MarketDB :=
  Build_MarketDB t (market_index_values db) (market_index_checks db) (market_values db)
    (market_shares db) (market_sectors db) (equity_client_flows db) (market_share_sessions db)
    (market_session_files db) (market_snapshots db) (sector_breadth_snapshots db).
Definition set_index_values (db : MarketDB) t : MarketDB :=
  Build_MarketDB (market_indices db) t (market_index_checks db) (market_values db)
    (market_shares db) (market_sectors db) (equity_client_flows db) (market_share_sessions db)
    (market_session_files db) (market_snapshots db) (sector_breadth_snapshots db).
Definition set_index_checks (db : MarketDB) t : MarketDB :=
  Build_MarketDB (market_indices db) (market_index_values db) t (market_values db)
    (market_shares db) (market_sectors db) (equity_client_flows db) (market_share_sessions db)
    (market_session_files db) (market_snapshots db) (sector_breadth_snapshots db).
Definition set_market_values (db : MarketDB) t : MarketDB :=
  Build_MarketDB (market_indices db) (market_index_values db) (market_index_checks db) t
    (market_shares db) (market_sectors db) (equity_client_flows db) (market_share_sessions db)
    (market_session_files db) (market_snapshots db) (sector_breadth_snapshots db).
Definition set_shares (db : MarketDB) t : MarketDB :=
  Build_MarketDB (market_indices db) (market_index_values db) (market_index_checks db)
    (market_values db) t (market_sectors db) (equity_client_flows db) (market_share_sessions db)
    (market_session_files db) (market_snapshots db) (sector_breadth_snapshots db).
Definition set_sectors (db : MarketDB) t : MarketDB :=
  Build_MarketDB (market_indices db) (market_index_values db) (market_index_checks db)
    (market_values db) (market_shares db) t (equity_client_flows db) (market_share_sessions db)
    (market_session_files db) (market_snapshots db) (sector_breadth_snapshots db).
Definition set_flows (db : MarketDB) t : MarketDB :=
  Build_MarketDB (market_indices db) (market_index_values db) (market_index_checks db)
    (market_values db) (market_shares db) (market_sectors db) t (market_share_sessions db)
    (market_session_files db) (market_snapshots db) (sector_breadth_snapshots db).
Definition set_sessions (db : MarketDB) t : MarketDB :=
  Build_MarketDB (market_indices db) (market_index_values db) (market_index_checks db)
    (market_values db) (market_shares db) (market_sectors db) (equity_client_flows db) t
    (market_session_files db) (market_snapshots db) (sector_breadth_snapshots db).
Definition set_session_files (db : MarketDB) t : MarketDB :=
  Build_MarketDB (market_indices db) (market_index_values db) (market_index_checks db)
    (market_values db) (market_shares db) (market_sectors db) (equity_client_flows db)
    (market_share_sessions db) t (market_snapshots db) (sector_breadth_snapshots db).
Definition set_snapshots (db : MarketDB) t : MarketDB :=
  Build_MarketDB (market_indices db) (market_index_values db) (market_index_checks db)
    (market_values db) (market_shares db) (market_sectors db) (equity_client_flows db)
    (market_share_sessions db) (market_session_files db) t (sector_breadth_snapshots db).
Definition set_breadth (db : MarketDB) t : MarketDB :=
  Build_MarketDB (market_indices db) (market_index_values db) (market_index_checks db)
    (market_values db) (market_shares db) (market_sectors db) (equity_client_flows db)
    (market_share_sessions db) (market_session_files db) (market_snapshots db) t.

(** ** Facts about the inserts *)
Section Inserts.
Context {K V : Type} `{Countable K} (checks : V → result ingest_error ()).
Implicit Types (t : gmap K V) (rows : list (K * V)).

(** A stored row is never overwritten; a new key holds the first row offered. *)
Lemma bulk_insert_spec t rows t' :
  _bulk_insert_ignore checks t rows = Ok t' →
  Forall (λ r, checks r.2 = Ok ()) rows ∧ t' = t ∪ list_to_map rows.
Proof.
  revert t. induction rows as [|[k v] rows IH]; intros t; simpl.
  - intros [= <-]. by rewrite map_union_empty.
  - unfold insert_one. simpl. rewrite bind_Ok. intros (t1&H1&H2). apply bind_Ok in H1 as ([]&Hc&[= <-]).
    apply IH in H2 as [Hall ->]. split; [by constructor|].
    apply map_eq. intros i. rewrite !lookup_union.
    destruct (t !! k) as [w|] eqn:Hk.
    + destruct (decide (i = k)) as [->|Hne]; [by rewrite Hk, !union_Some_l|].
      by rewrite lookup_insert_ne.
    + destruct (decide (i = k)) as [->|Hne].
      * rewrite !lookup_insert_eq, Hk, (left_id_L None (∪)). by rewrite union_Some_l.
      * by rewrite !lookup_insert_ne.
Qed.

Lemma bulk_insert_total t rows :
  Forall (λ r, checks r.2 = Ok ()) rows → ∃ t', _bulk_insert_ignore checks t rows = Ok t'.
Proof.
  intros Hall. revert t. induction Hall as [|[k v] rows Hc _ IH]; intros t; simpl; [by exists t|].
  unfold insert_one. simpl in *. rewrite Hc. apply IH.
Qed.

Lemma bulk_insert_Err t rows e :
  _bulk_insert_ignore checks t rows = Err e → ∃ r, r ∈ rows ∧ checks r.2 = Err e.
Proof.
  revert t. induction rows as [|[k v] rows IH]; intros t; simpl; [done|].
  rewrite bind_Err. intros [H1|(t1&_&H2)].
  - unfold insert_one in H1. apply bind_Err in H1 as [Hc|(?&_&?)]; [|done].
    exists (k, v). split; [by left|done].
  - destruct (IH t1 H2) as (r&?&?). exists r. split; [by right|done].
Qed.
End Inserts.

Lemma rows_of_insert {V} `{Countable K} (k : K) (v : V) (t : gmap K V) e : rows_of k (<[k := v]> t) e = v.
Proof. unfold rows_of. by rewrite lookup_insert_eq. Qed.

Lemma rows_of_insert_ne {V} `{Countable K} (k k' : K) (v : V) (t : gmap K V) e :
  k ≠ k' → rows_of k (<[k' := v]> t) e = rows_of k t e.
Proof. intros Hne. unfold rows_of. by rewrite lookup_insert_ne. Qed.
