(* ===== verification/BourseIngest.v ===== *)
(** * Ingesting the market payloads

    [app/bourse/ingest.py]: index histories with their power-of-ten correction,
    market values, client flows, the live snapshot, and the run over a request's
    files.  Each ingest is one transaction: a refusal returns no database, so
    nothing it did is kept.

    [now] is the run's instant ([ensure_utc(now) or utcnow()]); [log10] is the C
    library's; the Tehran zone, the text folding and the files on disk are
    arguments as well. *)
From S2P Require Import Prelude PyFloat PyTime PyText PyJson Numeric EquityAdjust BourseParse IndexScale BourseDB.
Local Open Scope string_scope.
Local Open Scope list_scope.
Local Open Scope Z_scope.

Definition PROVIDER_CODE : string := "tsetmc_cdn".
Definition CHECK_VERSION : string := "decimal-shift-v1".
Definition MIN_PLAUSIBLE_BYTES : Z := 200.
Definition REVISION_NOISE : float := flit 1 6.
Definition SETTLED_AFTER_HOUR : Z := 15.

Definition _close_enough (left_ right_ : float) : bool :=
  let scale := fmax (fmax (fabs left_) (fabs right_)) fone in
  fle (fabs (fsub left_ right_)) (fmul (flit 1 12) scale).

Definition INDEX_PRINT_RELATIVE : float := flit 1 5.
Definition INDEX_PRINT_ABSOLUTE : float := flit 1 1.

Definition _same_index_print (left_ right_ : float) : bool :=
  let limit := fmax INDEX_PRINT_ABSOLUTE
                 (fmul INDEX_PRINT_RELATIVE (fmax (fabs left_) (fabs right_))) in
  fle (fabs (fsub left_ right_)) (fmul limit (fadd fone (flit 1 9))).

Definition SYSTEMATIC_MIN_COMPARED : Z := 4.
Definition RESTATED_EXAMPLES : nat := 5.

(** [SYSTEMATIC_FRACTION] is one half: [restated > 0.5 * compared]. *)
Definition restatement_is_systematic (restated compared : Z) : bool :=
  (SYSTEMATIC_MIN_COMPARED <=? compared) && (compared <? 2 * restated).

Definition RECENT_OVERLAP : nat := 10.

Definition newest_overlap_is_systematic (compared restated : list date) : bool :=
  let ordered := sort_by (λ d, d) compared in
  let newest := drop (length ordered - RECENT_OVERLAP) ordered in
  let hit : gset date := list_to_set restated in
  restatement_is_systematic
    (Z.of_nat (length (List.filter (λ d, bool_decide (d ∈ hit)) newest)))
    (Z.of_nat (length newest)).

Definition joins_onto_restated (stored new restated : list date) : list (date * date) :=
  let new_set : gset date := list_to_set new in
  let merged := sort_by (λ d, d) (elements ((list_to_set stored : gset date) ∪ new_set)) in
  let hit : gset date := list_to_set restated in
  omap (λ p : date * date,
          if bool_decide (p.2 ∈ new_set) && bool_decide (p.1 ∈ hit) then Some (p.2, p.1) else None)
    (zip merged (tail merged)).

Section Ingest.
Context `{NF : !NumericFloat} (repr fold_name : json → string) (TEHRAN : tzinfo).
Context (log10 : float → result pyerr float).

Definition settled_cutoff (now : instant) : date :=
  let local := to_wall TEHRAN now in
  if SETTLED_AFTER_HOUR <=? time_of local / us_hour then date_of local + 1 else date_of local.

Definition _power_of_ten_apart (stored served : float) : result pyerr bool :=
  if fle stored fzero || fle served fzero then Ok false
  else
    q ← fdiv served stored;
    l ← log10 q;
    k ← py_round_int l;
    if (k =? 0) || (3 <? Z.abs k) then Ok false
    else scaled ← correct (stored, k); Ok (_same_index_print served scaled).

(** ** Index histories *)

(** What a settled value of the payload is to the stored history. *)
Inductive overlap : Set :=
| Pending
| Same
| PowerApart
| Restated (old : float).

Definition compare_value (stored : gmap date IndexRow) (v : IndexValue) : result pyerr overlap :=
  match stored !! iv_date v with
  | None => Ok Pending
  | Some existing =>
      if _same_index_print (ix_close existing) (iv_close v) then Ok Same
      else
        apart ← _power_of_ten_apart (ix_close existing) (iv_close v);
        Ok (if (apart : bool) then PowerApart else Restated (ix_close existing))
  end.

Record IndexReport : Set := {
  ir_code : string;
  ir_name_fa : string;
  ir_verdict : IndexVerdict;
  ir_total : Z;
  ir_inserted : Z;
  ir_existing : Z;
  ir_unsettled : Z;
  ir_scale_restated : Z;
  ir_restated : list (date * float * float);
  ir_rescaled : Z;
}.

Definition count_if {A} (p : A → bool) (l : list A) : Z := Z.of_nat (length (List.filter p l)).

Definition index_row_of (now : instant) (e : Z) (v : IndexValue) : date * IndexRow :=
  (iv_date v, {| ix_close := numeric (iv_close v); ix_low := numeric <$> iv_low v;
                 ix_high := numeric <$> iv_high v; scale_exp := e; ix_collected_at := now |}).

Definition set_scale (e : Z) (r : IndexRow) : IndexRow :=
  {| ix_close := ix_close r; ix_low := ix_low r; ix_high := ix_high r; scale_exp := e;
     ix_collected_at := ix_collected_at r |}.

(** [exp_of[d]] *)
Definition exp_at (exp_of : gmap date Z) (d : date) : result ingest_error Z :=
  match exp_of !! d with Some e => Ok e | None => Err (Raised KeyError) end.

(** The UPDATE of every stored row whose exponent changed. *)
Fixpoint rescale (exp_of : gmap date Z) (stored : list (date * IndexRow)) (t : gmap date IndexRow)
    (updates : Z) : result ingest_error (gmap date IndexRow * Z) :=
  match stored with
  | [] => Ok (t, updates)
  | (d, r) :: stored =>
      e ← exp_at exp_of d;
      if scale_exp r =? e then rescale exp_of stored t updates
      else
        _ ← index_row_checks (set_scale e r);
        rescale exp_of stored (alter (set_scale e) d t) (updates + 1)
  end.

Definition _write_index_verdict (db : MarketDB) (code : string) (result_ : IndexVerdict)
    (live_checked : bool) (now : instant) : result ingest_error MarketDB :=
  let c := {| ic_verdict := result_; live_checked_at := if live_checked then Some now else None;
              computed_at := now |} in
  _ ← index_check_checks c;
  Ok (set_index_checks db (<[(code, CHECK_VERSION) := c]> (market_index_checks db))).

Definition set_coverage (dates : list date) (count : Z) (now : instant) (i : IndexInfo) : IndexInfo :=
  {| ii_name_fa := ii_name_fa i; ii_name_en := ii_name_en i; ii_market := ii_market i;
     ii_kind := ii_kind i; ii_sector_code := ii_sector_code i; ii_weighting := ii_weighting i;
     ii_return_basis := ii_return_basis i; ii_enabled := ii_enabled i;
     ii_display_order := ii_display_order i; first_date := head dates; last_date := last dates;
     value_count := count; ii_updated_at := now |}.

(** The stored and the new closes, dated, ascending. *)
Definition merged_closes (stored : gmap date IndexRow) (pending : list IndexValue)
    : list (date * float) :=
  sort_by fst (map_to_list
    (list_to_map ((λ v, (iv_date v, iv_close v)) <$> pending) ∪ (ix_close <$> stored))).

Definition is_overlap (o : overlap) (x : IndexValue * overlap) : bool :=
  match o, x.2 with
  | Pending, Pending | Same, Same | PowerApart, PowerApart => true
  | _, _ => false
  end.

Definition restated_of (x : IndexValue * overlap) : option (date * float * float) :=
  match x.2 with Restated old => Some (iv_date x.1, old, iv_close x.1) | _ => None end.

(** Refused: most of the overlap, or of its newest stretch, disagrees; or a new
    value would stand right after one the payload states differently. *)
Definition contradiction (code : string) (stored : gmap date IndexRow) (settled : list IndexValue)
    (pending : list IndexValue) (restated : list date) : result ingest_error () :=
  let compared := Z.of_nat (length settled) - Z.of_nat (length pending) in
  let overlap_ := iv_date <$> List.filter (λ v, bool_decide (is_Some (stored !! iv_date v))) settled in
  let count := Z.of_nat (length restated) in
  _ ← raise_if (newest_overlap_is_systematic overlap_ restated
                || restatement_is_systematic count compared) (Contradicts code count compared);
  match joins_onto_restated (elements (dom stored)) (iv_date <$> pending) restated with
  | (day, before) :: _ => Err (JoinsRestated code day before)
  | [] => Ok ()
  end.

(** The transaction, from the stored rows on. *)
Definition store_index (db : MarketDB) (now : instant) (registry : IndexInfo)
    (history : IndexHistory) (settled : list IndexValue) (live : option LiveIndex)
    : result ingest_error (MarketDB * IndexReport) :=
  let code := ih_code history in
  let stored := rows_of code (market_index_values db) ∅ in
  kinds ← lift_raised (traverse (compare_value stored) settled);
  let judged := zip settled kinds in
  let pending := fst <$> List.filter (is_overlap Pending) judged in
  let restated := omap restated_of judged in
  _ ← contradiction code stored settled pending ((λ r, r.1.1) <$> restated);
  let merged := merged_closes stored pending in
  let dates := merged.*1 in
  let closes := merged.*2 in
  sb ← lift_raised (scale_exponents closes);
  let '(exps, breaks) := sb in
  let exp_of : gmap date Z := list_to_map (zip dates exps) in
  rows ← traverse (λ v, e ← exp_at exp_of (iv_date v); Ok (index_row_of now e v)) pending;
  inserted ← _bulk_insert_ignore index_row_checks stored rows;
  after ← rescale exp_of (map_to_list stored) inserted 0;
  let '(after, updates) := after in
  result_ ← lift_raised (verdict dates closes exps breaks (dropped_nonpositive history)
                           (li_value <$> live));
  let db := set_index_values db (<[code := after]> (market_index_values db)) in
  db ← _write_index_verdict db code result_ (bool_decide (is_Some live)) now;
  Ok (set_indices db (alter (set_coverage dates (Z.of_nat (size after)) now) code
                        (market_indices db)),
      {| ir_code := code; ir_name_fa := ii_name_fa registry; ir_verdict := result_;
         ir_total := Z.of_nat (length (ih_values history));
         ir_inserted := Z.of_nat (size after) - Z.of_nat (size stored);
         ir_existing := Z.of_nat (length settled) - Z.of_nat (length pending);
         ir_unsettled := Z.of_nat (length (ih_values history)) - Z.of_nat (length settled);
         ir_scale_restated := count_if (is_overlap PowerApart) judged;
         ir_restated := restated; ir_rescaled := updates |}).

Definition ingest_index_history (db : MarketDB) (payload : json) (live : list (string * LiveIndex))
    (now : instant) : result ingest_error (MarketDB * IndexReport) :=
  history ← lift_parse (parse_index_history repr payload EmptyString);
  let code := ih_code history in
  let settled := List.filter (λ v, iv_date v <? settled_cutoff now) (ih_values history) in
  match settled with
  | [] => Err (NoSettledSession code)
  | _ =>
      match market_indices db !! code with
      | None => Err (NotInRegistry code)
      | Some registry => store_index db now registry history settled (assoc code live)
      end
  end.

Definition index_roster (db : MarketDB) (include_disabled : bool) : list (string * IndexInfo) :=
  py_sorted (λ a b, (ii_display_order a.2 <? ii_display_order b.2)
                    || (ii_display_order a.2 =? ii_display_order b.2) && String.ltb a.1 b.1)
    (List.filter (λ i, include_disabled || ii_enabled i.2) (map_to_list (market_indices db))).

(** ** Market values *)

(** [10 ** 0.9] and [10 ** -0.9] *)
Definition TENFOLD_UP : float := SCALE_BAND_LO.
Definition TENFOLD_DOWN : float := int_true_div 12589254117941673 (10 ^ 17).

Fixpoint tenfold (market : string) (values : list (date * float)) : result ingest_error () :=
  match values with
  | (d0, v0) :: ((d1, v1) :: _) as rest =>
      r ← lift_raised (fdiv v1 v0);
      _ ← raise_if (fge r TENFOLD_UP || fle r TENFOLD_DOWN) (MovesTenfold market d0 d1);
      tenfold market rest
  | _ => Ok ()
  end.

(** The stored value a settled value revises, if it does. *)
Definition revision (stored : gmap date (float * instant)) (v : date * float)
    : option (date * float * float) :=
  match stored !! v.1 with
  | None => None
  | Some (old, _) =>
      if feq old v.2 then None
      else if fle (fabs (fsub v.2 old)) (fmul REVISION_NOISE (fmax (fabs v.2) (fabs old))) then None
      else Some (v.1, old, v.2)
  end.

Fixpoint revise (market : string) (now : instant) (revisions : list (date * float * float))
    (t : gmap date (float * instant)) : result ingest_error (gmap date (float * instant)) :=
  match revisions with
  | [] => Ok t
  | (d, _, v) :: revisions =>
      _ ← market_value_checks market (numeric v);
      revise market now revisions (<[d := (numeric v, now)]> t)
  end.

Record ValuesReport : Set := {
  vr_market : string;
  vr_total : Z;
  vr_inserted : Z;
  vr_revised : Z;
  vr_unsettled : Z;
  vr_dropped : Z;
}.

Definition ingest_market_values (db : MarketDB) (payload : json) (market : string) (now : instant)
    : result ingest_error (MarketDB * ValuesReport) :=
  parsed ← lift_parse (parse_market_values payload market);
  let values := List.filter (λ v, v.1 <? settled_cutoff now) (mv_values parsed) in
  match values with
  | [] => Err (NoSettledSession market)
  | _ =>
      _ ← tenfold market values;
      let stored := rows_of market (market_values db) ∅ in
      let revisions := omap (revision stored) values in
      revised ← revise market now revisions stored;
      let pending := List.filter (λ v, bool_decide (stored !! v.1 = None)) values in
      after ← _bulk_insert_ignore (λ v, market_value_checks market v.1) revised
                ((λ v, (v.1, (numeric v.2, now))) <$> pending);
      Ok (set_market_values db (<[market := after]> (market_values db)),
          {| vr_market := market; vr_total := Z.of_nat (length (mv_values parsed));
             vr_inserted := Z.of_nat (size after) - Z.of_nat (size stored);
             vr_revised := Z.of_nat (length revisions);
             vr_unsettled := Z.of_nat (length (mv_values parsed)) - Z.of_nat (length values);
             vr_dropped := mv_dropped parsed |})
  end.

(** ** Client flows *)
Definition store_cell (c : string * cell) : string * cell :=
  match c.2 with Count _ => c | Amount x => (c.1, Amount (numeric x)) end.

(** [float(row[column])] *)
Definition column_float (cells : list (string * cell)) (column : string) : result pyerr float :=
  match assoc column cells with
  | Some (Count n) => py_float_of_int n
  | Some (Amount x) => Ok x
  | None => Err KeyError
  end.

Definition column_differs (existing row : list (string * cell)) (column : string)
    : result pyerr bool :=
  a ← column_float existing column;
  b ← column_float row column;
  Ok (negb (_close_enough a b)).

Definition columns : list string := CLIENT_FIELDS.*1.*1.

(** The columns a served row states differently; [None]: no such row is stored. *)
Definition compare_flow (stored : gmap date FlowRow) (row : ClientRow)
    : result pyerr (option (list string)) :=
  match stored !! cr_date row with
  | None => Ok None
  | Some existing =>
      differs ← traverse (column_differs (fl_cells existing) (cr_cells row)) columns;
      Ok (Some ((zip columns differs ≫= λ d, if d.2 : bool then [d.1] else [])))
  end.

Record FlowReport : Set := {
  fr_code : string;
  fr_symbol : string;
  fr_total : Z;
  fr_inserted : Z;
  fr_existing : Z;
  fr_restated : list (date * list string);
  fr_unsettled : Z;
}.

Definition coverage {V} (t : gmap date V) : option date * option date * Z :=
  let dates := sort_by (λ d, d) (elements (dom t)) in (head dates, last dates, Z.of_nat (size t)).

Definition set_flow_coverage (c : option date * option date * Z) (now : instant) (s : Share)
    : Share :=
  {| sa_ins_id := sa_ins_id s; sa_symbol_fa := sa_symbol_fa s; sa_name_fa := sa_name_fa s;
     sa_market := sa_market s; sa_board := sa_board s; sa_company_code := sa_company_code s;
     sa_sector_code := sa_sector_code s; listed := listed s; first_seen_at := first_seen_at s;
     last_seen_at := last_seen_at s; flow_first_date := c.1.1; flow_last_date := c.1.2;
     flow_count := c.2; session_last_date := session_last_date s;
     session_count := session_count s; sa_updated_at := now |}.

Definition restated_flow (x : ClientRow * option (list string)) : option (date * list string) :=
  match x.2 with
  | Some ((_ :: _) as differing) => Some (cr_date x.1, take 3 differing)
  | _ => None
  end.

Definition is_new {A B} (x : A * option B) : bool := match x.2 with None => true | Some _ => false end.

(** The transaction on the settled rows, [row0] the earliest. *)
Definition store_flows (db : MarketDB) (now : instant) (parsed : ClientFlows) (share : Share)
    (row0 : ClientRow) (rows : list ClientRow) : result ingest_error (MarketDB * FlowReport) :=
  let code := cf_code parsed in
  let all := rows_of code (equity_client_flows db) ∅ in
  let stored := filter (λ kv : date * FlowRow, cr_date row0 ≤ kv.1) all in
  kinds ← lift_raised (traverse (compare_flow stored) rows);
  let judged := zip rows kinds in
  let pending := fst <$> List.filter is_new judged in
  let restated := omap restated_flow judged in
  let compared := Z.of_nat (length rows) - Z.of_nat (length pending) in
  let overlap_ := cr_date <$> List.filter (λ r, bool_decide (is_Some (stored !! cr_date r))) rows in
  let count := Z.of_nat (length restated) in
  _ ← raise_if (restatement_is_systematic count compared
                || newest_overlap_is_systematic overlap_ restated.*1) (Contradicts code count compared);
  after ← _bulk_insert_ignore flow_row_checks all
            ((λ r, (cr_date r, {| fl_cells := store_cell <$> cr_cells r;
                                  fl_collected_at := now |})) <$> pending);
  let c := coverage after in
  let db := set_flows db (<[code := after]> (equity_client_flows db)) in
  let changed := negb (bool_decide (c = (flow_first_date share, flow_last_date share, flow_count share))) in
  Ok (if changed then set_shares db (alter (set_flow_coverage c now) code (market_shares db)) else db,
      {| fr_code := code; fr_symbol := sa_symbol_fa share;
         fr_total := Z.of_nat (length (cf_rows parsed));
         fr_inserted := Z.of_nat (size after) - Z.of_nat (size all);
         fr_existing := compared; fr_restated := restated;
         fr_unsettled := Z.of_nat (length (cf_rows parsed)) - Z.of_nat (length rows) |}).

Definition ingest_client_flows (db : MarketDB) (payload : json) (now : instant) (ins_code : string)
    : result ingest_error (MarketDB * FlowReport) :=
  parsed ← lift_parse (parse_client_types repr payload ins_code);
  let code := cf_code parsed in
  let rows := List.filter (λ r, cr_date r <? settled_cutoff now) (cf_rows parsed) in
  match rows with
  | [] => Err (NoSettledSession code)
  | row0 :: _ =>
      match market_shares db !! code with
      | None => Err (NotInRegistry code)
      | Some share => store_flows db now parsed share row0 rows
      end
  end.

(** ** The live snapshot *)
Definition store_overview (o : Overview) : Overview :=
  {| ov_market := ov_market o; activity_at := activity_at o;
     index_value := numeric <$> index_value o; index_change := numeric <$> index_change o;
     ew_index_value := numeric <$> ew_index_value o;
     ew_index_change := numeric <$> ew_index_change o; trade_count := trade_count o;
     trade_volume := numeric (trade_volume o); trade_value := numeric (trade_value o);
     market_value := numeric <$> market_value o; market_state := market_state o;
     market_state_title := market_state_title o |}.

(** [insert_ignore] (app/db.py): one at a time, counting the rows RETURNING gives. *)
Fixpoint insert_ignore {K V} `{Countable K} (checks : V → result ingest_error ())
    (t : gmap K V) (rows : list (K * V)) (inserted : Z) : result ingest_error (gmap K V * Z) :=
  match rows with
  | [] => Ok (t, inserted)
  | row :: rows =>
      t' ← insert_one checks t row;
      insert_ignore checks t' rows
        (match t !! row.1 with Some _ => inserted | None => inserted + 1 end)
  end.

Record SnapshotReport : Set := {
  sn_markets : list (string * (instant * bool));
  sn_sectors : option (Z * Z);
}.

Fixpoint store_overviews (now : instant) (parsed : list (string * Overview))
    (t : gmap (string * instant) (Overview * instant)) (report : list (string * (instant * bool)))
    : result ingest_error (gmap (string * instant) (Overview * instant)
                           * list (string * (instant * bool))) :=
  match parsed with
  | [] => Ok (t, report)
  | (m, o) :: parsed =>
      x ← insert_ignore (λ v, snapshot_checks v.1) t
            [((ov_market o, activity_at o), (store_overview o, now))] 0;
      store_overviews now parsed x.1 (report ++ [(m, (activity_at o, 0 <? x.2))])
  end.

Definition ingest_snapshot (db : MarketDB) (overviews : list (string * json))
    (sector_summary : option json) (now : instant) : result ingest_error (MarketDB * SnapshotReport) :=
  parsed ← lift_parse (traverse (λ mp : string * json,
             o ← parse_market_overview repr fold_name TEHRAN mp.2 mp.1; Ok (mp.1, o)) overviews);
  sectors ← match sector_summary with
            | None => Ok None
            | Some p => s ← lift_parse (parse_sector_summary repr fold_name p); Ok (Some s)
            end;
  stamp ← match sectors, assoc "bourse" parsed with
          | None, _ => Ok None
          | Some _, None => Err NoBourseOverview
          | Some s, Some o => Ok (Some (s, activity_at o))
          end;
  x ← store_overviews now parsed (market_snapshots db) [];
  let db := set_snapshots db x.1 in
  match stamp with
  | None => Ok (db, {| sn_markets := x.2; sn_sectors := None |})
  | Some (s, at_) =>
      y ← insert_ignore (λ v, breadth_checks v.1) (sector_breadth_snapshots db)
            ((λ r, ((at_, sector_code r), (r, now))) <$> s) 0;
      Ok (set_breadth db y.1,
          {| sn_markets := x.2; sn_sectors := Some (Z.of_nat (length s), y.2) |})
  end.

(** ** A run over a request's files *)

(** A file on disk: its size, and its document when it is JSON. *)
Record file : Set := { f_size : Z; f_json : option json }.

Definition read_payload_file (disk : string → option file) (path : string)
    : result ingest_error json :=
  match disk path with
  | None => Err (Missing path)
  | Some f =>
      if f_size f <? MIN_PLAUSIBLE_BYTES then Err (TooSmall path (f_size f))
      else match f_json f with None => Err (NotJson path) | Some p => Ok p end
  end.

(** What is named; an absent or empty name is left out. *)
Record Request : Set := {
  rq_index_live : list string;
  rq_index_histories : list string;
  rq_market_values : list (string * string);
  rq_client_flows : list string;
  rq_overviews : list (string * string);
  rq_sector_summary : option string;
}.

Inductive kind : Set := index_live | index_history | market_values_ | client_flows | snapshot.

Record Report : Set := {
  rp_indices : list (string * IndexReport);
  rp_market_values : list (string * ValuesReport);
  rp_client_flows : list (string * FlowReport);
  rp_snapshot : option SnapshotReport;
  rp_errors : list (kind * list string * ingest_error);
  succeeded : Z;
  n_failed : Z;
  validated : Z;
  refused : Z;
}.

Definition empty_report : Report :=
  {| rp_indices := []; rp_market_values := []; rp_client_flows := []; rp_snapshot := None;
     rp_errors := []; succeeded := 0; n_failed := 0; validated := 0; refused := 0 |}.

Definition failed (k : kind) (paths : list string) (e : ingest_error) (r : Report) : Report :=
  {| rp_indices := rp_indices r; rp_market_values := rp_market_values r;
     rp_client_flows := rp_client_flows r; rp_snapshot := rp_snapshot r;
     rp_errors := rp_errors r ++ [(k, paths, e)]; succeeded := succeeded r;
     n_failed := n_failed r + 1; validated := validated r; refused := refused r |}.

Definition index_done (i : IndexReport) (r : Report) : Report :=
  let ok := match v_status (ir_verdict i) with STATUS_VALIDATED => true | STATUS_REFUSED => false end in
  {| rp_indices := dict_set (ir_code i) i (rp_indices r); rp_market_values := rp_market_values r;
     rp_client_flows := rp_client_flows r; rp_snapshot := rp_snapshot r; rp_errors := rp_errors r;
     succeeded := succeeded r + 1; n_failed := n_failed r;
     validated := if ok then validated r + 1 else validated r;
     refused := if ok then refused r else refused r + 1 |}.

Definition values_done (market : string) (v : ValuesReport) (r : Report) : Report :=
  {| rp_indices := rp_indices r; rp_market_values := dict_set market v (rp_market_values r);
     rp_client_flows := rp_client_flows r; rp_snapshot := rp_snapshot r; rp_errors := rp_errors r;
     succeeded := succeeded r + 1; n_failed := n_failed r; validated := validated r;
     refused := refused r |}.

Definition flows_done (f : FlowReport) (r : Report) : Report :=
  {| rp_indices := rp_indices r; rp_market_values := rp_market_values r;
     rp_client_flows := dict_set (fr_symbol f) f (rp_client_flows r);
     rp_snapshot := rp_snapshot r; rp_errors := rp_errors r; succeeded := succeeded r + 1;
     n_failed := n_failed r; validated := validated r; refused := refused r |}.

Definition snapshot_done (s : SnapshotReport) (r : Report) : Report :=
  {| rp_indices := rp_indices r; rp_market_values := rp_market_values r;
     rp_client_flows := rp_client_flows r; rp_snapshot := Some s; rp_errors := rp_errors r;
     succeeded := succeeded r + 1; n_failed := n_failed r; validated := validated r;
     refused := refused r |}.

(** [try: ... except Exception]: one item of the run, its own transaction. *)
Definition item {A} (k : kind) (paths : list string) (done : A → Report → Report)
    (ingest : MarketDB → result ingest_error (MarketDB * A)) (st : MarketDB * Report)
    : MarketDB * Report :=
  match ingest st.1 with
  | Ok (db, a) => (db, done a st.2)
  | Err e => (st.1, failed k paths e st.2)
  end.

(** The live values of every readable file; a later file wins. *)
Definition live_file (disk : string → option file) (st : list (string * LiveIndex) * Report)
    (path : string) : list (string * LiveIndex) * Report :=
  match (p ← read_payload_file disk path; lift_parse (parse_index_live repr fold_name p)) with
  | Ok values => (foldl (λ d kv, dict_set kv.1 kv.2 d) st.1 values, st.2)
  | Err e => (st.1, failed index_live [path] e st.2)
  end.

Definition index_file (disk : string → option file) (live : list (string * LiveIndex))
    (now : instant) (path : string) : MarketDB * Report → MarketDB * Report :=
  item index_history [path] index_done (λ db,
    p ← read_payload_file disk path; ingest_index_history db p live now).

Definition values_file (disk : string → option file) (now : instant) (mp : string * string)
    : MarketDB * Report → MarketDB * Report :=
  item market_values_ [mp.2] (values_done mp.1) (λ db,
    p ← read_payload_file disk mp.2; ingest_market_values db p mp.1 now).

Definition flows_file (disk : string → option file) (now : instant) (path : string)
    : MarketDB * Report → MarketDB * Report :=
  item client_flows [path] flows_done (λ db,
    p ← read_payload_file disk path; ingest_client_flows db p now EmptyString).

Definition snapshot_files (disk : string → option file) (now : instant) (rq : Request)
    : MarketDB * Report → MarketDB * Report :=
  item snapshot ((rq_overviews rq).*2 ++ [default EmptyString (rq_sector_summary rq)]) snapshot_done (λ db,
    overviews ← traverse (λ mp : string * string,
                  p ← read_payload_file disk mp.2; Ok (mp.1, p)) (rq_overviews rq);
    sectors ← match rq_sector_summary rq with
              | None => Ok None
              | Some path => p ← read_payload_file disk path; Ok (Some p)
              end;
    ingest_snapshot db overviews sectors now).

Inductive outcome : Set :=
| Reported (r : Report)
| MarketIngestFailed (r : Report)
| NothingToIngest.

Definition conclude (r : Report) : outcome :=
  if succeeded r =? 0 then
    if n_failed r =? 0 then NothingToIngest else MarketIngestFailed r
  else Reported r.

(** The last step of the run, when anything of a snapshot was named. *)
Definition names_snapshot (rq : Request) : bool :=
  match rq_overviews rq, rq_sector_summary rq with [], None => false | _, _ => true end.

Definition ingest_market_files (disk : string → option file) (db : MarketDB) (rq : Request)
    (now : instant) : MarketDB * outcome :=
  let '(live, r) := foldl (live_file disk) ([], empty_report) (rq_index_live rq) in
  let st := (db, r) in
  let st := foldl (λ st p, index_file disk live now p st) st (rq_index_histories rq) in
  let st := foldl (λ st mp, values_file disk now mp st) st (rq_market_values rq) in
  let st := foldl (λ st p, flows_file disk now p st) st (rq_client_flows rq) in
  let st := if names_snapshot rq then snapshot_files disk now rq st else st in
  (st.1, conclude st.2).
End Ingest.

(** ** The comparison with the stored history *)
Section Sound.
Context `{NF : !NumericFloat} (repr fold_name : json → string) (TEHRAN : tzinfo).
Context (log10 : float → result pyerr float).

Lemma lift_raised_Ok {A} (m : result pyerr A) a : lift_raised m = Ok a ↔ m = Ok a.
Proof. destruct m; simpl; naive_solver. Qed.

Lemma lift_parse_Ok {A} (m : result parse_error A) a : lift_parse m = Ok a ↔ m = Ok a.
Proof. destruct m; simpl; naive_solver. Qed.

(** The pending values are the settled ones of sessions not stored. *)
Definition new_values (stored : gmap date IndexRow) (settled : list IndexValue) : list IndexValue :=
  List.filter (λ v, bool_decide (stored !! iv_date v = None)) settled.

Lemma pending_filter stored settled kinds :
  traverse (compare_value log10 stored) settled = Ok kinds →
  fst <$> List.filter (is_overlap Pending) (zip settled kinds) = new_values stored settled.
Proof.
  intros H%traverse_Ok. induction H as [|v k settled kinds Hk _ IH]; [done|].
  unfold new_values in *. csimpl. unfold compare_value in Hk.
  destruct (stored !! iv_date v) as [r|] eqn:Hv; simpl.
  - assert (k ≠ Pending) as Hne.
    { destruct (_same_index_print _ _); [by injection Hk as <-|].
      apply bind_Ok in Hk as ([]&_&[= <-]); done. }
    unfold is_overlap at 1. simpl. destruct k; [done|apply IH..].
  - injection Hk as <-. csimpl. by rewrite IH.
Qed.

Lemma new_values_elem stored settled v :
  v ∈ new_values stored settled ↔ v ∈ settled ∧ stored !! iv_date v = None.
Proof. unfold new_values. rewrite elem_of_bool_filter, bool_decide_eq_true. tauto. Qed.

Lemma new_values_NoDup stored settled :
  NoDup (iv_date <$> settled) → NoDup (iv_date <$> new_values stored settled).
Proof.
  unfold new_values. induction settled as [|v l IH]; csimpl; [done|].
  rewrite NoDup_cons. intros [Hv Hnd]. case_match; csimpl; [|by apply IH].
  apply NoDup_cons. split; [|by apply IH]. intros (w&Heq&Hw)%list_elem_of_fmap. apply Hv.
  rewrite Heq. apply list_elem_of_fmap_2. by apply elem_of_bool_filter in Hw as [? _].
Qed.

(** ** The merged series *)
Definition merged_map (stored : gmap date IndexRow) (pending : list IndexValue) : gmap date float :=
  list_to_map ((λ v, (iv_date v, iv_close v)) <$> pending) ∪ (ix_close <$> stored).

Lemma merged_perm stored pending :
  merged_closes stored pending ≡ₚ map_to_list (merged_map stored pending).
Proof. unfold merged_closes, sort_by. by rewrite py_sorted_perm. Qed.

Lemma merged_dates_NoDup stored pending : NoDup (merged_closes stored pending).*1.
Proof. rewrite merged_perm. apply NoDup_fst_map_to_list. Qed.

Lemma merged_dates_elem stored pending d :
  d ∈ (merged_closes stored pending).*1 ↔ d ∈ iv_date <$> pending ∨ is_Some (stored !! d).
Proof.
  rewrite merged_perm. rewrite list_elem_of_fmap. split.
  - intros ([d' c]&->&Hin%elem_of_map_to_list). unfold merged_map in Hin. simpl.
    apply lookup_union_Some_raw in Hin as [Hin|[_ Hin]].
    + left. apply elem_of_list_to_map_2 in Hin. apply list_elem_of_fmap in Hin as (v&[= -> ->]&Hv).
      by apply list_elem_of_fmap_2.
    + right. rewrite lookup_fmap in Hin. destruct (stored !! d'); [by eexists|done].
  - intros Hd. assert (is_Some (merged_map stored pending !! d)) as [c Hc].
    { unfold merged_map. rewrite lookup_union. destruct (list_to_map _ !! d) eqn:Hl.
      - rewrite union_Some_l. by eexists.
      - apply not_elem_of_list_to_map_2 in Hl. rewrite (left_id_L None (∪)), lookup_fmap.
        destruct Hd as [Hd|[r ->]]; [|by eexists]. destruct Hl. rewrite <-list_fmap_compose.
        exact Hd. }
    exists (d, c). split; [done|]. by apply elem_of_map_to_list.
Qed.

(** ** The exponents written *)
Lemma set_scale_id r : set_scale (scale_exp r) r = r.
Proof. by destruct r. Qed.

Lemma exp_at_Ok exp_of d e : exp_at exp_of d = Ok e ↔ exp_of !! d = Some e.
Proof. unfold exp_at. destruct (exp_of !! d); naive_solver. Qed.

Lemma rescale_Ok exp_of l t n t' n' :
  rescale exp_of l t n = Ok (t', n') → NoDup l.*1 → (∀ d r, (d, r) ∈ l → t !! d = Some r) →
  (∀ d r, (d, r) ∈ l → ∃ e, exp_of !! d = Some e ∧ t' !! d = Some (set_scale e r)
                       ∧ (e = scale_exp r ∨ index_row_checks (set_scale e r) = Ok ()))
  ∧ (∀ d, d ∉ l.*1 → t' !! d = t !! d).
Proof.
  revert t n. induction l as [|[d0 r0] l IH]; intros t n; simpl.
  - intros [= <- <-] _ _. split; [|done]. intros d r H. by apply elem_of_nil in H.
  - rewrite bind_Ok. intros (e&He%exp_at_Ok&H) [Hni Hnd]%NoDup_cons Hin.
    assert (∀ d r, (d, r) ∈ l → d ≠ d0) as Hne.
    { intros d r Hdr ->. apply Hni. by apply (list_elem_of_fmap_2 fst _ (d0, r)). }
    destruct (Z.eqb_spec (scale_exp r0) e) as [Heq|Hneq].
    + apply IH in H as [H1 H2]; [|done|intros d r Hdr; apply Hin; by right]. split.
      * intros d r [[= -> ->]|Hdr]%elem_of_cons; [|by apply H1].
        exists e. split; [done|]. rewrite H2 by done. split; [|by left].
        rewrite (Hin d0 r0) by left. by rewrite <-Heq, set_scale_id.
      * intros d Hd. apply H2. intros ?. apply Hd. by right.
    + apply bind_Ok in H as ([]&Hc&H). apply IH in H as [H1 H2]; [|done|].
      * split.
        -- intros d r [[= -> ->]|Hdr]%elem_of_cons; [|by apply H1].
           exists e. split; [done|]. rewrite H2 by done. split; [|by right].
           by rewrite lookup_alter_eq, (Hin d0 r0) by left.
        -- intros d [Hd1 Hd2]%not_elem_of_cons. rewrite H2 by done. by rewrite lookup_alter_ne.
      * intros d r Hdr. rewrite lookup_alter_ne by (symmetry; by eapply Hne).
        apply Hin. by right.
Qed.

(** What a successful transaction on one index did. *)
Record index_stored (db : MarketDB) (now : instant) (history : IndexHistory)
    (settled : list IndexValue) (live : option LiveIndex) (after : gmap date IndexRow)
    (v : IndexVerdict) : Prop := {
  is_stored_kept : ∀ d r, rows_of (ih_code history) (market_index_values db) ∅ !! d = Some r →
    ∃ e, after !! d = Some (set_scale e r)
         ∧ (e = scale_exp r ∨ index_row_checks (set_scale e r) = Ok ());
  is_new_written : ∀ d r, after !! d = Some r →
    rows_of (ih_code history) (market_index_values db) ∅ !! d = None →
    ∃ x, x ∈ settled ∧ index_row_of now (scale_exp r) x = (d, r) ∧ index_row_checks r = Ok ();
  is_all_written : ∀ x, x ∈ settled → is_Some (after !! iv_date x);
  is_corrected : ∃ exps breaks,
    let merged := merged_closes (rows_of (ih_code history) (market_index_values db) ∅)
                    (new_values (rows_of (ih_code history) (market_index_values db) ∅) settled) in
    scale_exponents merged.*2 = Ok (exps, breaks)
    ∧ (∀ d r, after !! d = Some r → (d, scale_exp r) ∈ zip merged.*1 exps)
    ∧ (∀ d, is_Some (after !! d) ↔ d ∈ merged.*1)
    ∧ verdict merged.*1 merged.*2 exps breaks (dropped_nonpositive history) (li_value <$> live) = Ok v;
}.

Lemma traverse_rows now (exp_of : gmap date Z) (pending : list IndexValue) rows :
  traverse (λ v, e ← exp_at exp_of (iv_date v); Ok (index_row_of now e v)) pending = Ok rows →
  Forall2 (λ v r, ∃ e, exp_of !! iv_date v = Some e ∧ r = index_row_of now e v) pending rows.
Proof.
  intros H%traverse_Ok. eapply Forall2_impl; [exact H|]. intros v r Hr. simpl in Hr.
  apply bind_Ok in Hr as (e&He%exp_at_Ok&[= <-]). by exists e.
Qed.

Lemma rows_keys now (exp_of : gmap date Z) pending rows :
  Forall2 (λ v r, ∃ e, exp_of !! iv_date v = Some e ∧ r = index_row_of now e v) pending rows →
  rows.*1 = iv_date <$> pending.
Proof. induction 1 as [|v r pending rows (e&_&->) _ IH]; [done|]. csimpl. by rewrite IH. Qed.

Lemma rows_of_elem {V} `{Countable K} k (t : gmap K (gmap date V)) :
  rows_of k t ∅ = default ∅ (t !! k).
Proof. done. Qed.

(** The rows after the insert and the rescale. *)
Lemma index_rows_after now (stored : gmap date IndexRow) pending (exp_of : gmap date Z) rows inserted after n :
  NoDup (iv_date <$> pending) → (∀ x, x ∈ pending → stored !! iv_date x = None) →
  Forall2 (λ v r, ∃ e, exp_of !! iv_date v = Some e ∧ r = index_row_of now e v) pending rows →
  _bulk_insert_ignore index_row_checks stored rows = Ok inserted →
  rescale exp_of (map_to_list stored) inserted 0 = Ok (after, n) →
  (∀ d r, stored !! d = Some r → ∃ e, exp_of !! d = Some e ∧ after !! d = Some (set_scale e r)
     ∧ (e = scale_exp r ∨ index_row_checks (set_scale e r) = Ok ()))
  ∧ (∀ d r, after !! d = Some r → stored !! d = None →
       ∃ x, x ∈ pending ∧ exp_of !! d = Some (scale_exp r)
            ∧ index_row_of now (scale_exp r) x = (d, r) ∧ index_row_checks r = Ok ())
  ∧ (∀ x, x ∈ pending → is_Some (after !! iv_date x)).
Proof.
  intros Hnd Hfresh Hrows Hins Hre. pose proof (rows_keys _ _ _ _ Hrows) as Hkeys.
  apply bulk_insert_spec in Hins as [Hchecks ->].
  apply rescale_Ok in Hre as [Hold Hnew]; [|apply NoDup_fst_map_to_list|].
  2: { intros d r Hdr%elem_of_map_to_list. rewrite lookup_union, Hdr. by rewrite union_Some_l. }
  assert (∀ d, stored !! d = None → after !! d = (list_to_map rows : gmap date IndexRow) !! d) as Hnew'.
  { intros d Hd. rewrite Hnew.
    - rewrite lookup_union, Hd. by rewrite (left_id_L None (∪)).
    - intros ([d' r]&->&Hdr%elem_of_map_to_list)%list_elem_of_fmap. simpl in *. congruence. }
  split_and!.
  - intros d r Hdr. apply Hold. by apply elem_of_map_to_list.
  - intros d r Hr Hd. rewrite Hnew' in Hr by done. apply elem_of_list_to_map_2 in Hr.
    destruct (Forall2_elem_r _ _ _ _ Hrows Hr) as (x&Hx&e&He&Heq).
    assert (d = iv_date x ∧ e = scale_exp r) as [-> ->] by (by injection Heq as -> ->).
    exists x. split_and!; [done|done|done|]. rewrite Forall_forall in Hchecks. by apply (Hchecks _ Hr).
  - intros x Hx. rewrite Hnew' by (by apply Hfresh).
    destruct ((list_to_map rows : gmap date IndexRow) !! iv_date x) eqn:Hl; [by eexists|].
    apply not_elem_of_list_to_map_2 in Hl. destruct Hl. rewrite Hkeys. by apply list_elem_of_fmap_2.
Qed.

Lemma store_index_Ok db now registry history settled live db' rep :
  NoDup (iv_date <$> settled) →
  store_index log10 db now registry history settled live = Ok (db', rep) →
  ∃ after dates,
    index_stored db now history settled live after (ir_verdict rep)
    ∧ index_check_checks {| ic_verdict := ir_verdict rep;
         live_checked_at := if bool_decide (is_Some live) then Some now else None;
         computed_at := now |} = Ok ()
    ∧ ir_code rep = ih_code history
    ∧ NoDup dates ∧ dates = sort_by (λ d, d) dates ∧ (∀ d, d ∈ dates ↔ is_Some (after !! d))
    ∧ db' = set_indices (set_index_checks
               (set_index_values db (<[ih_code history := after]> (market_index_values db)))
               (<[(ih_code history, CHECK_VERSION) :=
                   {| ic_verdict := ir_verdict rep;
                      live_checked_at := if bool_decide (is_Some live) then Some now else None;
                      computed_at := now |}]> (market_index_checks db)))
             (alter (set_coverage dates (Z.of_nat (size after)) now) (ih_code history)
                (market_indices db)).
Proof.
  intros Hnd. unfold store_index. set (code := ih_code history).
  set (stored := rows_of code (market_index_values db) ∅). intros H.
  apply bind_Ok in H as (kinds&Hkinds%lift_raised_Ok&H).
  rewrite (pending_filter _ _ _ Hkinds) in H. set (pending := new_values stored settled) in *.
  apply bind_Ok in H as ([]&_&H). set (merged := merged_closes stored pending) in *.
  apply bind_Ok in H as ([exps breaks]&Hexps%lift_raised_Ok&H).
  apply bind_Ok in H as (rows&Hrows%traverse_rows&H). apply bind_Ok in H as (inserted&Hins&H).
  apply bind_Ok in H as ([after updates]&Hre&H). apply bind_Ok in H as (v&Hv%lift_raised_Ok&H).
  apply bind_Ok in H as (db1&Hdb1&[= <- <-]).
  apply bind_Ok in Hdb1 as ([]&Hcheck&[= <-]). simpl.
  destruct (index_rows_after now stored pending (list_to_map (zip merged.*1 exps)) rows inserted after updates) as (H1&H2&H3); try done.
  { by apply new_values_NoDup. }
  { by intros x [_ ?]%new_values_elem. }
  assert (∀ d r, after !! d = Some r → (d, scale_exp r) ∈ zip merged.*1 exps) as Hzip.
  { intros d r Hr. apply elem_of_list_to_map_2. destruct (stored !! d) as [r0|] eqn:Hd.
    - destruct (H1 d r0 Hd) as (e&He&Hafter&_). rewrite Hafter in Hr. by injection Hr as <-.
    - by destruct (H2 d r Hr Hd) as (x&_&He&_). }
  assert (∀ d, is_Some (after !! d) ↔ d ∈ merged.*1) as Hdom.
  { intros d. unfold merged. rewrite merged_dates_elem. split.
    - intros [r Hr]. destruct (stored !! d) as [r0|] eqn:Hd; [right; by eexists|left].
      destruct (H2 d r Hr Hd) as (x&Hx&_&Heq&_). injection Heq as <- _. by apply list_elem_of_fmap_2.
    - intros [(x&->&Hx)%list_elem_of_fmap|[r Hr]]; [by apply H3|].
      destruct (H1 d r Hr) as (e&_&->&_). by eexists. }
  exists after, merged.*1. split_and!; try done.
  - constructor; fold code stored pending merged.
    + intros d r Hr. destruct (H1 d r Hr) as (e&_&?&?). by exists e.
    + intros d r Hr Hd. destruct (H2 d r Hr Hd) as (x&Hx&_&?&?). exists x.
      split; [|done]. by apply new_values_elem in Hx as [? _].
    + intros x Hx. destruct (stored !! iv_date x) as [r|] eqn:Hd.
      * destruct (H1 _ r Hd) as (e&_&->&_). by eexists.
      * apply H3, new_values_elem. by split.
    + exists exps, breaks. by split_and!.
  - apply merged_dates_NoDup.
  - symmetry. apply sort_by_id. unfold merged. pose proof (sort_by_ascending fst
      (map_to_list (merged_map stored pending))) as Hasc.
    unfold merged_closes. fold (merged_map stored pending).
    clear -Hasc. induction Hasc as [|x l _ IH Hx]; csimpl; constructor; [done|].
    by apply Forall_fmap.
Qed.

Lemma parse_history_dates payload h :
  parse_index_history repr payload EmptyString = Ok h →
  NoDup (iv_date <$> ih_values h) ∧ Forall (λ v, positive (iv_close v) = true) (ih_values h).
Proof.
  unfold parse_index_history. rewrite bind_Ok. intros (rows&_&H).
  apply bind_Ok in H as (code&_&H). apply bind_Ok in H as (parsed&Hparsed%traverse_Ok&H).
  destruct (rights parsed) as [|v0 vs0] eqn:Hr; [done|]. rewrite <-Hr in H.
  apply bind_Ok in H as (vs&Hvs&[= <-]). apply dates_unique_Ok in Hvs as [Hnd ->]. simpl.
  assert (sort_by iv_date (rights parsed) ≡ₚ rights parsed) as Hperm by apply py_sorted_perm.
  rewrite Hperm. split; [done|]. apply Forall_forall. intros v Hv%rights_elem.
  destruct (Forall2_elem_r _ _ _ _ Hparsed Hv) as (r&_&Hrow).
  apply index_row_Ok in Hrow as (_&_&[Hpos _ _]). done.
Qed.

Lemma NoDup_fmap_filter {A B} (f : A → B) (p : A → bool) l :
  NoDup (f <$> l) → NoDup (f <$> List.filter p l).
Proof.
  induction l as [|x l IH]; csimpl; [done|]. rewrite NoDup_cons. intros [Hx Hnd].
  destruct (p x); csimpl; [|by apply IH]. apply NoDup_cons. split; [|by apply IH].
  intros (y&Heq&Hy)%list_elem_of_fmap. apply Hx. rewrite Heq. apply list_elem_of_fmap_2.
  by apply elem_of_bool_filter in Hy as [? _].
Qed.

(** The settled values of a parsed history. *)
Definition settled_values (now : instant) (h : IndexHistory) : list IndexValue :=
  List.filter (λ v, iv_date v <? settled_cutoff TEHRAN now) (ih_values h).

Lemma ingest_index_Ok db payload live now db' rep :
  ingest_index_history repr TEHRAN log10 db payload live now = Ok (db', rep) →
  ∃ h registry,
    parse_index_history repr payload EmptyString = Ok h
    ∧ market_indices db !! ih_code h = Some registry
    ∧ NoDup (iv_date <$> settled_values now h)
    ∧ store_index log10 db now registry h (settled_values now h) (assoc (ih_code h) live)
      = Ok (db', rep).
Proof.
  unfold ingest_index_history. rewrite bind_Ok. intros (h&Hh%lift_parse_Ok&H).
  fold (settled_values now h) in H. destruct (settled_values now h) as [|v vs] eqn:Hs; [done|].
  rewrite <-Hs in *. destruct (market_indices db !! ih_code h) as [i|] eqn:Hi; [|done].
  exists h, i. split_and!; [done|done| |done]. apply NoDup_fmap_filter.
  by apply parse_history_dates in Hh as [? _].
Qed.

(** A stored index value is written once.  After an accepted history every row
    that was stored is there with the close, bounds and collection time it had -
    only its power of ten may differ; every new row is a settled value of this
    payload, stored as served under this run's instant; every settled value of
    the payload has a row; the exponents stored are exactly those
    [scale_exponents] gives for the whole merged series; and no row of another
    index, of market values or of client flows changed. *)
Theorem index_history_write_once db payload live now db' rep h :
  parse_index_history repr payload EmptyString = Ok h →
  ingest_index_history repr TEHRAN log10 db payload live now = Ok (db', rep) →
  let before := rows_of (ih_code h) (market_index_values db) ∅ in
  let after := rows_of (ih_code h) (market_index_values db') ∅ in
  ir_code rep = ih_code h
  ∧ (∀ d r, before !! d = Some r → ∃ e, after !! d = Some (set_scale e r))
  ∧ (∀ d r, after !! d = Some r → before !! d = None →
       d < settled_cutoff TEHRAN now
       ∧ ∃ v, v ∈ ih_values h ∧ index_row_of now (scale_exp r) v = (d, r))
  ∧ (∀ v, v ∈ ih_values h → iv_date v < settled_cutoff TEHRAN now → is_Some (after !! iv_date v))
  ∧ (∃ exps breaks,
       let merged := merged_closes before (new_values before (settled_values now h)) in
       scale_exponents merged.*2 = Ok (exps, breaks)
       ∧ ∀ d r, after !! d = Some r → (d, scale_exp r) ∈ zip merged.*1 exps)
  ∧ (∀ code, code ≠ ih_code h → market_index_values db' !! code = market_index_values db !! code)
  ∧ market_values db' = market_values db ∧ equity_client_flows db' = equity_client_flows db.
Proof.
  intros Hh (h'&i&Hh'&_&Hnd&Hst)%ingest_index_Ok. assert (h' = h) as -> by congruence.
  destruct (store_index_Ok _ _ _ _ _ _ _ _ Hnd Hst) as (after&dates&[Hk Hn Ha Hc]&_&Hcode&_&_&_&->).
  simpl. rewrite rows_of_insert. split_and!; try done.
  - intros d r Hr. destruct (Hk d r Hr) as (e&?&_). by exists e.
  - intros d r Hr Hd. destruct (Hn d r Hr Hd) as (x&Hx&Heq&_).
    apply elem_of_bool_filter in Hx as [Hx Hlt%Z.ltb_lt]. injection Heq as <- Heq.
    split; [done|]. exists x. split; [done|]. unfold index_row_of. by rewrite Heq.
  - intros v Hv Hlt. apply Ha. apply elem_of_bool_filter. split; [done|by apply Z.ltb_lt].
  - destruct Hc as (exps&breaks&?&?&_). by exists exps, breaks.
  - intros code Hne. by rewrite lookup_insert_ne.
Qed.

(** ** The state of the tables *)

(** Every CHECK and foreign key the tables declare (the regular expressions on the codes
    apart, which only one database has), and what the code keeps besides: a row was settled
    when it was collected, and the coverage columns of an index and the flow columns of a
    share are the first date, the last date and the count of its rows. *)
Record market_ok (db : MarketDB) : Prop := {
  mo_index_rows : map_Forall (λ code rows, is_Some (market_indices db !! code)
    ∧ map_Forall (λ d r, index_row_checks r = Ok ()
                         ∧ d < settled_cutoff TEHRAN (ix_collected_at r)) rows)
    (market_index_values db);
  mo_indices : map_Forall (λ _ i, index_info_checks i = Ok ()) (market_indices db);
  mo_index_coverage : map_Forall (λ code i, (first_date i, last_date i, value_count i)
    = coverage (rows_of code (market_index_values db) ∅)) (market_indices db);
  mo_index_checks : map_Forall (λ k c, is_Some (market_indices db !! k.1) ∧ index_check_checks c = Ok ())
    (market_index_checks db);
  mo_values : map_Forall (λ m rows, map_Forall (λ d v, market_value_checks m v.1 = Ok ()
    ∧ d < settled_cutoff TEHRAN v.2) rows) (market_values db);
  mo_flows : map_Forall (λ code rows, is_Some (market_shares db !! code)
    ∧ map_Forall (λ d r, flow_row_checks r = Ok ()
                         ∧ d < settled_cutoff TEHRAN (fl_collected_at r)) rows)
    (equity_client_flows db);
  mo_flow_coverage : map_Forall (λ code s, (flow_first_date s, flow_last_date s, flow_count s)
    = coverage (rows_of code (equity_client_flows db) ∅)) (market_shares db);
  mo_sessions : map_Forall (λ d rows, map_Forall (λ code s, is_Some (market_shares db !! code)
    ∧ session_row_checks s.1 = Ok () ∧ d < settled_cutoff TEHRAN s.2) rows)
    (market_share_sessions db);
  mo_shares : map_Forall (λ _ s, share_row_checks s = Ok ()) (market_shares db);
  mo_session_files : map_Forall (λ _ f, session_file_checks f = Ok ()) (market_session_files db);
  mo_snapshots : map_Forall (λ _ v, snapshot_checks v.1 = Ok ()) (market_snapshots db);
  mo_breadth : map_Forall (λ _ v, breadth_checks v.1 = Ok ()) (sector_breadth_snapshots db);
}.

(** The days a share has a session row on. *)
Definition session_days (db : MarketDB) (code : string) : gset date :=
  dom (filter (λ p, is_Some (p.2 !! code)) (market_share_sessions db)).

(** The session columns of every share are the last of its days and their number. *)
Definition sessions_covered (db : MarketDB) : Prop :=
  map_Forall (λ code s,
    session_count s = Z.of_nat (size (session_days db code))
    ∧ match session_last_date s with
      | Some d => d ∈ session_days db code ∧ ∀ d', d' ∈ session_days db code → d' ≤ d
      | None => session_days db code = ∅
      end) (market_shares db).

#[local] Arguments coverage : simpl never.

Lemma rows_of_Forall {V} (P : string → date → V → Prop) (t : gmap string (gmap date V)) k d v :
  map_Forall (λ k rows, map_Forall (P k) rows) t → rows_of k t ∅ !! d = Some v → P k d v.
Proof.
  intros Hall. unfold rows_of. destruct (t !! k) as [rows|] eqn:Hk; simpl; [|by rewrite lookup_empty].
  apply (Hall _ _ Hk).
Qed.

Lemma coverage_dates {V} (t : gmap date V) dates :
  NoDup dates → dates = sort_by (λ d, d) dates → (∀ d, d ∈ dates ↔ is_Some (t !! d)) →
  (head dates, last dates, Z.of_nat (size t)) = coverage t.
Proof.
  intros Hnd Hs Hd. unfold coverage. do 3 f_equal.
  all: assert (sort_by (λ d, d) (elements (dom t)) = dates) as ->; [|done].
  all: rewrite Hs; symmetry; apply sort_by_perm_eq; [by rewrite list_fmap_id|].
  all: apply NoDup_Permutation; [done|apply NoDup_elements|]; intros d.
  all: by rewrite elem_of_elements, elem_of_dom.
Qed.

Lemma store_index_ok db now registry history settled live db' rep :
  market_ok db → NoDup (iv_date <$> settled) →
  market_indices db !! ih_code history = Some registry →
  Forall (λ v, iv_date v < settled_cutoff TEHRAN now) settled →
  store_index log10 db now registry history settled live = Ok (db', rep) → market_ok db'.
Proof.
  intros [] Hnd Hreg Hset Hst. rewrite Forall_forall in Hset.
  destruct (store_index_Ok _ _ _ _ _ _ _ _ Hnd Hst) as (after&dates&[Hk Hn _ _]&Hc&_&Hdn&Hds&Hdd&->).
  constructor; simpl; try done.
  - intros code rows [[<- <-]|[Hne Hrows]]%lookup_insert_Some.
    + split; [rewrite lookup_alter_eq, Hreg; by eexists|]. intros d r Hr.
      destruct (rows_of (ih_code history) (market_index_values db) ∅ !! d) as [r0|] eqn:Hd.
      * destruct (Hk d r0 Hd) as (e&Hafter&He). rewrite Hafter in Hr. injection Hr as <-.
        apply (rows_of_Forall (λ code d r, index_row_checks r = Ok ()
                 ∧ d < settled_cutoff TEHRAN (ix_collected_at r))) in Hd as [Hold Hlt].
        2: { intros c rs Hcr. by apply (mo_index_rows0 _ _ Hcr). }
        split; [|done]. destruct He as [->|He]; [by rewrite set_scale_id|done].
      * destruct (Hn d r Hr Hd) as (x&Hx&Heq&Hcheck). split; [done|].
        injection Heq as <- Heq. rewrite <-Heq. simpl. by apply Hset.
    + destruct (mo_index_rows0 code rows Hrows) as [[i Hi] ?]. split; [|done].
      rewrite lookup_alter_ne by done. by exists i.
  - intros code i Hi. destruct (decide (code = ih_code history)) as [->|Hne].
    + rewrite lookup_alter_eq, Hreg in Hi. injection Hi as <-. by apply (mo_indices0 _ _ Hreg).
    + rewrite lookup_alter_ne in Hi by done. by apply (mo_indices0 _ _ Hi).
  - intros code i Hi. destruct (decide (code = ih_code history)) as [->|Hne].
    + rewrite lookup_alter_eq, Hreg in Hi. injection Hi as <-. simpl. rewrite rows_of_insert.
      by apply coverage_dates.
    + rewrite lookup_alter_ne in Hi by done. rewrite rows_of_insert_ne by done. by apply mo_index_coverage0.
  - assert (∀ code, is_Some (market_indices db !! code) →
      is_Some (alter (set_coverage dates (Z.of_nat (size after)) now) (ih_code history) (market_indices db) !! code)) as Hfk.
    { intros code [i Hi]. destruct (decide (code = ih_code history)) as [->|Hne].
      - rewrite lookup_alter_eq, Hi. by eexists.
      - rewrite lookup_alter_ne by done. by exists i. }
    apply map_Forall_insert_2; [split; [apply Hfk; by exists registry|done]|].
    intros k c Hkc. destruct (mo_index_checks0 _ _ Hkc) as [Hi ?]. split; [by apply Hfk|done].
Qed.

Lemma ingest_index_ok db payload live now db' rep :
  market_ok db → ingest_index_history repr TEHRAN log10 db payload live now = Ok (db', rep) →
  market_ok db'.
Proof.
  intros Hok (h&i&_&Hreg&Hnd&Hst)%ingest_index_Ok. eapply store_index_ok; [done|done|done| |done].
  apply Forall_forall. intros v [_ Hlt]%elem_of_bool_filter. by apply Z.ltb_lt.
Qed.

Lemma bulk_insert_Forall {K V} `{Countable K} (P : K → V → Prop) checks (t : gmap K V) rows t' :
  _bulk_insert_ignore checks t rows = Ok t' → map_Forall P t →
  (∀ k v, (k, v) ∈ rows → checks v = Ok () → P k v) → map_Forall P t'.
Proof.
  intros [Hall ->]%bulk_insert_spec Ht Hrows k v Hkv. rewrite Forall_forall in Hall.
  apply lookup_union_Some_raw in Hkv as [Hkv|[_ Hkv]]; [by apply Ht|].
  apply elem_of_list_to_map_2 in Hkv. apply Hrows; [done|]. by apply (Hall _ Hkv).
Qed.

Lemma rows_of_map_Forall {K V} `{Countable K} (P : K → V → Prop) (t : gmap string (gmap K V)) k :
  (∀ rows, t !! k = Some rows → map_Forall P rows) → map_Forall P (rows_of k t ∅).
Proof.
  unfold rows_of. intros Ht. destruct (t !! k) as [rows|] eqn:Hk; [by apply Ht|]. apply map_Forall_empty.
Qed.

(** *** Market values *)
Definition value_ok (market : string) (d : date) (v : float * instant) : Prop :=
  market_value_checks market v.1 = Ok () ∧ d < settled_cutoff TEHRAN v.2.

Lemma revise_Ok market now revisions t t' :
  revise market now revisions t = Ok t' →
  (∀ d old v, (d, old, v) ∈ revisions → d < settled_cutoff TEHRAN now) →
  map_Forall (value_ok market) t → map_Forall (value_ok market) t'.
Proof.
  revert t. induction revisions as [|[[d old] v] revisions IH]; intros t; simpl.
  - by intros [= <-].
  - rewrite bind_Ok. intros ([]&Hc&H) Hset Ht. eapply IH; [done| |].
    + intros d' old' v' Hin. eapply Hset. by right.
    + apply map_Forall_insert_2; [|done]. split; [done|]. eapply Hset. by left.
Qed.

Lemma ingest_values_ok db payload market now db' rep :
  market_ok db → ingest_market_values TEHRAN db payload market now = Ok (db', rep) → market_ok db'.
Proof.
  intros [] H. unfold ingest_market_values in H. apply bind_Ok in H as (parsed&_&H).
  set (values := List.filter _ (mv_values parsed)) in H.
  assert (∀ v, v ∈ values → v.1 < settled_cutoff TEHRAN now) as Hset
    by (by intros v [_ ?%Z.ltb_lt]%elem_of_bool_filter).
  destruct values as [|v0 vs] eqn:Hvs; [done|]. rewrite <-Hvs in *.
  apply bind_Ok in H as ([]&_&H). apply bind_Ok in H as (revised&Hrev&H).
  apply bind_Ok in H as (after&Hins&[= <- <-]). constructor; simpl; try done.
  apply map_Forall_insert_2; [|done]. fold (value_ok market).
  eapply bulk_insert_Forall; [exact Hins| |].
  - eapply revise_Ok; [exact Hrev| |].
    + intros d old v (x&Hx&Heq)%list_elem_of_omap. unfold revision in Heq.
      destruct (_ !! x.1) as [[o c]|]; [|done]. repeat case_match; try done.
      injection Heq as <- _ _. by apply Hset.
    + apply rows_of_map_Forall. intros rows Hrows. by apply (mo_values0 _ _ Hrows).
  - intros d v (x&[= -> ->]&Hx)%list_elem_of_fmap Hc. split; [done|].
    apply elem_of_bool_filter in Hx as [Hx _]. by apply Hset.
Qed.

(** *** Client flows *)
Lemma ingest_flows_Ok db payload now asked db' rep :
  ingest_client_flows repr TEHRAN db payload now asked = Ok (db', rep) →
  ∃ parsed share row0 rows,
    parse_client_types repr payload asked = Ok parsed
    ∧ market_shares db !! cf_code parsed = Some share
    ∧ row0 :: rows = List.filter (λ r, cr_date r <? settled_cutoff TEHRAN now) (cf_rows parsed)
    ∧ store_flows db now parsed share row0 (row0 :: rows) = Ok (db', rep).
Proof.
  unfold ingest_client_flows. rewrite bind_Ok. intros (parsed&Hp%lift_parse_Ok&H).
  destruct (List.filter _ (cf_rows parsed)) as [|row0 rows] eqn:Hrows; [done|].
  destruct (market_shares db !! cf_code parsed) as [share|] eqn:Hs; [|done].
  exists parsed, share, row0, rows. by rewrite Hrows.
Qed.

(** The new rows of a share, and what else of the tables a success changed. *)
Definition flow_row_of (now : instant) (r : ClientRow) : date * FlowRow :=
  (cr_date r, {| fl_cells := store_cell <$> cr_cells r; fl_collected_at := now |}).

Lemma store_flows_Ok db now parsed share row0 rows db' rep :
  store_flows db now parsed share row0 rows = Ok (db', rep) →
  ∃ pending after,
    (∀ r, r ∈ pending → r ∈ rows)
    ∧ _bulk_insert_ignore flow_row_checks (rows_of (cf_code parsed) (equity_client_flows db) ∅)
        (flow_row_of now <$> pending) = Ok after
    ∧ (db' = set_shares (set_flows db (<[cf_code parsed := after]> (equity_client_flows db)))
               (alter (set_flow_coverage (coverage after) now) (cf_code parsed) (market_shares db))
       ∨ db' = set_flows db (<[cf_code parsed := after]> (equity_client_flows db))
         ∧ coverage after = (flow_first_date share, flow_last_date share, flow_count share)).
Proof.
  unfold store_flows. intros H. apply bind_Ok in H as (kinds&_&H).
  apply bind_Ok in H as ([]&_&H). apply bind_Ok in H as (after&Hins&[= <- _]).
  set (judged := zip rows kinds) in *.
  exists (fst <$> List.filter is_new judged), after. split_and!; [|done|].
  - intros r ([r' k]&->&Hr)%list_elem_of_fmap. apply elem_of_bool_filter in Hr as [Hr _].
    by apply elem_of_zip_l in Hr.
  - case_bool_decide; simpl; [right; by split|by left].
Qed.

Lemma ingest_flows_ok db payload now asked db' rep :
  market_ok db → ingest_client_flows repr TEHRAN db payload now asked = Ok (db', rep) → market_ok db'.
Proof.
  intros [] (parsed&share&row0&rows&_&Hshare&Hrows&Hst)%ingest_flows_Ok.
  destruct (store_flows_Ok _ _ _ _ _ _ _ _ Hst) as (pending&after&Hpend&Hins&Hdb).
  set (code := cf_code parsed) in *.
  assert (∀ r, r ∈ pending → cr_date r < settled_cutoff TEHRAN now) as Hset.
  { intros r Hr%Hpend. rewrite Hrows in Hr. by apply elem_of_bool_filter in Hr as [_ ?%Z.ltb_lt]. }
  assert (map_Forall (λ d r, flow_row_checks r = Ok () ∧ d < settled_cutoff TEHRAN (fl_collected_at r)) after)
    as Hafter.
  { eapply bulk_insert_Forall; [exact Hins| |].
    - apply rows_of_map_Forall. intros rs Hrs. by apply (mo_flows0 _ _ Hrs).
    - intros d r (x&[= -> ->]&Hx)%list_elem_of_fmap Hc. split; [done|]. by apply Hset. }
  destruct Hdb as [->|[-> Hcov]]; constructor; simpl; try done.
  - intros c rs [[<- <-]|[Hne Hrs]]%lookup_insert_Some.
    + split; [|done]. rewrite lookup_alter_eq, Hshare. by eexists.
    + destruct (mo_flows0 c rs Hrs) as [[s Hs] ?]. split; [|done].
      rewrite lookup_alter_ne by done. by exists s.
  - intros c s Hs. destruct (decide (c = code)) as [->|Hne].
    + rewrite lookup_alter_eq, Hshare in Hs. injection Hs as <-. simpl. rewrite rows_of_insert.
      reflexivity.
    + rewrite lookup_alter_ne in Hs by done. rewrite rows_of_insert_ne by done. by apply mo_flow_coverage0.
  - intros d rs Hrs c s Hs. destruct (mo_sessions0 d rs Hrs c s Hs) as [[x Hx] ?]. split; [|done].
    destruct (decide (c = code)) as [->|Hne]; [rewrite lookup_alter_eq, Hx; by eexists|].
    rewrite lookup_alter_ne by done. by exists x.
  - intros c s Hs. destruct (decide (c = code)) as [->|Hne].
    + rewrite lookup_alter_eq, Hshare in Hs. injection Hs as <-. by apply (mo_shares0 _ _ Hshare).
    + rewrite lookup_alter_ne in Hs by done. by apply (mo_shares0 _ _ Hs).
  - intros c rs [[<- <-]|[Hne Hrs]]%lookup_insert_Some; [by split; [eexists|]|by apply mo_flows0].
  - intros c s Hs. destruct (decide (c = code)) as [->|Hne].
    + rewrite Hshare in Hs. injection Hs as <-. rewrite rows_of_insert. by rewrite Hcov.
    + rewrite rows_of_insert_ne by done. by apply mo_flow_coverage0.
Qed.

(** *** The snapshot *)
Lemma insert_ignore_Forall {K V} `{Countable K} (P : K → V → Prop) checks (t : gmap K V) rows n t' n' :
  insert_ignore checks t rows n = Ok (t', n') → (∀ k v, checks v = Ok () → P k v) →
  map_Forall P t → map_Forall P t'.
Proof.
  intros Hi HP. revert t n Hi. induction rows as [|[k v] rows IH]; intros t n; simpl.
  - by intros [= <- _].
  - rewrite bind_Ok. intros (t1&H1&H2) Ht. eapply IH; [exact H2|].
    unfold insert_one in H1. apply bind_Ok in H1 as ([]&Hc&[= <-]). simpl.
    destruct (t !! k); [done|]. apply map_Forall_insert_2; [by apply HP|done].
Qed.

Lemma store_overviews_Forall now parsed t report t' report' :
  store_overviews now parsed t report = Ok (t', report') →
  map_Forall (λ _ v, snapshot_checks v.1 = Ok ()) t →
  map_Forall (λ _ v, snapshot_checks v.1 = Ok ()) t'.
Proof.
  revert t report. induction parsed as [|[m o] parsed IH]; intros t report; simpl.
  - by intros [= <- _].
  - intros H Ht. apply bind_Ok in H as (t1&H1&H2). apply bind_Ok in H1 as (t2&H1&[= <-]).
    eapply IH; [exact H2|]. apply (insert_ignore_Forall _ (λ v, snapshot_checks v.1) t
      [((ov_market o, activity_at o), (store_overview o, now))] 0 t2
      (match t !! (ov_market o, activity_at o) with Some _ => 0 | None => 1 end)); [|done|done].
    simpl. by rewrite H1.
Qed.

Lemma ingest_snapshot_ok db overviews sector_summary now db' rep :
  market_ok db → ingest_snapshot repr fold_name TEHRAN db overviews sector_summary now = Ok (db', rep) →
  market_ok db'.
Proof.
  intros [] H. unfold ingest_snapshot in H. apply bind_Ok in H as (parsed&_&H).
  apply bind_Ok in H as (sectors&_&H). apply bind_Ok in H as (stamp&_&H).
  apply bind_Ok in H as ([t r]&Ht&H). apply store_overviews_Forall in Ht; [|done].
  destruct stamp as [[s at_]|].
  - apply bind_Ok in H as ([t2 n]&Ht2&[= <- _]). constructor; simpl; try done.
    by apply (insert_ignore_Forall (λ _ v, breadth_checks v.1 = Ok ()) _ _ _ _ _ _ Ht2).
  - injection H as <- _. by constructor.
Qed.

(** ** The run *)

(** One payload taken in: a transaction that committed. *)
Inductive ingested (now : instant) (db db' : MarketDB) : Prop :=
| took_index payload live rep :
    ingest_index_history repr TEHRAN log10 db payload live now = Ok (db', rep) → ingested now db db'
| took_values payload market rep :
    ingest_market_values TEHRAN db payload market now = Ok (db', rep) → ingested now db db'
| took_flows payload asked rep :
    ingest_client_flows repr TEHRAN db payload now asked = Ok (db', rep) → ingested now db db'
| took_snapshot overviews sectors rep :
    ingest_snapshot repr fold_name TEHRAN db overviews sectors now = Ok (db', rep) →
    ingested now db db'.

Lemma ingested_ok now db db' : ingested now db db' → market_ok db → market_ok db'.
Proof.
  intros [] Hok; eauto using ingest_index_ok, ingest_values_ok, ingest_flows_ok, ingest_snapshot_ok.
Qed.

(** No ingest of this file touches a session, nor what a share says of its own. *)
Definition session_coverage (s : Share) : option date * Z := (session_last_date s, session_count s).

Lemma ingested_sessions now db db' :
  ingested now db db' →
  market_share_sessions db' = market_share_sessions db
  ∧ ∀ c, session_coverage <$> market_shares db' !! c = session_coverage <$> market_shares db !! c.
Proof.
  intros [payload live rep H|payload market rep H|payload asked rep H|overviews sectors rep H].
  - apply ingest_index_Ok in H as (h&i&_&_&Hnd&Hst).
    destruct (store_index_Ok _ _ _ _ _ _ _ _ Hnd Hst) as (after&dates&_&_&_&_&_&_&->). done.
  - unfold ingest_market_values in H. apply bind_Ok in H as (parsed&_&H).
    destruct (List.filter _ (mv_values parsed)); [done|].
    apply bind_Ok in H as ([]&_&H). apply bind_Ok in H as (revised&_&H).
    by apply bind_Ok in H as (after&_&[= <- _]).
  - apply ingest_flows_Ok in H as (parsed&share&row0&rows&_&_&_&Hst).
    destruct (store_flows_Ok _ _ _ _ _ _ _ _ Hst) as (pending&after&_&_&[->|[-> _]]); [|done].
    split; [done|]. intros c. simpl. destruct (decide (c = cf_code parsed)) as [->|Hne].
    + rewrite lookup_alter_eq. by destruct (market_shares db !! cf_code parsed).
    + by rewrite lookup_alter_ne.
  - unfold ingest_snapshot in H. apply bind_Ok in H as (parsed&_&H).
    apply bind_Ok in H as (sec&_&H). apply bind_Ok in H as (stamp&_&H).
    apply bind_Ok in H as ([t r]&_&H). destruct stamp as [[s at_]|]; [|by injection H as <- _].
    by apply bind_Ok in H as ([t2 n]&_&[= <- _]).
Qed.

Lemma ingested_covered now db db' : ingested now db db' → sessions_covered db → sessions_covered db'.
Proof.
  intros [Hs Hc]%ingested_sessions Hcov c s Hcs. specialize (Hc c). rewrite Hcs in Hc.
  destruct (market_shares db !! c) as [s0|] eqn:Hold; [|done]. injection Hc as Hl Hn.
  specialize (Hcov c s0 Hold). unfold session_days in *. by rewrite Hs, Hl, Hn.
Qed.

(** [items] payloads were tried from [db0] on, [lost] live files could not be read. *)
Record progress (now : instant) (db0 : MarketDB) (items lost : Z) (st : MarketDB * Report) : Prop := {
  pg_steps : nsteps (ingested now) (Z.to_nat (succeeded st.2)) db0 st.1;
  pg_succeeded : 0 ≤ succeeded st.2;
  pg_total : succeeded st.2 + n_failed st.2 = items + lost;
  pg_errors : n_failed st.2 = Z.of_nat (length (rp_errors st.2));
  pg_indices : validated st.2 + refused st.2 ≤ succeeded st.2;
}.

Lemma progress_failed now db0 items lost st k paths e :
  progress now db0 items lost st → progress now db0 (items + 1) lost (st.1, failed k paths e st.2).
Proof. intros []. constructor; simpl; [done|done|lia| |done]. rewrite length_app. simpl. lia. Qed.

Lemma progress_item {A} now db0 items lost k paths (done_ : A → Report → Report) ingest st :
  (∀ db db' a, ingest db = Ok (db', a) → ingested now db db') →
  (∀ a r, succeeded (done_ a r) = succeeded r + 1 ∧ n_failed (done_ a r) = n_failed r
          ∧ rp_errors (done_ a r) = rp_errors r
          ∧ validated (done_ a r) + refused (done_ a r) ≤ validated r + refused r + 1) →
  progress now db0 items lost st → progress now db0 (items + 1) lost (item k paths done_ ingest st).
Proof.
  intros Hstep Hdone Hp. unfold item. destruct (ingest st.1) as [[db' a]|e] eqn:Hi.
  - destruct Hp as [Hs H0 Ht He Hv]. destruct (Hdone a st.2) as (H1&H2&H3&H4).
    constructor; simpl; rewrite ?H1, ?H2, ?H3; [|lia..].
    rewrite Z2Nat.inj_add by lia. change (Z.to_nat 1) with 1%nat. rewrite Nat.add_1_r.
    eapply nsteps_r; [exact Hs|by eapply Hstep].
  - by apply progress_failed.
Qed.

Lemma progress_fold {X} now db0 items lost (step : MarketDB * Report → X → MarketDB * Report) xs st :
  (∀ items st x, progress now db0 items lost st → progress now db0 (items + 1) lost (step st x)) →
  progress now db0 items lost st →
  progress now db0 (items + Z.of_nat (length xs)) lost (foldl step st xs).
Proof.
  intros Hstep. revert items st. induction xs as [|x xs IH]; intros items st Hp; simpl.
  - by replace (items + Z.of_nat 0) with items by lia.
  - replace (items + Z.of_nat (S (length xs))) with (items + 1 + Z.of_nat (length xs)) by lia.
    by apply IH, Hstep.
Qed.

Lemma progress_live disk db now paths :
  ∃ lost, 0 ≤ lost ≤ Z.of_nat (length paths)
  ∧ progress now db 0 lost
      (db, (foldl (live_file repr fold_name disk) ([], empty_report) paths).2).
Proof.
  assert (∀ st lost, 0 ≤ lost → progress now db 0 lost (db, st.2) → ∃ lost',
    0 ≤ lost' ≤ lost + Z.of_nat (length paths)
    ∧ progress now db 0 lost' (db, (foldl (live_file repr fold_name disk) st paths).2)) as Hgen.
  { induction paths as [|p paths IH]; intros st lost Hl Hp; simpl; [exists lost; split; [lia|done]|].
    unfold live_file at 2. destruct (_ ≫= _) as [values|e].
    - destruct (IH (foldl (λ d kv, dict_set kv.1 kv.2 d) st.1 values, st.2) lost Hl Hp) as (l'&?&?).
      exists l'. split; [lia|done].
    - destruct (IH (st.1, failed index_live [p] e st.2) (lost + 1)) as (l'&?&?); [lia| |].
      + destruct Hp. constructor; simpl in *; [done|done|lia| |done]. rewrite length_app. simpl. lia.
      + exists l'. split; [lia|done]. }
  apply (Hgen ([], empty_report) 0); [lia|]. by constructor; simpl; [apply nsteps_O|..].
Qed.

(** How many payloads a request names, the live files apart. *)
Definition items_named (rq : Request) : Z :=
  Z.of_nat (length (rq_index_histories rq)) + Z.of_nat (length (rq_market_values rq))
  + Z.of_nat (length (rq_client_flows rq)) + if names_snapshot rq then 1 else 0.

Lemma run_progress disk db rq now :
  ∃ lost r, 0 ≤ lost ≤ Z.of_nat (length (rq_index_live rq))
  ∧ progress now db (items_named rq) lost
      ((ingest_market_files repr fold_name TEHRAN log10 disk db rq now).1, r)
  ∧ (ingest_market_files repr fold_name TEHRAN log10 disk db rq now).2 = conclude r.
Proof.
  unfold ingest_market_files. destruct (progress_live disk db now (rq_index_live rq)) as (lost&Hl&Hp).
  destruct (foldl (live_file repr fold_name disk) _ _) as [live r0]. simpl in Hp.
  eapply (progress_fold _ _ _ _ (λ st p, index_file repr TEHRAN log10 disk live now p st)
            (rq_index_histories rq)) in Hp.
  2: { intros items st path Hq. apply progress_item; [| |done].
       - intros d d' a (p&_&H)%bind_Ok. by eapply took_index.
       - intros a r. simpl. split_and!; try done. destruct (v_status _); lia. }
  eapply (progress_fold _ _ _ _ (λ st mp, values_file TEHRAN disk now mp st) (rq_market_values rq)) in Hp.
  2: { intros items st path Hq. apply progress_item; [| |done].
       - intros d d' a (p&_&H)%bind_Ok. by eapply took_values.
       - intros a r. simpl. split_and!; try done. lia. }
  eapply (progress_fold _ _ _ _ (λ st p, flows_file repr TEHRAN disk now p st) (rq_client_flows rq)) in Hp.
  2: { intros items st path Hq. apply progress_item; [| |done].
       - intros d d' a (p&_&H)%bind_Ok. by eapply took_flows.
       - intros a r. simpl. split_and!; try done. lia. }
  set (st3 := foldl _ (foldl _ (foldl _ _ _) _) _) in *. exists lost.
  unfold items_named. destruct (names_snapshot rq).
  - eexists. split; [done|]. split; [|reflexivity]. cbn [fst snd]. rewrite <-surjective_pairing.
    apply progress_item; [| |by replace (_ + _ + _) with (0 + Z.of_nat (length (rq_index_histories rq))
      + Z.of_nat (length (rq_market_values rq)) + Z.of_nat (length (rq_client_flows rq))) by lia].
    + intros d d' a (p&_&H)%bind_Ok. apply bind_Ok in H as (s&_&H). by eapply took_snapshot.
    + intros a r. simpl. split_and!; try done. lia.
  - eexists. split; [done|]. split; [|reflexivity]. cbn [fst snd]. rewrite <-surjective_pairing.
    by replace (_ + _ + _ + 0) with (0 + Z.of_nat (length (rq_index_histories rq))
      + Z.of_nat (length (rq_market_values rq)) + Z.of_nat (length (rq_client_flows rq))) by lia.
Qed.

(** C2. The tables stay well-formed through any run: from tables that satisfy their
    constraints, whatever files a request names and whatever they hold, the run
    leaves tables where every CHECK and foreign key holds, every stored session
    was settled when it was collected, and the coverage columns are those of the rows: of
    every index and of the flows of every share the first date, the last date and the
    count, of the sessions of every share the last date and the count. *)
Theorem market_run_preserves disk db rq now :
  market_ok db → sessions_covered db →
  let db' := (ingest_market_files repr fold_name TEHRAN log10 disk db rq now).1 in
  market_ok db' ∧ sessions_covered db'.
Proof.
  intros Hok Hcov. destruct (run_progress disk db rq now) as (lost&r&_&Hp&_). destruct Hp as [Hs _ _ _ _].
  simpl in Hs. cbv zeta. induction Hs as [|n a b c Hab _ IH]; [done|].
  apply IH; [by apply (ingested_ok now a b)|by apply (ingested_covered now a b)].
Qed.

(** A run isolates its payloads.  The tables it leaves are those of exactly as
    many committed ingests as the report counts, one after the other; every
    payload named is counted once as succeeded or failed, every failure leaves an
    error in the report, live files can only add failures; and when the run ends
    in an exception - nothing named, or everything failed - the tables are the
    ones it started from. *)
Theorem market_run_isolated disk db rq now :
  let run := ingest_market_files repr fold_name TEHRAN log10 disk db rq now in
  match run.2 with
  | Reported r | MarketIngestFailed r =>
      nsteps (ingested now) (Z.to_nat (succeeded r)) db run.1
      ∧ 0 ≤ succeeded r + n_failed r - items_named rq ≤ Z.of_nat (length (rq_index_live rq))
      ∧ n_failed r = Z.of_nat (length (rp_errors r)) ∧ validated r + refused r ≤ succeeded r
  | NothingToIngest => items_named rq = 0
  end
  ∧ match run.2 with Reported r => 0 < succeeded r | _ => run.1 = db end.
Proof.
  intros run. destruct (run_progress disk db rq now) as (lost&r&Hl&[Hs H0 Ht He Hv]&Hc).
  fold run in Hs, H0, Ht, He, Hv, Hc. simpl in *. rewrite Hc. unfold conclude.
  assert (0 ≤ items_named rq) as Hi by (unfold items_named; destruct (names_snapshot rq); lia).
  destruct (Z.eqb_spec (succeeded r) 0) as [Hz|Hz].
  - assert (run.1 = db) as Hdb by (rewrite Hz in Hs; by inversion Hs).
    destruct (Z.eqb_spec (n_failed r) 0); [split; [lia|done]|].
    split; [|done]. split_and!; [done|lia|lia|done|lia].
  - split; [|lia]. split_and!; [done|lia|lia|done|lia].
Qed.

(** ** What a refusal of an index rests on *)

(** [a] and [b] stand side by side in the set of days [days]. *)
Definition side_by_side (days : gset date) (a b : date) : Prop :=
  a ∈ days ∧ b ∈ days ∧ a < b ∧ ∀ d, d ∈ days → ¬ (a < d ∧ d < b).

Lemma zip_tail_elem (l : list date) a b :
  strictly_ascending (λ d, d) l →
  (a, b) ∈ zip l (tail l) ↔ a ∈ l ∧ b ∈ l ∧ a < b ∧ ∀ d, d ∈ l → ¬ (a < d ∧ d < b).
Proof.
  induction 1 as [|x l Hl IH Hx]; simpl.
  - split; [intros H; by apply elem_of_nil in H|intros [H _]; by apply elem_of_nil in H].
  - destruct l as [|y l]; simpl in *.
    + split; [intros H; by apply elem_of_nil in H|].
      intros (->%list_elem_of_singleton&->%list_elem_of_singleton&?&_). lia.
    + rewrite elem_of_cons, IH. rewrite Forall_forall in Hx.
      assert (∀ d, d ∈ y :: l → y ≤ d) as Hy.
      { apply StronglySorted_inv in Hl as [_ Hl]. rewrite Forall_forall in Hl.
        intros d [->|Hd]%elem_of_cons; [lia|]. specialize (Hl d Hd). lia. }
      pose proof (Hx y (list_elem_of_here _ _)) as Hxy. split.
      * intros [[= -> ->]|(Ha&Hb&Hlt&Hno)].
        -- split_and!; [by left|by right; left|done|]. intros d [->|Hd]%elem_of_cons; [lia|].
           specialize (Hy d Hd). lia.
        -- split_and!; [by right|by right|done|]. intros d [->|Hd]%elem_of_cons; [|by apply Hno].
           specialize (Hx a Ha). lia.
      * intros (Ha&Hb&Hlt&Hno). apply elem_of_cons in Ha as [->|Ha].
        -- left. apply elem_of_cons in Hb as [->|Hb]; [lia|]. f_equal.
           destruct (Z.eq_dec b y); [done|]. specialize (Hy b Hb).
           destruct (Hno y); [by right; left|]. lia.
        -- right. apply elem_of_cons in Hb as [->|Hb]; [specialize (Hx a Ha); lia|].
           split_and!; try done. intros d Hd. apply Hno. by right.
Qed.

Lemma sorted_days (days : gset date) :
  strictly_ascending (λ d, d) (sort_by (λ d, d) (elements days))
  ∧ ∀ d, d ∈ sort_by (λ d, d) (elements days) ↔ d ∈ days.
Proof.
  split.
  - apply sort_by_strict. rewrite list_fmap_id. apply NoDup_elements.
  - intros d. unfold sort_by. by rewrite py_sorted_perm, elem_of_elements.
Qed.

(** The join rule names exactly the steps no session made: a pair is reported
    when a new value and a restated stored one stand side by side in the merged
    calendar, the stored one first, and only then. *)
Theorem joins_onto_restated_spec stored new restated day before :
  (day, before) ∈ joins_onto_restated stored new restated ↔
  side_by_side (list_to_set stored ∪ list_to_set new) before day ∧ day ∈ new ∧ before ∈ restated.
Proof.
  unfold joins_onto_restated, side_by_side. rewrite list_elem_of_omap.
  set (days := list_to_set stored ∪ list_to_set new). destruct (sorted_days days) as [Hs Hin]. split.
  - intros ([a b]&Hab&H). simpl in H. apply zip_tail_elem in Hab as (Ha&Hb&Hlt&Hno); [|done].
    destruct (_ && _) eqn:Hc; [|done]. injection H as <- <-.
    apply andb_true_iff in Hc as [Hc1%bool_decide_eq_true Hc2%bool_decide_eq_true].
    apply elem_of_list_to_set in Hc1, Hc2. apply Hin in Ha, Hb. split_and!; try done.
    intros d Hd. apply Hno. by apply Hin.
  - intros ((Ha&Hb&Hlt&Hno)&Hnew&Hres). exists (before, day). split.
    + apply zip_tail_elem; [done|]. rewrite !Hin. split_and!; try done. intros d Hd. apply Hno. by apply Hin.
    + simpl. by rewrite !bool_decide_eq_true_2 by (by apply elem_of_list_to_set).
Qed.

(** ** Powers of ten beyond the column *)
Lemma index_check_range r : index_row_checks r = Ok () → -3 ≤ scale_exp r ≤ 3.
Proof. unfold index_row_checks. rewrite raise_if_Ok. lia. Qed.

Lemma zip_right_elem {A B} (l : list A) (k : list B) y : length l = length k → y ∈ k → ∃ x, (x, y) ∈ zip l k.
Proof.
  intros Hlen [i Hi]%list_elem_of_lookup. destruct (lookup_lt_is_Some_2 l i) as [x Hx].
  { rewrite Hlen. by eapply lookup_lt_Some. }
  exists x. apply (list_elem_of_lookup_2 _ i). by rewrite lookup_zip_with, Hx, Hi.
Qed.

Lemma zip_key_unique {A B} (l : list A) (k : list B) x y y' :
  NoDup l → (x, y) ∈ zip l k → (x, y') ∈ zip l k → y = y'.
Proof.
  intros Hnd [i Hi]%list_elem_of_lookup [j Hj]%list_elem_of_lookup.
  apply lookup_zip_with_Some in Hi as (a&b&[= <- <-]&Ha&Hb).
  apply lookup_zip_with_Some in Hj as (a'&b'&[= <- <-]&Ha'&Hb').
  assert (i = j) as -> by (by eapply NoDup_lookup). congruence.
Qed.

Lemma verdict_no_power dates closes exps breaks dropped live v :
  verdict dates closes exps breaks dropped live = Ok v →
  foldl Z.max 0 (Z.abs <$> exps) ≤ MAX_ABS_EXP → ∀ w, needs_power w ∉ refusal_reason v.
Proof.
  intros H Hle. unfold verdict in H. apply bind_Ok in H as (corrected&_&H).
  apply bind_Ok in H as (largest&_&H). cbv zeta in H. apply bind_Ok in H as (live'&Hlive&H).
  apply bind_Ok in H as (f&_&H). apply bind_Ok in H as (l&_&[= <-]).
  intros w. cbn [refusal_reason]. rewrite (proj2 (Z.ltb_ge _ _) Hle). simpl.
  destruct live as [lv|]; [|injection Hlive as <-; apply not_elem_of_nil].
  destruct (last corrected) as [newest|]; [|injection Hlive as <-; apply not_elem_of_nil].
  destruct (fgt lv fzero); [|injection Hlive as <-; apply not_elem_of_nil].
  apply bind_Ok in Hlive as (ratio&_&Hlive). destruct (negb _).
  - apply bind_Ok in Hlive as (d&_&[= <-]). simpl. by rewrite list_elem_of_singleton.
  - injection Hlive as <-. apply not_elem_of_nil.
Qed.

(** No verdict ever records that a correction needs more than three decades,
    although [verdict] writes that refusal: the exponents are stored before it is
    asked, and the column's CHECK admits -3 to 3 only, so such a history fails as
    a whole, with a database error and no verdict row. *)
Theorem needs_power_unrecorded db payload live now db' rep w :
  market_ok db → ingest_index_history repr TEHRAN log10 db payload live now = Ok (db', rep) →
  needs_power w ∉ refusal_reason (ir_verdict rep).
Proof.
  intros Hok Hing. pose proof (ingest_index_ok _ _ _ _ _ _ Hok Hing) as Hok'.
  apply ingest_index_Ok in Hing as (h&i&_&_&Hnd&Hst).
  destruct (store_index_Ok _ _ _ _ _ _ _ _ Hnd Hst) as (after&dates&[_ _ _ Hc]&_&_&_&_&_&->).
  destruct Hc as (exps&breaks&Hexps&Hzip&Hdom&Hv). cbv zeta in *.
  set (merged := merged_closes _ _) in *. apply (verdict_no_power _ _ _ _ _ _ _ Hv).
  apply foldl_max_le. split; [done|]. apply Forall_forall, Forall_fmap, Forall_forall. intros e He.
  destruct (zip_right_elem merged.*1 exps e) as [d Hd]; [|done|].
  { rewrite (scale_exponents_length _ _ _ Hexps). by rewrite !length_fmap. }
  assert (d ∈ merged.*1) as Hdm by (by eapply elem_of_zip_l).
  apply Hdom in Hdm as [r Hr].
  assert (e = scale_exp r) as -> by (eapply zip_key_unique; [apply merged_dates_NoDup|done|by apply Hzip]).
  destruct Hok' as [Hrows _ _ _ _ _ _ _ _ _]. simpl in Hrows.
  destruct (Hrows (ih_code h) after) as [_ Hrows']; [by rewrite lookup_insert_eq|].
  destruct (Hrows' d r Hr) as [Hrange%index_check_range _]. unfold MAX_ABS_EXP. simpl. lia.
Qed.

(** ** Client flows *)
Lemma parse_client_Ok payload asked parsed :
  parse_client_types repr payload asked = Ok parsed →
  strictly_ascending cr_date (cf_rows parsed)
  ∧ Forall (λ r, Forall (λ c, cell_ok c = true) (cr_cells r)) (cf_rows parsed).
Proof.
  unfold parse_client_types. rewrite bind_Ok. intros (rows&_&H).
  apply bind_Ok in H as (code&_&H). apply bind_Ok in H as (out&Hout%traverse_Ok&H).
  apply bind_Ok in H as (vs&Hvs&[= <-]). apply dates_unique_Ok in Hvs as [Hnd ->]. simpl.
  assert (sort_by cr_date out ≡ₚ out) as Hperm by apply py_sorted_perm.
  split; [by apply sort_by_strict|]. rewrite Hperm. apply Forall_forall. intros r Hr.
  destruct (Forall2_elem_r _ _ _ _ Hout Hr) as (o&_&Ho). unfold client_row in Ho.
  apply bind_Ok in Ho as (d&_&Ho). apply bind_Ok in Ho as (cells&Hcells%traverse_Ok&[= <-]). simpl.
  by apply client_cells_Ok in Hcells as [_ ?].
Qed.

Lemma store_cell_ok `{NS : !NumericSigns} c : cell_ok c = true → cell_ok (store_cell c) = true.
Proof.
  unfold cell_ok, store_cell. destruct c as [column [n|x]]; simpl; [done|]. apply numeric_nonnegative.
Qed.

(** The rows of a payload that are not stored yet are the ones inserted. *)
Lemma store_flows_pending db now parsed share row0 rows db' rep :
  StronglySorted (λ x y, cr_date x < cr_date y) (row0 :: rows) →
  store_flows db now parsed share row0 (row0 :: rows) = Ok (db', rep) →
  ∃ after, equity_client_flows db' = <[cf_code parsed := after]> (equity_client_flows db)
  ∧ let before := rows_of (cf_code parsed) (equity_client_flows db) ∅ in
    (∀ d r, before !! d = Some r → after !! d = Some r)
    ∧ (∀ d r, after !! d = Some r → before !! d = None →
         ∃ x, x ∈ row0 :: rows ∧ flow_row_of now x = (d, r))
    ∧ (∀ x, x ∈ row0 :: rows → is_Some (after !! cr_date x)).
Proof.
  intros Hsorted H. unfold store_flows in H. set (code := cf_code parsed) in *.
  set (all := rows_of code (equity_client_flows db) ∅) in *.
  set (stored := filter _ all) in H. apply bind_Ok in H as (kinds&Hkinds%lift_raised_Ok%traverse_Ok&H).
  apply bind_Ok in H as ([]&_&H). apply bind_Ok in H as (after&Hins&[= <- _]).
  apply bulk_insert_spec in Hins as [_ ->].
  set (pending := fst <$> List.filter is_new (zip (row0 :: rows) kinds)).
  exists (all ∪ list_to_map (flow_row_of now <$> pending)).
  split; [by case_bool_decide|]. cbv zeta. split_and!.
  - intros d r Hr. by rewrite lookup_union, Hr, union_Some_l.
  - intros d r Hr Hd. apply lookup_union_Some_raw in Hr as [Hr|[_ Hr]]; [congruence|].
    apply elem_of_list_to_map_2, list_elem_of_fmap in Hr as (x&Hx&Hin). exists x. split; [|done].
    apply list_elem_of_fmap in Hin as ([x' k]&->&Hin). apply elem_of_bool_filter in Hin as [Hin _].
    by apply elem_of_zip_l in Hin.
  - intros x Hx. rewrite lookup_union. destruct (all !! cr_date x) as [r|] eqn:Hd; [rewrite union_Some_l; by eexists|].
    rewrite (left_id_L None (∪)).
    destruct ((list_to_map (flow_row_of now <$> pending) : gmap date FlowRow) !! cr_date x) eqn:Hl; [by eexists|].
    apply not_elem_of_list_to_map_2 in Hl. destruct Hl. rewrite <-list_fmap_compose.
    apply list_elem_of_fmap. exists x. split; [done|]. apply list_elem_of_fmap.
    destruct (Forall2_elem_l _ _ _ _ Hkinds Hx) as (k&Hk&_).
    assert ((x, None) ∈ zip (row0 :: rows) kinds) as Hzip.
    { apply list_elem_of_lookup in Hx as [i Hi]. destruct (Forall2_lookup_l _ _ _ _ _ Hkinds Hi) as (k'&Hk'&Hcmp).
      unfold compare_flow in Hcmp. unfold stored in Hcmp.
      rewrite (map_lookup_filter_None_2 _ _ _ (or_introl Hd)) in Hcmp. injection Hcmp as <-.
      apply (list_elem_of_lookup_2 _ i). by rewrite lookup_zip_with, Hi, Hk'. }
    exists (x, None). split; [done|]. by apply elem_of_bool_filter.
Qed.

(** A stored session of client flows is never overwritten and never lost; an
    accepted payload adds exactly its settled sessions that were missing, each as
    served and under this run's instant; and the share's coverage columns are
    then the first date, the last date and the count of its stored sessions. *)
Theorem client_flows_write_once db payload now asked db' rep :
  market_ok db → ingest_client_flows repr TEHRAN db payload now asked = Ok (db', rep) →
  ∃ parsed, parse_client_types repr payload asked = Ok parsed
  ∧ let before := rows_of (cf_code parsed) (equity_client_flows db) ∅ in
    let after := rows_of (cf_code parsed) (equity_client_flows db') ∅ in
    (∀ d r, before !! d = Some r → after !! d = Some r)
    ∧ (∀ d r, after !! d = Some r → before !! d = None →
         d < settled_cutoff TEHRAN now ∧ ∃ x, x ∈ cf_rows parsed ∧ flow_row_of now x = (d, r))
    ∧ (∀ x, x ∈ cf_rows parsed → cr_date x < settled_cutoff TEHRAN now → is_Some (after !! cr_date x))
    ∧ (∀ s, market_shares db' !! cf_code parsed = Some s →
         (flow_first_date s, flow_last_date s, flow_count s) = coverage after).
Proof.
  intros Hok Hing. pose proof (ingest_flows_ok _ _ _ _ _ _ Hok Hing) as Hok'.
  apply ingest_flows_Ok in Hing as (parsed&share&row0&rows&Hp&Hshare&Hrows&Hst).
  pose proof (parse_client_Ok _ _ _ Hp) as [Hasc _].
  assert (∀ x, x ∈ row0 :: rows ↔ x ∈ cf_rows parsed ∧ cr_date x < settled_cutoff TEHRAN now) as Hin.
  { intros x. by rewrite Hrows, elem_of_bool_filter, Z.ltb_lt. }
  exists parsed. split; [done|]. apply store_flows_pending in Hst as (after&Hdb'&Hkept&Hnew&Hall).
  2: { rewrite Hrows. by apply StronglySorted_bool_filter. }
  rewrite Hdb', rows_of_insert. cbv zeta. split_and!; [done| | |].
  - intros d r Hr Hd. destruct (Hnew d r Hr Hd) as (x&[Hx Hlt]%Hin&Heq). injection Heq as <- Heq.
    split; [done|]. exists x. split; [done|]. unfold flow_row_of. by rewrite Heq.
  - intros x Hx Hlt. by apply Hall, Hin.
  - intros s Hs. rewrite (mo_flow_coverage _ Hok' _ _ Hs), Hdb'.
    by rewrite rows_of_insert.
Qed.

(** No accepted client-type payload fails a CHECK of its table: the parser has
    already refused what the constraints would.  All that can stop one at the
    insert is a count beyond the 64 bits of its column. *)
Theorem client_flows_errors `{NS : !NumericSigns} db payload now asked e :
  ingest_client_flows repr TEHRAN db payload now asked = Err e →
  match e with
  | Parse _ | NoSettledSession _ | NotInRegistry _ | Contradicts _ _ _ | OutOfRange | Raised _ => True
  | _ => False
  end.
Proof.
  unfold ingest_client_flows. rewrite bind_Err. intros [Hp|(parsed&Hp%lift_parse_Ok&H)].
  { by destruct (parse_client_types _ _ _); [|injection Hp as <-]. }
  pose proof (parse_client_Ok _ _ _ Hp) as [_ Hcells]. rewrite Forall_forall in Hcells.
  destruct (List.filter _ (cf_rows parsed)) as [|row0 rows] eqn:Hrows; [by injection H as <-|].
  destruct (market_shares db !! cf_code parsed); [|by injection H as <-].
  unfold store_flows in H. apply bind_Err in H as [H|(kinds&_&H)].
  { by destruct (traverse _ _); [|injection H as <-]. }
  apply bind_Err in H as [H|([]&_&H)]; [by apply raise_if_Err in H as [_ ->]|].
  apply bind_Err in H as [H|(after&_&H)]; [|done].
  apply bulk_insert_Err in H as ([d r]&Hr&H). apply list_elem_of_fmap in Hr as (x&[= -> ->]&Hx).
  apply list_elem_of_fmap in Hx as ([x' k]&->&Hx). apply elem_of_bool_filter in Hx as [Hx _].
  apply elem_of_zip_l in Hx. rewrite <-Hrows in Hx. apply elem_of_bool_filter in Hx as [Hx _].
  unfold flow_row_checks in H. simpl in H. apply bind_Err in H as [H|(u&_&H)];
    [by apply raise_if_Err in H as [_ ->]|]. apply raise_if_Err in H as [H _].
  apply negb_true_iff, not_true_iff_false in H. destruct H. apply forallb_forall. intros c Hc.
  apply list_elem_of_In, list_elem_of_fmap in Hc as (c'&->&Hc'). apply store_cell_ok.
  specialize (Hcells _ Hx). rewrite Forall_forall in Hcells. by apply Hcells.
Qed.
End Sound.

(** ** A concrete market *)
Definition demo_zone : tzinfo := fixed_zone (210 * us_minute).

(** 2024-01-10 12:00 UTC, past the close of that day's session in Tehran. *)
Definition demo_now : instant := combine (ordinal 2024 1 10) (12 * us_hour).

(** A logarithm good to the decade. *)
Definition demo_log10 (q : float) : result pyerr float :=
  inverse ← fdiv fone q;
  Ok (if in_band q then fone else if in_band inverse then fopp fone else fzero).

Definition demo_stored : IndexRow :=
  {| ix_close := flit 105 1; ix_low := None; ix_high := None; scale_exp := 0;
     ix_collected_at := demo_now - 7 * us_day |}.

Definition demo_registry : IndexInfo :=
  {| ii_name_fa := "TEDPIX"; ii_name_en := "TEDPIX"; ii_market := "bourse"; ii_kind := "headline";
     ii_sector_code := EmptyString; ii_weighting := "cap"; ii_return_basis := "total"; ii_enabled := true;
     ii_display_order := 1;
     first_date := Some (ordinal 2024 1 1); last_date := Some (ordinal 2024 1 1); value_count := 1;
     ii_updated_at := demo_now - 7 * us_day |}.

Definition demo_share : Share :=
  {| sa_ins_id := "IRO1FOLD0001"; sa_symbol_fa := "foolad"; sa_name_fa := "name";
     sa_market := "bourse"; sa_board := "main"; sa_company_code := "IRO1FOLD";
     sa_sector_code := "27"; listed := true; first_seen_at := 0; last_seen_at := 0;
     flow_first_date := None; flow_last_date := None; flow_count := 0;
     session_last_date := None; session_count := 0; sa_updated_at := 0 |}.

Definition demo_db : MarketDB :=
  {| market_indices := {[ "32097828799138957" := demo_registry ]};
     market_index_values := {[ "32097828799138957" := {[ ordinal 2024 1 1 := demo_stored ]} ]};
     market_index_checks := ∅; market_values := ∅;
     market_shares := {[ "7745894403636165" := demo_share ]}; market_sectors := ∅;
     equity_client_flows := ∅; market_share_sessions := ∅; market_session_files := ∅;
     market_snapshots := ∅; sector_breadth_snapshots := ∅ |}.

Lemma demo_db_ok : market_ok demo_zone demo_db.
Proof.
  split; unfold demo_db; cbn [market_index_values market_indices market_index_checks market_values
    equity_client_flows market_shares market_share_sessions market_session_files market_snapshots sector_breadth_snapshots].
  4, 5, 6, 8, 10, 11, 12: apply map_Forall_empty.
  all: apply map_Forall_singleton.
  - split; [by exists demo_registry|]. apply map_Forall_singleton. split; vm_compute; reflexivity.
  - vm_compute. reflexivity.
  - vm_compute. reflexivity.
  - vm_compute. reflexivity.
  - vm_compute. reflexivity.
Qed.

Lemma demo_db_covered : sessions_covered demo_db.
Proof. apply map_Forall_singleton. split; vm_compute; reflexivity. Qed.

Definition or_db {A} (m : result ingest_error (MarketDB * A)) : MarketDB :=
  match m with Ok x => x.1 | Err _ => demo_db end.

Definition demo_index_run : result ingest_error (MarketDB * IndexReport) :=
  ingest_index_history no_repr demo_zone demo_log10 demo_db demo_index [] demo_now.

Definition the_index_report : IndexReport :=
  match demo_index_run with
  | Ok x => x.2
  | Err _ =>
      {| ir_code := EmptyString; ir_name_fa := EmptyString;
         ir_verdict := {| v_status := STATUS_REFUSED; values_total := 0; v_dropped_nonpositive := 0;
           scale_breaks := 0; rows_rescaled := 0; first_break := None; last_break := None;
           largest_move := None; largest_move_date := None; v_live_value := None;
           live_ratio := None; refusal_reason := [] |};
         ir_total := 0; ir_inserted := 0; ir_existing := 0; ir_unsettled := 0;
         ir_scale_restated := 0; ir_restated := []; ir_rescaled := 0 |}
  end.

Example demo_index_counts :
  (ir_total the_index_report, ir_inserted the_index_report, ir_existing the_index_report) = (2, 1, 1).
Proof. vm_compute. reflexivity. Qed.

Lemma index_history_write_once_witness :
  ir_code the_index_report = ih_code demo_history
  ∧ ∀ d r, rows_of (ih_code demo_history) (market_index_values demo_db) ∅ !! d = Some r →
      ∃ e, rows_of (ih_code demo_history) (market_index_values (or_db demo_index_run)) ∅ !! d
           = Some (set_scale e r).
Proof.
  pose proof (index_history_write_once no_repr demo_zone demo_log10 demo_db demo_index [] demo_now
    (or_db demo_index_run) the_index_report demo_history) as H.
  destruct H as (H1&H2&_); [vm_compute; reflexivity|vm_compute; reflexivity|]. split; [exact H1|exact H2].
Defined.

Lemma needs_power_unrecorded_witness : needs_power 4 ∉ refusal_reason (ir_verdict the_index_report).
Proof.
  apply (needs_power_unrecorded no_repr demo_zone demo_log10 demo_db demo_index [] demo_now
    (or_db demo_index_run) the_index_report 4); [exact demo_db_ok|vm_compute; reflexivity].
Defined.

(** Four decades of steps: the verdict refuses them, the ingest fails instead. *)
Definition demo_decades : json := JObj
  [("indexB2", JArr ((λ n, demo_index_row (JInt 32097828799138957) (20240101 + n) (JInt (10 ^ n)))
                       <$> [0; 1; 2; 3; 4]))].

Definition demo_fresh : MarketDB :=
  set_index_values (set_indices demo_db (alter (set_coverage [] 0 0) "32097828799138957"
    (market_indices demo_db))) ∅.

Example decades_verdict :
  match scale_exponents (float_of_Z <$> [1; 10; 100; 1000; 10000]) with
  | Ok (exps, breaks) =>
      match verdict [1; 2; 3; 4; 5] (float_of_Z <$> [1; 10; 100; 1000; 10000]) exps breaks 0 None with
      | Ok v => refusal_reason v = [needs_power 4]
      | Err _ => False
      end
  | Err _ => False
  end.
Proof. vm_compute. reflexivity. Qed.

Example decades_fail :
  ingest_index_history no_repr demo_zone demo_log10 demo_fresh demo_decades [] demo_now = Err Integrity.
Proof. vm_compute. reflexivity. Qed.

Definition demo_flow_run : result ingest_error (MarketDB * FlowReport) :=
  ingest_client_flows no_repr demo_zone demo_db (JObj [("clientType", JArr demo_client_rows)])
    demo_now EmptyString.

Definition the_flow_report : FlowReport :=
  match demo_flow_run with
  | Ok x => x.2
  | Err _ => {| fr_code := EmptyString; fr_symbol := EmptyString; fr_total := 0; fr_inserted := 0;
                fr_existing := 0; fr_restated := []; fr_unsettled := 0 |}
  end.

Lemma client_flows_write_once_witness :
  ∃ parsed, parse_client_types no_repr (JObj [("clientType", JArr demo_client_rows)]) EmptyString
            = Ok parsed
  ∧ let before := rows_of (cf_code parsed) (equity_client_flows demo_db) ∅ in
    let after := rows_of (cf_code parsed) (equity_client_flows (or_db demo_flow_run)) ∅ in
    (∀ d r, before !! d = Some r → after !! d = Some r)
    ∧ (∀ d r, after !! d = Some r → before !! d = None →
         d < settled_cutoff demo_zone demo_now
         ∧ ∃ x, x ∈ cf_rows parsed ∧ flow_row_of demo_now x = (d, r))
    ∧ (∀ x, x ∈ cf_rows parsed → cr_date x < settled_cutoff demo_zone demo_now →
         is_Some (after !! cr_date x))
    ∧ (∀ s, market_shares (or_db demo_flow_run) !! cf_code parsed = Some s →
         (flow_first_date s, flow_last_date s, flow_count s) = coverage after).
Proof.
  apply (client_flows_write_once no_repr demo_zone demo_db _ demo_now EmptyString
    (or_db demo_flow_run) the_flow_report); [exact demo_db_ok|vm_compute; reflexivity].
Defined.

(** A count beyond the column: the only way past the parser to a refusal. *)
Definition demo_overflow : json := JObj [("clientType", JArr [demo_client_row 20240103 (2 ^ 63)])].

Lemma client_flows_errors_witness :
  match OutOfRange with
  | Parse _ | NoSettledSession _ | NotInRegistry _ | Contradicts _ _ _ | OutOfRange | Raised _ => True
  | _ => False
  end.
Proof.
  apply (client_flows_errors no_repr demo_zone demo_db demo_overflow demo_now EmptyString OutOfRange).
  vm_compute. reflexivity.
Defined.

(** A run: one good history, one missing file, an unknown market. *)
Definition demo_disk (path : string) : option file :=
  if String.eqb path "index.json" then Some {| f_size := 900; f_json := Some demo_index |}
  else if String.eqb path "flows.json" then
    Some {| f_size := 900; f_json := Some (JObj [("clientType", JArr demo_client_rows)]) |}
  else if String.eqb path "short.json" then Some {| f_size := 12; f_json := None |}
  else None.

Definition demo_request : Request :=
  {| rq_index_live := ["short.json"]; rq_index_histories := ["index.json"; "absent.json"];
     rq_market_values := [("paye", "index.json")]; rq_client_flows := ["flows.json"];
     rq_overviews := []; rq_sector_summary := None |}.

Lemma market_run_preserves_witness :
  market_ok demo_zone (ingest_market_files no_repr demo_fold demo_zone demo_log10 demo_disk demo_db
                         demo_request demo_now).1
  ∧ sessions_covered (ingest_market_files no_repr demo_fold demo_zone demo_log10 demo_disk demo_db demo_request demo_now).1.
Proof.
  exact (market_run_preserves no_repr demo_fold demo_zone demo_log10 demo_disk demo_db demo_request demo_now
    demo_db_ok demo_db_covered).
Defined.

Example demo_run_report :
  match (ingest_market_files no_repr demo_fold demo_zone demo_log10 demo_disk demo_db
           demo_request demo_now).2 with
  | Reported r => (succeeded r, n_failed r, validated r, (λ e, e.1.2) <$> rp_errors r)
  | _ => (0, 0, 0, [])
  end = (2, 3, 1, [["short.json"]; ["absent.json"]; ["index.json"]]).
Proof. vm_compute. reflexivity. Qed.
