(* ===== verification/MarketShares.v ===== *)
(** * The share universe, its sessions and the walk over a manifest

    [app/bourse/shares.py]: the mirror of the exchange's share list with its
    guards against a truncated one, the day files of market sessions, the
    coverage columns, and the manifest a run hands over in chunks; and
    [_ingest_chunks] of [scripts/tsetmc_fetch.py], the loop that walks it.

    [realpath] is the file system's; a call of the loop that fails outright is
    an answer of the network, an argument. *)
From S2P Require Import Prelude PyFloat PyTime PyText PyJson Numeric EquityAdjust BourseParse IndexScale BourseDB BourseIngest.
Local Open Scope string_scope.
Local Open Scope list_scope.
Local Open Scope Z_scope.

Definition FLOW_FLOOR : date := ordinal 2025 3 21.
Definition DELIST_GUARD_MIN : Z := 50.
Definition DELIST_GUARD_MARKET_MIN : Z := 5.
Definition TRADED_LISTING_SESSIONS : nat := 20.
Definition DATE_CHECK_MIN : Z := 5.
Definition DATE_CHECK_TOLERANCE : float := flit 1 2.
Definition MANIFEST_VERSION : Z := 1.
Definition MANIFEST_NAME : string := "manifest.json".
Definition MARKET_WATCH_NAME : string := "market-watch.json".
Definition STATIC_DATA_NAME : string := "static-data.json".
Definition MAX_CHUNK : Z := 500.

Definition sort_strings : list string → list string := py_sorted String.ltb.

(** ** Reads *)

(** The shares of the newest stored sessions. *)
Definition _recently_traded (db : MarketDB) : gset string :=
  let newest := take TRADED_LISTING_SESSIONS
                  (py_sorted (λ a b, b <? a) (elements (dom (market_session_files db)))) in
  ⋃ ((λ d, dom (rows_of d (market_share_sessions db) ∅)) <$> newest).

(** [buy_i_value + buy_n_value] of a stored flow row. *)
Definition buy_value (r : FlowRow) : result pyerr float :=
  i ← column_float (fl_cells r) "buy_i_value";
  n ← column_float (fl_cells r) "buy_n_value";
  Ok (fadd i n).

Definition bought (r : FlowRow) : bool :=
  match buy_value r with Ok v => flt fzero v | Err _ => false end.

(** A share first seen after the day file was ingested bought or sold that day,
    and has no session row. *)
Definition lacks_session (db : MarketDB) (d : date) (f : SessionFile) (share : string * Share) : bool :=
  match rows_of share.1 (equity_client_flows db) ∅ !! d with
  | None => false
  | Some flow =>
      (sf_ingested_at f <? first_seen_at share.2) && bought flow
      && bool_decide (rows_of d (market_share_sessions db) ∅ !! share.1 = None)
  end.

Definition _incomplete_session_dates (db : MarketDB) : list date :=
  sort_by (λ d, d)
    (List.filter (λ d, match market_session_files db !! d with
                       | Some f => existsb (lacks_session db d f) (map_to_list (market_shares db))
                       | None => false
                       end) (elements (dom (market_session_files db)))).

Record ShareItem : Set := {
  it_code : string;
  it_symbol : string;
  it_listed : bool;
  it_roster : bool;
  it_flow : option date * option date * Z;
  it_session : option date * Z;
}.

Record ShareState : Set := {
  st_items : list ShareItem;
  session_dates : list date;
  session_dates_incomplete : list date;
}.

(** [roster]: the enabled codes of [equity_instruments]. *)
Definition share_state (roster : gset string) (db : MarketDB) : ShareState :=
  {| st_items := (λ x : string * Share,
       {| it_code := x.1; it_symbol := sa_symbol_fa x.2; it_listed := listed x.2;
          it_roster := bool_decide (x.1 ∈ roster);
          it_flow := (flow_first_date x.2, flow_last_date x.2, flow_count x.2);
          it_session := (session_last_date x.2, session_count x.2) |})
       <$> py_sorted (λ a b, String.ltb a.1 b.1) (map_to_list (market_shares db));
     session_dates := sort_by (λ d, d) (elements (dom (market_session_files db)));
     session_dates_incomplete := _incomplete_session_dates db |}.

(** ** The universe *)
Record SectorsReport : Set := {
  sr_listed : Z;
  sr_added : list string;
  sr_renamed : list string;
}.

(** One pass of the loop over the sorted names; the decisions read the table as it
    was before the loop. *)
Definition refresh_sector (stored : gmap string Sector) (now : instant)
    (st : gmap string Sector * SectorsReport) (code_name : string * string)
    : gmap string Sector * SectorsReport :=
  let '(code, name) := code_name in
  let '(t, r) := st in
  if String.eqb name EmptyString then st
  else
    match stored !! code with
    | None =>
        (<[code := {| se_name_fa := name; se_name_en := EmptyString; se_updated_at := now |}]> t,
         {| sr_listed := sr_listed r; sr_added := sr_added r ++ [code]; sr_renamed := sr_renamed r |})
    | Some old =>
        if String.eqb (se_name_fa old) name then st
        else
          (alter (λ s, {| se_name_fa := name; se_name_en := se_name_en s; se_updated_at := now |})
             code t,
           {| sr_listed := sr_listed r; sr_added := sr_added r;
              sr_renamed := sr_renamed r ++ [code] |})
    end.

Definition _refresh_sector_names (t : gmap string Sector) (names : list (string * string))
    (now : instant) : gmap string Sector * SectorsReport :=
  foldl (refresh_sector t now)
    (t, {| sr_listed := Z.of_nat (length names); sr_added := []; sr_renamed := [] |})
    (py_sorted (λ a b, String.ltb a.1 b.1) names).

(** The seven columns a watch states. *)
Definition same_fields (old : Share) (s : ListedShare) : bool :=
  String.eqb (sa_ins_id old) (ins_id s) && String.eqb (sa_symbol_fa old) (symbol_fa s)
  && String.eqb (sa_name_fa old) (ls_name_fa s) && String.eqb (sa_market old) (ls_market s)
  && String.eqb (sa_board old) (board s) && String.eqb (sa_company_code old) (company_code s)
  && String.eqb (sa_sector_code old) (ls_sector s).

Definition new_share (now : instant) (s : ListedShare) : Share :=
  {| sa_ins_id := ins_id s; sa_symbol_fa := symbol_fa s; sa_name_fa := ls_name_fa s;
     sa_market := ls_market s; sa_board := board s; sa_company_code := company_code s;
     sa_sector_code := ls_sector s; listed := true; first_seen_at := now; last_seen_at := now;
     flow_first_date := None; flow_last_date := None; flow_count := 0;
     session_last_date := None; session_count := 0; sa_updated_at := now |}.

Definition change_share (now : instant) (s : ListedShare) (old : Share) : Share :=
  {| sa_ins_id := ins_id s; sa_symbol_fa := symbol_fa s; sa_name_fa := ls_name_fa s;
     sa_market := ls_market s; sa_board := board s; sa_company_code := company_code s;
     sa_sector_code := ls_sector s; listed := true; first_seen_at := first_seen_at old;
     last_seen_at := now; flow_first_date := flow_first_date old;
     flow_last_date := flow_last_date old; flow_count := flow_count old;
     session_last_date := session_last_date old; session_count := session_count old;
     sa_updated_at := now |}.

Definition set_last_seen (now : instant) (s : Share) : Share :=
  {| sa_ins_id := sa_ins_id s; sa_symbol_fa := sa_symbol_fa s; sa_name_fa := sa_name_fa s;
     sa_market := sa_market s; sa_board := sa_board s; sa_company_code := sa_company_code s;
     sa_sector_code := sa_sector_code s; listed := listed s; first_seen_at := first_seen_at s;
     last_seen_at := now; flow_first_date := flow_first_date s;
     flow_last_date := flow_last_date s; flow_count := flow_count s;
     session_last_date := session_last_date s; session_count := session_count s;
     sa_updated_at := sa_updated_at s |}.

Definition set_listed (b : bool) (now : instant) (s : Share) : Share :=
  {| sa_ins_id := sa_ins_id s; sa_symbol_fa := sa_symbol_fa s; sa_name_fa := sa_name_fa s;
     sa_market := sa_market s; sa_board := sa_board s; sa_company_code := sa_company_code s;
     sa_sector_code := sa_sector_code s; listed := b; first_seen_at := first_seen_at s;
     last_seen_at := last_seen_at s; flow_first_date := flow_first_date s;
     flow_last_date := flow_last_date s; flow_count := flow_count s;
     session_last_date := session_last_date s; session_count := session_count s;
     sa_updated_at := now |}.

(** What the loop over the served shares decides for one of them. *)
Inductive sighting : Set := Insert | Change | SeenOnly.

Definition sight (existing : gmap string Share) (s : ListedShare) : sighting :=
  match existing !! ls_code s with
  | None => Insert
  | Some old => if listed old && same_fields old s then SeenOnly else Change
  end.

Definition is_sighting (k : sighting) (existing : gmap string Share) (s : ListedShare) : bool :=
  match k, sight existing s with
  | Insert, Insert | Change, Change | SeenOnly, SeenOnly => true
  | _, _ => false
  end.

(** The listed shares a watch does not carry, and what trading says of them. *)
Record departures : Set := {
  listed_before : list string;
  delisted : list string;
  kept_traded : list string;
  relisted_traded : list string;
}.

Definition depart (existing : gmap string Share) (served traded : gset string) : departures :=
  let absent := List.filter (λ x : string * Share, negb (bool_decide (x.1 ∈ served)))
                  (map_to_list existing) in
  let was_listed := List.filter (λ x : string * Share, listed x.2) absent in
  {| listed_before := (List.filter (λ x : string * Share, listed x.2) (map_to_list existing)).*1;
     delisted := sort_strings
       (List.filter (λ x : string * Share, negb (bool_decide (x.1 ∈ traded))) was_listed).*1;
     kept_traded := sort_strings
       (List.filter (λ x : string * Share, bool_decide (x.1 ∈ traded)) was_listed).*1;
     relisted_traded := sort_strings
       (List.filter (λ x : string * Share, negb (listed x.2) && bool_decide (x.1 ∈ traded)) absent).*1 |}.

Definition count_market (existing : gmap string Share) (market : string) (codes : list string) : Z :=
  count_if (λ c, match existing !! c with Some s => String.eqb (sa_market s) market | None => false end)
    codes.

(** The guards: more than half of the listed shares would go, at least fifty; or
    more than half of a market's, at least five. *)
Definition guard_universe (d : departures) : result ingest_error () :=
  let gone := Z.of_nat (length (delisted d)) in
  let held := Z.of_nat (length (listed_before d)) in
  raise_if ((DELIST_GUARD_MIN <=? gone) && (held <? 2 * gone)) (WouldDelist None gone held).

Definition guard_market (existing : gmap string Share) (d : departures) (market : string)
    : result ingest_error () :=
  let gone := count_market existing market (delisted d) in
  let held := count_market existing market (listed_before d) in
  raise_if ((DELIST_GUARD_MARKET_MIN <=? gone) && (held <? 2 * gone))
    (WouldDelist (Some market) gone held).

Definition markets_of (existing : gmap string Share) (codes : list string) : list string :=
  sort_strings (elements (list_to_set
    (omap (λ c, sa_market <$> existing !! c) codes) : gset string)).

Record UniverseReport : Set := {
  un_rows_total : Z;
  un_shares : Z;
  un_inserted : Z;
  un_renamed : list string;
  un_resectored : list string;
  un_relisted : Z;
  un_delisted : list string;
  un_kept_traded : Z;
  un_unknown_sector : list string;
  un_sectors : option SectorsReport;
}.

Definition for_existing (p : Share → ListedShare → bool) (existing : gmap string Share)
    (s : ListedShare) : bool :=
  match existing !! ls_code s with Some old => p old s | None => false end.

(** The statements that write [market_shares], in their order. *)
Definition write_shares (now : instant) (existing : gmap string Share) (watch : list ListedShare)
    (d : departures) : result ingest_error (gmap string Share) :=
  t ← _bulk_insert_ignore share_row_checks existing
        ((λ s, (ls_code s, new_share now s)) <$> List.filter (is_sighting Insert existing) watch);
  _ ← traverse (λ s, share_row_checks (new_share now s)) (List.filter (is_sighting Change existing) watch);
  let t := foldl (λ t s, alter (change_share now s) (ls_code s) t) t
             (List.filter (is_sighting Change existing) watch) in
  let t := foldl (λ t s, alter (set_last_seen now) (ls_code s) t) t
             (List.filter (is_sighting SeenOnly existing) watch) in
  let t := foldl (λ t c, alter (set_listed false now) c t) t (delisted d) in
  Ok (foldl (λ t c, alter (set_listed true now) c t) t (relisted_traded d)).

Section Shares.
Context `{NF : !NumericFloat} (repr fold_name fold_symbol : json → string) (TEHRAN : tzinfo).

(** The transaction, the payloads parsed. *)
Definition store_universe (db : MarketDB) (watch : MarketWatch)
    (names : option (list (string * string))) (now : instant)
    : result ingest_error (MarketDB * UniverseReport) :=
  let sectors := (λ n, _refresh_sector_names (market_sectors db) n now) <$> names in
  let known := from_option fst (market_sectors db) sectors in
  let existing := market_shares db in
  let served : gset string := list_to_set (ls_code <$> shares watch) in
  let traded := _recently_traded db ∩ dom existing in
  let d := depart existing served traded in
  _ ← guard_universe d;
  _ ← traverse (guard_market existing d) (markets_of existing (delisted d));
  t ← write_shares now existing (shares watch) d;
  Ok (set_sectors (set_shares db t) known,
      {| un_rows_total := rows_total watch; un_shares := Z.of_nat (length (shares watch));
         un_inserted := count_if (is_sighting Insert existing) (shares watch);
         un_renamed := ls_code <$> List.filter (for_existing (λ old s,
           negb (String.eqb (sa_symbol_fa old) (symbol_fa s))
           || negb (String.eqb (sa_name_fa old) (ls_name_fa s))) existing) (shares watch);
         un_resectored := ls_code <$> List.filter (for_existing (λ old s,
           negb (String.eqb (sa_sector_code old) (ls_sector s))) existing) (shares watch);
         un_relisted := count_if (for_existing (λ old _, negb (listed old)) existing) (shares watch)
                        + Z.of_nat (length (relisted_traded d));
         un_delisted := delisted d; un_kept_traded := Z.of_nat (length (kept_traded d));
         un_unknown_sector := ls_sector <$> List.filter
           (λ s, bool_decide (known !! ls_sector s = None)) (shares watch);
         un_sectors := snd <$> sectors |}).

Definition ingest_universe (db : MarketDB) (market_watch : json) (static_data : option json)
    (now : instant) : result ingest_error (MarketDB * UniverseReport) :=
  watch ← lift_parse (parse_market_watch repr fold_name fold_symbol market_watch);
  names ← match static_data with
          | None => Ok None
          | Some p => n ← lift_parse (parse_static_sectors fold_name p); Ok (Some n)
          end;
  store_universe db watch names now.

(** ** Day files *)
Definition store_session (s : SessionRow) : SessionRow :=
  {| ss_close := numeric (ss_close s); last_trade := numeric <$> last_trade s;
     ss_price_yesterday := numeric (ss_price_yesterday s); ss_value := numeric (ss_value s);
     ss_volume := numeric (ss_volume s); trades := trades s |}.

(** The rows of the universe, parsed; a row that does not parse is set aside, any
    other exception ends the ingest. *)
Fixpoint session_rows (universe : gset string) (rows : list (string * object))
    : result ingest_error (list (string * SessionRow) * list (string * parse_error)) :=
  match rows with
  | [] => Ok ([], [])
  | (code, raw) :: rows =>
      if negb (bool_decide (code ∈ universe)) then session_rows universe rows
      else
        match parse_session_row raw with
        | Ok s => r ← session_rows universe rows; Ok ((code, s) :: r.1, r.2)
        | Err (Python e) => Err (Raised e)
        | Err e => r ← session_rows universe rows; Ok (r.1, (code, e) :: r.2)
        end
  end.

Inductive check_status : Set := unchecked | agreed_.

Record DateCheck : Set := { dc_compared : Z; dc_agreed : Z; dc_status : check_status }.

(** Whether a session's traded value is the share's stored buy total of that day. *)
Definition agrees (flows : gmap string (gmap date FlowRow)) (d : date) (s : string * SessionRow)
    : result ingest_error (option bool) :=
  match rows_of s.1 flows ∅ !! d with
  | None => Ok None
  | Some flow =>
      total ← lift_raised (buy_value flow);
      Ok (Some (fle (fabs (fsub (ss_value s.2) total))
                  (fmul DATE_CHECK_TOLERANCE (fmax (fabs (ss_value s.2)) (fabs total)))))
  end.

Definition _date_check (db : MarketDB) (d : date) (sessions : list (string * SessionRow))
    : result ingest_error DateCheck :=
  verdicts ← traverse (agrees (equity_client_flows db) d) sessions;
  let compared := Z.of_nat (length (omap id verdicts)) in
  let agreed := count_if id (omap id verdicts) in
  _ ← raise_if ((DATE_CHECK_MIN <=? compared) && (agreed * 2 <? compared)) (WrongSession d agreed compared);
  Ok {| dc_compared := compared; dc_agreed := agreed;
        dc_status := if compared <? DATE_CHECK_MIN then unchecked else agreed_ |}.

(** A session's columns as the comparison reads them. *)
Definition session_columns (s : SessionRow) : list (string * option (result pyerr float)) :=
  [("close", Some (Ok (ss_close s))); ("last_trade", Ok <$> last_trade s);
   ("price_yesterday", Some (Ok (ss_price_yesterday s))); ("value", Some (Ok (ss_value s)));
   ("volume", Some (Ok (ss_volume s))); ("trades", Some (py_float_of_int (trades s)))].

Definition field_differs (old row : option (result pyerr float)) : result pyerr bool :=
  match old, row with
  | None, None => Ok false
  | Some a, Some b => x ← a; y ← b; Ok (negb (_close_enough x y))
  | _, _ => Ok true
  end.

Definition compare_session (stored : gmap string (SessionRow * instant)) (s : string * SessionRow)
    : result pyerr (option (list string)) :=
  match stored !! s.1 with
  | None => Ok None
  | Some (old, _) =>
      differs ← traverse (λ p : (string * option (result pyerr float))
                                * (string * option (result pyerr float)),
                            b ← field_differs p.1.2 p.2.2; Ok (p.1.1, b))
                  (zip (session_columns old) (session_columns s.2));
      Ok (Some (differs ≫= λ d, if d.2 : bool then [d.1] else []))
  end.

Definition restated_session (x : (string * SessionRow) * option (list string))
    : option (string * list string) :=
  match x.2 with
  | Some ((_ :: _) as differing) => Some (x.1.1, take 3 differing)
  | _ => None
  end.

Inductive file_state : Set := inserted_ | updated_ | rechecked_ | unchanged_.

(** What becomes of the day's row of [market_session_files]. *)
Definition file_record (db : MarketDB) (old : option SessionFile) (now : instant)
    (total kept inserted : Z) : SessionFile * file_state :=
  let fresh := {| sf_rows_total := total; sf_rows_shares := kept; sf_ingested_at := now |} in
  match old with
  | None => (fresh, inserted_)
  | Some f =>
      if negb (inserted =? 0) || negb ((sf_rows_total f =? total) && (sf_rows_shares f =? kept))
      then (fresh, updated_)
      else if existsb (λ s : string * Share, sf_ingested_at f <? first_seen_at s.2)
                (map_to_list (market_shares db))
      then ({| sf_rows_total := sf_rows_total f; sf_rows_shares := sf_rows_shares f;
               sf_ingested_at := now |}, rechecked_)
      else (f, unchanged_)
  end.

Record DayReport : Set := {
  dr_date : date;
  dr_total : Z;
  dr_shares : Z;
  dr_inserted : Z;
  dr_existing : Z;
  dr_restated : list (string * list string);
  dr_invalid : list (string * parse_error);
  dr_check : DateCheck;
  dr_file : file_state;
}.

(** The transaction on the parsed file. *)
Definition store_day (db : MarketDB) (rows : list (string * object)) (d : date) (now : instant)
    (universe : gset string) : result ingest_error (MarketDB * (DayReport * list string)) :=
  parsed ← session_rows universe rows;
  let '(sessions, invalid) := parsed in
  check ← _date_check db d sessions;
  let stored := rows_of d (market_share_sessions db) ∅ in
  kinds ← lift_raised (traverse (compare_session stored) sessions);
  let judged := zip sessions kinds in
  let pending := fst <$> List.filter is_new judged in
  let restated := omap restated_session judged in
  let compared := Z.of_nat (length sessions) - Z.of_nat (length pending) in
  let count := Z.of_nat (length restated) in
  _ ← raise_if (restatement_is_systematic count compared) (Contradicts "day file" count compared);
  _ ← raise_if (existsb (λ s : string * SessionRow,
                   bool_decide (market_shares db !! s.1 = None)) pending) Integrity;
  after ← _bulk_insert_ignore (λ v, session_row_checks v.1) stored
            ((λ s : string * SessionRow, (s.1, (store_session s.2, now))) <$> pending);
  let inserted := Z.of_nat (size after) - Z.of_nat (size stored) in
  let record := file_record db (market_session_files db !! d) now (Z.of_nat (length rows))
                  (Z.of_nat (length sessions)) inserted in
  let db := set_sessions db (<[d := after]> (market_share_sessions db)) in
  Ok (set_session_files db (<[d := record.1]> (market_session_files db)),
      ({| dr_date := d; dr_total := Z.of_nat (length rows); dr_shares := Z.of_nat (length sessions);
          dr_inserted := inserted; dr_existing := compared; dr_restated := restated;
          dr_invalid := invalid; dr_check := check; dr_file := record.2 |}, pending.*1)).

(** [universe]: the codes a chunk read once; without one, the table's. *)
Definition ingest_day_file (db : MarketDB) (payload : json) (d : date) (now : instant)
    (universe : option (gset string)) : result ingest_error (MarketDB * (DayReport * list string)) :=
  _ ← raise_if (settled_cutoff TEHRAN now <=? d) (NotSettled d);
  rows ← lift_parse (parse_day_file payload);
  store_day db rows d now (default (dom (market_shares db)) universe).

(** The dates a share has a session on. *)
Definition session_dates_of (db : MarketDB) (code : string) : list date :=
  List.filter (λ d, bool_decide (is_Some (rows_of d (market_share_sessions db) ∅ !! code)))
    (sort_by (λ d, d) (elements (dom (market_share_sessions db)))).

Definition set_session_coverage (dates : list date) (now : instant) (s : Share) : Share :=
  {| sa_ins_id := sa_ins_id s; sa_symbol_fa := sa_symbol_fa s; sa_name_fa := sa_name_fa s;
     sa_market := sa_market s; sa_board := sa_board s; sa_company_code := sa_company_code s;
     sa_sector_code := sa_sector_code s; listed := listed s; first_seen_at := first_seen_at s;
     last_seen_at := last_seen_at s; flow_first_date := flow_first_date s;
     flow_last_date := flow_last_date s; flow_count := flow_count s;
     session_last_date := last dates; session_count := Z.of_nat (length dates);
     sa_updated_at := now |}.

Definition refresh_session_coverage (db : MarketDB) (codes : gset string) (now : instant)
    : MarketDB * Z :=
  let ordered := sort_strings (elements codes) in
  (set_shares db (foldl (λ t c, alter (set_session_coverage (session_dates_of db c) now) c t)
                    (market_shares db) ordered),
   Z.of_nat (length ordered)).

(** ** The manifest *)
Record ShareManifest : Set := {
  base : string;
  market_watch : option string;
  static_data : option string;
  flows : list (string * string);
  days : list (date * string);
}.

(** [\A<prefix>(...)\.json\Z]: what stands between. *)
Definition between (prefix suffix s : string) : option string :=
  if starts_with prefix s then
    let rest := drop_chars (String.length prefix) s in
    let n := (String.length rest - String.length suffix)%nat in
    if (String.length suffix <=? String.length rest)%nat && String.eqb (drop_chars n rest) suffix
    then Some (take_chars n rest) else None
  else None.

Definition FLOW_FILE_RE (name : string) : option string :=
  match between "flow-" ".json" name with
  | Some c => if ins_code_re c then Some c else None
  | None => None
  end.

Definition DAY_FILE_RE (name : string) : option string :=
  match between "day-" ".json" name with
  | Some c => if isdigit c && (String.length c =? 8)%nat then Some c else None
  | None => None
  end.

Context (realpath : string → string).

Definition inside (base : string) (parts : list string) : result ingest_error string :=
  let resolved := realpath (foldl (λ p q, p +:+ "/" +:+ q) base parts) in
  if starts_with (base +:+ "/") resolved then Ok resolved else Err (BadManifest "outside").

(** [value == 1] *)
Definition is_version (v : json) : bool :=
  match v with
  | JInt n => n =? MANIFEST_VERSION
  | JBool b => b
  | JFloat f => feq f (float_of_Z MANIFEST_VERSION)
  | _ => false
  end.

Definition fixed (base : string) (data : object) (key name : string)
    : result ingest_error (option string) :=
  match jget key data with
  | JNull => Ok None
  | JStr s =>
      if String.eqb s name then p ← inside base [name]; Ok (Some p) else Err (BadManifest key)
  | _ => Err (BadManifest key)
  end.

Definition as_name (v : json) : result ingest_error string :=
  match v with JStr s => Ok s | _ => Err (BadManifest "names") end.

(** [data.get(key) or []]: a list of distinct strings. *)
Definition names (data : object) (key : string) : result ingest_error (list string) :=
  let v := jget key data in
  if negb (truthy v) then Ok []
  else
    match v with
    | JArr l =>
        ns ← traverse as_name l;
        _ ← raise_if (negb (bool_decide (NoDup ns))) (BadManifest key);
        Ok ns
    | _ => Err (BadManifest key)
    end.

Definition flow_entry (base name : string) : result ingest_error (string * string) :=
  match FLOW_FILE_RE name with
  | None => Err (BadManifest name)
  | Some code => p ← inside base ["flows"; name]; Ok (code, p)
  end.

Definition day_entry (base name : string) : result ingest_error (date * string) :=
  match DAY_FILE_RE name with
  | None => Err (BadManifest name)
  | Some text =>
      d ← match parse_deven (JStr text) with
          | Ok d => Ok d
          | Err (Uncaught e) => Err (Raised e)
          | Err _ => Err (BadManifest name)
          end;
      p ← inside base ["days"; name];
      Ok (d, p)
  end.

(** The manifest at [directory/file_name], read from [disk]. *)
Definition load_manifest (disk : string → option file) (directory file_name : string)
    : result ingest_error ShareManifest :=
  _ ← raise_if (negb (String.eqb file_name MANIFEST_NAME)) (BadManifest file_name);
  let base := realpath directory in
  match disk (directory +:+ "/" +:+ file_name) with
  | None => Err (BadManifest "absent")
  | Some f =>
      match f_json f with
      | Some (JObj data) =>
          _ ← raise_if (negb (is_version (jget "version" data))) (BadManifest "version");
          flow_names ← names data "flows";
          flows ← traverse (flow_entry base) flow_names;
          day_names ← names data "days";
          days ← traverse (day_entry base) day_names;
          watch ← fixed base data "market_watch" MARKET_WATCH_NAME;
          static ← fixed base data "static_data" STATIC_DATA_NAME;
          Ok {| base := base; market_watch := watch; static_data := static; flows := flows;
                days := days |}
      | _ => Err (BadManifest "json")
      end
  end.

(** ** One call on a manifest *)
Inductive part : Set := universe_part | flows_part | sessions_part.

Inductive failure : Set :=
| FailedStatic (e : ingest_error)
| FailedUniverse (e : ingest_error)
| FailedFlows (code : string) (e : ingest_error)
| FailedSession (d : date) (e : ingest_error).

Record ShareReport : Set := {
  sp_universe : option UniverseReport;
  sp_flows : list (string * FlowReport);
  sp_sessions : list (date * DayReport);
  sp_errors : list failure;
  sp_succeeded : Z;
  sp_failed : Z;
  sp_refreshed : Z;
  sp_total : Z;
  next_offset : option Z;
}.

Definition empty_share_report : ShareReport :=
  {| sp_universe := None; sp_flows := []; sp_sessions := []; sp_errors := []; sp_succeeded := 0;
     sp_failed := 0; sp_refreshed := 0; sp_total := 0; next_offset := None |}.

Definition share_failed (f : failure) (r : ShareReport) : ShareReport :=
  {| sp_universe := sp_universe r; sp_flows := sp_flows r; sp_sessions := sp_sessions r;
     sp_errors := sp_errors r ++ [f]; sp_succeeded := sp_succeeded r; sp_failed := sp_failed r + 1;
     sp_refreshed := sp_refreshed r; sp_total := sp_total r; next_offset := next_offset r |}.

Definition universe_done (u : UniverseReport) (r : ShareReport) : ShareReport :=
  {| sp_universe := Some u; sp_flows := sp_flows r; sp_sessions := sp_sessions r;
     sp_errors := sp_errors r; sp_succeeded := sp_succeeded r + 1; sp_failed := sp_failed r;
     sp_refreshed := sp_refreshed r; sp_total := sp_total r; next_offset := next_offset r |}.

Definition flow_done (code : string) (f : FlowReport) (r : ShareReport) : ShareReport :=
  {| sp_universe := sp_universe r; sp_flows := dict_set code f (sp_flows r);
     sp_sessions := sp_sessions r; sp_errors := sp_errors r; sp_succeeded := sp_succeeded r + 1;
     sp_failed := sp_failed r; sp_refreshed := sp_refreshed r; sp_total := sp_total r;
     next_offset := next_offset r |}.

(** [report["items"][session.isoformat()] = result] *)
Fixpoint day_set (d : date) (v : DayReport) (l : list (date * DayReport)) : list (date * DayReport) :=
  match l with
  | [] => [(d, v)]
  | (d', v') :: l => if d' =? d then (d', v) :: l else (d', v') :: day_set d v l
  end.

Definition day_done (d : date) (v : DayReport) (r : ShareReport) : ShareReport :=
  {| sp_universe := sp_universe r; sp_flows := sp_flows r; sp_sessions := day_set d v (sp_sessions r);
     sp_errors := sp_errors r; sp_succeeded := sp_succeeded r + 1; sp_failed := sp_failed r;
     sp_refreshed := sp_refreshed r; sp_total := sp_total r; next_offset := next_offset r |}.

Definition concluded (refreshed total : Z) (next : option Z) (r : ShareReport) : ShareReport :=
  {| sp_universe := sp_universe r; sp_flows := sp_flows r; sp_sessions := sp_sessions r;
     sp_errors := sp_errors r; sp_succeeded := sp_succeeded r; sp_failed := sp_failed r;
     sp_refreshed := refreshed; sp_total := total; next_offset := next |}.

(** A bad names file must not cost the universe. *)
Definition static_names (disk : string → option file) (path : option string) (r : ShareReport)
    : option json * ShareReport :=
  match path with
  | None => (None, r)
  | Some path =>
      match (p ← read_payload_file disk path; _ ← lift_parse (parse_static_sectors fold_name p); Ok p) with
      | Ok p => (Some p, r)
      | Err e => (None, share_failed (FailedStatic e) r)
      end
  end.

Definition run_universe (disk : string → option file) (db : MarketDB) (watch : string)
    (static : option string) (now : instant) : MarketDB * ShareReport :=
  let '(names, r) := static_names disk static empty_share_report in
  match (p ← read_payload_file disk watch; ingest_universe db p names now) with
  | Ok (db, u) => (db, concluded 0 1 None (universe_done u r))
  | Err e => (db, concluded 0 1 None (share_failed (FailedUniverse e) r))
  end.

Definition run_flow (disk : string → option file) (now : instant) (st : MarketDB * ShareReport)
    (entry : string * string) : MarketDB * ShareReport :=
  match (p ← read_payload_file disk entry.2; ingest_client_flows repr TEHRAN st.1 p now entry.1) with
  | Ok (db, f) => (db, flow_done entry.1 f st.2)
  | Err e => (st.1, share_failed (FailedFlows entry.1 e) st.2)
  end.

(** The state of the chunk of sessions, with the codes that got a row. *)
Definition run_day (disk : string → option file) (universe : gset string) (now : instant)
    (st : MarketDB * ShareReport * gset string) (entry : date * string)
    : MarketDB * ShareReport * gset string :=
  let '(db, r, affected) := st in
  match (p ← read_payload_file disk entry.2; ingest_day_file db p entry.1 now (Some universe)) with
  | Ok (db, (v, codes)) => (db, day_done entry.1 v r, affected ∪ list_to_set codes)
  | Err e => (db, share_failed (FailedSession entry.1 e) r, affected)
  end.

(** [entries[offset:offset + limit]] *)
Definition chunk {A} (entries : list A) (offset limit : Z) : list A :=
  take (Z.to_nat limit) (drop (Z.to_nat offset) entries).

Definition next_of {A} (entries : list A) (offset limit : Z) : option Z :=
  let end_ := offset + Z.of_nat (length (chunk entries offset limit)) in
  if end_ <? Z.of_nat (length entries) then Some end_ else None.

Inductive answer : Set :=
| Answered (r : ShareReport)
| AllFailed (r : ShareReport)
| Rejected (e : ingest_error).

Definition answer_of (r : ShareReport) : answer :=
  if sp_succeeded r =? 0 then AllFailed r else Answered r.

Definition ingest_share_manifest (disk : string → option file) (db : MarketDB)
    (directory file_name : string) (p : part) (offset limit : Z) (now : instant)
    : MarketDB * answer :=
  if (offset <? 0) || negb ((1 <=? limit) && (limit <=? MAX_CHUNK)) then
    (db, Rejected (BadManifest "offset or limit"))
  else
    match load_manifest disk directory file_name with
    | Err e => (db, Rejected e)
    | Ok manifest =>
        match p with
        | universe_part =>
            match market_watch manifest with
            | None => (db, Rejected (BadManifest "market watch"))
            | Some watch =>
                let '(db, r) := run_universe disk db watch (static_data manifest) now in
                (db, answer_of r)
            end
        | flows_part =>
            let entries := flows manifest in
            if Z.of_nat (length entries) <=? offset then (db, Rejected (BadManifest "offset"))
            else
              let '(db, r) := foldl (run_flow disk now) (db, empty_share_report)
                                (chunk entries offset limit) in
              (db, answer_of (concluded 0 (Z.of_nat (length entries))
                                (next_of entries offset limit) r))
        | sessions_part =>
            let entries := days manifest in
            if Z.of_nat (length entries) <=? offset then (db, Rejected (BadManifest "offset"))
            else
              let universe := dom (market_shares db) in
              let '(db, r, affected) := foldl (run_day disk universe now) (db, empty_share_report, ∅)
                                          (chunk entries offset limit) in
              let '(db, refreshed) := refresh_session_coverage db affected now in
              (db, answer_of (concluded refreshed (Z.of_nat (length entries))
                                (next_of entries offset limit) r))
        end
    end.

(** ** The walk (scripts/tsetmc_fetch.py)

    A call is answered with a report - all-failed reports included - or fails
    outright; [lost] says which calls fail, after the service may or may not have
    worked ([served]). *)
Record walk_state : Set := {
  w_db : MarketDB;
  w_succeeded : Z;
  w_failed : Z;
  w_calls : list (Z * bool);
  w_offset : Z;
}.

Definition answer_report (a : answer) : option ShareReport :=
  match a with Answered r | AllFailed r => Some r | Rejected _ => None end.

Definition walk_step (disk : string → option file) (directory : string) (p : part)
    (total limit : Z) (now : instant) (lost : nat → option bool) (st : walk_state) : walk_state :=
  let offset := w_offset st in
  let '(db', a) := ingest_share_manifest disk (w_db st) directory MANIFEST_NAME p offset limit now in
  let forgo db :=
    {| w_db := db; w_succeeded := w_succeeded st; w_failed := w_failed st;
       w_calls := w_calls st ++ [(offset, false)]; w_offset := offset + limit |} in
  match lost (length (w_calls st)) with
  | Some served => forgo (if (served : bool) then db' else w_db st)
  | None =>
      match answer_report a with
      | None => forgo db'
      | Some r =>
          {| w_db := db'; w_succeeded := w_succeeded st + sp_succeeded r;
             w_failed := w_failed st + sp_failed r; w_calls := w_calls st ++ [(offset, true)];
             w_offset := match next_offset r with
                         | Some n => if offset <? n then n else total
                         | None => total
                         end |}
      end
  end.

Fixpoint walk (fuel : nat) (disk : string → option file) (directory : string) (p : part)
    (total limit : Z) (now : instant) (lost : nat → option bool) (st : walk_state)
    : option walk_state :=
  if total <=? w_offset st then Some st
  else
    match fuel with
    | O => None
    | S fuel =>
        walk fuel disk directory p total limit now lost
          (walk_step disk directory p total limit now lost st)
    end.

Definition _ingest_chunks (fuel : nat) (disk : string → option file) (db : MarketDB)
    (directory : string) (p : part) (total limit : Z) (now : instant) (lost : nat → option bool)
    : option walk_state :=
  walk fuel disk directory p total limit now lost
    {| w_db := db; w_succeeded := 0; w_failed := 0; w_calls := []; w_offset := 0 |}.
End Shares.

(** ** The universe: what becomes of each share *)
Section Sound.
Context `{NF : !NumericFloat} (repr fold_name fold_symbol : json → string) (TEHRAN : tzinfo).

Lemma foldl_alter {A V} (f : A → V → V) (k : A → string) (l : list A) (t : gmap string V) :
  NoDup (k <$> l) →
  (∀ x, x ∈ l → foldl (λ t x, alter (f x) (k x) t) t l !! k x = f x <$> t !! k x)
  ∧ (∀ c, c ∉ k <$> l → foldl (λ t x, alter (f x) (k x) t) t l !! c = t !! c).
Proof.
  revert t. induction l as [|y l IH]; intros t; csimpl.
  - intros _. split; [|done]. intros x Hx. by apply elem_of_nil in Hx.
  - intros [Hni Hnd]%NoDup_cons. destruct (IH (alter (f y) (k y) t) Hnd) as [H1 H2]. split.
    + intros x [->|Hx]%elem_of_cons; [by rewrite H2, lookup_alter_eq|].
      rewrite H1 by done. rewrite lookup_alter_ne; [done|]. intros Heq. apply Hni. rewrite Heq.
      by apply list_elem_of_fmap_2.
    + intros c [Hc1 Hc2]%not_elem_of_cons. rewrite H2 by done. by rewrite lookup_alter_ne.
Qed.

(** The row the statements leave under a code, in the code's own terms. *)
Definition share_after (existing : gmap string Share) (watch : list ListedShare) (traded : gset string)
    (now : instant) (c : string) : option Share :=
  match List.find (λ s, String.eqb (ls_code s) c) watch with
  | Some s =>
      match existing !! c with
      | None => Some (new_share now s)
      | Some old =>
          Some (if listed old && same_fields old s then set_last_seen now old
                else change_share now s old)
      end
  | None =>
      (λ old, if bool_decide (c ∈ traded) then if listed old then old else set_listed true now old
              else if listed old then set_listed false now old else old) <$> existing !! c
  end.

Lemma find_code (watch : list ListedShare) c :
  match List.find (λ s, String.eqb (ls_code s) c) watch with
  | Some s => s ∈ watch ∧ ls_code s = c
  | None => c ∉ ls_code <$> watch
  end.
Proof.
  induction watch as [|s watch IH]; csimpl; [apply not_elem_of_nil|].
  destruct (String.eqb_spec (ls_code s) c) as [|Hne].
  - split; [by left|done].
  - destruct (List.find _ watch); [destruct IH; split; [by right|done]|].
    apply not_elem_of_cons. split; [congruence|done].
Qed.

Lemma code_unique (watch : list ListedShare) s s' :
  NoDup (ls_code <$> watch) → s ∈ watch → s' ∈ watch → ls_code s = ls_code s' → s = s'.
Proof. intros Hnd. by apply NoDup_key_inj. Qed.

(** The three kinds of sighting, and the two of departure, as membership. *)
Lemma sighting_elem k existing watch s :
  s ∈ List.filter (is_sighting k existing) watch ↔ s ∈ watch ∧ sight existing s = k.
Proof. rewrite elem_of_bool_filter. unfold is_sighting. destruct k, (sight existing s); naive_solver. Qed.

Lemma sort_strings_elem l c : c ∈ sort_strings l ↔ c ∈ l.
Proof. unfold sort_strings. by rewrite py_sorted_perm. Qed.

Lemma sort_strings_NoDup l : NoDup l → NoDup (sort_strings l).
Proof. unfold sort_strings. by rewrite py_sorted_perm. Qed.

Lemma filtered_keys (p : string * Share → bool) (existing : gmap string Share) c :
  c ∈ (List.filter p (map_to_list existing)).*1 ↔ ∃ old, existing !! c = Some old ∧ p (c, old) = true.
Proof.
  rewrite list_elem_of_fmap. split.
  - intros ([c' old]&->&Hin). apply elem_of_bool_filter in Hin as [Hin%elem_of_map_to_list Hp]. by exists old.
  - intros (old&Hold&Hp). exists (c, old). split; [done|]. apply elem_of_bool_filter. split; [|done].
    by apply elem_of_map_to_list.
Qed.

Lemma filtered_keys_NoDup (p : string * Share → bool) (existing : gmap string Share) :
  NoDup (List.filter p (map_to_list existing)).*1.
Proof. apply NoDup_fmap_filter, NoDup_fst_map_to_list. Qed.

Lemma delisted_elem existing served traded c :
  c ∈ delisted (depart existing served traded) ↔
  ∃ old, existing !! c = Some old ∧ listed old = true ∧ c ∉ served ∧ c ∉ traded.
Proof.
  unfold depart. cbn [delisted]. rewrite sort_strings_elem, !bool_filter_filter, filtered_keys. simpl.
  setoid_rewrite andb_true_iff. setoid_rewrite andb_true_iff.
  setoid_rewrite negb_true_iff. setoid_rewrite bool_decide_eq_false. naive_solver.
Qed.

Lemma relisted_elem existing served traded c :
  c ∈ relisted_traded (depart existing served traded) ↔
  ∃ old, existing !! c = Some old ∧ listed old = false ∧ c ∉ served ∧ c ∈ traded.
Proof.
  unfold depart. cbn [relisted_traded]. rewrite sort_strings_elem, !bool_filter_filter, filtered_keys. simpl.
  repeat setoid_rewrite andb_true_iff. repeat setoid_rewrite negb_true_iff.
  setoid_rewrite bool_decide_eq_false. setoid_rewrite bool_decide_eq_true. naive_solver.
Qed.

Lemma departures_NoDup existing served traded :
  NoDup (delisted (depart existing served traded))
  ∧ NoDup (relisted_traded (depart existing served traded)).
Proof.
  unfold depart. cbn [delisted relisted_traded]. rewrite !bool_filter_filter.
  split; apply sort_strings_NoDup, filtered_keys_NoDup.
Qed.

Lemma sight_NoDup k existing watch :
  NoDup (ls_code <$> watch) → NoDup (ls_code <$> List.filter (is_sighting k existing) watch).
Proof. apply NoDup_fmap_filter. Qed.

(** A statement over the shares of one kind of sighting: the row it names, the rows
    it does not. *)
Lemma sight_hit f k existing watch (t : gmap string Share) s :
  NoDup (ls_code <$> watch) → s ∈ watch → sight existing s = k →
  foldl (λ t s, alter (f s) (ls_code s) t) t (List.filter (is_sighting k existing) watch) !! ls_code s
  = f s <$> t !! ls_code s.
Proof.
  intros Hnd Hs Hk. apply (foldl_alter f ls_code); [by apply sight_NoDup|by apply sighting_elem].
Qed.

Lemma sight_other k existing watch s :
  NoDup (ls_code <$> watch) → s ∈ watch → sight existing s ≠ k →
  ls_code s ∉ ls_code <$> List.filter (is_sighting k existing) watch.
Proof.
  intros Hnd Hs Hk (s'&Heq&[Hs' Hk']%sighting_elem)%list_elem_of_fmap.
  by rewrite (code_unique watch s s') in Hk.
Qed.

Lemma sight_miss f k existing watch (t : gmap string Share) s :
  NoDup (ls_code <$> watch) → s ∈ watch → sight existing s ≠ k →
  foldl (λ t s, alter (f s) (ls_code s) t) t (List.filter (is_sighting k existing) watch) !! ls_code s
  = t !! ls_code s.
Proof.
  intros Hnd Hs Hk. apply (foldl_alter f ls_code); [by apply sight_NoDup|by apply sight_other].
Qed.

Lemma sight_absent f k existing watch (t : gmap string Share) c :
  NoDup (ls_code <$> watch) → c ∉ ls_code <$> watch →
  foldl (λ t s, alter (f s) (ls_code s) t) t (List.filter (is_sighting k existing) watch) !! c = t !! c.
Proof.
  intros Hnd Hc. apply (foldl_alter f ls_code); [by apply sight_NoDup|].
  intros (s&->&[Hs _]%sighting_elem)%list_elem_of_fmap. apply Hc. by apply list_elem_of_fmap_2.
Qed.

Lemma foldl_listed b now (l : list string) (t : gmap string Share) c :
  NoDup l →
  foldl (λ t c, alter (set_listed b now) c t) t l !! c
  = if bool_decide (c ∈ l) then set_listed b now <$> t !! c else t !! c.
Proof.
  intros Hnd. destruct (foldl_alter (λ _ : string, set_listed b now) id l t) as [H1 H2];
    [by rewrite list_fmap_id|].
  case_bool_decide as Hc; [by apply (H1 c)|]. apply H2. by rewrite list_fmap_id.
Qed.

(** The inserted rows, by code. *)
Lemma inserted_lookup now existing watch c :
  NoDup (ls_code <$> watch) →
  (list_to_map ((λ s, (ls_code s, new_share now s)) <$> List.filter (is_sighting Insert existing) watch)
    : gmap string Share) !! c
  = match List.find (λ s, String.eqb (ls_code s) c) watch with
    | Some s => if is_sighting Insert existing s then Some (new_share now s) else None
    | None => None
    end.
Proof.
  intros Hnd. pose proof (find_code watch c) as Hf. destruct (List.find _ watch) as [s|].
  - destruct Hf as [Hs <-]. destruct (is_sighting Insert existing s) eqn:Hk.
    + apply elem_of_list_to_map_1.
      * rewrite <-list_fmap_compose. by apply (sight_NoDup Insert).
      * apply list_elem_of_fmap. exists s. split; [done|]. by apply elem_of_bool_filter.
    + apply not_elem_of_list_to_map_1. rewrite <-list_fmap_compose.
      apply (sight_other Insert); [done|done|]. unfold is_sighting in Hk. by destruct (sight existing s).
  - apply not_elem_of_list_to_map_1. rewrite <-list_fmap_compose.
    intros (s&->&[Hs _]%elem_of_bool_filter)%list_elem_of_fmap. apply Hf. by apply list_elem_of_fmap_2.
Qed.

Lemma write_shares_lookup now existing watch served traded t c :
  NoDup (ls_code <$> watch) → (∀ c, c ∈ served ↔ c ∈ ls_code <$> watch) → 
  write_shares now existing watch (depart existing served traded) = Ok t →
  t !! c = share_after existing watch traded now c.
Proof.
  intros Hnd Hserved. pose proof (delisted_elem existing served traded) as Hdel.
  pose proof (relisted_elem existing served traded) as Hrel.
  destruct (departures_NoDup existing served traded) as [Hd Hr].
  generalize dependent (depart existing served traded). intros d Hdel Hrel Hd Hr H.
  unfold write_shares in H. apply bind_Ok in H as (t1&Ht1&H).
  apply bind_Ok in H as (us&_&[= <-]). apply bulk_insert_spec in Ht1 as [_ ->].
  rewrite !foldl_listed by done.
  unfold share_after. pose proof (find_code watch c) as Hf.
  pose proof (inserted_lookup now existing watch c Hnd) as Hins. destruct (List.find _ watch) as [s|].
  - destruct Hf as [Hs <-].
    assert (ls_code s ∈ served) as Hin by (apply Hserved; by apply list_elem_of_fmap_2).
    rewrite bool_decide_eq_false_2 by (intros (?&_&_&?&_)%Hrel; done).
    rewrite bool_decide_eq_false_2 by (intros (?&_&_&?&_)%Hdel; done).
    destruct (existing !! ls_code s) as [old|] eqn:Hold.
    + destruct (listed old && same_fields old s) eqn:Hsame.
      * assert (sight existing s = SeenOnly) as Hk by (unfold sight; by rewrite Hold, Hsame).
        rewrite (sight_hit (λ _, set_last_seen now)), sight_miss by (done || by rewrite Hk).
        by rewrite lookup_union, Hold, union_Some_l.
      * assert (sight existing s = Change) as Hk by (unfold sight; by rewrite Hold, Hsame).
        rewrite (sight_miss (λ _, set_last_seen now)), sight_hit by (done || by rewrite Hk).
        by rewrite lookup_union, Hold, union_Some_l.
    + assert (sight existing s = Insert) as Hk by (unfold sight; by rewrite Hold).
      rewrite (sight_miss (λ _, set_last_seen now)), sight_miss by (done || by rewrite Hk).
      rewrite lookup_union, Hold, (left_id_L None (∪)), Hins. unfold is_sighting. by rewrite Hk.
  - assert (c ∉ served) as Hout by (by rewrite Hserved).
    rewrite (sight_absent (λ _, set_last_seen now)), sight_absent by done.
    rewrite lookup_union, Hins, (right_id_L None (∪)).
    destruct (existing !! c) as [old|] eqn:Hold; [|by repeat case_match].
    rewrite (bool_decide_ext (c ∈ relisted_traded d) (listed old = false ∧ c ∈ traded)) by (rewrite Hrel; naive_solver).
    rewrite (bool_decide_ext (c ∈ delisted d) (listed old = true ∧ c ∉ traded))
      by (rewrite Hdel; naive_solver).
    repeat case_bool_decide; simpl; destruct (listed old) eqn:Hl; naive_solver.
Qed.

Lemma store_universe_Ok db watch names now db' rep :
  store_universe db watch names now = Ok (db', rep) →
  let d := depart (market_shares db) (list_to_set (ls_code <$> shares watch))
             (_recently_traded db ∩ dom (market_shares db)) in
  guard_universe d = Ok ()
  ∧ (∀ m, m ∈ markets_of (market_shares db) (delisted d) → guard_market (market_shares db) d m = Ok ())
  ∧ ∃ t sectors, write_shares now (market_shares db) (shares watch) d = Ok t
    ∧ db' = set_sectors (set_shares db t) sectors ∧ un_delisted rep = delisted d.
Proof.
  unfold store_universe. intros H. apply bind_Ok in H as ([]&Hg&H).
  apply bind_Ok in H as (us&Hm%traverse_Ok&H). apply bind_Ok in H as (t&Ht&[= <- <-]).
  split_and!; [done| |by eexists _, _].
  intros m Hin. destruct (Forall2_elem_l _ _ _ _ Hm Hin) as ([]&_&?). done.
Qed.

Lemma parse_watch_Ok payload w :
  parse_market_watch repr fold_name fold_symbol payload = Ok w →
  NoDup (ls_code <$> shares w) ∧ Forall share_ok (shares w).
Proof.
  unfold parse_market_watch. rewrite bind_Ok. intros (rows&_&H).
  apply bind_Ok in H as (ss&(Hok&Hnd&_&_)%watch_rows_Ok&H).
  destruct ss; [done|]. by injection H as <-.
Qed.

Lemma ingest_universe_inv db payload static now db' rep :
  ingest_universe repr fold_name fold_symbol db payload static now = Ok (db', rep) →
  ∃ watch names, parse_market_watch repr fold_name fold_symbol payload = Ok watch
  ∧ store_universe db watch names now = Ok (db', rep).
Proof.
  unfold ingest_universe. rewrite bind_Ok. intros (w&Hw%lift_parse_Ok&H).
  apply bind_Ok in H as (n&_&H). by exists w, n.
Qed.

(** The contract of the mirror, without the code's helpers.  A share traded lately
    when one of its session rows is of an ingested day fewer than twenty ingested
    days are newer than. *)
Definition traded_lately (db : MarketDB) (c : string) : Prop :=
  ∃ d, d ∈ dom (market_session_files db)
  ∧ Z.of_nat (size (filter (λ e, d < e) (dom (market_session_files db)))) < 20
  ∧ is_Some (rows_of d (market_share_sessions db) ∅ !! c).

Definition watch_columns (s : Share) : list string :=
  [sa_ins_id s; sa_symbol_fa s; sa_name_fa s; sa_market s; sa_board s; sa_company_code s; sa_sector_code s].

Definition told_columns (w : ListedShare) : list string :=
  [ins_id w; symbol_fa w; ls_name_fa w; ls_market w; board w; company_code w; ls_sector w].

Definition coverage_columns (s : Share) : option date * option date * Z * option date * Z :=
  (flow_first_date s, flow_last_date s, flow_count s, session_last_date s, session_count s).

(** What a run at [now] may leave under [c]: a row where there was one or the
    watch serves one; its first sighting and its coverage as they were; served,
    the watch's columns, listed and seen now; not served, its columns and last
    sighting as they were, and listed exactly when it traded lately; and
    [updated_at] moved exactly when a column or the listing changed. *)
Definition mirrored (db : MarketDB) (watch : list ListedShare) (now : instant) (c : string)
    (after : option Share) : Prop :=
  match market_shares db !! c, after with
  | None, None => ∀ w, w ∈ watch → ls_code w ≠ c
  | None, Some s =>
      ∃ w, w ∈ watch ∧ ls_code w = c ∧ watch_columns s = told_columns w ∧ listed s = true
      ∧ (first_seen_at s, last_seen_at s, sa_updated_at s) = (now, now, now)
      ∧ coverage_columns s = (None, None, 0, None, 0)
  | Some o, Some s =>
      first_seen_at s = first_seen_at o ∧ coverage_columns s = coverage_columns o
      ∧ ((∃ w, w ∈ watch ∧ ls_code w = c ∧ watch_columns s = told_columns w
          ∧ listed s = true ∧ last_seen_at s = now)
         ∨ ((∀ w, w ∈ watch → ls_code w ≠ c) ∧ watch_columns s = watch_columns o
            ∧ (listed s = true ↔ traded_lately db c) ∧ last_seen_at s = last_seen_at o))
      ∧ sa_updated_at s = if decide (watch_columns s = watch_columns o ∧ listed s = listed o)
                          then sa_updated_at o else now
  | Some _, None => False
  end.

(** Among distinct dates in descending order, the first [n] are those fewer than
    [n] of them are newer than. *)
Lemma newest_take n (l : list date) (d : date) :
  StronglySorted (λ a b, b < a) l →
  d ∈ take n l ↔ d ∈ l ∧ (length (filter (λ e, (d < e)%Z) l) < n)%nat.
Proof.
  revert n. induction l as [|x l IH]; intros n Hs; [rewrite take_nil; set_solver by lia|].
  apply StronglySorted_inv in Hs as [Hs Hx]. rewrite Forall_forall in Hx. rewrite filter_cons.
  destruct n as [|n]; simpl take; [rewrite elem_of_nil; split; [done|lia]|].
  rewrite !elem_of_cons, IH by done. destruct (decide (d < x)) as [Hd|Hd]; simpl; [split; intros; intuition lia|].
  assert (filter (λ e, d < e) l = []) as Hnil.
  { apply elem_of_nil_inv. intros e [He Hin]%list_elem_of_filter. specialize (Hx e Hin). simpl in *. lia. }
  rewrite Hnil. simpl. split; [intros [->|[? ?]]; split; auto; lia|].
  intros [[->|Hin] _]; [by left|]. specialize (Hx d Hin). simpl in Hx. lia.
Qed.

Lemma descending_strict (l : list date) :
  NoDup l → StronglySorted (not_below (λ a b : date, b <? a)) l → StronglySorted (λ a b, b < a) l.
Proof.
  intros Hnd Hw. induction Hw as [|x k Hk IH Hx]; [constructor|].
  apply NoDup_cons in Hnd as [Hni Hnd]. constructor; [by apply IH|].
  rewrite Forall_forall in Hx |- *. intros y Hy. specialize (Hx y Hy). unfold not_below in Hx.
  destruct (Z.eq_dec x y) as [->|]; [done|]. simpl in *. lia.
Qed.

Lemma recently_traded_spec db c : c ∈ _recently_traded db ↔ traded_lately db c.
Proof.
  unfold _recently_traded, traded_lately. set (D := dom (market_session_files db)).
  set (l := py_sorted (λ a b : date, b <? a) (elements D)).
  assert (l ≡ₚ elements D) as Hp by apply py_sorted_perm.
  assert (StronglySorted (λ a b, b < a) l) as Hs.
  { apply descending_strict; [rewrite Hp; apply NoDup_elements|].
    apply py_sorted_sorted. split; intros; lia. }
  assert (∀ d, d ∈ take TRADED_LISTING_SESSIONS l ↔ d ∈ D ∧ Z.of_nat (size (filter (λ e, d < e) D)) < 20) as Ht.
  { intros d. rewrite newest_take by done.
    assert (d ∈ l ↔ d ∈ D) as -> by (by rewrite Hp, elem_of_elements).
    assert (length (filter (λ e, d < e) l) = size (filter (λ e, d < e) D)) as ->; [|unfold TRADED_LISTING_SESSIONS; intuition lia].
    rewrite <-(size_list_to_set (C := gset date)) by (apply NoDup_filter; rewrite Hp; apply NoDup_elements).
    f_equal. apply set_eq. intros e. rewrite elem_of_list_to_set, list_elem_of_filter, elem_of_filter, Hp. by rewrite elem_of_elements. }
  rewrite elem_of_union_list. split.
  - intros (X&(d&->&Hd)%list_elem_of_fmap&Hc). apply Ht in Hd as [Hd Hn].
    exists d. apply elem_of_dom in Hc. by split_and!.
  - intros (d&Hd&Hn&Hc). exists (dom (rows_of d (market_share_sessions db) ∅)).
    split; [|by apply elem_of_dom].
    apply (list_elem_of_fmap_2 (λ d, dom (rows_of d (market_share_sessions db) ∅))). by apply Ht.
Qed.

Lemma same_fields_iff o w : same_fields o w = true ↔ watch_columns o = told_columns w.
Proof.
  unfold same_fields, watch_columns, told_columns. rewrite !andb_true_iff, !String.eqb_eq.
  split; [intros [[[[[[-> ->] ->] ->] ->] ->] ->]; done|intros [=]; done].
Qed.

Lemma share_after_mirrored db watch now c :
  mirrored db watch now c (share_after (market_shares db) watch (_recently_traded db) now c).
Proof.
  unfold mirrored, share_after. pose proof (find_code watch c) as Hf.
  destruct (List.find _ watch) as [w|].
  - destruct Hf as [Hw Hc]. destruct (market_shares db !! c) as [o|]; [|by exists w].
    destruct (listed o) eqn:Hl; simpl; [destruct (same_fields o w) eqn:Hs|].
    + apply same_fields_iff in Hs. split_and!; [done..|left; by exists w|]. by rewrite decide_True by by split.
    + split_and!; [done..|left; by exists w|]. rewrite decide_False; [done|]. intros [He _].
      assert (same_fields o w = true); [|congruence]. by apply same_fields_iff.
    + split_and!; [done..|left; by exists w|]. rewrite decide_False; [done|].
      simpl. intros [_ ?]. congruence.
  - assert (∀ w, w ∈ watch → ls_code w ≠ c) as Hn.
    { intros w Hw <-. apply Hf. by apply list_elem_of_fmap_2. }
    destruct (market_shares db !! c) as [o|]; simpl; [|done].
    pose proof (recently_traded_spec db c) as Ht. case_bool_decide as Hb; destruct (listed o) eqn:Hl;
      (split_and!; [done..|right; split_and!; [done|done|simpl; rewrite ?Hl; naive_solver|done]|]).
    all: simpl; case_decide as Hd; [try done; destruct Hd; congruence|].
    all: try done; destruct Hd; split; congruence.
Qed.


(** No truncated watch unlists the market: an accepted one unlists fewer than
    fifty shares or at most half of the listed ones, and in every market fewer
    than five or at most half of that market's listed shares. *)
Theorem universe_guarded db payload static now db' rep :
  ingest_universe repr fold_name fold_symbol db payload static now = Ok (db', rep) →
  let was := (List.filter (λ x : string * Share, listed x.2) (map_to_list (market_shares db))).*1 in
  let gone := un_delisted rep in
  (Z.of_nat (length gone) < 50 ∨ 2 * Z.of_nat (length gone) ≤ Z.of_nat (length was))
  ∧ (∀ m, count_market (market_shares db) m gone < 5
          ∨ 2 * count_market (market_shares db) m gone ≤ count_market (market_shares db) m was)
  ∧ ∀ c, c ∈ gone ↔ (∃ old, market_shares db !! c = Some old ∧ listed old = true)
                    ∧ ∃ new, market_shares db' !! c = Some new ∧ listed new = false.
Proof.
  intros (watch&names&Hw&Hst)%ingest_universe_inv. apply parse_watch_Ok in Hw as [Hnd _].
  apply store_universe_Ok in Hst as (Hg&Hm&t&sectors&Ht&->&->). cbv zeta.
  apply raise_if_Ok in Hg. unfold DELIST_GUARD_MIN in Hg. cbn [listed_before] in Hg. split_and!.
  - apply andb_false_iff in Hg as [Hg%Z.leb_gt|Hg%Z.ltb_ge]; [by left|by right].
  - intros m. set (d := depart _ _ _) in *. destruct (decide (m ∈ markets_of (market_shares db) (delisted d))) as [Hin|Hout].
    + specialize (Hm m Hin). apply raise_if_Ok in Hm. unfold DELIST_GUARD_MARKET_MIN in Hm.
      apply andb_false_iff in Hm as [Hm%Z.leb_gt|Hm%Z.ltb_ge]; [by left|by right].
    + left. assert (count_market (market_shares db) m (delisted d) = 0) as ->; [|lia].
      unfold count_market, count_if. rewrite (proj2 (filter_nil_iff _ _)); [done|].
      apply Forall_forall. intros c Hc. destruct (market_shares db !! c) as [s|] eqn:Hs; [|done].
      apply String.eqb_neq. intros Heq. apply Hout. unfold markets_of. rewrite sort_strings_elem.
      apply elem_of_elements, elem_of_list_to_set, list_elem_of_omap. exists c. split; [done|].
      by rewrite Hs, <-Heq.
  - intros c. rewrite delisted_elem. simpl.
    rewrite (write_shares_lookup _ _ _ _ _ _ c Hnd (λ c, elem_of_list_to_set c _) Ht).
    unfold share_after. pose proof (find_code (shares watch) c) as Hf.
    setoid_rewrite elem_of_list_to_set. destruct (List.find _ (shares watch)) as [s|].
    + destruct Hf as [Hs <-]. split.
      * intros (old&_&_&Hn&_). destruct Hn. by apply list_elem_of_fmap_2.
      * intros ((old&Hold&Hl)&new&Hnew&Hn). rewrite Hold in Hnew.
        destruct (listed old && same_fields old s); injection Hnew as <-; simpl in Hn; congruence.
    + split.
      * intros (old&Hold&Hl&_&Ht'). split; [by exists old|]. rewrite Hold. simpl.
        rewrite bool_decide_eq_false_2, Hl by done. by eexists.
      * intros ((old&Hold&Hl)&new&Hnew&Hn). exists old. split_and!; [done..|].
        rewrite Hold in Hnew. simpl in Hnew. rewrite Hl in Hnew. case_bool_decide; [|done].
        injection Hnew as <-. by rewrite Hl in Hn.
Qed.

Lemma share_ok_checks now s : share_ok s → share_row_checks (new_share now s) = Ok ().
Proof.
  intros [_ _ _ _ _ Hc _]. unfold share_row_checks. cbn [sa_market sa_board new_share]. unfold share_checks in Hc. by rewrite Hc.
Qed.

Lemma share_after_ok existing watch traded now c s :
  Forall share_ok watch → map_Forall (λ _ s, share_row_checks s = Ok ()) existing →
  share_after existing watch traded now c = Some s →
  share_row_checks s = Ok ()
  ∧ (flow_first_date s, flow_last_date s, flow_count s)
    = match existing !! c with
      | Some old => (flow_first_date old, flow_last_date old, flow_count old)
      | None => (None, None, 0)
      end.
Proof.
  intros Hok Hex. unfold share_after. pose proof (find_code watch c) as Hf. rewrite Forall_forall in Hok.
  destruct (List.find _ watch) as [x|].
  - destruct Hf as [Hx <-]. pose proof (share_ok_checks now x (Hok x Hx)) as Hc.
    destruct (existing !! ls_code x) as [old|] eqn:Hold; [|by intros [= <-]].
    specialize (Hex _ _ Hold). destruct (_ && _); intros [= <-]; by split.
  - destruct (existing !! c) as [old|] eqn:Hold; [|done]. specialize (Hex _ _ Hold).
    simpl. intros [= <-]. by repeat case_match.
Qed.

Lemma share_after_kept existing watch traded now c :
  is_Some (existing !! c) → is_Some (share_after existing watch traded now c).
Proof.
  intros [old Hold]. unfold share_after. rewrite Hold. simpl.
  destruct (List.find _ watch); by eexists.
Qed.

(** ** The tables stay well-formed *)
Lemma ingest_universe_ok db payload static now db' rep :
  market_ok TEHRAN db → ingest_universe repr fold_name fold_symbol db payload static now = Ok (db', rep) →
  market_ok TEHRAN db'.
Proof.
  intros [Mir Mi Mic Mich Mv Mf Mfc Ms Msh Msf Msn Mb] (watch&names&Hw&Hst)%ingest_universe_inv. apply parse_watch_Ok in Hw as [Hnd Hok].
  apply store_universe_Ok in Hst as (_&_&t&sectors&Ht&->&_).
  assert (∀ c, t !! c = share_after (market_shares db) (shares watch)
                 (_recently_traded db ∩ dom (market_shares db)) now c) as Hlook.
  { intros c. by apply (write_shares_lookup _ _ _ _ _ _ c Hnd (λ c, elem_of_list_to_set c _) Ht). }
  constructor; simpl; try done.
  - intros c rows Hrows. destruct (Mf c rows Hrows) as [Hs ?]. split; [|done].
    rewrite Hlook. by apply share_after_kept.
  - intros c s Hs. rewrite Hlook in Hs. apply share_after_ok in Hs as [_ ->]; [|done|done].
    destruct (market_shares db !! c) as [old|] eqn:Hold; [by apply Mfc|].
    unfold rows_of. destruct (equity_client_flows db !! c) as [rows|] eqn:Hrows; [|done].
    destruct (Mf c rows Hrows) as [[? ?] _]. congruence.
  - intros d rows Hrows c s Hs. destruct (Ms d rows Hrows c s Hs) as [Hsh ?]. split; [|done].
    rewrite Hlook. by apply share_after_kept.
  - intros c s Hs. rewrite Hlook in Hs. by apply share_after_ok in Hs as [? _].
Qed.

(** The items whose verdict is none are the ones the verdict says are new. *)
Lemma new_elem {A B} (R : A → option B → Prop) (P : A → Prop) l k x :
  Forall2 R l k → (∀ x y, R x y → y = None ↔ P x) →
  x ∈ fst <$> List.filter is_new (zip l k) ↔ x ∈ l ∧ P x.
Proof.
  intros Hk HP. induction Hk as [|a b l k Hab _ IH]; csimpl.
  - split; [intros H|intros [H _]]; by apply elem_of_nil in H.
  - rewrite elem_of_cons. unfold is_new at 1. simpl.
    destruct b as [b|]; csimpl; rewrite ?elem_of_cons, IH.
    + assert (¬ P a) by (intros Ha; by apply (HP _ _ Hab) in Ha). naive_solver.
    + assert (P a) by (by apply (HP _ _ Hab)). naive_solver.
Qed.

Lemma compare_session_None stored s k :
  compare_session stored s = Ok k → k = None ↔ stored !! s.1 = None.
Proof.
  unfold compare_session. destruct (stored !! s.1) as [[old at_]|]; [|by intros [= <-]].
  intros (b&_&[= <-])%bind_Ok. done.
Qed.

(** What a committed day file did. *)
Lemma store_day_Ok db rows d now universe db' rep codes :
  store_day db rows d now universe = Ok (db', (rep, codes)) →
  ∃ sessions pending after files,
    session_rows universe rows = Ok (sessions, dr_invalid rep)
    ∧ _date_check db d sessions = Ok (dr_check rep)
    ∧ (∀ s, s ∈ pending ↔ s ∈ sessions ∧ rows_of d (market_share_sessions db) ∅ !! s.1 = None)
    ∧ (∀ s, s ∈ pending → is_Some (market_shares db !! s.1))
    ∧ _bulk_insert_ignore (λ v, session_row_checks v.1) (rows_of d (market_share_sessions db) ∅)
        ((λ s : string * SessionRow, (s.1, (store_session s.2, now))) <$> pending) = Ok after
    ∧ codes = pending.*1
    ∧ (map_Forall (λ _ f, session_file_checks f = Ok ()) (market_session_files db) →
       map_Forall (λ _ f, session_file_checks f = Ok ()) files)
    ∧ db' = set_session_files (set_sessions db (<[d := after]> (market_share_sessions db))) files.
Proof.
  unfold store_day. intros H. apply bind_Ok in H as ([sessions invalid]&Hs&H).
  apply bind_Ok in H as (check&Hc&H). apply bind_Ok in H as (kinds&Hk%lift_raised_Ok%traverse_Ok&H).
  apply bind_Ok in H as ([]&_&H). apply bind_Ok in H as (u&Hfk&H). apply raise_if_Ok in Hfk.
  apply bind_Ok in H as (after&Hins&[= <- <- <-]).
  set (pending := fst <$> List.filter is_new (zip sessions kinds)) in *.
  exists sessions, pending, after. eexists. split_and!; try reflexivity; try done.
  - intros s. unfold pending.
    apply (new_elem _ (λ s, rows_of d (market_share_sessions db) ∅ !! s.1 = None) _ _ _ Hk). intros x k. apply compare_session_None.
  - intros s Hs'. destruct (market_shares db !! s.1) eqn:Hsh; [by eexists|].
    apply not_true_iff_false in Hfk. destruct Hfk. apply existsb_exists. exists s.
    split; [by apply list_elem_of_In|]. by apply bool_decide_eq_true.
  - intros Hf. apply map_Forall_insert_2; [|done]. unfold file_record, session_file_checks.
    destruct (market_session_files db !! d) as [f|] eqn:Hd; [|simpl; by rewrite !(proj2 (Z.ltb_ge _ _)) by lia].
    specialize (Hf d f Hd). unfold session_file_checks in Hf.
    repeat case_match; simpl; try done; by rewrite !(proj2 (Z.ltb_ge _ _)) by lia.
Qed.

Lemma store_day_ok db rows d now universe db' rep codes :
  market_ok TEHRAN db → d < settled_cutoff TEHRAN now →
  store_day db rows d now universe = Ok (db', (rep, codes)) → market_ok TEHRAN db'.
Proof.
  intros [Mir Mi Mic Mich Mv Mf Mfc Ms Msh Msf Msn Mb] Hd (sessions&pending&after&files&_&_&_&Hfk&Hins&_&Hfiles&->)%store_day_Ok.
  constructor; simpl; try done; [|by apply Hfiles]. apply map_Forall_insert_2; [|done].
  eapply bulk_insert_Forall; [exact Hins| |].
  - unfold rows_of. destruct (market_share_sessions db !! d) as [rs|] eqn:Hrs; [by apply Ms|].
    apply map_Forall_empty.
  - intros c v ([c' s]&[= -> ->]&Hin)%list_elem_of_fmap Hc. split; [by apply (Hfk _ Hin)|by split].
Qed.

Lemma ingest_day_ok db payload d now universe db' rep :
  market_ok TEHRAN db → ingest_day_file TEHRAN db payload d now universe = Ok (db', rep) →
  market_ok TEHRAN db'.
Proof.
  intros Hok H. unfold ingest_day_file in H. apply bind_Ok in H as (u&Hd&H).
  apply raise_if_Ok, Z.leb_gt in Hd. apply bind_Ok in H as (rows&_&H). destruct rep as [rep codes].
  by eapply store_day_ok.
Qed.

Lemma refresh_ok db codes now : market_ok TEHRAN db → market_ok TEHRAN (refresh_session_coverage db codes now).1.
Proof.
  intros [Mir Mi Mic Mich Mv Mf Mfc Ms Msh Msf Msn Mb]. set (t := market_shares (refresh_session_coverage db codes now).1).
  assert (∀ c, match t !! c with
               | Some s => ∃ old, market_shares db !! c = Some old ∧ share_row_checks s = share_row_checks old
                   ∧ (flow_first_date s, flow_last_date s, flow_count s)
                     = (flow_first_date old, flow_last_date old, flow_count old)
               | None => market_shares db !! c = None
               end) as Ht.
  { unfold t, refresh_session_coverage. cbn [fst market_shares set_shares].
    induction (sort_strings (elements codes)) as [|k l IH] using rev_ind; intros c; simpl.
    - destruct (market_shares db !! c) as [old|]; [by exists old|done].
    - rewrite foldl_app. simpl. set (t' := foldl _ _ l) in *. destruct (decide (k = c)) as [->|Hne].
      + rewrite lookup_alter_eq. specialize (IH c). by destruct (t' !! c).
      + rewrite lookup_alter_ne by done. apply IH. }
  constructor; simpl; fold t; try done.
  - intros c rows Hrows. destruct (Mf c rows Hrows) as [[s Hs] ?]. split; [|done].
    specialize (Ht c). change (is_Some (t !! c)). destruct (t !! c); [by eexists|congruence].
  - intros c s Hs. specialize (Ht c). change (t !! c = Some s) in Hs. rewrite Hs in Ht.
    destruct Ht as (old&Hold&_&->). by apply Mfc.
  - intros d rows Hrows c s Hs. destruct (Ms d rows Hrows c s Hs) as [[x Hx] ?]. split; [|done].
    specialize (Ht c). change (is_Some (t !! c)). destruct (t !! c); [by eexists|congruence].
  - intros c s Hs. specialize (Ht c). change (t !! c = Some s) in Hs. rewrite Hs in Ht.
    destruct Ht as (old&Hold&->&_). by apply (Msh _ _ Hold).
Qed.

Lemma session_rows_elem universe rows sessions invalid code s :
  session_rows universe rows = Ok (sessions, invalid) →
  (code, s) ∈ sessions ↔ ∃ raw, (code, raw) ∈ rows ∧ code ∈ universe ∧ parse_session_row raw = Ok s.
Proof.
  revert sessions invalid. induction rows as [|[c raw] rows IH]; intros sessions invalid; simpl.
  - intros [= <- <-]. split; [intros H; by apply elem_of_nil in H|].
    intros (raw&H&_). by apply elem_of_nil in H.
  - case_bool_decide as Hc; simpl.
    + destruct (parse_session_row raw) as [x|e] eqn:Hx.
      * intros ([ss inv]&Hr&[= <- <-])%bind_Ok. simpl. rewrite elem_of_cons, (IH _ _ Hr). split.
        -- intros [[= -> ->]|(raw'&?&?&?)]; [exists raw; split; [by left|done]|].
           exists raw'. split; [by right|done].
        -- intros (raw'&[[= -> ->]|Hin]%elem_of_cons&Hu&Hp); [left; congruence|right; by exists raw'].
      * intros Hres. assert (∃ ss inv, session_rows universe rows = Ok (ss, inv) ∧ sessions = ss) as (ss&inv&Hr&->).
        { destruct e; try (apply bind_Ok in Hres as ([ss inv]&Hr&[= <- _]); by exists ss, inv). done. }
        rewrite (IH _ _ Hr). split.
        -- intros (raw'&?&?&?). exists raw'. split; [by right|done].
        -- intros (raw'&[[= -> ->]|Hin]%elem_of_cons&Hu&Hp); [congruence|by exists raw'].
    + intros Hr. rewrite (IH _ _ Hr). split.
      * intros (raw'&?&?&?). exists raw'. split; [by right|done].
      * intros (raw'&[[= -> ->]|Hin]%elem_of_cons&Hu&Hp); [done|by exists raw'].
Qed.

(** A day file writes one settled session and nothing else.  After it: the rows
    the day had are unchanged; every new row is a share of the universe, listed in
    the share table, with the values its row of the file says; every row of the
    file that belongs to the universe and parses is stored; no other day changed;
    and where at least five shares could be checked against their stored money
    flow, at least half agreed on the value traded. *)
Theorem day_file_stored db payload d now universe db' rep codes :
  ingest_day_file TEHRAN db payload d now (Some universe) = Ok (db', (rep, codes)) →
  d < settled_cutoff TEHRAN now
  ∧ ∃ rows, parse_day_file payload = Ok rows
  ∧ let before := rows_of d (market_share_sessions db) ∅ in
    let after := rows_of d (market_share_sessions db') ∅ in
    (∀ c v, before !! c = Some v → after !! c = Some v)
    ∧ (∀ c v, after !! c = Some v → before !! c = None →
         c ∈ universe ∧ c ∈ codes ∧ is_Some (market_shares db !! c) ∧ v.2 = now
         ∧ ∃ raw s, (c, raw) ∈ rows ∧ parse_session_row raw = Ok s ∧ v.1 = store_session s)
    ∧ (∀ c raw, (c, raw) ∈ rows → c ∈ universe → is_ok (parse_session_row raw) = true →
         is_Some (after !! c))
    ∧ (∀ d', d' ≠ d → market_share_sessions db' !! d' = market_share_sessions db !! d')
    ∧ (dc_compared (dr_check rep) < 5
       ∨ dc_compared (dr_check rep) ≤ dc_agreed (dr_check rep) * 2).
Proof.
  intros H. unfold ingest_day_file in H. apply bind_Ok in H as (u&Hd&H).
  apply raise_if_Ok, Z.leb_gt in Hd. apply bind_Ok in H as (rows&Hrows%lift_parse_Ok&H). split; [done|].
  exists rows. split; [done|]. simpl in H.
  apply store_day_Ok in H as (sessions&pending&after&files&Hs&Hc&Hpend&Hfk&Hins&->&_&->).
  cbn [market_share_sessions set_session_files set_sessions]. rewrite rows_of_insert. cbv zeta.
  set (before := rows_of d (market_share_sessions db) ∅) in *.
  apply bulk_insert_spec in Hins as [_ ->]. split_and!.
  - intros c v Hv. by rewrite lookup_union, Hv, union_Some_l.
  - intros c v Hv Hb. apply lookup_union_Some_raw in Hv as [Hv|[_ Hv]]; [congruence|].
    apply elem_of_list_to_map_2, list_elem_of_fmap in Hv as ([c' s]&[= -> ->]&Hin).
    pose proof Hin as [Hin' _]%Hpend. apply (session_rows_elem _ _ _ _ _ _ Hs) in Hin' as (raw&Hr&Hu&Hp).
    split_and!; [done|by apply (list_elem_of_fmap_2 fst) in Hin|by apply (Hfk _ Hin)|done|].
    by exists raw, s.
  - intros c raw Hr Hu Hok. destruct (parse_session_row raw) as [s|] eqn:Hp; [|done].
    assert ((c, s) ∈ sessions) as Hin by (apply (session_rows_elem _ _ _ _ _ _ Hs); by exists raw).
    rewrite lookup_union. destruct (before !! c) eqn:Hb; [rewrite union_Some_l; by eexists|].
    rewrite (left_id_L None (∪)).
    destruct ((list_to_map _ : gmap string (SessionRow * instant)) !! c) eqn:Hl; [by eexists|].
    apply not_elem_of_list_to_map_2 in Hl. destruct Hl. rewrite <-list_fmap_compose.
    apply list_elem_of_fmap. exists (c, s). split; [done|]. by apply Hpend.
  - intros d' Hne. by rewrite lookup_insert_ne.
  - unfold _date_check in Hc. apply bind_Ok in Hc as (vs&_&Hc). apply bind_Ok in Hc as (u'&Hc'&[= <-]).
    apply raise_if_Ok in Hc'. unfold DATE_CHECK_MIN in Hc'. simpl.
    apply andb_false_iff in Hc' as [Hc'%Z.leb_gt|Hc'%Z.ltb_ge]; [by left|by right].
Qed.

(** ** A call keeps the tables, and counts its entries *)
Context (realpath : string → string).

Lemma run_flow_ok disk now st entry :
  market_ok TEHRAN st.1 → market_ok TEHRAN (run_flow repr TEHRAN disk now st entry).1.
Proof.
  intros Hok. unfold run_flow. destruct (_ ≫= _) as [[db f]|e] eqn:H; [|done].
  apply bind_Ok in H as (p&_&H). simpl. by eapply ingest_flows_ok.
Qed.

Lemma run_day_ok disk universe now st entry :
  market_ok TEHRAN st.1.1 → market_ok TEHRAN (run_day TEHRAN disk universe now st entry).1.1.
Proof.
  destruct st as [[db r] affected]. simpl. intros Hok.
  destruct (_ ≫= _) as [[db' [v codes]]|e] eqn:H; [|done].
  apply bind_Ok in H as (p&_&H). simpl. by eapply ingest_day_ok.
Qed.

Lemma foldl_keeps {A X} (P : A → Prop) (f : A → X → A) xs a :
  (∀ a x, P a → P (f a x)) → P a → P (foldl f a xs).
Proof. intros Hf. revert a. induction xs as [|x xs IH]; intros a Ha; simpl; [done|]. by apply IH, Hf. Qed.

(** A call on a manifest keeps the tables well-formed, whatever the part, the
    chunk and the files: every committed item leaves every constraint true and
    every coverage column exact, a failed one leaves the tables as they were, and
    the refresh of the session coverage breaks none of it. *)
Theorem share_call_preserves disk db directory name p offset limit now :
  market_ok TEHRAN db →
  market_ok TEHRAN (ingest_share_manifest repr fold_name fold_symbol TEHRAN realpath disk db
                      directory name p offset limit now).1.
Proof.
  intros Hok. unfold ingest_share_manifest. case_match; [done|]. case_match; [|done].
  destruct p; [destruct (market_watch a); [|done]|case_match; [done|]|case_match; [done|]].
  - unfold run_universe. destruct (static_names _ _ _ _) as [names r].
    destruct (_ ≫= _) as [[db' u]|e] eqn:H'; [|done].
    apply bind_Ok in H' as (q&_&H'). simpl. by eapply ingest_universe_ok.
  - pose proof (foldl_keeps (λ st, market_ok TEHRAN st.1) (run_flow repr TEHRAN disk now)
      (chunk (flows a) offset limit) (db, empty_share_report)) as Hf.
    destruct (foldl _ _ _) as [db' r]. apply Hf; [by intros ? ? ?; apply run_flow_ok|done].
  - pose proof (foldl_keeps (λ st, market_ok TEHRAN st.1.1) (run_day TEHRAN disk (dom (market_shares db)) now)
      (chunk (days a) offset limit) (db, empty_share_report, ∅)) as Hf.
    destruct (foldl _ _ _) as [[db' r] affected].
    apply (refresh_ok db' affected now), Hf; [by intros ? ? ?; apply run_day_ok|done].
Qed.

(** Entries counted: succeeded or failed, each once. *)
Definition counted (r : ShareReport) : Z := sp_succeeded r + sp_failed r.

Lemma counted_flow disk now st entry :
  counted (run_flow repr TEHRAN disk now st entry).2 = counted st.2 + 1.
Proof. unfold run_flow, counted. destruct (_ ≫= _) as [[db f]|e]; simpl; lia. Qed.

Lemma counted_day disk universe now st entry :
  counted (run_day TEHRAN disk universe now st entry).1.2 = counted st.1.2 + 1.
Proof.
  destruct st as [[db r] affected]. unfold run_day, counted.
  destruct (_ ≫= _) as [[db' [v codes]]|e]; simpl; lia.
Qed.

Lemma foldl_counts {A X} (m : A → Z) (f : A → X → A) xs a :
  (∀ a x, m (f a x) = m a + 1) → m (foldl f a xs) = m a + Z.of_nat (length xs).
Proof.
  intros Hf. revert a. induction xs as [|x xs IH]; intros a; simpl; [lia|]. rewrite IH, Hf. lia.
Qed.

(** The number of entries of a part, and of one chunk of it. *)
Definition part_length (m : ShareManifest) (p : part) : Z :=
  match p with
  | universe_part => 1
  | flows_part => Z.of_nat (length (flows m))
  | sessions_part => Z.of_nat (length (days m))
  end.

Lemma chunk_length {A} (entries : list A) offset limit :
  0 ≤ offset ≤ Z.of_nat (length entries) → 0 ≤ limit →
  Z.of_nat (length (chunk entries offset limit)) = Z.min limit (Z.of_nat (length entries) - offset).
Proof. intros. unfold chunk. rewrite length_take, length_drop. lia. Qed.

Lemma next_of_spec {A} (entries : list A) offset limit :
  0 ≤ offset < Z.of_nat (length entries) → 1 ≤ limit →
  next_of entries offset limit
  = if offset + limit <? Z.of_nat (length entries) then Some (offset + limit) else None.
Proof.
  intros. unfold next_of. rewrite chunk_length by lia.
  destruct (Z.ltb_spec (offset + limit) (Z.of_nat (length entries))).
  - rewrite Z.min_l by lia. by rewrite (proj2 (Z.ltb_lt _ _)) by lia.
  - rewrite Z.min_r by lia. by rewrite (proj2 (Z.ltb_ge _ _)) by lia.
Qed.

(** What a valid call on flows or sessions answers. *)
Lemma call_answers disk db directory p offset limit now m :
  p ≠ universe_part → load_manifest realpath disk directory MANIFEST_NAME = Ok m →
  0 ≤ offset < part_length m p → 1 ≤ limit ≤ MAX_CHUNK →
  ∃ db' r, ingest_share_manifest repr fold_name fold_symbol TEHRAN realpath disk db directory
             MANIFEST_NAME p offset limit now = (db', answer_of r)
  ∧ counted r = Z.min limit (part_length m p - offset)
  ∧ next_offset r = if offset + limit <? part_length m p then Some (offset + limit) else None.
Proof.
  intros Hp Hm Ho Hl. unfold ingest_share_manifest. rewrite Hm.
  replace (offset <? 0) with false by lia. replace (negb _) with false by lia. simpl orb. cbv iota.
  destruct p; [done| |]; simpl part_length in *; cbv iota.
  - replace (Z.of_nat (length (flows m)) <=? offset) with false by lia.
    pose proof (foldl_counts (λ st, counted st.2) (run_flow repr TEHRAN disk now)
      (chunk (flows m) offset limit) (db, empty_share_report) (counted_flow disk now)) as Hc.
    destruct (foldl _ _ _) as [db' r]. eexists _, _. split; [reflexivity|]. simpl in Hc.
    unfold concluded, counted in *. cbn [sp_succeeded sp_failed next_offset]. rewrite Hc.
    rewrite chunk_length, next_of_spec by lia. by split.
  - replace (Z.of_nat (length (days m)) <=? offset) with false by lia.
    pose proof (foldl_counts (λ st, counted st.1.2) (run_day TEHRAN disk (dom (market_shares db)) now)
      (chunk (days m) offset limit) (db, empty_share_report, ∅) (counted_day disk _ now)) as Hc.
    destruct (foldl _ _ _) as [[db' r] affected]. destruct (refresh_session_coverage _ _ _) as [db2 n].
    eexists _, _. split; [reflexivity|]. simpl in Hc.
    unfold concluded, counted in *. cbn [sp_succeeded sp_failed next_offset]. rewrite Hc.
    rewrite chunk_length, next_of_spec by lia. by split.
Qed.

Lemma answer_report_of r : answer_report (answer_of r) = Some r.
Proof. unfold answer_of. by destruct (sp_succeeded r =? 0). Qed.

(** The offsets a walk asks for: the multiples of the limit, from the start on. *)
Fixpoint offsets (n : nat) (from limit : Z) : list Z :=
  match n with O => [] | S n => from :: offsets n (from + limit) limit end.

Definition answered_entries (total limit : Z) (calls : list (Z * bool)) : Z :=
  foldr (λ c n, (if c.2 : bool then Z.min limit (total - c.1) else 0) + n) 0 calls.

Lemma answered_app total limit c1 c2 :
  answered_entries total limit (c1 ++ c2) = answered_entries total limit c1 + answered_entries total limit c2.
Proof. unfold answered_entries. induction c1 as [|c c1 IH]; simpl; [done|]. rewrite IH. lia. Qed.

Lemma walk_one disk directory p total limit now lost st m :
  p ≠ universe_part → load_manifest realpath disk directory MANIFEST_NAME = Ok m →
  total = part_length m p → 1 ≤ limit ≤ MAX_CHUNK → 0 ≤ w_offset st < total →
  let st' := walk_step repr fold_name fold_symbol TEHRAN realpath disk directory p total limit now lost st in
  ∃ b, w_calls st' = w_calls st ++ [(w_offset st, b)]
  ∧ (w_offset st' = w_offset st + limit ∨ w_offset st' = total ∧ total ≤ w_offset st + limit)
  ∧ w_succeeded st' + w_failed st'
    = w_succeeded st + w_failed st + answered_entries total limit [(w_offset st, b)].
Proof.
  intros Hp Hm -> Hl Ho st'. subst st'. unfold walk_step.
  destruct (call_answers disk (w_db st) directory p (w_offset st) limit now m Hp Hm Ho Hl) as (db'&r&->&Hc&Hn).
  destruct (lost _) as [served|]; [|rewrite answer_report_of]; unfold answered_entries; simpl.
  - exists false. split_and!; [done|by left|lia].
  - exists true. split_and!; [done| |unfold counted in Hc; lia]. rewrite Hn.
    destruct (Z.ltb_spec (w_offset st + limit) (part_length m p)); [|right; split; [done|lia]].
    replace (w_offset st <? w_offset st + limit) with true by lia. by left.
Qed.

Lemma walk_total fuel disk directory p total limit now lost st m :
  p ≠ universe_part → load_manifest realpath disk directory MANIFEST_NAME = Ok m →
  total = part_length m p → 1 ≤ limit ≤ MAX_CHUNK → 0 ≤ w_offset st → total - w_offset st ≤ Z.of_nat fuel →
  ∃ st' calls,
    walk repr fold_name fold_symbol TEHRAN realpath fuel disk directory p total limit now lost st = Some st'
    ∧ w_calls st' = w_calls st ++ calls
    ∧ calls.*1 = offsets (length calls) (w_offset st) limit
    ∧ total ≤ w_offset st + limit * Z.of_nat (length calls)
    ∧ (0 < Z.of_nat (length calls) → w_offset st + limit * (Z.of_nat (length calls) - 1) < total)
    ∧ w_succeeded st' + w_failed st' = w_succeeded st + w_failed st + answered_entries total limit calls.
Proof.
  intros Hp Hm Ht Hl. revert st. induction fuel as [|fuel IH]; intros st Ho Hf; simpl.
  - rewrite (proj2 (Z.leb_le _ _)) by lia. exists st, []. rewrite app_nil_r.
    split_and!; [done..|lia|done|unfold answered_entries; simpl; lia].
  - destruct (Z.leb_spec total (w_offset st)).
    { exists st, []. rewrite app_nil_r. split_and!; [done..|simpl; lia|done|unfold answered_entries; simpl; lia]. }
    destruct (walk_one disk directory p total limit now lost st m Hp Hm Ht Hl) as (b&Hc&Hno&Hs); [lia|].
    set (st1 := walk_step _ _ _ _ _ _ _ _ _ _ _ _ _) in *.
    destruct (IH st1) as (st'&calls&->&Hcalls&Hoff&Hcov&Hlast&Hsum); [lia|lia|].
    exists st', ((w_offset st, b) :: calls). split; [done|].
    split; [by rewrite Hcalls, Hc, <-app_assoc|]. cbn [length]. rewrite Nat2Z.inj_succ.
    assert (answered_entries total limit ((w_offset st, b) :: calls)
      = answered_entries total limit [(w_offset st, b)] + answered_entries total limit calls) as ->
      by (by rewrite <-answered_app).
    destruct Hno as [Hno|[Hno Hend]].
    + rewrite Hno in *. split_and!; [by csimpl; rewrite Hoff|lia| |lia].
      intros _. destruct calls as [|c calls]; [simpl; lia|]. cbn [length] in *.
      specialize (Hlast ltac:(lia)). lia.
    + assert (calls = []) as ->.
      { destruct calls; [done|]. rewrite Hno in Hlast. cbn [length] in Hlast. specialize (Hlast ltac:(lia)). nia. }
      split_and!; [done|simpl; lia|simpl; lia|]. unfold answered_entries in Hsum at 1. simpl in Hsum. 
      change (answered_entries total limit []) with 0. lia.
Qed.

Lemma chunks_join {A} (entries : list A) n from limit :
  0 ≤ from → 0 ≤ limit →
  mjoin ((λ o, chunk entries o limit) <$> offsets n from limit)
  = take (n * Z.to_nat limit) (drop (Z.to_nat from) entries).
Proof.
  revert from. induction n as [|n IH]; intros from Hf Hl; simpl; [by rewrite take_0|].
  rewrite IH by lia. unfold chunk. rewrite Z2Nat.inj_add by lia.
  rewrite <-drop_drop. by rewrite take_take_drop.
Qed.

(** C26. Walking a manifest ends and reaches everything.  Whatever calls fail on the
    way, and whether or not the service had done their work, the walk over flows
    or sessions stops within as many steps as there are entries, after exactly
    the calls it takes to go through them by the chunk; the chunks asked for, put
    together, are the manifest's entries, each once and in order; and every entry
    of a chunk that was answered is counted, as succeeded or as failed. *)
Theorem walk_covers disk db directory p limit now lost m total :
  p ≠ universe_part → load_manifest realpath disk directory MANIFEST_NAME = Ok m →
  total = part_length m p → 1 ≤ limit ≤ MAX_CHUNK →
  ∃ st, _ingest_chunks repr fold_name fold_symbol TEHRAN realpath (Z.to_nat total) disk db directory p
          total limit now lost = Some st
  ∧ total ≤ limit * Z.of_nat (length (w_calls st)) < total + limit
  ∧ (∀ A (entries : list A), Z.of_nat (length entries) = total →
       mjoin ((λ c, chunk entries c.1 limit) <$> w_calls st) = entries)
  ∧ w_succeeded st + w_failed st = answered_entries total limit (w_calls st).
Proof.
  intros Hp Hm Ht Hl. assert (0 ≤ total) as H0 by (destruct p; simpl in Ht; lia).
  destruct (walk_total (Z.to_nat total) disk directory p total limit now lost
    {| w_db := db; w_succeeded := 0; w_failed := 0; w_calls := []; w_offset := 0 |} m)
    as (st&calls&Hst&Hcalls&Hoff&Hcov&Hlast&Hsum); try done; [simpl; lia|].
  simpl in *. exists st. rewrite Hcalls in *. split_and!; [done|lia| | |lia].
  - destruct (decide (0 < Z.of_nat (length calls))) as [Hpos|]; [specialize (Hlast Hpos); lia|lia].
  - intros A entries Hlen. replace ((λ c : Z * bool, chunk entries c.1 limit) <$> calls)
      with ((λ o, chunk entries o limit) <$> calls.*1) by (by rewrite <-list_fmap_compose).
    rewrite Hoff, chunks_join by lia. simpl. apply take_ge. nia.
Qed.
End Sound.

(** ** A concrete run *)
Definition demo_universe_run : result ingest_error (MarketDB * UniverseReport) :=
  ingest_universe no_repr demo_fold demo_fold demo_db demo_watch_payload None demo_now.

Definition the_universe_report : UniverseReport :=
  match demo_universe_run with
  | Ok x => x.2
  | Err _ => {| un_rows_total := 0; un_shares := 0; un_inserted := 0; un_renamed := [];
                un_resectored := []; un_relisted := 0; un_delisted := []; un_kept_traded := 0;
                un_unknown_sector := []; un_sectors := None |}
  end.

Definition universe_db : MarketDB := or_db demo_universe_run.

Example demo_universe_is :
  (un_shares the_universe_report, un_inserted the_universe_report, un_delisted the_universe_report,
   un_unknown_sector the_universe_report)
  = (2, 2, ["7745894403636165"], ["27"; EmptyString]).
Proof. vm_compute. reflexivity. Qed.


Lemma universe_guarded_witness :
  let was := (List.filter (λ x : string * Share, listed x.2) (map_to_list (market_shares demo_db))).*1 in
  let gone := un_delisted the_universe_report in
  Z.of_nat (length gone) < 50 ∨ 2 * Z.of_nat (length gone) ≤ Z.of_nat (length was).
Proof.
  pose proof (universe_guarded no_repr demo_fold demo_fold demo_db demo_watch_payload None demo_now
    universe_db the_universe_report) as H.
  destruct H as [H _]; [vm_compute; reflexivity|]. exact H.
Defined.

(** Sixty of a hundred listed shares absent: refused. *)
Definition crowd : gmap string Share :=
  list_to_map ((λ n, (str_of_Z n, demo_share)) <$> seqZ 1000 100).

Example truncated_watch_refused :
  guard_universe (depart crowd (list_to_set (str_of_Z <$> seqZ 1000 40)) ∅)
  = Err (WouldDelist None 60 100).
Proof. vm_compute. reflexivity. Qed.

Definition demo_day_payload : json := JObj
  [(DAY_FILE_FIELD, JArr [demo_session (JInt 46348559193224090) (JInt 4200) (JInt 0);
                          demo_session (JStr "22") (JInt 0) (JInt 4);
                          demo_session (JStr "33") (JInt 9) (JInt 4)])].

Definition demo_day_run : result ingest_error (MarketDB * (DayReport * list string)) :=
  ingest_day_file demo_zone universe_db demo_day_payload (ordinal 2024 1 9) demo_now
    (Some (dom (market_shares universe_db))).

Definition the_day_report : DayReport * list string :=
  match demo_day_run with
  | Ok x => x.2
  | Err _ => ({| dr_date := 0; dr_total := 0; dr_shares := 0; dr_inserted := 0; dr_existing := 0;
                 dr_restated := []; dr_invalid := []; dr_file := unchanged_;
                 dr_check := {| dc_compared := 0; dc_agreed := 0; dc_status := unchecked |} |}, [])
  end.

Example demo_day_is :
  (dr_total the_day_report.1, dr_shares the_day_report.1, dr_inserted the_day_report.1,
   (dr_invalid the_day_report.1).*1, the_day_report.2)
  = (3, 1, 1, ["22"], ["46348559193224090"]).
Proof. vm_compute. reflexivity. Qed.

Lemma day_file_stored_witness :
  ordinal 2024 1 9 < settled_cutoff demo_zone demo_now
  ∧ ∃ rows, parse_day_file demo_day_payload = Ok rows.
Proof.
  destruct (day_file_stored demo_zone universe_db demo_day_payload (ordinal 2024 1 9) demo_now
    (dom (market_shares universe_db)) (or_db demo_day_run) the_day_report.1 the_day_report.2)
    as (H1&rows&H2&_); [vm_compute; reflexivity|]. split; [exact H1|]. exists rows. exact H2.
Defined.

(** A manifest of three day files, walked by two with the second call lost. *)
Definition demo_manifest : json := JObj
  [("version", JInt 1);
   ("days", JArr [JStr "day-20240107.json"; JStr "day-20240108.json"; JStr "day-20240109.json"])].

Definition share_disk (path : string) : option file :=
  if String.eqb path "/d/manifest.json" then Some {| f_size := 900; f_json := Some demo_manifest |}
  else Some {| f_size := 900; f_json := Some demo_day_payload |}.

Definition demo_lost (n : nat) : option bool := if (n =? 1)%nat then Some false else None.

Definition the_manifest : ShareManifest :=
  match load_manifest id share_disk "/d" MANIFEST_NAME with
  | Ok m => m
  | Err _ => {| base := EmptyString; market_watch := None; static_data := None; flows := []; days := [] |}
  end.

Example the_manifest_days : (days the_manifest).*1 = [ordinal 2024 1 7; ordinal 2024 1 8; ordinal 2024 1 9].
Proof. vm_compute. reflexivity. Qed.

Lemma walk_covers_witness :
  ∃ st, _ingest_chunks no_repr demo_fold demo_fold demo_zone id (Z.to_nat 3) share_disk universe_db "/d"
          sessions_part 3 2 demo_now demo_lost = Some st
  ∧ 3 ≤ 2 * Z.of_nat (length (w_calls st)) < 3 + 2
  ∧ (∀ A (entries : list A), Z.of_nat (length entries) = 3 →
       mjoin ((λ c, chunk entries c.1 2) <$> w_calls st) = entries)
  ∧ w_succeeded st + w_failed st = answered_entries 3 2 (w_calls st).
Proof.
  apply (walk_covers no_repr demo_fold demo_fold demo_zone id share_disk universe_db "/d" sessions_part 2
    demo_now demo_lost the_manifest 3); [discriminate|vm_compute; reflexivity|vm_compute; reflexivity|].
  unfold MAX_CHUNK. lia.
Defined.

Lemma share_call_preserves_witness :
  market_ok demo_zone (ingest_share_manifest no_repr demo_fold demo_fold demo_zone id share_disk demo_db
    "/d" MANIFEST_NAME sessions_part 0 2 demo_now).1.
Proof.
  apply (share_call_preserves no_repr demo_fold demo_fold demo_zone id share_disk demo_db "/d"
    MANIFEST_NAME sessions_part 0 2 demo_now).
  exact demo_db_ok.
Defined.
