(* ===== verification/EquityIngest.v ===== *)
(** * Ingesting equity bars

    [app/equities/ingest.py] and the equity tables of [app/db.py] (migrations 0028
    and 0032): the bars as they were served, every other statement of them a copy
    served, the corporate actions the stored bars imply, and the verdict of the gate,
    a row per symbol that the read side obeys.

    One payload is one transaction: a refusal before it commits returns the tables it
    started from.  What follows the commit only reads, but can still raise; the tables
    stay written then, and the run counts the file as failed.  One ingest of a symbol
    runs at a time here, so the count of raced bars is computed and is zero.

    What a NUMERIC column makes of a number, and what its CHECKs say of one that is
    not finite, is the database's: [numeric] and [NumericOrder].  PostgreSQL orders
    NaN above every number, SQLite stores it as NULL and so refuses it in a column
    that must hold a value. *)
From S2P Require Import Prelude PyFloat PyTime PyText PyJson Numeric BourseDB BourseIngest EquityAdjust.
Local Open Scope string_scope.
Local Open Scope list_scope.
Local Open Scope Z_scope.

Definition ADJUSTMENT_VERSION : string := "priceYesterday-chain-v1".
Definition MIN_PLAUSIBLE_BYTES : Z := 1000.

Definition _close_enough (left right : float) : bool :=
  let scale := fmax (fmax (fabs left) (fabs right)) fone in
  fle (fabs (fsub left right)) (fmul (flit 1 12) scale).

(** What numbers can rely on: a column reads back a float; a finite float is stored,
    compared as a number, and reads back so nearly the same that [_close_enough] cannot
    tell. *)
Class NumericOrderLaws `{NF : !NumericFloat} (NO : @NumericOrder NF) : Prop := {
  numeric_valid x : valid_float (numeric x) = true;
  num_le_finite x y : is_finite x = true → is_finite y = true → num_le x y = fle x y;
  numeric_close x :
    valid_float x = true → is_finite x = true → _close_enough (numeric x) x = true;
}.

(** ** Rows *)

(** [equity_bars], but for its key *)
Record BarRow : Set := {
  br_open : float;
  br_high : float;
  br_low : float;
  br_close : float;
  br_final_close : float;
  br_price_yesterday : float;
  br_volume : Z;
  br_trade_count : Z;
  br_value : float;
  br_collected_at : instant;
}.

(** [equity_bar_alternatives], but for the instrument *)
Record AltRow : Set := {
  al_trade_date : date;
  al_final_close : float;
  al_price_yesterday : float;
  al_volume : Z;
  al_first_seen_at : instant;
}.

(** [corporate_actions], but for its key *)
Record ActionRow : Set := {
  ac_prev_trade_date : date;
  ac_prev_close : float;
  ac_price_yesterday : float;
  ac_kind : EquityAdjust.kind;
  ac_restated_close : option float;
  ac_ratio : float;
  ac_cumulative_factor : float;
  ac_detected_at : instant;
}.

(** [equity_adjustments], but for its key *)
Record VerdictRow : Set := {
  vr_status : status;
  vr_actions_applied : Z;
  vr_bars_total : Z;
  vr_pre_listing_bars : Z;
  vr_sessions_checked : Z;
  vr_worst_return : option float;
  vr_worst_return_date : option date;
  vr_reopenings : Z;
  vr_max_session_return : float;
  vr_max_reopening_return : float;
  vr_session_gap_days : Z;
  vr_first_bar : option date;
  vr_last_bar : option date;
  vr_refusal_reason : list refusal;
  vr_computed_at : instant;
}.

(** [equity_instruments], but for its key: the roster and its coverage *)
Record Instrument : Set := {
  in_symbol_fa : string;
  in_name_fa : string;
  in_market : string;
  in_board : string;
  in_sector_code : string;
  in_sector_fa : string;
  in_isin : string;
  in_instrument_code : option string;
  in_enabled : bool;
  in_notes : string;
  in_first_bar : option date;
  in_last_bar : option date;
  in_bar_count : Z;
  in_updated_at : instant;
}.

Record EquityDB : Set := {
  equity_instruments : gmap string Instrument;
  equity_bars : gmap string (gmap date BarRow);
  equity_bar_alternatives : gmap string (list AltRow);
  corporate_actions : gmap (string * string) (gmap date ActionRow);
  equity_adjustments : gmap (string * string) VerdictRow;
}.

(** What an ingest raises: the parser's and adjuster's refusals, its own, the file's,
    a failed constraint, and what the interpreter raises. *)
Inductive equity_error : Set :=
| OfBars (e : bar_error)
| NotInRoster (code : string)
| ContradictsStore (code : string) (restated compared : Z) (newest : bool)
| JoinsRestatedClose (code : string) (day before : date)
| ActionsDisagree (code : string) (found : list (date * float * float))
| ConstraintFailed
| IntegerOutOfRange
| NoPayload (path : string)
| TooSmallPayload (path : string) (size : Z)
| NotJsonPayload (path : string)
| Escaped (e : pyerr).

Definition of_bars {A} (m : result bar_error A) : result equity_error A :=
  match m with Ok a => Ok a | Err e => Err (OfBars e) end.

Definition of_python {A} (m : result pyerr A) : result equity_error A :=
  match m with Ok a => Ok a | Err e => Err (Escaped e) end.

Section Ingest.
Context `{NF : !NumericFloat} `{NO : !NumericOrder} (repr : json → string).

(** ** Constraints *)
Definition num_positive (x : float) : bool := storable x && negb (num_le (numeric x) fzero).
Definition num_nonneg (x : float) : bool := storable x && num_le fzero (numeric x).
Definition num_eq (x y : float) : bool := num_le x y && num_le y x.
Definition in_int8 (n : Z) : bool := (- 2 ^ 63 <=? n) && (n <=? INT8_MAX).

Definition equity_bar_checks (b : Bar) : result equity_error () :=
  _ ← raise_if (negb (in_int8 (volume b) && in_int8 (trade_count b))) IntegerOutOfRange;
  raise_if (negb (num_positive (final_close b) && num_nonneg (price_yesterday b)
                  && (0 <=? volume b) && (0 <=? trade_count b) && num_nonneg (b_value b)
                  && num_le (numeric (b_low b)) (numeric (b_high b))
                  && num_nonneg (b_open b) && num_nonneg (b_high b) && num_nonneg (b_low b)
                  && num_nonneg (b_close b))) ConstraintFailed.

Definition alternative_checks (b : Bar) : result equity_error () :=
  _ ← raise_if (negb (in_int8 (volume b))) IntegerOutOfRange;
  raise_if (negb (num_positive (final_close b) && num_nonneg (price_yesterday b)
                  && (0 <=? volume b))) ConstraintFailed.

Definition evidence_ok (k : EquityAdjust.kind) (restated : option float) : bool :=
  match k, restated with
  | reference_restated, None => true
  | close_restated, Some c => num_positive c
  | _, _ => false
  end.

Definition action_checks (a : CorporateAction) : result equity_error () :=
  raise_if (negb (num_positive (prev_close a) && num_positive (act_price_yesterday a)
                  && num_positive (ratio a) && num_positive (cumulative_factor a)
                  && evidence_ok (act_kind a) (restated_close a)
                  && (prev_trade_date a <? effective_date a))) ConstraintFailed.

Definition verdict_checks (r : VerdictRow) : result equity_error () :=
  raise_if match vr_status r, vr_refusal_reason r with
           | refused, [] => true
           | _, _ => false
           end ConstraintFailed.

(** [insert_ignore] into a table whose unique key is a date, row after row; the count is
    of those that went in. *)
Fixpoint insert_rows {X V} (checks : X → result equity_error ()) (key : X → date) (row : X → V)
    (t : gmap date V) (rows : list X) (n : Z) : result equity_error (gmap date V * Z) :=
  match rows with
  | [] => Ok (t, n)
  | x :: rows =>
      _ ← checks x;
      match t !! key x with
      | Some _ => insert_rows checks key row t rows n
      | None => insert_rows checks key row (<[key x := row x]> t) rows (n + 1)
      end
  end.

(** ** Writing one table *)
Definition set_bars (code : string) (t : gmap date BarRow) (db : EquityDB) : EquityDB :=
  Build_EquityDB (equity_instruments db) (<[code := t]> (equity_bars db))
    (equity_bar_alternatives db) (corporate_actions db) (equity_adjustments db).
Definition set_alternatives (code : string) (t : list AltRow) (db : EquityDB) : EquityDB :=
  Build_EquityDB (equity_instruments db) (equity_bars db)
    (<[code := t]> (equity_bar_alternatives db)) (corporate_actions db) (equity_adjustments db).
Definition set_actions (code : string) (t : gmap date ActionRow) (db : EquityDB) : EquityDB :=
  Build_EquityDB (equity_instruments db) (equity_bars db) (equity_bar_alternatives db)
    (<[(code, ADJUSTMENT_VERSION) := t]> (corporate_actions db)) (equity_adjustments db).
Definition set_verdict (code : string) (r : VerdictRow) (db : EquityDB) : EquityDB :=
  Build_EquityDB (equity_instruments db) (equity_bars db) (equity_bar_alternatives db)
    (corporate_actions db) (<[(code, ADJUSTMENT_VERSION) := r]> (equity_adjustments db)).
Definition set_instruments (t : gmap string Instrument) (db : EquityDB) : EquityDB :=
  Build_EquityDB t (equity_bars db) (equity_bar_alternatives db) (corporate_actions db)
    (equity_adjustments db).

Definition bars_of (db : EquityDB) (code : string) : gmap date BarRow :=
  rows_of code (equity_bars db) ∅.
Definition alternatives_of (db : EquityDB) (code : string) : list AltRow :=
  rows_of code (equity_bar_alternatives db) [].
Definition actions_of (db : EquityDB) (code : string) : gmap date ActionRow :=
  rows_of (code, ADJUSTMENT_VERSION) (corporate_actions db) ∅.

(** ** Bars *)
Definition bar_row (at_ : instant) (b : Bar) : BarRow :=
  {| br_open := numeric (b_open b); br_high := numeric (b_high b); br_low := numeric (b_low b);
     br_close := numeric (b_close b); br_final_close := numeric (final_close b);
     br_price_yesterday := numeric (price_yesterday b); br_volume := volume b;
     br_trade_count := trade_count b; br_value := numeric (b_value b); br_collected_at := at_ |}.

Definition alternative_row (at_ : instant) (b : Bar) : AltRow :=
  {| al_trade_date := trade_date b; al_final_close := numeric (final_close b);
     al_price_yesterday := numeric (price_yesterday b); al_volume := volume b;
     al_first_seen_at := at_ |}.

(** Does the payload state the stored bar differently? *)
Definition restates (r : BarRow) (b : Bar) : bool :=
  fne (br_final_close r) (final_close b) || fne (br_price_yesterday r) (price_yesterday b)
  || negb (br_volume r =? volume b).

Definition same_statement (r r' : AltRow) : bool :=
  (al_trade_date r =? al_trade_date r') && num_eq (al_final_close r) (al_final_close r')
  && num_eq (al_price_yesterday r) (al_price_yesterday r') && (al_volume r =? al_volume r').

Fixpoint insert_alternatives (at_ : instant) (t : list AltRow) (rows : list Bar) (n : Z)
    : result equity_error (list AltRow * Z) :=
  match rows with
  | [] => Ok (t, n)
  | b :: rows =>
      _ ← alternative_checks b;
      let r := alternative_row at_ b in
      if existsb (same_statement r) t then insert_alternatives at_ t rows n
      else insert_alternatives at_ (t ++ [r]) rows (n + 1)
  end.

Record BarsReport : Set := {
  bars_total : Z;
  bars_inserted : Z;
  bars_existing : Z;
  bars_restated : Z;
  restated_examples : list (BarRow * Bar);
  alternatives_recorded : Z;
  bars_raced : Z;
}.

Definition is_pending (stored : gmap date BarRow) (b : Bar) : bool :=
  match stored !! trade_date b with None => true | Some _ => false end.

(** A stored bar with the payload's different statement of it. *)
Definition restatement (stored : gmap date BarRow) (b : Bar) : option (BarRow * Bar) :=
  r ← stored !! trade_date b; if restates r b then Some (r, b) else None.

(** A new session that chains to the payload's own close of the stored bar before it.
    The last bar of a date is the one the payload states. *)
Definition joins_restated_close (stored : gmap date BarRow) (bars : list Bar) (join : date * date)
    : result equity_error bool :=
  let served : gmap date Bar := foldl (λ m b, <[trade_date b := b]> m) ∅ bars in
  match stored !! join.2, served !! join.1 with
  | Some before, Some new =>
      let kept := br_final_close before in
      let copy_close := match served !! join.2 with Some b => final_close b | None => kept end in
      Ok (fne copy_close kept && feq (price_yesterday new) copy_close)
  | _, _ => Err (Escaped KeyError)
  end.

Fixpoint check_joins (code : string) (stored : gmap date BarRow) (bars : list Bar)
    (joins : list (date * date)) : result equity_error () :=
  match joins with
  | [] => Ok ()
  | join :: joins =>
      bad ← joins_restated_close stored bars join;
      if (bad : bool) then Err (JoinsRestatedClose code join.1 join.2)
      else check_joins code stored bars joins
  end.

Definition _write_bars (db : EquityDB) (code : string) (bars : list Bar) (at_ : instant)
    : result equity_error (EquityDB * BarsReport) :=
  let stored := bars_of db code in
  let pending := List.filter (is_pending stored) bars in
  let restated := omap (restatement stored) bars in
  let compared := Z.of_nat (length bars) - Z.of_nat (length pending) in
  let restated_days := (λ x, trade_date x.2) <$> restated in
  let overlap := trade_date <$> List.filter (λ b, negb (is_pending stored b)) bars in
  let newest := newest_overlap_is_systematic overlap restated_days in
  if newest || restatement_is_systematic (Z.of_nat (length restated)) compared
  then Err (ContradictsStore code (Z.of_nat (length restated)) compared newest)
  else
    _ ← check_joins code stored bars
          (joins_onto_restated (map_to_list stored).*1 (trade_date <$> pending) restated_days);
    tn ← insert_rows equity_bar_checks trade_date (bar_row at_) stored pending 0;
    an ← insert_alternatives at_ (alternatives_of db code) restated.*2 0;
    Ok (set_alternatives code an.1 (set_bars code tn.1 db),
        {| bars_total := Z.of_nat (length bars); bars_inserted := tn.2; bars_existing := compared;
           bars_restated := Z.of_nat (length restated);
           restated_examples := take RESTATED_EXAMPLES restated; alternatives_recorded := an.2;
           bars_raced := Z.of_nat (length pending) - tn.2 |}).

(** ** Reading back what the adjuster reads *)
Definition bar_of (code : string) (x : date * BarRow) : Bar :=
  {| ins_code := code; trade_date := x.1; b_open := br_open x.2; b_high := br_high x.2;
     b_low := br_low x.2; b_close := br_close x.2; final_close := br_final_close x.2;
     price_yesterday := br_price_yesterday x.2; volume := br_volume x.2;
     trade_count := br_trade_count x.2; b_value := br_value x.2 |}.

Definition _stored_bars (db : EquityDB) (code : string) : list Bar :=
  bar_of code <$> sort_by fst (map_to_list (bars_of db code)).

Definition _stored_alternatives (db : EquityDB) (code : string) : Alternatives :=
  foldl (λ (m : Alternatives) r,
    <[al_trade_date r := default [] (m !! al_trade_date r)
                         ++ [(al_final_close r, al_price_yesterday r)]]> m)
    ∅ (alternatives_of db code).

(** ** Corporate actions *)
Definition action_row (at_ : instant) (a : CorporateAction) : ActionRow :=
  {| ac_prev_trade_date := prev_trade_date a; ac_prev_close := numeric (prev_close a);
     ac_price_yesterday := numeric (act_price_yesterday a); ac_kind := act_kind a;
     ac_restated_close := numeric <$> restated_close a; ac_ratio := numeric (ratio a);
     ac_cumulative_factor := numeric (cumulative_factor a); ac_detected_at := at_ |}.

(** How a detected action meets the stored action of its date. *)
Inductive meeting : Set :=
| NewAction
| Superseded (was : ActionRow)
| Disagrees (was : ActionRow)
| SameAction (was : ActionRow).

Definition meet (stored : gmap date ActionRow) (a : CorporateAction) : meeting :=
  match stored !! effective_date a with
  | None => NewAction
  | Some r =>
      if negb (ac_prev_trade_date r =? prev_trade_date a) then Superseded r
      else if negb (_close_enough (ac_ratio r) (ratio a)) then Disagrees r
      else SameAction r
  end.

Definition is_new_action (stored : gmap date ActionRow) (a : CorporateAction) : bool :=
  match meet stored a with NewAction => true | _ => false end.

Definition superseded_by (stored : gmap date ActionRow) (a : CorporateAction)
    : option (CorporateAction * ActionRow) :=
  match meet stored a with Superseded r => Some (a, r) | _ => None end.

Definition disagreement (stored : gmap date ActionRow) (a : CorporateAction)
    : option (date * float * float) :=
  match meet stored a with Disagrees r => Some (effective_date a, ac_ratio r, ratio a) | _ => None end.

Definition with_cumulative (f : float) (r : ActionRow) : ActionRow :=
  {| ac_prev_trade_date := ac_prev_trade_date r; ac_prev_close := ac_prev_close r;
     ac_price_yesterday := ac_price_yesterday r; ac_kind := ac_kind r;
     ac_restated_close := ac_restated_close r; ac_ratio := ac_ratio r;
     ac_cumulative_factor := f; ac_detected_at := ac_detected_at r |}.

(** The UPDATE of every kept action whose cumulative factor moved; [stored] is what was
    read, less the superseded. *)
Fixpoint refactor (stored : gmap date ActionRow) (acts : list CorporateAction)
    (t : gmap date ActionRow) (n : Z) : result equity_error (gmap date ActionRow * Z) :=
  match acts with
  | [] => Ok (t, n)
  | a :: acts =>
      match stored !! effective_date a with
      | None => refactor stored acts t n
      | Some r =>
          if _close_enough (ac_cumulative_factor r) (cumulative_factor a)
          then refactor stored acts t n
          else
            _ ← raise_if (negb (num_positive (cumulative_factor a))) ConstraintFailed;
            refactor stored acts
              (alter (with_cumulative (numeric (cumulative_factor a))) (effective_date a) t) (n + 1)
      end
  end.

Record ActionsReport : Set := {
  actions_total : Z;
  actions_reference_restated : Z;
  actions_close_restated : Z;
  actions_inserted : Z;
  actions_existing : Z;
  actions_refactored : Z;
  actions_retired : Z;
  actions_superseded : Z;
  retired_examples : list (date * ActionRow);
  superseded_examples : list (CorporateAction * ActionRow);
}.

Definition of_kind (k : EquityAdjust.kind) (a : CorporateAction) : bool :=
  match k, act_kind a with
  | reference_restated, reference_restated | close_restated, close_restated => true
  | _, _ => false
  end.

Definition delete_days {V} (days : list date) (t : gmap date V) : gmap date V :=
  foldl (λ t d, delete d t) t days.

Definition superseded_of (stored : gmap date ActionRow) (acts : list CorporateAction)
    : list (CorporateAction * ActionRow) := omap (superseded_by stored) acts.

(** The stored actions that are no longer detected, in date order. *)
Definition retired_of (stored : gmap date ActionRow) (acts : list CorporateAction)
    : list (date * ActionRow) :=
  let detected : gset date := list_to_set (effective_date <$> acts) in
  List.filter (λ x, negb (bool_decide (x.1 ∈ detected))) (sort_by fst (map_to_list stored)).

Definition superseded_days (stored : gmap date ActionRow) (acts : list CorporateAction) : list date :=
  (λ x, effective_date x.1) <$> superseded_of stored acts.

Definition pending_of (stored : gmap date ActionRow) (acts : list CorporateAction)
    : list CorporateAction :=
  List.filter (is_new_action stored) acts ++ (superseded_of stored acts).*1.

Definition _write_actions (db : EquityDB) (code : string) (series : AdjustedSeries) (at_ : instant)
    : result equity_error (EquityDB * ActionsReport) :=
  let stored := actions_of db code in
  let acts := actions series in
  match omap (disagreement stored) acts with
  | (_ :: _) as found => Err (ActionsDisagree code found)
  | [] =>
      let retired := retired_of stored acts in
      let superseded := superseded_of stored acts in
      let gone := superseded_days stored acts in
      let pending := pending_of stored acts in
      tr ← refactor (delete_days gone stored) acts
             (delete_days gone (delete_days retired.*1 stored)) 0;
      tn ← insert_rows action_checks effective_date (action_row at_) tr.1 pending 0;
      Ok (set_actions code tn.1 db,
          {| actions_total := Z.of_nat (length acts);
             actions_reference_restated := count_if (of_kind reference_restated) acts;
             actions_close_restated := count_if (of_kind close_restated) acts;
             actions_inserted := tn.2;
             actions_existing := Z.of_nat (length acts) - Z.of_nat (length pending);
             actions_refactored := tr.2;
             actions_retired := Z.of_nat (length retired);
             actions_superseded := Z.of_nat (length superseded);
             retired_examples := take RESTATED_EXAMPLES retired;
             superseded_examples := take RESTATED_EXAMPLES superseded |})
  end.

(** ** The verdict and the coverage *)
Definition stored_number (x : float) : option float :=
  if storable x then Some (numeric x) else None.

Definition verdict_row (series : AdjustedSeries) (at_ : instant) : VerdictRow :=
  let v := validation series in
  let traded := traded_bars series in
  {| vr_status := v_status v;
     vr_actions_applied := Z.of_nat (length (actions series));
     vr_bars_total := Z.of_nat (length (bars series));
     vr_pre_listing_bars := Z.of_nat (pre_listing_bars series);
     vr_sessions_checked := Z.of_nat (sessions_checked v);
     vr_worst_return := x ← worst_return v; stored_number x;
     vr_worst_return_date := worst_return_date v;
     vr_reopenings := Z.of_nat (reopenings v);
     vr_max_session_return := numeric (v_max_session_return v);
     vr_max_reopening_return := numeric (v_max_reopening_return v);
     vr_session_gap_days := v_session_gap_days v;
     vr_first_bar := trade_date <$> List.head traded;
     vr_last_bar := trade_date <$> last traded;
     vr_refusal_reason := refusal_reason v;
     vr_computed_at := at_ |}.

(** Inserted the first time, updated from then on. *)
Definition _write_verdict (db : EquityDB) (code : string) (series : AdjustedSeries) (at_ : instant)
    : result equity_error (EquityDB * string) :=
  let r := verdict_row series at_ in
  _ ← verdict_checks r;
  Ok (set_verdict code r db,
      match equity_adjustments db !! (code, ADJUSTMENT_VERSION) with
      | None => "inserted"
      | Some _ => "updated"
      end).

Definition min_date (l : list date) : option date :=
  match l with [] => None | d :: l => Some (foldl Z.min d l) end.
Definition max_date (l : list date) : option date :=
  match l with [] => None | d :: l => Some (foldl Z.max d l) end.

Definition with_coverage (days : list date) (at_ : instant) (i : Instrument) : Instrument :=
  {| in_symbol_fa := in_symbol_fa i; in_name_fa := in_name_fa i; in_market := in_market i;
     in_board := in_board i; in_sector_code := in_sector_code i; in_sector_fa := in_sector_fa i;
     in_isin := in_isin i; in_instrument_code := in_instrument_code i; in_enabled := in_enabled i;
     in_notes := in_notes i; in_first_bar := min_date days; in_last_bar := max_date days;
     in_bar_count := Z.of_nat (length days); in_updated_at := at_ |}.

Definition _write_coverage (db : EquityDB) (code : string) (at_ : instant) : EquityDB :=
  set_instruments (alter (with_coverage (map_to_list (bars_of db code)).*1 at_) code
                     (equity_instruments db)) db.

(** ** One payload *)
Record IngestReport : Set := {
  ir_ins_code : string;
  ir_symbol : string;
  ir_enabled : bool;
  ir_bars : BarsReport;
  ir_actions : ActionsReport;
  contested_breaks : Z;
  contested_examples : list ContestedBreak;
  ir_verdict : string;
  ir_status : status;
  ir_pre_listing_bars : nat;
  ir_first_bar : date;
  ir_last_bar : date;
  ir_raw_ratio : float;
  ir_adjusted_ratio : float;
  ir_sessions_checked : nat;
  ir_reopenings : nat;
  worst_session_return : option float;
  worst_session_date : option date;
  ir_refusal_reason : list refusal;
}.

Definition adjust_default (bs : list Bar) (alternatives : option Alternatives)
    : result equity_error AdjustedSeries :=
  of_bars (adjust bs MAX_SESSION_RETURN MAX_REOPENING_RETURN SESSION_GAP_DAYS alternatives).

(** The transaction, for the adjusted payload. *)
Definition store_series (db : EquityDB) (payload : AdjustedSeries) (at_ : instant)
    : result equity_error
        (EquityDB * (Instrument * AdjustedSeries * BarsReport * ActionsReport * string)) :=
  let code := s_ins_code payload in
  match equity_instruments db !! code with
  | None => Err (NotInRoster code)
  | Some instrument =>
      db_bars ← _write_bars db code (bars payload) at_;
      series ← adjust_default (_stored_bars db_bars.1 code)
                 (Some (_stored_alternatives db_bars.1 code));
      db_actions ← _write_actions db_bars.1 code series at_;
      db_verdict ← _write_verdict db_actions.1 code series at_;
      Ok (_write_coverage db_verdict.1 code at_,
          (instrument, series, db_bars.2, db_actions.2, db_verdict.2))
  end.

(** What is reported of the committed series. *)
Definition finish_report (code : string) (instrument : Instrument) (series : AdjustedSeries)
    (rb : BarsReport) (ra : ActionsReport) (verdict : string) : result equity_error IngestReport :=
  match List.head (traded_bars series), last (traded_bars series) with
  | Some first, Some final =>
      raw ← of_python (raw_ratio series);
      adjusted ← of_python (adjusted_ratio series);
      let v := validation series in
      Ok {| ir_ins_code := code; ir_symbol := in_symbol_fa instrument;
            ir_enabled := in_enabled instrument; ir_bars := rb; ir_actions := ra;
            contested_breaks := Z.of_nat (length (contested series));
            contested_examples := take RESTATED_EXAMPLES (contested series);
            ir_verdict := verdict; ir_status := v_status v;
            ir_pre_listing_bars := pre_listing_bars series;
            ir_first_bar := trade_date first; ir_last_bar := trade_date final;
            ir_raw_ratio := py_round raw 6; ir_adjusted_ratio := py_round adjusted 6;
            ir_sessions_checked := sessions_checked v; ir_reopenings := reopenings v;
            worst_session_return := worst_return v; worst_session_date := worst_return_date v;
            ir_refusal_reason := refusal_reason v |}
  | _, _ => Err (Escaped IndexError)
  end.

Definition parse_payload (payload : json) (asked : string) : result equity_error AdjustedSeries :=
  parsed ← of_bars (parse_daily_list repr payload asked); adjust_default parsed None.

Definition ingest_payload (db : EquityDB) (payload : json) (asked : string) (at_ : instant)
    : EquityDB * result equity_error IngestReport :=
  match (p ← parse_payload payload asked; w ← store_series db p at_; Ok (s_ins_code p, w)) with
  | Err e => (db, Err e)
  | Ok (code, (db', (instrument, series, rb, ra, verdict))) =>
      (db', finish_report code instrument series rb ra verdict)
  end.

(** ** Many files *)
Record payload_file : Set := { pf_size : Z; pf_json : option json }.

Definition read_payload_file (disk : string → option payload_file) (path : string)
    : result equity_error json :=
  match disk path with
  | None => Err (NoPayload path)
  | Some f =>
      if pf_size f <? MIN_PLAUSIBLE_BYTES then Err (TooSmallPayload path (pf_size f))
      else match pf_json f with None => Err (NotJsonPayload path) | Some p => Ok p end
  end.

Record RunReport : Set := {
  rr_symbols : list (string * (string * IngestReport));
  rr_errors : list (string * equity_error);
  rr_validated : Z;
  rr_refused : Z;
  rr_failed : Z;
  rr_bars_inserted : Z;
  rr_actions_inserted : Z;
}.

Definition empty_run : RunReport :=
  {| rr_symbols := []; rr_errors := []; rr_validated := 0; rr_refused := 0; rr_failed := 0;
     rr_bars_inserted := 0; rr_actions_inserted := 0 |}.

Definition run_failed (path : string) (e : equity_error) (r : RunReport) : RunReport :=
  {| rr_symbols := rr_symbols r; rr_errors := rr_errors r ++ [(path, e)];
     rr_validated := rr_validated r; rr_refused := rr_refused r; rr_failed := rr_failed r + 1;
     rr_bars_inserted := rr_bars_inserted r; rr_actions_inserted := rr_actions_inserted r |}.

Definition run_done (path : string) (i : IngestReport) (r : RunReport) : RunReport :=
  {| rr_symbols := BourseParse.dict_set (ir_symbol i) (path, i) (rr_symbols r);
     rr_errors := rr_errors r;
     rr_validated := match ir_status i with validated => rr_validated r + 1 | refused => rr_validated r end;
     rr_refused := match ir_status i with validated => rr_refused r | refused => rr_refused r + 1 end;
     rr_failed := rr_failed r;
     rr_bars_inserted := rr_bars_inserted r + bars_inserted (ir_bars i);
     rr_actions_inserted := rr_actions_inserted r + actions_inserted (ir_actions i) |}.

Definition ingest_file (disk : string → option payload_file) (at_ : instant)
    (st : EquityDB * RunReport) (path : string) : EquityDB * RunReport :=
  match read_payload_file disk path with
  | Err e => (st.1, run_failed path e st.2)
  | Ok payload =>
      let '(db, r) := ingest_payload st.1 payload EmptyString at_ in
      (db, match r with Ok i => run_done path i st.2 | Err e => run_failed path e st.2 end)
  end.

Inductive run_outcome : Set :=
| NoPathsGiven
| EquityIngestFailed (r : RunReport)
| RunReported (r : RunReport).

Definition ingest_bar_files (disk : string → option payload_file) (db : EquityDB)
    (paths : list string) (at_ : instant) : EquityDB * run_outcome :=
  match paths with
  | [] => (db, NoPathsGiven)
  | _ =>
      let '(db, r) := foldl (ingest_file disk at_) (db, empty_run) paths in
      (db, if rr_failed r =? Z.of_nat (length paths) then EquityIngestFailed r else RunReported r)
  end.

(** [roster]: in the order of the database's collation. *)
Definition roster (collate_lt : string → string → bool) (db : EquityDB) (include_disabled : bool)
    : list (string * Instrument) :=
  py_sorted (λ a b, collate_lt (in_symbol_fa a.2) (in_symbol_fa b.2))
    (List.filter (λ i, include_disabled || in_enabled i.2) (map_to_list (equity_instruments db))).
End Ingest.

(** ** Inserting and reading back *)
Section Facts.
Context `{NF : !NumericFloat} `{NO : !NumericOrder} (repr : json → string).

Lemma insert_rows_spec {X V} (checks : X → result equity_error ()) key (row : X → V) t rows n t' n' :
  insert_rows checks key row t rows n = Ok (t', n') →
  t ⊆ t' ∧ n' = n + Z.of_nat (size t') - Z.of_nat (size t) ∧
  (∀ x, x ∈ rows → is_Some (t' !! key x)) ∧
  (∀ d v, t' !! d = Some v → t !! d = Some v ∨
     ∃ x, x ∈ rows ∧ key x = d ∧ v = row x ∧ checks x = Ok ()).
Proof.
  revert t n. induction rows as [|x rows IH]; intros t n; simpl.
  { intros [= <- <-]. split_and!; [done|lia|by intros ? ?%elem_of_nil|by left]. }
  intros ([]&Hc&H)%bind_Ok. destruct (t !! key x) as [v|] eqn:Hx.
  - destruct (IH _ _ H) as (Hsub&->&Hin&Hnew). split_and!; [done|done| |].
    + intros y [->|Hy]%elem_of_cons; [|by apply Hin]. exists v. by apply (lookup_weaken t).
    + intros d w [Hw|(y&Hy&?)]%Hnew; [by left|right]. exists y. split; [by right|done].
  - destruct (IH _ _ H) as (Hsub&->&Hin&Hnew). rewrite map_size_insert_None by done. split_and!; [|lia| |].
    + etrans; [by apply insert_subseteq|done].
    + intros y [->|Hy]%elem_of_cons; [|by apply Hin]. exists (row x).
      apply (lookup_weaken _ _ _ _ (lookup_insert_eq t (key x) (row x)) Hsub).
    + intros d w [Hw|(y&Hy&?)]%Hnew; [|right; exists y; split; [by right|done]].
      apply lookup_insert_Some in Hw as [[<- <-]|[_ Hw]]; [right|by left].
      exists x. split; [by left|done].
Qed.

(** The table after a batch whose keys are new and distinct. *)
Lemma insert_rows_new {X V} (checks : X → result equity_error ()) key (row : X → V) t rows n t' n' :
  insert_rows checks key row t rows n = Ok (t', n') →
  NoDup (key <$> rows) → (∀ x, x ∈ rows → t !! key x = None) →
  ∀ x, x ∈ rows → t' !! key x = Some (row x) ∧ checks x = Ok ().
Proof.
  intros H Hnd Hnone x Hx. destruct (insert_rows_spec _ _ _ _ _ _ _ _ H) as (_&_&Hin&Hnew).
  destruct (Hin x Hx) as [v Hv]. destruct (Hnew _ _ Hv) as [Hold|(y&Hy&Hk&->&Hc)].
  - by rewrite (Hnone x Hx) in Hold.
  - assert (y = x) as -> by (eapply NoDup_key_inj; eauto). done.
Qed.

Lemma stored_bars_dates db code : trade_date <$> _stored_bars db code = (sort_by fst (map_to_list (bars_of db code))).*1.
Proof. unfold _stored_bars. rewrite <-list_fmap_compose. done. Qed.

Lemma stored_bars_elem db code b :
  b ∈ _stored_bars db code ↔ ∃ r, bars_of db code !! trade_date b = Some r ∧ b = bar_of code (trade_date b, r).
Proof.
  unfold _stored_bars. rewrite list_elem_of_fmap. unfold sort_by. setoid_rewrite py_sorted_perm. split.
  - intros ([d r]&->&Hr%elem_of_map_to_list). exists r. by split.
  - intros (r&Hr&->). exists (trade_date b, r). split; [done|]. by apply elem_of_map_to_list.
Qed.

Lemma stored_bars_strict db code : strictly_ascending trade_date (_stored_bars db code).
Proof.
  eapply (Forall2_strictly_ascending fst trade_date (sort_by fst (map_to_list (bars_of db code)))).
  - unfold _stored_bars. apply Forall2_fmap_r, Forall_Forall2_diag, Forall_forall. done.
  - apply sort_by_strict, NoDup_fst_map_to_list.
Qed.

Lemma stored_bars_NoDup db code : NoDup (trade_date <$> _stored_bars db code).
Proof.
  rewrite stored_bars_dates. unfold sort_by. rewrite py_sorted_perm. apply NoDup_fst_map_to_list.
Qed.

Lemma delete_days_lookup {V} days (t : gmap date V) d :
  delete_days days t !! d = if bool_decide (d ∈ days) then None else t !! d.
Proof.
  revert t. induction days as [|d' days IH]; intros t; [done|].
  change (delete_days (d' :: days) t) with (delete_days days (delete d' t)). rewrite IH. case_bool_decide as H1; case_bool_decide as H2; try done.
  - by rewrite elem_of_cons in H2; tauto.
  - apply elem_of_cons in H2 as [->|]; [|done]. by rewrite lookup_delete_eq.
  - rewrite lookup_delete_ne; [done|]. intros <-. apply H2. by left.
Qed.

(** ** The corporate actions *)

(** The stored action [r] is the detected action [a]: measured from the same bar, with the
    same numbers as far as the columns can tell. *)
Definition agrees (r : ActionRow) (a : CorporateAction) : Prop :=
  ac_prev_trade_date r = prev_trade_date a ∧
  (ac_ratio r = numeric (ratio a) ∨ _close_enough (ac_ratio r) (ratio a) = true) ∧
  (ac_cumulative_factor r = numeric (cumulative_factor a) ∨
   _close_enough (ac_cumulative_factor r) (cumulative_factor a) = true).

Lemma refactor_spec stored acts t n t' n' :
  refactor stored acts t n = Ok (t', n') → NoDup (effective_date <$> acts) →
  (∀ d, d ∉ effective_date <$> acts ∨ stored !! d = None → t' !! d = t !! d) ∧
  (∀ a r, a ∈ acts → stored !! effective_date a = Some r → t !! effective_date a = Some r →
     (t' !! effective_date a = Some r ∧
      _close_enough (ac_cumulative_factor r) (cumulative_factor a) = true) ∨
     (t' !! effective_date a = Some (with_cumulative (numeric (cumulative_factor a)) r) ∧
      num_positive (cumulative_factor a) = true)).
Proof.
  revert t n. induction acts as [|a acts IH]; intros t n; simpl.
  { intros [= <- <-] _. split; [done|]. by intros a r ?%elem_of_nil. }
  rewrite NoDup_cons. intros H [Hni Hnd].
  destruct (stored !! effective_date a) as [r|] eqn:Hr.
  - destruct (_close_enough (ac_cumulative_factor r) _) eqn:Hc.
    + destruct (IH _ _ H Hnd) as [H1 H2]. split.
      * intros d Hd. apply H1. set_solver.
      * intros a' r' [->|Ha]%elem_of_cons Hs Ht; [|by apply H2]. left. rewrite Hr in Hs. injection Hs as <-.
        by rewrite H1 by by left.
    + apply bind_Ok in H as ([]&Hp%raise_if_Ok%negb_false_iff&H). destruct (IH _ _ H Hnd) as [H1 H2]. split.
      * intros d Hd. rewrite H1 by set_solver. apply lookup_alter_ne. intros <-.
        destruct Hd as [Hd|Hd]; [set_solver|congruence].
      * intros a' r' [->|Ha]%elem_of_cons Hs Ht.
        -- right. rewrite Hr in Hs. injection Hs as <-. by rewrite H1, lookup_alter_eq, Ht by by left.
        -- apply H2; [done..|]. rewrite lookup_alter_ne; [done|]. intros Heq. apply Hni. rewrite Heq.
           apply list_elem_of_fmap. by exists a'.
  - destruct (IH _ _ H Hnd) as [H1 H2]. split.
    + intros d Hd. apply H1. destruct (decide (d = effective_date a)) as [->|]; [by right|set_solver].
    + intros a' r' [->|Ha]%elem_of_cons Hs Ht; [congruence|by apply H2].
Qed.

Definition dates_of (acts : list CorporateAction) : gset date := list_to_set (effective_date <$> acts).

Lemma superseded_elem stored acts a r :
  (a, r) ∈ superseded_of stored acts ↔ a ∈ acts ∧ meet stored a = Superseded r.
Proof.
  unfold superseded_of. rewrite list_elem_of_omap. unfold superseded_by. split.
  - intros (a'&Ha&Hs). destruct (meet stored a') eqn:Hm; try done. by injection Hs as <- <-.
  - intros [Ha Hm]. exists a. by rewrite Hm.
Qed.

Lemma superseded_days_elem stored acts d :
  d ∈ superseded_days stored acts ↔
  ∃ a r, a ∈ acts ∧ meet stored a = Superseded r ∧ effective_date a = d.
Proof.
  unfold superseded_days. rewrite list_elem_of_fmap. split.
  - intros ([a r]&->&[??]%superseded_elem). by exists a, r.
  - intros (a&r&Ha&Hm&<-). exists (a, r). split; [done|]. by apply superseded_elem.
Qed.

Lemma retired_elem stored acts d :
  d ∈ (retired_of stored acts).*1 ↔ is_Some (stored !! d) ∧ d ∉ dates_of acts.
Proof.
  unfold retired_of. rewrite list_elem_of_fmap. setoid_rewrite elem_of_bool_filter.
  unfold sort_by. setoid_rewrite py_sorted_perm. fold (dates_of acts). split.
  - intros ([d' r]&->&Hr%elem_of_map_to_list&Hn%negb_true_iff%bool_decide_eq_false). split; [by exists r|done].
  - intros [[r Hr] Hn]. exists (d, r). split_and!; [done|by apply elem_of_map_to_list|].
    simpl. by rewrite bool_decide_eq_false_2.
Qed.

Lemma pending_elem stored acts a :
  a ∈ pending_of stored acts ↔
  a ∈ acts ∧ match meet stored a with NewAction | Superseded _ => True | _ => False end.
Proof.
  unfold pending_of. rewrite elem_of_app, elem_of_bool_filter, list_elem_of_fmap. unfold is_new_action. split.
  - intros [[Ha Hm]|([a' r]&->&[Ha Hm]%superseded_elem)]; split; try done; [by destruct (meet stored a)|simpl; by rewrite Hm].
  - intros [Ha Hm]. destruct (meet stored a) as [|r|r|r] eqn:He; try done; [by left|right].
    exists (a, r). split; [done|]. by apply superseded_elem.
Qed.

Lemma meet_spec stored a :
  match meet stored a with
  | NewAction => stored !! effective_date a = None
  | Superseded r => stored !! effective_date a = Some r ∧ ac_prev_trade_date r ≠ prev_trade_date a
  | Disagrees r =>
      stored !! effective_date a = Some r ∧ ac_prev_trade_date r = prev_trade_date a ∧
      _close_enough (ac_ratio r) (ratio a) = false
  | SameAction r =>
      stored !! effective_date a = Some r ∧ ac_prev_trade_date r = prev_trade_date a ∧
      _close_enough (ac_ratio r) (ratio a) = true
  end.
Proof.
  unfold meet. destruct (stored !! effective_date a) as [r|]; [|done].
  destruct (Z.eqb_spec (ac_prev_trade_date r) (prev_trade_date a)); simpl; [|done].
  destruct (_close_enough (ac_ratio r) (ratio a)) eqn:Hc; simpl; by split_and!.
Qed.

(** The stored row a detected action keeps, if any. *)
Definition kept_row (stored : gmap date ActionRow) (a : CorporateAction) : option ActionRow :=
  match meet stored a with SameAction r | Disagrees r => Some r | _ => None end.

Lemma minus_superseded stored acts a :
  NoDup (effective_date <$> acts) → a ∈ acts →
  delete_days (superseded_days stored acts) stored !! effective_date a = kept_row stored a.
Proof.
  intros Hnd Ha. rewrite delete_days_lookup. unfold kept_row. case_bool_decide as Hs.
  - apply superseded_days_elem in Hs as (a'&r&Ha'&Hm&He).
    assert (a' = a) as -> by (by apply (NoDup_key_inj effective_date acts)). by rewrite Hm.
  - pose proof (meet_spec stored a) as Hm. destruct (meet stored a) as [|r|r|r] eqn:Hr; [done| |tauto..].
    destruct Hs. apply superseded_days_elem. by exists a, r.
Qed.

(** What is left of the stored actions once the retired and the superseded are deleted. *)
Lemma kept_actions stored acts :
  NoDup (effective_date <$> acts) →
  let t := delete_days (superseded_days stored acts) (delete_days (retired_of stored acts).*1 stored) in
  (∀ a, a ∈ acts → t !! effective_date a = kept_row stored a) ∧ (∀ d, d ∉ dates_of acts → t !! d = None).
Proof.
  intros Hnd t. unfold t. split.
  - intros a Ha. rewrite <-(minus_superseded stored acts) by done. rewrite !delete_days_lookup.
    case_bool_decide; [done|]. rewrite bool_decide_eq_false_2; [done|]. rewrite retired_elem.
    intros [_ Hn]. apply Hn, elem_of_list_to_set, list_elem_of_fmap. by exists a.
  - intros d Hd. rewrite !delete_days_lookup. case_bool_decide; [done|]. case_bool_decide as Hr; [done|].
    destruct (stored !! d) eqn:Hs; [|done]. destruct Hr. apply retired_elem. split; [by eexists|done].
Qed.

(** Once their factors are brought up to date. *)
Lemma refactored_actions stored acts t n :
  NoDup (effective_date <$> acts) →
  refactor (delete_days (superseded_days stored acts) stored) acts
    (delete_days (superseded_days stored acts) (delete_days (retired_of stored acts).*1 stored)) 0 = Ok (t, n) →
  (∀ d, d ∉ dates_of acts → t !! d = None) ∧
  (∀ a, a ∈ acts → match kept_row stored a with
    | None => t !! effective_date a = None
    | Some f => ∃ r, t !! effective_date a = Some r ∧
        (r = f ∧ _close_enough (ac_cumulative_factor f) (cumulative_factor a) = true ∨
         r = with_cumulative (numeric (cumulative_factor a)) f ∧ num_positive (cumulative_factor a) = true)
    end).
Proof.
  intros Hnd Hrf. destruct (kept_actions stored acts Hnd) as [Hk1 Hk2].
  destruct (refactor_spec _ _ _ _ _ _ Hrf Hnd) as [Hr1 Hr2]. split.
  - intros d Hd. rewrite Hr1; [by apply Hk2|]. left. intros Hin. by apply Hd, elem_of_list_to_set.
  - intros a Ha. pose proof (minus_superseded stored acts a Hnd Ha) as Hm. specialize (Hk1 a Ha).
    destruct (kept_row stored a) as [f|].
    + destruct (Hr2 a f Ha Hm Hk1) as [[Ht Hc]|[Ht Hp]]; eauto.
    + rewrite Hr1; [done|by right].
Qed.

Lemma no_disagreement stored acts a :
  omap (disagreement stored) acts = [] → a ∈ acts →
  match meet stored a with Disagrees _ => False | _ => True end.
Proof.
  intros Hdis Ha. destruct (meet stored a) as [| |r|] eqn:Hm; try done.
  assert ((effective_date a, ac_ratio r, ratio a) ∈ omap (disagreement stored) acts) as Hx.
  { apply list_elem_of_omap. exists a. unfold disagreement. by rewrite Hm. }
  rewrite Hdis in Hx. by apply elem_of_nil in Hx.
Qed.

(** Where a row of the table comes from: written for an action detected now, or kept, but
    for its factor. *)
Definition written_or_kept (at_ : instant) (acts : list CorporateAction)
    (stored : gmap date ActionRow) (d : date) (r : ActionRow) : Prop :=
  (∃ a, a ∈ acts ∧ action_checks a = Ok () ∧ r = action_row at_ a ∧ effective_date a = d) ∨
  (∃ f, stored !! d = Some f ∧
     (r = f ∨ ∃ x, num_positive x = true ∧ r = with_cumulative (numeric x) f)).

(** The stored actions after a pass are the detected ones, each measured from the bars it
    was detected on. *)
Lemma write_actions_spec db code series at_ db' rep :
  _write_actions db code series at_ = Ok (db', rep) → NoDup (effective_date <$> actions series) →
  ∃ t, db' = set_actions code t db ∧ dom t = dates_of (actions series) ∧
    ∀ a, a ∈ actions series → ∃ r, t !! effective_date a = Some r ∧ agrees r a ∧
      written_or_kept at_ (actions series) (actions_of db code) (effective_date a) r.
Proof.
  unfold _write_actions. set (stored := actions_of db code). set (acts := actions series).
  intros H Hnd. destruct (omap (disagreement stored) acts) as [|] eqn:Hdis; [|done].
  apply bind_Ok in H as ([t1 n1]&Hrf&H). apply bind_Ok in H as ([t2 n2]&Hins&[= <- _]). exists t2.
  destruct (refactored_actions _ _ _ _ Hnd Hrf) as [Hout Hkept]. simpl in Hins.
  destruct (insert_rows_spec _ _ _ _ _ _ _ _ Hins) as (Hsub&_&Hin&Hnew).
  assert (∀ a, a ∈ acts → ∃ r, t2 !! effective_date a = Some r ∧ agrees r a ∧
            written_or_kept at_ acts stored (effective_date a) r) as Hall.
  { intros a Ha. specialize (Hkept a Ha). pose proof (no_disagreement _ _ a Hdis Ha) as Hno.
    pose proof (meet_spec stored a) as Hm. unfold kept_row in Hkept.
    assert (match meet stored a with NewAction | Superseded _ => True | _ => False end →
            t1 !! effective_date a = None → ∃ r, t2 !! effective_date a = Some r ∧ agrees r a ∧
            written_or_kept at_ acts stored (effective_date a) r) as Hfresh.
    { intros Hp Hnone. destruct (Hin a) as [r Hr]; [by apply pending_elem|]. exists r. split; [done|].
      destruct (Hnew _ _ Hr) as [Hold|(x&[Hx _]%pending_elem&Hk&->&Hc)]; [congruence|].
      assert (x = a) as -> by (by apply (NoDup_key_inj effective_date acts)).
      split; [split_and!; [done|by left..]|left; by exists a]. }
    destruct (meet stored a) as [|f|f|f]; [by apply Hfresh..|done|].
    destruct Hkept as (r&Hr&Hcum). destruct Hm as (Hst&Hprev&Hce). exists r.
    split; [by apply (lookup_weaken t1)|].
    destruct Hcum as [[-> Hc]|[-> Hp]]; (split; [split_and!; [done|by right|auto]|right; exists f; eauto]). }
  split_and!; [done| |done]. apply set_eq. intros d. rewrite elem_of_dom. split.
  - intros [r Hr]. destruct (Hnew _ _ Hr) as [Ht|(x&[Hx _]%pending_elem&<-&_)].
    + destruct (decide (d ∈ dates_of acts)) as [|Hn]; [done|]. by rewrite Hout in Ht.
    + apply elem_of_list_to_set, list_elem_of_fmap. by exists x.
  - intros (a&->&Ha)%elem_of_list_to_set%list_elem_of_fmap. destruct (Hall a Ha) as (r&?&_). by exists r.
Qed.

(** ** One transaction *)
Lemma of_bars_Ok {A} (m : result bar_error A) a : of_bars m = Ok a ↔ m = Ok a.
Proof. destruct m; simpl; naive_solver. Qed.

Lemma of_python_Ok {A} (m : result pyerr A) a : of_python m = Ok a ↔ m = Ok a.
Proof. destruct m; simpl; naive_solver. Qed.

Lemma adjust_dates bs alts s :
  NoDup (trade_date <$> bs) → adjust_default bs alts = Ok s → NoDup (effective_date <$> actions s).
Proof.
  intros Hnd (det&moves&Hb&Hd&Ha&_)%of_bars_Ok%adjust_inv. destruct det as [acts cont].
  rewrite Hb in Hd. apply detect_actions_dates in Hd; [|by apply sort_by_strict].
  apply chain_factors_ascending in Hd. rewrite Ha. cbn [fst].
  clear -Hd. induction Hd as [|a l _ IH Hl]; simpl; constructor; [|done].
  rewrite Forall_forall in Hl. intros (b&He&Hin)%list_elem_of_fmap. specialize (Hl b Hin). lia.
Qed.

(** What a committed transaction did. *)
Record stored_as (db : EquityDB) (p : AdjustedSeries) (at_ : instant) (db' : EquityDB)
    (series : AdjustedSeries) (rb : BarsReport) : Prop := {
  sa_listed : is_Some (equity_instruments db !! s_ins_code p);
  sa_bars : ∃ n, insert_rows equity_bar_checks trade_date (bar_row at_) (bars_of db (s_ins_code p))
      (List.filter (is_pending (bars_of db (s_ins_code p))) (bars p)) 0
      = Ok (bars_of db' (s_ins_code p), n) ∧ bars_inserted rb = n;
  sa_alternatives : ∃ n, insert_alternatives at_ (alternatives_of db (s_ins_code p))
      (omap (restatement (bars_of db (s_ins_code p))) (bars p)).*2 0
      = Ok (alternatives_of db' (s_ins_code p), n);
  sa_series : adjust_default (_stored_bars db' (s_ins_code p))
      (Some (_stored_alternatives db' (s_ins_code p))) = Ok series;
  sa_dom : dom (actions_of db' (s_ins_code p)) = dates_of (actions series);
  sa_actions : ∀ a, a ∈ actions series → ∃ r,
      actions_of db' (s_ins_code p) !! effective_date a = Some r ∧ agrees r a ∧
      written_or_kept at_ (actions series) (actions_of db (s_ins_code p)) (effective_date a) r;
  sa_verdict : equity_adjustments db' =
      <[(s_ins_code p, ADJUSTMENT_VERSION) := verdict_row series at_]> (equity_adjustments db);
  sa_reason : verdict_checks (verdict_row series at_) = Ok ();
  sa_coverage : equity_instruments db' =
      alter (with_coverage (map_to_list (bars_of db' (s_ins_code p))).*1 at_) (s_ins_code p)
        (equity_instruments db);
  sa_others : ∀ code, code ≠ s_ins_code p →
      bars_of db' code = bars_of db code ∧ alternatives_of db' code = alternatives_of db code ∧
      actions_of db' code = actions_of db code;
}.

Lemma store_series_inv db p at_ db' i series rb ra v :
  store_series db p at_ = Ok (db', (i, series, rb, ra, v)) → stored_as db p at_ db' series rb.
Proof.
  unfold store_series. destruct (equity_instruments db !! s_ins_code p) as [i'|] eqn:Hi; [|done].
  intros ([db1 rb']&Hb&H)%bind_Ok. apply bind_Ok in H as (s&Hs&H).
  apply bind_Ok in H as ([db2 ra']&Ha&H). apply bind_Ok in H as ([db3 v']&Hv&H).
  cbn [fst snd] in *. injection H as <- <- <- <- <- <-.
  unfold _write_bars in Hb. destruct (_ || _); [done|]. apply bind_Ok in Hb as ([]&_&Hb).
  apply bind_Ok in Hb as ([t n]&Ht&Hb). apply bind_Ok in Hb as ([an m]&Han&Hb). injection Hb as <- <-.
  unfold _write_verdict in Hv. apply bind_Ok in Hv as ([]&Hc&[= <- _]).
  cbn [fst snd] in *.
  apply write_actions_spec in Ha as (ta&->&Hdom&Hacts); [|by eapply adjust_dates, Hs; apply stored_bars_NoDup].
  split.
  - by rewrite Hi.
  - exists n. split; [|done]. unfold bars_of at 3. simpl. by rewrite rows_of_insert.
  - exists m. unfold alternatives_of at 2. simpl. by rewrite rows_of_insert.
  - exact Hs.
  - unfold actions_of. simpl. by rewrite rows_of_insert.
  - intros a Hin. destruct (Hacts a Hin) as (r&?&?&?). exists r. unfold actions_of at 1. simpl.
    by rewrite rows_of_insert.
  - done.
  - done.
  - done.
  - intros code Hne. unfold bars_of, alternatives_of, actions_of. simpl.
    split_and!; apply rows_of_insert_ne; congruence.
Qed.

(** ** The verdicts hold of what is stored *)

(** The verdict row [r] of a symbol is the gate's verdict over exactly the bars and the
    alternatives stored of it, and its stored actions are the ones they imply. *)
Definition described (db : EquityDB) (code : string) (r : VerdictRow) : Prop :=
  ∃ s at_,
    adjust_default (_stored_bars db code) (Some (_stored_alternatives db code)) = Ok s ∧
    dom (actions_of db code) = dates_of (actions s) ∧
    (∀ a, a ∈ actions s → ∃ row, actions_of db code !! effective_date a = Some row ∧ agrees row a) ∧
    r = verdict_row s at_.

Definition verdicts_hold (db : EquityDB) : Prop :=
  ∀ code r, equity_adjustments db !! (code, ADJUSTMENT_VERSION) = Some r → described db code r.

Lemma described_frame db db' code r :
  bars_of db' code = bars_of db code → alternatives_of db' code = alternatives_of db code →
  actions_of db' code = actions_of db code → described db code r → described db' code r.
Proof.
  intros Hb Ha Hc. unfold described, _stored_bars, _stored_alternatives. by rewrite Hb, Ha, Hc.
Qed.

Lemma stored_as_verdicts db p at_ db' series rb :
  stored_as db p at_ db' series rb → verdicts_hold db → verdicts_hold db'.
Proof.
  intros [] Hok code r. rewrite sa_verdict0. destruct (decide (code = s_ins_code p)) as [->|Hne].
  - rewrite lookup_insert_eq. intros [= <-]. exists series, at_. split_and!; try done.
    intros a Ha. destruct (sa_actions0 a Ha) as (row&?&?&_). by exists row.
  - rewrite lookup_insert_ne by congruence. intros Hr%Hok.
    destruct (sa_others0 code Hne) as (?&?&?). by apply (described_frame db).
Qed.

(** ** The tables stay well-formed *)
Definition stored_positive (x : float) : bool := negb (num_le x fzero).
Definition stored_nonneg (x : float) : bool := num_le fzero x.

(** The CHECKs of [equity_bars]. *)
Definition bar_row_ok (r : BarRow) : bool :=
  stored_positive (br_final_close r) && stored_nonneg (br_price_yesterday r)
  && (0 <=? br_volume r) && (br_volume r <=? INT8_MAX)
  && (0 <=? br_trade_count r) && (br_trade_count r <=? INT8_MAX)
  && stored_nonneg (br_value r) && num_le (br_low r) (br_high r)
  && stored_nonneg (br_open r) && stored_nonneg (br_high r) && stored_nonneg (br_low r)
  && stored_nonneg (br_close r).

Definition alt_row_ok (r : AltRow) : bool :=
  stored_positive (al_final_close r) && stored_nonneg (al_price_yesterday r)
  && (0 <=? al_volume r) && (al_volume r <=? INT8_MAX).

Definition evidence_row_ok (k : EquityAdjust.kind) (restated : option float) : bool :=
  match k, restated with
  | reference_restated, None => true
  | close_restated, Some c => stored_positive c
  | _, _ => false
  end.

Definition action_row_ok (d : date) (r : ActionRow) : bool :=
  stored_positive (ac_prev_close r) && stored_positive (ac_price_yesterday r)
  && stored_positive (ac_ratio r) && stored_positive (ac_cumulative_factor r)
  && evidence_row_ok (ac_kind r) (ac_restated_close r) && (ac_prev_trade_date r <? d).

Lemma bar_checks_row at_ b : equity_bar_checks b = Ok () → bar_row_ok (bar_row at_ b) = true.
Proof.
  unfold equity_bar_checks, num_positive, num_nonneg, in_int8, bar_row_ok, stored_positive, stored_nonneg.
  intros ([]&H1%raise_if_Ok%negb_false_iff&H2%raise_if_Ok%negb_false_iff)%bind_Ok.
  rewrite !andb_true_iff in *. simpl. rewrite !Z.leb_le in *. tauto.
Qed.

Lemma alternative_checks_row at_ b : alternative_checks b = Ok () → alt_row_ok (alternative_row at_ b) = true.
Proof.
  unfold alternative_checks, num_positive, num_nonneg, in_int8, alt_row_ok, stored_positive, stored_nonneg.
  intros ([]&H1%raise_if_Ok%negb_false_iff&H2%raise_if_Ok%negb_false_iff)%bind_Ok.
  rewrite !andb_true_iff in *. simpl. rewrite !Z.leb_le in *. tauto.
Qed.

Lemma num_positive_stored x : num_positive x = true → stored_positive (numeric x) = true.
Proof. unfold num_positive. by intros [_ H]%andb_true_iff. Qed.

Lemma action_checks_row at_ a :
  action_checks a = Ok () → action_row_ok (effective_date a) (action_row at_ a) = true.
Proof.
  unfold action_checks, action_row_ok. intros H%raise_if_Ok%negb_false_iff.
  rewrite !andb_true_iff in *. simpl. destruct H as (((((H1&H2)&H3)&H4)&H5)&H6).
  split_and!; auto using num_positive_stored. unfold evidence_ok in H5.
  by destruct (act_kind a), (restated_close a); simpl; auto using num_positive_stored.
Qed.

Lemma insert_alternatives_spec at_ t rows n t' n' :
  insert_alternatives at_ t rows n = Ok (t', n') →
  t `prefix_of` t' ∧
  (Forall (λ r, alt_row_ok r = true) t → Forall (λ r, alt_row_ok r = true) t') ∧
  (∀ r, r ∈ t' → r ∈ t ∨ ∃ b, b ∈ rows ∧ r = alternative_row at_ b).
Proof.
  revert t n. induction rows as [|b rows IH]; intros t n; simpl.
  { intros [= <- <-]. split_and!; [done|done|by left]. }
  intros ([]&Hc&H)%bind_Ok. destruct (existsb _ t).
  - destruct (IH _ _ H) as (Hp&Hf&Hn). split_and!; [done|done|].
    intros r [Hr|(b'&?&?)]%Hn; [by left|right; exists b'; split; [by right|done]].
  - destruct (IH _ _ H) as (Hp&Hf&Hn). split_and!.
    + etrans; [|exact Hp]. by eexists.
    + intros Ht. apply Hf, Forall_app. split; [done|]. apply Forall_singleton. by apply alternative_checks_row.
    + intros r [Hr|(b'&?&?)]%Hn; [|right; exists b'; split; [by right|done]].
      apply elem_of_app in Hr as [?|Hr%list_elem_of_singleton]; [by left|right].
      subst. exists b. split; [by left|done].
Qed.

(** [first] and [last] and [count] are those of the dates of [t]. *)
Definition covers {V} (t : gmap date V) (first final : option date) (count : Z) : Prop :=
  count = Z.of_nat (size t) ∧
  match first, final with
  | None, None => t = ∅
  | Some d, Some d' => is_Some (t !! d) ∧ is_Some (t !! d') ∧ ∀ e, is_Some (t !! e) → d ≤ e ≤ d'
  | _, _ => False
  end.

(** A stored action was read off two stored bars. *)
Definition evidenced (db : EquityDB) (code : string) (d : date) (r : ActionRow) : Prop :=
  ∃ p c a, p ∈ _stored_bars db code ∧ c ∈ _stored_bars db code ∧
    trade_date p = ac_prev_trade_date r ∧ trade_date c = d ∧
    detect_pair None p c = Ok ([a], []) ∧ ac_ratio r = numeric (ratio a).

Record equity_ok (db : EquityDB) : Prop := {
  eo_bars code d r : bars_of db code !! d = Some r →
    bar_row_ok r = true ∧ valid_float (br_final_close r) = true;
  eo_alternatives code : Forall (λ r, alt_row_ok r = true) (alternatives_of db code);
  eo_actions code d r : actions_of db code !! d = Some r → action_row_ok d r = true;
  eo_reasons k r : equity_adjustments db !! k = Some r → verdict_checks r = Ok ();
  eo_listed code : equity_instruments db !! code = None →
    bars_of db code = ∅ ∧ alternatives_of db code = [] ∧ actions_of db code = ∅ ∧
    equity_adjustments db !! (code, ADJUSTMENT_VERSION) = None;
  eo_coverage code i : equity_instruments db !! code = Some i →
    covers (bars_of db code) (in_first_bar i) (in_last_bar i) (in_bar_count i);
  eo_verdicts : verdicts_hold db;
  eo_evidence code d r : actions_of db code !! d = Some r → evidenced db code d r;
}.

Lemma coverage_covers {V} (t : gmap date V) at_ i :
  let i' := with_coverage (map_to_list t).*1 at_ i in
  covers t (in_first_bar i') (in_last_bar i') (in_bar_count i').
Proof.
  simpl. split; [by rewrite length_fmap, length_map_to_list|].
  assert (∀ d, is_Some (t !! d) ↔ d ∈ (map_to_list t).*1) as Hin.
  { intros d. rewrite list_elem_of_fmap. split.
    - intros [r Hr]. exists (d, r). split; [done|]. by apply elem_of_map_to_list.
    - intros ([d' r]&->&Hr%elem_of_map_to_list). by exists r. }
  destruct (map_to_list t).*1 as [|d l] eqn:Hl; simpl.
  - apply map_empty. intros d. apply eq_None_not_Some. rewrite Hin. apply not_elem_of_nil.
  - setoid_rewrite Hin. split_and!; [apply foldl_pick; lia..|].
    intros e He. split; [by apply foldl_min_le|by apply foldl_max_ge].
Qed.

Lemma detect_pair_alternatives alts p c pa pc a :
  detect_pair alts p c = Ok (pa, pc) → a ∈ pa →
  detect_pair None p c = Ok ([a], []) ∧ effective_date a = trade_date c ∧ prev_trade_date a = trade_date p.
Proof.
  unfold detect_pair. destruct (fne _ _).
  - destruct (if _ && _ then chained_by_a_copy _ _ _ else _) as [x|].
    { intros [= <- <-] Ha. by apply elem_of_nil in Ha. }
    destruct (traded p && traded c); simpl; (destruct (_ || _); [done|]);
      intros (r&Hr&[= <- <-])%bind_Ok ->%list_elem_of_singleton; by rewrite Hr.
  - destruct (_ && _); [|intros [= <- <-] Ha; by apply elem_of_nil in Ha].
    destruct (fle _ _); [done|]. intros (r&Hr&[= <- <-])%bind_Ok ->%list_elem_of_singleton. by rewrite Hr.
Qed.

(** Where an action of an adjusted series was read from. *)
Lemma series_evidence bs alts s a :
  adjust_default bs alts = Ok s → a ∈ actions s →
  ∃ p c a', p ∈ bs ∧ c ∈ bs ∧ trade_date p = prev_trade_date a ∧ trade_date c = effective_date a ∧
    detect_pair None p c = Ok ([a'], []) ∧ ratio a' = ratio a.
Proof.
  intros (det&moves&Hb&Hd&Ha&_)%of_bars_Ok%adjust_inv Hin. rewrite Ha, chain_factors_products in Hin.
  apply list_elem_of_lookup in Hin as [i Hi]. rewrite list_lookup_imap in Hi.
  destruct (det.1 !! i) as [a0|] eqn:H0; [|done]. injection Hi as <-.
  apply list_elem_of_lookup_2 in H0. destruct det as [acts cont].
  assert (∀ x, x ∈ bars s → x ∈ bs) as Hmem.
  { intros x. rewrite Hb. unfold sort_by. by rewrite py_sorted_perm. }
  destruct (bars s) as [|b0 rest] eqn:Hbars; [injection Hd as <- <-; by apply elem_of_nil in H0|].
  destruct (detect_from_elem _ _ _ _ _ _ Hd H0) as (p&c&pa&pc&(k&Hp&Hc)&Hpair&Hin).
  destruct (detect_pair_alternatives _ _ _ _ _ _ Hpair Hin) as (Hnone&He&Hprev).
  exists p, c, a0. split_and!; try done; apply Hmem; by eapply list_elem_of_lookup_2.
Qed.

Lemma stored_bars_mono db db' code b :
  bars_of db code ⊆ bars_of db' code → b ∈ _stored_bars db code → b ∈ _stored_bars db' code.
Proof.
  intros Hsub (r&Hr&Hb)%stored_bars_elem. apply stored_bars_elem. exists r. split; [|done].
  by eapply lookup_weaken.
Qed.

Lemma stored_as_evidence db p at_ db' series rb :
  stored_as db p at_ db' series rb →
  (∀ code d r, actions_of db code !! d = Some r → evidenced db code d r) →
  ∀ code d r, actions_of db' code !! d = Some r → evidenced db' code d r.
Proof.
  intros Hst Hev code d r Hr. destruct (decide (code = s_ins_code p)) as [->|Hne].
  2: { destruct (sa_others _ _ _ _ _ _ Hst code Hne) as (Hb&_&Ha). rewrite Ha in Hr.
       unfold evidenced, _stored_bars in *. rewrite Hb. by apply Hev. }
  assert (d ∈ dates_of (actions series)) as Hd by (rewrite <-(sa_dom _ _ _ _ _ _ Hst); by apply elem_of_dom_2 in Hr).
  apply elem_of_list_to_set, list_elem_of_fmap in Hd as (a&->&Hin).
  destruct (sa_actions _ _ _ _ _ _ Hst a Hin) as (r'&Hr'&_&Hw). rewrite Hr in Hr'. injection Hr' as <-.
  destruct Hw as [(a'&Ha'&_&->&He)|(f&Hf&Hk)].
  - destruct (series_evidence _ _ _ a' (sa_series _ _ _ _ _ _ Hst) Ha') as (b&c&a0&?&?&?&?&?&Hrat).
    exists b, c, a0. simpl. rewrite Hrat, <-He. by split_and!.
  - destruct (Hev _ _ _ Hf) as (b&c&a0&Hb&Hc&H1&H2&H3&H4). destruct (sa_bars _ _ _ _ _ _ Hst) as (n&Hn&_).
    destruct (insert_rows_spec _ _ _ _ _ _ _ _ Hn) as (Hsub&_).
    exists b, c, a0. destruct Hk as [->|(x&_&->)]; split_and!; eauto using stored_bars_mono.
Qed.

Lemma stored_as_ok `{NL : !NumericOrderLaws NO} db p at_ db' series rb :
  stored_as db p at_ db' series rb → equity_ok db → equity_ok db'.
Proof.
  intros Hst Hok. pose proof (stored_as_verdicts _ _ _ _ _ _ Hst (eo_verdicts _ Hok)) as Hv.
  pose proof (stored_as_evidence _ _ _ _ _ _ Hst (eo_evidence _ Hok)) as Hev.
  destruct Hst as [[i0 Hi0] (n&Hb&_) (m&Ha) Hs Hdom Hacts Hver Hreason Hcov Hother].
  destruct Hok as [Kb Ka Kc Kr Kl Kcov _ _]. set (code := s_ins_code p) in *.
  split; [| | | | | |done|done].
  - intros c d r. destruct (decide (c = code)) as [->|Hne]; [|destruct (Hother c Hne) as (->&_); apply Kb].
    destruct (insert_rows_spec _ _ _ _ _ _ _ _ Hb) as (_&_&_&Hnew).
    intros [Hold|(x&_&_&->&Hc)]%Hnew; [by apply (Kb code d)|].
    split; [by apply bar_checks_row|apply numeric_valid].
  - intros c. destruct (decide (c = code)) as [->|Hne]; [|destruct (Hother c Hne) as (_&->&_); apply Ka].
    destruct (insert_alternatives_spec _ _ _ _ _ _ Ha) as (_&Hf&_). by apply Hf.
  - intros c d r. destruct (decide (c = code)) as [->|Hne]; [|destruct (Hother c Hne) as (_&_&->); apply Kc].
    intros Hr. assert (d ∈ dates_of (actions series)) as Hd by (rewrite <-Hdom; by apply elem_of_dom_2 in Hr).
    apply elem_of_list_to_set, list_elem_of_fmap in Hd as (a&->&Hin).
    destruct (Hacts a Hin) as (r'&Hr'&_&Hw). rewrite Hr in Hr'. injection Hr' as <-.
    destruct Hw as [(a'&_&Hc&->&He)|(f&Hf&Hk)]; [rewrite <-He; by apply action_checks_row|].
    apply Kc in Hf. destruct Hk as [->|(x&Hx&->)]; [done|].
    unfold action_row_ok in *. simpl. rewrite !andb_true_iff in *.
    pose proof (num_positive_stored x Hx). tauto.
  - intros k r. rewrite Hver. intros [[_ <-]|[_ Hk]]%lookup_insert_Some; [done|by eapply Kr].
  - intros c. rewrite Hcov. destruct (decide (c = code)) as [->|Hne].
    + by rewrite lookup_alter_eq, Hi0.
    + rewrite lookup_alter_ne by done. intros (?&?&?&?)%Kl. destruct (Hother c Hne) as (->&->&->).
      rewrite Hver, lookup_insert_ne by congruence. done.
  - intros c i. rewrite Hcov. destruct (decide (c = code)) as [->|Hne].
    + rewrite lookup_alter_eq, Hi0. intros [= <-]. apply (coverage_covers _ at_ i0).
    + rewrite lookup_alter_ne by done. destruct (Hother c Hne) as (->&_). apply Kcov.
Qed.

(** ** What follows the commit cannot raise *)
Lemma fdiv_total x y : feq y fzero = false → ∃ q, fdiv x y = Ok q.
Proof. unfold fdiv. intros ->. by eexists. Qed.

Lemma fdiv_nonzero x y q : fdiv x y = Ok q → feq y fzero = false.
Proof. unfold fdiv. by destruct (feq y fzero). Qed.

Lemma feq_zero_finite x : feq x fzero = true → is_finite x = true ∧ fle x fzero = true.
Proof. by destruct x as [[]|[]| |[]]. Qed.

Lemma stored_positive_nonzero `{NL : !NumericOrderLaws NO} x : stored_positive x = true → feq x fzero = false.
Proof.
  unfold stored_positive. destruct (feq x fzero) eqn:He; [|done].
  apply feq_zero_finite in He as [Hf Hle]. by rewrite num_le_finite, Hle.
Qed.

Lemma advance_all d acts : Forall (λ a, effective_date a ≤ d) acts → advance d acts = [].
Proof. induction 1 as [|a acts Ha _ IH]; simpl; [done|]. by rewrite (proj2 (Z.leb_le _ _) Ha). Qed.

Lemma action_dates_bars bs alts acts cont a :
  detect_actions bs alts = Ok (acts, cont) → a ∈ acts → ∃ b, b ∈ bs ∧ effective_date a = trade_date b.
Proof.
  destruct bs as [|b bs]; [intros [= <- <-]; by intros ?%elem_of_nil|]. simpl. intros Hd Ha.
  destruct (detect_from_elem _ _ _ _ _ _ Hd Ha) as (q&c&pa&pc&(i&_&Hc)&Hp&Hin). exists c.
  split; [by eapply list_elem_of_lookup_2|]. unfold detect_pair in Hp.
  assert (∀ (x : CorporateAction) cs, (pa, pc) = ([x], cs) → a = x) as Hone.
  { intros x cs [= -> ->]. by apply list_elem_of_singleton in Hin. }
  destruct (fne _ _); [destruct (if _ && _ then _ else _); [|destruct (_ || _)]|destruct (_ && _); [destruct (fle _ _)|]];
    try done; try (injection Hp as <- <-; by apply elem_of_nil in Hin);
    apply bind_Ok in Hp as (r&_&[= <- <-]); by apply list_elem_of_singleton in Hin as ->.
Qed.

(** The first adjusted close is a number one can divide by: a later return divides by it,
    and a span of one bar is not adjusted. *)
Lemma first_adjusted_nonzero bs alts s b :
  adjust_default bs alts = Ok s → traded_bars s !! 0%nat = Some b →
  valid_float (final_close b) = true → feq (final_close b) fzero = false →
  ∃ x rest, adjusted_closes s = x :: rest ∧ feq x fzero = false.
Proof.
  intros (det&moves&Hb&Hd&Ha&_&Hp&Hlt&Hadj&Hm&_)%of_bars_Ok%adjust_inv Hhd Hv Hz.
  destruct (traded_bars s) as [|b0 [|b1 rest]] eqn:Ht; [done| |]; injection Hhd as ->.
  - exists (final_close b), []. split; [|done]. rewrite Hadj. simpl. rewrite advance_all.
    { simpl. by rewrite fmul_one_r. }
    rewrite Ha. apply Forall_forall. intros a Hin.
    assert (effective_date a ∈ effective_date <$> det.1) as (a'&->&Hin')%list_elem_of_fmap.
    { rewrite <-chain_factors_dates. by apply list_elem_of_fmap_2. }
    destruct det as [acts cont]. destruct (action_dates_bars _ _ _ _ _ Hd Hin') as (c&Hc&->).
    assert (ascending trade_date (bars s)) as Hasc by (rewrite Hb; apply sort_by_ascending).
    unfold traded_bars in Ht. rewrite <-(take_drop (pre_listing_bars s) (bars s)), Ht in Hc, Hasc.
    apply elem_of_app in Hc as [Hc|Hc]; [|by apply list_elem_of_singleton in Hc as ->].
    apply (StronglySorted_app_inv _ _ _ Hasc c b Hc). by left.
  - rewrite Hadj. simpl. eexists _, _. split; [reflexivity|].
    rewrite Hadj in Hm. unfold session_moves in Hm. simpl in Hm. apply bind_Ok in Hm as (q&Hq&_).
    by apply fdiv_nonzero in Hq.
Qed.

Lemma finish_total `{NL : !NumericOrderLaws NO} db' code p alts series i rb ra v :
  (∀ d r, bars_of db' code !! d = Some r → bar_row_ok r = true ∧ valid_float (br_final_close r) = true) →
  adjust_default (_stored_bars db' code) alts = Ok series →
  ∃ rep, finish_report p i series rb ra v = Ok rep.
Proof.
  intros Hok Hs. pose proof Hs as (det&moves&Hb&_&_&_&_&Hlt&_)%of_bars_Ok%adjust_inv. unfold finish_report.
  destruct (traded_bars series) as [|b rest] eqn:Ht.
  { unfold traded_bars in Ht. apply (f_equal length) in Ht. rewrite length_drop in Ht. simpl in Ht. lia. }
  assert (b ∈ _stored_bars db' code) as (r&Hr&Hbr)%stored_bars_elem.
  { assert (b ∈ traded_bars series) as Hin by (rewrite Ht; left). unfold traded_bars in Hin.
    apply (elem_of_sublist _ (bars series)) in Hin; [|apply sublist_drop].
    rewrite Hb in Hin. unfold sort_by in Hin. by rewrite py_sorted_perm in Hin. }
  destruct (Hok _ _ Hr) as [Hrow Hvalid].
  assert (final_close b = br_final_close r) as Hfc by (by rewrite Hbr).
  assert (feq (final_close b) fzero = false) as Hz.
  { rewrite Hfc. apply stored_positive_nonzero. unfold bar_row_ok in Hrow. rewrite !andb_true_iff in Hrow. tauto. }
  destruct (first_adjusted_nonzero _ _ _ b Hs) as (x&xs&Hx&Hxz); [by rewrite Ht|by rewrite Hfc|done|].
  destruct (last (b :: rest)) as [final|] eqn:Hlast; [|by apply last_None in Hlast]. simpl.
  unfold raw_ratio, adjusted_ratio. rewrite Ht, Hx. cbn [fmap list_fmap last_over_first].
  destruct (fdiv_total (List.last (final_close b :: (final_close <$> rest)) (final_close b)) _ Hz) as [q1 H1].
  destruct (fdiv_total (List.last (x :: xs) x) _ Hxz) as [q2 H2].
  unfold last_over_first. simpl fmap. cbn [list_fmap] in *. rewrite H1, H2. simpl. by eexists.
Qed.

(** ** One payload, and a run of many *)

(** A payload committed: the tables, and what the report says of it. *)
Definition committed (db : EquityDB) (payload : json) (asked : string) (at_ : instant)
    (db' : EquityDB) (rep : IngestReport) : Prop :=
  ∃ p series,
    parse_payload repr payload asked = Ok p ∧ stored_as db p at_ db' series (ir_bars rep) ∧
    ir_ins_code rep = s_ins_code p ∧ ir_status rep = v_status (validation series).

Lemma ingest_payload_inv `{NL : !NumericOrderLaws NO} db payload asked at_ db' r :
  equity_ok db → ingest_payload repr db payload asked at_ = (db', r) →
  match r with
  | Ok rep => committed db payload asked at_ db' rep ∧ equity_ok db'
  | Err _ => db' = db
  end.
Proof.
  intros Hok. unfold ingest_payload. destruct (parse_payload repr payload asked) as [p|e] eqn:Hp; simpl.
  2: { by intros [= <- <-]. }
  destruct (store_series db p at_) as [[db1 ((((i&series)&rb)&ra)&v)]|e] eqn:Hs; simpl.
  2: { by intros [= <- <-]. }
  intros [= <- <-]. apply store_series_inv in Hs. pose proof (stored_as_ok _ _ _ _ _ _ Hs Hok) as Hok'.
  destruct (finish_total db1 (s_ins_code p) (s_ins_code p) _ series i rb ra v
              (eo_bars _ Hok' _) (sa_series _ _ _ _ _ _ Hs)) as [rep Hrep].
  rewrite Hrep. split; [|done]. exists p, series.
  unfold finish_report in Hrep. destruct (List.head _); [|done]. destruct (last _); [|done].
  apply bind_Ok in Hrep as (q1&_&Hrep). apply bind_Ok in Hrep as (q2&_&Hrep). injection Hrep as <-.
  by split_and!.
Qed.

(** A file of the run that was taken in. *)
Definition took (disk : string → option payload_file) (paths : list string) (at_ : instant)
    (db db' : EquityDB) : Prop :=
  ∃ path payload rep, path ∈ paths ∧ read_payload_file disk path = Ok payload ∧
    committed db payload EmptyString at_ db' rep.

Record run_progress (disk : string → option payload_file) (paths : list string) (at_ : instant)
    (db0 : EquityDB) (items : Z) (st : EquityDB * RunReport) : Prop := {
  rg_ok : equity_ok st.1;
  rg_steps : nsteps (took disk paths at_) (Z.to_nat (rr_validated st.2 + rr_refused st.2)) db0 st.1;
  rg_counts : 0 ≤ rr_validated st.2 ∧ 0 ≤ rr_refused st.2;
  rg_total : rr_validated st.2 + rr_refused st.2 + rr_failed st.2 = items;
  rg_errors : rr_failed st.2 = Z.of_nat (length (rr_errors st.2));
}.

Lemma ingest_file_progress `{NL : !NumericOrderLaws NO} disk paths at_ db0 items st path :
  path ∈ paths → run_progress disk paths at_ db0 items st →
  run_progress disk paths at_ db0 (items + 1) (ingest_file repr disk at_ st path).
Proof.
  intros Hin Hp.
  assert (∀ e, run_progress disk paths at_ db0 (items + 1) (st.1, run_failed path e st.2)) as Hfail.
  { intros e. destruct Hp as [H1 H2 H3 H4 H5]. split; simpl; [done..|lia|].
    rewrite length_app. simpl. lia. }
  unfold ingest_file. destruct (read_payload_file disk path) as [payload|e] eqn:Hr; [|done].
  destruct (ingest_payload repr st.1 payload EmptyString at_) as [db' r] eqn:Hi.
  destruct Hp as [H1 H2 H3 H4 H5]. apply ingest_payload_inv in Hi; [|done].
  destruct r as [rep|e]; [|by subst]. destruct Hi as [Hc Hok].
  assert (took disk paths at_ st.1 db') as Ht by (by exists path, payload, rep).
  pose proof (nsteps_r _ _ _ _ H2 Ht) as Hs. rewrite <-Z2Nat.inj_succ in Hs by lia.
  split; simpl; [done| | | |done]; destruct (ir_status rep); try lia;
    by match goal with |- nsteps _ (Z.to_nat ?k) _ _ =>
         replace k with (Z.succ (rr_validated st.2 + rr_refused st.2)) by lia end.
Qed.

Lemma run_progress_all `{NL : !NumericOrderLaws NO} disk paths at_ db0 todo items st :
  (∀ p, p ∈ todo → p ∈ paths) → run_progress disk paths at_ db0 items st →
  run_progress disk paths at_ db0 (items + Z.of_nat (length todo)) (foldl (ingest_file repr disk at_) st todo).
Proof.
  revert items st. induction todo as [|path todo IH]; intros items st Hin Hp; simpl.
  { by rewrite Z.add_0_r. }
  replace (items + Z.of_nat (S (length todo))) with (items + 1 + Z.of_nat (length todo)) by lia.
  apply IH; [set_solver|]. apply ingest_file_progress; [set_solver|done].
Qed.

Lemma run_inv `{NL : !NumericOrderLaws NO} disk db paths at_ :
  equity_ok db →
  ∃ r, run_progress disk paths at_ db (Z.of_nat (length paths)) ((ingest_bar_files repr disk db paths at_).1, r) ∧
    (ingest_bar_files repr disk db paths at_).2 =
      match paths with
      | [] => NoPathsGiven
      | _ => if rr_failed r =? Z.of_nat (length paths) then EquityIngestFailed r else RunReported r
      end.
Proof.
  intros Hok. pose proof (run_progress_all disk paths at_ db paths 0 (db, empty_run)) as Hrun.
  destruct Hrun as [H1 H2 H3 H4 H5]; [done|split; simpl; [done|apply nsteps_O|lia|done|done]|].
  unfold ingest_bar_files. destruct paths as [|path paths]; [exists empty_run; by split|].
  destruct (foldl _ _ (path :: paths)) as [db' r]. exists r. by split.
Qed.

(** ** The refusal of a store that disagrees with itself *)
Definition disagrees (e : equity_error) : bool :=
  match e with ActionsDisagree _ _ => true | _ => false end.

Lemma insert_rows_Err {X V} (checks : X → result equity_error ()) key (row : X → V) t rows n e :
  insert_rows checks key row t rows n = Err e → ∃ x, checks x = Err e.
Proof.
  revert t n. induction rows as [|x rows IH]; intros t n; simpl; [done|].
  intros [H|([]&_&H)]%bind_Err; [by exists x|]. by destruct (t !! key x); eapply IH.
Qed.

Lemma write_bars_Err db code bs at_ e : _write_bars db code bs at_ = Err e → disagrees e = false.
Proof.
  assert (∀ stored joins e, check_joins code stored bs joins = Err e → disagrees e = false) as Hj.
  { intros stored joins e'. induction joins as [|[d d'] joins IH]; simpl; [done|].
    intros [H|([]&_&H)]%bind_Err; [|by injection H as <-|by apply IH].
    unfold joins_restated_close in H. simpl in H. destruct (stored !! d').
    - destruct (foldl _ _ _ !! d); simpl in H; by simplify_eq.
    - by injection H as <-. }
  assert (∀ t rows n e, insert_alternatives at_ t rows n = Err e → disagrees e = false) as Ha.
  { intros t rows. revert t. induction rows as [|b rows IH]; intros t n e'; simpl; [done|].
    intros [H|([]&_&H)]%bind_Err; [|by destruct (existsb _ _); eapply IH].
    unfold alternative_checks in H. apply bind_Err in H as [[_ ->]%raise_if_Err|(?&_&[_ ->]%raise_if_Err)]; done. }
  unfold _write_bars. destruct (_ || _); [by intros [= <-]|].
  intros [H|([]&_&H)]%bind_Err; [by eapply Hj|]. apply bind_Err in H as [H|([t n]&_&H)].
  - apply insert_rows_Err in H as [x H]. unfold equity_bar_checks in H.
    apply bind_Err in H as [[_ ->]%raise_if_Err|(?&_&[_ ->]%raise_if_Err)]; done.
  - apply bind_Err in H as [H|([an m]&_&H)]; [by eapply Ha|done].
Qed.

Lemma write_actions_Err db code series at_ e :
  _write_actions db code series at_ = Err e → disagrees e = true →
  e = ActionsDisagree code (omap (disagreement (actions_of db code)) (actions series)).
Proof.
  assert (∀ stored acts t n e, refactor stored acts t n = Err e → disagrees e = false) as Hr.
  { intros stored acts. induction acts as [|a acts IH]; intros t n e'; simpl; [done|].
    destruct (stored !! _); [|apply IH]. destruct (_close_enough _ _); [apply IH|].
    intros [[_ ->]%raise_if_Err|(?&_&H)]%bind_Err; [done|by eapply IH]. }
  unfold _write_actions. destruct (omap _ _) as [|x found]; [|by intros [= <-]].
  intros [H|([t n]&_&H)]%bind_Err Hd; [by apply Hr in H; rewrite H in Hd|].
  apply bind_Err in H as [H|([t2 n2]&_&H)]; [|done].
  apply insert_rows_Err in H as [a [_ ->]%raise_if_Err]. done.
Qed.

Lemma write_bars_grows db code bs at_ db' rep :
  _write_bars db code bs at_ = Ok (db', rep) → bars_of db code ⊆ bars_of db' code.
Proof.
  unfold _write_bars. destruct (_ || _); [done|]. intros (?&_&H)%bind_Ok.
  apply bind_Ok in H as ([t n]&Ht&H). apply bind_Ok in H as (?&_&[= <- _]).
  unfold bars_of at 2. simpl. rewrite rows_of_insert. by apply insert_rows_spec in Ht as (?&_).
Qed.

Lemma ingest_disagrees db payload asked at_ db' code found :
  ingest_payload repr db payload asked at_ = (db', Err (ActionsDisagree code found)) →
  ∃ p db1 rb series,
    code = s_ins_code p ∧ _write_bars db code (bars p) at_ = Ok (db1, rb) ∧
    adjust_default (_stored_bars db1 code) (Some (_stored_alternatives db1 code)) = Ok series ∧
    found = omap (disagreement (actions_of db code)) (actions series).
Proof.
  unfold ingest_payload. destruct (_ ≫= _) as [[c [d ((((i&s)&rb)&ra)&v)]]|e] eqn:Hm.
  { intros [= _ H]. exfalso. unfold finish_report in H. destruct (List.head _); [|done].
    destruct (last _); [|done]. unfold of_python in H.
    apply bind_Err in H as [H|(q&_&H)]; [by destruct (raw_ratio s)|].
    apply bind_Err in H as [H|(q2&_&H)]; [by destruct (adjusted_ratio s)|done]. }
  intros [= _ ->]. apply bind_Err in Hm as [Hm|(p&_&Hm)].
  { exfalso. unfold parse_payload, adjust_default in Hm.
    apply bind_Err in Hm as [Hm|(bs&_&Hm)]; unfold of_bars in Hm; by destruct (_ : result bar_error _). }
  apply bind_Err in Hm as [Hm|(w&_&Hm)]; [|done]. unfold store_series in Hm.
  destruct (equity_instruments db !! _); [|done].
  apply bind_Err in Hm as [Hm|([db1 rb]&Hb&Hm)]; [by apply write_bars_Err in Hm|].
  apply bind_Err in Hm as [Hm|(series&Hs&Hm)].
  { exfalso. unfold adjust_default, of_bars in Hm. by destruct (adjust _ _ _ _ _). }
  apply bind_Err in Hm as [Hm|([db2 ra]&_&Hm)].
  - apply write_actions_Err in Hm; [|done]. injection Hm as -> ->.
    exists p, db1, rb, series. split_and!; try done. simpl.
    unfold _write_bars in Hb. destruct (_ || _); [done|]. apply bind_Ok in Hb as (?&_&Hb).
    apply bind_Ok in Hb as (?&_&Hb). apply bind_Ok in Hb as (?&_&Hb). by injection Hb as <- _.
  - apply bind_Err in Hm as [Hm|(?&_&?)]; [|done]. exfalso. unfold _write_verdict, verdict_checks in Hm.
    by apply bind_Err in Hm as [[_ ?]%raise_if_Err|(?&_&?)].
Qed.
End Facts.

Section Theorems.
Context `{NF : !NumericFloat} `{NO : !NumericOrder} (repr : json → string).

(** C3. The gate is never stale.  From well-formed tables, whatever files a run is given and
    whatever they hold, it leaves well-formed tables: every CHECK and foreign key holds, the
    coverage columns are exact, every stored action was read off two stored bars, and every
    verdict row is the verdict of the adjuster over exactly the bars and the alternatives
    stored of its symbol, with exactly the actions they imply stored beside it. *)
Theorem equity_run_preserves `{NL : !NumericOrderLaws NO} disk db paths at_ :
  equity_ok db → equity_ok (ingest_bar_files repr disk db paths at_).1.
Proof. intros Hok. by destruct (run_inv repr disk db paths at_ Hok) as (r&[H _ _ _ _]&_). Qed.

(** What a reader of the verdict may rely on: in well-formed tables a symbol that is marked
    validated has, over the closes stored of it as its stored actions adjust them, no move
    beyond the bound of its kind of boundary. *)
Theorem equity_validated_is_gated (db : EquityDB) (code : string) (r : VerdictRow) :
  equity_ok db → equity_adjustments db !! (code, ADJUSTMENT_VERSION) = Some r →
  vr_status r = validated →
  ∃ s moves,
    adjust_default (_stored_bars db code) (Some (_stored_alternatives db code)) = Ok s ∧
    bars s = _stored_bars db code ∧ dom (actions_of db code) = dates_of (actions s) ∧
    session_moves (traded_bars s) (apply_factors (traded_bars s) (actions s)) SESSION_GAP_DAYS = Ok moves ∧
    ∀ m, m ∈ moves → within_bounds MAX_SESSION_RETURN MAX_REOPENING_RETURN m.
Proof.
  intros Hok Hr Hval. destruct (eo_verdicts _ Hok _ _ Hr) as (s&at_&Hs&Hdom&_&->).
  pose proof Hs as (det&moves&Hb&_&_&_&_&_&Hadj&Hm&Hv)%of_bars_Ok%adjust_inv.
  exists s, moves. rewrite <-Hadj. split_and!; try done.
  - rewrite Hb. apply sort_by_id, strictly_ascending_ascending, stored_bars_strict.
  - simpl in Hval. rewrite Hv in Hval. apply (validate_violations_nil _ _ SESSION_GAP_DAYS).
    simpl in Hval |- *. by destruct (bool_decide_reflect ((List.filter (beyond MAX_SESSION_RETURN)
      (List.filter is_session moves) ++ List.filter (beyond MAX_REOPENING_RETURN)
      (List.filter (λ m, negb (is_session m)) moves)) = [])).
Qed.


(** A run isolates its files: it leaves the tables of exactly the files it counts as
    validated or refused, taken in one after the other; every path is counted once, every
    failure is named; and a file that fails, at whatever step, leaves no trace - what follows
    a commit cannot raise. *)
Theorem equity_run_isolated `{NL : !NumericOrderLaws NO} disk db paths at_ :
  equity_ok db →
  let run := ingest_bar_files repr disk db paths at_ in
  match run.2 with
  | NoPathsGiven => paths = [] ∧ run.1 = db
  | EquityIngestFailed r => length (rr_errors r) = length paths ∧ run.1 = db
  | RunReported r =>
      nsteps (took repr disk paths at_) (Z.to_nat (rr_validated r + rr_refused r)) db run.1 ∧
      rr_validated r + rr_refused r + rr_failed r = Z.of_nat (length paths) ∧
      rr_failed r = Z.of_nat (length (rr_errors r)) ∧ 0 < rr_validated r + rr_refused r
  end.
Proof.
  intros Hok run. destruct (run_inv repr disk db paths at_ Hok) as (r&[_ Hs Hc Ht He]&Hout).
  fold run in Hs, Hout. simpl in *. rewrite Hout. destruct paths as [|path paths]; [done|].
  destruct (Z.eqb_spec (rr_failed r) (Z.of_nat (length (path :: paths)))) as [Hf|Hf].
  - split; [lia|]. replace (Z.to_nat _) with 0%nat in Hs by lia. by inversion Hs.
  - split_and!; [done..|lia].
Qed.

(** The refusal of a store that disagrees with itself is for a corrupted store: in tables
    the ingest keeps, a payload is refused for it only over a ratio that is not a finite
    number. *)
Theorem equity_store_never_disagrees `{NL : !NumericOrderLaws NO} db payload asked at_ db' code found :
  equity_ok db → ingest_payload repr db payload asked at_ = (db', Err (ActionsDisagree code found)) →
  ∀ d stored detected, (d, stored, detected) ∈ found → valid_float detected && is_finite detected = false.
Proof.
  intros Hok (p&db1&rb&series&->&Hb&Hs&->)%ingest_disagrees d stored detected Hin.
  apply list_elem_of_omap in Hin as (a&Ha&Hd). unfold disagreement in Hd.
  pose proof (meet_spec (actions_of db (s_ins_code p)) a) as Hm.
  destruct (meet _ a) as [| |r|]; try done. injection Hd as <- <- <-. destruct Hm as (Hr&Hprev&Hclose).
  destruct (eo_evidence _ Hok _ _ _ Hr) as (b&c&a0&Hb0&Hc0&H1&H2&H3&H4).
  destruct (series_evidence _ _ _ a Hs Ha) as (b'&c'&a1&Hb1&Hc1&H5&H6&H7&H8).
  apply write_bars_grows in Hb.
  assert (b' = b) as ->.
  { apply (NoDup_key_inj trade_date (_stored_bars db1 (s_ins_code p))); [apply stored_bars_NoDup|done| |congruence].
    by eapply stored_bars_mono. }
  assert (c' = c) as ->.
  { apply (NoDup_key_inj trade_date (_stored_bars db1 (s_ins_code p))); [apply stored_bars_NoDup|done| |congruence].
    by eapply stored_bars_mono. }
  rewrite H3 in H7. injection H7 as <-. rewrite H4, H8 in Hclose.
  destruct (valid_float (ratio a)) eqn:Hv, (is_finite (ratio a)) eqn:Hf; try done.
  by rewrite numeric_close in Hclose.
Qed.
End Theorems.

(** ** An instance, and a story *)

(** SQLite, the database of the tests: it keeps a float, refuses NaN where a value must be,
    and compares numbers. *)
#[local] Instance demo_numeric : NumericFloat :=
  {| numeric := λ x, if valid_float x then x else fnan |}.
#[local] Instance demo_numbers : NumericOrder :=
  {| storable := λ x, negb (is_nan x); num_le := fle |}.

Lemma close_enough_refl x : is_finite x = true → _close_enough x x = true.
Proof.
  intros Hf. unfold _close_enough. rewrite fsub_diag by done. change (fabs fzero) with fzero.
  assert (fle fzero (fabs x) = true ∧ is_finite (fabs x) = true) as [H1 H2].
  { by destruct x as [[]|[]| |[] m e]. }
  assert (∀ a b, fle fzero a = true → fle fzero b = true → is_finite a = true → is_finite b = true →
    fle fzero (fmax a b) = true ∧ is_finite (fmax a b) = true) as Hmax.
  { intros a b ????. unfold fmax. by destruct (fgt b a). }
  destruct (Hmax _ _ H1 H1 H2 H2) as [H3 H4].
  destruct (Hmax (fmax (fabs x) (fabs x)) fone) as [H5 H6]; [done..|].
  by apply fmul_nonneg.
Qed.

#[local] Instance demo_laws : NumericOrderLaws demo_numbers.
Proof.
  split.
  - intros x. simpl. by destruct (valid_float x) eqn:Hv.
  - done.
  - intros x Hv Hf. simpl. rewrite Hv. by apply close_enough_refl.
Qed.

Definition session (deven close yesterday : Z) : json := a_row deven close yesterday 100.

(** Two copies of one history: the first lacks the session of 2023-03-27. *)
Definition copy_without : json := JObj
  [(FIELD_LIST, JArr [session 20230329 1300 1260; session 20230328 1260 1240; session 20230326 1200 1190;
                      session 20230325 1190 1180])].
Definition copy_with : json := JObj
  [(FIELD_LIST, JArr [session 20230329 1300 1260; session 20230328 1260 1240; session 20230327 1240 1200;
                      session 20230326 1200 1190; session 20230325 1190 1180])].

Definition demo_instrument : Instrument :=
  {| in_symbol_fa := "FOLD"; in_name_fa := "Foolad"; in_market := "bourse"; in_board := EmptyString;
     in_sector_code := EmptyString; in_sector_fa := EmptyString; in_isin := EmptyString;
     in_instrument_code := None; in_enabled := true; in_notes := EmptyString; in_first_bar := None;
     in_last_bar := None; in_bar_count := 0; in_updated_at := 0 |}.

Definition demo_db : EquityDB :=
  {| equity_instruments := {[ "123" := demo_instrument ]}; equity_bars := ∅;
     equity_bar_alternatives := ∅; corporate_actions := ∅; equity_adjustments := ∅ |}.

Definition demo_disk (path : string) : option payload_file :=
  if String.eqb path "without.json" then Some {| pf_size := 4000; pf_json := Some copy_without |}
  else if String.eqb path "with.json" then Some {| pf_size := 4000; pf_json := Some copy_with |}
  else if String.eqb path "stub.json" then Some {| pf_size := 12; pf_json := None |}
  else None.

Definition demo_run (paths : list string) : EquityDB * run_outcome :=
  ingest_bar_files no_repr demo_disk demo_db paths 7.

Definition the_actions (db : EquityDB) : list (date * date * float) :=
  (λ x, (x.1, ac_prev_trade_date x.2, ac_ratio x.2)) <$> sort_by fst (map_to_list (actions_of db "123")).

(** The copy without the session implies an action that nobody made; once the other copy
    stores the session, the action is retired and the verdict taken again. *)
Example phantom_action_retired :
  (length (the_actions (demo_run ["without.json"]).1),
   the_actions (demo_run ["without.json"; "stub.json"; "with.json"]).1,
   size (bars_of (demo_run ["without.json"; "stub.json"; "with.json"]).1 "123")) = (1%nat, [], 5%nat).
Proof. vm_compute. reflexivity. Qed.

Lemma demo_equity_ok : equity_ok demo_db.
Proof.
  split; try done. intros code i Hi. simpl in Hi. apply lookup_singleton_Some in Hi as [<- <-]. by split.
Qed.

Lemma demo_run_ok paths : equity_ok (demo_run paths).1.
Proof. by destruct (run_inv no_repr demo_disk demo_db paths 7 demo_equity_ok) as (r&[H _ _ _ _]&_). Qed.

Lemma equity_run_preserves_witness : equity_ok demo_db ∧ equity_ok (demo_run ["without.json"; "with.json"]).1.
Proof.
  split; [exact demo_equity_ok|].
  exact (equity_run_preserves no_repr demo_disk demo_db ["without.json"; "with.json"] 7 demo_equity_ok).
Defined.

Lemma equity_validated_is_gated_witness :
  let db := (demo_run ["with.json"]).1 in
  ∃ r, equity_adjustments db !! ("123", ADJUSTMENT_VERSION) = Some r ∧ vr_status r = validated ∧
  ∃ s moves,
    adjust_default (_stored_bars db "123") (Some (_stored_alternatives db "123")) = Ok s ∧
    bars s = _stored_bars db "123" ∧ dom (actions_of db "123") = dates_of (actions s) ∧
    session_moves (traded_bars s) (apply_factors (traded_bars s) (actions s)) SESSION_GAP_DAYS = Ok moves ∧
    ∀ m, m ∈ moves → within_bounds MAX_SESSION_RETURN MAX_REOPENING_RETURN m.
Proof.
  intros db.
  pose proof (demo_run_ok ["with.json"]) as Hok. fold db in Hok.
  destruct (equity_adjustments db !! ("123", ADJUSTMENT_VERSION)) as [r|] eqn:Hr;
    [|vm_compute in Hr; discriminate Hr].
  assert (vr_status r = validated) as Hv.
  { vm_compute in Hr. injection Hr as <-. reflexivity. }
  exists r. split; [reflexivity|split; [exact Hv|]].
  exact (equity_validated_is_gated db "123" r Hok Hr Hv).
Defined.


Lemma equity_run_isolated_witness :
  match (demo_run ["without.json"; "stub.json"]).2 with
  | RunReported r => rr_validated r + rr_refused r + rr_failed r = 2
  | _ => False
  end.
Proof.
  pose proof (equity_run_isolated no_repr demo_disk demo_db ["without.json"; "stub.json"] 7 demo_equity_ok) as H.
  cbv zeta in H. change (ingest_bar_files _ _ _ _ _) with (demo_run ["without.json"; "stub.json"]) in H.
  assert (match (demo_run ["without.json"; "stub.json"]).2 with RunReported _ => true | _ => false end = true)
    as Hr by (vm_compute; reflexivity).
  destruct (demo_run ["without.json"; "stub.json"]) as [db out]. cbn [fst snd] in *.
  destruct out as [|r|r]; [discriminate Hr..|]. apply H.
Defined.

(** PostgreSQL stores NaN and orders it above every number. *)
Definition postgres : @NumericOrder demo_numeric :=
  {| storable := λ _, true; num_le := λ x y, is_nan y || fle x y |}.

Lemma postgres_laws : NumericOrderLaws postgres.
Proof.
  split.
  - apply numeric_valid.
  - intros x y _ Hy. simpl. by replace (is_nan y) with false by (by destruct y).
  - apply numeric_close.
Qed.

(** A NaN close is stored there with an action of a NaN ratio, which the next ingest of the
    same file finds to disagree with itself. *)
Definition nan_payload : json := JObj [(FIELD_LIST, JArr [nan_row 20260908 3; nan_row 20260909 3])].
Definition nan_db : EquityDB :=
  {| equity_instruments := {[ "1" := demo_instrument ]}; equity_bars := ∅;
     equity_bar_alternatives := ∅; corporate_actions := ∅; equity_adjustments := ∅ |}.
Definition nan_run (db : EquityDB) : EquityDB * result equity_error IngestReport :=
  ingest_payload (NO := postgres) no_repr db nan_payload EmptyString 7.

Lemma nan_db_ok : equity_ok (NO := postgres) nan_db.
Proof.
  split; try done. intros code i Hi. simpl in Hi. apply lookup_singleton_Some in Hi as [<- <-]. by split.
Qed.

Lemma equity_store_never_disagrees_witness :
  ∃ found, (nan_run (nan_run nan_db).1).2 = Err (ActionsDisagree "1" found) ∧
  ∀ d stored detected, (d, stored, detected) ∈ found → valid_float detected && is_finite detected = false.
Proof.
  assert (equity_ok (NO := postgres) (nan_run nan_db).1) as Hok.
  { pose proof (ingest_payload_inv (NO := postgres) (NL := postgres_laws) no_repr nan_db nan_payload
      EmptyString 7 (nan_run nan_db).1 (nan_run nan_db).2 nan_db_ok (surjective_pairing _)) as H.
    destruct (nan_run nan_db).2 as [rep|e]; [exact (proj2 H)|]. rewrite H. exact nan_db_ok. }
  destruct (nan_run (nan_run nan_db).1) as [db' r] eqn:Hrun.
  assert (is_ok r = false ∧ ∃ found, r = Err (ActionsDisagree "1" found)) as [_ [found ->]].
  { change r with (db', r).2. rewrite <-Hrun. clear Hrun Hok. vm_compute. split; [reflexivity|]. by eexists. }
  exists found. split; [reflexivity|].
  exact (equity_store_never_disagrees (NO := postgres) (NL := postgres_laws) no_repr (nan_run nan_db).1
           nan_payload EmptyString 7 db' "1" found Hok Hrun).
Defined.
