(* ===== verification/Intervals.v ===== *)
(** * Split-conformal prediction intervals

    [app/models/intervals.py]: the conformal band calibrated on a pool of
    relative residuals, its finite-sample guarantee, the adaptive miscoverage
    level, and the walk-forward measurement of coverage with the evidence behind
    it.

    NumPy is outside the repository: [NumPy] is the four array functions the
    module calls and [NumPyLaws] their documented behaviour. *)
From S2P Require Import Prelude PyFloat PyJson.
From Stdlib Require Import SpecFloat.
Local Open Scope string_scope.
Local Open Scope list_scope.
Local Open Scope Z_scope.

(** ** NumPy, on one-dimensional arrays of float64 *)
Class NumPy := {
  np_abs : float → float;
  np_isfinite : float → bool;
  np_sort : list float → list float;
  np_clip : float → float → float → float;
}.

Class NumPyLaws (NP : NumPy) : Prop := {
  np_abs_is x : np_abs x = fabs x;
  np_isfinite_is x : np_isfinite x = is_finite x;
  np_sort_perm xs : np_sort xs ≡ₚ xs;
  np_sort_sorted xs : no_nan xs → StronglySorted (not_below flt) (np_sort xs);
  np_clip_bounds x lo hi :
    is_nan x = false → flt hi lo = false → is_nan lo = false → is_nan hi = false →
    fle lo (np_clip x lo hi) = true ∧ fle (np_clip x lo hi) hi = true;
  np_clip_nan x lo hi : is_nan x = true → is_nan (np_clip x lo hi) = true;
}.

(** [ordered[i]] with Python's negative indices *)
Definition np_index (xs : list float) (i : Z) : result pyerr float :=
  let n := Z.of_nat (length xs) in
  let j := if i <? 0 then i + n else i in
  if j <? 0 then Err IndexError
  else match xs !! Z.to_nat j with Some x => Ok x | None => Err IndexError end.

(** [math.floor(x)] and [math.ceil(x)] *)
Definition py_floor (x : float) : result pyerr Z :=
  match x with
  | S754_zero _ => Ok 0
  | S754_infinity _ => Err OverflowError
  | S754_nan => Err ValueError
  | S754_finite s m e =>
      let z := if (s : bool) then - Zpos m else Zpos m in
      Ok (if 0 <=? e then z * 2 ^ e else z / 2 ^ (- e))
  end.

Definition py_ceil (x : float) : result pyerr Z := z ← py_floor (fopp x); Ok (- z).

(** [(n + 1) * f]: an int times a float *)
Definition times_float (n : Z) (f : float) : result pyerr float :=
  x ← py_float_of_int n; Ok (fmul x f).

Definition DEFAULT_ALPHA : float := flit 1 1.
Definition MIN_EVIDENCE_RADIUS : float := flit 5 2.

(** [(float(a) - float(p)) / float(p)] where [p != 0] *)
Definition relative_residual (p a : float) : option float :=
  if fne p fzero then Some (fdiv_ieee (fsub a p) p) else None.

Definition relative_residuals (preds actuals : list float) : list float :=
  omap (λ pa, relative_residual pa.1 pa.2) (zip preds actuals).

Definition symmetric_min_n (alpha : float) : result pyerr Z :=
  q ← fdiv fone alpha; c ← py_ceil q; Ok (Z.max 1 (c - 1)).

Definition two_sided_min_n (alpha : float) : result pyerr Z :=
  q ← fdiv (float_of_Z 2) alpha; c ← py_ceil q; Ok (Z.max 1 (c - 1)).

Section Bands.
Context `{NP : !NumPy}.

(** [math.ceil((n + 1) * (1.0 - alpha))] *)
Definition conformal_rank (n : Z) (alpha : float) : result pyerr Z :=
  level ← times_float (n + 1) (fsub fone alpha); py_ceil level.

Definition conformal_radius (residuals : list float) (alpha : float)
    : result pyerr (float * bool) :=
  let res := List.filter np_isfinite (np_abs <$> residuals) in
  let n := Z.of_nat (length res) in
  if n =? 0 then Ok (MIN_EVIDENCE_RADIUS, false)
  else
    k ← conformal_rank n alpha;
    let ordered := np_sort res in
    if k <=? n then (r ← np_index ordered (k - 1); Ok (r, true))
    else
      level ← times_float (n + 1) (fsub fone alpha);
      size ← py_float_of_int n;
      inflation ← fdiv level size;
      largest ← np_index ordered (-1);
      Ok (fmax (fmul largest inflation) MIN_EVIDENCE_RADIUS, false).

Inductive method_detail : Set :=
| conformal_two_sided (lower_residual upper_residual : float)
| conformal_symmetric (radius : float)
| conformal_extrapolated (radius : float).

Record diagnostics : Set := {
  n_residuals : Z;
  dg_alpha : float;
  dg_method : method_detail;
  coverage_guaranteed : bool;
  min_n_symmetric : Z;
  min_n_two_sided : Z;
  rel_width_pct : float;
}.

(** The ranks of the two tails, [lo_idx] and [hi_idx]. *)
Definition two_sided_ranks (n : Z) (alpha : float) : result pyerr (Z * Z) :=
  half ← fdiv alpha (float_of_Z 2);
  lo ← times_float (n + 1) half;
  lo ← py_floor lo;
  hi ← times_float (n + 1) (fsub fone half);
  hi ← py_ceil hi;
  Ok (Z.max 1 lo, Z.min n hi).

(** The two residual quantiles of [conformal_interval], with what the
    diagnostics say of them. *)
Definition residual_band (res : list float) (alpha : float)
    : result pyerr (float * float * method_detail * bool) :=
  let n := Z.of_nat (length res) in
  need ← two_sided_min_n alpha;
  if need <=? n then
    let ordered := np_sort res in
    ranks ← two_sided_ranks n alpha;
    lo_q ← np_index ordered (fst ranks - 1);
    hi_q ← np_index ordered (snd ranks - 1);
    Ok (lo_q, hi_q, conformal_two_sided (py_round lo_q 6) (py_round hi_q 6), true)
  else
    rg ← conformal_radius res alpha;
    let '(radius, guaranteed) := rg in
    Ok (fopp radius, radius,
        if (guaranteed : bool) then conformal_symmetric (py_round radius 6)
        else conformal_extrapolated (py_round radius 6), guaranteed).

Definition conformal_interval (point : float) (residuals : list float) (alpha : float)
    : result pyerr (float * float * diagnostics) :=
  let res := List.filter np_isfinite residuals in
  sym ← symmetric_min_n alpha;
  two ← two_sided_min_n alpha;
  band ← residual_band res alpha;
  let '(lo_q, hi_q, detail, guaranteed) := band in
  let lower := fmul point (fadd fone lo_q) in
  let upper := fmul point (fadd fone hi_q) in
  let '(lower, upper) := if fgt lower upper then (upper, lower) else (lower, upper) in
  width ← (if fne point fzero then
             w ← fdiv (fsub upper lower) point; Ok (fmul w fhundred)
           else Ok fzero);
  Ok (lower, upper,
      {| n_residuals := Z.of_nat (length res); dg_alpha := py_round alpha 4;
         dg_method := detail; coverage_guaranteed := guaranteed; min_n_symmetric := sym;
         min_n_two_sided := two; rel_width_pct := py_round width 4 |}).

Definition empirical_interval (point : float) (residuals : list float) (alpha : float)
    : result pyerr (float * float) :=
  r ← conformal_interval point residuals alpha;
  let '(lower, upper, _) := r in Ok (lower, upper).

(** ** The adaptive level *)
Definition ACI_GAIN : float := flit 5 1.
Definition ACI_MIN_ALPHA : float := flit 2 2.
Definition ACI_MAX_ALPHA : float := flit 30 2.
Definition ACI_MIN_N : Z := 20.

Definition adaptive_alpha (live_coverage : option float) (n : Z) (alpha target : float) : float :=
  match live_coverage with
  | None => alpha
  | Some live =>
      if n <? ACI_MIN_N then alpha
      else np_clip (fadd alpha (fmul ACI_GAIN (fsub live target))) ACI_MIN_ALPHA ACI_MAX_ALPHA
  end.

(** ** Coverage and the evidence for it *)
Definition MIN_SCORED_FOR_COVERAGE : Z := 20.

Record CoverageEvidence : Set := {
  hits : Z;
  scored : Z;
  min_scored : Z;
  offered : Z;
  warmup : Z;
}.

Definition sufficient (c : CoverageEvidence) : bool := min_scored c <=? scored c.

Definition observed_rate (c : CoverageEvidence) : option float :=
  if scored c =? 0 then None else Some (int_true_div (hits c) (scored c)).

Definition rate (c : CoverageEvidence) : option float :=
  if sufficient c then observed_rate c else None.

Inductive coverage_status : Set := not_scored | measured | insufficient_evidence.

Definition status (c : CoverageEvidence) : coverage_status :=
  if scored c =? 0 then not_scored
  else if sufficient c then measured else insufficient_evidence.

Definition status_text (c : coverage_status) : string :=
  match c with
  | not_scored => "not_scored"
  | measured => "measured"
  | insufficient_evidence => "insufficient_evidence"
  end.

(** The stored form: the rate never travels without its numbers. *)
Definition as_published (c : CoverageEvidence) : json :=
  JObj [("rate", match rate c with Some r => JFloat r | None => JNull end);
        ("hits", JInt (hits c)); ("scored_folds", JInt (scored c));
        ("total_folds", JInt (offered c)); ("residual_warmup_folds", JInt (warmup c));
        ("min_scored_folds", JInt (min_scored c)); ("status", JStr (status_text (status c)))].

Definition within (interval : float * float) (a : float) : bool :=
  fle interval.1 a && fle a interval.2.

Definition coverage (actuals : list float) (intervals : list (float * float)) : option float :=
  match zip actuals intervals with
  | [] => None
  | pairs =>
      Some (int_true_div (Z.of_nat (length (List.filter (λ p, within p.2 p.1) pairs)))
                         (Z.of_nat (length pairs)))
  end.

(** The loop of [walk_forward_coverage]; the state is (residuals, hits, total). *)
Fixpoint walk_folds (alpha : float) (min_history : Z) (pairs : list (float * float))
    (residuals : list float) (hit total : Z) : result pyerr (Z * Z) :=
  match pairs with
  | [] => Ok (hit, total)
  | (p, a) :: pairs =>
      ht ← (if min_history <=? Z.of_nat (length residuals) then
              i ← empirical_interval p residuals alpha;
              Ok (if within i a then hit + 1 else hit, total + 1)
            else Ok (hit, total));
      let '(hit, total) := ht in
      let residuals := match relative_residual p a with
                       | Some r => residuals ++ [r]
                       | None => residuals
                       end in
      walk_folds alpha min_history pairs residuals hit total
  end.

Definition walk_forward_coverage (preds actuals : list float) (alpha : float)
    (min_history min_scored_ : Z) : result pyerr CoverageEvidence :=
  let pairs := zip preds actuals in
  ht ← walk_folds alpha min_history pairs [] 0 0;
  let '(hit, total) := ht in
  let offered_ := Z.of_nat (length pairs) in
  Ok {| hits := hit; scored := total; min_scored := min_scored_; offered := offered_;
        warmup := offered_ - total |}.
End Bands.

(** ** Order statistics and leave-one-out ranks *)
Section Ranks.
Context {A : Type} (lt : A → A → bool) (ok : A → Prop).
Context (lt_irrefl : ∀ x, lt x x = false).
Context (lt_negtrans : ∀ x y z, ok y → lt x z = true → lt x y = true ∨ lt y z = true).

(** How many elements of [l] lie below [x]. *)
Definition below (x : A) (l : list A) : nat := length (List.filter (λ y, lt y x) l).

Lemma below_perm x l k : l ≡ₚ k → below x l = below x k.
Proof. intros Hp. apply Permutation_length. by apply Permutation_bool_filter. Qed.

Lemma below_delete x i l : l !! i = Some x → below x (delete i l) = below x l.
Proof.
  intros Hi. apply delete_Permutation in Hi. rewrite (below_perm x _ _ Hi).
  unfold below. simpl. by rewrite lt_irrefl.
Qed.

(** Where the element of rank [k] is below [x], more than [k] elements are. *)
Lemma below_of_rank S q k x :
  StronglySorted (not_below lt) S → Forall ok S → S !! k = Some q → lt q x = true →
  (k < below x S)%nat.
Proof.
  intros Hs Hok Hk Hq. apply list_elem_of_split_length in Hk as (S1&S2&->&->).
  pose proof (StronglySorted_app_inv _ _ _ Hs) as Hb. unfold below. rewrite bool_filter_app.
  rewrite (bool_filter_all _ S1).
  - rewrite length_app. simpl. rewrite Hq. simpl. lia.
  - intros y Hy. specialize (Hb y q Hy ltac:(left)). unfold not_below in Hb.
    rewrite Forall_app, Forall_forall in Hok.
    destruct (lt_negtrans q y x (proj1 Hok y Hy) Hq); congruence.
Qed.

(** The [k] smallest elements have fewer than [k] below them. *)
Lemma low_ranks S k :
  StronglySorted (not_below lt) S → (k ≤ length S)%nat →
  (k ≤ length (List.filter (λ x, (below x S <? k)%nat) S))%nat.
Proof.
  intros Hs Hk. set (p := λ x, (below x S <? k)%nat).
  rewrite <-(take_drop k S), bool_filter_app, length_app.
  rewrite (bool_filter_all _ (take k S)); [rewrite length_take; lia|].
  intros x Hx. apply list_elem_of_lookup in Hx as [j Hj].
  apply lookup_take_Some in Hj as [Hj Hlt]. apply Nat.ltb_lt. clear p.
  apply list_elem_of_split_length in Hj as (S1&S2&->&->).
  replace (S1 ++ x :: S2) with ((S1 ++ [x]) ++ S2) in Hs by by rewrite <-app_assoc.
  pose proof (StronglySorted_app_inv _ _ _ Hs) as Hb. unfold below. rewrite bool_filter_app, length_app. simpl. rewrite lt_irrefl.
  rewrite (proj2 (filter_nil_iff _ S2)).
  - pose proof (List.filter_length_le (λ y, lt y x) S1). simpl. lia.
  - apply Forall_forall. intros y Hy. apply (Hb x y); [|done]. apply elem_of_app. right. left.
Qed.

(** At least [k] elements of any list have fewer than [k] below them. *)
Lemma low_ranks_perm l S k :
  S ≡ₚ l → StronglySorted (not_below lt) S → (k ≤ length l)%nat →
  (k ≤ length (List.filter (λ x, (below x l <? k)%nat) l))%nat.
Proof.
  intros Hp Hs Hk. rewrite <-(Permutation_length Hp) in Hk.
  pose proof (low_ranks S k Hs Hk) as H.
  rewrite (Permutation_length (Permutation_bool_filter _ _ _ Hp)) in H.
  erewrite bool_filter_ext in H; [exact H|]. intros x _. simpl. by rewrite (below_perm x _ _ Hp).
Qed.
End Ranks.

(** ** Lists indexed by position *)
Lemma filter_positions {A} (p : A → bool) l :
  length (List.filter (λ i, match l !! i with Some x => p x | None => false end) (seq 0 (length l)))
  = length (List.filter p l).
Proof.
  induction l as [|x l IH] using rev_ind; [done|].
  rewrite length_app, seq_app, !bool_filter_app, !length_app. simpl. rewrite <-IH. f_equal.
  - f_equal. apply bool_filter_ext. intros i Hi. apply elem_of_seq in Hi.
    rewrite lookup_app_l by lia. done.
  - rewrite list_lookup_middle by done. by destruct (p x).
Qed.

Lemma filter_length_mono {A} (p q : A → bool) l :
  (∀ x, x ∈ l → p x = true → q x = true) →
  (length (List.filter p l) ≤ length (List.filter q l))%nat.
Proof.
  intros H. induction l as [|x l IH]; simpl; [done|].
  assert (length (List.filter p l) ≤ length (List.filter q l))%nat by (apply IH; intros; apply H; [by right|done]).
  destruct (p x) eqn:Hp; [rewrite (H x ltac:(left) Hp); simpl; lia|].
  destruct (q x); simpl; lia.
Qed.

Lemma filter_both_length {A} (p q : A → bool) l :
  (length (List.filter p l) + length (List.filter q l)
   ≤ length l + length (List.filter (λ x, p x && q x) l))%nat.
Proof. induction l as [|x l IH]; simpl; [lia|]. destruct (p x), (q x); simpl; lia. Qed.

(** ** Floats *)
Definition number (x : float) : Prop := is_nan x = false.

Lemma flt_step x y z : number y → flt x z = true → flt x y = true ∨ flt y z = true.
Proof.
  intros Hy Hxz. destruct (flt x y) eqn:Hxy; [by left|]. destruct (flt y z) eqn:Hyz; [by right|].
  by rewrite (flt_negtrans x y z Hy Hxy Hyz) in Hxz.
Qed.

Lemma fgt_step x y z : number y → fgt x z = true → fgt x y = true ∨ fgt y z = true.
Proof. intros Hy Hxz. unfold fgt in *. destruct (flt_step z y x Hy Hxz); auto. Qed.

Lemma fkey_fopp x : fkey (fopp x) = (λ k, (- k.1.1, - k.1.2, - k.2)) <$> fkey x.
Proof. destruct x as [[]|[]| |[] m e]; simpl; try done; repeat f_equal; lia. Qed.

(** [-r <= x <= r] is [abs(x) <= r]. *)
Lemma fle_fopp r x : fle (fopp r) x = fle (fopp x) r.
Proof.
  apply eq_true_iff_eq. rewrite !fle_spec, !orb_true_iff, !flt_spec, !feq_spec, !fkey_fopp.
  destruct (fkey x) as [[[a b] c]|], (fkey r) as [[[a' b'] c']|]; simpl; try naive_solver.
  split.
  - intros [(?&?&?&?&?)|(?&?&?)]; simplify_eq; simpl in *.
    + left. do 2 eexists. split_and!; [done..|]. simpl. lia.
    + right. eexists. split; [done|]. repeat f_equal; lia.
  - intros [(?&?&?&?&?)|(?&?&?)]; simplify_eq; simpl in *.
    + left. do 2 eexists. split_and!; [done..|]. simpl. lia.
    + right. eexists. split; [done|]. repeat f_equal; lia.
Qed.

Lemma fabs_le x r : fle (fabs x) r = true → fle (fopp r) x = true ∧ fle x r = true.
Proof.
  rewrite fle_fopp. destruct x as [[]|[]| |[] m e], r as [[]|[]| |[] m' e']; simpl; try done; auto.
Qed.

#[local] Opaque DEFAULT_ALPHA ACI_GAIN ACI_MIN_ALPHA ACI_MAX_ALPHA fadd fsub fmul fdiv_ieee float_of_Z.

(** ** The finite-sample guarantee

    [covered rs alpha i]: the residual at position [i] lies inside the band that
    the module calibrates on all the others.  For exchangeable residuals the
    share of covered positions is the coverage probability of the band, so a
    lower bound on it for every list is the guarantee the module claims. *)
Section LeaveOneOut.
Context `{NP : !NumPy} `{NPL : !NumPyLaws NP}.

Definition covered (rs : list float) (alpha : float) (i : nat) : bool :=
  match rs !! i, residual_band (delete i rs) alpha with
  | Some r, Ok (lo, hi, _, _) => within (lo, hi) r
  | _, _ => false
  end.

Definition coverage_count (rs : list float) (alpha : float) : Z :=
  Z.of_nat (length (List.filter (covered rs alpha) (seq 0 (length rs)))).

Lemma finite_number rs : Forall (λ x, is_finite x = true) rs → Forall number rs.
Proof. intros H. eapply Forall_impl; [exact H|]. by intros []. Qed.

Lemma number_sorted xs : Forall number xs → StronglySorted (not_below flt) (np_sort xs).
Proof. intros H. by apply np_sort_sorted. Qed.

Lemma number_descending xs :
  Forall number xs → StronglySorted (not_below fgt) (reverse (np_sort xs)).
Proof.
  intros H. apply number_sorted in H. induction H as [|x l Hl IH Hx]; [constructor|].
  rewrite reverse_cons. apply StronglySorted_snoc; [done|]. by apply Forall_reverse.
Qed.

Lemma number_delete i xs : Forall number xs → Forall number (delete i xs).
Proof. apply Forall_delete. Qed.

Lemma number_np_sort xs : Forall number xs → Forall number (np_sort xs).
Proof. by rewrite np_sort_perm. Qed.

(** Fewer than [k] elements below [x]: the others' element of rank [k] is not below it. *)
Lemma rank_not_below rs i x k q :
  Forall number rs → rs !! i = Some x → np_sort (delete i rs) !! k = Some q →
  (below flt x rs ≤ k)%nat → flt q x = false.
Proof.
  intros Hn Hi Hk Hb. apply not_true_iff_false. intros Hq.
  pose proof (below_of_rank flt number flt_step _ q k x (number_sorted _ (number_delete i _ Hn))) as H.
  specialize (H (number_np_sort _ (number_delete i _ Hn)) Hk Hq).
  rewrite (below_perm flt _ _ _ (np_sort_perm _)), (below_delete flt flt_irrefl _ _ _ Hi) in H. lia.
Qed.

Lemma rank_not_above rs i x k q :
  Forall number rs → rs !! i = Some x → np_sort (delete i rs) !! k = Some q →
  (below fgt x rs + k < length (delete i rs))%nat → flt x q = false.
Proof.
  intros Hn Hi Hk Hb. apply not_true_iff_false. intros Hq.
  pose proof (Permutation_length (np_sort_perm (delete i rs))) as Hlen.
  assert (reverse (np_sort (delete i rs)) !! (length (delete i rs) - S k)%nat = Some q) as Hr.
  { rewrite reverse_lookup by lia. rewrite <-Hk. f_equal. lia. }
  pose proof (below_of_rank fgt number fgt_step _ q
                (length (delete i rs) - S k) x (number_descending _ (number_delete i _ Hn))) as H.
  specialize (H (proj2 (Forall_reverse _ _) (number_np_sort _ (number_delete i _ Hn))) Hr Hq).
  rewrite (below_perm fgt x _ _ (reverse_Permutation _)), (below_perm fgt x _ _ (np_sort_perm _)) in H.
  rewrite (below_delete fgt flt_irrefl _ _ _ Hi) in H. lia.
Qed.

Lemma low_positions rs k :
  Forall number rs → (k ≤ length rs)%nat →
  (k ≤ length (List.filter (λ i, match rs !! i with
                                 | Some x => (below flt x rs <? k)%nat
                                 | None => false
                                 end) (seq 0 (length rs))))%nat.
Proof.
  intros Hn Hk. rewrite (filter_positions (λ x, (below flt x rs <? k)%nat)).
  exact (low_ranks_perm flt flt_irrefl rs _ k (np_sort_perm rs) (number_sorted _ Hn) Hk).
Qed.

Lemma high_positions rs k :
  Forall number rs → (k ≤ length rs)%nat →
  (k ≤ length (List.filter (λ i, match rs !! i with
                                 | Some x => (below fgt x rs <? k)%nat
                                 | None => false
                                 end) (seq 0 (length rs))))%nat.
Proof.
  intros Hn Hk. rewrite (filter_positions (λ x, (below fgt x rs <? k)%nat)).
  refine (low_ranks_perm fgt flt_irrefl rs _ k _ (number_descending _ Hn) Hk).
  by rewrite reverse_Permutation, np_sort_perm.
Qed.

Lemma np_index_pos xs i x : 0 ≤ i → xs !! Z.to_nat i = Some x → np_index xs i = Ok x.
Proof.
  intros Hi Hx. unfold np_index. rewrite !(proj2 (Z.ltb_ge i 0)) by done. by rewrite Hx.
Qed.

(** The band of the ranks [lo] and [hi] holds an element with few enough on either side. *)
Lemma ranks_within rs i x lo hi :
  Forall number rs → rs !! i = Some x → 1 ≤ lo → lo ≤ hi → hi ≤ Z.of_nat (length rs) - 1 →
  (below flt x rs < Z.to_nat hi)%nat → (below fgt x rs < length rs - Z.to_nat lo)%nat →
  ∃ ql qh, np_index (np_sort (delete i rs)) (lo - 1) = Ok ql ∧
           np_index (np_sort (delete i rs)) (hi - 1) = Ok qh ∧ within (ql, qh) x = true.
Proof.
  intros Hn Hi Hlo Hle Hhi Hb1 Hb2.
  assert (length (delete i rs) = length rs - 1)%nat as Hlen by (apply length_delete; by eexists).
  pose proof (Permutation_length (np_sort_perm (delete i rs))) as Hs.
  destruct (lookup_lt_is_Some_2 (np_sort (delete i rs)) (Z.to_nat (lo - 1))) as [ql Hql]; [lia|].
  destruct (lookup_lt_is_Some_2 (np_sort (delete i rs)) (Z.to_nat (hi - 1))) as [qh Hqh]; [lia|].
  exists ql, qh. split_and!; [by apply np_index_pos; [lia|]..|].
  assert (number x) by (rewrite Forall_forall in Hn; by eapply Hn, list_elem_of_lookup_2).
  assert (number ql ∧ number qh) as [??].
  { pose proof (number_np_sort _ (number_delete i rs Hn)) as Hd.
    rewrite Forall_forall in Hd. split; by eapply Hd, list_elem_of_lookup_2. }
  unfold within. cbn [fst snd]. rewrite !fle_flt by done.
  rewrite (rank_not_above rs i x (Z.to_nat (lo - 1)) ql), (rank_not_below rs i x (Z.to_nat (hi - 1)) qh);
    (done || lia).
Qed.

Lemma two_sided_covers rs alpha need lo hi :
  Forall number rs → two_sided_min_n alpha = Ok need → need ≤ Z.of_nat (length rs) - 1 →
  two_sided_ranks (Z.of_nat (length rs) - 1) alpha = Ok (lo, hi) →
  1 ≤ lo → hi ≤ Z.of_nat (length rs) - 1 →
  hi - lo ≤ coverage_count rs alpha.
Proof.
  intros Hn Hneed Hle Hranks Hlo Hhi. unfold coverage_count.
  destruct (decide (lo < hi)) as [Hlt|]; [|lia].
  pose proof (low_positions rs (Z.to_nat hi) Hn ltac:(lia)) as H1.
  pose proof (high_positions rs (length rs - Z.to_nat lo) Hn ltac:(lia)) as H2.
  pose proof (filter_both_length (λ i, match rs !! i with
    | Some x => (below flt x rs <? Z.to_nat hi)%nat | None => false end)
    (λ i, match rs !! i with
    | Some x => (below fgt x rs <? length rs - Z.to_nat lo)%nat | None => false end)
    (seq 0 (length rs))) as H3.
  rewrite length_seq in H3.
  assert (∀ i, match rs !! i with Some x => (below flt x rs <? Z.to_nat hi)%nat | None => false end
    && match rs !! i with Some x => (below fgt x rs <? length rs - Z.to_nat lo)%nat | None => false end
    = true → covered rs alpha i = true) as Hc.
  { intros i. unfold covered. destruct (rs !! i) as [x|] eqn:Hi; [|done].
    rewrite andb_true_iff, !Nat.ltb_lt. intros [Hb1 Hb2].
    destruct (ranks_within rs i x lo hi) as (ql&qh&Hql&Hqh&Hw); try (done || lia).
    assert (length (delete i rs) = length rs - 1)%nat by (apply length_delete; by eexists).
    assert (i < length rs)%nat by (by eapply lookup_lt_Some).
    unfold residual_band. rewrite Hneed. cbn [mbind result_bind].
    replace (Z.of_nat (length (delete i rs))) with (Z.of_nat (length rs) - 1) by lia.
    rewrite (proj2 (Z.leb_le _ _) Hle), Hranks. cbn [mbind result_bind fst snd].
    by rewrite Hql, Hqh. }
  pose proof (filter_length_mono _ _ (seq 0 (length rs)) (λ i _, Hc i)). lia.
Qed.
Lemma abs_pool xs :
  Forall (λ x, is_finite x = true) xs → List.filter np_isfinite (np_abs <$> xs) = fabs <$> xs.
Proof.
  intros H. rewrite (list_fmap_ext np_abs fabs xs (λ _ x _, np_abs_is x)).
  apply bool_filter_all. intros y (x&->&Hx)%list_elem_of_fmap. rewrite np_isfinite_is.
  rewrite Forall_forall in H. specialize (H x Hx). by destruct x.
Qed.

Lemma number_abs xs : Forall number xs → Forall number (fabs <$> xs).
Proof. intros H. apply Forall_fmap. eapply Forall_impl; [exact H|]. by intros []. Qed.

Lemma fmap_delete_list {A B} (f : A → B) (i : nat) (l : list A) : f <$> delete i l = delete i (f <$> l).
Proof. revert i. induction l as [|x l IH]; intros [|i]; simpl; [done..|]. f_equal. apply IH. Qed.

(** The radius of a guaranteed symmetric band is the order statistic of its rank. *)
Lemma radius_guaranteed xs alpha k q :
  Forall (λ x, is_finite x = true) xs → (0 < length xs)%nat →
  conformal_rank (Z.of_nat (length xs)) alpha = Ok k → 1 ≤ k ≤ Z.of_nat (length xs) →
  np_sort (fabs <$> xs) !! Z.to_nat (k - 1) = Some q →
  conformal_radius xs alpha = Ok (q, true).
Proof.
  intros Hf Hpos Hk Hle Hq. unfold conformal_radius. rewrite abs_pool, length_fmap by done.
  rewrite (proj2 (Z.eqb_neq _ _)) by lia. rewrite Hk. cbn [mbind result_bind].
  rewrite (proj2 (Z.leb_le _ _)) by lia. by rewrite (np_index_pos _ (k - 1) _ ltac:(lia) Hq).
Qed.

Lemma symmetric_covers rs alpha need k :
  Forall (λ x, is_finite x = true) rs → two_sided_min_n alpha = Ok need →
  Z.of_nat (length rs) - 1 < need → (1 < length rs)%nat →
  conformal_rank (Z.of_nat (length rs) - 1) alpha = Ok k → k ≤ Z.of_nat (length rs) - 1 →
  k ≤ coverage_count rs alpha.
Proof.
  intros Hf Hneed Hlt Hpos Hk Hle. unfold coverage_count.
  destruct (decide (1 ≤ k)) as [Hk1|]; [|lia].
  pose proof (number_abs _ (finite_number _ Hf)) as Hn.
  pose proof (low_positions (fabs <$> rs) (Z.to_nat k) Hn ltac:(rewrite length_fmap; lia)) as H1.
  rewrite length_fmap in H1.
  assert (∀ i, match (fabs <$> rs) !! i with
               | Some x => (below flt x (fabs <$> rs) <? Z.to_nat k)%nat
               | None => false
               end = true → covered rs alpha i = true) as Hc.
  { intros i. unfold covered. destruct ((fabs <$> rs) !! i) as [y|] eqn:Hy; [|done].
    rewrite Nat.ltb_lt. intros Hb. pose proof Hy as Hi.
    rewrite list_lookup_fmap in Hi. destruct (rs !! i) as [x|] eqn:Hx; simplify_eq/=.
    assert (length (delete i rs) = length rs - 1)%nat as Hlen by (apply length_delete; by eexists).
    pose proof (Permutation_length (np_sort_perm (fabs <$> delete i rs))) as Hs.
    rewrite length_fmap in Hs.
    destruct (lookup_lt_is_Some_2 (np_sort (fabs <$> delete i rs)) (Z.to_nat (k - 1))) as [q Hq]; [lia|].
    unfold residual_band. rewrite Hneed. cbn [mbind result_bind].
    replace (Z.of_nat (length (delete i rs))) with (Z.of_nat (length rs) - 1) by lia.
    rewrite (proj2 (Z.leb_gt _ _) Hlt).
    rewrite (radius_guaranteed (delete i rs) alpha k q); cycle 1;
      [by apply Forall_delete|lia|rewrite <-Hk; f_equal; lia|lia|done|].
    cbn [mbind result_bind]. rewrite fmap_delete_list in Hq.
    pose proof (rank_not_below (fabs <$> rs) i (fabs x) _ q Hn Hy Hq ltac:(lia)) as Hle'.
    assert (number (fabs x) ∧ number q) as [??].
    { split; [rewrite Forall_forall in Hn; by eapply Hn, list_elem_of_lookup_2|].
      pose proof (number_np_sort _ (number_delete i _ Hn)) as Hd.
      rewrite Forall_forall in Hd. by eapply Hd, list_elem_of_lookup_2. }
    unfold within. cbn [fst snd]. destruct (fabs_le x q) as [-> ->]; [|done].
    by rewrite fle_flt, Hle' by done. }
  pose proof (filter_length_mono _ _ (seq 0 (length rs)) (λ i _, Hc i)). lia.
Qed.

(** What the module promises of a pool of [n] residuals at the nominal level: the band
    it calls guaranteed holds at least nine of every ten positions. *)
Definition level_holds (n : Z) : bool :=
  match two_sided_min_n DEFAULT_ALPHA, two_sided_ranks n DEFAULT_ALPHA,
        conformal_rank n DEFAULT_ALPHA with
  | Ok need, Ok (lo, hi), Ok k =>
      if need <=? n then (1 <=? lo) && (hi <=? n) && (9 * (n + 1) <=? 10 * (hi - lo))
      else (k <=? n) && (9 * (n + 1) <=? 10 * k)
  | _, _, _ => false
  end.

Lemma levels_hold : forallb level_holds (seqZ 9 2000) = true.
Proof. vm_compute. reflexivity. Qed.

(** C27. The finite-sample guarantee of the 90% band, rounding included: of any 10 to 2009
    finite residuals, at least nine tenths lie inside the band that the module calibrates
    on the remaining ones. *)
Theorem conformal_guarantee (rs : list float) :
  Forall (λ x, is_finite x = true) rs → (10 ≤ length rs ≤ 2009)%nat →
  9 * Z.of_nat (length rs) ≤ 10 * coverage_count rs DEFAULT_ALPHA.
Proof.
  intros Hf Hlen. set (n := Z.of_nat (length rs) - 1).
  assert (level_holds n = true) as Hl.
  { pose proof levels_hold as H. rewrite forallb_forall in H. apply H, list_elem_of_In, elem_of_seqZ.
    unfold n. lia. }
  unfold level_holds in Hl. destruct (two_sided_min_n DEFAULT_ALPHA) as [need|] eqn:Hneed; [|done].
  destruct (two_sided_ranks n DEFAULT_ALPHA) as [[lo hi]|] eqn:Hr; [|done].
  destruct (conformal_rank n DEFAULT_ALPHA) as [k|] eqn:Hk; [|done].
  destruct (Z.leb_spec need n) as [Hn|Hn]; rewrite !andb_true_iff, !Z.leb_le in Hl.
  - pose proof (two_sided_covers rs DEFAULT_ALPHA need lo hi (finite_number _ Hf) Hneed Hn Hr).
    unfold n in *. lia.
  - assert (1 < length rs)%nat by lia.
    pose proof (symmetric_covers rs DEFAULT_ALPHA need k Hf Hneed Hn ltac:(done) Hk). unfold n in *. lia.
Qed.
End LeaveOneOut.

(** ** Intervals and their walk-forward coverage *)
Section Coverage.
Context `{NP : !NumPy} `{NPL : !NumPyLaws NP}.

(** The ranks exist for every pool of up to 2008 residuals. *)
Definition ranks_exist (n : Z) : bool :=
  match two_sided_min_n DEFAULT_ALPHA with
  | Err _ => false
  | Ok need =>
      if need <=? n then
        match two_sided_ranks n DEFAULT_ALPHA with
        | Ok (lo, hi) => (1 <=? lo) && (lo <=? n) && (1 <=? hi) && (hi <=? n)
        | Err _ => false
        end
      else (n =? 0) ||
        match conformal_rank n DEFAULT_ALPHA, times_float (n + 1) (fsub fone DEFAULT_ALPHA),
              py_float_of_int n with
        | Ok k, Ok level, Ok size =>
            (1 <=? k) && is_ok (fdiv level size) && Bool.eqb (k <=? n) (9 <=? n)
        | _, _, _ => false
        end
  end.

Lemma all_ranks_exist : forallb ranks_exist (seqZ 0 2009) = true.
Proof. vm_compute. reflexivity. Qed.

Lemma np_index_in xs i : 0 ≤ i < Z.of_nat (length xs) → ∃ x, np_index xs i = Ok x.
Proof.
  intros Hi. destruct (lookup_lt_is_Some_2 xs (Z.to_nat i)) as [x Hx]; [lia|].
  exists x. apply np_index_pos; [lia|done].
Qed.

Lemma sorted_length xs : length (np_sort xs) = length xs.
Proof. apply Permutation_length, np_sort_perm. Qed.

Lemma radius_total xs :
  Forall (λ x, is_finite x = true) xs → ranks_exist (Z.of_nat (length xs)) = true →
  two_sided_min_n DEFAULT_ALPHA = Ok 19 → Z.of_nat (length xs) < 19 →
  ∃ r, conformal_radius xs DEFAULT_ALPHA = Ok (r, 9 <=? Z.of_nat (length xs)).
Proof.
  intros Hf Hr Hneed Hlt. unfold ranks_exist in Hr. rewrite Hneed in Hr. clear Hneed.
  rewrite (proj2 (Z.leb_gt _ _) Hlt) in Hr. unfold conformal_radius.
  rewrite abs_pool, length_fmap by done. destruct (Z.eqb_spec (Z.of_nat (length xs)) 0) as [->|]; [by eexists|].
  cbn [orb] in Hr. destruct (conformal_rank _ _) as [k|] eqn:Hk; [|done].
  destruct (times_float _ _) as [level|]; [|done]. destruct (py_float_of_int _) as [size|]; [|done].
  rewrite !andb_true_iff, Z.leb_le in Hr. destruct Hr as [[Hk1 Hd] Hflag%eqb_prop].
  cbn [mbind result_bind]. rewrite <-Hflag. destruct (Z.leb_spec k (Z.of_nat (length xs))).
  - destruct (np_index_in (np_sort (fabs <$> xs)) (k - 1)) as [q ->];
      [rewrite sorted_length, length_fmap; lia|]. by eexists.
  - destruct (fdiv level size) as [infl|]; [|done]. cbn [mbind result_bind].
    assert (∃ q, np_index (np_sort (fabs <$> xs)) (-1) = Ok q) as [q ->]; [|by eexists].
    unfold np_index. rewrite sorted_length, length_fmap. change (-1 <? 0) with true. cbn iota.
    rewrite (proj2 (Z.ltb_ge (-1 + Z.of_nat (length xs)) 0)) by lia.
    destruct (lookup_lt_is_Some_2 (np_sort (fabs <$> xs)) (Z.to_nat (-1 + Z.of_nat (length xs)))) as [q ->];
      [rewrite sorted_length, length_fmap; lia|]. by eexists.
Qed.

Lemma default_need : two_sided_min_n DEFAULT_ALPHA = Ok 19.
Proof. vm_compute. reflexivity. Qed.

Lemma default_symmetric : symmetric_min_n DEFAULT_ALPHA = Ok 9.
Proof. vm_compute. reflexivity. Qed.

Lemma band_total xs :
  Forall (λ x, is_finite x = true) xs → (length xs ≤ 2008)%nat →
  ∃ lo hi m, residual_band xs DEFAULT_ALPHA = Ok (lo, hi, m, 9 <=? Z.of_nat (length xs)).
Proof.
  intros Hf Hlen. assert (ranks_exist (Z.of_nat (length xs)) = true) as Hr.
  { pose proof all_ranks_exist as H. rewrite forallb_forall in H.
    apply H, list_elem_of_In, elem_of_seqZ. lia. }
  unfold residual_band. rewrite default_need. cbn [mbind result_bind].
  destruct (Z.leb_spec 19 (Z.of_nat (length xs))) as [Hn|Hn].
  - unfold ranks_exist in Hr. rewrite default_need, (proj2 (Z.leb_le _ _) Hn) in Hr.
    destruct (two_sided_ranks _ _) as [[lo hi]|]; [|done].
    rewrite !andb_true_iff, !Z.leb_le in Hr. cbn [mbind result_bind fst snd].
    destruct (np_index_in (np_sort xs) (lo - 1)) as [ql ->]; [rewrite sorted_length; lia|].
    destruct (np_index_in (np_sort xs) (hi - 1)) as [qh ->]; [rewrite sorted_length; lia|].
    rewrite (proj2 (Z.leb_le 9 _)) by lia. by do 3 eexists.
  - destruct (radius_total xs Hf Hr default_need Hn) as [r ->]. by do 3 eexists.
Qed.

Lemma finite_filter xs : Forall (λ x, is_finite x = true) (List.filter np_isfinite xs).
Proof. apply Forall_forall. intros x [_ Hx]%elem_of_bool_filter. by rewrite <-np_isfinite_is. Qed.

Lemma nominal_interval (point : float) (residuals : list float) :
  (length residuals ≤ 2008)%nat →
  ∃ lower upper d,
    conformal_interval point residuals DEFAULT_ALPHA = Ok (lower, upper, d) ∧
    n_residuals d = Z.of_nat (length (List.filter is_finite residuals)) ∧
    (coverage_guaranteed d = true ↔ min_n_symmetric d ≤ n_residuals d) ∧
    (is_nan lower = false → is_nan upper = false → fle lower upper = true).
Proof.
  intros Hlen. set (res := List.filter np_isfinite residuals).
  assert (res = List.filter is_finite residuals) as Hres.
  { apply bool_filter_ext. intros x _. apply np_isfinite_is. }
  assert (length res ≤ length residuals)%nat by apply List.filter_length_le.
  destruct (band_total res (finite_filter _) ltac:(lia)) as (lo&hi&m&Hb).
  unfold conformal_interval. fold res. rewrite default_symmetric, default_need, Hb.
  cbn [mbind result_bind].
  set (l := fmul point (fadd fone lo)). set (u := fmul point (fadd fone hi)).
  assert (∀ x y : float, ∃ w, (if fne point fzero then
     w ← fdiv (fsub x y) point; Ok (fmul w fhundred) else Ok fzero : result pyerr float) = Ok w) as Hw.
  { intros x y. unfold fne, fdiv. destruct (feq point fzero); by eexists. }
  destruct (fgt l u) eqn:Hlu; edestruct Hw as [w ->]; cbn [mbind result_bind];
    do 3 eexists; (split; [reflexivity|]); cbn [n_residuals coverage_guaranteed min_n_symmetric];
    rewrite <-Hres, Z.leb_le; (split_and!; [done..|]); intros H1 H2; unfold fgt in Hlu.
  - rewrite fle_spec. by rewrite Hlu.
  - by rewrite fle_flt, Hlu.
Qed.

(** At the nominal level an interval is always returned, whatever the point and the
    residuals; its bounds are in order unless one is NaN; and its guarantee flag is raised
    exactly where the order statistics it rests on exist. *)
Theorem default_interval (point : float) (residuals : list float) :
  (length residuals ≤ 2008)%nat →
  ∃ lower upper d,
    conformal_interval point residuals DEFAULT_ALPHA = Ok (lower, upper, d) ∧
    n_residuals d = Z.of_nat (length (List.filter is_finite residuals)) ∧
    (coverage_guaranteed d = true ↔ min_n_symmetric d ≤ n_residuals d) ∧
    (is_nan lower = false → is_nan upper = false → fle lower upper = true).
Proof. apply nominal_interval. Qed.
(** The verdict on the fold at position [i]: inside the band of the residuals before it,
    and nothing until there are enough of them. *)
Definition fold_verdict (alpha : float) (min_history : Z) (preds actuals : list float) (i : nat)
    : option bool :=
  match preds !! i, actuals !! i with
  | Some p, Some a =>
      let pool := relative_residuals (take i preds) (take i actuals) in
      if min_history <=? Z.of_nat (length pool) then
        match empirical_interval p pool alpha with
        | Ok interval => Some (within interval a)
        | Err _ => None
        end
      else None
  | _, _ => None
  end.

Definition scored_at alpha mh ps xs (i : nat) : bool :=
  match fold_verdict alpha mh ps xs i with Some _ => true | None => false end.
Definition hit_at alpha mh ps xs (i : nat) : bool :=
  match fold_verdict alpha mh ps xs i with Some b => b | None => false end.

Lemma take_zip {A B} n (l : list A) (k : list B) : zip (take n l) (take n k) = take n (zip l k).
Proof. revert l k. induction n as [|n IH]; intros [|x l] [|y k]; simpl; try done. by rewrite IH. Qed.

Lemma walk_folds_spec alpha mh preds actuals suf i hit total res :
  drop i (zip preds actuals) = suf →
  walk_folds alpha mh suf (relative_residuals (take i preds) (take i actuals)) hit total = Ok res →
  res = (hit + Z.of_nat (length (List.filter (hit_at alpha mh preds actuals) (seq i (length suf)))),
         total + Z.of_nat (length (List.filter (scored_at alpha mh preds actuals) (seq i (length suf))))).
Proof.
  revert i hit total. induction suf as [|[p a] suf IH]; intros i hit total Hs Hw.
  { simpl in *. injection Hw as <-. f_equal; lia. }
  assert (zip preds actuals !! i = Some (p, a)) as Hi.
  { rewrite <-(Nat.add_0_r i), <-lookup_drop, Hs. done. }
  assert (drop (S i) (zip preds actuals) = suf) as Hs'.
  { by rewrite <-Nat.add_1_r, <-drop_drop, Hs. }
  assert (relative_residuals (take (S i) preds) (take (S i) actuals)
          = match relative_residual p a with
            | Some r => relative_residuals (take i preds) (take i actuals) ++ [r]
            | None => relative_residuals (take i preds) (take i actuals)
            end) as Hpool.
  { unfold relative_residuals. rewrite !take_zip, (take_S_r _ _ _ Hi), omap_app. simpl.
    destruct (relative_residual p a); [done|by rewrite app_nil_r]. }
  apply lookup_zip_with_Some in Hi as (p'&a'&[= <- <-]&Hp&Ha).
  cbn [walk_folds] in Hw. rewrite <-Hpool in Hw.
  simpl length. cbn [seq List.filter]. unfold hit_at at 1, scored_at at 1, fold_verdict.
  rewrite Hp, Ha. cbn zeta.
  destruct (mh <=? _); [|cbn [mbind result_bind] in Hw; by rewrite (IH (S i) hit total Hs' Hw)].
  destruct (empirical_interval p _ alpha) as [iv|]; [|done]. cbn [mbind result_bind] in Hw.
  rewrite (IH (S i) _ _ Hs' Hw). destruct (within iv a); simpl; f_equal; lia.
Qed.

(** A coverage measurement never looks ahead: what is counted of a fold depends on the
    residuals of the folds before it and on nothing later, every fold is a scored or a
    warm-up one, and a rate is published only where the scored folds reach the bar. *)
Theorem walk_forward_no_peeking (preds actuals : list float) (alpha : float)
    (min_history bar : Z) (ev : CoverageEvidence) :
  walk_forward_coverage preds actuals alpha min_history bar = Ok ev →
  let folds := seq 0 (length (zip preds actuals)) in
  hits ev = Z.of_nat (length (List.filter (hit_at alpha min_history preds actuals) folds)) ∧
  scored ev = Z.of_nat (length (List.filter (scored_at alpha min_history preds actuals) folds)) ∧
  0 ≤ hits ev ≤ scored ev ∧ 0 ≤ warmup ev ∧ scored ev + warmup ev = offered ev ∧
  offered ev = Z.of_nat (length preds `min` length actuals) ∧
  (∀ r, rate ev = Some r → bar ≤ scored ev ∧ status ev = measured ∧
        r = int_true_div (hits ev) (scored ev)).
Proof.
  unfold walk_forward_coverage. intros Hw. apply bind_Ok in Hw as ([hit total]&Hw&[= <-]).
  pose proof (walk_folds_spec alpha min_history preds actuals _ 0 0 0 (hit, total) eq_refl) as Hs.
  rewrite drop_0 in Hs. specialize (Hs Hw). injection Hs as -> ->.
  cbn [hits scored warmup offered min_scored]. rewrite !Z.add_0_l.
  set (l := seq 0 (length (zip preds actuals))).
  assert (length (List.filter (hit_at alpha min_history preds actuals) l)
          ≤ length (List.filter (scored_at alpha min_history preds actuals) l))%nat as Hle.
  { apply filter_length_mono. intros i _. unfold hit_at, scored_at.
    by destruct (fold_verdict _ _ _ _ i). }
  pose proof (List.filter_length_le (scored_at alpha min_history preds actuals) l) as Hl.
  unfold l in Hl at 2. rewrite length_seq in Hl.
  split_and!; [done|done|lia|lia|lia|lia|by rewrite length_zip_with|].
  intros r. unfold rate, observed_rate, sufficient, status. cbn [hits scored min_scored].
  unfold sufficient. cbn [scored min_scored].
  destruct (Z.leb_spec bar (Z.of_nat (length (List.filter (scored_at alpha min_history preds actuals) l))));
    [|done].
  destruct (_ =? 0); [done|]. intros [= <-]. done.
Qed.

(** The adaptive level stays inside its clamp, whatever the live coverage says, and is
    the nominal one until enough predictions have matured. *)
Theorem adaptive_alpha_bounds (live : option float) (n : Z) (alpha target : float) :
  (live = None ∨ n < ACI_MIN_N → adaptive_alpha live n alpha target = alpha) ∧
  (∀ c, live = Some c → ACI_MIN_N ≤ n →
     is_nan (fadd alpha (fmul ACI_GAIN (fsub c target))) = false →
     fle ACI_MIN_ALPHA (adaptive_alpha live n alpha target) = true ∧
     fle (adaptive_alpha live n alpha target) ACI_MAX_ALPHA = true).
Proof.
  unfold adaptive_alpha. split.
  - intros [->|Hn]; [done|]. destruct live; [|done]. by rewrite (proj2 (Z.ltb_lt _ _) Hn).
  - intros c -> Hn Hnan. rewrite (proj2 (Z.ltb_ge _ _) Hn).
    apply (np_clip_bounds _ ACI_MIN_ALPHA ACI_MAX_ALPHA Hnan); by vm_compute.
Qed.

(** The nominal walk never raises. *)
Lemma coverage_walk_total preds actuals bar mh :
  (length preds ≤ 2008)%nat → ∃ ev, walk_forward_coverage preds actuals DEFAULT_ALPHA mh bar = Ok ev.
Proof.
  intros Hlen. unfold walk_forward_coverage.
  assert (∀ pairs pool h t, (length pairs + length pool ≤ 2008)%nat →
            ∃ r, walk_folds DEFAULT_ALPHA mh pairs pool h t = Ok r) as Hw.
  { induction pairs as [|[p a] pairs IH]; intros pool h t Hl; simpl in *; [by eexists|].
    assert (∃ i, empirical_interval p pool DEFAULT_ALPHA = Ok i) as [iv Hi].
    { destruct (nominal_interval p pool) as (l&u&d&Hd&_); [lia|]. unfold empirical_interval.
      rewrite Hd. by eexists. }
    destruct (mh <=? _); [rewrite Hi|]; cbn [mbind result_bind];
      (apply IH; destruct (relative_residual p a); rewrite ?length_app; simpl; lia). }
  destruct (Hw (zip preds actuals) [] 0 0) as [[h t] ->]; [|by eexists].
  rewrite length_zip_with. simpl. lia.
Qed.
End Coverage.

(** ** A NumPy that satisfies the laws, and the theorems at concrete inputs *)
Definition nan_last (x y : float) : bool :=
  if is_nan x then false else is_nan y || flt x y.

#[export] Instance nan_last_weak_order : WeakOrder nan_last.
Proof.
  unfold nan_last. split.
  - intros x y. destruct (is_nan x) eqn:Hx; [done|]. destruct (is_nan y) eqn:Hy; [done|].
    simpl. apply flt_asym.
  - intros x y z. destruct (is_nan x) eqn:Hx, (is_nan y) eqn:Hy, (is_nan z) eqn:Hz; simpl; try done.
    by apply flt_negtrans.
Qed.

Definition exact_numpy : NumPy :=
  {| np_abs := fabs; np_isfinite := is_finite; np_sort := py_sorted nan_last;
     np_clip := λ x lo hi, fmin (fmax x lo) hi |}.

#[export] Instance exact_numpy_laws : NumPyLaws exact_numpy.
Proof.
  split; simpl; [done|done|apply py_sorted_perm| | |].
  - intros xs Hn. pose proof (py_sorted_sorted nan_last xs) as Hs.
    assert (Forall (λ x, is_nan x = false) (py_sorted nan_last xs)) as Hf by by rewrite py_sorted_perm.
    induction Hs as [|x l Hl IH Hx]; constructor; apply Forall_cons in Hf as [Hx0 Hf]; [by apply IH|].
    rewrite Forall_forall in Hx, Hf |- *. intros y Hy. specialize (Hx y Hy). specialize (Hf y Hy).
    unfold not_below, nan_last in *. rewrite Hx0, Hf in Hx. done.
  - intros x lo hi Hx Hle Hlo Hhi. unfold fmin, fmax, fgt.
    destruct (flt x lo) eqn:H1; [rewrite Hle|destruct (flt hi x) eqn:H2];
      rewrite !fle_flt by done; by rewrite ?flt_irrefl, ?Hle, ?H1, ?H2.
  - intros x lo hi Hx. destruct x; try done. by destruct lo, hi.
Qed.

(** Twelve residuals of a permille each more than the last. *)
Definition demo_residuals : list float := (λ i, flit i 3) <$> seqZ (-6) 12.

Lemma conformal_guarantee_witness :
  coverage_count (NP := exact_numpy) demo_residuals DEFAULT_ALPHA = 11 ∧
  9 * 12 ≤ 10 * coverage_count (NP := exact_numpy) demo_residuals DEFAULT_ALPHA.
Proof.
  split; [vm_compute; reflexivity|].
  pose proof (conformal_guarantee (NP := exact_numpy) demo_residuals) as H.
  apply H; [by_decide|vm_compute; lia].
Defined.

Lemma default_interval_witness :
  (length demo_residuals ≤ 2008)%nat ∧
  ∃ lower upper d,
    conformal_interval (NP := exact_numpy) fhundred demo_residuals DEFAULT_ALPHA = Ok (lower, upper, d) ∧
    n_residuals d = 12.
Proof.
  assert (length demo_residuals ≤ 2008)%nat as Hlen by (vm_compute; lia).
  split; [exact Hlen|].
  destruct (default_interval (NP := exact_numpy) fhundred demo_residuals Hlen) as (l&u&d&Hd&Hn&_).
  exists l, u, d. split; [exact Hd|]. rewrite Hn. vm_compute. reflexivity.
Defined.

Definition demo_preds : list float := replicate 13 fhundred.
Definition demo_actuals : list float := (λ r, fmul fhundred (fadd fone r)) <$> demo_residuals ++ [flit 5 1].
Definition demo_evidence : CoverageEvidence :=
  {| hits := 2; scored := 3; min_scored := 2; offered := 13; warmup := 10 |}.

Lemma walk_forward_no_peeking_witness :
  walk_forward_coverage (NP := exact_numpy) demo_preds demo_actuals DEFAULT_ALPHA 10 2
    = Ok demo_evidence ∧
  status demo_evidence = measured ∧ 2 ≤ scored demo_evidence.
Proof.
  assert (walk_forward_coverage (NP := exact_numpy) demo_preds demo_actuals DEFAULT_ALPHA 10 2
    = Ok demo_evidence) as He by (vm_compute; reflexivity).
  split; [exact He|].
  pose proof (walk_forward_no_peeking (NP := exact_numpy) _ _ _ _ _ _ He) as (_&_&_&_&_&_&Hr).
  destruct (Hr (int_true_div 2 3)) as (?&?&_); [vm_compute; reflexivity|]. split; assumption.
Defined.

Lemma adaptive_alpha_bounds_witness :
  fle ACI_MIN_ALPHA (adaptive_alpha (NP := exact_numpy) (Some (flit 75 2)) 60 DEFAULT_ALPHA (flit 9 1)) = true.
Proof.
  pose proof (adaptive_alpha_bounds (NP := exact_numpy) (Some (flit 75 2)) 60 DEFAULT_ALPHA (flit 9 1)) as [_ H].
  apply (H (flit 75 2)); [reflexivity|vm_compute; discriminate|vm_compute; reflexivity].
Defined.
