(* ===== verification/PriceDB.v ===== *)
(** * The price tables

    [prices], [raw_observations] and [app_settings] of [app/db.py], with the
    constraints they declare, [insert_ignore], and the key that makes a raw
    observation unique ([build_dedupe_key] of core/validation.py).

    A table is the list of its rows in storage order.  The order of the rows of a
    statement without a total ORDER BY is the database's: [newest_first].  The
    digest, [format] and [isoformat] are the interpreter's: [Interpreter]; whether a JSON
    column takes a payload is the database's: [JsonColumn] (PostgreSQL refuses a NaN in
    one). *)
From S2P Require Import Prelude PyFloat PyTime Numeric PyText PyJson.
Local Open Scope string_scope.
Local Open Scope list_scope.
Local Open Scope Z_scope.

(** [providers.base.Observation] *)
Record Observation : Set := {
  o_provider_code : string;
  o_symbol : string;
  o_raw_value : float;
  o_raw_unit : string;
  o_raw_currency : string;
  o_value : float;
  o_currency : string;
  o_unit : string;
  o_observed_at : datetime;
  o_raw_payload : option (list (string * json));
}.

Record RawRow : Set := {
  raw_provider_code : string;
  raw_symbol : string;
  raw_value : float;
  raw_unit : string;
  raw_currency : string;
  raw_payload : option (list (string * json));
  raw_observed_at : instant;
  raw_collected_at : instant;
  raw_quality : string;
  raw_dedupe_key : string;
}.

Record PriceRow : Set := {
  pr_symbol : string;
  pr_value : float;
  pr_currency : string;
  pr_unit : string;
  pr_source : string;
  pr_observed_at : instant;
  pr_collected_at : instant;
  pr_quality : string;
}.

(** [ORDER BY <instant> DESC], for any order the database gives to equal instants. *)
Class SqlOrder : Type := { newest_first : ∀ {A}, (A → instant) → list A → list A }.

Class SqlOrderLaws (O : SqlOrder) : Prop := {
  newest_first_perm {A} (key : A → instant) l : newest_first key l ≡ₚ l;
  newest_first_sorted {A} (key : A → instant) l :
    StronglySorted (λ x y, key y ≤ key x) (newest_first key l);
}.

(** [ORDER BY <instant> ASC] *)
Class SqlAscending : Type := { oldest_first : ∀ {A}, (A → instant) → list A → list A }.

Class SqlAscendingLaws (O : SqlAscending) : Prop := {
  oldest_first_perm {A} (key : A → instant) l : oldest_first key l ≡ₚ l;
  oldest_first_sorted {A} (key : A → instant) l : ascending key (oldest_first key l);
}.

Class Interpreter : Type := {
  sha256_hex : string → string;
  format_10g : float → string;
  isoformat : instant → string;
  fromisoformat : string → result pyerr datetime;
}.

(** What a marker written with [isoformat] reads back as. *)
Class InterpreterLaws (I : Interpreter) : Prop := {
  iso_roundtrip t : 0 ≤ t → ∃ dt, fromisoformat (isoformat t) = Ok dt ∧ to_utc dt = t;
  iso_not_empty t : 0 ≤ t → isoformat t ≠ EmptyString;
}.

Definition build_dedupe_key `{Interpreter} (provider symbol : string) (observed_at : datetime)
    (value : float) : string :=
  sha256_hex (provider ++ "|" ++ symbol ++ "|" ++ isoformat (to_utc observed_at) ++ "|"
              ++ format_10g value)%string.

(** ** Constraints *)
Inductive exn : Set :=
| Raised (e : pyerr)
| Integrity
| JsonRefused.

Class JsonColumn : Type := { json_column : list (string * json) → bool }.

(** [jobs.tgju_backfill.close_stamp]: the instant a daily close is available from. *)
Definition CLOSE_HOUR_UTC : Z := 23.
Definition close_stamp (day : date) : instant := combine day (CLOSE_HOUR_UTC * us_hour).

Lemma close_stamp_inj d d' : close_stamp d = close_stamp d' → d = d'.
Proof. unfold close_stamp, combine. unfold us_day, us_hour, us_minute, us_second. lia. Qed.

Lemma close_stamp_day d : date_of (close_stamp d) = d.
Proof.
  unfold close_stamp, combine, date_of, CLOSE_HOUR_UTC. rewrite Z.div_add_l by done.
  rewrite (Z.div_small (23 * us_hour)) by (vm_compute; split; discriminate || done). lia.
Qed.

Section Tables.
Context `{NF : !NumericFloat} `{NO : !NumericOrder}.

(** [prices_positive], of a value that is there *)
Definition price_check (r : PriceRow) : bool :=
  storable (pr_value r)
  && (negb (num_le (pr_value r) fzero) || existsb (String.eqb (pr_currency r)) ["INDEX"; "PCT"]).

(** [prices_unique] *)
Definition price_key (r : PriceRow) : string * instant * string :=
  (pr_symbol r, pr_observed_at r, pr_source r).

(** [insert_ignore] of one row: the CHECK comes before the conflict. *)
Definition insert_price (t : list PriceRow) (r : PriceRow) : result exn (list PriceRow * bool) :=
  if negb (price_check r) then Err Integrity
  else if bool_decide (price_key r ∈ price_key <$> t) then Ok (t, false)
  else Ok (t ++ [r], true).

Definition insert_raw (t : list RawRow) (r : RawRow) : list RawRow * bool :=
  if bool_decide (raw_dedupe_key r ∈ raw_dedupe_key <$> t) then (t, false)
  else (t ++ [r], true).

(** [insert_ignore]: the rows one at a time, and how many were new. *)
Fixpoint insert_prices (t : list PriceRow) (rows : list PriceRow) : result exn (list PriceRow * Z) :=
  match rows with
  | [] => Ok (t, 0)
  | r :: rows =>
      x ← insert_price t r;
      y ← insert_prices x.1 rows;
      Ok (y.1, (if (x.2 : bool) then 1 else 0) + y.2)
  end.

Definition payload_refused `{JC : !JsonColumn} (r : RawRow) : bool :=
  match raw_payload r with Some p => negb (json_column p) | None => false end.

Fixpoint insert_raws `{JC : !JsonColumn} (t : list RawRow) (rows : list RawRow)
    : result exn (list RawRow * Z) :=
  match rows with
  | [] => Ok (t, 0)
  | r :: rows =>
      _ ← raise_if (payload_refused r) JsonRefused;
      let x := insert_raw t r in
      y ← insert_raws x.1 rows;
      Ok (y.1, (if x.2 then 1 else 0) + y.2)
  end.

(** The tables are well-formed. *)
Record tables_ok (raw : list RawRow) (prices : list PriceRow) : Prop := {
  ok_price_keys : NoDup (price_key <$> prices);
  ok_price_checks : Forall (λ r, price_check r = true) prices;
  ok_raw_keys : NoDup (raw_dedupe_key <$> raw);
}.

Lemma insert_price_Ok t r t' b :
  insert_price t r = Ok (t', b) →
  price_check r = true ∧
  ((b = true ∧ t' = t ++ [r] ∧ price_key r ∉ price_key <$> t) ∨
   (b = false ∧ t' = t ∧ price_key r ∈ price_key <$> t)).
Proof.
  unfold insert_price. destruct (price_check r); [|done]. simpl.
  case_bool_decide; intros [= <- <-]; auto.
Qed.

Lemma insert_price_ok raw t r t' b :
  tables_ok raw t → insert_price t r = Ok (t', b) → tables_ok raw t'.
Proof.
  intros [H1 H2 H3] (Hc&[(->&->&Hk)|(->&->&Hk)])%insert_price_Ok; [|done]. split; [| |done].
  - rewrite fmap_app. apply NoDup_app. split_and!; [done| |apply NoDup_singleton].
    intros k Hk1 Hk2%list_elem_of_singleton. by subst.
  - apply Forall_app. split; [done|by repeat constructor].
Qed.

Lemma insert_raw_ok raw t r : tables_ok raw t → tables_ok (insert_raw raw r).1 t.
Proof.
  intros [H1 H2 H3]. unfold insert_raw. case_bool_decide as Hk; [done|]. split; [done..|].
  simpl. rewrite fmap_app. apply NoDup_app. split_and!; [done| |apply NoDup_singleton].
  intros k Hk1 Hk2%list_elem_of_singleton. by subst.
Qed.

Lemma insert_raw_key t r : raw_dedupe_key r ∈ raw_dedupe_key <$> (insert_raw t r).1.
Proof.
  unfold insert_raw. case_bool_decide as Hk; [done|]. simpl. rewrite fmap_app.
  apply elem_of_app. right. by left.
Qed.

Lemma insert_raw_grows t r : t `prefix_of` (insert_raw t r).1.
Proof. unfold insert_raw. case_bool_decide; [done|]. by eexists. Qed.

(** Rows that are new are appended as they are. *)
Lemma insert_prices_new t rows t' n :
  insert_prices t rows = Ok (t', n) → NoDup (price_key <$> rows) →
  (∀ r, r ∈ rows → price_key r ∉ price_key <$> t) →
  t' = t ++ rows ∧ n = Z.of_nat (length rows) ∧ Forall (λ r, price_check r = true) rows.
Proof.
  revert t n. induction rows as [|r rows IH]; intros t n; simpl.
  { intros [= <- <-] _ _. by rewrite app_nil_r. }
  rewrite NoDup_cons. intros H [Hni Hnd] Hnew. apply bind_Ok in H as ([t1 b]&Hr&H).
  apply bind_Ok in H as ([t2 m]&H&[= <- <-]). simpl in *.
  apply insert_price_Ok in Hr as (Hc&[(->&->&_)|(_&_&Hin)]).
  2: { by destruct (Hnew r (list_elem_of_here _ _)). }
  destruct (IH _ _ H Hnd) as (->&->&Hall).
  - intros r' Hr'. rewrite fmap_app, elem_of_app. intros [Hin|Hin%list_elem_of_singleton].
    + by apply (Hnew r'); [right|].
    + apply Hni. rewrite <-Hin. by apply list_elem_of_fmap_2.
  - split_and!; [by rewrite <-app_assoc|lia|by constructor].
Qed.

(** In any case: the table grows by some of the rows, each new there. *)
Lemma insert_prices_grows t rows t' n :
  insert_prices t rows = Ok (t', n) →
  ∃ new, t' = t ++ new ∧ n = Z.of_nat (length new) ∧ (∀ r, r ∈ new → r ∈ rows ∧ price_key r ∉ price_key <$> t).
Proof.
  revert t n. induction rows as [|r rows IH]; intros t n; simpl.
  { intros [= <- <-]. exists []. split_and!; [by rewrite app_nil_r|done|by intros ? ?%elem_of_nil]. }
  intros ([t1 b]&Hr&H)%bind_Ok. apply bind_Ok in H as ([t2 m]&H&[= <- <-]). simpl in *.
  apply insert_price_Ok in Hr as (_&Hcase). destruct (IH _ _ H) as (new&->&->&Hnew).
  destruct Hcase as [(->&->&Hk)|(->&->&_)].
  - exists (r :: new). rewrite <-app_assoc. split_and!; [done|simpl; lia|].
    intros r' [->|Hr']%elem_of_cons; [split; [left|done]|]. destruct (Hnew r' Hr') as [? Hni].
    split; [by right|]. contradict Hni. rewrite fmap_app, elem_of_app. by left.
  - exists new. split_and!; [done|lia|]. intros r' Hr'. destruct (Hnew r' Hr'). split; [by right|done].
Qed.

(** What was to be inserted is there, by its key. *)
Lemma insert_prices_holds t rows t' n :
  insert_prices t rows = Ok (t', n) → ∀ r, r ∈ rows → price_key r ∈ price_key <$> t'.
Proof.
  revert t n. induction rows as [|r rows IH]; intros t n; simpl; [by intros _ ? ?%elem_of_nil|].
  intros ([t1 b]&Hr&H)%bind_Ok r' Hr'. apply bind_Ok in H as ([t2 m]&H&[= <- <-]). simpl in *.
  apply elem_of_cons in Hr' as [->|Hr']; [|by eapply IH].
  assert (price_key r ∈ price_key <$> t1) as Hin.
  { apply insert_price_Ok in Hr as (_&[(_&->&_)|(_&->&?)]); [|done]. rewrite fmap_app, elem_of_app. right. by left. }
  apply insert_prices_grows in H as (new&->&_&_). rewrite fmap_app, elem_of_app. by left.
Qed.

Lemma insert_prices_ok raw t rows t' n :
  tables_ok raw t → insert_prices t rows = Ok (t', n) → tables_ok raw t'.
Proof.
  revert t n. induction rows as [|r rows IH]; intros t n; simpl; [by intros ? [= <- <-]|].
  intros Hok ([t1 b]&Hr&H)%bind_Ok. apply bind_Ok in H as ([t2 m]&H&[= <- <-]).
  eapply IH; [|exact H]. by eapply insert_price_ok.
Qed.

Lemma insert_raws_spec `{JC : !JsonColumn} t rows t' n :
  insert_raws t rows = Ok (t', n) →
  t `prefix_of` t' ∧ (NoDup (raw_dedupe_key <$> t) → NoDup (raw_dedupe_key <$> t')) ∧
  (∀ r, r ∈ rows → raw_dedupe_key r ∈ raw_dedupe_key <$> t') ∧ (∀ r, r ∈ t' → r ∈ t ∨ r ∈ rows).
Proof.
  revert t n. induction rows as [|r rows IH]; intros t n; simpl.
  { intros [= <- <-]. split_and!; [done|done|by intros ? ?%elem_of_nil|by left]. }
  intros ([]&_&H)%bind_Ok. apply bind_Ok in H as ([t2 m]&H&[= <- <-]). simpl.
  destruct (IH _ _ H) as (Hpre&Hnd&Hin&Hfrom). split_and!.
  - etrans; [apply insert_raw_grows|done].
  - intros Ht. apply Hnd. unfold insert_raw. case_bool_decide as Hk; [done|]. simpl.
    rewrite fmap_app. apply NoDup_app. split_and!; [done| |apply NoDup_singleton].
    intros k Hk1 Hk2%list_elem_of_singleton. by subst.
  - intros r' [->|Hr']%elem_of_cons; [|by apply Hin].
    apply (elem_of_prefix (raw_dedupe_key <$> (insert_raw t r).1)); [apply insert_raw_key|].
    destruct Hpre as [k ->]. rewrite fmap_app. by eexists.
  - intros r' Hr'. rewrite elem_of_cons. destruct (Hfrom r' Hr') as [Ho|?]; [|by auto].
    unfold insert_raw in Ho. case_bool_decide; [by left|]. simpl in Ho.
    apply elem_of_app in Ho as [?|?%list_elem_of_singleton]; auto.
Qed.

Lemma insert_raws_ok `{JC : !JsonColumn} raw t rows raw' n :
  tables_ok raw t → insert_raws raw rows = Ok (raw', n) → tables_ok raw' t.
Proof. intros [H1 H2 H3] (_&H&_&_)%insert_raws_spec. split; auto. Qed.
End Tables.
