(* ===== verification/Features.v ===== *)
(** * The feature frame

    [app/features/engineering.py] and the job that stores a snapshot
    ([app/jobs/features.py]): the daily and hourly closes of a table of observations,
    the columns computed from them, and the last row of the frame as of an instant.

    A column is the list of its floats, [NaN] where it has no value; the loops and the
    arithmetic of the source are written out.  The windows of pandas and the functions
    of NumPy are the class [Pandas], with what their documentation promises in
    [PandasLaws]: a window is trailing. *)
From S2P Require Import Prelude PyFloat PyTime Jalali PyText PyJson Validation TrendAlignment PriceDB.
Local Open Scope string_scope.
Local Open Scope list_scope.
Local Open Scope Z_scope.

Abbreviation column := (list float).

(** A frame: its columns by name, in the order they were added. *)
Abbreviation frame := (list (string * column)).

(** A series: values by stamp, in the order of the stamps. *)
Abbreviation series := (list (instant * float)).

(** [ewm(alpha=..)] and [ewm(span=..)] *)
Inductive decay : Set := Alpha (alpha : float) | Span (span : nat).

Class Pandas : Type := {
  rolling_mean : nat → nat → column → column;  (** window, [min_periods] *)
  rolling_max : nat → nat → column → column;
  rolling_min : nat → column → column;
  rolling_std : nat → column → column;
  rolling_skew : nat → column → column;
  rolling_median : nat → column → column;
  rolling_corr : nat → column → column → column;
  ewm_mean : decay → column → column;
  pct_change : nat → column → column;
  row_max : list float → float;
  mean : list float → float;
  median_of : list float → float;
  log : float → float;
  sqrt : float → float;
  square : float → float;
  sign : float → float;
  clip_lower : float → float → float;
  clip_upper : float → float → float;
  clip : float → float → float → float;
  sort_values : ∀ {A}, (A → instant) → list A → list A;
}.

(** A column computed row by row from the rows so far. *)
Record causal (f : column → column) : Prop := {
  causal_length xs : length (f xs) = length xs;
  causal_take n xs : f (take n xs) = take n (f xs);
}.

Class PandasLaws (P : Pandas) : Prop := {
  mean_causal w m : causal (rolling_mean w m);
  max_causal w m : causal (rolling_max w m);
  min_causal w : causal (rolling_min w);
  std_causal w : causal (rolling_std w);
  skew_causal w : causal (rolling_skew w);
  median_causal w : causal (rolling_median w);
  corr_causal w n xs ys : rolling_corr w (take n xs) (take n ys) = take n (rolling_corr w xs ys);
  ewm_causal d : causal (ewm_mean d);
  pct_causal k : causal (pct_change k);
  sort_values_perm {A} (key : A → instant) l : sort_values key l ≡ₚ l;
  sort_values_sorted {A} (key : A → instant) l : ascending key (sort_values key l);
}.

Definition ROLL_WINDOWS : list nat := [5%nat; 10%nat; 20%nat].
Definition LAGS : list nat := [1%nat; 2%nat; 3%nat; 5%nat; 10%nat; 20%nat].
Definition RSI_PERIOD : nat := 14.
Definition PREMIUM_Z_WINDOW : nat := 30.
Definition ADX_PERIOD : nat := 14.
Definition STOCH_PERIOD : nat := 14.
Definition STOCH_SMOOTH : nat := 3.
Definition CCI_PERIOD : nat := 20.
Definition CHANNEL_PERIOD : nat := 20.
Definition CORR_WINDOW : nat := 20.
Definition DRAWDOWN_WINDOW : nat := 90.
Definition PREMIUM_MOM_LAG : nat := 5.
Definition TREND_FAST : Z := 26.
Definition TREND_MID : Z := 48.
Definition TREND_SLOW : Z := 220.
Definition SPACING_DAILY : string := "daily".
Definition SPACING_INTRADAY : string := "intraday".
Definition DAILY_BAR_MIN_SECONDS : Z := 20 * 3600.
Definition DAILY_BAR_MAX_SECONDS : Z := 72 * 3600.
Definition RECENT_GAP_SAMPLE : nat := 64.
Definition WALK_FORWARD_MIN_BARS : Z := 60.

(** ** Columns *)
Definition shift (k : nat) (xs : column) : column := take (length xs) (replicate k fnan ++ xs).
Definition cadd (xs ys : column) : column := zip_with fadd xs ys.
Definition csub (xs ys : column) : column := zip_with fsub xs ys.
Definition cmul (xs ys : column) : column := zip_with fmul xs ys.
Definition cdiv (xs ys : column) : column := zip_with fdiv_ieee xs ys.
Definition scale (c : float) (xs : column) : column := fmul c <$> xs.
Definition less_one (xs : column) : column := (λ x, fsub x fone) <$> xs.
Definition diff (k : nat) (xs : column) : column := csub xs (shift k xs).

(** [xs.replace(0.0, np.nan)] *)
Definition zero_as_nan (x : float) : float := if feq x fzero then fnan else x.
Definition no_zero (xs : column) : column := zero_as_nan <$> xs.

(** [xs.rolling(w).apply(f, raw=True)]: a value where the window is full. *)
Definition window_at (w : nat) (xs : column) (i : nat) : column := drop (S i - w) (take (S i) xs).
Definition apply_window (w : nat) (f : list float → float) (window : column) : float :=
  if (length window <? w)%nat || existsb is_nan window then fnan else f window.
Definition rolling_apply (w : nat) (f : list float → float) (xs : column) : column :=
  (λ i, apply_window w f (window_at w xs i)) <$> seq 0 (length xs).

(** ** Dates of a stamp *)
Definition year_of (d : date) : Z :=
  let y := (d - 1) * 400 / 146097 + 1 in
  if days_before_year (y + 1) <? d then y + 1 else if d <=? days_before_year y then y - 1 else y.

Definition month_of (d : date) : Z :=
  let y := year_of d in
  let past m := days_before_year y + days_before_month (is_leap y) m <? d in
  default 1 (find past [12; 11; 10; 9; 8; 7; 6; 5; 4; 3; 2]).

Definition day_of (d : date) : Z :=
  d - days_before_year (year_of d) - days_before_month (is_leap (year_of d)) (month_of d).

Section Frame.
Context `{P : Pandas}.

Definition rsi (period : nat) (series : column) : column :=
  let delta := diff 1 series in
  let gain := rolling_mean period period (clip_lower fzero <$> delta) in
  let loss := rolling_mean period period (fopp <$> (clip_upper fzero <$> delta)) in
  let rs := cdiv gain (no_zero loss) in
  let out := (λ x, fsub (float_of_Z 100) (fdiv_ieee (float_of_Z 100) (fadd fone x))) <$> rs in
  zip_with (λ o gl, if negb (feq gl.2 fzero) || is_nan gl.1 then o else float_of_Z 100) out (zip gain loss).

Fixpoint ema_from (k current : float) (data : column) : column :=
  match data with
  | [] => []
  | x :: data => let current := ema_step k current x in current :: ema_from k current data
  end.

Definition ema_series (values : column) (period : Z) : column :=
  if (period <=? 0) || (Z.of_nat (length values) <? period) then replicate (length values) fnan
  else
    let n := Z.to_nat period in
    let current := fdiv_ieee (fsum (take n values)) (float_of_Z period) in
    replicate (n - 1) fnan ++ current :: ema_from (ema_k period) current (drop n values).

Definition infer_bar_spacing (index : list instant) : string :=
  let gaps := zip_with (λ a b, total_seconds (b - a)) index (tail index) in
  match drop (length gaps - RECENT_GAP_SAMPLE) gaps with
  | [] => SPACING_INTRADAY
  | g :: gs as recent =>
      if flt (foldl fmin g gs) (float_of_Z DAILY_BAR_MIN_SECONDS) then SPACING_INTRADAY
      else
        let median := median_of recent in
        if fle (float_of_Z DAILY_BAR_MIN_SECONDS) median && fle median (float_of_Z DAILY_BAR_MAX_SECONDS)
        then SPACING_DAILY else SPACING_INTRADAY
  end.

(** One row of [_stack_state]. *)
Definition stack_state_at (close fast mid slow : float) : float :=
  if is_nan fast || is_nan mid || is_nan slow || is_nan close then fnan
  else if fgt close fast && fgt fast mid && fgt mid slow then fone
  else if flt close fast && flt fast mid && flt mid slow then float_of_Z (-1)
  else fzero.

Definition _stack_state (close fast mid slow : column) : column :=
  zip_with (λ cf ms, stack_state_at cf.1 cf.2 ms.1 ms.2) (zip close fast) (zip mid slow).

Fixpoint stack_run_from (count : Z) (previous : float) (values : column) : column :=
  match values with
  | [] => []
  | current :: values =>
      if is_nan current then fnan :: stack_run_from 0 fnan values
      else
        let count := if feq current previous then count + 1 else 1 in
        fmul current (float_of_Z count) :: stack_run_from count current values
  end.

Definition _stack_run (state : column) : column := stack_run_from 0 fnan state.

Definition spacing_of (bar_spacing : option string) (index : list instant) : string :=
  match bar_spacing with
  | None | Some EmptyString => infer_bar_spacing index
  | Some spacing => spacing
  end.

Definition daily_trend_stack (index : list instant) (close : column) (bar_spacing : option string)
    (min_history : option Z) : frame :=
  if negb (String.eqb (spacing_of bar_spacing index) SPACING_DAILY) then []
  else
    let shortest := default WALK_FORWARD_MIN_BARS min_history in
    if shortest <? TREND_MID then []
    else
      let fast := ema_series close TREND_FAST in
      let mid := ema_series close TREND_MID in
      let columns := [("close_vs_ema_26", less_one (cdiv close fast)); ("ema26_vs_ema48", less_one (cdiv fast mid))] in
      if shortest <? TREND_SLOW then columns
      else
        let slow := ema_series close TREND_SLOW in
        let state := _stack_state close fast mid slow in
        columns ++ [("ema48_vs_ema220", less_one (cdiv mid slow)); ("trend_stack_1d", state);
                    ("trend_stack_run", _stack_run state)].

(** ** Closes *)
(** A row of the price query: symbol, instant, value. *)
Record PricePoint : Set := { pp_symbol : string; pp_observed_at : instant; pp_value : float }.

(** [groupby(..).last()]: the last value of a group that is not [NaN]. *)
Definition group_last (vs : list float) : float := default fnan (last (List.filter (λ v, negb (is_nan v)) vs)).

Definition bucket_of (size : Z) (p : PricePoint) : instant := pp_observed_at p / size * size.

(** The buckets of the rows, in ascending order and once each. *)
Definition buckets (size : Z) (rows : list PricePoint) : list instant :=
  sort_by (λ b, b) (remove_dups (bucket_of size <$> rows)).

Definition last_by_bucket (size : Z) (df : list PricePoint) (symbol : string) : series :=
  let sub := sort_values pp_observed_at (List.filter (λ p, String.eqb (pp_symbol p) symbol) df) in
  (λ b, (b, group_last (pp_value <$> List.filter (λ p, bucket_of size p =? b) sub))) <$> buckets size sub.

Definition daily_close : list PricePoint → string → series := last_by_bucket us_day.
Definition hourly_close : list PricePoint → string → series := last_by_bucket us_hour.

(** ** The columns *)

(** [_align]: the latest value of [aux] at or before each stamp. *)
Definition _align (index : list instant) (aux : series) : column :=
  (λ t, default fnan (last (snd <$> List.filter (λ p, (p.1 <=? t) && negb (is_nan p.2)) aux))) <$> index.

Fixpoint streak_from (before : float) (signs : column) : column :=
  match signs with
  | [] => []
  | s :: signs =>
      let here :=
        if feq s fzero then fzero else if fgt (fmul before s) fzero then fadd before s else s in
      here :: streak_from here signs
  end.

Definition streak (signs : column) : column :=
  match signs with [] => [] | _ :: signs => fzero :: streak_from fzero signs end.

(** [series.fillna(0.0)] *)
Definition nan_as_zero (x : float) : float := if is_nan x then fzero else x.

Definition price_columns (close : column) : frame :=
  concat ((λ k, [("lag_" ++ str_of_Z (Z.of_nat k), shift k close);
                 ("ret_" ++ str_of_Z (Z.of_nat k), pct_change k close)])%string <$> LAGS)
  ++ concat ((λ w,
       let mean := rolling_mean w w close in
       [("roll_mean_" ++ str_of_Z (Z.of_nat w), mean);
        ("roll_std_" ++ str_of_Z (Z.of_nat w), rolling_std w close);
        ("close_vs_mean_" ++ str_of_Z (Z.of_nat w), less_one (cdiv close mean))])%string <$> ROLL_WINDOWS)
  ++ [("momentum_10", less_one (cdiv close (shift 10 close)));
      ("rsi_14", rsi RSI_PERIOD close);
      ("rsi_7", rsi 7 close);
      ("vol_20", rolling_std 20 (pct_change 1 close));
      ("streak", clip (float_of_Z (-10)) (float_of_Z 10)
                 <$> streak (nan_as_zero <$> (sign <$> diff 1 close)));
      ("ret_skew_20", rolling_skew 20 (pct_change 1 close))].

Definition volatility_columns (close : column) : frame :=
  let ret := pct_change 1 close in
  let garch := sqrt <$> ewm_mean (Alpha (flit 6 2)) (square <$> ret) in
  [("garch_vol", garch);
   ("garch_vol_ratio_60", cdiv garch (no_zero (rolling_mean 60 20 garch)));
   ("ret_med_5", rolling_median 5 ret)].

(** True range: the widest of the bar and its two gaps. *)
Definition true_range (high low before : column) : column :=
  zip_with (λ hl b, row_max [fsub hl.1 hl.2; fabs (fsub hl.1 b); fabs (fsub hl.2 b)]) (zip high low) before.

(** [np.where((x > y) & (x > 0.0), x, 0.0)] *)
Definition dominant (xs ys : column) : column :=
  zip_with (λ x y, if fgt x y && fgt x fzero then x else fzero) xs ys.

Definition mean_abs_dev (window : list float) : float :=
  let m := mean window in mean ((λ x, fabs (fsub x m)) <$> window).

Definition range_columns (close : column) : frame :=
  let hundred := float_of_Z 100 in
  let high := rolling_max 2 2 close in
  let low := rolling_min 2 close in
  let tr := true_range high low (shift 1 close) in
  let up_move := diff 1 high in
  let down_move := fopp <$> diff 1 low in
  let plus_dm := dominant up_move down_move in
  let minus_dm := dominant down_move up_move in
  let atr_14 := no_zero (rolling_mean ADX_PERIOD ADX_PERIOD tr) in
  let plus_di := cdiv (scale hundred (rolling_mean ADX_PERIOD ADX_PERIOD plus_dm)) atr_14 in
  let minus_di := cdiv (scale hundred (rolling_mean ADX_PERIOD ADX_PERIOD minus_dm)) atr_14 in
  let dx := cdiv (scale hundred (fabs <$> csub plus_di minus_di)) (no_zero (cadd plus_di minus_di)) in
  let high_14 := rolling_max STOCH_PERIOD STOCH_PERIOD high in
  let low_14 := rolling_min STOCH_PERIOD low in
  let stoch_range := no_zero (csub high_14 low_14) in
  let stoch_k := cdiv (scale hundred (csub close low_14)) stoch_range in
  let tp := (λ x, fdiv_ieee x (float_of_Z 3)) <$> cadd (cadd high low) close in
  let tp_mean := rolling_mean CCI_PERIOD CCI_PERIOD tp in
  let tp_mad := rolling_apply CCI_PERIOD mean_abs_dev tp in
  let donchian_upper := rolling_max CHANNEL_PERIOD CHANNEL_PERIOD high in
  let donchian_lower := rolling_min CHANNEL_PERIOD low in
  let ema_20 := ewm_mean (Span CHANNEL_PERIOD) close in
  let atr_20 := no_zero (rolling_mean CHANNEL_PERIOD CHANNEL_PERIOD tr) in
  [("adx_14", rolling_mean ADX_PERIOD ADX_PERIOD dx);
   ("stoch_k", stoch_k);
   ("stoch_d", rolling_mean STOCH_SMOOTH STOCH_SMOOTH stoch_k);
   ("williams_r_14", cdiv (scale (float_of_Z (-100)) (csub high_14 close)) stoch_range);
   ("cci_20", cdiv (csub tp tp_mean) (scale (flit 15 3) (no_zero tp_mad)));
   ("donchian_upper_dist_20", less_one (cdiv close donchian_upper));
   ("donchian_lower_dist_20", less_one (cdiv close donchian_lower));
   ("keltner_pos_20", cdiv (csub close ema_20) (scale (float_of_Z 2) atr_20))].

Definition drawdown_columns (close : column) : frame :=
  [("drawdown_90d_pct",
    (λ x, fmul x (float_of_Z 100)) <$> less_one (cdiv close (rolling_max DRAWDOWN_WINDOW 1 close)))].

Definition calendar_columns (index : list instant) : frame :=
  let dow t := weekday (date_of t) in
  [("dow", (λ t, float_of_Z (dow t)) <$> index)]
  ++ ((λ d, (("dow_" ++ str_of_Z d)%string, (λ t, if dow t =? d then fone else fzero) <$> index))
      <$> [0; 1; 2; 3; 4; 5; 6])
  ++ [("hour", (λ t, float_of_Z (time_of t / us_hour)) <$> index);
      ("jalali_month",
       (λ t, let d := date_of t in float_of_Z (jalali_month (year_of d) (month_of d) (day_of d))) <$> index)].

(** A context series that is there: not [None] and not empty. *)
Definition aligned (index : list instant) (aux : option series) : option column :=
  match aux with None | Some [] => None | Some aux => Some (_align index aux) end.

Definition return_columns (name : string) (xs : column) : frame :=
  [(name ++ "_ret_1", pct_change 1 xs); (name ++ "_ret_5", pct_change 5 xs)]%string.

Definition context_columns (close : column) (usd xau : option column) : frame :=
  match usd with Some usd => ("usd_irt", usd) :: return_columns "usd" usd | None => [] end
  ++ match xau with
     | Some xau =>
         ("xau_usd", xau) :: return_columns "xau" xau
         ++ [("corr_xau_20", rolling_corr CORR_WINDOW (diff 1 (log <$> close)) (diff 1 (log <$> xau)))]
     | None => []
     end
  ++ match usd, xau with
     | Some usd, Some xau =>
         let theoretical :=
           (λ x, fmul x KARAT_18_PURITY) <$> cmul ((λ x, fdiv_ieee x TROY_OUNCE_GRAMS) <$> xau) usd in
         let premium := (λ x, fmul x (float_of_Z 100)) <$> cdiv (csub close theoretical) theoretical in
         let prem_mean := rolling_mean PREMIUM_Z_WINDOW PREMIUM_Z_WINDOW premium in
         let prem_std := rolling_std PREMIUM_Z_WINDOW premium in
         [("theoretical_18k", theoretical); ("premium_pct", premium);
          ("premium_z_30", cdiv (csub premium prem_mean) (no_zero prem_std));
          ("premium_mom_5", diff PREMIUM_MOM_LAG premium)]
     | _, _ => []
     end.

Definition fund_columns (close : column) (fund flow : option column) : frame :=
  match fund with
  | Some fund =>
      let ratio := cdiv fund close in
      let ratio_mean := rolling_mean PREMIUM_Z_WINDOW PREMIUM_Z_WINDOW ratio in
      let ratio_std := rolling_std PREMIUM_Z_WINDOW ratio in
      return_columns "fund" fund
      ++ [("fund_ratio_z_30", cdiv (csub ratio ratio_mean) (no_zero ratio_std))]
  | None => []
  end
  ++ match flow with
     | Some flow =>
         [("fund_flow", flow); ("fund_flow_ma5", rolling_mean 5 5 flow); ("fund_flow_chg_5", diff 5 flow)]
     | None => []
     end.

(** The context series of a frame. *)
Record FrameContext : Set := {
  usd_irt : option series;
  xau_usd : option series;
  gold_fund : option series;
  fund_flow : option series;
}.

Definition compute_feature_frame (gold : series) (ctx : FrameContext) (bar_spacing : option string)
    (min_history : option Z) : frame :=
  let index := fst <$> gold in
  let close := snd <$> gold in
  ("close", close)
  :: price_columns close ++ volatility_columns close ++ range_columns close
  ++ daily_trend_stack index close bar_spacing min_history
  ++ drawdown_columns close ++ calendar_columns index
  ++ context_columns close (aligned index (usd_irt ctx)) (aligned index (xau_usd ctx))
  ++ fund_columns close (aligned index (gold_fund ctx)) (aligned index (fund_flow ctx)).

(** ** Snapshots *)
Inductive leakage : Set := LeakageError (latest as_of : instant).

Definition assert_no_future (df : list PricePoint) (as_of : instant) : result leakage () :=
  match pp_observed_at <$> df with
  | [] => Ok ()
  | t :: ts => let latest := foldl Z.max t ts in raise_if (as_of <? latest) (LeakageError latest as_of)
  end.

(** [frame.iloc[-1]] *)
Definition last_row (fr : frame) : list (string * float) := (λ c, (c.1, default fnan (last c.2))) <$> fr.

Definition snapshot_features (fr : frame) : list (string * json) :=
  omap (λ c, if is_nan c.2 then None else Some (c.1, JFloat (py_round c.2 10))) (last_row fr).

(** [x if not x.empty else None] *)
Definition or_none (s : series) : option series := match s with [] => None | _ => Some s end.

Definition build_snapshot (prices_df : list PricePoint) (as_of : instant) (symbol : string)
    : result leakage (option (list (string * json))) :=
  match List.filter (λ p, pp_observed_at p <=? as_of) prices_df with
  | [] => Ok None
  | df =>
      _ ← assert_no_future df as_of;
      match daily_close df symbol with
      | [] => Ok None
      | gold =>
          let n := Z.of_nat (length gold) in
          let ctx :=
            {| usd_irt := or_none (daily_close df "USD_IRT"); xau_usd := or_none (daily_close df "XAUUSD");
               gold_fund := or_none (daily_close df "IR_GOLD_FUND_AYAR");
               fund_flow := or_none (daily_close df "IR_GOLD_FUND_FLOW") |} in
          let fr := compute_feature_frame gold ctx (Some SPACING_DAILY) (Some n) in
          Ok (Some (snapshot_features fr ++ [("n_daily_points", JInt n)]))
      end
  end.

(** ** The job: [jobs/features.py] *)
Definition FEATURE_SYMBOLS : list string := ["IR_GOLD_18K"; "USD_IRT"; "XAUUSD"].

Record Snapshot : Set := {
  s_symbol : string;
  s_as_of : instant;
  s_features : list (string * json);
  s_created_at : instant;
}.

(** [feature_snapshots_unique] *)
Definition snapshot_key (s : Snapshot) : string * instant := (s_symbol s, s_as_of s).

Inductive features_error : Type := Leaked (e : leakage) | SnapshotRefused.

Record FeaturesReport : Set := {
  generated : Z;
  fr_reason : option string;
  n_features : option nat;
}.

Definition point_of (r : PriceRow) : PricePoint :=
  {| pp_symbol := pr_symbol r; pp_observed_at := pr_observed_at r; pp_value := pr_value r |}.

Definition feature_rows `{SqlAscending} (prices : list PriceRow) (as_of : instant) : list PriceRow :=
  oldest_first pr_observed_at
    (List.filter (λ r, existsb (String.eqb (pr_symbol r)) FEATURE_SYMBOLS && String.eqb (pr_quality r) "ok"
                       && (pr_observed_at r <=? as_of)) prices).

Definition nothing_generated (reason : string) : FeaturesReport :=
  {| generated := 0; fr_reason := Some reason; n_features := None |}.

(** The table after the insert, and whether the row is new. *)
Definition insert_snapshot (table : list Snapshot) (s : Snapshot) : list Snapshot * bool :=
  if bool_decide (snapshot_key s ∈ snapshot_key <$> table) then (table, false) else (table ++ [s], true).

Definition run_generate_features `{SqlAscending} `{JsonColumn} (prices : list PriceRow) (table : list Snapshot)
    (as_of : instant) : result features_error (list Snapshot * FeaturesReport) :=
  match feature_rows prices as_of with
  | [] => Ok (table, nothing_generated "no price data")
  | rows =>
      match build_snapshot (point_of <$> rows) as_of "IR_GOLD_18K" with
      | Err e => Err (Leaked e)
      | Ok None => Ok (table, nothing_generated "no gold series")
      | Ok (Some features) =>
          _ ← raise_if (negb (json_column features)) SnapshotRefused;
          let x := insert_snapshot table
                     {| s_symbol := "IR_GOLD_18K"; s_as_of := as_of; s_features := features;
                        s_created_at := as_of |} in
          Ok (x.1, {| generated := if x.2 then 1 else 0; fr_reason := None;
                      n_features := Some (length features) |})
      end
  end.
End Frame.

(** ** Causality: no row reads a later one *)
Section Columns.

Lemma take_zip_with {A B C} (f : A → B → C) n xs ys :
  take n (zip_with f xs ys) = zip_with f (take n xs) (take n ys).
Proof. revert xs ys. induction n as [|n IH]; intros [|x xs] [|y ys]; simpl; try done. by rewrite IH. Qed.

Lemma take_shift n k xs : take n (shift k xs) = shift k (take n xs).
Proof.
  unfold shift. rewrite take_take, length_take. apply list_eq. intros i.
  destruct (decide (i < n `min` length xs)%nat) as [Hi|Hi].
  - rewrite !lookup_take_lt by done. destruct (decide (i < k)%nat).
    + by rewrite !lookup_app_l by (rewrite length_replicate; lia).
    + rewrite !lookup_app_r by (rewrite length_replicate; lia).
      rewrite lookup_take_lt; [done|]. rewrite length_replicate. lia.
  - by rewrite !lookup_take_ge by lia.
Qed.

Lemma take_diff n k xs : take n (diff k xs) = diff k (take n xs).
Proof. unfold diff, csub. by rewrite take_zip_with, take_shift. Qed.

Lemma take_pointwise {A B} (f : nat → A) (g : list B → nat → A) n (xs : list B) :
  (∀ xs n i, (i < n)%nat → g (take n xs) i = g xs i) →
  take n (g xs <$> seq 0 (length xs)) = g (take n xs) <$> seq 0 (length (take n xs)).
Proof.
  intros Hg. rewrite length_take. apply list_eq. intros i. rewrite list_lookup_fmap.
  destruct (decide (i < n)%nat).
  - rewrite lookup_take_lt, list_lookup_fmap by done.
    destruct (decide (i < length xs)%nat).
    + rewrite !lookup_seq_lt by lia. simpl. by rewrite Hg.
    + by rewrite !lookup_seq_ge by lia.
  - by rewrite lookup_take_ge, lookup_seq_ge by lia.
Qed.

Lemma window_at_take w n i xs : (i < n)%nat → window_at w (take n xs) i = window_at w xs i.
Proof. intros Hi. unfold window_at. rewrite take_take. f_equal. f_equal. lia. Qed.

Lemma take_rolling_apply n w f xs : take n (rolling_apply w f xs) = rolling_apply w f (take n xs).
Proof.
  unfold rolling_apply. apply (take_pointwise (λ _, fnan) (λ xs i, apply_window w f (window_at w xs i))).
  intros ys m i Hi. by rewrite window_at_take.
Qed.

Lemma take_streak_from n before signs : take n (streak_from before signs) = streak_from before (take n signs).
Proof. revert before signs. induction n as [|n IH]; intros before [|s signs]; try done. simpl. by rewrite IH. Qed.

Lemma take_streak n signs : take n (streak signs) = streak (take n signs).
Proof. destruct signs as [|s signs], n as [|n]; try done. simpl. by rewrite take_streak_from. Qed.

Lemma take_stack_run_from n c p xs : take n (stack_run_from c p xs) = stack_run_from c p (take n xs).
Proof.
  revert c p xs. induction n as [|n IH]; intros c p [|x xs]; try done. simpl.
  destruct (is_nan x); simpl; by rewrite IH.
Qed.

Lemma ema_from_lookup k current data i :
  ema_from k current data !! i =
  if (i <? length data)%nat then Some (foldl (ema_step k) current (take (S i) data)) else None.
Proof.
  revert current i. induction data as [|x data IH]; intros current i; [done|]. simpl ema_from.
  destruct i as [|i]; [done|]. rewrite lookup_cons, IH. simpl length.
  change (S i <? S (length data))%nat with (i <? length data)%nat. by destruct (i <? length data)%nat.
Qed.
End Columns.

(** [ema_series] at a row is the indicator's average of the rows up to it. *)
Lemma ema_series_lookup values period i :
  (i < length values)%nat → ema_series values period !! i = Some (default fnan (ema (take (S i) values) period)).
Proof.
  intros Hi. unfold ema_series, ema, len. rewrite length_take.
  replace (S i `min` length values)%nat with (S i) by lia.
  destruct (Z.leb_spec period 0) as [|Hp]; simpl; [by rewrite lookup_replicate_2|].
  destruct (Z.ltb_spec (Z.of_nat (length values)) period) as [Hl|Hl].
  { destruct (Z.ltb_spec (Z.of_nat (S i)) period); [|lia]. by rewrite lookup_replicate_2. }
  set (n := Z.to_nat period). assert (n ≠ 0%nat) by lia.
  destruct (Z.ltb_spec (Z.of_nat (S i)) period) as [Hs|Hs]; simpl.
  - rewrite lookup_app_l by (rewrite length_replicate; lia). by rewrite lookup_replicate_2 by lia.
  - rewrite lookup_app_r, length_replicate by (rewrite length_replicate; lia).
    rewrite take_take. replace (n `min` S i)%nat with n by lia.
    destruct (decide (i = n - 1)%nat) as [->|Hne].
    + rewrite Nat.sub_diag. simpl. rewrite drop_ge; [done|]. rewrite length_take. lia.
    + replace (i - (n - 1))%nat with (S (i - n)) by lia. simpl. rewrite ema_from_lookup, length_drop.
      destruct (Nat.ltb_spec (i - n) (length values - n)); [|lia]. f_equal. f_equal.
      rewrite skipn_firstn_comm. f_equal. lia.
Qed.

Lemma ema_series_length values period : length (ema_series values period) = length values.
Proof.
  unfold ema_series. destruct (_ || _) eqn:H; [by rewrite length_replicate|].
  apply orb_false_iff in H as [H1%Z.leb_gt H2%Z.ltb_ge]. rewrite length_app, length_replicate. simpl.
  assert (∀ k c d, length (ema_from k c d) = length d) as Hlen.
  { intros k c d. revert c. induction d; intros c; simpl; [done|]. by rewrite IHd. }
  rewrite Hlen, length_drop. lia.
Qed.

Lemma take_ema_series n values period : take n (ema_series values period) = ema_series (take n values) period.
Proof.
  apply list_eq. intros i. destruct (decide (i < n ∧ i < length values)%nat) as [[H1 H2]|H].
  - rewrite lookup_take_lt by done.
    rewrite !ema_series_lookup by (rewrite ?length_take; lia). rewrite take_take.
    by replace (S i `min` n)%nat with (S i) by lia.
  - transitivity (@None float); [|symmetry]; apply lookup_ge_None_2.
    + rewrite length_take, ema_series_length. lia.
    + rewrite ema_series_length, length_take. lia.
Qed.

Lemma fmap_take {A B} (f : A → B) n xs : take n (f <$> xs) = f <$> take n xs.
Proof. symmetry. apply fmap_take. Qed.

#[export] Hint Rewrite @take_zip_with take_shift take_diff take_rolling_apply take_streak take_stack_run_from
  take_ema_series @fmap_take : causal.

Section Causality.
Context `{P : Pandas} {L : PandasLaws P}.

(** The first [n] rows of a frame. *)
Definition rows (n : nat) (fr : frame) : frame := (λ c, (c.1, take n c.2)) <$> fr.

Lemma take_rolling_mean n w m xs : take n (rolling_mean w m xs) = rolling_mean w m (take n xs).
Proof. symmetry. apply causal_take, mean_causal. Qed.
Lemma take_rolling_max n w m xs : take n (rolling_max w m xs) = rolling_max w m (take n xs).
Proof. symmetry. apply causal_take, max_causal. Qed.
Lemma take_rolling_min n w xs : take n (rolling_min w xs) = rolling_min w (take n xs).
Proof. symmetry. apply causal_take, min_causal. Qed.
Lemma take_rolling_std n w xs : take n (rolling_std w xs) = rolling_std w (take n xs).
Proof. symmetry. apply causal_take, std_causal. Qed.
Lemma take_rolling_skew n w xs : take n (rolling_skew w xs) = rolling_skew w (take n xs).
Proof. symmetry. apply causal_take, skew_causal. Qed.
Lemma take_rolling_median n w xs : take n (rolling_median w xs) = rolling_median w (take n xs).
Proof. symmetry. apply causal_take, median_causal. Qed.
Lemma take_ewm_mean n d xs : take n (ewm_mean d xs) = ewm_mean d (take n xs).
Proof. symmetry. apply causal_take, ewm_causal. Qed.
Lemma take_pct_change n k xs : take n (pct_change k xs) = pct_change k (take n xs).
Proof. symmetry. apply causal_take, pct_causal. Qed.
Lemma take_rolling_corr n w xs ys : take n (rolling_corr w xs ys) = rolling_corr w (take n xs) (take n ys).
Proof. symmetry. apply corr_causal. Qed.

Hint Rewrite take_rolling_mean take_rolling_max take_rolling_min take_rolling_std take_rolling_skew
  take_rolling_median take_ewm_mean take_pct_change take_rolling_corr : causal.

Lemma rows_app n (a b : frame) : rows n (a ++ b) = rows n a ++ rows n b.
Proof. apply fmap_app. Qed.

Ltac push_rows :=
  cbn [rows fmap list_fmap app concat LAGS ROLL_WINDOWS fst snd];
  unfold cadd, csub, cmul, cdiv, scale, less_one, no_zero, _stack_run, _stack_state, true_range, dominant;
  autorewrite with causal; reflexivity.

Lemma take_rsi n period xs : take n (rsi period xs) = rsi period (take n xs).
Proof. unfold rsi, cdiv, no_zero. autorewrite with causal. reflexivity. Qed.

Hint Rewrite take_rsi : causal.

Lemma price_rows n close : rows n (price_columns close) = price_columns (take n close).
Proof. unfold price_columns. push_rows. Qed.

Lemma volatility_rows n close : rows n (volatility_columns close) = volatility_columns (take n close).
Proof. unfold volatility_columns. push_rows. Qed.

Lemma range_rows n close : rows n (range_columns close) = range_columns (take n close).
Proof. unfold range_columns. push_rows. Qed.

Lemma drawdown_rows n close : rows n (drawdown_columns close) = drawdown_columns (take n close).
Proof. unfold drawdown_columns. push_rows. Qed.

Lemma calendar_rows n index : rows n (calendar_columns index) = calendar_columns (take n index).
Proof. unfold calendar_columns. push_rows. Qed.

(** Where the spacing is declared. *)
Lemma stack_rows n index index' close spacing mh :
  spacing ≠ EmptyString →
  rows n (daily_trend_stack index close (Some spacing) mh)
  = daily_trend_stack index' (take n close) (Some spacing) mh.
Proof.
  intros Hs. unfold daily_trend_stack, spacing_of. destruct spacing as [|c s]; [done|].
  repeat destruct_if; push_rows.
Qed.

Lemma context_rows n close usd xau :
  rows n (context_columns close usd xau) = context_columns (take n close) (take n <$> usd) (take n <$> xau).
Proof. unfold context_columns, return_columns. destruct usd, xau; simpl; push_rows. Qed.

Lemma fund_rows n close fund flow :
  rows n (fund_columns close fund flow) = fund_columns (take n close) (take n <$> fund) (take n <$> flow).
Proof. unfold fund_columns, return_columns. destruct fund, flow; simpl; push_rows. Qed.

(** Two context series that say the same up to an instant. *)
Definition there (aux : option series) : bool := match aux with None | Some [] => false | _ => true end.
Definition until (T : instant) (aux : option series) : series := List.filter (λ p, p.1 <=? T) (default [] aux).
Definition same_until (T : instant) (a b : option series) : Prop := there a = there b ∧ until T a = until T b.

Lemma align_until index T a b :
  Forall (λ t, t ≤ T) index → List.filter (λ p, p.1 <=? T) a = List.filter (λ p, p.1 <=? T) b →
  _align index a = _align index b.
Proof.
  intros Hi Hab. unfold _align. apply list_fmap_ext. intros i t Ht.
  apply (Forall_lookup_1 _ _ _ _ Hi) in Ht.
  assert (∀ l : series, List.filter (λ p, (p.1 <=? t) && negb (is_nan p.2)) l =
    List.filter (λ p, (p.1 <=? t) && negb (is_nan p.2)) (List.filter (λ p, p.1 <=? T) l)) as Hf.
  { intros l. rewrite bool_filter_filter. apply bool_filter_ext. intros p _.
    destruct (Z.leb_spec p.1 t), (Z.leb_spec p.1 T); simpl; (done || lia). }
  by rewrite (Hf a), (Hf b), Hab.
Qed.

Lemma aligned_until n index T a b :
  Forall (λ t, t ≤ T) (take n index) → same_until T a b →
  aligned (take n index) b = take n <$> aligned index a.
Proof.
  intros Hi [Hthere Huntil]. destruct a as [[|p a]|], b as [[|q b]|]; try done. simpl. f_equal.
  transitivity (_align (take n index) (p :: a)); [symmetry; by apply (align_until _ T)|].
  unfold _align. by rewrite fmap_take.
Qed.

(** C25. No row of the frame reads a later one: the frame of the first [n] bars, whatever the
    context series hold after the last of them, is the first [n] rows of the frame of the
    whole series, column for column. *)
Theorem frame_causal gold ctx ctx' n T spacing mh :
  spacing ≠ EmptyString →
  Forall (λ p, p.1 ≤ T) (take n gold) →
  same_until T (usd_irt ctx) (usd_irt ctx') → same_until T (xau_usd ctx) (xau_usd ctx') →
  same_until T (gold_fund ctx) (gold_fund ctx') → same_until T (fund_flow ctx) (fund_flow ctx') →
  compute_feature_frame (take n gold) ctx' (Some spacing) mh
  = rows n (compute_feature_frame gold ctx (Some spacing) mh).
Proof.
  intros Hs HT Hu Hx Hg Hf. unfold compute_feature_frame. cbv zeta. rewrite <-!fmap_take.
  assert (Forall (λ t, t ≤ T) (take n (fst <$> gold))) as Hi by (by rewrite fmap_take, Forall_fmap).
  rewrite (aligned_until _ _ _ _ _ Hi Hu), (aligned_until _ _ _ _ _ Hi Hx),
    (aligned_until _ _ _ _ _ Hi Hg), (aligned_until _ _ _ _ _ Hi Hf).
  change (rows n (("close", snd <$> gold) :: ?x)) with (("close", take n (snd <$> gold)) :: rows n x).
  rewrite !rows_app, price_rows, volatility_rows, range_rows, drawdown_rows, calendar_rows, context_rows, fund_rows.
  by rewrite (stack_rows n _ (take n (fst <$> gold)) _ spacing mh Hs).
Qed.

Lemma latest_le d l bound : (∀ t, t ∈ d :: l → t ≤ bound) → foldl Z.max d l ≤ bound.
Proof.
  revert d. induction l as [|x l IH]; intros d H; simpl; [apply H; left|]. apply IH.
  intros t [->|Ht]%elem_of_cons; [|apply H; by do 2 right].
  pose proof (H d ltac:(left)). pose proof (H x ltac:(right; left)). lia.
Qed.

(** A snapshot as of an instant is a function of the rows observed by then: later rows
    change nothing, and the leakage guard never fires. *)
Theorem snapshot_point_in_time df df' as_of symbol :
  List.filter (λ p, pp_observed_at p <=? as_of) df = List.filter (λ p, pp_observed_at p <=? as_of) df' →
  build_snapshot df as_of symbol = build_snapshot df' as_of symbol
  ∧ is_ok (build_snapshot df as_of symbol) = true.
Proof.
  intros H. unfold build_snapshot. rewrite <-H. split; [done|].
  destruct (List.filter _ df) as [|p ps] eqn:Hf; [done|].
  assert (assert_no_future (p :: ps) as_of = Ok ()) as ->; [|by destruct (daily_close (p :: ps) symbol)].
  unfold assert_no_future. cbn [fmap list_fmap].
  destruct (Z.ltb_spec as_of (foldl Z.max (pp_observed_at p) (pp_observed_at <$> ps))) as [Hlt|]; [|done].
  assert (foldl Z.max (pp_observed_at p) (pp_observed_at <$> ps) ≤ as_of); [|lia].
  apply latest_le. intros t Ht. change (_ :: _) with (pp_observed_at <$> p :: ps) in Ht.
  apply list_elem_of_fmap in Ht as (q&->&Hq). rewrite <-Hf in Hq.
  apply elem_of_bool_filter in Hq as [_ Hq]. by apply Z.leb_le.
Qed.
End Causality.

(** ** The daily stack is the published indicator *)

(** The number a trend state is stored as. *)
Definition state_value (s : TrendState) : float :=
  match s with bullish => fone | bearish => float_of_Z (-1) | neutral => fzero | unavailable => fnan end.

Definition number (x : option float) : option float := match x with Some v => if is_nan v then None else x | None => None end.

Lemma number_default x : is_nan (default fnan x) = match number x with None => true | Some _ => false end.
Proof. destruct x as [v|]; simpl; [by destruct (is_nan v) eqn:H|done]. Qed.

Lemma stack_state_number c f m s :
  stack_state_at (default fnan c) (default fnan f) (default fnan m) (default fnan s)
  = state_value (trend_state (number c) (number f) (number m) (number s)).
Proof.
  unfold stack_state_at. rewrite !number_default. unfold trend_state.
  destruct (number c) as [c'|] eqn:Hc; [|by rewrite !orb_true_r].
  destruct (number f) as [f'|] eqn:Hf; [|done].
  destruct (number m) as [m'|] eqn:Hm; [|by rewrite orb_true_r].
  destruct (number s) as [s'|] eqn:Hs; [|by rewrite !orb_true_r].
  assert (∀ x v, number x = Some v → default fnan x = v) as Hd.
  { intros [v|] w; simpl; [|done]. destruct (is_nan v); [done|]. by intros [= ->]. }
  rewrite (Hd _ _ Hc), (Hd _ _ Hf), (Hd _ _ Hm), (Hd _ _ Hs). simpl. by repeat destruct_if.
Qed.

(** C35. Row by row, the daily stack is the trend the indicator publishes: the state of bar [i]
    is [trend_state] of its close and the three averages [ema] of the closes up to it. *)
Theorem stack_is_the_indicator close i c :
  close !! i = Some c →
  let at_ period := number (ema (take (S i) close) period) in
  _stack_state close (ema_series close TREND_FAST) (ema_series close TREND_MID) (ema_series close TREND_SLOW) !! i
  = Some (state_value (trend_state (number (Some c)) (at_ TREND_FAST) (at_ TREND_MID) (at_ TREND_SLOW))).
Proof.
  intros Hi at_. pose proof (lookup_lt_Some _ _ _ Hi) as Hlt. unfold _stack_state.
  rewrite lookup_zip_with, !lookup_zip_with, Hi, !ema_series_lookup by done. simpl. f_equal.
  exact (stack_state_number (Some c) _ _ _).
Qed.

(** How many rows, newest first, hold the state [s]. *)
Fixpoint held (s : float) (newest_first : column) : Z :=
  match newest_first with
  | [] => 0
  | x :: rest => if feq s x then 1 + held s rest else 0
  end.

Lemma feq_same a b c : feq a b = true → feq a c = feq b c.
Proof.
  intros Hab. destruct (feq b c) eqn:Hbc.
  - apply feq_spec in Hab as (k&Ha&Hb), Hbc as (k'&Hb'&Hc). apply feq_spec. exists k. split; [done|]. congruence.
  - apply not_true_is_false. intros Hac. apply not_true_iff_false in Hbc. apply Hbc.
    apply feq_spec in Hab as (k&Ha&Hb), Hac as (k'&Ha'&Hc). apply feq_spec. exists k. split; [done|]. congruence.
Qed.

Lemma feq_nan s : feq s fnan = false.
Proof. by destruct s. Qed.

Lemma stack_run_from_lookup values count previous past i s :
  (∀ s, is_nan s = false → (if feq s previous then count else 0) = held s past) →
  values !! i = Some s →
  stack_run_from count previous values !! i
  = Some (if is_nan s then fnan else fmul s (float_of_Z (held s (reverse (take (S i) values) ++ past)))).
Proof.
  revert count previous past i. induction values as [|v values IH]; intros count previous past i Hp Hi; [done|].
  assert (∀ l, reverse (v :: l) ++ past = reverse l ++ v :: past) as Hrev by (intros l; by rewrite reverse_cons, <-app_assoc).
  simpl stack_run_from. destruct (is_nan v) eqn:Hv.
  - destruct i as [|i]; simpl in *.
    + injection Hi as <-. by rewrite Hv.
    + rewrite Hrev. apply IH; [|done]. intros s' Hs'. destruct v; try done. by destruct s'.
  - set (count' := if feq v previous then count + 1 else 1).
    assert (count' = 1 + held v past) as Hc.
    { unfold count'. rewrite <-(Hp v Hv). destruct (feq v previous); lia. }
    assert (feq v v = true) as Hvv by (by apply feq_refl).
    destruct i as [|i]; simpl in *.
    + injection Hi as <-. rewrite Hv. do 3 f_equal. by rewrite Hvv.
    + rewrite Hrev. apply IH; [|done]. intros s' Hs'. simpl. destruct (feq s' v) eqn:Hsv; [|done].
      rewrite Hc. f_equal. rewrite <-(Hp s' Hs'), <-(Hp v Hv). by rewrite (feq_same _ _ _ Hsv).
Qed.

(** The signed run of a row is its state times the number of bars, itself included, for
    which that state has held without a break; a row without a state has no run. *)
Theorem stack_run_counts state i s :
  state !! i = Some s →
  _stack_run state !! i
  = Some (if is_nan s then fnan else fmul s (float_of_Z (held s (reverse (take (S i) state))))).
Proof.
  intros Hi. unfold _stack_run. rewrite (stack_run_from_lookup state 0 fnan [] i s); [by rewrite app_nil_r| |done].
  intros s' _. by rewrite feq_nan.
Qed.

(** ** Closes *)
Section Closes.
Context `{P : Pandas} {L : PandasLaws P}.

(** What the closes of a symbol say, bucket by bucket. *)
Record closes_of (size : Z) (df : list PricePoint) (symbol : string) (s : series) : Prop := {
  co_ascending : strictly_ascending fst s;
  co_buckets b : b ∈ fst <$> s ↔ ∃ p, p ∈ df ∧ pp_symbol p = symbol ∧ bucket_of size p = b;
  co_last b v : (b, v) ∈ s → is_nan v = false →
    ∃ p, p ∈ df ∧ pp_symbol p = symbol ∧ bucket_of size p = b ∧ pp_value p = v ∧
      ∀ q, q ∈ df → pp_symbol q = symbol → bucket_of size q = b → is_nan (pp_value q) = false →
        pp_observed_at q ≤ pp_observed_at p;
  co_missing b v : (b, v) ∈ s → is_nan v = true →
    ∀ q, q ∈ df → pp_symbol q = symbol → bucket_of size q = b → is_nan (pp_value q) = true;
}.

Lemma ascending_last {A} (key : A → Z) l x y : ascending key l → last l = Some x → y ∈ l → key y ≤ key x.
Proof.
  intros Hs [l' ->]%last_Some Hy. apply elem_of_app in Hy as [Hy|Hy].
  - apply (StronglySorted_app_inv _ _ _ Hs y x Hy). by left.
  - apply list_elem_of_singleton in Hy as ->. lia.
Qed.

Lemma strictly_ascending_fmap {A B} (key : B → Z) (f : A → B) l :
  strictly_ascending (λ x, key (f x)) l → strictly_ascending key (f <$> l).
Proof.
  unfold strictly_ascending. induction 1 as [|x l _ IH Hx]; [constructor|]. simpl. constructor; [done|].
  by rewrite Forall_fmap.
Qed.

Lemma group_last_spec vs :
  match last (List.filter (λ v, negb (is_nan v)) vs) with
  | Some v => group_last vs = v ∧ is_nan v = false
  | None => group_last vs = fnan ∧ ∀ v, v ∈ vs → is_nan v = true
  end.
Proof.
  unfold group_last. destruct (last _) as [v|] eqn:Hl; simpl.
  - split; [done|]. apply last_Some in Hl as [l' Hl]. assert (v ∈ List.filter (λ v, negb (is_nan v)) vs) as Hin.
    { rewrite Hl. apply elem_of_app. right. by left. }
    apply elem_of_bool_filter in Hin as [_ H]. by apply negb_true_iff.
  - split; [done|]. apply last_None in Hl. intros v Hv. apply filter_nil_iff in Hl.
    rewrite Forall_forall in Hl. specialize (Hl v Hv). by apply negb_false_iff.
Qed.

Lemma filter_fmap_values (l : list PricePoint) :
  List.filter (λ v, negb (is_nan v)) (pp_value <$> l) = pp_value <$> List.filter (λ p, negb (is_nan (pp_value p))) l.
Proof. induction l as [|p l IH]; [done|]. simpl. destruct (is_nan (pp_value p)); simpl; [exact IH|]. f_equal. exact IH. Qed.

Lemma last_by_bucket_spec size df symbol : closes_of size df symbol (last_by_bucket size df symbol).
Proof.
  unfold last_by_bucket. set (sub := sort_values _ _).
  assert (∀ p, p ∈ sub ↔ p ∈ df ∧ pp_symbol p = symbol) as Hsub.
  { intros p. unfold sub. rewrite sort_values_perm, elem_of_bool_filter, String.eqb_eq. done. }
  assert (∀ b, b ∈ buckets size sub ↔ ∃ p, p ∈ sub ∧ bucket_of size p = b) as Hb.
  { intros b. unfold buckets, sort_by. rewrite py_sorted_perm, elem_of_remove_dups, list_elem_of_fmap. naive_solver. }
  assert (∀ b v, (b, v) ∈ ((λ b, (b, group_last (pp_value <$> List.filter (λ p, bucket_of size p =? b) sub))) <$> buckets size sub) →
    v = group_last (pp_value <$> List.filter (λ p, bucket_of size p =? b) sub)) as Hv.
  { intros b v (b'&[= -> ->]&_)%list_elem_of_fmap. done. }
  split.
  - apply (strictly_ascending_fmap fst). simpl. apply sort_by_strict. rewrite list_fmap_id. apply NoDup_remove_dups.
  - intros b. rewrite <-list_fmap_compose, (list_fmap_ext _ id), list_fmap_id, Hb by done. setoid_rewrite Hsub. naive_solver.
  - intros b v Hin Hn. apply Hv in Hin as ->. set (g := List.filter _ sub) in *.
    pose proof (group_last_spec (pp_value <$> g)) as Hg. rewrite filter_fmap_values, fmap_last in Hg.
    destruct (last (List.filter _ g)) as [p|] eqn:Hl; simpl in Hg; [|by rewrite (proj1 Hg) in Hn].
    destruct Hg as [-> _].
    assert (p ∈ g ∧ is_nan (pp_value p) = false) as [Hpg Hpn].
    { apply last_Some in Hl as [l' Hl]. assert (p ∈ List.filter (λ p, negb (is_nan (pp_value p))) g) as Hp
        by (rewrite Hl; apply elem_of_app; right; by left).
      apply elem_of_bool_filter in Hp as [? ?%negb_true_iff]. done. }
    apply elem_of_bool_filter in Hpg as [Hps Hpb]. apply Hsub in Hps as [Hpd Hpsym]. apply Z.eqb_eq in Hpb.
    exists p. split_and!; try done. intros q Hq Hqs Hqb Hqn.
    apply (ascending_last pp_observed_at (List.filter (λ p, negb (is_nan (pp_value p))) g)); [|done|].
    + unfold ascending, g. do 2 apply StronglySorted_bool_filter. apply sort_values_sorted.
    + apply elem_of_bool_filter. rewrite Hqn. split; [|done]. apply elem_of_bool_filter. split; [by apply Hsub|by apply Z.eqb_eq].
  - intros b v Hin Hn q Hq Hqs Hqb. apply Hv in Hin as ->. set (g := List.filter _ sub) in *.
    pose proof (group_last_spec (pp_value <$> g)) as Hg. destruct (last _) as [x|]; [by rewrite (proj1 Hg), (proj2 Hg) in Hn|].
    apply Hg, list_elem_of_fmap_2, elem_of_bool_filter. split; [by apply Hsub|by apply Z.eqb_eq].
Qed.

(** The daily closes of a symbol: one per UTC day that has an observation, in order, and
    the close of a day is its latest observation that is a number. *)
Theorem daily_close_spec df symbol : closes_of us_day df symbol (daily_close df symbol).
Proof. apply last_by_bucket_spec. Qed.
End Closes.

(** ** The fields of a date *)
Section Dates.

Lemma days_bounds y :
  146097 * (y - 1) - 700 < 400 * days_before_year y < 146097 * (y - 1) + 400.
Proof. unfold days_before_year. cbv zeta. generalize (y - 1) as n. intros n. Z.to_euclidean_division_equations. lia. Qed.

Lemma year_of_spec d y : days_before_year y < d ≤ days_before_year (y + 1) → year_of d = y.
Proof.
  intros [H1 H2]. pose proof (days_bounds y). pose proof (days_bounds (y + 1)). unfold year_of.
  set (g := (d - 1) * 400 / 146097 + 1).
  assert (y - 1 ≤ g ≤ y + 1) as Hg.
  { unfold g. assert (y - 2 ≤ (d - 1) * 400 / 146097 < y + 1); [|lia].
    split; [apply Z.div_le_lower_bound|apply Z.div_lt_upper_bound]; lia. }
  pose proof (days_before_year_mono (y - 1) y ltac:(lia)) as Ha.
  pose proof (days_before_year_mono y (y + 1) ltac:(lia)) as Hb.
  pose proof (days_before_year_mono (y + 1) (y + 2) ltac:(lia)) as Hc.
  assert (g = y - 1 ∨ g = y ∨ g = y + 1) as [-> | [-> | ->]] by lia.
  - replace (y - 1 + 1) with y by lia. destruct (Z.ltb_spec (days_before_year y) d); lia.
  - destruct (Z.ltb_spec (days_before_year (y + 1)) d); [lia|].
    destruct (Z.leb_spec d (days_before_year y)); lia.
  - replace (y + 1 + 1) with (y + 2) by lia. destruct (is_leap (y + 1)); destruct (Z.ltb_spec (days_before_year (y + 2)) d); [lia| |lia|];
      destruct (Z.leb_spec d (days_before_year (y + 1))); lia.
Qed.

Lemma month_of_spec y m d : civil y m d → month_of (ordinal y m d) = m.
Proof.
  intros Hc. pose proof (ordinal_year y m d Hc) as Hy. unfold month_of. rewrite (year_of_spec _ y Hy).
  destruct Hc as [Hm Hd]. unfold ordinal, days_in_month in *. set (l := is_leap y) in *. set (b := days_before_year y). clearbody b l.
  assert (∀ k, (b + days_before_month l k <? b + days_before_month l m + d) = (days_before_month l k <? days_before_month l m + d)) as He.
  { intros k. destruct (Z.ltb_spec (days_before_month l k) (days_before_month l m + d)), (Z.ltb_spec (b + days_before_month l k) (b + days_before_month l m + d)); (done || lia). }
  assert (m = 1 ∨ m = 2 ∨ m = 3 ∨ m = 4 ∨ m = 5 ∨ m = 6 ∨ m = 7 ∨ m = 8 ∨ m = 9 ∨ m = 10 ∨ m = 11 ∨ m = 12) as Hcase by lia.
  cbv zeta. cbn [List.find]. rewrite !He. clear He.
  destruct l; destruct_or? Hcase; subst m; simpl in *;
    repeat (match goal with |- context [?x <? ?y] => destruct (Z.ltb_spec x y); [try lia|try lia] end); simpl; (done || lia).
Qed.
End Dates.

(** The fields of a stamp are those of its date: what the calendar columns read. *)
Lemma date_fields y m d :
  civil y m d → (year_of (ordinal y m d), month_of (ordinal y m d), day_of (ordinal y m d)) = (y, m, d).
Proof.
  intros Hc. pose proof (year_of_spec _ _ (ordinal_year y m d Hc)) as Hy. pose proof (month_of_spec y m d Hc) as Hm.
  unfold day_of. rewrite Hm, Hy. unfold ordinal. f_equal. lia.
Qed.

(** ** The job *)
Section Job.
Context `{P : Pandas} {L : PandasLaws P} `{SA : SqlAscending} `{JC : JsonColumn}.

(** The rows the job may read. *)
Definition readable (as_of : instant) (r : PriceRow) : bool :=
  existsb (String.eqb (pr_symbol r)) FEATURE_SYMBOLS && String.eqb (pr_quality r) "ok" && (pr_observed_at r <=? as_of).

(** A pass appends at most one snapshot, never for an instant that has one, and rewrites
    nothing; what it stores is the snapshot of the accepted rows observed by then, so rows
    that are later or suspect have no influence on it, and the guard against them never
    fires. *)
Theorem features_job_exact prices prices' table as_of :
  List.filter (readable as_of) prices = List.filter (readable as_of) prices' →
  NoDup (snapshot_key <$> table) →
  run_generate_features prices table as_of = run_generate_features prices' table as_of ∧
  match run_generate_features prices table as_of with
  | Err e => e = SnapshotRefused
  | Ok (table', rep) =>
      NoDup (snapshot_key <$> table') ∧
      (generated rep = 0 ∧ table' = table ∨
       generated rep = 1 ∧ ∃ s, table' = table ++ [s] ∧ s_as_of s = as_of ∧
         build_snapshot (point_of <$> feature_rows prices as_of) as_of "IR_GOLD_18K" = Ok (Some (s_features s)))
  end.
Proof.
  intros Heq Hnd. assert (feature_rows prices as_of = feature_rows prices' as_of) as Hrows.
  { unfold feature_rows. change (List.filter _ prices) with (List.filter (readable as_of) prices). by rewrite Heq. }
  split; [unfold run_generate_features; by rewrite Hrows|].
  unfold run_generate_features. set (rs := feature_rows prices as_of). clearbody rs.
  destruct rs as [|r rs]; [split; [done|by left]|].
  destruct (snapshot_point_in_time (point_of <$> r :: rs) (point_of <$> r :: rs) as_of "IR_GOLD_18K" eq_refl) as [_ Hok].
  destruct (build_snapshot _ _ _) as [[features|]|e]; [|split; [done|by left]|done].
  destruct (json_column features); simpl; [|done]. unfold insert_snapshot. simpl.
  case_bool_decide as Hk; simpl; [split; [done|by left]|]. split.
  - rewrite fmap_app. simpl. apply NoDup_app. split; [done|]. split; [|apply NoDup_singleton].
    intros k Hin ->%list_elem_of_singleton. by apply Hk.
  - right. split; [done|]. by eexists.
Qed.
End Job.

(** ** A concrete pandas *)
Definition trailing (w minp : nat) (f : list float → float) (xs : column) : column :=
  (λ i, let win := List.filter (λ x, negb (is_nan x)) (window_at w xs i) in
        if (length win <? minp)%nat then fnan else f win) <$> seq 0 (length xs).

Fixpoint ewm_from (alpha before : float) (xs : column) : column :=
  match xs with
  | [] => []
  | x :: xs =>
      let here := if is_nan before then x else fadd (fmul alpha x) (fmul (fsub fone alpha) before) in
      here :: ewm_from alpha here xs
  end.

Definition average (xs : list float) : float :=
  fdiv_ieee (foldl fadd fzero xs) (float_of_Z (Z.of_nat (length xs))).
Definition spread (xs : list float) : float :=
  let m := average xs in average ((λ x, fabs (fsub x m)) <$> xs).
Definition greatest (xs : list float) : float := match xs with [] => fnan | x :: xs => foldl fmax x xs end.
Definition least (xs : list float) : float := match xs with [] => fnan | x :: xs => foldl fmin x xs end.
Definition within (lo hi x : float) : float := if is_nan x then x else fmin (fmax x lo) hi.

#[export] Instance reference_pandas : Pandas := {
  rolling_mean w m := trailing w m average;
  rolling_max w m := trailing w m greatest;
  rolling_min w := trailing w w least;
  rolling_std w := trailing w w spread;
  rolling_skew w := trailing w w (λ xs, fsub (average xs) (default fnan (median xs)));
  rolling_median w := trailing w w (λ xs, default fnan (median xs));
  rolling_corr w xs ys := trailing w w average (cmul xs ys);
  ewm_mean d := ewm_from (match d with Alpha a => a | Span s => fdiv_ieee (float_of_Z 2) (float_of_Z (Z.of_nat s + 1)) end) fnan;
  pct_change k xs := less_one (cdiv xs (shift k xs));
  row_max := greatest;
  mean := average;
  median_of xs := default fnan (median xs);
  log x := x;
  sqrt x := x;
  square x := fmul x x;
  sign x := if flt x fzero then float_of_Z (-1) else if fgt x fzero then fone else x;
  clip_lower := fmax;
  clip_upper := fmin;
  clip := within;
  sort_values := λ A key l, sort_by key l;
}.

Lemma trailing_causal w m f : causal (trailing w m f).
Proof.
  split; [intros xs; unfold trailing; by rewrite length_fmap, length_seq|].
  intros n xs. unfold trailing. symmetry.
  apply (take_pointwise (λ _, fnan) (λ xs i, let win := List.filter (λ x, negb (is_nan x)) (window_at w xs i) in
        if (length win <? m)%nat then fnan else f win)).
  intros ys k i Hi. by rewrite window_at_take.
Qed.

Lemma ewm_from_causal a b : causal (ewm_from a b).
Proof.
  split.
  - intros xs. revert b. induction xs as [|x xs IH]; intros b; simpl; [done|]. by rewrite IH.
  - intros n xs. revert n b. induction xs as [|x xs IH]; intros [|n] b; simpl; try done. by rewrite IH.
Qed.

#[export] Instance reference_pandas_laws : PandasLaws reference_pandas.
Proof.
  split; try (intros *; simpl; apply trailing_causal || apply ewm_from_causal).
  - intros w n xs ys. simpl. rewrite <-(causal_take _ (trailing_causal w w average)). f_equal.
    unfold cmul. by rewrite take_zip_with.
  - intros k. split.
    + intros xs. simpl. unfold less_one, cdiv. rewrite length_fmap, length_zip_with.
      unfold shift. rewrite length_take, length_app, length_replicate. lia.
    + intros n xs. simpl. unfold less_one, cdiv. by rewrite fmap_take, take_zip_with, take_shift.
  - intros A key l. simpl. unfold sort_by. apply py_sorted_perm.
  - intros A key l. simpl. apply sort_by_ascending.
Qed.

(** ** Concrete closes *)
Definition bar (day : Z) (v : Z) : instant * float := (day * us_day, float_of_Z v).
Definition demo_gold : series := [bar 738000 100; bar 738001 110; bar 738002 99; bar 738003 120].
Definition demo_context (last : Z) : FrameContext :=
  {| usd_irt := Some [bar 738000 7; bar 738003 last]; xau_usd := None; gold_fund := None; fund_flow := None |}.

Definition point (sym : string) (t v : Z) : PricePoint :=
  {| pp_symbol := sym; pp_observed_at := t; pp_value := float_of_Z v |}.

Definition demo_rows : list PricePoint :=
  [point "XAUUSD" (us_day + 5) 8; point "XAUUSD" (us_day + 1) 7; point "USD_IRT" us_day 1; point "XAUUSD" 3 6].

(** The last observation of a day is its close. *)
Example demo_daily_close : daily_close demo_rows "XAUUSD" = [(0, float_of_Z 6); (us_day, float_of_Z 8)].
Proof. vm_compute. reflexivity. Qed.

(** The unaffordable columns of a short run are left out. *)
Example short_run_has_no_stack :
  assoc "trend_stack_1d" (compute_feature_frame demo_gold (demo_context 9) (Some SPACING_DAILY) (Some 60)) = None
  ∧ assoc "usd_irt" (compute_feature_frame demo_gold (demo_context 9) (Some SPACING_DAILY) (Some 60))
    = Some [float_of_Z 7; float_of_Z 7; float_of_Z 7; float_of_Z 9].
Proof. vm_compute. done. Qed.

Lemma frame_causal_witness :
  compute_feature_frame (take 3 demo_gold) (demo_context 12) (Some SPACING_DAILY) (Some 60)
  = rows 3 (compute_feature_frame demo_gold (demo_context 9) (Some SPACING_DAILY) (Some 60)).
Proof.
  apply (frame_causal demo_gold (demo_context 9) (demo_context 12) 3 (738002 * us_day) SPACING_DAILY (Some 60)).
  - done.
  - repeat constructor; vm_compute; discriminate.
  - split; reflexivity.
  - split; reflexivity.
  - split; reflexivity.
  - split; reflexivity.
Defined.

Lemma snapshot_point_in_time_witness :
  build_snapshot demo_rows 10 "XAUUSD" = build_snapshot (demo_rows ++ [point "XAUUSD" 11 9]) 10 "XAUUSD".
Proof.
  exact (proj1 (snapshot_point_in_time demo_rows (demo_rows ++ [point "XAUUSD" 11 9]) 10 "XAUUSD" eq_refl)).
Defined.

Lemma stack_is_the_indicator_witness :
  _stack_state [fone; fone] (ema_series [fone; fone] TREND_FAST) (ema_series [fone; fone] TREND_MID)
    (ema_series [fone; fone] TREND_SLOW) !! 1%nat = Some (state_value unavailable).
Proof. exact (stack_is_the_indicator [fone; fone] 1 fone eq_refl). Defined.

Lemma stack_run_counts_witness :
  _stack_run [fone; fone; fzero; fone; fone; fone] !! 5%nat = Some (fmul fone (float_of_Z 3)).
Proof. exact (stack_run_counts [fone; fone; fzero; fone; fone; fone] 5 fone eq_refl). Defined.

#[local] Instance demo_ascending : SqlAscending := { oldest_first := λ A key l, sort_by key l }.
#[local] Instance demo_column : JsonColumn := { json_column := λ _, true }.

Definition stored (sym quality : string) (t v : Z) : PriceRow :=
  {| pr_symbol := sym; pr_value := float_of_Z v; pr_currency := "IRT"; pr_unit := "gram"; pr_source := "tgju";
     pr_observed_at := t; pr_collected_at := t; pr_quality := quality |}.

Lemma features_job_exact_witness :
  run_generate_features [stored "IR_GOLD_18K" "ok" us_day 5] [] (2 * us_day)
  = run_generate_features [stored "IR_GOLD_18K" "ok" us_day 5; stored "IR_GOLD_18K" "suspect" us_day 9] [] (2 * us_day).
Proof.
  refine (proj1 (features_job_exact [stored "IR_GOLD_18K" "ok" us_day 5]
    [stored "IR_GOLD_18K" "ok" us_day 5; stored "IR_GOLD_18K" "suspect" us_day 9] [] (2 * us_day) _ _)).
  - reflexivity.
  - constructor.
Defined.

(** A stored snapshot is not stored again. *)
Example snapshot_stored_once :
  match run_generate_features [stored "IR_GOLD_18K" "ok" us_day 5] [] (2 * us_day) with
  | Ok (table, rep) =>
      (generated rep, (λ x, generated x.2) <$> run_generate_features [stored "IR_GOLD_18K" "ok" us_day 5] table (2 * us_day))
      = (1, Ok 0)
  | Err _ => False
  end.
Proof. vm_compute. reflexivity. Qed.
