(* ===== verification/Microstructure.v ===== *)
(** * Point-in-time microstructure features

    [app/features/microstructure.py]: the registry of the features, the observation stream of
    one provider and symbol, the columns computed of it, the backward as-of join that puts
    them on another timeline, and the decomposition of a move.

    The windows of pandas are the class [Pandas] of [Features]; the ones only this file uses
    are [PandasTime], with [PandasTimeLaws]: a window is trailing, and [argsort] sorts.  The
    logarithm of the math module and [json.loads] are parameters. *)
From S2P Require Import Prelude PyFloat PyTime PyText PyJson Validation Features.
Local Open Scope string_scope.
Local Open Scope list_scope.
Local Open Scope Z_scope.

(** [series.rolling(w).rank(pct=True)], [series.rolling("6h").sum()], [index.argsort()] *)
Class PandasTime : Type := {
  rolling_rank : nat → column → column;
  rolling_span_sum : Z → list instant → column → column;
  argsort : list instant → list nat;
}.

(** [xs[order]] *)
Definition reorder {A} (d : A) (xs : list A) (order : list nat) : list A := (λ i, nth i xs d) <$> order.

Class PandasTimeLaws (P : PandasTime) : Prop := {
  rank_causal w : causal (rolling_rank w);
  span_sum_causal w n index xs :
    rolling_span_sum w (take n index) (take n xs) = take n (rolling_span_sum w index xs);
  argsort_perm index : argsort index ≡ₚ seq 0 (length index);
  argsort_sorted index : ascending id (reorder 0 index (argsort index));
}.

Definition PRIMARY_PROVIDER : string := "hamrahgold".
Definition PRIMARY_SYMBOL : string := "IR_GOLD_18K".
Definition DERIVED_PROVIDER : string := "derived".
Definition SPREAD_PCT_KEY : string := "spread_pct".
Definition SELL_RIAL_KEY : string := "sell_rial".
Definition BUY_RIAL_KEY : string := "buy_rial".
Definition DISPERSION_KEY : string := "peer_dispersion".
Definition DISPERSION_VALUE_KEYS : list string := ["pct"; "dispersion_pct"; "gap_pct"; "value"].
Definition SPREAD_WINDOW : nat := 60.
Definition SPREAD_CHG_LAG : nat := 5.
Definition SPREAD_MEAN_WINDOW : nat := 20.
Definition DISPERSION_WINDOW : nat := 60.
Definition GAP_WINDOW : nat := 20.
Definition FREQ_WINDOW_HOURS : list Z := [6; 24].
Definition RV_SHORT : nat := 12.
Definition RV_LONG : nat := 48.
Definition JUMP_WINDOW : nat := 48.
Definition JUMP_SIGMA : float := float_of_Z 4.
Definition MAD_TO_SIGMA : float := flit 14826 4.
Definition PREMIUM_DECOMP_LAG : nat := 1.
Definition SPREAD_STALENESS_S : Z := 3 * 3600.
Definition CADENCE_STALENESS_S : Z := 1 * 3600.
Definition VOL_STALENESS_S : Z := 1 * 3600.
Definition DECOMP_STALENESS_S : Z := 24 * 3600.
Definition AGE_COLUMN : string := "feature_age_seconds".

(** ** The registry *)
Inductive missing_policy : Set := POLICY_FFILL | POLICY_NAN_ON_GAP.

Record FeatureSpec : Set := {
  f_name : string;
  f_provider : string;
  f_symbol : string;
  f_policy : missing_policy;
  f_staleness_seconds : Z;
  f_requires_payload_key : option string;
}.

(** A feature of the dealer's stream. *)
Definition stream_spec (name : string) (policy : missing_policy) (staleness : Z) (needs : option string) : FeatureSpec :=
  {| f_name := name; f_provider := PRIMARY_PROVIDER; f_symbol := PRIMARY_SYMBOL; f_policy := policy;
     f_staleness_seconds := staleness; f_requires_payload_key := needs |}.

(** A feature composed of several series. *)
Definition derived_spec (name symbol : string) : FeatureSpec :=
  {| f_name := name; f_provider := DERIVED_PROVIDER; f_symbol := symbol; f_policy := POLICY_FFILL;
     f_staleness_seconds := DECOMP_STALENESS_S; f_requires_payload_key := None |}.

Definition FEATURE_SPECS : list FeatureSpec :=
  [stream_spec "dealer_spread_pct" POLICY_FFILL SPREAD_STALENESS_S (Some SPREAD_PCT_KEY);
   stream_spec "dealer_spread_pctile_60" POLICY_FFILL SPREAD_STALENESS_S (Some SPREAD_PCT_KEY);
   stream_spec "dealer_spread_z_60" POLICY_FFILL SPREAD_STALENESS_S (Some SPREAD_PCT_KEY);
   stream_spec "dealer_spread_chg_5" POLICY_FFILL SPREAD_STALENESS_S (Some SPREAD_PCT_KEY);
   stream_spec "dealer_spread_ratio_20" POLICY_FFILL SPREAD_STALENESS_S (Some SPREAD_PCT_KEY);
   stream_spec "peer_dispersion_pct" POLICY_FFILL SPREAD_STALENESS_S (Some DISPERSION_KEY);
   stream_spec "peer_dispersion_z_60" POLICY_FFILL SPREAD_STALENESS_S (Some DISPERSION_KEY);
   stream_spec "obs_gap_seconds" POLICY_FFILL CADENCE_STALENESS_S None;
   stream_spec "obs_gap_ratio_20" POLICY_FFILL CADENCE_STALENESS_S None;
   stream_spec "obs_per_hour_6h" POLICY_FFILL CADENCE_STALENESS_S None;
   stream_spec "obs_per_hour_24h" POLICY_FFILL CADENCE_STALENESS_S None;
   stream_spec "realized_vol_12" POLICY_FFILL VOL_STALENESS_S None;
   stream_spec "realized_vol_48" POLICY_FFILL VOL_STALENESS_S None;
   stream_spec "realized_vol_ratio_12_48" POLICY_FFILL VOL_STALENESS_S None;
   stream_spec "jump_z" POLICY_NAN_ON_GAP 0 None;
   stream_spec "jump_flag" POLICY_NAN_ON_GAP 0 None;
   derived_spec "dlog_18k" PRIMARY_SYMBOL;
   derived_spec "fx_contrib_log" "USD_IRT";
   derived_spec "gold_contrib_log" "XAUUSD";
   derived_spec "premium_contrib_log" PRIMARY_SYMBOL;
   derived_spec "fx_share" "USD_IRT";
   derived_spec "gold_share" "XAUUSD";
   derived_spec "premium_share" PRIMARY_SYMBOL].

(** [FEATURE_REGISTRY.get(name)] *)
Definition registered (name : string) : option FeatureSpec :=
  List.find (λ s, String.eqb (f_name s) name) FEATURE_SPECS.

Definition STREAM_FEATURES : list string :=
  f_name <$> List.filter (λ s, negb (String.eqb (f_provider s) DERIVED_PROVIDER)) FEATURE_SPECS.
Definition DECOMPOSITION_FEATURES : list string :=
  f_name <$> List.filter (λ s, String.eqb (f_provider s) DERIVED_PROVIDER) FEATURE_SPECS.

(** ** Payloads *)
Definition _number (v : json) : result pyerr (option float) :=
  match json_number v with
  | None => Ok None
  | Some r => out ← r; Ok (if is_nan out || is_inf out then None else Some out)
  end.

Definition _spread_from_payload (payload : list (string * json)) : result pyerr float :=
  stored ← _number (jget SPREAD_PCT_KEY payload);
  match stored with
  | Some x => Ok x
  | None =>
      sell ← _number (jget SELL_RIAL_KEY payload);
      buy ← _number (jget BUY_RIAL_KEY payload);
      Ok (match sell, buy with
          | Some sell, Some buy =>
              let mid := fdiv_ieee (fadd sell buy) (float_of_Z 2) in
              if fgt mid fzero then fmul (fdiv_ieee (fsub sell buy) mid) fhundred else fnan
          | _, _ => fnan
          end)
  end.

(** The first of the keys that holds a number. *)
Fixpoint first_number (keys : list string) (raw : list (string * json)) : result pyerr (option float) :=
  match keys with
  | [] => Ok None
  | key :: keys =>
      nested ← _number (jget key raw);
      match nested with Some x => Ok (Some x) | None => first_number keys raw end
  end.

Definition _dispersion_from_payload (payload : list (string * json)) : result pyerr float :=
  match assoc DISPERSION_KEY payload with
  | None => Ok fnan
  | Some raw =>
      direct ← _number raw;
      match direct, raw with
      | Some x, _ => Ok x
      | None, JObj items => nested ← first_number DISPERSION_VALUE_KEYS items; Ok (default fnan nested)
      | None, _ => Ok fnan
      end
  end.

(** ** Observations *)

(** A row as it is given; [None]: no instant, or no such column. *)
Record RawObs : Set := {
  ob_observed_at : option instant;
  ob_provider_code : option string;
  ob_symbol : option string;
  ob_value : float;
  ob_raw_value : float;
  ob_currency : string;
  ob_raw_payload : json;
}.

(** The rows, and which of the columns that matter are there. *)
Record Observations : Set := {
  has_observed_at : bool;
  has_value : bool;
  has_raw_value : bool;
  has_currency : bool;
  has_raw_payload : bool;
  ob_rows : list RawObs;
}.

Record MicroRow : Set := {
  mr_observed_at : instant;
  mr_provider_code : option string;
  mr_symbol : option string;
  mr_value : float;
  mr_payload : list (string * json);
}.

Inductive micro_exn : Set :=
| MissingColumn
| Leaked (e : leakage)
| Uncaught (e : pyerr).

Definition from_py {A} (r : result pyerr A) : result micro_exn A :=
  match r with Ok x => Ok x | Err e => Err (Uncaught e) end.

(** A row of features: the instant it is of, and its values. *)
Abbreviation feature_row := (instant * list float)%type.

Section Frame.
Context `{P : Pandas} `{PT : PandasTime} (json_loads : string → option json).

Definition _as_payload (raw : json) : list (string * json) :=
  match raw with
  | JObj items => items
  | JStr text => match json_loads text with Some (JObj items) => items | _ => [] end
  | _ => []
  end.

Definition value_of_row (obs : Observations) (r : RawObs) : float :=
  if has_value obs then ob_value r
  else if has_currency obs && String.eqb (ob_currency r) "IRR" then rial_to_toman (ob_raw_value r)
  else ob_raw_value r.

(** A row with an instant. *)
Definition normalized (obs : Observations) (r : RawObs) : option MicroRow :=
  (λ t, {| mr_observed_at := t; mr_provider_code := ob_provider_code r; mr_symbol := ob_symbol r;
           mr_value := value_of_row obs r;
           mr_payload := if has_raw_payload obs then _as_payload (ob_raw_payload r) else [] |})
    <$> ob_observed_at r.

(** What [assert_no_future] looks at. *)
Definition instants_of (rows : list MicroRow) : list PricePoint :=
  (λ r, {| pp_symbol := EmptyString; pp_observed_at := mr_observed_at r; pp_value := mr_value r |}) <$> rows.

Definition normalize_observations (obs : Observations) (as_of : option instant) : result micro_exn (list MicroRow) :=
  match ob_rows obs with
  | [] => Ok []
  | rows =>
      _ ← raise_if (negb (has_observed_at obs)) MissingColumn;
      _ ← raise_if (negb (has_value obs) && negb (has_raw_value obs)) MissingColumn;
      let out := sort_values mr_observed_at (omap (normalized obs) rows) in
      match as_of with
      | None => Ok out
      | Some cutoff =>
          let out := List.filter (λ r, mr_observed_at r <=? cutoff) out in
          match assert_no_future (instants_of out) cutoff with
          | Ok _ => Ok out
          | Err e => Err (Leaked e)
          end
      end
  end.

(** [~index.duplicated(keep="last")] *)
Fixpoint keep_last {A} (key : A → instant) (rows : list A) : list A :=
  match rows with
  | [] => []
  | r :: rows => if existsb (λ r', key r' =? key r) rows then keep_last key rows else r :: keep_last key rows
  end.

Definition in_stream (provider symbol : string) (r : MicroRow) : bool :=
  bool_decide (mr_provider_code r = Some provider) && bool_decide (mr_symbol r = Some symbol).

Definition _stream (rows : list MicroRow) (provider symbol : string) : list MicroRow :=
  keep_last mr_observed_at (List.filter (in_stream provider symbol) rows).

(** ** The columns *)
Definition trailing_z (series : column) (window : nat) : column :=
  cdiv (csub series (rolling_mean window window series)) (no_zero (rolling_std window series)).

Definition trailing_percentile (series : column) (window : nat) : column := rolling_rank window series.

(** [index.to_series().diff().dt.total_seconds()] *)
Definition gaps (index : list instant) : column :=
  match index with
  | [] => []
  | _ :: later => fnan :: zip_with (λ a b, total_seconds (b - a)) index later
  end.

(** [price.where(price > 0)] *)
Definition where_positive (xs : column) : column := (λ x, if fgt x fzero then x else fnan) <$> xs.

Definition dealer_columns (spread : column) : frame :=
  [("dealer_spread_pct", spread);
   ("dealer_spread_pctile_60", trailing_percentile spread SPREAD_WINDOW);
   ("dealer_spread_z_60", trailing_z spread SPREAD_WINDOW);
   ("dealer_spread_chg_5", diff SPREAD_CHG_LAG spread);
   ("dealer_spread_ratio_20", cdiv spread (no_zero (rolling_mean SPREAD_MEAN_WINDOW SPREAD_MEAN_WINDOW spread)))].

Definition dispersion_columns (dispersion : column) : frame :=
  [("peer_dispersion_pct", dispersion);
   ("peer_dispersion_z_60", trailing_z dispersion DISPERSION_WINDOW)].

Definition per_hour (index : list instant) (hours : Z) : column :=
  (λ x, fdiv_ieee x (float_of_Z hours)) <$> rolling_span_sum (hours * us_hour) index ((λ _, fone) <$> index).

Definition cadence_columns (index : list instant) : frame :=
  let gap := gaps index in
  [("obs_gap_seconds", gap);
   ("obs_gap_ratio_20", cdiv gap (no_zero (rolling_median GAP_WINDOW gap)));
   ("obs_per_hour_6h", per_hour index 6);
   ("obs_per_hour_24h", per_hour index 24)].

Definition log_returns (price : column) : column := diff 1 (log <$> where_positive price).

(** Divided by a scale of the prior window only. *)
Definition jump_z_of (log_return : column) : column :=
  let scale := scale MAD_TO_SIGMA (shift 1 (rolling_median JUMP_WINDOW (fabs <$> log_return))) in
  cdiv log_return (no_zero scale).

Definition jump_flag_of (z : float) : float := if is_nan z then fnan else if fge (fabs z) JUMP_SIGMA then fone else fzero.

Definition micro_volatility (price : column) : frame :=
  let log_return := log_returns price in
  let rv_short := rolling_std RV_SHORT log_return in
  let rv_long := rolling_std RV_LONG log_return in
  let jump_z := jump_z_of log_return in
  [("realized_vol_12", rv_short);
   ("realized_vol_48", rv_long);
   ("realized_vol_ratio_12_48", cdiv rv_short (no_zero rv_long));
   ("jump_z", jump_z);
   ("jump_flag", jump_flag_of <$> jump_z)].

(** The columns, with what the payloads say. *)
Definition micro_columns (index : list instant) (spread dispersion price : column) : frame :=
  dealer_columns spread ++ dispersion_columns dispersion ++ cadence_columns index ++ micro_volatility price.

(** The index and the columns of a stream. *)
Definition frame_of_stream (stream : list MicroRow) : result micro_exn (list instant * frame) :=
  match stream with
  | [] => Ok ([], (λ name, (name, [])) <$> STREAM_FEATURES)
  | stream =>
      let index := mr_observed_at <$> stream in
      spread ← from_py (traverse _spread_from_payload (mr_payload <$> stream));
      dispersion ← from_py (traverse _dispersion_from_payload (mr_payload <$> stream));
      Ok (index, micro_columns index spread dispersion (mr_value <$> stream))
  end.

Definition build_microstructure_frame (obs : Observations) (as_of : option instant) (provider symbol : string)
    : result micro_exn (list instant * frame) :=
  rows ← normalize_observations obs as_of;
  frame_of_stream (_stream rows provider symbol).

(** Whether a payload has what a key stands for. *)
Definition PAYLOAD_EXTRACTORS : list (string * (list (string * json) → result pyerr float)) :=
  [(SPREAD_PCT_KEY, _spread_from_payload); (DISPERSION_KEY, _dispersion_from_payload)].

(** [any(not isnan(extractor(p)) for p in payloads)] *)
Fixpoint any_number (extractor : list (string * json) → result pyerr float) (payloads : list (list (string * json)))
    : result pyerr bool :=
  match payloads with
  | [] => Ok false
  | p :: payloads => x ← extractor p; if is_nan x then any_number extractor payloads else Ok true
  end.

Definition features_needing (key : string) : list string :=
  f_name <$> List.filter (λ s, bool_decide (f_requires_payload_key s = Some key)) FEATURE_SPECS.

Definition unavailable_features (obs : Observations) (provider symbol : string) : result micro_exn (list string) :=
  rows ← normalize_observations obs None;
  let payloads := mr_payload <$> _stream rows provider symbol in
  missing ← from_py (traverse (λ ke, supported ← any_number ke.2 payloads;
                                     Ok (if (supported : bool) then [] else features_needing ke.1)) PAYLOAD_EXTRACTORS);
  Ok (concat missing).

(** ** The as-of join *)

Definition limit_of (name : string) : Z :=
  match registered name with
  | Some spec => match f_policy spec with POLICY_FFILL => f_staleness_seconds spec | POLICY_NAN_ON_GAP => 0 end
  | None => 0
  end.

(** [merge_asof] backward: the last row at or before the query, of rows in order. *)
Definition asof_row (right : list feature_row) (query : instant) : option feature_row :=
  last (List.filter (λ r, r.1 <=? query) right).

(** A joined row: the query, the values that are not too old, and the age. *)
Definition joined_row (names : list string) (right : list feature_row) (query : instant) : instant * list float * float :=
  match asof_row right query with
  | None => (query, (λ _, fnan) <$> names, fnan)
  | Some (source, values) =>
      let age := total_seconds (query - source) in
      (query,
       zip_with (λ name v, if fle age (float_of_Z (limit_of name)) then v else fnan) names values, age)
  end.

(** [np.argsort(order, kind="stable")] *)
Definition argsort_stable (order : list nat) : list nat :=
  sort_by (λ i, Z.of_nat (nth i order 0%nat)) (seq 0 (length order)).

Definition asof_join (names : list string) (features : list feature_row) (query : list instant)
    : result micro_exn (list (instant * list float * float)) :=
  match query, names, features with
  | [], _, _ | _, [], _ | _, _, [] => Ok ((λ q, (q, (λ _, fnan) <$> names, fnan)) <$> query)
  | _, _, _ =>
      let order := argsort query in
      let left := reorder 0 query order in
      let right := sort_values fst features in
      let merged := joined_row names right <$> left in
      _ ← raise_if (existsb (λ r, flt r.2 fzero) merged) (Leaked (LeakageError 0 0));
      Ok (reorder (0, [], fnan) merged (argsort_stable order))
  end.

(** ** The decomposition of a move *)
Context (math_log : float → float).

Record PremiumDecomposition : Set := {
  dlog_total : float;
  dlog_fx : float;
  dlog_gold : float;
  dlog_premium : float;
  pct_total : float;
}.

Definition _positive (x : float) : bool := is_finite x && fgt x fzero.

Definition _safe_dlog (start end_ : float) : float :=
  if _positive start && _positive end_ then fsub (math_log end_) (math_log start) else fnan.

(** [k18_end / k18_start] of two positive numbers *)
Definition decompose_move (k18_start k18_end usd_start usd_end xau_start xau_end : float) : PremiumDecomposition :=
  let total := _safe_dlog k18_start k18_end in
  let fx := _safe_dlog usd_start usd_end in
  let gold := _safe_dlog xau_start xau_end in
  {| dlog_total := total; dlog_fx := fx; dlog_gold := gold; dlog_premium := fsub (fsub total fx) gold;
     pct_total :=
       if _positive k18_start && _positive k18_end
       then fmul (fsub (fdiv_ieee k18_end k18_start) fone) fhundred else fnan |}.

Definition align_causal (aux : option series) (index : list instant) : column :=
  match aux with
  | None | Some [] => (λ _, fnan) <$> index
  | Some aux => _align index (sort_values fst (keep_last fst aux))
  end.

Definition decompose_premium_move (k18 : series) (usd xau : option series) (lag : nat) : frame :=
  let index := fst <$> k18 in
  let dlog xs := diff lag (log <$> where_positive xs) in
  let total := dlog (snd <$> k18) in
  let fx := dlog (align_causal usd index) in
  let gold := dlog (align_causal xau index) in
  let premium := csub (csub total fx) gold in
  [("dlog_18k", total); ("fx_contrib_log", fx); ("gold_contrib_log", gold); ("premium_contrib_log", premium);
   ("fx_share", cdiv fx (no_zero total)); ("gold_share", cdiv gold (no_zero total));
   ("premium_share", cdiv premium (no_zero total))].
End Frame.

(** ** The frame at a point in time *)
Section Columns.
Context `{P : Pandas} {L : PandasLaws P} `{PT : PandasTime} {TL : PandasTimeLaws PT}.

Lemma take_rolling_rank n w xs : take n (rolling_rank w xs) = rolling_rank w (take n xs).
Proof. symmetry. apply causal_take, rank_causal. Qed.

Lemma take_gaps n index : take n (gaps index) = gaps (take n index).
Proof.
  destruct index as [|t later], n as [|n]; try done. simpl. f_equal.
  revert t later. induction n as [|n IH]; intros t [|t' later]; try done. simpl. f_equal. apply IH.
Qed.

Lemma take_per_hour n index h : take n (per_hour index h) = per_hour (take n index) h.
Proof. unfold per_hour. by rewrite Features.fmap_take, <-span_sum_causal, Features.fmap_take. Qed.

Hint Rewrite (@take_rolling_mean P L) (@take_rolling_std P L) (@take_rolling_median P L)
  take_rolling_rank take_gaps take_per_hour : causal.

(** No row of the columns reads a later one. *)
Lemma micro_rows n index spread dispersion price :
  rows n (micro_columns index spread dispersion price)
  = micro_columns (take n index) (take n spread) (take n dispersion) (take n price).
Proof.
  cbv [micro_columns dealer_columns dispersion_columns cadence_columns micro_volatility rows].
  cbn [app fmap list_fmap fst snd].
  unfold trailing_percentile, trailing_z, jump_z_of, log_returns, where_positive, cadd, csub, cdiv, no_zero, scale.
  autorewrite with causal. reflexivity.
Qed.

Lemma rows_0_micro index spread dispersion price :
  rows 0 (micro_columns index spread dispersion price) = (λ name, (name, [])) <$> STREAM_FEATURES.
Proof. reflexivity. Qed.
End Columns.

Section PointInTime.
Context `{P : Pandas} {L : PandasLaws P} `{PT : PandasTime} {TL : PandasTimeLaws PT}.
Context (json_loads : string → option json).

Abbreviation normalize := (normalize_observations json_loads).
Abbreviation build := (build_microstructure_frame json_loads).

Definition by_then (T : instant) (r : MicroRow) : bool := mr_observed_at r <=? T.

Lemma normalize_all obs out :
  normalize obs None = Ok out → out = sort_values mr_observed_at (omap (normalized json_loads obs) (ob_rows obs)).
Proof.
  unfold normalize_observations. destruct (ob_rows obs) as [|r rs].
  - intros H%Ok_inj. subst out. symmetry. apply Permutation_nil_r, sort_values_perm.
  - intros H. apply bind_Ok in H as (?&_&H). apply bind_Ok in H as (?&_&H). by apply Ok_inj in H.
Qed.

Lemma normalize_ascending obs out : normalize obs None = Ok out → ascending mr_observed_at out.
Proof. intros ->%normalize_all. apply sort_values_sorted. Qed.

(** Cutting at an instant is the filter of it, and the guard behind it never fires. *)
Lemma normalize_as_of obs T out :
  normalize obs None = Ok out → normalize obs (Some T) = Ok (List.filter (by_then T) out).
Proof.
  unfold normalize_observations. destruct (ob_rows obs) as [|r rs].
  - intros H%Ok_inj. by subst out.
  - intros H. apply bind_Ok in H as ([]&Ha&H). apply bind_Ok in H as ([]&Hb&H). rewrite Ha, Hb.
    apply Ok_inj in H. cbn [mbind result_bind]. rewrite H. change (λ r, mr_observed_at r <=? T) with (by_then T).
    assert (assert_no_future (instants_of (List.filter (by_then T) out)) T = Ok ()) as ->; [|done].
    unfold assert_no_future, instants_of. rewrite <-list_fmap_compose. cbn [compose pp_observed_at].
    set (ts := _ <$> _). assert (∀ t, t ∈ ts → t ≤ T) as Hts.
    { intros t (q&->&Hq)%list_elem_of_fmap. apply elem_of_bool_filter in Hq as [_ Hq]. by apply Z.leb_le. }
    clearbody ts. destruct ts as [|t ts]; [done|].
    destruct (Z.ltb_spec T (foldl Z.max t ts)) as [Hlt|]; [|done].
    pose proof (latest_le t ts T Hts). lia.
Qed.

Lemma keep_last_filter {A} (key : A → instant) (p : instant → bool) l :
  keep_last key (List.filter (λ r, p (key r)) l) = List.filter (λ r, p (key r)) (keep_last key l).
Proof.
  induction l as [|r l IH]; [done|]. simpl.
  assert (∀ t, p t = true →
    existsb (λ r', key r' =? t) (List.filter (λ r, p (key r)) l) = existsb (λ r', key r' =? t) l) as He.
  { intros t Ht. clear IH. induction l as [|x l IH]; [done|]. simpl. destruct (p (key x)) eqn:Hx; simpl; rewrite IH; [done|].
    destruct (Z.eqb_spec (key x) t); [congruence|done]. }
  destruct (p (key r)) eqn:Hp; simpl.
  - rewrite (He _ Hp). destruct (existsb _ l); [done|]. simpl. by rewrite Hp, IH.
  - destruct (existsb _ l); [done|]. simpl. by rewrite Hp.
Qed.

Lemma keep_last_elem {A} (key : A → instant) l x : x ∈ keep_last key l → x ∈ l.
Proof.
  induction l as [|r l IH]; [done|]. simpl. destruct (existsb _ l); rewrite ?elem_of_cons; naive_solver.
Qed.

Lemma keep_last_strict {A} (key : A → instant) l : ascending key l → strictly_ascending key (keep_last key l).
Proof.
  induction 1 as [|r l _ IH Hr]; [constructor|]. simpl. destruct (existsb _ l) eqn:He; [done|]. constructor; [done|].
  rewrite Forall_forall in Hr |- *. intros x Hx%keep_last_elem. specialize (Hr x Hx).
  assert (key x ≠ key r); [|lia]. intros Heq. apply not_true_iff_false in He. apply He, existsb_exists.
  exists x. split; [by apply list_elem_of_In|by apply Z.eqb_eq].
Qed.

Lemma keep_last_distinct {A} (key : A → instant) l : NoDup (key <$> l) → keep_last key l = l.
Proof.
  induction l as [|r l IH]; [done|]. cbn [fmap list_fmap]. intros [Hr Hl]%NoDup_cons. simpl. rewrite (IH Hl).
  destruct (existsb _ l) eqn:He; [|done]. apply existsb_exists in He as (x&Hx&Heq%Z.eqb_eq). exfalso. apply Hr.
  rewrite <-Heq. apply list_elem_of_fmap_2, list_elem_of_In, Hx.
Qed.

Lemma stream_filter T rows provider symbol :
  _stream (List.filter (by_then T) rows) provider symbol = List.filter (by_then T) (_stream rows provider symbol).
Proof.
  unfold _stream, by_then. rewrite <-(keep_last_filter mr_observed_at (λ t, t <=? T)). f_equal.
  rewrite !bool_filter_filter. apply bool_filter_ext. intros r _. apply andb_comm.
Qed.

Lemma instants_by_then T l :
  List.filter (λ t, t <=? T) (mr_observed_at <$> l) = mr_observed_at <$> List.filter (by_then T) l.
Proof.
  induction l as [|r l IH]; [done|]. simpl. unfold by_then at 1.
  destruct (mr_observed_at r <=? T); simpl; [f_equal|]; exact IH.
Qed.

(** A cut of rows in order is a prefix. *)
Lemma cut_is_prefix {A} (key : A → instant) T l :
  ascending key l →
  List.filter (λ r, key r <=? T) l = take (length (List.filter (λ r, key r <=? T) l)) l.
Proof.
  induction 1 as [|r l _ IH Hr]; [done|]. simpl. destruct (Z.leb_spec (key r) T); simpl; [by f_equal|].
  assert (List.filter (λ r, key r <=? T) l = []) as ->; [|done]. apply filter_nil_iff.
  eapply Forall_impl; [exact Hr|]. simpl. intros x Hx. apply Z.leb_gt. lia.
Qed.

Lemma traverse_take {E A B} (f : A → result E B) n l ys :
  traverse f l = Ok ys → traverse f (take n l) = Ok (take n ys).
Proof. rewrite !traverse_Ok. apply Forall2_take. Qed.

Lemma micro_result_Ok {A} (r : result pyerr A) x : from_py r = Ok x ↔ r = Ok x.
Proof. destruct r; simpl; split; congruence. Qed.

Lemma rows_of_none n names : rows n ((λ name : string, (name, [])) <$> names) = (λ name, (name, [])) <$> names.
Proof. unfold rows. rewrite <-list_fmap_compose. apply list_fmap_ext. intros i name _. simpl. by rewrite take_nil. Qed.

(** The frame of a prefix of a stream is the prefix of its frame. *)
Lemma frame_take n stream index fr :
  frame_of_stream stream = Ok (index, fr) → frame_of_stream (take n stream) = Ok (take n index, rows n fr).
Proof.
  destruct stream as [|r rs].
  { rewrite take_nil. intros H. apply Ok_inj, pair_equal_spec in H as [<- <-]. by rewrite take_nil, rows_of_none. }
  unfold frame_of_stream at 1. intros H. apply bind_Ok in H as (spread&Hs&H). apply bind_Ok in H as (dispersion&Hd&H).
  apply Ok_inj, pair_equal_spec in H as [<- <-].
  destruct n as [|n]; [done|]. rewrite micro_rows. rewrite micro_result_Ok in Hs, Hd.
  apply (traverse_take _ (S n)) in Hs, Hd. rewrite Features.fmap_take in Hs, Hd.
  unfold frame_of_stream. change (take (S n) (r :: rs)) with (r :: take n rs) in *.
  rewrite Hs, Hd. cbn [from_py mbind result_bind]. simpl. rewrite !Features.fmap_take. done.
Qed.

(** The accepted rows of a stream observed by [T], before they are put in order. *)
Definition known_by (obs : Observations) (provider symbol : string) (T : instant) : list MicroRow :=
  List.filter (λ r, in_stream provider symbol r && by_then T r) (omap (normalized json_loads obs) (ob_rows obs)).

Lemma build_stream obs provider symbol index fr :
  build obs None provider symbol = Ok (index, fr) →
  ∃ out, normalize obs None = Ok out ∧ frame_of_stream (_stream out provider symbol) = Ok (index, fr)
    ∧ index = mr_observed_at <$> _stream out provider symbol
    ∧ strictly_ascending mr_observed_at (_stream out provider symbol).
Proof.
  intros H. apply bind_Ok in H as (out&Hn&H). exists out. split_and!; [done|done| |].
  - unfold frame_of_stream in H. destruct (_stream out provider symbol) as [|r rs]; [by simplify_eq|].
    apply bind_Ok in H as (?&_&H). apply bind_Ok in H as (?&_&H). apply Ok_inj in H. by simplify_eq.
  - apply keep_last_strict. apply StronglySorted_bool_filter. by eapply normalize_ascending.
Qed.

(** Building as of an instant is building of everything and keeping the rows by then. *)
Lemma build_as_of obs provider symbol index fr T :
  build obs None provider symbol = Ok (index, fr) →
  let n := length (List.filter (λ t, t <=? T) index) in
  build obs (Some T) provider symbol = Ok (take n index, rows n fr)
  ∧ take n index = List.filter (λ t, t <=? T) index.
Proof.
  intros H n. destruct (build_stream _ _ _ _ _ H) as (out&Hn&Hf&Hi&Hs).
  set (stream := _stream out provider symbol) in *.
  assert (ascending mr_observed_at stream) as Ha by (eapply StronglySorted_impl; [|exact Hs]; intros x y H1; apply Z.lt_le_incl, H1).
  assert (n = length (List.filter (by_then T) stream)) as Hlen
    by (unfold n; by rewrite Hi, instants_by_then, length_fmap).
  split.
  - unfold build_microstructure_frame. rewrite (normalize_as_of _ T _ Hn). cbn [mbind result_bind].
    rewrite stream_filter. fold stream. unfold by_then. rewrite (cut_is_prefix mr_observed_at T stream Ha).
    change (λ r, mr_observed_at r <=? T) with (by_then T). rewrite <-Hlen. by apply frame_take.
  - symmetry. assert (ascending id index) as Hai.
    { rewrite Hi. clear -Ha. induction Ha as [|r l _ IH Hr]; [constructor|]. simpl. constructor; [done|]. by rewrite Forall_fmap. }
    exact (cut_is_prefix id T index Hai).
Qed.

(** C23. The frame is known at its own time.  Built as of an instant it is, row for row, the
    frame of everything cut at that instant, and the guard against later rows never fires;
    and it is decided by what the stream had by then: another history with the same
    readings of the stream by that instant, in any order and with any later ones, gives the
    same rows (where no two of those readings share their instant). *)
Theorem frame_point_in_time obs obs' provider symbol T index fr index' fr' :
  build obs None provider symbol = Ok (index, fr) →
  build obs' None provider symbol = Ok (index', fr') →
  known_by obs provider symbol T ≡ₚ known_by obs' provider symbol T →
  NoDup (mr_observed_at <$> known_by obs provider symbol T) →
  let n := length (known_by obs provider symbol T) in
  build obs (Some T) provider symbol = Ok (take n index, rows n fr)
  ∧ take n index = take n index' ∧ rows n fr = rows n fr'
  ∧ take n index = List.filter (λ t, t <=? T) index.
Proof.
  intros H H' Hk Hd n.
  assert (∀ o i f, build o None provider symbol = Ok (i, f) → known_by o provider symbol T ≡ₚ known_by obs provider symbol T →
    ∃ s, build o (Some T) provider symbol = frame_of_stream s ∧ strictly_ascending mr_observed_at s
      ∧ s ≡ₚ known_by obs provider symbol T ∧ length (List.filter (λ t, t <=? T) i) = n) as Hs.
  { intros o i f Ho Hp. destruct (build_stream _ _ _ _ _ Ho) as (out&Hn&_&Hi&Hasc).
    assert (List.filter (by_then T) (_stream out provider symbol) ≡ₚ known_by obs provider symbol T) as Hperm.
    { assert (∀ l, List.filter (λ r, by_then T r && in_stream provider symbol r) l
        = List.filter (λ r, in_stream provider symbol r && by_then T r) l) as Hcomm
        by (intros l; apply bool_filter_ext; intros; apply andb_comm).
      assert (List.filter (λ r, in_stream provider symbol r && by_then T r) out ≡ₚ known_by obs provider symbol T) as Hq.
      { rewrite <-Hp. unfold known_by. rewrite (normalize_all _ _ Hn). apply Permutation_bool_filter, sort_values_perm. }
      rewrite <-stream_filter. unfold _stream. rewrite bool_filter_filter, ?Hcomm, keep_last_distinct; [done|]. by rewrite Hq. }
    exists (List.filter (by_then T) (_stream out provider symbol)). split_and!; [| |done|].
    - unfold build_microstructure_frame. rewrite (normalize_as_of _ T _ Hn). cbn [mbind result_bind]. by rewrite stream_filter.
    - by apply StronglySorted_bool_filter.
    - unfold n. by rewrite <-Hperm, Hi, instants_by_then, length_fmap. }
  destruct (Hs obs index fr H ltac:(done)) as (s&Hb&Hsa&Hsp&Hl).
  destruct (Hs obs' index' fr' H' (symmetry Hk)) as (s'&Hb'&Hsa'&Hsp'&Hl').
  assert (s = s') as <- by (apply (strictly_ascending_unique mr_observed_at); [done|done|by rewrite Hsp, Hsp']).
  destruct (build_as_of _ _ _ _ _ T H) as [He Hc]. destruct (build_as_of _ _ _ _ _ T H') as [He' _].
  rewrite Hl in He, Hc. rewrite Hl' in He'. split; [done|]. rewrite Hb in He. rewrite Hb', He in He'.
  apply Ok_inj in He'. by simplify_eq.
Qed.
End PointInTime.

(** ** The as-of join *)
Section AsOf.
Context `{P : Pandas} {L : PandasLaws P} `{PT : PandasTime} {TL : PandasTimeLaws PT}.

Lemma length_reorder {A} (d : A) xs order : length (reorder d xs order) = length order.
Proof. apply length_fmap. Qed.

Lemma map_nth_seq {A} (d : A) xs : (λ i, nth i xs d) <$> seq 0 (length xs) = xs.
Proof.
  apply list_eq. intros i. rewrite list_lookup_fmap. destruct (decide (i < length xs)%nat) as [Hi|Hi].
  - rewrite lookup_seq_lt by done. simpl. destruct (lookup_lt_is_Some_2 _ _ Hi) as [x Hx]. rewrite Hx. f_equal.
    by apply nth_lookup_Some with (d := d) in Hx.
  - rewrite lookup_seq_ge, lookup_ge_None_2; [done|lia|lia].
Qed.

(** [np.argsort] of a permutation is its inverse. *)
Lemma argsort_stable_inverse order n :
  order ≡ₚ seq 0 n → reorder 0%nat order (argsort_stable order) = seq 0 n.
Proof.
  intros Hp. assert (length order = n) as Hl by (by rewrite Hp, length_seq).
  set (key := λ i, Z.of_nat (nth i order 0%nat)).
  assert (argsort_stable order ≡ₚ seq 0 n) as Hs by (unfold argsort_stable, sort_by; rewrite Hl; apply py_sorted_perm).
  assert (reorder 0%nat order (argsort_stable order) ≡ₚ seq 0 n) as Hr.
  { unfold reorder. rewrite Hs, <-Hl, map_nth_seq. by rewrite Hl. }
  assert (∀ l, NoDup l → ascending Z.of_nat l → strictly_ascending Z.of_nat l) as Hstrict.
  { intros l Hn Ha. apply ascending_strict; [done|]. apply NoDup_fmap_2; [intros x y; lia|done]. }
  apply (strictly_ascending_unique Z.of_nat); [| |done]; apply Hstrict.
  - rewrite Hr. apply NoDup_seq.
  - unfold reorder, ascending. pose proof (sort_by_ascending key (seq 0 (length order))) as Ha.
    change (sort_by key (seq 0 (length order))) with (argsort_stable order) in Ha. unfold ascending in Ha.
    clear -Ha. induction Ha as [|i l _ IH Hi]; [constructor|]. simpl. constructor; [done|]. by rewrite Forall_fmap.
  - apply NoDup_seq.
  - generalize 0%nat as a. clear. induction n as [|n IH]; intros a; [constructor|]. simpl. constructor; [apply IH|].
    apply Forall_forall. intros x Hx%elem_of_seq. lia.
Qed.

Lemma reorder_reorder {A B} (f : A → B) (a : A) (b : B) xs order :
  order ≡ₚ seq 0 (length xs) →
  reorder b (f <$> reorder a xs order) (argsort_stable order) = f <$> xs.
Proof.
  intros Hp. assert (length order = length xs) as Hl by (by rewrite Hp, length_seq).
  pose proof (argsort_stable_inverse order (length xs) Hp) as Hinv.
  assert (f <$> xs = f <$> reorder a xs (seq 0 (length xs))) as -> by (unfold reorder; by rewrite map_nth_seq).
  rewrite <-Hinv. unfold reorder. rewrite <-!list_fmap_compose. apply list_fmap_ext. intros j i Hj.
  assert (i < length order)%nat as Hi.
  { assert (i ∈ argsort_stable order) as Hin by (by eapply list_elem_of_lookup_2).
    unfold argsort_stable, sort_by in Hin. rewrite py_sorted_perm in Hin. apply elem_of_seq in Hin. lia. }
  simpl. destruct (lookup_lt_is_Some_2 _ _ Hi) as [k Hk]. rewrite (nth_lookup_Some _ _ _ _ Hk).
  apply nth_lookup_Some. by rewrite list_lookup_fmap, Hk.
Qed.

Lemma asof_row_spec (features : list feature_row) t :
  match asof_row (sort_values fst features) t with
  | None => ∀ r, r ∈ features → t < r.1
  | Some r => r ∈ features ∧ r.1 ≤ t ∧ ∀ r', r' ∈ features → r'.1 ≤ t → r'.1 ≤ r.1
  end.
Proof.
  unfold asof_row. set (past := List.filter _ _).
  assert (∀ r, r ∈ past ↔ r ∈ features ∧ r.1 ≤ t) as Hin.
  { intros r. unfold past. by rewrite elem_of_bool_filter, sort_values_perm, Z.leb_le. }
  assert (ascending fst past) as Ha by (apply StronglySorted_bool_filter, sort_values_sorted). clearbody past.
  destruct (last past) as [r|] eqn:Hl.
  - assert (r ∈ past) as Hr by (apply last_Some in Hl as [l' ->]; apply elem_of_app; right; by left).
    apply Hin in Hr as [? ?]. split_and!; [done|done|]. intros r' Hf Ht.
    by apply (ascending_last fst past); [|done|apply Hin].
  - apply last_None in Hl as ->. intros r Hf. destruct (Z.lt_ge_cases t r.1) as [|Hge]; [done|].
    exfalso. apply (not_elem_of_nil r), Hin. split; [done|lia].
Qed.

Lemma joined_age_not_negative names (features : list feature_row) t :
  flt (joined_row names (sort_values fst features) t).2 fzero = false.
Proof.
  unfold joined_row. pose proof (asof_row_spec features t) as Hr. destruct (asof_row _ t) as [[source values]|]; [|done].
  simpl. destruct Hr as (_&Hle&_). simpl in Hle. apply int_true_div_nonneg; unfold us_second; lia.
Qed.

(** The join answers every query in the order it was asked, and its guard never fires. *)
Lemma asof_join_rows names (features : list feature_row) query :
  names ≠ [] → asof_join names features query = Ok (joined_row names (sort_values fst features) <$> query).
Proof.
  intros Hn. unfold asof_join. destruct query as [|q qs]; [done|]. destruct names as [|name ns]; [done|].
  destruct features as [|r rs].
  { f_equal. apply list_fmap_ext. intros i t _. unfold joined_row, asof_row.
    assert (sort_values fst ([] : list feature_row) = []) as -> by (apply Permutation_nil_r, sort_values_perm). done. }
  set (query := q :: qs). set (features := r :: rs). set (names := name :: ns).
  assert (existsb (λ x : instant * list float * float, flt x.2 fzero)
    (joined_row names (sort_values fst features) <$> reorder 0 query (argsort query)) = false) as ->.
  { apply not_true_iff_false. intros (x&Hx&Hneg)%existsb_exists. apply list_elem_of_In, list_elem_of_fmap in Hx as (t&->&_).
    by rewrite joined_age_not_negative in Hneg. }
  cbn [raise_if mbind result_bind]. f_equal. apply (reorder_reorder _ _ _ query), argsort_perm.
Qed.

(** What a query is answered: nothing where no row is old enough, and otherwise a row that
    is not newer than the query and that no other such row is newer than, each value kept
    only within the age its policy allows, with the age. *)
Inductive answered (names : list string) (features : list feature_row) (t : instant) : list float → float → Prop :=
| answered_nothing :
    (∀ r, r ∈ features → t < r.1) → answered names features t ((λ _, fnan) <$> names) fnan
| answered_row source values :
    (source, values) ∈ features → source ≤ t → (∀ r, r ∈ features → r.1 ≤ t → r.1 ≤ source) →
    let age := total_seconds (t - source) in
    answered names features t
      (zip_with (λ name v, if fle age (float_of_Z (limit_of name)) then v else fnan) names values) age.

(** C24. The as-of join reads no future and answers every query, in the caller's order: with
    the latest row at or before it (and with nothing when there is none), its values aged
    out by their policies, its age never negative; and what is later than the query has no
    influence on the answer (where no two rows share their instant). *)
Theorem asof_join_spec names (features : list feature_row) query :
  names ≠ [] →
  ∃ out, asof_join names features query = Ok out
    ∧ out.*1.*1 = query
    ∧ ∀ i t values age, out !! i = Some (t, values, age) →
        answered names features t values age ∧ flt age fzero = false
        ∧ ∀ features', (∀ r, r.1 ≤ t → r ∈ features' ↔ r ∈ features) → NoDup features.*1 →
            asof_join names features' [t] = Ok [(t, values, age)].
Proof.
  intros Hn. eexists. split; [by apply asof_join_rows|]. split.
  - rewrite <-!list_fmap_compose. transitivity (id <$> query); [|apply list_fmap_id].
    apply list_fmap_ext. intros i t _. simpl. unfold joined_row. by destruct (asof_row _ t) as [[? ?]|].
  - intros i t values age Hi. rewrite list_lookup_fmap in Hi. apply fmap_Some in Hi as (t'&_&Hj).
    assert (t' = t) as -> by (unfold joined_row in Hj; destruct (asof_row _ t') as [[? ?]|]; by simplify_eq).
    assert (answered names features t values age) as Ha.
    { unfold joined_row in Hj. pose proof (asof_row_spec features t) as Hr.
      destruct (asof_row _ t) as [[source vs]|]; simplify_eq; [|by apply answered_nothing].
      destruct Hr as (Hin&Hle&Hmax). by apply answered_row. }
    split; [done|]. split.
    { pose proof (joined_age_not_negative names features t) as Hneg. by rewrite <-Hj in Hneg. }
    intros features' Hf Hd. rewrite (asof_join_rows _ _ _ Hn). simpl. rewrite Hj. do 2 f_equal. unfold joined_row.
    pose proof (asof_row_spec features t) as H1. pose proof (asof_row_spec features' t) as H2.
    destruct (asof_row (sort_values fst features) t) as [r|], (asof_row (sort_values fst features') t) as [r'|]; [| | |done].
    + destruct H1 as (Hr&Ht&Hm), H2 as (Hr'&Ht'&Hm').
      assert (r' = r) as ->; [|done]. apply Hf in Hr'; [|done]. apply (NoDup_key_inj fst features); [done|done|done|].
      specialize (Hm r' Hr' Ht'). specialize (Hm' r (proj2 (Hf r Ht) Hr) Ht). lia.
    + destruct H1 as (Hr&Ht&_). specialize (H2 r (proj2 (Hf r Ht) Hr)). lia.
    + destruct H2 as (Hr'&Ht'&_). specialize (H1 r' (proj1 (Hf r' Ht') Hr')). lia.
Qed.
End AsOf.

(** A feature that is valid only at its own instant is given at that instant only. *)
Lemma gap_feature_exact name t source :
  (registered name = None ∨ ∃ spec, registered name = Some spec ∧ f_policy spec = POLICY_NAN_ON_GAP) →
  0 ≤ t - source < 2 ^ 53 →
  fle (total_seconds (t - source)) (float_of_Z (limit_of name)) = (t =? source).
Proof.
  intros Hp Hd. assert (limit_of name = 0) as ->.
  { unfold limit_of. destruct Hp as [->|(spec&->&->)]; done. }
  unfold total_seconds, us_second. destruct (t - source) as [|p|p] eqn:Hts; [|  |lia].
  - replace t with source by lia. by rewrite Z.eqb_refl.
  - destruct (true_div_million_shape p) as (m&e&->&_); [lia|].
    destruct (Z.eqb_spec t source); [lia|done].
Qed.

(** ** The features a stream cannot support *)
Section Unavailable.
Context `{P : Pandas} `{PT : PandasTime} (json_loads : string → option json).

Lemma any_number_false extractor payloads :
  any_number extractor payloads = Ok false → ∀ p, p ∈ payloads → ∃ x, extractor p = Ok x ∧ is_nan x = true.
Proof.
  induction payloads as [|q payloads IH]; intros H p; [by intros ?%not_elem_of_nil|].
  apply bind_Ok in H as (x&Hx&H). destruct (is_nan x) eqn:Hn; [|done]. intros [->|Hp]%elem_of_cons; [eauto|by apply IH].
Qed.

Lemma any_number_true extractor payloads :
  any_number extractor payloads = Ok true → ∃ p x, p ∈ payloads ∧ extractor p = Ok x ∧ is_nan x = false.
Proof.
  induction payloads as [|q payloads IH]; intros H; [done|].
  apply bind_Ok in H as (x&Hx&H). destruct (is_nan x) eqn:Hn.
  - destruct (IH H) as (p&y&Hp&Hy). exists p, y. split; [by right|done].
  - exists q, x. split; [by left|done].
Qed.

(** Exactly the features that need a key of which no reading of the stream has a number are
    reported as unavailable. *)
Theorem unavailable_features_exact obs provider symbol names :
  unavailable_features json_loads obs provider symbol = Ok names →
  ∃ rows, normalize_observations json_loads obs None = Ok rows
    ∧ ∀ name, name ∈ names ↔
        ∃ spec key extractor, spec ∈ FEATURE_SPECS ∧ f_name spec = name ∧ f_requires_payload_key spec = Some key
          ∧ (key, extractor) ∈ PAYLOAD_EXTRACTORS
          ∧ ∀ r, r ∈ _stream rows provider symbol → ∃ x, extractor (mr_payload r) = Ok x ∧ is_nan x = true.
Proof.
  intros H. apply bind_Ok in H as (rows&Hn&H). exists rows. split; [done|].
  apply bind_Ok in H as (missing&Hm&H). apply Ok_inj in H. subst names. rewrite micro_result_Ok, traverse_Ok in Hm.
  assert (∀ ke out name, (supported ← any_number ke.2 (mr_payload <$> _stream rows provider symbol);
      Ok (if (supported : bool) then [] else features_needing ke.1)) = Ok out →
    name ∈ out ↔ (∃ spec, spec ∈ FEATURE_SPECS ∧ f_name spec = name ∧ f_requires_payload_key spec = Some ke.1)
      ∧ ∀ r, r ∈ _stream rows provider symbol → ∃ x, ke.2 (mr_payload r) = Ok x ∧ is_nan x = true) as Hone.
  { intros ke out name Ho. apply bind_Ok in Ho as ([|]&Ha&Ho); apply Ok_inj in Ho; subst out.
    - apply any_number_true in Ha as (p&x&Hp&Hx&Hnan). apply list_elem_of_fmap in Hp as (r&->&Hr). split.
      + by intros ?%not_elem_of_nil.
      + intros [_ Hall]. destruct (Hall r Hr) as (y&Hy&Hny). congruence.
    - unfold features_needing. rewrite list_elem_of_fmap. setoid_rewrite elem_of_bool_filter.
      setoid_rewrite bool_decide_eq_true. split.
      + intros (spec&->&Hk&Hin). split; [by eexists|]. intros r Hr.
        by apply (any_number_false _ _ Ha), list_elem_of_fmap_2.
      + intros ((spec&Hin&<-&Hk)&_). eauto. }
  intros name. rewrite list_elem_of_In, in_concat. setoid_rewrite <-list_elem_of_In. split.
  - intros (out&Hout&Hname). apply list_elem_of_lookup in Hout as [i Hi].
    destruct (Forall2_lookup_r _ _ _ _ _ Hm Hi) as (ke&Hke&Ho).
    destruct (proj1 (Hone _ _ _ Ho) Hname) as ((spec&?&?&?)&?). apply list_elem_of_lookup_2 in Hke.
    exists spec, ke.1, ke.2. by destruct ke.
  - intros (spec&key&extractor&Hin&Hname&Hkey&Hke&Hall). apply list_elem_of_lookup in Hke as [i Hi].
    destruct (Forall2_lookup_l _ _ _ _ _ Hm Hi) as (out&Hout&Ho). exists out.
    split; [by eapply list_elem_of_lookup_2|]. apply (proj2 (Hone _ _ _ Ho)). split; [by exists spec|done].
Qed.
End Unavailable.

(** ** The decomposition reads no future *)
Section Decomposition.
Context `{P : Pandas} {L : PandasLaws P}.

Lemma align_causal_rows aux index :
  align_causal aux index = _align index (sort_values fst (keep_last fst (default [] aux))).
Proof.
  assert (sort_values fst ([] : series) = []) as He by (apply Permutation_nil_r, sort_values_perm).
  destruct aux as [[|p aux]|]; [| done|]; simpl; rewrite He; done.
Qed.

Lemma align_causal_until index T a b :
  Forall (λ t, t ≤ T) index → until T a = until T b → align_causal a index = align_causal b index.
Proof.
  intros Hi Hab. rewrite !align_causal_rows. apply (align_until _ T _ _ Hi).
  assert (∀ l : series, strictly_ascending fst (List.filter (λ p, p.1 <=? T) (sort_values fst (keep_last fst l)))
    ∧ List.filter (λ p, p.1 <=? T) (sort_values fst (keep_last fst l)) ≡ₚ keep_last fst (List.filter (λ p, p.1 <=? T) l)) as Hs.
  { intros l. split.
    - apply StronglySorted_bool_filter, ascending_strict; [apply sort_values_sorted|]. rewrite sort_values_perm.
      clear. induction l as [|p l IH]; [constructor|]. simpl. destruct (existsb _ l) eqn:He; [done|].
      cbn [fmap list_fmap]. constructor; [|done]. intros (q&Hq&Hin)%list_elem_of_fmap.
      apply not_true_iff_false in He. apply He, existsb_exists. exists q.
      split; [apply list_elem_of_In; by apply (keep_last_elem fst)|by apply Z.eqb_eq].
    - rewrite (keep_last_filter fst (λ t, t <=? T)). by apply Permutation_bool_filter, sort_values_perm. }
  destruct (Hs (default [] a)) as [Ha1 Ha2], (Hs (default [] b)) as [Hb1 Hb2].
  apply (strictly_ascending_unique fst); [done|done|]. rewrite Ha2, Hb2. unfold until in Hab. by rewrite Hab.
Qed.

(** No row of the decomposition reads a later one, of the metal or of what it is held
    against. *)
Theorem premium_move_causal k18 usd usd' xau xau' lag n T :
  Forall (λ p, p.1 ≤ T) (take n k18) → until T usd = until T usd' → until T xau = until T xau' →
  decompose_premium_move (take n k18) usd' xau' lag = rows n (decompose_premium_move k18 usd xau lag).
Proof.
  intros HT Hu Hx. unfold decompose_premium_move. cbv zeta. rewrite <-!Features.fmap_take.
  assert (Forall (λ t, t ≤ T) (take n (fst <$> k18))) as Hi by (by rewrite Features.fmap_take, Forall_fmap).
  rewrite <-(align_causal_until _ T usd usd' Hi Hu), <-(align_causal_until _ T xau xau' Hi Hx).
  assert (∀ aux, align_causal aux (take n (fst <$> k18)) = take n (align_causal aux (fst <$> k18))) as Hta.
  { intros aux. rewrite !align_causal_rows. symmetry. apply Features.fmap_take. }
  rewrite !Hta. cbv [rows]. cbn [fmap list_fmap fst snd]. unfold where_positive, csub, cdiv, no_zero.
  autorewrite with causal. reflexivity.
Qed.
End Decomposition.

(** ** Concrete streams *)

(** The sum over the window of time that ends at a row. *)
Definition span_at (span : Z) (l : list (instant * float)) (i : nat) : float :=
  match l !! i with
  | Some (t, _) => foldl fadd fzero (snd <$> List.filter (λ p, t - span <? p.1) (take (S i) l))
  | None => fnan
  end.

#[local] Instance demo_pandas_time : PandasTime := {
  rolling_rank w := trailing w w (λ xs, int_true_div (Z.of_nat (length (List.filter (λ x, fle x (List.last xs fnan)) xs)))
                                                     (Z.of_nat w));
  rolling_span_sum span index xs := span_at span (zip index xs) <$> seq 0 (length (zip index xs));
  argsort index := sort_by (λ i, nth i index 0) (seq 0 (length index));
}.

#[local] Instance demo_pandas_time_laws : PandasTimeLaws demo_pandas_time.
Proof.
  split.
  - intros w. apply trailing_causal.
  - intros span n index xs. simpl. rewrite <-take_zip_with. symmetry.
    apply (take_pointwise (λ _, fnan) (span_at span)). intros l m i Hi. unfold span_at.
    rewrite lookup_take_lt, take_take by done. by replace (S i `min` m)%nat with (S i) by lia.
  - intros index. simpl. apply py_sorted_perm.
  - intros index. simpl. pose proof (sort_by_ascending (λ i, nth i index 0) (seq 0 (length index))) as Ha.
    unfold ascending, reorder in *. induction Ha as [|i l _ IH Hi]; [constructor|]. simpl. constructor; [done|]. by rewrite Forall_fmap.
Qed.

Definition reading (t v : Z) (spread : json) : RawObs :=
  {| ob_observed_at := Some t; ob_provider_code := Some PRIMARY_PROVIDER; ob_symbol := Some PRIMARY_SYMBOL;
     ob_value := float_of_Z v; ob_raw_value := fnan; ob_currency := "IRT"; ob_raw_payload := JObj [(SPREAD_PCT_KEY, spread)] |}.

Definition observations (rows : list RawObs) : Observations :=
  {| has_observed_at := true; has_value := true; has_raw_value := false; has_currency := true; has_raw_payload := true;
     ob_rows := rows |}.

Definition demo_readings : list RawObs :=
  [reading 30 102 (JInt 3); reading 10 100 (JInt 1); reading 20 101 JNull; reading 20 99 (JInt 2)].
Definition demo_later : list RawObs := reading 40 90 (JInt 9) :: demo_readings.

Abbreviation demo_build rows as_of :=
  (build_microstructure_frame (λ _, None) (observations rows) as_of PRIMARY_PROVIDER PRIMARY_SYMBOL).

(** Of two readings at one instant the last is kept, and a stream without the payload key
    still has its columns. *)
Example demo_frame :
  match demo_build demo_readings None with
  | Ok (index, fr) => (index, assoc "dealer_spread_pct" fr, fst <$> fr)
                      = ([10; 20; 30], Some (float_of_Z <$> [1; 2; 3]), STREAM_FEATURES)
  | Err _ => False
  end.
Proof. vm_compute. reflexivity. Qed.

Definition first_frame : list instant * frame :=
  match demo_build (take 2 demo_readings) None with Ok x => x | Err _ => ([], []) end.
Definition later_frame : list instant * frame :=
  match demo_build (reading 40 90 (JInt 9) :: reverse (take 2 demo_readings)) None with Ok x => x | Err _ => ([], []) end.

Lemma frame_point_in_time_witness :
  demo_build (take 2 demo_readings) (Some 35) = Ok (take 2 (fst first_frame), rows 2 (snd first_frame))
  ∧ take 2 (fst first_frame) = take 2 (fst later_frame) ∧ rows 2 (snd first_frame) = rows 2 (snd later_frame).
Proof.
  destruct (frame_point_in_time (λ _, None) (observations (take 2 demo_readings))
    (observations (reading 40 90 (JInt 9) :: reverse (take 2 demo_readings))) PRIMARY_PROVIDER PRIMARY_SYMBOL 35
    (fst first_frame) (snd first_frame) (fst later_frame) (snd later_frame)) as (H1&H2&H3&_).
  - vm_compute. reflexivity.
  - vm_compute. reflexivity.
  - apply Permutation_swap.
  - apply (bool_decide_unpack _). vm_compute. exact I.
  - exact (conj H1 (conj H2 H3)).
Defined.

Definition demo_features : list feature_row := [(0, [fone; fone]); (us_hour, [fhundred; fone])].

(** A carried value ages out; a jump is seen at its own instant only. *)
Example demo_join :
  asof_join ["dealer_spread_pct"; "jump_z"] demo_features [5 * us_hour; 2 * us_hour; us_hour; -1]
  = Ok [(5 * us_hour, [fnan; fnan], float_of_Z 14400); (2 * us_hour, [fhundred; fnan], float_of_Z 3600);
        (us_hour, [fhundred; fone], fzero); (-1, [fnan; fnan], fnan)].
Proof. vm_compute. reflexivity. Qed.

Lemma asof_join_spec_witness :
  ∃ out, asof_join ["dealer_spread_pct"; "jump_z"] demo_features [2 * us_hour; us_hour] = Ok out
    ∧ out.*1.*1 = [2 * us_hour; us_hour].
Proof.
  assert (["dealer_spread_pct"; "jump_z"] ≠ []) as Hn by discriminate.
  destruct (asof_join_spec ["dealer_spread_pct"; "jump_z"] demo_features [2 * us_hour; us_hour] Hn) as (out&Ho&Hq&_).
  exact (ex_intro _ out (conj Ho Hq)).
Defined.

(** [unexpected payload must never raise]: an integer that no float holds does. *)
Example huge_dispersion_raises : _dispersion_from_payload [(DISPERSION_KEY, JInt (10 ^ 400))] = Err OverflowError.
Proof. vm_compute. reflexivity. Qed.

(** A dyadic number: [m / 2^k]. *)
Definition dyadic (m k : Z) : float := fdiv_ieee (float_of_Z m) (float_of_Z (2 ^ k)).

(** [math.log] at four prices. *)
Definition some_logs (x : float) : float :=
  if feq x (flit 12 1) then dyadic 6568826361910901 55
  else if feq x (flit 15 1) then dyadic 7304210039150668 54
  else if feq x (flit 109 2) then dyadic 6209757450861623 56
  else fzero.

(** The parts of a move, added again in any order, need not be the move. *)
Example parts_do_not_resum :
  let d := decompose_move some_logs fone (flit 12 1) fone (flit 15 1) fone (flit 109 2) in
  existsb (feq (dlog_total d))
    [fadd (fadd (dlog_fx d) (dlog_gold d)) (dlog_premium d); fadd (fadd (dlog_fx d) (dlog_premium d)) (dlog_gold d);
     fadd (fadd (dlog_gold d) (dlog_premium d)) (dlog_fx d)] = false.
Proof. vm_compute. reflexivity. Qed.
