(* ===== verification/TgjuFeed.v ===== *)
(** * The TGJU feed

    [app/providers/tgju.py]: the live snapshot and the daily history table of the
    Iranian price aggregator, read cell by cell.  A text is its UTF-8 bytes; Persian
    digits are translated as the code does, other non-ASCII digits and white space are
    outside the model ([PyText]).  The transport under [_get_json] is an argument. *)
From S2P Require Import Prelude PyFloat PyTime PyText PyUrl PyJson Validation PriceDB.
From Stdlib Require Import Ascii.
Local Open Scope string_scope.
Local Open Scope list_scope.
Local Open Scope Z_scope.

Definition LIVE_URLS : list string :=
  ["https://call2.tgju.org/ajax.json"; "https://call3.tgju.org/ajax.json"; "https://call4.tgju.org/ajax.json"].
Definition TEHRAN_OFFSET : Z := 3 * us_hour + 30 * us_minute.
Definition DEFAULT_HISTORY_ROWS : Z := 1200.

(** slug -> (symbol, raw unit, raw currency) *)
Definition SLUG_MAP : list (string * (string * string * string)) :=
  [("geram18", ("IR_GOLD_18K", "IRR/gram", "IRR")); ("sekee", ("IR_COIN_EMAMI", "IRR/coin", "IRR"));
   ("price_dollar_rl", ("USD_IRT", "IRR/usd", "IRR")); ("ons", ("XAUUSD", "USD/ozt", "USD"))].

Definition HISTORY_SLUG_MAP : list (string * (string * string * string)) :=
  [("silver_999", ("IR_SILVER_999", "IRR/gram", "IRR")); ("sekeb", ("IR_COIN_BAHAR", "IRR/coin", "IRR"));
   ("nim", ("IR_COIN_HALF", "IRR/coin", "IRR")); ("rob", ("IR_COIN_QUARTER", "IRR/coin", "IRR"));
   ("gerami", ("IR_COIN_GERAMI", "IRR/coin", "IRR")); ("geram24", ("IR_GOLD_24K", "IRR/gram", "IRR"));
   ("mesghal", ("IR_GOLD_MESGHAL", "IRR/mesghal", "IRR"))].

Definition dict_get {A} (d : list (string * A)) (k : string) : result pyerr A :=
  match assoc k d with Some v => Ok v | None => Err KeyError end.

Definition slug_meta (slug : string) : result pyerr (string * string * string) :=
  match assoc slug SLUG_MAP with Some m => Ok m | None => dict_get HISTORY_SLUG_MAP slug end.

Definition known_history_slug (slug : string) : bool :=
  match assoc slug SLUG_MAP, assoc slug HISTORY_SLUG_MAP with None, None => false | _, _ => true end.

(** [unit.split("/", 1)[1]] *)
Fixpoint after_slash (s : string) : result pyerr string :=
  match s with
  | EmptyString => Err IndexError
  | String c s => if Ascii.eqb c "/" then Ok s else after_slash s
  end.

(** The rows that were not skipped. *)
Fixpoint somes {A} (l : list (option A)) : list A :=
  match l with [] => [] | Some x :: l => x :: somes l | None :: l => somes l end.

(** ** Cells *)

(** [_PERSIAN_DIGITS]: U+06F0..U+06F9 are the bytes DB B0..DB B9. *)
Fixpoint translate_digits (s : string) : string :=
  match s with
  | String c ((String d s') as rest) =>
      if (code c =? 219) && (176 <=? code d) && (code d <=? 185)
      then String (ascii_of_N (Z.to_N (code d - 128))) (translate_digits s')
      else String c (translate_digits rest)
  | _ => s
  end.

(** [.replace] of U+200C, the bytes E2 80 8C, by nothing. *)
Fixpoint drop_zwnj (s : string) : string :=
  match s with
  | String a ((String b (String c s')) as rest) =>
      if (code a =? 226) && (code b =? 128) && (code c =? 140) then drop_zwnj s'
      else String a (drop_zwnj rest)
  | String a rest => String a (drop_zwnj rest)
  | EmptyString => EmptyString
  end.

(** The text before the first ["]>["], and the text after it, if there is one. *)
Fixpoint until_gt (s : string) : option (string * string) :=
  match s with
  | EmptyString => None
  | String c s =>
      if Ascii.eqb c ">" then Some (EmptyString, s)
      else match until_gt s with Some (a, b) => Some (String c a, b) | None => None end
  end.

(** [_TAG_RE.sub("", s)]; a step consumes a character at least. *)
Fixpoint remove_tags (fuel : nat) (s : string) : string :=
  match fuel, s with
  | O, _ | _, EmptyString => s
  | S fuel, String c s' =>
      if Ascii.eqb c "<" then
        match until_gt s' with
        | Some (String _ _, rest) => remove_tags fuel rest
        | _ => String c (remove_tags fuel s')
        end
      else String c (remove_tags fuel s')
  end.

Fixpoint drop_commas (s : string) : string :=
  match s with
  | EmptyString => EmptyString
  | String c s => if Ascii.eqb c "," then drop_commas s else String c (drop_commas s)
  end.

Definition nonempty (s : string) : bool := match s with EmptyString => false | _ => true end.

(** [$]: the end, or a newline before it. *)
Definition at_end (s : string) : bool :=
  match s with
  | EmptyString => true
  | String c EmptyString => code c =? 10
  | _ => false
  end.

(** [_NUM_RE]: the sign, the integer part with its commas, the fraction. *)
Definition match_number (s : string) : option (bool * string * string) :=
  let '(neg, s) := match s with
                   | String "-" s' => (true, s')
                   | _ => (false, s)
                   end in
  let '(whole, rest) := span_chars (λ c, is_digit c || Ascii.eqb c ",") s in
  if negb (nonempty whole) then None
  else if at_end rest then Some (neg, whole, EmptyString)
  else
    match rest with
    | String "." rest =>
        let '(fraction, rest) := span_chars is_digit rest in
        if nonempty fraction && at_end rest then Some (neg, whole, fraction) else None
    | _ => None
    end.

Fixpoint decimal_value (acc : Z) (s : string) : Z :=
  match s with EmptyString => acc | String c s => decimal_value (acc * 10 + digit_val c) s end.

(** [float] of the text: the number it writes, rounded once. *)
Definition cell_number (neg : bool) (whole fraction : string) : option float :=
  if nonempty whole || nonempty fraction then
    let x := int_true_div (decimal_value 0 (whole ++ fraction)%string)
               (10 ^ Z.of_nat (String.length fraction)) in
    Some (if neg then fopp x else x)
  else None.

Section Cells.
Context (repr : json → string).

Definition strip_html (cell : json) : string :=
  let s := py_str repr cell in strip (remove_tags (String.length s) s).

Definition _to_float (cell : json) : result pyerr (option float) :=
  match cell with
  | JNull => Ok None
  | JInt n => x ← py_float_of_int n; Ok (Some x)
  | JFloat x => Ok (Some x)
  | JBool b => Ok (Some (if b then fone else fzero))
  | _ =>
      match match_number (drop_zwnj (translate_digits (strip_html cell))) with
      | None => Ok None
      | Some (neg, whole, fraction) => Ok (cell_number neg (drop_commas whole) fraction)
      end
  end.
End Cells.

(** ** [datetime.strptime] *)

(** One or two digits whose value is in the range. *)
Definition small_number (lo hi : Z) (s : string) : option Z :=
  match s with
  | String c EmptyString =>
      if is_digit c && (lo <=? digit_val c) && (digit_val c <=? hi) then Some (digit_val c) else None
  | String c (String d EmptyString) =>
      let v := 10 * digit_val c + digit_val d in
      if is_digit c && is_digit d && (lo <=? v) && (v <=? hi) then Some v else None
  | _ => None
  end.

Definition four_digits (s : string) : option Z :=
  if (String.length s =? 4)%nat && all_chars is_digit s then Some (decimal_value 0 s) else None.

(** [%d]: two digits, one digit, or a space and a digit; and the rest. *)
Definition take_day (s : string) : option (Z * string) :=
  match s with
  | String c (String d rest) =>
      if Ascii.eqb c " " && is_digit d && (1 <=? digit_val d) then Some (digit_val d, rest)
      else
        match small_number 1 31 (String c (String d EmptyString)) with
        | Some v => Some (v, rest)
        | None => v ← small_number 1 9 (String c EmptyString); Some (v, String d rest)
        end
  | String c EmptyString => v ← small_number 1 9 s; Some (v, EmptyString)
  | EmptyString => None
  end.

Definition real_date (y m d : Z) : option date :=
  match mk_date y m d with Ok x => Some x | Err _ => None end.

(** [strptime(s, "%Y/%m/%d").date()] *)
Definition strptime_ymd (s : string) : option date :=
  match split "/" s with
  | [y; m; d] =>
      y ← four_digits y; m ← small_number 1 12 m;
      match take_day d with Some (d, EmptyString) => real_date y m d | _ => None end
  | _ => None
  end.

(** The time of ["%H:%M:%S"] ([seconds]) or of ["%H:%M"], as microseconds. *)
Definition strptime_time (seconds : bool) (s : string) : option Z :=
  match split ":" s, seconds with
  | [h; m; sec], true =>
      h ← small_number 0 23 h; m ← small_number 0 59 m; sec ← small_number 0 59 sec;
      Some (h * us_hour + m * us_minute + sec * us_second)
  | [h; m], false =>
      h ← small_number 0 23 h; m ← small_number 0 59 m; Some (h * us_hour + m * us_minute)
  | _, _ => None
  end.

(** [strptime(s, "%Y-%m-%d %H:%M:%S")], the blank one or more white spaces. *)
Definition strptime_at (seconds : bool) (s : string) : option Z :=
  match split "-" s with
  | [y; m; rest] =>
      y ← four_digits y; m ← small_number 1 12 m; dr ← take_day rest;
      let '(blank, clock) := span_chars is_space dr.2 in
      d ← real_date y m dr.1;
      t ← strptime_time seconds clock;
      if nonempty blank then Some (combine d t) else None
  | _ => None
  end.

Definition parse_ts (now : instant) (ts : json) : result pyerr instant :=
  match ts with
  | JStr s =>
      let s := strip s in
      match (match strptime_at true s with Some w => Some w | None => strptime_at false s end) with
      | Some w => if w <? TEHRAN_OFFSET then Err OverflowError else Ok (w - TEHRAN_OFFSET)
      | None => Ok now
      end
  | _ => Ok now
  end.

(** ** The live snapshot *)
Definition _make_observation (slug : string) (raw_value : float) (observed_at : instant)
    (payload : list (string * json)) : result pyerr Observation :=
  m ← dict_get SLUG_MAP slug;
  let '(symbol, raw_unit, raw_currency) := m in
  unit ← after_slash raw_unit;
  let '(value, currency) :=
    if String.eqb raw_currency "IRR" then (rial_to_toman raw_value, "IRT") else (raw_value, "USD") in
  Ok {| o_provider_code := "tgju"; o_symbol := symbol; o_raw_value := raw_value;
        o_raw_unit := raw_unit; o_raw_currency := raw_currency; o_value := value;
        o_currency := currency; o_unit := unit; o_observed_at := aware observed_at 0;
        o_raw_payload := Some payload |}.

Section Feed.
Context (repr : json → string) (now : instant).

Definition live_item (current : list (string * json)) (slug : string) : result pyerr (option Observation) :=
  match jget slug current with
  | JObj item =>
      v ← _to_float repr (jget "p" item);
      match v with
      | None => Ok None
      | Some value =>
          if fle value fzero then Ok None
          else
            at_ ← parse_ts now (jget "ts" item);
            o ← _make_observation slug value at_
                  ((λ k, (k, jget k item)) <$> ["p"; "h"; "l"; "d"; "dp"; "dt"; "ts"]);
            Ok (Some o)
      end
  | _ => Ok None
  end.

Definition parse_live (payload : json) : result pyerr (list Observation) :=
  match payload with
  | JObj items =>
      match jget "current" items with
      | JObj current => found ← traverse (live_item current) SLUG_MAP.*1; Ok (somes found)
      | _ => Ok []
      end
  | _ => Ok []
  end.

Inductive tgju_error : Set :=
| NoObservations (errors : list (string * option string))
| UnknownSlug (slug : string)
| EmptyHistory (slug : string)
| Transport (text : string)
| ParserRaised (e : pyerr).

(** [TGJUProvider.fetch]: the first host whose payload has an indicator. *)
Fixpoint fetch_live (get_json : string → result string json) (errors : list (string * option string))
    (urls : list string) : result tgju_error (list Observation) :=
  match urls with
  | [] => Err (NoObservations errors)
  | url :: urls =>
      match get_json url with
      | Err text => fetch_live get_json (errors ++ [(url, Some text)]) urls
      | Ok payload =>
          match parse_live payload with
          | Err e => Err (ParserRaised e)
          | Ok [] => fetch_live get_json (errors ++ [(url, None)]) urls
          | Ok found => Ok found
          end
      end
  end.

(** ** The daily history *)
Record HistoryRow : Set := { h_day : date; h_close : float; close_text : string; jalali : string }.

Definition bar_pairs (bars : list HistoryRow) : list (date * float) := (λ b, (h_day b, h_close b)) <$> bars.

Definition parse_history_row (row : json) : result pyerr (option HistoryRow) :=
  match row with
  | JArr cells =>
      if (length cells <? 7)%nat then Ok None
      else
        let cell i := default JNull (cells !! i) in
        v ← _to_float repr (cell 3%nat);
        match v with
        | None => Ok None
        | Some close =>
            if fle close fzero then Ok None
            else
              Ok (day ← strptime_ymd (translate_digits (strip_html repr (cell 6%nat)));
                  Some {| h_day := day; h_close := close; close_text := strip_html repr (cell 3%nat);
                          jalali := if (7 <? length cells)%nat
                                    then translate_digits (strip_html repr (cell 7%nat)) else EmptyString |})
        end
  | _ => Ok None
  end.

Definition payload_rows (payload : json) : option (list json) :=
  match payload with
  | JObj items => match jget "data" items with JArr rows => Some rows | _ => None end
  | _ => None
  end.

Definition parse_history_rows (payload : json) (slug : string) : result pyerr (list HistoryRow) :=
  if negb (known_history_slug slug) then Ok []
  else
    match payload_rows payload with
    | None => Ok []
    | Some rows => found ← traverse parse_history_row rows; Ok (sort_by h_day (somes found))
    end.

Definition parse_history (payload : json) (slug : string) : result pyerr (list (date * float)) :=
  bars ← parse_history_rows payload slug; Ok (bar_pairs bars).

Record HistoryPage : Set := {
  hp_rows : list (date * float);
  returned_rows : Z;
  records_total : option Z;
  hp_bars : list HistoryRow;
}.

Definition count_of (v : json) : option Z :=
  match v with
  | JInt n => if 0 <=? n then Some n else None
  | JStr s => if isdigit (strip s) then match py_int (strip s) with Ok n => Some n | Err _ => None end else None
  | _ => None
  end.

Definition _records_total (payload : json) : option Z :=
  match payload with
  | JObj items =>
      match count_of (jget "recordsTotal" items) with
      | Some n => Some n
      | None => count_of (jget "recordsFiltered" items)
      end
  | _ => None
  end.

Definition history_page (payload : json) (slug : string) : result pyerr HistoryPage :=
  bars ← parse_history_rows payload slug;
  let rows := bar_pairs bars in
  Ok {| hp_rows := rows;
        returned_rows := match payload_rows payload with
                         | Some data => Z.of_nat (length data)
                         | None => Z.of_nat (length rows)
                         end;
        records_total := _records_total payload; hp_bars := bars |}.

Definition normalize_history_value (slug : string) (raw_close : float) : result pyerr float :=
  m ← slug_meta slug;
  Ok (if String.eqb m.2 "IRR" then rial_to_toman raw_close else raw_close).

(** [get_json slug length] is the answer of the history table. *)
Definition fetch_history_page (get_json : string → Z → result string json) (slug : string)
    (max_rows : Z) : result tgju_error HistoryPage :=
  if negb (known_history_slug slug) then Err (UnknownSlug slug)
  else
    match get_json slug max_rows with
    | Err text => Err (Transport text)
    | Ok payload =>
        match history_page payload slug with
        | Err e => Err (ParserRaised e)
        | Ok page => match hp_rows page with [] => Err (EmptyHistory slug) | _ => Ok page end
        end
    end.
End Feed.

(** ** What the parsers pass on *)
Section FeedFacts.
Context (repr : json → string) (now : instant).

Lemma somes_elem {A} (l : list (option A)) x : x ∈ somes l ↔ Some x ∈ l.
Proof.
  induction l as [|[y|] l IH]; simpl; rewrite ?elem_of_cons, ?IH.
  - by rewrite !elem_of_nil.
  - naive_solver.
  - naive_solver.
Qed.

Lemma somes_length {A} (l : list (option A)) : (length (somes l) ≤ length l)%nat.
Proof. induction l as [|[x|] l IH]; simpl; lia. Qed.

Lemma parse_history_row_Some row b : parse_history_row repr row = Ok (Some b) → fle (h_close b) fzero = false.
Proof.
  unfold parse_history_row. destruct row as [| | | | |cells|]; try done. destruct (length cells <? 7)%nat; [done|].
  intros ([close|]&_&H)%bind_Ok; [|done]. destruct (fle close fzero) eqn:Hc; [done|].
  destruct (strptime_ymd _); simpl in H; [|done]. by injection H as <-.
Qed.

(** The bars of a page: ascending, each a row of the payload with a close that is not zero or
    less; a row that does not parse is left out, so there are no more of them than rows. *)
Lemma history_rows_sound payload slug bars :
  parse_history_rows repr payload slug = Ok bars →
  ascending h_day bars ∧ Forall (λ b, fle (h_close b) fzero = false) bars ∧
  ∀ rows, payload_rows payload = Some rows →
    (length bars ≤ length rows)%nat ∧
    ∀ b, b ∈ bars → ∃ row, row ∈ rows ∧ parse_history_row repr row = Ok (Some b).
Proof.
  unfold parse_history_rows. destruct (known_history_slug slug); simpl.
  2: { intros [= <-]. split_and!; [constructor|constructor|]. intros rows _. split; [simpl; lia|by intros b ?%elem_of_nil]. }
  destruct (payload_rows payload) as [rows|] eqn:Hp.
  2: { intros [= <-]. split_and!; [constructor|constructor|done]. }
  intros (found&Hf&[= <-])%bind_Ok. apply traverse_Ok in Hf as Hf'.
  assert (∀ b, b ∈ sort_by h_day (somes found) → ∃ row, row ∈ rows ∧ parse_history_row repr row = Ok (Some b)) as Hfrom.
  { intros b Hb. unfold sort_by in Hb. rewrite py_sorted_perm, somes_elem in Hb.
    destruct (Forall2_elem_r _ _ _ _ Hf' Hb) as (row&?&?). by exists row. }
  split_and!; [apply sort_by_ascending| |].
  - apply Forall_forall. intros b (row&_&Hr)%Hfrom. by eapply parse_history_row_Some.
  - intros rows' [= <-]. split; [|done]. unfold sort_by. rewrite py_sorted_length.
    rewrite (Forall2_length _ _ _ Hf'). apply somes_length.
Qed.

(** A row that did not parse never makes a whole page look truncated. *)
Lemma page_counts payload slug page :
  history_page repr payload slug = Ok page →
  Z.of_nat (length (hp_rows page)) ≤ returned_rows page ∧ hp_rows page = bar_pairs (hp_bars page) ∧
  ascending h_day (hp_bars page).
Proof.
  intros (bars&Hb&[= <-])%bind_Ok. simpl. apply history_rows_sound in Hb as (Hs&_&Hr).
  assert (length (bar_pairs bars) = length bars) as Hl by apply length_fmap.
  split_and!; [|done|done]. destruct (payload_rows payload) as [rows|]; [|lia]. destruct (Hr rows eq_refl). lia.
Qed.

Definition entry_canonical (e : string * (string * string * string)) : bool :=
  let '(_, (symbol, raw_unit, raw_currency)) := e in
  match assoc symbol SYMBOL_META, after_slash raw_unit with
  | Some (currency, unit_), Ok unit' =>
      String.eqb unit_ unit' && String.eqb currency (if String.eqb raw_currency "IRR" then "IRT" else "USD")
  | _, _ => false
  end.

Lemma slug_tables_canonical : forallb entry_canonical (SLUG_MAP ++ HISTORY_SLUG_MAP) = true.
Proof. reflexivity. Qed.

Lemma make_observation_canonical slug x at_ p o :
  _make_observation slug x at_ p = Ok o →
  assoc (o_symbol o) SYMBOL_META = Some (o_currency o, o_unit o) ∧
  (slug, (o_symbol o, o_raw_unit o, o_raw_currency o)) ∈ SLUG_MAP ∧ o_raw_value o = x ∧
  o_observed_at o = aware at_ 0 ∧
  o_value o = (if String.eqb (o_raw_currency o) "IRR" then rial_to_toman x else x).
Proof.
  unfold _make_observation, dict_get. destruct (assoc slug SLUG_MAP) as [[[symbol ru] rc]|] eqn:Hs; simpl; [|done].
  apply assoc_elem in Hs. intros (unit_&Hu&H)%bind_Ok.
  pose proof slug_tables_canonical as Hc. rewrite forallb_forall in Hc.
  specialize (Hc (slug, (symbol, ru, rc))). rewrite <-list_elem_of_In in Hc.
  specialize (Hc (proj2 (elem_of_app _ _ _) (or_introl Hs))). unfold entry_canonical in Hc. rewrite Hu in Hc.
  destruct (assoc symbol SYMBOL_META) as [[cur u]|] eqn:Hm; [|discriminate Hc].
  apply andb_true_iff in Hc as [->%String.eqb_eq ->%String.eqb_eq].
  by destruct (String.eqb rc "IRR") eqn:He; simpl in H; injection H as <-; simpl; rewrite He.
Qed.

(** Every quote of a live snapshot is in the currency and the unit its symbol is stored in, a
    tenth of the published number where that is in rials; no symbol comes twice. *)
Theorem live_canonical payload obs :
  parse_live repr now payload = Ok obs →
  NoDup (o_symbol <$> obs) ∧
  ∀ o, o ∈ obs →
    assoc (o_symbol o) SYMBOL_META = Some (o_currency o, o_unit o) ∧
    fle (o_raw_value o) fzero = false ∧
    o_value o = (if String.eqb (o_raw_currency o) "IRR" then rial_to_toman (o_raw_value o) else o_raw_value o).
Proof.
  unfold parse_live. destruct payload as [| | | | | |items]; try (intros [= <-]; split; [constructor|by intros ? ?%elem_of_nil]).
  destruct (jget "current" items) as [| | | | | |current]; try (intros [= <-]; split; [constructor|by intros ? ?%elem_of_nil]).
  intros (found&Hf&[= <-])%bind_Ok. apply traverse_Ok in Hf.
  assert (∀ slug x o, live_item repr now current slug = Ok x → x = Some o →
    ∃ at_ p, _make_observation slug (o_raw_value o) at_ p = Ok o ∧ fle (o_raw_value o) fzero = false) as Hitem.
  { intros slug x o. unfold live_item. destruct (jget slug current) as [| | | | | |item]; try (intros [= <-]; done).
    intros ([v|]&_&H)%bind_Ok; [|by injection H as <-]. destruct (fle v fzero) eqn:Hv; [by injection H as <-|].
    apply bind_Ok in H as (at_&_&H). apply bind_Ok in H as (o'&Ho&[= <-]). intros [= ->].
    pose proof (make_observation_canonical _ _ _ _ _ Ho) as (_&_&->&_). eauto. }
  split.
  - assert (NoDup (SLUG_MAP.*1) ∧ NoDup ((λ e : string * (string * string * string), (e.2.1.1)) <$> SLUG_MAP)) as [Hnd Hnd2].
    { split; apply (bool_decide_unpack _); by vm_compute. }
    revert Hnd Hf. generalize (SLUG_MAP.*1) as slugs. intros slugs Hnd Hf.
    induction Hf as [|slug x slugs found Hx Hf IH]; [constructor|]. apply NoDup_cons in Hnd as [Hni Hnd].
    destruct x as [o|]; [|by apply IH]. simpl. constructor; [|by apply IH].
    intros (o'&He&Ho'%somes_elem)%list_elem_of_fmap.
    destruct (Forall2_elem_r _ _ _ _ Hf Ho') as (slug'&Hs'&Hx').
    destruct (Hitem _ _ _ Hx eq_refl) as (?&?&Hm&_). destruct (Hitem _ _ _ Hx' eq_refl) as (?&?&Hm'&_).
    apply make_observation_canonical in Hm as (_&Hin&_), Hm' as (_&Hin'&_). rewrite <-He in Hin'.
    assert ((slug, (o_symbol o, o_raw_unit o, o_raw_currency o))
            = (slug', (o_symbol o, o_raw_unit o', o_raw_currency o'))) as [= -> _].
    { by apply (NoDup_key_inj (λ e : string * (string * string * string), e.2.1.1) SLUG_MAP). }
    done.
  - intros o Ho%somes_elem. destruct (Forall2_elem_r _ _ _ _ Hf Ho) as (slug&_&Hx).
    destruct (Hitem _ _ _ Hx eq_refl) as (at_&p&Hm&Hv).
    apply make_observation_canonical in Hm as (Hmeta&_&_&_&Hval). by rewrite Hval.
Qed.
End FeedFacts.

(** ** A concrete page *)
Definition no_repr : json → string := λ _, EmptyString.

Definition demo_row (close day jal : string) : json :=
  JArr [JStr "1"; JStr "1"; JStr "1"; JStr close; JStr "<span class=high>1</span>"; JStr "0"; JStr day; JStr jal].

(** Persian digits and thousands separators read as the number; a Jalali date that is a real
    Gregorian one gets through the parser. *)
Example demo_history :
  parse_history no_repr
    (JObj [("data", JArr [demo_row "۵,۰۶۵,۷۰۰" "2026/07/19" "1405/04/28"; JArr []; demo_row "-" "2026/07/17" "";
                          demo_row "5,065,600" "1405/04/27" ""])]) "sekee" =
  Ok [(ordinal 1405 4 27, float_of_Z 5065600); (ordinal 2026 7 19, float_of_Z 5065700)].
Proof. vm_compute. reflexivity. Qed.

Definition demo_snapshot : json :=
  JObj [("current", JObj [("geram18", JObj [("p", JStr "182,954,000"); ("ts", JStr "2026-07-20 14:15:39")]);
                          ("ons", JObj [("p", JStr "4,010.5"); ("ts", JStr "soon")])])].

Lemma live_canonical_witness :
  ∃ obs, parse_live no_repr 0 demo_snapshot = Ok obs ∧ NoDup (o_symbol <$> obs).
Proof.
  destruct (parse_live no_repr 0 demo_snapshot) as [obs|] eqn:H; [|by vm_compute in H].
  exists obs. split; [done|]. exact (proj1 (live_canonical no_repr 0 _ _ H)).
Defined.
