(* ===== verification/TgjuBackfill.v ===== *)
(** * The deep history of the Iranian series

    [app/jobs/tgju_backfill.py]: the daily history of TGJU spliced in front of the live
    era of a symbol, behind three guards (the dates, the coherence of the span, the
    join), with the splice recorded beside it.

    The clock of a pass over one symbol is [clock], its n-th reading; [fetch] answers the
    request for a slug's table.  The order of the rows of an ORDER BY observed_at that
    tie is the database's ([SqlAscending]); [pow] and [log] are the C library's
    ([LibM]); [iso_date] is [date.isoformat]. *)
From S2P Require Import Prelude PyFloat PyTime Numeric PyText PyJson Validation PriceDB TgjuFeed.
From Stdlib Require Import Ascii.
Local Open Scope string_scope.
Local Open Scope list_scope.
Local Open Scope Z_scope.

Definition BACKFILL_SLUGS : list (string * string) :=
  [("IR_GOLD_18K", "geram18"); ("USD_IRT", "price_dollar_rl"); ("IR_COIN_EMAMI", "sekee")].
Definition REFUSED_SYMBOLS : list string := ["XAUUSD"].
Definition PROVIDER_CODE : string := "tgju".
Definition SOURCE : string := "tgju_history".
Definition MAX_HISTORY_ROWS : Z := 20000.
Definition MIN_BAR_DATE : date := ordinal 1990 1 1.
Definition MAX_BAR_DATE_SLACK : Z := 1.
Definition MAX_REPORTED_DATES : nat := 5.
Definition JOIN_BASE_TOLERANCE_PCT : float := float_of_Z 15.
Definition JOIN_PER_DAY_TOLERANCE_PCT : float := float_of_Z 5.
Definition JOIN_MAX_TOLERANCE_PCT : float := float_of_Z 50.
Definition SPAN_SESSION_RATIO : float := flit 15 1.
Definition SPAN_DAILY_DRIFT : float := flit 1006 3.
Definition MIN_CONVENTION_FACTOR : float := flit 46083 4.
Definition MAX_REPORTED_BREAKS : nat := 5.
Definition UNTRUSTED_ANCHOR_SOURCES : list string := ["seed_sample"; "csv_import"; SOURCE].
Definition SPLICE_SETTINGS_KEY : string := "series_splices".
Definition SPLICE_NOTE_MARKER : string := "[series splice]".

Definition SPLICE_DEFINITIONS : list (string * (string * string)) :=
  [("IR_GOLD_18K",
    ("one daily close of TGJU's geram18 aggregate of Tehran bazaar 18k gold-per-gram quotes, published in rials and stored as toman",
     "a single live dealer feed quoting continuously, 24/7, many observations a day"));
   ("USD_IRT",
    ("one daily close of TGJU's price_dollar_rl — the free-market CASH dollar in Tehran, published in rials and stored as toman",
     "the 24/7 USDT/toman market used as the free-market proxy, which carries its own stablecoin premium over cash dollars"));
   ("IR_COIN_EMAMI",
    ("one daily close of TGJU's sekee — the Emami coin as the bazaar aggregator published it, in rials and stored as toman",
     "the live dealer quotes for the coin, collected through the day"))].

(** [x ** y] (an overflow raises) and [math.log] *)
Class LibM : Type := { fpow : float → float → result pyerr float; flog : float → float }.

(** ** The tables *)
Record HistoryDB : Type := {
  hd_prices : list PriceRow;
  hd_raw : list RawRow;
  hd_settings : gmap string (json * instant);
  hd_notes : gmap string (string * instant);     (** notes and updated_at of [instruments] *)
  hd_providers : gmap string bool;               (** enabled, of [data_providers] *)
}.

Record LiveAnchor : Type := {
  cutoff : instant;
  cutoff_source : string;
  cutoff_quality : string;
  anchor_rows : Z;
  reference : option PriceRow;
}.

(** ** The guards *)
Definition bar_date_window (now : instant) : date * date :=
  (MIN_BAR_DATE, date_of now + MAX_BAR_DATE_SLACK).

(** What a truncated payload says of itself. *)
Inductive truncation : Set :=
| Truncated (total returned requested : Z)
| MayBeTruncated (returned requested : Z).

Definition _truncation_error (page : HistoryPage) (requested : Z) : option truncation :=
  match records_total page with
  | Some total => if returned_rows page <? total then Some (Truncated total (returned_rows page) requested) else None
  | None => if requested <=? returned_rows page then Some (MayBeTruncated (returned_rows page) requested) else None
  end.

Record bad_dates : Set := {
  bd_count : Z;
  bd_total : Z;
  bd_shown : list date;
  bd_more : Z;
}.

Definition outside_window (window : date * date) (d : date) : bool := (d <? window.1) || (window.2 <? d).

Definition _bar_date_error (pairs : list (date * float)) (window : date * date) : option bad_dates :=
  match List.filter (outside_window window) pairs.*1 with
  | [] => None
  | bad =>
      let distinct := elements (list_to_set bad : gset date) in
      Some {| bd_count := Z.of_nat (length bad); bd_total := Z.of_nat (length pairs);
              bd_shown := take MAX_REPORTED_DATES (sort_by (λ d, d) distinct);
              bd_more := Z.max 0 (Z.of_nat (length distinct) - Z.of_nat MAX_REPORTED_DATES) |}
  end.

Definition join_threshold_pct (gap_days : Z) : float :=
  let gap := Z.max gap_days 0 in
  fmin (fadd JOIN_BASE_TOLERANCE_PCT (fmul JOIN_PER_DAY_TOLERANCE_PCT (float_of_Z gap))) JOIN_MAX_TOLERANCE_PCT.

Record Join : Set := {
  last_backfill_date : date;
  last_backfill_value : float;
  first_live_at : instant;
  first_live_value : float;
  join_gap_days : Z;
  join_jump_pct : float;
  threshold_pct : float;
  join_ok : bool;
}.

Definition _check_join (last_day : date) (last_value : float) (reference_at : instant)
    (reference_value : float) : Join :=
  let gap := date_of reference_at - last_day in
  let threshold := join_threshold_pct gap in
  let jump := fmul (fdiv_ieee (fabs (fsub reference_value last_value)) last_value) fhundred in
  {| last_backfill_date := last_day; last_backfill_value := py_round last_value 4;
     first_live_at := reference_at; first_live_value := py_round reference_value 4;
     join_gap_days := gap; join_jump_pct := py_round jump 4; threshold_pct := threshold;
     join_ok := fle jump threshold |}.

Record Skips : Set := { at_or_after_cutoff : Z; non_positive : Z; duplicate_day : Z }.

(** A bar that is kept: its day, the close in rials, the close in toman. *)
Abbreviation kept_bar := (date * float * float)%type.

Record page_scan : Set := { sc_kept : list kept_bar; sc_seen : gset date; sc_skips : Skips }.

Definition scan_bar (slug : string) (cutoff_day : date) (st : page_scan) (bar : date * float) : result pyerr page_scan :=
  let '(day, raw_close) := bar in
  let k := sc_skips st in
  if negb (fgt raw_close fzero) then
    Ok {| sc_kept := sc_kept st; sc_seen := sc_seen st;
          sc_skips := {| at_or_after_cutoff := at_or_after_cutoff k; non_positive := non_positive k + 1;
                         duplicate_day := duplicate_day k |} |}
  else if cutoff_day <=? day then
    Ok {| sc_kept := sc_kept st; sc_seen := sc_seen st;
          sc_skips := {| at_or_after_cutoff := at_or_after_cutoff k + 1; non_positive := non_positive k;
                         duplicate_day := duplicate_day k |} |}
  else if bool_decide (day ∈ sc_seen st) then
    Ok {| sc_kept := sc_kept st; sc_seen := sc_seen st;
          sc_skips := {| at_or_after_cutoff := at_or_after_cutoff k; non_positive := non_positive k;
                         duplicate_day := duplicate_day k + 1 |} |}
  else
    value ← normalize_history_value slug raw_close;
    Ok {| sc_kept := sc_kept st ++ [(day, raw_close, value)]; sc_seen := {[ day ]} ∪ sc_seen st; sc_skips := k |}.

Fixpoint scan_bars (slug : string) (cutoff_day : date) (st : page_scan) (pairs : list (date * float))
    : result pyerr page_scan :=
  match pairs with
  | [] => Ok st
  | bar :: pairs => st ← scan_bar slug cutoff_day st bar; scan_bars slug cutoff_day st pairs
  end.

Definition no_bars : page_scan :=
  {| sc_kept := []; sc_seen := ∅;
     sc_skips := {| at_or_after_cutoff := 0; non_positive := 0; duplicate_day := 0 |} |}.

Definition bar_day (k : kept_bar) : date := k.1.1.

Definition _rows_to_write (slug : string) (pairs : list (date * float)) (cutoff : instant)
    : result pyerr (list kept_bar * Skips) :=
  st ← scan_bars slug (date_of cutoff) no_bars pairs;
  Ok (sort_by bar_day (sc_kept st), sc_skips st).

(** ** Text *)

(** [s.split(marker, 1)[0]] *)
Fixpoint before_marker (marker s : string) : string :=
  if starts_with marker s then EmptyString
  else match s with EmptyString => EmptyString | String c s => String c (before_marker marker s) end.

Section Span.
Context `{LM : !LibM}.

Definition span_tolerance_ratio (gap_days : Z) : result pyerr float :=
  drift ← fpow SPAN_DAILY_DRIFT (float_of_Z (Z.max gap_days 1));
  Ok (fmul SPAN_SESSION_RATIO drift).

Definition SPAN_GUARANTEE_DAYS : Z :=
  match int_of_float (fdiv_ieee (flog (fdiv_ieee MIN_CONVENTION_FACTOR SPAN_SESSION_RATIO))
                        (flog SPAN_DAILY_DRIFT)) with
  | Ok n => n
  | Err _ => 0
  end.

Record Step : Set := {
  st_from : date;
  st_to : date;
  st_gap_days : Z;
  st_from_value : float;
  st_to_value : float;
  st_ratio : float;
  st_tolerance_ratio : float;
}.

Record span_scan : Set := {
  ss_breaks : list Step;
  ss_unverifiable : list Step;
  ss_max_ratio : float;
  ss_max_ratio_at : option date;
  ss_max_gap : Z;
}.

Definition step_ratio (prev next : kept_bar) : float := fmax (fdiv_ieee next.2 prev.2) (fdiv_ieee prev.2 next.2).

Definition span_step (st : span_scan) (pair : kept_bar * kept_bar) : result pyerr span_scan :=
  let '(prev, next) := pair in
  if fle prev.2 fzero || fle next.2 fzero then Ok st
  else
    let gap := bar_day next - bar_day prev in
    let ratio := step_ratio prev next in
    tolerance ← span_tolerance_ratio gap;
    let further := fgt ratio (ss_max_ratio st) in
    let entry := {| st_from := bar_day prev; st_to := bar_day next; st_gap_days := gap;
                    st_from_value := py_round prev.2 4; st_to_value := py_round next.2 4;
                    st_ratio := py_round ratio 4; st_tolerance_ratio := py_round tolerance 4 |} in
    Ok {| ss_breaks := if fgt ratio tolerance then ss_breaks st ++ [entry] else ss_breaks st;
          ss_unverifiable := if negb (fgt ratio tolerance) && (SPAN_GUARANTEE_DAYS <? gap)
                             then ss_unverifiable st ++ [entry] else ss_unverifiable st;
          ss_max_ratio := if further then ratio else ss_max_ratio st;
          ss_max_ratio_at := if further then Some (bar_day next) else ss_max_ratio_at st;
          ss_max_gap := Z.max (ss_max_gap st) gap |}.

Fixpoint span_walk (st : span_scan) (pairs : list (kept_bar * kept_bar)) : result pyerr span_scan :=
  match pairs with
  | [] => Ok st
  | p :: pairs => st ← span_step st p; span_walk st pairs
  end.

Record Coherence : Set := {
  co_bars : Z;
  compared_pairs : Z;
  max_ratio : float;
  max_ratio_at : option date;
  max_gap_days : Z;
  guarantee_days : Z;
  break_count : Z;
  breaks : list Step;
  unverifiable_gap_count : Z;
  unverifiable_gaps : list Step;
  coherent : bool;
}.

Definition span_breaks (kept : list kept_bar) : result pyerr Coherence :=
  st ← span_walk {| ss_breaks := []; ss_unverifiable := []; ss_max_ratio := fone;
                    ss_max_ratio_at := None; ss_max_gap := 0 |} (zip kept (tail kept));
  Ok {| co_bars := Z.of_nat (length kept); compared_pairs := Z.max (Z.of_nat (length kept) - 1) 0;
        max_ratio := py_round (ss_max_ratio st) 4; max_ratio_at := ss_max_ratio_at st;
        max_gap_days := ss_max_gap st; guarantee_days := SPAN_GUARANTEE_DAYS;
        break_count := Z.of_nat (length (ss_breaks st)); breaks := take MAX_REPORTED_BREAKS (ss_breaks st);
        unverifiable_gap_count := Z.of_nat (length (ss_unverifiable st));
        unverifiable_gaps := take MAX_REPORTED_BREAKS (ss_unverifiable st);
        coherent := match ss_breaks st with [] => true | _ => false end |}.
End Span.

(** ** One symbol *)
Inductive bf_refusal : Type :=
| NotBackfillSymbol
| NoLiveHistory
| NoTrustedReference (rows : Z) (ignored : list string)
| CutoffImplausible (day : date) (source quality : string) (window : date * date)
| RefusedTruncated (t : truncation)
| RefusedDates (b : bad_dates)
| NothingEligible (parsed : Z) (skips : Skips)
| LastNotPositive (day : date) (value : float)
| NotCoherent (c : Coherence)
| JoinFailed (j : Join).

Inductive bf_status : Type :=
| BfOk
| BfDryRun
| BfUpToDate
| BfRefused (why : bf_refusal)
| BfError (e : tgju_error).

(** What the guards found, stage by stage. *)
Record Evidence : Type := {
  ev_anchor : option LiveAnchor;
  ev_fetched : option (Z * option Z);
  ev_skips : option (Z * Skips);
  ev_span : option (date * date);
  ev_coherence : option Coherence;
  ev_join : option Join;
}.

Record BackfillReport : Type := {
  bf_symbol : string;
  bf_slug : option string;
  bf_result : bf_status;
  bf_dry_run : bool;
  bf_evidence : Evidence;
  bf_would_insert : Z;
  bf_inserted : Z;
  bf_raw_inserted : Z;
  bf_splice : option (list (string * json) * bool * bool);   (** recorded, note updated *)
}.

(** What passed the guards. *)
Record Writing : Type := {
  wr_slug : string;
  wr_anchor : LiveAnchor;
  wr_kept : list kept_bar;
  wr_first : kept_bar;
  wr_last : kept_bar;
}.

Section Backfill.
Context `{NF : !NumericFloat} `{NO : !NumericOrder} `{JC : !JsonColumn} `{AO : !SqlAscending} `{LM : !LibM}.
Context (iso_date : date → string) (isoformat : instant → string).

Definition excluded_sources (ignore_sources : list string) : list string :=
  UNTRUSTED_ANCHOR_SOURCES ++ List.filter nonempty (strip <$> ignore_sources).

Definition rows_of_symbol (db : HistoryDB) (symbol : string) : list PriceRow :=
  List.filter (λ r, String.eqb (pr_symbol r) symbol) (hd_prices db).

Definition trusted (ignore_sources : list string) (r : PriceRow) : bool :=
  String.eqb (pr_quality r) "ok" && negb (num_le (pr_value r) fzero)
  && negb (existsb (String.eqb (pr_source r)) (excluded_sources ignore_sources)).

Definition live_anchor (db : HistoryDB) (symbol : string) (ignore_sources : list string) : option LiveAnchor :=
  let rows := rows_of_symbol db symbol in
  match oldest_first pr_observed_at rows with
  | [] => None
  | oldest :: _ =>
      Some {| cutoff := pr_observed_at oldest; cutoff_source := pr_source oldest;
              cutoff_quality := pr_quality oldest; anchor_rows := Z.of_nat (length rows);
              reference := head (oldest_first pr_observed_at (List.filter (trusted ignore_sources) rows)) |}
  end.

Definition splice_note (symbol : string) (last_backfilled : date) (anchor : LiveAnchor) : string :=
  let '(before, after) := default (EmptyString, EmptyString) (assoc symbol SPLICE_DEFINITIONS) in
  let live_source := if nonempty (cutoff_source anchor) then cutoff_source anchor else "the live collector" in
  (SPLICE_NOTE_MARKER ++ " The definition of this series CHANGES on " ++ iso_date (date_of (cutoff anchor))
   ++ ". Up to " ++ iso_date last_backfilled ++ " it is deep history backfilled from TGJU (source '" ++ SOURCE
   ++ "'): " ++ before ++ ". From " ++ isoformat (cutoff anchor) ++ " it is the live era (source '"
   ++ live_source ++ "'): " ++ after ++ ". Both measure the same underlying thing, but they are not the same "
   ++ "measurement, so any return, volatility or real-value statistic computed ACROSS that date mixes two "
   ++ "conventions and should say so.")%string.

Definition _splice_record (symbol : string) (first_backfilled last_backfilled : date) (anchor : LiveAnchor)
    (rows : Z) (now : instant) : list (string * json) :=
  let '(before, after) := default (EmptyString, EmptyString) (assoc symbol SPLICE_DEFINITIONS) in
  [("symbol", JStr symbol); ("splice_at", JStr (isoformat (cutoff anchor)));
   ("backfill_first_bar", JStr (iso_date first_backfilled)); ("backfill_last_bar", JStr (iso_date last_backfilled));
   ("backfill_rows", JInt rows); ("backfill_source", JStr SOURCE); ("backfill_definition", JStr before);
   ("live_source", JStr (cutoff_source anchor)); ("live_definition", JStr after);
   ("join_reference_source", match reference anchor with Some r => JStr (pr_source r) | None => JNull end);
   ("join_reference_at", match reference anchor with Some r => JStr (isoformat (pr_observed_at r)) | None => JNull end);
   ("recorded_by", JStr "tgju_backfill"); ("recorded_at", JStr (isoformat now));
   ("note", JStr (splice_note symbol last_backfilled anchor))].

(** [d[k] = v] of a dict *)
Fixpoint item_set (k : string) (v : json) (items : list (string * json)) : list (string * json) :=
  match items with
  | [] => [(k, v)]
  | (k', v') :: items => if String.eqb k k' then (k, v) :: items else (k', v') :: item_set k v items
  end.

Definition dict_of (v : option (json * instant)) : list (string * json) :=
  match v with Some (JObj items, _) => items | _ => [] end.

Definition spliced_notes (old note : string) : string :=
  let kept := strip (before_marker SPLICE_NOTE_MARKER old) in
  if nonempty kept then strip (kept ++ " " ++ note)%string else note.

Definition _write_splice_record (db : HistoryDB) (symbol : string) (record : list (string * json))
    (note : string) (now : instant) : HistoryDB * bool :=
  let register := item_set symbol (JObj record) (dict_of (hd_settings db !! SPLICE_SETTINGS_KEY)) in
  let settings := <[SPLICE_SETTINGS_KEY := (JObj register, now)]> (hd_settings db) in
  match hd_notes db !! symbol with
  | None =>
      ({| hd_prices := hd_prices db; hd_raw := hd_raw db; hd_settings := settings;
          hd_notes := hd_notes db; hd_providers := hd_providers db |}, false)
  | Some (old, _) =>
      ({| hd_prices := hd_prices db; hd_raw := hd_raw db; hd_settings := settings;
          hd_notes := <[symbol := (spliced_notes old note, now)]> (hd_notes db);
          hd_providers := hd_providers db |}, true)
  end.

(** The guards on the parsed page, [window] the plausible dates. *)
Definition examine_page (slug : string) (anchor : LiveAnchor) (ref : PriceRow) (window : date * date)
    (page : HistoryPage) (ev : Evidence) : Evidence * result exn (bf_status + Writing) :=
  let ev := {| ev_anchor := ev_anchor ev;
               ev_fetched := Some (Z.of_nat (length (hp_rows page)), records_total page);
               ev_skips := None; ev_span := None; ev_coherence := None; ev_join := None |} in
  match _truncation_error page MAX_HISTORY_ROWS with
  | Some t => (ev, Ok (inl (BfRefused (RefusedTruncated t))))
  | None =>
  match _bar_date_error (hp_rows page) window with
  | Some b => (ev, Ok (inl (BfRefused (RefusedDates b))))
  | None =>
  match _rows_to_write slug (hp_rows page) (cutoff anchor) with
  | Err e => (ev, Err (Raised e))
  | Ok (kept, skips) =>
      let parsed := Z.of_nat (length (hp_rows page)) in
      let ev := {| ev_anchor := ev_anchor ev; ev_fetched := ev_fetched ev;
                   ev_skips := Some (Z.of_nat (length kept), skips); ev_span := None; ev_coherence := None; ev_join := None |} in
      match kept with
      | [] =>
          if negb (parsed =? 0) && (at_or_after_cutoff skips =? parsed)
          then (ev, Ok (inl BfUpToDate))
          else (ev, Ok (inl (BfRefused (NothingEligible parsed skips))))
      | first :: _ =>
          let last := List.last kept first in
          if fle last.2 fzero then (ev, Ok (inl (BfRefused (LastNotPositive (bar_day last) last.2))))
          else
          match span_breaks kept with
          | Err e => (ev, Err (Raised e))
          | Ok c =>
              let join := _check_join (bar_day last) last.2 (pr_observed_at ref) (pr_value ref) in
              let ev join := {| ev_anchor := ev_anchor ev; ev_fetched := ev_fetched ev; ev_skips := ev_skips ev;
                                ev_span := Some (bar_day first, bar_day last); ev_coherence := Some c; ev_join := join |} in
              if negb (coherent c) then (ev None, Ok (inl (BfRefused (NotCoherent c))))
              else if negb (join_ok join) then (ev (Some join), Ok (inl (BfRefused (JoinFailed join))))
              else (ev (Some join), Ok (inr {| wr_slug := slug; wr_anchor := anchor; wr_kept := kept;
                                                wr_first := first; wr_last := last |}))
          end
      end
  end
  end
  end.

Definition no_evidence (anchor : option LiveAnchor) : Evidence :=
  {| ev_anchor := anchor; ev_fetched := None; ev_skips := None; ev_span := None; ev_coherence := None; ev_join := None |}.

(** [backfill_symbol] down to the point where it writes. *)
Definition examine (clock : nat → instant) (fetch : string → Z → result tgju_error HistoryPage)
    (db : HistoryDB) (symbol : string) (ignore_sources : list string)
    : Evidence * result exn (bf_status + Writing) :=
  match assoc symbol BACKFILL_SLUGS, assoc symbol SYMBOL_META with
  | Some slug, Some _ =>
      match live_anchor db symbol ignore_sources with
      | None => (no_evidence None, Ok (inl (BfRefused NoLiveHistory)))
      | Some anchor =>
          let ev := no_evidence (Some anchor) in
          match reference anchor with
          | None => (ev, Ok (inl (BfRefused (NoTrustedReference (anchor_rows anchor) ignore_sources))))
          | Some ref =>
              let window := bar_date_window (clock 0%nat) in
              let day := date_of (cutoff anchor) in
              if outside_window window day then
                (ev, Ok (inl (BfRefused (CutoffImplausible day (cutoff_source anchor) (cutoff_quality anchor) window))))
              else
                match fetch slug MAX_HISTORY_ROWS with
                | Err e => (ev, Ok (inl (BfError e)))
                | Ok page => examine_page slug anchor ref window page ev
                end
          end
      end
  | _, _ => (no_evidence None, Ok (inl (BfRefused NotBackfillSymbol)))
  end.

Definition backfill_row (symbol currency unit_ : string) (now : instant) (k : kept_bar) : PriceRow :=
  {| pr_symbol := symbol; pr_value := numeric k.2; pr_currency := currency; pr_unit := unit_;
     pr_source := SOURCE; pr_observed_at := close_stamp (bar_day k); pr_collected_at := now; pr_quality := "ok" |}.

Definition backfill_payload (slug currency : string) (k : kept_bar) : list (string * json) :=
  [("slug", JStr slug); ("kind", JStr "history_backfill"); ("bar_date", JStr (iso_date (bar_day k)));
   ("availability_utc", JStr (isoformat (close_stamp (bar_day k)))); ("normalization", JStr "rial_to_toman");
   ("normalized_value", JFloat k.2); ("normalized_currency", JStr currency)].

Definition history_dedupe_key (symbol : string) (day : date) : string :=
  (PROVIDER_CODE ++ "|" ++ symbol ++ "|history|" ++ iso_date day)%string.

Definition raw_backfill_row (symbol slug currency raw_unit_ raw_currency_ : string) (now : instant)
    (k : kept_bar) : RawRow :=
  {| raw_provider_code := PROVIDER_CODE; raw_symbol := symbol; raw_value := numeric k.1.2;
     raw_unit := raw_unit_; raw_currency := raw_currency_;
     raw_payload := Some (backfill_payload slug currency k); raw_observed_at := close_stamp (bar_day k);
     raw_collected_at := now; raw_quality := "ok"; raw_dedupe_key := history_dedupe_key symbol (bar_day k) |}.

(** The one transaction: the closes, their audit rows, the splice. *)
Definition write_backfill (clock : nat → instant) (db : HistoryDB) (symbol : string) (w : Writing)
    (splice : list (string * json)) : result exn (HistoryDB * Z * Z * bool) :=
  let now := clock 1%nat in
  let '(currency, unit_) := default (EmptyString, EmptyString) (assoc symbol SYMBOL_META) in
  let '(_, raw_unit_, raw_currency_) := default (EmptyString, EmptyString, EmptyString) (assoc (wr_slug w) SLUG_MAP) in
  p ← insert_prices (hd_prices db) (backfill_row symbol currency unit_ now <$> wr_kept w);
  r ← insert_raws (hd_raw db)
        (raw_backfill_row symbol (wr_slug w) currency raw_unit_ raw_currency_ now <$> wr_kept w);
  let '(db, noted) :=
    _write_splice_record
      {| hd_prices := p.1; hd_raw := r.1; hd_settings := hd_settings db; hd_notes := hd_notes db;
         hd_providers := hd_providers db |}
      symbol splice (splice_note symbol (bar_day (wr_last w)) (wr_anchor w)) (clock 2%nat) in
  Ok (db, p.2, r.2, noted).

Definition backfill_symbol (clock : nat → instant) (fetch : string → Z → result tgju_error HistoryPage)
    (db : HistoryDB) (symbol : string) (dry_run : bool) (ignore_sources : list string)
    : HistoryDB * result exn BackfillReport :=
  let slug := assoc symbol BACKFILL_SLUGS in
  let '(ev, out) := examine clock fetch db symbol ignore_sources in
  match out with
  | Err e => (db, Err e)
  | Ok (inl status) =>
      (db, Ok {| bf_symbol := symbol; bf_slug := slug; bf_result := status; bf_dry_run := dry_run; bf_evidence := ev;
                 bf_would_insert := 0; bf_inserted := 0;
                 bf_raw_inserted := 0; bf_splice := None |})
  | Ok (inr w) =>
      let rows := Z.of_nat (length (wr_kept w)) in
      let first := bar_day (wr_first w) in
      let last := bar_day (wr_last w) in
      let splice := _splice_record symbol first last (wr_anchor w) rows (clock 1%nat) in
      let report status inserted raw_inserted recorded noted :=
        {| bf_symbol := symbol; bf_slug := slug; bf_result := status; bf_dry_run := dry_run; bf_evidence := ev;
           bf_would_insert := rows; bf_inserted := inserted;
           bf_raw_inserted := raw_inserted; bf_splice := Some (splice, recorded, noted) |} in
      if dry_run then (db, Ok (report BfDryRun 0 0 false false))
      else
        match write_backfill clock db symbol w splice with
        | Err e => (db, Err e)
        | Ok (db', inserted, raw_inserted, noted) => (db', Ok (report BfOk inserted raw_inserted true noted))
        end
  end.

(** ** A run *)
Inductive bf_outcome : Type :=
| Unsupported (symbols : list (string * bool))     (** refused on purpose, or not known *)
| BfRaised (e : exn)
| BfReported (reports : list BackfillReport).

(** [dict.fromkeys] *)
Fixpoint distinct_symbols (seen : gset string) (l : list string) : list string :=
  match l with
  | [] => []
  | s :: l => if bool_decide (s ∈ seen) then distinct_symbols seen l else s :: distinct_symbols ({[ s ]} ∪ seen) l
  end.

Fixpoint backfill_symbols (clock : string → nat → instant) (fetch : string → Z → result tgju_error HistoryPage)
    (dry_run : bool) (ignore_sources : list string) (db : HistoryDB) (symbols : list string)
    : HistoryDB * result exn (list BackfillReport) :=
  match symbols with
  | [] => (db, Ok [])
  | s :: symbols =>
      match backfill_symbol (clock s) fetch db s dry_run ignore_sources with
      | (db, Err e) => (db, Err e)
      | (db, Ok r) =>
          match backfill_symbols clock fetch dry_run ignore_sources db symbols with
          | (db, Ok rs) => (db, Ok (r :: rs))
          | out => out
          end
      end
  end.

Definition known {A} (d : list (string * A)) (s : string) : bool :=
  match assoc s d with Some _ => true | None => false end.

Definition run_tgju_backfill (clock : string → nat → instant)
    (fetch : string → Z → result tgju_error HistoryPage) (db : HistoryDB) (symbols : list string)
    (dry_run : bool) (ignore_sources : list string) : HistoryDB * bf_outcome :=
  let requested := match symbols with [] => BACKFILL_SLUGS.*1 | _ => symbols end in
  match List.filter (λ s, negb (known BACKFILL_SLUGS s)) requested with
  | [] =>
      match backfill_symbols clock fetch dry_run ignore_sources db (distinct_symbols ∅ requested) with
      | (db, Ok rs) => (db, BfReported rs)
      | (db, Err e) => (db, BfRaised e)
      end
  | unknown => (db, Unsupported ((λ s, (s, existsb (String.eqb s) REFUSED_SYMBOLS)) <$> unknown))
  end.

Definition total_inserted (reports : list BackfillReport) : Z :=
  foldr Z.add 0 (bf_inserted <$> reports).
End Backfill.

(** ** What is kept of a page *)
Section KeptFacts.

(** A bar that may be kept before the day [c]. *)
Definition may_keep (c : date) (bar : date * float) : Prop := fgt bar.2 fzero = true ∧ bar.1 < c.

Record scan_inv (slug : string) (c : date) (seen_bars : list (date * float)) (st : page_scan) : Prop := {
  si_from k : k ∈ sc_kept st → k.1 ∈ seen_bars ∧ may_keep c k.1 ∧ normalize_history_value slug k.1.2 = Ok k.2;
  si_seen d : d ∈ sc_seen st ↔ d ∈ bar_day <$> sc_kept st;
  si_nodup : NoDup (bar_day <$> sc_kept st);
  si_all bar : bar ∈ seen_bars → may_keep c bar → bar.1 ∈ bar_day <$> sc_kept st;
}.

Lemma scan_bar_inv slug c seen st bar st' :
  scan_inv slug c seen st → scan_bar slug c st bar = Ok st' → scan_inv slug c (seen ++ [bar]) st'.
Proof.
  intros [H1 H2 H3 H4]. destruct bar as [day raw]. unfold scan_bar.
  assert (∀ k, k ∈ sc_kept st → k.1 ∈ seen ++ [(day, raw)] ∧ may_keep c k.1 ∧
            normalize_history_value slug k.1.2 = Ok k.2) as H1'.
  { intros k Hk. destruct (H1 k Hk) as (?&?). split; [|done]. apply elem_of_app. by left. }
  assert ((may_keep c (day, raw) → day ∈ bar_day <$> sc_kept st) →
          ∀ bar, bar ∈ seen ++ [(day, raw)] → may_keep c bar → bar.1 ∈ bar_day <$> sc_kept st) as H4'.
  { intros Hnew bar [Hb| ->%list_elem_of_singleton]%elem_of_app He; auto. }
  destruct (fgt raw fzero) eqn:Hp; simpl.
  2: { intros [= <-]. split; simpl; [done..|]. apply H4'. intros [Hx _]. simpl in Hx. congruence. }
  destruct (Z.leb_spec c day) as [Hc|Hc].
  { intros [= <-]. split; simpl; [done..|]. apply H4'. intros [_ Hx]. simpl in Hx. lia. }
  case_bool_decide as Hs.
  { intros [= <-]. split; simpl; [done..|]. apply H4'. intros _. by apply H2. }
  intros (value&Hv&[= <-])%bind_Ok. split; simpl.
  - intros k [Hk| ->%list_elem_of_singleton]%elem_of_app; [by auto|]. simpl. split; [|done].
    apply elem_of_app. right. by left.
  - intros d. rewrite elem_of_union, elem_of_singleton, H2, fmap_app, elem_of_app. simpl.
    rewrite list_elem_of_singleton. unfold bar_day. simpl. tauto.
  - rewrite fmap_app. apply NoDup_app. split; [done|]. split; [|apply NoDup_singleton].
    intros d Hd Hd'. simpl in Hd'. apply list_elem_of_singleton in Hd' as ->. by apply Hs, H2.
  - intros bar [Hb| ->%list_elem_of_singleton]%elem_of_app He; rewrite fmap_app, elem_of_app; [left; auto|].
    right. by left.
Qed.

Lemma scan_bars_inv slug c pairs seen st st' :
  scan_inv slug c seen st → scan_bars slug c st pairs = Ok st' → scan_inv slug c (seen ++ pairs) st'.
Proof.
  revert seen st. induction pairs as [|bar pairs IH]; intros seen st Hi; simpl.
  { intros [= <-]. by rewrite app_nil_r. }
  intros (st1&H1&H)%bind_Ok. apply (scan_bar_inv _ _ _ _ _ _ Hi) in H1.
  pose proof (IH _ _ H1 H) as Hi2. by rewrite <-app_assoc in Hi2.
Qed.

Lemma rows_to_write_spec slug pairs cut kept skips :
  _rows_to_write slug pairs cut = Ok (kept, skips) →
  strictly_ascending bar_day kept ∧
  (∀ k, k ∈ kept → k.1 ∈ pairs ∧ may_keep (date_of cut) k.1 ∧ normalize_history_value slug k.1.2 = Ok k.2) ∧
  (∀ bar, bar ∈ pairs → may_keep (date_of cut) bar → bar.1 ∈ bar_day <$> kept).
Proof.
  intros (st&Hs&[= <- <-])%bind_Ok.
  apply (scan_bars_inv _ _ _ [] no_bars) in Hs as [H1 _ H3 H4].
  - split_and!; [by apply sort_by_strict| |].
    + intros k Hk. apply H1. unfold sort_by in Hk. by rewrite py_sorted_perm in Hk.
    + intros bar Hb He. unfold sort_by. rewrite py_sorted_perm. by apply H4.
  - split; simpl; [by intros ? ?%elem_of_nil|set_solver|constructor|by intros ? ?%elem_of_nil].
Qed.
End KeptFacts.

(** ** The guards *)
Section GuardFacts.
Context `{LM : !LibM}.

Lemma span_walk_breaks st pairs st' :
  span_walk st pairs = Ok st' → ss_breaks st' = [] →
  ss_breaks st = [] ∧
  ∀ prev next, (prev, next) ∈ pairs → fle prev.2 fzero || fle next.2 fzero = false →
    ∃ tolerance, span_tolerance_ratio (bar_day next - bar_day prev) = Ok tolerance ∧
      fgt (step_ratio prev next) tolerance = false.
Proof.
  revert st. induction pairs as [|[p n] pairs IH]; intros st; simpl.
  { intros [= <-] Hn. split; [done|]. by intros ? ? ?%elem_of_nil. }
  intros (st1&H1&H)%bind_Ok Hn. destruct (IH _ H Hn) as [Hb Hall]. unfold span_step in H1.
  destruct (fle p.2 fzero || fle n.2 fzero) eqn:Hz.
  { injection H1 as <-. split; [done|]. intros prev next [[= -> ->]|Hin]%elem_of_cons Hp; [congruence|by apply Hall]. }
  apply bind_Ok in H1 as (tol&Ht&[= <-]). simpl in Hb.
  destruct (fgt (step_ratio p n) tol) eqn:Hg; [by destruct (ss_breaks st)|]. split; [done|].
  intros prev next [[= -> ->]|Hin]%elem_of_cons Hp; [by exists tol|by apply Hall].
Qed.

Lemma coherent_spec kept c :
  span_breaks kept = Ok c → coherent c = true →
  ∀ prev next, (prev, next) ∈ zip kept (tail kept) → fle prev.2 fzero || fle next.2 fzero = false →
    ∃ tolerance, span_tolerance_ratio (bar_day next - bar_day prev) = Ok tolerance ∧
      fgt (step_ratio prev next) tolerance = false.
Proof.
  intros (st&Hw&[= <-])%bind_Ok. simpl. destruct (ss_breaks st) eqn:Hb; [|done]. intros _.
  by destruct (span_walk_breaks _ _ _ Hw Hb) as [_ ?].
Qed.

Lemma bar_dates_inside pairs window :
  _bar_date_error pairs window = None → ∀ bar, bar ∈ pairs → window.1 ≤ bar.1 ≤ window.2.
Proof.
  unfold _bar_date_error. destruct (List.filter _ pairs.*1) as [|d ds] eqn:Hf; [|done]. intros _ bar Hb.
  apply filter_nil_iff in Hf. rewrite Forall_forall in Hf. specialize (Hf bar.1 (list_elem_of_fmap_2 _ _ _ Hb)).
  unfold outside_window in Hf. apply orb_false_iff in Hf as [?%Z.ltb_ge ?%Z.ltb_ge]. lia.
Qed.
End GuardFacts.

(** ** A pass over one symbol *)
Section PassFacts.
Context `{NF : !NumericFloat} `{NO : !NumericOrder} `{JC : !JsonColumn} `{AO : !SqlAscending} `{LM : !LibM}.
Context {AL : SqlAscendingLaws AO}.

Lemma rows_of_symbol_elem db symbol r :
  r ∈ rows_of_symbol db symbol ↔ r ∈ hd_prices db ∧ pr_symbol r = symbol.
Proof. unfold rows_of_symbol. rewrite elem_of_bool_filter, String.eqb_eq. tauto. Qed.

Lemma oldest_first_least {A} (key : A → instant) l x rest :
  oldest_first key l = x :: rest → x ∈ l ∧ ∀ y, y ∈ l → key x ≤ key y.
Proof.
  intros H. pose proof (oldest_first_perm key l) as Hp. pose proof (oldest_first_sorted key l) as Hs. rewrite H in Hp, Hs.
  split; [rewrite <-Hp; by left|]. intros y Hy. rewrite <-Hp in Hy.
  apply elem_of_cons in Hy as [->|Hy]; [lia|]. apply StronglySorted_inv in Hs as [_ Hall].
  rewrite Forall_forall in Hall. by apply Hall.
Qed.

(** The cutoff is the first observation of the symbol, whatever the operator asks to ignore. *)
Lemma anchor_cutoff db symbol ignore a :
  live_anchor db symbol ignore = Some a →
  (∃ r, r ∈ rows_of_symbol db symbol ∧ pr_observed_at r = cutoff a) ∧
  (∀ r, r ∈ rows_of_symbol db symbol → cutoff a ≤ pr_observed_at r) ∧
  ∀ ref, reference a = Some ref → ref ∈ rows_of_symbol db symbol ∧ trusted ignore ref = true.
Proof.
  unfold live_anchor. destruct (oldest_first pr_observed_at _) as [|oldest rest] eqn:Ho; [done|]. intros [= <-]. simpl.
  apply oldest_first_least in Ho as [Hin Hle]. split_and!; [by exists oldest|done|].
  intros ref Hr. destruct (oldest_first pr_observed_at (List.filter _ _)) as [|x l] eqn:Hf; [done|]. injection Hr as ->.
  apply oldest_first_least in Hf as [Hx _]. by apply elem_of_bool_filter in Hx.
Qed.

(** What passed the guards. *)
Record passed (clock : nat → instant) (fetch : string → Z → result tgju_error HistoryPage) (db : HistoryDB)
    (symbol : string) (ignore : list string) (w : Writing) (page : HistoryPage) (ref : PriceRow) : Prop := {
  pa_slug : assoc symbol BACKFILL_SLUGS = Some (wr_slug w);
  pa_anchor : live_anchor db symbol ignore = Some (wr_anchor w);
  pa_reference : reference (wr_anchor w) = Some ref;
  pa_page : fetch (wr_slug w) MAX_HISTORY_ROWS = Ok page;
  pa_whole : _truncation_error page MAX_HISTORY_ROWS = None;
  pa_dates : _bar_date_error (hp_rows page) (bar_date_window (clock 0%nat)) = None;
  pa_kept : ∃ skips, _rows_to_write (wr_slug w) (hp_rows page) (cutoff (wr_anchor w)) = Ok (wr_kept w, skips);
  pa_last : wr_kept w ≠ [] ∧ wr_first w ∈ wr_kept w ∧ wr_last w ∈ wr_kept w ∧ fle (wr_last w).2 fzero = false ∧
    ∀ k, k ∈ wr_kept w → bar_day (wr_first w) ≤ bar_day k ≤ bar_day (wr_last w);
  pa_coherent : ∃ c, span_breaks (wr_kept w) = Ok c ∧ coherent c = true;
  pa_join : join_ok (_check_join (bar_day (wr_last w)) (wr_last w).2 (pr_observed_at ref) (pr_value ref)) = true;
}.

Lemma kept_ends (kept : list kept_bar) first rest :
  kept = first :: rest → strictly_ascending bar_day kept →
  List.last kept first ∈ kept ∧ ∀ k, k ∈ kept → bar_day first ≤ bar_day k ≤ bar_day (List.last kept first).
Proof.
  intros -> Hs. assert (List.last (first :: rest) first ∈ first :: rest) as Hlast.
  { rewrite last_cons_default. apply last_elem. }
  split; [done|]. apply StronglySorted_inv in Hs as Hs'. destruct Hs' as [_ Hall]. rewrite Forall_forall in Hall.
  intros k Hk. split.
  - apply elem_of_cons in Hk as [->|Hk]; [lia|]. specialize (Hall k Hk). lia.
  - rewrite last_cons_default. apply (ascending_last_ge bar_day first rest); [|done].
    eapply StronglySorted_impl; [|exact Hs]. simpl. lia.
Qed.

Lemma examine_passed clock fetch db symbol ignore ev w :
  examine clock fetch db symbol ignore = (ev, Ok (inr w)) →
  ∃ page ref, passed clock fetch db symbol ignore w page ref.
Proof.
  unfold examine. destruct (assoc symbol BACKFILL_SLUGS) as [slug|] eqn:Hslug; [|done].
  destruct (assoc symbol SYMBOL_META); [|done]. destruct (live_anchor db symbol ignore) as [a|] eqn:Ha; [|done].
  destruct (reference a) as [ref|] eqn:Hr; [|done]. case_match; [done|].
  destruct (fetch slug MAX_HISTORY_ROWS) as [page|] eqn:Hf; [|done]. unfold examine_page.
  destruct (_truncation_error _ _) eqn:Ht; [done|]. destruct (_bar_date_error _ _) eqn:Hd; [done|].
  destruct (_rows_to_write _ _ _) as [[kept skips]|] eqn:Hk; [|done].
  destruct kept as [|first rest] eqn:Hkept.
  { destruct (negb _ && _); done. }
  rewrite <-Hkept in *. simpl.
  destruct (fle (List.last kept first).2 fzero) eqn:Hl; [done|].
  destruct (span_breaks kept) as [c|] eqn:Hc; [|done].
  destruct (coherent c) eqn:Hco; [|done]. set (j := _check_join _ _ _ _).
  change (fle _ (join_threshold_pct _)) with (join_ok j).
  destruct (join_ok j) eqn:Hj; [|done].
  intros [= <- <-]. exists page, ref. pose proof (rows_to_write_spec _ _ _ _ _ Hk) as (Hs&_&_).
  destruct (kept_ends _ _ _ Hkept Hs) as [Hlast Hall].
  split; simpl; try done; [by eexists|split_and!; [by rewrite Hkept|rewrite Hkept; by left|done..]|by exists c].
Qed.

(** A transaction that went through, on new keys: the closes are appended as they are. *)
Lemma write_backfill_spec clock db symbol w splice db' n m noted iso isof cur unit_ :
  write_backfill iso isof clock db symbol w splice = Ok (db', n, m, noted) →
  assoc symbol SYMBOL_META = Some (cur, unit_) →
  strictly_ascending bar_day (wr_kept w) →
  (∀ k r, k ∈ wr_kept w → r ∈ rows_of_symbol db symbol → bar_day k < date_of (pr_observed_at r)) →
  hd_prices db' = hd_prices db ++ (backfill_row symbol cur unit_ (clock 1%nat) <$> wr_kept w) ∧
  n = Z.of_nat (length (wr_kept w)) ∧ hd_raw db `prefix_of` hd_raw db' ∧
  (∀ k, k ∈ wr_kept w → history_dedupe_key iso symbol (bar_day k) ∈ raw_dedupe_key <$> hd_raw db').
Proof.
  unfold write_backfill. intros H Hm Hs Hnew. rewrite Hm in H. cbn [default from_option id] in H.
  destruct (default _ (assoc (wr_slug w) SLUG_MAP)) as [[sy ru] rc].
  apply bind_Ok in H as ([p np]&Hp&H). apply bind_Ok in H as ([r nr]&Hr&H). simpl in H.
  assert (hd_prices db' = p ∧ hd_raw db' = r ∧ n = np) as (->&->&->).
  { unfold _write_splice_record in H. simpl in H. destruct (hd_notes db !! symbol) as [[old at_]|]; by injection H as <- <- _ _. }
  apply insert_raws_spec in Hr as (Hpre&_&Hin&_). apply insert_prices_new in Hp as (->&->&_).
  - rewrite length_fmap. split_and!; [done..|]. intros k Hk.
    apply (Hin (raw_backfill_row iso isof symbol (wr_slug w) cur ru rc (clock 1%nat) k)). by apply list_elem_of_fmap_2.
  - rewrite <-list_fmap_compose. apply NoDup_fmap_2_strong; [|by eapply strictly_ascending_NoDup].
    intros x y Hx Hy [= Heq%close_stamp_inj]. apply (NoDup_key_inj bar_day (wr_kept w)); [|done..].
    clear -Hs. induction Hs as [|x l _ IH Hl]; simpl; constructor; [|done]. rewrite Forall_forall in Hl.
    intros (y&He&Hin)%list_elem_of_fmap. specialize (Hl y Hin). lia.
  - intros row (k&->&Hk)%list_elem_of_fmap (r'&He&Hr')%list_elem_of_fmap. injection He as H1 H2 H3.
    assert (r' ∈ rows_of_symbol db symbol) as Hin' by (by apply rows_of_symbol_elem).
    specialize (Hnew k r' Hk Hin'). rewrite <-H2, close_stamp_day in Hnew. lia.
Qed.
End PassFacts.

(** ** The tolerance of the join is capped *)
Section Cap.

Lemma binary_normalize_nonneg n e : 0 ≤ n → fle fzero (SpecFloat.binary_normalize 53 1024 n e false) = true.
Proof.
  destruct n as [|p|p]; [done| |lia]. intros _. simpl. unfold SpecFloat.binary_round.
  destruct (SpecFloat.shl_align _ _ _) as [m' e']. by apply binary_round_aux_nonneg.
Qed.

Lemma fadd_nonneg x y : fle fzero x = true → fle fzero y = true → fle fzero (fadd x y) = true.
Proof.
  destruct x as [[]|[]| |[] m e], y as [[]|[]| |[] m' e']; try done. intros _ _.
  unfold fadd, SpecFloat.SFadd. apply binary_normalize_nonneg. simpl. lia.
Qed.

Lemma fmul_pos_nonneg m e y :
  fle fzero y = true → fle fzero (fmul (SpecFloat.S754_finite false m e) y) = true.
Proof. destruct y as [[]|[]| |[] m' e']; try done. intros _. by apply binary_round_aux_nonneg. Qed.

(** However far apart the two dates are. *)
Lemma join_threshold_capped gap : fle (join_threshold_pct gap) JOIN_MAX_TOLERANCE_PCT = true.
Proof.
  unfold join_threshold_pct, fmin. set (x := fadd _ _).
  assert (fle fzero x = true) as Hx%fle_not_nan.
  { apply fadd_nonneg; [done|]. change JOIN_PER_DAY_TOLERANCE_PCT with (SpecFloat.S754_finite false 5629499534213120 (-50)).
    apply fmul_pos_nonneg, binary_normalize_nonneg. lia. }
  destruct (flt JOIN_MAX_TOLERANCE_PCT x) eqn:H; [done|]. rewrite fle_flt by (done || apply Hx). by rewrite H.
Qed.
End Cap.

(** ** The job *)
Lemma zip_tail_fmap {A B} (f : A → B) l :
  zip (f <$> l) (tail (f <$> l)) = (λ p, (f p.1, f p.2)) <$> zip l (tail l).
Proof. destruct l as [|x l]; [done|]. simpl. revert x. induction l as [|y l IH]; intros x; [done|]. simpl. f_equal. apply IH. Qed.

Lemma zip_tail_members {A} (l : list A) x y : (x, y) ∈ zip l (tail l) → x ∈ l ∧ y ∈ l.
Proof.
  intros H. split; [by eapply elem_of_zip_l|]. apply elem_of_zip_r in H. destruct l; [done|by right].
Qed.

Section Theorems.
Context `{NF : !NumericFloat} `{NO : !NumericOrder} `{JC : !JsonColumn} `{AO : !SqlAscending} `{LM : !LibM}.
Context {AL : SqlAscendingLaws AO}.

Lemma backfill_slug_known symbol slug :
  assoc symbol BACKFILL_SLUGS = Some slug →
  (∀ x, normalize_history_value slug x = Ok (rial_to_toman x)) ∧
  ∃ cur unit_, assoc symbol SYMBOL_META = Some (cur, unit_).
Proof.
  intros [[= -> ->]|[[= -> ->]|[[= -> ->]|Hn%elem_of_nil]%elem_of_cons]%elem_of_cons]%assoc_elem%elem_of_cons;
    [split; [done|by eexists _, _]..|done].
Qed.

(** Every bar before the first observation of the symbol, at one close a day. *)
Record spliced (iso_date : date → string) (clock : nat → instant) (page : HistoryPage) (db : HistoryDB) (symbol : string)
    (kept : list kept_bar) (db' : HistoryDB) : Prop := {
  sp_prices : ∃ cur unit_, assoc symbol SYMBOL_META = Some (cur, unit_) ∧
    hd_prices db' = hd_prices db ++ (backfill_row symbol cur unit_ (clock 1%nat) <$> kept);
  sp_ascending : strictly_ascending bar_day kept;
  sp_before k r : k ∈ kept → r ∈ rows_of_symbol db symbol → bar_day k < date_of (pr_observed_at r);
  sp_from k : k ∈ kept → k.1 ∈ hp_rows page ∧ fgt k.1.2 fzero = true ∧ k.2 = rial_to_toman k.1.2 ∧
    MIN_BAR_DATE ≤ bar_day k ≤ date_of (clock 0%nat) + MAX_BAR_DATE_SLACK;
  sp_all bar : bar ∈ hp_rows page → fgt bar.2 fzero = true →
    (∀ r, r ∈ rows_of_symbol db symbol → bar.1 < date_of (pr_observed_at r)) → bar.1 ∈ bar_day <$> kept;
  sp_audited k : k ∈ kept → history_dedupe_key iso_date symbol (bar_day k) ∈ raw_dedupe_key <$> hd_raw db';
}.

Lemma passed_before clock fetch db symbol ignore w page ref :
  passed clock fetch db symbol ignore w page ref →
  strictly_ascending bar_day (wr_kept w) ∧
  ∀ k r, k ∈ wr_kept w → r ∈ rows_of_symbol db symbol → bar_day k < date_of (pr_observed_at r).
Proof.
  intros [_ Ha _ _ _ _ [skips Hk] _ _ _]. apply rows_to_write_spec in Hk as (Hs&Hfrom&_). split; [done|].
  intros k r Hkin Hr. destruct (Hfrom k Hkin) as (_&[_ Hlt]&_). apply anchor_cutoff in Ha as (_&Hle&_).
  specialize (Hle r Hr). apply date_of_mono in Hle. unfold bar_day. lia.
Qed.

Lemma backfill_cases iso isof clock fetch db symbol dry ignore db' out :
  backfill_symbol iso isof clock fetch db symbol dry ignore = (db', out) →
  (db' = db ∧ (∀ rep, out = Ok rep → bf_result rep ≠ BfOk)) ∨
  ∃ rep w page ref, out = Ok rep ∧ bf_result rep = BfOk ∧ dry = false ∧
    bf_inserted rep = Z.of_nat (length (wr_kept w)) ∧
    passed clock fetch db symbol ignore w page ref ∧ spliced iso clock page db symbol (wr_kept w) db' ∧
    hd_raw db `prefix_of` hd_raw db'.
Proof.
  unfold backfill_symbol. destruct (examine clock fetch db symbol ignore) as [ev res] eqn:He.
  destruct res as [[status|w]|e].
  - intros [= <- <-]. left. split; [done|]. intros rep [= <-]. simpl. intros ->.
    revert He. unfold examine, examine_page. repeat case_match; congruence.
  - apply examine_passed in He as (page&ref&Hp). destruct dry.
    { intros [= <- <-]. left. split; [done|]. by intros rep [= <-]. }
    destruct (write_backfill _ _ _ _ _ _ _) as [[[[db1 n] m] noted]|e] eqn:Hw.
    2: { intros [= <- <-]. left. done. }
    intros [= <- <-]. right. destruct (passed_before _ _ _ _ _ _ _ _ Hp) as [Hs Hbefore].
    destruct (backfill_slug_known _ _ (pa_slug _ _ _ _ _ _ _ _ Hp)) as (Hnorm&cur&unit_&Hm).
    destruct (write_backfill_spec _ _ _ _ _ _ _ _ _ _ _ _ _ Hw Hm Hs Hbefore) as (Hrows&Hn&Hpre&Haudit).
    eexists _, w, page, ref. split_and!; [done..| |done]. destruct (pa_kept _ _ _ _ _ _ _ _ Hp) as [skips Hk].
    apply rows_to_write_spec in Hk as (_&Hfrom&Hall). split; try done.
    + by exists cur, unit_.
    + intros k Hkin. destruct (Hfrom k Hkin) as (Hin&[Hpos _]&Hv). rewrite Hnorm in Hv. injection Hv as Hv.
      pose proof (bar_dates_inside _ _ (pa_dates _ _ _ _ _ _ _ _ Hp) _ Hin) as Hd. simpl in Hd. done.
    + intros bar Hb Hpos Hlt. apply Hall; [done|]. split; [done|].
      destruct (anchor_cutoff _ _ _ _ (pa_anchor _ _ _ _ _ _ _ _ Hp)) as ((r&Hr&<-)&_). by apply Hlt.
  - intros [= <- <-]. left. done.
Qed.

(** *** What is written, in its own terms *)

(** A bar of the page is its day and its close in rials. *)
Abbreviation rial_bar := (date * float)%type.
Definition toman (b : rial_bar) : float := fdiv_ieee b.2 (float_of_Z 10).

(** The row a bar is stored as: a tenth of the rials, at 23:00 UTC of its day. *)
Record filed_as (symbol currency unit_ : string) (now : instant) (b : rial_bar) (r : PriceRow) : Prop := {
  fa_symbol : pr_symbol r = symbol;
  fa_value : pr_value r = numeric (toman b);
  fa_currency : pr_currency r = currency ∧ pr_unit r = unit_;
  fa_source : pr_source r = "tgju_history" ∧ pr_quality r = "ok";
  fa_stamp : date_of (pr_observed_at r) = b.1 ∧ time_of (pr_observed_at r) = 23 * us_hour;
  fa_collected : pr_collected_at r = now;
}.

(** The table after a splice: one row for each bar of the page before the first day of the
    symbol, and its audit row. *)
Record history_filed (iso_date : date → string) (clock : nat → instant) (page : HistoryPage) (db : HistoryDB)
    (symbol : string) (bars : list rial_bar) (db' : HistoryDB) : Prop := {
  hf_rows : ∃ currency unit_ rows, assoc symbol SYMBOL_META = Some (currency, unit_)
    ∧ hd_prices db' = hd_prices db ++ rows
    ∧ Forall2 (filed_as symbol currency unit_ (clock 1%nat)) bars rows;
  hf_ascending : strictly_ascending fst bars;
  hf_before b r : b ∈ bars → r ∈ hd_prices db → pr_symbol r = symbol → b.1 < date_of (pr_observed_at r);
  hf_from b : b ∈ bars → b ∈ hp_rows page ∧ fgt b.2 fzero = true
    ∧ ordinal 1990 1 1 ≤ b.1 ≤ date_of (clock 0%nat) + 1;
  hf_all b : b ∈ hp_rows page → fgt b.2 fzero = true →
    (∀ r, r ∈ hd_prices db → pr_symbol r = symbol → b.1 < date_of (pr_observed_at r)) → b.1 ∈ bars.*1;
  hf_audited b : b ∈ bars →
    ("tgju|" ++ symbol ++ "|history|" ++ iso_date b.1)%string ∈ raw_dedupe_key <$> hd_raw db';
}.

Lemma spliced_filed iso clock page db symbol kept db' :
  spliced iso clock page db symbol kept db' → history_filed iso clock page db symbol kept.*1 db'.
Proof.
  intros [(cur&unit_&Hm&Hrows) Hasc Hbefore Hfrom Hall Haud].
  assert (∀ b, b ∈ kept.*1 → ∃ k, k ∈ kept ∧ k.1 = b) as Hk by (intros b (k&->&?)%list_elem_of_fmap; by exists k).
  split.
  - exists cur, unit_, (backfill_row symbol cur unit_ (clock 1%nat) <$> kept). split_and!; [done..|].
    rewrite Forall2_fmap_l, Forall2_fmap_r. apply Forall_Forall2_diag, Forall_forall. intros k Hin.
    destruct (Hfrom k Hin) as (_&_&Hv&_). split; simpl; try done.
    + by rewrite Hv.
    + rewrite close_stamp_day. split; [done|]. unfold time_of, close_stamp, combine.
      rewrite Z.add_comm, Z.mod_add by done. by apply Z.mod_small.
  - unfold strictly_ascending in *. clear -Hasc. induction Hasc as [|k kept _ IH Hx]; simpl; constructor; [done|].
    by rewrite Forall_fmap.
  - intros b r (k&Hin&<-)%Hk Hr Hs. apply (Hbefore k r Hin). by apply rows_of_symbol_elem.
  - intros b (k&Hin&<-)%Hk. destruct (Hfrom k Hin) as (H1&H2&_&H3).
    exact (conj H1 (conj H2 H3)).
  - intros b Hb Hpos Hlt. assert (b.1 ∈ bar_day <$> kept) as Hin.
    { apply Hall; [done..|]. intros r [? ?]%rows_of_symbol_elem. by apply Hlt. }
    apply list_elem_of_fmap in Hin as (k&->&Hin).
    change (bar_day k) with (k.1.1). by do 2 apply list_elem_of_fmap_2.
  - intros b (k&Hin&<-)%Hk. by apply Haud.
Qed.

(** C28. A pass over a symbol either changes no table, or it succeeded and appended one
    close for each bar of the page that lies before the day of every observation the
    symbol had, and nothing else: a positive close of that page, in the plausible dates, the
    stored value a tenth of the rial number, stamped 23:00 UTC of its own day, with its
    audit row. *)
Theorem backfill_exact iso isof clock fetch db symbol dry ignore db' out :
  backfill_symbol iso isof clock fetch db symbol dry ignore = (db', out) →
  (db' = db ∧ ∀ rep, out = Ok rep → bf_result rep ≠ BfOk) ∨
  ∃ rep slug page bars, out = Ok rep ∧ bf_result rep = BfOk ∧ dry = false ∧
    assoc symbol BACKFILL_SLUGS = Some slug ∧ fetch slug 20000 = Ok page ∧
    bf_inserted rep = Z.of_nat (length bars) ∧ bars ≠ [] ∧ history_filed iso clock page db symbol bars db'.
Proof.
  intros [?|(rep&w&page&ref&->&Hok&Hd&Hn&[Hslug _ _ Hp _ _ _ (Hne&_) _ _]&Hs&_)]%backfill_cases; [by left|].
  right. exists rep, (wr_slug w), page, (wr_kept w).*1. rewrite length_fmap. split_and!; try done.
  - by intros Hnil%fmap_nil_inv.
  - by apply spliced_filed.
Qed.

(** The page is all the history there is, as far as it can be told. *)
Definition whole (page : HistoryPage) : Prop :=
  match records_total page with
  | Some total => total ≤ returned_rows page
  | None => returned_rows page < 20000
  end.

(** Neither close is more than 1.5 times the other, a further 0.6 per cent allowed for each
    day between them. *)
Definition coherent_step `{LM : !LibM} (prev next : rial_bar) : Prop :=
  ∃ drift, fpow (flit 1006 3) (float_of_Z (Z.max (next.1 - prev.1) 1)) = Ok drift
  ∧ fgt (fmax (fdiv_ieee (toman next) (toman prev)) (fdiv_ieee (toman prev) (toman next)))
        (fmul (flit 15 1) drift) = false.

(** A price the join may be judged by: accepted, positive, and of a source that is neither
    this job, nor a file an operator imports, nor one the operator asks to ignore. *)
Definition trustworthy `{NO : !NumericOrder} (ignore : list string) (r : PriceRow) : Prop :=
  pr_quality r = "ok" ∧ num_le (pr_value r) fzero = false
  ∧ pr_source r ∉ ["seed_sample"; "csv_import"; "tgju_history"]
  ∧ ∀ s, s ∈ ignore → strip s ≠ EmptyString → pr_source r ≠ strip s.

(** The move from the last bar to that price, in per cent, within 15 and 5 more for each
    day between them, 50 at most. *)
Definition joins (last : rial_bar) (r : PriceRow) : Prop :=
  let days := Z.max (date_of (pr_observed_at r) - last.1) 0 in
  let tolerance := fmin (fadd (float_of_Z 15) (fmul (float_of_Z 5) (float_of_Z days))) (float_of_Z 50) in
  fle (fmul (fdiv_ieee (fabs (fsub (pr_value r) (toman last))) (toman last)) fhundred) tolerance = true
  ∧ fle tolerance (float_of_Z 50) = true.

Lemma trusted_trustworthy ignore r : trusted ignore r = true ↔ trustworthy ignore r.
Proof.
  unfold trusted, excluded_sources, trustworthy. rewrite !andb_true_iff, String.eqb_eq, !negb_true_iff.
  assert (existsb (String.eqb (pr_source r)) (UNTRUSTED_ANCHOR_SOURCES ++ List.filter nonempty (strip <$> ignore)) = false
    ↔ pr_source r ∉ ["seed_sample"; "csv_import"; "tgju_history"]
      ∧ ∀ s, s ∈ ignore → strip s ≠ EmptyString → pr_source r ≠ strip s) as ->; [|tauto].
  rewrite <-not_true_iff_false, existsb_exists. change UNTRUSTED_ANCHOR_SOURCES with ["seed_sample"; "csv_import"; "tgju_history"].
  split.
  - intros Hn. assert (pr_source r ∉ ["seed_sample"; "csv_import"; "tgju_history"] ++ List.filter nonempty (strip <$> ignore)) as H.
    { intros Hin. apply Hn. exists (pr_source r). split; [by apply list_elem_of_In|apply String.eqb_refl]. }
    apply not_elem_of_app in H as [H1 H2]. split; [done|]. intros s Hin Hne Heq. apply H2. rewrite Heq.
    apply elem_of_bool_filter. split; [by apply list_elem_of_fmap_2|]. by destruct (strip s).
  - intros [H1 H2] (x&Hx%list_elem_of_In&<-%String.eqb_eq). apply elem_of_app in Hx as [Hx|Hx]; [done|].
    apply elem_of_bool_filter in Hx as [(s&Heq&Hin)%list_elem_of_fmap Hne]. apply (H2 s Hin); [|done].
    rewrite <-Heq. by destruct (pr_source r).
Qed.

Lemma whole_page page : _truncation_error page MAX_HISTORY_ROWS = None → whole page.
Proof.
  unfold _truncation_error, whole. destruct (records_total page) as [total|].
  - destruct (Z.ltb_spec (returned_rows page) total); [done|lia].
  - destruct (Z.leb_spec MAX_HISTORY_ROWS (returned_rows page)); [done|]. by unfold MAX_HISTORY_ROWS in *.
Qed.

(** The first of the trusted prices. *)
Lemma anchor_reference db symbol ignore a ref r :
  live_anchor db symbol ignore = Some a → reference a = Some ref → r ∈ hd_prices db → pr_symbol r = symbol →
  trusted ignore r = true → pr_observed_at ref ≤ pr_observed_at r.
Proof.
  unfold live_anchor. destruct (oldest_first pr_observed_at _) as [|oldest rest]; [done|]. intros [= <-]. simpl.
  destruct (oldest_first pr_observed_at (List.filter _ _)) as [|x l] eqn:Hf; [done|]. intros [= ->] Hin Hs Ht.
  apply oldest_first_least in Hf as [_ Hle]. apply Hle, elem_of_bool_filter. split; [by apply rows_of_symbol_elem|done].
Qed.

(** C29. What is written passed the guards: the page is whole; each step of the span, both
    closes positive, is within one and a half times, widened by 0.6 per cent a day; and the
    last close lies within the capped tolerance of the first price of the symbol that is accepted,
    positive and from a source that is neither this job's, nor one of the files an operator
    imports, nor one asked to be ignored. *)
Theorem backfill_guarded iso isof clock fetch db symbol dry ignore db' rep :
  backfill_symbol iso isof clock fetch db symbol dry ignore = (db', Ok rep) → bf_result rep = BfOk →
  ∃ page bars last ref, history_filed iso clock page db symbol bars db' ∧ whole page ∧
    last ∈ bars ∧ (∀ b, b ∈ bars → b.1 ≤ last.1) ∧
    (∀ prev next, (prev, next) ∈ zip bars (tail bars) →
       fle (toman prev) fzero = false → fle (toman next) fzero = false → coherent_step prev next) ∧
    ref ∈ hd_prices db ∧ pr_symbol ref = symbol ∧ trustworthy ignore ref ∧ joins last ref ∧
    (∀ r, r ∈ hd_prices db → pr_symbol r = symbol → trustworthy ignore r → pr_observed_at ref ≤ pr_observed_at r).
Proof.
  intros H Hok. apply backfill_cases in H as [[_ H]|(rep'&w&page&ref&[= <-]&_&_&_&Hp&Hs&_)].
  { by destruct (H rep eq_refl). }
  destruct Hp as [_ Ha Hr _ Ht _ _ (_&_&Hlast&_&Hle) (c&Hc&Hco) Hj].
  pose proof (λ r, anchor_reference _ _ _ _ _ r Ha Hr) as Hfirst.
  apply anchor_cutoff in Ha as (_&_&Ha). destruct (Ha ref Hr) as [[Hin Hsym]%rows_of_symbol_elem Htrust].
  assert (∀ k, k ∈ wr_kept w → k.2 = toman k.1) as Hv by (intros k Hk; apply (sp_from _ _ _ _ _ _ _ Hs k Hk)).
  exists page, (wr_kept w).*1, (wr_last w).1, ref. split_and!; try done.
  - by apply spliced_filed.
  - by apply whole_page.
  - by apply list_elem_of_fmap_2.
  - intros b (k&->&Hk)%list_elem_of_fmap. by apply Hle.
  - intros prev next Hz Hpp Hnp.
    assert (zip (wr_kept w).*1 (tail (wr_kept w).*1) = (λ kk : kept_bar * kept_bar, (kk.1.1, kk.2.1)) <$> zip (wr_kept w) (tail (wr_kept w)))
      as Hzip by apply zip_tail_fmap.
    rewrite Hzip in Hz. apply list_elem_of_fmap in Hz as ([k1 k2]&[= -> ->]&Hz). simpl in *.
    destruct (zip_tail_members _ _ _ Hz) as [Hk1 Hk2].
    destruct (coherent_spec _ _ Hc Hco k1 k2 Hz) as (tol&Htol&Hstep).
    { rewrite !Hv by done. by rewrite Hpp, Hnp. }
    unfold span_tolerance_ratio in Htol. apply bind_Ok in Htol as (drift&Hd&[= <-]).
    exists drift. split; [exact Hd|]. unfold step_ratio in Hstep. by rewrite !Hv in Hstep by done.
  - by apply trusted_trustworthy.
  - rewrite Hv in Hj by done. split; [exact Hj|].
    apply (join_threshold_capped (date_of (pr_observed_at ref) - (wr_last w).1.1)).
  - intros r Hrin Hrs Hrt%trusted_trustworthy. by apply Hfirst.
Qed.

(** A second pass over the table that was spliced writes nothing, whatever the clock and
    whatever the operator asks to ignore. *)
Theorem backfill_idempotent iso isof clock clock' fetch db symbol dry ignore ignore' db' rep db'' out :
  backfill_symbol iso isof clock fetch db symbol false ignore = (db', Ok rep) → bf_result rep = BfOk →
  backfill_symbol iso isof clock' fetch db' symbol dry ignore' = (db'', out) →
  db'' = db'.
Proof.
  intros H Hok H2. apply backfill_cases in H as [[_ H]|(rep'&w&page&ref&[= <-]&_&_&_&Hp&Hs&_)].
  { by destruct (H rep eq_refl). }
  apply backfill_cases in H2 as [[-> _]|(rep'&w'&page'&ref'&_&_&_&_&Hp'&Hs'&_)]; [done|exfalso].
  assert (wr_slug w' = wr_slug w) as Hslug.
  { pose proof (pa_slug _ _ _ _ _ _ _ _ Hp). pose proof (pa_slug _ _ _ _ _ _ _ _ Hp'). congruence. }
  assert (page' = page) as ->.
  { pose proof (pa_page _ _ _ _ _ _ _ _ Hp). pose proof (pa_page _ _ _ _ _ _ _ _ Hp') as Hpg. rewrite Hslug in Hpg. congruence. }
  destruct (pa_last _ _ _ _ _ _ _ _ Hp') as (_&Hfirst&_). set (k := wr_first w') in *.
  destruct (sp_prices _ _ _ _ _ _ _ Hs) as (cur&unit_&_&Hrows).
  destruct (sp_from _ _ _ _ _ _ _ Hs' k Hfirst) as (Hin&Hpos&_).
  assert (∀ r, r ∈ rows_of_symbol db symbol → bar_day k < date_of (pr_observed_at r)) as Hold.
  { intros r [Hr Hsym]%rows_of_symbol_elem. apply (sp_before _ _ _ _ _ _ _ Hs' k r Hfirst), rows_of_symbol_elem.
    split; [|done]. rewrite Hrows, elem_of_app. by left. }
  pose proof (sp_all _ _ _ _ _ _ _ Hs _ Hin Hpos Hold) as (k0&Hk0&Hkin)%list_elem_of_fmap.
  pose proof (sp_before _ _ _ _ _ _ _ Hs' k (backfill_row symbol cur unit_ (clock 1%nat) k0) Hfirst) as Hlt.
  simpl in Hlt. rewrite close_stamp_day, <-Hk0 in Hlt.
  assert (bar_day k < k.1.1); [apply Hlt|unfold bar_day in *; lia].
  apply rows_of_symbol_elem. split; [|done]. rewrite Hrows, elem_of_app. right. by apply list_elem_of_fmap_2.
Qed.

(** What a pass leaves alone. *)
Record leaves (db : HistoryDB) (symbols : list string) (db' : HistoryDB) : Prop := {
  lv_tables : tables_ok (hd_raw db) (hd_prices db) → tables_ok (hd_raw db') (hd_prices db');
  lv_prices : hd_prices db `prefix_of` hd_prices db';
  lv_raw : hd_raw db `prefix_of` hd_raw db';
  lv_new r : r ∈ hd_prices db' → r ∈ hd_prices db ∨
    (pr_symbol r ∈ symbols ∧ pr_source r = SOURCE ∧
     ∀ r0, r0 ∈ hd_prices db → pr_symbol r0 = pr_symbol r → date_of (pr_observed_at r) < date_of (pr_observed_at r0));
  lv_notes s : s ∉ symbols → hd_notes db' !! s = hd_notes db !! s;
  lv_providers : hd_providers db' = hd_providers db;
}.

Lemma leaves_refl db symbols : leaves db symbols db.
Proof. split; try done. by left. Qed.

Lemma leaves_trans db s1 db1 s2 db2 : leaves db s1 db1 → leaves db1 s2 db2 → leaves db (s1 ++ s2) db2.
Proof.
  intros [T1 P1 R1 N1 M1 V1] [T2 P2 R2 N2 M2 V2]. split; [by auto|by etrans|by etrans| | |congruence].
  - intros r [Hr|(Hs&Hsrc&Hlt)]%N2.
    + destruct (N1 r Hr) as [?|(?&?&?)]; [by left|right]. split_and!; [|done..]. apply elem_of_app. by left.
    + right. split_and!; [apply elem_of_app; by right|done|]. intros r0 Hr0. apply Hlt.
      destruct P1 as [k ->]. apply elem_of_app. by left.
  - intros s Hs. rewrite elem_of_app in Hs. rewrite M2, M1; naive_solver.
Qed.

Lemma backfill_tables iso isof clock fetch db symbol dry ignore db' out :
  backfill_symbol iso isof clock fetch db symbol dry ignore = (db', out) →
  (tables_ok (hd_raw db) (hd_prices db) → tables_ok (hd_raw db') (hd_prices db')) ∧
  (∀ s, s ≠ symbol → hd_notes db' !! s = hd_notes db !! s) ∧ hd_providers db' = hd_providers db.
Proof.
  unfold backfill_symbol. destruct (examine _ _ _ _ _) as [ev [[status|w]|e]]; [by intros [= <- <-]| |by intros [= <- <-]].
  destruct dry; [by intros [= <- <-]|]. destruct (write_backfill _ _ _ _ _ _ _) as [[[[db1 n] m] noted]|e] eqn:Hw; [|by intros [= <- <-]].
  intros [= <- <-]. unfold write_backfill in Hw. destruct (default _ (assoc symbol SYMBOL_META)) as [cur unit_].
  destruct (default _ (assoc (wr_slug w) SLUG_MAP)) as [[sy ru] rc].
  apply bind_Ok in Hw as ([p np]&Hp&Hw). apply bind_Ok in Hw as ([r nr]&Hr&Hw). cbn [fst snd] in Hw.
  unfold _write_splice_record in Hw. cbn [hd_notes hd_settings hd_prices hd_raw hd_providers] in Hw.
  destruct (hd_notes db !! symbol) as [[old at_]|]; injection Hw as <- _ _ _;
    cbn [hd_notes hd_prices hd_raw hd_providers]; (split_and!; [|intros s Hs|done]).
  1,3: intros Hok; eapply insert_prices_ok; [|exact Hp]; by eapply insert_raws_ok.
  - by apply lookup_insert_ne.
  - done.
Qed.

Lemma backfill_leaves iso isof clock fetch db symbol dry ignore db' out :
  backfill_symbol iso isof clock fetch db symbol dry ignore = (db', out) → leaves db [symbol] db'.
Proof.
  intros H. pose proof (backfill_tables _ _ _ _ _ _ _ _ _ _ H) as (HT&HN&HV).
  apply backfill_cases in H as [[-> _]|(rep&w&page&ref&_&_&_&_&_&Hs&Hraw)]; [apply leaves_refl|].
  destruct (sp_prices _ _ _ _ _ _ _ Hs) as (cur&unit_&_&Hrows). split; try done.
  - rewrite Hrows. by eexists.
  - intros r. rewrite Hrows, elem_of_app. intros [?|(k&->&Hk)%list_elem_of_fmap]; [by left|right]. simpl.
    split_and!; [by left|done|]. intros r0 Hr0 Hsym. rewrite close_stamp_day.
    apply (sp_before _ _ _ _ _ _ _ Hs k r0 Hk). by apply rows_of_symbol_elem.
  - intros s Hni. apply HN. intros ->. apply Hni. by left.
Qed.

Lemma backfill_symbols_leave iso isof clock fetch dry ignore symbols db db' out :
  backfill_symbols iso isof clock fetch dry ignore db symbols = (db', out) → leaves db symbols db'.
Proof.
  revert db db' out. induction symbols as [|s symbols IH]; intros db db' out; simpl.
  { intros [= <- <-]. apply leaves_refl. }
  destruct (backfill_symbol _ _ _ _ _ _ _ _) as [db1 [r|e]] eqn:H1; apply backfill_leaves in H1.
  - destruct (backfill_symbols _ _ _ _ _ _ db1 symbols) as [db2 out2] eqn:H2. intros H.
    assert (db2 = db') as ->. { by destruct out2; injection H as <- _. }
    apply IH in H2. apply (leaves_trans db [s] db1 symbols db' H1 H2).
  - intros [= <- _]. pose proof (leaves_trans _ _ _ _ _ H1 (leaves_refl db1 symbols)) as Hl. exact Hl.
Qed.

Lemma distinct_symbols_elem seen l s : s ∈ distinct_symbols seen l → s ∈ l.
Proof.
  revert seen. induction l as [|x l IH]; intros seen; simpl; [done|]. case_bool_decide.
  - intros ?%IH. by right.
  - intros [->|?%IH]%elem_of_cons; [left|by right].
Qed.

Lemma run_backfill_leaves iso isof clock fetch db symbols dry ignore db' out :
  run_tgju_backfill iso isof clock fetch db symbols dry ignore = (db', out) →
  leaves db (match symbols with [] => BACKFILL_SLUGS.*1 | _ => symbols end) db'.
Proof.
  unfold run_tgju_backfill. set (requested := match symbols with [] => BACKFILL_SLUGS.*1 | _ => symbols end).
  destruct (List.filter _ requested); [|intros [= <- _]; apply leaves_refl].
  destruct (backfill_symbols _ _ _ _ _ _ _ _) as [db1 out1] eqn:H. intros Hout.
  assert (db1 = db') as ->. { by destruct out1; injection Hout as <- _. }
  apply backfill_symbols_leave in H as [T P R N M V]. split; try done.
  - intros r [?|(Hs&?)]%N; [by left|right]. split; [by apply distinct_symbols_elem in Hs|done].
  - intros s Hs. apply M. intros Hd%distinct_symbols_elem. by apply Hs.
Qed.

(** A run over any symbols, however it ends, keeps the constraints of the tables, rewrites
    no price and no audit row, adds closes of the requested symbols only, each on a day before
    every day the symbol already had, and leaves the notes of the others alone. *)
Theorem backfill_run_preserves iso isof clock fetch db symbols dry ignore db' out :
  run_tgju_backfill iso isof clock fetch db symbols dry ignore = (db', out) →
  leaves db (match symbols with [] => BACKFILL_SLUGS.*1 | _ => symbols end) db'.
Proof. apply run_backfill_leaves. Qed.
End Theorems.

(** ** A concrete splice *)
#[local] Instance demo_asc : SqlAscending := {| oldest_first := λ A, sort_by |}.
#[local] Instance demo_asc_laws : SqlAscendingLaws demo_asc.
Proof. split; intros A key l; [by apply py_sorted_perm|apply sort_by_ascending]. Qed.

(** [x ** y] for a small whole [y], and the two logarithms the module takes. *)
#[local] Instance demo_libm : LibM :=
  {| fpow := λ x y, match int_of_float y with
                    | Ok n => Ok (Nat.iter (Z.to_nat n) (fmul x) fone)
                    | Err e => Err e
                    end;
     flog := λ x, if flt x fone then fzero else if flt x (flit 11 1) then flit 598 5 else flit 112240 5 |}.
#[local] Instance demo_json : JsonColumn := {| json_column := λ _, true |}.
#[local] Instance demo_order : NumericOrder := {| storable := λ x, negb (is_nan x); num_le := fle |}.

Definition live_usd_row (day value : Z) (source : string) : PriceRow :=
  {| pr_symbol := "USD_IRT"; pr_value := float_of_Z value; pr_currency := "IRT"; pr_unit := "usd"; pr_source := source;
     pr_observed_at := combine day (9 * us_hour); pr_collected_at := combine day (9 * us_hour); pr_quality := "ok" |}.

Definition demo_db : HistoryDB :=
  {| hd_prices := [live_usd_row (ordinal 2026 7 20) 101000 "bitmax"; live_usd_row (ordinal 2026 7 21) 102000 "bitmax"];
     hd_raw := []; hd_settings := ∅; hd_notes := {[ "USD_IRT" := ("Free-market dollar.", 0) ]}; hd_providers := ∅ |}.

Definition demo_page (closes : list (string * string)) : result tgju_error HistoryPage :=
  fetch_history_page no_repr
    (λ _ _, Ok (JObj [("recordsTotal", JInt (Z.of_nat (length closes)));
                      ("data", JArr ((λ c, demo_row c.2 c.1 EmptyString) <$> closes))])) "price_dollar_rl" MAX_HISTORY_ROWS.

(** The last bar is of the day the live era begins. *)
Definition demo_fetch (_ : string) (_ : Z) : result tgju_error HistoryPage :=
  demo_page [("2026/07/20", "1,010,000"); ("2026/07/19", "1,000,000"); ("2026/07/18", "995,000"); ("2026/07/16", "990,000")].

(** The same page, a digit short in the middle. *)
Definition broken_fetch (_ : string) (_ : Z) : result tgju_error HistoryPage :=
  demo_page [("2026/07/19", "1,000,000"); ("2026/07/18", "99,500"); ("2026/07/16", "990,000")].

Definition demo_clock (n : nat) : instant := combine (ordinal 2026 7 22) (Z.of_nat n).

Definition demo_pass : HistoryDB * result exn BackfillReport :=
  backfill_symbol str_of_Z str_of_Z demo_clock demo_fetch demo_db "USD_IRT" false [].

Definition is_bf_ok (out : result exn BackfillReport) : bool :=
  match out with Ok rep => match bf_result rep with BfOk => true | _ => false end | Err _ => false end.

Lemma is_bf_ok_true out : is_bf_ok out = true → ∃ rep, out = Ok rep ∧ bf_result rep = BfOk.
Proof. destruct out as [rep|]; [|done]. simpl. destruct (bf_result rep) eqn:H; try done. by exists rep. Qed.

Example demo_splice :
  ((λ r, (pr_source r, pr_observed_at r, pr_value r)) <$> hd_prices demo_pass.1) =
  [("bitmax", combine (ordinal 2026 7 20) (9 * us_hour), float_of_Z 101000);
   ("bitmax", combine (ordinal 2026 7 21) (9 * us_hour), float_of_Z 102000);
   (SOURCE, close_stamp (ordinal 2026 7 16), float_of_Z 99000);
   (SOURCE, close_stamp (ordinal 2026 7 18), float_of_Z 99500);
   (SOURCE, close_stamp (ordinal 2026 7 19), float_of_Z 100000)].
Proof. vm_compute. reflexivity. Qed.

(** A scale break inside the span is refused whole. *)
Example broken_span_refused :
  match backfill_symbol str_of_Z str_of_Z demo_clock broken_fetch demo_db "USD_IRT" false [] with
  | (_, Ok rep) => match bf_result rep with BfRefused (NotCoherent c) => break_count c | _ => 0 end
  | _ => 0
  end = 2.
Proof. vm_compute. reflexivity. Qed.

Lemma backfill_exact_witness :
  is_bf_ok demo_pass.2 = true ∧
  ((demo_pass.1 = demo_db ∧ ∀ rep, demo_pass.2 = Ok rep → bf_result rep ≠ BfOk) ∨
   ∃ rep slug page bars, demo_pass.2 = Ok rep ∧ bf_result rep = BfOk ∧ false = false ∧
     assoc "USD_IRT" BACKFILL_SLUGS = Some slug ∧ demo_fetch slug 20000 = Ok page ∧
     bf_inserted rep = Z.of_nat (length bars) ∧ bars ≠ [] ∧
     history_filed str_of_Z demo_clock page demo_db "USD_IRT" bars demo_pass.1).
Proof.
  split; [vm_compute; reflexivity|].
  exact (backfill_exact str_of_Z str_of_Z demo_clock demo_fetch demo_db "USD_IRT" false [] _ _ (surjective_pairing demo_pass)).
Defined.

Lemma backfill_guarded_witness :
  ∃ bars ref last, bars ≠ [] ∧ last ∈ bars ∧ ref ∈ hd_prices demo_db ∧ trustworthy [] ref ∧ joins last ref.
Proof.
  assert (is_bf_ok demo_pass.2 = true) as H by (vm_compute; reflexivity).
  destruct (is_bf_ok_true _ H) as (rep&Hrep&Hok). assert (demo_pass = (demo_pass.1, Ok rep)) as Hp by (rewrite <-Hrep; apply surjective_pairing).
  destruct (backfill_guarded _ _ _ _ _ _ _ _ _ _ Hp Hok) as (page&bars&last&ref&_&_&Hl&_&_&Hin&_&Ht&Hj&_).
  exists bars, ref, last. assert (bars ≠ []) as Hne by (intros Hn; rewrite Hn in Hl; exact (not_elem_of_nil _ Hl)).
  exact (conj Hne (conj Hl (conj Hin (conj Ht Hj)))).
Defined.

Lemma backfill_idempotent_witness :
  is_bf_ok demo_pass.2 = true ∧
  (backfill_symbol str_of_Z str_of_Z demo_clock demo_fetch demo_pass.1 "USD_IRT" false ["bitmax"]).1 = demo_pass.1.
Proof.
  assert (is_bf_ok demo_pass.2 = true) as H by (vm_compute; reflexivity). split; [done|].
  destruct (is_bf_ok_true _ H) as (rep&Hrep&Hok). assert (demo_pass = (demo_pass.1, Ok rep)) as Hp by (rewrite <-Hrep; apply surjective_pairing).
  exact (backfill_idempotent _ _ _ demo_clock _ _ _ false _ ["bitmax"] _ _ _ _ Hp Hok (surjective_pairing _)).
Defined.

Definition demo_run : HistoryDB * bf_outcome :=
  run_tgju_backfill str_of_Z str_of_Z (λ _, demo_clock) demo_fetch demo_db [] false [].

Lemma backfill_run_preserves_witness :
  length (hd_prices demo_run.1) = 5%nat ∧ leaves demo_db (BACKFILL_SLUGS.*1) demo_run.1.
Proof.
  split; [vm_compute; reflexivity|].
  exact (backfill_run_preserves str_of_Z str_of_Z (λ _, demo_clock) demo_fetch demo_db [] false [] _ _ (surjective_pairing demo_run)).
Defined.
