(* ===== verification/TgjuDaily.v ===== *)
(** * The daily settled closes of TGJU

    [app/jobs/tgju_daily.py]: one pass over a symbol reads the newest rows of its table
    (or, when it has reason to, all of them), judges each close against its neighbours,
    and writes those days that are over and that no source has observed.

    The tables, the page and its checks are those of [TgjuBackfill] and [TgjuFeed].
    [tehran] is the time zone database's; [iso_date], [date_of_iso], [isoformat],
    [format_10g], [format_2f] and [repr] are the interpreter's texts of dates and
    numbers. *)
From S2P Require Import Prelude PyFloat PyTime Numeric PyText PyUrl PyJson Validation PriceDB TgjuFeed TgjuBackfill.
From Stdlib Require Import Ascii.
Local Open Scope string_scope.
Local Open Scope list_scope.
Local Open Scope Z_scope.

Definition SERIES_SLUGS : list (string * string) :=
  [("IR_SILVER_999", "silver_999"); ("IR_COIN_BAHAR", "sekeb"); ("IR_COIN_HALF", "nim");
   ("IR_COIN_QUARTER", "rob"); ("IR_COIN_GERAMI", "gerami"); ("IR_GOLD_24K", "geram24");
   ("IR_GOLD_MESGHAL", "mesghal")].
Definition GAP_FILL_SLUGS : list (string * string) := [("IR_COIN_EMAMI", "sekee")].
Definition GAP_FILL_FROM : list (string * date) := [("IR_COIN_EMAMI", ordinal 2026 4 27)].
Definition REFUSED_SYMBOLS : list string := ["USD_IRT"; "IR_GOLD_18K"].
Definition RECENT_ROWS : Z := 40.
Definition NEIGHBOURS_EACH_SIDE : nat := 7.
Definition SUSPECT_RATIO : float := flit 16 1.
Definition MIN_JUDGED_NEIGHBOURS : nat := 4.
Definition RESTATEMENT_ABS_TOLERANCE : float := flit 5 3.
Definition MAX_REPORTED : nat := 10.
Definition REGISTER_KEY : string := "tgju_daily".
Definition GAP_FILL_NOTE_MARKER : string := "[tgju daily gap-fill]".

(** ** The junk-bar rule *)
Inductive bar_verdict : Set := v_ok | v_suspect | v_unjudged.

Record Judged : Set := {
  j_bar : HistoryRow;
  j_verdict : bar_verdict;
  j_median : option float;
  j_neighbours : Z;
}.

(** The closes of up to seven bars on each side. *)
Definition closes_around (closes : list float) (i : nat) : list float :=
  drop (i - NEIGHBOURS_EACH_SIDE) (take i closes) ++ take NEIGHBOURS_EACH_SIDE (drop (i + 1) closes).

Definition away (close median : float) : float := fmax (fdiv_ieee close median) (fdiv_ieee median close).

Definition judge_bar (closes : list float) (i : nat) (bar : HistoryRow) : Judged :=
  let around := closes_around closes i in
  let n := Z.of_nat (length around) in
  let unjudged := {| j_bar := bar; j_verdict := v_unjudged; j_median := None; j_neighbours := n |} in
  if (length around <? MIN_JUDGED_NEIGHBOURS)%nat then unjudged
  else
    match median around with
    | None => unjudged
    | Some m =>
        if fle m fzero then unjudged
        else {| j_bar := bar; j_verdict := if fgt (away (h_close bar) m) SUSPECT_RATIO then v_suspect else v_ok;
                j_median := Some m; j_neighbours := n |}
    end.

Definition judge_bars (bars : list HistoryRow) : list Judged :=
  let ordered := sort_by h_day bars in
  imap (judge_bar (h_close <$> ordered)) ordered.

(** [math.isclose(a, b, rel_tol=1e-9, abs_tol=RESTATEMENT_ABS_TOLERANCE)] *)
Definition _same_value (a b : float) : bool :=
  feq a b
  || (negb (is_inf a || is_inf b)
      && (let diff := fabs (fsub b a) in
          fle diff (fabs (fmul (flit 1 9) b)) || fle diff (fabs (fmul (flit 1 9) a))
          || fle diff RESTATEMENT_ABS_TOLERANCE)).

(** ** What becomes of a bar *)
Inductive fate : Set :=
| NotSettled
| Unchanged
| BeforeWindow
| HeldSuspect
| HeldUnjudged
| Restated (stored : float)
| OtherSource
| Written.

Definition utc_day_end (day : date) : instant := combine (day + 1) 0.

Definition fate_of (gap_from : option date) (now : instant) (today : date) (on_day : gmap string float)
    (item : Judged) (value : float) : fate :=
  let day := h_day (j_bar item) in
  let gap_fill := match gap_from with Some _ => true | None => false end in
  if (today <=? day) || (now <? close_stamp day) then NotSettled
  else if gap_fill && (now <? utc_day_end day) then NotSettled
  else
    let stored := on_day !! SOURCE in
    if match stored with Some old => _same_value old value | None => false end then Unchanged
    else if match gap_from with Some from => bool_decide (on_day = ∅) && (day <? from) | None => false end
    then BeforeWindow
    else
      match j_verdict item with
      | v_suspect => HeldSuspect
      | v_unjudged => HeldUnjudged
      | v_ok =>
          match stored with
          | Some old => Restated old
          | None => if bool_decide (on_day = ∅) then Written else OtherSource
          end
      end.

Record Sorted : Set := { so_item : Judged; so_value : float; so_fate : fate }.

Definition is_fate (f : fate) (s : Sorted) : bool :=
  match f, so_fate s with
  | NotSettled, NotSettled | Unchanged, Unchanged | BeforeWindow, BeforeWindow | HeldSuspect, HeldSuspect
  | HeldUnjudged, HeldUnjudged | Restated _, Restated _ | OtherSource, OtherSource | Written, Written => true
  | _, _ => false
  end.

Definition with_fate (f : fate) (l : list Sorted) : list Sorted := List.filter (is_fate f) l.
Definition count_fate (f : fate) (l : list Sorted) : Z := Z.of_nat (length (with_fate f l)).

(** ** JSON *)

(** [dict(v or {})]; a list, which [dict] would read as pairs, is taken as refused. *)
Definition dict_or_empty (v : json) : result pyerr (list (string * json)) :=
  match v with
  | JObj items => Ok items
  | JStr (String _ _) => Err ValueError
  | _ => if truthy v then Err TypeError else Ok []
  end.

(** [min(filter(None, [v, s]))] and [max] of a stored text and a new one *)
Definition pick_text (keep_old : string → string → bool) (v : json) (s : string) : result pyerr string :=
  if truthy v then
    match v with
    | JStr old => Ok (if keep_old old s then old else s)
    | _ => Err TypeError
    end
  else Ok s.

(** ** The note of the instrument *)
(** What follows the marker, if it is there. *)
Fixpoint after_marker (marker s : string) : option string :=
  if starts_with marker s then Some (drop_chars (String.length marker) s)
  else match s with EmptyString => None | String _ s => after_marker marker s end.

Definition gap_filled_notes (old sentence : string) : string :=
  let head := before_marker SPLICE_NOTE_MARKER old in
  let kept := strip (before_marker GAP_FILL_NOTE_MARKER head) in
  let head := if nonempty kept then strip (kept ++ " " ++ sentence)%string else sentence in
  match after_marker SPLICE_NOTE_MARKER old with
  | Some splice => (head ++ " " ++ SPLICE_NOTE_MARKER ++ splice)%string
  | None => head
  end.

(** ** The report *)
Inductive full_reason : Set :=
| NoRowYet
| NoFullPassYet
| RowsNeverRead (oldest : date) (seen : string).

Inductive daily_refusal : Type :=
| UnitMismatch (slug raw_unit unit_ : string)
| DailyTruncated (t : truncation)
| NoParseableBar (slug : string)
| DailyBadDates (b : bad_dates).

Inductive daily_error : Type :=
| FetchFailed (e : tgju_error)
| MarkerRaised (e : pyerr).

Inductive dl_status : Type :=
| DlOk
| DlDryRun
| DlSkipped
| DlRefused (why : daily_refusal)
| DlError (e : daily_error).

Record DailyReport : Type := {
  dl_symbol : string;
  dl_slug : string;
  dl_gap_fill : bool;
  dl_result : dl_status;
  dl_dry_run : bool;
  dl_full : option (option full_reason);        (** the mode, once known *)
  dl_fetched : Z;
  dl_records_total : option Z;
  dl_sorted : list Sorted;
  dl_would_insert : Z;
  dl_first_written : option date;
  dl_last_written : option date;
  dl_inserted : Z;
  dl_raw_inserted : Z;
  dl_note_updated : option bool;
}.

(** The counters and the examples of the report. *)
Definition restatements (r : DailyReport) : list (date * float * float) :=
  take MAX_REPORTED
    (omap (λ s, match so_fate s with Restated old => Some (h_day (j_bar (so_item s)), old, so_value s) | _ => None end)
       (dl_sorted r)).

Definition suspects (r : DailyReport) : list (date * float * float * float * Z) :=
  take MAX_REPORTED
    (omap (λ s, match j_median (so_item s) with
                | Some m => let b := j_bar (so_item s) in
                            Some (h_day b, h_close b, m, py_round (away (h_close b) m) 4, j_neighbours (so_item s))
                | None => None
                end) (with_fate HeldSuspect (dl_sorted r))).

Section Daily.
Context `{NF : !NumericFloat} `{NO : !NumericOrder} `{JC : !JsonColumn} `{AO : !SqlAscending}.
Context (tehran : tzinfo) (repr : json → string) (iso_date : date → string) (date_of_iso : string → result pyerr date).
Context (isoformat : instant → string) (format_10g format_2f : float → string).

Definition tehran_today (now : instant) : date := date_of (to_wall tehran now).

Definition _read_register (db : HistoryDB) : list (string * json) := dict_of (hd_settings db !! REGISTER_KEY).

Definition _has_history_rows (db : HistoryDB) (symbol : string) : bool :=
  existsb (λ r, String.eqb (pr_source r) SOURCE) (rows_of_symbol db symbol).

(** What each source had on each day: the last of the day. *)
Definition _existing_by_day (db : HistoryDB) (symbol : string) (first last : date)
    : gmap date (gmap string float) :=
  foldl (λ out r, let day := date_of (pr_observed_at r) in
                  <[day := <[pr_source r := pr_value r]> (default ∅ (out !! day))]> out) ∅
    (oldest_first pr_observed_at
       (List.filter (λ r, (combine first 0 <=? pr_observed_at r) && (pr_observed_at r <? utc_day_end last))
          (rows_of_symbol db symbol))).

Definition _gap_fill_note (slug : string) (days : Z) (first last : string) : string :=
  (GAP_FILL_NOTE_MARKER ++ " On " ++ str_of_Z days ++ " UTC day(s) that held no observation from any source ("
   ++ first ++ " to " ++ last ++ "), the value is TGJU's published " ++ slug ++ " daily close (source '" ++ SOURCE
   ++ "', stamped 23:00 UTC), not a live quote. Days that already held an observation were left as they were.")%string.

Definition _write_gap_fill_note (db : HistoryDB) (symbol sentence : string) (now : instant) : HistoryDB * bool :=
  match hd_notes db !! symbol with
  | None => (db, false)
  | Some (old, _) =>
      ({| hd_prices := hd_prices db; hd_raw := hd_raw db; hd_settings := hd_settings db;
          hd_notes := <[symbol := (gap_filled_notes old sentence, now)]> (hd_notes db);
          hd_providers := hd_providers db |}, true)
  end.

(** ** The request *)

(** The page to judge, and why it is the whole table if it is. *)
Definition read_page (fetch : string → Z → result tgju_error HistoryPage) (db : HistoryDB) (symbol slug : string)
    : result daily_error (HistoryPage * option full_reason) :=
  let state := match jget symbol (_read_register db) with JObj items => Some items | _ => None end in
  let why := if negb (_has_history_rows db symbol) then Some NoRowYet
             else match state with
                  | None => Some NoFullPassYet
                  | Some items => if truthy (jget "full_pass_at" items) then None else Some NoFullPassYet
                  end in
  let ask n := match fetch slug n with Ok page => Ok page | Err e => Err (FetchFailed e) end in
  match why with
  | Some why => page ← ask MAX_HISTORY_ROWS; Ok (page, Some why)
  | None =>
      page ← ask RECENT_ROWS;
      match hp_bars page with
      | [] => Ok (page, None)
      | b :: bars =>
          let seen := jget "newest_bar_seen" (default [] state) in
          let oldest := foldl Z.min (h_day b) (h_day <$> bars) in
          if negb (truthy seen) then Ok (page, None)
          else
            match seen with
            | JStr text =>
                match date_of_iso text with
                | Err e => Err (MarkerRaised e)
                | Ok d =>
                    if d <? oldest then page ← ask MAX_HISTORY_ROWS; Ok (page, Some (RowsNeverRead oldest text))
                    else Ok (page, None)
                end
            | _ => Err (MarkerRaised TypeError)
            end
      end
  end.

(** ** The rows *)
Definition daily_payload (slug currency : string) (bar : HistoryRow) (value : float) : list (string * json) :=
  [("slug", JStr slug); ("kind", JStr "daily_close"); ("bar_date", JStr (iso_date (h_day bar)));
   ("jalali_date", JStr (jalali bar)); ("close_text", JStr (close_text bar));
   ("availability_utc", JStr (isoformat (close_stamp (h_day bar)))); ("normalization", JStr "rial_to_toman");
   ("normalized_value", JFloat value); ("normalized_currency", JStr currency)].

Definition suspect_payload (item : Judged) (median : float) : list (string * json) :=
  [("suspect_reason", JStr ("close is " ++ format_2f (away (h_close (j_bar item)) median)
      ++ "x away from the median of its " ++ str_of_Z (j_neighbours item)
      ++ " neighbouring closes; more than 1.6x")%string);
   ("neighbour_median_rial", JFloat median)].

Definition _raw_row (symbol : string) (bar : HistoryRow) (raw_unit_ raw_currency_ : string) (now : instant)
    (quality : string) (payload : list (string * json)) (dedupe_key : string) : RawRow :=
  {| raw_provider_code := PROVIDER_CODE; raw_symbol := symbol; raw_value := numeric (h_close bar);
     raw_unit := raw_unit_; raw_currency := raw_currency_; raw_payload := Some payload;
     raw_observed_at := close_stamp (h_day bar); raw_collected_at := now; raw_quality := quality;
     raw_dedupe_key := dedupe_key |}.

Definition daily_price (symbol currency unit_ : string) (now : instant) (s : Sorted) : PriceRow :=
  {| pr_symbol := symbol; pr_value := numeric (so_value s); pr_currency := currency; pr_unit := unit_;
     pr_source := SOURCE; pr_observed_at := close_stamp (h_day (j_bar (so_item s))); pr_collected_at := now;
     pr_quality := "ok" |}.

Definition daily_raw (symbol slug currency raw_unit_ raw_currency_ : string) (now : instant) (s : Sorted)
    : option RawRow :=
  let bar := j_bar (so_item s) in
  let key := history_dedupe_key iso_date symbol (h_day bar) in
  let payload := daily_payload slug currency bar (so_value s) in
  match so_fate s, j_median (so_item s) with
  | Written, _ => Some (_raw_row symbol bar raw_unit_ raw_currency_ now "ok" payload key)
  | HeldSuspect, Some m =>
      Some (_raw_row symbol bar raw_unit_ raw_currency_ now "suspect" (payload ++ suspect_payload (so_item s) m)
              (key ++ "|suspect|" ++ format_10g (h_close bar))%string)
  | _, _ => None
  end.

(** Every bar with its value and its fate. *)
Definition sort_bars (symbol slug : string) (now : instant) (existing : gmap date (gmap string float))
    (judged : list Judged) : result pyerr (list Sorted) :=
  traverse (λ item,
    value ← normalize_history_value slug (h_close (j_bar item));
    Ok {| so_item := item; so_value := value;
          so_fate := fate_of (assoc symbol GAP_FILL_FROM) now (tehran_today now)
                       (default ∅ (existing !! h_day (j_bar item))) item value |}) judged.

(** ** The register *)
Definition pass_entry (slug : string) (gap_fill full : bool) (now : instant) (last_day : date)
    (records : option Z) (entry : list (string * json)) : list (string * json) :=
  let old := jget "newest_bar_seen" entry in
  let seen := if truthy old then py_str repr old else EmptyString in
  let newest := if String.ltb (iso_date last_day) seen then seen else iso_date last_day in
  let entry := foldl (λ e kv, item_set kv.1 kv.2 e) entry
    [("slug", JStr slug); ("role", JStr (if gap_fill then "gap_fill" else "series"));
     ("last_pass_at", JStr (isoformat now)); ("last_mode", JStr (if full then "full" else "recent"));
     ("newest_bar_seen", JStr newest)] in
  if full then
    item_set "records_total" (match records with Some n => JInt n | None => JNull end)
      (item_set "full_pass_at" (JStr (isoformat now)) entry)
  else entry.

(** The [gap_fill] statistics with the days just written. *)
Definition gap_stats (entry : list (string * json)) (inserted : Z) (first last : string)
    : result pyerr (list (string * json) * Z * string * string) :=
  stats ← dict_or_empty (jget "gap_fill" entry);
  days ← (if has_key "days" stats then py_int_of (jget "days" stats) else Ok 0);
  first ← pick_text (λ old new, negb (String.ltb new old)) (jget "first" stats) first;
  last ← pick_text (λ old new, negb (String.ltb old new)) (jget "last" stats) last;
  let days := days + inserted in
  Ok (item_set "last" (JStr last) (item_set "first" (JStr first) (item_set "days" (JInt days) stats)), days, first, last).

Definition raised {A} (m : result pyerr A) : result exn A :=
  match m with Ok x => Ok x | Err e => Err (Raised e) end.

(** What a pass is to store. *)
Record DailyWork : Type := {
  dw_symbol : string;
  dw_slug : string;
  dw_gap_fill : bool;
  dw_full : option full_reason;
  dw_page : HistoryPage;
  dw_sorted : list Sorted;
  dw_last_day : date;
  dw_prices : list PriceRow;
  dw_raw : list RawRow;
}.

Definition written_days (l : list Sorted) : list date := (λ s, h_day (j_bar (so_item s))) <$> with_fate Written l.

(** The transaction. *)
Definition store_daily (db : HistoryDB) (w : DailyWork) (now : instant)
    : result exn (HistoryDB * Z * Z * option bool) :=
  p ← insert_prices (hd_prices db) (dw_prices w);
  r ← insert_raws (hd_raw db) (dw_raw w);
  let db := {| hd_prices := p.1; hd_raw := r.1; hd_settings := hd_settings db; hd_notes := hd_notes db;
               hd_providers := hd_providers db |} in
  let register := _read_register db in
  entry ← raised (dict_or_empty (jget (dw_symbol w) register));
  let full := match dw_full w with Some _ => true | None => false end in
  let entry := pass_entry (dw_slug w) (dw_gap_fill w) full now (dw_last_day w) (records_total (dw_page w)) entry in
  let days := written_days (dw_sorted w) in
  x ← (if dw_gap_fill w && negb (p.2 =? 0) then
         match days with
         | [] => Err (Raised ValueError)
         | d :: _ =>
             g ← raised (gap_stats entry p.2 (iso_date d) (iso_date (List.last days d)));
             let '(stats, n, first, last) := g in
             let '(db, noted) := _write_gap_fill_note db (dw_symbol w) (_gap_fill_note (dw_slug w) n first last) now in
             Ok (db, item_set "gap_fill" (JObj stats) entry, Some noted)
         end
       else Ok (db, entry, None));
  let '(db, entry, noted) := x in
  Ok ({| hd_prices := hd_prices db; hd_raw := hd_raw db;
         hd_settings := <[REGISTER_KEY := (JObj (item_set (dw_symbol w) (JObj entry) register), now)]> (hd_settings db);
         hd_notes := hd_notes db; hd_providers := hd_providers db |}, p.2, r.2, noted).

(** ** One symbol *)
Definition slug_of (symbol : string) : result pyerr (string * bool) :=
  match assoc symbol GAP_FILL_SLUGS with
  | Some slug => Ok (slug, true)
  | None => slug ← dict_get SERIES_SLUGS symbol; Ok (slug, false)
  end.

Definition blank_report (symbol slug : string) (gap_fill dry_run : bool) (status : dl_status) : DailyReport :=
  {| dl_symbol := symbol; dl_slug := slug; dl_gap_fill := gap_fill; dl_result := status; dl_dry_run := dry_run;
     dl_full := None; dl_fetched := 0; dl_records_total := None; dl_sorted := []; dl_would_insert := 0;
     dl_first_written := None; dl_last_written := None; dl_inserted := 0; dl_raw_inserted := 0;
     dl_note_updated := None |}.

(** The checks of the page; [inr] is what is to be stored. *)
Definition plan_daily (fetch : string → Z → result tgju_error HistoryPage) (db : HistoryDB)
    (symbol slug : string) (gap_fill : bool) (now : instant)
    : result exn ((dl_status * option (HistoryPage * option full_reason)) + DailyWork) :=
  m ← raised (dict_get SYMBOL_META symbol);
  let '(currency, unit_) := m in
  s ← raised (slug_meta slug);
  let '(_, raw_unit_, raw_currency_) := s in
  u ← raised (after_slash raw_unit_);
  if negb (String.eqb u unit_) then Ok (inl (DlRefused (UnitMismatch slug raw_unit_ unit_), None))
  else
    match read_page fetch db symbol slug with
    | Err e => Ok (inl (DlError e, None))
    | Ok (page, full) =>
        let refuse why := Ok (inl (DlRefused why, Some (page, full))) in
        match (match full with Some _ => _truncation_error page MAX_HISTORY_ROWS | None => None end) with
        | Some t => refuse (DailyTruncated t)
        | None =>
            match judge_bars (hp_bars page) with
            | [] => refuse (NoParseableBar slug)
            | (first :: _) as judged =>
                match _bar_date_error (hp_rows page) (bar_date_window now) with
                | Some b => refuse (DailyBadDates b)
                | None =>
                    let first_day := h_day (j_bar first) in
                    let last_day := h_day (j_bar (List.last judged first)) in
                    sorted ← raised (sort_bars symbol slug now (_existing_by_day db symbol first_day last_day) judged);
                    Ok (inr {| dw_symbol := symbol; dw_slug := slug; dw_gap_fill := gap_fill; dw_full := full;
                               dw_page := page; dw_sorted := sorted; dw_last_day := last_day;
                               dw_prices := daily_price symbol currency unit_ now <$> with_fate Written sorted;
                               dw_raw := somes (daily_raw symbol slug currency raw_unit_ raw_currency_ now <$> sorted) |})
                end
            end
        end
    end.

Definition ingest_symbol (fetch : string → Z → result tgju_error HistoryPage) (db : HistoryDB) (symbol : string)
    (dry_run : bool) (now : instant) : HistoryDB * result exn DailyReport :=
  match slug_of symbol with
  | Err e => (db, Err (Raised e))
  | Ok (slug, gap_fill) =>
      match plan_daily fetch db symbol slug gap_fill now with
      | Err e => (db, Err e)
      | Ok (inl (status, read)) =>
          (db, Ok {| dl_symbol := symbol; dl_slug := slug; dl_gap_fill := gap_fill; dl_result := status;
                     dl_dry_run := dry_run; dl_full := snd <$> read;
                     dl_fetched := match read with Some (p, _) => Z.of_nat (length (hp_bars p)) | None => 0 end;
                     dl_records_total := match read with Some (p, _) => records_total p | None => None end;
                     dl_sorted := []; dl_would_insert := 0; dl_first_written := None; dl_last_written := None;
                     dl_inserted := 0; dl_raw_inserted := 0; dl_note_updated := None |})
      | Ok (inr w) =>
          let days := written_days (dw_sorted w) in
          let report status inserted raw_inserted noted :=
            {| dl_symbol := symbol; dl_slug := slug; dl_gap_fill := gap_fill; dl_result := status;
               dl_dry_run := dry_run; dl_full := Some (dw_full w);
               dl_fetched := Z.of_nat (length (hp_bars (dw_page w))); dl_records_total := records_total (dw_page w);
               dl_sorted := dw_sorted w; dl_would_insert := Z.of_nat (length (dw_prices w));
               dl_first_written := head days; dl_last_written := last days; dl_inserted := inserted;
               dl_raw_inserted := raw_inserted; dl_note_updated := noted |} in
          if dry_run then (db, Ok (report DlDryRun 0 0 None))
          else
            match store_daily db w now with
            | Err e => (db, Err e)
            | Ok (db', inserted, raw_inserted, noted) => (db', Ok (report DlOk inserted raw_inserted noted))
            end
      end
  end.

(** ** A pass *)
Definition supported_symbols : list string := SERIES_SLUGS.*1 ++ GAP_FILL_SLUGS.*1.

Fixpoint ingest_symbols (fetch : string → Z → result tgju_error HistoryPage) (dry_run : bool) (now : instant)
    (db : HistoryDB) (symbols : list string) : HistoryDB * result exn (list DailyReport) :=
  match symbols with
  | [] => (db, Ok [])
  | s :: symbols =>
      match ingest_symbol fetch db s dry_run now with
      | (db, Err e) => (db, Err e)
      | (db, Ok r) =>
          match ingest_symbols fetch dry_run now db symbols with
          | (db, Ok rs) => (db, Ok (r :: rs))
          | out => out
          end
      end
  end.

Definition failed (r : DailyReport) : bool :=
  match dl_result r with DlRefused _ | DlError _ => true | _ => false end.

Definition _provider_disabled (db : HistoryDB) : bool :=
  match hd_providers db !! PROVIDER_CODE with Some false => true | _ => false end.

Inductive daily_outcome : Type :=
| DailyUnsupported (symbols : list (string * bool))
| DailyRaised (e : exn)
| DailyIngestFailed (reports : list DailyReport)
| DailyReported (skipped : bool) (reports : list DailyReport).

Definition slug_text (symbol : string) : string :=
  match slug_of symbol with Ok (slug, _) => slug | Err _ => EmptyString end.

Definition run_tgju_daily (fetch : string → Z → result tgju_error HistoryPage) (db : HistoryDB)
    (symbols : list string) (dry_run : bool) (now : instant) : HistoryDB * daily_outcome :=
  let requested := match symbols with [] => supported_symbols | _ => symbols end in
  match List.filter (λ s, negb (known SERIES_SLUGS s || known GAP_FILL_SLUGS s)) requested with
  | (_ :: _) as unknown => (db, DailyUnsupported ((λ s, (s, existsb (String.eqb s) REFUSED_SYMBOLS)) <$> unknown))
  | [] =>
      let ordered := distinct_symbols ∅ requested in
      if _provider_disabled db then
        (db, DailyReported true
               ((λ s, blank_report s (slug_text s) (known GAP_FILL_SLUGS s) dry_run DlSkipped) <$> ordered))
      else
        match ingest_symbols fetch dry_run now db ordered with
        | (db, Err e) => (db, DailyRaised e)
        | (db, Ok reports) =>
            (db, if forallb failed reports then match reports with [] => DailyReported false [] | _ => DailyIngestFailed reports end
                 else DailyReported false reports)
        end
  end.
End Daily.

(** ** The rule, bar by bar *)
Section RuleFacts.

Lemma fate_written gap_from now today on_day item value :
  fate_of gap_from now today on_day item value = Written ↔
  h_day (j_bar item) < today ∧ close_stamp (h_day (j_bar item)) ≤ now ∧ j_verdict item = v_ok ∧ on_day = ∅ ∧
  ∀ from, gap_from = Some from → from ≤ h_day (j_bar item) ∧ utc_day_end (h_day (j_bar item)) ≤ now.
Proof.
  unfold fate_of. cbv zeta. set (day := h_day (j_bar item)). split.
  2: { intros (Hd&Hs&->&->&Hgap). rewrite (proj2 (Z.leb_gt today day) Hd), (proj2 (Z.ltb_ge now _) Hs), lookup_empty. simpl.
       destruct gap_from as [from|]; simpl; [|done]. destruct (Hgap from eq_refl) as [H1 H2].
       by rewrite (proj2 (Z.ltb_ge now _) H2), (proj2 (Z.ltb_ge day from) H1). }
  destruct (Z.leb_spec today day), (Z.ltb_spec now (close_stamp day)); try done. simpl.
  destruct (match on_day !! SOURCE with Some old => _same_value old value | None => false end) eqn:Hsame.
  { by destruct gap_from as [from|]; simpl; destruct (now <? utc_day_end day). }
  assert ((match j_verdict item with
           | v_suspect => HeldSuspect | v_unjudged => HeldUnjudged
           | v_ok => match on_day !! SOURCE with
                     | Some old => Restated old
                     | None => if bool_decide (on_day = ∅) then Written else OtherSource
                     end
           end) = Written → j_verdict item = v_ok ∧ on_day = ∅) as Hlast.
  { destruct (j_verdict item); [|done..]. destruct (on_day !! SOURCE); [done|]. by case_bool_decide. }
  destruct gap_from as [from|]; simpl.
  - destruct (Z.ltb_spec now (utc_day_end day)); [done|].
    case_bool_decide as He; simpl; [destruct (Z.ltb_spec day from); [done|]|].
    + intros [Hv _]%Hlast. split_and!; [lia|lia|done|done|]. intros from' [= <-]. lia.
    + intros [_ ?]%Hlast. done.
  - intros [Hv He]%Hlast. split_and!; [lia|lia|done|done|done].
Qed.

(** The bars beside one in the order of the days: seven before it and seven after it, fewer
    only where the table begins or ends, and never the bar itself. *)
Definition beside (bars : list HistoryRow) (bar : HistoryRow) (around : list HistoryRow) : Prop :=
  ∃ older before after newer,
    sort_by h_day bars = older ++ before ++ bar :: after ++ newer ∧ around = before ++ after ∧
    (length before = 7%nat ∨ (older = [] ∧ (length before < 7)%nat)) ∧
    (length after = 7%nat ∨ (newer = [] ∧ (length after < 7)%nat)).

(** The close is at most 1.6 times the median of the closes beside it, and at least that
    median over 1.6; there are four of them at least. *)
Definition agrees_with_neighbours (bars : list HistoryRow) (bar : HistoryRow) : Prop :=
  ∃ around m, beside bars bar around ∧ (4 ≤ length around)%nat ∧ median (h_close <$> around) = Some m ∧
    fle m fzero = false ∧
    fgt (fmax (fdiv_ieee (h_close bar) m) (fdiv_ieee m (h_close bar))) (flit 16 1) = false.

Lemma beside_around bars bar around :
  beside bars bar around ↔
  ∃ i, sort_by h_day bars !! i = Some bar ∧
    around = drop (i - 7) (take i (sort_by h_day bars)) ++ take 7 (drop (i + 1) (sort_by h_day bars)).
Proof.
  unfold beside. set (l := sort_by h_day bars). split.
  - intros (older&before&after&newer&Hl&->&Hb&Ha). exists (length older + length before)%nat.
    assert (l = (older ++ before) ++ bar :: after ++ newer) as -> by (by rewrite <-app_assoc).
    rewrite <-length_app. split; [by apply list_lookup_middle|].
    rewrite take_app_length, <-drop_drop, drop_app_length. simpl. rewrite length_app. f_equal.
    + destruct Hb as [Hb|[-> Hb]].
      * rewrite Hb. replace (length older + 7 - 7)%nat with (length older) by lia. by rewrite drop_app_length.
      * simpl. by replace (length before - 7)%nat with 0%nat by lia.
    + rewrite drop_0. destruct Ha as [Ha|[-> Ha]].
      * by rewrite <-Ha, take_app_length.
      * rewrite app_nil_r. symmetry. apply take_ge. lia.
  - intros (i&Hi&->). assert (i < length l)%nat as Hlt by (by apply lookup_lt_Some in Hi).
    exists (take (i - 7) l), (drop (i - 7) (take i l)), (take 7 (drop (i + 1) l)), (drop 7 (drop (i + 1) l)).
    split_and!; [|done| |].
    + rewrite (take_drop 7), app_assoc. replace (take (i - 7) l) with (take (i - 7) (take i l)) by (rewrite take_take; f_equal; lia).
      rewrite take_drop, Nat.add_1_r. symmetry. by apply take_drop_middle.
    + rewrite length_drop, length_take. destruct (decide (7 ≤ i)%nat); [left; lia|right].
      replace (i - 7)%nat with 0%nat by lia. split; [done|lia].
    + rewrite length_take, length_drop. destruct (decide (7 ≤ length l - (i + 1))%nat); [left; lia|right].
      rewrite drop_ge by (rewrite length_drop; lia). split; [done|lia].
Qed.

Lemma judged_elem bars bar v :
  (∃ item, item ∈ judge_bars bars ∧ j_bar item = bar ∧ j_verdict item = v) ↔
  ∃ i, sort_by h_day bars !! i = Some bar ∧ j_verdict (judge_bar (h_close <$> sort_by h_day bars) i bar) = v.
Proof.
  assert (∀ cs i b, j_bar (judge_bar cs i b) = b) as Hbar by (intros; unfold judge_bar; by repeat case_match).
  unfold judge_bars. cbv zeta. set (l := sort_by h_day bars). split.
  - intros (item&(i&Hi)%list_elem_of_lookup&<-&<-). rewrite list_lookup_imap in Hi.
    destruct (l !! i) as [b|] eqn:Hb; simpl in Hi; [|done]. injection Hi as <-. exists i. by rewrite Hbar.
  - intros (i&Hi&Hv). exists (judge_bar (h_close <$> l) i bar). rewrite Hbar. split_and!; [|done..].
    apply (list_elem_of_lookup_2 _ i). by rewrite list_lookup_imap, Hi.
Qed.

Lemma judge_bars_in bars item : item ∈ judge_bars bars → j_bar item ∈ bars.
Proof.
  intros Hin. destruct (proj1 (judged_elem bars (j_bar item) (j_verdict item))) as (i&Hi&_); [by exists item|].
  apply list_elem_of_lookup_2 in Hi. unfold sort_by in Hi. by rewrite py_sorted_perm in Hi.
Qed.

(** The bars judged sound are those that agree with the bars beside them. *)
Lemma judge_bars_ok bars bar :
  (∃ item, item ∈ judge_bars bars ∧ j_bar item = bar ∧ j_verdict item = v_ok) ↔ agrees_with_neighbours bars bar.
Proof.
  rewrite judged_elem. set (l := sort_by h_day bars).
  assert (∀ i, closes_around (h_close <$> l) i = h_close <$> drop (i - 7) (take i l) ++ take 7 (drop (i + 1) l)) as Har.
  { intros i. unfold closes_around. change NEIGHBOURS_EACH_SIDE with 7%nat.
    by rewrite fmap_app, !fmap_drop, !fmap_take, !fmap_drop. }
  split.
  - intros (i&Hi&Hv). unfold judge_bar, away in Hv. rewrite Har in Hv.
    destruct (Nat.ltb_spec (length (h_close <$> drop (i - 7) (take i l) ++ take 7 (drop (i + 1) l))) MIN_JUDGED_NEIGHBOURS)
      as [Hlt|Hge]; [done|].
    destruct (median _) as [m|] eqn:Hm; [|done]. destruct (fle m fzero) eqn:Hz; [done|]. simpl in Hv.
    destruct (fgt _ _) eqn:Hf in Hv; [done|].
    exists (drop (i - 7) (take i l) ++ take 7 (drop (i + 1) l)), m. rewrite length_fmap in Hge.
    split_and!; [apply beside_around; by exists i|exact Hge|done..].
  - intros (around&m&(i&Hi&->)%beside_around&Hge&Hm&Hz&Hf). fold l in Hi, Hge, Hm. exists i. split; [done|].
    unfold judge_bar, away. change MIN_JUDGED_NEIGHBOURS with 4%nat. rewrite Har, length_fmap, (proj2 (Nat.ltb_ge _ _) Hge), Hm, Hz. simpl.
    change SUSPECT_RATIO with (flit 16 1). by rewrite Hf.
Qed.

Lemma imap_judged_ascending (f : nat → HistoryRow → Judged) l :
  (∀ i b, j_bar (f i b) = b) → ascending h_day l → ascending (λ i, h_day (j_bar i)) (imap f l).
Proof.
  intros Hf Ho. revert f Hf. induction Ho as [|b l Hl IH Hb]; intros f Hf; [constructor|]. simpl.
  constructor; [by apply IH; intros i b'; apply Hf|]. rewrite Forall_forall in Hb. apply Forall_forall.
  intros x (i&Hx)%list_elem_of_lookup. rewrite list_lookup_imap in Hx.
  destruct (l !! i) as [y|] eqn:Hy; simpl in Hx; [|done]. injection Hx as <-. rewrite !Hf. apply Hb.
  by eapply list_elem_of_lookup_2.
Qed.

Lemma judged_span bars first rest item :
  judge_bars bars = first :: rest → item ∈ judge_bars bars →
  h_day (j_bar first) ≤ h_day (j_bar item) ≤ h_day (j_bar (List.last (first :: rest) first)).
Proof.
  assert (ascending (λ i, h_day (j_bar i)) (judge_bars bars)) as Hs.
  { apply imap_judged_ascending; [|apply sort_by_ascending]. intros i b. unfold judge_bar. by repeat case_match. }
  intros He Hin. rewrite He in Hs, Hin. apply StronglySorted_inv in Hs as Hs'. destruct Hs' as [_ Hall].
  rewrite Forall_forall in Hall. rewrite last_cons_default. split.
  - apply elem_of_cons in Hin as [->|Hin]; [lia|by apply Hall].
  - by apply (ascending_last_ge (λ i, h_day (j_bar i)) first rest).
Qed.
End RuleFacts.

(** ** One symbol *)
Section DailyFacts.
Context `{NF : !NumericFloat} `{NO : !NumericOrder} `{JC : !JsonColumn} `{AO : !SqlAscending}.
Context {AL : SqlAscendingLaws AO}.

Lemma day_of_instant t d : date_of t = d ↔ combine d 0 ≤ t < utc_day_end d.
Proof.
  unfold date_of, utc_day_end, combine. pose proof (Z.div_mod t us_day ltac:(done)) as Hd.
  pose proof (Z.mod_pos_bound t us_day ltac:(done)) as Hm. change us_day with 86400000000 in *. lia.
Qed.

(** No source has a value on a day of the span exactly when nothing was observed on it. *)
Lemma existing_empty db symbol first last d :
  first ≤ d ≤ last → default ∅ (_existing_by_day db symbol first last !! d) = ∅ ↔
  ∀ r, r ∈ hd_prices db → pr_symbol r = symbol → date_of (pr_observed_at r) ≠ d.
Proof.
  intros Hd. unfold _existing_by_day. set (l := oldest_first _ _).
  assert (∀ r, r ∈ l ∧ date_of (pr_observed_at r) = d ↔
               (r ∈ hd_prices db ∧ pr_symbol r = symbol) ∧ date_of (pr_observed_at r) = d) as Hl.
  { intros r. unfold l. rewrite oldest_first_perm, elem_of_bool_filter, rows_of_symbol_elem, andb_true_iff, Z.leb_le, Z.ltb_lt.
    split; [tauto|]. intros [Hr Ht]. pose proof Ht as Ht'. apply day_of_instant in Ht'. unfold utc_day_end, combine in *.
    unfold us_day, us_hour, us_minute, us_second in *. split_and!; [tauto|tauto|lia|lia|done]. }
  clearbody l. set (step := λ (out : gmap date (gmap string float)) r, let day := date_of (pr_observed_at r) in
       <[day := <[pr_source r := pr_value r]> (default ∅ (out !! day))]> out).
  assert (∀ out, default ∅ (foldl step out l !! d) = ∅ ↔
    default ∅ (out !! d) = ∅ ∧ ∀ r, r ∈ l → date_of (pr_observed_at r) ≠ d) as Hgen.
  { clear Hl. induction l as [|x l IH]; intros out; simpl.
    - split; [|tauto]. intros ?. split; [done|]. by intros r ?%elem_of_nil.
    - rewrite IH. unfold step at 1. cbv zeta. destruct (decide (date_of (pr_observed_at x) = d)) as [Hx|Hx].
      + rewrite Hx, lookup_insert_eq. simpl. split; [intros [He _]; by destruct (insert_non_empty _ _ _ He)|].
        intros [_ Hno]. by destruct (Hno x (list_elem_of_here _ _)).
      + rewrite lookup_insert_ne by done. split; intros [H1 H2]; (split; [done|]); intros r.
        * intros [->|Hr]%elem_of_cons; [done|by apply H2].
        * intros Hr. apply H2. by right. }
  rewrite Hgen, lookup_empty. split.
  - intros [_ Hno] r Hr Hs Ht. destruct (proj2 (Hl r)) as [Hin _]; [by split|]. by apply (Hno r Hin).
  - intros Hno. split; [done|]. intros r Hr Ht. destruct (proj1 (Hl r) (conj Hr Ht)) as [[? ?] _]. by apply (Hno r).
Qed.

(** A close a pass may write. *)
Record may_write (tehran : tzinfo) (db : HistoryDB) (symbol : string) (now : instant) (page : HistoryPage)
    (bar : HistoryRow) : Prop := {
  mw_published : bar ∈ hp_bars page;
  mw_over : h_day bar < tehran_today tehran now ∧ combine (h_day bar) (23 * us_hour) ≤ now;
  mw_alone r : r ∈ hd_prices db → pr_symbol r = symbol → date_of (pr_observed_at r) ≠ h_day bar;
  mw_judged : agrees_with_neighbours (hp_bars page) bar;
  mw_gap from : assoc symbol GAP_FILL_FROM = Some from → from ≤ h_day bar ∧ utc_day_end (h_day bar) ≤ now;
}.

Lemma daily_slugs symbol slug gap :
  slug_of symbol = Ok (slug, gap) →
  (∀ x, normalize_history_value slug x = Ok (rial_to_toman x)) ∧ ∃ cur unit_, assoc symbol SYMBOL_META = Some (cur, unit_).
Proof.
  unfold slug_of, dict_get. destruct (assoc symbol GAP_FILL_SLUGS) as [s|] eqn:Hg.
  - intros [= -> _]. apply assoc_elem in Hg as [[= -> ->]|Hn%elem_of_nil]%elem_of_cons; [|done].
    split; [done|by eexists _, _].
  - destruct (assoc symbol SERIES_SLUGS) as [s|] eqn:Hs; simpl; [|done]. intros [= -> _]. apply assoc_elem in Hs.
    repeat (apply elem_of_cons in Hs as [[= -> ->]|Hs]; [split; [done|by eexists _, _]|]). by apply elem_of_nil in Hs.
Qed.

(** The rows of a pass: one for each bar it may write. *)
Lemma plan_daily_prices tehran iso diso isof f10 f2 fetch db symbol slug gap now w :
  slug_of symbol = Ok (slug, gap) →
  plan_daily tehran iso diso isof f10 f2 fetch db symbol slug gap now = Ok (inr w) →
  ∃ cur unit_, assoc symbol SYMBOL_META = Some (cur, unit_) ∧ dw_symbol w = symbol ∧
    read_page diso fetch db symbol slug = Ok (dw_page w, dw_full w) ∧
    (∀ r, r ∈ dw_prices w → ∃ s, r = daily_price symbol cur unit_ now s ∧
      so_value s = rial_to_toman (h_close (j_bar (so_item s))) ∧
      may_write tehran db symbol now (dw_page w) (j_bar (so_item s))) ∧
    ∀ bar, may_write tehran db symbol now (dw_page w) bar →
      ∃ r, r ∈ dw_prices w ∧ price_key r = (symbol, close_stamp (h_day bar), SOURCE).
Proof.
  intros Hslug. destruct (daily_slugs _ _ _ Hslug) as (Hnorm&cur&unit_&Hm). unfold plan_daily, dict_get. rewrite Hm.
  cbn [raised]. intros H. apply bind_Ok in H as ([c' u']&[= <- <-]&H).
  apply bind_Ok in H as ([[sy ru] rc]&_&H). apply bind_Ok in H as (u&_&H).
  destruct (negb _); [done|]. destruct (read_page _ _ _ _ _) as [[page full]|] eqn:Hread; [|done].
  destruct (match full with Some _ => _ | None => None end); [done|].
  destruct (judge_bars (hp_bars page)) as [|first rest] eqn:Hj; [done|].
  destruct (_bar_date_error _ _); [done|]. apply bind_Ok in H as (sorted&Hs&[= <-]). simpl.
  unfold raised in Hs. destruct (sort_bars _ _ _ _ _ _) as [sorted'|] eqn:Hsort; [|done].
  injection Hs as ->. unfold sort_bars in Hsort. apply traverse_Ok in Hsort. rewrite <-Hj in Hsort.
  exists cur, unit_. do 3 (split; [done|]). split.
  - intros r (s&->&[Hs' Hw]%elem_of_bool_filter)%list_elem_of_fmap. exists s. split; [done|].
    destruct (Forall2_elem_r _ _ _ _ Hsort Hs') as (item&Hitem&Hsome). rewrite Hnorm in Hsome. simpl in Hsome.
    injection Hsome as <-. simpl in *. split; [done|]. unfold is_fate in Hw. simpl in Hw.
    destruct (fate_of _ _ _ _ _ _) eqn:Hf; try done. apply fate_written in Hf as (H1&H2&Hv&Hempty&Hgap).
    pose proof (judged_span _ _ _ _ Hj Hitem) as Hspan.
    split; [by apply judge_bars_in|done| |apply judge_bars_ok; by exists item|done].
    rewrite Hj in Hempty. by apply (existing_empty db symbol _ _ _ Hspan).
  - intros bar [_ [H1 H2] Halone (item&Hitem&<-&Hv)%judge_bars_ok Hgap].
    destruct (Forall2_elem_l _ _ _ _ Hsort Hitem) as (s&Hs&Hsome). rewrite Hnorm in Hsome. simpl in Hsome.
    exists (daily_price symbol cur unit_ now s). injection Hsome as <-. split; [|done].
    apply list_elem_of_fmap_2, elem_of_bool_filter. split; [done|]. unfold is_fate. simpl.
    pose proof (judged_span _ _ _ _ Hj Hitem) as Hspan. rewrite <-Hj in Hspan.
    rewrite (proj2 (fate_written _ _ _ _ _ _)); [done|]. split_and!; [done..| |done].
    by apply existing_empty.
Qed.

Lemma store_daily_spec repr iso isof db w now db' n m noted :
  store_daily repr iso isof db w now = Ok (db', n, m, noted) →
  insert_prices (hd_prices db) (dw_prices w) = Ok (hd_prices db', n) ∧
  insert_raws (hd_raw db) (dw_raw w) = Ok (hd_raw db', m) ∧
  (∀ k, k ≠ REGISTER_KEY → hd_settings db' !! k = hd_settings db !! k) ∧
  (∀ s, s ≠ dw_symbol w → hd_notes db' !! s = hd_notes db !! s) ∧ hd_providers db' = hd_providers db.
Proof.
  unfold store_daily. intros H. apply bind_Ok in H as ([p np]&Hp&H). apply bind_Ok in H as ([r nr]&Hr&H).
  cbn [fst snd] in H. apply bind_Ok in H as (entry&_&H). cbn [hd_settings] in H.
  apply bind_Ok in H as ([[db1 e] nt]&Hx&[= <- <- <- _]). cbn [hd_prices hd_raw hd_settings hd_notes hd_providers].
  assert (hd_prices db1 = p ∧ hd_raw db1 = r ∧ hd_settings db1 = hd_settings db ∧
          (∀ s, s ≠ dw_symbol w → hd_notes db1 !! s = hd_notes db !! s) ∧ hd_providers db1 = hd_providers db)
    as (->&->&Hset&Hn&Hv).
  { destruct (dw_gap_fill w && _); [|by injection Hx as <- _ _]. destruct (written_days _); [done|].
    apply bind_Ok in Hx as ([[[st k] a] b]&_&Hx). unfold _write_gap_fill_note in Hx. cbn [hd_notes] in Hx.
    destruct (hd_notes db !! dw_symbol w) as [[old at_]|]; injection Hx as <- _ _; [|done].
    cbn [hd_prices hd_raw hd_settings hd_notes hd_providers]. split_and!; try done.
    intros s Hs. by apply lookup_insert_ne. }
  split_and!; try done. intros k Hk. by rewrite lookup_insert_ne, Hset.
Qed.

Lemma daily_cases tehran repr iso diso isof f10 f2 fetch db symbol dry now db' out :
  ingest_symbol tehran repr iso diso isof f10 f2 fetch db symbol dry now = (db', out) →
  (db' = db ∧ ∀ rep, out = Ok rep → dl_result rep ≠ DlOk) ∨
  ∃ rep slug gap w n m noted, out = Ok rep ∧ dl_result rep = DlOk ∧ dry = false ∧ slug_of symbol = Ok (slug, gap) ∧
    dl_slug rep = slug ∧ dl_full rep = Some (dw_full w) ∧ dl_inserted rep = n ∧
    plan_daily tehran iso diso isof f10 f2 fetch db symbol slug gap now = Ok (inr w) ∧
    store_daily repr iso isof db w now = Ok (db', n, m, noted).
Proof.
  unfold ingest_symbol. destruct (slug_of symbol) as [[slug gap]|e] eqn:Hslug; [|intros [= <- <-]; by left].
  destruct (plan_daily _ _ _ _ _ _ _ _ _ _ _ _) as [[[status read]|w]|e] eqn:Hplan; [| |intros [= <- <-]; by left].
  - intros [= <- <-]. left. split; [done|]. intros rep [= <-]. simpl. intros ->.
    revert Hplan. unfold plan_daily. intros H. apply bind_Ok in H as ([c u]&_&H).
    apply bind_Ok in H as ([[sy ru] rc]&_&H). apply bind_Ok in H as (v&_&H).
    destruct (negb _); [done|]. destruct (read_page _ _ _ _ _) as [[page full]|]; [|done].
    destruct (match full with Some _ => _ | None => None end); [done|].
    destruct (judge_bars _); [done|]. destruct (_bar_date_error _ _); [done|]. by apply bind_Ok in H as (sorted&_&H).
  - destruct dry; [intros [= <- <-]; left; split; [done|by intros rep [= <-]]|].
    destruct (store_daily _ _ _ _ _ _) as [[[[db1 n] m] noted]|e] eqn:Hs; [|intros [= <- <-]; by left].
    intros [= <- <-]. right. by eexists _, slug, gap, w, n, m, noted.
Qed.

(** The table after a pass: the closes it may write, each once, as the rows they are stored
    as, and nothing else. *)
Record closes_filed (tehran : tzinfo) (db : HistoryDB) (symbol : string) (now : instant) (page : HistoryPage)
    (inserted : Z) (db' : HistoryDB) : Prop := {
  cf_rows : ∃ currency unit_ rows, assoc symbol SYMBOL_META = Some (currency, unit_)
    ∧ hd_prices db' = hd_prices db ++ rows ∧ inserted = Z.of_nat (length rows)
    ∧ ∀ r, r ∈ rows → ∃ bar, may_write tehran db symbol now page bar
                             ∧ filed_as symbol currency unit_ now (h_day bar, h_close bar) r;
  cf_all bar : may_write tehran db symbol now page bar →
    ∃ r, r ∈ hd_prices db' ∧ pr_symbol r = symbol ∧ pr_observed_at r = combine (h_day bar) (23 * us_hour);
}.

Lemma daily_price_filed symbol cur unit_ now s :
  so_value s = rial_to_toman (h_close (j_bar (so_item s))) →
  filed_as symbol cur unit_ now (h_day (j_bar (so_item s)), h_close (j_bar (so_item s))) (daily_price symbol cur unit_ now s).
Proof.
  intros Hv. split; simpl; try done; [by rewrite Hv|]. rewrite close_stamp_day. split; [done|].
  unfold time_of, close_stamp, combine. rewrite Z.add_comm, Z.mod_add by done. by apply Z.mod_small.
Qed.

(** C30. A pass over a symbol either changes no table, or it succeeded and appended to the
    prices exactly the closes it may write, the stored value a tenth of the rials, stamped
    23:00 UTC of its day.  Those are the bars the table published whose day is over in Tehran
    and whose stamp has passed, on whose day nothing of the symbol was observed from any
    source, and which stand within the ratio 1.6 of the median of the closes of the seven bars
    on each side, four at least, the bar itself left out; where the symbol is collected live,
    only from the first day of its window and after the day ended everywhere. *)
Theorem daily_exact tehran repr iso diso isof f10 f2 fetch db symbol dry now db' out :
  ingest_symbol tehran repr iso diso isof f10 f2 fetch db symbol dry now = (db', out) →
  (db' = db ∧ ∀ rep, out = Ok rep → dl_result rep ≠ DlOk) ∨
  ∃ rep slug page full, out = Ok rep ∧ dl_result rep = DlOk ∧ dry = false ∧
    read_page diso fetch db symbol slug = Ok (page, full) ∧
    closes_filed tehran db symbol now page (dl_inserted rep) db'.
Proof.
  intros [?|(rep&slug&gap&w&n&m&noted&->&Hok&Hd&Hslug&_&_&<-&Hplan&Hstore)]%daily_cases; [by left|right].
  apply plan_daily_prices in Hplan as (cur&unit_&Hm&_&Hread&Hrows&Hall); [|done].
  apply store_daily_spec in Hstore as (Hp&_). pose proof (insert_prices_holds _ _ _ _ Hp) as Hholds.
  apply insert_prices_grows in Hp as (new&Hnew&Hn&Hfrom).
  exists rep, slug, (dw_page w), (dw_full w). do 4 (split; [done|]). split.
  - exists cur, unit_, new. do 3 (split; [done|]). intros r [Hr _]%Hfrom.
    destruct (Hrows r Hr) as (s&->&Hv&Hmay). exists (j_bar (so_item s)). split; [done|by apply daily_price_filed].
  - intros bar (r&Hr&Hk)%Hall. specialize (Hholds r Hr). rewrite Hk in Hholds.
    apply list_elem_of_fmap in Hholds as (r'&Hk'&Hr'). exists r'. injection Hk' as Hs Ht _. by split_and!.
Qed.

(** A pass that stores from the newest rows alone left no row unread: an earlier pass read
    the whole table, and these rows reach back to the newest bar it had seen. *)
Theorem daily_no_hole tehran repr iso diso isof f10 f2 fetch db symbol dry now db' rep :
  ingest_symbol tehran repr iso diso isof f10 f2 fetch db symbol dry now = (db', Ok rep) →
  dl_result rep = DlOk → dl_full rep = Some None →
  ∃ state page, jget symbol (_read_register db) = JObj state ∧ truthy (jget "full_pass_at" state) = true ∧
    fetch (dl_slug rep) RECENT_ROWS = Ok page ∧
    (truthy (jget "newest_bar_seen" state) = true →
     ∃ text seen, jget "newest_bar_seen" state = JStr text ∧ diso text = Ok seen ∧
       ∃ b, b ∈ hp_bars page ∧ h_day b ≤ seen).
Proof.
  intros H Hok Hfull. apply daily_cases in H as [[_ H]|(rep'&slug&gap&w&n&m&noted&[= <-]&_&_&Hslug&->&Hf&_&Hplan&_)].
  { by destruct (H rep eq_refl). }
  rewrite Hf in Hfull. injection Hfull as Hfull.
  assert (judge_bars (hp_bars (dw_page w)) ≠ [] ∧ read_page diso fetch db symbol slug = Ok (dw_page w, None)) as [Hne Hread].
  { revert Hplan. unfold plan_daily. intros Hplan. apply bind_Ok in Hplan as ([c u]&_&Hplan).
    apply bind_Ok in Hplan as ([[sy ru] rc]&_&Hplan). apply bind_Ok in Hplan as (v&_&Hplan).
    destruct (negb _); [done|]. destruct (read_page _ _ _ _ _) as [[page full]|]; [|done].
    destruct (match full with Some _ => _ | None => None end); [done|].
    destruct (judge_bars _) eqn:Hj; [done|]. destruct (_bar_date_error _ _); [done|].
    apply bind_Ok in Hplan as (sorted&_&[= <-]). simpl in *. by rewrite Hj, Hfull. }
  clear Hplan Hf. unfold read_page in Hread.
  destruct (_has_history_rows db symbol); simpl in Hread.
  2: { by apply bind_Ok in Hread as (?&_&[=]). }
  destruct (jget symbol (_read_register db)) as [| | | | | |state];
    try (by apply bind_Ok in Hread as (?&_&[=])).
  destruct (truthy (jget "full_pass_at" state)) eqn:Hpass; [|by apply bind_Ok in Hread as (?&_&[=])].
  apply bind_Ok in Hread as (page&Hask&Hread). simpl in Hread.
  destruct (fetch slug RECENT_ROWS) as [page'|] eqn:Hfetch; [|done]. injection Hask as ->.
  exists state, page. split_and!; [done..|]. intros Htruthy. rewrite Htruthy in Hread. simpl in Hread.
  destruct (hp_bars page) as [|b bars] eqn:Hbars.
  { injection Hread as Hpage. rewrite <-Hpage, Hbars in Hne. done. }
  destruct (jget "newest_bar_seen" state) as [| | | |text| |]; try done. exists text.
  destruct (diso text) as [seen|]; [|done]. exists seen. split_and!; [done..|].
  destruct (Z.ltb_spec seen (foldl Z.min (h_day b) (h_day <$> bars))); [by apply bind_Ok in Hread as (?&_&[=])|].
  pose proof (foldl_pick Z.min (h_day <$> bars) (h_day b) ltac:(lia)) as Hin.
  apply elem_of_cons in Hin as [He|(b'&He&Hb')%list_elem_of_fmap].
  - exists b. split; [by left|lia].
  - exists b'. split; [by right|lia].
Qed.

(** ** A run *)
Record daily_leaves (db : HistoryDB) (symbols : list string) (db' : HistoryDB) : Prop := {
  dv_tables : tables_ok (hd_raw db) (hd_prices db) → tables_ok (hd_raw db') (hd_prices db');
  dv_prices : hd_prices db `prefix_of` hd_prices db';
  dv_raw : hd_raw db `prefix_of` hd_raw db';
  dv_new r : r ∈ hd_prices db' → r ∈ hd_prices db ∨
    (pr_symbol r ∈ symbols ∧ pr_source r = SOURCE ∧
     ∀ r0, r0 ∈ hd_prices db → pr_symbol r0 = pr_symbol r → date_of (pr_observed_at r0) ≠ date_of (pr_observed_at r));
  dv_settings k : k ≠ REGISTER_KEY → hd_settings db' !! k = hd_settings db !! k;
  dv_notes s : s ∉ symbols → hd_notes db' !! s = hd_notes db !! s;
  dv_providers : hd_providers db' = hd_providers db;
}.

Lemma daily_leaves_refl db symbols : daily_leaves db symbols db.
Proof. split; try done. by left. Qed.

Lemma daily_leaves_trans db s1 db1 s2 db2 :
  daily_leaves db s1 db1 → daily_leaves db1 s2 db2 → daily_leaves db (s1 ++ s2) db2.
Proof.
  intros [T1 P1 R1 N1 S1 M1 V1] [T2 P2 R2 N2 S2 M2 V2]. split; [by auto|by etrans|by etrans| | | |congruence].
  - intros r [Hr|(Hs&Hsrc&Hlt)]%N2.
    + destruct (N1 r Hr) as [?|(?&?&?)]; [by left|right]. split_and!; [|done..]. apply elem_of_app. by left.
    + right. split_and!; [apply elem_of_app; by right|done|]. intros r0 Hr0. apply Hlt.
      destruct P1 as [k ->]. apply elem_of_app. by left.
  - intros k Hk. by rewrite S2, S1.
  - intros s Hs. rewrite elem_of_app in Hs. rewrite M2, M1; naive_solver.
Qed.

Lemma ingest_symbol_leaves tehran repr iso diso isof f10 f2 fetch db symbol dry now db' out :
  ingest_symbol tehran repr iso diso isof f10 f2 fetch db symbol dry now = (db', out) → daily_leaves db [symbol] db'.
Proof.
  intros [[-> _]|(rep&slug&gap&w&n&m&noted&_&_&_&Hslug&_&_&_&Hplan&Hstore)]%daily_cases; [apply daily_leaves_refl|].
  apply plan_daily_prices in Hplan as (cur&unit_&_&Hsym&_&Hrows&_); [|done].
  apply store_daily_spec in Hstore as (Hp&Hr&Hset&Hnotes&Hv). split; try done.
  - intros Hok. eapply insert_prices_ok; [|exact Hp]. by eapply insert_raws_ok.
  - apply insert_prices_grows in Hp as (new&->&_). by eexists.
  - by apply insert_raws_spec in Hr as (?&_).
  - apply insert_prices_grows in Hp as (new&->&_&Hfrom). intros r [?|Hin]%elem_of_app; [by left|right].
    destruct (Hrows r (proj1 (Hfrom r Hin))) as (s&->&_&Hw). simpl. split_and!; [by left|done|].
    intros r0 Hr0 Hs0. rewrite close_stamp_day. by apply (mw_alone _ _ _ _ _ _ Hw).
  - intros s Hs. apply Hnotes. rewrite Hsym. intros ->. apply Hs. by left.
Qed.

Lemma ingest_symbols_leave tehran repr iso diso isof f10 f2 fetch dry now symbols db db' out :
  ingest_symbols tehran repr iso diso isof f10 f2 fetch dry now db symbols = (db', out) → daily_leaves db symbols db'.
Proof.
  revert db db' out. induction symbols as [|s symbols IH]; intros db db' out; simpl.
  { intros [= <- <-]. apply daily_leaves_refl. }
  destruct (ingest_symbol _ _ _ _ _ _ _ _ _ _ _ _) as [db1 [r|e]] eqn:H1; apply ingest_symbol_leaves in H1.
  - destruct (ingest_symbols _ _ _ _ _ _ _ _ _ _ db1 symbols) as [db2 out2] eqn:H2. intros H.
    assert (db2 = db') as ->. { by destruct out2; injection H as <- _. }
    apply IH in H2. exact (daily_leaves_trans db [s] db1 symbols db' H1 H2).
  - intros [= <- _]. exact (daily_leaves_trans _ _ _ _ _ H1 (daily_leaves_refl db1 symbols)).
Qed.

Lemma run_daily_leaves tehran repr iso diso isof f10 f2 fetch db symbols dry now db' out :
  run_tgju_daily tehran repr iso diso isof f10 f2 fetch db symbols dry now = (db', out) →
  daily_leaves db (match symbols with [] => supported_symbols | _ => symbols end) db'.
Proof.
  unfold run_tgju_daily. set (requested := match symbols with [] => supported_symbols | _ => symbols end).
  destruct (List.filter _ requested); [|intros [= <- _]; apply daily_leaves_refl].
  destruct (_provider_disabled db); [intros [= <- _]; apply daily_leaves_refl|].
  destruct (ingest_symbols _ _ _ _ _ _ _ _ _ _ _ _) as [db1 out1] eqn:H. intros Hout.
  assert (db1 = db') as ->. { by destruct out1; injection Hout as <- _. }
  apply ingest_symbols_leave in H as [T P R N S M V]. split; try done.
  - intros r [?|(Hs&?)]%N; [by left|right]. split; [by apply distinct_symbols_elem in Hs|done].
  - intros s Hs. apply M. intros Hd%distinct_symbols_elem. by apply Hs.
Qed.

(** The history closes never share a day of their symbol with another source. *)
Definition one_source_a_day (prices : list PriceRow) : Prop :=
  ∀ r r', r ∈ prices → r' ∈ prices → pr_symbol r = pr_symbol r' → pr_source r = SOURCE → pr_source r' ≠ SOURCE →
    date_of (pr_observed_at r) ≠ date_of (pr_observed_at r').

Lemma one_source_grows old new :
  one_source_a_day old → old `prefix_of` new →
  (∀ r, r ∈ new → r ∈ old ∨ (pr_source r = SOURCE ∧ ∀ r0, r0 ∈ old → pr_symbol r0 = pr_symbol r →
     date_of (pr_observed_at r0) ≠ date_of (pr_observed_at r))) →
  one_source_a_day new.
Proof.
  intros Ho _ Hnew r r' Hr Hr' Hs Hsrc Hsrc'.
  destruct (Hnew r' Hr') as [Hold'|[? _]]; [|done]. destruct (Hnew r Hr) as [Hold|[_ Hne]]; [by apply Ho|].
  intros He. by apply (Hne r').
Qed.

(** The deep splice and then a daily pass, over any symbols and however each of them ends:
    the constraints of the tables hold, no price and no audit row that was there is changed,
    and no day of a symbol holds both a close of TGJU's history and an observation of another
    source if none did before. *)
Theorem history_jobs_preserve `{LM : !LibM} tehran repr iso diso isof f10 f2 fetch clock db symbols dry ignore
    symbols' dry' now db1 out1 db2 out2 :
  run_tgju_backfill iso isof clock fetch db symbols dry ignore = (db1, out1) →
  run_tgju_daily tehran repr iso diso isof f10 f2 fetch db1 symbols' dry' now = (db2, out2) →
  hd_prices db `prefix_of` hd_prices db2 ∧ hd_raw db `prefix_of` hd_raw db2 ∧
  (tables_ok (hd_raw db) (hd_prices db) → tables_ok (hd_raw db2) (hd_prices db2)) ∧
  (one_source_a_day (hd_prices db) → one_source_a_day (hd_prices db2)).
Proof.
  intros H1 H2%run_daily_leaves. apply run_backfill_leaves in H1.
  destruct H1 as [T1 P1 R1 N1 M1 V1], H2 as [T2 P2 R2 N2 S2 M2 V2].
  split_and!; [by etrans|by etrans|by auto|]. intros Ho.
  apply (one_source_grows (hd_prices db1)); [|done|].
  - apply (one_source_grows (hd_prices db)); [done..|]. intros r [?|(_&?&Hlt)]%N1; [by left|right].
    split; [done|]. intros r0 Hr0 Hs. specialize (Hlt r0 Hr0 Hs). lia.
  - intros r [?|(_&?&?)]%N2; [by left|by right].
Qed.
End DailyFacts.

(** ** A concrete pass *)
#[local] Instance daily_asc : SqlAscending := {| oldest_first := λ A, sort_by |}.
#[local] Instance daily_asc_laws : SqlAscendingLaws daily_asc.
Proof. split; intros A key l; [by apply py_sorted_perm|apply sort_by_ascending]. Qed.
#[local] Instance daily_json : JsonColumn := {| json_column := λ _, true |}.
#[local] Instance daily_order : NumericOrder := {| storable := λ x, negb (is_nan x); num_le := fle |}.
#[local] Instance daily_libm : LibM := {| fpow := λ _ _, Ok fone; flog := λ x, x |}.

Definition demo_tehran : tzinfo := fixed_zone TEHRAN_OFFSET.
Definition no_text (_ : float) : string := EmptyString.

(** A live quote of 2026-05-03. *)
Definition coin_row : PriceRow :=
  {| pr_symbol := "IR_COIN_EMAMI"; pr_value := float_of_Z 190000000; pr_currency := "IRT"; pr_unit := "coin";
     pr_source := "hamrahgold"; pr_observed_at := combine (ordinal 2026 5 3) us_hour;
     pr_collected_at := combine (ordinal 2026 5 3) us_hour; pr_quality := "ok" |}.

Definition coin_db : HistoryDB :=
  {| hd_prices := [coin_row]; hd_raw := []; hd_settings := ∅;
     hd_notes := {[ "IR_COIN_EMAMI" := ("Emami coin.", 0) ]}; hd_providers := ∅ |}.

(** Eleven days from 2026-04-26; the close of 2026-05-05 has lost a digit. *)
Definition coin_page : list (string * string) :=
  [("2026/05/06", "1,910,000,000"); ("2026/05/05", "191,000,000"); ("2026/05/04", "1,905,000,000");
   ("2026/05/03", "1,900,000,000"); ("2026/05/02", "1,900,000,000"); ("2026/05/01", "1,900,000,000");
   ("2026/04/30", "1,900,000,000"); ("2026/04/29", "1,900,000,000"); ("2026/04/28", "1,900,000,000");
   ("2026/04/27", "1,900,000,000"); ("2026/04/26", "1,900,000,000")].

Definition coin_fetch (slug : string) (n : Z) : result tgju_error HistoryPage :=
  fetch_history_page no_repr
    (λ _ n, Ok (JObj [("recordsTotal", JInt 11);
                      ("data", JArr ((λ c, demo_row c.2 c.1 EmptyString) <$> take (Z.to_nat n) coin_page))])) slug n.

(** 02:00 in Tehran on 2026-05-07, half an hour before the stamp of the newest bar. *)
Definition coin_now : instant := combine (ordinal 2026 5 6) (22 * us_hour + 30 * us_minute).

Definition day_text (d : date) : string := str_of_Z d.
Definition text_day (s : string) : result pyerr date := py_int s.

Definition later : instant := combine (ordinal 2026 5 7) us_hour.

Abbreviation first_pass :=
  (ingest_symbol demo_tehran no_repr day_text text_day str_of_Z no_text no_text coin_fetch coin_db "IR_COIN_EMAMI" false coin_now).
Abbreviation second_pass :=
  (ingest_symbol demo_tehran no_repr day_text text_day str_of_Z no_text no_text coin_fetch first_pass.1 "IR_COIN_EMAMI" false later).

Definition days_of_source (db : HistoryDB) : list date :=
  (λ r, date_of (pr_observed_at r)) <$> List.filter (λ r, String.eqb (pr_source r) SOURCE) (hd_prices db).

(** Neither the day before the window, nor the day with a live quote, nor the junk bar, nor the
    day in progress; the next pass adds that day alone. *)
Example demo_days :
  (days_of_source first_pass.1, days_of_source second_pass.1) =
  ([ordinal 2026 4 27; ordinal 2026 4 28; ordinal 2026 4 29; ordinal 2026 4 30; ordinal 2026 5 1; ordinal 2026 5 2;
    ordinal 2026 5 4],
   [ordinal 2026 4 27; ordinal 2026 4 28; ordinal 2026 4 29; ordinal 2026 4 30; ordinal 2026 5 1; ordinal 2026 5 2;
    ordinal 2026 5 4; ordinal 2026 5 6]).
Proof. vm_compute. reflexivity. Qed.

Definition is_dl_ok (out : result exn DailyReport) : bool :=
  match out with Ok rep => match dl_result rep with DlOk => true | _ => false end | Err _ => false end.

Definition is_recent (out : result exn DailyReport) : bool :=
  match out with Ok rep => match dl_full rep with Some None => true | _ => false end | Err _ => false end.

Lemma is_dl_ok_true out : is_dl_ok out && is_recent out = true →
  ∃ rep, out = Ok rep ∧ dl_result rep = DlOk ∧ dl_full rep = Some None.
Proof.
  destruct out as [rep|]; [|done]. simpl. destruct (dl_result rep) eqn:H; try done.
  destruct (dl_full rep) as [[|]|] eqn:Hf; try done. by exists rep.
Qed.

Lemma daily_exact_witness :
  is_dl_ok first_pass.2 = true ∧
  ((first_pass.1 = coin_db ∧ ∀ rep, first_pass.2 = Ok rep → dl_result rep ≠ DlOk) ∨
   ∃ rep slug page full, first_pass.2 = Ok rep ∧ dl_result rep = DlOk ∧ false = false ∧
     read_page text_day coin_fetch coin_db "IR_COIN_EMAMI" slug = Ok (page, full) ∧
     closes_filed demo_tehran coin_db "IR_COIN_EMAMI" coin_now page (dl_inserted rep) first_pass.1).
Proof.
  split; [vm_compute; reflexivity|].
  exact (daily_exact demo_tehran no_repr day_text text_day str_of_Z no_text no_text coin_fetch coin_db "IR_COIN_EMAMI"
           false coin_now first_pass.1 first_pass.2 (surjective_pairing first_pass)).
Defined.

Lemma daily_no_hole_witness :
  ∃ rep state, second_pass.2 = Ok rep ∧ jget "IR_COIN_EMAMI" (_read_register first_pass.1) = JObj state.
Proof.
  assert (is_dl_ok second_pass.2 && is_recent second_pass.2 = true) as H by (vm_compute; reflexivity).
  destruct (is_dl_ok_true _ H) as (rep&Hrep&Hok&Hr).
  assert (second_pass = (second_pass.1, Ok rep)) as Hp by (rewrite <-Hrep; apply surjective_pairing).
  destruct (daily_no_hole _ _ _ _ _ _ _ _ _ _ _ _ _ _ Hp Hok Hr) as (state&page&Hs&_).
  exists rep, state. exact (conj Hrep Hs).
Defined.

Abbreviation splice_run :=
  (run_tgju_backfill day_text str_of_Z (λ _ _, later) coin_fetch coin_db ["IR_COIN_EMAMI"] false []).
Abbreviation daily_run :=
  (run_tgju_daily demo_tehran no_repr day_text text_day str_of_Z no_text no_text coin_fetch splice_run.1
    ["IR_COIN_EMAMI"] false later).

Lemma history_jobs_preserve_witness :
  length (hd_prices splice_run.1) = 8%nat ∧ length (hd_prices daily_run.1) = 10%nat ∧
  (one_source_a_day (hd_prices coin_db) → one_source_a_day (hd_prices daily_run.1)).
Proof.
  split; [vm_compute; reflexivity|]. split; [vm_compute; reflexivity|].
  exact (proj2 (proj2 (proj2 (history_jobs_preserve demo_tehran no_repr day_text text_day str_of_Z no_text no_text
    coin_fetch (λ _ _, later) coin_db ["IR_COIN_EMAMI"] false [] ["IR_COIN_EMAMI"] false later _ _ _ _
    (surjective_pairing splice_run) (surjective_pairing daily_run))))).
Defined.
