(* ===== verification/Funds.v ===== *)
(** * The settled closes of the commodity funds

    [app/bourse/funds.py]: the daily list of a fund becomes one toman close per settled
    session in [prices], with the rial number it came from in [raw_observations].

    The tables are those of [PriceDB]; a list is parsed by [EquityAdjust], judged by the
    restatement rules of [BourseIngest] and against the calendar TEDPIX records in
    [BourseDB].  One list is one transaction.  What the columns make of a number is the
    database's ([NumericFloat], [NumericOrder]); so is whether a JSON column takes a
    payload: [JsonColumn].  [iso_date] is
    [date.isoformat]. *)
From S2P Require Import Prelude PyFloat PyTime PyText PyJson Numeric Validation BourseDB BourseIngest PriceDB EquityAdjust.
Local Open Scope string_scope.
Local Open Scope list_scope.
Local Open Scope Z_scope.

Definition SOURCE : string := PROVIDER_CODE.
Definition CURRENCY : string := "IRT".
Definition UNIT : string := "unit".
Definition RAW_CURRENCY : string := "IRR".
Definition RAW_UNIT : string := "IRR/unit".
Definition ROUNDING_RIALS : float := fone.
Definition ROUNDING_RELATIVE : float := flit 1 4.
Definition TEDPIX : string := "32097828799138957".
Definition _rounding_apart (left right : float) : bool :=
  fle (fabs (fsub left right))
      (fmax ROUNDING_RIALS (fmul ROUNDING_RELATIVE (fmax (fabs left) (fabs right)))).

(** ** The exchange's calendar *)

(** [bisect_right] and [bisect_left] of an ascending list. *)
Definition bisect_right (l : list date) (x : date) : nat := length (List.filter (λ y, y <=? x) l).
Definition bisect_left (l : list date) (x : date) : nat := length (List.filter (λ y, y <? x) l).

Definition _between (sessions : list date) (after before : date) : list date :=
  drop (bisect_right sessions after) (take (bisect_left sessions before) sessions).

Definition is_wanted (only : option (gset date)) (d : date) : bool :=
  match only with None => true | Some days => bool_decide (d ∈ days) end.

(** The pairs of consecutive bars with one of the wanted days in them. *)
Definition judged_pairs (only : option (gset date)) (bars : list Bar) : list (Bar * Bar) :=
  List.filter (λ p, is_wanted only (trade_date p.1) || is_wanted only (trade_date p.2))
    (zip bars (tail bars)).

Definition skips_session (sessions : list date) (p : Bar * Bar) : bool :=
  match _between sessions (trade_date p.1) (trade_date p.2) with [] => false | _ => true end.

Definition restatement_lt (x y : date * float * float) : bool :=
  let '(d, a, b) := x in
  let '(d', a', b') := y in
  (d <? d') || ((d =? d') && (if feq a a' then flt b b' else flt a a')).

Definition reference_restatements (bars : list Bar) (only : option (gset date)) (sessions : list date)
    : list (date * float * float) :=
  let broken := List.filter (λ p, negb (skips_session sessions p)
                                  && negb (_rounding_apart (price_yesterday p.2) (final_close p.1)))
                  (judged_pairs only bars) in
  let halted := List.filter (λ b, is_wanted only (trade_date b) && negb (traded b)
                                  && negb (_rounding_apart (final_close b) (price_yesterday b))) bars in
  py_sorted restatement_lt
    (((λ p, (trade_date p.2, final_close p.1, price_yesterday p.2)) <$> broken)
     ++ ((λ b, (trade_date b, price_yesterday b, final_close b)) <$> halted)).

Definition served_gaps (bars : list Bar) (sessions : list date) (only : option (gset date)) : list date :=
  concat ((λ p, _between sessions (trade_date p.1) (trade_date p.2)) <$> judged_pairs only bars).

(** ** The tables *)

(** [commodity_funds], but for its key *)
Record Fund : Set := {
  fu_instrument_code : string;
  fu_symbol_fa : string;
  fu_name_fa : string;
  fu_underlying : string;
  fu_enabled : bool;
  first_close : option date;
  last_close : option date;
  close_count : Z;
  fu_updated_at : option instant;
}.

Record FundsDB : Set := {
  commodity_funds : gmap string Fund;
  fund_prices : list PriceRow;
  fund_raw : list RawRow;
  index_sessions : gmap string (gmap date IndexRow);
}.

Inductive fund_error : Set :=
| OfBars (e : bar_error)
| OfFile (e : ingest_error)
| UnknownFund (code : string)
| FundDisabled (code : string)
| FundContradiction (code : string) (restated compared : Z) (newest : bool)
| FundRestated (code : string) (restatements : list (date * float * float))
| Refused (e : exn).

Section Ingest.
Context `{NF : !NumericFloat} `{NO : !NumericOrder} `{JC : !JsonColumn}.
Context (repr : json → string) (iso_date : date → string) (isoformat : instant → string).

(** TEDPIX's stored sessions in the span. *)
Definition _market_sessions (db : FundsDB) (first last : date) : list date :=
  List.filter (λ d, (first <=? d) && (d <=? last))
    (sort_by (λ d, d) (map_to_list (rows_of TEDPIX (index_sessions db) ∅)).*1).

Definition min_instant (l : list instant) : option instant :=
  match l with [] => None | t :: ts => Some (foldl Z.min t ts) end.
Definition max_instant (l : list instant) : option instant :=
  match l with [] => None | t :: ts => Some (foldl Z.max t ts) end.

(** The first observation of the symbol from any source but this one. *)
Definition _live_era_start (prices : list PriceRow) (symbol : string) : option instant :=
  min_instant (pr_observed_at <$>
    List.filter (λ r, String.eqb (pr_symbol r) symbol && negb (String.eqb (pr_source r) SOURCE)) prices).

Definition own_rows (prices : list PriceRow) (symbol : string) : list PriceRow :=
  List.filter (λ r, String.eqb (pr_symbol r) symbol && String.eqb (pr_source r) SOURCE) prices.

Definition stored_closes (prices : list PriceRow) (symbol : string) : gmap instant float :=
  foldl (λ m r, <[pr_observed_at r := pr_value r]> m) ∅ (own_rows prices symbol).

Definition fund_roster (funds : gmap string Fund) (collate_lt : string → string → bool)
    (include_disabled : bool) : list (string * Fund) :=
  py_sorted (λ a b, collate_lt (fu_instrument_code a.2) (fu_instrument_code b.2))
    (List.filter (λ f, include_disabled || fu_enabled f.2) (map_to_list funds)).

(** ** One list *)
Definition close_row (symbol : string) (at_ : instant) (b : Bar) : PriceRow :=
  {| pr_symbol := symbol; pr_value := numeric (rial_to_toman (final_close b));
     pr_currency := CURRENCY; pr_unit := UNIT; pr_source := SOURCE;
     pr_observed_at := close_stamp (trade_date b); pr_collected_at := at_; pr_quality := "ok" |}.

Definition close_payload (code : string) (b : Bar) : list (string * json) :=
  [("ins_code", JStr code); ("kind", JStr "settled_close");
   ("trade_date", JStr (iso_date (trade_date b)));
   ("availability_utc", JStr (isoformat (close_stamp (trade_date b))));
   ("last_trade", JFloat (b_close b)); ("price_yesterday", JFloat (price_yesterday b));
   ("volume", JInt (volume b)); ("trades", JInt (trade_count b)); ("value", JFloat (b_value b));
   ("normalization", JStr "rial_to_toman"); ("normalized_value", JFloat (rial_to_toman (final_close b)));
   ("normalized_currency", JStr CURRENCY)].

Definition raw_close_row (code symbol : string) (at_ : instant) (b : Bar) : RawRow :=
  {| raw_provider_code := PROVIDER_CODE; raw_symbol := symbol; raw_value := numeric (final_close b);
     raw_unit := RAW_UNIT; raw_currency := RAW_CURRENCY; raw_payload := Some (close_payload code b);
     raw_observed_at := close_stamp (trade_date b); raw_collected_at := at_; raw_quality := "ok";
     raw_dedupe_key := (PROVIDER_CODE ++ "|" ++ symbol ++ "|close|" ++ iso_date (trade_date b))%string |}.

(** A statement the database refuses. *)
Definition db_call {A} (m : result exn A) : result fund_error A :=
  match m with Ok x => Ok x | Err e => Err (Refused e) end.

(** What is to be done with the sessions of a list. *)
Record split_list : Set := {
  sp_carries : Z;
  sp_unsettled : Z;
  sp_live_era : Z;
  sp_settled : list Bar;
}.

Definition split_bars (bars : list Bar) (at_ : instant) (live_from : option instant) : split_list :=
  let traded_ := List.filter traded bars in
  let settled := List.filter (λ b, close_stamp (trade_date b) <=? at_) traded_ in
  let before_live b := match date_of <$> live_from with None => true | Some d => trade_date b <? d end in
  {| sp_carries := Z.of_nat (length bars) - Z.of_nat (length traded_);
     sp_unsettled := Z.of_nat (length traded_) - Z.of_nat (length settled);
     sp_live_era := Z.of_nat (length (List.filter (λ b, negb (before_live b)) settled));
     sp_settled := List.filter before_live settled |}.

Definition is_new_close (stored : gmap instant float) (b : Bar) : bool :=
  match stored !! close_stamp (trade_date b) with None => true | Some _ => false end.

Definition restated_close_of (stored : gmap instant float) (b : Bar) : option (date * float * float) :=
  old ← stored !! close_stamp (trade_date b);
  if _rounding_apart (fmul old (float_of_Z 10)) (final_close b) then None
  else Some (trade_date b, old, rial_to_toman (final_close b)).

(** The list with every stored close in the place of its own. *)
Definition as_stored (stored : gmap instant float) (b : Bar) : Bar :=
  match stored !! close_stamp (trade_date b) with
  | Some old =>
      if traded b then
        {| ins_code := ins_code b; trade_date := trade_date b; b_open := b_open b; b_high := b_high b;
           b_low := b_low b; b_close := b_close b; final_close := fmul old (float_of_Z 10);
           price_yesterday := price_yesterday b; volume := volume b; trade_count := trade_count b;
           b_value := b_value b |}
      else b
  | None => b
  end.

Definition judged_days (stored : gmap instant float) (bars new_bars : list Bar) : gset date :=
  let newest_stored := date_of <$> max_instant (map_to_list stored).*1 in
  list_to_set (trade_date <$> new_bars)
  ∪ list_to_set (trade_date <$> List.filter (λ b, negb (traded b)
      && match newest_stored with None => true | Some d => d <? trade_date b end) bars).

Record FundReport : Set := {
  fr_ins_code : string;
  fr_instrument_code : string;
  fr_symbol : string;
  sessions_total : Z;
  closes_inserted : Z;
  closes_existing : Z;
  fr_restated : Z;
  fr_restated_examples : list (date * float * float);
  carry_forward_skipped : Z;
  unsettled_skipped : Z;
  live_era_skipped : Z;
  live_era_from : option instant;
  fr_served_gaps : Z;
  served_gap_examples : list date;
  fr_first_date : option date;
  fr_last_date : option date;
  fr_last_close : option float;
}.

Definition with_closes (first last : option date) (count : Z) (at_ : instant) (f : Fund) : Fund :=
  {| fu_instrument_code := fu_instrument_code f; fu_symbol_fa := fu_symbol_fa f;
     fu_name_fa := fu_name_fa f; fu_underlying := fu_underlying f; fu_enabled := fu_enabled f;
     first_close := first; last_close := last; close_count := count; fu_updated_at := Some at_ |}.

(** The update of the coverage, where it changed. *)
Definition cover_fund (prices : list PriceRow) (at_ : instant) (f : Fund) : Fund :=
  let rows := pr_observed_at <$> own_rows prices (fu_instrument_code f) in
  let first := date_of <$> min_instant rows in
  let final := date_of <$> max_instant rows in
  let count := Z.of_nat (length rows) in
  if bool_decide ((first, final, count) = (first_close f, last_close f, close_count f)) then f
  else with_closes first final count at_ f.

(** The refusals of a list whose sessions were split. *)
Definition judge_fund (db : FundsDB) (code : string) (stored : gmap instant float)
    (bars settled new_bars : list Bar) : result fund_error () :=
  let restated := omap (restated_close_of stored) settled in
  let compared := Z.of_nat (length settled) - Z.of_nat (length new_bars) in
  let overlap := trade_date <$> List.filter (λ b, negb (is_new_close stored b)) settled in
  let newest := newest_overlap_is_systematic overlap ((λ x, x.1.1) <$> restated) in
  if newest || restatement_is_systematic (Z.of_nat (length restated)) compared
  then Err (FundContradiction code (Z.of_nat (length restated)) compared newest)
  else
    match bars with
    | [] => Ok ()
    | b0 :: _ =>
        let sessions := _market_sessions db (trade_date b0) (trade_date (List.last bars b0)) in
        match reference_restatements (as_stored stored <$> bars)
                (Some (judged_days stored bars new_bars)) sessions with
        | [] => Ok ()
        | found => Err (FundRestated code found)
        end
    end.

(** The transaction on the parsed list, [b0] its first bar. *)
Definition store_closes (db : FundsDB) (bars : list Bar) (b0 : Bar) (at_ : instant)
    : result fund_error (FundsDB * FundReport) :=
  let code := ins_code b0 in
  match commodity_funds db !! code with
  | None => Err (UnknownFund code)
  | Some fund =>
      if negb (fu_enabled fund) then Err (FundDisabled code)
      else
        let symbol := fu_instrument_code fund in
        let live_from := _live_era_start (fund_prices db) symbol in
        let sp := split_bars bars at_ live_from in
        let settled := sp_settled sp in
        let stored := stored_closes (fund_prices db) symbol in
        let new_bars := List.filter (is_new_close stored) settled in
        let restated := omap (restated_close_of stored) settled in
        _ ← judge_fund db code stored bars settled new_bars;
        let sessions := _market_sessions db (trade_date b0) (trade_date (List.last bars b0)) in
        let gaps := served_gaps bars sessions (Some (judged_days stored bars new_bars)) in
        prices ← fst <$> db_call (insert_prices (fund_prices db) (close_row symbol at_ <$> new_bars));
        raw ← fst <$> db_call (insert_raws (fund_raw db) (raw_close_row code symbol at_ <$> new_bars));
        let covered := cover_fund prices at_ fund in
        let own := pr_observed_at <$> own_rows prices symbol in
        Ok ({| commodity_funds := <[code := covered]> (commodity_funds db); fund_prices := prices;
               fund_raw := raw; index_sessions := index_sessions db |},
            {| fr_ins_code := code; fr_instrument_code := symbol; fr_symbol := fu_symbol_fa fund;
               sessions_total := Z.of_nat (length bars);
               closes_inserted := Z.of_nat (length own) - Z.of_nat (size stored);
               closes_existing := Z.of_nat (length settled) - Z.of_nat (length new_bars);
               fr_restated := Z.of_nat (length restated);
               fr_restated_examples := take RESTATED_EXAMPLES restated;
               carry_forward_skipped := sp_carries sp; unsettled_skipped := sp_unsettled sp;
               live_era_skipped := sp_live_era sp; live_era_from := live_from;
               fr_served_gaps := Z.of_nat (length gaps);
               served_gap_examples := take RESTATED_EXAMPLES gaps;
               fr_first_date := date_of <$> min_instant own; fr_last_date := date_of <$> max_instant own;
               fr_last_close := rial_to_toman ∘ final_close <$> last settled |})
  end.

Definition ingest_fund_closes (db : FundsDB) (payload : json) (at_ : instant)
    : result fund_error (FundsDB * FundReport) :=
  match parse_daily_list repr payload EmptyString with
  | Err e => Err (OfBars e)
  | Ok [] => Err (OfBars NoBars)
  | Ok ((b0 :: _) as bars) => store_closes db bars b0 at_
  end.

(** ** Many lists *)
Record FundsReport : Set := {
  fs_funds : list (string * FundReport);
  fs_errors : list (string * fund_error);
  fs_succeeded : Z;
  fs_failed : Z;
}.

Definition empty_funds_report : FundsReport :=
  {| fs_funds := []; fs_errors := []; fs_succeeded := 0; fs_failed := 0 |}.

Definition fund_file (disk : string → option file) (at_ : instant) (st : FundsDB * FundsReport)
    (path : string) : FundsDB * FundsReport :=
  match (match BourseIngest.read_payload_file disk path with
         | Err e => Err (OfFile e)
         | Ok payload => ingest_fund_closes st.1 payload at_
         end) with
  | Ok (db, r) =>
      (db, {| fs_funds := BourseParse.dict_set (fr_ins_code r) r (fs_funds st.2);
              fs_errors := fs_errors st.2; fs_succeeded := fs_succeeded st.2 + 1;
              fs_failed := fs_failed st.2 |})
  | Err e =>
      (st.1, {| fs_funds := fs_funds st.2; fs_errors := fs_errors st.2 ++ [(path, e)];
                fs_succeeded := fs_succeeded st.2; fs_failed := fs_failed st.2 + 1 |})
  end.

Inductive funds_outcome : Set :=
| NoFundsNamed
| AllFundsFailed (r : FundsReport)
| FundsReported (r : FundsReport).

Definition ingest_fund_files (disk : string → option file) (db : FundsDB) (paths : list string)
    (at_ : instant) : FundsDB * funds_outcome :=
  match paths with
  | [] => (db, NoFundsNamed)
  | _ =>
      let '(db, r) := foldl (fund_file disk at_) (db, empty_funds_report) paths in
      (db, if fs_succeeded r =? 0 then AllFundsFailed r else FundsReported r)
  end.
End Ingest.

(** ** The calendar and the restatements *)
Section Facts.
Context `{NF : !NumericFloat} `{NO : !NumericOrder} `{JC : !JsonColumn}.

Lemma ascending_take_filter (l : list date) p x :
  strictly_ascending (λ d, d) l → (∀ y, p y = true ↔ y < x) →
  take (length (List.filter p l)) l = List.filter p l ∧
  drop (length (List.filter p l)) l = List.filter (λ y, negb (p y)) l.
Proof.
  intros Hs Hp. induction Hs as [|d l Hl IH Hd]; [done|]. simpl. destruct (p d) eqn:Hpd; simpl.
  - destruct IH as [-> ->]. done.
  - assert (List.filter p l = []) as Hnil.
    { apply filter_nil_iff, Forall_forall. intros y Hy. rewrite Forall_forall in Hd. specialize (Hd y Hy).
      apply not_true_iff_false. rewrite Hp. apply not_true_iff_false in Hpd. rewrite Hp in Hpd. simpl in Hd. lia. }
    rewrite Hnil in IH |- *. destruct IH as [_ IH]. simpl in *. split; [done|]. f_equal. by rewrite <-IH, drop_0.
Qed.

Lemma between_elem sessions after before d :
  strictly_ascending (λ d, d) sessions →
  d ∈ _between sessions after before ↔ d ∈ sessions ∧ after < d < before.
Proof.
  intros Hs. unfold _between, bisect_left, bisect_right.
  destruct (ascending_take_filter sessions (λ y, y <? before) before Hs) as [-> _]; [intros y; apply Z.ltb_lt|].
  set (F := List.filter (λ y, y <? before) sessions).
  assert (strictly_ascending (λ d, d) F) as HF by (by apply StronglySorted_bool_filter).
  destruct (Z.lt_ge_cases after before) as [Hlt|Hge].
  - assert (List.filter (λ y, y <=? after) sessions = List.filter (λ y, y <=? after) F) as ->.
    { unfold F. rewrite bool_filter_filter. apply bool_filter_ext. intros y _.
      destruct (Z.leb_spec y after), (Z.ltb_spec y before); simpl; lia. }
    destruct (ascending_take_filter F (λ y, y <=? after) (after + 1) HF) as [_ ->].
    { intros y. rewrite Z.leb_le. lia. }
    unfold F. rewrite !elem_of_bool_filter, negb_true_iff, Z.leb_gt, Z.ltb_lt. tauto.
  - assert (length F ≤ length (List.filter (λ y, (y <=? after)%Z) sessions))%nat as Hlen.
    { unfold F. clear -Hge. induction sessions as [|y l IH]; simpl; [done|].
      destruct (Z.ltb_spec y before), (Z.leb_spec y after); simpl; lia. }
    rewrite drop_ge by done. rewrite elem_of_nil. split; [done|]. lia.
Qed.

Lemma market_sessions_elem db first last d :
  d ∈ _market_sessions db first last ↔
  is_Some (rows_of TEDPIX (index_sessions db) ∅ !! d) ∧ first ≤ d ≤ last.
Proof.
  unfold _market_sessions. rewrite elem_of_bool_filter. unfold sort_by. rewrite py_sorted_perm, list_elem_of_fmap.
  rewrite andb_true_iff, !Z.leb_le. split.
  - intros [([d' r]&->&Hr%elem_of_map_to_list) ?]. split; [by exists r|lia].
  - intros [[r Hr] ?]. split; [|lia]. exists (d, r). split; [done|]. by apply elem_of_map_to_list.
Qed.

Lemma market_sessions_strict db first last : strictly_ascending (λ d, d) (_market_sessions db first last).
Proof.
  apply StronglySorted_bool_filter, sort_by_strict. rewrite list_fmap_id. apply NoDup_fst_map_to_list.
Qed.

Lemma zip_adjacent (bs : list Bar) p c : (p, c) ∈ zip bs (tail bs) ↔ adjacent bs p c.
Proof.
  unfold adjacent. rewrite list_elem_of_lookup. split.
  - intros (i&Hi). rewrite lookup_zip_with_Some in Hi. destruct Hi as (x&y&[= -> ->]&Hx&Hy).
    exists i. by rewrite lookup_tail in Hy.
  - intros (i&Hp&Hc). exists i. rewrite lookup_zip_with_Some. exists p, c. by rewrite lookup_tail.
Qed.

(** A list with no restatement to report: no judged pair breaks, but where a session of the
    calendar was skipped. *)
Lemma no_restatements bs only sessions p c :
  reference_restatements bs only sessions = [] → adjacent bs p c →
  is_wanted only (trade_date p) || is_wanted only (trade_date c) = true →
  _between sessions (trade_date p) (trade_date c) = [] →
  _rounding_apart (price_yesterday c) (final_close p) = true.
Proof.
  intros Hnil Hadj Hw Hgap. unfold reference_restatements in Hnil.
  assert (∀ x : date * float * float, x ∉ ([] : list (date * float * float))) as Hno by (intros x; apply not_elem_of_nil).
  rewrite <-Hnil in Hno. destruct (_rounding_apart _ _) eqn:Hr; [done|]. exfalso.
  apply (Hno (trade_date c, final_close p, price_yesterday c)). rewrite py_sorted_perm. apply elem_of_app. left.
  apply list_elem_of_fmap. exists (p, c). split; [done|]. apply elem_of_bool_filter. split.
  - unfold judged_pairs. apply elem_of_bool_filter. split; [by apply zip_adjacent|done].
  - unfold skips_session. simpl. by rewrite Hgap, Hr.
Qed.

(** No judged row without trade closes off its reference. *)
Lemma no_halts bs only sessions b :
  reference_restatements bs only sessions = [] → b ∈ bs → is_wanted only (trade_date b) = true → traded b = false →
  _rounding_apart (final_close b) (price_yesterday b) = true.
Proof.
  intros Hnil Hb Hw Ht. unfold reference_restatements in Hnil.
  assert (∀ x : date * float * float, x ∉ ([] : list (date * float * float))) as Hno by (intros x; apply not_elem_of_nil).
  rewrite <-Hnil in Hno. destruct (_rounding_apart _ _) eqn:Hr; [done|]. exfalso.
  apply (Hno (trade_date b, price_yesterday b, final_close b)). rewrite py_sorted_perm. apply elem_of_app. right.
  apply list_elem_of_fmap. exists b. split; [done|]. apply elem_of_bool_filter. by rewrite Hw, Ht, Hr.
Qed.

(** ** What is written *)
Lemma own_rows_elem prices symbol r :
  r ∈ own_rows prices symbol ↔ r ∈ prices ∧ pr_symbol r = symbol ∧ pr_source r = SOURCE.
Proof. unfold own_rows. rewrite elem_of_bool_filter, andb_true_iff, !String.eqb_eq. tauto. Qed.

Lemma stored_closes_dom prices symbol t :
  is_Some (stored_closes prices symbol !! t) ↔ ∃ r, r ∈ own_rows prices symbol ∧ pr_observed_at r = t.
Proof.
  unfold stored_closes. set (l := own_rows prices symbol). clearbody l.
  assert (∀ m, is_Some (foldl (λ m r, <[pr_observed_at r := pr_value r]> m) m l !! t) ↔
    is_Some ((m : gmap instant float) !! t) ∨ ∃ r, r ∈ l ∧ pr_observed_at r = t) as Hgen.
  { induction l as [|r l IH]; intros m; simpl.
    - split; [by left|]. intros [?|(r&?%elem_of_nil&_)]; done.
    - rewrite IH, lookup_insert_is_Some'. setoid_rewrite elem_of_cons. naive_solver. }
  rewrite Hgen, lookup_empty. split; [intros [[??]|?]; done|by right].
Qed.

Lemma stored_closes_value prices symbol t v :
  stored_closes prices symbol !! t = Some v → ∃ r, r ∈ own_rows prices symbol ∧ pr_observed_at r = t ∧ pr_value r = v.
Proof.
  unfold stored_closes. set (l := own_rows prices symbol). clearbody l.
  assert (∀ m, foldl (λ m r, <[pr_observed_at r := pr_value r]> m) m l !! t = Some v →
    (m : gmap instant float) !! t = Some v ∨ ∃ r, r ∈ l ∧ pr_observed_at r = t ∧ pr_value r = v) as Hgen.
  { induction l as [|r l IH]; intros m; simpl; [by left|]. intros [Hm|(r'&?&?)]%IH; [|right; exists r'; by rewrite elem_of_cons; auto].
    apply lookup_insert_Some in Hm as [[<- <-]|[_ ?]]; [|by left]. right. exists r. split_and!; [left|done..]. }
  intros [H|?]%Hgen; [by rewrite lookup_empty in H|done].
Qed.

Lemma is_new_close_true prices symbol b :
  is_new_close (stored_closes prices symbol) b = true ↔
  ∀ r, r ∈ own_rows prices symbol → pr_observed_at r ≠ close_stamp (trade_date b).
Proof.
  unfold is_new_close. destruct (stored_closes prices symbol !! _) eqn:Hs.
  - split; [done|]. intros Hno. destruct (proj1 (stored_closes_dom prices symbol _) (mk_is_Some _ _ Hs)) as (r&Hr&He).
    by destruct (Hno r Hr).
  - split; [|done]. intros _ r Hr He. apply eq_None_not_Some in Hs. apply Hs, stored_closes_dom. by exists r.
Qed.

(** A session a run may store: it was traded, its stamp has passed, and it lies before the day
    of the first observation of any other source. *)
Definition may_store (prices : list PriceRow) (symbol : string) (at_ : instant) (b : Bar) : Prop :=
  traded b = true ∧ close_stamp (trade_date b) ≤ at_ ∧
  ∀ r, r ∈ prices → pr_symbol r = symbol → pr_source r ≠ SOURCE → trade_date b < date_of (pr_observed_at r).

Lemma live_era_spec prices symbol d :
  match date_of <$> _live_era_start prices symbol with None => true | Some l => d <? l end = true ↔
  ∀ r, r ∈ prices → pr_symbol r = symbol → pr_source r ≠ SOURCE → d < date_of (pr_observed_at r).
Proof.
  unfold _live_era_start. set (l := List.filter _ prices).
  assert (∀ r, r ∈ l ↔ r ∈ prices ∧ pr_symbol r = symbol ∧ pr_source r ≠ SOURCE) as Hl.
  { intros r. unfold l. rewrite elem_of_bool_filter, andb_true_iff, negb_true_iff, String.eqb_eq, String.eqb_neq. tauto. }
  destruct (pr_observed_at <$> l) as [|t ts] eqn:Ht; simpl.
  - split; [|done]. intros _ r H1 H2 H3. assert (r ∈ l) as Hin by (by apply Hl).
    apply (list_elem_of_fmap_2 pr_observed_at) in Hin. rewrite Ht in Hin. by apply elem_of_nil in Hin.
  - rewrite Z.ltb_lt. split.
    + intros Hd r H1 H2 H3. assert (r ∈ l) as Hin by (by apply Hl).
      apply (list_elem_of_fmap_2 pr_observed_at) in Hin. rewrite Ht in Hin.
      apply foldl_min_le, date_of_mono in Hin. lia.
    + intros Hall. pose proof (foldl_pick Z.min ts t ltac:(lia)) as Hin. rewrite <-Ht in Hin.
      apply list_elem_of_fmap in Hin as (r&->&(?&?&?)%Hl). by apply Hall.
Qed.

Lemma settled_elem bars at_ prices symbol b :
  b ∈ sp_settled (split_bars bars at_ (_live_era_start prices symbol)) ↔
  b ∈ bars ∧ may_store prices symbol at_ b.
Proof.
  unfold split_bars. simpl. rewrite !elem_of_bool_filter, Z.leb_le, live_era_spec. unfold may_store. tauto.
Qed.

Lemma ascending_dates_NoDup (bs : list Bar) : strictly_ascending trade_date bs → NoDup (trade_date <$> bs).
Proof.
  induction 1 as [|x l _ IH Hl]; simpl; constructor; [|done]. rewrite Forall_forall in Hl.
  intros (y&He&Hin)%list_elem_of_fmap. specialize (Hl y Hin). lia.
Qed.

Lemma close_keys_NoDup symbol at_ (bs : list Bar) :
  strictly_ascending trade_date bs → NoDup (price_key <$> (close_row symbol at_ <$> bs)).
Proof.
  intros Hs. rewrite <-list_fmap_compose.
  apply NoDup_fmap_2_strong; [|by eapply strictly_ascending_NoDup].
  intros x y Hx Hy [= Heq%close_stamp_inj]. by apply (NoDup_key_inj trade_date bs); [apply ascending_dates_NoDup|..].
Qed.

Lemma close_keys_new prices symbol at_ (bs : list Bar) r :
  (∀ b, b ∈ bs → is_new_close (stored_closes prices symbol) b = true) →
  r ∈ close_row symbol at_ <$> bs → price_key r ∉ price_key <$> prices.
Proof.
  intros Hnew (b&->&Hb)%list_elem_of_fmap (r'&Hk&Hr')%list_elem_of_fmap.
  apply Hnew in Hb. rewrite is_new_close_true in Hb. injection Hk as H1 H2 H3.
  apply (Hb r'); [|done]. by apply own_rows_elem.
Qed.

(** ** The series the closes join *)

(** Equal to a rial, or to one part in ten thousand of the larger. *)
Definition to_rounding (a b : float) : Prop :=
  fle (fabs (fsub a b)) (fmax fone (fmul (flit 1 4) (fmax (fabs a) (fabs b)))) = true.

(** The row that holds the close of a day of a fund. *)
Definition close_of_day (prices : list PriceRow) (symbol : string) (day : date) (r : PriceRow) : Prop :=
  r ∈ prices ∧ pr_symbol r = symbol ∧ pr_source r = "tsetmc_cdn" ∧ pr_observed_at r = combine day (23 * us_hour).

(** The close of a session the series goes on from, in rials: ten times the stored toman close
    of a session that was traded, and the list's own where there is none. *)
Inductive carried (prices : list PriceRow) (symbol : string) (p : Bar) : float → Prop :=
| carried_stored r :
    traded p = true → close_of_day prices symbol (trade_date p) r → carried prices symbol p (fmul (pr_value r) (float_of_Z 10))
| carried_listed :
    traded p = false ∨ (∀ r, ¬ close_of_day prices symbol (trade_date p) r) → carried prices symbol p (final_close p).

(** The sessions of a run: those it stored a close of, and the rows without trade after every
    close that was stored. *)
Definition of_the_run (db db' : FundsDB) (symbol : string) (b : Bar) : Prop :=
  (∃ r, close_of_day (fund_prices db') symbol (trade_date b) r ∧ r ∉ fund_prices db) ∨
  (traded b = false ∧ ∀ r, r ∈ fund_prices db → pr_symbol r = symbol → pr_source r = "tsetmc_cdn" →
     date_of (pr_observed_at r) < trade_date b).

Lemma as_stored_date stored b : trade_date (as_stored stored b) = trade_date b.
Proof. unfold as_stored. destruct (stored !! _); [|done]. by destruct (traded b). Qed.

Lemma as_stored_reference stored b : price_yesterday (as_stored stored b) = price_yesterday b.
Proof. unfold as_stored. destruct (stored !! _); [|done]. by destruct (traded b). Qed.

Lemma adjacent_fmap (f : Bar → Bar) bs p c : adjacent bs p c → adjacent (f <$> bs) (f p) (f c).
Proof. intros (i&Hi1&Hi2). exists i. by rewrite !list_lookup_fmap, Hi1, Hi2. Qed.

Lemma close_of_day_own prices symbol day r :
  close_of_day prices symbol day r ↔ r ∈ own_rows prices symbol ∧ pr_observed_at r = close_stamp day.
Proof. rewrite own_rows_elem. unfold close_of_day. change (combine day (23 * us_hour)) with (close_stamp day). tauto. Qed.

(** The list judged is the one with the carried closes. *)
Lemma carried_as_stored prices symbol p x :
  NoDup (price_key <$> prices) → carried prices symbol p x →
  final_close (as_stored (stored_closes prices symbol) p) = x.
Proof.
  intros Hkeys Hx. unfold as_stored. destruct (stored_closes prices symbol !! _) as [old|] eqn:Hs.
  - apply stored_closes_value in Hs as (r&Hr&Ht&<-).
    destruct Hx as [r' Htr Hr'%close_of_day_own|[Htr|Hno]].
    + rewrite Htr. simpl. destruct Hr' as [Hr' Ht']. apply own_rows_elem in Hr as (H1&H2&H3), Hr' as (H1'&H2'&H3').
      replace r' with r; [done|]. apply (NoDup_key_inj price_key prices); [done..|]. unfold price_key. congruence.
    + by rewrite Htr.
    + destruct (Hno r). by apply close_of_day_own.
  - destruct Hx as [r' Htr [Hr' Ht']%close_of_day_own|_]; [|done]. exfalso.
    apply eq_None_not_Some in Hs. apply Hs, stored_closes_dom. by exists r'.
Qed.

Lemma of_the_run_judged db db' symbol at_ bars new_bars b :
  fund_prices db' = fund_prices db ++ (close_row symbol at_ <$> new_bars) → b ∈ bars → of_the_run db db' symbol b →
  trade_date b ∈ judged_days (stored_closes (fund_prices db) symbol) bars new_bars.
Proof.
  intros Hpr Hb Hrun. unfold judged_days. apply elem_of_union. rewrite !elem_of_list_to_set.
  destruct Hrun as [(r&(Hr&_&_&Ht)&Hnew)|[Htr Hlast]]; [left|right; apply list_elem_of_fmap_2, elem_of_bool_filter; split; [done|]].
  - rewrite Hpr in Hr. apply elem_of_app in Hr as [?|(b'&->&Hb')%list_elem_of_fmap]; [done|].
    apply close_stamp_inj in Ht as <-. by apply list_elem_of_fmap_2.
  - rewrite Htr. simpl. destruct (max_instant _) as [t|] eqn:Hmax; [|done]. simpl.
    assert (t ∈ (map_to_list (stored_closes (fund_prices db) symbol)).*1) as Hin.
    { destruct (_.*1) as [|t0 ts]; [done|]. injection Hmax as <-. apply foldl_pick. lia. }
    apply list_elem_of_fmap in Hin as ([t' v]&->&Hin%elem_of_map_to_list). simpl in *.
    apply stored_closes_value in Hin as (r&(?&?&?)%own_rows_elem&<-&_). apply Z.ltb_lt. by apply Hlast.
Qed.

End Facts.

(** ** One transaction *)
Section Transaction.
Context `{NF : !NumericFloat} `{NO : !NumericOrder} `{JC : !JsonColumn}.
Context (repr : json → string) (iso_date : date → string) (isoformat : instant → string).

Lemma parse_dates payload bars :
  parse_daily_list repr payload EmptyString = Ok bars → strictly_ascending trade_date bars.
Proof.
  destruct payload as [| | | | | |items]; try done. intros H. pose proof H as H'. simpl in H'.
  destruct (jget FIELD_LIST items) as [| | | | |rows|] eqn:Hj; try done.
  destruct (parse_daily_list_sound repr items rows EmptyString bars Hj H) as (_&_&Hs&_). exact Hs.
Qed.

Record fund_stored (db : FundsDB) (bars : list Bar) (at_ : instant) (db' : FundsDB) (fund : Fund)
    (code : string) (new_bars : list Bar) : Prop := {
  fs_ascending : strictly_ascending trade_date new_bars;
  fs_listed : commodity_funds db !! code = Some fund ∧ fu_enabled fund = true;
  fs_new : new_bars = List.filter (is_new_close (stored_closes (fund_prices db) (fu_instrument_code fund)))
    (sp_settled (split_bars bars at_ (_live_era_start (fund_prices db) (fu_instrument_code fund))));
  fs_judged : judge_fund db code (stored_closes (fund_prices db) (fu_instrument_code fund)) bars
    (sp_settled (split_bars bars at_ (_live_era_start (fund_prices db) (fu_instrument_code fund)))) new_bars = Ok ();
  fs_prices : fund_prices db' = fund_prices db ++ (close_row (fu_instrument_code fund) at_ <$> new_bars);
  fs_checks : Forall (λ r, price_check r = true) (close_row (fu_instrument_code fund) at_ <$> new_bars);
  fs_raw : ∃ n, insert_raws (fund_raw db)
    (raw_close_row iso_date isoformat code (fu_instrument_code fund) at_ <$> new_bars) = Ok (fund_raw db', n);
  fs_covered : commodity_funds db' = <[code := cover_fund (fund_prices db') at_ fund]> (commodity_funds db);
  fs_sessions : index_sessions db' = index_sessions db;
}.

Lemma store_closes_inv db bars b0 at_ db' rep :
  strictly_ascending trade_date bars →
  store_closes iso_date isoformat db bars b0 at_ = Ok (db', rep) →
  ∃ fund new_bars, fund_stored db bars at_ db' fund (ins_code b0) new_bars ∧ fr_ins_code rep = ins_code b0.
Proof.
  intros Hasc. unfold store_closes. destruct (commodity_funds db !! ins_code b0) as [fund|] eqn:Hf; [|done].
  destruct (fu_enabled fund) eqn:He; simpl; [|done].
  set (settled := List.filter _ (List.filter _ _)). set (stored := stored_closes _ _).
  set (new_bars := List.filter (is_new_close stored) settled).
  intros ([]&Hj&H)%bind_Ok. apply bind_Ok in H as (prices&Hp&H). apply bind_Ok in H as (raw&Hr&[= <- <-]).
  assert (strictly_ascending trade_date new_bars) as Hnew.
  { by repeat apply StronglySorted_bool_filter. }
  destruct (insert_prices (fund_prices db) _) as [[prices' np]|] eqn:Hp'; simpl in Hp; [|done]. injection Hp as <-.
  destruct (insert_raws (fund_raw db) _) as [[raw' nr]|] eqn:Hr'; simpl in Hr; [|done]. injection Hr as <-.
  simpl. apply insert_prices_new in Hp' as (->&_&Hc).
  - exists fund, new_bars. split; [|done]. split; try done. by exists nr.
  - by apply close_keys_NoDup.
  - intros r. apply close_keys_new. by intros b [_ Hb]%elem_of_bool_filter.
Qed.

Lemma ingest_fund_inv db payload at_ db' rep :
  ingest_fund_closes repr iso_date isoformat db payload at_ = Ok (db', rep) →
  ∃ bars fund new_bars, parse_daily_list repr payload EmptyString = Ok bars ∧
    fund_stored db bars at_ db' fund (fr_ins_code rep) new_bars.
Proof.
  unfold ingest_fund_closes. destruct (parse_daily_list _ _ _) as [[|b0 bars]|] eqn:Hp; try done. intros H.
  apply store_closes_inv in H as (fund&new_bars&Hs&->); [|by eapply parse_dates]. by exists (b0 :: bars), fund, new_bars.
Qed.

(** ** The invariant *)

(** The coverage columns of a fund are those of its closes. *)
Definition closes_covered (prices : list PriceRow) (f : Fund) : Prop :=
  let own := own_rows prices (fu_instrument_code f) in
  close_count f = Z.of_nat (length own) ∧
  match first_close f, last_close f with
  | None, None => own = []
  | Some d, Some d' =>
      (∃ r, r ∈ own ∧ date_of (pr_observed_at r) = d) ∧ (∃ r, r ∈ own ∧ date_of (pr_observed_at r) = d') ∧
      ∀ r, r ∈ own → d ≤ date_of (pr_observed_at r) ≤ d'
  | _, _ => False
  end.

Record funds_ok (db : FundsDB) : Prop := {
  fo_tables : tables_ok (fund_raw db) (fund_prices db);
  fo_codes c c' f f' : commodity_funds db !! c = Some f → commodity_funds db !! c' = Some f' →
    fu_instrument_code f = fu_instrument_code f' → c = c';
  fo_covered c f : commodity_funds db !! c = Some f → closes_covered (fund_prices db) f;
}.

Lemma cover_fund_covered prices at_ f : closes_covered prices (cover_fund prices at_ f).
Proof.
  assert (∀ f', fu_instrument_code f' = fu_instrument_code f →
    first_close f' = date_of <$> min_instant (pr_observed_at <$> own_rows prices (fu_instrument_code f)) →
    last_close f' = date_of <$> max_instant (pr_observed_at <$> own_rows prices (fu_instrument_code f)) →
    close_count f' = Z.of_nat (length (pr_observed_at <$> own_rows prices (fu_instrument_code f))) →
    closes_covered prices f') as Hgen.
  { intros f' Hcode H1 H2 H3. unfold closes_covered. rewrite Hcode, H1, H2, H3. rewrite length_fmap.
    set (own := own_rows prices _). split; [done|].
    destruct (pr_observed_at <$> own) as [|t ts] eqn:Ht; simpl; [by apply fmap_nil_inv in Ht|].
    assert (∀ x, x ∈ t :: ts ↔ ∃ r, r ∈ own ∧ pr_observed_at r = x) as Hin.
    { intros x. rewrite <-Ht, list_elem_of_fmap. naive_solver. }
    split_and!.
    - destruct (proj1 (Hin _) (foldl_pick Z.min ts t ltac:(lia))) as (r&?&<-). by exists r.
    - destruct (proj1 (Hin _) (foldl_pick Z.max ts t ltac:(lia))) as (r&?&<-). by exists r.
    - intros r Hr. assert (pr_observed_at r ∈ t :: ts) as Hx by (apply Hin; by exists r).
      split; apply date_of_mono; [by apply foldl_min_le|by apply foldl_max_ge]. }
  unfold cover_fund. case_bool_decide as Heq.
  - injection Heq as H1 H2 H3. by apply Hgen.
  - by apply Hgen.
Qed.

Lemma fund_stored_ok db bars at_ db' fund code new_bars :
  fund_stored db bars at_ db' fund code new_bars → funds_ok db → funds_ok db'.
Proof.
  intros [Hasc [Hf He] Hn _ Hp Hc Hr Hcov _] [[T1 T2 T3] Kc Kv].
  assert (fu_instrument_code (cover_fund (fund_prices db') at_ fund) = fu_instrument_code fund) as Hcode.
  { unfold cover_fund. by case_bool_decide. }
  assert (∀ c f, commodity_funds db' !! c = Some f → c ≠ code → commodity_funds db !! c = Some f) as Hother.
  { intros c f. rewrite Hcov. intros [[<- _]|[_ ?]]%lookup_insert_Some; done. }
  split.
  - destruct Hr as [n Hr]. destruct (insert_raws_spec _ _ _ _ Hr) as (_&Hnd&_). rewrite Hp. split; [|by apply Forall_app|by apply Hnd].
    rewrite fmap_app. apply NoDup_app. split; [done|]. split; [|by apply close_keys_NoDup].
    intros k Hk1 (r&->&Hr')%list_elem_of_fmap. revert Hk1. apply (close_keys_new _ (fu_instrument_code fund) at_ new_bars); [|done].
    rewrite Hn. by intros b [_ Hb]%elem_of_bool_filter.
  - intros c c' f f'. rewrite Hcov. intros [[<- <-]|[Hne H1]]%lookup_insert_Some [[<- <-]|[Hne' H2]]%lookup_insert_Some;
      rewrite ?Hcode; eauto.
  - intros c f Hcf. destruct (decide (c = code)) as [->|Hne].
    + rewrite Hcov, lookup_insert_eq in Hcf. injection Hcf as <-. apply cover_fund_covered.
    + apply (Hother c f Hcf) in Hne as Hold. pose proof (Kv _ _ Hold) as Hk. unfold closes_covered in *.
      replace (own_rows (fund_prices db') (fu_instrument_code f)) with (own_rows (fund_prices db) (fu_instrument_code f)); [done|].
      rewrite Hp. unfold own_rows. rewrite bool_filter_app.
      rewrite (proj2 (filter_nil_iff _ (close_row _ _ <$> _))), app_nil_r; [done|].
      apply Forall_fmap, Forall_forall. intros b _. simpl.
      destruct (String.eqb_spec (fu_instrument_code fund) (fu_instrument_code f)) as [Heq|]; [|done].
      exfalso. by apply Hne, (Kc c code f fund).
Qed.

(** ** Many lists *)
Definition fund_took (disk : string → option file) (paths : list string) (at_ : instant)
    (db db' : FundsDB) : Prop :=
  ∃ path payload rep, path ∈ paths ∧ BourseIngest.read_payload_file disk path = Ok payload ∧
    ingest_fund_closes repr iso_date isoformat db payload at_ = Ok (db', rep).

Record funds_progress (disk : string → option file) (paths : list string) (at_ : instant)
    (db0 : FundsDB) (items : Z) (st : FundsDB * FundsReport) : Prop := {
  fp_steps : nsteps (fund_took disk paths at_) (Z.to_nat (fs_succeeded st.2)) db0 st.1;
  fp_count : 0 ≤ fs_succeeded st.2;
  fp_total : fs_succeeded st.2 + fs_failed st.2 = items;
  fp_errors : fs_failed st.2 = Z.of_nat (length (fs_errors st.2));
}.

Lemma fund_file_progress disk paths at_ db0 items st path :
  path ∈ paths → funds_progress disk paths at_ db0 items st →
  funds_progress disk paths at_ db0 (items + 1) (fund_file repr iso_date isoformat disk at_ st path).
Proof.
  intros Hin [H1 H2 H3 H4].
  assert (∀ e, funds_progress disk paths at_ db0 (items + 1)
    (st.1, {| fs_funds := fs_funds st.2; fs_errors := fs_errors st.2 ++ [(path, e)];
              fs_succeeded := fs_succeeded st.2; fs_failed := fs_failed st.2 + 1 |})) as Hfail.
  { intros e. split; simpl; [done|done|lia|]. rewrite length_app. simpl. lia. }
  unfold fund_file. destruct (BourseIngest.read_payload_file disk path) as [payload|e] eqn:Hr; [|done].
  destruct (ingest_fund_closes _ _ _ st.1 payload at_) as [[db' rep]|e] eqn:Hi; [|done].
  assert (fund_took disk paths at_ st.1 db') as Ht by (by exists path, payload, rep).
  pose proof (nsteps_r _ _ _ _ H1 Ht) as Hs. rewrite <-Z2Nat.inj_succ in Hs by lia.
  by split; simpl; [|lia|lia|].
Qed.

Lemma funds_run_progress disk db paths at_ :
  ∃ r, funds_progress disk paths at_ db (Z.of_nat (length paths))
         ((ingest_fund_files repr iso_date isoformat disk db paths at_).1, r) ∧
    (ingest_fund_files repr iso_date isoformat disk db paths at_).2 =
      match paths with
      | [] => NoFundsNamed
      | _ => if fs_succeeded r =? 0 then AllFundsFailed r else FundsReported r
      end.
Proof.
  assert (∀ todo items st, (∀ p, p ∈ todo → p ∈ paths) → funds_progress disk paths at_ db items st →
    funds_progress disk paths at_ db (items + Z.of_nat (length todo))
      (foldl (fund_file repr iso_date isoformat disk at_) st todo)) as Hgen.
  { induction todo as [|p todo IH]; intros items st Hin Hp; simpl; [by rewrite Z.add_0_r|].
    replace (items + Z.of_nat (S (length todo))) with (items + 1 + Z.of_nat (length todo)) by lia.
    apply IH; [set_solver|]. apply fund_file_progress; [set_solver|done]. }
  destruct (Hgen paths 0 (db, empty_funds_report)) as [H1 H2 H3 H4]; [done|by split; [apply nsteps_O|..]|].
  unfold ingest_fund_files. destruct paths as [|path paths]; [exists empty_funds_report; by split|].
  destruct (foldl _ _ (path :: paths)) as [db' r]. exists r. by split.
Qed.
End Transaction.

Section Theorems.
Context `{NF : !NumericFloat} `{NO : !NumericOrder} `{JC : !JsonColumn}.
Context (repr : json → string) (iso_date : date → string) (isoformat : instant → string).

(** Exactly which closes a list adds.  An accepted list appends to the prices, in order, one
    row per session that was traded, whose stamp has passed, that lies before the day of the
    first observation of any other source, and that is not stored yet, and no other row: its
    value is a tenth of the rial close, its stamp 23:00 UTC of its own day, never after the
    instant it was collected at. *)
Theorem fund_closes_exact (db : FundsDB) (payload : json) (at_ : instant) (db' : FundsDB) (rep : FundReport) :
  ingest_fund_closes repr iso_date isoformat db payload at_ = Ok (db', rep) →
  ∃ bars fund new_bars,
    parse_daily_list repr payload EmptyString = Ok bars ∧
    commodity_funds db !! fr_ins_code rep = Some fund ∧ fu_enabled fund = true ∧
    fund_prices db' = fund_prices db ++ (close_row (fu_instrument_code fund) at_ <$> new_bars) ∧
    strictly_ascending trade_date new_bars ∧
    (∀ b, b ∈ new_bars ↔ b ∈ bars ∧ may_store (fund_prices db) (fu_instrument_code fund) at_ b ∧
       ∀ r, r ∈ own_rows (fund_prices db) (fu_instrument_code fund) →
            pr_observed_at r ≠ close_stamp (trade_date b)) ∧
    ∀ r, r ∈ close_row (fu_instrument_code fund) at_ <$> new_bars → pr_observed_at r ≤ pr_collected_at r.
Proof.
  intros (bars&fund&new_bars&Hp&[Hasc [Hf He] Hn _ Hpr _ _ _ _])%ingest_fund_inv.
  assert (∀ b, b ∈ new_bars ↔ b ∈ bars ∧ may_store (fund_prices db) (fu_instrument_code fund) at_ b ∧
       ∀ r, r ∈ own_rows (fund_prices db) (fu_instrument_code fund) →
            pr_observed_at r ≠ close_stamp (trade_date b)) as Hin.
  { intros b. rewrite Hn, elem_of_bool_filter, settled_elem, is_new_close_true; tauto. }
  exists bars, fund, new_bars. do 6 (split; [done|]).
  intros r (b&->&(_&(_&Hle&_)&_)%Hin)%list_elem_of_fmap. exact Hle.
Qed.

(** C33. No step that no price made.  The sessions of a run are those it stored a close of and the
    rows without trade after the newest stored close.  After an accepted list, wherever two
    consecutive sessions of it, one of them of the run, skip no session of the exchange's stored
    calendar, the later one opened, to a rial or one part in ten thousand, on the earlier one's
    close: ten times the toman close that was stored, where one was, and not the list's own copy
    of it.  And a row without trade closed on its own reference. *)
Theorem fund_no_step (db : FundsDB) (payload : json) (at_ : instant) (db' : FundsDB) (rep : FundReport) :
  NoDup (price_key <$> fund_prices db) →
  ingest_fund_closes repr iso_date isoformat db payload at_ = Ok (db', rep) →
  ∃ bars fund,
    parse_daily_list repr payload EmptyString = Ok bars ∧ commodity_funds db !! fr_ins_code rep = Some fund ∧
    (∀ p c x, adjacent bars p c →
       of_the_run db db' (fu_instrument_code fund) p ∨ of_the_run db db' (fu_instrument_code fund) c →
       (∀ d, trade_date p < d < trade_date c → rows_of TEDPIX (index_sessions db) ∅ !! d = None) →
       carried (fund_prices db) (fu_instrument_code fund) p x → to_rounding (price_yesterday c) x) ∧
    ∀ b, b ∈ bars → of_the_run db db' (fu_instrument_code fund) b → traded b = false →
      to_rounding (final_close b) (price_yesterday b).
Proof.
  intros Hkeys (bars&fund&new_bars&Hp&[_ [Hf _] _ Hj Hpr _ _ _ _])%ingest_fund_inv.
  exists bars, fund. do 2 (split; [done|]). unfold judge_fund in Hj. destruct (_ || _) in Hj; [done|].
  destruct bars as [|b0 bars].
  { split; [by intros p c x (i&Hi&_)|by intros b ?%elem_of_nil]. }
  set (stored := stored_closes _ _) in *. set (sessions := _market_sessions _ _ _) in Hj.
  destruct (reference_restatements _ _ _) eqn:Hr in Hj; [|done]. split.
  - intros p c x Hadj Hrun Hcal Hx. rewrite <-(as_stored_reference stored c), <-(carried_as_stored _ _ _ _ Hkeys Hx).
    apply (no_restatements _ _ _ _ _ Hr); rewrite ?as_stored_date; [by apply adjacent_fmap| |].
    + simpl. apply orb_true_iff. destruct Hrun; [left|right]; apply bool_decide_eq_true;
        (eapply of_the_run_judged; [exact Hpr| |done]); destruct Hadj as (i&Hi1&Hi2); by eapply list_elem_of_lookup_2.
    + apply elem_of_nil_inv. intros d. unfold sessions. rewrite between_elem by apply market_sessions_strict.
      intros [[[r Hd] _]%market_sessions_elem Hbetween]. by rewrite Hcal in Hd.
  - intros b Hb Hrun Ht. assert (as_stored stored b = b) as Hsame.
    { unfold as_stored. rewrite Ht. by destruct (stored !! _). }
    rewrite <-Hsame in Ht. rewrite <-Hsame. apply (no_halts _ _ _ _ Hr); [by apply list_elem_of_fmap_2| |done].
    rewrite as_stored_date. apply bool_decide_eq_true. by eapply of_the_run_judged.
Qed.

(** The tables stay well-formed through any run of fund files: unique keys stay unique, the
    CHECK of the prices holds, the coverage columns of every fund are the first day, the last
    day and the count of its closes; and no price or observation that was stored is changed. *)
Theorem funds_run_preserves disk (db : FundsDB) paths at_ :
  funds_ok db →
  let db' := (ingest_fund_files repr iso_date isoformat disk db paths at_).1 in
  funds_ok db' ∧ fund_prices db `prefix_of` fund_prices db' ∧ fund_raw db `prefix_of` fund_raw db'.
Proof.
  intros Hok db'. destruct (funds_run_progress repr iso_date isoformat disk db paths at_) as (r&[Hs _ _ _]&_).
  simpl in Hs. fold db' in Hs. clearbody db'.
  induction Hs as [|n x y z (path&payload&rep&_&_&Hi) _ IH]; [done|].
  apply ingest_fund_inv in Hi as (bars&fund&new_bars&_&Hst).
  destruct (IH (fund_stored_ok _ _ _ _ _ _ _ _ _ Hst Hok)) as (H1&H2&H3). split_and!; [done|etrans; [|done]..].
  - rewrite (fs_prices _ _ _ _ _ _ _ _ _ Hst). by eexists.
  - destruct (fs_raw _ _ _ _ _ _ _ _ _ Hst) as [nr Hr]. by apply (insert_raws_spec _ _ _ _ Hr).
Qed.

(** A run isolates its funds: it leaves the tables of exactly the lists it counts as
    succeeded, every path is counted once, every failure is named and leaves no trace. *)
Theorem funds_run_isolated disk (db : FundsDB) paths at_ :
  let run := ingest_fund_files repr iso_date isoformat disk db paths at_ in
  match run.2 with
  | NoFundsNamed => paths = [] ∧ run.1 = db
  | AllFundsFailed r => length (fs_errors r) = length paths ∧ run.1 = db
  | FundsReported r =>
      nsteps (fund_took repr iso_date isoformat disk paths at_) (Z.to_nat (fs_succeeded r)) db run.1 ∧
      fs_succeeded r + fs_failed r = Z.of_nat (length paths) ∧
      fs_failed r = Z.of_nat (length (fs_errors r)) ∧ 0 < fs_succeeded r
  end.
Proof.
  intros run. destruct (funds_run_progress repr iso_date isoformat disk db paths at_) as (r&[Hs Hc Ht He]&Hout).
  fold run in Hs, Hout. simpl in *. rewrite Hout. destruct paths as [|path paths]; [done|].
  destruct (Z.eqb_spec (fs_succeeded r) 0) as [Hz|Hz].
  - split; [lia|]. rewrite Hz in Hs. by inversion Hs.
  - split_and!; [done..|lia].
Qed.
End Theorems.

(** ** At concrete inputs *)
#[local] Instance demo_numbers : NumericOrder := {| storable := λ x, negb (is_nan x); num_le := fle |}.
#[local] Instance demo_json : JsonColumn := {| json_column := λ _, true |}.

Definition demo_fund : Fund :=
  {| fu_instrument_code := "IR_GOLD_FUND_AYAR"; fu_symbol_fa := "AYAR"; fu_name_fa := EmptyString;
     fu_underlying := "gold"; fu_enabled := true; first_close := None; last_close := None;
     close_count := 0; fu_updated_at := None |}.

(** The calendar holds 2023-03-27, and another source has observed AYAR since 2023-04-01. *)
Definition demo_index_row : IndexRow :=
  {| ix_close := fone; ix_low := None; ix_high := None; scale_exp := 0; ix_collected_at := 0 |}.
Definition demo_live : PriceRow :=
  {| pr_symbol := "IR_GOLD_FUND_AYAR"; pr_value := float_of_Z 7800; pr_currency := "IRT"; pr_unit := "unit";
     pr_source := "tse_funds"; pr_observed_at := combine (ordinal 2023 4 1) us_hour; pr_collected_at := 0;
     pr_quality := "ok" |}.
Definition demo_funds (calendar : list date) : FundsDB :=
  {| commodity_funds := {[ "123" := demo_fund ]}; fund_prices := [demo_live]; fund_raw := [];
     index_sessions := {[ TEDPIX := list_to_map ((λ d, (d, demo_index_row)) <$> calendar) ]} |}.
Definition demo_calendar : list date := [ordinal 2023 3 26; ordinal 2023 3 27; ordinal 2023 3 28].

(** A copy that lacks the session of 2023-03-27, and one session of the live era. *)
Definition gappy_list : json := JObj
  [(FIELD_LIST, JArr [a_row 20230401 77500 77341 9; a_row 20230328 77341 77041 9; a_row 20230326 75820 75800 9])].

Definition demo_at : instant := combine (ordinal 2023 4 2) 0.

Definition demo_ingest (calendar : list date) : result fund_error (FundsDB * FundReport) :=
  ingest_fund_closes no_repr str_of_Z str_of_Z (demo_funds calendar) gappy_list demo_at.

Definition the_closes (m : result fund_error (FundsDB * FundReport)) : list (instant * float) :=
  match m with
  | Ok (db, _) => (λ r, (pr_observed_at r, pr_value r)) <$> own_rows (fund_prices db) "IR_GOLD_FUND_AYAR"
  | Err _ => []
  end.

(** The reference of 2023-03-28 is the close of the session the copy lacks: a gap, since the
    calendar has that session, and not a restatement. *)
Example gap_is_not_judged :
  (the_closes (demo_ingest demo_calendar), (λ x, (fr_served_gaps x.2, live_era_skipped x.2)) <$> demo_ingest demo_calendar) =
  ([(close_stamp (ordinal 2023 3 26), float_of_Z 7582); (close_stamp (ordinal 2023 3 28), fdiv_ieee (float_of_Z 77341) (float_of_Z 10))],
   Ok (1, 1)).
Proof. vm_compute. reflexivity. Qed.

(** Where the calendar does not have it, the list is refused. *)
Example unexplained_step_refused :
  (λ _, ()) <$> demo_ingest [] =
  Err (FundRestated "123" [(ordinal 2023 3 28, float_of_Z 75820, float_of_Z 77041)]).
Proof. vm_compute. reflexivity. Qed.

Definition demo_done : FundsDB * FundReport :=
  match demo_ingest demo_calendar with
  | Ok x => x
  | Err _ => (demo_funds [], {| fr_ins_code := EmptyString; fr_instrument_code := EmptyString;
      fr_symbol := EmptyString; sessions_total := 0; closes_inserted := 0; closes_existing := 0;
      fr_restated := 0; fr_restated_examples := []; carry_forward_skipped := 0; unsettled_skipped := 0;
      live_era_skipped := 0; live_era_from := None; fr_served_gaps := 0; served_gap_examples := [];
      fr_first_date := None; fr_last_date := None; fr_last_close := None |})
  end.

Lemma demo_ingest_done :
  ingest_fund_closes no_repr str_of_Z str_of_Z (demo_funds demo_calendar) gappy_list demo_at
  = Ok (demo_done.1, demo_done.2).
Proof. vm_compute. reflexivity. Qed.

Lemma fund_closes_exact_witness :
  ∃ bars fund new_bars,
    parse_daily_list no_repr gappy_list EmptyString = Ok bars ∧ length new_bars = 2%nat ∧
    fund_prices demo_done.1 = [demo_live] ++ (close_row (fu_instrument_code fund) demo_at <$> new_bars).
Proof.
  destruct (fund_closes_exact no_repr str_of_Z str_of_Z (demo_funds demo_calendar) gappy_list demo_at
              demo_done.1 demo_done.2 demo_ingest_done) as (bars&fund&new_bars&Hp&_&_&Hpr&_).
  exists bars, fund, new_bars. split; [exact Hp|]. split; [|exact Hpr].
  apply (f_equal length) in Hpr. rewrite length_app, length_fmap in Hpr.
  assert (length (fund_prices demo_done.1) = 3%nat) as Hl by (vm_compute; reflexivity).
  rewrite Hl in Hpr. simpl in Hpr. lia.
Defined.

Lemma fund_no_step_witness :
  ∃ bars fund,
    parse_daily_list no_repr gappy_list EmptyString = Ok bars ∧
    commodity_funds (demo_funds demo_calendar) !! fr_ins_code demo_done.2 = Some fund ∧
    (∀ p c x, adjacent bars p c →
       of_the_run (demo_funds demo_calendar) demo_done.1 (fu_instrument_code fund) p ∨
       of_the_run (demo_funds demo_calendar) demo_done.1 (fu_instrument_code fund) c →
       (∀ d, trade_date p < d < trade_date c → rows_of TEDPIX (index_sessions (demo_funds demo_calendar)) ∅ !! d = None) →
       carried [demo_live] (fu_instrument_code fund) p x → to_rounding (price_yesterday c) x) ∧
    ∀ b, b ∈ bars → of_the_run (demo_funds demo_calendar) demo_done.1 (fu_instrument_code fund) b → traded b = false →
      to_rounding (final_close b) (price_yesterday b).
Proof.
  exact (fund_no_step no_repr str_of_Z str_of_Z (demo_funds demo_calendar) gappy_list demo_at
           demo_done.1 demo_done.2 (NoDup_singleton _) demo_ingest_done).
Defined.

Lemma demo_funds_ok : funds_ok (demo_funds demo_calendar).
Proof.
  split.
  - split; [apply NoDup_singleton|repeat constructor|apply NoDup_nil_2].
  - intros c c' f f' H1 H2 _. simpl in H1, H2.
    apply lookup_singleton_Some in H1 as [<- _]. by apply lookup_singleton_Some in H2 as [<- _].
  - intros c f H1. simpl in H1. apply lookup_singleton_Some in H1 as [_ <-]. by split.
Qed.

Definition fund_disk (path : string) : option file :=
  if String.eqb path "ayar.json" then Some {| f_size := 4000; f_json := Some gappy_list |} else None.

Lemma funds_run_preserves_witness :
  let db' := (ingest_fund_files no_repr str_of_Z str_of_Z fund_disk (demo_funds demo_calendar)
                ["ayar.json"; "lost.json"] demo_at).1 in
  funds_ok db' ∧ [demo_live] `prefix_of` fund_prices db' ∧ [] `prefix_of` fund_raw db'.
Proof.
  exact (funds_run_preserves no_repr str_of_Z str_of_Z fund_disk (demo_funds demo_calendar)
           ["ayar.json"; "lost.json"] demo_at demo_funds_ok).
Defined.
