(* ===== verification/Collect.v ===== *)
(** * The collection job

    [app/jobs/collect.py]: one pass over the requested jobs, each consulting its
    providers in order of priority; classification of every quote, the promotion of
    suspects (by another quote of the cycle or by repetition), the stores, and the
    dispersion pass over the quotes the fallback skipped.  [build_provider] of
    providers/registry.py and [upsert_setting] of jobs/evaluate.py are here too.

    The pass is a computation over [Run], the tables and the variables of
    [run_collect]; what was committed before an exception stays.  The network, the
    clock and the warnings are outside: [fetch] answers the [n]-th request of the
    run, [utcnow] is the [n]-th reading of the clock, and a warning is recorded as
    the data of its message.  Metrics are left out. *)
From S2P Require Import Prelude PyFloat PyTime Numeric PyText PyJson MarketHours Validation Breaker ProviderRegistry PriceDB.
From Stdlib Require Import Ascii.
Local Open Scope string_scope.
Local Open Scope list_scope.
Local Open Scope Z_scope.

Definition JOB_SYMBOLS : list (string * list string) :=
  [("iran_gold", ["IR_GOLD_18K"; "IR_COIN_EMAMI"]);
   ("fx", ["USD_IRT"]);
   ("global", ["XAUUSD"; "XAGUSD"]);
   ("macro", ["BRENT_OIL"; "DXY"; "US10Y"]);
   ("funds", ["IR_GOLD_FUND_AYAR"; "IR_GOLD_FUND_TALA"; "IR_GOLD_FUND_FLOW"])].

Definition JOB_PROVIDER_CATEGORIES : list (string * list string) :=
  [("iran_gold", ["iran_gold"]);
   ("fx", ["fx"; "iran_gold"]);
   ("global", ["global_gold"; "iran_gold"]);
   ("macro", ["global_gold"; "macro"]);
   ("funds", ["iran_fund"])].

Definition RECENT_WINDOW : nat := 30.
Definition SUSPECT_HISTORY_LIMIT : nat := 40.
Definition FREEZE_ALERT_KEY : string := "suspect_freeze_alerts".
Definition FREEZE_ALERT_COOLDOWN_MINUTES : float := float_of_Z 180.
Definition PEER_DISPERSION_KEY : string := "peer_dispersion".
Definition FUNDS_JOB : string := "funds".
Definition _TSE_THURSDAY : Z := 3.
Definition _TSE_FRIDAY : Z := 4.
Definition FUNDS_ATTEMPT_KEY : string := "tse_funds_last_attempt".

(** The settings the pass reads. *)
Record CollectSettings : Set := {
  cs_market : Settings;
  tsetmc_fetch_times : string;
  brsapi_api_key : string;
  navasan_api_key : string;
  metals_dev_api_key : string;
}.

(** Is an adapter built for the code?  A keyed one only with its key. *)
Definition build_provider (code : string) (s : CollectSettings) : bool :=
  if mem code ["tgju"; "alanchand"; "bitmax"; "hamrahgold"; "milligold"; "yahoo"; "stooq";
               "pricedb"; "gold_api"] then true
  else if mem code ["brsapi"; "tse_funds"] then negb (String.eqb (brsapi_api_key s) EmptyString)
  else if mem code ["worldbank"; "imf_weo"] then true
  else if String.eqb code "navasan" then negb (String.eqb (navasan_api_key s) EmptyString)
  else if String.eqb code "metals_dev" then negb (String.eqb (metals_dev_api_key s) EmptyString)
  else false.

(** ** The slots of the funds job *)
Fixpoint parse_parts (parts : list string) : list Z :=
  match parts with
  | [] => []
  | part :: parts =>
      let part := strip part in
      if String.eqb part EmptyString then parse_parts parts
      else
        match split ":"%char part with
        | [hh; mm] =>
            match (h ← py_int hh; m ← py_int mm; mk_time h m) with
            | Ok t => t :: parse_parts parts
            | Err _ => parse_parts parts
            end
        | _ => parse_parts parts
        end
  end.

Definition _parse_fetch_times (raw : string) : list Z :=
  match py_sorted Z.ltb (parse_parts (split ","%char raw)) with
  | [] => [clock 12 0; clock 15 0; clock 18 0]
  | out => out
  end.

(** ** The window of accepted values *)
Fixpoint _since_last_level_reset (values : list float) : result pyerr (list float) :=
  match values with
  | newer :: ((older :: _) as rest) =>
      j ← jump_pct newer older;
      if fgt j MAX_JUMP_PCT then Ok [newer]
      else kept ← _since_last_level_reset rest; Ok (newer :: kept)
  | _ => Ok values
  end.

(** ** The state of a pass *)
Record DB : Type := {
  data_providers : gmap string ProviderRow;
  raw_observations : list RawRow;
  prices : list PriceRow;
  app_settings : gmap string (json * instant);
}.

(** [errors], by what each text says. *)
Inductive collect_error : Set :=
| ProviderFailed (code text : string)
| Rejected (code symbol : string) (why : option reason)
| HeldAsSuspect (code symbol : string) (why : option reason)
| OnlyStale (job symbol : string)
| NoGoodValue (job symbol : string)
| DispersionFailed (e : exn).

Inductive warning : Set :=
| SeriesFrozen (obs : Observation) (streak : SuspectStreak) (why : option reason)
| NewLevel (obs : Observation) (streak : SuspectStreak) (why : option reason)
| DispersionWarning (e : exn).

Record Run : Type := {
  r_db : DB;
  ticks : nat;                            (** readings of the clock so far *)
  calls : list string;                    (** providers fetched so far *)
  warnings : list warning;
  collected : gmap string Z;
  errors : list collect_error;
  fetch_cache : gmap string (list Observation);
  failed_providers : gset string;
  attempted_symbols : gset string;
  handled : gset (string * string);
  cycle_values : gmap string (list (string * float));
  winners : gmap string Observation;
  (** of the job at hand *)
  symbols_needed : gset string;
  stale_only : gset string;
  suspects : gmap string (list Observation);
}.

(** ** Computations *)
Definition M (A : Type) : Type := Run → Run * result exn A.

#[export] Instance M_ret : MRet M := λ A a run, (run, Ok a).
#[export] Instance M_bind : MBind M := λ A B f m run,
  match m run with
  | (run, Ok a) => f a run
  | (run, Err e) => (run, Err e)
  end.

Definition get : M Run := λ run, (run, Ok run).
Definition modify (f : Run → Run) : M () := λ run, (f run, Ok ()).
Definition raise {A} (e : exn) : M A := λ run, (run, Err e).
Definition lift {A} (m : result pyerr A) : M A := λ run,
  (run, match m with Ok a => Ok a | Err e => Err (Raised e) end).

Fixpoint mfor {A} (body : A → M ()) (l : list A) : M () :=
  match l with
  | [] => mret ()
  | x :: l => body x ≫= λ _, mfor body l
  end.

Definition with_db (f : DB → DB) (r : Run) : Run :=
  Build_Run (f (r_db r)) (ticks r) (calls r) (warnings r) (collected r) (errors r) (fetch_cache r)
    (failed_providers r) (attempted_symbols r) (handled r) (cycle_values r) (winners r)
    (symbols_needed r) (stale_only r) (suspects r).
Definition with_ticks (f : nat → nat) (r : Run) : Run :=
  Build_Run (r_db r) (f (ticks r)) (calls r) (warnings r) (collected r) (errors r) (fetch_cache r)
    (failed_providers r) (attempted_symbols r) (handled r) (cycle_values r) (winners r)
    (symbols_needed r) (stale_only r) (suspects r).
Definition with_calls (f : list string → list string) (r : Run) : Run :=
  Build_Run (r_db r) (ticks r) (f (calls r)) (warnings r) (collected r) (errors r) (fetch_cache r)
    (failed_providers r) (attempted_symbols r) (handled r) (cycle_values r) (winners r)
    (symbols_needed r) (stale_only r) (suspects r).
Definition warn (w : warning) (r : Run) : Run :=
  Build_Run (r_db r) (ticks r) (calls r) (warnings r ++ [w]) (collected r) (errors r) (fetch_cache r)
    (failed_providers r) (attempted_symbols r) (handled r) (cycle_values r) (winners r)
    (symbols_needed r) (stale_only r) (suspects r).
Definition with_collected (f : gmap string Z → gmap string Z) (r : Run) : Run :=
  Build_Run (r_db r) (ticks r) (calls r) (warnings r) (f (collected r)) (errors r) (fetch_cache r)
    (failed_providers r) (attempted_symbols r) (handled r) (cycle_values r) (winners r)
    (symbols_needed r) (stale_only r) (suspects r).
Definition error (e : collect_error) (r : Run) : Run :=
  Build_Run (r_db r) (ticks r) (calls r) (warnings r) (collected r) (errors r ++ [e]) (fetch_cache r)
    (failed_providers r) (attempted_symbols r) (handled r) (cycle_values r) (winners r)
    (symbols_needed r) (stale_only r) (suspects r).
Definition with_cache (f : gmap string (list Observation) → gmap string (list Observation))
    (r : Run) : Run :=
  Build_Run (r_db r) (ticks r) (calls r) (warnings r) (collected r) (errors r) (f (fetch_cache r))
    (failed_providers r) (attempted_symbols r) (handled r) (cycle_values r) (winners r)
    (symbols_needed r) (stale_only r) (suspects r).
Definition with_failed (f : gset string → gset string) (r : Run) : Run :=
  Build_Run (r_db r) (ticks r) (calls r) (warnings r) (collected r) (errors r) (fetch_cache r)
    (f (failed_providers r)) (attempted_symbols r) (handled r) (cycle_values r) (winners r)
    (symbols_needed r) (stale_only r) (suspects r).
Definition with_attempted (f : gset string → gset string) (r : Run) : Run :=
  Build_Run (r_db r) (ticks r) (calls r) (warnings r) (collected r) (errors r) (fetch_cache r)
    (failed_providers r) (f (attempted_symbols r)) (handled r) (cycle_values r) (winners r)
    (symbols_needed r) (stale_only r) (suspects r).
Definition with_handled (f : gset (string * string) → gset (string * string)) (r : Run) : Run :=
  Build_Run (r_db r) (ticks r) (calls r) (warnings r) (collected r) (errors r) (fetch_cache r)
    (failed_providers r) (attempted_symbols r) (f (handled r)) (cycle_values r) (winners r)
    (symbols_needed r) (stale_only r) (suspects r).
Definition with_cycle (f : gmap string (list (string * float)) → gmap string (list (string * float)))
    (r : Run) : Run :=
  Build_Run (r_db r) (ticks r) (calls r) (warnings r) (collected r) (errors r) (fetch_cache r)
    (failed_providers r) (attempted_symbols r) (handled r) (f (cycle_values r)) (winners r)
    (symbols_needed r) (stale_only r) (suspects r).
Definition with_winners (f : gmap string Observation → gmap string Observation) (r : Run) : Run :=
  Build_Run (r_db r) (ticks r) (calls r) (warnings r) (collected r) (errors r) (fetch_cache r)
    (failed_providers r) (attempted_symbols r) (handled r) (cycle_values r) (f (winners r))
    (symbols_needed r) (stale_only r) (suspects r).
Definition with_needed (f : gset string → gset string) (r : Run) : Run :=
  Build_Run (r_db r) (ticks r) (calls r) (warnings r) (collected r) (errors r) (fetch_cache r)
    (failed_providers r) (attempted_symbols r) (handled r) (cycle_values r) (winners r)
    (f (symbols_needed r)) (stale_only r) (suspects r).
Definition with_stale (f : gset string → gset string) (r : Run) : Run :=
  Build_Run (r_db r) (ticks r) (calls r) (warnings r) (collected r) (errors r) (fetch_cache r)
    (failed_providers r) (attempted_symbols r) (handled r) (cycle_values r) (winners r)
    (symbols_needed r) (f (stale_only r)) (suspects r).
Definition with_suspects
    (f : gmap string (list Observation) → gmap string (list Observation)) (r : Run) : Run :=
  Build_Run (r_db r) (ticks r) (calls r) (warnings r) (collected r) (errors r) (fetch_cache r)
    (failed_providers r) (attempted_symbols r) (handled r) (cycle_values r) (winners r)
    (symbols_needed r) (stale_only r) (f (suspects r)).

Definition db_prices (f : list PriceRow → list PriceRow) (d : DB) : DB :=
  Build_DB (data_providers d) (raw_observations d) (f (prices d)) (app_settings d).
Definition db_raw (f : list RawRow → list RawRow) (d : DB) : DB :=
  Build_DB (data_providers d) (f (raw_observations d)) (prices d) (app_settings d).
Definition db_providers (f : gmap string ProviderRow → gmap string ProviderRow) (d : DB) : DB :=
  Build_DB (f (data_providers d)) (raw_observations d) (prices d) (app_settings d).
Definition db_settings (f : gmap string (json * instant) → gmap string (json * instant)) (d : DB) : DB :=
  Build_DB (data_providers d) (raw_observations d) (prices d) (f (app_settings d)).

(** [d[k] = v] of a dict in insertion order *)
Fixpoint dict_set {A} (k : string) (v : A) (d : list (string * A)) : list (string * A) :=
  match d with
  | [] => [(k, v)]
  | (k', w) :: d => if String.eqb k k' then (k, v) :: d else (k', w) :: dict_set k v d
  end.

(** [sorted(s)] of a set of strings *)
Definition sorted_set (s : gset string) : list string := py_sorted String.ltb (elements s).

(** What the database and the world outside supply. *)
Class World : Type := {
  utcnow : nat → instant;
  fetch : nat → string → result string (list Observation);
  collate_lt : string → string → bool;
  TEHRAN_TZ : tzinfo;
}.

Section Job.
Context `{NF : !NumericFloat} `{NO : !NumericOrder} `{SO : !SqlOrder} `{IN : !Interpreter} `{W : !World}.
Context (settings : CollectSettings).

(** [utcnow()] *)
Definition now : M instant :=
  run ← get; _ ← modify (with_ticks S); mret (utcnow (ticks run)).

(** ** Reading the tables *)
Definition ok_prices (db : DB) (symbol : string) : list PriceRow :=
  List.filter (λ r, String.eqb (pr_symbol r) symbol && String.eqb (pr_quality r) "ok") (prices db).

Definition _recent_values (db : DB) (symbol : string) : result pyerr (list float) :=
  _since_last_level_reset
    (pr_value <$> take RECENT_WINDOW (newest_first pr_observed_at (ok_prices db symbol))).

Definition _last_price_at (db : DB) (symbol : string) : option instant :=
  match pr_observed_at <$> ok_prices db symbol with
  | [] => None
  | t :: ts => Some (foldl Z.max t ts)
  end.

Definition _provider_history (db : DB) (symbol provider_code : string) : list history_row :=
  (λ r, (aware (raw_observed_at r) 0, raw_value r, raw_quality r)) <$>
  take SUSPECT_HISTORY_LIMIT
    (newest_first raw_observed_at
       (List.filter (λ r, String.eqb (raw_symbol r) symbol
                          && String.eqb (raw_provider_code r) provider_code)
          (raw_observations db))).

Definition _suspect_state (db : DB) (obs : Observation) : result pyerr (SuspectStreak * bool) :=
  streak ← suspect_streak (o_raw_value obs) (o_observed_at obs)
             (_provider_history db (o_symbol obs) (o_provider_code obs)) CONFIRM_TOLERANCE_PCT;
  Ok (streak, match _last_price_at db (o_symbol obs) with
              | None => true
              | Some last_price => last_price <? since streak
              end).

(** ** [app_settings] *)
Definition upsert_setting (key : string) (value : json) : M () :=
  at_ ← now; modify (with_db (db_settings (insert key (value, at_)))).

(** [value.get(key)] of a setting that is an object with a non-empty string there *)
Definition setting_text (value : option (json * instant)) (key : string) : option string :=
  match value with
  | Some (JObj items, _) =>
      match jget key items with
      | JStr s => if String.eqb s EmptyString then None else Some s
      | _ => None
      end
  | _ => None
  end.

Definition marker_instant (text : option string) : option instant :=
  match text with
  | Some s => match fromisoformat s with Ok dt => Some (to_utc dt) | Err _ => None end
  | None => None
  end.

Definition mark_funds_attempt : M () :=
  at_ ← now; upsert_setting FUNDS_ATTEMPT_KEY (JObj [("at", JStr (isoformat at_))]).

(** The latest slot of the day that has passed at the wall time [local]. *)
Definition passed_slot (local : Z) : option Z :=
  match List.filter (λ t, t <=? time_of local) (_parse_fetch_times (tsetmc_fetch_times settings)) with
  | [] => None
  | t :: ts => Some (foldl Z.max t ts)
  end.

Definition last_funds_fetch (db : DB) : option instant :=
  match raw_collected_at <$>
          List.filter (λ r, String.eqb (raw_provider_code r) "tse_funds") (raw_observations db) with
  | [] => None
  | t :: ts => Some (foldl Z.max t ts)
  end.

Definition funds_job_due (db : DB) (at_ : instant) : bool :=
  let local := to_wall TEHRAN_TZ at_ in
  if (weekday (date_of local) =? _TSE_THURSDAY) || (weekday (date_of local) =? _TSE_FRIDAY)
  then false
  else
    match passed_slot local with
    | None => false
    | Some slot =>
        let slot_utc := of_wall TEHRAN_TZ (combine (date_of local) slot) in
        match option_list (last_funds_fetch db)
              ++ option_list (marker_instant (setting_text (app_settings db !! FUNDS_ATTEMPT_KEY) "at")) with
        | [] => true
        | t :: ts => foldl Z.max t ts <? slot_utc
        end
    end.

(** ** Storing a quote *)
Definition raw_row (at_ : instant) (obs : Observation) (quality : string) : RawRow :=
  {| raw_provider_code := o_provider_code obs; raw_symbol := o_symbol obs;
     raw_value := numeric (o_raw_value obs); raw_unit := o_raw_unit obs;
     raw_currency := o_raw_currency obs; raw_payload := o_raw_payload obs;
     raw_observed_at := to_utc (o_observed_at obs); raw_collected_at := at_;
     raw_quality := quality;
     raw_dedupe_key := build_dedupe_key (o_provider_code obs) (o_symbol obs) (o_observed_at obs)
                         (o_raw_value obs) |}.

Definition price_row (at_ : instant) (obs : Observation) : PriceRow :=
  {| pr_symbol := o_symbol obs; pr_value := numeric (o_value obs); pr_currency := o_currency obs;
     pr_unit := o_unit obs; pr_source := o_provider_code obs;
     pr_observed_at := to_utc (o_observed_at obs); pr_collected_at := at_; pr_quality := "ok" |}.

(** The transaction of [_store]; it answers whether each row went in. *)
Definition store_rows (db : DB) (at_ : instant) (obs : Observation) (quality : string)
    (canonical : bool) : result exn (DB * bool * bool) :=
  let raw := insert_raw (raw_observations db) (raw_row at_ obs quality) in
  let db := db_raw (λ _, fst raw) db in
  if String.eqb quality "ok" && canonical then
    p ← insert_price (prices db) (price_row at_ obs);
    Ok (db_prices (λ _, fst p) db, snd raw, snd p)
  else Ok (db, snd raw, false).

Definition _store (obs : Observation) (quality : string) (canonical : bool) : M (bool * bool) :=
  at_ ← now;
  run ← get;
  match store_rows (r_db run) at_ obs quality canonical with
  | Ok (db, raw_inserted, price_inserted) =>
      _ ← modify (with_db (λ _, db)); mret (raw_inserted, price_inserted)
  | Err e => raise e
  end.

(** ** The freeze warning *)
Definition _warn_series_frozen (obs : Observation) (streak : SuspectStreak) (why : option reason)
    : M () :=
  at_ ← now;
  if negb (is_market_open TEHRAN_TZ (o_symbol obs) at_ (cs_market settings)) then mret ()
  else
    run ← get;
    let stored := app_settings (r_db run) !! FREEZE_ALERT_KEY in
    let recent :=
      match marker_instant (setting_text stored (o_symbol obs)) with
      | Some previous =>
          flt (total_seconds (at_ - previous)) (fmul FREEZE_ALERT_COOLDOWN_MINUTES (float_of_Z 60))
      | None => false
      end in
    if recent then mret ()
    else
      _ ← modify (warn (SeriesFrozen obs streak why));
      let state := match stored with Some (JObj items, _) => items | _ => [] end in
      upsert_setting FREEZE_ALERT_KEY
        (JObj (dict_set (o_symbol obs) (JStr (isoformat at_)) state)).

(** ** One quote of a provider *)
Definition note_value (symbol code : string) (value : float)
    (c : gmap string (list (string * float))) : gmap string (list (string * float)) :=
  <[symbol := dict_set code value (default [] (c !! symbol))]> c.

Definition count_price (symbol : string) (c : gmap string Z) : gmap string Z :=
  <[symbol := default 0 (c !! symbol) + 1]> c.

Definition set_default {A} (k : string) (a : A) (m : gmap string A) : gmap string A :=
  match m !! k with Some _ => m | None => <[k := a]> m end.

(** [any(values_agree(obs.value, other.value) for other in others)] *)
Fixpoint any_agrees (value : float) (others : list Observation) : result pyerr bool :=
  match others with
  | [] => Ok false
  | other :: others =>
      a ← values_agree value (o_value other) CONFIRM_TOLERANCE_PCT;
      if (a : bool) then Ok true else any_agrees value others
  end.

(** A quote accepted for [symbol]: stored, noted for the dispersion, and counted when its
    price went in. *)
Definition record_price (symbol code : string) (obs : Observation) : M () :=
  s ← _store obs "ok" true;
  _ ← modify (with_cycle (note_value symbol code (o_value obs)));
  if negb (snd s) then mret ()
  else
    _ ← modify (with_collected (count_price symbol));
    modify (with_winners (set_default symbol obs)).

(** An earlier suspect of the job that [obs] confirms. *)
Definition promote (obs prior : Observation) : M () :=
  a ← lift (values_agree (o_value obs) (o_value prior) CONFIRM_TOLERANCE_PCT);
  if negb a then mret () else record_price (o_symbol obs) (o_provider_code prior) prior.

(** What follows a quote that is accepted. *)
Definition accept (code : string) (obs : Observation) : M () :=
  _ ← record_price (o_symbol obs) code obs;
  at_ ← now;
  if is_acceptably_fresh TEHRAN_TZ (o_symbol obs) (Some (o_observed_at obs)) (aware at_ 0)
       (cs_market settings) (Some (o_provider_code obs))
  then modify (with_needed (λ s, s ∖ {[o_symbol obs]}))
  else modify (with_stale (λ s, {[o_symbol obs]} ∪ s)).

Definition hold (code : string) (obs : Observation) (streak : SuspectStreak) (frozen : bool)
    (why : option reason) : M () :=
  _ ← modify (with_suspects (λ s, <[o_symbol obs := default [] (s !! o_symbol obs) ++ [obs]]> s));
  _ ← _store obs "suspect" true;
  _ ← (if frozen && (SUSPECT_ALERT_AFTER <=? streak_length streak)
       then _warn_series_frozen obs streak why else mret ());
  modify (error (HeldAsSuspect code (o_symbol obs) why)).

Definition consider_suspect (code : string) (obs : Observation) (why : option reason) : M () :=
  run ← get;
  let pending := default [] (suspects run !! o_symbol obs) in
  confirmed ← lift (any_agrees (o_value obs) pending);
  if (confirmed : bool) then
    _ ← modify (with_suspects (delete (o_symbol obs)));
    _ ← mfor (promote obs) pending;
    accept code obs
  else
    sf ← lift (_suspect_state (r_db run) obs);
    let '(streak, frozen) := sf in
    if frozen && sustained_by_repetition streak SUSTAIN_MIN_OBSERVATIONS SUSTAIN_MIN_SPAN_MINUTES
    then _ ← modify (warn (NewLevel obs streak why)); accept code obs
    else hold code obs streak frozen why.

Definition consider (code : string) (obs : Observation) : M () :=
  run ← get;
  if negb (bool_decide (o_symbol obs ∈ symbols_needed run)) then mret ()
  else
    recent ← lift (_recent_values (r_db run) (o_symbol obs));
    verdict ← lift (classify_observation (o_symbol obs) (o_value obs) recent (List.head recent));
    let '(quality, why) := verdict in
    _ ← modify (with_handled (λ h, {[(code, o_symbol obs)]} ∪ h));
    match quality with
    | q_outlier =>
        _ ← _store obs "outlier" true;
        modify (error (Rejected code (o_symbol obs) why))
    | q_suspect => consider_suspect code obs why
    | q_ok => accept code obs
    end.

(** ** One provider *)

(** The provider's quotes, fetched once a run; [None] when there are none to be had. *)
Definition quotes_of (code : string) : M (option (list Observation)) :=
  run ← get;
  match fetch_cache run !! code with
  | Some quotes => mret (Some quotes)
  | None =>
      if negb (build_provider code settings) then mret None
      else
        _ ← modify (with_calls (λ c, c ++ [code]));
        match fetch (List.length (calls run)) code with
        | Ok quotes =>
            _ ← modify (with_cache (insert code quotes));
            at_ ← now;
            _ ← modify (with_db (db_providers (record_success at_ code)));
            mret (Some quotes)
        | Err text =>
            _ ← modify (with_failed (λ s, {[code]} ∪ s));
            at_ ← now;
            _ ← modify (with_db (db_providers (record_failure at_ code text)));
            _ ← modify (error (ProviderFailed code text));
            mret None
        end
  end.

Definition consult (row : ProviderRow) : M () :=
  run ← get;
  let code := p_code row in
  if bool_decide (symbols_needed run = ∅) then mret ()
  else if bool_decide (code ∈ failed_providers run) then mret ()
  else
    quotes ← quotes_of code;
    match quotes with
    | Some quotes => mfor (consider code) quotes
    | None => mret ()
    end.

(** ** One job *)
Definition load_rows (job : string) : M (list ProviderRow) :=
  run ← get;
  let categories := default [] (assoc job JOB_PROVIDER_CATEGORIES) in
  let table := data_providers (r_db run) in
  let first := ticks run in
  _ ← modify (with_ticks (λ n,
        (n + length (List.filter (selected categories) (table_rows table)))%nat));
  mret (load_provider_rows collate_lt table categories (λ i, utcnow (first + i))).

Definition report_missing (job symbol : string) : M () :=
  run ← get;
  modify (error (if bool_decide (symbol ∈ stale_only run) then OnlyStale job symbol
                 else NoGoodValue job symbol)).

Definition run_job (job : string) : M () :=
  due ← (if String.eqb job FUNDS_JOB then
           at_ ← now;
           run ← get;
           if funds_job_due (r_db run) at_ then _ ← mark_funds_attempt; mret true else mret false
         else mret true);
  if negb due then mret ()
  else
    let needed : gset string := list_to_set (default [] (assoc job JOB_SYMBOLS)) in
    _ ← modify (with_needed (λ _, needed));
    _ ← modify (with_stale (λ _, ∅));
    rows ← load_rows job;
    let buildable := List.filter (λ r, build_provider (p_code r) settings) rows in
    match rows, buildable with
    | _ :: _, [] => mret ()
    | _, _ =>
        _ ← modify (with_attempted (λ s, s ∪ needed));
        _ ← modify (with_suspects (λ _, ∅));
        _ ← mfor consult rows;
        run ← get;
        mfor (report_missing job) (sorted_set (symbols_needed run))
    end.

(** ** Dispersion *)
Definition dispersion_json (d : dispersion) : json :=
  let number (x : option float) := match x with Some f => JFloat f | None => JNull end in
  JObj [("n_sources", JInt (Z.of_nat (n_sources d)));
        ("n_agreeing", JInt (Z.of_nat (n_agreeing d)));
        ("values", JObj ((λ sv, (sv.1, JFloat sv.2)) <$> values d));
        ("median", JFloat (disp_median d));
        ("spread_abs", JFloat (spread_abs d));
        ("spread_pct", number (spread_pct d));
        ("pct", number (spread_pct d));
        ("mad", JFloat (disp_mad d));
        ("mad_pct", number (mad_pct d));
        ("tolerance_pct", JFloat (disp_tolerance_pct d))].

Definition with_payload (p : list (string * json)) (r : RawRow) : RawRow :=
  {| raw_provider_code := raw_provider_code r; raw_symbol := raw_symbol r;
     raw_value := raw_value r; raw_unit := raw_unit r; raw_currency := raw_currency r;
     raw_payload := Some p; raw_observed_at := raw_observed_at r;
     raw_collected_at := raw_collected_at r; raw_quality := raw_quality r;
     raw_dedupe_key := raw_dedupe_key r |}.

Definition _annotate_dispersion (winner : Observation) (summary : dispersion) : M () :=
  let payload := dict_set PEER_DISPERSION_KEY (dispersion_json summary)
                   (default [] (o_raw_payload winner)) in
  let dedupe := build_dedupe_key (o_provider_code winner) (o_symbol winner)
                  (o_observed_at winner) (o_raw_value winner) in
  modify (with_db (db_raw (fmap (λ r,
    if String.eqb (raw_dedupe_key r) dedupe then with_payload payload r else r)))).

(** A quote the fallback skipped. *)
Definition store_peer (symbol code : string) (obs : Observation) : M () :=
  if negb (String.eqb (o_symbol obs) symbol) then mret ()
  else
    let sane := sanity_ok symbol (o_value obs) in
    _ ← _store obs (if sane then "ok" else "outlier") false;
    _ ← modify (with_handled (λ h, {[(code, symbol)]} ∪ h));
    if sane then modify (with_cycle (note_value symbol code (o_value obs))) else mret ().

Definition store_peers (symbol code : string) : M () :=
  run ← get;
  if bool_decide ((code, symbol) ∈ handled run) then mret ()
  else mfor (store_peer symbol code) (default [] (fetch_cache run !! code)).

Definition measure_symbol (symbol : string) : M () :=
  run ← get;
  _ ← mfor (store_peers symbol) (sorted_set (dom (fetch_cache run)));
  run ← get;
  summary ← lift (dispersion_summary (default [] (cycle_values run !! symbol)) CONFIRM_TOLERANCE_PCT);
  match summary, winners run !! symbol with
  | Some summary, Some winner => _annotate_dispersion winner summary
  | _, _ => mret ()
  end.

Definition _measure_dispersion : M () :=
  run ← get; mfor measure_symbol (sorted_set (attempted_symbols run)).

(** The [try] around the dispersion pass. *)
Definition guarded (m : M ()) : M () := λ run,
  match m run with
  | (run, Ok _) => (run, Ok ())
  | (run, Err e) => (error (DispersionFailed e) (warn (DispersionWarning e) run), Ok ())
  end.

(** ** The pass *)
Definition requested (jobs : option (list string)) : list string :=
  List.filter (λ j, match assoc j JOB_SYMBOLS with Some _ => true | None => false end)
    match jobs with Some ((_ :: _) as js) => js | _ => fst <$> JOB_SYMBOLS end.

Definition start (db : DB) : Run :=
  {| r_db := db; ticks := 0; calls := []; warnings := []; collected := ∅; errors := [];
     fetch_cache := ∅; failed_providers := ∅; attempted_symbols := ∅; handled := ∅;
     cycle_values := ∅; winners := ∅; symbols_needed := ∅; stale_only := ∅; suspects := ∅ |}.

Definition run_collect (jobs : option (list string)) (db : DB)
    : Run * result exn (gmap string Z * list collect_error) :=
  (_ ← mfor run_job (requested jobs);
   _ ← guarded _measure_dispersion;
   run ← get;
   mret (collected run, errors run)) (start db).
End Job.

(** ** Reasoning about a pass *)
Definition moves {A} (R : Run → Run → Prop) (m : M A) : Prop := ∀ run, R run (m run).1.

Section Moves.
Context (R : Run → Run → Prop) `{!PreOrder R}.

Lemma moves_ret {A} (a : A) : moves R (mret a).
Proof. intros run. reflexivity. Qed.

Lemma moves_lift {A} (m : result pyerr A) : moves R (lift m).
Proof. intros run. reflexivity. Qed.

Lemma moves_raise {A} e : moves R (raise (A := A) e).
Proof. intros run. reflexivity. Qed.

Lemma moves_bind {A B} (m : M A) (f : A → M B) :
  moves R m → (∀ a, moves R (f a)) → moves R (m ≫= f).
Proof.
  intros Hm Hf run. unfold mbind, M_bind. specialize (Hm run).
  destruct (m run) as [run' [a|e]]; simpl in *; [|done]. etransitivity; [done|]. apply Hf.
Qed.

Lemma moves_get {A} (f : Run → M A) : (∀ run, R run (f run run).1) → moves R (get ≫= f).
Proof. intros Hf run. apply Hf. Qed.

Lemma moves_mfor {A} (body : A → M ()) l : (∀ x, x ∈ l → moves R (body x)) → moves R (mfor body l).
Proof.
  induction l as [|x l IH]; intros H; simpl; [apply moves_ret|].
  apply moves_bind; [apply H; left|]. intros _. apply IH. intros y Hy. apply H. by right.
Qed.

(** A loop whose body needs a fact of its element that no step of the loop destroys. *)
Lemma mfor_stable {A} (P : A → Run → Prop) (body : A → M ()) l run :
  (∀ x r, x ∈ l → P x r → R r (body x r).1) →
  (∀ x r r', P x r → R r r' → P x r') →
  (∀ x, x ∈ l → P x run) → R run (mfor body l run).1.
Proof.
  intros Hbody Hstable. revert run. induction l as [|x l IH]; intros run HP; [reflexivity|].
  cbn [mfor]. unfold mbind, M_bind.
  pose proof (Hbody x run ltac:(left) (HP x ltac:(left))) as Hst.
  destruct (body x run) as [run' [[]|e]]; simpl in *; [|done].
  etransitivity; [exact Hst|]. apply IH.
  - intros y r Hy. apply Hbody. by right.
  - intros y Hy. eapply Hstable; [|done]. apply HP. by right.
Qed.

Lemma lift_bind {A B} (m : result pyerr A) (f : A → M B) run :
  (∀ a, m = Ok a → R run (f a run).1) → R run ((lift m ≫= f) run).1.
Proof. intros H. unfold mbind, M_bind, lift. destruct m; [by apply H|reflexivity]. Qed.
End Moves.

Section Facts.
Context `{NF : !NumericFloat} `{NO : !NumericOrder} `{SO : !SqlOrder} `{IN : !Interpreter} `{W : !World}.
Context (settings : CollectSettings).

(** *** Why a price is in the table *)

(** The verdict on a quote, against the prices of [db]. *)
Definition classified (db : DB) (obs : Observation) (q : quality) : Prop :=
  ∃ recent why, _recent_values db (o_symbol obs) = Ok recent ∧
    classify_observation (o_symbol obs) (o_value obs) recent (List.head recent) = Ok (q, why).

Definition quoted (cache : gmap string (list Observation)) (obs : Observation) : Prop :=
  ∃ code quotes, cache !! code = Some quotes ∧ obs ∈ quotes.

(** [obs] is the [i]-th quote the provider served in this pass. *)
Definition quote_at (cache : gmap string (list Observation)) (code : string) (i : nat)
    (obs : Observation) : Prop :=
  ∃ quotes, cache !! code = Some quotes ∧ quotes !! i = Some obs.

(** Another suspect quote of the pass, in another place of the providers' answers, of the
    same symbol, agrees with [obs]. *)
Definition corroborated (cache : gmap string (list Observation)) (ps : list PriceRow)
    (obs : Observation) : Prop :=
  ∃ code i code' i' other db db', quote_at cache code i obs ∧ quote_at cache code' i' other ∧
    (code, i) ≠ (code', i') ∧ o_symbol other = o_symbol obs ∧
    prices db `prefix_of` ps ∧ classified db obs q_suspect ∧
    prices db' `prefix_of` ps ∧ classified db' other q_suspect ∧
    (values_agree (o_value obs) (o_value other) CONFIRM_TOLERANCE_PCT = Ok true ∨
     values_agree (o_value other) (o_value obs) CONFIRM_TOLERANCE_PCT = Ok true).

(** A level its only source has sustained while the series was shut. *)
Definition sustained (db : DB) (obs : Observation) : Prop :=
  classified db obs q_suspect ∧
  ∃ streak, _suspect_state db obs = Ok (streak, true) ∧
    sustained_by_repetition streak SUSTAIN_MIN_OBSERVATIONS SUSTAIN_MIN_SPAN_MINUTES = true.

Definition justified (cache : gmap string (list Observation)) (ps : list PriceRow)
    (obs : Observation) : Prop :=
  quoted cache obs ∧
  (corroborated cache ps obs ∨
   ∃ db, prices db = ps ∧ (classified db obs q_ok ∨ sustained db obs)).

(** The table [q] is [p] with justified rows appended, each to the table it was judged by. *)
Inductive grown (cache : gmap string (list Observation)) (p : list PriceRow)
    : list PriceRow → Prop :=
| grown_none : grown cache p p
| grown_row q obs at_ :
    grown cache p q → justified cache q obs → grown cache p (q ++ [price_row at_ obs]).

Lemma quoted_mono c c' obs : c ⊆ c' → quoted c obs → quoted c' obs.
Proof. intros Hc (code&qs&H&Hin). exists code, qs. split; [|done]. by eapply lookup_weaken. Qed.

Lemma quote_at_mono c c' code i obs : c ⊆ c' → quote_at c code i obs → quote_at c' code i obs.
Proof. intros Hc (qs&H&Hi). exists qs. split; [|done]. by eapply lookup_weaken. Qed.

Lemma quote_at_quoted c code i obs : quote_at c code i obs → quoted c obs.
Proof. intros (qs&H&Hi). exists code, qs. split; [done|]. by eapply list_elem_of_lookup_2. Qed.

Lemma justified_mono c c' ps obs : c ⊆ c' → justified c ps obs → justified c' ps obs.
Proof.
  intros Hc [Hq H]. split; [by eapply quoted_mono|].
  destruct H as [(c1&i&c2&j&o&db&db'&H1&H2&H)|H]; [left|by right].
  exists c1, i, c2, j, o, db, db'. split_and!; try apply H; by eapply quote_at_mono.
Qed.

Lemma grown_mono c c' p q : c ⊆ c' → grown c p q → grown c' p q.
Proof.
  intros Hc. induction 1 as [|q obs at_ _ IH Hj]; [constructor|].
  constructor; [done|]. by eapply justified_mono.
Qed.

Lemma grown_trans c p q r : grown c p q → grown c q r → grown c p r.
Proof. intros Hp. induction 1; [done|by constructor]. Qed.

Lemma grown_prefix c p q : grown c p q → p `prefix_of` q.
Proof.
  induction 1 as [|q obs at_ _ [k ->] Hj]; [done|]. rewrite <-app_assoc. by eexists.
Qed.

(** *** What holds between two moments of a pass *)
Definition erase (r : RawRow) : RawRow := with_payload [] r.

Definition priced (s : string) (ps : list PriceRow) : Z :=
  Z.of_nat (length (List.filter (λ r, String.eqb (pr_symbol r) s) ps)).

(** The prices of [s] that the report of the pass does not count. *)
Definition uncounted (run : Run) (s : string) : Z :=
  priced s (prices (r_db run)) - default 0 (collected run !! s).

(** The registry is keyed by the providers' codes. *)
Definition keyed (table : gmap string ProviderRow) : Prop := ∀ c row, table !! c = Some row → p_code row = c.

Section Seen.
(** The quotes the job at hand has considered, by provider and place. *)
Context (seen : string → nat → Prop).

Definition pending_ok (run : Run) (s : string) (o : Observation) : Prop :=
  o_symbol o = s ∧ (∃ c i, seen c i ∧ quote_at (fetch_cache run) c i o) ∧
  ∃ db, prices db `prefix_of` prices (r_db run) ∧ classified db o q_suspect.

Record Inv (run : Run) : Prop := {
  inv_calls : NoDup (calls run);
  inv_seen c : c ∈ calls run ↔ c ∈ dom (fetch_cache run) ∨ c ∈ failed_providers run;
  inv_fetched c quotes : fetch_cache run !! c = Some quotes →
    ∃ n, calls run !! n = Some c ∧ fetch n c = Ok quotes;
  inv_built c : c ∈ calls run → build_provider c settings = true;
  inv_suspects s os : suspects run !! s = Some os → Forall (pending_ok run s) os;
  inv_keyed : keyed (data_providers (r_db run));
}.

Record Step (run run' : Run) : Prop := {
  st_cache : fetch_cache run ⊆ fetch_cache run';
  st_grown : grown (fetch_cache run') (prices (r_db run)) (prices (r_db run'));
  st_raw : (erase <$> raw_observations (r_db run)) `prefix_of` (erase <$> raw_observations (r_db run'));
  st_counts s : uncounted run' s = uncounted run s;
  st_tables : tables_ok (raw_observations (r_db run)) (prices (r_db run)) →
              tables_ok (raw_observations (r_db run')) (prices (r_db run'));
  st_calls : calls run `prefix_of` calls run';
}.

Definition Rel (run run' : Run) : Prop := Inv run → Inv run' ∧ Step run run'.

#[export] Instance Step_preorder : PreOrder Step.
Proof.
  split.
  - intros run. split; try done. constructor.
  - intros x y z [] []. split; try (by etrans).
    + eapply grown_trans; [|done]. by eapply grown_mono.
    + intros s. by rewrite st_counts1.
    + auto.
Qed.

#[export] Instance Rel_preorder : PreOrder Rel.
Proof.
  split; [by intros run H|].
  intros x y z Hxy Hyz Hx. destruct (Hxy Hx) as [Hy S1]. destruct (Hyz Hy) as [Hz S2].
  split; [done|]. by etrans.
Qed.

(** A change of the bookkeeping only. *)
Record same (run run' : Run) : Prop := {
  same_prices : prices (r_db run') = prices (r_db run);
  same_raw : raw_observations (r_db run') = raw_observations (r_db run);
  same_collected : collected run' = collected run;
  same_cache : fetch_cache run' = fetch_cache run;
  same_failed : failed_providers run' = failed_providers run;
  same_calls : calls run' = calls run;
  same_suspects : suspects run' = suspects run;
  same_keyed : keyed (data_providers (r_db run)) → keyed (data_providers (r_db run'));
}.

Lemma same_rel run run' : same run run' → Rel run run'.
Proof.
  intros [E1 E2 E3 E4 E5 E6 E7 E8] [I1 I2 I3 I4 I5 I6]. split; split; rewrite ?E1, ?E2, ?E3, ?E4, ?E5, ?E6, ?E7; auto.
  - intros s os Hs. unfold pending_ok. rewrite E4, E1. by apply I5.
  - constructor.
  - intros s. unfold uncounted. by rewrite E1, E3.
Qed.

Lemma moves_modify f : (∀ run, same run (f run)) → moves Rel (modify f).
Proof. intros H run. by apply same_rel. Qed.

Lemma moves_now : moves Rel now.
Proof. intros run. by apply same_rel. Qed.

(** *** The stores *)
Lemma store_rows_Ok db at_ obs q can db' ri pi :
  store_rows db at_ obs q can = Ok (db', ri, pi) →
  raw_observations db' = (insert_raw (raw_observations db) (raw_row at_ obs q)).1 ∧
  data_providers db' = data_providers db ∧
  (pi = false ∧ prices db' = prices db ∨
   pi = true ∧ q = "ok" ∧ can = true ∧ prices db' = prices db ++ [price_row at_ obs]) ∧
  (tables_ok (raw_observations db) (prices db) → tables_ok (raw_observations db') (prices db')).
Proof.
  unfold store_rows. destruct (String.eqb_spec q "ok") as [->|]; simpl.
  - destruct can; [|intros [= <- <- <-]; simpl; split_and!; auto using insert_raw_ok].
    destruct (insert_price _ _) as [[t b]|] eqn:Hp; [|done]. intros [= <- <- <-]. simpl.
    split; [done|]. split; [done|]. split; [|intros Ht; eapply insert_price_ok; [|done]; by apply insert_raw_ok].
    apply insert_price_Ok in Hp as (_&[(->&->&_)|(->&->&_)]); auto.
  - intros [= <- <- <-]. simpl. split_and!; auto using insert_raw_ok.
Qed.

Lemma erase_insert t r : (erase <$> t) `prefix_of` (erase <$> (insert_raw t r).1).
Proof. destruct (insert_raw_grows t r) as [k ->]. rewrite fmap_app. by eexists. Qed.

(** The invariant only reads part of the state, and the prices only grow. *)
Lemma inv_grows run run' :
  calls run' = calls run → fetch_cache run' = fetch_cache run →
  failed_providers run' = failed_providers run → suspects run' = suspects run →
  prices (r_db run) `prefix_of` prices (r_db run') →
  data_providers (r_db run') = data_providers (r_db run) → Inv run → Inv run'.
Proof.
  intros E1 E2 E3 E4 Hp E5 [I1 I2 I3 I4 I5 I6]. split; rewrite ?E1, ?E2, ?E3, ?E4, ?E5; auto.
  intros s os Hs. eapply Forall_impl; [by apply I5|]. intros o (Ho&Hq&db&Hdb&Hc).
  split; [done|]. split; [by rewrite E2|]. exists db. split; [by etrans|done].
Qed.

Lemma store_aside obs q can : q ≠ "ok" ∨ can = false → moves Rel (_store obs q can).
Proof.
  intros Hq run Hinv. unfold _store, now, get, modify, mbind, M_bind. simpl.
  destruct (store_rows _ _ _ _ _) as [[[db' ri] pi]|] eqn:Hs; simpl; [|by apply same_rel].
  apply store_rows_Ok in Hs as (Hraw&Hdp&[[-> Hp]|(->&->&->&_)]&Ht); [|naive_solver].
  simpl in *. split.
  - eapply inv_grows; [..|exact Hinv]; try done. simpl. by rewrite Hp.
  - split; simpl; try done.
    + rewrite Hp. constructor.
    + rewrite Hraw. apply erase_insert.
    + intros s. unfold uncounted. simpl. by rewrite Hp.
Qed.

Lemma priced_snoc s ps r :
  priced s (ps ++ [r]) = priced s ps + (if String.eqb (pr_symbol r) s then 1 else 0).
Proof.
  unfold priced. rewrite bool_filter_app, length_app. simpl. destruct (String.eqb _ _); simpl; lia.
Qed.

Lemma record_price_moves symbol code obs run :
  symbol = o_symbol obs → justified (fetch_cache run) (prices (r_db run)) obs →
  Rel run (record_price symbol code obs run).1.
Proof.
  intros -> Hj Hinv. unfold record_price, _store, now, get, modify, mbind, M_bind. simpl.
  destruct (store_rows _ _ _ _ _) as [[[db' ri] pi]|] eqn:Hs; simpl; [|by apply same_rel].
  apply store_rows_Ok in Hs as (Hraw&Hdp&Hp&Ht). simpl in *.
  destruct Hp as [[-> Hp]|(->&_&_&Hp)]; simpl.
  - split; [eapply inv_grows; [..|exact Hinv]; try done; simpl; by rewrite Hp|].
    split; simpl; try done.
    + rewrite Hp. constructor.
    + rewrite Hraw. apply erase_insert.
    + intros s. unfold uncounted. simpl. by rewrite Hp.
  - split; [eapply inv_grows; [..|exact Hinv]; try done; simpl; rewrite Hp; by eexists|].
    split; simpl; try done.
    + rewrite Hp. constructor; [constructor|done].
    + rewrite Hraw. apply erase_insert.
    + intros s. unfold uncounted. simpl. rewrite Hp, priced_snoc. unfold count_price. simpl.
      destruct (String.eqb_spec (o_symbol obs) s) as [->|].
      * rewrite lookup_insert_eq. simpl. lia.
      * rewrite lookup_insert_ne by done. lia.
Qed.

(** *** Loops, and the operations of a pass *)
Lemma mfor_from {A} (P : A → Run → Prop) (body : A → M ()) l run :
  (∀ x r, x ∈ l → P x r → Rel r (body x r).1) →
  (∀ x r r', P x r → Step r r' → P x r') →
  (∀ x, x ∈ l → P x run) → Rel run (mfor body l run).1.
Proof.
  intros Hbody Hstable HP Hinv.
  apply (mfor_stable Rel (λ x r, Inv r ∧ P x r)); [| |by auto|done].
  - intros x r Hx [_ Hp]. by apply Hbody.
  - intros x r r' [Hi Hp] Hr. destruct (Hr Hi). split; [done|]. by eapply Hstable.
Qed.

Lemma rel_trans x y z : Rel x y → Rel y z → Rel x z.
Proof. apply Rel_preorder. Qed.

Lemma step_prefix run run' : Step run run' → prices (r_db run) `prefix_of` prices (r_db run').
Proof. intros H. by eapply grown_prefix, st_grown. Qed.

Lemma pending_mono run run' s o : Step run run' → pending_ok run s o → pending_ok run' s o.
Proof.
  intros Hs (Ho&(c&i&Hi&Hq)&db&Hdb&Hc). split; [done|]. split.
  - exists c, i. split; [done|]. eapply quote_at_mono; [by apply st_cache|done].
  - exists db. split; [|done]. etrans; [done|]. by apply step_prefix.
Qed.

Lemma accept_moves run code obs :
  justified (fetch_cache run) (prices (r_db run)) obs → Rel run (accept settings code obs run).1.
Proof.
  intros Hj. unfold accept. unfold mbind at 1, M_bind.
  pose proof (record_price_moves (o_symbol obs) code obs run eq_refl Hj) as Hr.
  destruct (record_price _ _ _ run) as [run' [[]|e]]; simpl in *; [|done].
  eapply rel_trans; [exact Hr|]. apply (moves_bind Rel); [apply moves_now|].
  intros at_. case_match; by apply moves_modify.
Qed.

Lemma any_agrees_true v os :
  any_agrees v os = Ok true →
  ∃ o, o ∈ os ∧ values_agree v (o_value o) CONFIRM_TOLERANCE_PCT = Ok true.
Proof.
  induction os as [|o os IH]; simpl; [done|]. intros (a&Ha&H)%bind_Ok. destruct a.
  - exists o. split; [left|done].
  - destruct (IH H) as (o'&?&?). exists o'. split; [by right|done].
Qed.

Lemma warn_frozen_moves obs streak why : moves Rel (_warn_series_frozen settings obs streak why).
Proof.
  unfold _warn_series_frozen. apply (moves_bind Rel); [apply moves_now|]. intros at_.
  destruct (negb _); [apply (moves_ret Rel)|]. apply moves_get. intros run.
  destruct (match marker_instant _ with Some _ => _ | None => false end); [apply Rel_preorder|].
  apply (moves_bind Rel); [by apply moves_modify|]. intros _. unfold upsert_setting.
  apply (moves_bind Rel); [apply moves_now|]. intros. by apply moves_modify.
Qed.

Lemma hold_moves run code obs streak frozen why :
  pending_ok run (o_symbol obs) obs → Rel run (hold settings code obs streak frozen why run).1.
Proof.
  intros Ho. unfold hold. unfold mbind at 1, M_bind, modify. simpl.
  set (f := λ s0 : gmap string (list Observation), _). eapply rel_trans.
  - instantiate (1 := with_suspects f run). intros Hinv. split.
    + destruct Hinv as [I1 I2 I3 I4 I5 I6]. split; auto. simpl. unfold f. intros s os.
      destruct (decide (s = o_symbol obs)) as [->|].
      * rewrite lookup_insert_eq. intros [= <-]. apply Forall_app. split; [|apply Forall_singleton; exact Ho].
        destruct (suspects run !! o_symbol obs) as [os|] eqn:Hs; [|constructor]. by apply I5.
      * rewrite lookup_insert_ne by done. apply I5.
    + split; try done. constructor.
  - apply (moves_bind Rel); [apply store_aside; by left|]. intros _.
    apply (moves_bind Rel); [destruct (frozen && _); [apply warn_frozen_moves|apply (moves_ret Rel)]|].
    intros _. by apply moves_modify.
Qed.

End Seen.

Lemma pending_weaken (P Q : string → nat → Prop) run s o :
  (∀ c i, P c i → Q c i) → pending_ok P run s o → pending_ok Q run s o.
Proof. intros Hpq (Hs&(c&i&Hi&Hq)&H). split; [done|]. split; [|done]. exists c, i. auto. Qed.

Lemma inv_weaken (P Q : string → nat → Prop) run : (∀ c i, P c i → Q c i) → Inv P run → Inv Q run.
Proof.
  intros Hpq [I1 I2 I3 I4 I5 I6]. split; auto. intros s os Hs. eapply Forall_impl; [by apply I5|].
  intros o. by apply pending_weaken.
Qed.

Lemma pending_corroborated (P Q : string → nat → Prop) run s a b :
  (∀ c i, P c i → ¬ Q c i) → pending_ok P run s a → pending_ok Q run s b →
  (values_agree (o_value a) (o_value b) CONFIRM_TOLERANCE_PCT = Ok true ∨
   values_agree (o_value b) (o_value a) CONFIRM_TOLERANCE_PCT = Ok true) →
  justified (fetch_cache run) (prices (r_db run)) a ∧ justified (fetch_cache run) (prices (r_db run)) b.
Proof.
  intros Hne (Ha&(c&i&Hi&Hqa)&dba&Hpa&Hca) (Hb&(c'&i'&Hi'&Hqb)&dbb&Hpb&Hcb) Hv.
  assert ((c, i) ≠ (c', i')) as Hd by (intros [= <- <-]; by eapply Hne).
  split; (split; [by eapply quote_at_quoted|]); left.
  - exists c, i, c', i', b, dba, dbb. split_and!; try done. congruence.
  - exists c', i', c, i, a, dbb, dba. split_and!; try done; [congruence..|tauto].
Qed.

Lemma promote_moves (P Q R : string → nat → Prop) run s obs prior :
  (∀ c i, P c i → ¬ Q c i) → pending_ok P run s obs → pending_ok Q run s prior →
  Rel R run (promote obs prior run).1.
Proof.
  intros Hne Ho Hp. unfold promote. apply (lift_bind (Rel R)). intros [] Hv; [|apply Rel_preorder].
  simpl. apply record_price_moves; [by destruct Ho as [-> _], Hp as [-> _]|].
  by apply (pending_corroborated P Q run s obs prior Hne Ho Hp (or_introl Hv)).
Qed.

Definition here (code : string) (i : nat) (c : string) (j : nat) : Prop := c = code ∧ j = i.
Definition also (seen : string → nat → Prop) (code : string) (i : nat) (c : string) (j : nat) : Prop :=
  seen c j ∨ here code i c j.

Lemma consider_suspect_moves (seen : string → nat → Prop) run code i obs why :
  quote_at (fetch_cache run) code i obs → classified (r_db run) obs q_suspect → Inv seen run →
  ¬ seen code i → Rel (also seen code i) run (consider_suspect settings code obs why run).1.
Proof.
  intros Hq Hc Hinv Hnew. set (more := also seen code i).
  assert (∀ c j, seen c j → more c j) as Hmore by (by left).
  assert (∀ c j, here code i c j → ¬ seen c j) as Hdis by (by intros c j [-> ->]).
  assert (pending_ok (here code i) run (o_symbol obs) obs) as Hp.
  { split; [done|]. split; [by exists code, i|]. by exists (r_db run). }
  unfold consider_suspect. unfold mbind at 1, M_bind, get.
  set (pending := default [] (suspects run !! o_symbol obs)).
  assert (Forall (pending_ok seen run (o_symbol obs)) pending) as Hpend.
  { unfold pending. destruct (suspects run !! _) as [os|] eqn:Hs; [|constructor].
    by eapply inv_suspects. }
  rewrite Forall_forall in Hpend. apply (inv_weaken _ more) in Hinv; [|done].
  apply (lift_bind (Rel more)). intros [] Hany.
  - apply any_agrees_true in Hany as (o&Ho&Hv). unfold mbind at 1, M_bind, modify. simpl.
    set (run1 := with_suspects (delete (o_symbol obs)) run).
    assert (Rel more run run1) as H1.
    { intros _. split; [|split; try done; constructor]. destruct Hinv as [I1 I2 I3 I4 I5 I6]. split; auto.
      intros s os Hs. change (delete (o_symbol obs) (suspects run) !! s = Some os) in Hs. apply lookup_delete_Some in Hs as [_ Hs]. exact (I5 s os Hs). }
    eapply rel_trans; [exact H1|]. destruct (H1 Hinv) as [Hi1 S1].
    unfold mbind, M_bind.
    assert (Rel more run1 (mfor (promote obs) pending run1).1) as H2.
    { apply (mfor_from more (λ x r, pending_ok (here code i) r (o_symbol obs) obs ∧ pending_ok seen r (o_symbol obs) x)).
      - intros x r _ [? ?]. by apply (promote_moves (here code i) seen more r (o_symbol obs)).
      - intros x r r' [? ?] Hs. split; by eapply pending_mono.
      - intros x Hx. split; [done|by apply Hpend]. }
    destruct (mfor (promote obs) pending run1) as [run2 [[]|e]]; simpl in *; [|done].
    eapply rel_trans; [exact H2|]. destruct (H2 Hi1) as [Hi2 S2].
    apply accept_moves. apply (pending_corroborated (here code i) seen run2 (o_symbol obs) obs o Hdis); [| |by left].
    + by do 2 (eapply pending_mono; [done|]).
    + do 2 (eapply pending_mono; [done|]). by apply Hpend.
  - apply (lift_bind (Rel more)). intros [streak frozen] Hs.
    destruct (frozen && _) eqn:Hf.
    + apply andb_true_iff in Hf as [-> Hf]. unfold mbind at 1, M_bind, modify. simpl.
      eapply rel_trans; [by apply (same_rel more run (warn (NewLevel obs streak why) run))|].
      apply accept_moves. split; [by eapply quote_at_quoted|]. right. exists (r_db run). split; [done|]. right. split; [done|]. by exists streak.
    + apply hold_moves. eapply pending_weaken; [|exact Hp]. by right.
Qed.

Lemma consider_moves (seen : string → nat → Prop) run code i obs :
  quote_at (fetch_cache run) code i obs → Inv seen run → ¬ seen code i →
  Rel (also seen code i) run (consider settings code obs run).1.
Proof.
  intros Hq Hinv Hnew. set (more := also seen code i).
  unfold consider. unfold mbind at 1, M_bind, get.
  destruct (negb _); [apply Rel_preorder|].
  apply (lift_bind (Rel more)). intros recent Hr. apply (lift_bind (Rel more)). intros [q why] Hv.
  unfold mbind at 1, M_bind, modify. simpl.
  set (run1 := with_handled _ run). assert (∀ P, Rel P run run1) as H1 by (intros P; by apply same_rel).
  assert (classified (r_db run) obs q) as Hc by by exists recent, why.
  destruct (H1 seen Hinv) as [Hi1 S1].
  eapply rel_trans; [exact (H1 more)|]. destruct q.
  - apply accept_moves. split; [by eapply quote_at_quoted|]. right. exists (r_db run). split; [done|]. by left.
  - by apply (consider_suspect_moves seen).
  - apply (moves_bind (Rel more)); [apply store_aside; by left|]. intros _. by apply moves_modify.
Qed.

(** *** Providers, jobs, the dispersion pass *)
Lemma keyed_alter (f : ProviderRow → ProviderRow) code table :
  (∀ r, p_code (f r) = p_code r) → keyed table → keyed (alter f code table).
Proof.
  intros Hf Hk c row. destruct (decide (code = c)) as [<-|]; [|rewrite lookup_alter_ne by done; apply Hk].
  rewrite lookup_alter_eq. destruct (table !! code) as [r|] eqn:Hr; simpl; [|done].
  intros [= <-]. rewrite Hf. by apply Hk.
Qed.

(** The rows a job loops over are of distinct providers. *)
Lemma rows_distinct lt table categories clock :
  keyed table → NoDup (p_code <$> load_provider_rows lt table categories clock).
Proof.
  intros Hk. unfold load_provider_rows.
  eapply sublist_NoDup; [|apply (fmap_sublist p_code), keep_closed_sublist].
  rewrite (fmap_Permutation p_code _ _ (py_sorted_perm _ _)).
  assert (∀ (p : ProviderRow → bool) l, NoDup (p_code <$> l) → NoDup (p_code <$> List.filter p l)) as Hfilter.
  { intros p l. induction l as [|x l IH]; csimpl; [done|]. intros [Hx Hnd]%NoDup_cons.
    destruct (p x); csimpl; [|by apply IH]. constructor; [|by apply IH].
    intros (y&Heq&[Hy _]%elem_of_bool_filter)%list_elem_of_fmap. apply Hx. rewrite Heq. by apply list_elem_of_fmap_2. }
  apply Hfilter. unfold table_rows.
  assert (p_code <$> (map_to_list table).*2 = (map_to_list table).*1) as ->; [|apply NoDup_fst_map_to_list].
  rewrite <-list_fmap_compose. apply list_fmap_ext. intros i [c r] Hi%list_elem_of_lookup_2.
  apply elem_of_map_to_list in Hi. by apply Hk.
Qed.

Section Providers.
Context (seen : string → nat → Prop).

Lemma fetched_moves run code quotes :
  code ∉ calls run → build_provider code settings = true →
  fetch (length (calls run)) code = Ok quotes → fetch_cache run !! code = None →
  Rel seen run (with_cache (insert code quotes) (with_calls (λ c, c ++ [code]) run)).
Proof.
  intros Hc Hb Hf Hnone [I1 I2 I3 I4 I5 I6].
  assert (fetch_cache run ⊆ <[code := quotes]> (fetch_cache run)) as Hsub by by apply insert_subseteq.
  split; split; simpl; try done.
  - apply NoDup_app. split_and!; [done| |apply NoDup_singleton].
    intros c Hc1 Hc2%list_elem_of_singleton. by subst.
  - intros c. rewrite elem_of_app, list_elem_of_singleton, I2, dom_insert, elem_of_union, elem_of_singleton.
    tauto.
  - intros c qs. destruct (decide (c = code)) as [->|].
    + rewrite lookup_insert_eq. intros [= <-]. exists (length (calls run)). split; [|done].
      by apply list_lookup_middle.
    + rewrite lookup_insert_ne by done. intros (k&Hk&Hq)%I3. exists k. split; [|done].
      by apply lookup_app_l_Some.
  - intros c [Hc'| ->%list_elem_of_singleton]%elem_of_app; [by apply I4|done].
  - intros s os Hs. eapply Forall_impl; [by apply I5|]. intros o (Ho&(c&i&Hi&Hq)&H). split; [done|].
    split; [|done]. exists c, i. split; [done|]. by eapply quote_at_mono.
  - constructor.
  - by eexists.
Qed.

Lemma failed_moves run code :
  code ∉ calls run → build_provider code settings = true →
  Rel seen run (with_failed (λ s, {[code]} ∪ s) (with_calls (λ c, c ++ [code]) run)).
Proof.
  intros Hc Hb [I1 I2 I3 I4 I5 I6]. split; split; simpl; try done.
  - apply NoDup_app. split_and!; [done| |apply NoDup_singleton].
    intros c Hc1 Hc2%list_elem_of_singleton. by subst.
  - intros c. rewrite elem_of_app, list_elem_of_singleton, I2, elem_of_union, elem_of_singleton. tauto.
  - intros c qs (n&Hn&Hq)%I3. exists n. split; [|done]. by apply lookup_app_l_Some.
  - intros c [Hc'| ->%list_elem_of_singleton]%elem_of_app; [by apply I4|done].
  - constructor.
  - by eexists.
Qed.

Lemma quotes_of_run run code :
  quotes_of settings code run =
  match fetch_cache run !! code with
  | Some quotes => (run, Ok (Some quotes))
  | None =>
      if negb (build_provider code settings) then (run, Ok None)
      else
        let called := with_calls (λ c, c ++ [code]) run in
        match fetch (length (calls run)) code with
        | Ok quotes =>
            (with_db (db_providers (record_success (utcnow (ticks run)) code))
               (with_ticks S (with_cache (insert code quotes) called)), Ok (Some quotes))
        | Err text =>
            (error (ProviderFailed code text)
               (with_db (db_providers (record_failure (utcnow (ticks run)) code text))
                  (with_ticks S (with_failed (λ s, {[code]} ∪ s) called))), Ok None)
        end
  end.
Proof.
  unfold quotes_of. unfold mbind at 1, M_bind, get.
  destruct (fetch_cache run !! code); [done|]. destruct (negb _); [done|].
  unfold mbind, M_bind, modify. simpl. by destruct (fetch _ _).
Qed.

Lemma quotes_of_moves run code :
  code ∉ failed_providers run →
  Rel seen run (quotes_of settings code run).1 ∧
  (∀ qs, (quotes_of settings code run).2 = Ok (Some qs) →
     fetch_cache (quotes_of settings code run).1 !! code = Some qs).
Proof.
  intros Hfail. rewrite quotes_of_run.
  destruct (fetch_cache run !! code) as [qs|] eqn:Hc.
  { simpl. split; [apply Rel_preorder|]. intros ? ?; by simplify_eq. }
  destruct (build_provider code settings) eqn:Hb; simpl; [|split; [apply Rel_preorder|done]].
  assert (Inv seen run → code ∉ calls run) as Hcalls.
  { intros Hi [Hd|Hd]%(inv_seen _ _ Hi); [|done]. apply elem_of_dom in Hd as [? ?]; simplify_eq. }
  destruct (fetch (length (calls run)) code) as [qs|text] eqn:Hf; simpl.
  - split; [|intros ? ?; simplify_eq; apply lookup_insert_eq]. intros Hi.
    eapply rel_trans; [by apply (fetched_moves run code qs); auto| |done].
    apply same_rel. split; try done. apply keyed_alter. by intros.
  - split; [|done]. intros Hi.
    eapply rel_trans; [by apply (failed_moves run code); auto| |done].
    apply same_rel. split; try done. apply keyed_alter. by intros.
Qed.

End Providers.

Definition upto (seen : string → nat → Prop) (code : string) (k : nat) (c : string) (i : nat) : Prop :=
  seen c i ∨ (c = code ∧ (i < k)%nat).

Lemma rel_weaken (P Q : string → nat → Prop) run run' :
  (∀ c i, P c i → Q c i) → Inv P run → Rel P run run' → Rel Q run run'.
Proof. intros Hpq Hi H _. destruct (H Hi) as [Hi' S]. split; [by eapply inv_weaken|done]. Qed.

(** The quotes of one provider, one after the other. *)
Lemma quotes_moves (seen : string → nat → Prop) code l k run :
  (∀ j o, l !! j = Some o → quote_at (fetch_cache run) code (k + j) o) → (∀ j, ¬ seen code j) →
  Inv (upto seen code k) run →
  Rel (upto seen code (k + length l)) run (mfor (consider settings code) l run).1.
Proof.
  revert k run. induction l as [|o l IH]; intros k run Hq Hn Hinv; cbn [mfor length]; [apply Rel_preorder|].
  unfold mbind, M_bind.
  pose proof (consider_moves (upto seen code k) run code k o) as Hc.
  assert (∀ c i, also (upto seen code k) code k c i → upto seen code (S k) c i) as Hsub.
  { intros c i [[?|[-> ?]]|[-> ->]]; [by left|right; split; [done|lia]|right; split; [done|lia]]. }
  assert (∀ c i, upto seen code k c i → also (upto seen code k) code k c i) as Hl by (by left).
  assert (∀ c i, upto seen code (S k) c i → upto seen code (k + S (length l)) c i) as Hr.
  { intros c i [?|[-> ?]]; [by left|right; split; [done|lia]]. }
  specialize (Hc ltac:(rewrite <-(Nat.add_0_r k); by apply Hq) Hinv).
  assert (¬ upto seen code k code k) as Hnew by (intros [H|[_ H]]; [by eapply Hn|lia]).
  specialize (Hc Hnew). pose proof (inv_weaken _ _ _ Hl Hinv) as Hinv'. destruct (Hc Hinv') as [Hi1 S1].
  apply (inv_weaken _ (upto seen code (S k))) in Hi1; [|exact Hsub].
  destruct (consider settings code o run) as [run1 [[]|e]]; cbn [fst] in *.
  - specialize (IH (S k) run1). rewrite Nat.add_succ_comm in IH.
    destruct IH as [Hi2 S2]; [|done|exact Hi1|by eapply inv_weaken|].
    + intros j x Hj. rewrite Nat.add_succ_comm. eapply quote_at_mono; [by apply st_cache|]. by apply Hq.
    + intros _. split; [done|by etrans].
  - intros _. split; [by eapply inv_weaken|done].
Qed.

Lemma consult_moves (seen : string → nat → Prop) row run :
  (∀ j, ¬ seen (p_code row) j) → Inv seen run →
  Rel (λ c i, seen c i ∨ c = p_code row) run (consult settings row run).1.
Proof.
  intros Hn Hinv. set (more := λ c i, seen c i ∨ c = p_code row).
  assert (∀ c i, seen c i → more c i) as Hmore by (by left).
  unfold consult. unfold mbind at 1, M_bind, get. case_bool_decide; [apply Rel_preorder|].
  case_bool_decide as Hf; [apply Rel_preorder|].
  destruct (quotes_of_moves seen run (p_code row) Hf) as [Hm Hq].
  unfold mbind, M_bind. destruct (quotes_of settings (p_code row) run) as [run' [[qs|]|e]]; cbn [fst snd] in *;
    [|by eapply rel_weaken..].
  eapply rel_trans; [by eapply rel_weaken|]. destruct (Hm Hinv) as [Hi' S'].
  specialize (Hq qs eq_refl).
  eapply rel_weaken; [|apply (inv_weaken _ (upto seen (p_code row) 0)) in Hi'; [|by left]|
    apply (quotes_moves seen (p_code row) qs 0 run'); [|done|]].
  - intros c i [?|[-> _]]; [by left|by right].
  - eapply inv_weaken; [|exact Hi']. intros c i [?|[_ ?]]; [by left|lia].
  - intros j o Hj. by exists qs.
  - eapply inv_weaken; [|exact Hi']. by left.
Qed.

Definition whatever : string → nat → Prop := λ _ _, True.

Lemma rows_moves (seen : string → nat → Prop) rows run :
  NoDup (p_code <$> rows) → (∀ row j, row ∈ rows → ¬ seen (p_code row) j) → Inv seen run →
  Rel whatever run (mfor (consult settings) rows run).1.
Proof.
  revert seen run. induction rows as [|row rows IH]; intros seen run; csimpl; [intros; apply Rel_preorder|].
  intros [Hni Hnd]%NoDup_cons Hn Hinv. cbn [mfor]. unfold mbind, M_bind.
  set (more := λ c (i : nat), seen c i ∨ c = p_code row).
  assert (Inv more run) as Hinv' by (eapply inv_weaken; [|exact Hinv]; by left).
  pose proof (consult_moves seen row run (λ j, Hn row j ltac:(by left)) Hinv) as Hc. fold more in Hc.
  destruct (Hc Hinv') as [Hi1 S1].
  assert (Rel whatever run (consult settings row run).1) as Hw by (by eapply rel_weaken).
  destruct (consult settings row run) as [run1 [[]|e]]; cbn [fst] in *; [|done].
  eapply rel_trans; [exact Hw|]. apply (IH more); [done| |done].
  intros r j Hr [Hs|He]; [eapply Hn; [by right|exact Hs]|]. apply Hni. rewrite <-He. by apply list_elem_of_fmap_2.
Qed.

(** A job starts with no suspect pending and goes once over its providers. *)
Lemma fresh_rows_moves rows (k : M ()) :
  NoDup (p_code <$> rows) → moves (Rel whatever) k →
  moves (Rel whatever) (_ ← modify (with_suspects (λ _, ∅)); _ ← mfor (consult settings) rows; k).
Proof.
  intros Hnd Hk run. unfold mbind at 1, M_bind at 1, modify. cbv beta iota.
  set (run1 := with_suspects _ run). intros Hi.
  assert (Inv (λ _ _, False) run1 ∧ Step run run1) as [Hi1 S1].
  { split; [|split; try done; constructor]. destruct Hi as [I1 I2 I3 I4 I5 I6]. by split. }
  assert (Inv whatever run1) as Hw by (by eapply inv_weaken).
  destruct (rows_moves (λ _ _, False) rows run1 Hnd (λ _ _ _ H, H) Hi1 Hw) as [Hi2 S2].
  unfold mbind, M_bind. destruct (mfor (consult settings) rows run1) as [run2 [[]|e]]; cbn [fst] in *;
    [|split; [done|by etrans]].
  destruct (Hk run2 Hi2) as [Hi3 S3]. split; [done|]. etrans; [exact S1|]. by etrans.
Qed.

Lemma load_rows_moves {A} job (K : list ProviderRow → M A) :
  (∀ rows, NoDup (p_code <$> rows) → moves (Rel whatever) (K rows)) →
  moves (Rel whatever) (load_rows job ≫= K).
Proof.
  intros HK run Hi.
  assert (∃ run1 rows, load_rows job run = (run1, Ok rows) ∧ Rel whatever run run1 ∧ NoDup (p_code <$> rows))
    as (run1&rows&Hl&H1&Hnd).
  { exists (load_rows job run).1, (load_provider_rows collate_lt (data_providers (r_db run))
      (default [] (assoc job JOB_PROVIDER_CATEGORIES)) (λ i, utcnow (ticks run + i))).
    split; [reflexivity|]. split; [by apply same_rel|]. apply rows_distinct, (inv_keyed _ _ Hi). }
  unfold mbind at 1 2, M_bind. rewrite Hl.
  destruct (H1 Hi) as [Hi1 S1]. destruct (HK rows Hnd run1 Hi1) as [Hi2 S2].
  split; [done|by etrans].
Qed.

Lemma run_job_moves job : moves (Rel whatever) (run_job settings job).
Proof.
  unfold run_job. apply (moves_bind (Rel whatever)).
  { destruct (String.eqb job FUNDS_JOB); [|apply (moves_ret (Rel whatever))].
    apply (moves_bind (Rel whatever)); [apply moves_now|]. intros at_. apply moves_get. intros run.
    destruct (funds_job_due _ _ _); [|apply Rel_preorder].
    apply (moves_bind (Rel whatever)); [|intros; apply (moves_ret (Rel whatever))]. unfold mark_funds_attempt, upsert_setting.
    apply (moves_bind (Rel whatever)); [apply moves_now|]. intros. apply (moves_bind (Rel whatever)); [apply moves_now|].
    intros. by apply moves_modify. }
  intros []; simpl; [|apply (moves_ret (Rel whatever))].
  do 2 (apply (moves_bind (Rel whatever)); [by apply moves_modify|intros _]).
  apply load_rows_moves. intros rows Hnd.
  set (rest := (_ ← modify (with_attempted _); _) : M ()).
  assert (moves (Rel whatever) rest) as Hrest.
  { apply (moves_bind (Rel whatever)); [by apply moves_modify|intros _].
    apply fresh_rows_moves; [done|]. apply moves_get. intros run. apply (moves_mfor (Rel whatever)). intros s _.
    unfold report_missing. apply moves_get. intros run'. by apply same_rel. }
  destruct rows; [done|]. destruct (List.filter _ _); [apply (moves_ret (Rel whatever))|done].
Qed.

Lemma annotate_moves winner summary : moves (Rel whatever) (_annotate_dispersion winner summary).
Proof.
  intros run Hi. unfold _annotate_dispersion, modify. simpl. set (f := λ r : RawRow, _).
  assert (∀ l : list RawRow, erase <$> (f <$> l) = erase <$> l) as He.
  { intros l. rewrite <-list_fmap_compose. apply list_fmap_ext. intros _ r _. unfold f. simpl.
    by destruct (String.eqb _ _). }
  assert (∀ l : list RawRow, raw_dedupe_key <$> (f <$> l) = raw_dedupe_key <$> l) as Hk.
  { intros l. rewrite <-list_fmap_compose. apply list_fmap_ext. intros _ r _. unfold f. simpl.
    by destruct (String.eqb _ _). }
  split; [by eapply inv_grows; [..|exact Hi]|]. split; try done; simpl.
  - constructor.
  - by rewrite He.
  - intros [H1 H2 H3]. split; [done..|]. by rewrite Hk.
Qed.

Lemma measure_moves : moves (Rel whatever) _measure_dispersion.
Proof.
  unfold _measure_dispersion. apply moves_get. intros run. apply (moves_mfor (Rel whatever)). intros symbol _.
  unfold measure_symbol. apply moves_get. intros run1.
  apply (moves_bind (Rel whatever)).
  { apply (moves_mfor (Rel whatever)). intros code _. unfold store_peers. apply moves_get. intros run2.
    case_bool_decide; [apply Rel_preorder|]. apply (moves_mfor (Rel whatever)). intros obs _.
    unfold store_peer. destruct (negb _); [apply (moves_ret (Rel whatever))|].
    apply (moves_bind (Rel whatever)); [apply store_aside; by right|]. intros _.
    apply (moves_bind (Rel whatever)); [by apply moves_modify|]. intros _.
    destruct (sanity_ok _ _); [by apply moves_modify|apply (moves_ret (Rel whatever))]. }
  intros _. apply moves_get. intros run2. apply (lift_bind (Rel whatever)). intros summary _.
  destruct summary as [summary|]; [|apply Rel_preorder].
  destruct (winners run2 !! symbol); [|apply Rel_preorder]. apply annotate_moves.
Qed.

Lemma guarded_moves (m : M ()) : moves (Rel whatever) m → moves (Rel whatever) (guarded m).
Proof.
  intros Hm run. specialize (Hm run). unfold guarded. destruct (m run) as [run' [[]|e]]; simpl in *; [done|].
  eapply rel_trans; [exact Hm|]. by apply same_rel.
Qed.

(** The whole pass: the invariant holds at its end, and its effect is a step. *)
Lemma collect_step jobs db :
  keyed (data_providers db) →
  Inv whatever (run_collect settings jobs db).1 ∧ Step (start db) (run_collect settings jobs db).1.
Proof.
  intros Hkey. unfold run_collect.
  assert (Inv whatever (start db)) as Hi.
  { split; simpl; [apply NoDup_nil_2|set_solver|done|set_solver|done|done]. }
  assert (∀ m : M (gmap string Z * list collect_error), moves (Rel whatever) m →
            Inv whatever (m (start db)).1 ∧ Step (start db) (m (start db)).1) as H by (intros m Hm; by apply Hm).
  apply H. apply (moves_bind (Rel whatever)); [apply (moves_mfor (Rel whatever)); intros; apply run_job_moves|].
  intros _. apply (moves_bind (Rel whatever)); [apply guarded_moves, measure_moves|]. intros _.
  apply moves_get. intros run. apply Rel_preorder.
Qed.

#[local] Arguments is_acceptably_fresh : simpl never.

(** *** No symbol goes missing silently *)

(** A quote of [s] was taken in this pass, its price is in the table, and it was fresh
    at a reading of the clock that the pass made. *)
Definition satisfied (run : Run) (s : string) : Prop :=
  ∃ obs n, quoted (fetch_cache run) obs ∧ o_symbol obs = s ∧
    (s, to_utc (o_observed_at obs), o_provider_code obs) ∈ price_key <$> prices (r_db run) ∧
    (n < ticks run)%nat ∧
    is_acceptably_fresh TEHRAN_TZ s (Some (o_observed_at obs)) (aware (utcnow n) 0) (cs_market settings)
      (Some (o_provider_code obs)) = true.

Definition reported (run : Run) (s : string) : Prop :=
  ∃ job, OnlyStale job s ∈ errors run ∨ NoGoodValue job s ∈ errors run.

(** What no operation below a job undoes. *)
Record Keeps (run run' : Run) : Prop := {
  k_needed s : s ∈ symbols_needed run → s ∈ symbols_needed run' ∨ satisfied run' s;
  k_cache : fetch_cache run ⊆ fetch_cache run';
  k_keys k : k ∈ price_key <$> prices (r_db run) → k ∈ price_key <$> prices (r_db run');
  k_errors e : e ∈ errors run → e ∈ errors run';
  k_attempted : attempted_symbols run' = attempted_symbols run;
  k_ticks : (ticks run ≤ ticks run')%nat;
}.

Lemma satisfied_mono run run' s :
  fetch_cache run ⊆ fetch_cache run' →
  (∀ k, k ∈ price_key <$> prices (r_db run) → k ∈ price_key <$> prices (r_db run')) →
  (ticks run ≤ ticks run')%nat → satisfied run s → satisfied run' s.
Proof.
  intros Hc Hk Ht (obs&n&Hq&Hs&Hin&Hn&Hf). exists obs, n. split_and!; auto; [by eapply quoted_mono|lia].
Qed.

#[local] Instance Keeps_preorder : PreOrder Keeps.
Proof.
  split; [intros run; split; auto|]. intros x y z [n1 c1 k1 e1 a1 t1] [n2 c2 k2 e2 a2 t2].
  split; [| |auto..|congruence|lia].
  - intros s [H|H]%n1; [by apply n2|]. right. by eapply satisfied_mono.
  - by etrans.
Qed.

Lemma keeps_modify f :
  (∀ run, symbols_needed (f run) = symbols_needed run ∧ fetch_cache (f run) = fetch_cache run ∧
          prices (r_db (f run)) = prices (r_db run) ∧ errors run ⊆ errors (f run) ∧
          attempted_symbols (f run) = attempted_symbols run ∧ (ticks run ≤ ticks (f run))%nat) →
  moves Keeps (modify f).
Proof.
  intros Hf run. destruct (Hf run) as (E1&E2&E3&E4&E5&E6). unfold modify. simpl.
  split; rewrite ?E1, ?E2, ?E3; auto.
Qed.

Ltac quiet := apply keeps_modify; intros ?; split_and!; simpl; first [done|set_solver].

Lemma keeps_now : moves Keeps now.
Proof. intros run. unfold now, get, modify, mbind, M_bind. simpl. split; simpl; auto. Qed.

Lemma keeps_store obs q can : moves Keeps (_store obs q can).
Proof.
  intros run. unfold _store, now, get, modify, mbind, M_bind. simpl.
  destruct (store_rows _ _ _ _ _) as [[[db' ri] pi]|] eqn:Hs; simpl; [|split; simpl; auto].
  apply store_rows_Ok in Hs as (_&_&Hp&_). split; simpl; auto.
  intros k Hk. simpl in Hp. destruct Hp as [[_ ->]|(_&_&_&->)]; [done|].
  rewrite fmap_app. apply elem_of_app. by left.
Qed.

Lemma store_rows_key db at_ obs db' ri pi :
  store_rows db at_ obs "ok" true = Ok (db', ri, pi) →
  (o_symbol obs, to_utc (o_observed_at obs), o_provider_code obs) ∈ price_key <$> prices db'.
Proof.
  unfold store_rows. simpl. destruct (insert_price _ _) as [[t b]|] eqn:Hp; [|done].
  intros [= <- <- <-]. simpl. apply insert_price_Ok in Hp as (_&[(_&->&_)|(_&->&Hk)]); [|exact Hk].
  rewrite fmap_app. apply elem_of_app. right. by left.
Qed.

Lemma keeps_record symbol code obs : moves Keeps (record_price symbol code obs).
Proof.
  unfold record_price. apply (moves_bind Keeps); [apply keeps_store|]. intros s.
  apply (moves_bind Keeps); [quiet|]. intros _. destruct (negb _); [apply (moves_ret Keeps)|].
  apply (moves_bind Keeps); [quiet|]. intros _. quiet.
Qed.

Lemma record_price_key symbol code obs run run' :
  record_price symbol code obs run = (run', Ok ()) →
  (o_symbol obs, to_utc (o_observed_at obs), o_provider_code obs) ∈ price_key <$> prices (r_db run').
Proof.
  unfold record_price, _store, now, get, modify, mbind, M_bind. simpl.
  destruct (store_rows _ _ _ _ _) as [[[db' ri] pi]|] eqn:Hs; simpl; [|done].
  apply store_rows_key in Hs. by destruct pi; simpl; intros [= <-].
Qed.

Lemma keeps_accept run code obs :
  quoted (fetch_cache run) obs → Keeps run (accept settings code obs run).1.
Proof.
  intros Hq. unfold accept. unfold mbind at 1, M_bind.
  pose proof (keeps_record (o_symbol obs) code obs run) as Hk.
  destruct (record_price _ _ _ run) as [run1 [[]|e]] eqn:Hr; simpl in *; [|done].
  apply record_price_key in Hr. etransitivity; [exact Hk|].
  unfold now, get, modify, mbind, M_bind. simpl.
  destruct (is_acceptably_fresh TEHRAN_TZ _ _ _ _ _) eqn:Hf; simpl; [|split; simpl; auto].
  split; simpl; auto. intros s Hs.
  destruct (decide (s = o_symbol obs)) as [->|]; [|left; set_solver].
  right. exists obs, (ticks run1). split_and!; simpl; auto.
  eapply quoted_mono; [by apply (k_cache _ _ Hk)|done].
Qed.

Lemma keeps_hold code obs streak frozen why : moves Keeps (hold settings code obs streak frozen why).
Proof.
  unfold hold. apply (moves_bind Keeps); [quiet|]. intros _.
  apply (moves_bind Keeps); [apply keeps_store|]. intros _.
  apply (moves_bind Keeps); [|intros _; quiet].
  destruct (frozen && _); [|apply (moves_ret Keeps)]. unfold _warn_series_frozen.
  apply (moves_bind Keeps); [apply keeps_now|]. intros at_. destruct (negb _); [apply (moves_ret Keeps)|].
  apply moves_get. intros run. case_match; [reflexivity|]. unfold upsert_setting.
  apply (moves_bind Keeps); [quiet|]. intros _. apply (moves_bind Keeps); [apply keeps_now|]. intros. quiet.
Qed.

Lemma keeps_consider run code obs :
  quoted (fetch_cache run) obs → Keeps run (consider settings code obs run).1.
Proof.
  intros Hq. unfold consider. unfold mbind at 1, M_bind, get. destruct (negb _); [reflexivity|].
  apply (lift_bind Keeps). intros recent _. apply (lift_bind Keeps). intros [q why] _.
  unfold mbind at 1, M_bind, modify. simpl. set (run1 := with_handled _ run).
  etransitivity; [instantiate (1 := run1); split; simpl; auto|]. destruct q.
  - by apply keeps_accept.
  - unfold consider_suspect. unfold mbind at 1, M_bind, get. apply (lift_bind Keeps). intros [] _.
    + unfold mbind at 1, M_bind, modify. simpl. set (run2 := with_suspects _ run1).
      etransitivity; [instantiate (1 := run2); split; simpl; auto|].
      unfold mbind, M_bind. set (pending := default [] _).
      assert (Keeps run2 (mfor (promote obs) pending run2).1) as H2.
      { apply (moves_mfor Keeps). intros prior _. unfold promote.
        apply (moves_bind Keeps); [apply (moves_lift Keeps)|]. intros a.
        destruct (negb a); [apply (moves_ret Keeps)|]. apply keeps_record. }
      destruct (mfor (promote obs) pending run2) as [run3 [[]|e]]; simpl in *; [|done].
      etransitivity; [exact H2|]. apply keeps_accept. eapply quoted_mono; [apply (k_cache _ _ H2)|done].
    + apply (lift_bind Keeps). intros [streak frozen] _. destruct (frozen && _); [|apply keeps_hold].
      unfold mbind at 1, M_bind, modify. simpl. etransitivity; [|by apply keeps_accept].
      split; simpl; auto.
  - apply (moves_bind Keeps); [apply keeps_store|]. intros _. quiet.
Qed.

Lemma keeps_consult row : moves Keeps (consult settings row).
Proof.
  unfold consult. apply moves_get. intros run. case_bool_decide; [reflexivity|].
  case_bool_decide as Hf; [reflexivity|].
  destruct (quotes_of_moves whatever run (p_code row) Hf) as [_ Hq].
  assert (Keeps run (quotes_of settings (p_code row) run).1) as Hk.
  { rewrite quotes_of_run. destruct (fetch_cache run !! p_code row) eqn:Hc; [reflexivity|].
    destruct (negb _); [reflexivity|]. simpl. destruct (fetch _ _); simpl; split; simpl; auto.
    - by apply insert_subseteq.
    - set_solver. }
  unfold mbind, M_bind. destruct (quotes_of settings (p_code row) run) as [run' [[qs|]|e]]; simpl in *;
    [|done..].
  etransitivity; [exact Hk|].
  apply (mfor_stable Keeps (λ obs r, quoted (fetch_cache r) obs)).
  - intros obs r _ Ho. by apply keeps_consider.
  - intros obs r r' Ho Hs. eapply quoted_mono; [by apply k_cache|done].
  - intros obs Ho. exists (p_code row), qs. split; [by apply Hq|done].
Qed.

Lemma sorted_set_elem (t : gset string) s : s ∈ sorted_set t ↔ s ∈ t.
Proof. unfold sorted_set. by rewrite py_sorted_perm, elem_of_elements. Qed.

Lemma report_all job l run :
  ∃ run', mfor (report_missing job) l run = (run', Ok ()) ∧ Keeps run run' ∧
          ∀ s, s ∈ l → reported run' s.
Proof.
  revert run. induction l as [|s l IH]; intros run.
  { exists run. split_and!; [done|reflexivity|]. intros s Hs. by apply elem_of_nil in Hs. }
  cbn [mfor]. unfold mbind, M_bind. unfold report_missing at 1. unfold mbind, M_bind, get, modify. simpl.
  set (run1 := error _ run). destruct (IH run1) as (run2&H2&Hk&Hr).
  assert (Keeps run run1) as Hk1 by (split; simpl; auto; set_solver).
  exists run2. split; [exact H2|]. split; [by etransitivity|].
  intros x [->|Hx]%elem_of_cons; [|by apply Hr]. exists job.
  destruct (decide (s ∈ stale_only run)); [left|right]; apply (k_errors _ _ Hk); unfold run1; simpl;
    [rewrite bool_decide_true by done|rewrite bool_decide_false by done]; set_solver.
Qed.

(** Between two jobs: what was attempted since is satisfied or reported. *)
Record Reports (run run' : Run) : Prop := {
  rp_cache : fetch_cache run ⊆ fetch_cache run';
  rp_keys k : k ∈ price_key <$> prices (r_db run) → k ∈ price_key <$> prices (r_db run');
  rp_errors e : e ∈ errors run → e ∈ errors run';
  rp_ticks : (ticks run ≤ ticks run')%nat;
  rp_attempted s : s ∈ attempted_symbols run' →
    s ∈ attempted_symbols run ∨ satisfied run' s ∨ reported run' s;
}.

#[local] Instance Reports_preorder : PreOrder Reports.
Proof.
  split; [intros run; split; auto|]. intros x y z [c1 k1 e1 t1 a1] [c2 k2 e2 t2 a2]. split; [by etrans|auto..|lia|].
  intros s Hs. destruct (a2 s Hs) as [[H|[H|(job&H)]]%a1|H]; auto.
  - right. left. by eapply satisfied_mono.
  - right. right. exists job. destruct H; auto.
Qed.

Lemma keeps_reports run run' : Keeps run run' → Reports run run'.
Proof. intros [n c k e a tk]. split; [done|auto..|]. intros s. rewrite a. auto. Qed.

Lemma job_body_reports job rows needed run run' :
  symbols_needed run = needed →
  (_ ← modify (with_attempted (λ s, s ∪ needed));
   _ ← modify (with_suspects (λ _, ∅));
   _ ← mfor (consult settings) rows;
   run ← get;
   mfor (report_missing job) (sorted_set (symbols_needed run))) run = (run', Ok ()) →
  Reports run run'.
Proof.
  intros Hn. unfold mbind at 1 2, M_bind at 1 2, modify. cbv beta iota.
  set (run1 := with_suspects _ _). unfold mbind at 1, M_bind at 1.
  pose proof (moves_mfor Keeps (consult settings) rows (λ row _, keeps_consult row) run1) as Hk.
  destruct (mfor (consult settings) rows run1) as [run2 [[]|e]]; cbn [fst] in Hk; [|done].
  unfold mbind, M_bind, get.
  destruct (report_all job (sorted_set (symbols_needed run2)) run2) as (run3&->&Hk3&Hr).
  intros [= <-]. assert (Keeps run1 run3) as [n c k e a tk] by by etransitivity.
  split; [done|auto..|]. intros s. rewrite a. simpl. intros [Hs|Hs]%elem_of_union; [by left|]. right.
  destruct (k_needed _ _ Hk s) as [H2|H2]; [by rewrite <-Hn in Hs| |].
  - right. by apply Hr, sorted_set_elem.
  - left. eapply satisfied_mono; [apply (k_cache _ _ Hk3)|apply (k_keys _ _ Hk3)|apply (k_ticks _ _ Hk3)|done].
Qed.

Lemma job_prelude job run needed (K : list ProviderRow → M ()) :
  ∃ rows run', (_ ← modify (with_needed (λ _, needed)); _ ← modify (with_stale (λ _, ∅));
                rows ← load_rows job; K rows) run = K rows run' ∧
    Reports run run' ∧ symbols_needed run' = needed.
Proof. do 2 eexists. split; [reflexivity|]. split; [split; simpl; auto; lia|done]. Qed.

Lemma run_job_reports job run run' : run_job settings job run = (run', Ok ()) → Reports run run'.
Proof.
  unfold run_job. set (due := if String.eqb job FUNDS_JOB then _ else _).
  unfold mbind at 1, M_bind at 1.
  assert (moves Keeps due) as Hdue.
  { unfold due. destruct (String.eqb job FUNDS_JOB); [|apply (moves_ret Keeps)].
    apply (moves_bind Keeps); [apply keeps_now|]. intros at_. apply moves_get. intros r.
    destruct (funds_job_due _ _ _); [|reflexivity].
    apply (moves_bind Keeps); [|intros; apply (moves_ret Keeps)]. unfold mark_funds_attempt, upsert_setting.
    apply (moves_bind Keeps); [apply keeps_now|]. intros. apply (moves_bind Keeps); [apply keeps_now|].
    intros. quiet. }
  specialize (Hdue run). destruct (due run) as [run1 [b|e]]; cbn [fst] in Hdue; [|done].
  intros H. transitivity run1; [by apply keeps_reports|]. revert H.
  destruct b; simpl negb; cbv iota; [|intros [= <-]; reflexivity].
  intros H. destruct (job_prelude job run1 (list_to_set (default [] (assoc job JOB_SYMBOLS))) (λ rows,
    let buildable := List.filter (λ r, build_provider (p_code r) settings) rows in
    match rows, buildable with
    | _ :: _, [] => mret ()
    | _, _ =>
        _ ← modify (with_attempted (λ s, s ∪ list_to_set (default [] (assoc job JOB_SYMBOLS))));
        _ ← modify (with_suspects (λ _, ∅));
        _ ← mfor (consult settings) rows;
        run ← get;
        mfor (report_missing job) (sorted_set (symbols_needed run))
    end)) as (rows&run3&E&H13&Hn).
  transitivity run3; [done|]. assert (_ = (run', Ok ())) as H' by (etransitivity; [symmetry; exact E|exact H]).
  clear H E. revert H'.
  destruct rows as [|row rows]; [intros H; by eapply job_body_reports|]. cbv zeta.
  destruct (List.filter _ _); [intros [= <-]; reflexivity|]. intros H. by eapply job_body_reports.
Qed.

Lemma jobs_report jobs run run' : mfor (run_job settings) jobs run = (run', Ok ()) → Reports run run'.
Proof.
  revert run. induction jobs as [|job jobs IH]; intros run; [intros [= <-]; reflexivity|].
  cbn [mfor]. unfold mbind, M_bind.
  destruct (run_job settings job run) as [run1 [[]|e]] eqn:H1; [|done]. intros H.
  transitivity run1; [by eapply run_job_reports|by apply IH].
Qed.

Lemma keeps_measure : moves Keeps _measure_dispersion.
Proof.
  unfold _measure_dispersion. apply moves_get. intros run. apply (moves_mfor Keeps). intros symbol _.
  unfold measure_symbol. apply moves_get. intros run1.
  apply (moves_bind Keeps).
  { apply (moves_mfor Keeps). intros code _. unfold store_peers. apply moves_get. intros run2.
    case_bool_decide; [reflexivity|]. apply (moves_mfor Keeps). intros obs _.
    unfold store_peer. destruct (negb _); [apply (moves_ret Keeps)|].
    apply (moves_bind Keeps); [apply keeps_store|]. intros _.
    apply (moves_bind Keeps); [quiet|]. intros _.
    destruct (sanity_ok _ _); [quiet|apply (moves_ret Keeps)]. }
  intros _. apply moves_get. intros run2. apply (lift_bind Keeps). intros summary _.
  destruct summary as [summary|]; [|reflexivity].
  destruct (winners run2 !! symbol); [|reflexivity]. unfold _annotate_dispersion. quiet.
Qed.
End Facts.

Section Theorems.
Context `{NF : !NumericFloat} `{NO : !NumericOrder} `{SO : !SqlOrder} `{IN : !Interpreter} `{W : !World}.
Context (settings : CollectSettings).

Lemma classified_sane db obs q : classified db obs q → q ≠ q_outlier → sanity_ok (o_symbol obs) (o_value obs) = true.
Proof.
  intros (recent&why&_&Hc) Hq. revert Hc. unfold classify_observation.
  destruct (sanity_ok _ _); [done|]. simpl. intros [= <- _]. done.
Qed.

Lemma justified_sane cache ps obs : justified cache ps obs → sanity_ok (o_symbol obs) (o_value obs) = true.
Proof.
  intros [_ [(c&i&c'&j&o&db&db'&_&_&_&_&_&Hc&_)|(db&_&[Hc|[Hc _]])]]; by eapply classified_sane.
Qed.


(** A pass keeps the tables well-formed and only ever adds to them: unique keys stay
    unique, the CHECK of the prices stays true, no price is rewritten, and of a stored
    observation nothing but its payload changes. *)
Theorem collect_preserves (jobs : option (list string)) (db : DB) :
  keyed (data_providers db) → tables_ok (raw_observations db) (prices db) →
  let db' := r_db (run_collect settings jobs db).1 in
  tables_ok (raw_observations db') (prices db') ∧
  prices db `prefix_of` prices db' ∧
  (erase <$> raw_observations db) `prefix_of` (erase <$> raw_observations db').
Proof.
  intros Hkey Hok db'. destruct (collect_step settings jobs db Hkey) as [Hi Hs].
  split_and!; [by apply (st_tables _ _ Hs)|by apply (step_prefix _ _ Hs)|by apply (st_raw _ _ Hs)].
Qed.

(** The outside calls of a pass: a provider is asked at most once, and only one the
    registry can build; what the report counts of a symbol is exactly the prices it gained. *)
Theorem collect_accounts (jobs : option (list string)) (db : DB) :
  keyed (data_providers db) →
  let run := (run_collect settings jobs db).1 in
  NoDup (calls run) ∧
  (∀ code, code ∈ calls run → build_provider code settings = true) ∧
  (∀ s, default 0 (collected run !! s) = priced s (prices (r_db run)) - priced s (prices db)).
Proof.
  intros Hkey run. destruct (collect_step settings jobs db Hkey) as [Hi Hs].
  split_and!; [apply (inv_calls _ _ _ Hi)|apply (inv_built _ _ _ Hi)|].
  intros s. pose proof (st_counts _ _ Hs s) as Hc. unfold uncounted in Hc. fold run in Hc.
  cbn [start r_db collected] in Hc. rewrite lookup_empty in Hc. simpl in Hc. lia.
Qed.

(** C20. No symbol goes missing silently.  When a pass returns, every symbol of every job it
    attempted has either a fresh quote of this pass in the table, or an error that names it. *)
Theorem collect_reports (jobs : option (list string)) (db : DB) (run : Run) report :
  run_collect settings jobs db = (run, Ok report) →
  report = (collected run, errors run) ∧
  ∀ s, s ∈ attempted_symbols run → satisfied settings run s ∨ reported run s.
Proof.
  unfold run_collect. unfold mbind at 1, M_bind at 1.
  destruct (mfor _ _ _) as [run1 [[]|e]] eqn:H1; [|done]. apply jobs_report in H1.
  unfold mbind at 1, M_bind at 1.
  assert (Keeps settings run1 (guarded _measure_dispersion run1).1) as H2.
  { unfold guarded. pose proof (keeps_measure settings run1) as Hk.
    destruct (_measure_dispersion run1) as [run2 [[]|e]]; simpl in *; [done|].
    destruct Hk as [n c k er a tk]. split; simpl; auto. intros x Hx. set_solver. }
  destruct (guarded _measure_dispersion run1) as [run2 [[]|e]] eqn:Hg; cbn [fst] in H2; [|done].
  unfold mbind, M_bind, get. intros [= <- <-]. split; [done|]. intros s Hs.
  rewrite (k_attempted _ _ _ H2) in Hs.
  destruct (rp_attempted _ _ _ H1 s Hs) as [H|[H|(job&H)]]; [set_solver| |].
  - left. eapply satisfied_mono; [apply (k_cache _ _ _ H2)|apply (k_keys _ _ _ H2)|apply (k_ticks _ _ _ H2)|done].
  - right. exists job. destruct H; [left|right]; by apply (k_errors _ _ _ H2).
Qed.

(** *** The slots of the funds job *)
Lemma parse_parts_nonneg parts : Forall (λ t, 0 ≤ t) (parse_parts parts).
Proof.
  induction parts as [|p parts IH]; simpl; [constructor|]. destruct (String.eqb _ _); [done|].
  destruct (split ":"%char (strip p)) as [|hh [|mm [|]]]; try done.
  destruct (h ← py_int hh; m ← py_int mm; mk_time h m) as [t|] eqn:Ht; [|done].
  constructor; [|done]. apply bind_Ok in Ht as (h&_&(m&_&Hm)%bind_Ok). unfold mk_time in Hm.
  destruct (_ && _) eqn:Hb; [|done]. injection Hm as <-. rewrite !andb_true_iff, !Z.leb_le in Hb.
  unfold clock. unfold_time. lia.
Qed.

Lemma slots_nonneg raw : Forall (λ t, 0 ≤ t) (_parse_fetch_times raw).
Proof.
  unfold _parse_fetch_times. pose proof (parse_parts_nonneg (split ","%char raw)) as H.
  rewrite <-(py_sorted_perm Z.ltb) in H. destruct (py_sorted Z.ltb _); [|done].
  repeat constructor; by vm_compute.
Qed.

Lemma passed_slot_range local slot :
  passed_slot settings local = Some slot → 0 ≤ slot ≤ time_of local.
Proof.
  unfold passed_slot. pose proof (slots_nonneg (tsetmc_fetch_times settings)) as Hn.
  destruct (List.filter _ _) as [|t ts] eqn:Hf; [done|]. intros [= <-].
  pose proof (foldl_pick Z.max ts t ltac:(lia)) as He. rewrite <-Hf in He.
  apply elem_of_bool_filter in He as [He Ht%Z.leb_le]. rewrite Forall_forall in Hn. split; auto.
Qed.

(** The request budget of the exchange funds: once an attempt at or after a slot is
    marked, the job is not due again until a later slot has passed, whatever the attempt
    brought and however often the pass runs. *)
Theorem funds_one_round_per_slot `{IL : !InterpreterLaws IN} (off t0 : Z) (db : DB)
    (at_ later mark : instant) (stamp : instant) :
  tz_fixed_since TEHRAN_TZ off t0 → t0 + us_day ≤ at_ → at_ ≤ mark → 0 ≤ mark →
  t0 ≤ later →
  date_of (to_wall TEHRAN_TZ later) = date_of (to_wall TEHRAN_TZ at_) →
  passed_slot settings (to_wall TEHRAN_TZ later) = passed_slot settings (to_wall TEHRAN_TZ at_) →
  app_settings db !! FUNDS_ATTEMPT_KEY = Some (JObj [("at", JStr (isoformat mark))], stamp) →
  funds_job_due settings db later = false.
Proof.
  intros [Hoff Hwall] Hat Hmark H0 Hlater Hd Hp Hs. unfold funds_job_due.
  destruct (_ || _); [done|]. rewrite Hp, Hd, Hs.
  destruct (passed_slot settings (to_wall TEHRAN_TZ at_)) as [slot|] eqn:Hslot; [|done].
  apply passed_slot_range in Hslot. simpl (setting_text _ _).
  assert (String.eqb (isoformat mark) EmptyString = false) as ->.
  { apply String.eqb_neq. by apply iso_not_empty. }
  unfold marker_instant. destruct (iso_roundtrip mark H0) as (dt&->&->).
  unfold to_wall in *. rewrite (Hoff at_) in * by (unfold us_day, us_hour, us_minute, us_second in *; lia).
  assert (combine (date_of (at_ + off)) slot ≤ at_ + off ∧ at_ + off - us_day < combine (date_of (at_ + off)) slot)
    as [Hle Hgt].
  { unfold combine, date_of, time_of in *. pose proof (Z.div_mod (at_ + off) us_day).
    pose proof (Z.mod_pos_bound (at_ + off) us_day). unfold us_day, us_hour, us_minute, us_second in *. lia. }
  unfold of_wall. rewrite Hwall by lia.
  set (marks := option_list (last_funds_fetch db) ++ _).
  assert (mark ∈ marks) as Hin by (unfold marks; apply elem_of_app; right; left).
  destruct marks as [|t ts]; [by apply elem_of_nil in Hin|].
  apply Z.ltb_ge. pose proof (foldl_max_ge ts t mark Hin). lia.
Qed.

(** Measuring the disagreement costs nothing and decides nothing: the dispersion pass
    asks no provider, writes no price, and leaves the registry and the report alone. *)
Theorem dispersion_is_silent (run : Run) :
  let run' := (guarded _measure_dispersion run).1 in
  calls run' = calls run ∧ prices (r_db run') = prices (r_db run) ∧
  data_providers (r_db run') = data_providers (r_db run) ∧ collected run' = collected run.
Proof.
  set (R := λ a b : Run, calls b = calls a ∧ prices (r_db b) = prices (r_db a) ∧
    data_providers (r_db b) = data_providers (r_db a) ∧ collected b = collected a).
  assert (PreOrder R) as HR.
  { split; [done|]. intros x y z (?&?&?&?) (?&?&?&?). split_and!; congruence. }
  assert (moves R _measure_dispersion) as Hm.
  { unfold _measure_dispersion. apply moves_get. intros r. apply (moves_mfor R). intros symbol _.
    unfold measure_symbol. apply moves_get. intros r1. apply (moves_bind R).
    - apply (moves_mfor R). intros code _. unfold store_peers. apply moves_get. intros r2.
      case_bool_decide; [done|]. apply (moves_mfor R). intros obs _. unfold store_peer.
      destruct (negb _); [apply (moves_ret R)|]. apply (moves_bind R); [|intros _; apply (moves_bind R)].
      + intros r3. unfold _store, now, get, modify, mbind, M_bind. simpl. unfold store_rows.
        by rewrite andb_false_r.
      + by intros r3.
      + intros _. destruct (sanity_ok _ _); by intros r3.
    - intros _. apply moves_get. intros r2. apply (lift_bind R). intros [] _; [|done].
      destruct (winners r2 !! symbol); [|done]. by split_and!. }
  simpl. unfold guarded. specialize (Hm run). by destruct (_measure_dispersion run) as [r' [[]|e]].
Qed.
End Theorems.

(** ** A pass at concrete inputs *)
#[local] Instance demo_numbers : NumericOrder := {| storable := λ x, negb (is_nan x); num_le := fle |}.

#[local] Instance demo_order : SqlOrder := {| newest_first := λ A key l, sort_by (λ x, - key x) l |}.

#[local] Instance demo_interpreter : Interpreter :=
  {| sha256_hex := λ s, s;
     format_10g := λ x, match int_of_float x with Ok n => str_of_Z n | Err _ => "nan" end;
     isoformat := str_of_Z;
     fromisoformat := λ s, n ← py_int s; Ok (naive n) |}.

#[local] Instance demo_interpreter_laws : InterpreterLaws demo_interpreter.
Proof.
  split; intros t Ht; simpl.
  - exists (naive t). by rewrite py_int_str.
  - intros He. pose proof (py_int_str t Ht) as Hp. by rewrite He in Hp.
Qed.

Definition demo_settings : CollectSettings :=
  {| cs_market := default_settings; tsetmc_fetch_times := "12:00,15:00,18:00";
     brsapi_api_key := EmptyString; navasan_api_key := EmptyString;
     metals_dev_api_key := EmptyString |}.

(** 12:00 in Tehran on a Saturday. *)
Definition noon : instant := combine (ordinal 2026 9 12) (clock 8 30).

Definition dollar (provider : string) (value minutes : Z) : Observation :=
  {| o_provider_code := provider; o_symbol := "USD_IRT"; o_raw_value := float_of_Z value;
     o_raw_unit := "IRT/usd"; o_raw_currency := "IRT"; o_value := float_of_Z value;
     o_currency := "IRT"; o_unit := "usd"; o_observed_at := aware (noon - minutes * us_minute) 0;
     o_raw_payload := None |}.

Definition provider_row (code category : string) (priority : Z) : ProviderRow :=
  {| p_code := code; p_name := code; p_category := category; p_enabled := true;
     p_priority := priority; p_last_success_at := None; p_last_error_at := None;
     p_last_error := None; p_consecutive_failures := 0; p_updated_at := None |}.

Definition demo_db : DB :=
  {| data_providers := {[ "bitmax" := provider_row "bitmax" "fx" 1; "tgju" := provider_row "tgju" "fx" 2 ]};
     raw_observations := [];
     prices := [price_row (noon - us_day) (dollar "tgju" 60000 1440)];
     app_settings := ∅ |}.

Definition demo_world (answers : string → result string (list Observation)) : World :=
  {| utcnow := λ n, noon + Z.of_nat n; fetch := λ _, answers; collate_lt := String.ltb;
     TEHRAN_TZ := fixed_zone (3 * us_hour + 30 * us_minute) |}.

Definition demo_run (answers : string → result string (list Observation)) : Run :=
  (run_collect (W := demo_world answers) demo_settings (Some ["fx"]) demo_db).1.

Definition served (run : Run) : list (string * float) :=
  (λ r, (pr_source r, pr_value r)) <$> prices (r_db run).

(** The first provider fails, the second satisfies the symbol. *)
Example fallback :
  let run := demo_run (λ c, if String.eqb c "bitmax" then Err "timeout" else Ok [dollar c 61000 1]) in
  (served run, calls run, collected run !! "USD_IRT", errors run) =
  ([("tgju", float_of_Z 60000); ("tgju", float_of_Z 61000)], ["bitmax"; "tgju"], Some 1,
   [ProviderFailed "bitmax" "timeout"]).
Proof. vm_compute. reflexivity. Qed.

(** A jump that the second source confirms: both are served. *)
Example confirmed_jump :
  let run := demo_run (λ c, Ok [dollar c (if String.eqb c "bitmax" then 90000 else 91000) 1]) in
  (served run, collected run !! "USD_IRT") =
  ([("tgju", float_of_Z 60000); ("bitmax", float_of_Z 90000); ("tgju", float_of_Z 91000)], Some 2).
Proof. vm_compute. reflexivity. Qed.

(** The observation that was promoted is still marked suspect: its second store conflicts
    with the first on the dedupe key and is ignored. *)
Example promoted_stays_suspect :
  let run := demo_run (λ c, Ok [dollar c (if String.eqb c "bitmax" then 90000 else 91000) 1]) in
  (λ r, (raw_provider_code r, raw_quality r)) <$> raw_observations (r_db run) =
  [("bitmax", "suspect"); ("tgju", "ok")].
Proof. vm_compute. reflexivity. Qed.

(** One source that serves two quotes of the symbol confirms itself. *)
Example self_confirmation :
  let run := demo_run (λ c, if String.eqb c "bitmax" then Ok [dollar c 90000 2; dollar c 91000 1]
                            else Err "down") in
  (served run, calls run, errors run) =
  ([("tgju", float_of_Z 60000); ("bitmax", float_of_Z 90000); ("bitmax", float_of_Z 91000)],
   ["bitmax"], [HeldAsSuspect "bitmax" "USD_IRT" (Some (Jump (float_of_Z 50) (float_of_Z 60000)))]).
Proof. vm_compute. reflexivity. Qed.

(** No provider delivers: the symbol is reported. *)
Example nothing_collected :
  let run := demo_run (λ _, Ok []) in
  (served run, errors run) = ([("tgju", float_of_Z 60000)], [NoGoodValue "fx" "USD_IRT"]).
Proof. vm_compute. reflexivity. Qed.

Lemma demo_keyed : keyed (data_providers demo_db).
Proof.
  intros c row. simpl. rewrite lookup_insert_Some, lookup_singleton_Some. naive_solver.
Qed.

Definition jump_answers (c : string) : result string (list Observation) :=
  Ok [dollar c (if String.eqb c "bitmax" then 90000 else 91000) 1].


Lemma collect_preserves_witness :
  tables_ok (raw_observations demo_db) (prices demo_db) ∧
  prices demo_db `prefix_of` prices (r_db (demo_run (λ c, Ok [dollar c 61000 1]))).
Proof.
  assert (tables_ok (raw_observations demo_db) (prices demo_db)) as Hok.
  { split; [apply NoDup_singleton|apply Forall_singleton; vm_compute; reflexivity|apply NoDup_nil_2]. }
  split; [exact Hok|].
  pose proof (collect_preserves (W := demo_world (λ c, Ok [dollar c 61000 1])) demo_settings
                (Some ["fx"]) demo_db demo_keyed Hok) as [_ [H _]].
  exact H.
Defined.

Lemma collect_reports_witness :
  "USD_IRT" ∈ attempted_symbols (demo_run (λ _, Ok [])) ∧
  (satisfied (W := demo_world (λ _, Ok [])) demo_settings (demo_run (λ _, Ok [])) "USD_IRT"
   ∨ reported (demo_run (λ _, Ok [])) "USD_IRT").
Proof.
  assert ("USD_IRT" ∈ attempted_symbols (demo_run (λ _, Ok []))) as Hs.
  { apply (bool_decide_unpack _). vm_compute. exact I. }
  split; [exact Hs|].
  pose proof (collect_reports (W := demo_world (λ _, Ok [])) demo_settings (Some ["fx"]) demo_db
                (demo_run (λ _, Ok []))
                (collected (demo_run (λ _, Ok [])), errors (demo_run (λ _, Ok [])))) as H.
  destruct H as [_ H]; [vm_compute; reflexivity|]. exact (H "USD_IRT" Hs).
Defined.

(** The attempt of noon is marked five seconds later; at one o'clock nothing is due. *)
Lemma funds_one_round_per_slot_witness :
  let db := {| data_providers := ∅; raw_observations := []; prices := [];
               app_settings := {[ FUNDS_ATTEMPT_KEY :=
                 (JObj [("at", JStr (str_of_Z (noon + 5 * us_second)))], noon) ]} |} in
  funds_job_due (W := demo_world (λ _, Ok [])) demo_settings db (noon + us_hour) = false ∧
  funds_job_due (W := demo_world (λ _, Ok [])) demo_settings demo_db (noon + us_hour) = true.
Proof.
  intros db. split; [|vm_compute; reflexivity].
  apply (funds_one_round_per_slot (W := demo_world (λ _, Ok [])) demo_settings
           (3 * us_hour + 30 * us_minute) 0 db noon (noon + us_hour) (noon + 5 * us_second) noon);
    [apply fixed_zone_fixed|..];
    try (apply Z.leb_le; vm_compute; reflexivity); try (vm_compute; reflexivity).
Defined.
