(* ===== verification/Retention.v ===== *)
(** * Bounded, calibration-aware retention

    [app/core/retention.py]: the batched delete, the protected windows of the
    self-learning loops and the retention run over six tables.

    A table is the list of its rows in storage order, with unique ids; a DELETE
    removes rows and keeps the order of the others.  The subselects of the
    WHERE clauses are functions of the table the statement runs on, so they are
    evaluated again by every batch, as the database does; ties of
    [ORDER BY target_time DESC] are in storage order.  Any statement may raise:
    [fails n] is the exception of the [n]-th statement, the count being 0. *)
From S2P Require Import Prelude PyFloat PyTime PyText.
Local Open Scope string_scope.
Local Open Scope list_scope.
Local Open Scope Z_scope.

Definition BATCH_ROWS : Z := 5000.
Definition MAX_BATCHES : Z := 200.
Definition META_GATE_SAMPLES : Z := 500.
Definition LIVE_CAL_WINDOW : Z := 60.
Definition ENSEMBLE_WINDOW_DAYS : Z := 120.
Definition MIN_AUDIT_RETENTION_DAYS : Z := 365.

Record TableResult : Set := {
  table : string;
  deleted : Z;
  scanned_batches : Z;
  floor_reason : string;
  skipped : bool;
  error : option string;
}.

(** ** The batched delete *)
Section Batched.
Context {Row : Type} (id_of : Row → Z) (where_ : list Row → Row → bool)
  (batch_rows max_batches : Z) (fails : nat → option string).

(** [SELECT id FROM table WHERE ... ORDER BY id] *)
Definition eligible (tbl : list Row) : list Row :=
  sort_by id_of (List.filter (where_ tbl) tbl).

Definition remove_ids (ids : list Z) (tbl : list Row) : list Row :=
  List.filter (λ r, negb (existsb (Z.eqb (id_of r)) ids)) tbl.

(** One DELETE statement: the new table and its rowcount. *)
Definition delete_batch (tbl : list Row) : list Row * Z :=
  let victims := take (Z.to_nat batch_rows) (eligible tbl) in
  (remove_ids (id_of <$> victims) tbl, Z.of_nat (length victims)).

Definition with_progress (res : TableResult) (removed : Z) : TableResult :=
  {| table := table res; deleted := deleted res + removed;
     scanned_batches := scanned_batches res + 1; floor_reason := floor_reason res;
     skipped := skipped res; error := error res |}.

Definition with_error (res : TableResult) (e : string) : TableResult :=
  {| table := table res; deleted := deleted res; scanned_batches := scanned_batches res;
     floor_reason := floor_reason res; skipped := skipped res; error := Some e |}.

(** [while res.scanned_batches < MAX_BATCHES]; the fuel is the batches left. *)
Fixpoint delete_loop (fuel : nat) (n : nat) (tbl : list Row) (res : TableResult)
    : list Row * TableResult :=
  match fuel with
  | O => (tbl, res)
  | S fuel =>
      match fails n with
      | Some e => (tbl, with_error res e)
      | None =>
          let '(tbl, removed) := delete_batch tbl in
          let res := with_progress res removed in
          if removed <? batch_rows then (tbl, res) else delete_loop fuel (S n) tbl res
      end
  end.

Definition new_result (name : string) : TableResult :=
  {| table := name; deleted := 0; scanned_batches := 0; floor_reason := "";
     skipped := false; error := None |}.

Definition _delete_batched (name : string) (dry_run : bool) (tbl : list Row)
    : list Row * TableResult :=
  let res := new_result name in
  match fails 0%nat with
  | Some e => (tbl, with_error res e)
  | None =>
      if dry_run then
        (tbl, {| table := name; deleted := Z.of_nat (length (List.filter (where_ tbl) tbl));
                 scanned_batches := 0; floor_reason := ""; skipped := false; error := None |})
      else delete_loop (Z.to_nat max_batches) 1 tbl res
  end.
End Batched.

(** ** The tables *)
Record Prediction : Set := {
  pd_id : Z;
  pd_symbol : string;
  pd_horizon : string;
  predicted_at : instant;
  target_time : instant;
  actual_value : option float;
}.

(** A row of [signals], [alert_events] or [audit_logs] is its id and its date. *)
Record Dated : Set := { dt_id : Z; dt_at : instant }.

Record ModelVersion : Set := { mv_id : Z; is_active : bool; trained_at : instant }.

Record Tables : Set := {
  predictions : list Prediction;
  signals : list Dated;
  training_runs : list Z;
  model_versions : list ModelVersion;
  alert_events : list Dated;
  audit_logs : list Dated;
}.

Definition matured (p : Prediction) : bool :=
  match actual_value p with Some _ => true | None => false end.

(** [SELECT id FROM predictions WHERE actual_value IS NOT NULL
     ORDER BY target_time DESC LIMIT n] *)
Definition newest_matured (n : Z) (tbl : list Prediction) : list Prediction :=
  take (Z.to_nat n) (sort_by (λ p, - target_time p) (List.filter matured tbl)).

Definition same_series (p q : Prediction) : bool :=
  String.eqb (pd_symbol q) (pd_symbol p) && String.eqb (pd_horizon q) (pd_horizon p).

(** The matured rows of the series newer than [p]. *)
Definition newer_in_series (tbl : list Prediction) (p : Prediction) : list Prediction :=
  List.filter (λ q, same_series p q && matured q && (target_time p <? target_time q)) tbl.

Definition in_gate_window (tbl : list Prediction) (p : Prediction) : bool :=
  existsb (λ q, pd_id q =? pd_id p) (newest_matured META_GATE_SAMPLES tbl).

Definition in_cal_window (tbl : list Prediction) (p : Prediction) : bool :=
  matured p && (Z.of_nat (length (newer_in_series tbl p)) <? LIVE_CAL_WINDOW).

(** The [protected] clause. *)
Definition protected (ens_floor : instant) (tbl : list Prediction) (p : Prediction) : bool :=
  in_gate_window tbl p || in_cal_window tbl p || (ens_floor <=? target_time p).

Definition where_predictions (cutoff ens_floor : instant) (tbl : list Prediction)
    (p : Prediction) : bool :=
  (predicted_at p <? cutoff) && negb (protected ens_floor tbl p).

Definition where_dated (cutoff : instant) (_ : list Dated) (r : Dated) : bool :=
  dt_at r <? cutoff.

(** [id < (SELECT coalesce(min(id), 0) FROM (SELECT id ... DESC LIMIT :keep))] *)
Definition min_id (ids : list Z) : Z :=
  match ids with [] => 0 | x :: ids => foldl Z.min x ids end.

Definition where_runs (keep : Z) (tbl : list Z) (r : Z) : bool :=
  r <? min_id (take (Z.to_nat keep) (sort_by Z.opp tbl)).

Definition where_models (cutoff : instant) (_ : list ModelVersion) (r : ModelVersion) : bool :=
  negb (is_active r) && (trained_at r <? cutoff).

(** ** The run *)
Record Settings : Set := {
  prediction_retention_days : Z;
  signal_retention_days : Z;
  training_run_keep : Z;
  model_version_retention_days : Z;
  alert_event_retention_days : Z;
  audit_retention_days : Z;
}.

(** [int(getattr(settings, attr, default) or default)] *)
Definition days (attr default : Z) : Z := if attr =? 0 then default else attr.

Definition back (now : instant) (d : Z) : instant := now - d * us_day.

(** [protected_prediction_cutoff]: the earliest of the three floors.  The ensemble
    floor always exists, so the list of floors is never empty. *)
Definition opt_min (l : list Z) : option Z :=
  match l with [] => None | x :: l => Some (foldl Z.min x l) end.

Definition cal_floor (tbl : list Prediction) : option instant :=
  opt_min (omap (λ p, opt_min (target_time <$>
             take (Z.to_nat LIVE_CAL_WINDOW)
               (sort_by (λ q, - target_time q)
                  (List.filter (λ q, same_series p q && matured q) tbl)))) tbl).

Definition protected_prediction_cutoff (now : instant) (tbl : list Prediction)
    : option instant * string :=
  let ensemble_floor := back now ENSEMBLE_WINDOW_DAYS in
  let gate_floor := opt_min (target_time <$> newest_matured META_GATE_SAMPLES tbl) in
  let floors := omap id [gate_floor; cal_floor tbl; Some ensemble_floor] in
  match opt_min floors with
  | None => (None, "no matured predictions yet: nothing is eligible")
  | Some floor =>
      (Some floor, "protected by self-learning windows (meta-gate 500, calibration 60/series, ensemble 120d)")
  end.

Definition with_floor (res : TableResult) (reason : string) : TableResult :=
  {| table := table res; deleted := deleted res; scanned_batches := scanned_batches res;
     floor_reason := reason; skipped := skipped res; error := error res |}.

(** [fails t n]: the [n]-th statement on the [t]-th table. *)
Definition run_retention (now : instant) (settings : Settings) (dry_run : bool)
    (fails : nat → nat → option string) (db : Tables) : Tables * list TableResult :=
  let delete {Row} (id_of : Row → Z) wh t name tbl :=
    _delete_batched id_of wh BATCH_ROWS MAX_BATCHES (fails t) name dry_run tbl in
  let reason := snd (protected_prediction_cutoff now (predictions db)) in
  let cutoff := back now (days (prediction_retention_days settings) 730) in
  let p := delete pd_id (where_predictions cutoff (back now ENSEMBLE_WINDOW_DAYS))
             0%nat "predictions" (predictions db) in
  let s := delete dt_id (where_dated (back now (days (signal_retention_days settings) 365)))
             1%nat "signals" (signals db) in
  let r := delete id (where_runs (days (training_run_keep settings) 200))
             2%nat "training_runs" (training_runs db) in
  let m := delete mv_id
             (where_models (back now (days (model_version_retention_days settings) 180)))
             3%nat "model_versions" (model_versions db) in
  let e := delete dt_id (where_dated (back now (days (alert_event_retention_days settings) 180)))
             4%nat "alert_events" (alert_events db) in
  let audit_days := Z.max (days (audit_retention_days settings) 730) MIN_AUDIT_RETENTION_DAYS in
  let a := delete dt_id (where_dated (back now audit_days)) 5%nat "audit_logs" (audit_logs db) in
  ({| predictions := p.1; signals := s.1; training_runs := r.1; model_versions := m.1;
      alert_events := e.1; audit_logs := a.1 |},
   [with_floor p.2 reason; s.2; r.2; m.2; e.2; with_floor a.2 "never below 365d"]).

(** [as_dict()["total_deleted"]] *)
Definition total_deleted (tables : list TableResult) : Z := foldl Z.add 0 (deleted <$> tables).

(** ** The batched delete removes eligible rows only, oldest ids first *)
Lemma remove_ids_spec {Row} (id_of : Row → Z) ids tbl r :
  r ∈ remove_ids id_of ids tbl ↔ r ∈ tbl ∧ id_of r ∉ ids.
Proof.
  unfold remove_ids. rewrite elem_of_bool_filter, negb_true_iff, <- not_true_iff_false.
  rewrite existsb_exists. setoid_rewrite Z.eqb_eq. setoid_rewrite <- list_elem_of_In.
  naive_solver.
Qed.

(** A later table is the earlier one less some of its rows. *)
Definition shrinks {Row} (tbl tbl' : list Row) : Prop :=
  ∃ keep : Row → bool, tbl' = List.filter keep tbl.

Section BatchedFacts.
Context {Row : Type} (id_of : Row → Z) (where_ : list Row → Row → bool)
  (batch_rows max_batches : Z).

(** Deleting eligible rows does not change which of the others are eligible. *)
Definition where_stable : Prop :=
  ∀ (keep : Row → bool) tbl,
    (∀ r, r ∈ tbl → keep r = false → where_ tbl r = true) →
    ∀ r, r ∈ tbl → keep r = true → where_ (List.filter keep tbl) r = where_ tbl r.

Context (Hstable : where_stable).

Notation delete_batch := (delete_batch id_of where_ batch_rows).
Notation delete_loop := (delete_loop id_of where_ batch_rows).
Notation eligible := (eligible id_of where_).

Lemma elem_of_eligible tbl r : r ∈ eligible tbl ↔ r ∈ tbl ∧ where_ tbl r = true.
Proof. unfold Retention.eligible, sort_by. by rewrite py_sorted_perm, elem_of_bool_filter. Qed.

Lemma NoDup_filter_ids (keep : Row → bool) tbl :
  NoDup (id_of <$> tbl) → NoDup (id_of <$> List.filter keep tbl).
Proof.
  induction tbl as [|t tbl IH]; [done|]. rewrite fmap_cons, NoDup_cons. intros [Hn Hnd].
  simpl. destruct (keep t); [|by apply IH]. rewrite fmap_cons, NoDup_cons.
  split; [|by apply IH]. intros (s&Hs&Hin)%list_elem_of_fmap.
  apply elem_of_bool_filter in Hin as [Hin _]. apply Hn. rewrite Hs.
  by apply list_elem_of_fmap_2.
Qed.

Lemma delete_batch_spec tbl tbl' removed :
  NoDup (id_of <$> tbl) → delete_batch tbl = (tbl', removed) →
  removed = Z.of_nat (length (take (Z.to_nat batch_rows) (eligible tbl)))
  ∧ eligible tbl' = drop (Z.to_nat batch_rows) (eligible tbl)
  ∧ (∀ r, r ∈ tbl' ↔ r ∈ tbl ∧ r ∉ take (Z.to_nat batch_rows) (eligible tbl))
  ∧ ∃ keep, tbl' = List.filter keep tbl
      ∧ (∀ r, r ∈ tbl → keep r = false → where_ tbl r = true).
Proof.
  intros Hnd. set (n := Z.to_nat batch_rows). unfold Retention.delete_batch. fold n.
  intros [= <- <-]. set (victims := take n (eligible tbl)).
  assert (NoDup (id_of <$> eligible tbl)) as Hnde.
  { unfold Retention.eligible, sort_by. rewrite py_sorted_perm. by apply NoDup_filter_ids. }
  assert (∀ r, r ∈ tbl → id_of r ∈ id_of <$> victims → r ∈ victims) as Hid.
  { intros r Hr (v&Hv&Hin)%list_elem_of_fmap.
    assert (v ∈ tbl) as Hvt.
    { apply elem_of_take in Hin as (i&Hi&_). apply list_elem_of_lookup_2 in Hi.
      by apply elem_of_eligible in Hi as [? _]. }
    by rewrite (NoDup_key_inj id_of tbl r v Hnd Hr Hvt Hv). }
  set (keep := λ r, negb (existsb (Z.eqb (id_of r)) (id_of <$> victims))).
  assert (∀ r, keep r = true ↔ id_of r ∉ id_of <$> victims) as Hkeep.
  { intros r. unfold keep. rewrite negb_true_iff, <- not_true_iff_false, existsb_exists.
    setoid_rewrite Z.eqb_eq. setoid_rewrite <- list_elem_of_In. naive_solver. }
  assert (∀ r, r ∈ tbl → keep r = false → where_ tbl r = true) as Hdel.
  { intros r Hr Hk. assert (r ∈ victims) as Hv.
    { apply Hid; [done|]. destruct (decide (id_of r ∈ id_of <$> victims)) as [|Hn]; [done|].
      apply Hkeep in Hn. congruence. }
    apply elem_of_take in Hv as (i&Hi&_). apply list_elem_of_lookup_2 in Hi.
    by apply elem_of_eligible in Hi as [_ ?]. }
  split_and!; [done| | |by exists keep].
  - unfold Retention.eligible at 1. change (remove_ids _ _ _) with (List.filter keep tbl).
    rewrite (bool_filter_ext _ (where_ tbl)).
    2: { intros r [Hr Hk]%elem_of_bool_filter. by apply Hstable. }
    rewrite bool_filter_filter.
    rewrite (bool_filter_ext _ (λ r, where_ tbl r && keep r)) by (intros; apply andb_comm).
    rewrite <- bool_filter_filter, sort_by_filter. fold (eligible tbl).
    rewrite <- (take_drop n (eligible tbl)) at 1. rewrite List.filter_app.
    rewrite (proj2 (filter_nil_iff _ _)), (bool_filter_all keep); [done| |].
    + intros r Hr. apply Hkeep. intros (v&Hv&Hin)%list_elem_of_fmap. fold victims in Hin.
      rewrite <- (take_drop n (eligible tbl)), fmap_app in Hnde.
      apply NoDup_app in Hnde as (_&Hdisj&_). apply (Hdisj (id_of v)).
      * by apply list_elem_of_fmap_2.
      * rewrite <- Hv. by apply list_elem_of_fmap_2.
    + apply Forall_forall. intros r Hr. apply not_true_iff_false. rewrite Hkeep.
      intros Hn. apply Hn. by apply list_elem_of_fmap_2.
  - intros r. rewrite remove_ids_spec. split; intros [Hr Hn]; split; try done.
    + intros Hv. apply Hn. by apply list_elem_of_fmap_2.
    + intros Hv. by apply Hn, Hid.
Qed.

Lemma delete_loop_spec fails fuel n tbl res tbl' res' :
  0 < batch_rows → NoDup (id_of <$> tbl) →
  Retention.delete_loop id_of where_ batch_rows fails fuel n tbl res = (tbl', res') →
  ∃ k, (k ≤ length (eligible tbl))%nat ∧ (k ≤ fuel * Z.to_nat batch_rows)%nat
    ∧ deleted res' = deleted res + Z.of_nat k
    ∧ (∀ r, r ∈ tbl' ↔ r ∈ tbl ∧ r ∉ take k (eligible tbl))
    ∧ shrinks tbl tbl'
    ∧ eligible tbl' = drop k (eligible tbl)
    ∧ ((∀ i, fails i = None) →
         error res' = error res
         ∧ k = Nat.min (fuel * Z.to_nat batch_rows) (length (eligible tbl))).
Proof.
  intros Hb. revert n tbl res. induction fuel as [|fuel IH]; intros n tbl res Hnd H; cbn [Retention.delete_loop] in H.
  { injection H as <- <-. exists 0%nat. split_and!; [lia|lia|lia| | |done|by intros].
    - intros r. rewrite take_0, elem_of_nil. tauto.
    - exists (λ _, true). symmetry. by apply bool_filter_all. }
  destruct (fails n) as [e|] eqn:Hf.
  { injection H as <- <-. exists 0%nat. split_and!; [lia|lia|simpl; lia| | |done|].
    - intros r. rewrite take_0, elem_of_nil. tauto.
    - exists (λ _, true). symmetry. by apply bool_filter_all.
    - intros Hno. by rewrite Hno in Hf. }
  destruct (delete_batch tbl) as [tbl1 removed] eqn:Hd.
  destruct (delete_batch_spec tbl tbl1 removed Hnd Hd) as (Hrem&Hel&Hin&keep&Hkeep&_).
  rewrite length_take in Hrem. cbv beta iota zeta in H.
  destruct (Z.ltb_spec removed batch_rows) as [Hlt|Hge].
  - injection H as <- <-. exists (length (eligible tbl)).
    assert (length (eligible tbl) < Z.to_nat batch_rows)%nat by lia.
    rewrite take_ge in Hin by lia. rewrite drop_ge in Hel by lia.
    split_and!; [lia|simpl; lia|simpl; lia| |by exists keep| |].
    + intros r. by rewrite take_ge by lia.
    + by rewrite drop_ge by lia.
    + intros _. split; [done|]. simpl. lia.
  - assert (NoDup (id_of <$> tbl1)) as Hnd1 by (rewrite Hkeep; by apply NoDup_filter_ids).
    destruct (IH _ _ _ Hnd1 H) as (k&Hk1&Hk2&Hdel&Hin'&[keep' ->]&Hel'&Hno).
    rewrite Hel in Hk1, Hel', Hno. rewrite length_drop in Hk1.
    set (b := Z.to_nat batch_rows) in *. exists (b + k)%nat.
    assert (b ≤ length (eligible tbl))%nat as Hble by lia.
    split_and!.
    + lia.
    + simpl. fold b. lia.
    + rewrite Hdel. simpl. lia.
    + intros r. rewrite Hin', Hin, Hel.
      rewrite <- take_take_drop, elem_of_app. tauto.
    + exists (λ r, keep r && keep' r). by rewrite Hkeep, bool_filter_filter.
    + by rewrite Hel', drop_drop.
    + intros Hnone. destruct (Hno Hnone) as [-> ->]. rewrite length_drop. split; [done|].
      simpl. fold b. lia.
Qed.

(** The whole statement sequence on one table. *)
Lemma delete_batched_spec fails name dry tbl tbl' res :
  0 < batch_rows → NoDup (id_of <$> tbl) →
  _delete_batched id_of where_ batch_rows max_batches fails name dry tbl = (tbl', res) →
  let cap := (Z.to_nat max_batches * Z.to_nat batch_rows)%nat in
  (∀ r, r ∈ tbl' → r ∈ tbl)
  ∧ shrinks tbl tbl'
  ∧ (∀ r, r ∈ tbl → where_ tbl r = false → r ∈ tbl')
  ∧ (dry = true → tbl' = tbl)
  ∧ ((∀ i, fails i = None) →
       error res = None
       ∧ (dry = true → deleted res = Z.of_nat (length (eligible tbl)))
       ∧ (dry = false →
            deleted res = Z.of_nat (Nat.min cap (length (eligible tbl)))
            ∧ eligible tbl' = drop cap (eligible tbl)
            ∧ ∀ r, r ∈ tbl' ↔ r ∈ tbl ∧ r ∉ take cap (eligible tbl))).
Proof.
  intros Hb Hnd H cap. unfold _delete_batched in H.
  assert (shrinks tbl tbl) as Hself by (exists (λ _, true); symmetry; by apply bool_filter_all).
  destruct (fails 0%nat) as [e|] eqn:Hf.
  { injection H as <- <-. split_and!; try done. intros Hno. by rewrite Hno in Hf. }
  destruct dry.
  { injection H as <- <-. split_and!; try done. intros _. split_and!; try done. intros _. simpl.
    unfold Retention.eligible, sort_by. by rewrite py_sorted_length. }
  destruct (delete_loop_spec _ _ _ _ _ _ _ Hb Hnd H) as (k&Hk1&Hk2&Hdel&Hin&Hsh&Hel&Hno).
  split_and!; [by intros r [? _]%Hin|done| |done|].
  - intros r Hr Hw. apply Hin. split; [done|]. intros Ht.
    apply elem_of_take in Ht as (i&Hi&_). apply list_elem_of_lookup_2 in Hi.
    apply elem_of_eligible in Hi as [_ ?]. congruence.
  - intros Hnone. destruct (Hno Hnone) as [He ->]. split_and!; [done|done|]. intros _.
    fold cap in Hdel, Hel, Hin |- *. split_and!.
    + rewrite Hdel. simpl. lia.
    + rewrite Hel. destruct (Nat.min_spec cap (length (eligible tbl))) as [[? ->]|[? ->]]; [done|].
      by rewrite !drop_ge by lia.
    + intros r. rewrite Hin.
      destruct (Nat.min_spec cap (length (eligible tbl))) as [[? ->]|[? ->]]; [done|].
      by rewrite !take_ge by lia.
Qed.
End BatchedFacts.

(** ** The WHERE clauses are stable under their own deletions *)
Lemma where_dated_stable cutoff : where_stable (where_dated cutoff).
Proof. done. Qed.

Lemma where_models_stable cutoff : where_stable (where_models cutoff).
Proof. done. Qed.

Lemma min_id_le l x : x ∈ l → min_id l ≤ x.
Proof. destruct l as [|y l]; [by rewrite elem_of_nil|]. simpl. apply foldl_min_le. Qed.

Lemma where_runs_stable keep : where_stable (where_runs keep).
Proof.
  intros kp tbl Hdel r _ _. unfold where_runs. rewrite sort_by_filter, take_bool_filter; [done|].
  intros x Hx. apply not_false_iff_true. intros Hk.
  assert (x ∈ tbl) as Hxt.
  { apply elem_of_take in Hx as (i&Hi&_). apply list_elem_of_lookup_2 in Hi.
    unfold sort_by in Hi. by rewrite py_sorted_perm in Hi. }
  specialize (Hdel x Hxt Hk). unfold where_runs in Hdel. apply Z.ltb_lt in Hdel.
  apply min_id_le in Hx. lia.
Qed.

Lemma filter_length_le {A} (p q : A → bool) l :
  (∀ x, x ∈ l → p x = true → q x = true) →
  (length (List.filter p l) ≤ length (List.filter q l))%nat.
Proof.
  induction l as [|x l IH]; intros H; simpl; [done|].
  assert (length (List.filter p l) ≤ length (List.filter q l))%nat as Hl.
  { apply IH. intros y Hy. apply H. by right. }
  destruct (p x) eqn:Hp; [|destruct (q x); simpl; lia].
  rewrite (H x) by (left || done). simpl. lia.
Qed.

(** The [n] newest rows of a series newer than [p] are each in the series' own
    window of [n]: a window never depends on rows outside windows. *)
Lemma window_supported n tbl p :
  (n ≤ length (newer_in_series tbl p))%nat →
  (n ≤ length (List.filter (λ q, (length (newer_in_series tbl q) <? n)%nat)
                 (newer_in_series tbl p)))%nat.
Proof.
  set (S := newer_in_series tbl p).
  set (inw := λ q, (length (newer_in_series tbl q) <? n)%nat). intros Hn.
  destruct (Nat.le_gt_cases n (length (List.filter inw S))) as [|Hlt]; [done|exfalso].
  pose proof (filter_partition_length inw S) as Hpart.
  destruct (first_max (λ a b, target_time b <? target_time a)
              (List.filter (λ q, negb (inw q)) S)) as [m|] eqn:Hm.
  2: { destruct (List.filter (λ q, negb (inw q)) S); [simpl in Hpart; lia|done]. }
  pose proof (first_max_elem _ _ _ Hm) as Hin. apply elem_of_bool_filter in Hin as [HmS Hmw].
  apply negb_true_iff, Nat.ltb_ge in Hmw.
  assert (length (newer_in_series tbl m) ≤ length (List.filter inw S))%nat; [|lia].
  unfold S, newer_in_series at 2. rewrite bool_filter_filter.
  unfold newer_in_series. apply filter_length_le. intros q Hq Hqm.
  unfold S, newer_in_series in HmS. apply elem_of_bool_filter in HmS as [_ HmS].
  unfold same_series in *. bool_to_prop. rewrite String.eqb_eq in *.
  assert (q ∈ S) as HqS.
  { unfold S, newer_in_series. apply elem_of_bool_filter. split; [done|].
    unfold same_series. rewrite !andb_true_iff, !String.eqb_eq, Z.ltb_lt.
    split_and!; try congruence; lia. }
  rewrite !andb_true_iff, !String.eqb_eq, Z.ltb_lt. split_and!; try congruence; [lia|].
  apply not_false_iff_true. intros Hqw.
  destruct (List.filter (λ q, negb (inw q)) S) as [|b l] eqn:Hf; [done|].
  injection Hm as Hm.
  assert ((target_time (first_max_from (λ a b, target_time b <? target_time a) b l)
           <? target_time q) = false) as Hge.
  { apply (first_max_from_ge (λ a b, target_time b <? target_time a) (λ _, True));
      [intros; lia|intros; lia|intros; lia|by apply Forall_true|].
    rewrite <- Hf. apply elem_of_bool_filter. by rewrite Hqw. }
  rewrite Hm in Hge. lia.
Qed.

Section PredictionWindows.
Context (cutoff ens_floor : instant) (keep : Prediction → bool) (tbl : list Prediction)
  (Hdel : ∀ p, p ∈ tbl → keep p = false → where_predictions cutoff ens_floor tbl p = true).

(** Only unprotected rows are gone. *)
Lemma unprotected_gone p :
  p ∈ tbl → keep p = false → in_gate_window tbl p = false ∧ in_cal_window tbl p = false.
Proof.
  intros Hp Hk. specialize (Hdel p Hp Hk). unfold where_predictions, protected in Hdel.
  apply andb_true_iff in Hdel as [_ Hd]. apply negb_true_iff in Hd.
  apply orb_false_iff in Hd as [Hd _]. by apply orb_false_iff in Hd.
Qed.

Lemma newest_matured_stable :
  newest_matured META_GATE_SAMPLES (List.filter keep tbl) = newest_matured META_GATE_SAMPLES tbl.
Proof.
  unfold newest_matured. rewrite bool_filter_filter.
  rewrite (bool_filter_ext _ (λ x, matured x && keep x)) by (intros; apply andb_comm).
  rewrite <- bool_filter_filter, sort_by_filter, take_bool_filter; [done|].
  intros p Hp. apply not_false_iff_true. intros Hk.
  assert (p ∈ tbl) as Hpt.
  { apply elem_of_take in Hp as (i&Hi&_). apply list_elem_of_lookup_2 in Hi.
    unfold sort_by in Hi. rewrite py_sorted_perm in Hi. by apply elem_of_bool_filter in Hi as [? _]. }
  destruct (unprotected_gone p Hpt Hk) as [Hg _]. unfold in_gate_window in Hg.
  apply not_true_iff_false in Hg. apply Hg. apply existsb_exists. exists p.
  split; [|apply Z.eqb_refl]. by apply list_elem_of_In.
Qed.

Lemma in_cal_window_stable p :
  in_cal_window (List.filter keep tbl) p = in_cal_window tbl p.
Proof.
  unfold in_cal_window. f_equal. set (n := 60%nat).
  assert (newer_in_series (List.filter keep tbl) p = List.filter keep (newer_in_series tbl p)) as ->.
  { unfold newer_in_series. rewrite !bool_filter_filter. apply bool_filter_ext.
    intros; apply andb_comm. }
  assert (length (List.filter keep (newer_in_series tbl p)) ≤ length (newer_in_series tbl p))%nat.
  { pose proof (filter_partition_length keep (newer_in_series tbl p)). lia. }
  assert (n ≤ length (newer_in_series tbl p) → n ≤ length (List.filter keep (newer_in_series tbl p)))%nat.
  { intros Hn. etransitivity; [by apply window_supported|]. apply filter_length_le.
    intros q Hq Hw. apply Nat.ltb_lt in Hw. apply not_false_iff_true. intros Hk.
    unfold newer_in_series in Hq. apply elem_of_bool_filter in Hq as [Hqt Hq].
    destruct (unprotected_gone q Hqt Hk) as [_ Hc]. unfold in_cal_window in Hc.
    bool_to_prop. unfold LIVE_CAL_WINDOW in Hc. destruct Hc as [Hc|Hc]; [congruence|]. lia. }
  unfold LIVE_CAL_WINDOW. apply eq_bool_prop_intro. rewrite !Is_true_true, !Z.ltb_lt. lia.
Qed.

Lemma protected_stable p :
  protected ens_floor (List.filter keep tbl) p = protected ens_floor tbl p.
Proof.
  unfold protected, in_gate_window. by rewrite newest_matured_stable, in_cal_window_stable.
Qed.
End PredictionWindows.

Lemma where_predictions_stable cutoff ens_floor : where_stable (where_predictions cutoff ens_floor).
Proof.
  intros keep tbl Hdel p _ _. unfold where_predictions.
  by rewrite (protected_stable cutoff ens_floor keep tbl Hdel).
Qed.

(** ** The run *)
Definition unique_ids (db : Tables) : Prop :=
  NoDup (pd_id <$> predictions db) ∧ NoDup (dt_id <$> signals db)
  ∧ NoDup (id <$> training_runs db) ∧ NoDup (mv_id <$> model_versions db)
  ∧ NoDup (dt_id <$> alert_events db) ∧ NoDup (dt_id <$> audit_logs db).

#[export] Instance unique_ids_dec db : Decision (unique_ids db).
Proof. unfold unique_ids. apply _. Defined.

Definition prediction_cutoff (now : instant) (s : Settings) : instant :=
  back now (days (prediction_retention_days s) 730).

(** Retention never cuts into what the self-learning loops read.  Whatever
    the settings and whichever statements fail half-way, a prediction survives
    that is among the 500 newest matured rows, or has fewer than 60 matured
    rows newer than it in its own series, or targets a time within the last
    120 days; and both windows, recomputed on what is left, are what they were,
    so neither a later batch nor a later run can slide into them. *)
Theorem retention_protects_windows now s dry fails db db' res :
  unique_ids db →
  run_retention now s dry fails db = (db', res) →
  (∀ p, p ∈ predictions db →
     p ∈ newest_matured 500 (predictions db)
     ∨ (matured p = true ∧ (length (newer_in_series (predictions db) p) < 60)%nat)
     ∨ now - 120 * us_day ≤ target_time p
     ∨ prediction_cutoff now s ≤ predicted_at p →
     p ∈ predictions db')
  ∧ newest_matured 500 (predictions db') = newest_matured 500 (predictions db)
  ∧ ∀ p, in_cal_window (predictions db') p = in_cal_window (predictions db) p.
Proof.
  intros (Hnd&_) Hrun. unfold run_retention in Hrun. injection Hrun as <- _. cbn [predictions].
  set (wh := where_predictions _ _). set (out := _delete_batched pd_id wh _ _ _ _ _ _).
  destruct out as [tbl' r] eqn:Hout.
  destruct (delete_batched_spec pd_id wh BATCH_ROWS MAX_BATCHES (where_predictions_stable _ _)
              _ _ _ _ _ _ eq_refl Hnd Hout) as (_&[keep ->]&Hsurv&_).
  simpl. assert (∀ p, p ∈ predictions db → keep p = false → wh (predictions db) p = true) as Hdel.
  { intros p Hp Hk. apply not_false_iff_true. intros Hw. apply (Hsurv p Hp) in Hw.
    apply elem_of_bool_filter in Hw as [_ ?]. congruence. }
  split_and!.
  - intros p Hp Hcase. apply Hsurv; [done|]. unfold wh, where_predictions, protected.
    destruct Hcase as [Hg|[[Hm Hc]|[He|Hc]]].
    + assert (in_gate_window (predictions db) p = true) as ->; [|by rewrite andb_false_r].
      apply existsb_exists. exists p. split; [by apply list_elem_of_In|apply Z.eqb_refl].
    + unfold in_cal_window, LIVE_CAL_WINDOW. rewrite Hm, (proj2 (Z.ltb_lt _ 60)) by lia.
      by rewrite orb_true_r, andb_false_r.
    + unfold back, ENSEMBLE_WINDOW_DAYS. rewrite (proj2 (Z.leb_le (now - 120 * us_day) _)) by done.
      by rewrite orb_true_r, andb_false_r.
    + unfold prediction_cutoff in Hc. by rewrite (proj2 (Z.ltb_ge _ _)).
  - by apply (newest_matured_stable _ _ _ _ Hdel).
  - intros p. by apply (in_cal_window_stable _ _ _ _ Hdel).
Qed.

Definition day (d : Z) : instant := d * us_day.
Definition a_prediction (i made target : Z) (actual : option Z) : Prediction :=
  {| pd_id := i; pd_symbol := "IR_GOLD_18K"; pd_horizon := "1d"; predicted_at := day made;
     target_time := day target; actual_value := float_of_Z <$> actual |}.

Definition a_database : Tables :=
  {| predictions := [a_prediction 1 10 11 None; a_prediction 2 20 21 (Some 5);
                     a_prediction 3 990 991 None; a_prediction 4 30 31 None];
     signals := [{| dt_id := 7; dt_at := day 600 |}; {| dt_id := 8; dt_at := day 900 |}];
     training_runs := [3; 1; 2];
     model_versions := [{| mv_id := 1; is_active := true; trained_at := day 1 |};
                        {| mv_id := 2; is_active := false; trained_at := day 1 |}];
     alert_events := [];
     audit_logs := [{| dt_id := 1; dt_at := day 700 |}; {| dt_id := 2; dt_at := day 1 |}] |}.

Definition a_settings : Settings :=
  {| prediction_retention_days := 0; signal_retention_days := 0; training_run_keep := 2;
     model_version_retention_days := 0; alert_event_retention_days := 0;
     audit_retention_days := 30 |}.

Definition no_failures (_ _ : nat) : option string := None.

Definition after_run : Tables := fst (run_retention (day 1000) a_settings false no_failures a_database).

Example after_run_rows :
  (pd_id <$> predictions after_run, dt_id <$> signals after_run, training_runs after_run,
   mv_id <$> model_versions after_run, dt_id <$> audit_logs after_run)
  = ([2; 3], [8], [3; 2], [1], [1]).
Proof. vm_compute. reflexivity. Qed.

Lemma retention_protects_windows_witness :
  (∀ p, p ∈ predictions a_database →
     p ∈ newest_matured 500 (predictions a_database)
     ∨ (matured p = true ∧ (length (newer_in_series (predictions a_database) p) < 60)%nat)
     ∨ day 1000 - 120 * us_day ≤ target_time p
     ∨ prediction_cutoff (day 1000) a_settings ≤ predicted_at p →
     p ∈ predictions after_run)
  ∧ newest_matured 500 (predictions after_run) = newest_matured 500 (predictions a_database)
  ∧ ∀ p, in_cal_window (predictions after_run) p = in_cal_window (predictions a_database) p.
Proof.
  apply (retention_protects_windows (day 1000) a_settings false no_failures a_database after_run
           (snd (run_retention (day 1000) a_settings false no_failures a_database))).
  - by_decide.
  - unfold after_run. by destruct (run_retention _ _ _ _ _).
Defined.

(** Rows of every table that a run may delete. *)
Definition backlog (now : instant) (s : Settings) (db : Tables) : list nat :=
  [length (List.filter (where_predictions (prediction_cutoff now s)
             (back now ENSEMBLE_WINDOW_DAYS) (predictions db)) (predictions db));
   length (List.filter (where_dated (back now (days (signal_retention_days s) 365)) (signals db))
             (signals db));
   length (List.filter (where_runs (days (training_run_keep s) 200) (training_runs db))
             (training_runs db));
   length (List.filter (where_models (back now (days (model_version_retention_days s) 180))
             (model_versions db)) (model_versions db));
   length (List.filter (where_dated (back now (days (alert_event_retention_days s) 180))
             (alert_events db)) (alert_events db));
   length (List.filter (where_dated (back now (Z.max (days (audit_retention_days s) 730)
             MIN_AUDIT_RETENTION_DAYS)) (audit_logs db)) (audit_logs db))].

Section OneTable.
Context {Row : Type} (id_of : Row → Z) (wh : list Row → Row → bool) (Hst : where_stable wh).
Context (fails : nat → option string) (Hno : ∀ i, fails i = None) (name : string)
  (tbl : list Row) (Hnd : NoDup (id_of <$> tbl)).

Notation run dry := (_delete_batched id_of wh BATCH_ROWS MAX_BATCHES fails name dry).

(** Without failures, the dry run reports, and up to a million rows the real run
    deletes, exactly the eligible rows; then nothing is eligible. *)
Lemma one_table_run :
  deleted (run true tbl).2 = Z.of_nat (length (List.filter (wh tbl) tbl))
  ∧ (run true tbl).1 = tbl
  ∧ error (run true tbl).2 = None ∧ error (run false tbl).2 = None
  ∧ (Z.of_nat (length (List.filter (wh tbl) tbl)) ≤ MAX_BATCHES * BATCH_ROWS →
     deleted (run false tbl).2 = Z.of_nat (length (List.filter (wh tbl) tbl))
     ∧ List.filter (wh (run false tbl).1) (run false tbl).1 = []).
Proof.
  assert (length (eligible id_of wh tbl) = length (List.filter (wh tbl) tbl)) as Hlen.
  { unfold eligible, sort_by. by rewrite py_sorted_length. }
  destruct (run true tbl) as [t1 r1] eqn:H1. destruct (run false tbl) as [t2 r2] eqn:H2. simpl.
  destruct (delete_batched_spec _ _ _ _ Hst _ _ _ _ _ _ (eq_refl : 0 < BATCH_ROWS) Hnd H1) as (_&_&_&Heq&Hd1).
  destruct (delete_batched_spec _ _ _ _ Hst _ _ _ _ _ _ (eq_refl : 0 < BATCH_ROWS) Hnd H2) as (_&_&_&_&Hd2).
  destruct (Hd1 Hno) as (He1&Hdel1&_). destruct (Hd2 Hno) as (He2&_&Hdel2).
  destruct (Hdel2 eq_refl) as (Hdel&Hel&_). rewrite Hlen in Hdel.
  split_and!; [by rewrite (Hdel1 eq_refl), Hlen|by apply Heq|done|done|].
  intros Hle. set (cap := (Z.to_nat MAX_BATCHES * Z.to_nat BATCH_ROWS)%nat) in *.
  assert (Z.of_nat cap = MAX_BATCHES * BATCH_ROWS) as Hcap
    by (unfold cap; rewrite Nat2Z.inj_mul, !Z2Nat.id; done).
  clearbody cap. split; [rewrite Hdel; f_equal; lia|].
  rewrite drop_ge in Hel by (rewrite Hlen; lia).
  apply (f_equal length) in Hel. unfold eligible, sort_by in Hel.
  rewrite py_sorted_length in Hel. by apply nil_length_inv.
Qed.
End OneTable.

(** A run is exact and idempotent.  With no failing statement and no table
    holding a backlog beyond a million rows: a dry run changes nothing and
    reports, table by table, exactly the counts the real run then deletes; the
    real run leaves no eligible row in any table, so a second run at the same
    moment under the same settings has nothing to delete. *)
Theorem retention_exact now s fails db :
  unique_ids db → (∀ t i, fails t i = None) →
  Forall (λ n, Z.of_nat n ≤ 1000000) (backlog now s db) →
  let dry := run_retention now s true fails db in
  let real := run_retention now s false fails db in
  fst dry = db
  ∧ deleted <$> snd dry = Z.of_nat <$> backlog now s db
  ∧ deleted <$> snd real = Z.of_nat <$> backlog now s db
  ∧ (error <$> snd real) = replicate 6 None
  ∧ backlog now s (fst real) = replicate 6 0%nat.
Proof.
  intros (Hp&Hs&Hr&Hm&He&Ha) Hno Hb.
  unfold backlog in Hb. rewrite !Forall_cons in Hb.
  destruct Hb as (Bp&Bs&Br&Bm&Be&Ba&_).
  destruct (one_table_run pd_id _ (where_predictions_stable (prediction_cutoff now s)
    (back now ENSEMBLE_WINDOW_DAYS)) (fails 0%nat) (Hno _) "predictions" _ Hp) as (P1&P2&_&P4&P5).
  destruct (one_table_run dt_id _ (where_dated_stable (back now (days (signal_retention_days s) 365)))
    (fails 1%nat) (Hno _) "signals" _ Hs) as (S1&S2&_&S4&S5).
  destruct (one_table_run id _ (where_runs_stable (days (training_run_keep s) 200))
    (fails 2%nat) (Hno _) "training_runs" _ Hr) as (R1&R2&_&R4&R5).
  destruct (one_table_run mv_id _
    (where_models_stable (back now (days (model_version_retention_days s) 180)))
    (fails 3%nat) (Hno _) "model_versions" _ Hm) as (M1&M2&_&M4&M5).
  destruct (one_table_run dt_id _
    (where_dated_stable (back now (days (alert_event_retention_days s) 180)))
    (fails 4%nat) (Hno _) "alert_events" _ He) as (E1&E2&_&E4&E5).
  destruct (one_table_run dt_id _
    (where_dated_stable (back now (Z.max (days (audit_retention_days s) 730) MIN_AUDIT_RETENTION_DAYS)))
    (fails 5%nat) (Hno _) "audit_logs" _ Ha) as (A1&A2&_&A4&A5).
  destruct (P5 Bp) as [P6 P7], (S5 Bs) as [S6 S7], (R5 Br) as [R6 R7], (M5 Bm) as [M6 M7],
    (E5 Be) as [E6 E7], (A5 Ba) as [A6 A7].
  unfold run_retention, backlog. fold (prediction_cutoff now s).
  cbn [fst snd predictions signals training_runs model_versions alert_events audit_logs
       fmap list_fmap deleted error with_floor replicate].
  split_and!.
  - rewrite P2, S2, R2, M2, E2, A2. by destruct db.
  - by rewrite P1, S1, R1, M1, E1, A1.
  - by rewrite P6, S6, R6, M6, E6, A6.
  - by rewrite P4, S4, R4, M4, E4, A4.
  - by rewrite P7, S7, R7, M7, E7, A7.
Qed.

Lemma retention_exact_witness :
  let dry := run_retention (day 1000) a_settings true no_failures a_database in
  let real := run_retention (day 1000) a_settings false no_failures a_database in
  fst dry = a_database
  ∧ deleted <$> snd dry = Z.of_nat <$> backlog (day 1000) a_settings a_database
  ∧ deleted <$> snd real = Z.of_nat <$> backlog (day 1000) a_settings a_database
  ∧ (error <$> snd real) = replicate 6 None
  ∧ backlog (day 1000) a_settings (fst real) = replicate 6 0%nat.
Proof. apply retention_exact; [by_decide|done|by_decide]. Defined.

(** The records that must outlive any configuration do: no audit row younger
    than 365 days is deleted even under a shorter configured retention, no
    active model version is ever deleted, and the newest [training_run_keep]
    training runs stay - whatever fails, dry run or not. *)
Theorem retention_floors now s dry fails db db' res :
  unique_ids db →
  run_retention now s dry fails db = (db', res) →
  (∀ a, a ∈ audit_logs db → now - 365 * us_day ≤ dt_at a → a ∈ audit_logs db')
  ∧ (∀ m, m ∈ model_versions db → is_active m = true → m ∈ model_versions db')
  ∧ (∀ r, r ∈ take (Z.to_nat (days (training_run_keep s) 200)) (sort_by Z.opp (training_runs db)) →
       r ∈ training_runs db').
Proof.
  intros (_&_&Hr&Hm&_&Ha) Hrun. unfold run_retention in Hrun. injection Hrun as <- _.
  cbn [training_runs model_versions audit_logs].
  split_and!.
  - intros a Hin Hd.
    set (out := _delete_batched dt_id _ _ _ _ _ _ _). destruct out as [t r0] eqn:Hout.
    destruct (delete_batched_spec dt_id _ _ _ (where_dated_stable _) _ _ _ _ _ _
                (eq_refl : 0 < BATCH_ROWS) Ha Hout) as (_&_&Hsurv&_).
    apply Hsurv; [done|]. unfold where_dated, back, MIN_AUDIT_RETENTION_DAYS, us_day in *.
    apply Z.ltb_ge. unfold_time. lia.
  - intros m Hin Hact.
    set (out := _delete_batched mv_id _ _ _ _ _ _ _). destruct out as [t r0] eqn:Hout.
    destruct (delete_batched_spec mv_id _ _ _ (where_models_stable _) _ _ _ _ _ _
                (eq_refl : 0 < BATCH_ROWS) Hm Hout) as (_&_&Hsurv&_).
    apply Hsurv; [done|]. unfold where_models. by rewrite Hact.
  - intros r Hin. assert (r ∈ training_runs db) as Hrt.
    { apply elem_of_take in Hin as (i&Hi&_). apply list_elem_of_lookup_2 in Hi.
      unfold sort_by in Hi. by rewrite py_sorted_perm in Hi. }
    set (out := _delete_batched id _ _ _ _ _ _ _). destruct out as [t r0] eqn:Hout.
    destruct (delete_batched_spec id _ _ _ (where_runs_stable _) _ _ _ _ _ _
                (eq_refl : 0 < BATCH_ROWS) Hr Hout) as (_&_&Hsurv&_).
    apply Hsurv; [done|]. unfold where_runs. apply Z.ltb_ge. by apply min_id_le.
Qed.

Lemma retention_floors_witness :
  (∀ a, a ∈ audit_logs a_database → day 1000 - 365 * us_day ≤ dt_at a →
     a ∈ audit_logs after_run)
  ∧ (∀ m, m ∈ model_versions a_database → is_active m = true → m ∈ model_versions after_run)
  ∧ (∀ r, r ∈ take (Z.to_nat (days (training_run_keep a_settings) 200))
              (sort_by Z.opp (training_runs a_database)) → r ∈ training_runs after_run).
Proof.
  apply (retention_floors (day 1000) a_settings false no_failures a_database after_run
           (snd (run_retention (day 1000) a_settings false no_failures a_database))).
  - by_decide.
  - unfold after_run. by destruct (run_retention _ _ _ _ _).
Defined.
