(* ===== verification/BackupManifest.v ===== *)
(** * Backup bundles and their manifest

    [app/core/backup_manifest.py]: [build_manifest] measures the files of a bundle that was
    just written, [verify_manifest] checks a bundle against its manifest.

    The disk is a map from paths to contents; [sha256] is the digest (its hex text) and
    [repr] the interpreter's.  A text is its UTF-8 bytes, and a byte above 127 counts as a
    letter ([PyText]). *)
From S2P Require Import Prelude PyFloat PyText PyUrl PyJson.
From Stdlib Require Import Ascii.
Local Open Scope string_scope.
Local Open Scope list_scope.
Local Open Scope Z_scope.

Definition SCHEMA_VERSION : Z := 1.
Definition DB_DUMP_NAME : string := "db.dump".
Definition ARTIFACTS_DIRNAME : string := "artifacts".
Definition REQUIRED_TOP_LEVEL : list string :=
  ["schema_version"; "created_at"; "app_git_commit"; "api_build_commit"; "prediction_build_commit";
   "db_migration_version"; "db"; "artifacts"; "restore_instructions"].
Definition SPEC_FIELDS : list string := ["symbol"; "horizon"; "model_name"; "version"; "source_path"; "stored_name"].
Definition REQUIRED_ARTIFACT_FIELDS : list string := SPEC_FIELDS ++ ["size_bytes"; "sha256"].
Definition RESTORE_INSTRUCTIONS : string :=
  "Verify: sh scripts/backup.sh verify <bundle>. Preview: sh scripts/restore.sh --dry-run <bundle>. Apply: sh scripts/restore.sh --confirm <bundle> (pg_restore --clean --if-exists --no-owner of db.dump, then every artifacts/<stored_name> back to its source_path). See docs/backup-restore.md.".

(** ** Paths *)

(** [os.path.basename]: what follows the last slash. *)
Fixpoint basename_from (acc s : string) : string :=
  match s with
  | EmptyString => acc
  | String c s => if Ascii.eqb c "/" then basename_from s s else basename_from acc s
  end.
Definition basename (s : string) : string := basename_from s s.

Fixpoint ends_slash (s : string) : bool :=
  match s with
  | EmptyString => false
  | String c EmptyString => Ascii.eqb c "/"
  | String _ s => ends_slash s
  end.

(** [os.path.join(a, b)] *)
Definition path_join (a b : string) : string :=
  match b with
  | String "/" _ => b
  | _ => if String.eqb a EmptyString || ends_slash a then (a ++ b)%string else (a ++ "/" ++ b)%string
  end.

Definition _safe_stored_name (name : string) : bool :=
  negb (String.eqb name EmptyString) && String.eqb name (basename name) && negb (starts_with "." name).

Definition artifact_stored_name (sha : string) : string := (sha ++ ".joblib")%string.

(** ** Secrets *)
(** [\w] *)
Definition is_word (c : ascii) : bool := is_alpha c || is_digit c || Ascii.eqb c "_" || (128 <=? code c).

Definition word_ahead (s : string) : bool := match s with String c _ => is_word c | EmptyString => false end.

Definition SECRET_WORDS : list string :=
  ["password"; "passwd"; "secret"; "token"; "apikey"; "api_key"; "api-key"; "credential"; "database_url";
   "privatekey"; "private_key"; "private-key"].

(** [_SECRET_KEY_RE.search] of a lower-case text, [before] the character before it is a word's. *)
Fixpoint secret_key_from (before : bool) (s : string) : bool :=
  existsb (λ w, starts_with w s) SECRET_WORDS
  || (negb before && starts_with "dsn" s && negb (word_ahead (String.substring 3 1 s)))
  || match s with EmptyString => false | String c s => secret_key_from (is_word c) s end.

Definition secret_key (key : string) : bool := secret_key_from false (lower key).

Definition some_text (s : string) : bool := match s with EmptyString => false | _ => true end.

(** [user:password@] at the head of the text *)
Definition credentials_ahead (s : string) : bool :=
  let '(user, rest) := span_chars (λ c, negb (Ascii.eqb c "/" || is_space c || Ascii.eqb c ":" || Ascii.eqb c "@")) s in
  some_text user &&
  match rest with
  | String ":" rest =>
      let '(password, rest) := span_chars (λ c, negb (Ascii.eqb c "/" || is_space c || Ascii.eqb c "@")) rest in
      some_text password && starts_with "@" rest
  | _ => false
  end.

Definition is_scheme_char (c : ascii) : bool :=
  is_alpha c || is_digit c || Ascii.eqb c "+" || Ascii.eqb c "." || Ascii.eqb c "-".

(** [_SECRET_VALUE_RE] at the head of the text *)
Definition url_with_credentials (s : string) : bool :=
  match s with
  | String c s' =>
      let rest := (span_chars is_scheme_char s').2 in
      is_alpha c && starts_with "://" rest && credentials_ahead (String.substring 3 (String.length rest) rest)
  | EmptyString => false
  end.

Fixpoint secret_value (s : string) : bool :=
  url_with_credentials s || match s with EmptyString => false | String _ s => secret_value s end.

(** ** Problems *)
Inductive label : Type :=
| DbDump
| ArtifactSpec (symbol horizon : json)
| ArtifactAt (index : nat) (symbol horizon model_name : json).

Inductive problem : Type :=
| WrongSchema (version : json)
| MissingField (field : string)
| SecretKey (path : string)
| EmbeddedCredentials (path : string)
| DbMalformed
| UnsafeDbName (name : json)
| ArtifactsMalformed
| NotAnObject (index : nat)
| ArtifactMissing (l : label) (field : string)
| UnsafeStoredName (l : label) (name : string)
| FileMissing (l : label) (path : string)
| FileEmpty (l : label) (path : string)
| SizeDiffers (l : label) (size expected : Z)
| NoDigest (l : label)
| DigestDiffers (l : label) (actual expected : string).

Inductive build_error : Type :=
| BuildFile (p : problem)
| SpecMissing (fields : list string)
| UnsafeSpecName (name : string).

Fixpoint secret_like_findings (node : json) (path : string) : list problem :=
  match node with
  | JObj items =>
      (fix walk items :=
         match items with
         | [] => []
         | (key, value) :: items =>
             let here := (path ++ "." ++ key)%string in
             (if secret_key key then [SecretKey here] else []) ++ secret_like_findings value here ++ walk items
         end) items
  | JArr values =>
      (fix walk i values :=
         match values with
         | [] => []
         | v :: values => secret_like_findings v (path ++ "[" ++ str_of_Z i ++ "]")%string ++ walk (i + 1) values
         end) 0 values
  | JStr s => if secret_value s then [EmbeddedCredentials path] else []
  | _ => []
  end.

(** [v == n] *)
Definition equals_int (v : json) (n : Z) : bool :=
  match v with
  | JInt m => m =? n
  | JBool b => (if b then 1 else 0) =? n
  | JFloat x => feq x (float_of_Z n)
  | _ => false
  end.

(** An [isinstance(v, int)] value *)
Definition int_value (v : json) : option Z :=
  match v with JInt n => Some n | JBool b => Some (if b then 1 else 0) | _ => None end.

(** [v in (None, "")] *)
Definition blank (v : json) : bool :=
  match v with JNull | JStr EmptyString => true | _ => false end.

Section Manifest.
Context (sha256 : string → string) (repr : json → string).

(** The files of the disk. *)
Abbreviation files := (gmap string string).

Definition size_of (content : string) : Z := Z.of_nat (String.length content).

Definition _measure (disk : files) (path : string) (l : label) : result build_error (Z * string) :=
  match disk !! path with
  | None => Err (BuildFile (FileMissing l path))
  | Some content =>
      if size_of content =? 0 then Err (BuildFile (FileEmpty l path)) else Ok (size_of content, sha256 content)
  end.

(** [spec[f]] of a field that is there *)
Definition field_text (spec : list (string * json)) (f : string) : string := py_str repr (jget f spec).

Definition build_entry (disk : files) (bundle_dir : string) (spec : list (string * json)) : result build_error json :=
  match List.filter (λ f, negb (truthy (jget f spec))) SPEC_FIELDS with
  | (_ :: _) as missing => Err (SpecMissing missing)
  | [] =>
      let stored := field_text spec "stored_name" in
      _ ← raise_if (negb (_safe_stored_name stored)) (UnsafeSpecName stored);
      m ← _measure disk (path_join (path_join bundle_dir ARTIFACTS_DIRNAME) stored)
            (ArtifactSpec (jget "symbol" spec) (jget "horizon" spec));
      Ok (JObj [("symbol", JStr (field_text spec "symbol")); ("horizon", JStr (field_text spec "horizon"));
                ("model_name", JStr (field_text spec "model_name")); ("version", JStr (field_text spec "version"));
                ("source_path", JStr (field_text spec "source_path")); ("stored_name", JStr stored);
                ("size_bytes", JInt m.1); ("sha256", JStr m.2)])
  end.

(** What the caller knows of the build: the stamp and the commits. *)
Record Versions : Set := {
  created_at : string;
  app_git_commit : string;
  api_build_commit : string;
  prediction_build_commit : string;
  db_migration_version : string;
}.

Definition build_manifest (disk : files) (bundle_dir : string) (artifacts : list (list (string * json)))
    (v : Versions) (now_iso db_dump_name : string) : result build_error (list (string * json)) :=
  db ← _measure disk (path_join bundle_dir db_dump_name) DbDump;
  entries ← traverse (build_entry disk bundle_dir) artifacts;
  Ok [("schema_version", JInt SCHEMA_VERSION);
      ("created_at", JStr (if String.eqb (created_at v) EmptyString then now_iso else created_at v));
      ("app_git_commit", JStr (app_git_commit v)); ("api_build_commit", JStr (api_build_commit v));
      ("prediction_build_commit", JStr (prediction_build_commit v));
      ("db_migration_version", JStr (db_migration_version v));
      ("db", JObj [("file", JStr db_dump_name); ("size_bytes", JInt db.1); ("sha256", JStr db.2)]);
      ("artifacts", JArr entries); ("restore_instructions", JStr RESTORE_INSTRUCTIONS)].

Definition _check_file (disk : files) (directory name : string) (meta : list (string * json)) (l : label)
    : list problem :=
  let path := path_join directory name in
  match disk !! path with
  | None => [FileMissing l path]
  | Some content =>
      let size := size_of content in
      (if size =? 0 then [FileEmpty l path] else [])
      ++ match int_value (jget "size_bytes" meta) with
         | Some expected => if expected =? size then [] else [SizeDiffers l size expected]
         | None => []
         end
      ++ match jget "sha256" meta with
         | JStr expected =>
             if String.eqb expected EmptyString then [NoDigest l]
             else if String.eqb (sha256 content) expected then [] else [DigestDiffers l (sha256 content) expected]
         | _ => [NoDigest l]
         end
  end.

Definition verify_artifact (disk : files) (base_dir : string) (index : nat) (entry : json) : list problem :=
  match entry with
  | JObj entry =>
      let l := ArtifactAt index (jget "symbol" entry) (jget "horizon" entry) (jget "model_name" entry) in
      (ArtifactMissing l <$> List.filter (λ f, blank (jget f entry)) REQUIRED_ARTIFACT_FIELDS)
      ++ (let stored := if truthy (jget "stored_name" entry) then field_text entry "stored_name" else EmptyString in
          if _safe_stored_name stored
          then _check_file disk (path_join base_dir ARTIFACTS_DIRNAME) stored entry l
          else [UnsafeStoredName l stored])
  | _ => [NotAnObject index]
  end.

Definition verify_db (disk : files) (base_dir : string) (db : json) : list problem :=
  match db with
  | JObj db =>
      let name := if truthy (jget "file" db) then jget "file" db else JStr DB_DUMP_NAME in
      if _safe_stored_name (py_str repr name) then _check_file disk base_dir (py_str repr name) db DbDump
      else [UnsafeDbName name]
  | _ => [DbMalformed]
  end.

Definition verify_manifest (disk : files) (manifest : list (string * json)) (base_dir : string) : list problem :=
  (if equals_int (jget "schema_version" manifest) SCHEMA_VERSION then []
   else [WrongSchema (jget "schema_version" manifest)])
  ++ (MissingField <$> List.filter (λ f, negb (has_key f manifest)) REQUIRED_TOP_LEVEL)
  ++ secret_like_findings (JObj manifest) "manifest"
  ++ verify_db disk base_dir (jget "db" manifest)
  ++ match jget "artifacts" manifest with
     | JArr entries => concat (imap (verify_artifact disk base_dir) entries)
     | _ => [ArtifactsMalformed]
     end.
End Manifest.

(** ** Nothing secret *)

(** A node of a document. *)
Inductive node_in (x : json) : json → Prop :=
| node_here : node_in x x
| node_item items key value : (key, value) ∈ items → node_in x value → node_in x (JObj items)
| node_element values v : v ∈ values → node_in x v → node_in x (JArr values).

Section SecretFacts.

Lemma secret_item items key value path :
  secret_like_findings (JObj items) path = [] → (key, value) ∈ items →
  secret_key key = false ∧ secret_like_findings value (path ++ "." ++ key)%string = [].
Proof.
  simpl. induction items as [|[k v] items IH]; intros H Hin; [by apply elem_of_nil in Hin|].
  apply app_eq_nil in H as [H1 H]. apply app_eq_nil in H as [H2 H3].
  apply elem_of_cons in Hin as [[= -> ->]|Hin]; [|by apply IH]. split; [|done]. by destruct (secret_key k).
Qed.

Lemma secret_element values v path :
  secret_like_findings (JArr values) path = [] → v ∈ values → ∃ path', secret_like_findings v path' = [].
Proof.
  simpl. generalize 0 as i. induction values as [|x values IH]; intros i H Hin; [by apply elem_of_nil in Hin|].
  apply app_eq_nil in H as [H1 H2]. apply elem_of_cons in Hin as [->|Hin]; [by eexists|by eapply IH].
Qed.

Lemma secret_nodes x y : node_in x y → ∀ path, secret_like_findings y path = [] → ∃ path', secret_like_findings x path' = [].
Proof.
  induction 1 as [|items key value Hin _ IH|values v Hin _ IH]; intros path H; [by eexists| |].
  - destruct (secret_item _ _ _ _ H Hin) as [_ Hv]. by eapply IH.
  - destruct (secret_element _ _ _ H Hin) as [path' Hv]. by eapply IH.
Qed.
End SecretFacts.

(** ** Build and verify *)
Section ManifestFacts.
Context (sha256 : string → string) (repr : json → string).

(** A file the manifest vouches for: there, not empty, of the recorded size and digest. *)
Definition vouched (disk : gmap string string) (path : string) (meta : list (string * json)) : Prop :=
  ∃ content, disk !! path = Some content ∧ content ≠ EmptyString ∧ jget "sha256" meta = JStr (sha256 content) ∧
    ∀ n, int_value (jget "size_bytes" meta) = Some n → n = size_of content.

Lemma size_of_zero s : size_of s = 0 ↔ s = EmptyString.
Proof. unfold size_of. destruct s; simpl; split; (done || lia). Qed.

Lemma check_file_nil disk dir name meta l :
  _check_file sha256 disk dir name meta l = [] → vouched disk (path_join dir name) meta.
Proof.
  unfold _check_file. destruct (disk !! path_join dir name) as [content|] eqn:Hd; [|done].
  intros H. apply app_eq_nil in H as [H1 H]. apply app_eq_nil in H as [H2 H3]. exists content. split; [done|].
  destruct (Z.eqb_spec (size_of content) 0) as [|Hz]; [done|]. split_and!.
  - intros ->. by apply Hz.
  - destruct (jget "sha256" meta); try done. destruct (String.eqb s EmptyString); [done|].
    destruct (String.eqb_spec (sha256 content) s); [by subst|done].
  - intros n Hn. rewrite Hn in H2. by destruct (Z.eqb_spec n (size_of content)).
Qed.

Lemma check_file_vouched disk dir name meta l :
  (∀ c, sha256 c ≠ EmptyString) → vouched disk (path_join dir name) meta → _check_file sha256 disk dir name meta l = [].
Proof.
  intros Hsha (content&Hd&Hne&Hs&Hn). unfold _check_file. rewrite Hd, Hs.
  destruct (Z.eqb_spec (size_of content) 0) as [Hz|_]; [by apply size_of_zero in Hz|]. simpl.
  destruct (String.eqb_spec (sha256 content) EmptyString) as [He|_]; [by apply Hsha in He|]. rewrite String.eqb_refl, app_nil_r.
  destruct (int_value _) as [n|]; [|done]. by rewrite (Hn n eq_refl), Z.eqb_refl.
Qed.

(** What a manifest without a problem says of the disk. *)
Record bundle_ok (disk : gmap string string) (manifest : list (string * json)) (dir : string) : Prop := {
  bo_schema : equals_int (jget "schema_version" manifest) SCHEMA_VERSION = true;
  bo_fields f : f ∈ REQUIRED_TOP_LEVEL → has_key f manifest = true;
  bo_db : ∃ db name, jget "db" manifest = JObj db ∧ _safe_stored_name name = true ∧ vouched disk (path_join dir name) db;
  bo_artifacts : ∃ entries, jget "artifacts" manifest = JArr entries ∧ ∀ e, e ∈ entries →
    ∃ entry name, e = JObj entry ∧ (∀ f, f ∈ REQUIRED_ARTIFACT_FIELDS → blank (jget f entry) = false) ∧
      _safe_stored_name name = true ∧ vouched disk (path_join (path_join dir ARTIFACTS_DIRNAME) name) entry;
  bo_keys items key value : node_in (JObj items) (JObj manifest) → (key, value) ∈ items → secret_key key = false;
  bo_values s : node_in (JStr s) (JObj manifest) → secret_value s = false;
}.

Lemma verify_artifact_nil disk dir i e :
  verify_artifact sha256 repr disk dir i e = [] →
  ∃ entry name, e = JObj entry ∧ (∀ f, f ∈ REQUIRED_ARTIFACT_FIELDS → blank (jget f entry) = false) ∧
    _safe_stored_name name = true ∧ vouched disk (path_join (path_join dir ARTIFACTS_DIRNAME) name) entry ∧
    name = (if truthy (jget "stored_name" entry) then field_text repr entry "stored_name" else EmptyString).
Proof.
  destruct e as [| | | | | |entry]; try done. unfold verify_artifact. intros H. apply app_eq_nil in H as [H1 H2].
  set (name := if truthy _ then _ else _) in H2. exists entry, name. destruct (_safe_stored_name name) eqn:Hs; [|done].
  apply check_file_nil in H2. split_and!; try done. intros f Hf.
  apply fmap_nil_inv, filter_nil_iff in H1. rewrite Forall_forall in H1. by apply H1.
Qed.

Lemma verify_db_nil disk dir v :
  verify_db sha256 repr disk dir v = [] →
  ∃ db name, v = JObj db ∧ _safe_stored_name name = true ∧ vouched disk (path_join dir name) db ∧
    name = py_str repr (if truthy (jget "file" db) then jget "file" db else JStr DB_DUMP_NAME).
Proof.
  destruct v as [| | | | | |db]; try done. unfold verify_db. set (v := if truthy _ then _ else _).
  destruct (_safe_stored_name (py_str repr v)) eqn:Hs; [|done]. intros H%check_file_nil.
  by exists db, (py_str repr v).
Qed.

Lemma verify_parts disk manifest dir :
  verify_manifest sha256 repr disk manifest dir = [] →
  equals_int (jget "schema_version" manifest) SCHEMA_VERSION = true ∧
  List.filter (λ f, negb (has_key f manifest)) REQUIRED_TOP_LEVEL = [] ∧
  secret_like_findings (JObj manifest) "manifest" = [] ∧
  verify_db sha256 repr disk dir (jget "db" manifest) = [] ∧
  ∃ entries, jget "artifacts" manifest = JArr entries ∧
    ∀ i e, entries !! i = Some e → verify_artifact sha256 repr disk dir i e = [].
Proof.
  unfold verify_manifest. intros H. apply app_eq_nil in H as [H1 H]. apply app_eq_nil in H as [H2 H].
  apply app_eq_nil in H as [H3 H]. apply app_eq_nil in H as [H4 H5]. split_and!; try done.
  - by destruct (equals_int _ _).
  - by apply fmap_nil_inv in H2.
  - destruct (jget "artifacts" manifest) as [| | | | |entries|]; try done. exists entries. split; [done|].
    intros i e Hi. revert H5. set (f := verify_artifact sha256 repr disk dir). clearbody f. clear -Hi.
    revert i f Hi. induction entries as [|x entries IH]; intros [|i] f Hi H; simpl in *; try done;
      apply app_eq_nil in H as [Hx H]; [by injection Hi as ->|by apply (IH i (f ∘ S))].
Qed.

(** A manifest with no problem vouches for a whole bundle: the dump and every artifact it
    lists are files directly in their directory, not empty, of the recorded size and digest,
    no required field is missing, and nothing in it looks like a secret. *)
Theorem verify_sound disk manifest dir :
  verify_manifest sha256 repr disk manifest dir = [] → bundle_ok disk manifest dir.
Proof.
  intros (H1&H2&H3&H4&entries&He&Hall)%verify_parts. split; try done.
  - intros f Hf. apply filter_nil_iff in H2. rewrite Forall_forall in H2. specialize (H2 f Hf). by apply negb_false_iff in H2.
  - apply verify_db_nil in H4 as (db&name&?&?&?&_). by exists db, name.
  - exists entries. split; [done|]. intros e (i&Hi)%list_elem_of_lookup.
    apply Hall, verify_artifact_nil in Hi as (entry&name&?&?&?&?&_). by exists entry, name.
  - intros items key value Hn Hin. destruct (secret_nodes _ _ Hn _ H3) as [path Hp]. by apply (secret_item _ _ value _ Hp).
  - intros s Hn. destruct (secret_nodes _ _ Hn _ H3) as [path Hp]. simpl in Hp. by destruct (secret_value s).
Qed.

Lemma measure_vouched disk path l size digest extra :
  _measure sha256 disk path l = Ok (size, digest) →
  vouched disk path (extra ++ [("size_bytes", JInt size); ("sha256", JStr digest)]) ∨
  assoc "size_bytes" extra ≠ None ∨ assoc "sha256" extra ≠ None.
Proof.
  unfold _measure. destruct (disk !! path) as [content|] eqn:Hd; [|done].
  destruct (Z.eqb_spec (size_of content) 0) as [|Hz]; [done|]. intros [= <- <-].
  destruct (assoc "size_bytes" extra) eqn:H1; [by right; left|]. destruct (assoc "sha256" extra) eqn:H2; [by right; right|].
  left. assert (∀ k (d1 d2 : list (string * json)), assoc k d1 = None → jget k (d1 ++ d2) = jget k d2) as Happ.
  { intros k d1 d2 H. unfold jget. f_equal. induction d1 as [|[k' v] d1 IH]; [done|]. simpl in *.
    destruct (String.eqb k k'); [done|by apply IH]. }
  exists content. rewrite !Happ by done. split_and!; [done| |done|by intros n [= <-]].
  intros ->. by apply Hz.
Qed.

Lemma truthy_text v : (∀ v, repr v ≠ EmptyString) → truthy v = true → py_str repr v ≠ EmptyString.
Proof.
  intros Hr. destruct v as [|b|n|x|s|l|o]; simpl; intros Ht; try (by apply Hr); try done.
  - by destruct b.
  - unfold str_of_Z. destruct (n <? 0); [done|].
    assert (∀ fuel m acc, digits_of fuel m acc ≠ EmptyString) as Hd; [|apply Hd].
    induction fuel as [|fuel IH]; intros m acc; simpl; [done|]. by destruct (m <? 10).
  - by destruct s.
Qed.

Record entry_of (disk : gmap string string) (dir : string) (spec : list (string * json)) (e : json) : Prop := {
  eo_entry : ∃ entry name, e = JObj entry ∧ jget "stored_name" entry = JStr name ∧ _safe_stored_name name = true ∧
    vouched disk (path_join (path_join dir ARTIFACTS_DIRNAME) name) entry ∧
    (∀ f, f ∈ SPEC_FIELDS → jget f entry = JStr (field_text repr spec f) ∧ truthy (jget f spec) = true) ∧
    ∃ n, jget "size_bytes" entry = JInt n;
}.

Lemma build_entry_spec disk dir spec e :
  build_entry sha256 repr disk dir spec = Ok e → entry_of disk dir spec e.
Proof.
  unfold build_entry. destruct (List.filter _ SPEC_FIELDS) eqn:Hf; [|done].
  set (stored := field_text repr spec "stored_name").
  destruct (_safe_stored_name stored) eqn:Hs; simpl; [|done]. intros ([size digest]&Hm&[= <-])%bind_Ok. split.
  eexists _, stored. split_and!; [done|done|done| | |by exists size].
  - destruct (measure_vouched _ _ _ _ _
      [("symbol", JStr (field_text repr spec "symbol")); ("horizon", JStr (field_text repr spec "horizon"));
       ("model_name", JStr (field_text repr spec "model_name")); ("version", JStr (field_text repr spec "version"));
       ("source_path", JStr (field_text repr spec "source_path")); ("stored_name", JStr stored)] Hm) as [?|[?|?]]; done.
  - intros f Hin. apply filter_nil_iff in Hf. rewrite Forall_forall in Hf. specialize (Hf f Hin).
    apply negb_false_iff in Hf. split; [|done].
    repeat (apply elem_of_cons in Hin as [->|Hin]; [done|]). by apply elem_of_nil in Hin.
Qed.

Lemma entry_verifies disk dir i spec e :
  (∀ c, sha256 c ≠ EmptyString) → (∀ v, repr v ≠ EmptyString) →
  entry_of disk dir spec e → verify_artifact sha256 repr disk dir i e = [].
Proof.
  intros Hsha Hrepr [(entry&name&->&Hst&Hsafe&Hv&Hfields&sz&Hsize)]. unfold verify_artifact. rewrite Hst.
  assert (name ≠ EmptyString) as Hnn by (by intros ->).
  replace (truthy (JStr name)) with true by (by destruct name). unfold field_text at 1 2. rewrite Hst.
  cbn [py_str]. rewrite Hsafe, check_file_vouched, app_nil_r by done. unfold REQUIRED_ARTIFACT_FIELDS.
  assert (List.filter (λ f, blank (jget f entry)) (SPEC_FIELDS ++ ["size_bytes"; "sha256"]) = []) as ->; [|done].
  apply filter_nil_iff, Forall_app. split.
  - apply Forall_forall. intros f Hf. destruct (Hfields f Hf) as [-> Ht].
    pose proof (truthy_text _ Hrepr Ht) as Htext. unfold field_text. by destruct (py_str repr (jget f spec)).
  - repeat constructor; [by rewrite Hsize|]. destruct Hv as (content&_&_&->&_). simpl.
    by destruct (sha256 content) eqn:Hc; [apply Hsha in Hc|].
Qed.

Lemma concat_imap_nil {A B} (f : nat → A → list B) l :
  (∀ i x, l !! i = Some x → f i x = []) → concat (imap f l) = [].
Proof.
  revert f. induction l as [|x l IH]; intros f H; [done|]. simpl. rewrite (H 0%nat x) by done. simpl.
  apply IH. intros i y Hi. by apply (H (S i)).
Qed.

(** A manifest just built verifies against the same disk: the only problems that can be
    reported are texts in it that look like secrets. *)
Theorem build_verifies disk dir specs v now_iso db_name manifest :
  (∀ c, sha256 c ≠ EmptyString) → (∀ v, repr v ≠ EmptyString) → _safe_stored_name db_name = true →
  build_manifest sha256 repr disk dir specs v now_iso db_name = Ok manifest →
  verify_manifest sha256 repr disk manifest dir = secret_like_findings (JObj manifest) "manifest".
Proof.
  intros Hsha Hrepr Hname. unfold build_manifest. intros ([size digest]&Hdb&H)%bind_Ok.
  apply bind_Ok in H as (entries&He&[= <-]). set (m := [_; _; _; _; _; _; _; _; _]).
  assert (db_name ≠ EmptyString) as Hne by (by intros ->).
  assert (verify_db sha256 repr disk dir (jget "db" m) = []) as Hvdb.
  { change (jget "db" m) with (JObj [("file", JStr db_name); ("size_bytes", JInt size); ("sha256", JStr digest)]).
    unfold verify_db. change (jget "file" _) with (JStr db_name).
    replace (truthy (JStr db_name)) with true by (by destruct db_name). cbn [py_str]. rewrite Hname.
    apply check_file_vouched; [done|].
    by destruct (measure_vouched _ _ _ _ _ [("file", JStr db_name)] Hdb) as [?|[?|?]]. }
  assert (concat (imap (verify_artifact sha256 repr disk dir) entries) = []) as Hart.
  { apply concat_imap_nil. intros i e Hi%list_elem_of_lookup_2. apply traverse_Ok in He.
    destruct (Forall2_elem_r _ _ _ _ He Hi) as (spec&_&Hspec). by apply (entry_verifies disk dir i spec), build_entry_spec. }
  unfold verify_manifest. rewrite Hvdb. change (jget "artifacts" m) with (JArr entries). cbv iota. rewrite Hart.
  simpl. by rewrite !app_nil_r.
Qed.

(** The text of a dump and of an artifact has not changed since it was measured. *)
Definition same_file (disk disk' : gmap string string) (path : string) : Prop :=
  ∃ c c', disk !! path = Some c ∧ disk' !! path = Some c' ∧ sha256 c = sha256 c' ∧ size_of c = size_of c'.

Lemma vouched_same disk disk' path meta n :
  int_value (jget "size_bytes" meta) = Some n → vouched disk path meta → vouched disk' path meta → same_file disk disk' path.
Proof.
  intros Hn (c&Hc&_&Hs&Hsz) (c'&Hc'&_&Hs'&Hsz'). exists c, c'. split_and!; try done; [congruence|].
  by rewrite <-(Hsz n Hn), <-(Hsz' n Hn).
Qed.

(** C38. Where a manifest built on one disk has no problem on another (the bundle after a copy, a
    restore, a year), the dump and every artifact it lists have the digest and the size they
    had when it was built. *)
Theorem verified_bundle_unchanged disk disk' dir specs v now_iso db_name manifest :
  db_name ≠ EmptyString →
  build_manifest sha256 repr disk dir specs v now_iso db_name = Ok manifest →
  verify_manifest sha256 repr disk' manifest dir = [] →
  same_file disk disk' (path_join dir db_name) ∧
  ∀ spec, spec ∈ specs →
    same_file disk disk' (path_join (path_join dir ARTIFACTS_DIRNAME) (field_text repr spec "stored_name")).
Proof.
  unfold build_manifest. intros Hne ([size digest]&Hdb&H)%bind_Ok.
  apply bind_Ok in H as (entries&He&[= <-]). intros (_&_&_&H4&es&Hes&Hall)%verify_parts.
  injection Hes as <-. split.
  - apply verify_db_nil in H4 as (db&name&Hd&Hsafe&Hv&Hname). injection Hd as <-.
    assert (name = db_name) as ->.
    { rewrite Hname. change (jget "file" _) with (JStr db_name).
      by replace (truthy (JStr db_name)) with true by (by destruct db_name). }
    destruct (measure_vouched _ _ _ _ _ [("file", JStr db_name)] Hdb) as [?|[?|?]]; [|done..].
    apply (vouched_same _ _ _ [("file", JStr db_name); ("size_bytes", JInt size); ("sha256", JStr digest)] size); done.
  - intros spec Hspec. apply traverse_Ok in He. destruct (Forall2_elem_l _ _ _ _ He Hspec) as (e&Hein&Hb).
    apply list_elem_of_lookup in Hein as (i&Hi). apply Hall, verify_artifact_nil in Hi as (entry&name&->&_&Hsafe&Hv&Hname).
    apply build_entry_spec in Hb as [(entry'&name'&[= <-]&Hst&Hsafe'&Hv'&Hfields&sz&Hsize)].
    rewrite Hst in Hname. destruct (Hfields "stored_name" ltac:(by apply (bool_decide_unpack _); vm_compute)) as [Hst' _].
    rewrite Hst in Hst'. injection Hst' as Hst'. assert (name = name') as ->.
    { rewrite Hname. assert (name' ≠ EmptyString) by (by intros ->).
      replace (truthy (JStr name')) with true by (by destruct name'). unfold field_text. by rewrite Hst. }
    rewrite <-Hst'. eapply vouched_same; [by rewrite Hsize|done..].
Qed.
End ManifestFacts.

(** ** A concrete bundle *)
Definition demo_sha (s : string) : string := ("h" ++ s)%string.
Definition demo_repr (_ : json) : string := "r".

Definition demo_disk : gmap string string :=
  {[ "b/db.dump" := "rows"; "b/artifacts/x.joblib" := "model" ]}.

Definition demo_spec : list (string * json) :=
  [("symbol", JStr "XAUUSD"); ("horizon", JStr "1d"); ("model_name", JStr "ridge"); ("version", JInt 3);
   ("source_path", JStr "/models/x.joblib"); ("stored_name", JStr "x.joblib")].

Definition demo_versions : Versions :=
  {| created_at := EmptyString; app_git_commit := "c"; api_build_commit := "c"; prediction_build_commit := "c";
     db_migration_version := "31" |}.

Definition demo_build : result build_error (list (string * json)) :=
  build_manifest demo_sha demo_repr demo_disk "b" [demo_spec] demo_versions "2026-07-20T00:00:00Z" DB_DUMP_NAME.

Definition demo_manifest : list (string * json) := match demo_build with Ok m => m | Err _ => [] end.

(** A byte of the artifact flips: the digest tells. *)
Example flipped_byte_found :
  verify_manifest demo_sha demo_repr (<["b/artifacts/x.joblib" := "modem"]> demo_disk) demo_manifest "b" =
  [DigestDiffers (ArtifactAt 0 (JStr "XAUUSD") (JStr "1d") (JStr "ridge")) "hmodem" "hmodel"].
Proof. vm_compute. reflexivity. Qed.

(** A stored name with a path in it, and a database URL with its password. *)
Example bad_manifests_found :
  (_safe_stored_name "../x.joblib", _safe_stored_name "x.joblib",
   secret_like_findings (JObj [("note", JStr "see postgres://app:hunter2@db/x"); ("API-Key", JNull)]) "manifest") =
  (false, true, [EmbeddedCredentials "manifest.note"; SecretKey "manifest.API-Key"]).
Proof. vm_compute. reflexivity. Qed.

Lemma demo_build_ok : demo_build = Ok demo_manifest.
Proof. vm_compute. reflexivity. Qed.

Lemma demo_verified : verify_manifest demo_sha demo_repr demo_disk demo_manifest "b" = [].
Proof. vm_compute. reflexivity. Qed.

Lemma verify_sound_witness : bundle_ok demo_sha demo_disk demo_manifest "b".
Proof. exact (verify_sound demo_sha demo_repr demo_disk demo_manifest "b" demo_verified). Defined.

Lemma build_verifies_witness :
  verify_manifest demo_sha demo_repr demo_disk demo_manifest "b" = secret_like_findings (JObj demo_manifest) "manifest".
Proof.
  apply (build_verifies demo_sha demo_repr demo_disk "b" [demo_spec] demo_versions "2026-07-20T00:00:00Z" DB_DUMP_NAME).
  - by intros c.
  - by intros v.
  - by vm_compute.
  - exact demo_build_ok.
Defined.

Lemma verified_bundle_unchanged_witness :
  same_file demo_sha demo_disk (<["b/notes" := "hello"]> demo_disk) (path_join "b" DB_DUMP_NAME).
Proof.
  refine (proj1 (verified_bundle_unchanged demo_sha demo_repr demo_disk (<["b/notes" := "hello"]> demo_disk) "b" [demo_spec]
    demo_versions "2026-07-20T00:00:00Z" DB_DUMP_NAME demo_manifest _ demo_build_ok _)); [done|by vm_compute].
Defined.
