(* ===== verification/Costs.v ===== *)
(** * Round-trip trading costs

    [app/core/costs.py]: the resolution of a symbol's cost hurdle from observed
    dealer spreads, with its provenance, and the decision policy published from
    it.

    The raw observations are a list of rows in storage order; a lookup that
    raises is [None].  Reason texts are the data they are made from. *)
From S2P Require Import Prelude PyFloat PyTime PyText PyJson.
Local Open Scope string_scope.
Local Open Scope list_scope.
Local Open Scope Z_scope.

Definition DEFAULT_FEE_PCT : float := flit 5 1.
Definition DEFAULT_SPREAD_PCT : float := flit 10 1.
Definition DEFAULT_SLIPPAGE_PCT : float := flit 1 1.
Definition FALLBACK_ROUND_TRIP_COST_PCT : float :=
  fadd (fadd (fmul (float_of_Z 2) DEFAULT_FEE_PCT) DEFAULT_SPREAD_PCT)
       (fmul (float_of_Z 2) DEFAULT_SLIPPAGE_PCT).
Definition SPREAD_PROVIDER : string := "hamrahgold".
Definition SPREAD_SOURCES : list (string * string) := [("IR_GOLD_18K", SPREAD_PROVIDER)].
Definition DEFAULT_COST_SYMBOL : string := "IR_GOLD_18K".
Definition NO_OBSERVED_COST_REASON : list string :=
  ["USD_IRT"; "IR_COIN_EMAMI"; "XAUUSD"; "XAGUSD"; "IR_GOLD_FUND_AYAR"; "IR_GOLD_FUND_TALA"].
Definition MAX_AGE_HOURS : Z := 72.
Definition MIN_SANE_PCT : float := flit 1 1.
Definition MAX_SANE_PCT : float := flit 100 1.
Definition SCAN_LIMIT : nat := 25.

Inductive basis : Set := observed_spread | assumed.

Inductive cost_reason : Set :=
| no_two_sided_quote (symbol : string) (detailed : bool)
| lookup_failed
| no_usable_spread (provider : string)
| all_unusable (rows : nat) (provider : string)
| observed (provider : string) (age : float) (rejected : Z).

Record CostResolution : Set := {
  symbol : string;
  cost_pct : float;
  cr_basis : basis;
  cr_source : option string;
  cr_observed_at : option instant;
  age_hours : option float;
  cr_reason : cost_reason;
  rejected : Z;
}.

Record RawObservation : Set := {
  ro_provider_code : string;
  ro_symbol : string;
  ro_quality : string;
  ro_observed_at : datetime;
  ro_raw_payload : json;
}.

Definition _assumed (sym : string) (reason : cost_reason) (rej : Z) : CostResolution :=
  {| symbol := sym; cost_pct := FALLBACK_ROUND_TRIP_COST_PCT; cr_basis := assumed;
     cr_source := None; cr_observed_at := None; age_hours := None;
     cr_reason := reason; rejected := rej |}.

(** [isinstance(value, (int, float))], then [float(value)]; a bool is an int. *)
Definition float_value (v : json) : option (result pyerr float) :=
  match v with
  | JBool b => Some (Ok (float_of_Z (if b then 1 else 0)))
  | _ => json_number v
  end.

(** The spread a row offers, when it is usable. *)
Definition usable_spread (payload : json) : result pyerr (option float) :=
  match payload with
  | JObj items =>
      match float_value (jget "spread_pct" items) with
      | None => Ok None
      | Some m =>
          value ← m;
          Ok (if fle MIN_SANE_PCT value && fle value MAX_SANE_PCT then Some value else None)
      end
  | _ => Ok None
  end.

(** The statement of [resolve_cost], on the rows of the table. *)
Definition recent_rows (provider sym : string) (cutoff : instant) (table : list RawObservation)
    : list RawObservation :=
  take SCAN_LIMIT
    (sort_by (λ r, - to_utc (ro_observed_at r))
       (List.filter (λ r, String.eqb (ro_provider_code r) provider
                          && String.eqb (ro_symbol r) sym
                          && String.eqb (ro_quality r) "ok"
                          && (cutoff <=? to_utc (ro_observed_at r))) table)).

Fixpoint scan (sym provider : string) (now : instant) (rej : Z) (rows : list RawObservation)
    : result pyerr (CostResolution + Z) :=
  match rows with
  | [] => Ok (inr rej)
  | row :: rows =>
      u ← usable_spread (ro_raw_payload row);
      match u with
      | None => scan sym provider now (rej + 1) rows
      | Some value =>
          let observed_at := to_utc (ro_observed_at row) in
          let age := fdiv_ieee (total_seconds (now - observed_at)) (float_of_Z 3600) in
          Ok (inl {| symbol := sym; cost_pct := value; cr_basis := observed_spread;
                     cr_source := Some provider; cr_observed_at := Some observed_at;
                     age_hours := Some (py_round age 2);
                     cr_reason := observed provider age rej; rejected := rej |})
      end
  end.

Definition resolve_cost (table : option (list RawObservation)) (now : instant) (sym : string)
    : result pyerr CostResolution :=
  match assoc sym SPREAD_SOURCES with
  | None =>
      Ok (_assumed sym (no_two_sided_quote sym (existsb (String.eqb sym) NO_OBSERVED_COST_REASON)) 0)
  | Some provider =>
      let cutoff := now - MAX_AGE_HOURS * us_hour in
      match table with
      | None => Ok (_assumed sym lookup_failed 0)
      | Some table =>
          let rows := recent_rows provider sym cutoff table in
          found ← scan sym provider now 0 rows;
          Ok (match found with
              | inl r => r
              | inr rej =>
                  _assumed sym
                    (match rows with
                     | [] => no_usable_spread provider
                     | _ => all_unusable (length rows) provider
                     end) rej
              end)
      end
  end.

Definition observed_spread_pct (table : option (list RawObservation)) (now : instant)
    (sym : string) : result pyerr (option float) :=
  res ← resolve_cost table now sym;
  Ok (match cr_basis res with observed_spread => Some (cost_pct res) | assumed => None end).

Definition round_trip_cost_pct (table : option (list RawObservation)) (now : instant)
    (sym : string) : result pyerr (float * basis) :=
  res ← resolve_cost table now sym;
  Ok (cost_pct res, cr_basis res).

(** ** The decision policy *)
Definition MIN_CONFIDENCE_PCT : float := flit 550 1.
Definition SELL_THRESHOLD_MULTIPLE : float := flit 5 1.

Record DecisionPolicy : Set := {
  dp_symbol : string;
  dp_cost_pct : float;
  dp_cost_basis : basis;
  dp_cost_source : option string;
  dp_cost_observed_at : option instant;
  dp_cost_age_hours : option float;
  dp_cost_reason : cost_reason;
  buy_threshold_pct : float;
  sell_threshold_pct : float;
  min_confidence_pct : float;
  fallback_cost_pct : float;
  policy_version : Z;
}.

Definition decision_policy (table : option (list RawObservation)) (now : instant)
    : result pyerr DecisionPolicy :=
  res ← resolve_cost table now DEFAULT_COST_SYMBOL;
  Ok {| dp_symbol := symbol res;
        dp_cost_pct := py_round (cost_pct res) 4;
        dp_cost_basis := cr_basis res;
        dp_cost_source := cr_source res;
        dp_cost_observed_at := cr_observed_at res;
        dp_cost_age_hours := age_hours res;
        dp_cost_reason := cr_reason res;
        buy_threshold_pct := py_round (cost_pct res) 4;
        sell_threshold_pct := py_round (fmul (cost_pct res) SELL_THRESHOLD_MULTIPLE) 4;
        min_confidence_pct := MIN_CONFIDENCE_PCT;
        fallback_cost_pct := FALLBACK_ROUND_TRIP_COST_PCT;
        policy_version := 1 |}.

(** ** The scan *)
Lemma scan_spec sym provider now rej rows out :
  scan sym provider now rej rows = Ok out →
  match out with
  | inl r =>
      ∃ i row, rows !! i = Some row
        ∧ usable_spread (ro_raw_payload row) = Ok (Some (cost_pct r))
        ∧ (∀ j row', (j < i)%nat → rows !! j = Some row' →
             usable_spread (ro_raw_payload row') = Ok None)
        ∧ cr_basis r = observed_spread ∧ symbol r = sym ∧ cr_source r = Some provider
        ∧ cr_observed_at r = Some (to_utc (ro_observed_at row))
        ∧ rejected r = rej + Z.of_nat i
  | inr n =>
      (∀ row, row ∈ rows → usable_spread (ro_raw_payload row) = Ok None)
      ∧ n = rej + Z.of_nat (length rows)
  end.
Proof.
  revert rej. induction rows as [|row rows IH]; intros rej H; simpl in H.
  - injection H as <-. split; [|simpl; lia]. intros row. by rewrite elem_of_nil.
  - apply bind_Ok in H as (u&Hu&H). destruct u as [value|].
    + injection H as <-. exists 0%nat, row. simpl. split_and!; try done; [|lia].
      intros j row' Hj. lia.
    + specialize (IH _ H). destruct out as [r|n].
      * destruct IH as (i&row'&Hi&Hv&Hpre&Hb&Hs&Hp&Ho&Hr). exists (S i), row'.
        split_and!; try done; [|lia]. intros [|j] row0 Hj Hj'; [by simplify_eq/=|].
        apply (Hpre j); [lia|done].
      * destruct IH as [Hall ->]. split; [|simpl; lia].
        intros row' [->|Hr]%elem_of_cons; [done|by apply Hall].
Qed.

Lemma usable_spread_sane payload v :
  usable_spread payload = Ok (Some v) → fle MIN_SANE_PCT v = true ∧ fle v MAX_SANE_PCT = true.
Proof.
  unfold usable_spread. generalize MIN_SANE_PCT as lo, MAX_SANE_PCT as hi. intros lo hi.
  destruct payload as [| | | | | |items]; try done.
  destruct (float_value (jget "spread_pct" items)) as [m|]; [|done].
  intros H. apply bind_Ok in H as (x&_&H).
  destruct (fle lo x && fle x hi) eqn:Hb; [|done]. injection H as <-.
  by apply andb_true_iff in Hb.
Qed.

Lemma recent_rows_elem provider sym cutoff table row :
  row ∈ recent_rows provider sym cutoff table →
  row ∈ table ∧ ro_provider_code row = provider ∧ ro_symbol row = sym
  ∧ ro_quality row = "ok" ∧ cutoff ≤ to_utc (ro_observed_at row).
Proof.
  intros (i&Hi&_)%elem_of_take. apply list_elem_of_lookup_2 in Hi.
  unfold sort_by in Hi. rewrite py_sorted_perm in Hi.
  apply elem_of_bool_filter in Hi as [Ht Hb].
  rewrite !andb_true_iff, !String.eqb_eq, Z.leb_le in Hb. naive_solver.
Qed.

(** The hurdle is never an accident.  A resolved cost either is the assumed
    structural cost, or is a spread between 0.1 and 10 percent read from a row
    of the asset's own provider that the classifier accepted and that is at
    most 72 hours old - the newest usable one of the 25 newest such rows, the
    number of newer rows skipped being reported.  An asset without a two-sided
    quote always gets the assumption, whatever the database holds. *)
Theorem resolve_cost_provenance table now sym r :
  resolve_cost table now sym = Ok r →
  symbol r = sym
  ∧ (assoc sym SPREAD_SOURCES = None → cr_basis r = assumed)
  ∧ match cr_basis r with
    | assumed => cost_pct r = FALLBACK_ROUND_TRIP_COST_PCT ∧ cr_source r = None
    | observed_spread =>
        fle MIN_SANE_PCT (cost_pct r) = true ∧ fle (cost_pct r) MAX_SANE_PCT = true
        ∧ ∃ rows provider i row,
            table = Some rows ∧ assoc sym SPREAD_SOURCES = Some provider
            ∧ row ∈ rows ∧ ro_provider_code row = provider ∧ ro_symbol row = sym
            ∧ ro_quality row = "ok" ∧ now - 72 * us_hour ≤ to_utc (ro_observed_at row)
            ∧ usable_spread (ro_raw_payload row) = Ok (Some (cost_pct r))
            ∧ recent_rows provider sym (now - 72 * us_hour) rows !! i = Some row
            ∧ (∀ j row', (j < i)%nat →
                 recent_rows provider sym (now - 72 * us_hour) rows !! j = Some row' →
                 usable_spread (ro_raw_payload row') = Ok None)
            ∧ rejected r = Z.of_nat i ∧ cr_observed_at r = Some (to_utc (ro_observed_at row))
    end.
Proof.
  unfold resolve_cost. destruct (assoc sym SPREAD_SOURCES) as [provider|] eqn:Hp;
    [|by intros [= <-]].
  destruct table as [rows|]; [|by intros [= <-]]. cbv zeta.
  change (MAX_AGE_HOURS * us_hour) with (72 * us_hour).
  set (recent := recent_rows _ _ _ _). intros H. apply bind_Ok in H as (found&Hs&H).
  injection H as <-. pose proof (scan_spec _ _ _ _ _ _ Hs) as Hscan.
  destruct found as [r|n]; [|done].
  destruct Hscan as (i&row&Hi&Hv&Hpre&Hb&Hsym&Hsrc&Ho&Hr).
  rewrite Hb. split_and!; [done|done|by apply (usable_spread_sane _ _ Hv)..|].
  destruct (recent_rows_elem _ _ _ _ _ (list_elem_of_lookup_2 _ _ _ Hi)) as (Hin&Hpc&Hsy&Hq&Hc).
  exists rows, provider, i, row. split_and!; try done.
Qed.

Definition a_row (sym : string) (at_ : Z) (spread : json) : RawObservation :=
  {| ro_provider_code := "hamrahgold"; ro_symbol := sym; ro_quality := "ok";
     ro_observed_at := naive at_; ro_raw_payload := JObj [("spread_pct", spread)] |}.

(** Newest first: a malformed row, an absurd one, a good one, an older one. *)
Definition some_rows : list RawObservation :=
  [a_row "IR_GOLD_18K" 10 (JFloat (flit 49 2)); a_row "IR_GOLD_18K" 5 (JFloat (flit 70 2));
   a_row "IR_GOLD_18K" 30 JNull; a_row "IR_GOLD_18K" 20 (JInt 49)].
Definition some_cost : CostResolution :=
  match resolve_cost (Some some_rows) us_hour "IR_GOLD_18K" with
  | Ok r => r | Err _ => _assumed "" lookup_failed 0
  end.
Lemma some_cost_observed :
  (cr_basis some_cost, cost_pct some_cost, rejected some_cost) = (observed_spread, flit 49 2, 2).
Proof. vm_compute. reflexivity. Qed.

Lemma resolve_cost_provenance_witness :
  fle MIN_SANE_PCT (cost_pct some_cost) = true ∧ fle (cost_pct some_cost) MAX_SANE_PCT = true.
Proof.
  destruct (resolve_cost_provenance (Some some_rows) us_hour "IR_GOLD_18K" some_cost)
    as (_&_&H); [vm_compute; reflexivity|].
  assert (cr_basis some_cost = observed_spread) as Hb by (vm_compute; reflexivity).
  rewrite Hb in H. split; apply H.
Defined.

(** An integer spread too large for a float raises outside the [try] that is
    there so that a cost lookup never sinks a job. *)
Example huge_spread_raises :
  resolve_cost (Some [a_row "IR_GOLD_18K" 20 (JInt (10 ^ 400))]) us_hour "IR_GOLD_18K"
  = Err OverflowError.
Proof. vm_compute. reflexivity. Qed.
