(* ===== verification/TrendJob.v ===== *)
(** * The scheduled evaluation of the trend alignment

    [app/jobs/trend_alignment.py]: the candles built from [prices], the state of a symbol,
    the events that record its entries into a full alignment, the alerts they are fanned
    out to, the track record, and the pass over the symbols.

    The tables are a record.  Which statement fails is [fails]; the clock is read at the
    moments [job_moment] names; the texts of numbers are the interpreter's.  The ids of a
    table are taken in order: the gaps that a rolled-back insert leaves in a sequence are
    not kept.  The session of the database is in UTC, as in the container. *)
From Stdlib Require Import Ascii.
From S2P Require Import Prelude PyFloat PyTime Numeric PyText PyJson PriceDB TrendAlignment TrendReplay.
Local Open Scope string_scope.
Local Open Scope list_scope.
Local Open Scope Z_scope.

#[export] Instance Alignment_eq_dec : EqDecision Alignment.
Proof. solve_decision. Defined.

Definition SUPPORTED_SYMBOLS : list string := ["IR_GOLD_18K"; "XAUUSD"].
Definition TREND_ALERT_TYPE : string := "trend_alignment".
Definition DISCLAIMER : string := "Technical indicator only — not financial advice.".
Definition BUCKET_SLACK : Z := 4.
Definition HOURLY_PER_4H : Z := TIMEFRAME_SECONDS tf_4h / TIMEFRAME_SECONDS tf_1h.
Definition SCAN_SLACK : float := float_of_Z 3.

(** [FULL_ALIGNMENTS] *)
Definition is_full (a : Alignment) : bool :=
  match a with full_bullish | full_bearish => true | not_aligned => false end.

Record TrendSettings : Set := {
  ts_enabled : bool;
  ts_ma_type : string;
  ts_fast_period : Z;
  ts_mid_period : Z;
  ts_slow_period : Z;
}.

Definition trend_config (s : TrendSettings) : result pyerr TrendConfig :=
  let config :=
    {| cfg_enabled := ts_enabled s; ma_type := ts_ma_type s; fast := ts_fast_period s;
       mid := ts_mid_period s; slow := ts_slow_period s; stale_buckets := stale_buckets default_config |} in
  _ ← validate_config config;
  Ok config.

(** ** Candles *)
Inductive candle_unit : Set := hour | day.

Definition unit_seconds (u : candle_unit) : Z :=
  TIMEFRAME_SECONDS (match u with hour => tf_1h | day => tf_1d end).

(** [date_trunc], and [strftime] with the rest of the instant zeroed *)
Definition _bucket_expr (u : candle_unit) (observed_at : instant) : instant :=
  observed_at - observed_at mod (unit_seconds u * us_second).

Definition MAX_TIMEDELTA_DAYS : Z := 999999999.

(** [now - timedelta(seconds=seconds * limit * SCAN_SLACK)] *)
Definition scan_since (u : candle_unit) (limit : Z) (now : instant) : result pyerr instant :=
  buckets ← py_float_of_int (unit_seconds u * limit);
  span ← int_of_float (fmul buckets SCAN_SLACK);
  let delta := span * us_second in
  _ ← raise_if (MAX_TIMEDELTA_DAYS <? Z.abs (delta / us_day)) OverflowError;
  _ ← raise_if (now - delta <? 0) OverflowError;
  Ok (now - delta).

Section Candles.
Context `{NF : !NumericFloat} `{NO : !NumericOrder}.

(** [max(value)] and [min(value)] of a group *)
Definition sql_max (x y : float) : float := if num_le x y then y else x.
Definition sql_min (x y : float) : float := if num_le x y then x else y.

(** The row of one group: [None] for a group without rows, which GROUP BY does not make. *)
Definition candle_of (u : candle_unit) (ticks : list PriceRow) (bucket : instant) : option Candle :=
  match sort_by pr_observed_at (List.filter (λ r, _bucket_expr u (pr_observed_at r) =? bucket) ticks) with
  | [] => None
  | first :: rest =>
      Some {| c_start := bucket;
              c_open := pr_value first;
              c_high := foldl sql_max (pr_value first) (pr_value <$> rest);
              c_low := foldl sql_min (pr_value first) (pr_value <$> rest);
              c_close := pr_value (List.last rest first) |}
  end.

Definition ticks_of (prices : list PriceRow) (symbol : string) (since now : instant) : list PriceRow :=
  List.filter (λ r, String.eqb (pr_symbol r) symbol && String.eqb (pr_quality r) "ok"
                    && (since <=? pr_observed_at r) && (pr_observed_at r <=? now)) prices.

Definition buckets_of (u : candle_unit) (ticks : list PriceRow) : list instant :=
  sort_by id (remove_dups ((λ r, _bucket_expr u (pr_observed_at r)) <$> ticks)).

(** [ORDER BY bucket DESC LIMIT limit], turned round *)
Definition newest_buckets (limit : Z) (buckets : list instant) : list instant :=
  drop (length buckets - Z.to_nat limit) buckets.

Definition _load_candles (prices : list PriceRow) (symbol : string) (u : candle_unit) (limit : Z) (now : instant)
    : result pyerr (list Candle) :=
  since ← scan_since u limit now;
  let ticks := ticks_of prices symbol since now in
  Ok (omap (candle_of u ticks) (newest_buckets limit (buckets_of u ticks))).
End Candles.

(** [int(config.slow * WARMUP_FACTOR) + BUCKET_SLACK] *)
Definition warm_buckets (config : TrendConfig) : result pyerr Z :=
  w ← warmup_candles config; Ok (w + BUCKET_SLACK).

Definition _bucket_limits (config : TrendConfig) : result pyerr (Z * Z) :=
  warm ← warm_buckets config;
  Ok (warm * HOURLY_PER_4H, warm).

Definition _backtest_bucket_limits (config : TrendConfig) : result pyerr (Z * Z) :=
  warm ← warm_buckets config;
  let longest := foldl Z.max 0 WINDOW_DAYS in
  let hourly_per_day := TIMEFRAME_SECONDS tf_1d / TIMEFRAME_SECONDS tf_1h in
  Ok (warm * HOURLY_PER_4H + longest * hourly_per_day, warm + longest).

(** ** Texts and documents *)
Class TextFormats : Type := {
  format_1f : float → string;    (** [f"{x:.1f}"] *)
  format_c2f : float → string;   (** [f"{x:,.2f}"] *)
}.

Definition ascii_upper (c : ascii) : ascii :=
  if (97 <=? code c) && (code c <=? 122) then ascii_of_N (Z.to_N (code c - 32)) else c.

Fixpoint upper (s : string) : string :=
  match s with EmptyString => EmptyString | String c s => String (ascii_upper c) (upper s) end.

Definition tf_name (tf : timeframe) : string :=
  match tf with tf_1h => "1h" | tf_4h => "4h" | tf_1d => "1d" end.
Definition trend_name (t : TrendState) : string :=
  match t with bullish => "bullish" | bearish => "bearish" | neutral => "neutral" | unavailable => "unavailable" end.
Definition alignment_name (a : Alignment) : string :=
  match a with full_bullish => "full_bullish" | full_bearish => "full_bearish" | not_aligned => "not_aligned" end.

Section Documents.
Context `{I : Interpreter} `{TF : TextFormats}.

Definition _fmt (value : option float) : string :=
  match value with None => "n/a" | Some x => format_c2f x end.

(** [TimeframeResult.reason] *)
Definition reason_text (r : tf_reason) : string :=
  match r with
  | no_reason => EmptyString
  | no_completed_candles => "no completed candles"
  | candle_too_old buckets => "last completed candle is " ++ format_1f buckets ++ " buckets old"
  | too_few_candles have slow =>
      str_of_Z have ++ " completed candles < " ++ str_of_Z slow ++ " required for the slow MA"
  | warming_up have needed =>
      "slow MA warming up (" ++ str_of_Z have ++ "/" ++ str_of_Z needed ++ " candles)"
  end%string.

Definition json_float (x : option float) : json := match x with None => JNull | Some x => JFloat x end.

Definition _iso (value : option instant) : json :=
  match value with None => JNull | Some t => JStr (isoformat t) end.

Definition as_dict (r : TimeframeResult) : json :=
  JObj [("timeframe", JStr (tf_name (r_timeframe r))); ("trend", JStr (trend_name (r_trend r)));
        ("price", json_float (price r)); ("ma26", json_float (ma26 r)); ("ma48", json_float (ma48 r));
        ("ma220", json_float (ma220 r)); ("candle_open_time", _iso (candle_open_time r));
        ("candle_close_time", _iso (candle_close_time r)); ("confirmed", JBool (confirmed r));
        ("data_fresh", JBool (tf_data_fresh r)); ("ma_type", JStr (r_ma_type r));
        ("history_points", JInt (history_points r)); ("reason", JStr (reason_text (tf_why r)))].

Definition timeframes_doc (r : AlignmentResult) : list (string * json) :=
  (λ tf, (tf_name tf, as_dict (timeframes r tf))) <$> TIMEFRAMES.

Definition join_parts (sep : string) (parts : list string) : string :=
  match parts with [] => EmptyString | p :: parts => foldl (λ s q, s ++ sep ++ q)%string p parts end.

Definition alert_message (r : AlignmentResult) (config : TrendConfig) : string :=
  let direction := match al_alignment r with full_bullish => "BULLISH" | _ => "BEARISH" end in
  let ma := upper (ma_type config) in
  let part tf :=
    let res := timeframes r tf in
    (upper (tf_name tf) ++ " " ++ trend_name (r_trend res) ++ ": price " ++ _fmt (price res) ++ " vs "
       ++ ma ++ str_of_Z (fast config) ++ " " ++ _fmt (ma26 res) ++ ", "
       ++ ma ++ str_of_Z (mid config) ++ " " ++ _fmt (ma48 res) ++ ", "
       ++ ma ++ str_of_Z (slow config) ++ " " ++ _fmt (ma220 res))%string in
  (al_symbol r ++ ": full " ++ direction ++ " alignment — 1D, 4H and 1H all agree "
     ++ "on closed candles (" ++ ma ++ " " ++ str_of_Z (fast config) ++ "/" ++ str_of_Z (mid config) ++ "/"
     ++ str_of_Z (slow config) ++ "). "
     ++ join_parts "; " (part <$> TIMEFRAMES)
     ++ ". " ++ DISCLAIMER)%string.

Definition alert_payload (r : AlignmentResult) (config : TrendConfig) (event_id : Z) : list (string * json) :=
  [("source", JStr "trend_alignment"); ("symbol", JStr (al_symbol r));
   ("alignment", JStr (alignment_name (al_alignment r))); ("ma_type", JStr (ma_type config));
   ("periods", JObj [("fast", JInt (fast config)); ("mid", JInt (mid config)); ("slow", JInt (slow config))]);
   ("timeframes", JObj (timeframes_doc r)); ("trend_alignment_event_id", JInt event_id);
   ("disclaimer", JStr DISCLAIMER)].
End Documents.

(** ** The tables *)
Record StateRow : Set := {
  st_alignment : Alignment;
  st_previous_alignment : option Alignment;
  st_timeframes : list (string * json);
  st_ma_type : string;
  st_fast_period : Z;
  st_mid_period : Z;
  st_slow_period : Z;
  st_data_fresh : bool;
  st_candle_close : timeframe → option instant;
  st_last_bullish_alert_at : option instant;
  st_last_bearish_alert_at : option instant;
  st_state_version : Z;
  st_calculated_at : instant;
  st_updated_at : instant;
}.

(** The columns of [uq_trend_alignment_event_identity]. *)
Record EventKey : Set := {
  k_symbol : string;
  k_alignment : Alignment;
  k_1d : instant;
  k_4h : instant;
  k_1h : instant;
}.

#[export] Instance EventKey_eq_dec : EqDecision EventKey.
Proof. solve_decision. Defined.

Record EventRow : Set := {
  ev_id : Z;
  ev_key : EventKey;
  ev_previous_alignment : option Alignment;
  ev_occurred_at : instant;
  ev_timeframes : list (string * json);
  ev_ma_type : string;
  ev_alert_event_id : option Z;
}.

Record Alert : Set := {
  a_id : Z;
  a_user_id : string;
  a_enabled : bool;
  a_alert_type : string;
  a_last_triggered_at : option instant;
  a_updated_at : instant;
}.

Record AlertEvent : Set := {
  ae_id : Z;
  ae_alert_id : Z;
  ae_user_id : string;
  ae_triggered_at : instant;
  ae_message : string;
  ae_payload : list (string * json);
}.

(** [trend_alignment_performance] *)
Record PerformanceRow : Set := {
  pw_basis : Basis;
  pw_evaluated_from : option instant;
  pw_evaluated_to : option instant;
  pw_samples : Z;
  pw_bullish_episodes : Z;
  pw_bearish_episodes : Z;
  pw_bullish_bars : Z;
  pw_bearish_bars : Z;
  pw_unaligned_bars : Z;
  pw_fwd_return_bullish_pct : option float;
  pw_fwd_return_bearish_pct : option float;
  pw_fwd_return_baseline_pct : option float;
  pw_hit_rate_bullish : option float;
  pw_hit_rate_bearish : option float;
  pw_note : list note_part;
  pw_computed_at : instant;
  pw_updated_at : instant;
}.

(** [WindowPerformance.as_row], with the two instants *)
Definition as_row (p : WindowPerformance) (now : instant) : PerformanceRow :=
  {| pw_basis := wp_basis p; pw_evaluated_from := evaluated_from p; pw_evaluated_to := evaluated_to p;
     pw_samples := samples p; pw_bullish_episodes := bullish_episodes p;
     pw_bearish_episodes := bearish_episodes p; pw_bullish_bars := bullish_bars p;
     pw_bearish_bars := bearish_bars p; pw_unaligned_bars := unaligned_bars p;
     pw_fwd_return_bullish_pct := fwd_return_bullish_pct p;
     pw_fwd_return_bearish_pct := fwd_return_bearish_pct p;
     pw_fwd_return_baseline_pct := fwd_return_baseline_pct p;
     pw_hit_rate_bullish := hit_rate_bullish p; pw_hit_rate_bearish := hit_rate_bearish p;
     pw_note := wp_note p; pw_computed_at := now; pw_updated_at := now |}.

Record TrendDB : Type := {
  td_prices : list PriceRow;
  td_states : gmap string StateRow;
  td_events : list EventRow;
  td_next_event : Z;
  td_alerts : list Alert;
  td_alert_events : list AlertEvent;
  td_next_alert_event : Z;
  td_performance : gmap (string * Z) PerformanceRow;
}.

Definition with_states (f : gmap string StateRow → gmap string StateRow) (db : TrendDB) : TrendDB :=
  {| td_prices := td_prices db; td_states := f (td_states db); td_events := td_events db;
     td_next_event := td_next_event db; td_alerts := td_alerts db; td_alert_events := td_alert_events db;
     td_next_alert_event := td_next_alert_event db; td_performance := td_performance db |}.

Definition with_events (f : list EventRow → list EventRow) (taken : Z) (db : TrendDB) : TrendDB :=
  {| td_prices := td_prices db; td_states := td_states db; td_events := f (td_events db);
     td_next_event := td_next_event db + taken; td_alerts := td_alerts db; td_alert_events := td_alert_events db;
     td_next_alert_event := td_next_alert_event db; td_performance := td_performance db |}.

Definition with_alerts (alerts : list Alert) (events : list AlertEvent) (taken : Z) (db : TrendDB) : TrendDB :=
  {| td_prices := td_prices db; td_states := td_states db; td_events := td_events db;
     td_next_event := td_next_event db; td_alerts := alerts; td_alert_events := events;
     td_next_alert_event := td_next_alert_event db + taken; td_performance := td_performance db |}.

Definition with_performance (f : gmap (string * Z) PerformanceRow → gmap (string * Z) PerformanceRow)
    (db : TrendDB) : TrendDB :=
  {| td_prices := td_prices db; td_states := td_states db; td_events := td_events db;
     td_next_event := td_next_event db; td_alerts := td_alerts db; td_alert_events := td_alert_events db;
     td_next_alert_event := td_next_alert_event db; td_performance := f (td_performance db) |}.

(** ** Failures and reports *)
Inductive trend_statement : Set :=
| ReadCandles (u : candle_unit) | ReadState | InsertEvent | ReadSubscribers | InsertAlertEvent (alert_id : Z)
| TouchAlert (alert_id : Z) | LinkAlert | UpsertState | ReadHistory (u : candle_unit) | UpsertPerformance (days : Z).

Inductive trend_exn : Set :=
| Uncaught (e : pyerr)
| StatementFailed (s : trend_statement)
| ColumnRefused.

Inductive job_moment : Set := JobStarted | StateWritten (symbol : string).

Definition from_py {A} (r : result pyerr A) : result trend_exn A :=
  match r with Ok x => Ok x | Err e => Err (Uncaught e) end.

Record Outcome : Type := {
  oc_symbol : string;
  oc_alignment : Alignment;
  oc_data_fresh : bool;
  oc_hourly_candles : Z;
  oc_daily_candles : Z;
  oc_candle_identity : list (timeframe * option instant);
  oc_previous_alignment : option Alignment;
  oc_event_id : option Z;
  oc_alert_event_id : option Z;
  oc_performance : list WindowPerformance;
  oc_performance_error : option trend_exn;
}.

Definition event_created (o : Outcome) : bool := match oc_event_id o with Some _ => true | None => false end.
Definition alerted (o : Outcome) : bool := match oc_alert_event_id o with Some _ => true | None => false end.

Inductive SymbolReport : Type :=
| Skipped
| Failed (e : trend_exn)
| Evaluated (o : Outcome).

Inductive job_error : Set := SymbolError (symbol : string) (e : trend_exn) | PerformanceError (symbol : string) (e : trend_exn).

Record TrendCounts : Type := {
  tc_enabled : bool;
  tc_symbols : gmap string SymbolReport;
  tc_evaluated : Z;
  tc_skipped : Z;
  tc_failed : Z;
  tc_events : Z;
  tc_alerts : Z;
  tc_performance_windows : Z;
  tc_errors : list job_error;
}.

Definition initial_counts : TrendCounts :=
  {| tc_enabled := true; tc_symbols := ∅; tc_evaluated := 0; tc_skipped := 0; tc_failed := 0; tc_events := 0;
     tc_alerts := 0; tc_performance_windows := 0; tc_errors := [] |}.

Section Job.
Context `{I : Interpreter} `{TF : TextFormats} `{JC : !JsonColumn} `{NF : !NumericFloat} `{NO : !NumericOrder}.
Context (fails : string → trend_statement → bool) (clock : job_moment → instant).

Definition execute (symbol : string) (s : trend_statement) : result trend_exn () :=
  raise_if (fails symbol s) (StatementFailed s).

(** ** The state *)
Definition _upsert_state (db : TrendDB) (r : AlignmentResult) (config : TrendConfig) (stored : option StateRow)
    (identity : timeframe → option instant) (alerted_at : option instant) : result trend_exn TrendDB :=
  let changed := match stored with None => true | Some s => negb (bool_decide (st_alignment s = al_alignment r)) end in
  let previous :=
    match stored with
    | Some s => if changed then Some (st_alignment s) else st_previous_alignment s
    | None => None
    end in
  let version :=
    Z.max 1 (match stored with Some s => st_state_version s | None => 0 end + (if changed then 1 else 0)) in
  let stamp (side : Alignment) (kept : option instant) :=
    match alerted_at with
    | Some at_ => if bool_decide (side = match al_alignment r with full_bullish => full_bullish | _ => full_bearish end)
                  then Some at_ else kept
    | None => kept
    end in
  let values :=
    {| st_alignment := al_alignment r; st_previous_alignment := previous; st_timeframes := timeframes_doc r;
       st_ma_type := ma_type config; st_fast_period := fast config; st_mid_period := mid config;
       st_slow_period := slow config; st_data_fresh := al_data_fresh r; st_candle_close := identity;
       st_last_bullish_alert_at := stamp full_bullish (stored ≫= st_last_bullish_alert_at);
       st_last_bearish_alert_at := stamp full_bearish (stored ≫= st_last_bearish_alert_at);
       st_state_version := version; st_calculated_at := calculated_at r;
       st_updated_at := clock (StateWritten (al_symbol r)) |} in
  _ ← execute (al_symbol r) UpsertState;
  _ ← raise_if (negb (json_column (timeframes_doc r))) ColumnRefused;
  Ok (with_states <[al_symbol r := values]> db).

(** ** Events *)
Definition _insert_event (db : TrendDB) (r : AlignmentResult) (config : TrendConfig) (previous : option Alignment)
    (k : EventKey) : result trend_exn (TrendDB * option Z) :=
  _ ← execute (al_symbol r) InsertEvent;
  _ ← raise_if (negb (json_column (timeframes_doc r))) ColumnRefused;
  if bool_decide (k ∈ ev_key <$> td_events db) then Ok (db, None)
  else
    let row :=
      {| ev_id := td_next_event db; ev_key := k; ev_previous_alignment := previous;
         ev_occurred_at := calculated_at r; ev_timeframes := timeframes_doc r; ev_ma_type := ma_type config;
         ev_alert_event_id := None |} in
    Ok (with_events (λ t, t ++ [row]) 1 db, Some (td_next_event db)).

(** ** Alerts *)
Definition touch (alert_id : Z) (now : instant) (a : Alert) : Alert :=
  if a_id a =? alert_id
  then {| a_id := a_id a; a_user_id := a_user_id a; a_enabled := a_enabled a; a_alert_type := a_alert_type a;
          a_last_triggered_at := Some now; a_updated_at := now |}
  else a.

(** One row per subscriber: the first id is returned. *)
Fixpoint notify (db : TrendDB) (symbol message : string) (payload : list (string * json)) (now : instant)
    (subscribers : list (Z * string)) (first_id : option Z) : result trend_exn (TrendDB * option Z) :=
  match subscribers with
  | [] => Ok (db, first_id)
  | (alert_id, user_id) :: subscribers =>
      _ ← execute symbol (InsertAlertEvent alert_id);
      _ ← raise_if (negb (json_column payload)) ColumnRefused;
      let row :=
        {| ae_id := td_next_alert_event db; ae_alert_id := alert_id; ae_user_id := user_id; ae_triggered_at := now;
           ae_message := message; ae_payload := payload |} in
      let first_id := match first_id with Some _ => first_id | None => Some (ae_id row) end in
      _ ← execute symbol (TouchAlert alert_id);
      notify (with_alerts (touch alert_id now <$> td_alerts db) (td_alert_events db ++ [row]) 1 db)
        symbol message payload now subscribers first_id
  end.

Definition subscribers_of (alerts : list Alert) : list (Z * string) :=
  (λ a, (a_id a, a_user_id a))
    <$> sort_by a_id (List.filter (λ a, a_enabled a && String.eqb (a_alert_type a) TREND_ALERT_TYPE) alerts).

Definition _write_alert_events (db : TrendDB) (r : AlignmentResult) (config : TrendConfig) (event_id : Z)
    (now : instant) : result trend_exn (TrendDB * option Z) :=
  _ ← execute (al_symbol r) ReadSubscribers;
  match subscribers_of (td_alerts db) with
  | [] => Ok (db, None)
  | subscribers =>
      notify db (al_symbol r) (alert_message r config) (alert_payload r config event_id) now subscribers None
  end.

Definition link_alert (event_id alert_event_id : Z) (e : EventRow) : EventRow :=
  if ev_id e =? event_id
  then {| ev_id := ev_id e; ev_key := ev_key e; ev_previous_alignment := ev_previous_alignment e;
          ev_occurred_at := ev_occurred_at e; ev_timeframes := ev_timeframes e; ev_ma_type := ev_ma_type e;
          ev_alert_event_id := Some alert_event_id |}
  else e.

(** The savepoint: an alert that cannot be written leaves the event. *)
Definition alert_entry (db : TrendDB) (r : AlignmentResult) (config : TrendConfig) (event_id : Z) (now : instant)
    : result trend_exn (TrendDB * option Z) :=
  match _write_alert_events db r config event_id now with
  | Err _ => Ok (db, None)
  | Ok (db, None) => Ok (db, None)
  | Ok (db, Some alert_event_id) =>
      _ ← execute (al_symbol r) LinkAlert;
      Ok (with_events (fmap (link_alert event_id alert_event_id)) 0 db, Some alert_event_id)
  end.

(** The identity of an event: its three candles, all there. *)
Definition event_key (r : AlignmentResult) (identity : timeframe → option instant) : option EventKey :=
  match identity tf_1d, identity tf_4h, identity tf_1h with
  | Some d, Some f, Some h =>
      Some {| k_symbol := al_symbol r; k_alignment := al_alignment r; k_1d := d; k_4h := f; k_1h := h |}
  | _, _, _ => None
  end.

(** The transaction of a symbol: the stored alignment, the event's id and the alert's. *)
Definition record_evaluation (db : TrendDB) (r : AlignmentResult) (config : TrendConfig) (now : instant)
    : result trend_exn (TrendDB * (option Alignment * option Z * option Z)) :=
  let identity tf := candle_close_time (timeframes r tf) in
  _ ← execute (al_symbol r) ReadState;
  let stored := td_states db !! al_symbol r in
  let previous := st_alignment <$> stored in
  e ← (if is_full (al_alignment r) && negb (bool_decide (previous = Some (al_alignment r)))
       then match event_key r identity with
            | Some k => _insert_event db r config previous k
            | None => Ok (db, None)
            end
       else Ok (db, None));
  let '(db, event_id) := e in
  a ← (match event_id with Some id => alert_entry db r config id now | None => Ok (db, None) end);
  let '(db, alert_event_id) := a in
  db ← _upsert_state db r config stored identity ((λ _, now) <$> alert_event_id);
  Ok (db, (previous, event_id, alert_event_id)).

(** ** The track record *)
Fixpoint _upsert_performance (db : TrendDB) (symbol : string) (rows : list WindowPerformance) (now : instant)
    : result trend_exn TrendDB :=
  match rows with
  | [] => Ok db
  | row :: rows =>
      _ ← execute symbol (UpsertPerformance (wp_window_days row));
      _upsert_performance (with_performance <[(wp_symbol row, wp_window_days row) := as_row row now]> db)
        symbol rows now
  end.

Definition load (db : TrendDB) (symbol : string) (s : trend_statement) (u : candle_unit) (limit : Z) (now : instant)
    : result trend_exn (list Candle) :=
  _ ← execute symbol s;
  from_py (_load_candles (td_prices db) symbol u limit now).

Definition refresh_performance (db : TrendDB) (symbol : string) (config : TrendConfig) (now : instant)
    : result trend_exn (TrendDB * list WindowPerformance) :=
  limits ← from_py (_backtest_bucket_limits config);
  hourly ← load db symbol (ReadHistory hour) hour limits.1 now;
  daily ← load db symbol (ReadHistory day) day limits.2 now;
  rows ← from_py (backtest symbol hourly daily now (Some config) WINDOW_DAYS);
  db ← _upsert_performance db symbol rows now;
  Ok (db, rows).

(** ** One symbol *)
Definition read_and_evaluate (db : TrendDB) (symbol : string) (config : TrendConfig) (now : instant)
    : result trend_exn (list Candle * list Candle * AlignmentResult) :=
  limits ← from_py (_bucket_limits config);
  hourly ← load db symbol (ReadCandles hour) hour limits.1 now;
  daily ← load db symbol (ReadCandles day) day limits.2 now;
  r ← from_py (evaluate symbol hourly daily now (Some config));
  Ok (hourly, daily, r).

Definition _evaluate_symbol (db : TrendDB) (symbol : string) (config : TrendConfig) (now : instant)
    : result trend_exn (TrendDB * Outcome) :=
  x ← read_and_evaluate db symbol config now;
  let '(hourly, daily, r) := x in
  y ← record_evaluation db r config now;
  let '(db, (previous, event_id, alert_event_id)) := y in
  let outcome performance error :=
    {| oc_symbol := symbol; oc_alignment := al_alignment r; oc_data_fresh := al_data_fresh r;
       oc_hourly_candles := len hourly; oc_daily_candles := len daily; oc_candle_identity := candle_identity r;
       oc_previous_alignment := previous; oc_event_id := event_id; oc_alert_event_id := alert_event_id;
       oc_performance := performance; oc_performance_error := error |} in
  match refresh_performance db symbol config now with
  | Ok (db, rows) => Ok (db, outcome rows None)
  | Err e => Ok (db, outcome [] (Some e))
  end.

(** ** The pass *)
Definition count_skipped (c : TrendCounts) (symbol : string) : TrendCounts :=
  {| tc_enabled := tc_enabled c; tc_symbols := <[symbol := Skipped]> (tc_symbols c); tc_evaluated := tc_evaluated c;
     tc_skipped := tc_skipped c + 1; tc_failed := tc_failed c; tc_events := tc_events c; tc_alerts := tc_alerts c;
     tc_performance_windows := tc_performance_windows c; tc_errors := tc_errors c |}.

Definition count_failed (c : TrendCounts) (symbol : string) (e : trend_exn) : TrendCounts :=
  {| tc_enabled := tc_enabled c; tc_symbols := <[symbol := Failed e]> (tc_symbols c); tc_evaluated := tc_evaluated c;
     tc_skipped := tc_skipped c; tc_failed := tc_failed c + 1; tc_events := tc_events c; tc_alerts := tc_alerts c;
     tc_performance_windows := tc_performance_windows c; tc_errors := tc_errors c ++ [SymbolError symbol e] |}.

Definition count_evaluated (c : TrendCounts) (symbol : string) (o : Outcome) : TrendCounts :=
  {| tc_enabled := tc_enabled c; tc_symbols := <[symbol := Evaluated o]> (tc_symbols c);
     tc_evaluated := tc_evaluated c + 1; tc_skipped := tc_skipped c; tc_failed := tc_failed c;
     tc_events := tc_events c + (if event_created o then 1 else 0);
     tc_alerts := tc_alerts c + (if alerted o then 1 else 0);
     tc_performance_windows := tc_performance_windows c + len (oc_performance o);
     tc_errors := tc_errors c ++ match oc_performance_error o with
                                 | Some e => [PerformanceError symbol e] | None => [] end |}.

Fixpoint run_pass (db : TrendDB) (config : TrendConfig) (now : instant) (requested : list string) (c : TrendCounts)
    : TrendDB * TrendCounts :=
  match requested with
  | [] => (db, c)
  | symbol :: requested =>
      if negb (bool_decide (symbol ∈ SUPPORTED_SYMBOLS)) then run_pass db config now requested (count_skipped c symbol)
      else
        match _evaluate_symbol db symbol config now with
        | Err e => run_pass db config now requested (count_failed c symbol e)
        | Ok (db, o) => run_pass db config now requested (count_evaluated c symbol o)
        end
  end.

Definition trend_requested (symbols : option (list string)) : list string :=
  match symbols with None | Some [] => SUPPORTED_SYMBOLS | Some symbols => symbols end.

Definition run_trend_alignment (db : TrendDB) (s : TrendSettings) (symbols : option (list string))
    (now : option datetime) : TrendDB * result pyerr TrendCounts :=
  if negb (ts_enabled s) then
    (db, Ok {| tc_enabled := false; tc_symbols := ∅; tc_evaluated := 0; tc_skipped := 0; tc_failed := 0;
               tc_events := 0; tc_alerts := 0; tc_performance_windows := 0; tc_errors := [] |})
  else
    match trend_config s with
    | Err e => (db, Err e)
    | Ok config =>
        let now := match now with Some dt => to_utc dt | None => clock JobStarted end in
        let '(db, c) := run_pass db config now (trend_requested symbols) initial_counts in
        (db, Ok c)
    end.
End Job.

(** ** The candles are the buckets of the accepted prices *)
Lemma strictly_ascending_keys {A} (key : A → Z) l :
  strictly_ascending id (key <$> l) → strictly_ascending key l.
Proof.
  unfold strictly_ascending. induction l as [|x l IH]; [by constructor|]. simpl.
  intros [Hl Hx]%StronglySorted_inv. constructor; [by apply IH|]. by rewrite Forall_fmap in Hx.
Qed.

Lemma unit_seconds_pos u : 0 < unit_seconds u.
Proof. by destruct u. Qed.

Lemma bucket_expr_floor u t : _bucket_expr u t = floor_bucket (unit_seconds u) t.
Proof.
  symmetry. unfold _bucket_expr. set (w := unit_seconds u * us_second).
  assert (0 < w) by (pose proof (unit_seconds_pos u); unfold w, us_second; lia).
  pose proof (Z.mod_pos_bound t w ltac:(lia)).
  apply floor_bucket_unique; [apply unit_seconds_pos|unfold w in *; lia|].
  fold w. replace (t - t mod w - EPOCH) with ((t / w - EPOCH / w) * w - EPOCH mod w)
    by (rewrite (Z.mod_eq t w), (Z.mod_eq EPOCH w) by lia; ring).
  assert (EPOCH mod w = 0) as -> by (by destruct u).
  rewrite Z.sub_0_r. apply Z.mod_mul. lia.
Qed.

Lemma newest_suffix limit bs : ∃ old, bs = old ++ newest_buckets limit bs
  ∧ (old = [] ∨ length (newest_buckets limit bs) = Z.to_nat limit).
Proof.
  unfold newest_buckets. exists (take (length bs - Z.to_nat limit) bs). split; [by rewrite take_drop|].
  destruct (decide (length bs ≤ Z.to_nat limit)%nat).
  - left. replace (length bs - Z.to_nat limit)%nat with 0%nat by lia. done.
  - right. rewrite length_drop. lia.
Qed.

Section CandleSpec.
Context `{NF : !NumericFloat} `{NO : !NumericOrder}.

Lemma buckets_of_spec u ticks :
  strictly_ascending id (buckets_of u ticks)
  ∧ ∀ b, b ∈ buckets_of u ticks ↔ ∃ r, r ∈ ticks ∧ _bucket_expr u (pr_observed_at r) = b.
Proof.
  unfold buckets_of. split.
  - apply ascending_strict; [apply sort_by_ascending|]. rewrite list_fmap_id.
    unfold sort_by. rewrite (py_sorted_perm _ _). apply NoDup_remove_dups.
  - intros b. unfold sort_by. rewrite (elem_of_Permutation_proper _ _ _ (py_sorted_perm _ _)).
    rewrite elem_of_remove_dups, list_elem_of_fmap. naive_solver.
Qed.

(** The ticks of one bucket, in the order of the two window functions. *)
Definition group_of (u : candle_unit) (ticks : list PriceRow) (b : instant) : list PriceRow :=
  sort_by pr_observed_at (List.filter (λ r, _bucket_expr u (pr_observed_at r) =? b) ticks).

Lemma group_of_elem u ticks b r : r ∈ group_of u ticks b ↔ r ∈ ticks ∧ _bucket_expr u (pr_observed_at r) = b.
Proof.
  unfold group_of, sort_by. rewrite (elem_of_Permutation_proper _ _ _ (py_sorted_perm _ _)), elem_of_bool_filter.
  by rewrite Z.eqb_eq.
Qed.

Lemma candle_of_group u ticks b :
  match group_of u ticks b with
  | [] => candle_of u ticks b = None
  | first :: rest =>
      candle_of u ticks b =
        Some {| c_start := b; c_open := pr_value first; c_high := foldl sql_max (pr_value first) (pr_value <$> rest);
                c_low := foldl sql_min (pr_value first) (pr_value <$> rest);
                c_close := pr_value (List.last rest first) |}
  end.
Proof. unfold candle_of, group_of. by destruct (sort_by _ _). Qed.

Lemma candle_of_start u ticks b c : candle_of u ticks b = Some c → c_start c = b.
Proof. unfold candle_of. destruct (sort_by _ _); [done|]. by intros [= <-]. Qed.

(** Every bucket of the list gives its candle. *)
Lemma omap_candles u ticks bs :
  bs ⊆ buckets_of u ticks → c_start <$> omap (candle_of u ticks) bs = bs.
Proof.
  intros Hsub. induction bs as [|b bs IH]; [done|].
  destruct (proj1 (proj2 (buckets_of_spec u ticks) b) (Hsub b (list_elem_of_here _ _))) as (r&Hr&Hb).
  pose proof (candle_of_group u ticks b) as Hc.
  assert (r ∈ group_of u ticks b) as Hin by (by apply group_of_elem).
  destruct (group_of u ticks b) as [|f rest]; [by apply elem_of_nil in Hin|].
  cbn [omap list_omap]. rewrite Hc. cbn. f_equal. apply IH. intros x Hx. apply Hsub. by right.
Qed.

Lemma foldl_choice (f : float → float → float) x l :
  (∀ a b, f a b = a ∨ f a b = b) → foldl f x l ∈ x :: l.
Proof.
  intros Hf. revert x. induction l as [|y l IH]; intros x; [left|]. simpl.
  pose proof (IH (f x y)) as H. rewrite elem_of_cons in H. rewrite !elem_of_cons.
  destruct (Hf x y) as [Heq|Heq]; rewrite Heq in *; naive_solver.
Qed.
End CandleSpec.

(** The order of a NUMERIC column is total. *)
Class NumericTotal `{NF : !NumericFloat} `{NO : !NumericOrder} : Prop := {
  num_le_total x y : num_le x y = true ∨ num_le y x = true;
  num_le_trans x y z : num_le x y = true → num_le y z = true → num_le x z = true;
}.

Lemma foldl_sql_max `{NF : !NumericFloat} `{NO : !NumericOrder} `{NT : !NumericTotal} x l y :
  y ∈ x :: l → num_le y (foldl sql_max x l) = true.
Proof.
  revert x y. induction l as [|z l IH]; intros x y.
  - intros ->%list_elem_of_singleton. by destruct (num_le_total x x).
  - simpl. rewrite !elem_of_cons.
    assert (num_le x (sql_max x z) = true ∧ num_le z (sql_max x z) = true) as [Hx Hz].
    { unfold sql_max. destruct (num_le x z) eqn:E; split; auto.
      - by destruct (num_le_total z z).
      - by destruct (num_le_total x x).
      - destruct (num_le_total x z); congruence. }
    intros [->|[->|Hy]].
    + eapply num_le_trans; [exact Hx|]. apply IH. left.
    + eapply num_le_trans; [exact Hz|]. apply IH. left.
    + apply IH. by right.
Qed.

Lemma foldl_sql_min `{NF : !NumericFloat} `{NO : !NumericOrder} `{NT : !NumericTotal} x l y :
  y ∈ x :: l → num_le (foldl sql_min x l) y = true.
Proof.
  revert x y. induction l as [|z l IH]; intros x y.
  - intros ->%list_elem_of_singleton. by destruct (num_le_total x x).
  - simpl. rewrite !elem_of_cons.
    assert (num_le (sql_min x z) x = true ∧ num_le (sql_min x z) z = true) as [Hx Hz].
    { unfold sql_min. destruct (num_le x z) eqn:E; split; auto.
      - by destruct (num_le_total x x).
      - destruct (num_le_total x z); congruence.
      - by destruct (num_le_total z z). }
    intros [->|[->|Hy]].
    + eapply num_le_trans; [|exact Hx]. apply IH. left.
    + eapply num_le_trans; [|exact Hz]. apply IH. left.
    + apply IH. by right.
Qed.

Lemma ticks_of_elem prices symbol since now r :
  r ∈ ticks_of prices symbol since now ↔
  r ∈ prices ∧ pr_symbol r = symbol ∧ pr_quality r = "ok" ∧ since ≤ pr_observed_at r ≤ now.
Proof.
  unfold ticks_of. rewrite elem_of_bool_filter, !andb_true_iff, !String.eqb_eq, !Z.leb_le. tauto.
Qed.

(** The candles of a symbol are the buckets of its accepted observations, and nothing
    else.  They are at most [limit], oldest first, one per bucket; a bucket that has a tick
    is left out only when there are [limit] newer ones.  A candle opens and closes with the
    first and the last of its ticks, in the order of observation, and its high and its low
    are ticks that bound all of them; each tick is accepted, of this symbol, and not after
    [now]. *)
Theorem load_candles_spec `{NF : !NumericFloat} `{NO : !NumericOrder} `{NT : !NumericTotal} prices symbol u limit now cs :
  _load_candles prices symbol u limit now = Ok cs → 0 ≤ limit →
  ∃ since, scan_since u limit now = Ok since ∧
  let accepted r := r ∈ prices ∧ pr_symbol r = symbol ∧ pr_quality r = "ok" ∧ since ≤ pr_observed_at r ≤ now in
  strictly_ascending c_start cs ∧ len cs ≤ limit
  ∧ (∀ r, accepted r →
       (∃ c, c ∈ cs ∧ c_start c = floor_bucket (unit_seconds u) (pr_observed_at r))
       ∨ len cs = limit ∧ ∀ c, c ∈ cs → floor_bucket (unit_seconds u) (pr_observed_at r) < c_start c)
  ∧ ∀ c, c ∈ cs → ∃ ticks first final,
      (∀ r, r ∈ ticks ↔ accepted r ∧ floor_bucket (unit_seconds u) (pr_observed_at r) = c_start c)
      ∧ List.head ticks = Some first ∧ last ticks = Some final
      ∧ ascending pr_observed_at ticks
      ∧ c_open c = pr_value first ∧ c_close c = pr_value final
      ∧ c_high c ∈ pr_value <$> ticks ∧ c_low c ∈ pr_value <$> ticks
      ∧ ∀ r, r ∈ ticks → num_le (pr_value r) (c_high c) = true ∧ num_le (c_low c) (pr_value r) = true.
Proof.
  intros (since&Hs&[= <-])%bind_Ok Hlim. exists since. split; [done|].
  set (ticks := ticks_of prices symbol since now). intros accepted.
  assert (∀ r, r ∈ ticks ↔ accepted r) as Hacc by (intros r; apply ticks_of_elem).
  destruct (buckets_of_spec u ticks) as [Hasc Hin].
  destruct (newest_suffix limit (buckets_of u ticks)) as (old&Hsplit&Hold).
  set (bs := newest_buckets limit (buckets_of u ticks)) in *.
  assert (bs ⊆ buckets_of u ticks) as Hsub by (rewrite Hsplit; intros x Hx; apply elem_of_app; by right).
  pose proof (omap_candles u ticks bs Hsub) as Hstarts. set (cs := omap (candle_of u ticks) bs) in *.
  assert (len cs = Z.of_nat (length bs)) as Hlen by (rewrite <-Hstarts, length_fmap; done).
  rewrite Hsplit in Hasc. pose proof (StronglySorted_app_inv _ _ _ Hasc) as Hlt.
  apply StronglySorted_app_1_r in Hasc.
  split_and!.
  - rewrite <-Hstarts in Hasc. by apply strictly_ascending_keys.
  - rewrite Hlen. unfold bs, newest_buckets. rewrite length_drop. lia.
  - intros r Hr. rewrite <-bucket_expr_floor.
    assert (_bucket_expr u (pr_observed_at r) ∈ buckets_of u ticks) as Hb by (apply Hin; exists r; by rewrite Hacc).
    rewrite Hsplit, elem_of_app in Hb. destruct Hb as [Hb|Hb].
    + right. destruct Hold as [->|Hold]; [by apply elem_of_nil in Hb|]. split; [rewrite Hlen; lia|].
      intros c Hc. apply (Hlt _ (c_start c) Hb). rewrite <-Hstarts. by apply list_elem_of_fmap_2.
    + left. rewrite <-Hstarts in Hb. apply list_elem_of_fmap in Hb as (c&?&?). by exists c.
  - intros c (b&Hb&Hc)%list_elem_of_omap. pose proof (candle_of_start _ _ _ _ Hc) as ->.
    pose proof (candle_of_group u ticks b) as Hg. pose proof (sort_by_ascending pr_observed_at
      (List.filter (λ r, _bucket_expr u (pr_observed_at r) =? b) ticks)) as Hord.
    fold (group_of u ticks b) in Hord. destruct (group_of u ticks b) as [|first rest] eqn:Eg; [congruence|].
    rewrite Hg in Hc. injection Hc as <-. exists (first :: rest), first, (List.last rest first).
    split_and!; try done.
    + intros r. rewrite <-Eg, group_of_elem, Hacc, bucket_expr_floor. done.
    + clear. revert first. induction rest as [|x rest IH] using rev_ind; intros first; [done|].
      rewrite app_comm_cons, last_snoc, List.last_last. done.
    + simpl. apply foldl_choice. intros a a'. unfold sql_max. destruct (num_le _ _); auto.
    + simpl. apply foldl_choice. intros a a'. unfold sql_min. destruct (num_le _ _); auto.
    + intros r Hr. simpl. split; [apply foldl_sql_max|apply foldl_sql_min]; by apply (list_elem_of_fmap_2 pr_value (first :: rest)).
Qed.

(** ** The tables are well-formed *)
Record trend_ok (db : TrendDB) : Prop := {
  ok_event_ids : strictly_ascending ev_id (td_events db) ∧ ∀ e, e ∈ td_events db → ev_id e < td_next_event db;
  ok_event_keys : NoDup (ev_key <$> td_events db);
  ok_entries : ∀ e, e ∈ td_events db →
    is_full (k_alignment (ev_key e)) = true ∧ ev_previous_alignment e ≠ Some (k_alignment (ev_key e));
  ok_alert_ids : strictly_ascending ae_id (td_alert_events db)
    ∧ ∀ a, a ∈ td_alert_events db → ae_id a < td_next_alert_event db;
  ok_links : ∀ e i, e ∈ td_events db → ev_alert_event_id e = Some i → i ∈ ae_id <$> td_alert_events db;
  ok_states : ∀ symbol row, td_states db !! symbol = Some row →
    1 ≤ st_state_version row ∧ st_previous_alignment row ≠ Some (st_alignment row)
    ∧ (is_full (st_alignment row) = true →
       ∃ e, e ∈ td_events db ∧ k_symbol (ev_key e) = symbol ∧ k_alignment (ev_key e) = st_alignment row);
}.

Lemma strictly_ascending_snoc {A} (key : A → Z) l x :
  strictly_ascending key l → (∀ y, y ∈ l → key y < key x) → strictly_ascending key (l ++ [x]).
Proof.
  intros Hl Hx. apply StronglySorted_snoc; [done|]. by apply Forall_forall.
Qed.

Lemma strictly_ascending_image {A} (key : A → Z) (f : A → A) l :
  (∀ x, key (f x) = key x) → strictly_ascending key l → strictly_ascending key (f <$> l).
Proof.
  intros Hf. unfold strictly_ascending. induction l as [|x l IH]; [by constructor|].
  intros [Hl Hx]%StronglySorted_inv. simpl. constructor; [by apply IH|].
  rewrite Forall_fmap. eapply Forall_impl; [exact Hx|]. intros y. simpl. by rewrite !Hf.
Qed.

Lemma link_alert_fields eid aid e :
  ev_id (link_alert eid aid e) = ev_id e ∧ ev_key (link_alert eid aid e) = ev_key e
  ∧ ev_previous_alignment (link_alert eid aid e) = ev_previous_alignment e.
Proof. unfold link_alert. by destruct (_ =? _). Qed.

Lemma evaluate_symbol sym h d now cfg r :
  evaluate sym h d now cfg = Ok r → al_symbol r = sym ∧ calculated_at r = now.
Proof.
  unfold evaluate. intros ([]&_&H)%bind_Ok. apply bind_Ok in H as (four&_&H). apply bind_Ok in H as (d'&_&H).
  apply bind_Ok in H as (f&_&H). apply bind_Ok in H as (h'&_&H). by injection H as <-.
Qed.

(** A full alignment has its three closed candles. *)
Lemma full_has_key sym h d now cfg r :
  evaluate sym h d now (Some cfg) = Ok r → is_full (al_alignment r) = true →
  ∃ k, event_key r (λ tf, candle_close_time (timeframes r tf)) = Some k
       ∧ k_symbol k = sym ∧ k_alignment k = al_alignment r.
Proof.
  intros He Hfull. pose proof (proj1 (evaluate_symbol _ _ _ _ _ _ He)) as Hsym.
  apply evaluate_inv in He as (_&Hal&_&four&_&Htf).
  destruct (alignment_full (r_trend (r_1d r)) (r_trend (r_4h r)) (r_trend (r_1h r))) as [Hbu Hbe].
  rewrite <-Hal in Hbu, Hbe.
  assert (∀ tf, r_trend (timeframes r tf) ≠ unavailable) as Hav.
  { destruct (al_alignment r); [destruct (proj1 Hbu eq_refl) as (?&?&?)|destruct (proj1 Hbe eq_refl) as (?&?&?)|done];
      intros []; simpl; congruence. }
  assert (∀ tf, ∃ t, candle_close_time (timeframes r tf) = Some t) as Hclose.
  { intros tf. destruct (evaluate_timeframe_inv _ _ _ _ _ (Htf tf)) as [_ [[Hu _]|(c&_&_&_&_&_&Hc&_)]];
      [by destruct (Hav tf)|by eexists]. }
  destruct (Hclose tf_1d) as [td Hd], (Hclose tf_4h) as [tf Hf], (Hclose tf_1h) as [th Hh].
  eexists. unfold event_key. rewrite Hd, Hf, Hh. split; [reflexivity|]. by rewrite <-Hsym.
Qed.

Section Transaction.
Context `{I : Interpreter} `{TF : TextFormats} `{JC : !JsonColumn}.
Context (fails : string → trend_statement → bool) (clock : job_moment → instant).

(** *** Alerts *)
Definition alert_rows (message : string) (payload : list (string * json)) (now : instant) (next : Z)
    (subscribers : list (Z * string)) : list AlertEvent :=
  imap (λ i s, {| ae_id := next + Z.of_nat i; ae_alert_id := s.1; ae_user_id := s.2; ae_triggered_at := now;
                  ae_message := message; ae_payload := payload |}) subscribers.

Definition touch_all (now : instant) (subscribers : list (Z * string)) (alerts : list Alert) : list Alert :=
  foldl (λ alerts s, touch s.1 now <$> alerts) alerts subscribers.

Lemma alert_rows_cons message payload now next s subs :
  alert_rows message payload now next (s :: subs) =
    {| ae_id := next; ae_alert_id := s.1; ae_user_id := s.2; ae_triggered_at := now; ae_message := message;
       ae_payload := payload |} :: alert_rows message payload now (next + 1) subs.
Proof.
  unfold alert_rows. cbn [imap]. f_equal; [f_equal; lia|]. apply imap_ext. intros i x _. simpl. f_equal. lia.
Qed.

Lemma with_alerts_same db : with_alerts (td_alerts db) (td_alert_events db) 0 db = db.
Proof. unfold with_alerts. rewrite Z.add_0_r. by destruct db. Qed.

Lemma notify_Ok db sym message payload now subs first db' id :
  notify fails db sym message payload now subs first = Ok (db', id) →
  db' = with_alerts (touch_all now subs (td_alerts db))
          (td_alert_events db ++ alert_rows message payload now (td_next_alert_event db) subs) (len subs) db
  ∧ id = match first, subs with Some i, _ => Some i | None, [] => None | None, _ => Some (td_next_alert_event db) end.
Proof.
  revert db first. induction subs as [|[a us] subs IH]; intros db first; cbn [notify].
  { intros [= <- <-]. rewrite app_nil_r. split; [exact (eq_sym (with_alerts_same db))|by destruct first]. }
  intros ([]&_&H)%bind_Ok. apply bind_Ok in H as ([]&_&H). cbv zeta in H. apply bind_Ok in H as ([]&_&H).
  apply IH in H as [-> ->]. rewrite alert_rows_cons. split.
  - unfold with_alerts, len. simpl. rewrite <-!app_assoc. f_equal. lia.
  - by destruct first.
Qed.

Lemma alert_rows_ids message payload now next subs :
  strictly_ascending ae_id (alert_rows message payload now next subs)
  ∧ ∀ a, a ∈ alert_rows message payload now next subs → next ≤ ae_id a < next + len subs.
Proof.
  revert next. induction subs as [|s subs IH]; intros next; [split; [constructor|by intros a ?%elem_of_nil]|].
  rewrite alert_rows_cons. destruct (IH (next + 1)) as [Hasc Hin]. unfold len in *. simpl length. split.
  - constructor; [done|]. apply Forall_forall. intros a Ha. specialize (Hin a Ha). simpl. lia.
  - intros a [->|Ha]%elem_of_cons; [simpl; lia|]. specialize (Hin a Ha). lia.
Qed.

(** What the savepoint leaves behind. *)
Lemma alert_entry_Ok db r cfg eid now db' aid :
  alert_entry fails db r cfg eid now = Ok (db', aid) →
  match aid with
  | None => db' = db
  | Some id =>
      id = td_next_alert_event db ∧ subscribers_of (td_alerts db) ≠ []
      ∧ let subs := subscribers_of (td_alerts db) in
        db' = with_events (fmap (link_alert eid id)) 0
                (with_alerts (touch_all now subs (td_alerts db))
                   (td_alert_events db ++ alert_rows (alert_message r cfg) (alert_payload r cfg eid) now
                                            (td_next_alert_event db) subs) (len subs) db)
  end.
Proof.
  unfold alert_entry. destruct (_write_alert_events fails db r cfg eid now) as [[db1 [id|]]|e] eqn:Hw.
  - intros ([]&_&[= <- <-])%bind_Ok. unfold _write_alert_events in Hw. apply bind_Ok in Hw as ([]&_&Hw).
    destruct (subscribers_of (td_alerts db)) as [|s subs] eqn:Es; [done|].
    apply notify_Ok in Hw as [-> [= ->]]. done.
  - intros [= <- <-]. unfold _write_alert_events in Hw. apply bind_Ok in Hw as ([]&_&Hw).
    destruct (subscribers_of (td_alerts db)) as [|s subs] eqn:Es; [by injection Hw as <-|].
    apply notify_Ok in Hw as [_ [=]].
  - by intros [= <- <-].
Qed.

(** *** The state *)
Definition moved (stored : option StateRow) (r : AlignmentResult) : bool :=
  match stored with None => true | Some s => negb (bool_decide (st_alignment s = al_alignment r)) end.

(** The row that follows [stored]. *)
Record follows (stored : option StateRow) (r : AlignmentResult) (alert : option instant) (row : StateRow) : Prop := {
  fo_alignment : st_alignment row = al_alignment r;
  fo_fresh : st_data_fresh row = al_data_fresh r;
  fo_calculated : st_calculated_at row = calculated_at r;
  fo_timeframes : st_timeframes row = timeframes_doc r;
  fo_previous : st_previous_alignment row =
    if moved stored r then st_alignment <$> stored else stored ≫= st_previous_alignment;
  fo_version : st_state_version row =
    Z.max 1 (default 0 (st_state_version <$> stored) + (if moved stored r then 1 else 0));
  fo_bullish : st_last_bullish_alert_at row =
    match alert with
    | Some t => if decide (al_alignment r = full_bullish) then Some t else stored ≫= st_last_bullish_alert_at
    | None => stored ≫= st_last_bullish_alert_at
    end;
  fo_bearish : st_last_bearish_alert_at row =
    match alert with
    | Some t => if decide (al_alignment r = full_bullish) then stored ≫= st_last_bearish_alert_at else Some t
    | None => stored ≫= st_last_bearish_alert_at
    end;
}.

Lemma upsert_state_Ok db r cfg stored identity alert db' :
  _upsert_state fails clock db r cfg stored identity alert = Ok db' →
  ∃ row, db' = with_states <[al_symbol r := row]> db ∧ follows stored r alert row.
Proof.
  unfold _upsert_state. intros ([]&_&H)%bind_Ok. apply bind_Ok in H as ([]&_&[= <-]).
  eexists. split; [reflexivity|]. split; try reflexivity; cbn.
  - unfold moved. destruct stored as [s|]; [|done]. simpl. by destruct (negb _).
  - by destruct stored.
  - destruct alert; [|done]. by destruct (al_alignment r).
  - destruct alert; [|done]. by destruct (al_alignment r).
Qed.

Lemma insert_event_Ok db r cfg previous k db' eid :
  _insert_event fails db r cfg previous k = Ok (db', eid) →
  match eid with
  | None => db' = db ∧ k ∈ ev_key <$> td_events db
  | Some id =>
      id = td_next_event db ∧ k ∉ ev_key <$> td_events db
      ∧ db' = with_events (λ t, t ++ [{| ev_id := id; ev_key := k; ev_previous_alignment := previous;
                ev_occurred_at := calculated_at r; ev_timeframes := timeframes_doc r; ev_ma_type := ma_type cfg;
                ev_alert_event_id := None |}]) 1 db
  end.
Proof.
  unfold _insert_event. intros ([]&_&H)%bind_Ok. apply bind_Ok in H as ([]&_&H). case_bool_decide; by injection H as <- <-.
Qed.
End Transaction.

(** ** The transaction of a symbol *)
Definition identity_of (r : AlignmentResult) (tf : timeframe) : option instant := candle_close_time (timeframes r tf).

Section Recorded.
Context `{I : Interpreter} `{TF : TextFormats} `{JC : !JsonColumn}.
Context (fails : string → trend_statement → bool) (clock : job_moment → instant).

Definition entry_row (r : AlignmentResult) (cfg : TrendConfig) (previous : option Alignment) (k : EventKey) (id : Z)
    (alert : option Z) : EventRow :=
  {| ev_id := id; ev_key := k; ev_previous_alignment := previous; ev_occurred_at := calculated_at r;
     ev_timeframes := timeframes_doc r; ev_ma_type := ma_type cfg; ev_alert_event_id := alert |}.

(** The event log after a transaction. *)
Definition log_after (db db' : TrendDB) (r : AlignmentResult) (cfg : TrendConfig) (eid aid : option Z) : Prop :=
  let previous := st_alignment <$> td_states db !! al_symbol r in
  match eid with
  | Some id =>
      ∃ k, event_key r (identity_of r) = Some k ∧ is_full (al_alignment r) = true
        ∧ previous ≠ Some (al_alignment r) ∧ k ∉ ev_key <$> td_events db ∧ id = td_next_event db
        ∧ td_events db' = td_events db ++ [entry_row r cfg previous k id aid] ∧ td_next_event db' = id + 1
  | None =>
      aid = None ∧ td_events db' = td_events db ∧ td_next_event db' = td_next_event db
      ∧ (is_full (al_alignment r) = true → previous ≠ Some (al_alignment r) →
         ∀ k, event_key r (identity_of r) = Some k → k ∈ ev_key <$> td_events db)
  end.

(** The alerts after a transaction. *)
Definition alerts_after (db db' : TrendDB) (r : AlignmentResult) (cfg : TrendConfig) (now : instant) (eid aid : option Z)
    : Prop :=
  match aid with
  | Some i =>
      let subs := subscribers_of (td_alerts db) in
      ∃ id, eid = Some id ∧ i = td_next_alert_event db ∧ subs ≠ []
        ∧ td_alerts db' = touch_all now subs (td_alerts db)
        ∧ td_alert_events db' =
            td_alert_events db ++ alert_rows (alert_message r cfg) (alert_payload r cfg id) now i subs
        ∧ td_next_alert_event db' = i + len subs
  | None =>
      td_alerts db' = td_alerts db ∧ td_alert_events db' = td_alert_events db
      ∧ td_next_alert_event db' = td_next_alert_event db
  end.

Record recorded (db db' : TrendDB) (r : AlignmentResult) (cfg : TrendConfig) (now : instant)
    (eid aid : option Z) : Prop := {
  rc_prices : td_prices db' = td_prices db;
  rc_performance : td_performance db' = td_performance db;
  rc_state : ∃ row, td_states db' = <[al_symbol r := row]> (td_states db)
    ∧ follows (td_states db !! al_symbol r) r ((λ _, now) <$> aid) row;
  rc_log : log_after db db' r cfg eid aid;
  rc_alerts : alerts_after db db' r cfg now eid aid;
}.

Lemma link_new db r cfg previous k id i :
  (∀ e, e ∈ td_events db → ev_id e < id) →
  link_alert id i <$> (td_events db ++ [entry_row r cfg previous k id None])
  = td_events db ++ [entry_row r cfg previous k id (Some i)].
Proof.
  intros Hlt. rewrite fmap_app. f_equal.
  - induction (td_events db) as [|e l IH]; [done|]. simpl. f_equal; [|apply IH; intros e' He'; apply Hlt; by right].
    specialize (Hlt e (list_elem_of_here _ _)). unfold link_alert. by rewrite (proj2 (Z.eqb_neq _ _)) by lia.
  - simpl. unfold link_alert. simpl. by rewrite Z.eqb_refl.
Qed.

Lemma record_evaluation_Ok db r cfg now db' previous eid aid :
  trend_ok db → record_evaluation fails clock db r cfg now = Ok (db', (previous, eid, aid)) →
  previous = st_alignment <$> td_states db !! al_symbol r ∧ recorded db db' r cfg now eid aid.
Proof.
  intros Hok H. unfold record_evaluation in H. apply bind_Ok in H as ([]&_&H). cbv zeta in H.
  fold (identity_of r) in H. set (stored := td_states db !! al_symbol r) in *.
  apply bind_Ok in H as ([db1 eid']&He&H). apply bind_Ok in H as ([db2 aid']&Ha&H).
  apply bind_Ok in H as (db3&Hu&H). apply Ok_inj in H. simplify_eq. split; [done|].
  apply upsert_state_Ok in Hu as (row&->&Hrow).
  assert (match eid with
    | None => db1 = db ∧ (is_full (al_alignment r) = true → st_alignment <$> stored ≠ Some (al_alignment r) →
         ∀ k, event_key r (identity_of r) = Some k → k ∈ ev_key <$> td_events db)
    | Some id => ∃ k, event_key r (identity_of r) = Some k ∧ is_full (al_alignment r) = true
        ∧ st_alignment <$> stored ≠ Some (al_alignment r) ∧ k ∉ ev_key <$> td_events db ∧ id = td_next_event db
        ∧ db1 = with_events (λ t, t ++ [entry_row r cfg (st_alignment <$> stored) k id None]) 1 db
    end) as Hevent.
  { destruct (is_full (al_alignment r)) eqn:Hf; simpl in He; [|by simplify_eq].
    case_bool_decide as Hp; simpl in He; [by simplify_eq|].
    destruct (event_key r (identity_of r)) as [k|] eqn:Hk; [|by simplify_eq].
    apply insert_event_Ok in He. destruct eid as [id|].
    - destruct He as (->&Hni&->). exists k. by split_and!.
    - destruct He as [-> Hin]. split; [done|]. intros _ _ k' [= <-]. done. }
  clear He. destruct eid as [id|].
  2: { destruct Hevent as [-> Hdup]. apply Ok_inj in Ha. simplify_eq. split; try done. by exists row. }
  destruct Hevent as (k&Hk&Hf&Hp&Hni&->&->). pose proof (alert_entry_Ok _ _ _ _ _ _ _ _ Ha) as He.
  destruct aid as [i|].
  - destruct He as (->&Hsubs&->). split; try done.
    + by exists row.
    + exists k. split_and!; [done..|simpl; apply link_new, (ok_event_ids _ Hok)|simpl; lia].
    + exists (td_next_event db). by split_and!.
  - subst db2. split; try done; [by exists row|]. exists k. by split_and!.
Qed.

(** *** The invariant *)
Definition keyed (r : AlignmentResult) : Prop :=
  is_full (al_alignment r) = true →
  ∃ k, event_key r (identity_of r) = Some k ∧ k_symbol k = al_symbol r ∧ k_alignment k = al_alignment r.

Lemma recorded_alerts db db' r cfg now eid aid :
  trend_ok db → recorded db db' r cfg now eid aid →
  strictly_ascending ae_id (td_alert_events db')
  ∧ (∀ a, a ∈ td_alert_events db' → ae_id a < td_next_alert_event db')
  ∧ (∀ i, i ∈ ae_id <$> td_alert_events db ∨ aid = Some i → i ∈ ae_id <$> td_alert_events db').
Proof.
  intros [_ _ _ [Haids Hanext] _ _] [_ _ _ _ Hal]. unfold alerts_after in Hal. destruct aid as [i|].
  2: { destruct Hal as (_&->&->). split_and!; [done..|]. by intros i [?|[=]]. }
  destruct Hal as (id&_&->&Hsubs&_&->&->).
  destruct (alert_rows_ids (alert_message r cfg) (alert_payload r cfg id) now (td_next_alert_event db)
    (subscribers_of (td_alerts db))) as [Hra Hri]. split_and!.
  - apply StronglySorted_app_2; [|done|done]. intros x y Hx Hy. specialize (Hanext x Hx). specialize (Hri y Hy). lia.
  - intros a [Ha|Ha]%elem_of_app; [specialize (Hanext a Ha); unfold len; lia|]. specialize (Hri a Ha). lia.
  - intros i Hi. rewrite fmap_app. apply elem_of_app. destruct Hi as [Hi|[= <-]]; [by left|right].
    destruct (subscribers_of (td_alerts db)) as [|s subs]; [done|]. rewrite alert_rows_cons. left.
Qed.

Lemma recorded_events db db' r cfg now eid aid :
  trend_ok db → keyed r → recorded db db' r cfg now eid aid →
  (strictly_ascending ev_id (td_events db') ∧ ∀ e, e ∈ td_events db' → ev_id e < td_next_event db')
  ∧ NoDup (ev_key <$> td_events db')
  ∧ (∀ e, e ∈ td_events db' → is_full (k_alignment (ev_key e)) = true
          ∧ ev_previous_alignment e ≠ Some (k_alignment (ev_key e)))
  ∧ (∀ e, e ∈ td_events db' → e ∈ td_events db ∨ ev_alert_event_id e = aid)
  ∧ (∀ e, e ∈ td_events db → e ∈ td_events db')
  ∧ (is_full (al_alignment r) = true → st_alignment <$> td_states db !! al_symbol r ≠ Some (al_alignment r) →
     ∃ e, e ∈ td_events db' ∧ k_symbol (ev_key e) = al_symbol r ∧ k_alignment (ev_key e) = al_alignment r).
Proof.
  intros [[Hids Hnext] Hkeys Hent _ _ _] Hkey [_ _ _ Hlog _]. unfold log_after in Hlog. destruct eid as [id|].
  - destruct Hlog as (k&Hk&Hf&Hp&Hni&->&->&->). destruct (Hkey Hf) as (k'&Hk'&Hs&Hka).
    rewrite Hk in Hk'. injection Hk' as <-. split_and!.
    + by apply strictly_ascending_snoc.
    + intros e [He| ->%list_elem_of_singleton]%elem_of_app; [specialize (Hnext e He); lia|simpl; lia].
    + rewrite fmap_app. apply NoDup_app. split_and!; [done| |apply NoDup_singleton].
      intros x Hx ->%list_elem_of_singleton. done.
    + intros e [He| ->%list_elem_of_singleton]%elem_of_app; [by apply Hent|]. simpl. by rewrite Hka.
    + intros e [He| ->%list_elem_of_singleton]%elem_of_app; [by left|by right].
    + intros e He. apply elem_of_app. by left.
    + intros _ _. eexists. split; [apply elem_of_app; right; left|done].
  - destruct Hlog as (->&->&->&Hdup). split_and!; try done; [by left|].
    intros Hf Hp. destruct (Hkey Hf) as (k&Hk&Hs&Hka). specialize (Hdup Hf Hp k Hk).
    apply list_elem_of_fmap in Hdup as (e&->&He). by exists e.
Qed.

Lemma recorded_ok db db' r cfg now eid aid :
  trend_ok db → keyed r → recorded db db' r cfg now eid aid → trend_ok db'.
Proof.
  intros Hok Hkey Hrec. destruct (recorded_alerts _ _ _ _ _ _ _ Hok Hrec) as (Hasc&Hlt&Hkeep).
  destruct (recorded_events _ _ _ _ _ _ _ Hok Hkey Hrec) as (E1&E2&E3&E4&E5&E6).
  destruct Hok as [_ _ _ _ Hlinks Hstates]. destruct Hrec as [_ _ (row&Hst&Hrow) _ _]. split; try done.
  { intros e i He Hi. apply Hkeep. destruct (E4 e He) as [Hold|<-]; [left; by eapply Hlinks|by right]. }
  intros symbol row'. rewrite Hst. destruct (decide (symbol = al_symbol r)) as [->|Hne].
  2: { rewrite lookup_insert_ne by done. intros Hrow'. destruct (Hstates _ _ Hrow') as (?&?&Hev).
       split_and!; [done|done|]. intros Hf. destruct (Hev Hf) as (e&?&?&?). exists e. auto. }
  rewrite lookup_insert_eq. intros [= <-]. destruct Hrow as [Ha _ _ _ Hp Hv _ _]. rewrite Hp, Ha, Hv.
  unfold moved in *. destruct (td_states db !! al_symbol r) as [s|] eqn:Es; simpl in *.
  2: { split_and!; [lia|done|]. intros Hf. by apply E6. }
  destruct (Hstates _ _ Es) as (Hv1&Hp1&Hev). case_bool_decide as Hsame; simpl.
  - split_and!; [lia|by rewrite <-Hsame|]. intros Hf. rewrite <-Hsame in *. destruct (Hev Hf) as (e&?&?&?). exists e. auto.
  - split_and!; [lia|congruence|]. intros Hf. apply E6; [done|congruence].
Qed.
End Recorded.

(** ** One symbol *)
Section Symbol.
Context `{I : Interpreter} `{TF : TextFormats} `{JC : !JsonColumn} `{NF : !NumericFloat} `{NO : !NumericOrder}.
Context (fails : string → trend_statement → bool) (clock : job_moment → instant).

Lemma upsert_performance_Ok db sym rows now db' :
  _upsert_performance fails db sym rows now = Ok db' →
  db' = with_performance (λ t, foldl (λ t p, <[(wp_symbol p, wp_window_days p) := as_row p now]> t) t rows) db.
Proof.
  revert db. induction rows as [|p rows IH]; intros db; cbn [_upsert_performance].
  { intros [= <-]. by destruct db. }
  intros ([]&_&H)%bind_Ok. apply IH in H as ->. by destruct db.
Qed.

Lemma refresh_performance_Ok db sym cfg now db' rows :
  refresh_performance fails db sym cfg now = Ok (db', rows) →
  db' = with_performance (λ t, foldl (λ t p, <[(wp_symbol p, wp_window_days p) := as_row p now]> t) t rows) db
  ∧ ∃ limits hourly daily, _backtest_bucket_limits cfg = Ok limits
    ∧ _load_candles (td_prices db) sym hour limits.1 now = Ok hourly
    ∧ _load_candles (td_prices db) sym day limits.2 now = Ok daily
    ∧ backtest sym hourly daily now (Some cfg) WINDOW_DAYS = Ok rows.
Proof.
  assert (∀ A (x : result pyerr A) y, from_py x = Ok y → x = Ok y) as Hc by (intros A [] y; simpl; congruence).
  unfold refresh_performance, load. intros (limits&Hl&H)%bind_Ok.
  apply bind_Ok in H as (hourly&Hh&H). apply bind_Ok in Hh as ([]&_&Hh).
  apply bind_Ok in H as (daily&Hd&H). apply bind_Ok in Hd as ([]&_&Hd).
  apply bind_Ok in H as (rows'&Hb&H). apply bind_Ok in H as (db1&Hu&H). apply Ok_inj in H. simplify_eq.
  split; [by eapply upsert_performance_Ok|]. exists limits, hourly, daily. auto.
Qed.

Lemma read_and_evaluate_Ok db sym cfg now hourly daily r :
  read_and_evaluate fails db sym cfg now = Ok (hourly, daily, r) →
  evaluate sym hourly daily now (Some cfg) = Ok r
  ∧ ∃ limits, _bucket_limits cfg = Ok limits
    ∧ _load_candles (td_prices db) sym hour limits.1 now = Ok hourly
    ∧ _load_candles (td_prices db) sym day limits.2 now = Ok daily.
Proof.
  assert (∀ A (x : result pyerr A) y, from_py x = Ok y → x = Ok y) as Hc by (intros A [] y; simpl; congruence).
  unfold read_and_evaluate, load. intros (limits&Hl&H)%bind_Ok.
  apply bind_Ok in H as (hourly'&Hh&H). apply bind_Ok in Hh as ([]&_&Hh).
  apply bind_Ok in H as (daily'&Hd&H). apply bind_Ok in Hd as ([]&_&Hd).
  apply bind_Ok in H as (r'&He&H). apply Ok_inj in H. simplify_eq. split; [auto|]. exists limits. auto.
Qed.

(** A pass over a symbol: the transaction, then the track record. *)
Lemma evaluate_symbol_Ok db sym cfg now db' o :
  trend_ok db → _evaluate_symbol fails clock db sym cfg now = Ok (db', o) →
  ∃ hourly daily r db1,
    read_and_evaluate fails db sym cfg now = Ok (hourly, daily, r)
    ∧ recorded db db1 r cfg now (oc_event_id o) (oc_alert_event_id o)
    ∧ al_symbol r = sym ∧ calculated_at r = now
    ∧ oc_alignment o = al_alignment r ∧ oc_previous_alignment o = st_alignment <$> td_states db !! sym
    ∧ match oc_performance_error o with
      | Some e => refresh_performance fails db1 sym cfg now = Err e ∧ oc_performance o = [] ∧ db' = db1
      | None => refresh_performance fails db1 sym cfg now = Ok (db', oc_performance o)
      end.
Proof.
  intros Hok H. unfold _evaluate_symbol in H. apply bind_Ok in H as ([[hourly daily] r]&Hr&H).
  apply bind_Ok in H as ([db1 [[previous eid] aid]]&Hrec&H).
  apply (record_evaluation_Ok _ _ _ _ _ _ _ _ _ _ Hok) in Hrec as [-> Hrec].
  pose proof (evaluate_symbol _ _ _ _ _ _ (proj1 (read_and_evaluate_Ok _ _ _ _ _ _ _ Hr))) as [Hs Hc].
  exists hourly, daily, r, db1. rewrite Hs in *.
  destruct (refresh_performance fails db1 sym cfg now) as [[db2 rows]|e]; apply Ok_inj in H; by simplify_eq.
Qed.

Lemma evaluate_symbol_fresh db sym cfg now db' o :
  _evaluate_symbol fails clock db sym cfg now = Ok (db', o) →
  ∃ hourly daily r, read_and_evaluate fails db sym cfg now = Ok (hourly, daily, r)
    ∧ oc_data_fresh o = al_data_fresh r.
Proof.
  intros H. unfold _evaluate_symbol in H. apply bind_Ok in H as ([[hourly daily] r]&Hr&H).
  apply bind_Ok in H as ([db1 [[previous eid] aid]]&_&H). exists hourly, daily, r. split; [done|].
  by destruct (refresh_performance fails db1 sym cfg now) as [[db2 rows]|e]; apply Ok_inj in H; simplify_eq.
Qed.

(** The tables the track record does not touch. *)
Lemma refresh_touches db sym cfg now db' rows :
  refresh_performance fails db sym cfg now = Ok (db', rows) →
  td_prices db' = td_prices db ∧ td_states db' = td_states db ∧ td_events db' = td_events db
  ∧ td_next_event db' = td_next_event db ∧ td_alerts db' = td_alerts db
  ∧ td_alert_events db' = td_alert_events db ∧ td_next_alert_event db' = td_next_alert_event db.
Proof. by intros [-> _]%refresh_performance_Ok. Qed.

Lemma evaluate_symbol_tables db sym cfg now db' o :
  trend_ok db → _evaluate_symbol fails clock db sym cfg now = Ok (db', o) →
  ∃ hourly daily r db1,
    read_and_evaluate fails db sym cfg now = Ok (hourly, daily, r)
    ∧ recorded db db1 r cfg now (oc_event_id o) (oc_alert_event_id o)
    ∧ al_symbol r = sym ∧ calculated_at r = now ∧ oc_alignment o = al_alignment r
    ∧ td_prices db' = td_prices db1 ∧ td_states db' = td_states db1 ∧ td_events db' = td_events db1
    ∧ td_next_event db' = td_next_event db1 ∧ td_alerts db' = td_alerts db1
    ∧ td_alert_events db' = td_alert_events db1 ∧ td_next_alert_event db' = td_next_alert_event db1.
Proof.
  intros Hok H. destruct (evaluate_symbol_Ok _ _ _ _ _ _ Hok H) as (hourly&daily&r&db1&Hr&Hrec&Hs&Hc&Ha&_&Hp).
  exists hourly, daily, r, db1. split_and!; try done; destruct (oc_performance_error o) as [e|];
    first [by destruct Hp as (_&_&->)|apply refresh_touches in Hp; tauto].
Qed.

Lemma trend_ok_tables db db' :
  td_states db' = td_states db → td_events db' = td_events db → td_next_event db' = td_next_event db →
  td_alert_events db' = td_alert_events db → td_next_alert_event db' = td_next_alert_event db →
  trend_ok db → trend_ok db'.
Proof. intros E1 E2 E3 E4 E5 [H1 H2 H3 H4 H5 H6]. split; rewrite ?E1, ?E2, ?E3, ?E4, ?E5; done. Qed.

Lemma evaluate_symbol_ok db sym cfg now db' o :
  trend_ok db → _evaluate_symbol fails clock db sym cfg now = Ok (db', o) → trend_ok db'.
Proof.
  intros Hok H. destruct (evaluate_symbol_tables _ _ _ _ _ _ Hok H)
    as (hourly&daily&r&db1&Hr&Hrec&Hs&_&_&_&E1&E2&E3&_&E4&E5).
  apply (trend_ok_tables db1 db'); try done. eapply recorded_ok; [exact Hok| |exact Hrec].
  intros Hf. apply read_and_evaluate_Ok in Hr as [He _]. rewrite Hs. by eapply full_has_key.
Qed.

(** The pass leaves well-formed tables. *)
Lemma run_pass_ok db cfg now requested c db' c' :
  trend_ok db → run_pass fails clock db cfg now requested c = (db', c') → trend_ok db'.
Proof.
  revert db c. induction requested as [|sym requested IH]; intros db c Hok; cbn [run_pass]; [by intros [= <- <-]|].
  destruct (negb _); [by apply IH|].
  destruct (_evaluate_symbol fails clock db sym cfg now) as [[db1 o]|e] eqn:He; [|by apply IH].
  apply IH. by eapply evaluate_symbol_ok.
Qed.
End Symbol.

(** ** What the job promises *)
Section Promises.
Context `{I : Interpreter} `{TF : TextFormats} `{JC : !JsonColumn} `{NF : !NumericFloat} `{NO : !NumericOrder}.
Context (clock : job_moment → instant).


(** Being aligned is not news.  When the alignment found is the one already stored, or
    the same three closed candles are already in the event log (a restart, a restored
    backup, a second evaluator), the evaluation writes no event, creates no alert and
    touches no subscription; re-confirmed, the row keeps what the symbol was before, the
    count of its changes and the instants of its last alerts. *)
Theorem reconfirmed_is_silent fails db symbol cfg now db' o :
  trend_ok db → _evaluate_symbol fails clock db symbol cfg now = Ok (db', o) →
  (∀ stored, td_states db !! symbol = Some stored → st_alignment stored = oc_alignment o →
     ∃ row, td_states db' !! symbol = Some row ∧ st_alignment row = st_alignment stored
       ∧ st_previous_alignment row = st_previous_alignment stored
       ∧ st_state_version row = st_state_version stored
       ∧ st_last_bullish_alert_at row = st_last_bullish_alert_at stored
       ∧ st_last_bearish_alert_at row = st_last_bearish_alert_at stored)
  ∧ (st_alignment <$> td_states db !! symbol = Some (oc_alignment o)
     ∨ (∃ hourly daily r k, read_and_evaluate fails db symbol cfg now = Ok (hourly, daily, r)
          ∧ event_key r (identity_of r) = Some k ∧ k ∈ ev_key <$> td_events db) →
     event_created o = false ∧ alerted o = false
     ∧ td_events db' = td_events db ∧ td_alerts db' = td_alerts db ∧ td_alert_events db' = td_alert_events db).
Proof.
  intros Hok H. destruct (evaluate_symbol_tables _ _ _ _ _ _ _ _ Hok H)
    as (hourly&daily&r&db1&Hr&[_ _ (row&Hst&Hrow) Hlog Hal]&Hs&Hc&Ha&_&E1&E2&_&E4&E5&_).
  unfold log_after, alerts_after, event_created, alerted in *. rewrite Hs in *. rewrite Ha in *. split.
  - intros stored Hstored Hsame. exists row. rewrite E1, Hst, lookup_insert_eq. split; [done|].
    assert (oc_alert_event_id o = None) as Hno.
    { destruct (oc_event_id o); [|by destruct Hlog]. destruct Hlog as (k&_&_&Hp&_). rewrite Hstored in Hp.
      by destruct Hp; simpl; f_equal. }
    destruct Hrow as [F1 _ _ _ F2 F3 F4 F5]. rewrite F1, F2, F3, F4, F5, Hno, Hstored. unfold moved.
    rewrite bool_decide_true by done. simpl. split_and!; try done.
    destruct (ok_states _ Hok _ _ Hstored) as (?&_). lia.
  - intros Hold. assert (oc_event_id o = None) as Hno.
    { destruct (oc_event_id o); [|done]. destruct Hlog as (k&Hk&_&Hp&Hni&_).
      destruct Hold as [?|(h'&d'&r'&k'&Hr'&Hk'&Hin)]; [done|]. rewrite Hr in Hr'. simplify_eq. }
    rewrite Hno in *. destruct Hlog as (Hno'&Hev&_). rewrite Hno' in *. destruct Hal as (Hal1&Hal2&_).
    by rewrite E2, E4, E5.
Qed.

(** C37. Whatever the pass meets (a statement that fails, a document the column refuses, a
    history the engine cannot read), the tables it leaves are well-formed: the events are
    distinct entries into full alignments, each linked to an alert that exists, a symbol's
    row never says it came from the alignment it is in, and a symbol that is fully aligned
    has an event that says so. *)
Theorem trend_tables_ok fails db s symbols now :
  trend_ok db → trend_ok (run_trend_alignment fails clock db s symbols now).1.
Proof.
  intros Hok. unfold run_trend_alignment. destruct (negb _); [done|]. destruct (trend_config s) as [cfg|e]; [|done].
  destruct (run_pass _ _ _ _ _ _ _) as [db' c] eqn:Hp. by eapply run_pass_ok.
Qed.

(** The statements an evaluation cannot do without. *)
Definition core_statement (s : trend_statement) : bool :=
  match s with
  | ReadCandles _ | ReadState | InsertEvent | UpsertState => true
  | ReadSubscribers | InsertAlertEvent _ | TouchAlert _ | LinkAlert | ReadHistory _ | UpsertPerformance _ => false
  end.

Definition unlinked (e : EventRow) : EventRow :=
  {| ev_id := ev_id e; ev_key := ev_key e; ev_previous_alignment := ev_previous_alignment e;
     ev_occurred_at := ev_occurred_at e; ev_timeframes := ev_timeframes e; ev_ma_type := ev_ma_type e;
     ev_alert_event_id := None |}.

Definition unstamped (row : StateRow) : StateRow :=
  {| st_alignment := st_alignment row; st_previous_alignment := st_previous_alignment row;
     st_timeframes := st_timeframes row; st_ma_type := st_ma_type row; st_fast_period := st_fast_period row;
     st_mid_period := st_mid_period row; st_slow_period := st_slow_period row; st_data_fresh := st_data_fresh row;
     st_candle_close := st_candle_close row; st_last_bullish_alert_at := None; st_last_bearish_alert_at := None;
     st_state_version := st_state_version row; st_calculated_at := st_calculated_at row;
     st_updated_at := st_updated_at row |}.

Lemma execute_core fails fails' symbol s :
  (∀ s, core_statement s = true → fails' symbol s = fails symbol s) → core_statement s = true →
  execute fails' symbol s = execute fails symbol s.
Proof. intros Heq Hs. unfold execute. by rewrite Heq. Qed.

Lemma alert_entry_core fails db r cfg eid now db' aid :
  alert_entry fails db r cfg eid now = Ok (db', aid) →
  td_states db' = td_states db ∧ unlinked <$> td_events db' = unlinked <$> td_events db.
Proof.
  intros Ha%alert_entry_Ok. destruct aid as [i|]; [|by subst]. destruct Ha as (_&_&->). split; [done|].
  simpl. rewrite <-list_fmap_compose. apply list_fmap_ext. intros j e _. simpl.
  unfold link_alert, unlinked. by destruct (_ =? _).
Qed.

Lemma alert_entry_total fails db r cfg eid now :
  fails (al_symbol r) LinkAlert = false → ∃ db' aid, alert_entry fails db r cfg eid now = Ok (db', aid).
Proof.
  intros Hl. unfold alert_entry, execute.
  destruct (_write_alert_events _ _ _ _ _ _) as [[db1 [i|]]|e]; [|by eauto..]. rewrite Hl. simpl. eauto.
Qed.

Lemma upsert_state_core fails fails' db db2 r cfg stored identity a a' db1 :
  fails' (al_symbol r) UpsertState = fails (al_symbol r) UpsertState →
  td_states db2 = td_states db → _upsert_state fails clock db r cfg stored identity a = Ok db1 →
  ∃ db3, _upsert_state fails' clock db2 r cfg stored identity a' = Ok db3
    ∧ unstamped <$> td_states db3 = unstamped <$> td_states db1 ∧ td_events db3 = td_events db2.
Proof.
  intros Hf Hst H. unfold _upsert_state, execute in *. rewrite Hf.
  apply bind_Ok in H as ([]&->&H). apply bind_Ok in H as ([]&->&H). injection H as <-.
  eexists. split; [reflexivity|]. split; [|done]. simpl. rewrite Hst, !fmap_insert. by f_equal.
Qed.

Lemma record_evaluation_core fails fails' db r cfg now db1 previous eid aid :
  (∀ s, core_statement s = true → fails' (al_symbol r) s = fails (al_symbol r) s) →
  fails' (al_symbol r) LinkAlert = false →
  record_evaluation fails clock db r cfg now = Ok (db1, (previous, eid, aid)) →
  ∃ db2 aid', record_evaluation fails' clock db r cfg now = Ok (db2, (previous, eid, aid'))
    ∧ unlinked <$> td_events db2 = unlinked <$> td_events db1
    ∧ unstamped <$> td_states db2 = unstamped <$> td_states db1.
Proof.
  intros Heq Hl Hrec. unfold record_evaluation in *. cbv zeta in *. rewrite (execute_core fails fails') by done.
  apply bind_Ok in Hrec as ([]&->&Hrec). cbn [mbind result_bind].
  apply bind_Ok in Hrec as ([dbe eid0]&He&Hrec).
  match goal with |- ∃ _ _, mbind _ ?m = _ ∧ _ => assert (m = Ok (dbe, eid0)) as -> end.
  { rewrite <-He. destruct (is_full _ && _); [|done]. destruct (event_key _ _); [|done].
    unfold _insert_event. by rewrite (execute_core fails fails'). }
  cbn [mbind result_bind]. apply bind_Ok in Hrec as ([dba aid0]&Hal&Hrec).
  apply bind_Ok in Hrec as (dbs&Hu&Hrec). apply Ok_inj in Hrec. simplify_eq.
  assert (∃ dba' aid', (match eid with Some id => alert_entry fails' dbe r cfg id now | None => Ok (dbe, None) end)
      = Ok (dba', aid') ∧ td_states dba' = td_states dba
      ∧ unlinked <$> td_events dba' = unlinked <$> td_events dba) as (dba'&aid'&->&Hs&Hev).
  { destruct eid as [id|]; [|apply Ok_inj in Hal; simplify_eq; by do 2 eexists].
    destruct (alert_entry_total fails' dbe r cfg id now Hl) as (dba'&aid'&Ha').
    apply alert_entry_core in Hal as [-> ->]. exists dba', aid'. split; [done|]. by eapply alert_entry_core. }
  cbn [mbind result_bind].
  destruct (upsert_state_core fails fails' dba dba' r cfg _ _ _ ((λ _, now) <$> aid') _ ltac:(by apply Heq) Hs Hu)
    as (db5&->&Hst5&Hev5).
  cbn [mbind result_bind]. exists db5, aid'. split_and!; [done| |done].
  rewrite Hev5, Hev. apply upsert_state_Ok in Hu as (row&->&_). done.
Qed.

(** C18. Notifying a subscriber and refreshing the track record are weaker obligations than
    the indicator.  If the statements that read the candles and the state, and write the
    event and the state, behave the same, then an evaluation that succeeds still succeeds
    whatever the others do, with the same alignment and the same event; the state and the
    event log are the same up to the alert they name. *)
Theorem weaker_obligations_are_contained fails fails' db symbol cfg now db1 o1 :
  (∀ s, core_statement s = true → fails' symbol s = fails symbol s) → fails' symbol LinkAlert = false →
  trend_ok db → _evaluate_symbol fails clock db symbol cfg now = Ok (db1, o1) →
  ∃ db2 o2, _evaluate_symbol fails' clock db symbol cfg now = Ok (db2, o2)
    ∧ oc_alignment o2 = oc_alignment o1 ∧ oc_event_id o2 = oc_event_id o1
    ∧ unlinked <$> td_events db2 = unlinked <$> td_events db1
    ∧ unstamped <$> td_states db2 = unstamped <$> td_states db1.
Proof.
  intros Heq Hl Hok H. pose proof (evaluate_symbol_tables _ _ _ _ _ _ _ _ Hok H) as (h&d&r&dbr&Hr&_&Hs&_&Ha&_&E1&E2&_).
  unfold _evaluate_symbol in H. rewrite Hr in H. cbn [mbind result_bind] in H.
  apply bind_Ok in H as ([db3 [[previous eid] aid]]&Hrec&H).
  assert (read_and_evaluate fails' db symbol cfg now = Ok (h, d, r)) as Hr'.
  { rewrite <-Hr. unfold read_and_evaluate, load. by rewrite !(execute_core fails fails') by done. }
  rewrite <-Hs in Heq, Hl. destruct (record_evaluation_core fails fails' db r cfg now db3 previous eid aid Heq Hl Hrec)
    as (db4&aid'&Hrec'&Hev&Hst). rewrite Hs in *.
  unfold _evaluate_symbol. rewrite Hr'. cbn [mbind result_bind]. rewrite Hrec'. cbn [mbind result_bind].
  assert (td_events db1 = td_events db3 ∧ td_states db1 = td_states db3 ∧ oc_event_id o1 = eid) as (F1&F2&F3).
  { destruct (refresh_performance fails db3 symbol cfg now) as [[db5 rows]|e] eqn:Hp; apply Ok_inj in H; simplify_eq; [|done].
    apply refresh_touches in Hp. tauto. }
  rewrite Ha, F1, F2, F3.
  destruct (refresh_performance fails' db4 symbol cfg now) as [[db5 rows]|e] eqn:Hp;
    (do 2 eexists; split; [reflexivity|]); simpl; split_and!; try done.
  - apply refresh_touches in Hp. by destruct Hp as (_&_&->&_).
  - apply refresh_touches in Hp. by destruct Hp as (_&->&_).
Qed.
End Promises.

(** ** The pass and the track record *)
Section Pass.
Context `{I : Interpreter} `{TF : TextFormats} `{JC : !JsonColumn} `{NF : !NumericFloat} `{NO : !NumericOrder}.
Context (fails : string → trend_statement → bool) (clock : job_moment → instant).

Lemma measure_window_names sym days h d now cfg p :
  measure_window sym days h d now cfg = Ok p → wp_symbol p = sym ∧ wp_window_days p = days.
Proof.
  unfold measure_window. cbv zeta. intros H.
  apply bind_Ok in H as (from&_&H). apply bind_Ok in H as (ch&_&H).
  apply bind_Ok in H as (bars&_&H). apply bind_Ok in H as (notes&_&H). by injection H as <-.
Qed.

(** What is stored of a track record: the row of each window, measured by the replay on the
    candles the pass read; a refresh that fails changes nothing and is reported. *)
Theorem track_record_stored db symbol cfg now db' o :
  trend_ok db → _evaluate_symbol fails clock db symbol cfg now = Ok (db', o) →
  match oc_performance_error o with
  | Some _ => td_performance db' = td_performance db ∧ oc_performance o = []
  | None =>
      ∃ limits hourly daily, _backtest_bucket_limits cfg = Ok limits
        ∧ _load_candles (td_prices db) symbol hour limits.1 now = Ok hourly
        ∧ _load_candles (td_prices db) symbol day limits.2 now = Ok daily
        ∧ wp_window_days <$> oc_performance o = WINDOW_DAYS
        ∧ (∀ p, p ∈ oc_performance o → measure_window symbol (wp_window_days p) hourly daily now cfg = Ok p
             ∧ td_performance db' !! (symbol, wp_window_days p) = Some (as_row p now))
        ∧ ∀ k, k.1 ≠ symbol ∨ k.2 ∉ WINDOW_DAYS → td_performance db' !! k = td_performance db !! k
  end.
Proof.
  intros Hok H. destruct (evaluate_symbol_Ok _ _ _ _ _ _ _ _ Hok H) as (h&d&r&db1&_&Hrec&_&_&_&_&Hp).
  destruct (oc_performance_error o); [destruct Hp as (_&?&->); by rewrite (rc_performance _ _ _ _ _ _ _ Hrec)|].
  apply refresh_performance_Ok in Hp as (->&limits&hourly&daily&Hl&Hh&Hd&Hb).
  rewrite (rc_prices _ _ _ _ _ _ _ Hrec) in *. exists limits, hourly, daily. do 3 (split; [done|]).
  unfold backtest in Hb. apply bind_Ok in Hb as ([]&_&Hb).
  assert (reverse (sort_by id (remove_dups WINDOW_DAYS)) = [90; 60; 30; 14]) as Hw by (vm_compute; reflexivity).
  rewrite Hw in Hb. cbn [traverse] in Hb. cbn [default Datatypes.id] in Hb.
  apply bind_Ok in Hb as (p1&M1&Hb). apply bind_Ok in Hb as (ps1&Hb&E1). apply Ok_inj in E1. subst.
  apply bind_Ok in Hb as (p2&M2&Hb). apply bind_Ok in Hb as (ps2&Hb&E2). apply Ok_inj in E2. subst.
  apply bind_Ok in Hb as (p3&M3&Hb). apply bind_Ok in Hb as (ps3&Hb&E3). apply Ok_inj in E3. subst.
  apply bind_Ok in Hb as (p4&M4&Hb). apply bind_Ok in Hb as (ps4&Hb&E4). apply Ok_inj in E4, Hb. subst.
  destruct (measure_window_names _ _ _ _ _ _ _ M1) as [S1 W1], (measure_window_names _ _ _ _ _ _ _ M2) as [S2 W2],
    (measure_window_names _ _ _ _ _ _ _ M3) as [S3 W3], (measure_window_names _ _ _ _ _ _ _ M4) as [S4 W4].
  rewrite <-E1. simpl. rewrite W1, W2, W3, W4, S1, S2, S3, S4. split; [done|]. split.
  - intros p Hp. assert (p = p1 ∨ p = p2 ∨ p = p3 ∨ p = p4) as [-> |[-> |[-> | ->]]] by set_solver;
      rewrite ?W1, ?W2, ?W3, ?W4; (split; [done|]); by repeat first [rewrite lookup_insert_eq|rewrite lookup_insert_ne by done].
  - intros [s w] Hk. simpl in Hk. assert (∀ v, v ∈ WINDOW_DAYS → (symbol, v) ≠ (s, w)) as Hne by naive_solver.
    rewrite !lookup_insert_ne; [by rewrite (rc_performance _ _ _ _ _ _ _ Hrec)|..]; apply Hne; unfold WINDOW_DAYS; set_solver.
Qed.

(** The counters of the pass. *)
Definition handled (c : TrendCounts) : Z := tc_evaluated c + tc_skipped c + tc_failed c.

Record pass_spec (db db' : TrendDB) (cfg : TrendConfig) (now : instant) (requested : list string)
    (c c' : TrendCounts) : Prop := {
  ps_handled : handled c' = handled c + len requested;
  ps_prices : td_prices db' = td_prices db;
  ps_events : len (td_events db') - tc_events c' = len (td_events db) - tc_events c;
  ps_log : td_events db `prefix_of` td_events db';
  ps_elsewhere s : s ∉ requested → tc_symbols c' !! s = tc_symbols c !! s ∧ td_states db' !! s = td_states db !! s;
  ps_entry s : s ∈ requested → is_Some (tc_symbols c' !! s);
  ps_skipped s : s ∈ requested → (tc_symbols c' !! s = Some Skipped ↔ s ∉ SUPPORTED_SYMBOLS);
  ps_failed s e : s ∈ requested → NoDup requested → tc_symbols c' !! s = Some (Failed e) →
    td_states db' !! s = td_states db !! s ∧ SymbolError s e ∈ tc_errors c';
  ps_evaluated s o : s ∈ requested → tc_symbols c' !! s = Some (Evaluated o) →
    ∃ hourly daily r row, read_and_evaluate fails db s cfg now = Ok (hourly, daily, r)
      ∧ oc_alignment o = al_alignment r
      ∧ (NoDup requested → td_states db' !! s = Some row ∧ st_alignment row = al_alignment r
           ∧ st_data_fresh row = al_data_fresh r ∧ st_calculated_at row = now);
  ps_errors : tc_errors c `prefix_of` tc_errors c';
}.

(** One symbol of the pass. *)
Record step_spec (db db1 : TrendDB) (cfg : TrendConfig) (now : instant) (symbol : string) (c c1 : TrendCounts)
    (report : SymbolReport) : Prop := {
  ss_handled : handled c1 = handled c + 1;
  ss_prices : td_prices db1 = td_prices db;
  ss_events : len (td_events db1) - tc_events c1 = len (td_events db) - tc_events c;
  ss_log : td_events db `prefix_of` td_events db1;
  ss_symbols : tc_symbols c1 = <[symbol := report]> (tc_symbols c);
  ss_elsewhere s : s ≠ symbol → td_states db1 !! s = td_states db !! s;
  ss_report : match report with
    | Skipped => symbol ∉ SUPPORTED_SYMBOLS
    | Failed e => symbol ∈ SUPPORTED_SYMBOLS ∧ db1 = db ∧ SymbolError symbol e ∈ tc_errors c1
    | Evaluated o => symbol ∈ SUPPORTED_SYMBOLS ∧
        ∃ hourly daily r row, read_and_evaluate fails db symbol cfg now = Ok (hourly, daily, r)
          ∧ oc_alignment o = al_alignment r ∧ td_states db1 !! symbol = Some row ∧ st_alignment row = al_alignment r
          ∧ st_data_fresh row = al_data_fresh r ∧ st_calculated_at row = now
    end;
  ss_errors : tc_errors c `prefix_of` tc_errors c1;
}.

Lemma evaluated_step db cfg now symbol c db1 o :
  trend_ok db → symbol ∈ SUPPORTED_SYMBOLS → _evaluate_symbol fails clock db symbol cfg now = Ok (db1, o) →
  step_spec db db1 cfg now symbol c (count_evaluated c symbol o) (Evaluated o).
Proof.
  intros Hok Hs H. destruct (evaluate_symbol_tables _ _ _ _ _ _ _ _ Hok H)
    as (hourly&daily&r&dbr&Hr&[Hp _ (row&Hst&Hrow) Hlog _]&Hsym&Hc&Ha&E0&E1&E2&_).
  rewrite Hsym in *. assert (∃ new, td_events db1 = td_events db ++ new
    ∧ len new = if event_created o then 1 else 0) as (new&Hev&Hlen).
  { rewrite E2. unfold log_after, event_created in *. destruct (oc_event_id o).
    - destruct Hlog as (k&_&_&_&_&_&->&_). by eexists.
    - destruct Hlog as (_&->&_). exists []. by rewrite app_nil_r. }
  split; simpl; try done.
  - unfold handled. simpl. lia.
  - by rewrite E0.
  - rewrite Hev. unfold len in *. rewrite length_app. lia.
  - rewrite Hev. by eexists.
  - intros s Hne. by rewrite E1, Hst, lookup_insert_ne.
  - split; [done|]. exists hourly, daily, r, row. destruct Hrow as [F1 F2 F3 _ _ _ _ _].
    rewrite E1, Hst, lookup_insert_eq, F1, F2, F3, Hc. done.
  - by eexists.
Qed.

Lemma read_and_evaluate_prices db db' symbol cfg now :
  td_prices db' = td_prices db → read_and_evaluate fails db' symbol cfg now = read_and_evaluate fails db symbol cfg now.
Proof. intros Hp. unfold read_and_evaluate, load. by rewrite Hp. Qed.

Lemma pass_cons db db1 db' cfg now symbol requested c c1 c' report :
  step_spec db db1 cfg now symbol c c1 report → pass_spec db1 db' cfg now requested c1 c' →
  pass_spec db db' cfg now (symbol :: requested) c c'.
Proof.
  intros [S1 S2 S3 S4 S5 S6 S7 S8] [P1 P2 P3 P4 P5 P6 P7 P8 P9 P10].
  assert (∀ s, s ∉ requested → s = symbol → tc_symbols c' !! s = Some report ∧ td_states db' !! s = td_states db1 !! s)
    as Hlast.
  { intros s Hs ->. destruct (P5 symbol Hs) as [-> ->]. by rewrite S5, lookup_insert_eq. }
  split.
  - unfold len in *. simpl length. lia.
  - congruence.
  - lia.
  - by etrans.
  - intros s [Hne Hs]%not_elem_of_cons. destruct (P5 s Hs) as [-> ->]. rewrite S5, lookup_insert_ne by done.
    split; [done|]. by apply S6.
  - intros s Hs. destruct (decide (s ∈ requested)) as [?|Hni]; [by apply P6|].
    apply elem_of_cons in Hs as [->|?]; [|done]. destruct (Hlast symbol Hni eq_refl) as [-> _]. by eexists.
  - intros s Hs. destruct (decide (s ∈ requested)) as [?|Hni]; [by apply P7|].
    apply elem_of_cons in Hs as [->|?]; [|done]. destruct (Hlast symbol Hni eq_refl) as [-> _].
    destruct report; [by split|..]; split; [done|destruct S7; done|done|destruct S7; done].
  - intros s e Hs [Hni Hnd]%NoDup_cons He. apply elem_of_cons in Hs as [->|Hs].
    + destruct (Hlast symbol Hni eq_refl) as [Hc Hst]. rewrite Hc in He. injection He as ->.
      destruct S7 as (_&->&Herr). split; [done|]. destruct P10 as [k ->]. apply elem_of_app. by left.
    + destruct (P8 s e Hs Hnd He) as [-> Herr]. split; [|done]. apply S6. by intros ->.
  - intros s o Hs Ho. destruct (decide (s ∈ requested)) as [Hin|Hni].
    + destruct (P9 s o Hin Ho) as (h&d&r&row&Hr&Ha&Hrow). exists h, d, r, row.
      rewrite (read_and_evaluate_prices db db1) in Hr by done. split_and!; [done|done|].
      intros [_ Hnd]%NoDup_cons. by apply Hrow.
    + apply elem_of_cons in Hs as [->|?]; [|done]. destruct (Hlast symbol Hni eq_refl) as [Hc Hst].
      rewrite Hc in Ho. injection Ho as ->. destruct S7 as (_&h&d&r&row&Hr&Ha&Hrow&?&?&?).
      exists h, d, r, row. rewrite Hst. by split_and!.
  - by etrans.
Qed.

Lemma run_pass_spec db cfg now requested c db' c' :
  trend_ok db → run_pass fails clock db cfg now requested c = (db', c') →
  pass_spec db db' cfg now requested c c'.
Proof.
  revert db c. induction requested as [|symbol requested IH]; intros db c Hok; cbn [run_pass].
  { intros [= <- <-]. split; try done; try (by intros ? ?%elem_of_nil); try (by intros ? ? ?%elem_of_nil).
    unfold len. simpl. lia. }
  case_bool_decide as Hs; simpl.
  2: { intros H. eapply pass_cons; [|by apply IH]. split; simpl; try done. unfold handled. simpl. lia. }
  destruct (_evaluate_symbol fails clock db symbol cfg now) as [[db1 o]|e] eqn:He; intros H.
  - eapply pass_cons; [by eapply evaluated_step|]. apply IH; [|done]. by eapply evaluate_symbol_ok.
  - eapply pass_cons; [|by apply IH]. split; simpl; try done.
    + unfold handled. simpl. lia.
    + split_and!; [done..|]. apply elem_of_app. right. left.
    + by eexists.
Qed.

(** C31. The pass accounts for every symbol it was asked for, and a symbol's failure is its
    own.  A configuration that is not valid stops it before anything is read; switched
    off, it changes nothing.  Otherwise each request is evaluated, skipped or failed, once;
    exactly the unsupported symbols are skipped; the prices are untouched and the event log
    grows by the events counted.  A symbol that failed keeps its state and is named among
    the errors; a symbol that was evaluated has the alignment the engine gives on the
    prices the pass started with, and, asked for once, that is what its row says. *)
Theorem trend_pass_accounts db s symbols now :
  trend_ok db →
  let requested := trend_requested symbols in
  let at_ := match now with Some dt => to_utc dt | None => clock JobStarted end in
  match run_trend_alignment fails clock db s symbols now, trend_config s with
  | (db', Err e), config => ts_enabled s = true ∧ config = Err e ∧ db' = db
  | (db', Ok c), config =>
      if ts_enabled s then
        ∃ cfg, config = Ok cfg ∧ tc_evaluated c + tc_skipped c + tc_failed c = len requested
        ∧ td_prices db' = td_prices db
        ∧ td_events db `prefix_of` td_events db' ∧ len (td_events db') = len (td_events db) + tc_events c
        ∧ ∀ symbol,
            (symbol ∉ requested → tc_symbols c !! symbol = None ∧ td_states db' !! symbol = td_states db !! symbol)
            ∧ (symbol ∈ requested → is_Some (tc_symbols c !! symbol)
                 ∧ (tc_symbols c !! symbol = Some Skipped ↔ symbol ∉ SUPPORTED_SYMBOLS)
                 ∧ (∀ e, NoDup requested → tc_symbols c !! symbol = Some (Failed e) →
                      td_states db' !! symbol = td_states db !! symbol ∧ SymbolError symbol e ∈ tc_errors c)
                 ∧ (∀ o, tc_symbols c !! symbol = Some (Evaluated o) →
                      ∃ hourly daily r row, read_and_evaluate fails db symbol cfg at_ = Ok (hourly, daily, r)
                      ∧ oc_alignment o = al_alignment r
                      ∧ (NoDup requested → td_states db' !! symbol = Some row ∧ st_alignment row = al_alignment r
                           ∧ st_data_fresh row = al_data_fresh r ∧ st_calculated_at row = at_)))
      else db' = db ∧ tc_enabled c = false
  end.
Proof.
  intros Hok. unfold run_trend_alignment. destruct (ts_enabled s); [|done]. simpl negb. cbv iota.
  destruct (trend_config s) as [cfg|e]; [|done].
  destruct (run_pass _ _ _ _ _ _ _) as [db' c] eqn:Hp. apply run_pass_spec in Hp; [|done].
  destruct Hp as [P1 P2 P3 P4 P5 P6 P7 P8 P9 P10]. exists cfg. unfold handled in P1. simpl in *.
  split_and!; [done|lia|done|done|lia|]. intros symbol. split.
  - intros Hs. by apply P5 in Hs.
  - intros Hs. split_and!; [by apply P6|by apply P7| |].
    + intros e Hnd He. by apply P8.
    + intros o Ho. by apply P9.
Qed.
End Pass.

(** ** A concrete history: four days of one tick, then a day of hours, all rising *)
#[local] Instance demo_interpreter : Interpreter :=
  {| sha256_hex := id; format_10g := λ _, "1"; isoformat := str_of_Z;
     fromisoformat := λ s, match py_int s with Ok t => Ok (naive t) | Err e => Err e end |}.
#[local] Instance demo_texts : TextFormats := {| format_1f := λ _, "1.0"; format_c2f := λ _, "1.00" |}.
#[local] Instance demo_column : JsonColumn := {| json_column := λ _, true |}.
#[local] Instance demo_numbers : NumericOrder :=
  {| storable := λ _, true; num_le := λ x y, is_nan y || fle x y |}.

#[local] Instance demo_numbers_total : NumericTotal.
Proof.
  split; simpl.
  - intros x y. destruct (is_nan x) eqn:Hx, (is_nan y) eqn:Hy; simpl; auto.
    rewrite !fle_flt by done. destruct (flt y x) eqn:E; [right|by left]. by rewrite (flt_asym _ _ E).
  - intros x y z. destruct (is_nan z) eqn:Hz; [done|]. simpl. intros Hxy Hyz.
    destruct (fle_not_nan _ _ Hyz) as [Hy _]. rewrite Hy in Hxy. simpl in Hxy.
    destruct (fle_not_nan _ _ Hxy) as [Hx _]. rewrite fle_flt in * by done.
    apply negb_true_iff in Hxy, Hyz. apply negb_true_iff.
    by apply (flt_negtrans z y x).
Qed.

Definition demo_day (d : Z) : instant := EPOCH + (20000 + d) * us_day.

Definition demo_tick (symbol : string) (at_ : instant) (v : Z) (quality : string) : PriceRow :=
  {| pr_symbol := symbol; pr_value := float_of_Z v; pr_currency := "USD"; pr_unit := "oz"; pr_source := "demo";
     pr_observed_at := at_; pr_collected_at := at_; pr_quality := quality |}.

Definition demo_prices : list PriceRow :=
  ((λ d, demo_tick "XAUUSD" (demo_day d + 12 * us_hour) (100 + 10 * d) "ok") <$> [0; 1; 2; 3])
  ++ ((λ h, demo_tick "XAUUSD" (demo_day 4 + h * us_hour + us_minute) (140 + h) "ok")
        <$> [0; 1; 2; 3; 4; 5; 6; 7; 8; 9; 10; 11; 12; 13; 14; 15; 16; 17; 18; 19])
  ++ [demo_tick "XAUUSD" (demo_day 4 + 19 * us_hour + 2 * us_minute) 900 "suspect"].

Definition demo_settings : TrendSettings :=
  {| ts_enabled := true; ts_ma_type := "ema"; ts_fast_period := 2; ts_mid_period := 3; ts_slow_period := 4 |}.

Definition demo_subscription : Alert :=
  {| a_id := 7; a_user_id := "u3"; a_enabled := true; a_alert_type := TREND_ALERT_TYPE; a_last_triggered_at := None;
     a_updated_at := 0 |}.

Definition demo_db : TrendDB :=
  {| td_prices := demo_prices; td_states := ∅; td_events := []; td_next_event := 1; td_alerts := [demo_subscription];
     td_alert_events := []; td_next_alert_event := 1; td_performance := ∅ |}.

Definition never (symbol : string) (s : trend_statement) : bool := false.
Definition demo_clock (m : job_moment) : instant := demo_day 5.
Definition demo_now : instant := demo_day 4 + 20 * us_hour.

Definition demo_cfg : TrendConfig :=
  {| cfg_enabled := true; ma_type := "ema"; fast := 2; mid := 3; slow := 4; stale_buckets := float_of_Z 3 |}.

Abbreviation demo_eval f db := (_evaluate_symbol f demo_clock db "XAUUSD" demo_cfg demo_now).

Lemma demo_trend_ok : trend_ok demo_db.
Proof.
  split; simpl; try (by intros ? ?%elem_of_nil); try (by intros ? ? ?%elem_of_nil).
  - split; [constructor|by intros ? ?%elem_of_nil].
  - constructor.
  - split; [constructor|by intros ? ?%elem_of_nil].
  - intros symbol row. by rewrite lookup_empty.
Qed.

Definition summary_of (r : result trend_exn (TrendDB * Outcome))
    : option (Alignment * bool * bool * Z * list (option Z) * list Z * bool) :=
  match r with
  | Ok (db, o) =>
      Some (oc_alignment o, event_created o, alerted o, len (oc_performance o),
            ev_alert_event_id <$> td_events db, ae_alert_id <$> td_alert_events db,
            bool_decide (td_states db !! "XAUUSD" = None))
  | Err _ => None
  end.

(** The symbol enters a full alignment: one event, one alert. *)
Example demo_entry :
  summary_of (demo_eval never demo_db) = Some (full_bullish, true, true, 4, [Some 1], [7], false).
Proof. vm_compute. reflexivity. Qed.

(** One row per subscriber, and one per window of the track record. *)
Example two_subscribers :
  match demo_eval never (with_alerts [demo_subscription;
      {| a_id := 5; a_user_id := "u9"; a_enabled := true; a_alert_type := TREND_ALERT_TYPE; a_last_triggered_at := None;
         a_updated_at := 0 |}] [] 0 demo_db) with
  | Ok (db, o) => Some (ae_alert_id <$> td_alert_events db, oc_alert_event_id o, length (map_to_list (td_performance db)))
  | Err _ => None
  end = Some ([5; 7], Some 1, 4%nat).
Proof. vm_compute. reflexivity. Qed.

Lemma load_candles_spec_witness :
  ∃ cs, _load_candles demo_prices "XAUUSD" hour 5 demo_now = Ok cs ∧ strictly_ascending c_start cs ∧ len cs ≤ 5.
Proof.
  destruct (_load_candles demo_prices "XAUUSD" hour 5 demo_now) as [cs|e] eqn:H.
  - destruct (load_candles_spec demo_prices "XAUUSD" hour 5 demo_now cs H ltac:(lia)) as (since&_&Hasc&Hlen&_).
    exact (ex_intro _ cs (conj eq_refl (conj Hasc Hlen))).
  - exfalso. assert (is_ok (_load_candles demo_prices "XAUUSD" hour 5 demo_now) = true) as Hok
      by (vm_compute; reflexivity). rewrite H in Hok. discriminate.
Defined.


(** A second evaluation of the same instant. *)
Abbreviation demo_again := (match demo_eval never demo_db with Ok (db, _) => demo_eval never db | Err e => Err e end).

Example demo_reconfirmed :
  summary_of demo_again = Some (full_bullish, false, false, 4, [Some 1], [7], false).
Proof. vm_compute. reflexivity. Qed.

Lemma reconfirmed_is_silent_witness :
  ∃ db1 db2 o, demo_eval never db1 = Ok (db2, o) ∧ td_events db1 ≠ [] ∧ td_events db2 = td_events db1
    ∧ td_alert_events db2 = td_alert_events db1.
Proof.
  pose proof demo_entry as H1. pose proof demo_reconfirmed as H2.
  destruct (demo_eval never demo_db) as [[db1 o1]|e] eqn:E1; [|discriminate].
  destruct (demo_eval never db1) as [[db2 o2]|e] eqn:E2; [|discriminate].
  simpl in H1, H2. apply (f_equal (λ x, match x with Some (a, _, _, _, _, _, _) => Some a | None => None end)) in H2 as Ha.
  apply (f_equal (λ x, match x with Some (_, _, _, _, evs, _, _) => evs | None => [] end)) in H1 as Hev.
  apply (f_equal (λ x, match x with Some (a, _, _, _, _, _, _) => Some a | None => None end)) in H1 as Ha1.
  simpl in Ha, Hev, Ha1. pose proof (evaluate_symbol_ok never demo_clock _ _ _ _ _ _ demo_trend_ok E1) as Hok.
  assert (st_alignment <$> td_states db1 !! "XAUUSD" = Some (oc_alignment o2)) as Hst.
  { destruct (evaluate_symbol_tables never demo_clock _ _ _ _ _ _ demo_trend_ok E1)
      as (h&d&r&dbr&_&[_ _ (row&Hst&[Hal _ _ _ _ _ _ _]) _ _]&Hs&_&Hoc&_&Hdb&_).
    rewrite Hdb, Hst, Hs, lookup_insert_eq. simpl. rewrite Hal, <-Hoc. congruence. }
  destruct (reconfirmed_is_silent demo_clock never db1 "XAUUSD" demo_cfg demo_now db2 o2 Hok E2) as [_ Hsilent].
  destruct (Hsilent (or_introl Hst)) as (_&_&Hevents&_&Halerts).
  exists db1, db2, o2. split; [exact E2|]. split; [|exact (conj Hevents Halerts)].
  intros Hnil. rewrite Hnil in Hev. discriminate.
Defined.

Lemma trend_tables_ok_witness :
  trend_ok (run_trend_alignment never demo_clock demo_db demo_settings None (Some (naive demo_now))).1.
Proof. exact (trend_tables_ok demo_clock never demo_db demo_settings None (Some (naive demo_now)) demo_trend_ok). Defined.

(** The alerts table is gone, and so is the history. *)
Definition alerts_gone (symbol : string) (s : trend_statement) : bool :=
  match s with ReadSubscribers | ReadHistory _ => true | _ => false end.

Lemma weaker_obligations_are_contained_witness :
  ∃ db o, demo_eval alerts_gone demo_db = Ok (db, o) ∧ oc_alignment o = full_bullish ∧ oc_event_id o = Some 1.
Proof.
  destruct (demo_eval never demo_db) as [[db1 o1]|e] eqn:E1.
  - destruct (weaker_obligations_are_contained demo_clock never alerts_gone demo_db "XAUUSD" demo_cfg demo_now db1 o1)
      as (db2&o2&H2&Ha&He&_).
    + intros s Hs. by destruct s.
    + reflexivity.
    + exact demo_trend_ok.
    + exact E1.
    + exists db2, o2. assert (oc_alignment o1 = full_bullish ∧ oc_event_id o1 = Some 1) as [Ha1 He1].
      { assert (match demo_eval never demo_db with Ok (_, o) => (oc_alignment o, oc_event_id o) | Err _ => (not_aligned, None) end
          = (full_bullish, Some 1)) as H by (vm_compute; reflexivity). rewrite E1 in H. exact (conj (f_equal fst H) (f_equal snd H)). }
      split; [exact H2|]. split; congruence.
  - exfalso. pose proof demo_entry as Hd. rewrite E1 in Hd. discriminate.
Defined.

(** A pass over the two symbols, one of which has no prices, and one that is not supported. *)
Abbreviation demo_pass :=
  (run_trend_alignment never demo_clock demo_db demo_settings (Some ["XAUUSD"; "EURUSD"; "IR_GOLD_18K"])
     (Some (naive demo_now))).

Example demo_counts :
  match demo_pass.2 with
  | Ok c => Some (tc_evaluated c, tc_skipped c, tc_failed c, tc_events c, tc_alerts c, len (tc_errors c))
  | Err _ => None
  end = Some (2, 1, 0, 1, 1, 0).
Proof. vm_compute. reflexivity. Qed.

Lemma trend_pass_accounts_witness :
  ∃ db c, demo_pass = (db, Ok c) ∧ tc_evaluated c + tc_skipped c + tc_failed c = 3
    ∧ len (td_events db) = tc_events c.
Proof.
  pose proof (trend_pass_accounts never demo_clock demo_db demo_settings
    (Some ["XAUUSD"; "EURUSD"; "IR_GOLD_18K"]) (Some (naive demo_now)) demo_trend_ok) as H.
  pose proof demo_counts as Hc. cbv zeta in H.
  destruct demo_pass as [db [c|e]] eqn:E; [|discriminate].
  destruct H as (cfg&_&Hsum&_&_&Hlen&_). exists db, c. exact (conj eq_refl (conj Hsum Hlen)).
Defined.
