(* ===== verification/SignalUniverse.v ===== *)
(** * The universe of the signals

    [app/signals/universe.py]: which assets carry a reading, which are refused and why,
    which factors an asset can carry and how many bars each one needs, and when too little
    is left to publish anything.

    The reason a factor is left out is a constructor with the data its sentence prints; the
    sentences about an instrument are the texts of the source. *)
From S2P Require Import Prelude PyFloat PyTime PyText MarketHours TrendJob.
Local Open Scope string_scope.
Local Open Scope list_scope.
Local Open Scope Z_scope.

(** ** The eligible universe *)
Definition SIGNAL_SYMBOLS : list string :=
  ["IR_GOLD_18K"; "USD_IRT"; "IR_COIN_EMAMI"; "XAUUSD"; "XAGUSD"; "IR_GOLD_FUND_AYAR";
   "IR_GOLD_FUND_TALA"].
Definition FUND_SYMBOLS : list string := ["IR_GOLD_FUND_AYAR"; "IR_GOLD_FUND_TALA"].
Definition PARITY_SYMBOLS : list string := ["IR_GOLD_18K"].
Definition SIGNAL_EXCLUDED_SOURCES : list string := ["tsetmc_cdn"].
Definition FUND_FLOW_SYMBOL : string := "IR_GOLD_FUND_FLOW".

(** [FORECAST_SYMBOLS] of models/training.py *)
Definition FORECAST_SYMBOLS : list string := ["IR_GOLD_18K"; "XAUUSD"].
Definition _forecast_symbols : list string := FORECAST_SYMBOLS.
Definition _alignment_symbols : list string := SUPPORTED_SYMBOLS.

Definition _tgju_daily_reason (symbol what derived : string) : string :=
  (symbol ++ " (" ++ what ++ ") is collected only as TGJU's ONE daily settled close per day (app/jobs/tgju_daily.py), with no live quote and no second source to check it against. " ++ derived ++ "It is not modelled and not scored; it is compared under Relative value and Purchasing power instead.")%string.

Definition _tse_fund_reason (symbol what : string) : string :=
  (symbol ++ " (" ++ what ++ ") is collected only as its settled exchange closing price per session, from the weekly off-server TSETMC fetch (migration 0030) — no live quote. The signal engine does not read that source, so it is not modelled or scored; compare it under Relative value and Purchasing power.")%string.

Definition EXCLUDED_SYMBOLS : list (string * string) :=
  [("DXY", "The dollar index is macro context, not a holding: it is a basket level with no price a reader buys or sells, so a buy/sell call on it would not describe any action available to them.");
   ("US10Y", "A Treasury yield in percent, not a price. It moves inversely to the bond, so 'buy' would be ambiguous about which of the two it means, and the bond itself is not an instrument this system collects.");
   (FUND_FLOW_SYMBOL, "A retail/institutional flow RATIO in percent (migration 0024 files it as kind='index' for exactly this reason). Nobody holds a ratio, so a 'buy' on it is meaningless. It is used here as an INPUT to the two fund symbols' readings instead.");
   ("IR_SILVER_999", "Tehran silver 999 in toman per gram is collected, but only as TGJU's ONE daily settled close per day (app/jobs/tgju_daily.py; TGJU's table starts 2020-10-31), with no live quote and no second source to check it against. It is not modelled and not scored: a single-source daily close whose own table carries junk bars has not been evaluated as a signal input, so it is compared under Relative value and Purchasing power instead. XAGUSD is not a substitute: it is the COMEX front-month future in USD per troy ounce.");
   ("IR_COIN_BAHAR", _tgju_daily_reason "IR_COIN_BAHAR" "the Bahar Azadi gold coin, toman per coin" EmptyString);
   ("IR_COIN_HALF", _tgju_daily_reason "IR_COIN_HALF" "the half Azadi coin, toman per coin" EmptyString);
   ("IR_COIN_QUARTER", _tgju_daily_reason "IR_COIN_QUARTER" "the quarter Azadi coin, toman per coin" EmptyString);
   ("IR_COIN_GERAMI", _tgju_daily_reason "IR_COIN_GERAMI" "the gram gold coin, toman per coin" EmptyString);
   ("IR_GOLD_24K", _tgju_daily_reason "IR_GOLD_24K" "24k gold, toman per gram" "TGJU publishes it as a fixed multiple of its 18k gram price (x 4/3), so it carries no movement of its own beyond 18k gold's. ");
   ("IR_GOLD_MESGHAL", _tgju_daily_reason "IR_GOLD_MESGHAL" "melted gold, toman per mesghal" "TGJU publishes it as a fixed multiple of its 18k gram price (x 4.3318), so it carries no movement of its own beyond 18k gold's. ");
   ("IR_GOLD_FUND_KAHRABA", _tse_fund_reason "IR_GOLD_FUND_KAHRABA" "the Kahraba gold commodity fund");
   ("IR_SILVER_FUND_SILVER", _tse_fund_reason "IR_SILVER_FUND_SILVER" "the Nova (Silver) silver commodity fund");
   ("IR_SILVER_FUND_SIMIN", _tse_fund_reason "IR_SILVER_FUND_SIMIN" "the Simin silver commodity fund")].

Definition NOT_COLLECTED : list (string * string) :=
  [("cars", "Not collected: `prices` holds zero rows for any vehicle. No price series exists to score.");
   ("housing", "Not collected: `prices` holds zero rows for any housing series. No price series exists to score.");
   ("tehran_equities", "No buy/sell reading for any Tehran-listed share. They are collected: the roster's adjusted daily bars (since migration 0028) and every listed share's individual/institutional money flow and session prices (since migration 0030), shown on the Tehran market, Money flow and Trade pages. None of it is modelled or scored, and a reading on a share would be advice this board does not give.");
   ("economic_series", "Every kind='economic_series' instrument (CPI, money supply, IMF/World Bank aggregates) is reference data with a publication lag measured in months. It is not held, not traded, and not scoreable as a position.")].

Definition MARKET_RISK : list (string * string) :=
  [("IR_GOLD_18K", "Iranian gold prices are exposed to currency policy shocks and liquidity gaps.");
   ("USD_IRT", "The free-market rate is exposed to currency policy, sanctions news and administrative intervention, and this series is a 24/7 USDT/toman proxy rather than a cash-dollar quote.");
   ("IR_COIN_EMAMI", "The Emami coin trades at its own bazaar premium over its gold content, which moves on domestic demand independently of the metal.");
   ("XAUUSD", "This is the COMEX front-month future used as a spot proxy: it carries roll and contango effects and its own settlement calendar, and it is quoted in USD rather than toman.");
   ("XAGUSD", "Silver is materially more volatile than gold and carries a large industrial-demand component; this is the COMEX front-month future used as a spot proxy, quoted in USD rather than toman.");
   ("IR_GOLD_FUND_AYAR", "Fund units trade only in the Tehran session and are subject to price limits and trading halts; the unit price can deviate from the gold the fund holds.");
   ("IR_GOLD_FUND_TALA", "Fund units trade only in the Tehran session and are subject to price limits and trading halts; the unit price can deviate from the gold the fund holds.")].

(** One entry per refused symbol, then per class that is not collected. *)
Definition unavailable : list (string * string) := EXCLUDED_SYMBOLS ++ NOT_COLLECTED.

(** ** Factors *)
Record FactorSpec : Set := {
  key : string;
  label : string;
  window : Z;
  first_bar : Z;
  directional : bool;
}.
Definition min_bars (s : FactorSpec) : Z := first_bar s + window s.

Definition FACTOR_FORECAST : FactorSpec := 
  {| key := "forecast_vs_cost"; label := "forecast edge vs round-trip cost";
     window := 0; first_bar := 0; directional := true |}.
Definition FACTOR_PREMIUM : FactorSpec := 
  {| key := "local_premium_z"; label := "local premium z-score";
     window := 30; first_bar := 30; directional := false |}.
Definition FACTOR_FUND_FLOW : FactorSpec := 
  {| key := "gold_fund_flow"; label := "gold-fund retail flow";
     window := 30; first_bar := 30; directional := false |}.
Definition FACTOR_TREND_SMA : FactorSpec := 
  {| key := "trend_sma"; label := "price vs SMA20/SMA50";
     window := 50; first_bar := 50; directional := true |}.
Definition FACTOR_MA_ALIGNMENT : FactorSpec := 
  {| key := "ma_alignment"; label := "1D/4H/1H moving-average alignment";
     window := 220; first_bar := 220; directional := true |}.
Definition FACTOR_RSI : FactorSpec := 
  {| key := "rsi14"; label := "RSI(14) zones";
     window := 14; first_bar := 15; directional := false |}.
Definition FACTOR_MOMENTUM : FactorSpec := 
  {| key := "momentum_10"; label := "10-period momentum";
     window := 10; first_bar := 11; directional := false |}.
Definition FACTOR_VOLATILITY : FactorSpec := 
  {| key := "volatility_regime"; label := "volatility regime";
     window := 20; first_bar := 25; directional := false |}.

Definition _UNIVERSAL_FACTORS : list FactorSpec :=
  [FACTOR_TREND_SMA; FACTOR_RSI; FACTOR_MOMENTUM; FACTOR_VOLATILITY].
Definition MIN_SCOREABLE_FACTORS : nat := 3.

(** Why an observation does not count as current: what [_freshness] says. *)
Inductive stale_note : Set :=
| nothing_stored (symbol : string)
| too_old (symbol : string) (age_hours : float) (last : instant) (tolerance_minutes : Z) (closed : bool).

(** Why a factor is left out of a reading. *)
Inductive omit_reason : Set :=
| history_short (label symbol : string) (needs has : Z) (warmup : option (Z * Z))
| no_model (symbol : string) (covered : list string)
| no_parity (symbol : string)
| no_fund_flow (symbol : string)
| no_alignment (covered : list string)
| no_recent_prediction (symbol : string)
| sma_gaps
| rsi_undefined
| momentum_undefined
| premium_unaligned
| regime_unknown
| flow_stale (why : option stale_note)
| flow_short (has : Z)
| flow_still
| no_trend_read.

Record Profile : Set := {
  pf_symbol : string;
  applicable : list FactorSpec;
  inapplicable : list (string * omit_reason);
}.

(** [ValueError] of a symbol outside the universe, with the stated reason. *)
Record ineligible : Set := { ne_symbol : string; ne_stated : option string }.

Definition keys (pf : Profile) : list string := key <$> applicable pf.

(** [forecast_symbols] and [alignment_symbols] are the tuples of the trainer and of the
    alignment job. *)
Definition profile_for (forecast_symbols alignment_symbols : list string) (symbol : string)
    : result ineligible Profile :=
  raise_if (negb (mem symbol SIGNAL_SYMBOLS))
    {| ne_symbol := symbol; ne_stated := assoc symbol EXCLUDED_SYMBOLS |};;
  let choose s spec why := if mem symbol s then ([spec], []) else ([], [(key spec, why)]) in
  let sorted := py_sorted String.ltb in
  let forecast := choose forecast_symbols FACTOR_FORECAST (no_model symbol (sorted forecast_symbols)) in
  let premium := choose PARITY_SYMBOLS FACTOR_PREMIUM (no_parity symbol) in
  let flow := choose FUND_SYMBOLS FACTOR_FUND_FLOW (no_fund_flow symbol) in
  let alignment := choose alignment_symbols FACTOR_MA_ALIGNMENT (no_alignment (sorted alignment_symbols)) in
  Ok {| pf_symbol := symbol;
        applicable := _UNIVERSAL_FACTORS ++ forecast.1 ++ premium.1 ++ flow.1 ++ alignment.1;
        inapplicable := forecast.2 ++ premium.2 ++ flow.2 ++ alignment.2 |}.

(** The refusal of a factor names the bars needed and held, the window and the first bar the
    statistic exists at. *)
Definition omission (symbol : string) (bars : Z) (spec : FactorSpec) : string * omit_reason :=
  (key spec, history_short (label spec) symbol (min_bars spec) bars
               (if window spec =? 0 then None else Some (window spec, first_bar spec))).

Definition history_omissions (profile : Profile) (bars : Z) : list string * list (string * omit_reason) :=
  (key <$> List.filter (λ s, min_bars s <=? bars) (applicable profile),
   omission (pf_symbol profile) bars
     <$> List.filter (λ s, negb (min_bars s <=? bars)) (applicable profile)).

Inductive withheld : Set :=
| no_directional_factor
| too_few_factors (scored : list string).

(** [scored] is a set of keys: a list without repetition. *)
Definition withholding_reason (scored : list string) : option withheld :=
  let directional :=
    [key FACTOR_FORECAST; key FACTOR_TREND_SMA; key FACTOR_MA_ALIGNMENT] in
  if negb (existsb (λ k, mem k directional) scored) then Some no_directional_factor
  else if (length scored <? MIN_SCOREABLE_FACTORS)%nat then Some (too_few_factors (py_sorted String.ltb scored))
  else None.

(** ** Publication *)
(** Every one of the eight factors is accounted for: a profile lists each
    exactly once, as applicable or as inapplicable, and for a given number of
    daily bars each applicable factor is either supported or omitted, never
    both; more bars never lose a factor, and no factor is scored on fewer than
    a window beyond its first computable bar. *)
Theorem factors_accounted forecast align symbol pf bars bars' :
  profile_for forecast align symbol = Ok pf → bars ≤ bars' →
  (key <$> applicable pf) ++ (fst <$> inapplicable pf) ≡ₚ
    ["trend_sma"; "rsi14"; "momentum_10"; "volatility_regime"; "forecast_vs_cost";
     "local_premium_z"; "gold_fund_flow"; "ma_alignment"]
  ∧ fst (history_omissions pf bars) ++ (fst <$> snd (history_omissions pf bars))
      ≡ₚ key <$> applicable pf
  ∧ fst (history_omissions pf bars) ⊆ fst (history_omissions pf bars')
  ∧ ∀ s, s ∈ applicable pf →
      (key s ∈ fst (history_omissions pf bars) ↔ first_bar s + window s ≤ bars).
Proof.
  intros Hpf Hbars. unfold profile_for in Hpf. apply bind_Ok in Hpf as (u&_&Hpf).
  cbv zeta beta in Hpf. revert Hpf.
  generalize (mem symbol forecast) as b1, (mem symbol PARITY_SYMBOLS) as b2,
    (mem symbol FUND_SYMBOLS) as b3, (mem symbol align) as b4. intros b1 b2 b3 b4 Hpf.
  injection Hpf as <-. unfold history_omissions. cbn [applicable inapplicable fst snd].
  assert (∀ l, NoDup (key <$> l) → ∀ s, s ∈ l →
    (key s ∈ key <$> List.filter (λ s, min_bars s <=? bars) l ↔ first_bar s + window s ≤ bars)) as Hkey.
  { intros l Hnd s Hs. rewrite list_elem_of_fmap. setoid_rewrite elem_of_bool_filter. split.
    - intros (s'&Hk&Hs'&Hle). apply Z.leb_le in Hle. unfold min_bars in Hle.
      by rewrite (NoDup_key_inj key l s s' Hnd Hs Hs' Hk).
    - intros Hle. exists s. split_and!; [done|done|]. by apply Z.leb_le. }
  split_and!.
  - destruct b1, b2, b3, b4; simpl;
      (apply NoDup_Permutation; [by_decide|by_decide|intros k; rewrite !elem_of_cons; tauto]).
  - rewrite <- list_fmap_compose, <- fmap_app.
    apply (fmap_Permutation key), filter_partition.
  - intros k (s&->&Hs)%list_elem_of_fmap. apply list_elem_of_fmap_2.
    apply elem_of_bool_filter in Hs as [Hs Hle]. apply elem_of_bool_filter. split; [done|].
    apply Z.leb_le in Hle. apply Z.leb_le. lia.
  - apply Hkey. destruct b1, b2, b3, b4; by_decide.
Qed.

Lemma factors_accounted_witness :
  match profile_for ["IR_GOLD_18K"; "XAUUSD"] ["XAUUSD"] "IR_GOLD_18K" with
  | Ok pf => fst (history_omissions pf 60) ⊆ fst (history_omissions pf 300)
  | Err _ => False
  end.
Proof.
  destruct (profile_for ["IR_GOLD_18K"; "XAUUSD"] ["XAUUSD"] "IR_GOLD_18K") as [pf|e] eqn:Hpf.
  - refine (proj1 (proj2 (proj2 (factors_accounted _ _ _ pf 60 300 Hpf _)))). lia.
  - vm_compute in Hpf. discriminate Hpf.
Defined.
