(* ===== verification/SignalEngine.v ===== *)
(** * The rule-based signal engine

    [compute_signal] of [app/signals/engine.py], factor by factor in the order
    the code scores them.

    A sentence of a reading is a [note] with the numbers it prints.  NumPy is the
    class [Numpy]: its functions are parameters, with the documented behaviour
    the theorems rely on in [NumpyLaws]. *)
From S2P Require Import Prelude PyFloat PyTime PyText SignalUniverse Costs.
Local Open Scope string_scope.
Local Open Scope list_scope.
Local Open Scope Z_scope.

Class Numpy := {
  (** [np.average(changes, weights=weights)], on pairs (weight, change) *)
  np_average : list (float * float) → float;
  np_mean : list float → float;
  np_clip : float → float → float → float;
  (** [np.clip] of a Python int between two Python ints *)
  np_clip_int : Z → Z → Z → Z;
  np_sign : float → float;
}.

(** [np.clip] limits the values to the interval. *)
Class NumpyLaws `{Numpy} : Prop := {
  np_clip_bounds x lo hi :
    is_nan x = false → fle lo hi = true →
    fle lo (np_clip x lo hi) = true ∧ fle (np_clip x lo hi) hi = true;
  np_clip_int_spec x lo hi : lo ≤ hi → np_clip_int x lo hi = Z.min hi (Z.max lo x);
}.

Definition REVIEW_AFTER : Z := 6 * us_hour.
Definition TECHNICAL_ONLY_CONFIDENCE : float := flit 3 1.
Definition STALE_CONFIDENCE_MULTIPLIER : float := flit 3 1.
Definition TECHNICAL_ONLY_WEIGHT : float := flit 5 1.
Definition FORECAST_WEIGHTS : list (string * float) :=
  [("1h", flit 5 1); ("4h", flit 75 2); ("eod", fone); ("1d", fone); ("3d", flit 8 1);
   ("7d", flit 6 1); ("30d", flit 4 1)].

Definition f (n : Z) : float := float_of_Z n.

Record SignalInputs : Set := {
  i_symbol : option string;
  expected_change_pct : list (string * option float);
  round_trip_cost_basis : string;
  confidence : list (string * option float);
  last_price : option float;
  sma20 : option float;
  sma50 : option float;
  rsi14 : option float;
  momentum_10_pct : option float;
  premium_z : option float;
  regime : string;
  data_fresh : bool;
  market_closed : bool;
  i_round_trip_cost_pct : float;
  trend_alignment : option string;
  trend_states : list (string * string);
  trend_alignment_age_days : option float;
  trend_weight : float;
  fund_flow_z : option float;
  market_risk : string;
  (** provenance, carried through and not scored *)
  omitted_factors : list (string * omit_reason);
  stale_reason : option stale_note;
  round_trip_cost_source : option string;
  round_trip_cost_reason : option cost_reason;
  round_trip_cost_observed_at : option instant;
  round_trip_cost_age_hours : option float;
}.

Inductive signal : Set := strong_sell | sell | hold | buy | strong_buy.
#[export] Instance signal_eq_dec : EqDecision signal.
Proof. solve_decision. Defined.

Inductive note : Set :=
| forecasts_are_estimates
| market_risk_note (text : string)
| forecast_above_cost (weighted cost : float)
| forecast_below_cost (weighted cost : float)
| forecast_move (weighted : float)
| confidence_is (mean : float)
| confidence_is_low (mean : float)
| technical_only_risk
| no_model_forecast
| horizons_agree
| horizons_disagree
| above_both_smas
| above_sma20
| below_both_smas
| below_sma20
| stacked (bullish : bool) (held_days : option float) (half_weight : bool)
| timeframes_contradict (states : list (string * string))
| timeframes_disagree_risk
| rsi_oversold (rsi : float)
| rsi_overbought (rsi : float)
| momentum_positive (m : float)
| momentum_negative (m : float)
| premium_rich (z : float)
| premium_rich_risk
| premium_cheap (z : float)
| volatility_risk
| high_volatility
| retail_net_buyers (z : float)
| crowded_retail_risk
| data_stale
| last_session_prices.

(** The running score and the three lists of sentences. *)
Record Board : Set := {
  score : float;
  supporting : list note;
  conflicting : list note;
  risks : list note;
}.

Definition add_score (b : Board) (x : float) : Board :=
  {| score := fadd (score b) x; supporting := supporting b; conflicting := conflicting b;
     risks := risks b |}.
Definition set_score (b : Board) (x : float) : Board :=
  {| score := x; supporting := supporting b; conflicting := conflicting b; risks := risks b |}.
Definition support (b : Board) (n : note) : Board :=
  {| score := score b; supporting := supporting b ++ [n]; conflicting := conflicting b;
     risks := risks b |}.
Definition conflict (b : Board) (n : note) : Board :=
  {| score := score b; supporting := supporting b; conflicting := conflicting b ++ [n];
     risks := risks b |}.
Definition risk (b : Board) (n : note) : Board :=
  {| score := score b; supporting := supporting b; conflicting := conflicting b;
     risks := risks b ++ [n] |}.

(** ** Bands *)
Definition _SIGNAL_BANDS : list (signal * Z * Z) :=
  [(strong_sell, 0, 25); (sell, 26, 40); (hold, 41, 59); (buy, 60, 74); (strong_buy, 75, 100)].

Definition _score_to_signal (s : Z) : signal :=
  if 75 <=? s then strong_buy
  else if 60 <=? s then buy
  else if s <=? 25 then strong_sell
  else if s <=? 40 then sell
  else hold.

Section Engine.
Context `{Numpy}.

Definition _hold_within_band (before after : float) : result pyerr float :=
  r ← py_round_int before;
  let band := _score_to_signal (np_clip_int r 0 100) in
  match find (λ b, bool_decide (b.1.1 = band)) _SIGNAL_BANDS with
  | Some (_, low, high) =>
      Ok (if fgt after before then fmin after (f high) else fmax after (f low))
  | None => Ok after
  end.

(** ** The factors *)
Definition horizon_items (inputs : SignalInputs) : list (string * float) :=
  omap (λ hc, (λ c, (hc.1, c)) <$> hc.2) (expected_change_pct inputs).

(** The forecast edge net of the round-trip cost. *)
Definition forecast_edge (weighted_exp cost : float) : float :=
  if fgt weighted_exp cost then fsub weighted_exp cost
  else if flt weighted_exp (fopp cost) then fadd weighted_exp cost
  else fzero.

Definition forecast_factor (inputs : SignalInputs) (b : Board) : Board * option float :=
  match horizon_items inputs with
  | [] => (b, None)
  | items =>
      let weighted_exp :=
        np_average ((λ hc, (default (flit 5 1) (assoc hc.1 FORECAST_WEIGHTS), hc.2)) <$> items) in
      let cost := i_round_trip_cost_pct inputs in
      let contribution :=
        np_clip (fmul (forecast_edge weighted_exp cost) (f 8)) (f (-25)) (f 25) in
      let b := add_score b contribution in
      let b :=
        if fgt weighted_exp cost then support b (forecast_above_cost weighted_exp cost)
        else if fgt weighted_exp fzero then conflict b (forecast_below_cost weighted_exp cost)
        else conflict b (forecast_move weighted_exp) in
      (b, Some weighted_exp)
  end.

Definition confidences (inputs : SignalInputs) : list float := omap snd (confidence inputs).

(** Returns the board, [mean_conf] and [measured_conf]. *)
Definition confidence_factor (inputs : SignalInputs) (b : Board)
    : Board * float * option float :=
  match confidences inputs with
  | [] => (conflict (risk b technical_only_risk) no_model_forecast,
           TECHNICAL_ONLY_CONFIDENCE, None)
  | cs =>
      let mean_conf := np_mean cs in
      let b := add_score b (fmul (fsub mean_conf (flit 5 1)) (f 20)) in
      let b :=
        if fge mean_conf (flit 6 1) then support b (confidence_is mean_conf)
        else if flt mean_conf (flit 45 2) then conflict b (confidence_is_low mean_conf)
        else b in
      (b, mean_conf, Some mean_conf)
  end.

Definition agreement_factor (inputs : SignalInputs) (b : Board) : Board :=
  let items := horizon_items inputs in
  if (length items <? 2)%nat then b
  else
    match (λ hc, np_sign hc.2) <$> List.filter (λ hc, fne hc.2 fzero) items with
    | [] => b
    | signs =>
        let agreement :=
          fdiv_ieee (fabs (foldl fadd fzero signs)) (f (Z.of_nat (length signs))) in
        let b := add_score b (fmul (fsub agreement (flit 5 1)) (f 12)) in
        if fge agreement (flit 75 2) then support b horizons_agree
        else if flt agreement (flit 5 1) then conflict b horizons_disagree
        else b
    end.

(** [if x and ...]: [None] and zero are falsy. *)
Definition truthy (x : option float) : option float :=
  match x with Some v => if feq v fzero then None else Some v | None => None end.

Definition sma_factor (inputs : SignalInputs) (b : Board) : Board * float :=
  match truthy (last_price inputs), truthy (sma20 inputs), truthy (sma50 inputs) with
  | Some p, Some s20, Some s50 =>
      let '(b, x) :=
        if fgt p s20 && fgt s20 s50 then (support b above_both_smas, f 12)
        else if fgt p s20 then (support b above_sma20, f 6)
        else if flt p s20 && flt s20 s50 then (conflict b below_both_smas, f (-12))
        else if flt p s20 then (conflict b below_sma20, f (-6))
        else (b, fzero) in
      (add_score b x, x)
  | _, _, _ => (b, fzero)
  end.

(** The directions present among the timeframe states. *)
Definition has_state (st : string) (inputs : SignalInputs) : bool :=
  existsb (λ ts, String.eqb ts.2 st) (trend_states inputs).

Definition alignment_direction (inputs : SignalInputs) : option bool :=
  match trend_alignment inputs with
  | Some a =>
      if String.eqb a "full_bullish" then Some true
      else if String.eqb a "full_bearish" then Some false else None
  | None => None
  end.

(** The score after the multi-timeframe factor, given the score before it. *)
Definition aligned_score (bullish : bool) (weight sma : float) (before : float)
    : result pyerr (float * bool) :=
  let direction := if bullish then fone else f (-1) in
  let confirms_sma := fgt (fmul sma direction) fzero in
  let contribution :=
    fmul (fmul direction weight) (if confirms_sma then flit 5 1 else fone) in
  let proposed := fadd before contribution in
  if fgt (fabs (fsub proposed (f 50))) (fabs (fsub before (f 50))) then
    held ← _hold_within_band before proposed; Ok (held, confirms_sma)
  else Ok (proposed, confirms_sma).

Definition trend_factor (inputs : SignalInputs) (sma : float) (b : Board)
    : result pyerr (Board * float) :=
  match alignment_direction inputs with
  | Some bullish =>
      if fgt (trend_weight inputs) fzero then
        r ← aligned_score bullish (trend_weight inputs) sma (score b);
        let contribution := fsub r.1 (score b) in
        let line := stacked bullish (trend_alignment_age_days inputs) r.2 in
        let b := set_score b r.1 in
        Ok (if bullish then support b line else conflict b line, contribution)
      else Ok (b, fzero)
  | None =>
      Ok (match trend_alignment inputs, trend_states inputs with
          | Some a, _ :: _ =>
              if String.eqb a "not_aligned" && has_state "bullish" inputs
                 && has_state "bearish" inputs
              then
                let shown := omap (λ tf, (λ st, (tf, st)) <$> assoc tf (trend_states inputs))
                               ["1d"; "4h"; "1h"] in
                risk (conflict b (timeframes_contradict shown)) timeframes_disagree_risk
              else b
          | _, _ => b
          end, fzero)
  end.

Definition rsi_factor (inputs : SignalInputs) (b : Board) : Board :=
  match rsi14 inputs with
  | None => b
  | Some r =>
      if fle r (f 30) then support (add_score b (f 8)) (rsi_oversold r)
      else if fge r (f 70) then conflict (set_score b (fsub (score b) (f 8))) (rsi_overbought r)
      else b
  end.

Definition momentum_factor (inputs : SignalInputs) (b : Board) : Board :=
  match momentum_10_pct inputs with
  | None => b
  | Some m =>
      let b := add_score b (np_clip (fmul m (f 2)) (f (-8)) (f 8)) in
      if fgt m fone then support b (momentum_positive m)
      else if flt m (f (-1)) then conflict b (momentum_negative m)
      else b
  end.

Definition premium_factor (inputs : SignalInputs) (b : Board) : Board :=
  match premium_z inputs with
  | None => b
  | Some z =>
      if fgt z fzero then
        let b := set_score b (fsub (score b) (fmin (f 10) (fmul z (f 4)))) in
        if fgt z fone then risk (conflict b (premium_rich z)) premium_rich_risk else b
      else
        let b := add_score b (fmin (f 6) (fmul (fopp z) (f 3))) in
        if flt z (f (-1)) then support b (premium_cheap z) else b
  end.

Definition volatility_factor (inputs : SignalInputs) (b : Board) : Board :=
  if String.eqb (regime inputs) "high_volatility" then
    conflict (risk (set_score b (fsub (score b) (f 5))) volatility_risk) high_volatility
  else b.

Definition fund_flow_factor (inputs : SignalInputs) (b : Board) : Board * float :=
  match fund_flow_z inputs with
  | Some z =>
      if fgt z fone then
        let points := fopp (fmin (f 4) (fmul (fsub z fone) (f 4))) in
        (risk (conflict (add_score b points) (retail_net_buyers z)) crowded_retail_risk, points)
      else (b, fzero)
  | None => (b, fzero)
  end.

Definition technical_only_factor (model_backed : bool) (b : Board) : Board * float :=
  if model_backed then (b, fzero)
  else
    let discounted := fadd (f 50) (fmul (fsub (score b) (f 50)) TECHNICAL_ONLY_WEIGHT) in
    (set_score b discounted, fsub discounted (score b)).

Definition freshness_gate (inputs : SignalInputs) (b : Board) : Board :=
  if negb (data_fresh inputs) then
    {| score := score b; supporting := supporting b; conflicting := conflicting b;
       risks := data_stale :: risks b |}
  else if market_closed inputs then risk b last_session_prices
  else b.

(** ** The reading *)
Inductive headline : Set :=
| favor (s : signal) (score : Z)
| stale_holds.

(** The sentence made of the headline, the forecast and the two counts. *)
Inductive explanation : Set :=
| weighed (h : headline) (forecast : option float) (n_supporting n_conflicting : nat)
| reassessed (h : headline).

Inductive confidence_basis : Set :=
| model_mean (n : nat) (stale_discount : option float)
| assumed_confidence (c : float).

Inductive invalidation : Set :=
| reassess_if_stale
| closes_below_sma20 (sma : float)
| closes_above_sma20 (sma : float).

Record Reading : Set := {
  o_symbol : option string;
  generated_at : instant;
  o_signal : signal;
  o_score : Z;
  o_confidence : float;
  o_headline : headline;
  o_explanation : explanation;
  o_supporting : list note;
  o_conflicting : list note;
  o_risks : list note;
  o_invalidation : invalidation;
  review_at : instant;
  o_data_fresh : bool;
  model_backed : bool;
  o_confidence_basis : confidence_basis;
  model_confidence : option float;
  top_supporting : option note;
  top_conflicting : option note;
  technical_only_points : float;
  fund_flow_points : float;
  trend_alignment_points : float;
  (** the payload's copy of the inputs *)
  o_inputs : SignalInputs;
}.

(** The scoring up to the freshness gate: the final board, [weighted_exp],
    [mean_conf], [measured_conf] and the three published contributions. *)
Definition score_factors (inputs : SignalInputs)
    : result pyerr (Board * option float * float * option float * (float * float * float)) :=
  let b := {| score := f 50; supporting := []; conflicting := [];
              risks := [forecasts_are_estimates; market_risk_note (market_risk inputs)] |} in
  let '(b, weighted_exp) := forecast_factor inputs b in
  let '(b, mean_conf, measured_conf) := confidence_factor inputs b in
  let b := agreement_factor inputs b in
  let '(b, sma) := sma_factor inputs b in
  bt ← trend_factor inputs sma b;
  let '(b, trend_points) := bt in
  let b := rsi_factor inputs b in
  let b := momentum_factor inputs b in
  let b := premium_factor inputs b in
  let b := volatility_factor inputs b in
  let '(b, flow_points) := fund_flow_factor inputs b in
  let backed := match measured_conf with Some _ => true | None => false end in
  let '(b, tech_points) := technical_only_factor backed b in
  Ok (b, weighted_exp, mean_conf, measured_conf, (tech_points, flow_points, trend_points)).

Definition choose_invalidation (inputs : SignalInputs) (final_score : Z) : invalidation :=
  match truthy (sma20 inputs), truthy (last_price inputs) with
  | Some s20, Some _ =>
      if 60 <=? final_score then closes_below_sma20 s20
      else if final_score <=? 40 then closes_above_sma20 s20
      else reassess_if_stale
  | _, _ => reassess_if_stale
  end.

Definition compute_signal (inputs : SignalInputs) (now : instant) : result pyerr Reading :=
  scored ← score_factors inputs;
  let '(b, weighted_exp, mean_conf, measured_conf, (tech_points, flow_points, trend_points)) :=
    scored in
  let b := freshness_gate inputs b in
  rounded ← py_round_int (score b);
  let final_score := if data_fresh inputs then np_clip_int rounded 0 100 else 50 in
  let sig := if data_fresh inputs then _score_to_signal final_score else hold in
  let conf :=
    np_clip (fmul mean_conf (if data_fresh inputs then fone else STALE_CONFIDENCE_MULTIPLIER))
      (flit 5 2) (flit 95 2) in
  let head := if data_fresh inputs then favor sig final_score else stale_holds in
  Ok {| o_symbol := i_symbol inputs;
        generated_at := now;
        o_signal := sig;
        o_score := final_score;
        o_confidence := py_round conf 3;
        o_headline := head;
        o_explanation :=
          if data_fresh inputs then
            weighed head weighted_exp (length (supporting b)) (length (conflicting b))
          else reassessed head;
        o_supporting := supporting b;
        o_conflicting := conflicting b;
        o_risks := risks b;
        o_invalidation := choose_invalidation inputs final_score;
        review_at := now + REVIEW_AFTER;
        o_data_fresh := data_fresh inputs;
        model_backed := match measured_conf with Some _ => true | None => false end;
        o_confidence_basis :=
          match measured_conf with
          | Some _ =>
              model_mean (length (confidences inputs))
                (if data_fresh inputs then None else Some STALE_CONFIDENCE_MULTIPLIER)
          | None => assumed_confidence TECHNICAL_ONLY_CONFIDENCE
          end;
        top_supporting := List.head (supporting b);
        top_conflicting := List.head (conflicting b);
        model_confidence := (λ m, py_round m 4) <$> measured_conf;
        technical_only_points := py_round tech_points 2;
        fund_flow_points := py_round flow_points 2;
        trend_alignment_points := py_round trend_points 2;
        o_inputs := inputs |}.
End Engine.

(** ** Bands *)
Lemma band_table s b low high :
  0 ≤ s ≤ 100 → (b, low, high) ∈ _SIGNAL_BANDS →
  (low ≤ s ≤ high ↔ _score_to_signal s = b).
Proof.
  intros Hs Hin. unfold _SIGNAL_BANDS in Hin. rewrite !elem_of_cons, elem_of_nil in Hin.
  unfold _score_to_signal.
  destruct Hin as [[= -> -> ->]|[[= -> -> ->]|[[= -> -> ->]|[[= -> -> ->]|[[= -> -> ->]|[]]]]]];
    destruct (Z.leb_spec 75 s), (Z.leb_spec 60 s), (Z.leb_spec s 25), (Z.leb_spec s 40);
    (split; [intros ?; (done || lia)|intros ?; (done || lia)]).
Qed.

Lemma find_band b :
  ∃ low high, find (λ x : signal * Z * Z, bool_decide (x.1.1 = b)) _SIGNAL_BANDS = Some (b, low, high)
    ∧ (b, low, high) ∈ _SIGNAL_BANDS ∧ 0 ≤ low ≤ high ∧ high ≤ 100.
Proof.
  destruct b; unfold _SIGNAL_BANDS; do 2 eexists; (split; [vm_compute; reflexivity|]);
    (split; [rewrite !elem_of_cons; tauto|lia]).
Qed.

(** The band edges are exact floats, and round to themselves. *)
Lemma edge_floats k :
  k ∈ [0; 25; 26; 40; 41; 59; 60; 74; 75; 100] →
  valid_float (f k) = true ∧ is_finite (f k) = true ∧ py_round_int (f k) = Ok k.
Proof.
  rewrite !elem_of_cons, elem_of_nil.
  intros [->|[->|[->|[->|[->|[->|[->|[->|[->|[->|[]]]]]]]]]]]; vm_compute; done.
Qed.

Lemma band_edges b low high :
  (b, low, high) ∈ _SIGNAL_BANDS →
  low ∈ [0; 25; 26; 40; 41; 59; 60; 74; 75; 100]
  ∧ high ∈ [0; 25; 26; 40; 41; 59; 60; 74; 75; 100].
Proof.
  unfold _SIGNAL_BANDS. rewrite !elem_of_cons, elem_of_nil.
  intros [[= -> -> ->]|[[= -> -> ->]|[[= -> -> ->]|[[= -> -> ->]|[[= -> -> ->]|[]]]]]]; lia.
Qed.

Lemma py_round_int_finite x r : py_round_int x = Ok r → is_finite x = true.
Proof. by destruct x. Qed.

Lemma finite_not_nan x : is_finite x = true → is_nan x = false.
Proof. by destruct x. Qed.

Lemma finite_between x lo hi :
  is_nan x = false → is_finite lo = true → is_finite hi = true →
  flt x lo = false → flt hi x = false → is_finite x = true.
Proof. destruct x as [|[]| |]; try done; [by destruct lo|by destruct hi]. Qed.

Section Laws.
Context `{!Numpy} `{!NumpyLaws}.

Notation band r := (_score_to_signal (np_clip_int r 0 100)).

Lemma clip_band low high b r :
  (b, low, high) ∈ _SIGNAL_BANDS → 0 ≤ low ≤ high → high ≤ 100 →
  (band r = b ↔ low ≤ Z.min 100 (Z.max 0 r) ≤ high).
Proof.
  intros Hin Hl Hh. rewrite np_clip_int_spec by lia. symmetry. apply band_table; [lia|done].
Qed.

(** Where the multi-timeframe factor is capped, it cannot change the call:
    for every score that rounds and every proposed score (infinite ones
    included), the capped score rounds to an integer of the same band. *)
Theorem hold_within_band_keeps before after h rb :
  valid_float before = true → valid_float after = true → is_nan after = false →
  py_round_int before = Ok rb → _hold_within_band before after = Ok h →
  ∃ rh, py_round_int h = Ok rh ∧ band rh = band rb.
Proof.
  intros Hvb Hva Hnan Hrb Hh. pose proof (py_round_int_finite _ _ Hrb) as Hfb.
  unfold _hold_within_band in Hh. rewrite Hrb in Hh. cbn [mbind result_bind] in Hh.
  cbv zeta in Hh.
  destruct (find_band (band rb)) as (low&high&Hfind&Hin&Hlow&Hhigh).
  rewrite Hfind in Hh. injection Hh as <-.
  destruct (band_edges _ _ _ Hin) as [Hel Heh].
  destruct (edge_floats low Hel) as (Hvl&Hfl&Hrl). destruct (edge_floats high Heh) as (Hvh&Hfh&Hrh).
  pose proof (proj1 (clip_band low high (band rb) rb Hin Hlow Hhigh) eq_refl) as Hcl.
  assert (∀ r, low ≤ Z.min 100 (Z.max 0 r) ≤ high → band r = band rb) as Hsame.
  { intros r Hr. by apply (clip_band low high). }
  destruct (fgt after before) eqn:Hgt.
  - unfold fmin. destruct (flt (f high) after) eqn:Hc.
    + exists high. split; [done|]. apply Hsame. lia.
    + assert (is_finite after = true) as Hfa
        by (apply (finite_between after before (f high)); try done; by apply flt_asym).
      destruct (py_round_int after) as [ra|] eqn:Hra; [|by destruct after].
      exists ra. split; [done|]. apply Hsame.
      assert (rb ≤ ra).
      { apply (py_round_int_mono before after); try done. rewrite fle_spec.
        unfold fgt in Hgt. by rewrite Hgt. }
      assert (ra ≤ high).
      { apply (py_round_int_mono after (f high)); try done.
        rewrite fle_flt by (by apply finite_not_nan). by rewrite Hc. }
      lia.
  - unfold fmax. destruct (fgt (f low) after) eqn:Hc.
    + exists low. split; [done|]. apply Hsame. lia.
    + assert (is_finite after = true) as Hfa by by apply (finite_between after (f low) before).
      destruct (py_round_int after) as [ra|] eqn:Hra; [|by destruct after].
      exists ra. split; [done|]. apply Hsame.
      assert (ra ≤ rb).
      { apply (py_round_int_mono after before); try done.
        rewrite fle_flt by (by apply finite_not_nan). unfold fgt in Hgt. by rewrite Hgt. }
      assert (low ≤ ra).
      { apply (py_round_int_mono (f low) after); try done.
        rewrite fle_flt by (by apply finite_not_nan). unfold fgt in Hc. by rewrite Hc. }
      lia.
Qed.

(** Every published reading is consistent: the score is between 0 and 100 and
    the call is the band of the score; stale inputs force hold at 50 whatever
    the models say, with the staleness as the first risk; and a reading is
    marked model-backed exactly when a confidence was reported. *)
Theorem reading_consistent inputs now r :
  compute_signal inputs now = Ok r →
  0 ≤ o_score r ≤ 100
  ∧ (∀ low high, (o_signal r, low, high) ∈ _SIGNAL_BANDS → low ≤ o_score r ≤ high)
  ∧ o_data_fresh r = data_fresh inputs
  ∧ (data_fresh inputs = false →
       o_score r = 50 ∧ o_signal r = hold ∧ o_headline r = stale_holds
       ∧ List.head (o_risks r) = Some data_stale)
  ∧ (model_backed r = true ↔ confidences inputs ≠ []).
Proof.
  unfold compute_signal. intros Hs.
  apply bind_Ok in Hs as ([[[[b we] mean] meas] [[tp fp] trp]]&Hsc&Hs).
  apply bind_Ok in Hs as (rounded&_&Hs). injection Hs as <-. cbn.
  assert (∀ x, 0 ≤ np_clip_int x 0 100 ≤ 100) as Hclip
    by (intros x; rewrite np_clip_int_spec by lia; lia).
  split; [destruct (data_fresh inputs); [apply Hclip|lia]|]. split; [|split; [done|split]].
  - destruct (data_fresh inputs); intros low high Hin.
    + by apply (band_table _ _ low high (Hclip rounded) Hin).
    + apply (band_table 50 hold low high); done || lia.
  - intros Hst. unfold freshness_gate. rewrite Hst. done.
  - unfold score_factors in Hsc.
    destruct (forecast_factor _ _) as [b1 w1].
    unfold confidence_factor in Hsc. destruct (confidences inputs) as [|c cs].
    + destruct (sma_factor _ _) as [b3 sma]. apply bind_Ok in Hsc as ([b4 tr]&_&Hsc).
      destruct (fund_flow_factor _ _) as [b5 fl]. simpl in Hsc. simplify_eq.
      by split.
    + destruct (sma_factor _ _) as [b3 sma]. apply bind_Ok in Hsc as ([b4 tr]&_&Hsc).
      destruct (fund_flow_factor _ _) as [b5 fl]. simpl in Hsc. simplify_eq.
      by split.
Qed.
End Laws.

(** ** A concrete NumPy *)
Definition np_average_ref (wc : list (float * float)) : float :=
  fdiv_ieee (foldl fadd fzero ((λ p, fmul p.1 p.2) <$> wc)) (foldl fadd fzero (fst <$> wc)).
Definition np_clip_ref (x lo hi : float) : float :=
  if is_nan x then x else fmin (fmax x lo) hi.

#[export] Instance reference_numpy : Numpy := {
  np_average := np_average_ref;
  np_mean xs := fdiv_ieee (foldl fadd fzero xs) (float_of_Z (Z.of_nat (length xs)));
  np_clip := np_clip_ref;
  np_clip_int x lo hi := Z.min hi (Z.max lo x);
  np_sign x := if flt x fzero then float_of_Z (-1) else if fgt x fzero then fone else x;
}.

#[export] Instance reference_numpy_laws : @NumpyLaws reference_numpy.
Proof.
  split; [|done]. intros x lo hi Hx Hle. simpl. unfold np_clip_ref. rewrite Hx.
  destruct (fle_not_nan _ _ Hle) as [Hlo Hhi]. unfold fmin, fmax, fgt.
  assert (∀ y, is_nan y = false → fle y y = true) as Hrefl.
  { intros y Hy. rewrite fle_flt, flt_irrefl; done. }
  destruct (flt x lo) eqn:H1.
  - destruct (flt hi lo) eqn:H2; [|by rewrite Hrefl].
    rewrite fle_flt in Hle by done. by rewrite H2 in Hle.
  - destruct (flt hi x) eqn:H2; [by rewrite Hrefl|].
    rewrite !fle_flt by done. by rewrite H1, H2.
Qed.

Lemma hold_within_band_keeps_witness :
  ∃ rh, py_round_int (f 59) = Ok rh
        ∧ _score_to_signal (np_clip_int rh 0 100) = _score_to_signal (np_clip_int 54 0 100).
Proof.
  apply (hold_within_band_keeps (flit 541 1) finf (f 59) 54);
    vm_compute; reflexivity.
Defined.

(** A neutral board: one confidence of 0.5, an oversold RSI. *)
Definition neutral_inputs (alignment : option string) : SignalInputs :=
  {| i_symbol := Some "XAUUSD"; expected_change_pct := [];
     round_trip_cost_basis := "assumed"; confidence := [("1d", Some (flit 5 1))];
     last_price := None; sma20 := None; sma50 := None; rsi14 := Some (f 25);
     momentum_10_pct := None; premium_z := None; regime := "normal"; data_fresh := true;
     market_closed := false; i_round_trip_cost_pct := flit 22 1;
     trend_alignment := alignment; trend_states := []; trend_alignment_age_days := None;
     trend_weight := f 10; fund_flow_z := None; market_risk := "";
     omitted_factors := []; stale_reason := None; round_trip_cost_source := None;
     round_trip_cost_reason := None; round_trip_cost_observed_at := None;
     round_trip_cost_age_hours := None |}.

Definition call_of (alignment : option string) : option (signal * Z) :=
  match compute_signal (neutral_inputs alignment) 0 with
  | Ok r => Some (o_signal r, o_score r)
  | Err _ => None
  end.

Lemma reading_consistent_witness :
  match compute_signal (neutral_inputs None) 0 with
  | Ok r => 0 ≤ o_score r ≤ 100
  | Err _ => False
  end.
Proof.
  destruct (compute_signal (neutral_inputs None) 0) as [r|e] eqn:Hr.
  - exact (proj1 (reading_consistent _ _ r Hr)).
  - vm_compute in Hr. discriminate Hr.
Defined.

(** The cap holds only at the point where the factor is applied.  The factors
    counted after it are added to the capped score, so a bullish alignment turns
    a hold that it alone could not move into a buy. *)
Example alignment_creates_a_buy :
  call_of None = Some (hold, 58) ∧ call_of (Some "full_bullish") = Some (buy, 67).
Proof. vm_compute. split; reflexivity. Qed.
