(* ===== verification/SignalAssembly.v ===== *)
(** * Assembling and publishing the signals

    The second half of [app/signals/engine.py] (the reads a reading is made of, and the row
    it becomes), [detect_regime] of [app/models/training.py], and the pass over the
    universe, [app/jobs/signals.py].

    The tables are a record.  Which statement fails is [fails]; the clock is read at the
    moments [moment] names; [row_ok] is the database's word on a row of [signals]; [repr]
    is the interpreter's. *)
From S2P Require Import Prelude PyFloat PyTime PyText PyJson MarketHours PriceDB Features SignalUniverse Costs SignalEngine.
Local Open Scope string_scope.
Local Open Scope list_scope.
Local Open Scope Z_scope.

(** The statistics of NumPy and of a pandas series. *)
Class Statistics : Type := {
  quantile : list float → float → float;
  polyfit : list float → option (float * float);  (** slope and intercept; [None]: [LinAlgError] *)
  np_std : list float → float;
  series_mean : list float → float;
  series_std : list float → float;
}.

(** ** The regime: [models/training.py] *)
Definition REGIME_WINDOW : nat := 20.

Definition dropna (xs : list float) : list float := List.filter (λ x, negb (is_nan x)) xs.

(** [np.polyval] of a line *)
Definition polyval (line : float * float) (x : float) : float :=
  fadd (fmul (fadd (fmul fzero x) line.1) x) line.2.

Definition last_n {A} (n : nat) (xs : list A) : list A := drop (length xs - n) xs.

(** [None] where the fit of the line fails. *)
Definition detect_regime `{Pandas} `{Statistics} (values : list float) : option string :=
  if (length values <? REGIME_WINDOW + 5)%nat then Some "unknown"
  else
    match dropna (rolling_std REGIME_WINDOW (dropna (pct_change 1 values))) with
    | [] => Some "unknown"
    | vol_series =>
        let current_vol := List.last vol_series fnan in
        if fgt current_vol (quantile vol_series (flit 9 1)) && fgt current_vol fzero
        then Some "high_volatility"
        else
          let tail := log <$> last_n REGIME_WINDOW values in
          line ← polyfit tail;
          let x := (λ i, float_of_Z (Z.of_nat i)) <$> seq 0 REGIME_WINDOW in
          let resid := zip_with (λ y x, fsub y (polyval line x)) tail x in
          let strength :=
            fdiv_ieee (fmul (fabs line.1) (float_of_Z (Z.of_nat REGIME_WINDOW)))
              (fadd (np_std resid) (flit 1 12)) in
          Some (if fgt strength (float_of_Z 2)
                then if fgt line.1 fzero then "trending_up" else "trending_down"
                else "ranging")
    end.

(** ** The tables and the settings *)
Record PredictionRow : Set := {
  p_symbol : string;
  p_horizon : string;
  p_predicted_at : instant;
  p_expected_change_pct : float;
  p_confidence : float;
}.

Record TrendRow : Set := {
  t_alignment : string;
  t_timeframes : json;
  t_data_fresh : bool;
  t_calculated_at : instant;
}.

Record TrendEvent : Set := { e_symbol : string; e_alignment : string; e_occurred_at : instant }.

Record SignalSettings : Set := {
  market : Settings;
  trend_alignment_enabled : bool;
  trend_alignment_signal_weight : float;
  trend_alignment_max_age_minutes : Z;
}.

(** What the overview page is told of the universe. *)
Record Contract : Set := {
  c_as_of : instant;
  c_eligible : list string;
  c_attempted : list string;
  (** [None]: no reason recorded *)
  c_withheld : list (string * option withheld);
  c_unavailable : list (string * string);
  c_min_scoreable_factors : nat;
  c_contract_version : Z;
}.

Inductive setting : Set := PolicySetting (p : DecisionPolicy) | UniverseSetting (c : Contract) | OtherSetting (v : json).

Record SignalDB : Type := {
  sd_prices : list PriceRow;
  sd_raw : list RawRow;
  sd_predictions : list PredictionRow;
  sd_trends : gmap string TrendRow;
  sd_events : list TrendEvent;
  sd_signals : list (Z * Reading);
  sd_next_id : Z;
  sd_settings : gmap string (setting * instant);
}.

Inductive statement : Set :=
| ReadPrices | ReadPredictions | ReadAlignment | ReadEntry | ReadCost | InsertSignal | UpsertSetting.

Inductive signal_exn : Type :=
| Ineligible (e : ineligible)
| Uncaught (e : pyerr)
| AttributeError
| LinAlgError
| StatementFailed (s : statement)
| RowRefused.

Inductive moment : Set :=
| PassStarted | PassFinished | PolicyCost | PolicyStored | UniverseAsOf | UniverseStored
| Scoring (symbol : string) | PredictionsCutoff (symbol : string) | CostCutoff (symbol : string).

Definition computed {A} (r : result pyerr A) : result signal_exn A :=
  match r with Ok x => Ok x | Err e => Err (Uncaught e) end.

Fixpoint latest_by_key {A} (k : string) (v : A) (items : list (string * A)) : list (string * A) :=
  match items with
  | [] => [(k, v)]
  | (k', v') :: items => if String.eqb k k' then (k, v) :: items else (k', v') :: latest_by_key k v items
  end.

(** A raw observation as the cost lookup reads it. *)
Definition quote_of (r : RawRow) : RawObservation :=
  {| ro_provider_code := raw_provider_code r; ro_symbol := raw_symbol r; ro_quality := raw_quality r;
     ro_observed_at := naive (raw_observed_at r);
     ro_raw_payload := match raw_payload r with Some p => JObj p | None => JNull end |}.

(** ** One factor: scored, left out with its reason, or not to be considered *)
Inductive factor_read (A : Type) : Type := NotConsidered | LeftOut (why : omit_reason) | Scored (value : A).
Arguments NotConsidered {A}.
Arguments LeftOut {A} why.
Arguments Scored {A} value.

Definition when_considered {A} (considered : bool) (v : factor_read A) : factor_read A :=
  if considered then v else NotConsidered.
Definition value_of {A} (v : factor_read A) : option A := match v with Scored x => Some x | _ => None end.
Definition scored_key {A} (spec : FactorSpec) (v : factor_read A) : list string :=
  match v with Scored _ => [key spec] | _ => [] end.
Definition omission_of {A} (spec : FactorSpec) (v : factor_read A) : list (string * omit_reason) :=
  match v with LeftOut why => [(key spec, why)] | _ => [] end.
Definition or_left_out {A} (x : option A) (why : omit_reason) : factor_read A :=
  match x with Some v => Scored v | None => LeftOut why end.

Section Assembly.
Context `{P : Pandas} `{ST : Statistics} `{SA : SqlAscending} `{SO : SqlOrder}.
Context (TEHRAN : tzinfo) (repr : json → string) (fails : string → statement → bool) (clock : moment → instant).

(** ** Reads *)
Definition run_statement (symbol : string) (s : statement) : result signal_exn () :=
  raise_if (fails symbol s) (StatementFailed s).

Definition _load_latest_predictions (db : SignalDB) (symbol : string)
    : result signal_exn (list (string * (float * float))) :=
  _ ← run_statement symbol ReadPredictions;
  let cutoff := clock (PredictionsCutoff symbol) - 24 * us_hour in
  let rows := oldest_first p_predicted_at
    (List.filter (λ r, (cutoff <=? p_predicted_at r) && String.eqb (p_symbol r) symbol) (sd_predictions db)) in
  Ok (foldl (λ latest r, latest_by_key (p_horizon r) (p_expected_change_pct r, p_confidence r) latest) [] rows).

Record TrendRead : Set := {
  tr_alignment : string;
  tr_states : list (string * string);
  tr_age_days : option float;
  tr_weight : float;
}.

(** The states of the legs that have one. *)
Definition leg_states (timeframes : json) : result signal_exn (list (string * string)) :=
  match if PyJson.truthy timeframes then timeframes else JObj [] with
  | JObj items =>
      Ok (omap (λ kv, match kv.2 with
                      | JObj leg =>
                          let trend := jget "trend" leg in
                          if PyJson.truthy trend then Some (kv.1, py_str repr trend) else None
                      | _ => None
                      end) items)
  | _ => Err AttributeError
  end.

Definition entered_at (db : SignalDB) (symbol alignment : string) : option instant :=
  List.head (e_occurred_at <$> newest_first e_occurred_at
    (List.filter (λ e, String.eqb (e_symbol e) symbol && String.eqb (e_alignment e) alignment) (sd_events db))).

Definition _load_trend_alignment (db : SignalDB) (s : SignalSettings) (symbol : string) (now : instant)
    : result signal_exn (option TrendRead) :=
  let weight :=
    if feq (trend_alignment_signal_weight s) fzero then fzero else trend_alignment_signal_weight s in
  if negb (trend_alignment_enabled s) || fle weight fzero then Ok None
  else
    _ ← run_statement symbol ReadAlignment;
    match sd_trends db !! symbol with
    | None => Ok None
    | Some row =>
        if negb (t_data_fresh row) || (trend_alignment_max_age_minutes s * us_minute <? now - t_calculated_at row)
        then Ok None
        else
          states ← leg_states (t_timeframes row);
          age_days ←
            (if mem (t_alignment row) ["full_bullish"; "full_bearish"] then
               _ ← run_statement symbol ReadEntry;
               Ok ((λ entered, fmax fzero (fdiv_ieee (total_seconds (now - entered)) (float_of_Z 86400)))
                   <$> entered_at db symbol (t_alignment row))
             else Ok None);
          Ok (Some {| tr_alignment := t_alignment row; tr_states := states; tr_age_days := age_days;
                      tr_weight := weight |})
    end.

(** The rows the loader reads: accepted, of the symbols asked for, and not of an excluded source. *)
Definition loadable (symbols : list string) (r : PriceRow) : bool :=
  mem (pr_symbol r) symbols && String.eqb (pr_quality r) "ok" && negb (mem (pr_source r) SIGNAL_EXCLUDED_SOURCES).

Definition _load_daily_closes (db : SignalDB) (symbol : string) (symbols : list string)
    : result signal_exn (list PricePoint * list (string * series)) :=
  _ ← run_statement symbol ReadPrices;
  let df := point_of <$> oldest_first pr_observed_at (List.filter (loadable symbols) (sd_prices db)) in
  Ok (df, match df with [] => [] | _ => (λ sym, (sym, daily_close df sym)) <$> symbols end).

Definition newest_of (df : list PricePoint) (symbol : string) : option instant :=
  match pp_observed_at <$> List.filter (λ p, String.eqb (pp_symbol p) symbol) df with
  | [] => None
  | t :: ts => Some (foldl Z.max t ts)
  end.

(** [(data_fresh, market_closed, stale_reason)] *)
Definition _freshness (df : list PricePoint) (symbol : string) (now : instant) (s : SignalSettings)
    : bool * bool * option stale_note :=
  let market_closed := negb (is_market_open TEHRAN symbol now (market s)) in
  match newest_of df symbol with
  | None => (false, market_closed, Some (nothing_stored symbol))
  | Some last =>
      if is_acceptably_fresh TEHRAN symbol (Some (naive last)) (naive now) (market s) None
      then (true, market_closed, None)
      else
        let age_hours := fdiv_ieee (total_seconds (now - last)) (float_of_Z 3600) in
        (false, market_closed,
         Some (too_old symbol age_hours last (stale_minutes (market s)) market_closed))
  end.

Definition _fund_flow_z (df : list PricePoint) (closes : list (string * series)) (now : instant)
    (s : SignalSettings) : factor_read float :=
  let '(fresh, _, stale) := _freshness df FUND_FLOW_SYMBOL now s in
  if negb fresh then LeftOut (flow_stale stale)
  else
    let values := snd <$> default [] (assoc FUND_FLOW_SYMBOL closes) in
    if Z.of_nat (length values) <? min_bars FACTOR_FUND_FLOW
    then LeftOut (flow_short (Z.of_nat (length values)))
    else
      let recent := last_n (Z.to_nat (window FACTOR_FUND_FLOW)) values in
      let std := series_std recent in
      if negb (fgt std fzero) then LeftOut flow_still
      else Scored (fdiv_ieee (fsub (List.last values fnan) (series_mean recent)) std).

(** ** The factors of a symbol *)
Definition premium_applies (applicable : list string) : bool := mem (key FACTOR_PREMIUM) applicable.

(** The symbols whose closes a profile reads. *)
Definition wanted (symbol : string) (applicable : list string) : list string :=
  py_sorted String.ltb (remove_dups
    (symbol :: (if premium_applies applicable then ["USD_IRT"; "XAUUSD"] else [])
       ++ (if mem (key FACTOR_FUND_FLOW) applicable then [FUND_FLOW_SYMBOL] else []))).

(** [_f]: a cell of the last row that is there and is a number. *)
Definition last_cell (last : list (string * float)) (col : string) : option float :=
  match assoc col last with Some v => if is_nan v then None else Some v | None => None end.

Definition read_forecast (db : SignalDB) (symbol : string)
    : result signal_exn (factor_read (list (string * (float * float)))) :=
  latest ← _load_latest_predictions db symbol;
  Ok (match latest with [] => LeftOut (no_recent_prediction symbol) | _ => Scored latest end).

Definition read_sma (values : list float) (last : list (string * float)) : factor_read (float * float) :=
  let n := Z.to_nat (window FACTOR_TREND_SMA) in
  let sma50 := if (n <=? length values)%nat then Some (series_mean (last_n n values)) else None in
  match last_cell last "roll_mean_20", sma50 with
  | Some s20, Some s50 => Scored (s20, s50)
  | _, _ => LeftOut sma_gaps
  end.

Definition read_regime (values : list float) : result signal_exn (factor_read string) :=
  match detect_regime values with
  | None => Err LinAlgError
  | Some r => Ok (if String.eqb r "unknown" then LeftOut regime_unknown else Scored r)
  end.

(** Nothing that goes wrong in this read reaches the caller. *)
Definition read_trend (db : SignalDB) (s : SignalSettings) (symbol : string) (now : instant) : factor_read TrendRead :=
  match _load_trend_alignment db s symbol now with
  | Ok (Some t) => Scored t
  | Ok None | Err _ => LeftOut no_trend_read
  end.

(** What the price history of a symbol says, when there is one. *)
Definition last_features (symbol : string) (applicable : list string) (closes : list (string * series))
    (bars : Z) : list (string * float) :=
  let context sym := if premium_applies applicable then assoc sym closes else None in
  last_row (compute_feature_frame (default [] (assoc symbol closes))
    {| Features.usd_irt := context "USD_IRT"; Features.xau_usd := context "XAUUSD";
       Features.gold_fund := None; Features.fund_flow := None |} (Some SPACING_DAILY) (Some bars)).

Definition basis_text (b : basis) : string :=
  match b with observed_spread => "observed_spread" | assumed => "assumed" end.

Record Assembled : Type := { as_inputs : SignalInputs; as_scored : list string; as_bars : Z }.

Definition assemble_inputs (db : SignalDB) (s : SignalSettings) (symbol : string) (now : instant)
    : result signal_exn Assembled :=
  profile ← match profile_for _forecast_symbols _alignment_symbols symbol with
            | Ok p => Ok p
            | Err e => Err (Ineligible e)
            end;
  let applicable := keys profile in
  loaded ← _load_daily_closes db symbol (wanted symbol applicable);
  let '(df, closes) := loaded in
  let values := snd <$> default [] (assoc symbol closes) in
  let bars := Z.of_nat (length values) in
  let '(supported, too_short) := history_omissions profile bars in
  let considered spec := mem (key spec) supported in
  let priced spec := (0 <? bars) && considered spec in
  cost ← computed (resolve_cost (if fails symbol ReadCost then None else Some (quote_of <$> sd_raw db))
                     (clock (CostCutoff symbol)) symbol);
  forecast ← (if considered FACTOR_FORECAST then read_forecast db symbol else Ok NotConsidered);
  let last := last_features symbol applicable closes bars in
  let sma := when_considered (priced FACTOR_TREND_SMA) (read_sma values last) in
  let rsi := when_considered (priced FACTOR_RSI) (or_left_out (last_cell last "rsi_14") rsi_undefined) in
  let momentum := when_considered (priced FACTOR_MOMENTUM)
    (or_left_out ((λ m, fmul m (float_of_Z 100)) <$> last_cell last "momentum_10") momentum_undefined) in
  let premium := when_considered (priced FACTOR_PREMIUM) (or_left_out (last_cell last "premium_z_30") premium_unaligned) in
  volatility ← (if priced FACTOR_VOLATILITY then read_regime values else Ok NotConsidered);
  let flow := when_considered (considered FACTOR_FUND_FLOW) (_fund_flow_z df closes now s) in
  let trend := when_considered (considered FACTOR_MA_ALIGNMENT) (read_trend db s symbol now) in
  let '(fresh, closed, stale) := _freshness df symbol now s in
  let latest := default [] (value_of forecast) in
  Ok {| as_inputs :=
          {| i_symbol := Some symbol;
             expected_change_pct := (λ h, (h.1, Some h.2.1)) <$> latest;
             round_trip_cost_basis := basis_text (cr_basis cost);
             confidence := (λ h, (h.1, Some h.2.2)) <$> latest;
             last_price := if 0 <? bars then Some (List.last values fnan) else None;
             sma20 := fst <$> value_of sma; sma50 := snd <$> value_of sma;
             rsi14 := value_of rsi; momentum_10_pct := value_of momentum; premium_z := value_of premium;
             regime := default "unknown" (value_of volatility);
             data_fresh := fresh; market_closed := closed;
             i_round_trip_cost_pct := cost_pct cost;
             trend_alignment := tr_alignment <$> value_of trend;
             trend_states := default [] (tr_states <$> value_of trend);
             trend_alignment_age_days := value_of trend ≫= tr_age_days;
             trend_weight := default fzero (tr_weight <$> value_of trend);
             fund_flow_z := value_of flow;
             market_risk := default EmptyString (assoc symbol MARKET_RISK);
             omitted_factors :=
               too_short ++ inapplicable profile
               ++ omission_of FACTOR_FORECAST forecast ++ omission_of FACTOR_TREND_SMA sma
               ++ omission_of FACTOR_RSI rsi ++ omission_of FACTOR_MOMENTUM momentum
               ++ omission_of FACTOR_PREMIUM premium ++ omission_of FACTOR_VOLATILITY volatility
               ++ omission_of FACTOR_FUND_FLOW flow ++ omission_of FACTOR_MA_ALIGNMENT trend;
             stale_reason := stale;
             round_trip_cost_source := cr_source cost;
             round_trip_cost_reason := Some (cr_reason cost);
             round_trip_cost_observed_at := cr_observed_at cost;
             round_trip_cost_age_hours := age_hours cost |};
        as_scored :=
          scored_key FACTOR_FORECAST forecast ++ scored_key FACTOR_TREND_SMA sma ++ scored_key FACTOR_RSI rsi
          ++ scored_key FACTOR_MOMENTUM momentum ++ scored_key FACTOR_PREMIUM premium
          ++ scored_key FACTOR_VOLATILITY volatility ++ scored_key FACTOR_FUND_FLOW flow
          ++ scored_key FACTOR_MA_ALIGNMENT trend;
        as_bars := bars |}.

(** ** Publishing one symbol *)
Record SignalOutcome : Type := {
  so_symbol : string;
  so_bars : Z;
  so_payload : option (Z * Reading);
  so_withheld : option withheld;
  so_omitted : list (string * omit_reason);
}.

Definition so_published (o : SignalOutcome) : bool := match so_payload o with Some _ => true | None => false end.

(** The entry of the report. *)
Inductive Summary : Type :=
| SumWithheld (reason : option withheld) (bars : Z) (omitted : list (string * omit_reason))
| SumPublished (id : Z) (call : signal) (score : Z) (confidence : float) (backed fresh : bool) (bars : Z)
    (omitted : list (string * omit_reason))
| SumError (e : signal_exn).

Definition summary (o : SignalOutcome) : Summary :=
  match so_payload o with
  | None => SumWithheld (so_withheld o) (so_bars o) (so_omitted o)
  | Some (id, r) =>
      SumPublished id (o_signal r) (o_score r) (o_confidence r) (model_backed r) (o_data_fresh r) (so_bars o)
        (so_omitted o)
  end.

Context `{N : Numpy} (row_ok : Reading → bool).

Definition insert_signal (db : SignalDB) (r : Reading) : SignalDB :=
  {| sd_prices := sd_prices db; sd_raw := sd_raw db; sd_predictions := sd_predictions db; sd_trends := sd_trends db;
     sd_events := sd_events db; sd_signals := sd_signals db ++ [(sd_next_id db, r)]; sd_next_id := sd_next_id db + 1;
     sd_settings := sd_settings db |}.

Definition generate_signal_for (db : SignalDB) (s : SignalSettings) (symbol : string)
    : result signal_exn (SignalDB * SignalOutcome) :=
  let now := clock (Scoring symbol) in
  a ← assemble_inputs db s symbol now;
  let omitted := omitted_factors (as_inputs a) in
  match withholding_reason (as_scored a) with
  | Some refusal =>
      Ok (db, {| so_symbol := symbol; so_bars := as_bars a; so_payload := None; so_withheld := Some refusal;
                 so_omitted := omitted |})
  | None =>
      r ← computed (compute_signal (as_inputs a) now);
      _ ← run_statement symbol InsertSignal;
      _ ← raise_if (negb (row_ok r)) RowRefused;
      Ok (insert_signal db r,
          {| so_symbol := symbol; so_bars := as_bars a; so_payload := Some (sd_next_id db, r); so_withheld := None;
             so_omitted := omitted |})
  end.

(** ** Settings *)
Definition DECISION_POLICY_KEY : string := "decision_policy".
Definition SIGNAL_UNIVERSE_KEY : string := "signal_universe".

(** [upsert_setting], behind the [try] of both callers. *)
Definition upsert_setting (db : SignalDB) (key : string) (v : setting) (now : instant) : SignalDB :=
  if fails key UpsertSetting then db
  else
    {| sd_prices := sd_prices db; sd_raw := sd_raw db; sd_predictions := sd_predictions db;
       sd_trends := sd_trends db; sd_events := sd_events db; sd_signals := sd_signals db;
       sd_next_id := sd_next_id db; sd_settings := <[key := (v, now)]> (sd_settings db) |}.

Definition publish_decision_policy (db : SignalDB) : result signal_exn (SignalDB * DecisionPolicy) :=
  policy ← computed (decision_policy (if fails DEFAULT_COST_SYMBOL ReadCost then None else Some (quote_of <$> sd_raw db))
                       (clock PolicyCost));
  Ok (upsert_setting db DECISION_POLICY_KEY (PolicySetting policy) (clock PolicyStored), policy).

(** ** The pass: [jobs/signals.py] *)
Record SignalsReport : Type := {
  sr_started_at : instant;
  sr_symbols : list (string * Summary);
  sr_errors : list (string * signal_exn);
  sr_published : Z;
  sr_withheld : Z;
  sr_failed : Z;
  sr_policy : DecisionPolicy;
  sr_universe : Contract;
  sr_finished_at : instant;
}.

Inductive run_error : Type :=
| NotEligible (unknown : list (string * option string)) (eligible : list string)
| PolicyFailed (e : signal_exn)
| SignalsGenerationFailed (r : SignalsReport).

(** The order of the caller, once each. *)
Fixpoint dedup (seen : list string) (symbols : list string) : list string :=
  match symbols with
  | [] => []
  | x :: symbols => if mem x seen then dedup seen symbols else x :: dedup (x :: seen) symbols
  end.

Definition _requested (symbols : option (list string)) : result run_error (list string) :=
  match symbols with
  | None | Some [] => Ok SIGNAL_SYMBOLS
  | Some symbols =>
      match List.filter (λ s, negb (mem s SIGNAL_SYMBOLS)) symbols with
      | [] => Ok (dedup [] symbols)
      | unknown => Err (NotEligible ((λ s, (s, assoc s EXCLUDED_SYMBOLS)) <$> unknown) SIGNAL_SYMBOLS)
      end
  end.

(** The counters of the loop. *)
Record Tally : Type := {
  ta_symbols : list (string * Summary);
  ta_errors : list (string * signal_exn);
  ta_published : Z;
  ta_withheld : Z;
  ta_failed : Z;
  ta_reasons : list (string * option withheld);
}.

Definition empty_tally : Tally :=
  {| ta_symbols := []; ta_errors := []; ta_published := 0; ta_withheld := 0; ta_failed := 0; ta_reasons := [] |}.

Definition tally_error (t : Tally) (symbol : string) (e : signal_exn) : Tally :=
  {| ta_symbols := ta_symbols t ++ [(symbol, SumError e)]; ta_errors := ta_errors t ++ [(symbol, e)];
     ta_published := ta_published t; ta_withheld := ta_withheld t; ta_failed := ta_failed t + 1;
     ta_reasons := ta_reasons t |}.

Definition tally_outcome (t : Tally) (symbol : string) (o : SignalOutcome) : Tally :=
  {| ta_symbols := ta_symbols t ++ [(symbol, summary o)]; ta_errors := ta_errors t;
     ta_published := ta_published t + (if so_published o then 1 else 0);
     ta_withheld := ta_withheld t + (if so_published o then 0 else 1);
     ta_failed := ta_failed t;
     ta_reasons := ta_reasons t ++ (if so_published o then [] else [(symbol, so_withheld o)]) |}.

Fixpoint run_symbols (db : SignalDB) (s : SignalSettings) (requested : list string) (t : Tally) : SignalDB * Tally :=
  match requested with
  | [] => (db, t)
  | symbol :: requested =>
      match generate_signal_for db s symbol with
      | Err e => run_symbols db s requested (tally_error t symbol e)
      | Ok (db, o) => run_symbols db s requested (tally_outcome t symbol o)
      end
  end.

Definition universe_contract (attempted : list string) (reasons : list (string * option withheld)) : Contract :=
  {| c_as_of := clock UniverseAsOf; c_eligible := SIGNAL_SYMBOLS; c_attempted := attempted;
     c_withheld := reasons; c_unavailable := unavailable;
     c_min_scoreable_factors := MIN_SCOREABLE_FACTORS; c_contract_version := 1 |}.

Definition publish_universe (db : SignalDB) (attempted : list string) (reasons : list (string * option withheld))
    : SignalDB * Contract :=
  let contract := universe_contract attempted reasons in
  (upsert_setting db SIGNAL_UNIVERSE_KEY (UniverseSetting contract) (clock UniverseStored), contract).

Definition run_signals (db : SignalDB) (s : SignalSettings) (symbols : option (list string))
    : SignalDB * result run_error SignalsReport :=
  match _requested symbols with
  | Err e => (db, Err e)
  | Ok requested =>
      match publish_decision_policy db with
      | Err e => (db, Err (PolicyFailed e))
      | Ok (db, policy) =>
          let '(db, t) := run_symbols db s requested empty_tally in
          let '(db, contract) := publish_universe db requested (ta_reasons t) in
          let report :=
            {| sr_started_at := clock PassStarted; sr_symbols := ta_symbols t; sr_errors := ta_errors t;
               sr_published := ta_published t; sr_withheld := ta_withheld t; sr_failed := ta_failed t;
               sr_policy := policy; sr_universe := contract; sr_finished_at := clock PassFinished |} in
          (db, if (0 <? ta_failed t) && (ta_published t =? 0) && (ta_withheld t =? 0)
               then Err (SignalsGenerationFailed report) else Ok report)
      end
  end.
End Assembly.

(** ** What an assembled reading is made of *)
Definition ALL_FACTORS : list FactorSpec :=
  [FACTOR_FORECAST; FACTOR_TREND_SMA; FACTOR_RSI; FACTOR_MOMENTUM; FACTOR_PREMIUM; FACTOR_VOLATILITY;
   FACTOR_FUND_FLOW; FACTOR_MA_ALIGNMENT].

Definition was_considered {A} (v : factor_read A) : bool := match v with NotConsidered => false | _ => true end.

Lemma read_keys {A} spec (v : factor_read A) :
  scored_key spec v ++ (fst <$> omission_of spec v) = if was_considered v then [key spec] else [].
Proof. by destruct v. Qed.

Lemma considered_if {A} c (v : factor_read A) : was_considered v = true → was_considered (when_considered c v) = c.
Proof. by destruct c. Qed.

Lemma or_left_out_considered {A} (x : option A) why : was_considered (or_left_out x why) = true.
Proof. by destruct x. Qed.

Lemma concat_pairs {A} (ps : list (list A * list A)) :
  concat (fst <$> ps) ++ concat (snd <$> ps) ≡ₚ concat ((λ p, p.1 ++ p.2) <$> ps).
Proof.
  induction ps as [|[a b] ps IH]; [done|]. simpl. rewrite <-IH, <-!app_assoc. apply Permutation_app_head.
  rewrite !app_assoc. apply Permutation_app_tail, Permutation_app_comm.
Qed.

(** The factors chosen by a set of keys. *)
Lemma chosen_keys (supported : list string) :
  NoDup supported → supported ⊆ key <$> ALL_FACTORS →
  concat ((λ spec, if mem (key spec) supported then [key spec] else []) <$> ALL_FACTORS) ≡ₚ supported.
Proof.
  intros Hnd Hsub.
  assert (∀ l, concat ((λ spec, if mem (key spec) supported then [key spec] else []) <$> l)
    = List.filter (λ k, mem k supported) (key <$> l)) as ->.
  { induction l as [|spec l IH]; [done|]. simpl. destruct (mem (key spec) supported); simpl; [f_equal|]; exact IH. }
  assert (NoDup (key <$> ALL_FACTORS)) as Hall by (apply (bool_decide_unpack _); vm_compute; exact I).
  assert (∀ k, mem k supported = true ↔ k ∈ supported) as Hmem.
  { intros k. unfold mem. rewrite existsb_exists. setoid_rewrite String.eqb_eq.
    setoid_rewrite <-list_elem_of_In. naive_solver. }
  apply NoDup_Permutation; [|done|].
  - clear Hsub. induction Hall as [|k l Hk _ IH]; simpl; [constructor|].
    destruct (mem k supported); [|done]. constructor; [|done]. by intros [? _]%elem_of_bool_filter.
  - intros k. rewrite elem_of_bool_filter, Hmem. split; [by intros [_ ?]|]. intros Hk. split; [by apply Hsub|done].
Qed.

Section Evidence.
Context `{P : Pandas} `{ST : Statistics} `{SA : SqlAscending} `{SO : SqlOrder}.
Context (TEHRAN : tzinfo) (repr : json → string) (fails : string → statement → bool) (clock : moment → instant).

Abbreviation assemble := (assemble_inputs TEHRAN repr fails clock).

Lemma read_sma_considered values last : was_considered (read_sma values last) = true.
Proof. unfold read_sma. cbv zeta. repeat case_match; done. Qed.

Lemma read_regime_considered values v : read_regime values = Ok v → was_considered v = true.
Proof. unfold read_regime. destruct (detect_regime values); [|done]. intros [= <-]. by destruct (String.eqb _ _). Qed.

Lemma read_forecast_considered db symbol v : read_forecast fails clock db symbol = Ok v → was_considered v = true.
Proof. unfold read_forecast. intros (latest&_&[= <-])%bind_Ok. by destruct latest. Qed.

Lemma read_trend_considered db s symbol now : was_considered (read_trend repr fails db s symbol now) = true.
Proof. unfold read_trend. by destruct (_load_trend_alignment _ _ _ _ _ _) as [[]|]. Qed.

Lemma flow_considered df closes now s : was_considered (_fund_flow_z TEHRAN df closes now s) = true.
Proof.
  unfold _fund_flow_z. destruct (_freshness _ _ _ _ _) as [[fresh ?] ?]. repeat destruct_if; done.
Qed.

(** The UTC days, by their midnight, on which the symbol has an accepted observation of a
    source the signals read: its daily closes. *)
Definition closed_days (db : SignalDB) (symbol : string) : gset instant :=
  list_to_set ((λ r, pr_observed_at r / us_day * us_day) <$>
    filter (λ r, pr_symbol r = symbol ∧ pr_quality r = "ok" ∧ pr_source r ∉ SIGNAL_EXCLUDED_SOURCES) (sd_prices db)).

Definition history (db : SignalDB) (symbol : string) : Z := Z.of_nat (size (closed_days db symbol)).

(** The evidence of a reading: every factor is scored or named with the reason it is not, a
    scored factor is one whose minimum of daily closes the symbol has in the table (and the
    fund flow, the flow's own series too), and a factor that is not scored contributes nothing. *)
Record evidence (db : SignalDB) (s : SignalSettings) (symbol : string) (now : instant) (a : Assembled) : Prop := {
  ev_eligible : mem symbol SIGNAL_SYMBOLS = true;
  ev_partition : as_scored a ++ (fst <$> omitted_factors (as_inputs a)) ≡ₚ key <$> ALL_FACTORS;
  ev_bars : as_bars a = history db symbol;
  ev_history spec : spec ∈ ALL_FACTORS → key spec ∈ as_scored a → min_bars spec ≤ history db symbol;
  ev_flow_history : key FACTOR_FUND_FLOW ∈ as_scored a → min_bars FACTOR_FUND_FLOW ≤ history db FUND_FLOW_SYMBOL;
  ev_symbol : i_symbol (as_inputs a) = Some symbol;
  ev_forecast : key FACTOR_FORECAST ∉ as_scored a → expected_change_pct (as_inputs a) = [] ∧ confidence (as_inputs a) = [];
  ev_sma : key FACTOR_TREND_SMA ∉ as_scored a → sma20 (as_inputs a) = None ∧ sma50 (as_inputs a) = None;
  ev_rsi : key FACTOR_RSI ∉ as_scored a → rsi14 (as_inputs a) = None;
  ev_momentum : key FACTOR_MOMENTUM ∉ as_scored a → momentum_10_pct (as_inputs a) = None;
  ev_premium : key FACTOR_PREMIUM ∉ as_scored a → premium_z (as_inputs a) = None;
  ev_volatility : key FACTOR_VOLATILITY ∉ as_scored a → regime (as_inputs a) = "unknown";
  ev_flow : key FACTOR_FUND_FLOW ∉ as_scored a → fund_flow_z (as_inputs a) = None;
  ev_trend : key FACTOR_MA_ALIGNMENT ∉ as_scored a →
    trend_alignment (as_inputs a) = None ∧ trend_states (as_inputs a) = [];
  ev_fresh : ∃ symbols df, symbol ∈ symbols ∧
    df = point_of <$> oldest_first pr_observed_at (List.filter (loadable symbols) (sd_prices db)) ∧
    data_fresh (as_inputs a) = (_freshness TEHRAN df symbol now s).1.1;
}.

Lemma profile_facts symbol pf :
  profile_for _forecast_symbols _alignment_symbols symbol = Ok pf →
  mem symbol SIGNAL_SYMBOLS = true ∧ applicable pf ⊆ ALL_FACTORS.
Proof.
  unfold profile_for. intros (u&Hr%raise_if_Ok%negb_false_iff&Hpf)%bind_Ok. cbv zeta beta in Hpf.
  split; [done|]. revert Hpf.
  generalize (mem symbol _forecast_symbols) as b1, (mem symbol PARITY_SYMBOLS) as b2,
    (mem symbol FUND_SYMBOLS) as b3, (mem symbol _alignment_symbols) as b4.
  intros b1 b2 b3 b4 [= <-]. simpl.
  intros spec. unfold ALL_FACTORS, _UNIVERSAL_FACTORS. destruct b1, b2, b3, b4; simpl; rewrite !elem_of_cons; tauto.
Qed.

Lemma mem_elem k l : mem k l = true ↔ k ∈ l.
Proof.
  unfold mem. rewrite existsb_exists. setoid_rewrite String.eqb_eq. setoid_rewrite <-list_elem_of_In. naive_solver.
Qed.

Lemma supported_history pf bars spec :
  applicable pf ⊆ ALL_FACTORS → spec ∈ ALL_FACTORS →
  mem (key spec) (history_omissions pf bars).1 = true → min_bars spec ≤ bars.
Proof.
  intros Hsub Hs (spec'&Hkey&Hin)%mem_elem%list_elem_of_fmap.
  apply elem_of_bool_filter in Hin as [Hin Hle%Z.leb_le].
  assert (NoDup (key <$> ALL_FACTORS)) as Hall by (apply (bool_decide_unpack _); vm_compute; exact I).
  by rewrite (NoDup_key_inj key _ spec spec' Hall Hs (Hsub _ Hin) Hkey).
Qed.

(** A price factor is looked at exactly when the history supports it. *)
Lemma priced_supported pf bars spec :
  applicable pf ⊆ ALL_FACTORS → spec ∈ ALL_FACTORS → 0 < min_bars spec →
  (0 <? bars) && mem (key spec) (history_omissions pf bars).1 = mem (key spec) (history_omissions pf bars).1.
Proof.
  intros Hsub Hs Hpos. destruct (mem _ _) eqn:Hm; [|by rewrite andb_false_r].
  pose proof (supported_history _ _ _ Hsub Hs Hm). destruct (Z.ltb_spec 0 bars); [done|lia].
Qed.

Lemma supported_chosen symbol pf bars :
  profile_for _forecast_symbols _alignment_symbols symbol = Ok pf →
  concat ((λ spec, if mem (key spec) (history_omissions pf bars).1 then [key spec] else []) <$> ALL_FACTORS)
    ++ (fst <$> (history_omissions pf bars).2) ++ (fst <$> inapplicable pf) ≡ₚ key <$> ALL_FACTORS.
Proof.
  intros Hpf. destruct (factors_accounted _ _ _ _ bars bars Hpf ltac:(lia)) as (Hall&Hsplit&_&_).
  assert (key <$> ALL_FACTORS ≡ₚ (key <$> applicable pf) ++ (fst <$> inapplicable pf)) as Hkeys.
  { rewrite Hall. apply NoDup_Permutation; [by_decide|by_decide|]. intros k.
    unfold ALL_FACTORS. simpl. rewrite !elem_of_cons. tauto. }
  assert (NoDup (key <$> ALL_FACTORS)) as Hnd by by_decide.
  rewrite Hkeys in Hnd. apply NoDup_app in Hnd as (Hnd&_&_). rewrite <-Hsplit in Hnd.
  apply NoDup_app in Hnd as (Hnd&_&_).
  rewrite chosen_keys, Hkeys, <-Hsplit, <-app_assoc; [done|done|].
  intros k Hk. rewrite Hkeys, <-Hsplit, !elem_of_app. by left; left.
Qed.

Lemma omissions_concat {A} (xs ys : list (string * A)) : fst <$> xs ++ ys = (fst <$> xs) ++ (fst <$> ys).
Proof. apply fmap_app. Qed.

(** The eight reads, looked at exactly where the history supports them, account for every
    factor. *)
Lemma reads_partition {A1 A2 A3 A4 A5 A6 A7 A8} symbol pf bars
    (v1 : factor_read A1) (v2 : factor_read A2) (v3 : factor_read A3) (v4 : factor_read A4)
    (v5 : factor_read A5) (v6 : factor_read A6) (v7 : factor_read A7) (v8 : factor_read A8) :
  profile_for _forecast_symbols _alignment_symbols symbol = Ok pf →
  [was_considered v1; was_considered v2; was_considered v3; was_considered v4; was_considered v5; was_considered v6;
   was_considered v7; was_considered v8]
  = (λ spec, mem (key spec) (history_omissions pf bars).1) <$> ALL_FACTORS →
  (scored_key FACTOR_FORECAST v1 ++ scored_key FACTOR_TREND_SMA v2 ++ scored_key FACTOR_RSI v3
   ++ scored_key FACTOR_MOMENTUM v4 ++ scored_key FACTOR_PREMIUM v5 ++ scored_key FACTOR_VOLATILITY v6
   ++ scored_key FACTOR_FUND_FLOW v7 ++ scored_key FACTOR_MA_ALIGNMENT v8)
  ++ (fst <$> (history_omissions pf bars).2 ++ inapplicable pf
        ++ omission_of FACTOR_FORECAST v1 ++ omission_of FACTOR_TREND_SMA v2 ++ omission_of FACTOR_RSI v3
        ++ omission_of FACTOR_MOMENTUM v4 ++ omission_of FACTOR_PREMIUM v5 ++ omission_of FACTOR_VOLATILITY v6
        ++ omission_of FACTOR_FUND_FLOW v7 ++ omission_of FACTOR_MA_ALIGNMENT v8)
  ≡ₚ key <$> ALL_FACTORS.
Proof.
  intros Hpf Hc. rewrite <-(supported_chosen symbol pf bars Hpf).
  assert (∀ l, (λ spec, if mem (key spec) (history_omissions pf bars).1 then [key spec] else []) <$> l
    = zip_with (λ spec (c : bool), if c then [key spec] else []) l
        ((λ spec, mem (key spec) (history_omissions pf bars).1) <$> l)) as ->.
  { induction l as [|spec l IH]; [done|]. simpl. f_equal. exact IH. }
  rewrite <-Hc. unfold ALL_FACTORS. cbn [zip_with concat]. rewrite <-!read_keys.
  rewrite !omissions_concat, app_nil_r.
  pose proof (concat_pairs
    [(scored_key FACTOR_FORECAST v1, fst <$> omission_of FACTOR_FORECAST v1);
     (scored_key FACTOR_TREND_SMA v2, fst <$> omission_of FACTOR_TREND_SMA v2);
     (scored_key FACTOR_RSI v3, fst <$> omission_of FACTOR_RSI v3);
     (scored_key FACTOR_MOMENTUM v4, fst <$> omission_of FACTOR_MOMENTUM v4);
     (scored_key FACTOR_PREMIUM v5, fst <$> omission_of FACTOR_PREMIUM v5);
     (scored_key FACTOR_VOLATILITY v6, fst <$> omission_of FACTOR_VOLATILITY v6);
     (scored_key FACTOR_FUND_FLOW v7, fst <$> omission_of FACTOR_FUND_FLOW v7);
     (scored_key FACTOR_MA_ALIGNMENT v8, fst <$> omission_of FACTOR_MA_ALIGNMENT v8)]) as Hp.
  cbn [fmap list_fmap concat fst snd] in Hp. rewrite !app_nil_r in Hp. rewrite <-Hp.
  set (sc := scored_key FACTOR_FORECAST v1 ++ _). set (om := (fst <$> omission_of FACTOR_FORECAST v1) ++ _).
  rewrite <-app_assoc. apply Permutation_app_head.
  rewrite (app_assoc (fst <$> _) (fst <$> inapplicable pf) om). apply Permutation_app_comm.
Qed.

(** A key scored comes from its own read, and a read that scores shows. *)
Lemma scored_considered {A} (spec : FactorSpec) (v : factor_read A) k :
  k ∈ scored_key spec v → k = key spec ∧ was_considered v = true.
Proof. destruct v; simpl; rewrite ?list_elem_of_singleton, ?elem_of_nil; naive_solver. Qed.

Lemma unscored {A} spec (v : factor_read A) keys : scored_key spec v ⊆ keys → key spec ∉ keys → value_of v = None.
Proof. destruct v; try done. intros Hsub H. exfalso. apply H, Hsub. by left. Qed.

Lemma wanted_symbol symbol applicable : symbol ∈ wanted symbol applicable.
Proof.
  unfold wanted. rewrite py_sorted_perm, elem_of_remove_dups. by left.
Qed.

Ltac factor_in := unfold ALL_FACTORS; rewrite !elem_of_cons; tauto.

(** A factor that is not scored leaves its inputs empty. *)
Ltac silent :=
  match goal with
  | |- key ?spec ∉ ?keys → _ =>
      match keys with
      | context [scored_key spec ?v] =>
          let Hn := fresh in
          intros Hn; rewrite !(unscored spec v keys) by (done || (intros k Hk; rewrite !elem_of_app; tauto)); done
      end
  end.

Lemma assemble_symbol db s symbol now a :
  assemble db s symbol now = Ok a → i_symbol (as_inputs a) = Some symbol.
Proof.
  unfold assemble_inputs. destruct (profile_for _ _ _) as [pf|]; [|done]. cbn [mbind result_bind].
  intros ([df closes]&_&H)%bind_Ok. cbv zeta in H. destruct (history_omissions _ _) as [supported too_short].
  apply bind_Ok in H as (cost&_&H). apply bind_Ok in H as (forecast&_&H).
  apply bind_Ok in H as (volatility&_&H). destruct (_freshness _ _ _ _ _) as [[fresh closed] stale].
  apply Ok_inj in H. by subst a.
Qed.

Lemma loadable_iff symbols r :
  loadable symbols r = true ↔
  pr_symbol r ∈ symbols ∧ pr_quality r = "ok" ∧ pr_source r ∉ SIGNAL_EXCLUDED_SOURCES.
Proof.
  unfold loadable. rewrite !andb_true_iff, mem_elem, String.eqb_eq, negb_true_iff.
  rewrite <-not_true_iff_false, mem_elem. tauto.
Qed.

Lemma assoc_map {A} (f : string → A) (k : string) (l : list string) :
  k ∈ l → assoc k ((λ x, (x, f x)) <$> l) = Some (f k).
Proof.
  induction l as [|x l IH]; [by intros ?%elem_of_nil|]. simpl. destruct (String.eqb_spec k x) as [->|Hne]; [done|].
  intros [?|Hk]%elem_of_cons; [done|]. by apply IH.
Qed.

Lemma closes_count `{!PandasLaws P} `{!SqlAscendingLaws SA} db symbols sym :
  sym ∈ symbols →
  Z.of_nat (length (daily_close (point_of <$> oldest_first pr_observed_at (List.filter (loadable symbols) (sd_prices db))) sym))
  = history db sym.
Proof.
  intros Hsym. set (df := point_of <$> _). destruct (daily_close_spec df sym) as [Hasc Hb _ _].
  assert (NoDup (fst <$> daily_close df sym)) as Hnd.
  { apply (strictly_ascending_NoDup (λ b, b)). by apply (strictly_ascending_fmap (λ b, b)). }
  unfold history, closed_days. f_equal. rewrite <-(length_fmap fst), <-(size_list_to_set (C := gset instant)) by done.
  f_equal. apply set_eq. intros b. rewrite !elem_of_list_to_set, Hb, list_elem_of_fmap. split.
  - intros (p&(r&->&Hr)%list_elem_of_fmap&Hs&<-). rewrite oldest_first_perm in Hr.
    apply elem_of_bool_filter in Hr as [Hr (_&Hq&Hx)%loadable_iff]. exists r. split; [done|].
    by apply list_elem_of_filter.
  - intros (r&->&[(Hs&Hq&Hx) Hr]%list_elem_of_filter). exists (point_of r). split_and!; [|done|done].
    apply list_elem_of_fmap_2. rewrite oldest_first_perm. apply elem_of_bool_filter. split; [done|].
    apply loadable_iff. by rewrite Hs.
Qed.

Lemma loaded_bars `{!PandasLaws P} `{!SqlAscendingLaws SA} db symbol symbols df closes sym :
  _load_daily_closes fails db symbol symbols = Ok (df, closes) → sym ∈ symbols →
  Z.of_nat (length (default [] (assoc sym closes))) = history db sym.
Proof.
  unfold _load_daily_closes. intros (u&_&H)%bind_Ok Hsym. injection H as <- <-. rewrite <-(closes_count db symbols) by done.
  destruct (point_of <$> _) as [|p l] eqn:Hdf; [|by rewrite assoc_map].
  unfold daily_close. simpl assoc. simpl default. unfold last_by_bucket. simpl List.filter.
  assert (sort_values pp_observed_at [] = []) as ->; [|done].
  apply Permutation_nil. symmetry. apply sort_values_perm.
Qed.

Lemma flow_scored df closes now s :
  key FACTOR_FUND_FLOW ∈ scored_key FACTOR_FUND_FLOW (_fund_flow_z TEHRAN df closes now s) →
  min_bars FACTOR_FUND_FLOW ≤ Z.of_nat (length (default [] (assoc FUND_FLOW_SYMBOL closes))).
Proof.
  unfold _fund_flow_z. destruct (_freshness _ _ _ _ _) as [[fresh c] stale].
  destruct (negb fresh); [by intros ?%elem_of_nil|]. rewrite length_fmap.
  destruct (Z.ltb_spec (Z.of_nat (length (default [] (assoc FUND_FLOW_SYMBOL closes)))) (min_bars FACTOR_FUND_FLOW));
    [by intros ?%elem_of_nil|done].
Qed.

Lemma wanted_flow symbol applicable : key FACTOR_FUND_FLOW ∈ applicable → FUND_FLOW_SYMBOL ∈ wanted symbol applicable.
Proof.
  intros Hk%mem_elem. unfold wanted. rewrite py_sorted_perm, elem_of_remove_dups, Hk, elem_of_cons, elem_of_app.
  right. right. by left.
Qed.

Lemma assemble_evidence `{!PandasLaws P} `{!SqlAscendingLaws SA} db s symbol now a :
  assemble db s symbol now = Ok a → evidence db s symbol now a.
Proof.
  unfold assemble_inputs. destruct (profile_for _ _ _) as [pf|] eqn:Hpf; [|done]. cbn [mbind result_bind].
  destruct (profile_facts _ _ Hpf) as [Hmem Hsub].
  intros ([df closes]&Hload&H)%bind_Ok. cbv zeta in H.
  set (values := snd <$> default [] (assoc symbol closes)) in *.
  set (bars := Z.of_nat (length values)) in *.
  pose proof (reads_partition (A1 := list (string * (float * float))) (A2 := float * float) (A3 := float)
    (A4 := float) (A5 := float) (A6 := string) (A7 := float) (A8 := TrendRead) symbol pf bars) as Hpart.
  assert (∀ k, k ∈ (history_omissions pf bars).1 → k ∈ keys pf) as Hkeys.
  { intros k (spec&->&[Hin _]%elem_of_bool_filter)%list_elem_of_fmap. by apply list_elem_of_fmap_2. }
  pose proof (supported_history pf bars) as Hhist. pose proof (priced_supported pf bars) as Hpriced.
  destruct (history_omissions pf bars) as [supported too_short]. cbn [fst snd] in *.
  apply bind_Ok in H as (cost&_&H). apply bind_Ok in H as (forecast&Hfc&H).
  apply bind_Ok in H as (volatility&Hvol&H).
  destruct (_freshness TEHRAN df symbol now s) as [[fresh closed] stale] eqn:Hfr. apply Ok_inj in H. subst a.
  set (last := last_features symbol (keys pf) closes bars).
  assert (was_considered forecast = mem (key FACTOR_FORECAST) supported) as Hc1.
  { destruct (mem (key FACTOR_FORECAST) supported); [|by injection Hfc as <-]. by apply read_forecast_considered in Hfc. }
  assert (was_considered volatility = (0 <? bars) && mem (key FACTOR_VOLATILITY) supported) as Hc6.
  { destruct (_ && _); [|by injection Hvol as <-]. by apply read_regime_considered in Hvol. }
  rewrite (Hpriced FACTOR_VOLATILITY Hsub) in Hc6 by (done || factor_in).
  rewrite (Hpriced FACTOR_TREND_SMA Hsub), (Hpriced FACTOR_RSI Hsub), (Hpriced FACTOR_MOMENTUM Hsub),
    (Hpriced FACTOR_PREMIUM Hsub) by (done || factor_in).
  assert (bars = history db symbol) as Hbars.
  { unfold bars, values. rewrite length_fmap. by apply (loaded_bars _ _ _ _ _ _ Hload), wanted_symbol. }
  split; cbn [as_scored as_inputs as_bars omitted_factors i_symbol expected_change_pct confidence sma20 sma50 rsi14
    momentum_10_pct premium_z regime fund_flow_z trend_alignment trend_states data_fresh].
  - done.
  - apply Hpart; [done|]. unfold ALL_FACTORS. cbn [fmap list_fmap].
    rewrite !considered_if by auto using read_sma_considered, or_left_out_considered, flow_considered, read_trend_considered.
    by rewrite Hc1, Hc6.
  - exact Hbars.
  - intros spec Hspec Hk. rewrite <-Hbars. apply (Hhist spec Hsub Hspec).
    rewrite !elem_of_app in Hk.
    destruct Hk as [Hk|[Hk|[Hk|[Hk|[Hk|[Hk|[Hk|Hk]]]]]]]; apply scored_considered in Hk as [-> Hk];
      rewrite ?considered_if in Hk
        by auto using read_sma_considered, or_left_out_considered, flow_considered, read_trend_considered;
      congruence.
  - intros Hk. rewrite !elem_of_app in Hk.
    assert (key FACTOR_FUND_FLOW ∈ scored_key FACTOR_FUND_FLOW
      (when_considered (mem (key FACTOR_FUND_FLOW) supported) (_fund_flow_z TEHRAN df closes now s))) as Hf.
    { destruct Hk as [Hk|[Hk|[Hk|[Hk|[Hk|[Hk|[Hk|Hk]]]]]]]; [..|exact Hk|];
        apply scored_considered in Hk as [Hk _]; discriminate Hk. }
    destruct (mem (key FACTOR_FUND_FLOW) supported) eqn:Hsup; [|by apply elem_of_nil in Hf].
    rewrite <-(loaded_bars _ _ _ _ _ FUND_FLOW_SYMBOL Hload); [by apply (flow_scored df closes now s)|].
    apply wanted_flow, Hkeys. by apply mem_elem.
  - done.
  - silent.
  - silent.
  - silent.
  - silent.
  - silent.
  - silent.
  - silent.
  - silent.
  - exists (wanted symbol (keys pf)), df. split; [apply wanted_symbol|]. rewrite Hfr. split; [|done].
    unfold _load_daily_closes in Hload. apply bind_Ok in Hload as (u&_&Hload). by injection Hload as <- _.
Qed.

(** ** What is published *)
Context `{N : Numpy} (row_ok : Reading → bool).

Abbreviation generate := (generate_signal_for TEHRAN repr fails clock row_ok).

Lemma compute_signal_carries inputs now r :
  compute_signal inputs now = Ok r → o_inputs r = inputs ∧ o_symbol r = i_symbol inputs.
Proof.
  unfold compute_signal. intros ([[[[b we] mean] meas] [[tp fp] trp]]&_&H)%bind_Ok.
  by apply bind_Ok in H as (rounded&_&[= <-]).
Qed.

(** The two ways a symbol's pass completes. *)
Lemma generate_inv db s symbol db' o :
  generate db s symbol = Ok (db', o) →
  ∃ a, assemble db s symbol (clock (Scoring symbol)) = Ok a ∧ so_omitted o = omitted_factors (as_inputs a) ∧
    ((db' = db ∧ so_payload o = None ∧ so_withheld o = withholding_reason (as_scored a) ∧ so_withheld o ≠ None) ∨
     (∃ r, withholding_reason (as_scored a) = None ∧ compute_signal (as_inputs a) (clock (Scoring symbol)) = Ok r ∧
        db' = insert_signal db r ∧ so_payload o = Some (sd_next_id db, r))).
Proof.
  unfold generate_signal_for. cbv zeta. intros (a&Ha&H)%bind_Ok. exists a. split; [done|].
  destruct (withholding_reason (as_scored a)) as [w|] eqn:Hw.
  - injection H as <- <-. split; [done|]. left. by split_and!.
  - apply bind_Ok in H as (r&Hr&H). apply bind_Ok in H as (u&_&H). apply bind_Ok in H as (u'&_&H).
    injection H as <- <-. split; [done|]. right. exists r. split_and!; try done.
    unfold computed in Hr. by destruct (compute_signal _ _); inversion Hr.
Qed.

Lemma directional_scored scored :
  withholding_reason scored = None →
  (3 ≤ length scored)%nat ∧ ∃ spec, spec ∈ ALL_FACTORS ∧ directional spec = true ∧ key spec ∈ scored.
Proof.
  unfold withholding_reason. destruct (negb _) eqn:Hd; [done|]. destruct (Nat.ltb_spec (length scored) MIN_SCOREABLE_FACTORS) as [|Hl]; [done|].
  intros _. split; [exact Hl|]. apply negb_false_iff, existsb_exists in Hd as (k&Hk%list_elem_of_In&Hm%mem_elem).
  rewrite !elem_of_cons, elem_of_nil in Hm. destruct Hm as [->|[->|[->|[]]]].
  - exists FACTOR_FORECAST. split; [factor_in|done].
  - exists FACTOR_TREND_SMA. split; [factor_in|done].
  - exists FACTOR_MA_ALIGNMENT. split; [factor_in|done].
Qed.

Lemma newest_of_elem df symbol t : newest_of df symbol = Some t → ∃ p, p ∈ df ∧ pp_symbol p = symbol ∧ pp_observed_at p = t.
Proof.
  unfold newest_of. destruct (pp_observed_at <$> _) as [|u us] eqn:Hl; [done|]. intros [= <-].
  assert (foldl Z.max u us ∈ u :: us) as Hin.
  { clear. revert u. induction us as [|x us IH]; intros u; simpl; [by left|].
    specialize (IH (u `max` x)). apply elem_of_cons in IH as [->|IH]; [|by do 2 right].
    destruct (Z.max_spec u x) as [[_ ->]|[_ ->]]; [by right; left|by left]. }
  rewrite <-Hl in Hin. apply list_elem_of_fmap in Hin as (p&->&Hp). apply elem_of_bool_filter in Hp as [Hp Hs].
  apply String.eqb_eq in Hs. by exists p.
Qed.

(** Data is fresh through an accepted row of the symbol. *)
Lemma fresh_row `{!SqlAscendingLaws SA} db s symbol now symbols :
  (_freshness TEHRAN (point_of <$> oldest_first pr_observed_at (List.filter (loadable symbols) (sd_prices db)))
     symbol now s).1.1 = true →
  ∃ row, row ∈ sd_prices db ∧ pr_symbol row = symbol ∧ pr_quality row = "ok" ∧ pr_source row ∉ SIGNAL_EXCLUDED_SOURCES ∧
    is_acceptably_fresh TEHRAN symbol (Some (naive (pr_observed_at row))) (naive now) (market s) None = true.
Proof.
  unfold _freshness. destruct (newest_of _ _) as [t|] eqn:Hn; [|done].
  destruct (is_acceptably_fresh _ _ _ _ _ _) eqn:Hf; [|done]. intros _.
  apply newest_of_elem in Hn as (p&Hp&Hs&<-). apply list_elem_of_fmap in Hp as (row&->&Hrow).
  rewrite oldest_first_perm in Hrow. apply elem_of_bool_filter in Hrow as [Hrow Hl].
  unfold loadable in Hl. apply andb_true_iff in Hl as [[_ Hq%String.eqb_eq]%andb_true_iff Hx%negb_true_iff].
  exists row. split_and!; try done. intros Hin%mem_elem. congruence.
Qed.

(** C6. A published call has its evidence.  Every factor is either scored, the symbol (and for
    the fund flow the flow's series too) having its minimum of days with an accepted close, or named with the reason it is not, and then its inputs are empty; at least three
    are scored and one of them is directional; and unless the call is hold, the symbol has an
    accepted observation, of a source the signals read, that is acceptably fresh at the moment
    of scoring. *)
Theorem call_is_backed `{!PandasLaws P} `{!SqlAscendingLaws SA} `{!NumpyLaws} db s symbol db' o id r :
  generate db s symbol = Ok (db', o) → so_payload o = Some (id, r) →
  ∃ a, evidence db s symbol (clock (Scoring symbol)) a ∧ o_inputs r = as_inputs a ∧
    (3 ≤ length (as_scored a))%nat ∧
    (∃ spec, spec ∈ ALL_FACTORS ∧ directional spec = true ∧ key spec ∈ as_scored a) ∧
    (o_signal r ≠ hold →
     ∃ row, row ∈ sd_prices db ∧ pr_symbol row = symbol ∧ pr_quality row = "ok" ∧
       pr_source row ∉ SIGNAL_EXCLUDED_SOURCES ∧
       is_acceptably_fresh TEHRAN symbol (Some (naive (pr_observed_at row))) (naive (clock (Scoring symbol)))
         (market s) None = true).
Proof.
  intros (a&Ha&_&[(_&Hno&_)|(r'&Hw&Hr&_&Hp)])%generate_inv Hpay; [congruence|].
  rewrite Hp in Hpay. injection Hpay as _ <-. exists a. pose proof (assemble_evidence _ _ _ _ _ Ha) as Hev.
  destruct (directional_scored _ Hw) as [H3 Hd]. destruct (compute_signal_carries _ _ _ Hr) as [Hi _].
  split_and!; try done. intros Hcall. destruct (ev_fresh _ _ _ _ _ Hev) as (symbols&df&_&->&Hfresh).
  apply (fresh_row db s symbol _ symbols). rewrite <-Hfresh.
  destruct (reading_consistent _ _ _ Hr) as (_&_&_&Hstale&_).
  destruct (data_fresh (as_inputs a)); [done|]. by destruct (Hstale eq_refl) as (_&?&_).
Qed.

(** ** What is read *)
Definition with_prices (prices : list PriceRow) (db : SignalDB) : SignalDB :=
  {| sd_prices := prices; sd_raw := sd_raw db; sd_predictions := sd_predictions db; sd_trends := sd_trends db;
     sd_events := sd_events db; sd_signals := sd_signals db; sd_next_id := sd_next_id db; sd_settings := sd_settings db |}.

(** The rows of [prices] a signal may rest on. *)
Definition acceptable (r : PriceRow) : bool :=
  String.eqb (pr_quality r) "ok" && negb (mem (pr_source r) SIGNAL_EXCLUDED_SOURCES).

Lemma loadable_acceptable symbols rows :
  List.filter (loadable symbols) rows = List.filter (λ r, mem (pr_symbol r) symbols) (List.filter acceptable rows).
Proof.
  rewrite bool_filter_filter. apply bool_filter_ext. intros r _. unfold loadable, acceptable.
  by destruct (mem _ symbols), (String.eqb _ _), (negb _).
Qed.

Lemma loads_same db symbol symbols prices :
  List.filter acceptable prices = List.filter acceptable (sd_prices db) →
  _load_daily_closes fails (with_prices prices db) symbol symbols = _load_daily_closes fails db symbol symbols.
Proof. intros H. unfold _load_daily_closes. simpl. by rewrite !loadable_acceptable, H. Qed.

Lemma assemble_same db s symbol now prices :
  List.filter acceptable prices = List.filter acceptable (sd_prices db) →
  assemble (with_prices prices db) s symbol now = assemble db s symbol now.
Proof.
  intros H. unfold assemble_inputs. destruct (profile_for _ _ _); [|done]. cbn [mbind result_bind].
  by rewrite loads_same.
Qed.

(** Observations that were not accepted, and the closes of the excluded source, have no
    influence on a signal: with any other such rows in the table the outcome is the same. *)
Theorem signals_read_accepted db s symbol prices :
  List.filter acceptable prices = List.filter acceptable (sd_prices db) →
  snd <$> generate (with_prices prices db) s symbol = snd <$> generate db s symbol.
Proof.
  intros H. unfold generate_signal_for. cbv zeta. rewrite assemble_same by done.
  destruct (assemble db s symbol _) as [a|]; [|done]. cbn [mbind result_bind].
  destruct (withholding_reason _); [done|]. destruct (computed _) as [r|]; [|done]. cbn [mbind result_bind].
  destruct (run_statement fails symbol InsertSignal); [|done]. cbn [mbind result_bind]. by destruct (row_ok r).
Qed.

(** ** The pass *)
Record same_reads (db db' : SignalDB) : Prop := {
  sm_prices : sd_prices db' = sd_prices db;
  sm_raw : sd_raw db' = sd_raw db;
  sm_predictions : sd_predictions db' = sd_predictions db;
  sm_trends : sd_trends db' = sd_trends db;
  sm_events : sd_events db' = sd_events db;
}.

Lemma same_reads_refl db : same_reads db db.
Proof. done. Qed.

Lemma same_reads_trans a b c : same_reads a b → same_reads b c → same_reads a c.
Proof. intros [] []. split; congruence. Qed.

Lemma insert_same_reads db r : same_reads db (insert_signal db r).
Proof. done. Qed.

Lemma upsert_same_reads db k v now :
  same_reads db (upsert_setting fails db k v now) ∧ sd_signals (upsert_setting fails db k v now) = sd_signals db.
Proof. unfold upsert_setting. by destruct (fails k UpsertSetting). Qed.

(** What a pass reports of a symbol, the number of the row aside. *)
Definition entry_of (r : result signal_exn (SignalDB * SignalOutcome)) : Summary :=
  match r with Err e => SumError e | Ok x => summary x.2 end.
Definition anonymous (x : Summary) : Summary :=
  match x with
  | SumPublished _ call score conf backed fresh bars omitted => SumPublished 0 call score conf backed fresh bars omitted
  | _ => x
  end.

Lemma assemble_reads db db' s symbol now : same_reads db db' → assemble db' s symbol now = assemble db s symbol now.
Proof.
  intros [H1 H2 H3 H4 H5]. destruct db, db'. simpl in *. subst.
  unfold assemble_inputs, read_forecast, read_trend, _load_trend_alignment, _load_latest_predictions,
    _load_daily_closes, entered_at. reflexivity.
Qed.

(** The outcome of a symbol depends on what is read, never on what the pass has written. *)
Lemma entry_independent db db' s symbol :
  same_reads db db' → anonymous (entry_of (generate db' s symbol)) = anonymous (entry_of (generate db s symbol)).
Proof.
  intros H. unfold generate_signal_for. cbv zeta. rewrite (assemble_reads _ _ _ _ _ H).
  destruct (assemble db s symbol _) as [a|]; [|done]. cbn [mbind result_bind].
  destruct (withholding_reason _); [done|]. destruct (computed _) as [r|]; [|done]. cbn [mbind result_bind].
  destruct (run_statement fails symbol InsertSignal); [|done]. cbn [mbind result_bind]. by destruct (row_ok r).
Qed.

Definition alone (db : SignalDB) (s : SignalSettings) (symbol : string) : string * Summary :=
  (symbol, anonymous (entry_of (generate db s symbol))).

(** The rows a report claims: whose they are, and their numbers. *)
Definition claimed (entries : list (string * Summary)) : list (option string * Z) :=
  omap (λ e, match e.2 with SumPublished id _ _ _ _ _ _ _ => Some (Some e.1, id) | _ => None end) entries.
Definition rows_of (rows : list (Z * Reading)) : list (option string * Z) := (λ row, (o_symbol row.2, row.1)) <$> rows.

Record pass_of (db : SignalDB) (s : SignalSettings) (requested : list string) (t : Tally) (db' : SignalDB) (t' : Tally)
    (entries : list (string * Summary)) (rows : list (Z * Reading)) : Prop := {
  po_reads : same_reads db db';
  po_settings : sd_settings db' = sd_settings db;
  po_symbols : ta_symbols t' = ta_symbols t ++ entries;
  po_alone : (λ e, (e.1, anonymous e.2)) <$> entries = alone db s <$> requested;
  po_signals : sd_signals db' = sd_signals db ++ rows;
  po_claimed : claimed entries = rows_of rows;
  po_published : ta_published t' = ta_published t + Z.of_nat (length rows);
  po_withheld : ta_withheld t ≤ ta_withheld t';
  po_failed : ta_failed t ≤ ta_failed t';
  po_total : ta_published t' + ta_withheld t' + ta_failed t'
    = ta_published t + ta_withheld t + ta_failed t + Z.of_nat (length requested);
}.

(** One symbol of the loop. *)
Lemma pass_step db s symbol db1 t t1 requested db' t' entry rows0 entries rows :
  same_reads db db1 → sd_settings db1 = sd_settings db → ta_symbols t1 = ta_symbols t ++ [(symbol, entry)] →
  anonymous entry = anonymous (entry_of (generate db s symbol)) →
  sd_signals db1 = sd_signals db ++ rows0 → claimed [(symbol, entry)] = rows_of rows0 →
  ta_published t1 = ta_published t + Z.of_nat (length rows0) → ta_withheld t ≤ ta_withheld t1 → ta_failed t ≤ ta_failed t1 →
  ta_published t1 + ta_withheld t1 + ta_failed t1 = ta_published t + ta_withheld t + ta_failed t + 1 →
  pass_of db1 s requested t1 db' t' entries rows →
  pass_of db s (symbol :: requested) t db' t' ((symbol, entry) :: entries) (rows0 ++ rows).
Proof.
  intros Hr Hset Hsym Hent Hsig Hcl Hp Hw Hf Htot [Hr' Hset' Hsym' Hal Hsig' Hcl' Hp' Hw' Hf' Htot']. split.
  - by eapply same_reads_trans.
  - congruence.
  - by rewrite Hsym', Hsym, <-app_assoc.
  - simpl. unfold alone at 1. rewrite Hent. f_equal. etransitivity; [exact Hal|]. apply list_fmap_ext.
    intros i x _. unfold alone. f_equal. by apply entry_independent.
  - by rewrite Hsig', Hsig, app_assoc.
  - unfold rows_of. rewrite fmap_app. fold (rows_of rows0). fold (rows_of rows). rewrite <-Hcl, <-Hcl'.
    unfold claimed. simpl. by destruct entry.
  - rewrite Hp', Hp, length_app. lia.
  - lia.
  - lia.
  - simpl length. lia.
Qed.

Lemma run_symbols_spec db s requested t :
  ∃ entries rows, pass_of db s requested t (run_symbols TEHRAN repr fails clock row_ok db s requested t).1
    (run_symbols TEHRAN repr fails clock row_ok db s requested t).2 entries rows.
Proof.
  revert db t. induction requested as [|symbol requested IH]; intros db t; simpl.
  { exists [], []. split; simpl; rewrite ?app_nil_r; (done || lia). }
  destruct (generate db s symbol) as [[db1 o]|e] eqn:Hg.
  - destruct (generate_inv _ _ _ _ _ Hg) as (a&Ha&_&[(->&Hno&_)|(r&_&Hr&->&Hp)]).
    + destruct (IH db (tally_outcome t symbol o)) as (entries&rows&Hrest).
      exists ((symbol, summary o) :: entries), ([] ++ rows).
      refine (pass_step db s symbol _ _ _ _ _ _ _ [] _ _ _ _ _ _ _ _ _ _ _ _ Hrest); unfold tally_outcome, summary, so_published; simpl;
        rewrite ?Hno, ?app_nil_r; try (done || lia). rewrite Hg. unfold entry_of, summary. simpl. by rewrite Hno.
    + destruct (IH (insert_signal db r) (tally_outcome t symbol o)) as (entries&rows&Hrest).
      exists ((symbol, summary o) :: entries), ([(sd_next_id db, r)] ++ rows).
      pose proof (assemble_symbol _ _ _ _ _ Ha) as Hs.
      destruct (compute_signal_carries _ _ _ Hr) as [_ Hsym].
      refine (pass_step db s symbol _ _ _ _ _ _ _ [(sd_next_id db, r)] _ _ _ _ _ _ _ _ _ _ _ _ Hrest);
        unfold tally_outcome, summary, so_published, claimed, rows_of; simpl; rewrite ?Hp; try (done || lia).
      * rewrite Hg. unfold entry_of, summary. simpl. by rewrite Hp.
      * simpl. by rewrite Hsym, Hs.
  - destruct (IH db (tally_error t symbol e)) as (entries&rows&Hrest).
    exists ((symbol, SumError e) :: entries), ([] ++ rows).
    refine (pass_step db s symbol _ _ _ _ _ _ _ [] _ _ _ _ _ _ _ _ _ _ _ _ Hrest); unfold tally_error; simpl;
      rewrite ?app_nil_r; try (done || lia). by rewrite Hg.
Qed.

Lemma dedup_spec seen symbols :
  NoDup (dedup seen symbols) ∧ ∀ x, x ∈ dedup seen symbols ↔ x ∈ symbols ∧ x ∉ seen.
Proof.
  revert seen. induction symbols as [|y symbols IH]; intros seen; simpl.
  { split; [constructor|]. intros x. rewrite elem_of_nil. naive_solver. }
  destruct (mem y seen) eqn:Hm.
  - apply mem_elem in Hm. destruct (IH seen) as [Hnd Hel]. split; [done|]. intros x. rewrite Hel, elem_of_cons.
    split; [tauto|]. intros [[->|Hx] Hn]; tauto.
  - assert (y ∉ seen) as Hy by (intros Hy%mem_elem; congruence). destruct (IH (y :: seen)) as [Hnd Hel]. split.
    + constructor; [|done]. rewrite Hel, elem_of_cons. tauto.
    + intros x. rewrite !elem_of_cons, Hel, elem_of_cons. destruct (decide (x = y)) as [->|]; tauto.
Qed.

Lemma requested_spec symbols :
  match _requested symbols with
  | Ok l => NoDup l ∧ l ≠ [] ∧ ∀ x, x ∈ l ↔ x ∈ SIGNAL_SYMBOLS ∧ (x ∈ default SIGNAL_SYMBOLS symbols ∨ symbols = Some [])
  | Err (NotEligible unknown _) => ∃ x, x ∈ default [] symbols ∧ x ∉ SIGNAL_SYMBOLS ∧ x ∈ fst <$> unknown
  | Err _ => False
  end.
Proof.
  unfold _requested. destruct symbols as [[|y l]|].
  - split; [by_decide|]. split; [done|]. naive_solver.
  - destruct (List.filter _ (y :: l)) as [|u us] eqn:Hf.
    + destruct (dedup_spec [] (y :: l)) as [Hnd Hel]. split; [done|]. split; [by simpl|]. intros x. rewrite Hel. simpl default.
      apply filter_nil_iff in Hf. rewrite Forall_forall in Hf. split.
      * intros [Hx _]. split; [|by left]. specialize (Hf x Hx). apply negb_false_iff in Hf. by apply mem_elem.
      * intros [_ [Hx|?]]; [|done]. split; [done|]. apply not_elem_of_nil.
    + assert (u ∈ List.filter (λ s, negb (mem s SIGNAL_SYMBOLS)) (y :: l)) as Hu by (rewrite Hf; by left).
      apply elem_of_bool_filter in Hu as [Hu Hn%negb_true_iff]. exists u. split; [done|]. split.
      * intros Hin%mem_elem. congruence.
      * simpl. by left.
  - split; [by_decide|]. split; [done|]. naive_solver.
Qed.

(** What a finished pass says of the tables: every symbol asked for has one entry, the one it
    would have in a pass of its own; the rows added are the ones reported published, under
    their numbers; nothing else a signal reads has changed. *)
Record accounted (db : SignalDB) (s : SignalSettings) (requested : list string) (db' : SignalDB) (rep : SignalsReport)
    : Prop := {
  ac_entries : (λ e, (e.1, anonymous e.2)) <$> sr_symbols rep = alone db s <$> requested;
  ac_rows : ∃ rows, sd_signals db' = sd_signals db ++ rows ∧ claimed (sr_symbols rep) = rows_of rows ∧
    sr_published rep = Z.of_nat (length rows);
  ac_total : sr_published rep + sr_withheld rep + sr_failed rep = Z.of_nat (length requested);
  ac_reads : same_reads db db';
}.

(** The policy and the contract touch neither what is read nor the signals. *)
Lemma alone_reads db db' s (symbols : list string) : same_reads db db' → alone db' s <$> symbols = alone db s <$> symbols.
Proof. intros H. apply list_fmap_ext. intros i x _. unfold alone. f_equal. by apply entry_independent. Qed.

(** C15. A pass accounts for every symbol it was asked for, once, and one symbol's failure is its
    own: the entry of a symbol is the one it would have alone.  A pass is reported as failed
    exactly when every symbol raised, and then it published nothing; a symbol outside the
    universe, and a cost that cannot be read, refuse the pass before it writes a signal. *)
Theorem signals_pass db s symbols :
  let '(db', out) := run_signals TEHRAN repr fails clock row_ok db s symbols in
  match out with
  | Ok rep => ∃ requested, _requested symbols = Ok requested ∧ NoDup requested ∧
      accounted db s requested db' rep ∧ 0 < sr_published rep + sr_withheld rep
  | Err (SignalsGenerationFailed rep) => ∃ requested, _requested symbols = Ok requested ∧ NoDup requested ∧
      accounted db s requested db' rep ∧ sr_failed rep = Z.of_nat (length requested) ∧
      sd_signals db' = sd_signals db
  | Err (NotEligible unknown _) => db' = db ∧
      ∃ x, x ∈ default [] symbols ∧ x ∉ SIGNAL_SYMBOLS ∧ x ∈ fst <$> unknown
  | Err (PolicyFailed _) => db' = db
  end.
Proof.
  unfold run_signals. pose proof (requested_spec symbols) as Hreq.
  destruct (_requested symbols) as [requested|e]; [|by destruct e].
  destruct Hreq as (Hnd&Hne&_). destruct (publish_decision_policy fails clock db) as [[db1 policy]|e] eqn:Hpol; [|done].
  assert (same_reads db db1 ∧ sd_signals db1 = sd_signals db) as [Hr1 Hs1].
  { unfold publish_decision_policy in Hpol. apply bind_Ok in Hpol as (p&_&Hpol). injection Hpol as <- _. apply upsert_same_reads. }
  destruct (run_symbols_spec db1 s requested empty_tally) as (entries&rows&[Hr2 _ Hsym Hal Hsig Hcl Hp Hw Hf Htot]).
  destruct (run_symbols _ _ _ _ _ db1 s requested empty_tally) as [db2 t]. cbn [fst snd ta_symbols ta_published ta_withheld ta_failed empty_tally] in *.
  unfold publish_universe. cbv zeta.
  destruct (upsert_same_reads db2 SIGNAL_UNIVERSE_KEY (UniverseSetting (universe_contract clock requested (ta_reasons t)))
    (clock UniverseStored)) as [Hr3 Hs3].
  set (db3 := upsert_setting _ _ _ _ _) in *. clearbody db3.
  assert (0 < Z.of_nat (length requested)) as Hlen by (destruct requested; [done|simpl; lia]).
  assert (∀ rep, sr_symbols rep = ta_symbols t → sr_published rep = ta_published t → sr_withheld rep = ta_withheld t →
    sr_failed rep = ta_failed t → accounted db s requested db3 rep) as Hacc.
  { intros rep E1 E2 E3 E4. simpl in Hsym. split.
    - rewrite E1, Hsym, Hal. by apply alone_reads.
    - exists rows. split_and!; [congruence|by rewrite E1, Hsym|lia].
    - lia.
    - by do 2 (eapply same_reads_trans; [eassumption|]). }
  destruct (_ && _) eqn:Hall.
  - apply andb_true_iff in Hall as [[Hf0%Z.ltb_lt Hp0%Z.eqb_eq]%andb_true_iff Hw0%Z.eqb_eq].
    exists requested. split_and!; [done..|by apply Hacc|simpl; lia|].
    assert (length rows = 0%nat) as Hr0 by lia. apply nil_length_inv in Hr0 as ->. rewrite app_nil_r in Hsig. congruence.
  - exists requested. split_and!; [done..|by apply Hacc|]. simpl.
    destruct (Z.ltb_spec 0 (ta_failed t)), (Z.eqb_spec (ta_published t) 0), (Z.eqb_spec (ta_withheld t) 0); (done || lia).
Qed.
End Evidence.

(** ** A concrete pass *)
#[export] Instance reference_statistics : Statistics := {
  quantile xs q := default fnan (median xs);
  polyfit ys := Some (fdiv_ieee (fsub (List.last ys fnan) (List.hd fnan ys)) (float_of_Z 19), List.hd fnan ys);
  np_std xs := average (fabs <$> xs);
  series_mean := average;
  series_std := spread;
}.

#[local] Instance demo_oldest : SqlAscending := { oldest_first := λ A key l, sort_by key l }.
#[local] Instance demo_oldest_laws : SqlAscendingLaws demo_oldest.
Proof. split; intros A key l; simpl; [apply py_sorted_perm|apply sort_by_ascending]. Qed.
#[local] Instance demo_newest : SqlOrder := { newest_first := λ A key l, sort_by (λ x, - key x) l }.

(** A Wednesday afternoon. *)
Definition demo_day : date := ordinal 2026 9 9.
Definition demo_now : instant := combine demo_day (MarketHours.clock 13 0).

Definition demo_row (symbol quality source : string) (day v : Z) : PriceRow :=
  {| pr_symbol := symbol; pr_value := float_of_Z v; pr_currency := "USD"; pr_unit := "ounce"; pr_source := source;
     pr_observed_at := combine day (MarketHours.clock 12 45); pr_collected_at := demo_now; pr_quality := quality |}.

(** Forty days of gold, rising and falling. *)
Definition demo_prices : list PriceRow :=
  (λ i, demo_row "XAUUSD" "ok" "yahoo" (demo_day - 39 + Z.of_nat i) (2000 + (Z.of_nat i * 7) mod 11 * 5 + Z.of_nat i)) <$> seq 0 40.

Definition demo_db (raw : list RawRow) : SignalDB :=
  {| sd_prices := demo_prices; sd_raw := raw;
     sd_predictions := [{| p_symbol := "XAUUSD"; p_horizon := "1d"; p_predicted_at := demo_now - us_hour;
                           p_expected_change_pct := float_of_Z 6; p_confidence := flit 7 1 |}];
     sd_trends := ∅; sd_events := []; sd_signals := []; sd_next_id := 1; sd_settings := ∅ |}.

Definition demo_settings : SignalSettings :=
  {| market := default_settings; trend_alignment_enabled := true; trend_alignment_signal_weight := float_of_Z 6;
     trend_alignment_max_age_minutes := 180 |}.

Definition demo_text (_ : json) : string := "r".
Definition nothing_fails (_ : string) (_ : statement) : bool := false.

Abbreviation demo_generate := (generate_signal_for tehran_0330 demo_text nothing_fails (λ _, demo_now) (λ _, true)).
Abbreviation demo_pass fails db :=
  (run_signals tehran_0330 demo_text fails (λ _, demo_now) (λ _, true) db demo_settings None).

(** The numbers of a pass. *)
Definition counts (out : result run_error SignalsReport) : option (Z * Z * Z) :=
  match out with
  | Ok rep | Err (SignalsGenerationFailed rep) => Some (sr_published rep, sr_withheld rep, sr_failed rep)
  | Err _ => None
  end.

(** Gold is published, the six assets without a history are withheld; where the insert fails,
    that is gold's failure alone. *)
Example one_published :
  (counts (demo_pass nothing_fails (demo_db [])).2,
   counts (demo_pass (λ _ s, match s with InsertSignal => true | _ => false end) (demo_db [])).2,
   length (sd_signals (demo_pass nothing_fails (demo_db [])).1)) = (Some (1, 6, 0), Some (0, 6, 1), 1%nat).
Proof. vm_compute. reflexivity. Qed.

(** A spread beyond the floats, in the newest quote of the dealer: the cost of gold raises, and
    with it the whole pass, before any symbol is looked at. *)
Definition poisoned : RawRow :=
  {| raw_provider_code := "hamrahgold"; raw_symbol := "IR_GOLD_18K"; raw_value := fone; raw_unit := "gram";
     raw_currency := "IRT"; raw_payload := Some [("spread_pct", JInt (10 ^ 400))]; raw_observed_at := demo_now - 5;
     raw_collected_at := demo_now; raw_quality := "ok"; raw_dedupe_key := "k" |}.

Example one_bad_spread_sinks_the_pass :
  match (demo_pass nothing_fails (demo_db [poisoned])).2 with
  | Err (PolicyFailed (Uncaught OverflowError)) => True
  | _ => False
  end.
Proof. vm_compute. exact I. Qed.

Example every_symbol_has_its_risk : forallb (λ sym, if assoc sym MARKET_RISK then true else false) SIGNAL_SYMBOLS = true.
Proof. vm_compute. reflexivity. Qed.

Lemma demo_is_published :
  match demo_generate (demo_db []) demo_settings "XAUUSD" with
  | Ok (_, o) => bool_decide (is_Some (so_payload o))
  | Err _ => false
  end = true.
Proof. vm_compute. reflexivity. Qed.

Lemma call_is_backed_witness :
  ∃ a, evidence tehran_0330 (demo_db []) demo_settings "XAUUSD" demo_now a ∧ (3 ≤ length (as_scored a))%nat.
Proof.
  pose proof demo_is_published as Hd.
  destruct (demo_generate (demo_db []) demo_settings "XAUUSD") as [[db' o]|e] eqn:Hg; [|discriminate Hd].
  destruct (so_payload o) as [[id r]|] eqn:Hp; [|discriminate Hd].
  destruct (call_is_backed tehran_0330 demo_text nothing_fails (λ _, demo_now) (λ _, true) (demo_db []) demo_settings
    "XAUUSD" db' o id r Hg Hp) as (a&Ha&_&H3&_). exact (ex_intro _ a (conj Ha H3)).
Defined.

Lemma signals_read_accepted_witness :
  snd <$> demo_generate
    (with_prices (demo_prices ++ [demo_row "XAUUSD" "suspect" "yahoo" demo_day 9000;
                                  demo_row "XAUUSD" "ok" "tsetmc_cdn" demo_day 1]) (demo_db [])) demo_settings "XAUUSD"
  = snd <$> demo_generate (demo_db []) demo_settings "XAUUSD".
Proof.
  apply (signals_read_accepted tehran_0330 demo_text nothing_fails (λ _, demo_now) (λ _, true) (demo_db []) demo_settings
    "XAUUSD"). vm_compute. reflexivity.
Defined.
