(* ===== verification/Backtest.v ===== *)
(** * The backtest of the signal

    [app/backtest/engine.py]: the walk-forward loop (long gold or in cash), its benchmarks,
    the metrics of an equity curve and the run that is stored.

    A series is the list of its values.  The warm-up and the horizon, which the code takes
    from its own tables, are not negative.  The functions of NumPy, and the power of the
    language, are [Numerics]; [detect_regime] is the one of [SignalAssembly]. *)
From S2P Require Import Prelude PyFloat PyTime PyText PyJson PriceDB Features SignalAssembly.
Local Open Scope string_scope.
Local Open Scope list_scope.
Local Open Scope Z_scope.

(** [np_round4] is [round(x, 4)] of a NumPy scalar, [py_pow] the [**] of two floats. *)
Class Numerics : Type := {
  np_mean : list float → float;
  np_prod : list float → float;
  np_sqrt : float → float;
  np_sign : float → float;
  np_round4 : float → float;
  py_pow : float → float → result pyerr float;
}.

Inductive backtest_exn : Set :=
| SeriesTooShort (points need : Z)
| HorizonNotDaily (horizon : string)
| Uncaught (e : pyerr)
| LinAlgError.

Definition from_py {A} (r : result pyerr A) : result backtest_exn A :=
  match r with Ok x => Ok x | Err e => Err (Uncaught e) end.

Record BacktestParams : Set := {
  horizon_steps : nat;
  fee_pct : float;
  spread_pct : float;
  slippage_pct : float;
  min_holding_days : Z;
  warmup : nat;
}.

Definition cost_per_side_pct (p : BacktestParams) : float :=
  fadd (fadd (fee_pct p) (fdiv_ieee (spread_pct p) (float_of_Z 2))) (slippage_pct p).

Definition round_trip_cost_pct (p : BacktestParams) : float := fmul (float_of_Z 2) (cost_per_side_pct p).

(** [xs[t]], of an index that is there *)
Definition at_ (xs : list float) (t : nat) : float := nth t xs fnan.

(** [(x / y - 1.0) * 100.0] *)
Definition change_pct (x y : float) : float := fmul (fsub (fdiv_ieee x y) fone) fhundred.

Section Engine.
Context `{P : Pandas} `{ST : Statistics} `{N : Numerics}.

Definition default_forecast (history : list float) (steps : nat) : result pyerr float :=
  if (length history <? 21)%nat then Ok fzero
  else
    let sma5 := np_mean (last_n 5 history) in
    let sma20 := np_mean (last_n 20 history) in
    q ← fdiv sma5 sma20;
    let trend_gap := fmul (fsub q fone) fhundred in
    let drift :=
      fdiv_ieee (change_pct (at_ history (length history - 1)) (at_ history (length history - 11))) (float_of_Z 10) in
    Ok (fadd (fmul trend_gap (flit 5 1)) (fmul drift (float_of_Z (Z.of_nat steps)))).

(** ** Metrics *)

(** [np.maximum] and [np.minimum]: a NaN stays. *)
Definition np_maximum (x y : float) : float := if is_nan x || is_nan y then fnan else if fge x y then x else y.
Definition np_minimum (x y : float) : float := if is_nan x || is_nan y then fnan else if fle x y then x else y.

(** [np.maximum.accumulate] *)
Fixpoint accumulate (peak : float) (xs : list float) : list float :=
  match xs with [] => [] | x :: xs => let p := np_maximum peak x in p :: accumulate p xs end.

Definition _max_drawdown_pct (equity : list float) : float :=
  match equity with
  | [] => fzero
  | e :: rest =>
      let drawdowns := zip_with (λ e p, fsub (fdiv_ieee e p) fone) equity (e :: accumulate e rest) in
      match drawdowns with
      | [] => fzero
      | d :: ds => fmul (fopp (foldl np_minimum d ds)) fhundred
      end
  end.

Record Metrics : Set := {
  total_return_pct : float;
  annualized_return_pct : float;
  win_rate : float;
  profit_factor : option float;
  max_drawdown_pct : float;
  n_trades : Z;
  avg_trade_return_pct : float;
  sharpe_like : float;
  gross_total_return_pct : option float;
  directional_accuracy : option float;
}.

(** [sum] of NumPy scalars: no compensation. *)
Definition sum_np (xs : list float) : float := foldl fadd fzero xs.

Definition daily_returns (equity : list float) : list float :=
  zip_with (λ x y, fdiv_ieee (fsub y x) x) equity (drop 1 equity).

Definition _metrics_from_equity (equity trades : list float) (n_days : Z) (gross_equity : list float)
    (directional_hits : list bool) : result pyerr Metrics :=
  let final := List.last equity fnan in
  let total_return := match equity with [] => fzero | _ => fmul (fsub final fone) fhundred end in
  let years := fmax (fdiv_ieee (float_of_Z n_days) (float_of_Z 365)) (flit 1 9) in
  annualized ← (match equity with
                | [] => Ok (float_of_Z (-100))
                | _ => if fgt final fzero
                       then inverse ← fdiv fone years;
                            p ← py_pow final inverse; Ok (fmul (fsub p fone) fhundred)
                       else Ok (float_of_Z (-100))
                end);
  let daily_ret := daily_returns equity in
  let sharpe :=
    match daily_ret with
    | [] => fzero
    | _ => if fgt (np_std daily_ret) fzero
           then fmul (fdiv_ieee (np_mean daily_ret) (np_std daily_ret)) (np_sqrt (float_of_Z 365))
           else fzero
    end in
  let wins := List.filter (λ t, fgt t fzero) trades in
  let losses := List.filter (λ t, fle t fzero) trades in
  let gross_win := sum_np wins in
  let gross_loss := fopp (sum_np losses) in
  let factor :=
    if fgt gross_loss fzero then np_round4 (fdiv_ieee gross_win gross_loss)
    else if fgt gross_win fzero then finf else fzero in
  Ok {| total_return_pct := py_round total_return 4;
        annualized_return_pct := py_round annualized 4;
        win_rate :=
          match trades with
          | [] => fzero
          | _ => py_round (int_true_div (Z.of_nat (length wins)) (Z.of_nat (length trades))) 4
          end;
        profit_factor := if feq factor finf then None else Some factor;
        max_drawdown_pct := py_round (_max_drawdown_pct equity) 4;
        n_trades := Z.of_nat (length trades);
        avg_trade_return_pct := match trades with [] => fzero | _ => py_round (np_mean trades) 4 end;
        sharpe_like := py_round sharpe 4;
        gross_total_return_pct :=
          match gross_equity with
          | [] => None
          | _ => Some (py_round (fmul (fsub (List.last gross_equity fnan) fone) fhundred) 4)
          end;
        directional_accuracy :=
          match directional_hits with
          | [] => None
          | _ => Some (np_round4 (int_true_div (Z.of_nat (length (List.filter id directional_hits)))
                                               (Z.of_nat (length directional_hits))))
          end |}.

(** ** The walk *)
Record Walk : Type := {
  equity : list float;
  gross : list float;
  position : bool;
  entry_equity : float;
  held_days : Z;
  trades : list float;
  directional_hits : list bool;
  regime_returns : gmap string (list float);
}.

Definition start_walk : Walk :=
  {| equity := [fone]; gross := [fone]; position := false; entry_equity := fzero; held_days := 0; trades := [];
     directional_hits := []; regime_returns := ∅ |}.

Definition cost_side (p : BacktestParams) : float := fdiv_ieee (cost_per_side_pct p) fhundred.
Definition entry_threshold (p : BacktestParams) : float := fmul (round_trip_cost_pct p) (flit 75 2).

(** The factor a side of a trade costs. *)
Definition side_factor (p : BacktestParams) : float := fsub fone (cost_side p).

Definition step_ret (values : list float) (t : nat) : float := fsub (fdiv_ieee (at_ values (t + 1)) (at_ values t)) fone.

Definition hit_of (values : list float) (p : BacktestParams) (t : nat) (expected : float) : list bool :=
  let realized_idx := Nat.min (t + horizon_steps p) (length values - 1) in
  let realized := change_pct (at_ values realized_idx) (at_ values t) in
  if fne expected fzero && fne realized fzero then [feq (np_sign expected) (np_sign realized)] else [].

Definition walk_bar (values : list float) (p : BacktestParams) (regimes : list string)
    (forecast_fn : list float → nat → result pyerr float) (w : Walk) (t : nat) : result backtest_exn Walk :=
  expected ← from_py (forecast_fn (take (t + 1) values) (horizon_steps p));
  let hits := directional_hits w ++ hit_of values p t expected in
  let eq := List.last (equity w) fnan in
  let '(eq, position', entry', held', trades') :=
    if negb (position w) && fgt expected (entry_threshold p)
    then (fmul eq (side_factor p), true, fmul eq (side_factor p), 0, trades w)
    else if position w && (min_holding_days p <=? held_days w) && flt expected fzero
    then (fmul eq (side_factor p), false, entry_equity w, held_days w,
          trades w ++ [change_pct (fmul eq (side_factor p)) (entry_equity w)])
    else (eq, position w, entry_equity w, held_days w, trades w) in
  let ret := step_ret values t in
  let last_gross := List.last (gross w) fnan in
  Ok (if (position' : bool) then
        {| equity := equity w ++ [fmul eq (fadd fone ret)]; gross := gross w ++ [fmul last_gross (fadd fone ret)];
           position := true; entry_equity := entry'; held_days := held' + 1; trades := trades';
           directional_hits := hits;
           regime_returns :=
             let r := nth t regimes EmptyString in
             <[r := default [] (regime_returns w !! r) ++ [ret]]> (regime_returns w) |}
      else
        {| equity := equity w ++ [eq]; gross := gross w ++ [last_gross]; position := false; entry_equity := entry';
           held_days := held'; trades := trades'; directional_hits := hits; regime_returns := regime_returns w |}).

Fixpoint walk_steps (values : list float) (p : BacktestParams) (regimes : list string)
    (forecast_fn : list float → nat → result pyerr float) (w : Walk) (ts : list nat) : result backtest_exn Walk :=
  match ts with
  | [] => Ok w
  | t :: ts => w ← walk_bar values p regimes forecast_fn w t; walk_steps values p regimes forecast_fn w ts
  end.

(** [xs[-1] = x] *)
Definition set_last (xs : list float) (x : float) : list float := removelast xs ++ [x].

(** The position still open at the end is closed. *)
Definition close_final (p : BacktestParams) (w : Walk) : Walk :=
  if position w then
    let eq := fmul (List.last (equity w) fnan) (side_factor p) in
    {| equity := set_last (equity w) eq; gross := gross w; position := true; entry_equity := entry_equity w;
       held_days := held_days w; trades := trades w ++ [change_pct eq (entry_equity w)];
       directional_hits := directional_hits w; regime_returns := regime_returns w |}
  else w.

(** ** The benchmarks *)
Record SmaWalk : Set := {
  sma_equity : list float;
  sma_gross : list float;
  sma_pos : bool;
  sma_entry : float;
  sma_trades : list float;
}.

Definition sma_step (values : list float) (p : BacktestParams) (w : SmaWalk) (t : nat) : SmaWalk :=
  let window n := last_n n (take (t + 1) values) in
  let want := if (50 <=? t)%nat then fgt (np_mean (window 20%nat)) (np_mean (window 50%nat)) else sma_pos w in
  let eq := List.last (sma_equity w) fnan in
  let '(eq, entry', trades') :=
    if negb (Bool.eqb want (sma_pos w)) then
      let paid := fmul eq (side_factor p) in
      if want then (paid, paid, sma_trades w)
      else (paid, sma_entry w, sma_trades w ++ [change_pct paid (sma_entry w)])
    else (eq, sma_entry w, sma_trades w) in
  let ret := step_ret values t in
  let last_gross := List.last (sma_gross w) fnan in
  {| sma_equity := sma_equity w ++ [if want then fmul eq (fadd fone ret) else eq];
     sma_gross := sma_gross w ++ [if want then fmul last_gross (fadd fone ret) else last_gross];
     sma_pos := want; sma_entry := entry'; sma_trades := trades' |}.

Definition sma_crossover_walk (values : list float) (p : BacktestParams) (ts : list nat) : SmaWalk :=
  let w := foldl (sma_step values p)
    {| sma_equity := [fone]; sma_gross := [fone]; sma_pos := false; sma_entry := fzero; sma_trades := [] |} ts in
  if sma_pos w then
    let eq := fmul (List.last (sma_equity w) fnan) (side_factor p) in
    {| sma_equity := set_last (sma_equity w) eq; sma_gross := sma_gross w; sma_pos := true; sma_entry := sma_entry w;
       sma_trades := sma_trades w ++ [change_pct eq (sma_entry w)] |}
  else w.

(** The equity, the trades and the gross equity of holding. *)
Definition buy_and_hold_curve (values : list float) (p : BacktestParams)
    : result pyerr (list float * list float * list float) :=
  let window := drop (warmup p) values in
  let first := at_ window 0 in
  let bh_gross := fdiv_ieee (List.last window fnan) first in
  squared ← py_pow (side_factor p) (float_of_Z 2);
  let bh_net := fmul bh_gross squared in
  let curve :=
    fmul fone (side_factor p) :: ((λ v, fmul (fdiv_ieee v first) (side_factor p)) <$> drop 1 window) in
  Ok (set_last curve (fmul (List.last curve fnan) (side_factor p)), [fmul (fsub bh_net fone) fhundred],
      [fone; bh_gross]).

(** ** The run *)
Record BacktestResult : Type := {
  strategy : Metrics;
  buy_and_hold : Metrics;
  no_action : Metrics;
  sma_crossover : Metrics;
  per_regime : gmap string (Z * float);
  params : BacktestParams;
  rounded_cost_per_side_pct : float;
  period_start : instant;
  period_end : instant;
  n_points : Z;
}.

Definition regime_summary (rets : list float) : Z * float :=
  (Z.of_nat (length rets), py_round (fmul (fsub (np_prod (fadd fone <$> rets)) fone) fhundred) 4).

(** [range(params.warmup, n - 1)] *)
Definition walk_range (p : BacktestParams) (n : nat) : list nat := seq (warmup p) (n - 1 - warmup p).

Definition regime_at (values : list float) (t : nat) : result backtest_exn string :=
  match detect_regime (take (t + 1) values) with Some r => Ok r | None => Err LinAlgError end.

Definition min_points (p : BacktestParams) : nat := warmup p + horizon_steps p + 2.

Definition run_backtest (series : list (instant * float)) (p : BacktestParams)
    (forecast_fn : option (list float → nat → result pyerr float)) : result backtest_exn BacktestResult :=
  let forecast_fn := default default_forecast forecast_fn in
  let values := snd <$> series in
  let n := length values in
  _ ← raise_if (n <? min_points p)%nat (SeriesTooShort (Z.of_nat n) (Z.of_nat (min_points p)));
  regimes ← traverse (regime_at values) (seq 0 n);
  w ← walk_steps values p regimes forecast_fn start_walk (walk_range p n);
  let w := close_final p w in
  let n_days := Z.of_nat n - 1 - Z.of_nat (warmup p) in
  strategy' ← from_py (_metrics_from_equity (equity w) (trades w) n_days (gross w) (directional_hits w));
  bh ← from_py (buy_and_hold_curve values p);
  let '(bh_equity, bh_trades, bh_gross) := bh in
  bh' ← from_py (_metrics_from_equity bh_equity bh_trades n_days bh_gross []);
  idle ← from_py (_metrics_from_equity [fone; fone] [] n_days [fone; fone] []);
  let s := sma_crossover_walk values p (walk_range p n) in
  sma' ← from_py (_metrics_from_equity (sma_equity s) (sma_trades s) n_days (sma_gross s) []);
  Ok {| strategy := strategy'; buy_and_hold := bh'; no_action := idle; sma_crossover := sma';
        per_regime := regime_summary <$> regime_returns w; params := p;
        rounded_cost_per_side_pct := py_round (cost_per_side_pct p) 4;
        period_start := default 0 (List.head (fst <$> series)); period_end := List.last (fst <$> series) 0;
        n_points := Z.of_nat n |}.

(** ** The stored run *)
Record BacktestRow : Type := {
  bt_id : Z;
  bt_created_at : instant;
  bt_horizon : string;
  bt_params : BacktestParams;
  bt_period_start : option instant;
  bt_period_end : option instant;
  bt_outcome : result backtest_exn BacktestResult;
}.

(** What [run_and_store] answers. *)
Inductive BacktestReport : Type :=
| RunFailed (id : Z) (why : backtest_exn)
| RunSucceeded (id : Z) (results : BacktestResult).

Inductive run_exn : Type :=
| Raises (e : backtest_exn)
| RowRefused.

Definition DAILY_STEPS : list (string * nat) := [("eod", 1%nat); ("1d", 1%nat); ("3d", 3%nat); ("7d", 7%nat); ("30d", 30%nat)].

Fixpoint replace_z (s : string) : string :=
  match s with
  | EmptyString => EmptyString
  | String c s => if String.eqb (String c EmptyString) "Z" then ("+00:00" ++ replace_z s)%string else String c (replace_z s)
  end.

Context `{I : Interpreter} (repr : json → string) (float_text : string → result pyerr float)
  (row_ok : result backtest_exn BacktestResult → bool)
  (* whether NumPy's [LinAlgError] is a [ValueError] depends on its version *)
  (linalg_is_value_error : bool).

(** [float(v)] *)
Definition py_float_of (v : json) : result pyerr float :=
  match v with
  | JBool b => Ok (if b then fone else fzero)
  | JInt n => py_float_of_int n
  | JFloat f => Ok f
  | JStr s => float_text s
  | JNull | JArr _ | JObj _ => Err TypeError
  end.

(** [payload.get(key, default)] *)
Definition get_or (key : string) (v : json) (payload : list (string * json)) : json := default v (assoc key payload).

Definition _parse_bound (raw : json) : result backtest_exn (option instant) :=
  if truthy raw then
    dt ← from_py (fromisoformat (replace_z (py_str repr raw)));
    Ok (Some (to_utc dt))
  else Ok None.

Definition run_params (payload : list (string * json)) (steps : nat) : result backtest_exn BacktestParams :=
  fee ← from_py (py_float_of (get_or "fee_pct" (JFloat (flit 5 1)) payload));
  spread ← from_py (py_float_of (get_or "spread_pct" (JFloat fone) payload));
  slippage ← from_py (py_float_of (get_or "slippage_pct" (JFloat (flit 1 1)) payload));
  holding ← from_py (py_int_of (get_or "min_holding_days" (JInt 1) payload));
  Ok {| horizon_steps := steps; fee_pct := fee; spread_pct := spread; slippage_pct := slippage;
        min_holding_days := holding; warmup := 60 |}.

(** [except ValueError] *)
Definition is_value_error (e : backtest_exn) : bool :=
  match e with
  | SeriesTooShort _ _ | HorizonNotDaily _ | Uncaught ValueError => true
  | LinAlgError => linalg_is_value_error
  | Uncaught _ => false
  end.

(** [index.min()] and [index.max()] *)
Definition earliest (ts : list instant) : option instant :=
  match ts with [] => None | t :: ts => Some (foldl Z.min t ts) end.
Definition latest (ts : list instant) : option instant :=
  match ts with [] => None | t :: ts => Some (foldl Z.max t ts) end.

Definition bounded (start end_ : option instant) (series : list (instant * float)) : list (instant * float) :=
  List.filter (λ p, match start with Some s => s <=? p.1 | None => true end
                    && match end_ with Some e => p.1 <=? e | None => true end) series.

Definition run_and_store (runs : list BacktestRow) (next_id : Z) (series : list (instant * float))
    (payload : list (string * json)) (now : instant) : list BacktestRow * result run_exn BacktestReport :=
  let horizon := py_str repr (let h := jget "horizon" payload in if truthy h then h else JStr "1d") in
  match
    (steps ← match assoc horizon DAILY_STEPS with Some n => Ok n | None => Err (HorizonNotDaily horizon) end;
     p ← run_params payload steps;
     start ← _parse_bound (jget "start" payload);
     end_ ← _parse_bound (jget "end" payload);
     let series := bounded start end_ series in
     let outcome := run_backtest series p None in
     _ ← match outcome with Err e => raise_if (negb (is_value_error e)) e | Ok _ => Ok () end;
     Ok (p, series, outcome))
  with
  | Err e => (runs, Err (Raises e))
  | Ok (p, series, outcome) =>
      if negb (row_ok outcome) then (runs, Err RowRefused)
      else
        (runs ++ [{| bt_id := next_id; bt_created_at := now; bt_horizon := horizon; bt_params := p;
                     bt_period_start := earliest (fst <$> series); bt_period_end := latest (fst <$> series);
                     bt_outcome := outcome |}],
         Ok (match outcome with
             | Ok results => RunSucceeded next_id results
             | Err why => RunFailed next_id why
             end))
  end.
End Engine.

(** ** What the walk does, read off its trades *)

(** A trade: the bars at which it was entered and left. *)
Record Trip : Set := { tr_in : nat; tr_out : nat }.

Section Ledger.
Context `{P : Pandas} `{ST : Statistics} `{N : Numerics}.
Context (values : list float) (p : BacktestParams) (regimes : list string)
  (forecast_fn : list float → nat → result pyerr float).

Definition in_trip (t : nat) (tr : Trip) : bool := (tr_in tr <=? t)%nat && (t <? tr_out tr)%nat.

(** Whether the bar from [t] to [t+1] is held. *)
Definition held (trips : list Trip) (open : option nat) (t : nat) : bool :=
  existsb (in_trip t) trips || match open with Some i => (i <=? t)%nat | None => false end.

Definition side_paid (trips : list Trip) (open : option nat) (t : nat) : bool :=
  existsb (λ tr, (tr_in tr =? t)%nat || (tr_out tr =? t)%nat) trips || bool_decide (open = Some t).

Definition forecast_at (t : nat) : result pyerr float := forecast_fn (take (t + 1) values) (horizon_steps p).

(** The equity at a bar, before what is decided there. *)
Definition level (curve : list float) (t : nat) : float := at_ curve (t - warmup p).

(** The return of a trade: what the exit leaves over what the entry left, a side paid at each. *)
Definition trade_return (curve : list float) (tr : Trip) : float :=
  change_pct (fmul (level curve (tr_out tr)) (side_factor p)) (fmul (level curve (tr_in tr)) (side_factor p)).

(** The trips are in order, and each was decided on the forecast of its bar. *)
Record trips_ok (trips : list Trip) (open : option nat) (now : nat) : Prop := {
  to_order : ∀ i tr tr', trips !! i = Some tr → trips !! S i = Some tr' → (tr_out tr < tr_in tr')%nat;
  to_holding tr : tr ∈ trips →
    (warmup p ≤ tr_in tr < tr_out tr)%nat ∧ (tr_out tr < now)%nat
    ∧ min_holding_days p ≤ Z.of_nat (tr_out tr - tr_in tr);
  to_entered tr : tr ∈ trips → ∃ x, forecast_at (tr_in tr) = Ok x ∧ fgt x (entry_threshold p) = true;
  to_left tr : tr ∈ trips → ∃ x, forecast_at (tr_out tr) = Ok x ∧ flt x fzero = true;
  to_open i : open = Some i →
    (warmup p ≤ i < now)%nat ∧ (∀ tr, tr ∈ trips → (tr_out tr < i)%nat)
    ∧ ∃ x, forecast_at i = Ok x ∧ fgt x (entry_threshold p) = true;
}.

(** The curves: a bar that is held multiplies both by its return, a bar at which a side
    is paid costs the net one that side; otherwise nothing moves. *)
Definition next_equity (trips : list Trip) (open : option nat) (t : nat) (e : float) : float :=
  let paid := if side_paid trips open t then fmul e (side_factor p) else e in
  if held trips open t then fmul paid (fadd fone (step_ret values t)) else paid.

Definition next_gross (trips : list Trip) (open : option nat) (t : nat) (g : float) : float :=
  if held trips open t then fmul g (fadd fone (step_ret values t)) else g.

Record accounts (k : nat) (w : Walk) (trips : list Trip) (open : option nat) : Prop := {
  ac_trips : trips_ok trips open (warmup p + k);
  ac_lengths : length (equity w) = S k ∧ length (gross w) = S k;
  ac_start : at_ (equity w) 0 = fone ∧ at_ (gross w) 0 = fone;
  ac_step j : (j < k)%nat →
    at_ (equity w) (S j) = next_equity trips open (warmup p + j) (at_ (equity w) j)
    ∧ at_ (gross w) (S j) = next_gross trips open (warmup p + j) (at_ (gross w) j);
  ac_trades : trades w = trade_return (equity w) <$> trips;
  ac_position : position w = match open with Some _ => true | None => false end;
  ac_open i : open = Some i →
    entry_equity w = fmul (level (equity w) i) (side_factor p)
    ∧ held_days w = Z.of_nat (warmup p + k - i);
  ac_regimes r :
    default [] (regime_returns w !! r)
    = step_ret values <$> List.filter (λ t, held trips open t && String.eqb (nth t regimes EmptyString) r)
                            (seq (warmup p) k);
}.

Lemma at_app_old (xs : list float) y j : (j < length xs)%nat → at_ (xs ++ [y]) j = at_ xs j.
Proof. intros Hj. unfold at_. by rewrite app_nth1 by lia. Qed.

Lemma at_app_new (xs : list float) y : at_ (xs ++ [y]) (length xs) = y.
Proof. unfold at_. rewrite app_nth2 by lia. by rewrite Nat.sub_diag. Qed.

Lemma last_at (xs : list float) k : length xs = S k → List.last xs fnan = at_ xs k.
Proof.
  intros Hl. destruct xs as [|x xs] using rev_ind; [done|]. rewrite length_app in Hl. simpl in Hl.
  rewrite List.last_last. replace k with (length xs) by lia. by rewrite at_app_new.
Qed.

Lemma held_exit trips i now t :
  (t < now)%nat → held (trips ++ [{| tr_in := i; tr_out := now |}]) None t = held trips (Some i) t.
Proof.
  intros Ht. unfold held. rewrite existsb_app. simpl. rewrite !orb_false_r. f_equal. unfold in_trip. simpl.
  by rewrite (proj2 (Nat.ltb_lt t now)), andb_true_r.
Qed.

Lemma held_enter trips now t : (t < now)%nat → held trips (Some now) t = held trips None t.
Proof. intros Ht. unfold held. f_equal. apply Nat.leb_gt. lia. Qed.

Lemma traded_exit trips i now t :
  (t < now)%nat → side_paid (trips ++ [{| tr_in := i; tr_out := now |}]) None t = side_paid trips (Some i) t.
Proof.
  intros Ht. unfold side_paid. rewrite existsb_app. simpl. rewrite !orb_false_r. f_equal.
  rewrite (proj2 (Nat.eqb_neq now t)) by lia. rewrite orb_false_r.
  destruct (Nat.eqb_spec i t); [subst; by rewrite bool_decide_true|]. rewrite bool_decide_false; [done|congruence].
Qed.

Lemma traded_enter trips now t : (t < now)%nat → side_paid trips (Some now) t = side_paid trips None t.
Proof. intros Ht. unfold side_paid. f_equal. rewrite !bool_decide_false; [done|done|]. intros [= ->]. lia. Qed.

Lemma past_trips trips open now :
  trips_ok trips open now →
  existsb (in_trip now) trips = false
  ∧ existsb (λ tr, (tr_in tr =? now)%nat || (tr_out tr =? now)%nat) trips = false.
Proof.
  intros [_ Hh _ _ _]. split; apply not_true_iff_false; rewrite existsb_exists; intros (tr&Hin%list_elem_of_In&Ht);
    destruct (Hh tr Hin) as (?&?&_).
  - unfold in_trip in Ht. apply andb_true_iff in Ht as [_ Ht%Nat.ltb_lt]. lia.
  - apply orb_true_iff in Ht as [Ht%Nat.eqb_eq|Ht%Nat.eqb_eq]; lia.
Qed.

Lemma order_snoc trips tr :
  (∀ i a b, trips !! i = Some a → trips !! S i = Some b → (tr_out a < tr_in b)%nat) →
  (∀ a, a ∈ trips → (tr_out a < tr_in tr)%nat) →
  ∀ i a b, (trips ++ [tr]) !! i = Some a → (trips ++ [tr]) !! S i = Some b → (tr_out a < tr_in b)%nat.
Proof.
  intros Hord Hlast i a b Ha Hb. destruct (decide (S i < length trips)%nat) as [Hlt|Hge].
  - rewrite lookup_app_l in Ha, Hb by lia. by eapply Hord.
  - apply lookup_lt_Some in Hb as Hl. rewrite length_app in Hl. simpl in Hl.
    assert (S i = length trips) as Hi by lia. rewrite lookup_app_r in Hb by lia.
    rewrite Hi, Nat.sub_diag in Hb. injection Hb as <-. rewrite lookup_app_l in Ha by lia.
    apply Hlast. by eapply list_elem_of_lookup_2.
Qed.

(** The trips after a decision. *)
Lemma trips_later trips open now : trips_ok trips open now → trips_ok trips open (S now).
Proof.
  intros [H1 H2 H3 H4 H5]. split; try done.
  - intros tr Htr. destruct (H2 tr Htr) as (?&?&?). split_and!; lia.
  - intros i Hi. destruct (H5 i Hi) as (?&?&?). split_and!; [lia|lia|done|done].
Qed.

Lemma trips_enter trips now x :
  trips_ok trips None now → (warmup p ≤ now)%nat → forecast_at now = Ok x → fgt x (entry_threshold p) = true →
  trips_ok trips (Some now) (S now).
Proof.
  intros Hok Hw Hx Ht. destruct (trips_later _ _ _ Hok) as [H1 H2 H3 H4 _]. split; try done.
  intros i [= <-]. split_and!; [lia|lia| |by exists x]. intros tr Htr. destruct (to_holding _ _ _ Hok tr Htr) as (_&?&_). lia.
Qed.

Lemma trips_exit trips i now x :
  trips_ok trips (Some i) now → min_holding_days p ≤ Z.of_nat (now - i) →
  forecast_at now = Ok x → flt x fzero = true →
  trips_ok (trips ++ [{| tr_in := i; tr_out := now |}]) None (S now).
Proof.
  intros Hok Hmin Hx Hneg. destruct (to_open _ _ _ Hok i eq_refl) as (Hi&Hlast&Hentry).
  destruct (trips_later _ _ _ Hok) as [H1 H2 H3 H4 _]. split; try done.
  - by apply order_snoc.
  - intros tr [Htr| ->%list_elem_of_singleton]%elem_of_app; [by apply H2|]. simpl. split_and!; lia.
  - intros tr [Htr| ->%list_elem_of_singleton]%elem_of_app; [by apply H3|]. done.
  - intros tr [Htr| ->%list_elem_of_singleton]%elem_of_app; [by apply H4|]. by exists x.
Qed.

(** The accounts carry over when the bars so far are seen the same way. *)
Lemma accounts_extend k w trips open trips' open' e g ret_held :
  accounts k w trips open →
  (∀ t, (t < warmup p + k)%nat → held trips' open' t = held trips open t ∧ side_paid trips' open' t = side_paid trips open t) →
  let net_ := next_equity trips' open' (warmup p + k) (at_ (equity w) k) in
  let gr := next_gross trips' open' (warmup p + k) (at_ (gross w) k) in
  e = net_ → g = gr → ret_held = held trips' open' (warmup p + k) →
  (length (equity w ++ [e]) = S (S k) ∧ length (gross w ++ [g]) = S (S k))
  ∧ (at_ (equity w ++ [e]) 0 = fone ∧ at_ (gross w ++ [g]) 0 = fone)
  ∧ (∀ j, (j < S k)%nat →
      at_ (equity w ++ [e]) (S j) = next_equity trips' open' (warmup p + j) (at_ (equity w ++ [e]) j)
      ∧ at_ (gross w ++ [g]) (S j) = next_gross trips' open' (warmup p + j) (at_ (gross w ++ [g]) j))
  ∧ (∀ t, (t ≤ warmup p + k)%nat → level (equity w ++ [e]) t = level (equity w) t)
  ∧ (∀ r, step_ret values <$> List.filter (λ t, held trips' open' t && String.eqb (nth t regimes EmptyString) r)
                               (seq (warmup p) (S k))
       = default [] (regime_returns w !! r)
         ++ if ret_held && String.eqb (nth (warmup p + k) regimes EmptyString) r then [step_ret values (warmup p + k)] else []).
Proof.
  intros [_ [Hl1 Hl2] [Hs1 Hs2] Hstep _ _ _ Hreg] Hsame net_ gr -> -> ->.
  assert (∀ j, (j ≤ k)%nat → at_ (equity w ++ [net_]) j = at_ (equity w) j ∧ at_ (gross w ++ [gr]) j = at_ (gross w) j)
    as Hold by (intros j Hj; rewrite !at_app_old by lia; done).
  split; [rewrite !length_app; simpl; lia|].
  split; [destruct (Hold 0%nat ltac:(lia)) as [-> ->]; done|].
  split; [|split].
  - intros j Hj. destruct (decide (j = k)) as [->|Hne].
    + destruct (Hold k ltac:(lia)) as [-> ->]. rewrite <-Hl1, at_app_new. split; [done|].
      by rewrite Hl1, <-Hl2, at_app_new.
    + destruct (Hold j ltac:(lia)) as [-> ->], (Hold (S j) ltac:(lia)) as [-> ->].
      destruct (Hstep j ltac:(lia)) as [-> ->], (Hsame (warmup p + j)%nat ltac:(lia)) as [Hh Ht].
      unfold next_equity, next_gross. by rewrite Hh, Ht.
  - intros t Ht. unfold level. apply Hold. lia.
  - intros r. rewrite Hreg, seq_S, bool_filter_app, fmap_app. f_equal.
    + f_equal. apply bool_filter_ext. intros t Hin. apply elem_of_seq in Hin.
      by rewrite (proj1 (Hsame t ltac:(lia))).
    + simpl. by destruct (held _ _ _ && _).
Qed.

Lemma accounts_next k w trips open w' trips' open' :
  let now := (warmup p + k)%nat in
  accounts k w trips open → trips_ok trips' open' (S now) →
  (∀ t, (t < now)%nat → held trips' open' t = held trips open t ∧ side_paid trips' open' t = side_paid trips open t) →
  equity w' = equity w ++ [next_equity trips' open' now (at_ (equity w) k)] →
  gross w' = gross w ++ [next_gross trips' open' now (at_ (gross w) k)] →
  trades w' = trade_return (equity w) <$> trips' →
  position w' = match open' with Some _ => true | None => false end →
  (∀ i, open' = Some i → entry_equity w' = fmul (level (equity w) i) (side_factor p)
                         ∧ held_days w' = Z.of_nat (S now - i)) →
  (∀ r, default [] (regime_returns w' !! r) = default [] (regime_returns w !! r)
     ++ if held trips' open' now && String.eqb (nth now regimes EmptyString) r then [step_ret values now] else []) →
  accounts (S k) w' trips' open'.
Proof.
  intros now Hacc Hok Hsame He Hg Htr Hpos Hopen Hreg.
  destruct (accounts_extend _ _ _ _ trips' open' _ _ _ Hacc Hsame eq_refl eq_refl eq_refl)
    as (Hlen&Hstart&Hstep&Hlevel&Hregs).
  assert (warmup p + S k = S now)%nat as Hnow by (unfold now; lia).
  split; rewrite ?He, ?Hg, ?Hnow; try done.
  - rewrite Htr. apply list_fmap_ext. intros j tr Hj%list_elem_of_lookup_2.
    destruct (to_holding _ _ _ Hok tr Hj) as (?&?&_). unfold trade_return. by rewrite !Hlevel by (unfold now in *; lia).
  - intros i Hi. destruct (Hopen i Hi) as [-> ->]. destruct (to_open _ _ _ Hok i Hi) as (?&_).
    by rewrite Hlevel by (unfold now in *; lia).
  - intros r. by rewrite Hregs, Hreg.
Qed.

Lemma regimes_insert (m : gmap string (list float)) r0 x r :
  default [] (<[r0 := default [] (m !! r0) ++ [x]]> m !! r)
  = default [] (m !! r) ++ if String.eqb r0 r then [x] else [].
Proof.
  destruct (String.eqb_spec r0 r) as [->|Hne]; [by rewrite lookup_insert_eq|].
  by rewrite lookup_insert_ne, app_nil_r.
Qed.

Lemma from_py_Ok {A} (r : result pyerr A) x : from_py r = Ok x → r = Ok x.
Proof. destruct r; simpl; congruence. Qed.

Lemma walk_step_accounts k w trips open w' :
  accounts k w trips open → walk_bar values p regimes forecast_fn w (warmup p + k) = Ok w' →
  ∃ trips' open', accounts (S k) w' trips' open'.
Proof.
  intros Hacc H. set (now := (warmup p + k)%nat) in *.
  pose proof Hacc as [Hok [Hl1 Hl2] _ _ Htr Hpos Hopen _]. fold now in Hok.
  destruct (past_trips _ _ _ Hok) as [Hp1 Hp2].
  unfold walk_bar in H. apply bind_Ok in H as (x&Hx%from_py_Ok&H). fold (forecast_at now) in Hx.
  rewrite (last_at _ _ Hl1), (last_at _ _ Hl2) in H.
  destruct (negb (position w) && fgt x (entry_threshold p)) eqn:Henter.
  - apply andb_true_iff in Henter as [Hnp Hgt]. destruct open as [i|]; [by rewrite Hpos in Hnp|].
    apply Ok_inj in H. exists trips, (Some now).
    assert (held trips (Some now) now = true) as Hheld by (unfold held; by rewrite Nat.leb_refl, orb_true_r).
    apply (accounts_next k w trips None); fold now; subst w'; simpl; try done.
    + by apply (trips_enter _ _ x); [|unfold now; lia|..].
    + intros t Ht. by rewrite held_enter, traded_enter.
    + unfold next_equity, side_paid. by rewrite Hheld, bool_decide_true, orb_true_r.
    + unfold next_gross. by rewrite Hheld.
    + intros i [= <-]. unfold level. replace (now - warmup p)%nat with k by (unfold now; lia). split; [done|lia].
    + intros r. rewrite Hheld. apply regimes_insert.
  - destruct (position w && (min_holding_days p <=? held_days w) && flt x fzero) eqn:Hexit.
    + apply andb_true_iff in Hexit as [[Hp Hmin%Z.leb_le]%andb_true_iff Hneg].
      destruct open as [i|]; [|by rewrite Hpos in Hp]. destruct (Hopen i eq_refl) as [Hentry Hdays].
      destruct (to_open _ _ _ Hok i eq_refl) as (Hi&Hlast&_). fold now in Hdays.
      apply Ok_inj in H. exists (trips ++ [{| tr_in := i; tr_out := now |}]), None.
      assert (held (trips ++ [{| tr_in := i; tr_out := now |}]) None now = false) as Hheld.
      { unfold held. rewrite existsb_app, Hp1. unfold in_trip. simpl. by rewrite Nat.ltb_irrefl, andb_false_r. }
      apply (accounts_next k w trips (Some i)); fold now; subst w'; simpl; try done.
      * apply (trips_exit _ _ _ x); try done. lia.
      * intros t Ht. by rewrite held_exit, traded_exit.
      * unfold next_equity, side_paid. rewrite Hheld, existsb_app. simpl. by rewrite Nat.eqb_refl, !orb_true_r.
      * unfold next_gross. by rewrite Hheld.
      * assert (level (equity w) now = at_ (equity w) k) as Hlv by (unfold level; f_equal; unfold now; lia).
        rewrite Htr, fmap_app, Hentry, <-Hlv. done.
      * intros r. by rewrite Hheld, app_nil_r.
    + apply Ok_inj in H. exists trips, open. destruct open as [i|]; rewrite Hpos in H.
      * destruct (to_open _ _ _ Hok i eq_refl) as (Hi&_&_). destruct (Hopen i eq_refl) as [Hentry Hdays].
        assert (held trips (Some i) now = true) as Hheld.
        { unfold held. rewrite (proj2 (Nat.leb_le i now)) by lia. by rewrite orb_true_r. }
        apply (accounts_next k w trips (Some i)); fold now; subst w'; simpl; try done.
        -- by apply trips_later.
        -- unfold next_equity, side_paid. rewrite Hheld, Hp2, bool_decide_false; [done|]. intros [= ->]. lia.
        -- unfold next_gross. by rewrite Hheld.
        -- intros i' [= <-]. split; [done|]. rewrite Hdays. lia.
        -- intros r. rewrite Hheld. apply regimes_insert.
      * assert (held trips None now = false) as Hheld by (unfold held; by rewrite Hp1).
        apply (accounts_next k w trips None); fold now; subst w'; simpl; try done.
        -- by apply trips_later.
        -- unfold next_equity, side_paid. by rewrite Hheld, Hp2.
        -- unfold next_gross. by rewrite Hheld.
        -- intros r. by rewrite Hheld, app_nil_r.
Qed.

Lemma walk_accounts m k w trips open w' :
  accounts k w trips open → walk_steps values p regimes forecast_fn w (seq (warmup p + k) m) = Ok w' →
  ∃ trips' open', accounts (k + m) w' trips' open'.
Proof.
  revert k w trips open. induction m as [|m IH]; intros k w trips open Hacc; simpl.
  { intros [= <-]. exists trips, open. by rewrite Nat.add_0_r. }
  intros (w1&Hw&H)%bind_Ok. destruct (walk_step_accounts _ _ _ _ _ Hacc Hw) as (trips1&open1&Hacc1).
  rewrite <-Nat.add_succ_r in H. destruct (IH _ _ _ _ Hacc1 H) as (trips'&open'&Hacc').
  exists trips', open'. by replace (k + S m)%nat with (S k + m)%nat by lia.
Qed.

Lemma accounts_start : accounts 0 start_walk [] None.
Proof.
  split; try done.
  - split; try done; try by intros ? ?%elem_of_nil.
  - lia.
Qed.
End Ledger.

(** ** The run *)
Section Run.
Context `{P : Pandas} `{ST : Statistics} `{N : Numerics}.

Lemma metrics_trades eq trs n g hits m :
  _metrics_from_equity eq trs n g hits = Ok m → n_trades m = Z.of_nat (length trs).
Proof. unfold _metrics_from_equity. cbv zeta. by intros (a&_&[= <-])%bind_Ok. Qed.

Lemma run_backtest_Ok series p f res :
  run_backtest series p f = Ok res →
  let values := snd <$> series in
  let n := length values in
  (min_points p ≤ n)%nat ∧ ∃ regimes w,
    traverse (regime_at values) (seq 0 n) = Ok regimes
    ∧ walk_steps values p regimes (default default_forecast f) start_walk (walk_range p n) = Ok w
    ∧ _metrics_from_equity (equity (close_final p w)) (trades (close_final p w)) (Z.of_nat n - 1 - Z.of_nat (warmup p))
        (gross w) (directional_hits w) = Ok (strategy res)
    ∧ per_regime res = regime_summary <$> regime_returns w.
Proof.
  unfold run_backtest. cbv zeta. intros ([]&Hn&H)%bind_Ok. rewrite raise_if_Ok, Nat.ltb_ge in Hn.
  apply bind_Ok in H as (regimes&Hr&H). apply bind_Ok in H as (w&Hw&H).
  apply bind_Ok in H as (m&Hm%from_py_Ok&H). apply bind_Ok in H as ([[? ?] ?]&_&H).
  apply bind_Ok in H as (?&_&H). apply bind_Ok in H as (?&_&H). apply bind_Ok in H as (?&_&[= <-]).
  split; [done|]. exists regimes, w. simpl. split_and!; [done|done| |].
  - by destruct w as [? ? []].
  - unfold close_final. by destruct (position w).
Qed.

Lemma regimes_detected values n regimes t :
  Forall2 (λ t r, regime_at values t = Ok r) (seq 0 n) regimes → (t < n)%nat →
  ∃ r, regimes !! t = Some r ∧ detect_regime (take (t + 1) values) = Some r.
Proof.
  intros H Ht. assert (seq 0 n !! t = Some t) as Hs by (apply lookup_seq; lia).
  destruct (Forall2_lookup_l _ _ _ _ _ H Hs) as (r&Hr&Hd). exists r. split; [done|].
  unfold regime_at in Hd. destruct (detect_regime _); congruence.
Qed.


(** What a bar of the future cannot change. *)
Definition unhit (w : Walk) : Walk :=
  {| equity := equity w; gross := gross w; position := position w; entry_equity := entry_equity w;
     held_days := held_days w; trades := trades w; directional_hits := []; regime_returns := regime_returns w |}.

Lemma at_take (xs ys : list float) m t : take m xs = take m ys → (t < m)%nat → at_ xs t = at_ ys t.
Proof.
  intros Heq Ht. unfold at_. rewrite <-(firstn_skipn m xs), <-(firstn_skipn m ys).
  change (firstn m xs) with (take m xs). change (firstn m ys) with (take m ys). rewrite Heq.
  destruct (decide (t < length (take m ys))%nat); [by rewrite !app_nth1 by lia|].
  assert (length (take m xs) = length (take m ys)) as Hlen by congruence. rewrite !length_take in *.
  rewrite !nth_overflow; [done|..]; rewrite length_app, length_take; change (@skipn float) with (@drop float);
    rewrite length_drop; lia.
Qed.

Lemma take_shorter (xs ys : list float) m j : take m xs = take m ys → (j ≤ m)%nat → take j xs = take j ys.
Proof.
  intros Heq Hj. rewrite <-(Nat.min_l j m) by done. by rewrite <-!take_take, Heq.
Qed.

Lemma walk_step_causal values values' p regimes regimes' f m w w' t w1 :
  take m values = take m values' → (t + 1 < m)%nat → nth t regimes EmptyString = nth t regimes' EmptyString →
  unhit w = unhit w' → walk_bar values p regimes f w t = Ok w1 →
  ∃ w1', walk_bar values' p regimes' f w' t = Ok w1' ∧ unhit w1 = unhit w1'.
Proof.
  intros Hv Ht Hr Hw H. unfold walk_bar in *.
  rewrite <-(take_shorter _ _ _ (t + 1) Hv) by lia. apply bind_Ok in H as (x&->&H). cbn [mbind result_bind].
  assert (step_ret values' t = step_ret values t) as Hret
    by (unfold step_ret; by rewrite !(at_take values values' m) by first [done|lia]).
  destruct w as [e g po en hd tr hits rr], w' as [e' g' po' en' hd' tr' hits' rr'].
  unfold unhit in Hw. simpl in Hw. injection Hw as <- <- <- <- <- <- <-. cbv zeta in *.
  cbn [equity gross position entry_equity held_days trades directional_hits regime_returns] in *.
  rewrite Hret, <-Hr.
  destruct (negb po && _); [|destruct (po && _ && _); [|destruct po]]; apply Ok_inj in H; subst w1;
    (eexists; split; [reflexivity|reflexivity]).
Qed.

Lemma walk_steps_causal values values' p regimes regimes' f m ts w w' w1 :
  take m values = take m values' →
  (∀ t, t ∈ ts → (t + 1 < m)%nat ∧ nth t regimes EmptyString = nth t regimes' EmptyString) →
  unhit w = unhit w' → walk_steps values p regimes f w ts = Ok w1 →
  ∃ w1', walk_steps values' p regimes' f w' ts = Ok w1' ∧ unhit w1 = unhit w1'.
Proof.
  intros Hv. revert w w'. induction ts as [|t ts IH]; intros w w' Hts Hw H; simpl in *.
  { injection H as <-. by exists w'. }
  apply bind_Ok in H as (w2&H2&H). destruct (Hts t (list_elem_of_here _ _)) as [Ht Hr].
  destruct (walk_step_causal _ _ _ _ _ _ _ _ _ _ _ Hv Ht Hr Hw H2) as (w2'&->&Hw2). cbn [mbind result_bind].
  apply (IH w2 w2'); [|done|done]. intros t' Ht'. apply Hts. by right.
Qed.

Lemma regimes_lookup values regimes n t :
  traverse (regime_at values) (seq 0 n) = Ok regimes → (t < n)%nat →
  regime_at values t = Ok (nth t regimes EmptyString).
Proof.
  intros H Ht. apply traverse_Ok in H. assert (seq 0 n !! t = Some t) as Hseq by (by apply lookup_seq).
  destruct (Forall2_lookup_l _ _ _ _ _ H Hseq) as (r&Hr&Ho). rewrite Ho. f_equal. symmetry. by apply nth_lookup_Some.
Qed.

(** What the decision at the last bar fixes, whatever the next value: the position, the
    trades, what was paid at the entry, the days held; the curves up to that bar; and under
    which regime each bar that was held counts. *)
Record same_decisions (w w' : Walk) : Prop := {
  sd_position : position w' = position w;
  sd_trades : trades w' = trades w;
  sd_entry : entry_equity w' = entry_equity w;
  sd_held : held_days w' = held_days w;
  sd_equity : removelast (equity w') = removelast (equity w);
  sd_gross : removelast (gross w') = removelast (gross w);
  sd_regimes : length <$> regime_returns w' = length <$> regime_returns w;
}.

Lemma walk_step_decides values values' p regimes regimes' f m w w' t w1 :
  take m values = take m values' → (t < m)%nat → nth t regimes EmptyString = nth t regimes' EmptyString →
  unhit w = unhit w' → walk_bar values p regimes f w t = Ok w1 →
  ∃ w1', walk_bar values' p regimes' f w' t = Ok w1' ∧ same_decisions w1 w1'.
Proof.
  intros Hv Ht Hr Hw H. unfold walk_bar in *.
  rewrite <-(take_shorter _ _ _ (t + 1) Hv) by lia. apply bind_Ok in H as (x&->&H). cbn [mbind result_bind].
  destruct w as [e g po en hd tr hits rr], w' as [e' g' po' en' hd' tr' hits' rr'].
  unfold unhit in Hw. simpl in Hw. injection Hw as <- <- <- <- <- <- <-. cbv zeta in *.
  cbn [equity gross position entry_equity held_days trades directional_hits regime_returns] in *.
  rewrite <-Hr. set (ret := step_ret values t) in *. set (ret' := step_ret values' t) in *.
  assert (∀ (r : string), length <$> (<[r := default [] (rr !! r) ++ [ret']]> rr)
    = length <$> (<[r := default [] (rr !! r) ++ [ret]]> rr)) as Hlen.
  { intros r. rewrite !fmap_insert. by rewrite !length_app. }
  destruct (negb po && _); [|destruct (po && _ && _); [|destruct po]]; apply Ok_inj in H; subst w1;
    (eexists; split; [reflexivity|split; simpl; rewrite ?removelast_last; done]).
Qed.

Lemma walk_steps_snoc values p regimes f w ts t w2 :
  walk_steps values p regimes f w (ts ++ [t]) = Ok w2 ↔
  ∃ w1, walk_steps values p regimes f w ts = Ok w1 ∧ walk_bar values p regimes f w1 t = Ok w2.
Proof.
  revert w. induction ts as [|t' ts IH]; intros w; simpl.
  - split.
    + intros (w1&H1&[= <-])%bind_Ok. by exists w.
    + intros (w1&[= <-]&H1). by rewrite H1.
  - destruct (walk_bar values p regimes f w t') as [w'|e]; simpl; [apply IH|].
    split; [done|by intros (?&?&_)].
Qed.

(** C22. No decision sees the future.  Over two series that agree on their first [m] values,
    the walk over bars that are all among them decides the same at every one, the last of
    them included: the position taken, the trades, the entry, the days held, the regime each
    bar counts under, and the curves up to the last bar, whose own return is the first thing
    that reads a later value.  Over bars before the last agreed one, the curves and the
    returns by regime are the same in full.  Only the directional hits, which compare a
    forecast with what came true, look further. *)
Theorem backtest_causal values values' p f m k regimes regimes' w :
  take m values = take m values' → (m ≤ length values)%nat → (m ≤ length values')%nat → (warmup p + k ≤ m)%nat →
  traverse (regime_at values) (seq 0 (length values)) = Ok regimes →
  traverse (regime_at values') (seq 0 (length values')) = Ok regimes' →
  walk_steps values p regimes f start_walk (seq (warmup p) k) = Ok w →
  ∃ w', walk_steps values' p regimes' f start_walk (seq (warmup p) k) = Ok w'
    ∧ same_decisions w w'
    ∧ ((warmup p + k < m)%nat →
       equity w' = equity w ∧ gross w' = gross w ∧ regime_returns w' = regime_returns w).
Proof.
  intros Hv Hm Hm' Hk Hr Hr' H.
  assert (∀ t, (t < m)%nat → nth t regimes EmptyString = nth t regimes' EmptyString) as Hreg.
  { intros t Ht. pose proof (regimes_lookup _ _ _ t Hr ltac:(lia)) as H1.
    pose proof (regimes_lookup _ _ _ t Hr' ltac:(lia)) as H2.
    unfold regime_at in H1, H2. rewrite (take_shorter _ _ _ (t + 1) Hv) in H1 by lia. congruence. }
  assert (∀ j w, (warmup p + j < m)%nat → walk_steps values p regimes f start_walk (seq (warmup p) j) = Ok w →
    ∃ w', walk_steps values' p regimes' f start_walk (seq (warmup p) j) = Ok w' ∧ unhit w = unhit w') as Hbefore.
  { intros j w1 Hj H1. apply (walk_steps_causal values values' p regimes regimes' f m _ start_walk start_walk w1 Hv);
      [|done|done]. intros t Ht%elem_of_seq. split; [lia|]. apply Hreg. lia. }
  assert (∀ w w', unhit w = unhit w' → same_decisions w w'
    ∧ (equity w' = equity w ∧ gross w' = gross w ∧ regime_returns w' = regime_returns w)) as Hsame.
  { intros w1 w1' Hu. unfold unhit in Hu. injection Hu as E1 E2 E3 E4 E5 E6 E7. split; [split|split_and!]; congruence. }
  destruct (decide (warmup p + k < m)%nat) as [Hlt|Hge].
  { destruct (Hbefore k w Hlt H) as (w'&Hw'&Hu). exists w'. destruct (Hsame _ _ Hu). by split_and!. }
  destruct k as [|k].
  { injection H as <-. exists start_walk. destruct (Hsame start_walk start_walk eq_refl). by split_and!. }
  rewrite seq_S in H |- *. apply walk_steps_snoc in H as (w1&H1&Hbar).
  destruct (Hbefore k w1 ltac:(lia) H1) as (w1'&H1'&Hu).
  destruct (walk_step_decides _ _ _ _ _ _ m _ _ (warmup p + k) _ Hv ltac:(lia)
    (Hreg (warmup p + k)%nat ltac:(lia)) Hu Hbar)
    as (w'&Hbar'&Hdec).
  exists w'. split; [apply walk_steps_snoc; by exists w1'|]. split; [done|lia].
Qed.
End Run.

(** ** The stored run *)
Section Stored.
Context `{P : Pandas} `{ST : Statistics} `{N : Numerics} `{I : Interpreter}.
Context (repr : json → string) (float_text : string → result pyerr float)
  (row_ok : result backtest_exn BacktestResult → bool) (linalg_is_value_error : bool).

Lemma within_elem start end_ series x :
  x ∈ bounded start end_ series ↔
  x ∈ series ∧ (∀ s, start = Some s → s ≤ x.1) ∧ (∀ e, end_ = Some e → x.1 ≤ e).
Proof.
  unfold bounded. rewrite elem_of_bool_filter, andb_true_iff.
  destruct start, end_; rewrite ?Z.leb_le; naive_solver.
Qed.

(** A request that is answered is recorded, once, with the outcome of the run on the points
    inside its bounds: with its results, or as failed, which it is exactly when the run
    refused it (a series that is too short, say).  One that raises leaves no row. *)
Theorem run_is_recorded runs next_id series payload now runs' out :
  run_and_store repr float_text row_ok linalg_is_value_error runs next_id series payload now = (runs', out) →
  match out with
  | Err _ => runs' = runs
  | Ok report => ∃ row start end_,
      runs' = runs ++ [row] ∧ bt_id row = next_id ∧ bt_created_at row = now
      ∧ assoc (bt_horizon row) DAILY_STEPS = Some (horizon_steps (bt_params row))
      ∧ bt_outcome row = run_backtest (bounded start end_ series) (bt_params row) None
      ∧ report = match bt_outcome row with Ok results => RunSucceeded next_id results | Err why => RunFailed next_id why end
      ∧ (∀ why, bt_outcome row = Err why → is_value_error linalg_is_value_error why = true)
  end.
Proof.
  unfold run_and_store. cbv zeta. set (horizon := py_str repr _).
  match goal with |- context[match ?m with Ok _ => _ | Err _ => _ end = _] => destruct m as [[[p series'] outcome]|e] eqn:Hm end;
    [|by intros [= <- <-]].
  apply bind_Ok in Hm as (steps&Hsteps&Hm). apply bind_Ok in Hm as (p'&Hp&Hm).
  apply bind_Ok in Hm as (start&_&Hm). apply bind_Ok in Hm as (end_&_&Hm).
  apply bind_Ok in Hm as ([]&Hval&Hm). apply Ok_inj in Hm. simplify_eq.
  destruct (row_ok _); simpl; [|by intros [= <- <-]]. intros [= <- <-].
  eexists _, start, end_. split; [reflexivity|]. simpl. split_and!; try done.
  - destruct (assoc horizon DAILY_STEPS) as [n|] eqn:Ha; [|done]. apply Ok_inj in Hsteps. subst n.
    unfold run_params in Hp. apply bind_Ok in Hp as (?&_&Hp). apply bind_Ok in Hp as (?&_&Hp).
    apply bind_Ok in Hp as (?&_&Hp). apply bind_Ok in Hp as (?&_&Hp). apply Ok_inj in Hp. by subst p.
  - intros why Hwhy. rewrite Hwhy in Hval. apply raise_if_Ok in Hval. by apply negb_false_iff in Hval.
Qed.
End Stored.

(** ** A concrete series: up, down, and up again *)
#[local] Instance demo_numerics : Numerics :=
  {| np_mean := λ xs, fdiv_ieee (sum_np xs) (float_of_Z (Z.of_nat (length xs)));
     np_prod := λ xs, foldl fmul fone xs; np_sqrt := λ x, x;
     np_sign := λ x, if fgt x fzero then fone else if flt x fzero then fopp fone else x;
     np_round4 := λ x, py_round x 4; py_pow := λ x _, Ok x |}.
#[local] Instance demo_statistics : Statistics :=
  {| quantile := λ _ q, q; polyfit := λ _, Some (fzero, fzero); np_std := λ _, fone; series_mean := λ _, fzero;
     series_std := λ _, fone |}.
#[local] Existing Instance reference_pandas.

(** The last move goes on. *)
Definition last_move (history : list float) (steps : nat) : result pyerr float :=
  Ok (change_pct (at_ history (length history - 1)) (at_ history (length history - 2))).

Definition demo_backtest_params : BacktestParams :=
  {| horizon_steps := 1; fee_pct := flit 5 1; spread_pct := fone; slippage_pct := fzero; min_holding_days := 1;
     warmup := 2 |}.

Definition demo_values : list float := float_of_Z <$> [100; 100; 105; 110; 108; 107; 107; 115; 120; 121].
Definition demo_series : list (instant * float) := zip (Z.of_nat <$> seq 0 10) demo_values.

Abbreviation demo_backtest := (run_backtest demo_series demo_backtest_params (Some last_move)).

(** Two trades: the first left when the move turned, the second closed by the end. *)
Example demo_trades :
  match demo_backtest with
  | Ok res => Some (n_trades (strategy res), n_trades (no_action res), n_trades (buy_and_hold res),
                    (λ kv, (kv.1, kv.2.1)) <$> map_to_list (per_regime res))
  | Err _ => None
  end = Some (2, 0, 1, [("unknown", 4)]).
Proof. vm_compute. reflexivity. Qed.


Definition demo_future : list float := take 6 demo_values ++ (float_of_Z <$> [1; 2; 3]).

(** Up to the last bar the two series share. *)
Lemma backtest_causal_witness :
  ∃ w w' r r', walk_steps demo_values demo_backtest_params r last_move start_walk (seq 2 4) = Ok w
    ∧ walk_steps demo_future demo_backtest_params r' last_move start_walk (seq 2 4) = Ok w'
    ∧ same_decisions w w'.
Proof.
  pose (unknown n := replicate n "unknown").
  assert (traverse (regime_at demo_values) (seq 0 (length demo_values)) = Ok (unknown 10%nat)) as Hr
    by (vm_compute; reflexivity).
  assert (traverse (regime_at demo_future) (seq 0 (length demo_future)) = Ok (unknown 9%nat)) as Hr'
    by (vm_compute; reflexivity).
  destruct (walk_steps demo_values demo_backtest_params (unknown 10%nat) last_move start_walk (seq 2 4))
    as [w|e] eqn:H.
  - destruct (backtest_causal demo_values demo_future demo_backtest_params last_move 6 4 _ _ w
      ltac:(vm_compute; reflexivity) ltac:(vm_compute; lia) ltac:(vm_compute; lia) ltac:(vm_compute; lia) Hr Hr' H)
      as (w'&Hw'&Hd&_).
    exists w, w', (unknown 10%nat), (unknown 9%nat). exact (conj H (conj Hw' Hd)).
  - exfalso. assert (is_ok (walk_steps demo_values demo_backtest_params (unknown 10%nat) last_move start_walk (seq 2 4)) = true)
      as Hok by (vm_compute; reflexivity). rewrite H in Hok. discriminate.
Defined.
