(* ===== verification/TrendSignal.v ===== *)
(** * What the signal engine reads of the trend alignment

    [jobs/trend_alignment.py] writes the tables that [_load_trend_alignment] of
    signals/engine.py reads.  The two files are connected by the rows alone: here each row
    that [TrendJob] stores is seen as [SignalAssembly] reads it. *)
From S2P Require Import Prelude PyFloat PyTime Numeric PyText PyJson PriceDB TrendAlignment TrendReplay SignalAssembly TrendJob.
Local Open Scope string_scope.
Local Open Scope list_scope.
Local Open Scope Z_scope.

Definition as_trend_row (row : StateRow) : TrendRow :=
  {| t_alignment := alignment_name (st_alignment row); t_timeframes := JObj (st_timeframes row);
     t_data_fresh := st_data_fresh row; t_calculated_at := st_calculated_at row |}.

Definition as_trend_event (e : EventRow) : TrendEvent :=
  {| e_symbol := k_symbol (ev_key e); e_alignment := alignment_name (k_alignment (ev_key e));
     e_occurred_at := ev_occurred_at e |}.

(** The signal engine's tables hold what the job stored. *)
Definition same_rows (sdb : SignalDB) (db : TrendDB) : Prop :=
  sd_trends sdb = as_trend_row <$> td_states db ∧ sd_events sdb = as_trend_event <$> td_events db.

Lemma alignment_name_inj a b : alignment_name a = alignment_name b → a = b.
Proof. by destruct a, b. Qed.

Lemma full_names a : MarketHours.mem (alignment_name a) ["full_bullish"; "full_bearish"] = is_full a.
Proof. by destruct a. Qed.

Section Reading.
Context `{I : Interpreter} `{TF : TextFormats} `{JC : !JsonColumn} `{NF : !NumericFloat} `{NO : !NumericOrder}.
Context `{SO : SqlOrder} `{SOL : !SqlOrderLaws SO}.
Context (repr : json → string).

(** The three legs read back from the document. *)
Lemma leg_states_doc r :
  leg_states repr (JObj (timeframes_doc r))
  = Ok ((λ tf, (tf_name tf, trend_name (r_trend (timeframes r tf)))) <$> TIMEFRAMES).
Proof.
  unfold leg_states. simpl. by destruct (r_trend (r_1d r)), (r_trend (r_4h r)), (r_trend (r_1h r)).
Qed.

(** The newest entry of a symbol into an alignment. *)
Lemma entered_at_spec sdb db symbol a :
  same_rows sdb db →
  match entered_at sdb symbol (alignment_name a) with
  | Some t => (∃ e, e ∈ td_events db ∧ k_symbol (ev_key e) = symbol ∧ k_alignment (ev_key e) = a ∧ ev_occurred_at e = t)
      ∧ ∀ e, e ∈ td_events db → k_symbol (ev_key e) = symbol → k_alignment (ev_key e) = a → ev_occurred_at e ≤ t
  | None => ∀ e, e ∈ td_events db → k_symbol (ev_key e) = symbol → k_alignment (ev_key e) ≠ a
  end.
Proof.
  intros [_ Hev]. unfold entered_at. rewrite Hev.
  set (rows := List.filter _ (as_trend_event <$> td_events db)).
  assert (∀ x, x ∈ newest_first e_occurred_at rows ↔ ∃ e, e ∈ td_events db ∧ as_trend_event e = x
    ∧ k_symbol (ev_key e) = symbol ∧ k_alignment (ev_key e) = a) as Hin.
  { intros x. rewrite (elem_of_Permutation_proper _ _ _ (newest_first_perm _ _)). unfold rows.
    rewrite elem_of_bool_filter, andb_true_iff, !String.eqb_eq, list_elem_of_fmap. split.
    - intros [(e&->&He) [Hs Ha]]. exists e. split_and!; try done. by apply alignment_name_inj.
    - intros (e&He&<-&<-&<-). split; [by exists e|done]. }
  pose proof (newest_first_sorted e_occurred_at rows) as Hsort.
  destruct (newest_first e_occurred_at rows) as [|x xs]; simpl.
  - intros e He Hs Ha. assert (as_trend_event e ∈ []) as Hx%elem_of_nil; [|done]. apply Hin. by exists e.
  - apply StronglySorted_inv in Hsort as [_ Hx]. rewrite Forall_forall in Hx. split.
    + destruct (proj1 (Hin x) (list_elem_of_here _ _)) as (e&He&<-&Hs&Ha). by exists e.
    + intros e He Hs Ha. assert (as_trend_event e ∈ x :: xs) as Hm by (apply Hin; by exists e).
      apply elem_of_cons in Hm as [Heq|Hm]; [by rewrite <-Heq|]. by apply (Hx _ Hm).
Qed.

(** C19. What is scored is what was concluded.  After a pass over a symbol, the signal engine
    reads the alignment of that pass, with the trends of its three legs, and the age of a full
    alignment is counted from the newest event that recorded an entry into it, which is
    always there; it reads nothing at all when the conclusion rests on data that is not
    fresh, or when the job has not renewed it within the age allowed. *)
Theorem signal_reads_the_conclusion fails clock db symbol cfg at_ db' o sdb settings read_fails now :
  trend_ok db → _evaluate_symbol fails clock db symbol cfg at_ = Ok (db', o) → same_rows sdb db' →
  trend_alignment_enabled settings = true → fle (trend_alignment_signal_weight settings) fzero = false →
  (∀ s, read_fails symbol s = false) →
  let read := _load_trend_alignment repr read_fails sdb settings symbol now in
  if oc_data_fresh o && (now - at_ <=? trend_alignment_max_age_minutes settings * us_minute) then
    ∃ hourly daily r seen, read_and_evaluate fails db symbol cfg at_ = Ok (hourly, daily, r)
      ∧ read = Ok (Some seen)
      ∧ tr_alignment seen = alignment_name (al_alignment r)
      ∧ tr_states seen = (λ tf, (tf_name tf, trend_name (r_trend (timeframes r tf)))) <$> TIMEFRAMES
      ∧ tr_weight seen = trend_alignment_signal_weight settings
      ∧ if is_full (al_alignment r)
        then ∃ e, e ∈ td_events db' ∧ k_symbol (ev_key e) = symbol ∧ k_alignment (ev_key e) = al_alignment r
               ∧ (∀ e', e' ∈ td_events db' → k_symbol (ev_key e') = symbol →
                    k_alignment (ev_key e') = al_alignment r → ev_occurred_at e' ≤ ev_occurred_at e)
               ∧ tr_age_days seen
                 = Some (fmax fzero (fdiv_ieee (total_seconds (now - ev_occurred_at e)) (float_of_Z 86400)))
        else tr_age_days seen = None
  else read = Ok None.
Proof.
  intros Hok H [Htr Hev] Hen Hw Hnf read.
  destruct (evaluate_symbol_tables _ _ _ _ _ _ _ _ Hok H)
    as (hourly&daily&r&db1&Hr&[_ _ (row&Hst&[F1 F2 F3 F4 _ _ _ _]) _ _]&Hs&Hc&_&_&E1&_).
  destruct (evaluate_symbol_fresh _ _ _ _ _ _ _ _ H) as (h'&d'&r'&Hr'&Hfresh). rewrite Hr in Hr'. simplify_eq.
  pose proof (evaluate_symbol_ok _ _ _ _ _ _ _ _ Hok H) as Hok'.
  rewrite Hst in E1. set (symbol := al_symbol r') in *.
  assert (td_states db' !! symbol = Some row) as Hrow by (by rewrite E1, lookup_insert_eq).
  assert (sd_trends sdb !! symbol = Some (as_trend_row row)) as Hread by (by rewrite Htr, lookup_fmap, Hrow).
  assert (run_statement read_fails symbol ReadAlignment = Ok ()
    ∧ run_statement read_fails symbol ReadEntry = Ok ()) as [Hs1 Hs2]
    by (unfold run_statement; by rewrite !Hnf).
  assert ((if feq (trend_alignment_signal_weight settings) fzero then fzero
           else trend_alignment_signal_weight settings) = trend_alignment_signal_weight settings) as Hweight.
  { destruct (feq _ _) eqn:E; [|done]. rewrite fle_spec, E, orb_true_r in Hw. done. }
  unfold read, _load_trend_alignment. cbv zeta. rewrite Hen, Hweight, Hw, Hs1, Hread. cbn [negb orb mbind result_bind].
  cbn [t_data_fresh t_calculated_at t_timeframes t_alignment as_trend_row]. rewrite F1, F2, F3, F4, Hfresh, full_names.
  rewrite (Z.ltb_antisym (_ - _)). destruct (al_data_fresh r'); [|done]. cbn [negb orb andb].
  destruct (now - calculated_at r' <=? _); [|done]. cbn [negb]. rewrite leg_states_doc. cbn [mbind result_bind].
  exists h', d', r'.
  pose proof (entered_at_spec sdb db' symbol (al_alignment r') (conj Htr Hev)) as Hent.
  destruct (is_full (al_alignment r')) eqn:Hf.
  - rewrite Hs2. cbn [mbind result_bind].
    destruct (ok_states _ Hok' _ _ Hrow) as (_&_&Hex). rewrite F1 in Hex. destruct (Hex Hf) as (e0&He0&Hk0&Ha0).
    destruct (entered_at sdb symbol (alignment_name (al_alignment r'))) as [t|]; [|by destruct (Hent e0 He0 Hk0)].
    destruct Hent as ((e&He&Hke&Hae&<-)&Hnewest). eexists. split; [done|]. split; [reflexivity|].
    split_and!; [done..|]. exists e. split_and!; done.
  - cbn [mbind result_bind]. eexists. split; [done|]. split; [reflexivity|]. by split_and!.
Qed.
End Reading.

(** ** A concrete pass, read an hour later *)
#[local] Existing Instances TrendJob.demo_interpreter demo_texts demo_column TrendJob.demo_numbers SignalAssembly.demo_newest.

#[local] Instance demo_newest_laws : SqlOrderLaws SignalAssembly.demo_newest.
Proof.
  split; intros A key l; simpl; [apply py_sorted_perm|].
  eapply StronglySorted_impl; [|apply sort_by_ascending]. simpl. lia.
Qed.

Definition rows_of (db : TrendDB) : SignalDB :=
  {| sd_prices := td_prices db; sd_raw := []; sd_predictions := []; sd_trends := as_trend_row <$> td_states db;
     sd_events := as_trend_event <$> td_events db; sd_signals := []; sd_next_id := 1; sd_settings := ∅ |}.

Abbreviation read_after db now :=
  (_load_trend_alignment demo_text nothing_fails (rows_of db) SignalAssembly.demo_settings "XAUUSD" now).

(** Full agreement, an hour old; four hours later nobody vouches for it any more. *)
Example demo_read :
  match demo_eval never TrendJob.demo_db with
  | Ok (db, _) =>
      match read_after db (TrendJob.demo_now + us_hour), read_after db (TrendJob.demo_now + 4 * us_hour) with
      | Ok (Some seen), Ok None => Some (tr_alignment seen, tr_states seen, bool_decide (tr_age_days seen = None))
      | _, _ => None
      end
  | Err _ => None
  end = Some ("full_bullish", [("1d", "bullish"); ("4h", "bullish"); ("1h", "bullish")], false).
Proof. vm_compute. reflexivity. Qed.

Lemma signal_reads_the_conclusion_witness :
  ∃ db seen, read_after db (TrendJob.demo_now + us_hour) = Ok (Some seen)
    ∧ tr_weight seen = trend_alignment_signal_weight SignalAssembly.demo_settings.
Proof.
  destruct (demo_eval never TrendJob.demo_db) as [[db o]|e] eqn:H.
  - assert (match demo_eval never TrendJob.demo_db with Ok (_, o) => oc_data_fresh o | Err _ => false end = true) as Hf
      by (vm_compute; reflexivity).
    rewrite H in Hf. exists db.
    pose proof (signal_reads_the_conclusion demo_text never demo_clock TrendJob.demo_db "XAUUSD" demo_cfg TrendJob.demo_now
      db o (rows_of db) SignalAssembly.demo_settings nothing_fails (TrendJob.demo_now + us_hour) demo_trend_ok H
      (conj eq_refl eq_refl) eq_refl eq_refl (λ _, eq_refl)) as Hread.
    cbv zeta in Hread. rewrite Hf in Hread.
    replace (TrendJob.demo_now + us_hour - TrendJob.demo_now) with us_hour in Hread by ring.
    change (true && (us_hour <=? trend_alignment_max_age_minutes SignalAssembly.demo_settings * us_minute)) with true in Hread.
    destruct Hread as (hourly&daily&r&seen&_&Hread&_&_&Hw&_). exists seen. exact (conj Hread Hw).
  - exfalso. pose proof demo_entry as Hd. rewrite H in Hd. discriminate.
Defined.
