(* ===== verification/MetaGate.v ===== *)
(** * The meta-gate

    [app/models/metagate.py]: the classifier fitted on the matured predictions of the service
    itself, the evidence stored with it, and the score it gives a new forecast or declines to
    give.  The table of predictions is here too, as both sides of the loop read it.

    A stored gate is the JSON document it is stored as.  [LogisticRegression], the functions of
    NumPy and the two texts of a float are parameters; an array is the list of its entries. *)
From S2P Require Import Prelude PyFloat PyTime PyText PyJson PriceDB.
From Stdlib Require Import Ascii.
Local Open Scope string_scope.
Local Open Scope list_scope.
Local Open Scope Z_scope.

(** A row of [predictions]. *)
Record Forecast : Set := {
  fc_id : Z;
  fc_symbol : string;
  fc_horizon : string;
  fc_model_version_id : option Z;
  fc_model_name : string;
  fc_predicted_at : instant;
  fc_target_time : instant;
  fc_point_forecast : float;
  fc_lower_bound : float;
  fc_upper_bound : float;
  fc_expected_change_pct : float;
  fc_direction : string;
  fc_confidence : float;
  fc_raw_confidence : option float;
  fc_regime : string;
  fc_drivers : list json;
  fc_data_fresh : bool;
  fc_warnings : list string;
  fc_actual_value : option float;
  fc_actual_recorded_at : option instant;
  fc_created_at : instant;
}.

Class GateMath : Type := {
  np_log : float → float;
  np_exp : float → float;
  np_sqrt : float → float;
  np_sign : float → float;
  np_dot : list float → list float → float;
  np_norm : list float → float;
  column_mean : list float → float;
  column_std : list float → float;
  np_asarray : json → result pyerr (list float);
  text_float : string → option float;  (** [float(s)]; [None]: [ValueError] *)
  fixed6 : float → string;  (** [f"{x:.6f}"] *)
  (** [fit] of the rows and their labels: the coefficients, the intercept, the iterations *)
  logistic : list (list float) → list bool → result pyerr (list float * float * Z);
}.

(** What [asarray] makes of a stored list of numbers, and the text of a float. *)
Class GateMathLaws (G : GateMath) : Prop := {
  asarray_floats xs : np_asarray (JArr (JFloat <$> xs)) = Ok xs;
  fixed6_plain x : ~ In "|"%char (String.list_ascii_of_string (fixed6 x));
}.

Definition MIN_SAMPLES : nat := 40.
Definition MAX_SAMPLES : nat := 500.
Definition MAX_ITER : Z := 1000.
Definition REGIMES : list string := ["trending_up"; "trending_down"; "ranging"; "high_volatility"].
Definition HORIZON_DAYS : list (string * float) :=
  [("1h", int_true_div 1 24); ("4h", int_true_div 4 24); ("eod", fone); ("1d", fone); ("3d", float_of_Z 3);
   ("7d", float_of_Z 7); ("30d", float_of_Z 30)].
Definition PRIMARY_SYMBOL : string := "IR_GOLD_18K".
Definition regime_feature (r : string) : string := ("regime_" ++ r)%string.
Definition FEATURE_NAMES : list string :=
  ["rel_width"; "abs_expected_pct"; "confidence"; "log_horizon_days"; "data_fresh"; "is_global"]
  ++ (regime_feature <$> REGIMES).
Definition INDICATOR_FEATURES : list string := ["data_fresh"; "is_global"] ++ (regime_feature <$> REGIMES).
Definition COUNT_CHECKED_FEATURES : list string := INDICATOR_FEATURES ++ ["log_horizon_days"].
Definition GATE_THIN_Z : float := float_of_Z 2.
Definition GATE_MAX_Z : float := float_of_Z 3.
Definition GATE_MIN_LEVEL_ROWS : Z := 10.
Definition RANK_TOL : float := flit 1 8.

Inductive gate_status : Set := scored | out_of_support | untrained | unusable.

Record GateVerdict : Set := {
  p_hit : option float;
  gate_status_of : gate_status;
  max_abs_z : option float;
  worst_feature : option string;
  thin_support : bool;
}.

(** A verdict without a score. *)
Definition declined (s : gate_status) : GateVerdict :=
  {| p_hit := None; gate_status_of := s; max_abs_z := None; worst_feature := None; thin_support := false |}.

Definition mem_name (s : string) (l : list string) : bool := existsb (String.eqb s) l.

(** [s.rstrip("d")] *)
Fixpoint rstrip_d (s : string) : string :=
  match s with
  | EmptyString => EmptyString
  | String c s =>
      match rstrip_d s with
      | EmptyString => if String.eqb (String c EmptyString) "d" then EmptyString else String c EmptyString
      | kept => String c kept
      end
  end.

(** [float(v)] *)
Definition json_float_of `{GateMath} (v : json) : result pyerr float :=
  match v with
  | JBool b => Ok (if b then fone else fzero)
  | JInt n => py_float_of_int n
  | JFloat f => Ok f
  | JStr s => match text_float s with Some f => Ok f | None => Err ValueError end
  | JNull | JArr _ | JObj _ => Err TypeError
  end.

(** [list(v)] *)
Definition py_list (v : json) : result pyerr (list json) :=
  match v with
  | JArr l => Ok l
  | JStr s => Ok ((λ c, JStr (String c EmptyString)) <$> String.list_ascii_of_string s)
  | JObj items => Ok ((λ kv, JStr kv.1) <$> items)
  | JNull | JBool _ | JInt _ | JFloat _ => Err TypeError
  end.

(** [names == list(FEATURE_NAMES)] *)
Fixpoint same_names (l : list json) (names : list string) : bool :=
  match l, names with
  | [], [] => true
  | JStr s :: l, name :: names => String.eqb s name && same_names l names
  | _, _ => false
  end.

(** [gate[key]] *)
Definition gate_item (key : string) (gate : list (string * json)) : result pyerr json :=
  match assoc key gate with Some v => Ok v | None => Err KeyError end.

(** [expected_change_pct <= -100] has no base; a base of zero is none. *)
Definition _recover_base (point expected_change_pct : float) : result pyerr (option float) :=
  if fle expected_change_pct (float_of_Z (-100)) then Ok None
  else
    base ← fdiv point (fadd fone (fdiv_ieee expected_change_pct fhundred));
    Ok (if feq base fzero then None else Some base).

Section Gate.
Context `{G : GateMath}.

Definition _horizon_days (horizon : string) : option float :=
  match match assoc horizon HORIZON_DAYS with Some d => Some d | None => text_float (rstrip_d horizon) end with
  | Some days => if fgt days fzero then Some days else None
  | None => None
  end.

Definition horizon_key (days : float) : string := fixed6 days.
Definition evidence_key (symbol : string) (days : float) : string := (symbol ++ "|" ++ horizon_key days)%string.

Definition _evidenced_rows (horizon_rows : list (string * json)) (days : option float) (symbol : string)
    : result pyerr bool :=
  match days with
  | None => Ok false
  | Some days =>
      let rows := jget (evidence_key symbol days) horizon_rows in
      match rows with
      | JInt _ | JFloat _ | JBool _ => n ← py_int_of rows; Ok (GATE_MIN_LEVEL_ROWS <=? n)
      | JNull | JStr _ | JArr _ | JObj _ => Ok false
      end
  end.

(** ** Support *)

(** How far outside the fit one feature is; [None]: nothing to hold against it. *)
Definition feature_distance (n_train : Z) (horizon_rows : list (string * json)) (days : option float) (symbol : string)
    (name : string) (x mean std : float) : result pyerr (option float) :=
  if negb (mem_name name COUNT_CHECKED_FEATURES) then q ← fdiv (fsub x mean) std; Ok (Some (fabs q))
  else if String.eqb name "log_horizon_days" then
    seen ← _evidenced_rows horizon_rows days symbol; Ok (if (seen : bool) then None else Some finf)
  else if n_train <=? 0 then Ok None
  else
    let share := if fge x (flit 5 1) then mean else fsub fone mean in
    n ← py_float_of_int n_train;
    Ok (if fge (fmul share n) (float_of_Z GATE_MIN_LEVEL_ROWS) then None else Some finf).

(** The features with their values, means and deviations. *)
Definition feature_table (feats mean std : list float) : list (string * float * float * float) :=
  zip (zip (zip FEATURE_NAMES feats) mean) std.

Fixpoint support_from (n_train : Z) (horizon_rows : list (string * json)) (days : option float) (symbol : string)
    (table : list (string * float * float * float)) (worst : float * option string) : result pyerr (float * option string) :=
  match table with
  | [] => Ok worst
  | (name, x, m, s) :: table =>
      z ← feature_distance n_train horizon_rows days symbol name x m s;
      support_from n_train horizon_rows days symbol table
        match z with Some z => if fgt z worst.1 then (z, Some name) else worst | None => worst end
  end.

Definition _support (feats mean std : list float) (n_train : Z) (horizon_rows : list (string * json))
    (days : option float) (symbol : string) : result pyerr (float * option string) :=
  support_from n_train horizon_rows days symbol (feature_table feats mean std) (fzero, None).

Definition _row_features (point lower upper expected_pct confidence : float) (horizon regime : string)
    (data_fresh : bool) (symbol : string) : option (list float) :=
  if feq point fzero then None
  else
    days ← _horizon_days horizon;
    Some ([fdiv_ieee (fsub upper lower) (fabs point); fabs expected_pct; confidence; np_log days;
           if data_fresh then fone else fzero; if String.eqb symbol PRIMARY_SYMBOL then fzero else fone]
          ++ ((λ r, if String.eqb regime r then fone else fzero) <$> REGIMES)).

(** ** The independent columns *)
Definition orthogonal_to (basis : list (list float)) (col : list float) : list float :=
  foldl (λ resid vec, let d := np_dot resid vec in zip_with (λ r v, fsub r (fmul d v)) resid vec) col basis.

Fixpoint independent_from (basis : list (list float)) (cols : list (nat * list float)) : list nat :=
  match cols with
  | [] => []
  | (j, col) :: cols =>
      let norm := np_norm col in
      if fle norm fzero then independent_from basis cols
      else
        let resid := orthogonal_to basis (orthogonal_to basis col) in
        let length := np_norm resid in
        if fle length (fmul RANK_TOL norm) then independent_from basis cols
        else j :: independent_from (basis ++ [(λ r, fdiv_ieee r length) <$> resid]) cols
  end.

Definition _independent_columns (n_rows : nat) (Xs : list (list float)) : list nat :=
  independent_from [replicate n_rows (fdiv_ieee fone (np_sqrt (float_of_Z (Z.of_nat n_rows))))]
    (zip (seq 0 (length Xs)) Xs).

(** ** The fit *)

(** What one matured prediction teaches: its features, whether its call hit, and the horizon
    it is evidence of. *)
Record GateExample : Set := { ex_features : list float; ex_hit : bool; ex_key : option string }.

Definition example_of (row : Forecast) : result pyerr (option GateExample) :=
  match fc_actual_value row with
  | None => Ok None
  | Some actual =>
      if String.eqb (fc_direction row) "flat" then Ok None
      else
        base ← _recover_base (fc_point_forecast row) (fc_expected_change_pct row);
        Ok (base ← base;
            feats ← _row_features (fc_point_forecast row) (fc_lower_bound row) (fc_upper_bound row)
                      (fc_expected_change_pct row) (default (fc_confidence row) (fc_raw_confidence row))
                      (fc_horizon row) (fc_regime row) (fc_data_fresh row) (fc_symbol row);
            let pred_sign := np_sign (fsub (fc_point_forecast row) base) in
            let real_sign := np_sign (fsub actual base) in
            if feq pred_sign fzero then None
            else Some {| ex_features := feats; ex_hit := feq pred_sign real_sign;
                         ex_key := evidence_key (fc_symbol row) <$> _horizon_days (fc_horizon row) |})
  end.

Definition is_matured (row : Forecast) : bool := match fc_actual_value row with Some _ => true | None => false end.

(** [ORDER BY target_time DESC LIMIT 500] *)
Definition training_rows `{SqlOrder} (tbl : list Forecast) : list Forecast :=
  take MAX_SAMPLES (newest_first fc_target_time (List.filter is_matured tbl)).

Fixpoint count_rows (keys : list (option string)) (counts : gmap string Z) : gmap string Z :=
  match keys with
  | [] => counts
  | Some k :: keys => count_rows keys (<[k := default 0 (counts !! k) + 1]> counts)
  | None :: keys => count_rows keys counts
  end.

Definition some_of {A} (l : list (option A)) : list A := omap id l.

Definition json_list (xs : list float) : json := JArr ((λ v, JFloat (py_round v 8)) <$> xs).

(** [coef[keep] = clf.coef_[0]] of an array of zeros *)
Fixpoint scatter (keep : list nat) (values : list float) (coef : list float) : list float :=
  match keep, values with
  | j :: keep, v :: values => scatter keep values (<[j := v]> coef)
  | _, _ => coef
  end.

(** What is stored of a fit. *)
Definition gate_document `{Interpreter} (mean std coef : list float) (intercept : float) (n : Z) (base_rate : float)
    (horizon_rows : gmap string Z) (now : instant) : list (string * json) :=
  [("feature_names", JArr (JStr <$> FEATURE_NAMES)); ("mean", json_list mean); ("std", json_list std);
   ("coef", json_list coef); ("intercept", JFloat (py_round intercept 8)); ("n", JInt n);
   ("base_rate", JFloat (py_round base_rate 4));
   ("horizon_evidence",
    JObj ((λ kv, (kv.1, JInt kv.2)) <$> py_sorted (λ a b, String.ltb a.1 b.1) (map_to_list horizon_rows)));
   ("trained_at", JStr (isoformat now))].

Definition labels_differ (hits : list bool) : bool := existsb id hits && existsb negb hits.

Definition fit_meta_gate `{SqlOrder} `{Interpreter} (tbl : list Forecast) (now : instant)
    : result pyerr (option (list (string * json))) :=
  read ← traverse example_of (training_rows tbl);
  let examples := some_of read in
  let y := ex_hit <$> examples in
  if (length y <? MIN_SAMPLES)%nat || negb (labels_differ y) then Ok None
  else
    let columns := (λ j, (λ e, nth j (ex_features e) fnan) <$> examples) <$> seq 0 (length FEATURE_NAMES) in
    let mean := column_mean <$> columns in
    let std := (λ c, let s := column_std c in if flt s (flit 1 6) then fone else s) <$> columns in
    let Xs := zip_with (λ c ms, (λ x, fdiv_ieee (fsub x ms.1) ms.2) <$> c) columns (zip mean std) in
    match _independent_columns (length y) Xs with
    | [] => Ok None
    | keep =>
        let rows := (λ i, (λ j, nth i (nth j Xs []) fnan) <$> keep) <$> seq 0 (length y) in
        fit ← logistic rows y;
        let '(values, intercept, iterations) := fit in
        if MAX_ITER <=? iterations then Ok None
        else
          let coef := scatter keep values (replicate (length FEATURE_NAMES) fzero) in
          let base_rate := column_mean ((λ h : bool, if h then fone else fzero) <$> y) in
          Ok (Some (gate_document mean std coef intercept (Z.of_nat (length y)) base_rate
                      (count_rows (ex_key <$> examples) ∅) now))
    end.

(** ** The score *)

(** [except (KeyError, IndexError, ValueError, TypeError)] *)
Definition caught (r : result pyerr GateVerdict) : result pyerr GateVerdict :=
  match r with
  | Ok v => Ok v
  | Err (KeyError | IndexError | ValueError | TypeError) => Ok (declined unusable)
  | Err e => Err e
  end.

Definition sigmoid (z : float) : float := fdiv_ieee fone (fadd fone (np_exp (fopp z))).

(** [np.where(std <= 0, 1.0, std)] *)
Definition positive_or_one (s : float) : float := if fle s fzero then fone else s.

(** The probability the fitted model gives a vector. *)
Definition model_output (feats mean std coef : list float) (intercept : float) : float :=
  sigmoid (fadd (np_dot coef (zip_with (λ xm s, fdiv_ieee xm s) (zip_with fsub feats mean) std)) intercept).

Definition score_features (gate : list (string * json)) (feats : list float) (horizon_rows : list (string * json))
    (horizon symbol : string) : result pyerr GateVerdict :=
  v ← gate_item "mean" gate; mean ← np_asarray v;
  v ← gate_item "std" gate; std ← np_asarray v;
  let std := positive_or_one <$> std in
  v ← gate_item "coef" gate; coef ← np_asarray v;
  v ← gate_item "intercept" gate; intercept ← json_float_of v;
  n_train ← (let v := jget "n" gate in py_int_of (if truthy v then v else JInt 0));
  let sized xs := (length (xs : list float) =? length FEATURE_NAMES)%nat in
  if negb (sized mean && sized std && sized coef) then Ok (declined unusable)
  else
    support ← _support feats mean std n_train horizon_rows (_horizon_days horizon) symbol;
    let '(z, worst) := support in
    Ok (if fgt z GATE_MAX_Z
        then {| p_hit := None; gate_status_of := out_of_support; max_abs_z := Some z; worst_feature := worst;
                thin_support := false |}
        else {| p_hit := Some (model_output feats mean std coef intercept); gate_status_of := scored;
                max_abs_z := Some z; worst_feature := worst; thin_support := fgt z GATE_THIN_Z |}).

Definition score_meta_gate (gate : option (list (string * json))) (point lower upper expected_pct confidence : float)
    (horizon regime : string) (data_fresh : bool) (symbol : string) : result pyerr GateVerdict :=
  match gate with
  | None | Some [] => Ok (declined untrained)
  | Some gate =>
      match _row_features point lower upper expected_pct confidence horizon regime data_fresh symbol with
      | None => Ok (declined unusable)
      | Some feats =>
          known ← match jget "feature_names" gate with
                  | JNull => Ok true
                  | stored => names ← py_list stored; Ok (same_names names FEATURE_NAMES)
                  end;
          if negb known then Ok (declined unusable)
          else
            match jget "horizon_evidence" gate with
            | JObj horizon_rows => caught (score_features gate feats horizon_rows horizon symbol)
            | _ => Ok (declined unusable)
            end
      end
  end.

Definition apply_meta_gate (gate : option (list (string * json))) (point lower upper expected_pct confidence : float)
    (horizon regime : string) (data_fresh : bool) (symbol : string) : result pyerr (option float) :=
  p_hit <$> score_meta_gate gate point lower upper expected_pct confidence horizon regime data_fresh symbol.
End Gate.

(** ** What a score rests on *)
Section Support.
Context `{G : GateMath}.

(** The distance reported is the largest of all, and no feature is farther. *)
Lemma support_from_spec n_train rows days symbol table w z worst :
  is_nan w.1 = false →
  support_from n_train rows days symbol table w = Ok (z, worst) →
  is_nan z = false ∧ fgt w.1 z = false
  ∧ ∀ name x m s, (name, x, m, s) ∈ table →
      ∃ d, feature_distance n_train rows days symbol name x m s = Ok d ∧ ∀ q, d = Some q → fgt q z = false.
Proof.
  revert w. induction table as [|[[[name x] m] s] table IH]; intros w Hw H.
  - simpl in H. apply Ok_inj in H as ->. simpl in *. split_and!; [done|apply flt_irrefl|]. by intros ???? ?%not_elem_of_nil.
  - simpl in H. apply bind_Ok in H as (d&Hd&H). unfold fgt in *.
    set (w' := match d with Some q => if flt w.1 q then (q, Some name) else w | None => w end) in H.
    assert (is_nan w'.1 = false ∧ flt w'.1 w.1 = false ∧ ∀ q, d = Some q → flt w'.1 q = false) as (Hn'&Hww&Hq).
    { unfold w'. destruct d as [q|]; [|by rewrite flt_irrefl].
      destruct (flt w.1 q) eqn:Hlt; simpl.
      - split_and!; [apply (flt_not_nan _ _ Hlt)|by apply flt_asym|intros q' [= <-]; apply flt_irrefl].
      - split_and!; [done|apply flt_irrefl|by intros q' [= <-]]. }
    apply IH in H as (Hz&Hwz&Htab); [|done].
    split_and!; [done|by apply (flt_negtrans _ w'.1)|].
    intros name' x' m' s' [[= -> -> -> ->]|Hin]%elem_of_cons; [|by apply Htab].
    exists d. split; [done|]. intros q Hdq. apply (flt_negtrans _ w'.1); [done|done|by apply Hq].
Qed.

Lemma beyond_infinity z : fgt finf z = false → fgt z GATE_MAX_Z = true ∨ is_nan z = true.
Proof. destruct z as [[]|[]| |[] m e]; intros H; vm_compute in H; try discriminate H; [left|right]; reflexivity. Qed.

(** A vector within support: none of its features is farther than the limit, and each level
    it stands on was seen often enough. *)
Definition within_support (n_train : Z) (rows : list (string * json)) (days : option float) (symbol : string)
    (feats mean std : list float) : Prop :=
  ∀ name x m s, (name, x, m, s) ∈ feature_table feats mean std →
    if mem_name name COUNT_CHECKED_FEATURES
    then feature_distance n_train rows days symbol name x m s = Ok None
    else ∃ q, feature_distance n_train rows days symbol name x m s = Ok (Some q) ∧ fgt q GATE_MAX_Z = false.

Lemma support_within n_train rows days symbol feats mean std z worst :
  _support feats mean std n_train rows days symbol = Ok (z, worst) → fgt z GATE_MAX_Z = false →
  within_support n_train rows days symbol feats mean std.
Proof.
  intros H Hz. apply support_from_spec in H as (Hnan&_&Htab); [|done]. intros name x m s Hin.
  destruct (Htab name x m s Hin) as (d&Hd&Hq). destruct (mem_name _ _) eqn:Hm.
  - rewrite Hd. f_equal. destruct d as [q|]; [|done]. exfalso.
    assert (q = finf) as ->.
    { unfold feature_distance in Hd. rewrite Hm in Hd. simpl in Hd.
      destruct (String.eqb _ _).
      - apply bind_Ok in Hd as ([|]&_&Hd); apply Ok_inj in Hd; by simplify_eq.
      - destruct (n_train <=? 0); [by apply Ok_inj in Hd|]. apply bind_Ok in Hd as (?&_&Hd). apply Ok_inj in Hd.
        destruct (fge _ _); by simplify_eq. }
    destruct (beyond_infinity z) as [?|?]; [by apply Hq|congruence|congruence].
  - unfold feature_distance in *. rewrite Hm in Hd |- *. cbn [negb] in *. apply bind_Ok in Hd as (q&Hq'&Hd). apply Ok_inj in Hd. subst d.
    rewrite Hq'. eexists. split; [reflexivity|]. specialize (Hq _ eq_refl). unfold fgt in *.
    by apply (flt_negtrans _ z).
Qed.

(** The horizon of a supported vector has the evidence of its own instrument. *)
Lemma supported_horizon n_train rows days symbol feats mean std :
  within_support n_train rows days symbol feats mean std →
  length feats = length FEATURE_NAMES → length mean = length FEATURE_NAMES → length std = length FEATURE_NAMES →
  _evidenced_rows rows days symbol = Ok true.
Proof.
  intros Hw Hf Hm Hs. unfold feature_table in Hw. simpl in Hf, Hm, Hs.
  destruct feats as [|f0 [|f1 [|f2 [|f3 feats]]]]; try discriminate.
  destruct mean as [|m0 [|m1 [|m2 [|m3 mean]]]]; try discriminate.
  destruct std as [|s0 [|s1 [|s2 [|s3 std]]]]; try discriminate.
  assert (feature_distance n_train rows days symbol "log_horizon_days" f3 m3 s3 = Ok None) as Hd.
  { apply (Hw "log_horizon_days" f3 m3 s3). cbn. do 3 right. left. }
  unfold feature_distance in Hd. change (negb (mem_name _ _)) with false in Hd. change (String.eqb _ _) with true in Hd.
  cbn [mbind] in Hd. cbv iota in Hd. apply bind_Ok in Hd as ([|]&He&Hd); [done|]. by apply Ok_inj in Hd.
Qed.
End Support.

(** ** Keys *)
Section Keys.
Context `{G : GateMath} {GL : GateMathLaws G}.

Lemma split_at_last {A} (bar : A) a a' x x' :
  ~ In bar x → ~ In bar x' → a ++ bar :: x = a' ++ bar :: x' → a = a' ∧ x = x'.
Proof.
  intros Hx Hx'. revert a'. induction a as [|c a IH]; intros [|c' a'] H; simpl in H.
  - by injection H as ->.
  - exfalso. injection H as _ ->. apply Hx, in_or_app. right. by left.
  - exfalso. injection H as _ <-. apply Hx', in_or_app. right. by left.
  - injection H as -> H. by destruct (IH a' H) as [-> ->].
Qed.

Lemma ascii_list_app a b :
  String.list_ascii_of_string (a ++ b)%string = String.list_ascii_of_string a ++ String.list_ascii_of_string b.
Proof. induction a as [|c a IH]; [done|]. simpl. by f_equal. Qed.

Lemma ascii_list_inj a b : String.list_ascii_of_string a = String.list_ascii_of_string b → a = b.
Proof. intros H. rewrite <-(String.string_of_list_ascii_of_string a), <-(String.string_of_list_ascii_of_string b). by rewrite H. Qed.

(** A key names one instrument and one number of days, to six decimals. *)
Lemma evidence_key_inj symbol days symbol' days' :
  evidence_key symbol days = evidence_key symbol' days' → symbol = symbol' ∧ horizon_key days = horizon_key days'.
Proof.
  unfold evidence_key, horizon_key. intros H. apply (f_equal String.list_ascii_of_string) in H.
  rewrite !ascii_list_app in H. apply (split_at_last "|"%char) in H as [H1 H2]; [|apply fixed6_plain|apply fixed6_plain].
  split; by apply ascii_list_inj.
Qed.

Lemma count_rows_spec keys counts k :
  default 0 (count_rows keys counts !! k)
  = default 0 (counts !! k) + Z.of_nat (length (List.filter (λ k', bool_decide (k' = Some k)) keys)).
Proof.
  revert counts. induction keys as [|[k'|] keys IH]; intros counts; simpl; [lia| |].
  - rewrite IH. case_bool_decide as Hk; simpl.
    + injection Hk as ->. rewrite lookup_insert, decide_True by done. simpl. lia.
    + rewrite lookup_insert_ne by congruence. done.
  - rewrite IH. done.
Qed.

Lemma assoc_distinct {A} k v (l : list (string * A)) : NoDup l.*1 → (k, v) ∈ l → assoc k l = Some v.
Proof.
  induction l as [|[k' v'] l IH]; [by intros _ ?%not_elem_of_nil|]. cbn [fmap list_fmap fst]. intros [Hk Hd]%NoDup_cons.
  intros [[= -> ->]|Hin]%elem_of_cons; simpl; [by rewrite String.eqb_refl|].
  destruct (String.eqb_spec k k') as [->|]; [|by apply IH]. exfalso. apply Hk. by apply (list_elem_of_fmap_2 fst) in Hin.
Qed.

(** The evidence of a document is the map it was written from. *)
Lemma stored_evidence (m : gmap string Z) k :
  jget k ((λ kv, (kv.1, JInt kv.2)) <$> py_sorted (λ a b, String.ltb a.1 b.1) (map_to_list m))
  = match m !! k with Some n => JInt n | None => JNull end.
Proof.
  set (items := py_sorted _ _). assert (items ≡ₚ map_to_list m) as Hp by apply py_sorted_perm.
  unfold jget. destruct (m !! k) as [n|] eqn:Hk.
  - rewrite (assoc_distinct k (JInt n)); [done| |].
    + rewrite <-list_fmap_compose. change (fst ∘ _) with (@fst string Z). rewrite Hp. apply NoDup_fst_map_to_list.
    + apply (list_elem_of_fmap_2 (λ kv, (kv.1, JInt kv.2)) items (k, n)). rewrite Hp. by apply elem_of_map_to_list.
  - destruct (assoc k _) as [v|] eqn:Ha; [|done]. exfalso. apply assoc_elem, list_elem_of_fmap in Ha as ([k' n]&Heq&Hin).
    rewrite Hp, elem_of_map_to_list in Hin. simpl in Heq. injection Heq as -> _. congruence.
Qed.

Lemma scatter_length keep values coef : length (scatter keep values coef) = length coef.
Proof.
  revert values coef. induction keep as [|j keep IH]; intros [|v values] coef; simpl; try done. by rewrite IH, length_insert.
Qed.
End Keys.

(** ** What is stored of a fit *)
Section Fitted.
Context `{G : GateMath} {GL : GateMathLaws G} `{O : SqlOrder} {OL : SqlOrderLaws O} `{I : Interpreter}.

(** The rows of the training window that teach something. *)
Definition teaches (row : Forecast) : bool :=
  match example_of row with Ok (Some _) => true | _ => false end.

(** What a row teaches about the horizon of an instrument: the call was directional and has
    matured, and the horizon has that number of days. *)
Definition evidence_of (symbol : string) (days : float) (row : Forecast) : Prop :=
  fc_symbol row = symbol ∧ is_matured row = true ∧ fc_direction row ≠ "flat"
  ∧ ∃ d, _horizon_days (fc_horizon row) = Some d ∧ horizon_key d = horizon_key days.

Lemma example_facts row e :
  example_of row = Ok (Some e) →
  is_matured row = true ∧ fc_direction row ≠ "flat"
  ∧ ex_key e = evidence_key (fc_symbol row) <$> _horizon_days (fc_horizon row).
Proof.
  unfold example_of, is_matured. destruct (fc_actual_value row); [|intros H; by apply Ok_inj in H].
  destruct (String.eqb_spec (fc_direction row) "flat"); [intros H; by apply Ok_inj in H|]. intros H.
  apply bind_Ok in H as ([base|]&_&H); apply Ok_inj in H; [|done]. cbn [mbind option_bind] in H.
  destruct (_row_features _ _ _ _ _ _ _ _ _); [|done]. cbn [mbind option_bind] in H.
  destruct (feq _ _); [done|]. by injection H as <-.
Qed.

(** A fitted document: what it is made of, and that its counts are rows of the table. *)
Lemma fit_shape tbl now gate :
  fit_meta_gate tbl now = Ok (Some gate) →
  ∃ mean std coef intercept n base_rate rows,
    gate = gate_document mean std coef intercept n base_rate rows now
    ∧ length mean = length FEATURE_NAMES ∧ length std = length FEATURE_NAMES ∧ length coef = length FEATURE_NAMES
    ∧ 0 ≤ n ≤ 500
    ∧ ∀ symbol days, ∃ own, own `sublist_of` training_rows tbl ∧ Forall (evidence_of symbol days) own
        ∧ default 0 (rows !! evidence_key symbol days) = Z.of_nat (length own).
Proof.
  unfold fit_meta_gate. intros H. apply bind_Ok in H as (read&Hread&H).
  set (examples := some_of read) in H. destruct (_ || _); [by apply Ok_inj in H|].
  destruct (_independent_columns _ _) as [|j keep]; [by apply Ok_inj in H|].
  apply bind_Ok in H as ([[values intercept] iterations]&_&H). destruct (MAX_ITER <=? iterations); [by apply Ok_inj in H|].
  apply Ok_inj in H. apply Some_inj in H. eexists _, _, _, _, _, _, _. split; [symmetry; exact H|].
  split_and!; [by rewrite !length_fmap|by rewrite !length_fmap|by rewrite scatter_length|lia| |].
  - rewrite length_fmap. unfold examples, some_of. apply traverse_length in Hread.
    assert (length (omap id read) ≤ length read)%nat as Hle
      by (clear; induction read as [|[e|] read IH]; [apply le_n|apply le_n_S, IH|apply le_S, IH]).
    assert (length (training_rows tbl) ≤ 500)%nat as Hlen by (unfold training_rows, MAX_SAMPLES; rewrite length_take; lia). lia.
  - intros symbol days. apply traverse_Ok in Hread. unfold examples. clear examples H. clear -Hread GL.
    assert (∃ own, own `sublist_of` training_rows tbl ∧ Forall (evidence_of symbol days) own
      ∧ length own = length (List.filter (λ k', bool_decide (k' = Some (evidence_key symbol days))) (ex_key <$> some_of read))) as (own&?&?&Hl).
    { induction Hread as [|row e rows read He _ (own&Hs&Hf&Hl)]; [by exists []|].
      destruct e as [e|]; [|exists own; split_and!; [by constructor|done|done]].
      destruct (example_facts _ _ He) as (Hm&Hd&Hk). simpl. rewrite Hk. case_bool_decide as Hkey.
      - apply fmap_Some in Hkey as (d&Hdays&Hkey). symmetry in Hkey. apply evidence_key_inj in Hkey as [Hsym Hday].
        exists (row :: own). split_and!; [by constructor| |simpl; by rewrite Hl].
        constructor; [|done]. split_and!; [done|done|done|]. by exists d.
      - exists own. split_and!; [by constructor|done|done]. }
    exists own. split_and!; [done|done|]. rewrite count_rows_spec, lookup_empty, <-Hl. simpl. lia.
Qed.
End Fitted.

(** ** A fitted gate answers *)
Section Answers.
Context `{G : GateMath} {GL : GateMathLaws G} `{O : SqlOrder} {OL : SqlOrderLaws O} `{I : Interpreter}.

Definition stored (xs : list float) : list float := (λ v, py_round v 8) <$> xs.

Lemma asarray_stored xs : np_asarray (json_list xs) = Ok (stored xs).
Proof. unfold json_list, stored. rewrite (list_fmap_compose (λ v, py_round v 8) JFloat). apply asarray_floats. Qed.

Lemma same_names_refl : same_names (JStr <$> FEATURE_NAMES) FEATURE_NAMES = true.
Proof. vm_compute. reflexivity. Qed.

Lemma small_float n : 0 ≤ n ≤ 500 → ∃ f, py_float_of_int n = Ok f.
Proof.
  intros Hn. assert (forallb (λ i, negb (is_inf (float_of_Z (Z.of_nat i)))) (seq 0 501) = true) as Hall by (vm_compute; reflexivity).
  rewrite forallb_forall in Hall. specialize (Hall (Z.to_nat n) ltac:(apply in_seq; lia)).
  rewrite Z2Nat.id in Hall by lia. unfold py_float_of_int. apply negb_true_iff in Hall. rewrite Hall. by eexists.
Qed.

Lemma positive_not_zero s : feq (positive_or_one s) fzero = false.
Proof.
  unfold positive_or_one. destruct (fle s fzero) eqn:H; [done|].
  apply not_true_iff_false. intros Hz. apply not_true_iff_false in H. apply H. rewrite fle_spec, Hz. apply orb_true_r.
Qed.

Lemma evidenced_stored rows days symbol :
  ∃ b, _evidenced_rows ((λ kv, (kv.1, JInt kv.2)) <$> py_sorted (λ a b, String.ltb a.1 b.1) (map_to_list rows)) days symbol = Ok b
    ∧ b = match days with
          | Some days => GATE_MIN_LEVEL_ROWS <=? default 0 (rows !! evidence_key symbol days)
          | None => false
          end.
Proof.
  unfold _evidenced_rows. destruct days as [days|]; [|by eexists]. rewrite stored_evidence.
  destruct (rows !! _) as [n|]; simpl; by eexists.
Qed.

Lemma support_total feats mean std n rows days symbol :
  0 ≤ n ≤ 500 →
  ∃ w, _support feats mean (positive_or_one <$> std) n
         ((λ kv, (kv.1, JInt kv.2)) <$> py_sorted (λ a b, String.ltb a.1 b.1) (map_to_list rows)) days symbol = Ok w.
Proof.
  intros Hn. unfold _support. generalize (fzero, @None string) as w.
  assert (∀ name x m s, (name, x, m, s) ∈ feature_table feats mean (positive_or_one <$> std) → feq s fzero = false) as Hs.
  { intros name x m s Hin. unfold feature_table in Hin. apply list_elem_of_lookup in Hin as [i Hi].
    apply lookup_zip_with_Some in Hi as (q&s'&Heq&_&Hs). assert (s' = s) as -> by (by inversion Heq). rewrite list_lookup_fmap in Hs.
    apply fmap_Some in Hs as (s''&_&->). apply positive_not_zero. }
  generalize dependent (feature_table feats mean (positive_or_one <$> std)).
  intros table. induction table as [|[[[name x] m] s] table IH]; intros Hs w; [by eexists|]. simpl.
  assert (∃ d, feature_distance n ((λ kv, (kv.1, JInt kv.2)) <$> py_sorted (λ a b, String.ltb a.1 b.1) (map_to_list rows))
    days symbol name x m s = Ok d) as [d ->].
  { unfold feature_distance. destruct (negb _).
    - unfold fdiv. rewrite (Hs name x m s) by left. by eexists.
    - destruct (String.eqb _ _); [destruct (evidenced_stored rows days symbol) as (b&->&_); by eexists|].
      destruct (n <=? 0); [by eexists|]. destruct (small_float n Hn) as [f ->]. by eexists. }
  simpl. apply IH. intros name' x' m' s' Hin. apply (Hs name' x' m' s'). by right.
Qed.

(** What a gate that was fitted answers. *)
Lemma fitted_gate_answers tbl now gate point lower upper expected_pct confidence horizon regime data_fresh symbol :
  fit_meta_gate tbl now = Ok (Some gate) →
  ∃ v, score_meta_gate (Some gate) point lower upper expected_pct confidence horizon regime data_fresh symbol = Ok v
  ∧ let feats := _row_features point lower upper expected_pct confidence horizon regime data_fresh symbol in
    match p_hit v with
    | None => gate_status_of v = unusable ∧ feats = None ∨ gate_status_of v = out_of_support
    | Some p =>
        gate_status_of v = scored
        ∧ ∃ xs days mean std coef intercept n rows z own,
            feats = Some xs ∧ _horizon_days horizon = Some days
            ∧ jget "mean" gate = JArr (JFloat <$> mean) ∧ jget "std" gate = JArr (JFloat <$> std)
            ∧ jget "coef" gate = JArr (JFloat <$> coef) ∧ jget "intercept" gate = JFloat intercept
            ∧ jget "n" gate = JInt n ∧ jget "horizon_evidence" gate = JObj rows
            ∧ p = model_output xs mean (positive_or_one <$> std) coef intercept
            ∧ within_support n rows (Some days) symbol xs mean (positive_or_one <$> std)
            ∧ max_abs_z v = Some z ∧ fgt z GATE_MAX_Z = false ∧ thin_support v = fgt z GATE_THIN_Z
            ∧ own `sublist_of` training_rows tbl ∧ (10 ≤ length own)%nat ∧ Forall (evidence_of symbol days) own
    end.
Proof.
  intros H. destruct (fit_shape tbl now gate H) as (mean&std&coef&intercept&n&base_rate&rows&->&Hm&Hs&Hc&Hn&Hown).
  unfold score_meta_gate. set (gate := gate_document mean std coef intercept n base_rate rows now).
  change (Some gate) with (Some (("feature_names", JArr (JStr <$> FEATURE_NAMES)) :: tail gate)). cbv iota.
  change (("feature_names", JArr (JStr <$> FEATURE_NAMES)) :: tail gate) with gate.
  destruct (_row_features point lower upper expected_pct confidence horizon regime data_fresh symbol) as [xs|] eqn:Hf;
    [|eexists; split; [reflexivity|by left]].
  change (jget "feature_names" gate) with (JArr (JStr <$> FEATURE_NAMES)). cbn [py_list mbind result_bind].
  rewrite same_names_refl. cbn [negb].
  set (stored_rows := (λ kv, (kv.1, JInt kv.2)) <$> py_sorted (λ a b, String.ltb a.1 b.1) (map_to_list rows)).
  change (jget "horizon_evidence" gate) with (JObj stored_rows). cbv iota.
  assert (score_features gate xs stored_rows horizon symbol
    = (support ← _support xs (stored mean) (positive_or_one <$> stored std) n stored_rows (_horizon_days horizon) symbol;
       let '(z, worst) := support in
       Ok (if fgt z GATE_MAX_Z
        then {| p_hit := None; gate_status_of := out_of_support; max_abs_z := Some z; worst_feature := worst;
                thin_support := false |}
        else {| p_hit := Some (model_output xs (stored mean) (positive_or_one <$> stored std) (stored coef) (py_round intercept 8));
                gate_status_of := scored; max_abs_z := Some z; worst_feature := worst; thin_support := fgt z GATE_THIN_Z |}))) as ->.
  { unfold score_features. change (gate_item "mean" gate) with (@Ok pyerr _ (json_list mean)).
    change (gate_item "std" gate) with (@Ok pyerr _ (json_list std)). change (gate_item "coef" gate) with (@Ok pyerr _ (json_list coef)).
    change (gate_item "intercept" gate) with (@Ok pyerr _ (JFloat (py_round intercept 8))).
    change (jget "n" gate) with (JInt n). cbn [mbind result_bind]. rewrite !asarray_stored. cbn [mbind result_bind json_float_of].
    assert (py_int_of (if truthy (JInt n) then JInt n else JInt 0) = Ok n) as ->.
    { simpl. destruct (Z.eqb_spec n 0) as [->|]; done. }
    cbn [mbind result_bind]. unfold stored at 1 2 3. rewrite !length_fmap, Hm, Hs, Hc. done. }
  destruct (support_total xs (stored mean) (stored std) n rows (_horizon_days horizon) symbol Hn) as [[z worst] Hsup].
  fold stored_rows in Hsup. rewrite Hsup. cbn [mbind result_bind caught].
  destruct (fgt z GATE_MAX_Z) eqn:Hz; eexists; (split; [reflexivity|]); cbn [p_hit gate_status_of]; [by right|].
  split; [done|]. pose proof (support_within _ _ _ _ _ _ _ _ _ Hsup Hz) as Hw.
  assert (∃ days, _horizon_days horizon = Some days ∧ length xs = length FEATURE_NAMES) as (days&Hdays&Hlen).
  { unfold _row_features in Hf. destruct (feq point fzero); [done|]. destruct (_horizon_days horizon) as [d|]; [|done].
    exists d. cbn [mbind option_bind] in Hf. by injection Hf as <-. }
  assert (_evidenced_rows stored_rows (_horizon_days horizon) symbol = Ok true) as He.
  { apply (supported_horizon n _ _ _ xs (stored mean) (positive_or_one <$> stored std)); [done|done| |];
      unfold stored; by rewrite !length_fmap. }
  destruct (evidenced_stored rows (_horizon_days horizon) symbol) as (b&Hb&Hbv). fold stored_rows in Hb. rewrite He in Hb.
  apply Ok_inj in Hb. subst b. rewrite Hdays in Hbv. destruct (Hown symbol days) as (own&Hsub&Hall&Hcount).
  assert (∀ l, json_list l = JArr (JFloat <$> stored l)) as Hj
    by (intros l; unfold json_list, stored; f_equal; apply list_fmap_compose).
  exists xs, days, (stored mean), (stored std), (stored coef), (py_round intercept 8), n, stored_rows, z, own.
  rewrite <-!Hj, <-Hdays. split_and!; try done.
  - rewrite Hcount in Hbv. unfold GATE_MIN_LEVEL_ROWS in Hbv. symmetry in Hbv. apply Z.leb_le in Hbv. lia.
Qed.

End Answers.

(** ** A concrete gate *)
#[local] Instance demo_gate_math : GateMath := {
  np_log x := x;
  np_exp x := fadd fone x;
  np_sqrt x := x;
  np_sign x := if fgt x fzero then fone else if flt x fzero then fopp fone else x;
  np_dot xs ys := foldl fadd fzero (zip_with fmul xs ys);
  np_norm xs := foldl (λ a x, fadd a (fabs x)) fzero xs;
  column_mean xs := fdiv_ieee (foldl fadd fzero xs) (float_of_Z (Z.of_nat (length xs)));
  column_std xs := fsub (foldl fmax fzero xs) (foldl fmin fone xs);
  np_asarray v :=
    match v with
    | JArr l => traverse (λ x, match x with JFloat f => Ok f | _ => Err ValueError end) l
    | _ => Err ValueError
    end;
  text_float s := if String.eqb s "2" then Some (float_of_Z 2) else None;
  fixed6 x := match int_of_float x with Ok n => String.string_of_list_ascii (replicate (Z.to_nat n) "1"%char) | Err _ => "x" end;
  logistic rows labels := Ok ([flit 1 1], fzero, 12);
}.

#[local] Instance demo_gate_laws : GateMathLaws demo_gate_math.
Proof.
  split.
  - intros xs. simpl. apply traverse_Ok. rewrite Forall2_fmap_l. apply Forall_Forall2_diag, Forall_forall. done.
  - intros x. simpl. destruct (int_of_float x) as [n|]; [|by intros [|[]]].
    rewrite String.list_ascii_of_string_of_list_ascii. intros Hin%list_elem_of_In.
    apply elem_of_replicate in Hin as [? _]. discriminate.
Qed.

#[local] Instance demo_order : SqlOrder := {| newest_first := λ A key l, sort_by (λ x, - key x) l |}.
#[local] Instance demo_interpreter : Interpreter :=
  {| sha256_hex := λ s, s; format_10g := λ _, "0"; isoformat := λ t, str_of_Z t; fromisoformat := λ _, Err ValueError |}.

(** A call of ten percent upwards from a hundred, at a target. *)
Definition call (id : Z) (horizon : string) (confidence actual : Z) : Forecast :=
  {| fc_id := id; fc_symbol := PRIMARY_SYMBOL; fc_horizon := horizon; fc_model_version_id := None; fc_model_name := "naive";
     fc_predicted_at := id; fc_target_time := id + us_day; fc_point_forecast := float_of_Z 110;
     fc_lower_bound := fhundred; fc_upper_bound := float_of_Z 120; fc_expected_change_pct := float_of_Z 10;
     fc_direction := "up"; fc_confidence := fone; fc_raw_confidence := Some (flit confidence 1); fc_regime := "ranging";
     fc_drivers := []; fc_data_fresh := true; fc_warnings := []; fc_actual_value := Some (float_of_Z actual);
     fc_actual_recorded_at := None; fc_created_at := id |}.

(** Forty of them, every second a hit, at the end of the day. *)
Definition demo_calls : list Forecast :=
  (λ i, call (Z.of_nat i) "eod" (if Nat.even i then 5 else 7) (if Nat.even i then 120 else 90)) <$> seq 1 40.

Abbreviation demo_fit := (fit_meta_gate demo_calls 0).
Definition demo_gate : list (string * json) := match demo_fit with Ok (Some g) => g | _ => [] end.

Abbreviation demo_score horizon width :=
  (score_meta_gate (Some demo_gate) (float_of_Z 110) fhundred (float_of_Z width) (float_of_Z 10) (flit 6 1) horizon "ranging" true
     PRIMARY_SYMBOL).

(** The evidence of [eod] is evidence of one day; two days have none, and neither has an
    interval far wider than any of the fit. *)
Example demo_verdicts :
  (gate_status_of <$> demo_score "eod" 120, gate_status_of <$> demo_score "1d" 120, gate_status_of <$> demo_score "2d" 120,
   worst_feature <$> demo_score "2d" 120, worst_feature <$> demo_score "1d" 1000)
  = (Ok scored, Ok scored, Ok out_of_support, Ok (Some "log_horizon_days"), Ok (Some "rel_width")).
Proof. vm_compute. reflexivity. Qed.

