(* ===== verification/Evaluate.v ===== *)
(** * Grading the predictions

    [app/jobs/evaluate.py], which fills in what became of each prediction and publishes the
    live calibration, and [live_member_smapes] of [app/models/ensemble.py], which reads the
    same rows.  The last job step refits the meta-gate of [MetaGate].

    The tables are a record; which statement fails is [fails]; the clock is read at the
    moments [moment] names. *)
From S2P Require Import Prelude PyFloat PyTime PyText PyJson PriceDB Intervals MetaGate.
From Stdlib Require OrdersEx.
Local Open Scope string_scope.
Local Open Scope list_scope.
Local Open Scope Z_scope.

Definition LIVE_CAL_KEY : string := "live_calibration".
Definition META_GATE_KEY : string := "meta_gate".
Definition LIVE_CAL_WINDOW : nat := 60.
Definition PENDING_LIMIT : nat := 500.

Definition TOLERANCES : list (string * Z) :=
  [("1h", 45 * us_minute); ("4h", 2 * us_hour); ("eod", 36 * us_hour); ("1d", 36 * us_hour); ("3d", 36 * us_hour);
   ("7d", 48 * us_hour); ("30d", 72 * us_hour)].
Definition DEFAULT_TOLERANCE : Z := 36 * us_hour.
Definition tolerance_of (horizon : string) : Z := default DEFAULT_TOLERANCE (assoc horizon TOLERANCES).

(** ** The outcome of a prediction *)

(** [lower] of the window: not before the forecast existed. *)
Definition window_floor (target tolerance predicted_at : instant) : instant :=
  let lower := target - tolerance in if lower <? predicted_at then predicted_at else lower.

(** An observation that can be the outcome. *)
Definition is_candidate (symbol : string) (target tolerance predicted_at : instant) (p : PriceRow) : bool :=
  String.eqb (pr_symbol p) symbol && String.eqb (pr_quality p) "ok"
  && (window_floor target tolerance predicted_at <? pr_observed_at p) && (pr_observed_at p <=? target + tolerance).

Definition distance (target : instant) (p : PriceRow) : float := fabs (total_seconds (pr_observed_at p - target)).

Section Nearest.
Context `{SqlAscending}.

Definition _nearest_price (prices : list PriceRow) (symbol : string) (target tolerance predicted_at : instant)
    : option PriceRow :=
  first_max (λ x best, flt (distance target x) (distance target best))
    (oldest_first pr_observed_at (List.filter (is_candidate symbol target tolerance predicted_at) prices)).
End Nearest.

(** ** Live calibration *)
Definition as_unit (b : bool) : float := if b then fone else fzero.

Record LiveStats : Set := {
  ls_n : Z;
  ls_dir_hit_rate : option float;
  ls_coverage : float;
  ls_coverage_n : Z;
  ls_coverage_status : coverage_status;
  ls_by_regime : list (string * (Z * float));
  ls_updated_at : instant;
}.

(** [d.setdefault(k, []).append(v)] *)
Fixpoint append_to {A} (k : string) (v : A) (d : list (string * list A)) : list (string * list A) :=
  match d with
  | [] => [(k, [v])]
  | (k', vs) :: d => if String.eqb k k' then (k', vs ++ [v]) :: d else (k', vs) :: append_to k v d
  end.

(** [d.setdefault(k, {})[k'] = v] *)
Fixpoint set_nested {A} (k k' : string) (v : A) (d : list (string * list (string * A))) : list (string * list (string * A)) :=
  match d with
  | [] => [(k, [(k', v)])]
  | (k0, items) :: d =>
      if String.eqb k k0 then (k0, List.filter (λ kv, negb (String.eqb kv.1 k')) items ++ [(k', v)]) :: d
      else (k0, items) :: set_nested k k' v d
  end.

Definition in_series (symbol horizon : string) (r : Forecast) : bool :=
  String.eqb (fc_symbol r) symbol && String.eqb (fc_horizon r) horizon.

Definition series_lt (a b : string * string) : bool :=
  String.ltb a.1 b.1 || String.eqb a.1 b.1 && String.ltb a.2 b.2.

Section Calibration.
Context `{G : GateMath} `{O : SqlOrder} `{I : Interpreter}.

(** Whether the call of a row hit; [None]: no base to call from. *)
Definition call_hit (r : Forecast) (actual : float) : result pyerr (option bool) :=
  base ← _recover_base (fc_point_forecast r) (fc_expected_change_pct r);
  Ok (match base with
      | Some base => Some (feq (np_sign (fsub (fc_point_forecast r) base)) (np_sign (fsub actual base)))
      | None => None
      end).

Definition covered_by (r : Forecast) (actual : float) : bool :=
  fle (fc_lower_bound r) actual && fle actual (fc_upper_bound r).

Definition mean_of (hits : list bool) : float := py_round (column_mean (as_unit <$> hits)) 4.

(** A row with its outcome: whether it hit, and whether it was covered. *)
Definition graded_row (r : Forecast) : result pyerr (string * option bool * bool) :=
  let actual := default fnan (fc_actual_value r) in
  hit ← call_hit r actual; Ok (fc_regime r, hit, covered_by r actual).

Definition stats_of (rows : list Forecast) (now : instant) : result pyerr LiveStats :=
  graded ← traverse graded_row rows;
  let covered := (λ g, g.2) <$> graded in
  let dir_hits := omap (λ g, g.1.2) graded in
  let regime_hits := foldl (λ d g, match g.1.2 with Some h => append_to g.1.1 h d | None => d end) [] graded in
  let n := Z.of_nat (length rows) in
  Ok {| ls_n := n;
        ls_dir_hit_rate := match dir_hits with [] => None | _ => Some (mean_of dir_hits) end;
        ls_coverage := mean_of covered;
        ls_coverage_n := Z.of_nat (length covered);
        ls_coverage_status :=
          status {| hits := Z.of_nat (length (List.filter id covered)); Intervals.scored := Z.of_nat (length covered);
                    min_scored := MIN_SCORED_FOR_COVERAGE; offered := 0; warmup := 0 |};
        ls_by_regime := (λ kv, (kv.1, (Z.of_nat (length kv.2), mean_of kv.2))) <$> regime_hits;
        ls_updated_at := now |}.

(** The newest matured rows of a series. *)
Definition calibration_rows (tbl : list Forecast) (window : nat) (symbol horizon : string) : list Forecast :=
  take window (newest_first fc_target_time (List.filter (λ r, in_series symbol horizon r && is_matured r) tbl)).

(** [SELECT DISTINCT symbol, horizon], sorted *)
Definition matured_pairs (tbl : list Forecast) : list (string * string) :=
  py_sorted series_lt (remove_dups ((λ r, (fc_symbol r, fc_horizon r)) <$> List.filter is_matured tbl)).

Abbreviation calibration := (list (string * list (string * LiveStats))).

Fixpoint calibrate (tbl : list Forecast) (window : nat) (now : instant) (pairs : list (string * string))
    (out : calibration) : result pyerr calibration :=
  match pairs with
  | [] => Ok out
  | (symbol, horizon) :: pairs =>
      match calibration_rows tbl window symbol horizon with
      | [] => calibrate tbl window now pairs out
      | rows => stats ← stats_of rows now; calibrate tbl window now pairs (set_nested symbol horizon stats out)
      end
  end.

Definition compute_live_calibration (tbl : list Forecast) (window : nat) (now : instant) : result pyerr calibration :=
  calibrate tbl window now (matured_pairs tbl) [].

Definition json_opt (x : option float) : json := match x with Some f => JFloat f | None => JNull end.

Definition stats_json (s : LiveStats) : json :=
  JObj [("n", JInt (ls_n s)); ("dir_hit_rate", json_opt (ls_dir_hit_rate s)); ("coverage", JFloat (ls_coverage s));
        ("coverage_n", JInt (ls_coverage_n s)); ("coverage_status", JStr (status_text (ls_coverage_status s)));
        ("by_regime", JObj ((λ kv, (kv.1, JObj [("n", JInt kv.2.1); ("dir_hit_rate", JFloat kv.2.2)])) <$> ls_by_regime s));
        ("updated_at", JStr (isoformat (ls_updated_at s)))].

Definition calibration_json (c : calibration) : list (string * json) :=
  (λ kv, (kv.1, JObj ((λ hs, (hs.1, stats_json hs.2)) <$> kv.2))) <$> c.
End Calibration.

(** ** Live accuracy of the members of an ensemble: [models/ensemble.py] *)
Definition MIN_LIVE_MATURED : nat := 20.
Definition LIVE_SMAPE_WINDOW : nat := 60.
Definition SMAPE_RECENCY : Z := 120 * us_day.

Section Ensemble.
Context `{G : GateMath} `{O : SqlOrder}.

(** [2|a - p| / (|a| + |p|)], and nothing where both are zero *)
Definition smape_term (pa : float * float) : float :=
  let denom := fadd (fabs pa.2) (fabs pa.1) in
  if fgt denom fzero then fdiv_ieee (fmul (float_of_Z 2) (fabs (fsub pa.2 pa.1))) denom else fzero.

Definition member_rows (tbl : list Forecast) (symbol horizon name : string) (window : nat) (now : instant) : list Forecast :=
  take window (newest_first fc_target_time
    (List.filter (λ r, in_series symbol horizon r && String.eqb (fc_model_name r) name && is_matured r
                       && (now - SMAPE_RECENCY <=? fc_target_time r)) tbl)).

Definition smape_of (rows : list Forecast) : float :=
  fmul (column_mean (smape_term <$> ((λ r, (fc_point_forecast r, default fnan (fc_actual_value r))) <$> rows))) fhundred.

Fixpoint live_member_smapes (tbl : list Forecast) (horizon : string) (members : list string) (min_rows window : nat)
    (symbol : string) (now : instant) : option (list (string * float)) :=
  match members with
  | [] => Some []
  | name :: members =>
      let rows := member_rows tbl symbol horizon name window now in
      if (length rows <? min_rows)%nat then None
      else rest ← live_member_smapes tbl horizon members min_rows window symbol now; Some ((name, smape_of rows) :: rest)
  end.

Definition inverse_smape_weights (smapes : list (string * float)) : list (string * float) :=
  let raw := (λ ks, (ks.1, fdiv_ieee fone (fmax ks.2 (flit 1 6)))) <$> smapes in
  let total := fsum (snd <$> raw) in
  if fle total fzero then (λ kw, (kw.1, int_true_div 1 (Z.max (Z.of_nat (length raw)) 1))) <$> raw
  else (λ kw, (kw.1, fdiv_ieee kw.2 total)) <$> raw.

Definition combine (predictions weights : list (string * float)) : result pyerr float :=
  let common := omap (λ kp, (λ w, (kp.2, w)) <$> assoc kp.1 weights) predictions in
  _ ← raise_if (match common with [] => true | _ => false end) ValueError;
  fdiv (fsum ((λ pw, fmul pw.1 pw.2) <$> common)) (fsum (snd <$> common)).
End Ensemble.

(** ** The job *)
Record EvalDB : Type := {
  ev_prices : list PriceRow;
  ev_predictions : list Forecast;
  ev_settings : gmap string (json * instant);
}.

Inductive eval_statement : Set :=
| ReadPending | ReadPrices (id : Z) | RecordActual (id : Z) | ReadCalibration | ReadTraining | UpsertSetting (key : string).

Inductive eval_exn : Set := Uncaught (e : pyerr) | StatementFailed (s : eval_statement) | JsonRefused (key : string).

Inductive eval_moment : Set := EvaluationStarted | CalibrationAt | GateAt | SettingAt (key : string).

Definition eval_result {A} (r : result pyerr A) : result eval_exn A :=
  match r with Ok x => Ok x | Err e => Err (Uncaught e) end.

(** What the loop counts. *)
Record Tally : Set := {
  evaluated : Z;
  unmatched : Z;
  abs_pct_errors : list float;
  direction_hits : list bool;
}.

Record EvalSummary : Type := {
  es_tally : Tally;
  live_mape_pct : option float;
  live_directional_accuracy : option float;
  es_calibration : list (string * json);
  es_gate : option (json * json);
}.

Definition with_actual (actual : float) (now : instant) (r : Forecast) : Forecast :=
  {| fc_id := fc_id r; fc_symbol := fc_symbol r; fc_horizon := fc_horizon r; fc_model_version_id := fc_model_version_id r;
     fc_model_name := fc_model_name r; fc_predicted_at := fc_predicted_at r; fc_target_time := fc_target_time r;
     fc_point_forecast := fc_point_forecast r; fc_lower_bound := fc_lower_bound r; fc_upper_bound := fc_upper_bound r;
     fc_expected_change_pct := fc_expected_change_pct r; fc_direction := fc_direction r; fc_confidence := fc_confidence r;
     fc_raw_confidence := fc_raw_confidence r; fc_regime := fc_regime r; fc_drivers := fc_drivers r;
     fc_data_fresh := fc_data_fresh r; fc_warnings := fc_warnings r; fc_actual_value := Some actual;
     fc_actual_recorded_at := Some now; fc_created_at := fc_created_at r |}.

(** [UPDATE predictions SET .. WHERE id = ..] *)
Definition record_actual (tbl : list Forecast) (id : Z) (actual : float) (now : instant) : list Forecast :=
  (λ r, if fc_id r =? id then with_actual actual now r else r) <$> tbl.

Section Job.
Context `{G : GateMath} `{O : SqlOrder} `{SA : SqlAscending} `{I : Interpreter} `{JC : JsonColumn}.
Context (fails : eval_statement → bool) (clock : eval_moment → instant).

Definition pending_rows (tbl : list Forecast) (now : instant) : list Forecast :=
  take PENDING_LIMIT (oldest_first fc_target_time
    (List.filter (λ r, negb (is_matured r) && (fc_target_time r <=? now)) tbl)).

Definition tally_row (t : Tally) (row : Forecast) (actual : float) : result pyerr Tally :=
  let point := fc_point_forecast row in
  let errors :=
    if fne actual fzero then abs_pct_errors t ++ [fmul (fdiv_ieee (fabs (fsub actual point)) (fabs actual)) fhundred]
    else abs_pct_errors t in
  hit ← call_hit row actual;
  Ok {| evaluated := evaluated t + 1; unmatched := unmatched t; abs_pct_errors := errors;
        direction_hits := direction_hits t ++ match hit with Some h => [h] | None => [] end |}.

Definition count_unmatched (t : Tally) : Tally :=
  {| evaluated := evaluated t; unmatched := unmatched t + 1; abs_pct_errors := abs_pct_errors t;
     direction_hits := direction_hits t |}.

(** The loop; what was recorded before something is raised stays recorded. *)
Fixpoint fill (prices : list PriceRow) (tbl : list Forecast) (now : instant) (pending : list Forecast) (t : Tally)
    : list Forecast * result eval_exn Tally :=
  match pending with
  | [] => (tbl, Ok t)
  | row :: pending =>
      if fails (ReadPrices (fc_id row)) then (tbl, Err (StatementFailed (ReadPrices (fc_id row))))
      else
        match _nearest_price prices (fc_symbol row) (fc_target_time row) (tolerance_of (fc_horizon row)) (fc_predicted_at row) with
        | None => fill prices tbl now pending (count_unmatched t)
        | Some p =>
            if fails (RecordActual (fc_id row)) then (tbl, Err (StatementFailed (RecordActual (fc_id row))))
            else
              let tbl := record_actual tbl (fc_id row) (pr_value p) now in
              match tally_row t row (pr_value p) with
              | Ok t => fill prices tbl now pending t
              | Err e => (tbl, Err (Uncaught e))
              end
        end
  end.

Definition upsert_setting (settings : gmap string (json * instant)) (key : string) (value : list (string * json))
    : result eval_exn (gmap string (json * instant)) :=
  _ ← raise_if (fails (UpsertSetting key)) (StatementFailed (UpsertSetting key));
  _ ← raise_if (negb (json_column value)) (JsonRefused key);
  Ok (<[key := (JObj value, clock (SettingAt key))]> settings).

(** [if value: upsert_setting(engine, key, value)] *)
Definition upsert_truthy (settings : gmap string (json * instant)) (key : string) (value : list (string * json))
    : result eval_exn (gmap string (json * instant)) :=
  match value with [] => Ok settings | _ => upsert_setting settings key value end.

Definition percent_mean (xs : list float) : option float :=
  match xs with [] => None | _ => Some (py_round (column_mean xs) 4) end.

Definition with_predictions (db : EvalDB) (tbl : list Forecast) : EvalDB :=
  {| ev_prices := ev_prices db; ev_predictions := tbl; ev_settings := ev_settings db |}.
Definition with_settings (db : EvalDB) (s : gmap string (json * instant)) : EvalDB :=
  {| ev_prices := ev_prices db; ev_predictions := ev_predictions db; ev_settings := s |}.

Definition run_evaluate (db : EvalDB) : EvalDB * result eval_exn EvalSummary :=
  let now := clock EvaluationStarted in
  if fails ReadPending then (db, Err (StatementFailed ReadPending))
  else
    let (tbl, r) := fill (ev_prices db) (ev_predictions db) now (pending_rows (ev_predictions db) now)
                      {| evaluated := 0; unmatched := 0; abs_pct_errors := []; direction_hits := [] |} in
    let db := with_predictions db tbl in
    match r with
    | Err e => (db, Err e)
    | Ok t =>
        match
          (_ ← raise_if (fails ReadCalibration) (StatementFailed ReadCalibration);
           c ← eval_result (compute_live_calibration tbl LIVE_CAL_WINDOW (clock CalibrationAt));
           s ← upsert_truthy (ev_settings db) LIVE_CAL_KEY (calibration_json c);
           Ok (calibration_json c, s))
        with
        | Err e => (db, Err e)
        | Ok (calibration, settings) =>
            let db := with_settings db settings in
            match
              (_ ← raise_if (fails ReadTraining) (StatementFailed ReadTraining);
               gate ← eval_result (fit_meta_gate tbl (clock GateAt));
               s ← upsert_truthy settings META_GATE_KEY (default [] gate);
               Ok (gate, s))
            with
            | Err e => (db, Err e)
            | Ok (gate, settings) =>
                (with_settings db settings,
                 Ok {| es_tally := t; live_mape_pct := percent_mean (abs_pct_errors t);
                       live_directional_accuracy := percent_mean (as_unit <$> direction_hits t);
                       es_calibration := calibration;
                       es_gate := (λ g, (jget "n" g, jget "base_rate" g)) <$> gate |})
            end
        end
    end.
End Job.

(** ** What an evaluation leaves *)
Section Outcomes.
Context `{G : GateMath} `{O : SqlOrder} `{SA : SqlAscending} {SL : SqlAscendingLaws SA} `{I : Interpreter} `{JC : JsonColumn}.
Context (fails : eval_statement → bool) (clock : eval_moment → instant).

(** An observation that can be the outcome of a row: accepted, of its symbol, made after the
    forecast and around its target. *)
Definition eligible (row : Forecast) (p : PriceRow) : Prop :=
  pr_symbol p = fc_symbol row ∧ pr_quality p = "ok" ∧ fc_predicted_at row < pr_observed_at p
  ∧ fc_target_time row - tolerance_of (fc_horizon row) < pr_observed_at p
      ≤ fc_target_time row + tolerance_of (fc_horizon row).

(** The outcome: such that none is nearer to the target. *)
Definition outcome_of (prices : list PriceRow) (row : Forecast) (p : PriceRow) : Prop :=
  p ∈ prices ∧ eligible row p
  ∧ ∀ q, q ∈ prices → eligible row q → flt (distance (fc_target_time row) q) (distance (fc_target_time row) p) = false.

Definition no_outcome (prices : list PriceRow) (row : Forecast) : Prop := ∀ q, q ∈ prices → ~ eligible row q.

Lemma candidate_eligible row p :
  is_candidate (fc_symbol row) (fc_target_time row) (tolerance_of (fc_horizon row)) (fc_predicted_at row) p = true ↔ eligible row p.
Proof.
  unfold is_candidate, window_floor, eligible. rewrite !andb_true_iff, !String.eqb_eq, Z.ltb_lt, Z.leb_le.
  destruct (Z.ltb_spec (fc_target_time row - tolerance_of (fc_horizon row)) (fc_predicted_at row)); intuition lia.
Qed.

Abbreviation nearest prices row :=
  (_nearest_price prices (fc_symbol row) (fc_target_time row) (tolerance_of (fc_horizon row)) (fc_predicted_at row)).

Lemma nearest_spec prices row :
  match nearest prices row with Some p => outcome_of prices row p | None => no_outcome prices row end.
Proof.
  unfold _nearest_price. set (cand := is_candidate _ _ _ _). set (rows := oldest_first _ _).
  assert (∀ q, q ∈ rows ↔ q ∈ prices ∧ eligible row q) as Hin.
  { intros q. unfold rows, cand. by rewrite oldest_first_perm, elem_of_bool_filter, candidate_eligible. }
  clearbody rows. destruct rows as [|r rows]; simpl.
  - intros q Hq Hc. by apply (not_elem_of_nil q), Hin.
  - set (best := first_max_from _ r rows). assert (best ∈ r :: rows) as Hb by apply first_max_from_elem.
    apply Hin in Hb as [Hb Hcb]. split_and!; [done|done|]. intros q Hq Hc.
    apply (first_max_from_ge (λ x best, flt (distance (fc_target_time row) x) (distance (fc_target_time row) best))
      (λ p, is_nan (distance (fc_target_time row) p) = false)).
    + intros x y z. apply flt_negtrans.
    + intros x y. apply flt_asym.
    + intros x. apply flt_irrefl.
    + apply Forall_forall. intros x _. unfold distance, total_seconds. rewrite fabs_not_nan. by apply int_true_div_not_nan.
    + by apply Hin.
Qed.

(** A row after the loop: as it was, or filled from the nearest observation of a pending row
    with its id. *)
Definition filled_from (prices : list PriceRow) (pending : list Forecast) (now : instant) (r r' : Forecast) : Prop :=
  r' = r ∨ ∃ pend p, pend ∈ pending ∧ fc_id r = fc_id pend ∧ nearest prices pend = Some p ∧ r' = with_actual (pr_value p) now r.

Lemma fill_rows prices now pending tbl t tbl' r :
  fill fails prices tbl now pending t = (tbl', r) → Forall2 (filled_from prices pending now) tbl tbl'.
Proof.
  revert tbl t. induction pending as [|row pending IH]; intros tbl t H; simpl in H.
  - injection H as <- _. apply Forall_Forall2_diag, Forall_forall. intros x _. by left.
  - assert (∀ l, Forall2 (filled_from prices (row :: pending) now) l l) as Hrefl
      by (intros l; apply Forall_Forall2_diag, Forall_forall; intros x _; by left).
    destruct (fails _); [injection H as <- _; apply Hrefl|].
    destruct (nearest prices row) as [p|] eqn:Hp.
    + destruct (fails _); [injection H as <- _; apply Hrefl|].
      assert (Forall2 (filled_from prices (row :: pending) now) tbl (record_actual tbl (fc_id row) (pr_value p) now)) as Hone.
      { unfold record_actual. apply Forall2_fmap_r, Forall_Forall2_diag, Forall_forall. intros x _. simpl.
        destruct (Z.eqb_spec (fc_id x) (fc_id row)) as [Hid|]; [|by left]. right. exists row, p. split_and!; [by left|done|done|done]. }
      destruct (tally_row t row (pr_value p)) as [t'|e]; [|by injection H as <- _].
      apply IH in H. clear IH. revert tbl' H. induction Hone as [|x y l k Hxy _ IH]; intros tbl' H; inversion H as [|? z ? k' Hyz Hrest]; subst; constructor.
      * destruct Hyz as [->|(pend&q&Hin&Hid&Hq&->)]; [done|]. right. exists pend, q.
        split_and!; [by right| |done|]; destruct Hxy as [->|(?&?&_&_&_&->)]; done.
      * by apply IH.
    + apply IH in H. eapply Forall2_impl; [exact H|]. intros x y [->|(pend&q&Hin&Hid&Hq&->)]; [by left|].
      right. exists pend, q. split_and!; [by right|done|done|done].
Qed.

(** A loop that ends has looked at every pending row. *)
Lemma fill_settles prices now pending tbl t tbl' t' :
  fill fails prices tbl now pending t = (tbl', Ok t') →
  evaluated t' + unmatched t' = evaluated t + unmatched t + Z.of_nat (length pending)
  ∧ evaluated t' = evaluated t + Z.of_nat (length (List.filter (λ r, if nearest prices r then true else false) pending))
  ∧ ∀ row, row ∈ pending → ∀ p, nearest prices row = Some p → ∀ r', r' ∈ tbl' → fc_id r' = fc_id row → is_matured r' = true.
Proof.
  revert tbl t. induction pending as [|row pending IH]; intros tbl t H; simpl in H.
  - injection H as <- <-. split_and!; [simpl; lia|simpl; lia|]. by intros row ?%not_elem_of_nil.
  - destruct (fails _); [done|]. destruct (nearest prices row) as [p|] eqn:Hp.
    + destruct (fails _); [done|]. destruct (tally_row t row (pr_value p)) as [t1|e] eqn:Ht; [|done].
      pose proof (fill_rows _ _ _ _ _ _ _ H) as Hrows. apply IH in H as (H1&H2&H3).
      apply bind_Ok in Ht as (hit&_&Ht). apply Ok_inj in Ht. subst t1. simpl in *. rewrite Hp. simpl.
      split_and!; [lia|lia|]. intros row' [->|Hin]%elem_of_cons q Hq r' Hr' Hid; [|by apply (H3 row' Hin q Hq)].
      apply list_elem_of_lookup in Hr' as [i Hi]. destruct (Forall2_lookup_r _ _ _ _ _ Hrows Hi) as (x&Hx&Hf).
      unfold record_actual in Hx. rewrite list_lookup_fmap in Hx. apply fmap_Some in Hx as (r0&_&->).
      destruct Hf as [->|(?&?&_&_&_&->)]; [|done]. destruct (Z.eqb_spec (fc_id r0) (fc_id row)) as [|Hne]; [done|congruence].
    + apply IH in H as (H1&H2&H3). simpl in *. rewrite Hp. split_and!; [lia|lia|].
      intros row' [->|Hin]%elem_of_cons q Hq; [congruence|by apply (H3 row' Hin q Hq)].
Qed.

Lemma pending_facts tbl now row :
  row ∈ pending_rows tbl now → row ∈ tbl ∧ is_matured row = false ∧ fc_target_time row ≤ now.
Proof.
  unfold pending_rows. intros H%elem_of_take. destruct H as (i&Hi&_). apply list_elem_of_lookup_2 in Hi.
  rewrite oldest_first_perm, elem_of_bool_filter, andb_true_iff, negb_true_iff, Z.leb_le in Hi. tauto.
Qed.

(** The tables after the loop are the tables at the end: the later steps write settings. *)
Lemma run_evaluate_tables db db' r :
  run_evaluate fails clock db = (db', r) →
  ev_prices db' = ev_prices db
  ∧ (ev_predictions db' = ev_predictions db ∧ is_ok r = false
     ∨ ∃ rt, fill fails (ev_prices db) (ev_predictions db) (clock EvaluationStarted)
               (pending_rows (ev_predictions db) (clock EvaluationStarted))
               {| evaluated := 0; unmatched := 0; abs_pct_errors := []; direction_hits := [] |} = (ev_predictions db', rt)
         ∧ ∀ s, r = Ok s → rt = Ok (es_tally s)).
Proof.
  unfold run_evaluate. destruct (fails ReadPending); [intros [= <- <-]; split; [done|by left]|].
  destruct (fill _ _ _ _ _ _) as [tbl rt]. destruct rt as [t|e]; [|intros [= <- <-]; split; [done|]; right; by eexists].
  match goal with |- context[match ?m with Ok _ => _ | Err _ => _ end = _] => destruct m as [[c s]|e] end;
    [|intros [= <- <-]; split; [done|]; right; by eexists].
  match goal with |- context[match ?m with Ok _ => _ | Err _ => _ end = _] => destruct m as [[g s']|e] end;
    intros [= <- <-]; (split; [done|]; right; eexists; split; [reflexivity|]); [by intros ? [= <-]|done].
Qed.

(** C16. An evaluation writes nothing but outcomes, and each once: whatever fails, the rows are
    those that were there, in their order, and a row is as it was or was pending (unmatured,
    its target passed) and now holds, as of the start of the pass, the value of an accepted
    observation of its own symbol made after the forecast existed and within the tolerance of
    its target, such that none is nearer.  A pass that ends has looked at every pending row
    it took, accounts for each, and left open only those without such an observation. *)
Theorem evaluation_writes_outcomes db db' r :
  NoDup (fc_id <$> ev_predictions db) →
  run_evaluate fails clock db = (db', r) →
  let now := clock EvaluationStarted in
  ev_prices db' = ev_prices db
  ∧ Forall2 (λ row row', row' = row ∨
      is_matured row = false ∧ fc_target_time row ≤ now
      ∧ ∃ p, outcome_of (ev_prices db) row p ∧ row' = with_actual (pr_value p) now row)
      (ev_predictions db) (ev_predictions db')
  ∧ ∀ s, r = Ok s →
      let pending := pending_rows (ev_predictions db) now in
      evaluated (es_tally s) + unmatched (es_tally s) = Z.of_nat (length pending)
      ∧ ∀ row, row ∈ pending → ∀ row', row' ∈ ev_predictions db' → fc_id row' = fc_id row →
          is_matured row' = true ∨ no_outcome (ev_prices db) row.
Proof.
  intros Hd H now. apply run_evaluate_tables in H as (Hp&Hcase). split; [done|].
  assert (∀ l : list Forecast, Forall2 (λ row row', row' = row ∨ is_matured row = false ∧ fc_target_time row ≤ now
      ∧ ∃ p, outcome_of (ev_prices db) row p ∧ row' = with_actual (pr_value p) now row) l l) as Hrefl
    by (intros l; apply Forall_Forall2_diag, Forall_forall; intros x _; by left).
  destruct Hcase as [[-> Hbad]|(rt&Hfill&Hok)]; [split; [apply Hrefl|by intros s ->]|]. split.
  - apply fill_rows in Hfill. fold now in Hfill.
    rewrite Forall2_same_length_lookup in Hfill |- *. destruct Hfill as [Hlen Hfill]. split; [done|].
    intros i row row' Hi Hi'. destruct (Hfill i row row' Hi Hi') as [->|(pend&p&Hin&Hid&Hn&->)]; [by left|]. right.
    apply pending_facts in Hin as (Hin&Hm&Ht).
    assert (row = pend) as <- by (apply (NoDup_key_inj fc_id (ev_predictions db)); [done|by eapply list_elem_of_lookup_2|done|done]).
    split_and!; [done|done|]. exists p. split; [|done]. pose proof (nearest_spec (ev_prices db) row) as Hs. by rewrite Hn in Hs.
  - intros s Hs. rewrite (Hok s Hs) in Hfill. apply fill_settles in Hfill as (H1&_&H3). simpl in H1. split; [done|].
    intros row Hin row' Hin' Hid. pose proof (nearest_spec (ev_prices db) row) as Hn.
    destruct (nearest (ev_prices db) row) as [p|] eqn:Hp'; [|by right]. left. by apply (H3 row Hin p Hp').
Qed.
End Outcomes.

(** ** The order of strings *)
Lemma string_compare_OT a b : String.compare a b = OrdersEx.String_as_OT.compare a b.
Proof. revert b. induction a as [|c a IH]; intros [|d b]; simpl; try done; by rewrite IH. Qed.

Lemma string_ltb_lt a b : String.ltb a b = true ↔ OrdersEx.String_as_OT.lt a b.
Proof.
  unfold String.ltb, OrdersEx.String_as_OT.lt. rewrite string_compare_OT.
  destruct (OrdersEx.String_as_OT.compare a b); split; congruence.
Qed.

Lemma string_ltb_total a b : String.ltb a b = false → String.ltb b a = false → a = b.
Proof.
  intros H1 H2. apply not_true_iff_false in H1, H2. rewrite string_ltb_lt in H1, H2.
  destruct (OrdersEx.String_as_OT.compare_spec a b); congruence.
Qed.

#[export] Instance string_ltb_weak_order : WeakOrder String.ltb.
Proof.
  assert (∀ x y, String.ltb x y = true → String.ltb y x = false) as Hasym.
  { intros x y H. apply not_true_iff_false. rewrite string_ltb_lt in *. intros H'.
    pose proof (transitivity H H') as Hc. revert Hc. apply irreflexivity, _. }
  split; [done|]. intros x y z H1 H2. apply not_true_iff_false. intros H3.
  destruct (String.ltb y x) eqn:Hyx.
  - apply not_true_iff_false in H2. apply H2. apply string_ltb_lt. apply string_ltb_lt in Hyx, H3. by etransitivity.
  - rewrite <-(string_ltb_total _ _ H1 Hyx) in H2. congruence.
Qed.

Lemma series_lt_total a b : series_lt a b = false → series_lt b a = false → a = b.
Proof.
  unfold series_lt. rewrite !orb_false_iff, !andb_false_iff. destruct a as [a1 a2], b as [b1 b2]. simpl.
  intros [H1 H2] [H3 H4]. pose proof (string_ltb_total _ _ H1 H3) as ->. rewrite String.eqb_refl in H2, H4.
  destruct H2 as [?|H2]; [done|]. destruct H4 as [?|H4]; [done|]. by rewrite (string_ltb_total _ _ H2 H4).
Qed.

#[export] Instance series_lt_weak_order : WeakOrder series_lt.
Proof.
  split.
  - intros [a1 a2] [b1 b2]. unfold series_lt. simpl. rewrite orb_true_iff, andb_true_iff, orb_false_iff, andb_false_iff, String.eqb_eq.
    intros [H|[-> H]]; (split; [|]).
    + by apply (wo_asym String.ltb).
    + left. apply String.eqb_neq. intros ->. pose proof (wo_asym String.ltb _ _ H). congruence.
    + destruct (String.ltb b1 b1) eqn:Hb; [|done]. pose proof (wo_asym String.ltb _ _ Hb). congruence.
    + right. by apply (wo_asym String.ltb).
  - intros [a1 a2] [b1 b2] [c1 c2]. unfold series_lt. simpl.
    rewrite !orb_false_iff, !andb_false_iff, !String.eqb_neq. intros [H1 H2] [H3 H4].
    split; [by apply (wo_negtrans String.ltb _ b1)|].
    destruct (decide (a1 = c1)) as [->|]; [|by left]. right.
    pose proof (string_ltb_total _ _ H1 H3) as ->. destruct H2 as [?|H2], H4 as [?|H4]; try done.
    by apply (wo_negtrans String.ltb _ b2).
Qed.

(** ** The calibration, block by block *)
Section Blocks.
Context `{G : GateMath} `{O : SqlOrder} {OL : SqlOrderLaws O} `{I : Interpreter}.

(** The stats of an instrument and a horizon. *)
Definition block {A} (c : list (string * list (string * A))) (symbol horizon : string) : option A :=
  assoc symbol c ≫= assoc horizon.

Lemma assoc_other {A} k k' (v : A) l :
  assoc k (List.filter (λ kv, negb (String.eqb kv.1 k')) l ++ [(k', v)]) = if String.eqb k k' then Some v else assoc k l.
Proof.
  induction l as [|[k0 v0] l IH]; simpl; [done|].
  destruct (String.eqb_spec k0 k') as [->|Hne]; simpl; rewrite IH.
  - destruct (String.eqb_spec k k'); done.
  - destruct (String.eqb_spec k k0) as [->|]; [|done]. destruct (String.eqb_spec k0 k'); done.
Qed.

Lemma set_nested_block {A} k k' (v : A) d s h :
  block (set_nested k k' v d) s h = if String.eqb s k && String.eqb h k' then Some v else block d s h.
Proof.
  unfold block. induction d as [|[k0 items] d IH]; simpl.
  - destruct (String.eqb_spec s k); simpl; [|done]. by destruct (String.eqb_spec h k').
  - destruct (String.eqb_spec k k0) as [->|Hne]; simpl.
    + destruct (String.eqb_spec s k0) as [->|]; simpl; [|done]. by rewrite assoc_other.
    + destruct (String.eqb_spec s k0) as [->|]; [|done]. simpl. destruct (String.eqb_spec k0 k); [congruence|done].
Qed.

Lemma calibrate_block tbl w now pairs out c s h :
  calibrate tbl w now pairs out = Ok c → NoDup pairs →
  match calibration_rows tbl w s h with
  | [] => block c s h = block out s h
  | rows => if bool_decide ((s, h) ∈ pairs) then ∃ st, stats_of rows now = Ok st ∧ block c s h = Some st
            else block c s h = block out s h
  end.
Proof.
  revert out. induction pairs as [|[s0 h0] pairs IH]; intros out H Hd; simpl in H.
  - apply Ok_inj in H as ->. by destruct (calibration_rows tbl w s h).
  - apply NoDup_cons in Hd as [Hn Hd]. destruct (decide ((s, h) = (s0, h0))) as [Heq|Hne].
    + injection Heq as -> ->. destruct (calibration_rows tbl w s0 h0) as [|r rows] eqn:Hrows.
      * by apply (IH out).
      * apply bind_Ok in H as (st&Hst&H). apply IH in H; [|done].
        rewrite bool_decide_true by left. rewrite bool_decide_false, set_nested_block, !String.eqb_refl in H by done.
        by exists st.
    + assert (calibrate tbl w now pairs out = Ok c
        ∨ ∃ st, calibrate tbl w now pairs (set_nested s0 h0 st out) = Ok c) as Hcase.
      { destruct (calibration_rows tbl w s0 h0); [by left|]. apply bind_Ok in H as (st&_&H). right. by exists st. }
      assert (∀ st, block (set_nested s0 h0 st out) s h = block out s h) as Hout.
      { intros st. rewrite set_nested_block. destruct (String.eqb_spec s s0), (String.eqb_spec h h0); simpl; congruence. }
      assert (bool_decide ((s, h) ∈ (s0, h0) :: pairs) = bool_decide ((s, h) ∈ pairs)) as ->.
      { apply bool_decide_ext. rewrite elem_of_cons. naive_solver. }
      destruct Hcase as [H'|[st H']]; apply IH in H'; [done|done| |done]. by rewrite Hout in H'.
Qed.

Lemma matured_pairs_elem tbl w s h :
  (0 < w)%nat → (s, h) ∈ matured_pairs tbl ↔ calibration_rows tbl w s h ≠ [].
Proof.
  intros Hw. unfold matured_pairs. rewrite py_sorted_perm, elem_of_remove_dups, list_elem_of_fmap. unfold calibration_rows.
  set (l := List.filter (λ r, in_series s h r && is_matured r) tbl).
  assert (take w (newest_first fc_target_time l) ≠ [] ↔ ∃ r, r ∈ l) as ->.
  { pose proof (newest_first_perm fc_target_time l) as Hp. split.
    - destruct (newest_first fc_target_time l) as [|r rs]; [by rewrite take_nil|]. exists r. rewrite <-Hp. left.
    - intros [r Hr]. rewrite <-Hp in Hr. destruct w as [|w]; [lia|].
      destruct (newest_first fc_target_time l); [by apply not_elem_of_nil in Hr|done]. }
  unfold l, in_series. setoid_rewrite elem_of_bool_filter. setoid_rewrite andb_true_iff. setoid_rewrite andb_true_iff.
  setoid_rewrite String.eqb_eq. naive_solver.
Qed.

(** Each instrument has a block for each horizon of which it has a matured prediction, and
    for no other; the block is made of its newest such predictions. *)
Theorem calibration_exact tbl w now c s h :
  (0 < w)%nat → compute_live_calibration tbl w now = Ok c →
  match calibration_rows tbl w s h with
  | [] => block c s h = None
  | rows => ∃ st, stats_of rows now = Ok st ∧ block c s h = Some st
  end.
Proof.
  intros Hw H. apply calibrate_block with (s := s) (h := h) in H.
  - pose proof (matured_pairs_elem tbl w s h Hw) as Hin. destruct (calibration_rows tbl w s h) as [|r rows]; [done|].
    rewrite bool_decide_true in H; [done|]. by apply Hin.
  - unfold matured_pairs. rewrite py_sorted_perm. apply NoDup_remove_dups.
Qed.
End Blocks.

(** ** A concrete pass *)
#[local] Existing Instance MetaGate.demo_gate_math.
#[local] Existing Instance MetaGate.demo_order.
#[local] Existing Instance MetaGate.demo_interpreter.
#[local] Instance demo_ascending : SqlAscending := { oldest_first := λ A key l, sort_by key l }.
#[local] Instance demo_ascending_laws : SqlAscendingLaws demo_ascending.
Proof. split; intros; [apply py_sorted_perm|apply sort_by_ascending]. Qed.
#[local] Instance demo_column : JsonColumn := { json_column := λ _, true }.

Definition quote (quality : string) (t v : Z) : PriceRow :=
  {| pr_symbol := MetaGate.PRIMARY_SYMBOL; pr_value := float_of_Z v; pr_currency := "IRT"; pr_unit := "gram"; pr_source := "tgju";
     pr_observed_at := t; pr_collected_at := t; pr_quality := quality |}.

(** An open call, made at hour 1 for hour 25. *)
Definition open_call (id : Z) (horizon : string) (made target : Z) : Forecast :=
  {| fc_id := id; fc_symbol := MetaGate.PRIMARY_SYMBOL; fc_horizon := horizon; fc_model_version_id := None; fc_model_name := "naive";
     fc_predicted_at := made * us_hour; fc_target_time := target * us_hour; fc_point_forecast := float_of_Z 110;
     fc_lower_bound := fhundred; fc_upper_bound := float_of_Z 120; fc_expected_change_pct := float_of_Z 10;
     fc_direction := "up"; fc_confidence := fone; fc_raw_confidence := None; fc_regime := "ranging";
     fc_drivers := []; fc_data_fresh := true; fc_warnings := []; fc_actual_value := None;
     fc_actual_recorded_at := None; fc_created_at := 0 |}.

(** A base price before the forecast, a suspect one on the target, and an accepted one near. *)
Definition demo_evaldb : EvalDB :=
  {| ev_prices := [quote "ok" us_hour 100; quote "suspect" (25 * us_hour) 500; quote "ok" (23 * us_hour) 115; quote "ok" (29 * us_hour) 90];
     ev_predictions := [open_call 1 "1d" 1 25; open_call 2 "1h" 2 3; open_call 3 "1d" 40 64];
     ev_settings := ∅ |}.

Definition demo_clock (_ : eval_moment) : instant := 60 * us_hour.
Abbreviation demo_evaluation := (run_evaluate (λ _, false) demo_clock demo_evaldb).

(** The first is graded by the observation of hour 23, the second has none, and the third is
    not due. *)
Example demo_evaluated :
  ((λ r, (fc_id r, fc_actual_value r)) <$> ev_predictions demo_evaluation.1,
   (λ s, (evaluated (es_tally s), unmatched (es_tally s), live_directional_accuracy s)) <$> demo_evaluation.2)
  = ([(1, Some (float_of_Z 115)); (2, None); (3, None)], Ok (1, 1, Some fone)).
Proof. vm_compute. reflexivity. Qed.

Lemma evaluation_writes_outcomes_witness :
  ∃ s, demo_evaluation.2 = Ok s
    ∧ evaluated (es_tally s) + unmatched (es_tally s) = 2
    ∧ Forall2 (λ row row', row' = row ∨ ∃ p, outcome_of (ev_prices demo_evaldb) row p ∧ row' = with_actual (pr_value p) (60 * us_hour) row)
        (ev_predictions demo_evaldb) (ev_predictions demo_evaluation.1).
Proof.
  destruct demo_evaluation as [db' r] eqn:H.
  assert (NoDup (fc_id <$> ev_predictions demo_evaldb)) as Hd by (apply (bool_decide_unpack _); vm_compute; exact I).
  destruct (evaluation_writes_outcomes (λ _, false) demo_clock demo_evaldb db' r Hd H) as (_&Hrows&Hok).
  assert (is_ok demo_evaluation.2 = true) as Hr by (vm_compute; reflexivity). rewrite H in Hr.
  destruct r as [s|e]; [|discriminate Hr]. exists s. split; [reflexivity|].
  destruct (Hok s eq_refl) as [Hcount _]. split.
  - rewrite Hcount. vm_compute. reflexivity.
  - eapply Forall2_impl; [exact Hrows|]. intros row row' [->|(_&_&Hp)]; [left; reflexivity|right; exact Hp].
Defined.

Definition isSome {A} (x : option A) : bool := match x with Some _ => true | None => false end.

(** A gate fitted on end-of-day calls scores a one-day call, for which no calibration block
    exists: the evidence is pooled by days, the calibration kept by label. *)
Example scored_without_calibration :
  (gate_status_of <$> score_meta_gate (Some demo_gate) (float_of_Z 110) fhundred (float_of_Z 120) (float_of_Z 10) (flit 6 1)
     "1d" "ranging" true MetaGate.PRIMARY_SYMBOL,
   (λ c, (isSome (block c MetaGate.PRIMARY_SYMBOL "eod"), isSome (block c MetaGate.PRIMARY_SYMBOL "1d")))
     <$> compute_live_calibration demo_calls LIVE_CAL_WINDOW 0)
  = (Ok scored, Ok (true, false)).
Proof. vm_compute. reflexivity. Qed.

(** Due calls that nothing can grade stay pending, and the pass takes the five hundred oldest:
    behind five hundred of them a call that could be graded is never looked at. *)
Definition starving_evaldb : EvalDB :=
  {| ev_prices := [quote "ok" (23 * us_hour) 115];
     ev_predictions := ((λ i, open_call (Z.of_nat i) "1h" 2 3) <$> seq 1 500) ++ [open_call 501 "1d" 1 25];
     ev_settings := ∅ |}.

Example unmatched_calls_starve :
  let pass := run_evaluate (λ _, false) demo_clock starving_evaldb in
  (existsb is_matured (ev_predictions pass.1), unmatched <$> (es_tally <$> pass.2),
   isSome (_nearest_price (ev_prices starving_evaldb) MetaGate.PRIMARY_SYMBOL (25 * us_hour) (tolerance_of "1d") us_hour))
  = (false, Ok 500, true).
Proof. vm_compute. reflexivity. Qed.
