(* ===== verification/SelfLearning.v ===== *)
(** * Retention and the self-learning loops

    The loops of [MetaGate] and [Evaluate] read the newest rows of [predictions], and
    [Retention] deletes old ones: what the loops compute is the same before and after. *)
From S2P Require Import Prelude PyFloat PyTime PyText PyJson PriceDB Retention MetaGate Evaluate.
Local Open Scope string_scope.
Local Open Scope list_scope.
Local Open Scope Z_scope.

(** What retention sees of a row. *)
Definition retention_row (r : Forecast) : Prediction :=
  {| pd_id := fc_id r; pd_symbol := fc_symbol r; pd_horizon := fc_horizon r; predicted_at := fc_predicted_at r;
     target_time := fc_target_time r; actual_value := fc_actual_value r |}.

(** The rows a pass leaves. *)
Definition kept_rows (db' : Tables) (tbl : list Forecast) : list Forecast :=
  List.filter (λ r, bool_decide (fc_id r ∈ pd_id <$> predictions db')) tbl.

#[local] Instance filter_rows_proper {A} (p : A → bool) :
  Proper (Permutation ==> Permutation) (List.filter p).
Proof. intros l k. apply Permutation_bool_filter. Qed.

#[local] Abbreviation ttime := fc_target_time.

Section Windows.
Context `{G : GateMath} `{O : SqlOrder} {OL : SqlOrderLaws O} `{I : Interpreter}.

(** ** The newest rows of a part of a table *)
Definition by_time (l : list Forecast) : Prop := StronglySorted (λ x y, ttime y ≤ ttime x) l.

(** [w] is an answer to [ORDER BY target_time DESC LIMIT n] over the rows [l]: rows of
    [l], as many as asked for or there are, newest first, and none left out is newer than
    one taken.  Between rows of one target time the database may choose. *)
Definition newest_by_target (n : nat) (l w : list Forecast) : Prop :=
  by_time w ∧ length w = Nat.min n (length l)
  ∧ ∃ rest, w ++ rest ≡ₚ l ∧ ∀ x y, x ∈ w → y ∈ rest → ttime y ≤ ttime x.

(** The limit does not cut through rows of one target time. *)
Definition clean_cut (n : nat) (l : list Forecast) : Prop :=
  ∀ x y, x ∈ take n (newest_first ttime l) → y ∈ drop n (newest_first ttime l) → ttime y < ttime x.

Lemma newest_first_time l : by_time (newest_first ttime l).
Proof. apply newest_first_sorted. Qed.

Lemma take_elem {A} n (l : list A) x : x ∈ take n l → ∃ i, (i < n)%nat ∧ l !! i = Some x.
Proof. intros [i Hi]%list_elem_of_lookup. apply lookup_take_Some in Hi as [Hi Hlt]. by exists i. Qed.

(** A row among the first [n] has fewer than [n] strictly newer ones. *)
Lemma first_few_newer s n x :
  by_time s → x ∈ take n s → (length (List.filter (λ y, ttime x <? ttime y)%Z s) < n)%nat.
Proof.
  intros Hs (i&Hlt&Hi)%take_elem. apply list_elem_of_split_length in Hi as (l1&l2&->&->).
  rewrite bool_filter_app, length_app.
  assert (List.filter (λ y, ttime x <? ttime y) (x :: l2) = []) as ->.
  { apply filter_nil_iff. apply Forall_forall. intros y [->|Hy]%elem_of_cons; [by rewrite Z.ltb_irrefl|].
    apply Z.ltb_ge. clear Hlt. induction l1 as [|z l1 IH]; simpl in Hs; apply StronglySorted_inv in Hs as [Hs Hx].
    - rewrite Forall_forall in Hx. by apply Hx.
    - by apply IH. }
  pose proof (List.filter_length_le (λ y, ttime x <? ttime y) l1). simpl. lia.
Qed.

(** A row with at most [n] rows as new as itself, itself included, is among the first [n]. *)
Lemma few_as_new s n x :
  by_time s → x ∈ s → (length (List.filter (λ y, ttime x <=? ttime y)%Z s) ≤ n)%nat → x ∈ take n s.
Proof.
  intros Hs Hx Hn. apply list_elem_of_split in Hx as (l1&l2&->).
  assert (length l1 < n)%nat as Hl.
  { rewrite bool_filter_app, length_app, (bool_filter_all _ l1) in Hn.
    - simpl in Hn. rewrite Z.leb_refl in Hn. simpl in Hn. lia.
    - intros y Hy. apply Z.leb_le. by apply (StronglySorted_app_inv _ _ _ Hs y x Hy ltac:(left)). }
  rewrite take_app_ge by lia. apply elem_of_app. right. destruct (n - length l1)%nat as [|k] eqn:Hk; [lia|].
  by left.
Qed.

Lemma take_newest s l n : by_time s → s ≡ₚ l → newest_by_target n l (take n s).
Proof.
  intros Hs Hp. rewrite <-(take_drop n s) in Hs. pose proof (StronglySorted_app_inv _ _ _ Hs) as Hle.
  split; [by eapply StronglySorted_app_1_l|]. split; [by rewrite length_take, Hp|].
  exists (drop n s). split; [by rewrite take_drop|]. intros x y Hx Hy. by apply Hle.
Qed.

(** Where every row of one answer is kept, the newest of what is kept are an answer, too. *)
Lemma newest_kept (keep : Forecast → bool) l s s' n :
  by_time s → s ≡ₚ l → (∀ x, x ∈ take n s → keep x = true) →
  by_time s' → s' ≡ₚ List.filter keep l → newest_by_target n l (take n s').
Proof.
  intros Hs Hp Hk Hs' Hp'.
  assert (length (List.filter keep s) = length s') as Hlen by (by rewrite Hp', Hp).
  assert (length s = length l) as Hsl by (by rewrite Hp).
  assert (Nat.min n (length l) ≤ length s')%nat as Hmin.
  { rewrite <-Hlen, <-(take_drop n s), bool_filter_app, length_app, (bool_filter_all _ (take n s)) by done.
    rewrite length_take, Hsl. lia. }
  assert (length s' ≤ length l)%nat as Hle by (rewrite Hp'; apply List.filter_length_le).
  pose proof (take_newest s' _ n Hs' (Permutation_refl _)) as (H1&_&_).
  split; [done|]. split; [rewrite length_take; lia|].
  exists (drop n s' ++ List.filter (λ x, negb (keep x)) l). split.
  { rewrite app_assoc, take_drop, Hp'. apply filter_partition. }
  intros x y Hx [Hy|Hy]%elem_of_app.
  { rewrite <-(take_drop n s') in Hs'. by apply (StronglySorted_app_inv _ _ _ Hs'). }
  apply elem_of_bool_filter in Hy as [Hyl Hyk%negb_true_iff].
  rewrite <-Hp, <-(take_drop n s) in Hyl. apply elem_of_app in Hyl as [Hyt|Hyd].
  { apply Hk in Hyt. congruence. }
  apply Z.nlt_ge. intros Hlt. apply (first_few_newer s' n x Hs') in Hx.
  assert (length (take n s) = n) as Hn.
  { rewrite length_take. apply list_elem_of_lookup in Hyd as [i Hi]. apply lookup_lt_Some in Hi.
    rewrite length_drop in Hi. lia. }
  assert (length (List.filter (λ z, ttime x <? ttime z) s')
    = length (List.filter (λ z, ttime x <? ttime z) (List.filter keep s))) as Hcount by (by rewrite Hp', Hp).
  rewrite Hcount, <-(take_drop n s), !bool_filter_app, length_app, (bool_filter_all keep (take n s)) in Hx by done.
  rewrite (bool_filter_all _ (take n s)) in Hx; [lia|].
  intros z Hz. apply Z.ltb_lt.
  rewrite <-(take_drop n s) in Hs. pose proof (StronglySorted_app_inv _ _ _ Hs z y Hz Hyd). simpl in *. lia.
Qed.

(** Deleting rows does not make the database order the others anew. *)
Definition steady : Prop :=
  ∀ (p : Forecast → bool) l, newest_first ttime (List.filter p l) = List.filter p (newest_first ttime l).

Lemma same_kept (keep : Forecast → bool) l n :
  steady → (∀ x, x ∈ take n (newest_first ttime l) → keep x = true) →
  take n (newest_first ttime (List.filter keep l)) = take n (newest_first ttime l).
Proof. intros Hst Hk. rewrite Hst. by apply take_bool_filter. Qed.
End Windows.

(** ** A pass changes nothing the loops compute *)
Section Kept.
Context `{G : GateMath} `{O : SqlOrder} {OL : SqlOrderLaws O} `{I : Interpreter}.
Context (tbl : list Forecast) (db db' : Tables) (now : instant) (s : Retention.Settings) (dry : bool)
  (fails : nat → nat → option string) (res : list TableResult).
Context (Hrows : predictions db = retention_row <$> tbl) (Hids : unique_ids db)
  (Hrun : run_retention now s dry fails db = (db', res)).

Abbreviation kept := (kept_rows db' tbl).
Definition keep (r : Forecast) : bool := bool_decide (fc_id r ∈ pd_id <$> predictions db').

Lemma kept_when r :
  r ∈ tbl →
  retention_row r ∈ newest_matured 500 (predictions db)
  ∨ (matured (retention_row r) = true ∧ (length (newer_in_series (predictions db) (retention_row r)) < 60)%nat)
  ∨ now - 120 * us_day ≤ fc_target_time r →
  keep r = true.
Proof.
  intros Hr Hcase. destruct (retention_protects_windows now s dry fails db db' res Hids Hrun) as [Hsurv _].
  apply bool_decide_eq_true. change (fc_id r) with (pd_id (retention_row r)). apply list_elem_of_fmap_2, Hsurv.
  - rewrite Hrows. by apply list_elem_of_fmap_2.
  - destruct Hcase as [?|[?|?]]; [by left|right; by left|right; right; by left].
Qed.

Lemma filter_rows (p : Prediction → bool) l : List.filter p (retention_row <$> l) = retention_row <$> List.filter (λ r, p (retention_row r)) l.
Proof. induction l as [|r l IH]; [done|]. simpl. destruct (p (retention_row r)); simpl; [f_equal|]; exact IH. Qed.

Lemma filter_kept (p : Forecast → bool) : List.filter p kept = List.filter keep (List.filter p tbl).
Proof. unfold kept_rows. rewrite !bool_filter_filter. apply bool_filter_ext. intros r _. apply andb_comm. Qed.


Lemma insert_retention x l :
  insert_sorted (λ a b, - target_time a <? - target_time b) (retention_row x) (retention_row <$> l)
  = retention_row <$> insert_sorted (λ a b, - ttime a <? - ttime b) x l.
Proof. induction l as [|y l IH]; [done|]. simpl. destruct (_ <? _); [|done]. simpl. f_equal. exact IH. Qed.

Lemma sort_retention l :
  sort_by (λ p, - target_time p) (retention_row <$> l) = retention_row <$> sort_by (λ r, - ttime r) l.
Proof.
  unfold sort_by, py_sorted. induction l as [|x l IH]; [done|]. rewrite fmap_cons. cbn [foldr]. rewrite IH. apply insert_retention.
Qed.

Lemma oldest_last l : by_time (sort_by (λ r, - ttime r) l).
Proof.
  eapply StronglySorted_impl; [|apply (sort_by_ascending (λ r, - ttime r))]. intros x y H. cbn in *. lia.
Qed.

Lemma gate_window_kept x :
  x ∈ take MAX_SAMPLES (sort_by (λ r, - ttime r) (List.filter is_matured tbl)) → keep x = true.
Proof.
  intros Hx. apply kept_when.
  - apply take_elem in Hx as (i&_&Hi%list_elem_of_lookup_2). unfold sort_by in Hi. rewrite py_sorted_perm in Hi.
    by apply elem_of_bool_filter in Hi as [? _].
  - left. unfold newest_matured. rewrite Hrows, filter_rows.
    change (List.filter (λ r, matured (retention_row r)) tbl) with (List.filter is_matured tbl).
    rewrite sort_retention. change (Z.to_nat 500) with MAX_SAMPLES. rewrite <-fmap_take.
    by apply list_elem_of_fmap_2.
Qed.

Lemma training_window : newest_by_target MAX_SAMPLES (List.filter is_matured tbl) (training_rows kept).
Proof.
  unfold training_rows. rewrite filter_kept.
  apply (newest_kept keep _ (sort_by (λ r, - ttime r) (List.filter is_matured tbl))).
  - apply oldest_last.
  - apply py_sorted_perm.
  - apply gate_window_kept.
  - apply newest_first_time.
  - apply newest_first_perm.
Qed.

Lemma training_rows_kept :
  steady → clean_cut MAX_SAMPLES (List.filter is_matured tbl) → training_rows kept = training_rows tbl.
Proof.
  intros Hst Hcut. unfold training_rows. rewrite filter_kept. apply same_kept; [done|]. intros x Hx.
  apply gate_window_kept. set (l := List.filter is_matured tbl) in *.
  apply few_as_new; [apply oldest_last| |].
  - unfold sort_by. rewrite py_sorted_perm. apply take_elem in Hx as (i&_&Hi%list_elem_of_lookup_2).
    by rewrite newest_first_perm in Hi.
  - unfold sort_by. rewrite (Permutation_length (Permutation_bool_filter _ _ _ (py_sorted_perm _ l))).
    rewrite <-(Permutation_length (Permutation_bool_filter _ _ _ (newest_first_perm ttime l))).
    rewrite <-(take_drop MAX_SAMPLES (newest_first ttime l)), bool_filter_app, length_app.
    assert (List.filter (λ y, ttime x <=? ttime y) (drop MAX_SAMPLES (newest_first ttime l)) = []) as ->.
    { apply filter_nil_iff, Forall_forall. intros y Hy. apply Z.leb_gt. by apply Hcut. }
    pose proof (List.filter_length_le (λ y, ttime x <=? ttime y) (take MAX_SAMPLES (newest_first ttime l))) as Hl.
    rewrite length_take in Hl. simpl. lia.
Qed.

Definition series_rows (symbol horizon : string) : list Forecast :=
  List.filter (λ r, in_series symbol horizon r && is_matured r) tbl.

Lemma series_window_kept symbol horizon k x :
  by_time k → k ≡ₚ series_rows symbol horizon → x ∈ take Evaluate.LIVE_CAL_WINDOW k → keep x = true.
Proof.
  intros Hs Hp Hx. pose proof (first_few_newer _ _ _ Hs Hx) as Hfew.
  rewrite (Permutation_length (Permutation_bool_filter _ _ _ Hp)) in Hfew.
  assert (x ∈ series_rows symbol horizon) as Hin.
  { rewrite <-Hp. apply take_elem in Hx as (i&_&Hi). by apply list_elem_of_lookup_2 in Hi. }
  apply elem_of_bool_filter in Hin as [Hin [Hser Hmat]%andb_true_iff].
  apply kept_when; [done|]. right. left. split; [done|]. unfold newer_in_series. rewrite Hrows, filter_rows, length_fmap.
  assert (List.filter (λ r, same_series (retention_row x) (retention_row r) && matured (retention_row r)
      && (target_time (retention_row x) <? target_time (retention_row r))) tbl
    = List.filter (λ y, ttime x <? ttime y) (series_rows symbol horizon)) as ->; [|exact Hfew].
  unfold series_rows. rewrite bool_filter_filter. apply bool_filter_ext. intros r _. unfold same_series, in_series in *.
  simpl. apply andb_true_iff in Hser as [H1 H2]. apply String.eqb_eq in H1, H2. by rewrite H1, H2.
Qed.

Lemma calibration_window symbol horizon :
  newest_by_target Evaluate.LIVE_CAL_WINDOW (series_rows symbol horizon)
    (calibration_rows kept Evaluate.LIVE_CAL_WINDOW symbol horizon).
Proof.
  unfold calibration_rows. rewrite filter_kept. fold (series_rows symbol horizon).
  apply (newest_kept keep _ (newest_first ttime (series_rows symbol horizon)));
    [apply newest_first_time|apply newest_first_perm| |apply newest_first_time|apply newest_first_perm].
  intros x. apply (series_window_kept symbol horizon); [apply newest_first_time|apply newest_first_perm].
Qed.

Lemma calibration_rows_kept symbol horizon :
  steady →
  calibration_rows kept Evaluate.LIVE_CAL_WINDOW symbol horizon = calibration_rows tbl Evaluate.LIVE_CAL_WINDOW symbol horizon.
Proof.
  intros Hst. unfold calibration_rows. rewrite filter_kept. apply same_kept; [done|].
  intros x. apply (series_window_kept symbol horizon); [apply newest_first_time|apply newest_first_perm].
Qed.

(** The series that have a matured row are the same. *)
Lemma pairs_kept : matured_pairs kept = matured_pairs tbl.
Proof.
  unfold matured_pairs. apply (py_sorted_perm_eq series_lt _ _ (λ x y _ _, series_lt_total x y)).
  apply NoDup_Permutation; [apply NoDup_remove_dups|apply NoDup_remove_dups|]. intros [sym hor].
  pose proof (matured_pairs_elem kept Evaluate.LIVE_CAL_WINDOW sym hor ltac:(unfold Evaluate.LIVE_CAL_WINDOW; lia)) as H1.
  pose proof (matured_pairs_elem tbl Evaluate.LIVE_CAL_WINDOW sym hor ltac:(unfold Evaluate.LIVE_CAL_WINDOW; lia)) as H2.
  unfold matured_pairs in H1, H2. rewrite py_sorted_perm in H1, H2. rewrite H1, H2.
  destruct (calibration_window sym hor) as (_&Hk&_).
  pose proof (take_newest (newest_first ttime (series_rows sym hor)) (series_rows sym hor) Evaluate.LIVE_CAL_WINDOW
    (newest_first_time _) (newest_first_perm _ _)) as (_&Ht&_).
  change (take _ _) with (calibration_rows tbl Evaluate.LIVE_CAL_WINDOW sym hor) in Ht.
  rewrite <-Ht in Hk. destruct (calibration_rows kept _ sym hor), (calibration_rows tbl _ sym hor); done.
Qed.

Lemma calibration_kept at_ :
  steady →
  compute_live_calibration kept Evaluate.LIVE_CAL_WINDOW at_ = compute_live_calibration tbl Evaluate.LIVE_CAL_WINDOW at_.
Proof.
  intros Hd. pose proof (λ s h, calibration_rows_kept s h Hd) as Hc. unfold compute_live_calibration.
  rewrite pairs_kept.
  generalize (matured_pairs tbl) as pairs, (@nil (string * list (string * LiveStats))) as out.
  induction pairs as [|[sym hor] pairs IH]; intros out; [done|]. simpl. rewrite Hc.
  destruct (calibration_rows tbl _ sym hor); [apply IH|]. destruct (stats_of _ at_) as [st|e]; [apply IH|done].
Qed.

Lemma smapes_kept horizon members min_rows window symbol at_ :
  now ≤ at_ → live_member_smapes kept horizon members min_rows window symbol at_
              = live_member_smapes tbl horizon members min_rows window symbol at_.
Proof.
  intros Hat. assert (∀ name, member_rows kept symbol horizon name window at_ = member_rows tbl symbol horizon name window at_) as Hm.
  { intros name. unfold member_rows. rewrite filter_kept. do 2 f_equal. apply bool_filter_all. intros r Hr.
    apply elem_of_bool_filter in Hr as [Hr [_ Ht]%andb_true_iff]. apply kept_when; [done|]. right. right.
    apply Z.leb_le in Ht. unfold SMAPE_RECENCY in Ht. lia. }
  induction members as [|name members IH]; [done|]. simpl. by rewrite Hm, IH.
Qed.
End Kept.

(** C14. Retention never changes what the service has learned of itself.  Whatever its settings
    and whichever of its statements fail, after a pass the rows the meta-gate is fitted to are
    still the newest five hundred matured rows of the table the pass found, those each series
    is calibrated on still its newest sixty, in every series that had any, and the live
    accuracies of an ensemble's members are the same.  So the loops compute what they could
    have computed before: between rows of one target time the database chooses, and where it
    chooses as it did before the pass, the calibration is the same document, and the gate too
    unless its limit cuts through rows of one target time. *)
Theorem retention_keeps_self_knowledge `{G : GateMath} `{O : SqlOrder} {OL : SqlOrderLaws O} `{I : Interpreter}
    tbl db now s dry fails db' res :
  predictions db = retention_row <$> tbl → unique_ids db →
  run_retention now s dry fails db = (db', res) →
  let kept := kept_rows db' tbl in
  newest_by_target 500 (List.filter is_matured tbl) (training_rows kept)
  ∧ (∀ symbol horizon,
       newest_by_target 60 (List.filter (λ r, in_series symbol horizon r && is_matured r) tbl)
         (calibration_rows kept 60 symbol horizon))
  ∧ matured_pairs kept = matured_pairs tbl
  ∧ (∀ horizon members min_rows window symbol at_, now ≤ at_ →
      live_member_smapes kept horizon members min_rows window symbol at_
      = live_member_smapes tbl horizon members min_rows window symbol at_)
  ∧ (steady → ∀ at_,
      compute_live_calibration kept Evaluate.LIVE_CAL_WINDOW at_ = compute_live_calibration tbl Evaluate.LIVE_CAL_WINDOW at_)
  ∧ (steady → clean_cut 500 (List.filter is_matured tbl) → ∀ at_, fit_meta_gate kept at_ = fit_meta_gate tbl at_).
Proof.
  intros Hrows Hids Hrun kept. split_and!.
  - exact (training_window tbl db db' now s dry fails res Hrows Hids Hrun).
  - exact (calibration_window tbl db db' now s dry fails res Hrows Hids Hrun).
  - exact (pairs_kept tbl db db' now s dry fails res Hrows Hids Hrun).
  - intros horizon members min_rows window symbol at_ Hat.
    exact (smapes_kept tbl db db' now s dry fails res Hrows Hids Hrun horizon members min_rows window symbol at_ Hat).
  - intros Hst at_. exact (calibration_kept tbl db db' now s dry fails res Hrows Hids Hrun at_ Hst).
  - intros Hst Hcut at_. subst kept. unfold fit_meta_gate.
    by rewrite (training_rows_kept tbl db db' now s dry fails res Hrows Hids Hrun Hst Hcut).
Qed.

(** ** A pass that deletes *)
#[local] Existing Instance MetaGate.demo_gate_math.
#[local] Existing Instance MetaGate.demo_order.
#[local] Existing Instance MetaGate.demo_interpreter.
#[local] Instance demo_order_laws : SqlOrderLaws MetaGate.demo_order.
Proof.
  split; intros; [apply py_sorted_perm|]. eapply StronglySorted_impl; [|apply (sort_by_ascending (λ x, - key x))].
  intros x y H1. cbn in *. lia.
Qed.

(** A call of the [h]-th hour of day [d] for its end, matured or not. *)
Definition dated_call (id : Z) (symbol : string) (d h : Z) (actual : option float) : Forecast :=
  {| fc_id := id; fc_symbol := symbol; fc_horizon := "eod"; fc_model_version_id := None; fc_model_name := "naive";
     fc_predicted_at := d * us_day + h * us_hour; fc_target_time := (d + 1) * us_day; fc_point_forecast := float_of_Z 110;
     fc_lower_bound := fhundred; fc_upper_bound := float_of_Z 120; fc_expected_change_pct := float_of_Z 10;
     fc_direction := "up"; fc_confidence := fone; fc_raw_confidence := None; fc_regime := "ranging";
     fc_drivers := []; fc_data_fresh := true; fc_warnings := []; fc_actual_value := actual;
     fc_actual_recorded_at := None; fc_created_at := d * us_day + h * us_hour |}.

(** Two symbols, two hours of one day: four matured rows of one target time. *)
Definition demo_history : list Forecast :=
  [dated_call 1 "IR_GOLD_18K" 1 8 (Some fhundred); dated_call 2 "XAUUSD" 1 8 (Some fhundred);
   dated_call 3 "IR_GOLD_18K" 2 8 None; dated_call 4 "IR_GOLD_18K" 1 9 (Some fhundred);
   dated_call 5 "XAUUSD" 1 9 (Some fhundred); dated_call 6 "XAUUSD" 3 8 None].
Definition demo_tables : Tables :=
  {| predictions := retention_row <$> demo_history; signals := []; training_runs := []; model_versions := []; alert_events := [];
     audit_logs := [] |}.
Abbreviation demo_pass := (run_retention (1000 * us_day) a_settings false no_failures demo_tables).

(** The two that never matured are deleted; the matured ones are kept, however old. *)
Example demo_kept : fc_id <$> kept_rows demo_pass.1 demo_history = [1; 2; 4; 5].
Proof. vm_compute. reflexivity. Qed.

Lemma demo_steady : steady (O := MetaGate.demo_order).
Proof. intros p l. apply sort_by_filter. Qed.

Lemma retention_keeps_self_knowledge_witness :
  fc_id <$> kept_rows demo_pass.1 demo_history = [1; 2; 4; 5]
  ∧ newest_by_target 500 (List.filter is_matured demo_history) (training_rows (kept_rows demo_pass.1 demo_history))
  ∧ compute_live_calibration (kept_rows demo_pass.1 demo_history) Evaluate.LIVE_CAL_WINDOW 0
    = compute_live_calibration demo_history Evaluate.LIVE_CAL_WINDOW 0
  ∧ fit_meta_gate (kept_rows demo_pass.1 demo_history) 0 = fit_meta_gate demo_history 0.
Proof.
  split; [exact demo_kept|].
  assert (unique_ids demo_tables) as Hu by by_decide.
  destruct (retention_keeps_self_knowledge demo_history demo_tables (1000 * us_day) a_settings false no_failures
    demo_pass.1 demo_pass.2 eq_refl Hu (surjective_pairing demo_pass)) as (H1&_&_&_&H5&H6).
  split; [exact H1|]. split; [exact (H5 demo_steady 0)|]. apply (H6 demo_steady).
  intros x y _ Hy. exfalso. revert Hy. vm_compute. intros Hy. inversion Hy.
Defined.
