(* ===== verification/Predicting.v ===== *)
(** * The prediction pass

    [app/models/predicting.py]: for each symbol and horizon, the active model is refitted on
    the complete bars, its forecast is given an interval, a direction and a confidence, the
    meta-gate has its say, and the row is stored.

    The trained models are the interface [ForecastModel] of [app/models/base.py]; reading an
    artifact is [load_artifact].  The tables are a record, which statement fails is [fails], the
    clock is read at the moments [moment] names, [row_ok] is the database's word on a row, and
    [wording] is the text of a driver or of a warning that holds numbers.  The pass keeps series
    it has read; prices do not change under a pass, so the model reads them again. *)
From S2P Require Import Prelude PyFloat PyTime PyText PyJson MarketHours PriceDB Intervals Features SignalUniverse SignalAssembly MetaGate Evaluate.
Local Open Scope string_scope.
Local Open Scope list_scope.
Local Open Scope Z_scope.

Definition FLAT_BAND_PCT : float := flit 15 2.
Definition PRIMARY_FORECAST_SYMBOL : string := "IR_GOLD_18K".
Definition LIVE_CAL_DENOMINATOR : Z := 60.
Definition MIN_COVERAGE_N : Z := 20.
Definition COVERAGE_FLOOR : float := flit 75 2.
Definition NOMINAL_COVERAGE : float := flit 90 2.
Definition MAX_WIDEN_FACTOR : float := flit 15 1.
Definition UNDER_COVERAGE_WARNING : string := "prediction intervals recently under-covered; widen expectations".
Definition PROVIDER_GAP_WINDOW_MIN : Z := 120.
Definition PROVIDER_GAP_WARN_PCT : float := fone.
Definition MIN_REGIME_N : Z := 10.
Definition MIN_SERVE_POINTS : nat := 30.

(** ** The tables of training: [models/training.py] *)
Inductive frequency : Set := hourly | daily.

Definition HORIZON_SPECS : list (string * (frequency * nat)) :=
  [("1h", (hourly, 1%nat)); ("4h", (hourly, 4%nat)); ("eod", (daily, 1%nat)); ("1d", (daily, 1%nat));
   ("3d", (daily, 3%nat)); ("7d", (daily, 7%nat)); ("30d", (daily, 30%nat))].
Definition MODEL_EXCLUDED_SOURCES : list string := ["tsetmc_cdn"].
Definition CONTEXT_SYMBOLS : list (string * string) :=
  [("usd_irt", "USD_IRT"); ("xau_usd", "XAUUSD"); ("gold_fund", "IR_GOLD_FUND_AYAR"); ("fund_flow", "IR_GOLD_FUND_FLOW")].
Definition SYMBOL_CONTEXTS : list (string * list (string * string)) :=
  [("IR_GOLD_18K", CONTEXT_SYMBOLS); ("XAUUSD", [])].

(** ** Models *)

(** What a fitted model answers. *)
Record Fitted : Set := {
  ft_point : float;
  ft_interval : option (float * float);
  ft_importances : list (string * float);
}.

(** A model that was trained: its members, when it is an ensemble, and the fit, given the
    weights put in place of its own. *)
Record ForecastModel : Type := {
  fm_members : option (list string);
  fm_fit : option (list (string * float)) → list (string * series) → series → nat → option Fitted;
}.

Record Artifact : Type := { ar_model : ForecastModel; ar_residual_pcts : list float }.

(** A row of [model_versions]. *)
Record ModelRow : Set := {
  mo_id : Z;
  mo_symbol : string;
  mo_horizon : string;
  mo_model_name : string;
  mo_trained_at : instant;
  mo_metrics : json;
  mo_artifact_path : option string;
  mo_is_active : bool;
}.

Record PredictDB : Type := {
  db_prices : list PriceRow;
  db_models : list ModelRow;
  db_predictions : list Forecast;
  db_next_id : Z;
  db_settings : gmap string (json * instant);
}.

Inductive predict_statement : Set :=
| ReadActive | ReadSeries (symbol : string) | ReadLatest | ReadMembers | ReadCalibration | ReadGap | ReadGate | InsertRow.

Inductive predict_moment : Set := BarAt | ForecastAt | MembersAt | GapAt.

Inductive predict_exn : Set :=
| Raised (e : pyerr)
| AttributeError
| ModelFailed
| ArtifactUnreadable
| LinAlgError
| Failed (s : predict_statement)
| RowRefused.

(** What [_predict_one] answers when it does not forecast. *)
Inductive unserved : Set := NoActiveModel | ArtifactMissing | NoSeries.

Definition lift {A} (r : result pyerr A) : result predict_exn A :=
  match r with Ok x => Ok x | Err e => Err (Raised e) end.

(** [v or {}] *)
Definition or_empty (v : json) : result predict_exn (list (string * json)) :=
  if truthy v then match v with JObj items => Ok items | _ => Err AttributeError end else Ok [].

(** [int(v or 0)] *)
Definition int_or_zero (v : json) : result predict_exn Z := lift (py_int_of (if truthy v then v else JInt 0)).

(** ** Warnings and drivers *)
Inductive warning : Set :=
| Uncertain
| StaleInput (age : option float)
| LastSession
| UnderCovered
| FewResiduals (n min_n : Z) (alpha : float)
| ProvidersDisagree (gap : float)
| FewFolds (n : Z)
| BelowCoinFlip.

Inductive coverage_note : Set :=
| NoLiveEvidence
| NotMeasurable (n : Z)
| LiveCoverage (coverage : json) (n : Z).

Inductive gate_note : Set :=
| NotAvailable
| CouldNotRead
| Declined (label : option string) (distance : option float) (n : Z)
| Learned (p : float) (n : Z) (thin : option (option string * option float)).

Inductive driver : Set :=
| Importance (name : string) (weight : float)
| Momentum10 (pct : float)
| PriceVsSma20 (pct : float)
| RegimeIs (regime : string)
| IntervalQuality (d : diagnostics) (note : coverage_note)
| SelfAssessment (note : gate_note).

Definition FEATURE_LABELS : list (string * string) :=
  [("rel_width", "this interval width"); ("abs_expected_pct", "a move of this size"); ("confidence", "this confidence level");
   ("log_horizon_days", "this forecast horizon"); ("data_fresh", "this data-freshness state");
   ("is_global", "this instrument"); ("regime_trending_up", "the trending up regime");
   ("regime_trending_down", "the trending down regime"); ("regime_ranging", "the ranging regime");
   ("regime_high_volatility", "the high volatility regime")].

Section Predicting.
Context `{G : GateMath} `{O : SqlOrder} `{SA : SqlAscending} `{P : Pandas} `{ST : Statistics} `{NP : NumPy}.
Context (TEHRAN : tzinfo) (np_median : list float → float) (wording : driver + warning → string).

(** ** Quotes *)

(** The newest quote of each source; [rows] is newest first. *)
Fixpoint latest_per_source (rows : list PriceRow) (seen : list string) : list float :=
  match rows with
  | [] => []
  | r :: rows =>
      if mem_name (pr_source r) seen then latest_per_source rows seen
      else pr_value r :: latest_per_source rows (pr_source r :: seen)
  end.

Definition provider_gap_pct (prices : list PriceRow) (symbol : string) (now : instant) : option float :=
  let since := now - PROVIDER_GAP_WINDOW_MIN * us_minute in
  let rows := newest_first pr_observed_at
    (List.filter (λ r, String.eqb (pr_symbol r) symbol && String.eqb (pr_quality r) "ok" && (since <=? pr_observed_at r)) prices) in
  match py_sorted flt (latest_per_source rows []) with
  | lowest :: _ :: _ as values =>
      let mid := np_median values in
      if fle mid fzero then None
      else Some (fmul (fdiv_ieee (fsub (List.last values lowest) lowest) mid) fhundred)
  | _ => None
  end.

Definition _latest_observation (prices : list PriceRow) (symbol : string) : option PriceRow :=
  head (newest_first pr_observed_at
    (List.filter (λ r, String.eqb (pr_symbol r) symbol && String.eqb (pr_quality r) "ok") prices)).

Definition load_series (prices : list PriceRow) (symbol : string) (freq : frequency) : series :=
  let rows := oldest_first pr_observed_at
    (List.filter (λ r, String.eqb (pr_symbol r) symbol && String.eqb (pr_quality r) "ok"
                       && negb (mem_name (pr_source r) MODEL_EXCLUDED_SOURCES)) prices) in
  match freq with
  | hourly => hourly_close (point_of <$> rows) symbol
  | daily => daily_close (point_of <$> rows) symbol
  end.

Definition _load_active (models : list ModelRow) (symbol horizon : string) : option ModelRow :=
  head (newest_first mo_trained_at
    (List.filter (λ m, String.eqb (mo_symbol m) symbol && String.eqb (mo_horizon m) horizon && mo_is_active m) models)).

(** ** Times *)
Definition _target_time (horizon : string) (now : instant) : result pyerr instant :=
  if String.eqb horizon "1h" then Ok (now + us_hour)
  else if String.eqb horizon "4h" then Ok (now + 4 * us_hour)
  else if String.eqb horizon "eod" then
    let local := to_wall TEHRAN now in
    let end_ := PyTime.combine (date_of local) (us_day - us_second) in
    let end_ := if end_ <=? local then end_ + us_day else end_ in
    Ok (of_wall TEHRAN end_)
  else
    match assoc horizon [("1d", 1); ("3d", 3); ("7d", 7); ("30d", 30)] with
    | Some days => Ok (now + days * us_day)
    | None => Err KeyError
    end.

Definition bar_length (freq : frequency) : Z := match freq with hourly => us_hour | daily => us_day end.

(** The series without the bar still filling. *)
Definition _drop_incomplete_bar (s : series) (freq : frequency) (now : instant) : series :=
  match last s with
  | Some (t, _) => if now <? t + bar_length freq then removelast s else s
  | None => s
  end.

(** The gaps between bars that are longer than nothing, ascending. *)
Definition spacings_of (index : list instant) : list float :=
  py_sorted flt (List.filter (λ d, fgt d fzero) (zip_with (λ a b, total_seconds (b - a)) index (tail index))).

Definition _bar_aligned_target (s : series) (steps : nat) (horizon : string) (now : instant) : result pyerr instant :=
  let index := fst <$> s in
  if (length s <? 3)%nat then _target_time horizon now
  else
    let spacings := spacings_of index in
    match spacings !! (length spacings / 2)%nat with
    | None => _target_time horizon now
    | Some median_gap =>
        let target := List.last index 0 + timedelta_seconds (fmul median_gap (float_of_Z (Z.max 1 (Z.of_nat steps)))) in
        Ok (if now <? target then target else now + timedelta_seconds median_gap)
    end.

(** ** Direction and confidence *)
Definition _direction (expected_change_pct : float) : string :=
  if fle (fabs expected_change_pct) FLAT_BAND_PCT then "flat"
  else if fgt expected_change_pct fzero then "up" else "down".

Definition clip_confidence (x : float) : float := np_clip x (flit 5 2) (flit 95 2).

Definition _confidence (dir_acc rel_width : float) : float :=
  let tightness := fdiv_ieee fone (fadd fone (fmul (float_of_Z 10) (fmax rel_width fzero))) in
  clip_confidence (fadd (fmul (flit 55 2) dir_acc) (fmul (flit 45 2) tightness)).

(** [app_settings[key]], when it is a dict *)
Definition stored_dict (settings : gmap string (json * instant)) (key : string) : option (list (string * json)) :=
  match settings !! key with Some (JObj items, _) => Some items | _ => None end.

Definition load_live_calibration (settings : gmap string (json * instant)) : list (string * json) :=
  default [] (stored_dict settings LIVE_CAL_KEY).
Definition load_meta_gate (settings : gmap string (json * instant)) : option (list (string * json)) :=
  stored_dict settings META_GATE_KEY.

Definition live_calibration_for (cal_all : list (string * json)) (symbol horizon : string)
    : result predict_exn (option (list (string * json))) :=
  of_symbol ← or_empty (jget symbol cal_all);
  let live := jget horizon of_symbol in
  let live :=
    match live with
    | JNull =>
        if String.eqb symbol PRIMARY_FORECAST_SYMBOL then
          match jget horizon cal_all with
          | JObj items => if has_key "n" items then JObj items else JNull
          | _ => JNull
          end
        else JNull
    | v => v
    end in
  Ok (match live with JObj items => Some items | _ => None end).

(** [1.0 - n / 60] *)
Definition unblended_share (n : Z) : result predict_exn float :=
  let q := int_true_div n LIVE_CAL_DENOMINATOR in
  _ ← raise_if (is_inf q) (Raised OverflowError); Ok (fsub fone q).

Definition blended_confidence (validation_confidence : float) (live : option (list (string * json))) (regime : string)
    : result predict_exn float :=
  match live with
  | None | Some [] => Ok (clip_confidence validation_confidence)
  | Some live =>
      n ← int_or_zero (jget "n" live);
      let hit_rate := jget "dir_hit_rate" live in
      stats ← (if String.eqb regime EmptyString then Ok JNull
               else by_regime ← or_empty (jget "by_regime" live); Ok (jget regime by_regime));
      chosen ← (if truthy stats then
                  items ← or_empty stats;
                  m ← int_or_zero (jget "n" items);
                  Ok (if MIN_REGIME_N <=? m then (m, jget "dir_hit_rate" items) else (n, hit_rate))
                else Ok (n, hit_rate));
      let '(n, hit_rate) := chosen in
      blended ← match hit_rate with
                | JNull => Ok validation_confidence
                | v =>
                    if n <=? 0 then Ok validation_confidence
                    else
                      share ← unblended_share n;
                      rate ← lift (json_float_of v);
                      let w := fmax (flit 3 1) share in
                      Ok (fadd (fmul w validation_confidence) (fmul (fsub fone w) rate))
                end;
      Ok (clip_confidence blended)
  end.

Definition coverage_widening (live : option (list (string * json))) : result predict_exn float :=
  match live with
  | None | Some [] => Ok fone
  | Some live =>
      n ← int_or_zero (jget "n" live);
      match jget "coverage" live with
      | JNull => Ok fone
      | v =>
          if n <? MIN_COVERAGE_N then Ok fone
          else
            cov ← lift (json_float_of v);
            Ok (if fge cov COVERAGE_FLOOR then fone
                else if fle cov fzero then MAX_WIDEN_FACTOR
                else fmin (fdiv_ieee NOMINAL_COVERAGE cov) MAX_WIDEN_FACTOR)
      end
  end.

Definition live_coverage_note (live : option (list (string * json))) : result predict_exn coverage_note :=
  let live := default [] live in
  let n := jget "coverage_n" live in
  n ← int_or_zero (if truthy n then n else jget "n" live);
  Ok (match jget "coverage" live with
      | JInt _ | JFloat _ | JBool _ =>
          if n =? 0 then NoLiveEvidence
          else if n <? MIN_SCORED_FOR_COVERAGE then NotMeasurable n else LiveCoverage (jget "coverage" live) n
      | _ => NoLiveEvidence
      end).

(** The miscoverage level the interval is built at. *)
Definition effective_alpha (live : option (list (string * json))) : result predict_exn float :=
  let live := default [] live in
  n ← int_or_zero (jget "n" live);
  match jget "coverage" live with
  | JNull => Ok DEFAULT_ALPHA
  | v =>
      if n <? ACI_MIN_N then Ok DEFAULT_ALPHA
      else x ← lift (json_float_of v); Ok (adaptive_alpha (Some x) n DEFAULT_ALPHA (fsub fone DEFAULT_ALPHA))
  end.

Definition _gate_driver (verdict : GateVerdict) (gate : option (list (string * json))) : result predict_exn driver :=
  n ← int_or_zero (jget "n" (default [] gate));
  let label := name ← worst_feature verdict; Some (default name (assoc name FEATURE_LABELS)) in
  let finite := z ← max_abs_z verdict; if is_finite z then Some z else None in
  Ok (SelfAssessment
        match gate_status_of verdict with
        | untrained => NotAvailable
        | unusable => CouldNotRead
        | out_of_support => Declined label finite n
        | MetaGate.scored =>
            Learned (default fnan (p_hit verdict)) n
              (if thin_support verdict then Some (label, max_abs_z verdict) else None)
        end).

Definition _drivers (fitted : Fitted) (s : series) (regime : string) : result predict_exn (list driver) :=
  match ft_importances fitted with
  | _ :: _ => Ok ((λ nw, Importance nw.1 (py_round nw.2 4)) <$> take 5 (ft_importances fitted))
  | [] =>
      let values := snd <$> s in
      let at_end k := nth (length values - k) values fnan in
      let momentum :=
        if (11 <=? length values)%nat
        then [Momentum10 (fmul (fsub (fdiv_ieee (at_end 1%nat) (at_end 11%nat)) fone) fhundred)] else [] in
      sma ← (if (20 <=? length values)%nat
             then q ← lift (fdiv (at_end 1%nat) (series_mean (last_n 20 values)));
                  Ok [PriceVsSma20 (fmul (fsub q fone) fhundred)]
             else Ok []);
      Ok (momentum ++ sma ++ [RegimeIs regime])
  end.

(** ** The stored form *)
Definition driver_json (d : driver) : json :=
  match d with
  | Importance name weight => JObj [("factor", JStr name); ("importance", JFloat weight)]
  | Momentum10 _ => JObj [("factor", JStr "momentum_10"); ("note", JStr (wording (inl d)))]
  | PriceVsSma20 _ => JObj [("factor", JStr "price_vs_sma20"); ("note", JStr (wording (inl d)))]
  | RegimeIs regime => JObj [("factor", JStr "regime"); ("note", JStr regime)]
  | IntervalQuality _ _ => JObj [("factor", JStr "interval_quality"); ("note", JStr (wording (inl d)))]
  | SelfAssessment _ => JObj [("factor", JStr "self_assessment"); ("note", JStr (wording (inl d)))]
  end.

Definition warning_text (w : warning) : string :=
  match w with
  | Uncertain => "Forecast is an uncertain estimate based on historical patterns, not a guarantee and not financial advice."
  | LastSession => "prices from last session (market closed)"
  | UnderCovered => UNDER_COVERAGE_WARNING
  | BelowCoinFlip =>
      "The system's self-assessment (learned from its own past predictions) rates this call below coin-flip reliability."
  | StaleInput _ | FewResiduals _ _ _ | ProvidersDisagree _ | FewFolds _ => wording (inr w)
  end.

(** ** One forecast *)
Context (clock : predict_moment → instant) (fails : predict_statement → bool)
  (load_artifact : string → option (result predict_exn Artifact)) (market : Settings) (row_ok : Forecast → bool).

Definition stmt (s : predict_statement) : result predict_exn unit := raise_if (fails s) (Failed s).

Definition series_of (db : PredictDB) (symbol : string) (freq : frequency) : result predict_exn series :=
  _ ← stmt (ReadSeries symbol); Ok (load_series (db_prices db) symbol freq).

(** The bars a model is given. *)
Definition served (s : series) (freq : frequency) : series :=
  let complete := _drop_incomplete_bar s freq (clock BarAt) in
  if (MIN_SERVE_POINTS <=? length complete)%nat then complete else s.

(** What the newest observation says of the input, and the warning it earns. *)
Definition freshness (symbol : string) (latest : option PriceRow) (now : instant) : bool * list warning :=
  let observed := (λ p, aware (pr_observed_at p) 0) <$> latest in
  let fresh := is_acceptably_fresh TEHRAN symbol observed (aware now 0) market None in
  (fresh,
   if negb fresh then [StaleInput (staleness_minutes observed now)]
   else if negb (is_fresh observed (stale_minutes market) now) then [LastSession] else []).

(** Live weights for an ensemble whose members all have enough matured rows. *)
Definition live_weights (db : PredictDB) (symbol horizon : string) (members : option (list string))
    : result predict_exn (option (list (string * float))) :=
  match members with
  | None => Ok None
  | Some members =>
      _ ← stmt ReadMembers;
      Ok match live_member_smapes (db_predictions db) horizon members MIN_LIVE_MATURED LIVE_SMAPE_WINDOW symbol (clock MembersAt) with
         | None | Some [] => None
         | Some smapes => Some (inverse_smape_weights smapes)
         end
  end.

Definition context_of (db : PredictDB) (symbol : string) (freq : frequency) : result predict_exn (list (string * series)) :=
  traverse (λ kc, s ← series_of db kc.2 freq; Ok (kc.1, s)) (default [] (assoc symbol SYMBOL_CONTEXTS)).

(** The bounds, their warnings, and what is said of how they were made. *)
Definition interval_of (fitted : Fitted) (residuals : list float) (live : option (list (string * json)))
    : result predict_exn (float * float * list warning * option diagnostics) :=
  let point := ft_point fitted in
  match ft_interval fitted with
  | Some (a, b) =>
      let '(lower, upper) := if fgt a b then (b, a) else (a, b) in
      let '(lower, upper) := (fmin lower point, fmax upper point) in
      widen ← coverage_widening live;
      Ok (if fgt widen fone
          then (fsub point (fmul (fsub point lower) widen), fadd point (fmul (fsub upper point) widen), [UnderCovered], None)
          else (lower, upper, [], None))
  | None =>
      alpha ← effective_alpha live;
      band ← lift (conformal_interval point residuals alpha);
      let '(lower, upper, d) := band in
      Ok (lower, upper,
          (if flt alpha DEFAULT_ALPHA then [UnderCovered] else [])
          ++ (if coverage_guaranteed d then [] else [FewResiduals (n_residuals d) (min_n_symmetric d) alpha]),
          Some d)
  end.

(** The bounds with the disagreement of the providers added. *)
Definition with_provider_gap (db : PredictDB) (symbol : string) (point lower upper : float)
    : result predict_exn (float * float * list warning) :=
  if String.eqb symbol PRIMARY_FORECAST_SYMBOL then
    _ ← stmt ReadGap;
    Ok match provider_gap_pct (db_prices db) "IR_GOLD_18K" (clock GapAt) with
       | Some gap =>
           if fge gap PROVIDER_GAP_WARN_PCT then
             let half_gap := fmul (fdiv_ieee (fdiv_ieee gap (float_of_Z 2)) fhundred) point in
             (fsub lower half_gap, fadd upper half_gap, [ProvidersDisagree gap])
           else (lower, upper, [])
       | None => (lower, upper, [])
       end
  else Ok (lower, upper, []).

(** [metrics.get(key, default)] as a number *)
Definition metric (key : string) (default_ : json) (metrics : list (string * json)) : json := default default_ (assoc key metrics).

(** The confidence after the gate has had its say: with the driver it always leaves and the
    warning it may. *)
Definition gated (gate : option (list (string * json))) (point lower upper expected confidence : float)
    (horizon regime direction : string) (data_fresh : bool) (symbol : string)
    : result predict_exn (float * list driver * list warning) :=
  if String.eqb direction "flat" then Ok (confidence, [], [])
  else
    verdict ← lift (score_meta_gate gate point lower upper expected confidence horizon regime data_fresh symbol);
    d ← _gate_driver verdict gate;
    Ok match p_hit verdict with
       | Some p =>
           (clip_confidence (fadd (fmul (flit 5 1) confidence) (fmul (flit 5 1) p)), [d],
            if flt p (flit 45 2) then [BelowCoinFlip] else [])
       | None => (confidence, [d], [])
       end.

(** What is known once a model is served: the model's row, the bars, the newest price. *)
Record Served : Type := {
  sv_active : ModelRow;
  sv_series : series;
  sv_latest : option PriceRow;
  sv_fitted : Fitted;
  sv_residuals : list float;
}.

(** The reads up to the fit; [inr]: nothing to serve. *)
Definition serve (db : PredictDB) (symbol horizon : string) (freq : frequency) (steps : nat)
    : result predict_exn (Served + unserved) :=
  _ ← stmt ReadActive;
  match _load_active (db_models db) symbol horizon with
  | None => Ok (inr NoActiveModel)
  | Some active =>
      match path ← mo_artifact_path active; if String.eqb path EmptyString then None else load_artifact path with
      | None => Ok (inr ArtifactMissing)
      | Some artifact =>
          artifact ← artifact;
          s ← series_of db symbol freq;
          match s with
          | [] => Ok (inr NoSeries)
          | _ =>
              let s := served s freq in
              _ ← stmt ReadLatest;
              let latest := _latest_observation (db_prices db) symbol in
              weights ← live_weights db symbol horizon (fm_members (ar_model artifact));
              context ← context_of db symbol freq;
              match fm_fit (ar_model artifact) weights context s steps with
              | None => Err ModelFailed
              | Some fitted =>
                  Ok (inl {| sv_active := active; sv_series := s; sv_latest := latest; sv_fitted := fitted;
                             sv_residuals := ar_residual_pcts artifact |})
              end
          end
      end
  end.

(** The row of a served forecast, as of [now]. *)
Definition forecast_row (db : PredictDB) (symbol horizon : string) (freq : frequency) (steps : nat) (now : instant) (sv : Served)
    : result predict_exn Forecast :=
  let point := ft_point (sv_fitted sv) in
  let '(data_fresh, input_warnings) := freshness symbol (sv_latest sv) now in
  let last_price := match sv_latest sv with Some p => pr_value p | None => List.last (snd <$> sv_series sv) fnan end in
  _ ← stmt ReadCalibration;
  live ← live_calibration_for (load_live_calibration (db_settings db)) symbol horizon;
  band ← interval_of (sv_fitted sv) (sv_residuals sv) live;
  let '(lower, upper, band_warnings, diag) := band in
  gap ← with_provider_gap db symbol point lower upper;
  let '(lower, upper, gap_warnings) := gap in
  ratio ← lift (fdiv point last_price);
  let expected := fmul (fsub ratio fone) fhundred in
  let direction := _direction expected in
  regime ← match detect_regime (snd <$> sv_series sv) with Some r => Ok r | None => Err LinAlgError end;
  metrics ← or_empty (mo_metrics (sv_active sv));
  dir_acc ← lift (json_float_of (metric "directional_accuracy" (JFloat (flit 5 1)) metrics));
  rel_width ← (if feq point fzero then Ok fone else lift (fdiv (fsub upper lower) point));
  confidence ← blended_confidence (_confidence dir_acc rel_width) live regime;
  n_folds ← lift (py_int_of (metric "n_folds" (JInt 0) metrics));
  let fold_warnings := if negb (n_folds =? 0) && (n_folds <? 20) then [FewFolds n_folds] else [] in
  target ← lift (match freq with
                 | daily => _bar_aligned_target (sv_series sv) steps horizon now
                 | hourly => _target_time horizon now
                 end);
  drivers ← _drivers (sv_fitted sv) (sv_series sv) regime;
  quality ← match diag with Some d => note ← live_coverage_note live; Ok [IntervalQuality d note] | None => Ok [] end;
  _ ← stmt ReadGate;
  let gate := load_meta_gate (db_settings db) in
  said ← gated gate point lower upper expected confidence horizon regime direction data_fresh symbol;
  let '(final, gate_drivers, gate_warnings) := said in
  Ok {| fc_id := db_next_id db; fc_symbol := symbol; fc_horizon := horizon; fc_model_version_id := Some (mo_id (sv_active sv));
        fc_model_name := mo_model_name (sv_active sv); fc_predicted_at := now; fc_target_time := target;
        fc_point_forecast := point; fc_lower_bound := lower; fc_upper_bound := upper;
        fc_expected_change_pct := expected; fc_direction := direction; fc_confidence := final;
        fc_raw_confidence := Some confidence; fc_regime := regime;
        fc_drivers := driver_json <$> (drivers ++ quality ++ gate_drivers); fc_data_fresh := data_fresh;
        fc_warnings :=
          warning_text <$> ([Uncertain] ++ input_warnings ++ band_warnings ++ gap_warnings ++ fold_warnings ++ gate_warnings);
        fc_actual_value := None; fc_actual_recorded_at := None; fc_created_at := now |}.

Definition insert_forecast (db : PredictDB) (row : Forecast) : PredictDB :=
  {| db_prices := db_prices db; db_models := db_models db; db_predictions := db_predictions db ++ [row];
     db_next_id := db_next_id db + 1; db_settings := db_settings db |}.

Definition _predict_one (db : PredictDB) (symbol horizon : string) (freq : frequency) (steps : nat)
    : result predict_exn (PredictDB * (Forecast + unserved)) :=
  sv ← serve db symbol horizon freq steps;
  match sv with
  | inr why => Ok (db, inr why)
  | inl sv =>
      row ← forecast_row db symbol horizon freq steps (clock ForecastAt) sv;
      _ ← stmt InsertRow;
      _ ← raise_if (negb (row_ok row)) RowRefused;
      Ok (insert_forecast db row, inl row)
  end.
End Predicting.

(** ** The pass *)
Inductive unpredicted : Set := Unserved (why : unserved) | RaisedIn (e : predict_exn).

Record PredictReport : Type := {
  pr_predictions : list Forecast;
  pr_errors : list (string * string * unpredicted);
}.

(** [xs or default], those that are known *)
Definition requested (asked : option (list string)) (all : list string) : list string :=
  List.filter (λ x, mem_name x all) (match asked with None | Some [] => all | Some xs => xs end).

Section Pass.
Context `{G : GateMath} `{O : SqlOrder} `{SA : SqlAscending} `{P : Pandas} `{ST : Statistics} `{NP : NumPy}.
Context (TEHRAN : tzinfo) (np_median : list float → float) (wording : driver + warning → string).
Context (clock : string → string → predict_moment → instant) (fails : string → string → predict_statement → bool)
  (load_artifact : string → option (result predict_exn Artifact)) (market : Settings) (row_ok : Forecast → bool).

Definition predict_one (db : PredictDB) (symbol horizon : string) (freq : frequency) (steps : nat)
    : result predict_exn (PredictDB * (Forecast + unserved)) :=
  _predict_one TEHRAN np_median wording (clock symbol horizon) (fails symbol horizon) load_artifact market row_ok
    db symbol horizon freq steps.

(** One symbol and horizon: whatever it raises is a line of the report. *)
Definition predict_step (x : PredictDB * PredictReport) (sh : string * string) : PredictDB * PredictReport :=
  let '(db, report) := x in
  let add_error why := {| pr_predictions := pr_predictions report; pr_errors := pr_errors report ++ [(sh.1, sh.2, why)] |} in
  match assoc sh.2 HORIZON_SPECS with
  | None => (db, report)
  | Some (freq, steps) =>
      match predict_one db sh.1 sh.2 freq steps with
      | Ok (db', inl row) => (db', {| pr_predictions := pr_predictions report ++ [row]; pr_errors := pr_errors report |})
      | Ok (db', inr why) => (db', add_error (Unserved why))
      | Err e => (db, add_error (RaisedIn e))
      end
  end.

Definition predict_all (db : PredictDB) (horizons symbols : option (list string)) : PredictDB * PredictReport :=
  let pairs := s ← requested symbols FORECAST_SYMBOLS; h ← requested horizons HORIZON_SPECS.*1; [(s, h)] in
  foldl predict_step (db, {| pr_predictions := []; pr_errors := [] |}) pairs.
End Pass.

(** ** What a stored forecast says *)
Section Sound.
Context `{G : GateMath} `{O : SqlOrder} {OL : SqlOrderLaws O} `{SA : SqlAscending} {SL : SqlAscendingLaws SA}
  `{P : Pandas} {PL : PandasLaws P} `{ST : Statistics} `{NP : NumPy} {NL : NumPyLaws NP}.
Context (TEHRAN : tzinfo) (np_median : list float → float) (wording : driver + warning → string).
Context (clock : predict_moment → instant) (fails : predict_statement → bool)
  (load_artifact : string → option (result predict_exn Artifact)) (market : Settings) (row_ok : Forecast → bool).

Lemma clip_confidence_bounds x :
  is_nan x = false → fle (flit 5 2) (clip_confidence x) = true ∧ fle (clip_confidence x) (flit 95 2) = true.
Proof. intros Hx. by apply np_clip_bounds. Qed.

Lemma lift_Ok {A} (r : result pyerr A) x : lift r = Ok x ↔ r = Ok x.
Proof. destruct r; simpl; split; congruence. Qed.

(** The times of a forecast. *)
Lemma target_time_future horizon now t t0 off :
  tz_fixed_since TEHRAN off t0 → t0 + us_day ≤ now → -us_day ≤ off ≤ us_day → _target_time TEHRAN horizon now = Ok t → now < t.
Proof.
  intros [Hu Hw] Hnow Hoff. unfold _target_time.
  destruct (String.eqb _ _); [intros H; apply Ok_inj in H; unfold_time; lia|].
  destruct (String.eqb _ _); [intros H; apply Ok_inj in H; unfold_time; lia|].
  destruct (String.eqb _ _).
  - intros H. apply Ok_inj in H. subst t. cbv zeta. unfold of_wall, to_wall. rewrite (Hu now) by (unfold_time; lia).
    set (local := now + off). set (end_ := PyTime.combine (date_of local) (us_day - us_second)).
    assert (local - us_second < end_ ≤ local + us_day) as Hb.
    { unfold end_, PyTime.combine, date_of. pose proof (Z.div_mod local us_day ltac:(done)).
      pose proof (Z.mod_pos_bound local us_day ltac:(done)). unfold_time. lia. }
    clearbody end_. subst local. destruct (Z.leb_spec end_ (now + off)); rewrite Hw; unfold_time; lia.
  - destruct (assoc _ _) as [days|] eqn:Ha; [|done]. intros H. apply Ok_inj in H. apply assoc_elem in Ha.
    assert (0 < days) by (repeat (apply elem_of_cons in Ha as [[= _ ->]|Ha]; [lia|]); by apply elem_of_nil in Ha).
    unfold_time. lia.
Qed.

(** ** The target of a daily bar *)

(** The gap of two whole buckets, as seconds and back. *)
Lemma gap_seconds d : us_second ≤ d < 2 ^ 53 → 0 < timedelta_seconds (total_seconds d).
Proof.
  intros Hd. unfold timedelta_seconds, total_seconds.
  change us_second with 1000000 in *. rewrite int_of_true_div_million by lia.
  assert (1 ≤ d / 1000000) by (apply Z.div_le_lower_bound; lia). lia.
Qed.

Lemma spacings_elem index x :
  x ∈ spacings_of index → fgt x fzero = true ∧ ∃ i a b, index !! i = Some a ∧ index !! S i = Some b ∧ x = total_seconds (b - a).
Proof.
  unfold spacings_of. rewrite py_sorted_perm, elem_of_bool_filter, list_elem_of_lookup.
  intros [[i Hi] Hx]. split; [done|]. apply lookup_zip_with_Some in Hi as (a&b&->&Ha&Hb).
  exists i, a, b. rewrite lookup_tail in Hb. done.
Qed.

Lemma bucket_bounds size p : 0 < size → pp_observed_at p - size < bucket_of size p ≤ pp_observed_at p.
Proof. intros Hs. unfold bucket_of. pose proof (Z.div_mod (pp_observed_at p) size). pose proof (Z.mod_pos_bound (pp_observed_at p) size). lia. Qed.

(** The bars the model is given are a front of the series that was read. *)
Lemma served_prefix s freq : ∃ k, s = served clock s freq ++ k.
Proof.
  unfold served, _drop_incomplete_bar. destruct (_ <=? _)%nat; [|exists []; by rewrite app_nil_r].
  destruct (last s) as [[t v]|] eqn:Hl; [|exists []; by rewrite app_nil_r].
  destruct (_ <? _); [|exists []; by rewrite app_nil_r].
  exists [(t, v)]. apply last_Some in Hl as [l ->]. by rewrite removelast_last.
Qed.

Lemma strictly_ascending_lookup {A} (key : A → Z) l i a b :
  strictly_ascending key l → (key <$> l) !! i = Some a → (key <$> l) !! S i = Some b → a < b.
Proof.
  intros Hs. revert i. induction Hs as [|x l _ IH Hx]; intros i Ha Hb; [done|]. destruct i as [|i]; [|exact (IH i Ha Hb)].
  simpl in Ha, Hb. injection Ha as <-. apply list_elem_of_lookup_2, list_elem_of_fmap in Hb as (y&->&Hy).
  rewrite Forall_forall in Hx. by apply Hx.
Qed.

Lemma served_daily_gaps prices symbol i a b since :
  (∀ p, p ∈ prices → since ≤ pr_observed_at p ≤ since + 2 ^ 52) →
  (fst <$> served clock (load_series prices symbol daily) daily) !! i = Some a →
  (fst <$> served clock (load_series prices symbol daily) daily) !! S i = Some b →
  us_second ≤ b - a < 2 ^ 53.
Proof.
  intros Hp Ha Hb. set (s := load_series prices symbol daily) in *.
  assert (∀ j x, (fst <$> served clock s daily) !! j = Some x → (fst <$> s) !! j = Some x) as Hfront.
  { intros j x Hj. destruct (served_prefix s daily) as [k Hk]. rewrite Hk, fmap_app. by apply lookup_app_l_Some. }
  apply Hfront in Ha, Hb. unfold s, load_series in Ha, Hb. set (rows := oldest_first _ _) in *.
  destruct (last_by_bucket_spec us_day (point_of <$> rows) symbol) as [Hasc Hbuck _ _].
  assert (∀ j x, (fst <$> daily_close (point_of <$> rows) symbol) !! j = Some x →
    ∃ q, since ≤ pp_observed_at q ≤ since + 2 ^ 52 ∧ bucket_of us_day q = x) as Hin.
  { intros j x Hj%list_elem_of_lookup_2. apply Hbuck in Hj as (q&(r&->&Hr)%list_elem_of_fmap&_&<-).
    exists (point_of r). split; [|done]. apply Hp. unfold rows in Hr. rewrite oldest_first_perm in Hr.
    by apply elem_of_bool_filter in Hr as [? _]. }
  destruct (Hin i a Ha) as (qa&Hqa&Ea), (Hin (S i) b Hb) as (qb&Hqb&Eb).
  assert (a < b) by exact (strictly_ascending_lookup fst _ i a b Hasc Ha Hb).
  unfold bucket_of in Ea, Eb. pose proof (Z.div_mod (pp_observed_at qa) us_day). pose proof (Z.div_mod (pp_observed_at qb) us_day).
  pose proof (Z.mod_pos_bound (pp_observed_at qa) us_day). pose proof (Z.mod_pos_bound (pp_observed_at qb) us_day).
  unfold_time. lia.
Qed.

Lemma bar_target_future (s : series) steps horizon now t t0 off :
  tz_fixed_since TEHRAN off t0 → t0 + us_day ≤ now → -us_day ≤ off ≤ us_day →
  (∀ i a b, (fst <$> s) !! i = Some a → (fst <$> s) !! S i = Some b → us_second ≤ b - a < 2 ^ 53) →
  _bar_aligned_target TEHRAN s steps horizon now = Ok t → now < t.
Proof.
  intros Htz Hnow Hoff Hgaps. unfold _bar_aligned_target. destruct (_ <? 3)%nat; [by eapply target_time_future|]. cbv zeta.
  destruct (spacings_of (fst <$> s) !! _) as [gap|] eqn:Hg; [|by eapply target_time_future].
  apply list_elem_of_lookup_2, spacings_elem in Hg as (_&i&a&b&Ha&Hb&->). specialize (Hgaps i a b Ha Hb).
  pose proof (gap_seconds _ Hgaps). intros H'. apply Ok_inj in H'. destruct (Z.ltb_spec now
    (List.last (fst <$> s) 0 + timedelta_seconds (fmul (total_seconds (b - a)) (float_of_Z (Z.max 1 (Z.of_nat steps)))))); lia.
Qed.

(** ** Confidence *)
Lemma blended_is_clipped validation live regime c :
  blended_confidence validation live regime = Ok c → ∃ x, c = clip_confidence x.
Proof.
  unfold blended_confidence. destruct live as [[|kv live]|]; [intros H; apply Ok_inj in H; subst; by eexists| |
    intros H; apply Ok_inj in H; subst; by eexists].
  intros (n&_&H)%bind_Ok. apply bind_Ok in H as (stats&_&H). apply bind_Ok in H as ([m rate]&_&H). cbv zeta beta iota in H.
  apply bind_Ok in H as (x&_&H). apply Ok_inj in H. by exists x.
Qed.

(** The first row in order is the newest of its kind. *)
Lemma newest_head {A} (key : A → instant) (p : A → bool) l x :
  head (newest_first key (List.filter p l)) = Some x → x ∈ l ∧ p x = true ∧ ∀ y, y ∈ l → p y = true → key y ≤ key x.
Proof.
  intros H. pose proof (newest_first_perm key (List.filter p l)) as Hp. pose proof (newest_first_sorted key (List.filter p l)) as Hs.
  destruct (newest_first key _) as [|z zs]; [done|]. injection H as ->.
  assert (x ∈ List.filter p l) as Hx by (rewrite <-Hp; by left). apply elem_of_bool_filter in Hx as [? ?].
  split_and!; [done..|]. intros y Hy Hpy. assert (y ∈ x :: zs) as [->|Hz]%elem_of_cons by (rewrite Hp; by apply elem_of_bool_filter).
  - lia.
  - apply StronglySorted_inv in Hs as [_ Hall]. rewrite Forall_forall in Hall. by apply Hall.
Qed.

Lemma head_nonempty {A} (key : A → instant) (p : A → bool) l :
  head (newest_first key (List.filter p l)) = None → ∀ y, y ∈ l → p y = false.
Proof.
  intros H y Hy. pose proof (newest_first_perm key (List.filter p l)) as Hp. destruct (newest_first key _); [|done].
  symmetry in Hp. apply Permutation_nil_r in Hp. apply filter_nil_iff in Hp. rewrite Forall_forall in Hp. by apply Hp.
Qed.

(** What a served model was read from. *)
Lemma serve_inv db symbol horizon freq steps sv :
  serve clock fails load_artifact db symbol horizon freq steps = Ok (inl sv) →
  _load_active (db_models db) symbol horizon = Some (sv_active sv)
  ∧ sv_latest sv = _latest_observation (db_prices db) symbol
  ∧ sv_series sv = served clock (load_series (db_prices db) symbol freq) freq
  ∧ load_series (db_prices db) symbol freq ≠ [].
Proof.
  unfold serve. intros (u&_&H)%bind_Ok. destruct (_load_active _ _ _) as [active|]; [|done].
  destruct (path ← mo_artifact_path active; _) as [artifact|]; [|done].
  apply bind_Ok in H as (a&_&H). apply bind_Ok in H as (s&Hs&H).
  unfold series_of in Hs. apply bind_Ok in Hs as (?&_&Hs). apply Ok_inj in Hs. subst s.
  destruct (load_series _ _ _) as [|b bs] eqn:Hl; [done|]. cbv zeta in H.
  apply bind_Ok in H as (?&_&H). apply bind_Ok in H as (w&_&H). apply bind_Ok in H as (c&_&H).
  destruct (fm_fit _ _ _ _ _); [|done]. apply Ok_inj in H. injection H as <-. done.
Qed.

Lemma freshness_warned symbol latest now fresh ws :
  freshness TEHRAN market symbol latest now = (fresh, ws) →
  fresh = false → ws = [StaleInput (staleness_minutes ((λ p, aware (pr_observed_at p) 0) <$> latest) now)].
Proof. unfold freshness. intros [= <- <-] ->. done. Qed.

Lemma series_quoted symbol freq prices :
  load_series prices symbol freq ≠ [] → ∃ p, p ∈ prices ∧ pr_symbol p = symbol ∧ pr_quality p = "ok".
Proof.
  unfold load_series. set (rows := oldest_first _ _). intros H.
  assert (∃ size, closes_of size (point_of <$> rows) symbol
    (match freq with hourly => hourly_close (point_of <$> rows) symbol | daily => daily_close (point_of <$> rows) symbol end))
    as [size Hc] by (destruct freq; eexists; apply last_by_bucket_spec).
  destruct (match freq with hourly => _ | daily => _ end) as [|[b v] bs] eqn:E; [done|].
  destruct (proj1 (co_buckets _ _ _ _ Hc b)) as (q&(r&->&Hr)%list_elem_of_fmap&Hs&_); [by left|].
  unfold rows in Hr. rewrite oldest_first_perm in Hr. apply elem_of_bool_filter in Hr as [Hin Hp].
  apply andb_true_iff in Hp as [[?%String.eqb_eq ?%String.eqb_eq]%andb_true_iff _]. by exists r.
Qed.

(** A price the forecast may be measured from. *)
Definition accepted (symbol : string) (p : PriceRow) : bool := String.eqb (pr_symbol p) symbol && String.eqb (pr_quality p) "ok".

(** A model that may be served. *)
Definition servable (symbol horizon : string) (m : ModelRow) : bool :=
  String.eqb (mo_symbol m) symbol && String.eqb (mo_horizon m) horizon && mo_is_active m.

(** What the meta-gate does to a confidence. *)
Definition gate_effect (db : PredictDB) (raw : float) (row : Forecast) : Prop :=
  fc_confidence row = raw
  ∨ fc_direction row ≠ "flat"
    ∧ ∃ v p, score_meta_gate (load_meta_gate (db_settings db)) (fc_point_forecast row) (fc_lower_bound row) (fc_upper_bound row)
               (fc_expected_change_pct row) raw (fc_horizon row) (fc_regime row) (fc_data_fresh row) (fc_symbol row) = Ok v
      ∧ p_hit v = Some p ∧ fc_confidence row = clip_confidence (fadd (fmul (flit 5 1) raw) (fmul (flit 5 1) p)).

Lemma gated_effect gate point lower upper expected raw horizon regime direction fresh symbol final ds ws :
  gated gate point lower upper expected raw horizon regime direction fresh symbol = Ok (final, ds, ws) →
  final = raw
  ∨ direction ≠ "flat"
    ∧ ∃ v p, score_meta_gate gate point lower upper expected raw horizon regime fresh symbol = Ok v
      ∧ p_hit v = Some p ∧ final = clip_confidence (fadd (fmul (flit 5 1) raw) (fmul (flit 5 1) p)).
Proof.
  unfold gated. destruct (String.eqb_spec direction "flat"); [intros H; apply Ok_inj in H; left; congruence|].
  intros (v&Hv&H)%bind_Ok. apply bind_Ok in H as (d&_&H). apply lift_Ok in Hv. apply Ok_inj in H.
  destruct (p_hit v) as [p|] eqn:Hp; injection H as <- _ _; [right|by left]. split; [done|]. by exists v, p.
Qed.

Ltac next_ok H := apply bind_Ok in H as (?&?&H); cbv zeta beta in H.

Lemma forecast_row_inv db symbol horizon freq steps now sv row :
  forecast_row TEHRAN np_median wording clock fails market db symbol horizon freq steps now sv = Ok row →
  let base := match sv_latest sv with Some p => pr_value p | None => List.last (snd <$> sv_series sv) fnan end in
  fc_id row = db_next_id db ∧ fc_symbol row = symbol ∧ fc_horizon row = horizon
  ∧ fc_model_version_id row = Some (mo_id (sv_active sv)) ∧ fc_model_name row = mo_model_name (sv_active sv)
  ∧ fc_predicted_at row = now ∧ fc_actual_value row = None
  ∧ match freq with
    | daily => _bar_aligned_target TEHRAN (sv_series sv) steps horizon now
    | hourly => _target_time TEHRAN horizon now
    end = Ok (fc_target_time row)
  ∧ (∃ q, fdiv (fc_point_forecast row) base = Ok q ∧ fc_expected_change_pct row = fmul (fsub q fone) fhundred)
  ∧ fc_direction row = _direction (fc_expected_change_pct row)
  ∧ (∃ x, fc_raw_confidence row = Some (clip_confidence x) ∧ gate_effect db (clip_confidence x) row)
  ∧ ∃ ws, freshness TEHRAN market symbol (sv_latest sv) now = (fc_data_fresh row, ws)
      ∧ ∃ more, fc_warnings row = warning_text wording <$> (Uncertain :: ws ++ more).
Proof.
  unfold forecast_row. cbv zeta. destruct (freshness _ _ _ _ _) as [fresh ws] eqn:Hf. intros H.
  next_ok H. next_ok H. apply bind_Ok in H as ([[[lower upper] bw] diag]&_&H).
  apply bind_Ok in H as ([[lo up] gw]&_&H). apply bind_Ok in H as (ratio&Hq%lift_Ok&H). cbv zeta in H.
  next_ok H. next_ok H. next_ok H. next_ok H. apply bind_Ok in H as (raw&Hraw&H). next_ok H.
  apply bind_Ok in H as (target&Ht%lift_Ok&H). next_ok H. next_ok H. next_ok H.
  apply bind_Ok in H as ([[final gd] gws]&Hg&H). apply Ok_inj in H. subst row.
  apply blended_is_clipped in Hraw as [blend ->]. cbn. split_and!; try done.
  - by exists ratio.
  - exists blend. split; [done|]. exact (gated_effect _ _ _ _ _ _ _ _ _ _ _ _ _ _ Hg).
  - exists ws. split; [done|]. eexists. done.
Qed.

Lemma clipped_bounds x :
  is_nan (clip_confidence x) = false → fle (flit 5 2) (clip_confidence x) = true ∧ fle (clip_confidence x) (flit 95 2) = true.
Proof.
  intros Hn. apply clip_confidence_bounds. destruct (is_nan x) eqn:Hx; [|done].
  unfold clip_confidence in Hn. by rewrite np_clip_nan in Hn.
Qed.

Lemma unaccepted db symbol p : _latest_observation (db_prices db) symbol = None → p ∈ db_prices db → accepted symbol p = true → False.
Proof. intros H Hp Ha. pose proof (head_nonempty _ _ _ H p Hp) as Hn. unfold accepted in Ha. simpl in Hn. congruence. Qed.

Lemma predict_one_inv db db' symbol horizon freq steps out :
  _predict_one TEHRAN np_median wording clock fails load_artifact market row_ok db symbol horizon freq steps = Ok (db', out) →
  match out with
  | inr _ => db' = db
  | inl row =>
      db' = insert_forecast db row ∧ row_ok row = true
      ∧ ∃ sv, serve clock fails load_artifact db symbol horizon freq steps = Ok (inl sv)
          ∧ forecast_row TEHRAN np_median wording clock fails market db symbol horizon freq steps (clock ForecastAt) sv = Ok row
  end.
Proof.
  unfold _predict_one. intros ([sv|why]&Hs&H)%bind_Ok; [|apply Ok_inj in H; injection H as <- <-; done].
  apply bind_Ok in H as (row&Hr&H). apply bind_Ok in H as (u&_&H). apply bind_Ok in H as (u'&Hok%raise_if_Ok%negb_false_iff&H).
  apply Ok_inj in H. injection H as <- <-. split_and!; try done. by exists sv.
Qed.

(** C7. A forecast that is stored is one new row with the next id, and the row says what was
    done: it is of the newest active model of its symbol and horizon; its expected change is
    measured from the newest accepted price of the symbol, never from a bar, and its
    direction is read off that change; the raw confidence is within 5% and 95%; the final one
    is the raw one, or, for a call that is not flat and that the gate scored, the mean of the
    two within the same bounds; its target lies after the moment it was made; and a row on
    stale input carries the warning that says so, after the one every forecast carries. *)
Theorem forecast_row_sound db db' symbol horizon freq steps row t0 off since :
  tz_fixed_since TEHRAN off t0 → t0 + us_day ≤ clock ForecastAt → -us_day ≤ off ≤ us_day →
  (∀ p, p ∈ db_prices db → since ≤ pr_observed_at p ≤ since + 2 ^ 52) →
  _predict_one TEHRAN np_median wording clock fails load_artifact market row_ok db symbol horizon freq steps = Ok (db', inl row) →
  db' = insert_forecast db row
  ∧ fc_id row = db_next_id db ∧ fc_symbol row = symbol ∧ fc_horizon row = horizon ∧ fc_actual_value row = None
  ∧ fc_predicted_at row = clock ForecastAt ∧ clock ForecastAt < fc_target_time row
  ∧ (∃ m, m ∈ db_models db ∧ servable symbol horizon m = true ∧ fc_model_version_id row = Some (mo_id m)
       ∧ ∀ m', m' ∈ db_models db → servable symbol horizon m' = true → mo_trained_at m' ≤ mo_trained_at m)
  ∧ (∃ p q, p ∈ db_prices db ∧ accepted symbol p = true
       ∧ (∀ p', p' ∈ db_prices db → accepted symbol p' = true → pr_observed_at p' ≤ pr_observed_at p)
       ∧ fdiv (fc_point_forecast row) (pr_value p) = Ok q
       ∧ fc_expected_change_pct row = fmul (fsub q fone) fhundred ∧ fc_direction row = _direction (fc_expected_change_pct row)
       ∧ ∃ more, fc_warnings row = warning_text wording <$> (Uncertain :: more)
           ∧ (fc_data_fresh row = false →
              StaleInput (staleness_minutes (Some (aware (pr_observed_at p) 0)) (clock ForecastAt)) ∈ more))
  ∧ ∃ raw, fc_raw_confidence row = Some raw ∧ gate_effect db raw row
      ∧ (is_nan raw = false → fle (flit 5 2) raw = true ∧ fle raw (flit 95 2) = true)
      ∧ (is_nan (fc_confidence row) = false →
         fle (flit 5 2) (fc_confidence row) = true ∧ fle (fc_confidence row) (flit 95 2) = true).
Proof.
  intros Htz Hnow Hoff Hsince H. apply predict_one_inv in H as (->&_&sv&Hs&Hr).
  apply serve_inv in Hs as (Ha&Hl&Hsv&Hne). apply forecast_row_inv in Hr. cbv zeta in Hr.
  destruct Hr as (Hid&Hsy&Hh&Hm&_&Hat&Hact&Ht&(q&Hq&He)&Hd&(x&Hraw&Hg)&ws&Hf&more&Hw).
  apply series_quoted in Hne as (p0&Hp0&Hp0s&Hp0q).
  assert (accepted symbol p0 = true) as Hp0a by (unfold accepted; by rewrite Hp0s, Hp0q, String.eqb_refl).
  destruct (sv_latest sv) as [p|] eqn:Hlat; [|exfalso; exact (unaccepted _ _ _ (eq_sym Hl) Hp0 Hp0a)].
  destruct (newest_head _ _ _ _ (eq_sym Hl)) as (Hp&Hpa&Hpn).
  destruct (newest_head _ _ _ _ Ha) as (Hmi&Hms&Hmn).
  split_and!; try done.
  - destruct freq; [by eapply target_time_future|]. eapply bar_target_future; [done..| |exact Ht].
    rewrite Hsv. intros i a b. by apply served_daily_gaps with since.
  - by exists (sv_active sv).
  - exists p, q. split_and!; try done. exists (ws ++ more). split; [done|]. intros Hfresh.
    rewrite (freshness_warned _ _ _ _ _ Hf Hfresh). apply elem_of_app. left. by left.
  - exists (clip_confidence x). split_and!; [done|done| |].
    + apply clipped_bounds.
    + destruct Hg as [->|(_&v&y&_&_&->)]; apply clipped_bounds.
Qed.
End Sound.

(** ** The pass accounts for every pair *)
Section Accounts.
Context `{G : GateMath} `{O : SqlOrder} `{SA : SqlAscending} `{P : Pandas} `{ST : Statistics} `{NP : NumPy}.
Context (TEHRAN : tzinfo) (np_median : list float → float) (wording : driver + warning → string).
Context (clock : string → string → predict_moment → instant) (fails : string → string → predict_statement → bool)
  (load_artifact : string → option (result predict_exn Artifact)) (market : Settings) (row_ok : Forecast → bool).

Abbreviation step := (predict_step TEHRAN np_median wording clock fails load_artifact market row_ok).

Definition pair_of (row : Forecast) : string * string := (fc_symbol row, fc_horizon row).

(** What a pass from [db] has done, having looked at [pairs]. *)
Record accounts (db : PredictDB) (pairs : list (string * string)) (x : PredictDB * PredictReport) : Prop := {
  ac_predictions : db_predictions x.1 = db_predictions db ++ pr_predictions x.2;
  ac_ids : fc_id <$> pr_predictions x.2 = seqZ (db_next_id db) (Z.of_nat (length (pr_predictions x.2)));
  ac_next : db_next_id x.1 = db_next_id db + Z.of_nat (length (pr_predictions x.2));
  ac_rest : db_prices x.1 = db_prices db ∧ db_models x.1 = db_models db ∧ db_settings x.1 = db_settings db;
  ac_pairs : (pair_of <$> pr_predictions x.2) ++ (fst <$> pr_errors x.2) ≡ₚ pairs;
}.

Lemma mem_assoc {A} k (d : list (string * A)) : mem_name k (fst <$> d) = true → ∃ v, assoc k d = Some v.
Proof.
  induction d as [|[k' v] d IH]; [done|]. cbn. destruct (String.eqb k k'); [by exists v|]. exact IH.
Qed.

Lemma accounts_step db pairs x sh :
  accounts db pairs x → mem_name sh.2 (fst <$> HORIZON_SPECS) = true → accounts db (pairs ++ [sh]) (step x sh).
Proof.
  intros [Hp Hi Hn Hr Hs] [[freq steps] Hk]%mem_assoc. destruct x as [d report], sh as [s h]. cbn in *.
  unfold predict_step. cbn. rewrite Hk.
  assert (∀ why d', d' = d → accounts db (pairs ++ [(s, h)])
    (d', {| pr_predictions := pr_predictions report; pr_errors := pr_errors report ++ [(s, h, why)] |})) as Herr.
  { intros why d' ->. split; cbn; try done. rewrite fmap_app, app_assoc. cbn. by rewrite Hs. }
  destruct (predict_one _ _ _ _ _ _ _ _ _ _ _ _ _) as [[d' out]|e] eqn:Hone; [|by apply Herr].
  apply predict_one_inv in Hone. destruct out as [row|why]; [|by apply Herr].
  destruct Hone as (->&_&sv&_&Hrow). apply forecast_row_inv in Hrow as (Hid&Hsy&Hh&_).
  split; cbn.
  - by rewrite Hp, app_assoc.
  - rewrite fmap_app, Hi, length_app, Nat2Z.inj_add, seqZ_app by lia. cbn. rewrite Hid, Hn. done.
  - rewrite length_app, Nat2Z.inj_add, Hn. cbn. lia.
  - done.
  - rewrite fmap_app. cbn. unfold pair_of at 2. rewrite Hsy, Hh, <-Hs. solve_Permutation.
Qed.

Lemma accounts_pass db pairs done_ x :
  accounts db done_ x → Forall (λ sh, mem_name sh.2 (fst <$> HORIZON_SPECS) = true) pairs →
  accounts db (done_ ++ pairs) (foldl step x pairs).
Proof.
  intros Hx Hp. revert done_ x Hx. induction Hp as [|sh pairs Hsh _ IH]; intros done_ x Hx; [by rewrite app_nil_r|].
  cbn [foldl]. rewrite cons_middle, app_assoc. by apply IH, accounts_step.
Qed.

(** C10. Whatever is raised inside it, a pass answers, and it accounts for every requested
    symbol and horizon exactly once: with one row or with one error line.  The rows it
    reports are the rows it stored, in order and under consecutive ids, and a pair that
    failed has changed nothing. *)
Theorem predict_pass_accounts db horizons symbols :
  accounts db (s ← requested symbols FORECAST_SYMBOLS; h ← requested horizons (fst <$> HORIZON_SPECS); [(s, h)])
    (predict_all TEHRAN np_median wording clock fails load_artifact market row_ok db horizons symbols).
Proof.
  unfold predict_all. apply (accounts_pass db _ []).
  - split; cbn; rewrite ?app_nil_r; try done. lia.
  - apply Forall_forall. intros [s h] (s'&H&_)%list_elem_of_bind.
    apply list_elem_of_bind in H as (h'&[= -> ->]%list_elem_of_singleton&Hh).
    by apply elem_of_bool_filter in Hh as [_ ?].
Qed.
End Accounts.

(** ** The gate that was fitted, in use *)
Section Learned.
Context `{G : GateMath} {GL : GateMathLaws G} `{O : SqlOrder} {OL : SqlOrderLaws O} `{I : Interpreter} `{SA : SqlAscending} `{P : Pandas} `{ST : Statistics} `{NP : NumPy}.
Context (TEHRAN : tzinfo) (np_median : list float → float) (wording : driver + warning → string).
Context (clock : predict_moment → instant) (fails : predict_statement → bool)
  (load_artifact : string → option (result predict_exn Artifact)) (market : Settings) (row_ok : Forecast → bool).

(** C8. Where the stored gate is one the evaluation has fitted, it moves the confidence of a
    forecast only for a call that has a direction, and only on evidence: among the rows it
    was trained on are at least ten matured calls of this very symbol at this very number of
    days.  What it moves it to is the clipped mean of the raw confidence and its answer. *)
Theorem confidence_moves_on_own_outcomes db db' symbol horizon freq steps row tbl at_ gate stamp :
  fit_meta_gate tbl at_ = Ok (Some gate) → db_settings db !! META_GATE_KEY = Some (JObj gate, stamp) →
  _predict_one TEHRAN np_median wording clock fails load_artifact market row_ok db symbol horizon freq steps = Ok (db', inl row) →
  fc_raw_confidence row ≠ Some (fc_confidence row) →
  fc_direction row ≠ "flat"
  ∧ ∃ raw p days own,
      fc_raw_confidence row = Some raw
      ∧ fc_confidence row = clip_confidence (fadd (fmul (flit 5 1) raw) (fmul (flit 5 1) p))
      ∧ _horizon_days horizon = Some days
      ∧ own `sublist_of` training_rows tbl ∧ (10 ≤ length own)%nat ∧ Forall (evidence_of symbol days) own.
Proof.
  intros Hfit Hst H Hmoved. apply predict_one_inv in H as (_&_&sv&_&Hr). apply forecast_row_inv in Hr. cbv zeta in Hr.
  destruct Hr as (_&Hsy&Hh&_&_&_&_&_&_&_&(x&Hraw&Hg)&_).
  destruct Hg as [Hsame|(Hflat&v&p&Hv&Hp&Hc)]; [by rewrite Hraw, Hsame in Hmoved|]. split; [done|].
  assert (load_meta_gate (db_settings db) = Some gate) as Hload by (unfold load_meta_gate, stored_dict; by rewrite Hst).
  rewrite Hload, Hsy, Hh in Hv.
  destruct (fitted_gate_answers tbl at_ gate (fc_point_forecast row) (fc_lower_bound row) (fc_upper_bound row)
    (fc_expected_change_pct row) (clip_confidence x) horizon (fc_regime row) (fc_data_fresh row) symbol Hfit) as (v'&Hv'&Hcase).
  rewrite Hv' in Hv. apply Ok_inj in Hv. subst v'. cbv zeta in Hcase. rewrite Hp in Hcase.
  destruct Hcase as (_&xs&days&mean&std&coef&intercept&n&rows&z&own&_&Hd&_&_&_&_&_&_&_&_&_&_&_&Hsub&Hlen&Hall).
  exists (clip_confidence x), p, days, own. done.
Qed.
End Learned.

(** ** A concrete pass *)
#[local] Existing Instance MetaGate.demo_gate_math.
#[local] Existing Instance MetaGate.demo_gate_laws.
#[local] Existing Instance MetaGate.demo_order.
#[local] Existing Instance MetaGate.demo_interpreter.
#[local] Existing Instance SignalAssembly.demo_oldest.
#[local] Existing Instance SignalAssembly.demo_oldest_laws.
#[local] Existing Instance Intervals.exact_numpy.
#[local] Instance demo_order_laws : SqlOrderLaws MetaGate.demo_order.
Proof.
  split; intros A key l; simpl; [apply py_sorted_perm|].
  eapply StronglySorted_impl; [|apply (sort_by_ascending (λ x, - key x))]. intros x y H1; cbn in *; lia.
Qed.

(** Forty days of gold at a hundred. *)
Definition demo_gold : list PriceRow :=
  (λ i, demo_row "IR_GOLD_18K" "ok" "hamrahgold" (demo_day - 39 + Z.of_nat i) 100) <$> seq 0 40.

(** A model that sees ten percent more, between a hundred and a hundred and twenty. *)
Definition demo_model : ForecastModel :=
  {| fm_members := None;
     fm_fit := λ _ _ _ _, Some {| ft_point := float_of_Z 110; ft_interval := Some (fhundred, float_of_Z 120); ft_importances := [] |} |}.

Definition demo_load (path : string) : option (result predict_exn Artifact) :=
  if String.eqb path "gold.joblib" then Some (Ok {| ar_model := demo_model; ar_residual_pcts := [] |}) else None.

Definition demo_models : list ModelRow :=
  (λ hp, {| mo_id := 7; mo_symbol := "IR_GOLD_18K"; mo_horizon := hp.1; mo_model_name := "demo"; mo_trained_at := demo_now - us_day;
            mo_metrics := JObj [("n_folds", JInt 30)]; mo_artifact_path := Some hp.2; mo_is_active := true |})
  <$> [("1d", "gold.joblib"); ("3d", "lost.joblib")].

Definition demo_tables : PredictDB :=
  {| db_prices := demo_gold; db_models := demo_models; db_predictions := []; db_next_id := 1;
     db_settings := {[META_GATE_KEY := (JObj MetaGate.demo_gate, 0)]} |}.

Abbreviation demo_forecast fails horizon steps :=
  (_predict_one tehran_0330 (λ _, fzero) (λ _, "note") (λ _, demo_now) fails demo_load default_settings (λ _, true)
     demo_tables "IR_GOLD_18K" horizon daily steps).
Definition all_well (_ : predict_statement) : bool := false.
Definition demo_forecast_row : option Forecast := match demo_forecast all_well "1d" 1%nat with Ok (_, inl row) => Some row | _ => None end.

(** The gate, fitted on forty calls, moves the confidence; where the artifact is lost or the
    insert fails there is no row. *)
Example demo_forecasts :
  (option_map fc_direction demo_forecast_row, option_map (λ r, feq (fc_confidence r) (default fnan (fc_raw_confidence r))) demo_forecast_row,
   (λ x, match x.2 with inl r => fc_id r | inr _ => 0 end) <$> demo_forecast all_well "3d" 3%nat,
   match demo_forecast (λ s, match s with InsertRow => true | _ => false end) "1d" 1%nat with Err (Failed InsertRow) => true | _ => false end)
  = (Some "up", Some false, Ok 0, true).
Proof. vm_compute. reflexivity. Qed.

Lemma demo_forecast_ok : ∃ db' row, demo_forecast all_well "1d" 1%nat = Ok (db', inl row) ∧ demo_forecast_row = Some row.
Proof.
  unfold demo_forecast_row. assert (match demo_forecast_row with Some _ => true | None => false end = true) as H by (vm_compute; reflexivity).
  unfold demo_forecast_row in H. destruct (demo_forecast all_well "1d" 1%nat) as [[db' [row|why]]|e]; [|discriminate H..].
  exists db', row. done.
Qed.

Lemma forecast_row_sound_witness :
  ∃ row, demo_forecast_row = Some row ∧ demo_now < fc_target_time row ∧ fc_id row = 1
    ∧ ∃ raw, fc_raw_confidence row = Some raw ∧ gate_effect demo_tables raw row.
Proof.
  destruct demo_forecast_ok as (db'&row&H&Hrow).
  destruct (forecast_row_sound tehran_0330 (λ _, fzero) (λ _, "note") (λ _, demo_now) all_well demo_load default_settings (λ _, true)
    demo_tables db' "IR_GOLD_18K" "1d" daily 1%nat row 0 (210 * us_minute) (demo_now - 50 * us_day))
    as (_&Hid&_&_&_&_&Ht&_&_&raw&Hraw&Hg&_); [split; reflexivity| | | |exact H|].
  - apply (bool_decide_unpack _). vm_compute. exact I.
  - split; apply (bool_decide_unpack _); vm_compute; exact I.
  - intros p Hp. apply list_elem_of_fmap in Hp as (i&->&Hi). apply elem_of_seq in Hi. simpl pr_observed_at.
    unfold PyTime.combine, demo_now, PyTime.combine. change (MarketHours.clock 12 45) with 45900000000.
    change (MarketHours.clock 13 0) with 46800000000. unfold_time. lia.
  - exists row. split; [exact Hrow|]. split; [exact Ht|]. split; [exact Hid|]. exists raw. split; [exact Hraw|exact Hg].
Defined.

Lemma confidence_moves_on_own_outcomes_witness :
  ∃ row own, demo_forecast_row = Some row ∧ (10 ≤ length own)%nat ∧ own `sublist_of` training_rows MetaGate.demo_calls.
Proof.
  destruct demo_forecast_ok as (db'&row&H&Hrow).
  destruct (confidence_moves_on_own_outcomes tehran_0330 (λ _, fzero) (λ _, "note") (λ _, demo_now) all_well demo_load
    default_settings (λ _, true) demo_tables db' "IR_GOLD_18K" "1d" daily 1%nat row MetaGate.demo_calls 0 MetaGate.demo_gate 0)
    as (_&raw&p&days&own&_&_&_&Hsub&Hlen&_).
  - vm_compute. reflexivity.
  - reflexivity.
  - exact H.
  - assert (option_map (λ r, match fc_raw_confidence r with Some x => feq x (fc_confidence r) | None => false end) demo_forecast_row
      = Some false) as Hm by (vm_compute; reflexivity).
    intros Heq. rewrite Hrow in Hm. simpl in Hm. rewrite Heq in Hm. injection Hm as Hm. revert Hm.
    assert (option_map (λ r, feq (fc_confidence r) (fc_confidence r)) demo_forecast_row = Some true) as Hs by (vm_compute; reflexivity).
    rewrite Hrow in Hs. simpl in Hs. injection Hs as Hs. rewrite Hs. discriminate.
  - exists row, own. split; [exact Hrow|]. split; [exact Hlen|exact Hsub].
Defined.

(** ** A daily target of one step

    The bar that is served last is complete, so one gap after its start the clock has passed:
    on a series of one bar per day the target of one step is never that of the bar the model
    was trained on, the one still filling, but always a day from now. *)
Lemma one_step_target_is_a_day_ahead (s : series) horizon now :
  (3 ≤ length s)%nat → (∀ i a b, (fst <$> s) !! i = Some a → (fst <$> s) !! S i = Some b → b - a = us_day) →
  List.last (fst <$> s) 0 + us_day ≤ now →
  _bar_aligned_target tehran_0330 s 1 horizon now = Ok (now + us_day).
Proof.
  intros Hlen Hgaps Hdone. unfold _bar_aligned_target. rewrite (proj2 (Nat.ltb_ge _ _) Hlen). cbv zeta.
  assert (∀ x, x ∈ spacings_of (fst <$> s) → x = total_seconds us_day) as Hall.
  { intros x (_&i&a&b&Ha&Hb&->)%spacings_elem. by rewrite (Hgaps i a b). }
  assert (length (spacings_of (fst <$> s)) ≠ 0)%nat as Hne.
  { destruct s as [|[a v] [|[b w] s]]; [simpl in Hlen; lia..|]. pose proof (Hgaps 0%nat a b eq_refl eq_refl) as Hab.
    unfold spacings_of. rewrite py_sorted_length. cbn [fmap list_fmap tail zip_with fst List.filter]. rewrite Hab.
    change (fgt (total_seconds us_day) fzero) with true. simpl. lia. }
  destruct (spacings_of (fst <$> s) !! _) as [gap|] eqn:Hg.
  - apply list_elem_of_lookup_2, Hall in Hg as ->.
    change (timedelta_seconds (fmul (total_seconds us_day) (float_of_Z (Z.max 1 (Z.of_nat 1))))) with us_day.
    change (timedelta_seconds (total_seconds us_day)) with us_day. by rewrite (proj2 (Z.ltb_ge _ _) Hdone).
  - apply lookup_ge_None in Hg. pose proof (Nat.div_lt (length (spacings_of (fst <$> s))) 2). lia.
Qed.
